(* ===== verification/_CoqProject ===== *)
-Q . S2P
Prelude.v
Chain.v
WinTimers.v
MessageQueue.v
Completion.v
Pool.v
FreeRange.v
SwapIndex.v
SwapPager.v
SwapStore.v
SwapFile.v
SdWriteBuffer.v
SdPath.v
SdStatCache.v
SdReadCache.v
Clipboard.v
Async.v
Memfile.v
SectionViews.v
CodeArena.v
CodeQuarantine.v
ReadRedirect.v
FileAccess.v
ObjectDirs.v
SentMessages.v
Threads.v
ServerObjects.v
ServerSync.v
ServerRequests.v
ServerSelect.v
ServerInv.v
ServerLinks.v
ServerWake.v
ServerKeep.v
ServerHandlers.v
ServerPorts.v
ServerClients.v
ServerParts.v
ServerTurns.v
ServerFrames.v
ServerSafe.v
ServerTheorems.v
ServerEvents.v
RegistryNames.v
Registry.v
RegistryInv.v
RegistryTree.v
RegistryText.v
RegistryLoad.v
RegistryRoundtrip.v
RegistryLoadSafe.v
RegistryDirty.v
RegistryFiles.v
RegistryServer.v
RegistryFlush.v
