(* ===== verification/Prelude.v ===== *)
(** * Autorun: verification of the in-process Horizon server and runtime

    Autorun runs Windows programs on the Nintendo Switch. It is Wine with the
    wineserver replaced by a server inside the process
    (src/dlls/ntdll/unix/horizon.c and the horizon_*.h headers beside it) and a
    runtime (src/horizon-wine/source/) that gives Wine memory, files and an x86
    translator on an operating system without them. This library models the
    parts of both that keep state and decide something, and proves what they
    promise. Wine itself is upstream code and is not modelled.

    ** Parts of the program and the files that model them

    Server (src/dlls/ntdll/unix/):
    - [WinTimers]: horizon_win_timers.h, the timers of windows;
    - [MessageQueue], [SentMessages]: horizon_message_queue.h (posted messages)
      and horizon_msg_queue.h (sent messages, their replies, timeouts and the
      end of a thread);
    - [Completion], [Async]: horizon_completion.h (I/O completion ports) and
      horizon_async.h with its handlers in horizon.c (overlapped socket
      operations);
    - [Threads]: horizon_threads.h, the state of threads and mutexes, keyed
      events and the threads to be joined;
    - [ServerObjects], [ServerSync], [ServerRequests], [ServerSelect]: horizon.c,
      the objects and their handles, waits and wake-ups, the requests on objects
      and threads, the loop of a select and the events of the running server;
    - [ServerInv], [ServerLinks], [ServerWake]: the invariant of the server, what
      links of selects do to it, and that sleeping selects have nothing to
      return; [ServerKeep], [ServerHandlers], [ServerPorts], [ServerClients],
      [ServerParts], [ServerTurns], [ServerFrames]: that each operation keeps
      it; [ServerSafe], [ServerTheorems], [ServerEvents]: the running server and
      what it promises;
    - [Clipboard]: horizon_clipboard.h;
    - [FileAccess], [ObjectDirs]: horizon_file_access.h with the opening and
      renaming of files in horizon.c, and horizon_object_dirs.h;
    - [ReadRedirect]: horizon_read_redirect.h, loads emulated by the fault
      handler, with the loads of AArch64 it is compared with;
    - [Memfile], [SectionViews]: horizon_memfile.h (memory behind sections
      without a file) and the part of horizon.c that maps views of them;
    - [Pool], [FreeRange], [SwapIndex]: horizon_pool.h, horizon_free_range.h,
      horizon_swap_index.h, the memory under the mapping layer;
    - [RegistryNames], [Registry], [RegistryInv], [RegistryTree]:
      horizon_registry.h, the tree of keys, and the requests of
      horizon_registry_server.h on it;
    - [RegistryText], [RegistryLoad], [RegistryRoundtrip], [RegistryLoadSafe]:
      the registry files, reader (horizon_registry.h) and writer
      (horizon_registry_server.h);
    - [RegistryDirty], [RegistryFiles], [RegistryServer], [RegistryFlush]: the
      counts of changes, the files of the hives on the card
      (horizon_registry_paths.h too), the first request and the flush of
      horizon_registry_server.h.

    Runtime (src/horizon-wine/source/):
    - [SwapPager], [SwapFile], [SwapStore]: swap_pager.c, swap_file.c and
      swap_store.c, demand paging into files;
    - [SdReadCache], [SdStatCache], [SdWriteBuffer], [SdPath]: the caches in
      front of the SD card;
    - [CodeArena], [CodeQuarantine]: box64_code_arena.h, the allocator of
      translated code.

    [Prelude] has what they share: machine integers, lists updated by index,
    loops over them, tactics and hints. [Chain] is a heap of linked nodes with
    tail pointers, for the queues.

    ** How state and operations correspond to the code

    A struct is a Record with the fields of the struct; a function of the code
    is a Definition or Fixpoint of the same name, and the loops and blocks of a
    long function are definitions of their own that it calls where the code has
    them. A function that changes an object takes it and gives the changed one
    back. Statuses and error numbers are the numbers of the code. An unsigned
    integer of [w] bits is a [Z] with its wrap-around written where the code can
    leave the range.

    Objects the code reaches through pointers that may dangle (objects and
    handles of the server, keys of the registry, queues, messages and results, nodes of lists, open files of the
    read cache) are entries of a map; using an entry that is not there is a
    fault, the value [None] of the model, and theorems of the group "no fault"
    show that it does not happen. Memory that is shared between a component and
    its clients (code arenas, sections, pages of the pager) is one map that both
    change.

    Code outside the tree is a parameter with its documented behaviour as laws:
    the kernel and libnx under [Memfile] and [SectionViews] (class
    [MemfileKernel]), the callbacks of the pager (class [PagerOps]), the card
    under [SdWriteBuffer] (class [SdCard]) and POSIX reads and writes under
    [SwapStore]. [SwapFile] is a client of the store through the class
    [SwapStore] and the store's theorems are its instance. The results of
    [malloc], of the clock and of the random parts of the environment are
    oracles of the state or arguments.

    ** What the theorems show

    - The server, over every order of requests, direct calls, timers, socket
      events and ends of threads: no event faults, the counts of references are
      exact, pointers have objects of their type, the hash of handles agrees
      with the list, a select that sleeps un-notified would only get TIMEOUT
      from looking again, and an auto-reset event goes to the first of the
      threads that sleep on it when that one waits for any of its objects. The
      events are those that [server_allowed] lets happen: a thread makes one
      call at a time, waits only for its own completion wait, and other parts
      use what they hold. The two theorems on wake-ups hold while no mutex count
      has wrapped ([mutex_counts]).
    - Refinement and equivalence: the queues are first-in first-out sequences
      through every sequence of calls; paging, the swap store, the read cache
      and the stat cache are invisible; blocks of the code arena are memory of
      their owners; the fault handler emulates LDR, LDUR, LDTR, LDP and LDPSW
      exactly as AArch64 executes them and refuses every other word. The swap
      store is shown over POSIX descriptors and over a native session; that a
      transfer succeeds is shown where the system fails no call. The stat cache
      is shown for changes that are one step with their forgetting.
    - Safety: no sequence of requests makes the registry (with all its ten
      requests, from the start with loaded hives), the message queues or the
      list of threads to join use a freed object, whichever allocations fail;
      pinned pages do not move;
      events of registry notifications are signaled exactly once or pending;
      any bytes can be loaded as a registry file; a power cut during the flush
      of a hive loses neither the old nor the new content, unless the first
      access() of a .tmp that is the only copy fails ([snapshot_tmp_unseen]);
      open files respect
      what each other shares, however their paths are spelled, when opens come
      one after another ([sharing_check_race] is why that is needed).
    - Invariants of running systems: every change of a hive is counted but for
      the two that [counted_op] leaves out (a class given to a key that exists,
      the deletion of a hive's own key), and a hive that was saved and whose
      count is the saved one is on the card as it is in memory, with requests
      answered during a flush. The ranges of the views of a section are apart
      and show the section, with each reservation a call of its own: while
      every range has its reservation and no other thread takes an address in
      the gap between two of those calls ([all_reserved], [quiet]).
    - Functional behaviour on every branch, errors included: page allocation,
      swap files, the index of swapped pages, timers, the clipboard, cancelled
      and finished socket operations, views of sections, values and keys of the
      registry.
    - Round trips: blocks through the swap file, messages and their replies,
      values through a registry file.
    - Termination: every loop is a structural recursion or has fuel, and the
      theorems say that the result is reached, never only that it is right if it
      is reached.

    ** Bounds and fuel

    Loops that the code ends by reaching an end of a finite structure take as
    fuel a number the structure bounds: the size of the heap plus one for walks
    over parents and releases ([walk_fuel]), the length of the text for the
    reader of registry files, the number of units, pages or entries for
    searches, [HORIZON_REG_MAX_LINKS] + 1 for links of the registry. Where a
    theorem needs that memory holds the structure, the hypothesis is stated with
    the numbers of the code ([reg_fits]: fewer than 2^31 keys and values, fewer
    references than an [unsigned int] counts; [server_fits]: room for 256 more
    references of an object, the most one event adds with the 64 handles of a
    select, one more packet of a port and one more handle). Freeing an object of
    the server frees the objects it refers to, at most three deep (a section, its
    file, the port of the file), so [FREE_DEPTH] is 4.

    ** Not modelled

    The handlers of horizon.c for windows, input and sockets, and those for files
    but for the sharing of files, which translate between the wire and libnx or
    POSIX; of the server's objects,
    message queues as objects, contexts of suspended threads and the length of
    sleeps; the locks (every operation is one step under the lock the code
    holds; a select is a step from one sleep to the next), the threads that
    drive the caches and the pager, the x86 translators, the launcher, graphics,
    audio, downloads and settings: glue, user interface or calls into code that
    is not in the tree. Wine's own libraries and programs are upstream. *)
From Stdlib Require Export Lia.
From stdpp Require Export prelude gmap.
Local Open Scope Z_scope.

(** ** Machine integers

    A [w]-bit unsigned C integer is a [Z]; every C operation that can leave
    the range is followed by the wrap-around of its type. *)

Definition u8 (x : Z) : Z := x `mod` 256.
Definition u16 (x : Z) : Z := x `mod` 65536.
Definition u32 (x : Z) : Z := x `mod` 4294967296.
Definition u64 (x : Z) : Z := x `mod` 18446744073709551616.

Definition UINT_MAX : Z := 4294967295.
Definition UINT64_MAX : Z := 18446744073709551615.
Definition INT_MAX : Z := 2147483647.

(** The errno values the code uses. *)
Definition EINTR : Z := 4.
Definition EIO : Z := 5.
Definition EBADF : Z := 9.
Definition ENOMEM : Z := 12.
Definition EBUSY : Z := 16.
Definition EINVAL : Z := 22.
Definition ENOSPC : Z := 28.

(** The values an [unsigned int] or a 64-bit [size_t] takes. *)
Definition is_u32 (x : Z) : Prop := 0 <= x < 4294967296.
Definition is_u64 (x : Z) : Prop := 0 <= x < 18446744073709551616.

#[export] Instance is_u32_dec x : Decision (is_u32 x).
Proof. unfold is_u32. apply _. Defined.
#[export] Instance is_u64_dec x : Decision (is_u64 x).
Proof. unfold is_u64. apply _. Defined.

Global Arguments u8 : simpl never.
Global Arguments u16 : simpl never.
Global Arguments u32 : simpl never.
Global Arguments u64 : simpl never.

(** C's truth value of an integer. *)
Definition nonzero (x : Z) : bool := negb (x =? 0).

Create HintDb nx discriminated.

Lemma u16_small x : 0 <= x < 65536 -> u16 x = x.
Proof. apply Z.mod_small. Qed.

Lemma u32_small x : is_u32 x -> u32 x = x.
Proof. apply Z.mod_small. Qed.

Lemma u64_small x : is_u64 x -> u64 x = x.
Proof. apply Z.mod_small. Qed.

Lemma u32_range x : is_u32 (u32 x).
Proof. apply Z.mod_pos_bound. lia. Qed.

Lemma u64_range x : is_u64 (u64 x).
Proof. apply Z.mod_pos_bound. lia. Qed.

Lemma u64_idemp x : u64 (u64 x) = u64 x.
Proof. apply Z.mod_mod. lia. Qed.

#[export] Hint Resolve u32_range u64_range : nx.

(** ** Tactics *)

(** Splits every conjunction of the context. *)
Ltac splits_hyps :=
  repeat match goal with
         | H : _ /\ _ |- _ => destruct H
         | H : exists _, _ |- _ => destruct H
         end.

(** Turns the boolean tests of the code into the propositions they decide,
    in the hypotheses and in the goal. *)
Ltac btrue :=
  repeat match goal with
         | H : (_ && _) = true |- _ => apply andb_true_iff in H; destruct H
         | H : (_ || _) = false |- _ => apply orb_false_iff in H; destruct H
         | H : negb _ = true |- _ => apply negb_true_iff in H
         | H : negb _ = false |- _ => apply negb_false_iff in H
         | H : nonzero _ = true |- _ => unfold nonzero in H
         | H : nonzero _ = false |- _ => unfold nonzero in H
         | H : (_ =? _) = true |- _ => apply Z.eqb_eq in H
         | H : (_ =? _) = false |- _ => apply Z.eqb_neq in H
         | H : (_ <? _) = true |- _ => apply Z.ltb_lt in H
         | H : (_ <? _) = false |- _ => apply Z.ltb_ge in H
         | H : (_ <=? _) = true |- _ => apply Z.leb_le in H
         | H : (_ <=? _) = false |- _ => apply Z.leb_gt in H
         | H : bool_decide _ = true |- _ => apply bool_decide_eq_true in H
         | H : bool_decide _ = false |- _ => apply bool_decide_eq_false in H
         end.

(** Case analysis on every condition the goal or a hypothesis is stuck on. *)
Ltac case_if :=
  match goal with
  | |- context [if ?b then _ else _] =>
      lazymatch type of b with bool => destruct b eqn:? end
  | H : context [if ?b then _ else _] |- _ =>
      lazymatch type of b with bool => destruct b eqn:? end
  end.

(** [Forall P l] for a list written out, each element by arithmetic. *)
Ltac forall_concrete :=
  repeat (apply Forall_cons_2; [simpl; try lia; auto|]); try apply Forall_nil_2.

(** A decidable proposition on closed terms, by evaluation. *)
Ltac decide_true := apply (bool_decide_eq_true_1 _); vm_compute; reflexivity.

(** Arithmetic with division and remainder by constants. *)
Ltac zlia :=
  unfold u8, u16, u32, u64, is_u32, is_u64, UINT_MAX, UINT64_MAX in *;
  Z.to_euclidean_division_equations; lia.

(** ** The first element of a list with a property

    A C loop over the links of a list that returns the first link whose node
    has a property gives a position. *)
Fixpoint first_index {A} (p : A -> bool) (l : list A) : option nat :=
  match l with
  | [] => None
  | x :: l => if p x then Some O else S <$> first_index p l
  end.

Section first_index.
Context {A : Type} (p : A -> bool).
Implicit Types l : list A.

Lemma first_index_Some l i :
  first_index p l = Some i <->
  exists x, l !! i = Some x /\ p x = true /\
            forall j y, l !! j = Some y -> (j < i)%nat -> p y = false.
Proof.
  revert i. induction l as [|a l IH]; intros i; simpl.
  { split; [done|]. intros (x & H & _). done. }
  destruct (p a) eqn:Ha.
  - split.
    + intros [= <-]. exists a. repeat split; [done|]. intros j y _ Hj. lia.
    + intros (x & Hx & Hp & Hmin). destruct i as [|i]; [done|].
      specialize (Hmin O a eq_refl ltac:(lia)). congruence.
  - rewrite fmap_Some. split.
    + intros (k & Hk & ->). apply IH in Hk as (x & Hx & Hp & Hmin).
      exists x. repeat split; [done..|]. intros [|j] y Hy Hj; simpl in *.
      * congruence.
      * eapply Hmin; [done|lia].
    + intros (x & Hx & Hp & Hmin). destruct i as [|i]; simpl in *; [congruence|].
      exists i. split; [|done]. apply IH. exists x. repeat split; [done..|].
      intros j y Hy Hj. apply (Hmin (S j) y); [done|lia].
Qed.

Lemma first_index_None l :
  first_index p l = None <-> Forall (fun x => p x = false) l.
Proof.
  induction l as [|a l IH]; simpl; [done|].
  destruct (p a) eqn:Ha.
  - split; [done|]. intros H. inversion H. congruence.
  - split.
    + intros H%fmap_None. constructor; [done|]. by apply IH.
    + intros H. inversion H; subst. apply fmap_None. by apply IH.
Qed.

Lemma first_index_lt l i : first_index p l = Some i -> (i < length l)%nat.
Proof. intros (x & Hx & _)%first_index_Some. by eapply lookup_lt_Some. Qed.
End first_index.

(** ** Deleting by position *)
Lemma delete_elem_of {A} (l : list A) i x : x ∈ delete i l -> x ∈ l.
Proof. intros Hx. eapply elem_of_sublist; [done|apply sublist_delete]. Qed.

Lemma NoDup_delete {A} (l : list A) i : NoDup l -> NoDup (delete i l).
Proof. intros Hn. eapply sublist_NoDup; [done|apply sublist_delete]. Qed.

#[export] Hint Resolve NoDup_delete Forall_delete : nx.

(** ** Writing a block into an array

    [memcpy( a + at, data, n )] and [memset( a + at, v, n )] inside bounds. *)
Definition splice {A} (l : list A) (at_ : nat) (data : list A) : list A :=
  take at_ l ++ data ++ drop (at_ + length data) l.

Section splice.
Context {A : Type}.
Implicit Types l data : list A.

Lemma length_splice l i data :
  (i + length data <= length l)%nat -> length (splice l i data) = length l.
Proof. intros H. unfold splice. rewrite !length_app, length_take, length_drop. lia. Qed.

Lemma lookup_splice_in l i data j :
  (i + length data <= length l)%nat -> (i <= j < i + length data)%nat ->
  splice l i data !! j = data !! (j - i)%nat.
Proof.
  intros H Hj. unfold splice. rewrite lookup_app_r by (rewrite length_take; lia).
  rewrite length_take, Nat.min_l by lia. rewrite lookup_app_l by lia. done.
Qed.

Lemma lookup_splice_out l i data j :
  (i + length data <= length l)%nat -> ~ (i <= j < i + length data)%nat ->
  splice l i data !! j = l !! j.
Proof.
  intros H Hj. unfold splice. destruct (decide (j < i)%nat).
  - rewrite lookup_app_l by (rewrite length_take; lia). by rewrite lookup_take_lt by lia.
  - rewrite lookup_app_r by (rewrite length_take; lia).
    rewrite length_take, Nat.min_l by lia. rewrite lookup_app_r by lia.
    rewrite lookup_drop. f_equal. lia.
Qed.

(** Writing at or before the end; the array grows when the block does not fit. *)
Lemma length_splice_grow l i data :
  (i <= length l)%nat -> length (splice l i data) = (length l `max` (i + length data))%nat.
Proof. intros H. unfold splice. rewrite !length_app, length_take, length_drop. lia. Qed.

Lemma lookup_splice_grow_in l i data j :
  (i <= length l)%nat -> (i <= j < i + length data)%nat ->
  splice l i data !! j = data !! (j - i)%nat.
Proof.
  intros H Hj. unfold splice. rewrite lookup_app_r by (rewrite length_take; lia).
  rewrite length_take, Nat.min_l by lia. by rewrite lookup_app_l by lia.
Qed.

Lemma lookup_splice_grow_out l i data j :
  (i <= length l)%nat -> (j < length l)%nat -> ~ (i <= j < i + length data)%nat ->
  splice l i data !! j = l !! j.
Proof.
  intros Hi Hl Hj. unfold splice. destruct (decide (j < i)%nat).
  - rewrite lookup_app_l by (rewrite length_take; lia). by rewrite lookup_take_lt.
  - rewrite lookup_app_r by (rewrite length_take; lia). rewrite length_take, Nat.min_l by lia.
    rewrite lookup_app_r by lia. rewrite lookup_drop. f_equal. lia.
Qed.

Lemma splice_decompose l i data mid :
  (i + length data <= length l)%nat -> length mid = length data ->
  (forall j, (i <= j < i + length data)%nat -> l !! j = mid !! (j - i)%nat) ->
  l = take i l ++ mid ++ drop (i + length data) l.
Proof.
  intros H Hm Hl. apply list_eq. intros j. rewrite <- Hm. change (l !! j = splice l i mid !! j).
  destruct (decide (i <= j < i + length mid)%nat).
  - rewrite lookup_splice_in by lia. apply Hl. lia.
  - by rewrite lookup_splice_out by lia.
Qed.
End splice.

(** How many elements of a list have a property. *)
Definition countb {A} (p : A -> bool) (l : list A) : nat := length (List.filter p l).

Lemma countb_app {A} (p : A -> bool) l1 l2 : countb p (l1 ++ l2) = (countb p l1 + countb p l2)%nat.
Proof. unfold countb. by rewrite List.filter_app, length_app. Qed.

Lemma countb_le {A} (p : A -> bool) l : (countb p l <= length l)%nat.
Proof. apply filter_length_le. Qed.

Lemma countb_replicate {A} (p : A -> bool) n x :
  countb p (replicate n x) = if p x then n else 0%nat.
Proof.
  induction n as [|n IH]; unfold countb in *; simpl; [by destruct (p x)|].
  destruct (p x); simpl; lia.
Qed.

Lemma countb_insert {A} (p : A -> bool) l i x y :
  l !! i = Some x ->
  (countb p (<[i := y]> l) + (if p x then 1 else 0) = countb p l + (if p y then 1 else 0))%nat.
Proof.
  intros Hx. rewrite insert_take_drop by (by eapply lookup_lt_Some).
  assert (Hl : countb p l = countb p (take i l ++ x :: drop (S i) l))
    by (by rewrite (take_drop_middle l i x Hx)).
  rewrite Hl, !countb_app. unfold countb. simpl. destruct (p x), (p y); simpl; lia.
Qed.

Lemma countb_full {A} (p : A -> bool) l :
  countb p l = length l -> Forall (fun x => p x = true) l.
Proof.
  induction l as [|x l IH]; unfold countb in *; simpl; [done|]. destruct (p x) eqn:Hp; simpl.
  - intros H. constructor; [done|]. apply IH. lia.
  - pose proof (filter_length_le p l). lia.
Qed.

Lemma countb_cons {A} (p : A -> bool) x l : countb p (x :: l) = ((if p x then 1 else 0) + countb p l)%nat.
Proof. unfold countb. simpl. by destruct (p x). Qed.

Lemma countb_perm {A} (p : A -> bool) l1 l2 : l1 ≡ₚ l2 -> countb p l1 = countb p l2.
Proof.
  induction 1 as [|x l1 l2 _ IH|x y l|l1 l2 l3 _ IH1 _ IH2]; [done| | |congruence]; rewrite !countb_cons; lia.
Qed.

Lemma countb_ext {A} (p q : A -> bool) l : (forall x, p x = q x) -> countb p l = countb q l.
Proof. intros Hpq. unfold countb. f_equal. by apply List.filter_ext. Qed.

(** How many entries of a map have a property. *)
Definition count_map {A} (p : A -> bool) (m : gmap positive A) : nat := countb p (snd <$> map_to_list m).

Lemma count_map_empty {A} (p : A -> bool) : count_map p ∅ = 0%nat.
Proof. unfold count_map. by rewrite map_to_list_empty. Qed.

Lemma count_map_new {A} (p : A -> bool) m i x : m !! i = None -> count_map p (<[i := x]> m) = ((if p x then 1 else 0) + count_map p m)%nat.
Proof.
  intros Hi. unfold count_map. rewrite <- countb_cons. apply countb_perm. change (x :: (snd <$> map_to_list m)) with (snd <$> ((i, x) :: map_to_list m)).
  apply fmap_Permutation. by apply map_to_list_insert.
Qed.

Lemma count_map_delete {A} (p : A -> bool) m i x : m !! i = Some x -> count_map p m = ((if p x then 1 else 0) + count_map p (delete i m))%nat.
Proof. intros Hi. rewrite <- (insert_delete_id m i x Hi) at 1. apply count_map_new. apply lookup_delete_eq. Qed.

Lemma count_map_update {A} (p : A -> bool) m i x y :
  m !! i = Some x -> (count_map p (<[i := y]> m) + (if p x then 1 else 0) = count_map p m + (if p y then 1 else 0))%nat.
Proof.
  intros Hi. rewrite (count_map_delete p m i x Hi), <- insert_delete_eq, count_map_new by apply lookup_delete_eq. lia.
Qed.

(** The sum of a number over a map, and the lists of its entries in one. *)
Definition sum_map {A} (f : A -> Z) (m : gmap positive A) : Z := foldr (fun x acc => f x + acc) 0 (snd <$> map_to_list m).
Definition bind_map {A B} (f : A -> list B) (m : gmap positive A) : list B := (snd <$> map_to_list m) ≫= f.

Lemma sum_perm {A} (f : A -> Z) l1 l2 : l1 ≡ₚ l2 -> foldr (fun x acc => f x + acc) 0 l1 = foldr (fun x acc => f x + acc) 0 l2.
Proof. induction 1 as [|x l1 l2 _ IH|x y l|l1 l2 l3 _ IH1 _ IH2]; simpl; [done|lia|lia|congruence]. Qed.

Lemma map_values_new {A} (m : gmap positive A) i x : m !! i = None -> (snd <$> map_to_list (<[i := x]> m)) ≡ₚ x :: (snd <$> map_to_list m).
Proof. intros Hi. change (x :: (snd <$> map_to_list m)) with (snd <$> ((i, x) :: map_to_list m)). apply fmap_Permutation. by apply map_to_list_insert. Qed.

Lemma sum_map_empty {A} (f : A -> Z) : sum_map f ∅ = 0.
Proof. unfold sum_map. by rewrite map_to_list_empty. Qed.

Lemma sum_map_new {A} (f : A -> Z) m i x : m !! i = None -> sum_map f (<[i := x]> m) = f x + sum_map f m.
Proof. intros Hi. unfold sum_map. by rewrite (sum_perm f _ _ (map_values_new m i x Hi)). Qed.

Lemma sum_map_delete {A} (f : A -> Z) m i x : m !! i = Some x -> sum_map f m = f x + sum_map f (delete i m).
Proof. intros Hi. rewrite <- (insert_delete_id m i x Hi) at 1. apply sum_map_new. apply lookup_delete_eq. Qed.

Lemma sum_map_update {A} (f : A -> Z) m i x y : m !! i = Some x -> sum_map f (<[i := y]> m) = sum_map f m - f x + f y.
Proof. intros Hi. rewrite (sum_map_delete f m i x Hi), <- insert_delete_eq, sum_map_new by apply lookup_delete_eq. lia. Qed.

Lemma bind_map_empty {A B} (f : A -> list B) : bind_map f ∅ = [].
Proof. unfold bind_map. by rewrite map_to_list_empty. Qed.

Lemma bind_map_new {A B} (f : A -> list B) m i x : m !! i = None -> bind_map f (<[i := x]> m) ≡ₚ f x ++ bind_map f m.
Proof. intros Hi. unfold bind_map. by rewrite (map_values_new m i x Hi). Qed.

Lemma bind_map_delete {A B} (f : A -> list B) m i x : m !! i = Some x -> bind_map f m ≡ₚ f x ++ bind_map f (delete i m).
Proof. intros Hi. rewrite <- (insert_delete_id m i x Hi) at 1. apply bind_map_new. apply lookup_delete_eq. Qed.

Lemma bind_map_update {A B} (f : A -> list B) m i x y : m !! i = Some x -> bind_map f (<[i := y]> m) ≡ₚ f y ++ bind_map f (delete i m).
Proof. intros Hi. rewrite <- insert_delete_eq. apply bind_map_new. apply lookup_delete_eq. Qed.

Lemma elem_of_bind_map {A B} (f : A -> list B) m z : z ∈ bind_map f m <-> exists i x, m !! i = Some x /\ z ∈ f x.
Proof.
  unfold bind_map. rewrite list_elem_of_bind. split.
  - intros (x & Hz & Hx). apply list_elem_of_fmap in Hx as ([i x'] & -> & Hi). apply elem_of_map_to_list in Hi. by exists i, x'.
  - intros (i & x & Hi & Hz). exists x. split; [done|]. apply list_elem_of_fmap. exists (i, x). split; [done|]. by apply elem_of_map_to_list.
Qed.

(** A property that every step keeps holds after any number of steps. *)
Lemma rtc_keeps {A} (R : relation A) (P : A -> Prop) x y :
  (forall x y, R x y -> P x -> P y) -> rtc R x y -> P x -> P y.
Proof. intros HR Hxy. induction Hxy as [|x y z Hst _ IH]; [done|]. intros Hx. by eapply IH, HR. Qed.

(** Replacing an element of a list without duplicates by a new one. *)
Lemma NoDup_insert_fresh {A} (l : list A) i old x :
  NoDup l -> l !! i = Some old -> x ∉ l ->
  NoDup (<[i := x]> l) /\ forall y, y ∈ <[i := x]> l <-> y = x \/ y ∈ l /\ y <> old.
Proof.
  intros Hn Hi Hx. assert (Hlt : (i < length l)%nat) by (by eapply lookup_lt_Some). split.
  - rewrite insert_take_drop by done. rewrite <- (take_drop_middle l i old Hi) in Hn, Hx.
    rewrite not_elem_of_app, not_elem_of_cons in Hx. destruct Hx as (Hx1 & Hx2 & Hx3).
    apply list.NoDup_app in Hn as (N1 & N2 & N3). inversion N3; subst.
    apply list.NoDup_app. split_and!; [done| |by constructor].
    intros y Hy1 Hy2. apply elem_of_cons in Hy2 as [->|Hy2]; [done|].
    apply (N2 y Hy1). apply elem_of_cons. by right.
  - intros y. split.
    + intros Hin. apply list_elem_of_lookup in Hin as [j Hj].
      apply list_lookup_insert_Some in Hj as [(_ & -> & _)|[Hne Hj]]; [by left|right].
      split; [by eapply list_elem_of_lookup_2|]. intros ->. apply Hne. by eapply NoDup_lookup.
    + intros [->|[Hin Hne]]; [eapply list_elem_of_lookup_2; by apply list_lookup_insert_eq|].
      apply list_elem_of_lookup in Hin as [j Hj]. eapply list_elem_of_lookup_2.
      rewrite list_lookup_insert_ne; [exact Hj|]. intros <-. congruence.
Qed.
