(* ===== verification/Chain.v ===== *)
(** * Singly linked lists on a heap

    The queues of the Horizon server are C lists of [malloc]ed nodes reached
    through links: a link is the address of the list's head field or of a
    node's [next] field. This file models such a list with an explicit heap,
    so that the code that keeps a tail pointer into it can be stated as
    written, and relates it to the sequence of its payloads. *)
From S2P Require Import Prelude.

(** Addresses of nodes; [None] is NULL. *)
Abbreviation ptr := (option positive).

(** [struct T **]: the address of the head, or of the [next] of a node. *)
Inductive link := LHead | LNext (l : positive).

#[export] Instance link_eq_dec : EqDecision link.
Proof. solve_decision. Defined.

Record clist (A : Type) := mk_clist {
  cl_heap : gmap positive (A * ptr);
  cl_head : ptr;
}.
Arguments mk_clist {A}.
Arguments cl_heap {A}.
Arguments cl_head {A}.

Section clist.
Context {A : Type}.
Implicit Types (s : clist A) (k : link) (p : ptr).

(** [*link], [*link = p], [malloc] and [free]. *)
Definition link_get s k : ptr :=
  match k with
  | LHead => cl_head s
  | LNext l => '(_, n) ← cl_heap s !! l; n
  end.

Definition link_set s k p : clist A :=
  match k with
  | LHead => {| cl_heap := cl_heap s; cl_head := p |}
  | LNext l => {| cl_heap := alter (fun '(x, _) => (x, p)) l (cl_heap s);
                  cl_head := cl_head s |}
  end.

Definition node_new s : positive := fresh (dom (cl_heap s) : gset positive).

Definition node_put s (l : positive) (x : A) (n : ptr) : clist A :=
  {| cl_heap := <[l := (x, n)]> (cl_heap s); cl_head := cl_head s |}.

Definition node_free s (l : positive) : clist A :=
  {| cl_heap := delete l (cl_heap s); cl_head := cl_head s |}.

Definition clist_empty : clist A := {| cl_heap := ∅; cl_head := None |}.

(** The list at [s] has the nodes [ls], in order, with the payloads [xs]. *)
Record clist_rep s (ls : list positive) (xs : list A) : Prop := {
  rep_nodup : NoDup ls;
  rep_length : length ls = length xs;
  rep_head : cl_head s = ls !! 0%nat;
  rep_node : forall i l x, ls !! i = Some l -> xs !! i = Some x ->
               cl_heap s !! l = Some (x, ls !! S i);
}.

(** The link to the node at position [i]. *)
Definition link_at (ls : list positive) (i : nat) : link :=
  match i with
  | O => LHead
  | S j => match ls !! j with Some l => LNext l | None => LHead end
  end.

Lemma rep_payload s ls xs i l :
  clist_rep s ls xs -> ls !! i = Some l -> exists x, xs !! i = Some x.
Proof.
  intros Hr Hl. apply lookup_lt_is_Some. rewrite <- (rep_length _ _ _ Hr).
  by eapply lookup_lt_Some.
Qed.

Lemma rep_position s ls xs i x :
  clist_rep s ls xs -> xs !! i = Some x -> exists l, ls !! i = Some l.
Proof.
  intros Hr Hl. apply lookup_lt_is_Some. rewrite (rep_length _ _ _ Hr).
  by eapply lookup_lt_Some.
Qed.

Lemma rep_empty : clist_rep clist_empty [] [].
Proof. split; [constructor|done|done|done]. Qed.

Lemma link_get_at s ls xs i :
  clist_rep s ls xs -> (i <= length ls)%nat -> link_get s (link_at ls i) = ls !! i.
Proof.
  intros Hr Hi. destruct i as [|j]; simpl; [by apply rep_head in Hr|].
  destruct (ls !! j) as [l|] eqn:Hj; [|apply lookup_ge_None in Hj; lia].
  destruct (rep_payload _ _ _ _ _ Hr Hj) as [x Hx].
  simpl. by rewrite (rep_node _ _ _ Hr _ _ _ Hj Hx).
Qed.

Lemma node_new_fresh s : cl_heap s !! node_new s = None.
Proof. unfold node_new. apply (not_elem_of_dom (D := gset positive)), is_fresh. Qed.

Lemma rep_fresh s ls xs l : clist_rep s ls xs -> cl_heap s !! l = None -> l ∉ ls.
Proof.
  intros Hr Hl (i & Hi)%list_elem_of_lookup.
  destruct (rep_payload _ _ _ _ _ Hr Hi) as [x Hx].
  rewrite (rep_node _ _ _ Hr _ _ _ Hi Hx) in Hl. done.
Qed.

(** Two links of one list are equal only at the same position. *)
Lemma link_at_inj ls i j :
  NoDup ls -> (i <= length ls)%nat -> (j <= length ls)%nat ->
  link_at ls i = link_at ls j -> i = j.
Proof.
  intros Hn Hi Hj. destruct i as [|i], j as [|j]; simpl; [done|..].
  - destruct (ls !! j) eqn:E; [done|]. apply lookup_ge_None in E. lia.
  - destruct (ls !! i) eqn:E; [done|]. apply lookup_ge_None in E. lia.
  - destruct (ls !! i) eqn:Ei; [|apply lookup_ge_None in Ei; lia].
    destruct (ls !! j) eqn:Ej; [|apply lookup_ge_None in Ej; lia].
    intros [= ->]. f_equal. by eapply NoDup_lookup.
Qed.

(** *** Appending a fresh node at the last link *)
Lemma rep_append s ls xs l x :
  clist_rep s ls xs -> cl_heap s !! l = None ->
  clist_rep (link_set (node_put s l x None) (link_at ls (length ls)) (Some l))
    (ls ++ [l]) (xs ++ [x]).
Proof.
  intros Hr Hf. pose proof (rep_fresh _ _ _ _ Hr Hf) as Hnew.
  pose proof (rep_length _ _ _ Hr) as Hlen. split.
  - apply list.NoDup_app. split_and!; [by apply Hr| |apply NoDup_singleton].
    intros l' Hl' Heq%list_elem_of_singleton. by subst.
  - rewrite !length_app. simpl. lia.
  - destruct ls as [|l0 ls0]; [done|]. simpl.
    destruct (lookup_lt_is_Some_2 (l0 :: ls0) (length ls0) ltac:(simpl; lia)) as [m Hm].
    rewrite Hm. simpl. by rewrite (rep_head _ _ _ Hr).
  - intros i l' x' [Hl'|[Hge Hl']]%lookup_app_Some Hx'.
    + pose proof (lookup_lt_Some _ _ _ Hl') as Hlt.
      rewrite lookup_app_l in Hx' by lia.
      assert (Hne : l' <> l) by (intros ->; apply Hnew; by eapply list_elem_of_lookup_2).
      pose proof (rep_node _ _ _ Hr _ _ _ Hl' Hx') as Hnode.
      destruct (length ls) as [|n] eqn:Hn; [lia|]. simpl.
      destruct (lookup_lt_is_Some_2 ls n ltac:(lia)) as [m Hm]. rewrite Hm. simpl.
      destruct (decide (m = l')) as [->|Hml].
      * assert (i = n) as -> by (eapply NoDup_lookup; [apply Hr|done|done]).
        rewrite lookup_alter_eq, lookup_insert_ne, Hnode by done. simpl.
        rewrite lookup_app_r by lia. rewrite Hn, Nat.sub_diag. done.
      * rewrite lookup_alter_ne, lookup_insert_ne, Hnode by done.
        rewrite lookup_app_l; [done|].
        assert (i <> n) by (intros ->; congruence). lia.
    + apply list_lookup_singleton_Some in Hl' as [Hi <-].
      rewrite lookup_app_r in Hx' by lia.
      replace (i - length xs)%nat with 0%nat in Hx' by lia. simplify_eq/=.
      rewrite (lookup_ge_None_2 (ls ++ [l]) (S i)) by (rewrite length_app; simpl; lia).
      destruct (link_at ls (length ls)) as [|m] eqn:Hk; simpl; [by rewrite lookup_insert_eq|].
      rewrite lookup_alter_ne, lookup_insert_eq; [done|]. intros ->.
      apply Hnew. destruct (length ls) as [|n]; simpl in Hk; [done|].
      destruct (ls !! n) eqn:En; [|done]. simplify_eq. by eapply list_elem_of_lookup_2.
Qed.

(** *** Unlinking a node *)
Lemma link_at_delete ls i j :
  (j <= i)%nat -> link_at (delete i ls) j = link_at ls j.
Proof. destruct j as [|j]; simpl; [done|]. intros Hj. by rewrite list_lookup_delete_lt by lia. Qed.

Lemma lookup_S_delete (ls : list positive) i j l :
  delete i ls !! j = Some l ->
  ((j < i)%nat /\ ls !! j = Some l /\ (S j = i -> delete i ls !! S j = ls !! S i) /\
    (S j <> i -> delete i ls !! S j = ls !! S j)) \/
  (i <= j /\ ls !! S j = Some l /\ delete i ls !! S j = ls !! S (S j))%nat.
Proof.
  intros Hj. destruct (decide (j < i)%nat) as [Hlt|Hge].
  - left. rewrite list_lookup_delete_lt in Hj by done. split_and!; [done..| |].
    + intros <-. rewrite list_lookup_delete_ge by lia. done.
    + intros Hne. rewrite list_lookup_delete_lt by lia. done.
  - right. rewrite list_lookup_delete_ge in Hj by lia.
    split_and!; [lia|done|]. rewrite list_lookup_delete_ge by lia. done.
Qed.

Lemma rep_remove s ls xs i l :
  clist_rep s ls xs -> ls !! i = Some l ->
  clist_rep (node_free (link_set s (link_at ls i) (ls !! S i)) l) (delete i ls) (delete i xs).
Proof.
  intros Hr Hl. pose proof (rep_length _ _ _ Hr) as Hlen.
  pose proof (lookup_lt_Some _ _ _ Hl) as Hi.
  assert (Hother : forall j m, ls !! j = Some m -> j <> i -> m <> l).
  { intros j m Hm Hne ->. apply Hne. eapply NoDup_lookup; [apply Hr|done..]. }
  split.
  - apply NoDup_delete, Hr.
  - rewrite !length_delete; [lia|by apply lookup_lt_is_Some; lia..].
  - destruct i as [|i]; simpl.
    + rewrite list_lookup_delete_ge by lia. done.
    + destruct (lookup_lt_is_Some_2 ls i ltac:(lia)) as [m ->]. simpl.
      rewrite list_lookup_delete_lt by lia. by apply rep_head in Hr.
  - intros j m y Hm Hy. apply lookup_S_delete in Hm as [(Hj & Hm & Hn1 & Hn2)|(Hj & Hm & Hn)].
    + rewrite list_lookup_delete_lt in Hy by done. simpl.
      rewrite lookup_delete_ne by (apply not_eq_sym, (Hother j); [done|lia]).
      pose proof (rep_node _ _ _ Hr _ _ _ Hm Hy) as Hnode.
      destruct i as [|i]; [lia|]. simpl.
      destruct (ls !! i) as [k|] eqn:Hk; [|apply lookup_ge_None in Hk; lia]. simpl.
      destruct (decide (j = i)) as [->|Hne].
      * simplify_eq. rewrite lookup_alter_eq, Hnode. simpl. by rewrite Hn1.
      * rewrite lookup_alter_ne, Hnode; [by rewrite Hn2 by lia|].
        intros ->. apply Hne. eapply NoDup_lookup; [apply Hr|done..].
    + rewrite list_lookup_delete_ge in Hy by lia. rewrite Hn. simpl.
      rewrite lookup_delete_ne by (apply not_eq_sym, (Hother (S j)); [done|lia]).
      pose proof (rep_node _ _ _ Hr _ _ _ Hm Hy) as Hnode.
      destruct i as [|i]; simpl; [done|].
      destruct (ls !! i) as [k|] eqn:Hk; [|apply lookup_ge_None in Hk; lia]. simpl.
      rewrite lookup_alter_ne, Hnode; [done|].
      intros ->. assert (S j = i) by (eapply NoDup_lookup; [apply Hr|done..]). lia.
Qed.

(** *** Walking the links

    The loop that follows the links from [k] until the node under one has
    the property, with [Some None] for NULL and [None] when the fuel runs out. *)
Fixpoint clist_find (fuel : nat) s (p : A -> bool) k : option (option link) :=
  match fuel with
  | O => None
  | S fuel =>
      match link_get s k with
      | None => Some None
      | Some l =>
          '(x, _) ← cl_heap s !! l;
          if p x : bool then Some (Some k) else clist_find fuel s p (LNext l)
      end
  end.

Lemma clist_find_rep fuel s ls xs (p : A -> bool) i :
  clist_rep s ls xs -> (i <= length ls)%nat -> (length ls - i < fuel)%nat ->
  clist_find fuel s p (link_at ls i) =
    Some ((fun j => link_at ls (i + j)) <$> first_index p (drop i xs)).
Proof.
  intros Hr. pose proof (rep_length _ _ _ Hr) as Hlen.
  revert i. induction fuel as [|fuel IH]; intros i Hi Hf; [lia|]. cbn [clist_find].
  rewrite (link_get_at _ _ _ _ Hr Hi).
  destruct (ls !! i) as [l|] eqn:Hl.
  - pose proof (lookup_lt_Some _ _ _ Hl) as Hlt.
    destruct (rep_payload _ _ _ _ _ Hr Hl) as [x Hx].
    rewrite (rep_node _ _ _ Hr _ _ _ Hl Hx). simpl.
    rewrite (drop_S _ _ _ Hx). simpl. destruct (p x).
    + simpl. by rewrite Nat.add_0_r.
    + replace (LNext l) with (link_at ls (S i)) by (simpl; by rewrite Hl).
      rewrite IH by lia. destruct (first_index p (drop (S i) xs)); simpl; [|done].
      do 2 f_equal. by rewrite Nat.add_succ_r.
  - apply lookup_ge_None in Hl. rewrite drop_ge by lia. done.
Qed.
End clist.
