(* ===== verification/WinTimers.v ===== *)
(** * Window timers (dlls/ntdll/unix/horizon_win_timers.h)

    SetTimer and SetSystemTimer of the in-process server: a list of timers,
    newest first, and the counter that gives ids to timers without a window.
    The list of nodes the C code owns is a Rocq list; a link
    (a pointer to a [next] field) is the position of the node it points to. *)
From S2P Require Import Prelude.
Local Open Scope Z_scope.

Definition HORIZON_WIN_TIMERS_NO_MEMORY : Z := -1.
Definition HORIZON_WIN_TIMERS_NO_IDS : Z := -2.
Definition HORIZON_WIN_TIMERS_NOT_FOUND : Z := -3.

Record horizon_win_timer := mk_win_timer {
  wt_tid : Z;
  wt_win : Z;
  wt_msg : Z;
  wt_rate : Z;      (* milliseconds *)
  wt_id : Z;
  wt_lparam : Z;
  wt_when : Z;      (* next expiration *)
}.

Record horizon_win_timers := mk_win_timers {
  wts_head : list horizon_win_timer;
  wts_next_id : Z;  (* ids for timers without a window; 0 until first use *)
}.

#[export] Instance horizon_win_timer_eq_dec : EqDecision horizon_win_timer.
Proof. solve_decision. Defined.

(** ** Operations *)

Definition win_timer_is (tid win msg id : Z) (t : horizon_win_timer) : bool :=
  (wt_tid t =? tid) && (wt_win t =? win) && (wt_msg t =? msg) && (wt_id t =? id).

Definition horizon_win_timers_find (ts : horizon_win_timers) (tid win msg id : Z) : option nat :=
  first_index (win_timer_is tid win msg id) (wts_head ts).

Definition horizon_win_timers_remove (ts : horizon_win_timers) (link : nat) : horizon_win_timers :=
  {| wts_head := delete link (wts_head ts); wts_next_id := wts_next_id ts |}.

(** The loop that looks for a free id, counting down from [next_id] and from
    0x7fff again below 0x101, until it comes back to [end_id]. *)
Inductive id_pick := Picked (id next_id : Z) | NoIds (next_id : Z) | PickFuel.

Definition win_timers_next_id (next_id : Z) : Z :=
  let n := u64 (next_id - 1) in if n <=? 0x100 then 0x7fff else n.

Fixpoint win_timers_pick_id (fuel : nat) (head : list horizon_win_timer)
    (tid msg end_id next_id : Z) : id_pick :=
  match fuel with
  | O => PickFuel
  | S fuel =>
      let id := next_id in
      let next_id := win_timers_next_id next_id in
      if negb (bool_decide (is_Some (first_index (win_timer_is tid 0 msg id) head)))
      then Picked id next_id
      else if next_id =? end_id then NoIds next_id
      else win_timers_pick_id fuel head tid msg end_id next_id
  end.

(** The loop tries each of the ids 0x101 to 0x7fff at most once. *)
Definition win_timers_pick_fuel : nat := Z.to_nat 0x7eff.
Global Arguments win_timers_pick_fuel : simpl never.

(** The first half of [horizon_win_timers_set]: the counter starts, the timer
    being replaced goes, and an id no windowless timer has becomes 0. *)
Definition win_timers_replace (ts : horizon_win_timers) (tid win msg id : Z)
    : horizon_win_timers * Z :=
  let next_id := if wts_next_id ts =? 0 then 0x7fff else wts_next_id ts in
  let ts := {| wts_head := wts_head ts; wts_next_id := next_id |} in
  if nonzero win || nonzero id then
    match horizon_win_timers_find ts tid win msg id with
    | Some link => (horizon_win_timers_remove ts link, id)
    | None => (ts, if win =? 0 then 0 else id)
    end
  else (ts, id).

(** Status, the id written to [*id_out], and the timers after the call; [None]
    only if the loop were to run out of fuel. [mem] is whether [calloc]
    succeeds. *)
Definition horizon_win_timers_set (ts : horizon_win_timers)
    (tid win msg id rate lparam now : Z) (mem : bool)
    : option (Z * option Z * horizon_win_timers) :=
  let '(ts, id) := win_timers_replace ts tid win msg id in
  let picked :=
    if (win =? 0) && (id =? 0)
    then win_timers_pick_id win_timers_pick_fuel (wts_head ts) tid msg
           (wts_next_id ts) (wts_next_id ts)
    else Picked id (wts_next_id ts) in
  match picked with
  | PickFuel => None
  | NoIds next_id =>
      Some (HORIZON_WIN_TIMERS_NO_IDS, None,
            {| wts_head := wts_head ts; wts_next_id := next_id |})
  | Picked id next_id =>
      if negb mem then
        Some (HORIZON_WIN_TIMERS_NO_MEMORY, None,
              {| wts_head := wts_head ts; wts_next_id := next_id |})
      else
        let rate := if nonzero rate then rate else 1 in
        let timer := {| wt_tid := tid; wt_win := win; wt_msg := msg; wt_rate := rate;
                        wt_id := id; wt_lparam := lparam; wt_when := u64 (now + rate) |} in
        Some (0, Some id, {| wts_head := timer :: wts_head ts; wts_next_id := next_id |})
  end.

Definition horizon_win_timers_kill (ts : horizon_win_timers) (tid win msg id : Z)
    : Z * horizon_win_timers :=
  match horizon_win_timers_find ts tid win msg id with
  | None => (HORIZON_WIN_TIMERS_NOT_FOUND, ts)
  | Some link => (0, horizon_win_timers_remove ts link)
  end.

(** Whether the scan of [horizon_win_timers_expired] does not skip the timer. *)
Definition win_timer_due (tid get_win first last now : Z) (t : horizon_win_timer) : bool :=
  negb (negb (wt_tid t =? tid) || (now <? wt_when t)) &&
  negb (nonzero get_win && negb (wt_win t =? get_win)) &&
  negb ((nonzero first || nonzero last) && ((wt_msg t <? first) || (last <? wt_msg t))).

Fixpoint win_timers_scan (due : horizon_win_timer -> bool) (l : list horizon_win_timer)
    (i : nat) (found : option (nat * horizon_win_timer)) : option (nat * horizon_win_timer) :=
  match l with
  | [] => found
  | t :: l =>
      win_timers_scan due l (S i)
        (if due t then
           match found with
           | None => Some (i, t)
           | Some (_, f) => if wt_when t <? wt_when f then Some (i, t) else found
           end
         else found)
  end.

(** [while (when <= now) when += rate;] *)
Fixpoint win_timer_reschedule (fuel : nat) (when rate now : Z) : option Z :=
  if when <=? now then
    match fuel with
    | O => None
    | S fuel => win_timer_reschedule fuel (u64 (when + rate)) rate now
    end
  else Some when.

Definition win_timer_set_when (t : horizon_win_timer) (when : Z) : horizon_win_timer :=
  {| wt_tid := wt_tid t; wt_win := wt_win t; wt_msg := wt_msg t; wt_rate := wt_rate t;
     wt_id := wt_id t; wt_lparam := wt_lparam t; wt_when := when |}.

(** The position of the timer returned and the timers after the call; [None]
    outside if the rescheduling loop runs out of [fuel]. *)
Definition horizon_win_timers_expired (fuel : nat) (ts : horizon_win_timers)
    (tid get_win first last now : Z) (remove : bool)
    : option (option nat * horizon_win_timers) :=
  match win_timers_scan (win_timer_due tid get_win first last now) (wts_head ts) 0 None with
  | None => Some (None, ts)
  | Some (i, t) =>
      if remove then
        when ← win_timer_reschedule fuel (wt_when t) (wt_rate t) now;
        Some (Some i, {| wts_head := <[i := win_timer_set_when t when]> (wts_head ts);
                         wts_next_id := wts_next_id ts |})
      else Some (Some i, ts)
  end.

(** A loop over the links that removes in place keeps the other nodes. *)
Definition horizon_win_timers_drop (ts : horizon_win_timers) (tid win : Z) : horizon_win_timers :=
  let gone t := if nonzero win then wt_win t =? win else wt_tid t =? tid in
  {| wts_head := List.filter (fun t => negb (gone t)) (wts_head ts);
     wts_next_id := wts_next_id ts |}.

(** ** Well-formed timer lists *)

Definition win_timer_key (t : horizon_win_timer) : Z * Z * Z * Z :=
  (wt_tid t, wt_win t, wt_msg t, wt_id t).

Record win_timers_wf (ts : horizon_win_timers) : Prop := {
  wts_keys : NoDup (win_timer_key <$> wts_head ts);
  wts_rates : Forall (fun t => 1 <= wt_rate t) (wts_head ts);
  wts_next : wts_next_id ts = 0 \/ 0x100 < wts_next_id ts <= 0x7fff;
}.

(** The ids a thread's timers without a window use for one message. *)
Definition win_timer_id_used (ts : horizon_win_timers) (tid msg id : Z) : Prop :=
  exists t, t ∈ wts_head ts /\ win_timer_key t = (tid, 0, msg, id).

(** ** Finding and removing *)

Lemma win_timer_is_key tid win msg id t :
  win_timer_is tid win msg id t = true <-> win_timer_key t = (tid, win, msg, id).
Proof.
  unfold win_timer_is, win_timer_key. rewrite !andb_true_iff, !Z.eqb_eq.
  split; [naive_solver|]. intros [= -> -> -> ->]. done.
Qed.

Lemma win_timers_find_None ts tid win msg id :
  horizon_win_timers_find ts tid win msg id = None <->
  (tid, win, msg, id) ∉ (win_timer_key <$> wts_head ts).
Proof.
  unfold horizon_win_timers_find. rewrite first_index_None, list.Forall_forall.
  rewrite list_elem_of_fmap. split.
  - intros H (t & Hk & Ht). specialize (H t Ht). symmetry in Hk.
    apply win_timer_is_key in Hk. congruence.
  - intros H t Ht. apply not_true_is_false. intros Hk%win_timer_is_key.
    apply H. exists t. done.
Qed.

Lemma win_timers_find_Some ts tid win msg id i :
  horizon_win_timers_find ts tid win msg id = Some i ->
  exists t, wts_head ts !! i = Some t /\ win_timer_key t = (tid, win, msg, id).
Proof.
  unfold horizon_win_timers_find. intros (t & Ht & Hk & _)%first_index_Some.
  exists t. split; [done|]. by apply win_timer_is_key.
Qed.

Lemma win_timers_remove_wf ts i :
  win_timers_wf ts -> win_timers_wf (horizon_win_timers_remove ts i).
Proof.
  intros [Hk Hr Hn]. split; simpl.
  - rewrite list_fmap_delete. auto with nx.
  - auto with nx.
  - done.
Qed.

(** With unique keys, removing the timer found leaves no timer of that key. *)
Lemma win_timers_remove_gone ts tid win msg id i :
  win_timers_wf ts ->
  horizon_win_timers_find ts tid win msg id = Some i ->
  (tid, win, msg, id) ∉ (win_timer_key <$> wts_head (horizon_win_timers_remove ts i)).
Proof.
  intros [Hk _ _] (t & Ht & Hkey)%win_timers_find_Some. simpl.
  rewrite list_fmap_delete.
  assert (Hl : (win_timer_key <$> wts_head ts) !! i = Some (tid, win, msg, id)).
  { by rewrite list_lookup_fmap, Ht, <- Hkey. }
  apply delete_Permutation in Hl. rewrite Hl in Hk. by inversion Hk.
Qed.

(** ** Choosing an id *)

Definition pick_range (x : Z) : Prop := 0x100 < x <= 0x7fff.

Lemma win_timers_next_id_range n : pick_range n -> pick_range (win_timers_next_id n).
Proof.
  unfold pick_range, win_timers_next_id. intros Hn.
  rewrite u64_small by (unfold is_u64; lia).
  destruct (Z.leb_spec (n - 1) 0x100); lia.
Qed.

Lemma win_timers_next_id_mod n e :
  pick_range n -> pick_range e ->
  (win_timers_next_id n - e) mod 0x7eff = (n - e - 1) mod 0x7eff.
Proof.
  unfold pick_range, win_timers_next_id. intros Hn He.
  rewrite u64_small by (unfold is_u64; lia).
  destruct (Z.leb_spec (n - 1) 0x100); [|f_equal; lia].
  replace n with 0x101 by lia.
  replace (0x7fff - e) with ((0x101 - e - 1) + 1 * 0x7eff) by lia.
  by rewrite Z_mod_plus_full.
Qed.

(** How many ids are left to try, the current one included, before the loop
    comes back to [e]. *)
Definition ids_left (n e : Z) : Z := (n - e - 1) mod 0x7eff + 1.

Lemma ids_left_step n e :
  pick_range n -> pick_range e -> win_timers_next_id n <> e ->
  ids_left (win_timers_next_id n) e = ids_left n e - 1.
Proof.
  intros Hn He Hne. pose proof (win_timers_next_id_mod n e Hn He) as Hm.
  pose proof (win_timers_next_id_range n Hn) as Hn'.
  unfold ids_left, pick_range in *. zlia.
Qed.

(** What the loop has established when it stops. [k] runs over the ids still
    to be tried from [n]. *)
Definition id_to_try (n e k : Z) : Prop :=
  pick_range k /\ (n - k) mod 0x7eff < ids_left n e.

Lemma id_to_try_step n e k :
  pick_range n -> pick_range e -> id_to_try n e k -> k <> n ->
  win_timers_next_id n <> e /\ id_to_try (win_timers_next_id n) e k.
Proof.
  intros Hn He [Hk Hlt] Hne.
  pose proof (win_timers_next_id_mod n e Hn He) as Hme.
  pose proof (win_timers_next_id_mod n k Hn Hk) as Hmk.
  pose proof (win_timers_next_id_range n Hn) as Hn'.
  assert (Hne' : win_timers_next_id n <> e).
  { intros Heq. rewrite Heq in *. unfold ids_left, pick_range in *. zlia. }
  split; [done|]. split; [done|].
  rewrite ids_left_step by done. rewrite Hmk.
  unfold ids_left, pick_range in *. zlia.
Qed.

Lemma win_timers_pick_id_spec fuel head tid msg e n :
  pick_range n -> pick_range e ->
  (Z.to_nat (ids_left n e) <= fuel)%nat ->
  match win_timers_pick_id fuel head tid msg e n with
  | Picked id next =>
      pick_range id /\ pick_range next /\
      first_index (win_timer_is tid 0 msg id) head = None
  | NoIds next =>
      pick_range next /\
      forall k, id_to_try n e k -> is_Some (first_index (win_timer_is tid 0 msg k) head)
  | PickFuel => False
  end.
Proof.
  revert n. induction fuel as [|fuel IH]; intros n Hn He Hf; simpl.
  { unfold ids_left in Hf. zlia. }
  pose proof (win_timers_next_id_range n Hn) as Hn'.
  case_bool_decide as Hs; simpl; [|by rewrite <- eq_None_not_Some in Hs].
  destruct (Z.eqb_spec (win_timers_next_id n) e) as [Heq|Hne].
  - split; [done|]. intros k Hk. destruct (decide (k = n)) as [->|Hkn]; [done|].
    by destruct (id_to_try_step n e k Hn He Hk Hkn).
  - pose proof (ids_left_step n e Hn He Hne) as Hl.
    specialize (IH (win_timers_next_id n) Hn' He ltac:(lia)).
    destruct (win_timers_pick_id _ _ _ _ _ _); [done| |done].
    destruct IH as [? IH]. split; [done|]. intros k Hk.
    destruct (decide (k = n)) as [->|Hkn]; [done|].
    apply IH. by apply id_to_try_step.
Qed.

(** Started at [e] itself, every id of the range is tried. *)
Lemma id_to_try_all e k : pick_range e -> pick_range k -> id_to_try e e k.
Proof.
  intros He Hk. split; [done|]. unfold ids_left, pick_range in *. zlia.
Qed.

Lemma win_timers_pick_fuel_enough e :
  pick_range e -> (Z.to_nat (ids_left e e) <= win_timers_pick_fuel)%nat.
Proof. unfold ids_left, win_timers_pick_fuel, pick_range. zlia. Qed.

(** ** SetTimer *)

(** After the first half no timer has the key that will be used if the id is
    kept. *)
Lemma win_timers_replace_spec ts tid win msg id ts2 id2 :
  win_timers_wf ts -> win_timers_replace ts tid win msg id = (ts2, id2) ->
  win_timers_wf ts2 /\ pick_range (wts_next_id ts2) /\
  (win <> 0 \/ id2 <> 0 -> (tid, win, msg, id2) ∉ (win_timer_key <$> wts_head ts2)).
Proof.
  intros Hwf. unfold win_timers_replace. cbv zeta.
  set (ts1 := {| wts_head := wts_head ts; wts_next_id := _ |}).
  assert (Hwf1 : win_timers_wf ts1).
  { destruct Hwf as [? ? Hn]. split; simpl; [done..|].
    destruct (Z.eqb_spec (wts_next_id ts) 0); lia. }
  assert (Hr : pick_range (wts_next_id ts1)).
  { unfold pick_range. simpl. destruct Hwf as [_ _ Hn].
    destruct (Z.eqb_spec (wts_next_id ts) 0); lia. }
  destruct (nonzero win || nonzero id) eqn:Hor.
  - destruct (horizon_win_timers_find ts1 tid win msg id) as [i|] eqn:Hf; intros [= <- <-].
    + split_and!; [by apply win_timers_remove_wf|done..|]. intros _.
      by apply win_timers_remove_gone.
    + apply win_timers_find_None in Hf. split_and!; [done..|].
      destruct (Z.eqb_spec win 0) as [->|]; [lia|done].
  - intros [= <- <-]. btrue. subst. split_and!; [done..|lia].
Qed.

(** Without a window and with an id no timer has, the first half only starts
    the counter. *)
Lemma win_timers_replace_windowless ts tid msg id :
  id = 0 \/ first_index (win_timer_is tid 0 msg id) (wts_head ts) = None ->
  exists ts2, win_timers_replace ts tid 0 msg id = (ts2, 0) /\ wts_head ts2 = wts_head ts.
Proof.
  unfold win_timers_replace, nonzero. simpl.
  destruct (Z.eqb_spec id 0) as [->|Hne]; simpl; [by eauto|].
  intros [|Hf]; [done|]. unfold horizon_win_timers_find. simpl. rewrite Hf. by eauto.
Qed.

Lemma win_timers_wf_cons ts t next :
  win_timers_wf ts -> 1 <= wt_rate t -> pick_range next ->
  win_timer_key t ∉ (win_timer_key <$> wts_head ts) ->
  win_timers_wf {| wts_head := t :: wts_head ts; wts_next_id := next |}.
Proof.
  intros [Hk Hr _] Hrate Hn Hnew. split; simpl.
  - by constructor.
  - by constructor.
  - right. done.
Qed.

Lemma win_timers_wf_next ts next :
  win_timers_wf ts -> pick_range next ->
  win_timers_wf {| wts_head := wts_head ts; wts_next_id := next |}.
Proof. intros [? ? _] ?. split; simpl; [done..|]. by right. Qed.

(** The call always returns and keeps the list well-formed, whatever the
    status. *)
Lemma win_timers_set_wf ts tid win msg id rate lparam now mem :
  win_timers_wf ts -> 0 <= rate ->
  exists status out ts',
    horizon_win_timers_set ts tid win msg id rate lparam now mem = Some (status, out, ts') /\
    win_timers_wf ts'.
Proof.
  intros Hwf Hrate. unfold horizon_win_timers_set.
  destruct (win_timers_replace ts tid win msg id) as [ts2 id2] eqn:Hrep.
  apply win_timers_replace_spec in Hrep as (Hwf2 & Hr & Hnew); [|done].
  assert (Hrate' : 1 <= (if nonzero rate then rate else 1)).
  { unfold nonzero. destruct (Z.eqb_spec rate 0); simpl; lia. }
  destruct ((win =? 0) && (id2 =? 0)) eqn:Hpick.
  - pose proof (win_timers_pick_id_spec win_timers_pick_fuel (wts_head ts2) tid msg _ _
                  Hr Hr (win_timers_pick_fuel_enough _ Hr)) as Hspec.
    destruct (win_timers_pick_id _ _ _ _ _ _) as [k next|next|].
    + destruct Hspec as (Hk & Hnext & Hfree). btrue. subst win.
      destruct mem; eexists _, _, _; (split; [done|]).
      * apply win_timers_wf_cons; [done..|]. by apply win_timers_find_None.
      * by apply win_timers_wf_next.
    + destruct Hspec as [Hnext _]. eexists _, _, _. split; [done|].
      by apply win_timers_wf_next.
    + done.
  - assert (Hkey : (tid, win, msg, id2) ∉ (win_timer_key <$> wts_head ts2)).
    { apply Hnew. destruct (Z.eqb_spec win 0), (Z.eqb_spec id2 0); simpl in *; auto; lia. }
    destruct mem; eexists _, _, _; (split; [done|]).
    + by apply win_timers_wf_cons.
    + by apply win_timers_wf_next.
Qed.

(** ** Expired timers *)

(** The timer of [l] passing [due] that fell due first, the one nearest the
    head if several did. *)
Definition earliest (due : horizon_win_timer -> bool) (l : list horizon_win_timer)
    (r : option (nat * horizon_win_timer)) : Prop :=
  match r with
  | None => forall t, t ∈ l -> due t = false
  | Some (i, t) =>
      l !! i = Some t /\ due t = true /\
      forall j t', l !! j = Some t' -> due t' = true ->
        wt_when t <= wt_when t' /\ (wt_when t' = wt_when t -> (i <= j)%nat)
  end.

Lemma earliest_snoc due l t r :
  earliest due l r ->
  earliest due (l ++ [t])
    (if due t then
       match r with
       | None => Some (length l, t)
       | Some (_, f) => if wt_when t <? wt_when f then Some (length l, t) else r
       end
     else r).
Proof.
  destruct (due t) eqn:Ht; destruct r as [[i f]|]; simpl.
  - intros (Hi & Hd & Hmin). destruct (Z.ltb_spec (wt_when t) (wt_when f)); simpl.
    + rewrite lookup_app_r, Nat.sub_diag by done. split_and!; [done..|].
      intros j t' [Hj|[Hlt Hj]]%lookup_app_Some Hd'.
      * destruct (Hmin _ _ Hj Hd'). lia.
      * apply list_lookup_singleton_Some in Hj as [? ->]. lia.
    + rewrite lookup_app_l by (by eapply lookup_lt_Some). split_and!; [done..|].
      intros j t' [Hj|[Hlt Hj]]%lookup_app_Some Hd'; [by eauto|].
      apply lookup_lt_Some in Hi.
      apply list_lookup_singleton_Some in Hj as [? ->]. lia.
  - intros Hn. rewrite lookup_app_r, Nat.sub_diag by done. split_and!; [done..|].
    intros j t' [Hj|[Hlt Hj]]%lookup_app_Some Hd'.
    + apply list_elem_of_lookup_2, Hn in Hj. congruence.
    + apply list_lookup_singleton_Some in Hj as [? ->]. lia.
  - intros (Hi & Hd & Hmin).
    rewrite lookup_app_l by (by eapply lookup_lt_Some). split_and!; [done..|].
    intros j t' [Hj|[Hlt Hj]]%lookup_app_Some Hd'; [by eauto|].
    apply list_lookup_singleton_Some in Hj as [? ->]. congruence.
  - intros Hn t' [?|Ht'%list_elem_of_singleton]%elem_of_app; subst; auto.
Qed.

Lemma win_timers_scan_spec due pre l r :
  earliest due pre r ->
  earliest due (pre ++ l) (win_timers_scan due l (length pre) r).
Proof.
  revert pre r. induction l as [|t l IH]; intros pre r Hr; simpl.
  { by rewrite app_nil_r. }
  replace (pre ++ t :: l) with ((pre ++ [t]) ++ l) by (by rewrite <- app_assoc).
  replace (S (length pre)) with (length (pre ++ [t])) by (rewrite length_app; simpl; lia).
  apply IH. by apply earliest_snoc.
Qed.

(** With no overflow in sight the loop stops at the first period point after
    [now]. *)
Lemma win_timer_reschedule_spec fuel when rate now :
  0 <= when -> 1 <= rate -> now + rate < 2 ^ 64 ->
  (Z.to_nat (now - when + 1) <= fuel)%nat ->
  exists w, win_timer_reschedule fuel when rate now = Some w /\
            now < w /\ (when <= now -> w <= now + rate) /\ (now < when -> w = when) /\
            (w - when) mod rate = 0.
Proof.
  revert when. induction fuel as [|fuel IH]; intros when Hw Hr Hov Hf; simpl.
  - destruct (Z.leb_spec when now); [lia|]. exists when.
    rewrite Z.sub_diag, Z.mod_0_l by lia. split_and!; [done|lia..].
  - destruct (Z.leb_spec when now) as [Hle|].
    + rewrite u64_small by (unfold is_u64; lia).
      destruct (IH (when + rate)) as (w & -> & Hlt & Hub & Heq & Hm); [lia..|].
      exists w. split_and!; [done|lia|lia|lia|].
      replace (w - when) with (w - (when + rate) + 1 * rate) by lia.
      by rewrite Z_mod_plus_full.
    + exists when. rewrite Z.sub_diag, Z.mod_0_l by lia. split_and!; [done|lia..].
Qed.

(** ** The server's calls as steps *)

Inductive win_timers_step (ts : horizon_win_timers) : horizon_win_timers -> Prop :=
| step_set tid win msg id rate lparam now mem status out ts' :
    0 <= rate ->
    horizon_win_timers_set ts tid win msg id rate lparam now mem = Some (status, out, ts') ->
    win_timers_step ts ts'
| step_kill tid win msg id :
    win_timers_step ts (horizon_win_timers_kill ts tid win msg id).2
| step_expired fuel tid get_win first last now remove r ts' :
    horizon_win_timers_expired fuel ts tid get_win first last now remove = Some (r, ts') ->
    win_timers_step ts ts'
| step_drop tid win : win_timers_step ts (horizon_win_timers_drop ts tid win).

Definition win_timers_init : horizon_win_timers := {| wts_head := []; wts_next_id := 0 |}.

Lemma win_timers_drop_wf ts tid win :
  win_timers_wf ts -> win_timers_wf (horizon_win_timers_drop ts tid win).
Proof.
  intros [Hk Hr Hn]. unfold horizon_win_timers_drop. split; simpl; [| |done].
  - clear Hr Hn. induction (wts_head ts) as [|t l IH]; simpl in *; [done|].
    inversion Hk as [|? ? Hnew Hk']; subst. destruct (negb _); simpl; [|by apply IH].
    constructor; [|by apply IH]. rewrite list_elem_of_fmap in *.
    intros (t' & Heq & Hin). apply Hnew. exists t'. split; [done|].
    apply list_elem_of_In in Hin. apply filter_In in Hin as [Hin _].
    by apply list_elem_of_In.
  - rewrite list.Forall_forall in *. intros t Ht. apply Hr.
    apply list_elem_of_In in Ht. apply filter_In in Ht as [Ht _]. by apply list_elem_of_In.
Qed.

Lemma win_timers_expired_wf fuel ts tid get_win first last now remove r ts' :
  win_timers_wf ts ->
  horizon_win_timers_expired fuel ts tid get_win first last now remove = Some (r, ts') ->
  win_timers_wf ts'.
Proof.
  intros Hwf. unfold horizon_win_timers_expired.
  pose proof (win_timers_scan_spec (win_timer_due tid get_win first last now) [] (wts_head ts) None
                ltac:(intros t Ht; inversion Ht)) as Hs. simpl in Hs.
  destruct (win_timers_scan _ _ _ _) as [[i t]|]; [|naive_solver].
  destruct remove; [|naive_solver].
  destruct (win_timer_reschedule _ _ _ _) as [w|]; simpl; [|done]. intros [= _ <-].
  destruct Hs as (Hi & _), Hwf as [Hk Hr Hn]. split; simpl; [| |done].
  - rewrite list_fmap_insert. unfold win_timer_set_when, win_timer_key. simpl.
    rewrite list_insert_id; [done|]. rewrite list_lookup_fmap, Hi. done.
  - apply Forall_insert; [done|]. simpl. by eapply (Forall_lookup_1 _ _ _ _ Hr Hi).
Qed.

(** from an empty list, whatever sequence of set, kill, expire and drop
    calls the server makes, no two timers have the same thread, window,
    message and id, every period is at least a millisecond, and the id counter
    is unused or between 0x101 and 0x7fff. *)
Theorem win_timers_reachable_wf ts :
  rtc win_timers_step win_timers_init ts -> win_timers_wf ts.
Proof.
  intros Hrtc. assert (Hinit : win_timers_wf win_timers_init).
  { split; simpl; [constructor|constructor|by left]. }
  revert Hinit. induction Hrtc as [|ts1 ts2 ts3 Hstep _ IH]; [done|]. intros Hwf.
  apply IH. destruct Hstep as [tid win msg id rate lparam now mem st out ts' Hrate Hset
                              |tid win msg id|fuel tid gw f l now rm r ts' Hexp|tid win].
  - destruct (win_timers_set_wf ts1 tid win msg id rate lparam now mem Hwf Hrate)
      as (st' & out' & ts'' & Heq & Hwf'). rewrite Heq in Hset. by simplify_eq.
  - unfold horizon_win_timers_kill. destruct (horizon_win_timers_find _ _ _ _ _); simpl; [|done].
    by apply win_timers_remove_wf.
  - by eapply win_timers_expired_wf.
  - by apply win_timers_drop_wf.
Qed.

(** One windowless timer set for thread 7 and then expired with removal. *)
Lemma win_timers_reachable_wf_witness :
  win_timers_wf {| wts_head := [mk_win_timer 7 0 0x113 10 0x7fff 0 1030];
                   wts_next_id := 0x7ffe |}.
Proof.
  apply win_timers_reachable_wf.
  eapply rtc_l.
  { eapply (step_set _ 7 0 0x113 0 10 0 1000 true 0 (Some 0x7fff)); [lia|].
    vm_compute. reflexivity. }
  eapply rtc_l; [|apply rtc_refl].
  eapply (step_expired _ 5 7 0 0 0 1025 true (Some 0%nat)). vm_compute. reflexivity.
Defined.

Lemma win_timer_id_used_find ts tid msg id :
  win_timer_id_used ts tid msg id <-> is_Some (first_index (win_timer_is tid 0 msg id) (wts_head ts)).
Proof.
  unfold win_timer_id_used. rewrite <- not_eq_None_Some, first_index_None, list.Forall_forall. split.
  - intros (t & Ht & Hk) H. specialize (H t Ht). apply win_timer_is_key in Hk. congruence.
  - intros H. destruct (first_index (win_timer_is tid 0 msg id) (wts_head ts)) as [i|] eqn:Hi.
    + apply first_index_Some in Hi as (t & Ht & Hk & _). exists t. split.
      * by eapply list_elem_of_lookup_2.
      * by apply win_timer_is_key.
    + exfalso. apply H. intros t Ht. apply first_index_None in Hi.
      rewrite list.Forall_forall in Hi. auto.
Qed.

(** SetTimer without a window, when the id given is none of the thread's,
    gives the timer an id from 0x101 to 0x7fff that no timer of the thread has
    for that message, and fails with NO_IDS only when all of them are in use;
    the search always ends. *)
Theorem win_timers_set_windowless ts tid msg id rate lparam now :
  win_timers_wf ts ->
  id = 0 \/ ~ win_timer_id_used ts tid msg id ->
  match horizon_win_timers_set ts tid 0 msg id rate lparam now true with
  | Some (status, Some new, ts') =>
      status = 0 /\ 0x100 < new <= 0x7fff /\
      ~ win_timer_id_used ts tid msg new /\ win_timer_id_used ts' tid msg new
  | Some (status, None, ts') =>
      status = HORIZON_WIN_TIMERS_NO_IDS /\ wts_head ts' = wts_head ts /\
      forall k, 0x100 < k <= 0x7fff -> win_timer_id_used ts tid msg k
  | None => False
  end.
Proof.
  intros Hwf Hid. rewrite win_timer_id_used_find in Hid.
  assert (Hfind : id = 0 \/ first_index (win_timer_is tid 0 msg id) (wts_head ts) = None).
  { rewrite <- eq_None_not_Some in Hid. done. }
  destruct (win_timers_replace_windowless ts tid msg id Hfind) as (ts2 & Hrep & Hhead).
  unfold horizon_win_timers_set. rewrite Hrep.
  apply win_timers_replace_spec in Hrep as (_ & Hr & _); [|done].
  change ((0 =? 0) && (0 =? 0)) with true. cbv iota.
  pose proof (win_timers_pick_id_spec win_timers_pick_fuel (wts_head ts) tid msg _ _
                Hr Hr (win_timers_pick_fuel_enough _ Hr)) as Hspec. rewrite Hhead.
  destruct (win_timers_pick_id _ _ _ _ _ _) as [k next|next|]; [| |done].
  - destruct Hspec as (Hk & _ & Hfree). split_and!; [done|apply Hk..| |].
    + rewrite win_timer_id_used_find, Hfree. by intros [? ?].
    + exists (mk_win_timer tid 0 msg (if nonzero rate then rate else 1) k lparam
                (u64 (now + if nonzero rate then rate else 1))).
      split; [by left|done].
  - destruct Hspec as [_ Hall]. split_and!; [done..|]. intros k Hk.
    apply win_timer_id_used_find. apply Hall. by apply id_to_try_all.
Qed.

(** A thread whose only windowless timer took the last id given. *)
Definition win_timers_one : horizon_win_timers :=
  {| wts_head := [mk_win_timer 7 0 0x113 10 0x7ffe 0 1030]; wts_next_id := 0x7ffe |}.

Lemma win_timers_set_windowless_witness :
  match horizon_win_timers_set win_timers_one 7 0 0x113 5 10 0 1000 true with
  | Some (status, Some new, ts') =>
      status = 0 /\ 0x100 < new <= 0x7fff /\
      ~ win_timer_id_used win_timers_one 7 0x113 new /\ win_timer_id_used ts' 7 0x113 new
  | _ => False
  end.
Proof.
  pose proof (win_timers_set_windowless win_timers_one 7 0x113 5 10 0 1000) as H.
  assert (Hwf : win_timers_wf win_timers_one).
  { split; simpl; [apply NoDup_singleton|forall_concrete|right; lia]. }
  assert (Hid : 5 = 0 \/ ~ win_timer_id_used win_timers_one 7 0x113 5).
  { right. intros (t & Ht & Hk). simpl in Ht. apply list_elem_of_singleton in Ht. by subst. }
  specialize (H Hwf Hid). vm_compute in H. vm_compute. exact H.
Defined.

(** With a clock that does not run into the end of 64 bits, the timer
    reported is one that passes the filter and fell due first (the newest of
    those due at the same time), or none passes; with [remove] its next
    expiration becomes the first point of its period after [now] and nothing
    else changes, and without it nothing changes. *)
Theorem win_timers_expired_earliest fuel ts tid get_win first last now remove :
  win_timers_wf ts -> 0 <= now ->
  Forall (fun t => 0 <= wt_when t /\ now + wt_rate t < 2 ^ 64) (wts_head ts) ->
  (Z.to_nat now < fuel)%nat ->
  let due := win_timer_due tid get_win first last now in
  exists r ts',
    horizon_win_timers_expired fuel ts tid get_win first last now remove = Some (r, ts') /\
    match r with
    | None => ts' = ts /\ forall t, t ∈ wts_head ts -> due t = false
    | Some i =>
        exists t, earliest due (wts_head ts) (Some (i, t)) /\
        if remove : bool then
          exists w, wts_head ts' = <[i := win_timer_set_when t w]> (wts_head ts) /\
                    wts_next_id ts' = wts_next_id ts /\
                    now < w <= now + wt_rate t /\ (w - wt_when t) mod wt_rate t = 0
        else ts' = ts
    end.
Proof.
  intros Hwf Hnow Hclk Hfuel due. unfold horizon_win_timers_expired.
  pose proof (win_timers_scan_spec due [] (wts_head ts) None
                ltac:(intros t Ht; inversion Ht)) as Hs. simpl in Hs.
  subst due.
  destruct (win_timers_scan _ _ _ _) as [[i t]|]; [|by eexists None, _].
  destruct remove; [|by eexists (Some i), _; eauto].
  pose proof Hs as (Hi & Hdue & _).
  pose proof (Forall_lookup_1 _ _ _ _ Hclk Hi) as [Hw Hov].
  pose proof (Forall_lookup_1 _ _ _ _ (wts_rates _ Hwf) Hi) as Hr. simpl in Hr.
  assert (Hle : wt_when t <= now).
  { unfold win_timer_due in Hdue. btrue. done. }
  destruct (win_timer_reschedule_spec fuel (wt_when t) (wt_rate t) now) as (w & -> & ? & ? & _ & ?);
    [done..|lia|].
  simpl. eexists _, _. split; [done|]. simpl. exists t. split; [done|].
  exists w. split_and!; [done|done|done|by auto|done].
Qed.

Definition win_timers_two : horizon_win_timers :=
  {| wts_head := [mk_win_timer 7 3 0x113 10 1 0 1030; mk_win_timer 7 3 0x113 16 2 0 1020];
     wts_next_id := 0 |}.

Lemma win_timers_expired_earliest_witness :
  exists r ts',
    horizon_win_timers_expired 1041 win_timers_two 7 3 0 0 1040 true = Some (r, ts') /\
    r = Some 1%nat /\
    wts_head ts' = [mk_win_timer 7 3 0x113 10 1 0 1030; mk_win_timer 7 3 0x113 16 2 0 1052].
Proof.
  destruct (win_timers_expired_earliest 1041 win_timers_two 7 3 0 0 1040 true)
    as (r & ts' & Heq & _).
  - split; simpl; [decide_true|forall_concrete|by left].
  - lia.
  - forall_concrete.
  - lia.
  - exists r, ts'. split; [done|]. vm_compute in Heq. by simplify_eq.
Defined.
