(* ===== verification/MessageQueue.v ===== *)
(** * Posted messages (dlls/ntdll/unix/horizon_message_queue.h)

    One list of posted messages for all threads, with a pointer to its last
    link. The list is modelled on a heap ([Chain]), tail pointer included, and
    shown to behave as a first-in first-out sequence of messages. *)
From S2P Require Import Prelude Chain.
Local Open Scope Z_scope.

Definition HORIZON_MESSAGE_QUEUE_THREAD_ONLY : Z := 0xffffffff.

Record horizon_posted_message := mk_posted {
  pm_tid : Z;
  pm_win : Z;
  pm_msg : Z;
  pm_wparam : Z;
  pm_lparam : Z;
  pm_x : Z;
  pm_y : Z;
  pm_time : Z;
}.

Record horizon_message_queue := mk_message_queue {
  mq_list : clist horizon_posted_message;
  mq_tail : link;
}.

Definition horizon_message_queue_init : horizon_message_queue :=
  {| mq_list := clist_empty; mq_tail := LHead |}.

(** [mem] is whether [malloc] succeeds. *)
Definition horizon_message_queue_post (q : horizon_message_queue) (message : horizon_posted_message)
    (mem : bool) : Z * horizon_message_queue :=
  if negb mem then (-1, q)
  else
    let copy := node_new (mq_list q) in
    let s := node_put (mq_list q) copy message None in
    (0, {| mq_list := link_set s (mq_tail q) (Some copy); mq_tail := LNext copy |}).

Section filter.
(** Whether the first window is the second or one of its descendants: a
    callback of the caller. *)
Context (is_descendant : Z -> Z -> bool).

Definition horizon_message_queue_matches (message : horizon_posted_message)
    (get_win first last : Z) : bool :=
  if (nonzero first || nonzero last) && ((pm_msg message <? first) || (last <? pm_msg message))
  then false
  else if get_win =? 0 then true
  else if (get_win =? HORIZON_MESSAGE_QUEUE_THREAD_ONLY) || (get_win =? 1)
  then pm_win message =? 0
  else if pm_win message =? 0 then false
  else (pm_win message =? get_win) || is_descendant (pm_win message) get_win.

Definition message_passes (tid get_win first last : Z) (m : horizon_posted_message) : bool :=
  if negb (pm_tid m =? tid) then false
  else horizon_message_queue_matches m get_win first last.

Definition horizon_message_queue_find (fuel : nat) (q : horizon_message_queue)
    (tid get_win first last : Z) : option (option link) :=
  clist_find fuel (mq_list q) (message_passes tid get_win first last) LHead.

(** [None] for an invalid dereference. *)
Definition horizon_message_queue_remove (q : horizon_message_queue) (k : link)
    : option horizon_message_queue :=
  message ← link_get (mq_list q) k;
  '(_, next) ← cl_heap (mq_list q) !! message;
  let s := link_set (mq_list q) k next in
  let tail := if decide (mq_tail q = LNext message) then k else mq_tail q in
  Some {| mq_list := node_free s message; mq_tail := tail |}.

Fixpoint message_queue_drop_from (fuel : nat) (gone : horizon_posted_message -> bool)
    (q : horizon_message_queue) (k : link) : option horizon_message_queue :=
  match fuel with
  | O => None
  | S fuel =>
      match link_get (mq_list q) k with
      | None => Some q
      | Some l =>
          '(m, _) ← cl_heap (mq_list q) !! l;
          if gone m : bool then
            q' ← horizon_message_queue_remove q k;
            message_queue_drop_from fuel gone q' k
          else message_queue_drop_from fuel gone q (LNext l)
      end
  end.

Definition message_gone (tid win : Z) (m : horizon_posted_message) : bool :=
  if nonzero win then pm_win m =? win else pm_tid m =? tid.

Definition horizon_message_queue_drop (fuel : nat) (q : horizon_message_queue) (tid win : Z)
    : option horizon_message_queue :=
  message_queue_drop_from fuel (message_gone tid win) q LHead.

(** get_message's use of the queue: the oldest message that passes, taken
    out with PM_REMOVE. *)
Definition message_queue_get (fuel : nat) (q : horizon_message_queue)
    (tid get_win first last : Z) (remove : bool)
    : option (option horizon_posted_message * horizon_message_queue) :=
  r ← horizon_message_queue_find fuel q tid get_win first last;
  match r with
  | None => Some (None, q)
  | Some k =>
      l ← link_get (mq_list q) k;
      '(m, _) ← cl_heap (mq_list q) !! l;
      if remove : bool then
        q' ← horizon_message_queue_remove q k; Some (Some m, q')
      else Some (Some m, q)
  end.

(** ** The abstract queue *)

Record message_queue_rep (q : horizon_message_queue) (ls : list positive)
    (xs : list horizon_posted_message) : Prop := {
  mq_rep_list : clist_rep (mq_list q) ls xs;
  mq_rep_tail : mq_tail q = link_at ls (length ls);
}.

Lemma message_queue_init_rep : message_queue_rep horizon_message_queue_init [] [].
Proof. split; [apply rep_empty|done]. Qed.

Lemma message_queue_post_rep q ls xs m :
  message_queue_rep q ls xs ->
  exists q' l, horizon_message_queue_post q m true = (0, q') /\
               message_queue_rep q' (ls ++ [l]) (xs ++ [m]).
Proof.
  intros [Hl Ht]. unfold horizon_message_queue_post. simpl. eexists _, _. split; [done|].
  split; simpl.
  - rewrite Ht. apply rep_append; [done|apply node_new_fresh].
  - rewrite length_app. simpl. rewrite Nat.add_1_r. simpl.
    by rewrite lookup_app_r, Nat.sub_diag by lia.
Qed.

Lemma message_queue_remove_rep q ls xs i l :
  message_queue_rep q ls xs -> ls !! i = Some l ->
  exists q', horizon_message_queue_remove q (link_at ls i) = Some q' /\
             message_queue_rep q' (delete i ls) (delete i xs).
Proof.
  intros [Hr Ht] Hl. pose proof (lookup_lt_Some _ _ _ Hl) as Hi.
  destruct (rep_payload _ _ _ _ _ Hr Hl) as [x Hx].
  unfold horizon_message_queue_remove.
  rewrite (link_get_at _ _ _ _ Hr) by lia. rewrite Hl. simpl.
  rewrite (rep_node _ _ _ Hr _ _ _ Hl Hx). simpl.
  eexists. split; [done|]. split; simpl; [by apply rep_remove|].
  rewrite Ht. rewrite length_delete by done.
  assert (Hk : LNext l = link_at ls (S i)) by (simpl; by rewrite Hl).
  rewrite Hk. destruct (decide _) as [Heq|Hne].
  - apply link_at_inj in Heq; [|apply Hr|lia..]. rewrite link_at_delete by lia.
    f_equal. lia.
  - assert (Hlt : (S i < length ls)%nat).
    { destruct (decide (length ls = S i)) as [E|E]; [|lia]. by rewrite E in Hne. }
    destruct (length ls) as [|[|n]] eqn:En; [lia|lia|]. simpl.
    rewrite list_lookup_delete_ge by lia. done.
Qed.

Lemma message_queue_find_rep q ls xs fuel tid get_win first last :
  message_queue_rep q ls xs -> (length xs < fuel)%nat ->
  horizon_message_queue_find fuel q tid get_win first last =
    Some (link_at ls <$> first_index (message_passes tid get_win first last) xs).
Proof.
  intros [Hr _] Hf. unfold horizon_message_queue_find.
  rewrite <- (rep_length _ _ _ Hr) in Hf.
  rewrite (clist_find_rep fuel _ ls xs _ 0 Hr) by lia. done.
Qed.

Lemma message_queue_drop_from_rep fuel gone q ls xs i :
  message_queue_rep q ls xs -> (i <= length xs)%nat -> (length xs - i < fuel)%nat ->
  exists q' ls', message_queue_drop_from fuel gone q (link_at ls i) = Some q' /\
    message_queue_rep q' ls'
      (take i xs ++ List.filter (fun m => negb (gone m)) (drop i xs)).
Proof.
  revert q ls xs i. induction fuel as [|fuel IH]; intros q ls xs i Hq Hi Hf; [lia|].
  pose proof (rep_length _ _ _ (mq_rep_list _ _ _ Hq)) as Hlen.
  cbn [message_queue_drop_from].
  rewrite (link_get_at _ _ _ _ (mq_rep_list _ _ _ Hq)) by lia.
  destruct (ls !! i) as [l|] eqn:Hl.
  - destruct (rep_payload _ _ _ _ _ (mq_rep_list _ _ _ Hq) Hl) as [x Hx].
    pose proof (lookup_lt_Some _ _ _ Hl) as Hlt.
    rewrite (rep_node _ _ _ (mq_rep_list _ _ _ Hq) _ _ _ Hl Hx). simpl.
    rewrite (drop_S _ _ _ Hx). simpl. destruct (gone x); simpl.
    + destruct (message_queue_remove_rep _ _ _ _ _ Hq Hl) as (q' & -> & Hq'). simpl.
      rewrite <- (link_at_delete ls i i) by lia.
      destruct (IH _ _ _ i Hq') as (q'' & ls'' & -> & Hq''); [rewrite ?length_delete; eauto; lia..|].
      exists q'', ls''. split; [done|].
      replace (take i (delete i xs)) with (take i xs) in Hq''.
      2:{ rewrite delete_take_drop, take_app_length'; [done|]. rewrite length_take. lia. }
      replace (drop i (delete i xs)) with (drop (S i) xs) in Hq''; [done|].
      rewrite delete_take_drop, drop_app_length'; [done|]. rewrite length_take. lia.
    + replace (LNext l) with (link_at ls (S i)) by (simpl; by rewrite Hl).
      destruct (IH _ _ _ (S i) Hq) as (q'' & ls'' & -> & Hq''); [lia..|].
      exists q'', ls''. split; [done|].
      rewrite (take_S_r _ _ _ Hx), <- app_assoc in Hq''. done.
  - exists q, ls. split; [done|]. apply lookup_ge_None in Hl.
    rewrite drop_ge, take_ge by lia. simpl. by rewrite app_nil_r.
Qed.

(** ** Refinement of a FIFO sequence

    The calls the server makes, and what they answer. *)
Inductive mq_op :=
| MqPost (m : horizon_posted_message) (mem : bool)
| MqGet (tid get_win first last : Z) (remove : bool)
| MqDrop (tid win : Z).

Inductive mq_answer :=
| MqStatus (status : Z)
| MqMessage (m : option horizon_posted_message)
| MqDone.

Definition mq_step (fuel : nat) (q : horizon_message_queue) (op : mq_op)
    : option (mq_answer * horizon_message_queue) :=
  match op with
  | MqPost m mem => let '(st, q) := horizon_message_queue_post q m mem in Some (MqStatus st, q)
  | MqGet tid win first last remove =>
      '(m, q) ← message_queue_get fuel q tid win first last remove; Some (MqMessage m, q)
  | MqDrop tid win => q ← horizon_message_queue_drop fuel q tid win; Some (MqDone, q)
  end.

(** What the queue promises, on the sequence of messages still queued. *)
Definition mq_spec_step (xs : list horizon_posted_message) (op : mq_op)
    : mq_answer * list horizon_posted_message :=
  match op with
  | MqPost m true => (MqStatus 0, xs ++ [m])
  | MqPost m false => (MqStatus (-1), xs)
  | MqGet tid win first last remove =>
      match first_index (message_passes tid win first last) xs with
      | None => (MqMessage None, xs)
      | Some i => (MqMessage (xs !! i), if remove then delete i xs else xs)
      end
  | MqDrop tid win => (MqDone, List.filter (fun m => negb (message_gone tid win m)) xs)
  end.

Fixpoint mq_run (fuel : nat) (q : horizon_message_queue) (ops : list mq_op)
    : option (list mq_answer * horizon_message_queue) :=
  match ops with
  | [] => Some ([], q)
  | op :: ops =>
      '(a, q) ← mq_step fuel q op;
      '(rest, q) ← mq_run fuel q ops;
      Some (a :: rest, q)
  end.

Fixpoint mq_spec_run (xs : list horizon_posted_message) (ops : list mq_op)
    : list mq_answer * list horizon_posted_message :=
  match ops with
  | [] => ([], xs)
  | op :: ops =>
      let '(a, xs) := mq_spec_step xs op in
      let '(rest, xs) := mq_spec_run xs ops in
      (a :: rest, xs)
  end.

Lemma mq_spec_step_length xs op :
  (length (mq_spec_step xs op).2 <= S (length xs))%nat.
Proof.
  destruct op as [m []|tid win f l rm|tid win]; simpl.
  - rewrite length_app. simpl. lia.
  - lia.
  - destruct (first_index _ xs) as [i|] eqn:Hi; simpl; [|lia].
    destruct rm; [|lia]. rewrite length_delete; [lia|].
    apply lookup_lt_is_Some. by eapply first_index_lt.
  - pose proof (filter_length_le (fun m => negb (message_gone tid win m)) xs). lia.
Qed.

Lemma mq_step_refines fuel q ls xs op :
  message_queue_rep q ls xs -> (length xs < fuel)%nat ->
  exists q' ls', mq_step fuel q op = Some ((mq_spec_step xs op).1, q') /\
                 message_queue_rep q' ls' (mq_spec_step xs op).2.
Proof.
  intros Hq Hf. destruct op as [m []|tid win f l rm|tid win].
  - destruct (message_queue_post_rep q ls xs m Hq) as (q' & k & Heq & Hq').
    unfold mq_step. rewrite Heq. by eauto.
  - exists q, ls. done.
  - simpl. unfold message_queue_get. rewrite (message_queue_find_rep _ _ _ _ _ _ _ _ Hq Hf). simpl.
    destruct (first_index _ xs) as [i|] eqn:Hi; simpl; [|by eauto].
    apply first_index_Some in Hi as (x & Hx & _).
    destruct (rep_position _ _ _ _ _ (mq_rep_list _ _ _ Hq) Hx) as [k Hk].
    pose proof (lookup_lt_Some _ _ _ Hk) as Hlt.
    rewrite (link_get_at _ _ _ _ (mq_rep_list _ _ _ Hq)), Hk by lia. simpl.
    rewrite (rep_node _ _ _ (mq_rep_list _ _ _ Hq) _ _ _ Hk Hx), Hx. simpl.
    destruct rm; simpl; [|by eauto].
    destruct (message_queue_remove_rep _ _ _ _ _ Hq Hk) as (q' & -> & Hq'). simpl. by eauto.
  - simpl. unfold horizon_message_queue_drop.
    destruct (message_queue_drop_from_rep fuel (message_gone tid win) q ls xs 0 Hq)
      as (q' & ls' & Heq & Hq'); [lia..|].
    simpl in Heq. rewrite Heq. simpl. by eauto.
Qed.

Lemma mq_run_refines fuel ops q ls xs :
  message_queue_rep q ls xs -> (length xs + length ops < fuel)%nat ->
  exists q' ls', mq_run fuel q ops = Some ((mq_spec_run xs ops).1, q') /\
                 message_queue_rep q' ls' (mq_spec_run xs ops).2.
Proof.
  revert q ls xs. induction ops as [|op ops IH]; intros q ls xs Hq Hf; simpl in *; [by eauto|].
  destruct (mq_step_refines fuel q ls xs op Hq) as (q1 & ls1 & -> & Hq1); [lia|]. simpl.
  pose proof (mq_spec_step_length xs op) as Hlen.
  destruct (mq_spec_step xs op) as [a xs1]. simpl in *.
  destruct (IH q1 ls1 xs1 Hq1) as (q2 & ls2 & -> & Hq2); [lia|]. simpl.
  destruct (mq_spec_run xs1 ops) as [rest xs2]. by eauto.
Qed.

(** C30: any sequence of posts, gets and drops on the linked queue with its
    tail pointer, started empty, returns exactly what the same calls return
    on a first-in first-out sequence (post appends, get gives the oldest
    message that passes the filter and removes just that one, drop removes
    the messages of a window or a thread and keeps the order of the rest),
    never follows an invalid pointer and always ends; the queue then holds
    that sequence. *)
Theorem message_queue_refines_fifo fuel ops :
  (length ops < fuel)%nat ->
  exists q ls,
    mq_run fuel horizon_message_queue_init ops = Some ((mq_spec_run [] ops).1, q) /\
    message_queue_rep q ls (mq_spec_run [] ops).2.
Proof. intros Hf. by apply (mq_run_refines fuel ops _ [] [] message_queue_init_rep). Qed.
End filter.

Definition mq_example_ops : list mq_op :=
  [MqPost (mk_posted 1 5 0x111 0 0 0 0 0) true; MqPost (mk_posted 1 0 0x400 7 0 0 0 0) true;
   MqPost (mk_posted 2 9 0x111 1 0 0 0 0) true; MqGet 1 0xffffffff 0 0 true; MqDrop 0 9;
   MqPost (mk_posted 1 5 0x112 2 0 0 0 0) true; MqGet 1 0 0x112 0x112 true; MqGet 1 0 0 0 true;
   MqGet 1 0 0 0 true].

Lemma message_queue_refines_fifo_witness :
  exists q ls,
    mq_run (fun _ _ => false) 10 horizon_message_queue_init mq_example_ops =
      Some ([MqStatus 0; MqStatus 0; MqStatus 0;
             MqMessage (Some (mk_posted 1 0 0x400 7 0 0 0 0)); MqDone; MqStatus 0;
             MqMessage (Some (mk_posted 1 5 0x112 2 0 0 0 0));
             MqMessage (Some (mk_posted 1 5 0x111 0 0 0 0 0)); MqMessage None], q) /\
    message_queue_rep q ls [].
Proof.
  apply (message_queue_refines_fifo (fun _ _ => false) 10 mq_example_ops). simpl. lia.
Defined.
