(* ===== verification/Completion.v ===== *)
(** * I/O completion ports (dlls/ntdll/unix/horizon_completion.h)

    The message queue of a port, the rules of a thread's completion wait, and
    the completion flags of a file. The queue is a heap list ([Chain]) with a
    pointer to its last node and a count. *)
From S2P Require Import Prelude Chain.
Local Open Scope Z_scope.

Definition HORIZON_FILE_SYNCHRONOUS_IO_ALERT : Z := 0x10.
Definition HORIZON_FILE_SYNCHRONOUS_IO_NONALERT : Z := 0x20.
Definition HORIZON_FILE_SKIP_COMPLETION_PORT_ON_SUCCESS : Z := 0x1.
Definition HORIZON_FILE_SKIP_SET_EVENT_ON_HANDLE : Z := 0x2.
Definition HORIZON_FILE_SKIP_SET_USER_EVENT_ON_FAST_IO : Z := 0x4.

Record horizon_completion_msg := mk_completion_msg {
  cm_ckey : Z;
  cm_cvalue : Z;
  cm_information : Z;
  cm_status : Z;
}.

#[export] Instance horizon_completion_msg_eq_dec : EqDecision horizon_completion_msg.
Proof. solve_decision. Defined.

Record horizon_completion_queue := mk_completion_queue {
  cq_list : clist horizon_completion_msg;
  cq_tail : ptr;
  cq_depth : Z;
}.

Definition completion_queue_new : horizon_completion_queue :=
  {| cq_list := clist_empty; cq_tail := None; cq_depth := 0 |}.

(** 1, or 0 when [malloc] fails ([mem] false). *)
Definition horizon_completion_add (q : horizon_completion_queue)
    (ckey cvalue status information : Z) (mem : bool) : Z * horizon_completion_queue :=
  if negb mem then (0, q)
  else
    let msg := {| cm_ckey := ckey; cm_cvalue := cvalue;
                  cm_information := information; cm_status := status |} in
    let l := node_new (cq_list q) in
    let s := node_put (cq_list q) l msg None in
    let s := match cq_tail q with
             | Some t => link_set s (LNext t) (Some l)
             | None => link_set s LHead (Some l)
             end in
    (1, {| cq_list := s; cq_tail := Some l; cq_depth := u32 (cq_depth q + 1) |}).

(** The message at the head, or none; [None] outside for an invalid
    dereference. *)
Definition horizon_completion_take (q : horizon_completion_queue)
    : option (option horizon_completion_msg * horizon_completion_queue) :=
  match cl_head (cq_list q) with
  | None => Some (None, q)
  | Some head =>
      '(msg, next) ← cl_heap (cq_list q) !! head;
      let tail := match next with None => None | Some _ => cq_tail q end in
      Some (Some msg, {| cq_list := node_free (link_set (cq_list q) LHead next) head;
                         cq_tail := tail; cq_depth := u32 (cq_depth q - 1) |})
  end.

Fixpoint horizon_completion_clear (fuel : nat) (q : horizon_completion_queue)
    : option horizon_completion_queue :=
  match fuel with
  | O => None
  | S fuel =>
      '(m, q) ← horizon_completion_take q;
      match m with
      | None => Some q
      | Some _ => horizon_completion_clear fuel q
      end
  end.

Definition horizon_completion_wait_signaled (port : option horizon_completion_queue)
    (closed : bool) : bool :=
  match port with
  | None => true
  | Some q => closed || nonzero (cq_depth q)
  end.

(** Whether the wait is abandoned, what [*has_msg] becomes if it is written
    and the message then, and the port's queue. *)
Definition horizon_completion_wait_satisfy (port : option horizon_completion_queue) (closed : bool)
    : option (bool * option (option horizon_completion_msg) * option horizon_completion_queue) :=
  match port with
  | None => Some (true, None, None)
  | Some q =>
      if closed then Some (true, None, Some q)
      else '(m, q) ← horizon_completion_take q; Some (false, Some m, Some q)
  end.

Definition horizon_completion_file_overlapped (options : Z) : bool :=
  negb (nonzero (Z.land options (Z.lor HORIZON_FILE_SYNCHRONOUS_IO_ALERT
                                       HORIZON_FILE_SYNCHRONOUS_IO_NONALERT))).

Definition horizon_completion_file_posts (async : bool) (flags : Z) : bool :=
  async || negb (nonzero (Z.land flags HORIZON_FILE_SKIP_COMPLETION_PORT_ON_SUCCESS)).

Definition horizon_completion_file_mode (flags request : Z) : Z :=
  Z.lor flags (Z.land request
    (Z.lor (Z.lor HORIZON_FILE_SKIP_COMPLETION_PORT_ON_SUCCESS HORIZON_FILE_SKIP_SET_EVENT_ON_HANDLE)
           HORIZON_FILE_SKIP_SET_USER_EVENT_ON_FAST_IO)).

(** ** The queue as a sequence *)

Record completion_queue_rep (q : horizon_completion_queue) (ls : list positive)
    (xs : list horizon_completion_msg) : Prop := {
  cq_rep_list : clist_rep (cq_list q) ls xs;
  cq_rep_tail : cq_tail q = last ls;
  cq_rep_depth : cq_depth q = u32 (Z.of_nat (length xs));
}.

Lemma completion_queue_new_rep : completion_queue_rep completion_queue_new [] [].
Proof. split; [apply rep_empty|done..]. Qed.

Lemma completion_tail_link ls :
  match last ls with Some t => LNext t | None => LHead end = link_at ls (length ls).
Proof. rewrite last_lookup. destruct ls as [|l ls]; [done|]. simpl. by destruct (_ !! _). Qed.

Lemma completion_add_rep q ls xs ckey cvalue status information :
  completion_queue_rep q ls xs ->
  exists q' l,
    horizon_completion_add q ckey cvalue status information true = (1, q') /\
    completion_queue_rep q' (ls ++ [l]) (xs ++ [mk_completion_msg ckey cvalue information status]).
Proof.
  intros [Hr Ht Hd]. unfold horizon_completion_add. cbn [negb]. eexists _, _. split; [done|].
  split; cbn [cq_list cq_tail cq_depth].
  - pose proof (completion_tail_link ls) as Hk. rewrite <- Ht in Hk.
    destruct (cq_tail q); rewrite Hk; (apply rep_append; [done|apply node_new_fresh]).
  - by rewrite last_snoc.
  - rewrite Hd, length_app. simpl. unfold u32. rewrite Zplus_mod_idemp_l. f_equal. lia.
Qed.

Lemma completion_take_empty q ls :
  completion_queue_rep q ls [] -> horizon_completion_take q = Some (None, q).
Proof.
  intros [Hr _ _]. unfold horizon_completion_take. rewrite (rep_head _ _ _ Hr).
  pose proof (rep_length _ _ _ Hr) as Hl. destruct ls; [done|simpl in Hl; lia].
Qed.

Lemma completion_take_rep q ls x xs :
  completion_queue_rep q ls (x :: xs) ->
  exists q' ls', horizon_completion_take q = Some (Some x, q') /\ completion_queue_rep q' ls' xs.
Proof.
  intros [Hr Ht Hd]. pose proof (rep_length _ _ _ Hr) as Hl.
  destruct ls as [|l ls]; [simpl in Hl; lia|].
  unfold horizon_completion_take. rewrite (rep_head _ _ _ Hr).
  change ((l :: ls) !! 0%nat) with (Some l). cbv iota.
  pose proof (rep_node _ _ _ Hr 0 l x eq_refl eq_refl) as Hn. rewrite Hn. cbn.
  eexists _, ls. split; [done|]. split; simpl.
  - apply (rep_remove _ _ _ 0 l Hr eq_refl).
  - destruct ls as [|l2 ls]; simpl; [done|]. by rewrite Ht.
  - rewrite Hd. simpl length. unfold u32. rewrite Zminus_mod_idemp_l. f_equal. lia.
Qed.

Lemma completion_clear_rep fuel q ls xs :
  completion_queue_rep q ls xs -> (length xs < fuel)%nat ->
  exists q', horizon_completion_clear fuel q = Some q' /\ completion_queue_rep q' [] [].
Proof.
  revert q ls xs. induction fuel as [|fuel IH]; intros q ls xs Hq Hf; [lia|].
  destruct xs as [|x xs]; cbn [horizon_completion_clear].
  - rewrite (completion_take_empty _ _ Hq). simpl. exists q. split; [done|].
    pose proof (rep_length _ _ _ (cq_rep_list _ _ _ Hq)) as Hl. by destruct ls.
  - destruct (completion_take_rep _ _ _ _ Hq) as (q' & ls' & -> & Hq'). simpl in *.
    apply (IH q' ls' xs Hq'). lia.
Qed.

(** ** Refinement of a FIFO sequence *)

Inductive cq_op :=
| CqAdd (ckey cvalue status information : Z) (mem : bool)
| CqTake
| CqClear
| CqSignaled (closed : bool)
| CqSatisfy (closed : bool).

Inductive cq_answer :=
| CqBool (b : bool)
| CqMsg (m : option horizon_completion_msg)
| CqSatisfied (abandoned : bool) (has_msg : option (option horizon_completion_msg))
| CqDone.

Definition cq_step (fuel : nat) (q : horizon_completion_queue) (op : cq_op)
    : option (cq_answer * horizon_completion_queue) :=
  match op with
  | CqAdd ckey cvalue status information mem =>
      let '(r, q) := horizon_completion_add q ckey cvalue status information mem in
      Some (CqBool (nonzero r), q)
  | CqTake => '(m, q) ← horizon_completion_take q; Some (CqMsg m, q)
  | CqClear => q ← horizon_completion_clear fuel q; Some (CqDone, q)
  | CqSignaled closed => Some (CqBool (horizon_completion_wait_signaled (Some q) closed), q)
  | CqSatisfy closed =>
      '(abandoned, has_msg, q') ← horizon_completion_wait_satisfy (Some q) closed;
      q' ← q'; Some (CqSatisfied abandoned has_msg, q')
  end.

(** The port's contract: packets leave in the order they were queued, each
    once; a wait is ready exactly when there is one to take or the port is
    closed, and takes the next one unless the port is closed. *)
Definition cq_spec_step (xs : list horizon_completion_msg) (op : cq_op)
    : cq_answer * list horizon_completion_msg :=
  match op with
  | CqAdd ckey cvalue status information mem =>
      (CqBool mem, if mem then xs ++ [mk_completion_msg ckey cvalue information status] else xs)
  | CqTake => (CqMsg (head xs), tail xs)
  | CqClear => (CqDone, [])
  | CqSignaled closed => (CqBool (closed || bool_decide (xs <> [])), xs)
  | CqSatisfy true => (CqSatisfied true None, xs)
  | CqSatisfy false => (CqSatisfied false (Some (head xs)), tail xs)
  end.

Fixpoint cq_run (fuel : nat) (q : horizon_completion_queue) (ops : list cq_op)
    : option (list cq_answer * horizon_completion_queue) :=
  match ops with
  | [] => Some ([], q)
  | op :: ops =>
      '(a, q) ← cq_step fuel q op;
      '(rest, q) ← cq_run fuel q ops;
      Some (a :: rest, q)
  end.

Fixpoint cq_spec_run (xs : list horizon_completion_msg) (ops : list cq_op)
    : list cq_answer * list horizon_completion_msg :=
  match ops with
  | [] => ([], xs)
  | op :: ops =>
      let '(a, xs) := cq_spec_step xs op in
      let '(rest, xs) := cq_spec_run xs ops in
      (a :: rest, xs)
  end.

Lemma cq_spec_step_length xs op : (length (cq_spec_step xs op).2 <= S (length xs))%nat.
Proof.
  destruct op as [? ? ? ? []| | |c|[]]; simpl; rewrite ?length_app; simpl; try lia;
    destruct xs; simpl; lia.
Qed.

Lemma completion_take_step q ls xs :
  completion_queue_rep q ls xs ->
  exists q' ls', horizon_completion_take q = Some (head xs, q') /\
                 completion_queue_rep q' ls' (tail xs).
Proof.
  destruct xs as [|x xs]; intros Hq.
  - exists q, ls. split; [by eapply completion_take_empty|done].
  - by apply completion_take_rep in Hq.
Qed.

Lemma completion_signaled_rep q ls xs :
  completion_queue_rep q ls xs -> Z.of_nat (length xs) < 4294967296 ->
  nonzero (cq_depth q) = bool_decide (xs <> []).
Proof.
  intros [_ _ Hd] Hlen. rewrite Hd, u32_small by (unfold is_u32; lia).
  unfold nonzero. destruct xs as [|x xs]; [done|]. rewrite bool_decide_eq_true_2 by done.
  destruct (Z.eqb_spec (Z.of_nat (length (x :: xs))) 0); [simpl in *; lia|done].
Qed.

Lemma cq_step_refines fuel q ls xs op :
  completion_queue_rep q ls xs -> (length xs < fuel)%nat -> Z.of_nat (length xs) < 4294967296 ->
  exists q' ls', cq_step fuel q op = Some ((cq_spec_step xs op).1, q') /\
                 completion_queue_rep q' ls' (cq_spec_step xs op).2.
Proof.
  intros Hq Hf Hlen. destruct op as [ckey cvalue st info []| | |closed|[]]; cbn [cq_step cq_spec_step fst snd].
  - destruct (completion_add_rep q ls xs ckey cvalue st info Hq) as (q' & l & Heq & Hq').
    rewrite Heq. by eauto.
  - by exists q, ls.
  - destruct (completion_take_step _ _ _ Hq) as (q' & ls' & -> & Hq'). simpl. by eauto.
  - destruct (completion_clear_rep fuel _ _ _ Hq Hf) as (q' & -> & Hq'). simpl. by eauto.
  - exists q, ls. split; [|done]. simpl. by rewrite (completion_signaled_rep _ _ _ Hq Hlen).
  - by exists q, ls.
  - unfold horizon_completion_wait_satisfy.
    destruct (completion_take_step _ _ _ Hq) as (q' & ls' & -> & Hq'). simpl. by eauto.
Qed.

Lemma cq_run_refines fuel ops q ls xs :
  completion_queue_rep q ls xs -> (length xs + length ops < fuel)%nat ->
  Z.of_nat (length xs + length ops) < 4294967296 ->
  exists q' ls', cq_run fuel q ops = Some ((cq_spec_run xs ops).1, q') /\
                 completion_queue_rep q' ls' (cq_spec_run xs ops).2.
Proof.
  revert q ls xs. induction ops as [|op ops IH]; intros q ls xs Hq Hf Hlen; simpl in *; [by eauto|].
  destruct (cq_step_refines fuel q ls xs op Hq) as (q1 & ls1 & -> & Hq1); [lia..|]. simpl.
  pose proof (cq_spec_step_length xs op) as Hl.
  destruct (cq_spec_step xs op) as [a xs1]. simpl in *.
  destruct (IH q1 ls1 xs1 Hq1) as (q2 & ls2 & -> & Hq2); [lia..|]. simpl.
  destruct (cq_spec_run xs1 ops) as [rest xs2]. by eauto.
Qed.

(** C31: any sequence of fewer than 2^32 calls on a new completion port answers
    as a first-in first-out sequence of packets does: packets come out in the
    order they were queued and each once, a wait is signaled exactly while a
    packet is queued or the port is closed, and a satisfied wait takes the
    oldest packet or, on a closed port, is abandoned and takes none. *)
Theorem completion_refines_fifo fuel ops :
  (length ops < fuel)%nat -> Z.of_nat (length ops) < 4294967296 ->
  exists q ls,
    cq_run fuel completion_queue_new ops = Some ((cq_spec_run [] ops).1, q) /\
    completion_queue_rep q ls (cq_spec_run [] ops).2.
Proof. intros Hf Hl. by apply (cq_run_refines fuel ops _ [] [] completion_queue_new_rep). Qed.

Lemma completion_refines_fifo_witness :
  exists q ls,
    cq_run 9 completion_queue_new
      [CqSignaled false; CqAdd 1 2 0 10 true; CqAdd 3 4 0 20 true; CqSignaled false;
       CqSatisfy false; CqSatisfy true; CqTake; CqTake] =
      Some ([CqBool false; CqBool true; CqBool true; CqBool true;
             CqSatisfied false (Some (Some (mk_completion_msg 1 2 10 0)));
             CqSatisfied true None; CqMsg (Some (mk_completion_msg 3 4 20 0)); CqMsg None], q) /\
    completion_queue_rep q ls [].
Proof.
  apply (completion_refines_fifo 9
           [CqSignaled false; CqAdd 1 2 0 10 true; CqAdd 3 4 0 20 true; CqSignaled false;
            CqSatisfy false; CqSatisfy true; CqTake; CqTake]); simpl; lia.
Defined.
