(* ===== verification/Pool.v ===== *)
(** * Page pool of the mapping layer (dlls/ntdll/unix/horizon_pool.h)

    Backing memory for mapped pages: arenas of 512 pages, each one kernel
    memory block, with a byte per page that says whether it is handed out.
    The C heap is outside the model: the address [aligned_alloc] returns (0
    for NULL) and whether [realloc] succeeds are arguments of the operations
    that call them. *)
From S2P Require Import Prelude.
Local Open Scope Z_scope.

Definition HORIZON_POOL_PAGE : Z := 4096.
Definition HORIZON_POOL_PAGES : nat := 512.
Definition HORIZON_POOL_RETAIN_EMPTY : Z := 8.
Definition HORIZON_POOL_ARENA : Z := Z.of_nat HORIZON_POOL_PAGES * HORIZON_POOL_PAGE.
(** [sizeof(struct horizon_page_arena)]: a pointer, a short, 512 bytes, padded. *)
Definition sizeof_page_arena : Z := 528.

Global Arguments HORIZON_POOL_PAGES : simpl never.

Record horizon_page_arena := mk_page_arena {
  pa_memory : Z;        (* 0 is NULL *)
  pa_free_pages : Z;
  pa_used : list bool;
}.

(** A zeroed arena. *)
Definition page_arena_zero : horizon_page_arena :=
  {| pa_memory := 0; pa_free_pages := 0; pa_used := replicate HORIZON_POOL_PAGES false |}.

Record horizon_page_pool := mk_page_pool {
  pp_arenas : list horizon_page_arena;   (* capacity of them *)
  pp_active_arenas : Z;
  pp_peak_arenas : Z;
  pp_hits : Z;
  pp_misses : Z;
  pp_reclaims : Z;
  pp_blocks : Z;
  pp_shared : Z;
}.

Definition pp_capacity (pool : horizon_page_pool) : Z := Z.of_nat (length (pp_arenas pool)).

(** ** Allocation *)

(** The inner loop: the start of the first run of [pages] unused pages. *)
Fixpoint page_scan (used : list bool) (j run pages : nat) : option nat :=
  match used with
  | [] => None
  | u :: used =>
      let run := if u : bool then O else S run in
      if bool_decide (run = pages) then Some (j + 1 - run)%nat
      else page_scan used (S j) run pages
  end.

(** The outer loop: the first arena that has such a run. *)
Fixpoint page_arenas_scan (arenas : list horizon_page_arena) (i pages : nat) : option (nat * nat) :=
  match arenas with
  | [] => None
  | arena :: arenas =>
      if pa_memory arena =? 0 then page_arenas_scan arenas (S i) pages
      else if pa_free_pages arena <? Z.of_nat pages then page_arenas_scan arenas (S i) pages
      else match page_scan (pa_used arena) 0 0 pages with
           | Some first => Some (i, first)
           | None => page_arenas_scan arenas (S i) pages
           end
  end.

Definition arena_is_free (arena : horizon_page_arena) : bool := pa_memory arena =? 0.

(** The array with a free arena in it, and its index: the first entry without
    memory, or the first new one after doubling the array; [grow] is whether
    [realloc] succeeds. *)
Definition page_pool_slot (arenas : list horizon_page_arena) (grow : bool)
    : option (nat * list horizon_page_arena) :=
  match first_index arena_is_free arenas with
  | Some i => Some (i, arenas)
  | None =>
      let capacity := Z.of_nat (length arenas) in
      let new := if nonzero capacity then u64 (capacity * 2) else 32 in
      if (new <=? capacity) || (UINT64_MAX / sizeof_page_arena <? new) then None
      else if negb grow then None
      else Some (length arenas, arenas ++ replicate (Z.to_nat (new - capacity)) page_arena_zero)
  end.

Definition pool_with (pool : horizon_page_pool) (arenas : list horizon_page_arena)
    (active peak hits misses reclaims : Z) : horizon_page_pool :=
  {| pp_arenas := arenas; pp_active_arenas := active; pp_peak_arenas := peak; pp_hits := hits;
     pp_misses := misses; pp_reclaims := reclaims; pp_blocks := pp_blocks pool;
     pp_shared := pp_shared pool |}.

(** The address, 0 for NULL, and the pool after the call. *)
Definition horizon_pages_alloc (pool : horizon_page_pool) (size : Z) (grow : bool) (memory : Z)
    : Z * horizon_page_pool :=
  let pages := size / HORIZON_POOL_PAGE in
  if (size =? 0) || nonzero (size mod HORIZON_POOL_PAGE) || (Z.of_nat HORIZON_POOL_PAGES <? pages)
  then (0, pool)
  else
    let n := Z.to_nat pages in
    match page_arenas_scan (pp_arenas pool) 0 n with
    | Some (i, first) =>
        match pp_arenas pool !! i with
        | None => (0, pool)
        | Some arena =>
            let arena' := {| pa_memory := pa_memory arena;
                             pa_free_pages := u16 (pa_free_pages arena - pages);
                             pa_used := splice (pa_used arena) first (replicate n true) |} in
            (pa_memory arena + Z.of_nat first * HORIZON_POOL_PAGE,
             pool_with pool (<[i := arena']> (pp_arenas pool)) (pp_active_arenas pool)
               (pp_peak_arenas pool) (u64 (pp_hits pool + 1)) (pp_misses pool) (pp_reclaims pool))
        end
    | None =>
        match page_pool_slot (pp_arenas pool) grow with
        | None => (0, pool)
        | Some (i, arenas) =>
            match arenas !! i with
            | None => (0, pool)
            | Some arena =>
                if memory =? 0 then
                  (0, pool_with pool arenas (pp_active_arenas pool) (pp_peak_arenas pool)
                        (pp_hits pool) (pp_misses pool) (pp_reclaims pool))
                else
                  let arena' := {| pa_memory := memory;
                                   pa_free_pages := u16 (Z.of_nat HORIZON_POOL_PAGES - pages);
                                   pa_used := splice (pa_used arena) 0 (replicate n true) |} in
                  let active := u32 (pp_active_arenas pool + 1) in
                  let peak := if pp_peak_arenas pool <? active then active else pp_peak_arenas pool in
                  (memory, pool_with pool (<[i := arena']> arenas) active peak
                             (u64 (pp_hits pool + 1)) (u64 (pp_misses pool + 1)) (pp_reclaims pool))
            end
        end
    end.

(** [block] is what the direct [aligned_alloc] of whole arenas returns. *)
Definition horizon_pages_alloc_dedicated (pool : horizon_page_pool) (size : Z) (grow : bool)
    (memory block : Z) : Z * horizon_page_pool :=
  if (size =? 0) || nonzero (size mod HORIZON_POOL_PAGE) ||
     (UINT64_MAX - (HORIZON_POOL_ARENA - 1) <? size)
  then (0, pool)
  else
    let '(ptr, pool) := horizon_pages_alloc pool size grow memory in
    if nonzero ptr then (ptr, pool)
    else if nonzero block then
      (block, {| pp_arenas := pp_arenas pool; pp_active_arenas := pp_active_arenas pool;
                 pp_peak_arenas := pp_peak_arenas pool; pp_hits := pp_hits pool;
                 pp_misses := pp_misses pool; pp_reclaims := pp_reclaims pool;
                 pp_blocks := u64 (pp_blocks pool + 1); pp_shared := pp_shared pool |})
    else (0, pool).

(** [shared] is what the last [aligned_alloc], of single pages, returns. *)
Definition horizon_pages_alloc_any (pool : horizon_page_pool) (size : Z) (grow : bool)
    (memory block shared : Z) : Z * horizon_page_pool :=
  let '(ptr, pool) := horizon_pages_alloc_dedicated pool size grow memory block in
  if negb (nonzero ptr) && nonzero size && negb (nonzero (size mod HORIZON_POOL_PAGE)) &&
     nonzero shared
  then (shared, {| pp_arenas := pp_arenas pool; pp_active_arenas := pp_active_arenas pool;
                   pp_peak_arenas := pp_peak_arenas pool; pp_hits := pp_hits pool;
                   pp_misses := pp_misses pool; pp_reclaims := pp_reclaims pool;
                   pp_blocks := pp_blocks pool; pp_shared := u64 (pp_shared pool + 1) |})
  else (ptr, pool).

(** ** Freeing *)

Definition arena_holds (ptr size : Z) (arena : horizon_page_arena) : bool :=
  let offset := u64 (ptr - pa_memory arena) in
  negb (pa_memory arena =? 0) &&
  ((offset <? HORIZON_POOL_ARENA) && negb (nonzero (offset mod HORIZON_POOL_PAGE)) &&
   (size <=? HORIZON_POOL_ARENA - offset)).

(** 0 for a direct allocation, which the caller frees itself. *)
Definition horizon_pages_free (pool : horizon_page_pool) (ptr size : Z) : Z * horizon_page_pool :=
  if (ptr =? 0) || (size =? 0) || nonzero (size mod HORIZON_POOL_PAGE) then (0, pool)
  else
    match first_index (arena_holds ptr size) (pp_arenas pool) with
    | None => (0, pool)
    | Some i =>
        match pp_arenas pool !! i with
        | None => (0, pool)
        | Some arena =>
            let offset := u64 (ptr - pa_memory arena) in
            let pages := size / HORIZON_POOL_PAGE in
            let used := splice (pa_used arena) (Z.to_nat (offset / HORIZON_POOL_PAGE))
                          (replicate (Z.to_nat pages) false) in
            let free_pages := u16 (pa_free_pages arena + pages) in
            if (free_pages =? Z.of_nat HORIZON_POOL_PAGES) &&
               (HORIZON_POOL_RETAIN_EMPTY <? pp_active_arenas pool)
            then (1, pool_with pool (<[i := page_arena_zero]> (pp_arenas pool))
                       (u32 (pp_active_arenas pool - 1)) (pp_peak_arenas pool) (pp_hits pool)
                       (pp_misses pool) (u64 (pp_reclaims pool + 1)))
            else (1, pool_with pool
                       (<[i := {| pa_memory := pa_memory arena; pa_free_pages := free_pages;
                                  pa_used := used |}]> (pp_arenas pool))
                       (pp_active_arenas pool) (pp_peak_arenas pool) (pp_hits pool)
                       (pp_misses pool) (pp_reclaims pool))
        end
    end.

Definition arena_is_empty (arena : horizon_page_arena) : bool :=
  negb ((pa_memory arena =? 0) || negb (pa_free_pages arena =? Z.of_nat HORIZON_POOL_PAGES)).

Fixpoint pages_trim_loop (arenas : list horizon_page_arena) (active reclaims freed : Z)
    : list horizon_page_arena * Z * Z * Z :=
  match arenas with
  | [] => ([], active, reclaims, freed)
  | arena :: arenas =>
      if arena_is_empty arena then
        let '(rest, active, reclaims, freed) :=
          pages_trim_loop arenas (u32 (active - 1)) (u64 (reclaims + 1))
            (u64 (freed + HORIZON_POOL_ARENA)) in
        (page_arena_zero :: rest, active, reclaims, freed)
      else
        let '(rest, active, reclaims, freed) := pages_trim_loop arenas active reclaims freed in
        (arena :: rest, active, reclaims, freed)
  end.

Definition horizon_pages_trim (pool : horizon_page_pool) : Z * horizon_page_pool :=
  let '(arenas, active, reclaims, freed) :=
    pages_trim_loop (pp_arenas pool) (pp_active_arenas pool) (pp_reclaims pool) 0 in
  (freed, pool_with pool (if active =? 0 then [] else arenas) active (pp_peak_arenas pool)
            (pp_hits pool) (pp_misses pool) reclaims).

(** ** Well-formed pools and the pages they have handed out *)

Definition arena_wf (a : horizon_page_arena) : Prop :=
  if decide (pa_memory a = 0) then a = page_arena_zero
  else length (pa_used a) = HORIZON_POOL_PAGES /\
       pa_free_pages a = Z.of_nat (countb negb (pa_used a)) /\
       0 < pa_memory a /\ pa_memory a + HORIZON_POOL_ARENA <= 2 ^ 64.

Definition arenas_apart (m1 m2 : Z) : Prop :=
  m1 + HORIZON_POOL_ARENA <= m2 \/ m2 + HORIZON_POOL_ARENA <= m1.

Definition arena_active (a : horizon_page_arena) : bool := negb (arena_is_free a).

Record arenas_ok (arenas : list horizon_page_arena) : Prop := {
  ok_each : Forall arena_wf arenas;
  ok_apart : forall i j a b, arenas !! i = Some a -> arenas !! j = Some b ->
    i <> j -> pa_memory a <> 0 -> pa_memory b <> 0 -> arenas_apart (pa_memory a) (pa_memory b);
}.

Record page_pool_wf (pool : horizon_page_pool) : Prop := {
  pp_wf_arenas : arenas_ok (pp_arenas pool);
  pp_wf_active : pp_active_arenas pool = Z.of_nat (countb arena_active (pp_arenas pool));
}.

(** A page of an arena is live while it is handed out. *)
Definition arena_live (a : horizon_page_arena) (p : Z) : Prop :=
  pa_memory a <> 0 /\
  exists j, pa_used a !! j = Some true /\ p = pa_memory a + Z.of_nat j * HORIZON_POOL_PAGE.

Definition arenas_live (arenas : list horizon_page_arena) (p : Z) : Prop :=
  exists i a, arenas !! i = Some a /\ arena_live a p.

Definition page_live (pool : horizon_page_pool) (p : Z) : Prop := arenas_live (pp_arenas pool) p.

(** The pages of a block of [size] bytes at [ptr]. *)
Definition block_page (ptr size p : Z) : Prop :=
  exists k, (k < Z.to_nat (size / HORIZON_POOL_PAGE))%nat /\ p = ptr + Z.of_nat k * HORIZON_POOL_PAGE.

(** A block inside one arena whose pages are all handed out. *)
Definition block_live (pool : horizon_page_pool) (ptr size : Z) : Prop :=
  exists i a first, pp_arenas pool !! i = Some a /\ pa_memory a <> 0 /\
    ptr = pa_memory a + Z.of_nat first * HORIZON_POOL_PAGE /\
    (first + Z.to_nat (size / HORIZON_POOL_PAGE) <= HORIZON_POOL_PAGES)%nat /\
    forall k, (k < Z.to_nat (size / HORIZON_POOL_PAGE))%nat -> pa_used a !! (first + k)%nat = Some true.

(** What [aligned_alloc] promises about the arena it returns: memory of its
    own, apart from the arenas in use. *)
Definition aligned_alloc_ok (pool : horizon_page_pool) (memory : Z) : Prop :=
  memory <> 0 ->
  0 < memory /\ memory + HORIZON_POOL_ARENA <= 2 ^ 64 /\
  forall i a, pp_arenas pool !! i = Some a -> pa_memory a <> 0 -> arenas_apart (pa_memory a) memory.

Ltac pool_lia :=
  unfold arenas_apart in *;
  change HORIZON_POOL_ARENA with 2097152 in *;
  change HORIZON_POOL_PAGE with 4096 in *; change HORIZON_POOL_PAGES with 512%nat in *; lia.

(** *** The scan for a run of unused pages *)

Lemma page_scan_spec used j run pages first :
  page_scan used j run pages = Some first -> (run <= j)%nat -> (1 <= pages)%nat ->
  (j - run <= first)%nat /\ (first + pages <= j + length used)%nat /\
  (forall k, (j <= k)%nat -> (first <= k < first + pages)%nat -> used !! (k - j)%nat = Some false).
Proof.
  revert j run. induction used as [|u used IH]; intros j run; simpl; [done|].
  intros H Hr Hp. case_bool_decide as Hrun.
  - simplify_eq. destruct u; [lia|]. split_and!; [lia..|].
    intros k Hj Hk. replace (k - j)%nat with 0%nat by lia. done.
  - apply IH in H; [|destruct u; lia|done]. destruct H as (H1 & H2 & H3).
    split_and!; [destruct u; lia|lia|]. intros k Hj Hk. destruct (decide (k = j)) as [->|Hne].
    + rewrite Nat.sub_diag. simpl. destruct u; [lia|done].
    + replace (k - j)%nat with (S (k - S j)) by lia. simpl. apply H3; lia.
Qed.

Lemma page_scan_free used pages first :
  page_scan used 0 0 pages = Some first -> (1 <= pages)%nat ->
  (first + pages <= length used)%nat /\
  forall k, (k < pages)%nat -> used !! (first + k)%nat = Some false.
Proof.
  intros H Hp. apply page_scan_spec in H as (_ & H2 & H3); [|lia|done].
  split; [lia|]. intros k Hk. specialize (H3 (first + k)%nat ltac:(lia) ltac:(lia)).
  by rewrite Nat.sub_0_r in H3.
Qed.

(** The scan misses no run. *)
Lemma page_scan_complete used j run pages first :
  (run < pages)%nat -> (run <= j)%nat -> (j - run <= first)%nat ->
  (first + pages <= j + length used)%nat ->
  (forall k, (j <= k)%nat -> (first <= k < first + pages)%nat -> used !! (k - j)%nat = Some false) ->
  is_Some (page_scan used j run pages).
Proof.
  revert j run. induction used as [|u used IH]; intros j run Hrun Hj Hf Hlen Hfree; simpl in *; [lia|].
  case_bool_decide; [done|]. destruct u.
  - destruct (decide (j < first)%nat) as [Hlt|Hge].
    + apply IH; [lia..|]. intros k Hk1 Hk2. specialize (Hfree k ltac:(lia) ltac:(lia)).
      replace (k - j)%nat with (S (k - S j)) in Hfree by lia. done.
    + specialize (Hfree j ltac:(lia) ltac:(lia)). by rewrite Nat.sub_diag in Hfree.
  - apply IH; [lia..|]. intros k Hk1 Hk2. specialize (Hfree k ltac:(lia) ltac:(lia)).
    replace (k - j)%nat with (S (k - S j)) in Hfree by lia. done.
Qed.

Lemma page_arenas_scan_Some arenas i pages j first :
  page_arenas_scan arenas i pages = Some (j, first) ->
  exists k a, j = (i + k)%nat /\ arenas !! k = Some a /\ pa_memory a <> 0 /\
              Z.of_nat pages <= pa_free_pages a /\ page_scan (pa_used a) 0 0 pages = Some first.
Proof.
  revert i. induction arenas as [|a arenas IH]; intros i; simpl; [done|].
  assert (Hnext : page_arenas_scan arenas (S i) pages = Some (j, first) ->
    exists k a0, j = (i + k)%nat /\ (a :: arenas) !! k = Some a0 /\ pa_memory a0 <> 0 /\
                 Z.of_nat pages <= pa_free_pages a0 /\ page_scan (pa_used a0) 0 0 pages = Some first).
  { intros (k & b & -> & Hb)%IH. exists (S k), b. split; [lia|]. done. }
  destruct (Z.eqb_spec (pa_memory a) 0); [done|].
  destruct (Z.ltb_spec (pa_free_pages a) (Z.of_nat pages)); [done|].
  destruct (page_scan (pa_used a) 0 0 pages) as [f|] eqn:Hs; [|done].
  intros [= <- <-]. exists 0%nat, a. split_and!; [lia|done..].
Qed.

Lemma page_arenas_scan_None arenas i pages k a :
  page_arenas_scan arenas i pages = None -> arenas !! k = Some a -> pa_memory a <> 0 ->
  pa_free_pages a < Z.of_nat pages \/ page_scan (pa_used a) 0 0 pages = None.
Proof.
  revert i k. induction arenas as [|b arenas IH]; intros i k; simpl; [done|].
  destruct (Z.eqb_spec (pa_memory b) 0).
  { intros H Hk. destruct k as [|k]; [by simplify_eq/=|by eapply IH]. }
  destruct (Z.ltb_spec (pa_free_pages b) (Z.of_nat pages)).
  { intros H' Hk. destruct k as [|k]; [simplify_eq/=; by left|by eapply IH]. }
  destruct (page_scan (pa_used b) 0 0 pages) as [f|] eqn:Hs; [done|].
  intros H' Hk. destruct k as [|k]; [simplify_eq/=; by right|by eapply IH].
Qed.

(** *** Replacing one arena *)

Lemma arena_wf_zero : arena_wf page_arena_zero.
Proof. unfold arena_wf. by rewrite decide_True. Qed.

Lemma arena_wf_memory a :
  arena_wf a -> pa_memory a <> 0 ->
  length (pa_used a) = HORIZON_POOL_PAGES /\
  pa_free_pages a = Z.of_nat (countb negb (pa_used a)) /\
  0 < pa_memory a /\ pa_memory a + HORIZON_POOL_ARENA <= 2 ^ 64.
Proof. intros Ha Hm. unfold arena_wf in Ha. by rewrite decide_False in Ha. Qed.

Lemma arena_live_zero p : ~ arena_live page_arena_zero p.
Proof. intros [H _]. by apply H. Qed.

Lemma arenas_ok_insert arenas i a a' :
  arenas_ok arenas -> arenas !! i = Some a -> arena_wf a' ->
  (pa_memory a' = 0 \/ pa_memory a' = pa_memory a \/
   forall j b, arenas !! j = Some b -> pa_memory b <> 0 -> arenas_apart (pa_memory b) (pa_memory a')) ->
  arenas_ok (<[i := a']> arenas).
Proof.
  intros [He Hap] Hi Hwf Hm. split; [by apply Forall_insert|].
  assert (Hnew : forall j b, arenas !! j = Some b -> i <> j -> pa_memory a' <> 0 -> pa_memory b <> 0 ->
                   arenas_apart (pa_memory b) (pa_memory a')).
  { intros j b Hj Hne Ha' Hb. destruct Hm as [?|[Heq|H]]; [done| |by eauto].
    rewrite Heq in *. eapply (Hap j i); eauto. }
  intros j k b c Hb Hc Hjk Hb0 Hc0.
  rewrite list_lookup_insert in Hb, Hc.
  repeat case_decide; destruct_and?; simplify_eq.
  - apply (Hnew j b Hb); congruence.
  - specialize (Hnew k c Hc ltac:(congruence) Hb0 Hc0). pool_lia.
  - by eapply (Hap j k).
Qed.

Lemma arenas_live_insert arenas i a a' p :
  arenas !! i = Some a ->
  arenas_live (<[i := a']> arenas) p <->
  arena_live a' p \/ exists j b, j <> i /\ arenas !! j = Some b /\ arena_live b p.
Proof.
  intros Hi. pose proof (lookup_lt_Some _ _ _ Hi) as Hlt. split.
  - intros (j & b & Hb & Hl). rewrite list_lookup_insert in Hb.
    case_decide; destruct_and?; simplify_eq; [by left|]. right. exists j, b.
    split_and!; [|done..]. intros ->. naive_solver.
  - intros [Hl|(j & b & Hne & Hb & Hl)].
    + exists i, a'. by rewrite list_lookup_insert_eq.
    + exists j, b. by rewrite list_lookup_insert_ne.
Qed.

Lemma arenas_live_split arenas i a p :
  arenas !! i = Some a ->
  arenas_live arenas p <->
  arena_live a p \/ exists j b, j <> i /\ arenas !! j = Some b /\ arena_live b p.
Proof. intros Hi. rewrite <- (arenas_live_insert arenas i a a p Hi). by rewrite list_insert_id. Qed.

(** A page of one arena is no page of another. *)
Lemma arena_live_range a p :
  arena_wf a -> arena_live a p ->
  pa_memory a <= p < pa_memory a + HORIZON_POOL_ARENA.
Proof.
  intros Hwf [Hm (j & Hj & ->)]. apply arena_wf_memory in Hwf as (Hlen & _); [|done].
  apply lookup_lt_Some in Hj. pool_lia.
Qed.

Lemma arena_range_other arenas i j a b p :
  arenas_ok arenas -> arenas !! i = Some a -> arenas !! j = Some b -> j <> i ->
  pa_memory a <> 0 -> pa_memory a <= p < pa_memory a + HORIZON_POOL_ARENA -> ~ arena_live b p.
Proof.
  intros Hok Ha Hb Hne Hm Hp Hl.
  pose proof (Forall_lookup_1 _ _ _ _ (ok_each _ Hok) Hb) as Hwb.
  pose proof (arena_live_range _ _ Hwb Hl). destruct Hl as [Hmb _].
  pose proof (ok_apart _ Hok _ _ _ _ Ha Hb ltac:(congruence) Hm Hmb). pool_lia.
Qed.

(** *** Marking a run of pages *)

Section mark.
Context (used : list bool) (first n : nat) (v : bool).
Hypothesis Hin : (first + n <= length used)%nat.
Hypothesis Hold : forall k, (k < n)%nat -> used !! (first + k)%nat = Some (negb v).

Lemma mark_decompose :
  used = take first used ++ replicate n (negb v) ++ drop (first + n) used.
Proof.
  rewrite <- (length_replicate n v) at 2. apply splice_decompose.
  - by rewrite length_replicate.
  - by rewrite !length_replicate.
  - rewrite length_replicate. intros j Hj.
    rewrite lookup_replicate_2 by lia. specialize (Hold (j - first)%nat ltac:(lia)).
    by replace (first + (j - first))%nat with j in Hold by lia.
Qed.

Lemma mark_count :
  (countb negb (splice used first (replicate n v)) + (if v then n else 0) =
   countb negb used + (if v then 0 else n))%nat.
Proof.
  rewrite mark_decompose at 2. unfold splice.
  rewrite length_replicate, !countb_app, !countb_replicate. destruct v; simpl; lia.
Qed.

Lemma mark_lookup j :
  splice used first (replicate n v) !! j =
    if decide (first <= j < first + n)%nat then Some v else used !! j.
Proof.
  case_decide.
  - rewrite lookup_splice_in by (rewrite ?length_replicate; lia).
    apply lookup_replicate_2. lia.
  - by rewrite lookup_splice_out by (rewrite ?length_replicate; lia).
Qed.

Lemma mark_length : length (splice used first (replicate n v)) = length used.
Proof. apply length_splice. by rewrite length_replicate. Qed.
End mark.

(** The arena after its pages [first, first + n) change to [v]. *)
Lemma arena_mark_wf a first n v free :
  arena_wf a -> pa_memory a <> 0 -> (first + n <= HORIZON_POOL_PAGES)%nat ->
  (forall k, (k < n)%nat -> pa_used a !! (first + k)%nat = Some (negb v)) ->
  free = (if v then u16 (pa_free_pages a - Z.of_nat n) else u16 (pa_free_pages a + Z.of_nat n)) ->
  arena_wf {| pa_memory := pa_memory a; pa_free_pages := free;
              pa_used := splice (pa_used a) first (replicate n v) |} /\
  free = Z.of_nat (countb negb (splice (pa_used a) first (replicate n v))).
Proof.
  intros Hwf Hm Hn Hold ->. apply arena_wf_memory in Hwf as (Hlen & Hfree & Hrange); [|done].
  assert (Hin : (first + n <= length (pa_used a))%nat) by lia.
  pose proof (mark_count _ _ _ _ Hin Hold) as Hc.
  pose proof (countb_le negb (splice (pa_used a) first (replicate n v))) as Hle.
  rewrite mark_length in Hle by done.
  assert (Hf : (if v then u16 (pa_free_pages a - Z.of_nat n) else u16 (pa_free_pages a + Z.of_nat n)) =
               Z.of_nat (countb negb (splice (pa_used a) first (replicate n v)))).
  { rewrite Hfree. pose proof (countb_le negb (pa_used a)).
    destruct v; rewrite u16_small; pool_lia. }
  split; [|done]. unfold arena_wf. cbn [pa_memory pa_free_pages pa_used].
  rewrite decide_False by done. rewrite mark_length by done. done.
Qed.

Lemma block_page_index m first n p :
  block_page (m + Z.of_nat first * HORIZON_POOL_PAGE) (Z.of_nat n * HORIZON_POOL_PAGE) p <->
  exists j, (first <= j < first + n)%nat /\ p = m + Z.of_nat j * HORIZON_POOL_PAGE.
Proof.
  unfold block_page. rewrite Z.div_mul, Nat2Z.id by done. split.
  - intros (k & Hk & ->). exists (first + k)%nat. split; [lia|]. pool_lia.
  - intros (j & Hj & ->). exists (j - first)%nat. split; [lia|]. pool_lia.
Qed.

Lemma arena_mark_live a first n v free p :
  arena_wf a -> pa_memory a <> 0 -> (first + n <= HORIZON_POOL_PAGES)%nat ->
  (forall k, (k < n)%nat -> pa_used a !! (first + k)%nat = Some (negb v)) ->
  let X := block_page (pa_memory a + Z.of_nat first * HORIZON_POOL_PAGE)
             (Z.of_nat n * HORIZON_POOL_PAGE) p in
  arena_live {| pa_memory := pa_memory a; pa_free_pages := free;
                pa_used := splice (pa_used a) first (replicate n v) |} p <->
  if v then arena_live a p \/ X else arena_live a p /\ ~ X.
Proof.
  intros Hwf Hm Hn Hold X. subst X. apply arena_wf_memory in Hwf as (Hlen & _); [|done].
  assert (Hin : (first + n <= length (pa_used a))%nat) by lia.
  unfold arena_live. cbn [pa_memory pa_used].
  assert (Hpage : forall i j, pa_memory a + Z.of_nat i * HORIZON_POOL_PAGE =
                    pa_memory a + Z.of_nat j * HORIZON_POOL_PAGE -> i = j) by (intros; pool_lia).
  destruct v; rewrite block_page_index.
  - split.
    + intros [_ (j & Hj & ->)]. rewrite mark_lookup in Hj by done. case_decide; [right|left]; eauto.
    + intros [[_ (j & Hj & ->)]|(j & Hj & ->)]; (split; [done|]); exists j; rewrite mark_lookup by done;
        case_decide; done.
  - split.
    + intros [_ (j & Hj & ->)]. rewrite mark_lookup in Hj by done. case_decide as Hd; [done|].
      split; [by eauto|]. intros (k & Hk & Heq). apply Hpage in Heq. subst. done.
    + intros [[_ (j & Hj & ->)] Hx]. split; [done|]. exists j. rewrite mark_lookup by done.
      case_decide; [|done]. exfalso. apply Hx. eauto.
Qed.

(** *** Growing the array *)

Lemma lookup_app_zeros arenas n i a :
  (arenas ++ replicate n page_arena_zero) !! i = Some a ->
  arenas !! i = Some a \/ a = page_arena_zero.
Proof.
  intros [H|[_ H]]%lookup_app_Some; [by left|]. right. by apply lookup_replicate in H as [-> _].
Qed.

Lemma page_pool_slot_spec arenas grow i arenas' :
  arenas_ok arenas -> page_pool_slot arenas grow = Some (i, arenas') ->
  arenas_ok arenas' /\ arenas' !! i = Some page_arena_zero /\
  (forall p, arenas_live arenas' p <-> arenas_live arenas p) /\
  (forall j b, arenas' !! j = Some b -> pa_memory b <> 0 -> arenas !! j = Some b) /\
  countb arena_active arenas' = countb arena_active arenas.
Proof.
  intros Hok. unfold page_pool_slot.
  destruct (first_index arena_is_free arenas) as [k|] eqn:Hf.
  - intros [= <- <-]. apply first_index_Some in Hf as (a & Ha & Hfree & _).
    split_and!; [done| |done..]. rewrite Ha. f_equal. unfold arena_is_free in Hfree. btrue.
    pose proof (Forall_lookup_1 _ _ _ _ (ok_each _ Hok) Ha) as Hwf. unfold arena_wf in Hwf.
    by rewrite decide_True in Hwf.
  - set (new := if nonzero _ then _ else 32).
    destruct ((new <=? Z.of_nat (length arenas)) || _) eqn:Hg; [done|]. destruct grow; [|done].
    simpl. intros [= <- <-]. btrue.
    assert (Hmem : forall j b, (arenas ++ replicate (Z.to_nat (new - Z.of_nat (length arenas)))
                     page_arena_zero) !! j = Some b -> pa_memory b <> 0 -> arenas !! j = Some b).
    { intros j b Hj Hb. apply lookup_app_zeros in Hj as [Hj| ->]; done. }
    split_and!.
    + destruct Hok as [He Hap]. split.
      * apply Forall_app. split; [done|]. apply Forall_replicate, arena_wf_zero.
      * intros j k b c Hb Hc Hjk Hb0 Hc0. eapply Hap; [..|exact Hjk|done|done]; by apply Hmem.
    + rewrite lookup_app_r, Nat.sub_diag by done. apply lookup_replicate_2. lia.
    + intros p. split.
      * intros (j & b & Hb & Hl). exists j, b. split; [|done]. apply Hmem; [done|apply Hl].
      * intros (j & b & Hb & Hl). exists j, b. split; [|done]. by apply lookup_app_l_Some.
    + done.
    + rewrite countb_app, countb_replicate. simpl. lia.
Qed.

Lemma pool_size_pages size :
  0 <= size -> (size =? 0) = false -> nonzero (size mod HORIZON_POOL_PAGE) = false ->
  size = Z.of_nat (Z.to_nat (size / HORIZON_POOL_PAGE)) * HORIZON_POOL_PAGE /\
  (1 <= Z.to_nat (size / HORIZON_POOL_PAGE))%nat.
Proof.
  intros H0 H1 H2. btrue. change HORIZON_POOL_PAGE with 4096 in *.
  assert (size = size / 4096 * 4096) by zlia. assert (1 <= size / 4096) by zlia. lia.
Qed.

(** A block allocated from arena [a] of a well-formed array was free. *)
Lemma block_page_fresh arenas i a first n p :
  arenas_ok arenas -> arenas !! i = Some a -> pa_memory a <> 0 ->
  (first + n <= HORIZON_POOL_PAGES)%nat ->
  (forall k, (k < n)%nat -> pa_used a !! (first + k)%nat = Some false) ->
  block_page (pa_memory a + Z.of_nat first * HORIZON_POOL_PAGE) (Z.of_nat n * HORIZON_POOL_PAGE) p ->
  ~ arenas_live arenas p.
Proof.
  intros Hok Ha Hm Hn Hfree (j & Hj & ->)%block_page_index.
  rewrite (arenas_live_split _ _ _ _ Ha). intros [[_ (k & Hk & Heq)]|(k & b & Hne & Hb & Hl)].
  - assert (k = j) as -> by pool_lia. specialize (Hfree (j - first)%nat ltac:(lia)).
    replace (first + (j - first))%nat with j in Hfree by lia. congruence.
  - eapply (arena_range_other arenas i k a b); eauto. pool_lia.
Qed.

(** Handing out unused pages of an arena. *)
Lemma pages_alloc_reuse pool size i first a :
  page_pool_wf pool -> pp_arenas pool !! i = Some a -> pa_memory a <> 0 ->
  size = Z.of_nat (Z.to_nat (size / HORIZON_POOL_PAGE)) * HORIZON_POOL_PAGE ->
  (first + Z.to_nat (size / HORIZON_POOL_PAGE) <= HORIZON_POOL_PAGES)%nat ->
  (forall k, (k < Z.to_nat (size / HORIZON_POOL_PAGE))%nat ->
     pa_used a !! (first + k)%nat = Some false) ->
  let n := Z.to_nat (size / HORIZON_POOL_PAGE) in
  let ptr := pa_memory a + Z.of_nat first * HORIZON_POOL_PAGE in
  let a' := {| pa_memory := pa_memory a;
               pa_free_pages := u16 (pa_free_pages a - size / HORIZON_POOL_PAGE);
               pa_used := splice (pa_used a) first (replicate n true) |} in
  let arenas' := <[i := a']> (pp_arenas pool) in
  0 < ptr /\ arenas_ok arenas' /\ countb arena_active arenas' = countb arena_active (pp_arenas pool) /\
  (forall k, (k < n)%nat -> pa_used a' !! (first + k)%nat = Some true) /\
  (forall p, arenas_live arenas' p <-> page_live pool p \/ block_page ptr size p) /\
  (forall p, block_page ptr size p -> ~ page_live pool p).
Proof.
  intros [Hok _] Ha Hm Hsize Hin Hfree n ptr a' arenas'.
  pose proof (Forall_lookup_1 _ _ _ _ (ok_each _ Hok) Ha) as Hwf.
  pose proof (arena_wf_memory _ Hwf Hm) as (Hlen & _ & Hrange).
  fold n in Hin, Hfree.
  assert (Hn : size / HORIZON_POOL_PAGE = Z.of_nat n).
  { subst n. rewrite Z2Nat.id; [done|]. apply Z.div_pos; pool_lia. }
  destruct (arena_mark_wf a first n true (pa_free_pages a') Hwf Hm Hin Hfree) as [Hwf' _].
  { subst a'. cbn [pa_free_pages]. by rewrite Hn. }
  assert (Hlive : forall p, arena_live a' p <-> arena_live a p \/ block_page ptr size p).
  { intros p. rewrite Hsize. apply (arena_mark_live a first n true _ p Hwf Hm Hin Hfree). }
  split_and!.
  - subst ptr. pool_lia.
  - eapply arenas_ok_insert; [done|done|done|]. right. by left.
  - pose proof (countb_insert arena_active _ _ _ a' Ha) as Hc.
    assert (Hact : arena_active a' = arena_active a) by done. rewrite Hact in Hc.
    subst arenas'. lia.
  - intros k Hk. subst a'. cbn [pa_used]. rewrite mark_lookup by (rewrite ?Hlen; done).
    by rewrite decide_True by lia.
  - intros p. subst arenas'. rewrite (arenas_live_insert _ _ _ _ _ Ha).
    unfold page_live. rewrite (arenas_live_split _ _ _ _ Ha).
    specialize (Hlive p). tauto.
  - intros p Hp. rewrite Hsize in Hp. by eapply block_page_fresh.
Qed.

(** An arena fresh from [aligned_alloc], before its first pages are taken. *)
Definition page_arena_new (memory : Z) : horizon_page_arena :=
  {| pa_memory := memory; pa_free_pages := Z.of_nat HORIZON_POOL_PAGES;
     pa_used := replicate HORIZON_POOL_PAGES false |}.

Lemma page_arena_new_spec arenas i memory :
  arenas_ok arenas -> arenas !! i = Some page_arena_zero ->
  0 < memory -> memory + HORIZON_POOL_ARENA <= 2 ^ 64 ->
  (forall j b, arenas !! j = Some b -> pa_memory b <> 0 -> arenas_apart (pa_memory b) memory) ->
  let arenas' := <[i := page_arena_new memory]> arenas in
  arenas_ok arenas' /\ (forall p, arenas_live arenas' p <-> arenas_live arenas p) /\
  countb arena_active arenas' = S (countb arena_active arenas).
Proof.
  intros Hok Hi Hpos Hend Hap arenas'.
  assert (Hwf : arena_wf (page_arena_new memory)).
  { unfold arena_wf. cbn [pa_memory pa_free_pages pa_used page_arena_new].
    rewrite decide_False by lia. rewrite length_replicate, countb_replicate. done. }
  split_and!.
  - eapply arenas_ok_insert; [done..|]. right. right. done.
  - intros p. subst arenas'.
    rewrite (arenas_live_insert _ _ _ _ _ Hi), (arenas_live_split _ _ _ _ Hi).
    assert (~ arena_live (page_arena_new memory) p).
    { intros [_ (j & Hj & _)]. cbn [pa_used page_arena_new] in Hj. by apply lookup_replicate in Hj as [? _]. }
    pose proof (arena_live_zero p). tauto.
  - pose proof (countb_insert arena_active _ _ _ (page_arena_new memory) Hi) as Hc.
    assert (Ha : arena_active (page_arena_new memory) = true).
    { unfold arena_active, arena_is_free. cbn [pa_memory page_arena_new].
      destruct (Z.eqb_spec memory 0); [lia|done]. }
    rewrite Ha in Hc. change (arena_active page_arena_zero) with false in Hc.
    cbv iota in Hc. subst arenas'. lia.
Qed.

(** What an allocation establishes, whichever way it is served. *)
Definition pages_alloc_post (pool : horizon_page_pool) (size ptr : Z) (pool' : horizon_page_pool) : Prop :=
  page_pool_wf pool' /\
  (ptr = 0 -> forall p, page_live pool' p <-> page_live pool p) /\
  (ptr <> 0 ->
    block_live pool' ptr size /\
    (forall p, page_live pool' p <-> page_live pool p \/ block_page ptr size p) /\
    (forall p, block_page ptr size p -> ~ page_live pool p)).

Lemma pages_alloc_post_fail pool size : page_pool_wf pool -> pages_alloc_post pool size 0 pool.
Proof. intros Hwf. split_and!; [done|by intros _ p|done]. Qed.

Lemma pages_alloc_fresh pool size i arenas memory :
  page_pool_wf pool -> pp_active_arenas pool < UINT_MAX -> aligned_alloc_ok pool memory ->
  memory <> 0 -> page_pool_slot (pp_arenas pool) true = Some (i, arenas) ->
  size = Z.of_nat (Z.to_nat (size / HORIZON_POOL_PAGE)) * HORIZON_POOL_PAGE ->
  (Z.to_nat (size / HORIZON_POOL_PAGE) <= HORIZON_POOL_PAGES)%nat ->
  forall peak hits misses reclaims,
  pages_alloc_post pool size memory
    (pool_with pool
       (<[i := {| pa_memory := memory;
                  pa_free_pages := u16 (Z.of_nat HORIZON_POOL_PAGES - size / HORIZON_POOL_PAGE);
                  pa_used := splice (pa_used page_arena_zero) 0
                               (replicate (Z.to_nat (size / HORIZON_POOL_PAGE)) true) |}]> arenas)
       (u32 (pp_active_arenas pool + 1)) peak hits misses reclaims).
Proof.
  intros Hwf Hact Hmem Hm0 Hslot Hsize Hin peak hits misses reclaims.
  destruct (page_pool_slot_spec _ _ _ _ (pp_wf_arenas _ Hwf) Hslot) as (Hok & Hi & Hlive & Hold & Hcnt).
  destruct (Hmem Hm0) as (Hmp & Hme & Hap).
  destruct (page_arena_new_spec arenas i memory) as (Hok1 & Hlive1 & Hcnt1); [eauto..|].
  assert (Hu32 : u32 (pp_active_arenas pool + 1) = Z.of_nat (S (countb arena_active arenas))).
  { rewrite Hcnt, (pp_wf_active _ Hwf) in *. rewrite u32_small; unfold is_u32, UINT_MAX in *; lia. }
  set (pool1 := pool_with pool (<[i := page_arena_new memory]> arenas)
                  (u32 (pp_active_arenas pool + 1)) 0 0 0 0).
  assert (Hwf1 : page_pool_wf pool1).
  { split; cbn [pp_arenas pp_active_arenas pool1 pool_with]; [done|]. by rewrite Hcnt1, Hu32. }
  assert (Hi1 : pp_arenas pool1 !! i = Some (page_arena_new memory)).
  { cbn [pp_arenas pool1 pool_with]. apply list_lookup_insert_eq. by eapply lookup_lt_Some. }
  assert (Hfree : forall k, (k < Z.to_nat (size / HORIZON_POOL_PAGE))%nat ->
                    pa_used (page_arena_new memory) !! (0 + k)%nat = Some false).
  { intros k Hk. cbn [pa_used page_arena_new]. apply lookup_replicate_2. lia. }
  destruct (pages_alloc_reuse pool1 size i 0 _ Hwf1 Hi1 Hm0 Hsize Hin Hfree)
    as (Hptr & Hok2 & Hcnt2 & Hset & Hlive2 & Hnew).
  cbn [pa_memory page_arena_new pa_free_pages pa_used Z.of_nat] in *.
  rewrite Z.mul_0_l, Z.add_0_r in *. cbn [pp_arenas pool1 pool_with] in Hok2, Hcnt2, Hlive2.
  rewrite list_insert_insert_eq in Hok2, Hcnt2.
  assert (Hlp : forall p, page_live pool1 p <-> page_live pool p).
  { intros p. unfold page_live. cbn [pp_arenas pool1 pool_with]. by rewrite Hlive1, Hlive. }
  split_and!; [split; cbn [pp_arenas pp_active_arenas pool_with]; [done|]|lia|].
  - rewrite Hu32. f_equal. etrans; [|symmetry; exact Hcnt2]. by rewrite Hcnt1.
  - intros _. split_and!.
    + eexists i, _, 0%nat. cbn [pp_arenas pool_with].
      rewrite list_lookup_insert_eq by (by eapply lookup_lt_Some).
      split_and!; [done|done|cbn [pa_memory]; pool_lia|done|done].
    + intros p. rewrite <- Hlp, <- Hlive2. unfold page_live. cbn [pp_arenas pool_with].
      by rewrite list_insert_insert_eq.
    + intros p Hp. rewrite <- Hlp. by apply Hnew.
Qed.

(** C9: whatever the heap does within its contract, a page allocation keeps the
    pool well-formed (free counts match the maps, the active count is exact,
    arenas do not overlap); when it returns a block, every page of the block
    was free before, is handed out after, lies in one arena, and no other page
    changes; when it returns NULL no page changes. *)
Theorem pages_alloc_correct pool size grow memory ptr pool' :
  page_pool_wf pool -> 0 <= size -> pp_active_arenas pool < UINT_MAX ->
  aligned_alloc_ok pool memory ->
  horizon_pages_alloc pool size grow memory = (ptr, pool') ->
  pages_alloc_post pool size ptr pool'.
Proof.
  intros Hwf Hsize0 Hact Hmem Heq. unfold horizon_pages_alloc in Heq.
  destruct ((size =? 0) || nonzero (size mod HORIZON_POOL_PAGE) || _) eqn:Hguard.
  { simplify_eq. by apply pages_alloc_post_fail. }
  apply orb_false_iff in Hguard as [[Hs0 Hs1]%orb_false_iff Hs2].
  destruct (pool_size_pages size Hsize0 Hs0 Hs1) as [Hsize Hpos]. btrue.
  destruct (page_arenas_scan (pp_arenas pool) 0 _) as [[i first]|] eqn:Hscan.
  - apply page_arenas_scan_Some in Hscan as (k & a & -> & Ha & Hm & _ & Hrun). simpl in Heq.
    rewrite Ha in Heq. simplify_eq.
    pose proof (Forall_lookup_1 _ _ _ _ (ok_each _ (pp_wf_arenas _ Hwf)) Ha) as Hwa.
    pose proof (arena_wf_memory _ Hwa Hm) as (Hlen & _).
    apply page_scan_free in Hrun as [Hin Hfree]; [|done]. rewrite Hlen in Hin.
    destruct (pages_alloc_reuse pool size k first a Hwf Ha Hm Hsize Hin Hfree)
      as (Hptr & Hok & Hcnt & Hset & Hlive & Hnew).
    split_and!; [split; cbn [pp_arenas pp_active_arenas pool_with]; [done|]|lia|].
    + rewrite (pp_wf_active _ Hwf). f_equal. by rewrite <- Hcnt.
    + intros _. split_and!; [|done..]. eexists k, _, first. cbn [pp_arenas pool_with].
      rewrite list_lookup_insert_eq by (by eapply lookup_lt_Some). by split_and!.
  - destruct (page_pool_slot (pp_arenas pool) grow) as [[i arenas]|] eqn:Hslot;
      [|simplify_eq; by apply pages_alloc_post_fail].
    destruct (page_pool_slot_spec _ _ _ _ (pp_wf_arenas _ Hwf) Hslot) as (Hok & Hi & Hlive & _ & Hcnt).
    rewrite Hi in Heq. destruct (Z.eqb_spec memory 0) as [->|Hm0].
    { simplify_eq. split_and!; [split; cbn [pp_arenas pp_active_arenas pool_with]; [done|]|intros _; apply Hlive|done].
      by rewrite (pp_wf_active _ Hwf), Hcnt. }
    assert (Hslot' : page_pool_slot (pp_arenas pool) true = Some (i, arenas)).
    { unfold page_pool_slot in *. destruct (first_index _ _); [done|].
      destruct ((_ <=? _) || _); [done|]. by destruct grow. }
    simplify_eq. apply pages_alloc_fresh; [done..|]. zlia.
Qed.

(** *** Freeing *)

(** Only the arena a block lies in holds it. *)
Lemma arena_holds_range ptr size b :
  arena_wf b -> 0 < ptr < 2 ^ 64 -> arena_holds ptr size b = true ->
  pa_memory b <> 0 /\ pa_memory b <= ptr < pa_memory b + HORIZON_POOL_ARENA.
Proof.
  intros Hwf Hptr Hh. unfold arena_holds in Hh. btrue. split; [done|].
  apply arena_wf_memory in Hwf as (_ & _ & Hpos & Hend); [|done].
  assert (Ho : u64 (ptr - pa_memory b) < HORIZON_POOL_ARENA) by done.
  change HORIZON_POOL_ARENA with 2097152 in *. zlia.
Qed.

Lemma arena_holds_block arenas i a first n size :
  arenas_ok arenas -> arenas !! i = Some a -> pa_memory a <> 0 ->
  size = Z.of_nat n * HORIZON_POOL_PAGE -> (1 <= n)%nat -> (first + n <= HORIZON_POOL_PAGES)%nat ->
  let ptr := pa_memory a + Z.of_nat first * HORIZON_POOL_PAGE in
  0 < ptr < 2 ^ 64 /\ u64 (ptr - pa_memory a) = Z.of_nat first * HORIZON_POOL_PAGE /\
  first_index (arena_holds ptr size) arenas = Some i.
Proof.
  intros Hok Ha Hm Hsize Hn Hin ptr.
  pose proof (Forall_lookup_1 _ _ _ _ (ok_each _ Hok) Ha) as Hwa.
  pose proof (arena_wf_memory _ Hwa Hm) as (_ & _ & Hpos & Hend).
  assert (Hptr : 0 < ptr < 2 ^ 64) by (subst ptr; pool_lia).
  assert (Hoff : u64 (ptr - pa_memory a) = Z.of_nat first * HORIZON_POOL_PAGE).
  { subst ptr. rewrite u64_small; unfold is_u64; pool_lia. }
  split_and!; [lia..|done|]. apply first_index_Some. exists a. split_and!; [done| |].
  - unfold arena_holds. rewrite Hoff, Z.mod_mul by done.
    destruct (Z.eqb_spec (pa_memory a) 0); [done|]. simpl negb. rewrite !andb_true_iff.
    split_and!; [done|apply Z.ltb_lt; pool_lia|done|apply Z.leb_le; pool_lia].
  - intros j b Hj Hlt. apply not_true_is_false. intros Hh.
    pose proof (Forall_lookup_1 _ _ _ _ (ok_each _ Hok) Hj) as Hwb.
    destruct (arena_holds_range _ _ _ Hwb Hptr Hh) as [Hmb Hr].
    pose proof (ok_apart _ Hok i j a b Ha Hj ltac:(lia) Hm Hmb). subst ptr. pool_lia.
Qed.

(** An arena with every page free has no live page. *)
Lemma arena_empty_live a p :
  arena_wf a -> pa_free_pages a = Z.of_nat HORIZON_POOL_PAGES -> ~ arena_live a p.
Proof.
  intros Hwf Hf [Hm (j & Hj & _)]. apply arena_wf_memory in Hwf as (Hlen & Hc & _); [|done].
  rewrite Hc in Hf. apply Nat2Z.inj in Hf. rewrite <- Hlen in Hf. apply countb_full in Hf.
  pose proof (Forall_lookup_1 _ _ _ _ Hf Hj). done.
Qed.

(** Replacing arena [i] by one with a subset of its pages. *)
Lemma arenas_live_shrink arenas i a a' ptr size :
  arenas_ok arenas -> arenas !! i = Some a -> pa_memory a <> 0 ->
  (forall p, block_page ptr size p -> pa_memory a <= p < pa_memory a + HORIZON_POOL_ARENA) ->
  (forall p, arena_live a' p <-> arena_live a p /\ ~ block_page ptr size p) ->
  forall p, arenas_live (<[i := a']> arenas) p <-> arenas_live arenas p /\ ~ block_page ptr size p.
Proof.
  intros Hok Ha Hm Hb Hl p.
  rewrite (arenas_live_insert _ _ _ _ _ Ha), (arenas_live_split _ _ _ _ Ha), Hl. split.
  - intros [?|(j & b & Hne & Hj & Hlb)]; [tauto|]. split; [right; eauto|]. intros Hp.
    by eapply (arena_range_other arenas i j a b); eauto.
  - intros [[?|?] ?]; [left; tauto|by right].
Qed.

(** C10: freeing a block that was handed out and not freed since takes it back:
    exactly its pages become free, every other page keeps its state, the pool
    stays well-formed, and an arena is given back to the heap only when it has
    no page left in use. *)
Theorem pages_free_correct pool ptr size :
  page_pool_wf pool -> pp_active_arenas pool <= UINT_MAX ->
  0 < size -> size mod HORIZON_POOL_PAGE = 0 -> block_live pool ptr size ->
  exists pool', horizon_pages_free pool ptr size = (1, pool') /\ page_pool_wf pool' /\
    forall p, page_live pool' p <-> page_live pool p /\ ~ block_page ptr size p.
Proof.
  intros [Hok Hcnt] Hmax Hsize Hmod (i & a & first & Ha & Hm & Hp & Hin & Hused).
  destruct (pool_size_pages size) as [Hs Hn]; [lia|by apply Z.eqb_neq; lia|unfold nonzero; by rewrite Hmod|].
  set (n := Z.to_nat (size / HORIZON_POOL_PAGE)) in *.
  assert (Hpages : size / HORIZON_POOL_PAGE = Z.of_nat n).
  { subst n. rewrite Z2Nat.id; [done|]. apply Z.div_pos; pool_lia. }
  destruct (arena_holds_block _ _ _ first n size Hok Ha Hm Hs Hn Hin) as (Hptr & Hoff & Hidx).
  rewrite <- Hp in *.
  pose proof (Forall_lookup_1 _ _ _ _ (ok_each _ Hok) Ha) as Hwa.
  destruct (arena_mark_wf a first n false _ Hwa Hm Hin Hused eq_refl) as [Hwf' Hfree].
  assert (Hlive := arenas_live_shrink (pp_arenas pool) i a).
  assert (Hblk : forall p, block_page ptr size p -> pa_memory a <= p < pa_memory a + HORIZON_POOL_ARENA).
  { intros p. rewrite Hp, Hs. intros (j & Hj & ->)%block_page_index. pool_lia. }
  set (a' := {| pa_memory := pa_memory a; pa_free_pages := u16 (pa_free_pages a + Z.of_nat n);
                pa_used := splice (pa_used a) first (replicate n false) |}).
  assert (Hmark : forall p, arena_live a' p <-> arena_live a p /\ ~ block_page ptr size p).
  { intros p. rewrite Hp, Hs. apply (arena_mark_live a first n false _ p Hwa Hm Hin Hused). }
  assert (Hactive : arena_active a = true).
  { unfold arena_active, arena_is_free. by destruct (Z.eqb_spec (pa_memory a) 0). }
  unfold horizon_pages_free.
  destruct (Z.eqb_spec ptr 0); [lia|]. destruct (Z.eqb_spec size 0); [lia|].
  unfold nonzero. rewrite Hmod. change (negb (0 =? 0)) with false. cbn [orb].
  rewrite Hidx, Ha, Hoff, Z.div_mul, Nat2Z.id, Hpages, Nat2Z.id by done. fold a'.
  destruct ((u16 (pa_free_pages a + Z.of_nat n) =? _) && _) eqn:Hempty; eexists; (split; [done|]).
  - btrue. assert (Hf : pa_free_pages a' = Z.of_nat HORIZON_POOL_PAGES) by done.
    split; [split; cbn [pp_arenas pp_active_arenas pool_with]|].
    + eapply arenas_ok_insert; [done..|apply arena_wf_zero|by left].
    + pose proof (countb_insert arena_active _ _ _ page_arena_zero Ha) as Hc. rewrite Hactive in Hc.
      change (arena_active page_arena_zero) with false in Hc. cbv iota in Hc.
      rewrite Hcnt in *. rewrite u32_small; unfold is_u32, UINT_MAX in *; lia.
    + unfold page_live. cbn [pp_arenas pool_with]. apply Hlive; [done..|]. intros p.
      rewrite <- Hmark. pose proof (arena_empty_live a' p Hwf' Hf). pose proof (arena_live_zero p). tauto.
  - split; [split; cbn [pp_arenas pp_active_arenas pool_with]|].
    + eapply arenas_ok_insert; [done..|]. right. by left.
    + pose proof (countb_insert arena_active _ _ _ a' Ha) as Hc.
      assert (Hact : arena_active a' = arena_active a) by done. rewrite Hact in Hc. lia.
    + unfold page_live. cbn [pp_arenas pool_with]. by apply Hlive.
Qed.

(** *** Trimming *)

Definition arena_trim (a : horizon_page_arena) : horizon_page_arena :=
  if arena_is_empty a then page_arena_zero else a.

Lemma pages_trim_loop_spec arenas active reclaims freed :
  Z.of_nat (countb arena_is_empty arenas) <= active -> is_u32 active -> 0 <= freed ->
  freed + Z.of_nat (countb arena_is_empty arenas) * HORIZON_POOL_ARENA < 2 ^ 64 ->
  exists reclaims',
    pages_trim_loop arenas active reclaims freed =
      (arena_trim <$> arenas, active - Z.of_nat (countb arena_is_empty arenas), reclaims',
       freed + Z.of_nat (countb arena_is_empty arenas) * HORIZON_POOL_ARENA).
Proof.
  revert active reclaims freed.
  induction arenas as [|a arenas IH]; intros active reclaims freed Ha Hu Hf Hov; cbn [pages_trim_loop].
  { exists reclaims. cbn. by rewrite Z.sub_0_r, Z.add_0_r. }
  rewrite fmap_cons. unfold arena_trim at 1. unfold countb in *. cbn [List.filter] in *.
  destruct (arena_is_empty a); cbn [length] in *.
  - rewrite u32_small by (unfold is_u32 in *; lia). rewrite (u64_small (freed + _)) by (unfold is_u64; pool_lia).
    edestruct (IH (active - 1)) as [r ->]; [lia|unfold is_u32 in *; lia|pool_lia|pool_lia|].
    exists r. rewrite Nat2Z.inj_succ.
    replace (freed + _ + _) with
      (freed + Z.succ (Z.of_nat (length (List.filter arena_is_empty arenas))) * HORIZON_POOL_ARENA)
      by pool_lia.
    do 3 f_equal. lia.
  - destruct (IH active reclaims freed Ha Hu Hf Hov) as [r ->]. by exists r.
Qed.

Lemma arena_trim_wf a : arena_wf a -> arena_wf (arena_trim a).
Proof. unfold arena_trim. intros H. case_if; [apply arena_wf_zero|done]. Qed.

Lemma arena_trim_live a p : arena_wf a -> arena_live (arena_trim a) p <-> arena_live a p.
Proof.
  intros Hwf. unfold arena_trim. destruct (arena_is_empty a) eqn:He; [|done].
  unfold arena_is_empty in He. btrue.
  pose proof (arena_empty_live a p Hwf). pose proof (arena_live_zero p). tauto.
Qed.

Lemma arena_trim_memory a : pa_memory (arena_trim a) <> 0 -> arena_trim a = a.
Proof. unfold arena_trim. case_if; [|done]. intros H. by destruct H. Qed.

Lemma countb_trim arenas :
  (countb arena_active (arena_trim <$> arenas) + countb arena_is_empty arenas =
   countb arena_active arenas)%nat.
Proof.
  induction arenas as [|a arenas IH]; [done|].
  unfold countb, arena_trim in *. rewrite fmap_cons. cbn [List.filter].
  destruct (arena_is_empty a) eqn:He.
  - assert (Ha : arena_active a = true).
    { unfold arena_is_empty in He. unfold arena_active, arena_is_free. btrue.
      by destruct (Z.eqb_spec (pa_memory a) 0). }
    change (arena_active page_arena_zero) with false. rewrite Ha. cbn [length]. lia.
  - destruct (arena_active a); cbn [length]; lia.
Qed.

Lemma countb_zero_active arenas :
  countb arena_active arenas = 0%nat -> forall i a, arenas !! i = Some a -> pa_memory a = 0.
Proof.
  induction arenas as [|b arenas IH]; intros Hc i a; [done|].
  unfold countb in *. cbn [List.filter] in Hc. destruct (arena_active b) eqn:Hb; [done|].
  unfold arena_active, arena_is_free in Hb. btrue. destruct i; simpl; [naive_solver|by apply IH].
Qed.

(** trimming gives back exactly the arenas with no page in use: no live page
    is lost, what remains is well-formed and every remaining arena has a page
    in use, the bytes reported are those of the arenas given back, and with no
    arena left the array is freed. *)
Theorem pages_trim_correct pool :
  page_pool_wf pool -> is_u32 (pp_active_arenas pool) ->
  exists freed pool', horizon_pages_trim pool = (freed, pool') /\ page_pool_wf pool' /\
    (forall p, page_live pool' p <-> page_live pool p) /\
    freed = (pp_active_arenas pool - pp_active_arenas pool') * HORIZON_POOL_ARENA /\
    (forall i a, pp_arenas pool' !! i = Some a -> arena_is_empty a = false) /\
    (pp_active_arenas pool' = 0 -> pp_arenas pool' = []).
Proof.
  intros [Hok Hcnt] Hu. pose proof (countb_trim (pp_arenas pool)) as Htrim.
  unfold horizon_pages_trim.
  destruct (pages_trim_loop_spec (pp_arenas pool) (pp_active_arenas pool) (pp_reclaims pool) 0)
    as [r ->]; [lia|done|lia|unfold is_u32 in Hu; pool_lia|].
  set (active := pp_active_arenas pool - _).
  assert (Hactive : active = Z.of_nat (countb arena_active (arena_trim <$> pp_arenas pool))) by lia.
  assert (Hlive : forall p, arenas_live (arena_trim <$> pp_arenas pool) p <-> page_live pool p).
  { intros p. unfold page_live, arenas_live. split.
    - intros (i & a & Ha & Hl). rewrite list_lookup_fmap in Ha.
      apply fmap_Some in Ha as (b & Hb & ->). exists i, b. split; [done|].
      eapply arena_trim_live; [|done]. by eapply (Forall_lookup_1 _ _ _ _ (ok_each _ Hok)).
    - intros (i & a & Ha & Hl). exists i, (arena_trim a). rewrite list_lookup_fmap, Ha. split; [done|].
      apply arena_trim_live; [|done]. by eapply (Forall_lookup_1 _ _ _ _ (ok_each _ Hok)). }
  eexists _, _. split; [done|]. cbn [pp_arenas pp_active_arenas pool_with].
  split_and!; [|intros p; rewrite <- Hlive|rewrite Z.add_0_l; f_equal; lia| |].
  - split; cbn [pp_arenas pp_active_arenas pool_with].
    + case_if; [split; [constructor|done]|]. split.
      * apply Forall_fmap. eapply Forall_impl; [apply (ok_each _ Hok)|]. apply arena_trim_wf.
      * intros i j a b Ha Hb Hne. rewrite list_lookup_fmap in Ha, Hb.
        apply fmap_Some in Ha as (a0 & Ha & ->). apply fmap_Some in Hb as (b0 & Hb & ->).
        intros H1 H2. pose proof (arena_trim_memory _ H1) as E1.
        pose proof (arena_trim_memory _ H2) as E2. rewrite E1, E2 in *. by eapply (ok_apart _ Hok i j).
    + case_if; [btrue; done|done].
  - unfold page_live. cbn [pp_arenas pool_with]. case_if; [|done]. btrue. split.
    + by intros (? & ? & ? & _).
    + intros (i & a & Ha & [Hm _]). destruct Hm. eapply (countb_zero_active (arena_trim <$> pp_arenas pool)); [lia|done].
  - intros i a. case_if; [done|]. rewrite list_lookup_fmap. intros (b & Hb & ->)%fmap_Some.
    unfold arena_trim. by destruct (arena_is_empty b) eqn:He.
  - intros ->. done.
Qed.

(** ** A pool after its first allocation, two pages at 2 MiB *)

Definition page_pool_init : horizon_page_pool :=
  {| pp_arenas := []; pp_active_arenas := 0; pp_peak_arenas := 0; pp_hits := 0; pp_misses := 0;
     pp_reclaims := 0; pp_blocks := 0; pp_shared := 0 |}.

Definition page_pool_one : horizon_page_pool :=
  (horizon_pages_alloc page_pool_init 8192 true 0x200000).2.

Lemma page_pool_init_wf : page_pool_wf page_pool_init.
Proof. split; [split; [constructor|done]|done]. Qed.

Lemma page_pool_init_ok : aligned_alloc_ok page_pool_init 0x200000.
Proof. intros _. split_and!; [lia|pool_lia|done]. Qed.

Lemma page_pool_one_post : pages_alloc_post page_pool_init 8192 0x200000 page_pool_one.
Proof.
  pose proof (pages_alloc_fresh page_pool_init 8192 0 (replicate 32 page_arena_zero) 0x200000
                page_pool_init_wf) as H.
  specialize (H ltac:(done) page_pool_init_ok ltac:(done) ltac:(vm_compute; reflexivity)
                ltac:(vm_compute; reflexivity) ltac:(apply Nat.leb_le; vm_compute; reflexivity) 1 1 1 0).
  assert (E : page_pool_one =
    pool_with page_pool_init
      (<[0%nat := {| pa_memory := 0x200000;
                 pa_free_pages := u16 (Z.of_nat HORIZON_POOL_PAGES - 8192 / HORIZON_POOL_PAGE);
                 pa_used := splice (pa_used page_arena_zero) 0
                              (replicate (Z.to_nat (8192 / HORIZON_POOL_PAGE)) true) |}]>
         (replicate 32 page_arena_zero))
      (u32 (pp_active_arenas page_pool_init + 1)) 1 1 1 0) by (vm_compute; reflexivity).
  rewrite E. exact H.
Qed.

Lemma pages_alloc_correct_witness :
  pages_alloc_post page_pool_init 8192 0x200000 page_pool_one.
Proof.
  apply (pages_alloc_correct page_pool_init 8192 true 0x200000 0x200000 page_pool_one).
  - apply page_pool_init_wf.
  - lia.
  - done.
  - apply page_pool_init_ok.
  - vm_compute. reflexivity.
Defined.

Lemma pages_free_correct_witness :
  exists pool', horizon_pages_free page_pool_one 0x200000 8192 = (1, pool') /\ page_pool_wf pool' /\
    forall p, page_live pool' p <-> page_live page_pool_one p /\ ~ block_page 0x200000 8192 p.
Proof.
  destruct page_pool_one_post as (Hwf & _ & Hb).
  apply (pages_free_correct page_pool_one 0x200000 8192).
  - exact Hwf.
  - vm_compute. discriminate.
  - lia.
  - reflexivity.
  - by apply Hb.
Defined.

Lemma pages_trim_correct_witness :
  exists freed pool', horizon_pages_trim page_pool_one = (freed, pool') /\ page_pool_wf pool' /\
    (forall p, page_live pool' p <-> page_live page_pool_one p) /\
    freed = (pp_active_arenas page_pool_one - pp_active_arenas pool') * HORIZON_POOL_ARENA /\
    (forall i a, pp_arenas pool' !! i = Some a -> arena_is_empty a = false) /\
    (pp_active_arenas pool' = 0 -> pp_arenas pool' = []).
Proof.
  apply (pages_trim_correct page_pool_one).
  - apply page_pool_one_post.
  - apply (bool_decide_eq_true_1 _). vm_compute. reflexivity.
Defined.
