(* ===== verification/FreeRange.v ===== *)
(** * Free ranges of the address space (dlls/ntdll/unix/horizon_free_range.h)

    The walk over the kernel's memory blocks that decides whether a range is
    unmapped. The kernel's query is a parameter: for an address it gives the
    block it lies in, or fails. *)
From S2P Require Import Prelude.
Local Open Scope Z_scope.

Definition HORIZON_MEMTYPE_UNMAPPED : Z := 0.

Record horizon_region := mk_region {
  rg_addr : Z;
  rg_size : Z;
  rg_type : Z;
}.

Section query.
Context (query : Z -> option horizon_region).

(** [None] when the fuel runs out. *)
Fixpoint range_unmapped_from (fuel : nat) (addr end_ : Z) : option bool :=
  if addr <? end_ then
    match fuel with
    | O => None
    | S fuel =>
        match query addr with
        | None => Some false
        | Some region =>
            if negb (rg_type region =? HORIZON_MEMTYPE_UNMAPPED) then Some false
            else if addr <? rg_addr region then Some false
            else
              let next := u64 (rg_addr region + rg_size region) in
              if next <? rg_addr region then Some true
              else if next <=? addr then Some false
              else range_unmapped_from fuel next end_
        end
    end
  else Some true.

Definition horizon_range_unmapped (fuel : nat) (start size : Z) : option bool :=
  let end_ := u64 (start + size) in
  if end_ <? start then Some false else range_unmapped_from fuel start end_.

(** Every answer moves [addr] up, so the walk ends. *)
Lemma range_unmapped_from_total fuel addr end_ :
  (Z.to_nat (end_ - addr) <= fuel)%nat -> is_Some (range_unmapped_from fuel addr end_).
Proof.
  revert addr. induction fuel as [|fuel IH]; intros addr Hf; simpl;
    (destruct (Z.ltb_spec addr end_); [|done]); [lia|].
  destruct (query addr) as [r|]; [|done]. destruct (negb _); [done|].
  destruct (addr <? rg_addr r); [done|].
  destruct (u64 _ <? _); [done|].
  destruct (Z.leb_spec (u64 (rg_addr r + rg_size r)) addr); [done|]. apply IH. lia.
Qed.

(** ** Against the kernel's contract

    Every address lies in the block the kernel reports for it, and a block
    has one type throughout. *)
Context (type_at : Z -> Z).
Hypothesis query_covers : forall a, is_u64 a ->
  exists r, query a = Some r /\ 0 <= rg_addr r <= a /\ a < rg_addr r + rg_size r /\
            rg_size r < 2 ^ 64 /\ rg_addr r + rg_size r <= 2 ^ 64.
Hypothesis query_type : forall a r x, query a = Some r ->
  rg_addr r <= x < rg_addr r + rg_size r -> type_at x = rg_type r.

Lemma range_unmapped_from_exact fuel addr end_ b :
  0 <= addr -> end_ < 2 ^ 64 ->
  range_unmapped_from fuel addr end_ = Some b ->
  (b = true <-> forall x, addr <= x < end_ -> type_at x = HORIZON_MEMTYPE_UNMAPPED).
Proof.
  revert addr. induction fuel as [|fuel IH]; intros addr Ha He; simpl;
    (destruct (Z.ltb_spec addr end_) as [Hlt|]; [|intros [= <-]; split; [intros _ x Hx; lia|done]]);
    [done|].
  destruct (query_covers addr) as (r & Hq & Hr1 & Hr2 & Hsz & Hr3); [unfold is_u64; lia|]. rewrite Hq.
  assert (Htype : forall x, rg_addr r <= x < rg_addr r + rg_size r -> type_at x = rg_type r)
    by (intros x; by apply query_type with addr).
  destruct (Z.eqb_spec (rg_type r) HORIZON_MEMTYPE_UNMAPPED) as [Ht|Ht]; simpl.
  2:{ intros [= <-]. split; [done|]. intros Hall. specialize (Hall addr ltac:(lia)).
      rewrite Htype in Hall by lia. done. }
  destruct (Z.ltb_spec addr (rg_addr r)); [lia|].
  destruct (decide (rg_addr r + rg_size r = 2 ^ 64)) as [Htop|Htop].
  - assert (Hw : u64 (rg_addr r + rg_size r) = 0) by (rewrite Htop; done). rewrite Hw.
    destruct (Z.ltb_spec 0 (rg_addr r)); [|lia].
    intros [= <-]. split; [|done]. intros _ x Hx. rewrite Htype by lia. done.
  - rewrite u64_small by (unfold is_u64; lia).
    destruct (Z.ltb_spec (rg_addr r + rg_size r) (rg_addr r)); [lia|].
    destruct (Z.leb_spec (rg_addr r + rg_size r) addr); [lia|].
    intros Hb. apply IH in Hb; [|lia..]. rewrite Hb. split.
    + intros Hall x Hx. destruct (Z.lt_ge_cases x (rg_addr r + rg_size r)).
      * rewrite Htype by lia. done.
      * apply Hall. lia.
    + intros Hall x Hx. apply Hall. lia.
Qed.

(** With a kernel that reports, for every address, the block it lies in,
    the walk always ends and answers 1 exactly when no byte of
    [start, start + size) is mapped; a range that runs past the end of the
    address space is never free. *)
Theorem range_unmapped_exact fuel start size :
  is_u64 start -> is_u64 size -> (Z.to_nat size <= fuel)%nat ->
  exists b, horizon_range_unmapped fuel start size = Some b /\
    (b = true <-> start + size < 2 ^ 64 /\
                  forall x, start <= x < start + size -> type_at x = HORIZON_MEMTYPE_UNMAPPED).
Proof.
  intros Hs Hz Hf. unfold horizon_range_unmapped.
  destruct (Z.lt_ge_cases (start + size) (2 ^ 64)) as [Hlt|Hge].
  - rewrite u64_small by (unfold is_u64 in *; lia).
    destruct (Z.ltb_spec (start + size) start); [unfold is_u64 in *; lia|].
    destruct (range_unmapped_from_total fuel start (start + size)) as [b Hb]; [lia|].
    exists b. split; [done|].
    apply range_unmapped_from_exact in Hb; [tauto|unfold is_u64 in *; lia|done].
  - assert (Hw : u64 (start + size) < start) by zlia.
    destruct (Z.ltb_spec (u64 (start + size)) start); [|lia].
    exists false. split; [done|]. split; [done|]. lia.
Qed.
End query.

(** A kernel with a mapped block of 64 KiB at 1 MiB and nothing else. *)
Definition region_example (a : Z) : option horizon_region :=
  if a <? 0x100000 then Some (mk_region 0 0x100000 0)
  else if a <? 0x110000 then Some (mk_region 0x100000 0x10000 3)
  else Some (mk_region 0x110000 (2 ^ 64 - 0x110000) 0).

Lemma range_unmapped_exact_witness :
  exists b, horizon_range_unmapped region_example (Z.to_nat 0x2000) 0xff000 0x2000 = Some b /\
    (b = true <-> 0xff000 + 0x2000 < 2 ^ 64 /\
       forall x, 0xff000 <= x < 0xff000 + 0x2000 ->
         (if (0x100000 <=? x) && (x <? 0x110000) then 3 else 0) = HORIZON_MEMTYPE_UNMAPPED).
Proof.
  apply (range_unmapped_exact region_example
           (fun x => if (0x100000 <=? x) && (x <? 0x110000) then 3 else 0)).
  - intros a Ha. unfold region_example. unfold is_u64 in Ha.
    destruct (Z.ltb_spec a 0x100000); [eexists; split; [done|simpl; lia]|].
    destruct (Z.ltb_spec a 0x110000); eexists; (split; [done|simpl; lia]).
  - intros a r x. unfold region_example.
    destruct (Z.ltb_spec a 0x100000); [|destruct (Z.ltb_spec a 0x110000)]; intros [= <-]; simpl; intros Hx;
      destruct (Z.leb_spec 0x100000 x), (Z.ltb_spec x 0x110000); simpl; lia.
  - unfold is_u64. lia.
  - unfold is_u64. lia.
  - lia.
Defined.
