(* ===== verification/SwapIndex.v ===== *)
(** * The index of swapped pages (dlls/ntdll/unix/horizon_swap_index.h)

    One bit per 4 KiB page of the 39-bit guest address space, in bitmaps of
    512 words that are allocated when a page of their 128 MiB is first marked.
    Writers are serialized by the mapping mutex and publish a bitmap before
    they set bits in it, so an update is modelled as one step on the index. *)
From S2P Require Import Prelude.
Local Open Scope Z_scope.

(** [regions]: the published bitmaps; an absent key is a null pointer. *)
Record horizon_swap_index := mk_swap_index { si_regions : gmap Z (list Z) }.

Definition swap_index_mask (first last : Z) : Z :=
  Z.land (u64 (Z.shiftl UINT64_MAX first)) (Z.shiftr UINT64_MAX (63 - last)).

(** A page's region, and its word and bit in the region's bitmap. *)
Definition page_region (page : Z) : Z := Z.shiftr page 15.
Definition page_word (page : Z) : nat := Z.to_nat (Z.land (Z.shiftr page 6) 511).

Definition word_or (bits : list Z) (word : nat) (mask : Z) : list Z :=
  <[word := Z.lor (bits !!! word) mask]> bits.
Definition word_and_not (bits : list Z) (word : nat) (mask : Z) : list Z :=
  <[word := Z.land (bits !!! word) (Z.lxor UINT64_MAX mask)]> bits.

(** The loop of [swap_index_update]. [mem] says for which regions [calloc]
    succeeds. [None] only if the loop runs out of [fuel]. *)
Fixpoint swap_index_update_from (fuel : nat) (mem : Z -> bool) (set : bool)
    (index : horizon_swap_index) (page end_ : Z) : option (Z * horizon_swap_index) :=
  if negb (page <? end_) then Some (0, index)
  else
    match fuel with
    | O => None
    | S fuel =>
        let region := page_region page in
        let word := page_word page in
        let next := u64 (Z.lor page 63 + 1) in
        let next := if end_ <? next then end_ else next in
        let mask := swap_index_mask (Z.land page 63) (Z.land (u64 (next - 1)) 63) in
        match si_regions index !! region with
        | None =>
            if set then
              if mem region then
                let bits := word_or (replicate 512 0) word mask in
                swap_index_update_from fuel mem set
                  {| si_regions := <[region := bits]> (si_regions index) |} next end_
              else Some (-1, index)
            else swap_index_update_from fuel mem set index next end_
        | Some bits =>
            let bits := if set then word_or bits word mask else word_and_not bits word mask in
            swap_index_update_from fuel mem set
              {| si_regions := <[region := bits]> (si_regions index) |} next end_
        end
    end.

(** The pages an update covers: marking takes every page the range touches,
    clearing only the pages it covers whole. *)
Definition update_first (addr : Z) (set : bool) : Z :=
  if set then Z.shiftr addr 12 else Z.shiftr (u64 (addr + 4095)) 12.
Definition update_end (addr size : Z) (set : bool) : Z :=
  if set then Z.shiftr (u64 (addr + size + 4095)) 12 else Z.shiftr (u64 (addr + size)) 12.

Definition swap_index_update (fuel : nat) (mem : Z -> bool) (index : horizon_swap_index)
    (addr size : Z) (set : bool) : option (Z * horizon_swap_index) :=
  if size =? 0 then Some (0, index)
  else if (Z.shiftl 1 39 <=? addr) || (u64 (Z.shiftl 1 39 - addr) <? size) then Some (-1, index)
  else swap_index_update_from fuel mem set index (update_first addr set) (update_end addr size set).

Fixpoint swap_index_contains_from (fuel : nat) (index : horizon_swap_index) (page end_ : Z)
    : option bool :=
  if negb (page <? end_) then Some false
  else
    match fuel with
    | O => None
    | S fuel =>
        let bits := si_regions index !! page_region page in
        let next := match bits with
                    | Some _ => u64 (Z.lor page 63 + 1)
                    | None => u64 (Z.lor page 32767 + 1)
                    end in
        let next := if end_ <? next then end_ else next in
        match bits with
        | Some bits =>
            if nonzero (Z.land (bits !!! page_word page)
                          (swap_index_mask (Z.land page 63) (Z.land (u64 (next - 1)) 63)))
            then Some true
            else swap_index_contains_from fuel index next end_
        | None => swap_index_contains_from fuel index next end_
        end
    end.

Definition swap_index_contains (fuel : nat) (index : horizon_swap_index) (addr size : Z)
    : option bool :=
  if size =? 0 then Some false
  else if UINT64_MAX - addr <? u64 (size - 1) then Some true
  else if Z.shiftl 1 39 <=? addr then Some false
  else
    let size := if u64 (Z.shiftl 1 39 - addr) <? size then u64 (Z.shiftl 1 39 - addr) else size in
    swap_index_contains_from fuel index (Z.shiftr addr 12) (Z.shiftr (u64 (addr + size + 4095)) 12).

(** ** The pages an index holds *)

Definition bitmap_has (bits : list Z) (page : Z) : bool :=
  Z.testbit (bits !!! page_word page) (Z.land page 63).

Definition page_in (index : horizon_swap_index) (page : Z) : bool :=
  match si_regions index !! page_region page with
  | Some bits => bitmap_has bits page
  | None => false
  end.

Definition swap_index_wf (index : horizon_swap_index) : Prop :=
  map_Forall (fun region bits => 0 <= region < 4096 /\ length bits = 512%nat /\ Forall is_u64 bits)
    (si_regions index).

(** ** Bit arithmetic of the loops *)

Lemma land_mod x n m : 0 <= n -> m = 2 ^ n - 1 -> Z.land x m = x mod 2 ^ n.
Proof. intros Hn ->. rewrite <- Z.land_ones by done. f_equal. rewrite Z.ones_equiv. lia. Qed.

Lemma lor_next x n m : 0 <= n -> m = 2 ^ n - 1 -> Z.lor x m + 1 = (x / 2 ^ n + 1) * 2 ^ n.
Proof.
  intros Hn ->. replace (2 ^ n - 1) with (Z.ones n) by (rewrite Z.ones_equiv; lia).
  assert (Hl : Z.lor x (Z.ones n) = Z.lor (Z.ldiff x (Z.ones n)) (Z.ones n)).
  { apply Z.bits_inj'. intros k Hk. rewrite !Z.lor_spec, Z.ldiff_spec.
    by destruct (Z.testbit x k), (Z.testbit (Z.ones n) k). }
  assert (H0 : Z.land (Z.ldiff x (Z.ones n)) (Z.ones n) = 0).
  { apply Z.bits_inj'. intros k Hk. rewrite Z.land_spec, Z.ldiff_spec, Z.bits_0.
    by destruct (Z.testbit x k), (Z.testbit (Z.ones n) k). }
  rewrite Hl, <- Z.lxor_lor, <- Z.add_nocarry_lxor by done.
  rewrite Z.ldiff_ones_r, Z.shiftl_mul_pow2, Z.shiftr_div_pow2, Z.ones_equiv by done. lia.
Qed.

Lemma page_region_div p : page_region p = p / 32768.
Proof. unfold page_region. by rewrite Z.shiftr_div_pow2. Qed.

Lemma page_word_div p : page_word p = Z.to_nat ((p / 64) mod 512).
Proof. unfold page_word. rewrite (land_mod _ 9), Z.shiftr_div_pow2 by lia. done. Qed.

Lemma page_bit_mod p : Z.land p 63 = p mod 64.
Proof. by rewrite (land_mod _ 6) by lia. Qed.

Lemma page_next_word p : 0 <= p < 2 ^ 27 -> u64 (Z.lor p 63 + 1) = (p / 64 + 1) * 64.
Proof. intros Hp. rewrite (lor_next p 6) by lia. apply u64_small. zlia. Qed.

Lemma page_next_region p : 0 <= p < 2 ^ 27 -> u64 (Z.lor p 32767 + 1) = (p / 32768 + 1) * 32768.
Proof. intros Hp. rewrite (lor_next p 15) by lia. apply u64_small. zlia. Qed.

Lemma uint64_max_bit k : 0 <= k -> Z.testbit UINT64_MAX k = (k <? 64).
Proof.
  intros Hk. change UINT64_MAX with (Z.ones 64). by rewrite Z.testbit_ones_nonneg by lia.
Qed.

Lemma u64_bit x k : 0 <= k -> Z.testbit (u64 x) k = Z.testbit x k && (k <? 64).
Proof.
  intros Hk. unfold u64. change 18446744073709551616 with (2 ^ 64).
  rewrite <- Z.land_ones, Z.land_spec, Z.testbit_ones_nonneg by lia. done.
Qed.

(** The mask has exactly the bits [first] to [last]. *)
Lemma swap_index_mask_bit first last k :
  0 <= first < 64 -> 0 <= last < 64 -> 0 <= k ->
  Z.testbit (swap_index_mask first last) k = (first <=? k) && (k <=? last).
Proof.
  intros Hf Hl Hk. unfold swap_index_mask.
  rewrite Z.land_spec, u64_bit, Z.shiftl_spec, Z.shiftr_spec by lia.
  rewrite (uint64_max_bit (k + (63 - last))) by lia.
  destruct (Z.ltb_spec (k - first) 0).
  - rewrite Z.testbit_neg_r by lia. simpl. symmetry. apply andb_false_iff. left. lia.
  - rewrite uint64_max_bit by lia. lia.
Qed.

Lemma is_u64_bits x : is_u64 x <-> 0 <= x /\ forall k, 64 <= k -> Z.testbit x k = false.
Proof.
  unfold is_u64. split.
  - intros Hx. split; [lia|]. intros k Hk. rewrite <- (u64_small x) by done.
    rewrite u64_bit by lia. lia.
  - intros [H0 Hb]. split; [done|].
    assert (x = u64 x) as ->; [|apply u64_range].
    apply Z.bits_inj'. intros k Hk. rewrite u64_bit by done.
    destruct (Z.ltb_spec k 64); [by rewrite andb_true_r|]. by rewrite andb_false_r, Hb.
Qed.

(** Bits [first] to [last] of one word of a bitmap are written. *)
Definition word_write (set : bool) (bits : list Z) (word : nat) (mask : Z) : list Z :=
  if set then word_or bits word mask else word_and_not bits word mask.

Lemma word_write_length set bits word mask : length (word_write set bits word mask) = length bits.
Proof. destruct set; apply length_insert. Qed.

Lemma word_write_other set bits word mask w :
  w <> word -> word_write set bits word mask !!! w = bits !!! w.
Proof.
  intros Hw. destruct set; unfold word_write, word_or, word_and_not;
    by rewrite list_lookup_total_insert_ne.
Qed.

Lemma word_write_bit set bits word first last k :
  (word < length bits)%nat -> 0 <= first < 64 -> 0 <= last < 64 -> 0 <= k < 64 ->
  Z.testbit (word_write set bits word (swap_index_mask first last) !!! word) k =
  if (first <=? k) && (k <=? last) then set else Z.testbit (bits !!! word) k.
Proof.
  intros Hw Hf Hl Hk. destruct set; unfold word_write, word_or, word_and_not;
    rewrite list_lookup_total_insert_eq by done;
    rewrite ?Z.lor_spec, ?Z.land_spec, ?Z.lxor_spec, swap_index_mask_bit by lia.
  - destruct ((_ <=? _) && _); [by rewrite orb_true_r|by rewrite orb_false_r].
  - rewrite uint64_max_bit by lia. replace (k <? 64) with true by lia.
    destruct ((first <=? k) && _); simpl; [by rewrite andb_false_r|by rewrite andb_true_r].
Qed.

Lemma word_write_u64 set bits word first last :
  (word < length bits)%nat -> 0 <= first < 64 -> 0 <= last < 64 -> Forall is_u64 bits ->
  Forall is_u64 (word_write set bits word (swap_index_mask first last)).
Proof.
  intros Hw Hf Hl Hb.
  assert (Hx : is_u64 (bits !!! word)).
  { eapply (list.Forall_forall is_u64); [exact Hb|]. by apply list_elem_of_lookup_total_2. }
  apply is_u64_bits in Hx as [Hx Hxb].
  assert (Hm : 0 <= swap_index_mask first last) by (apply Z.land_nonneg; left; apply u64_range).
  destruct set; apply Forall_insert; try done; apply is_u64_bits; split.
  - by apply Z.lor_nonneg.
  - intros k Hk. rewrite Z.lor_spec, Hxb, swap_index_mask_bit by lia. lia.
  - apply Z.land_nonneg. by left.
  - intros k Hk. by rewrite Z.land_spec, Hxb.
Qed.

(** ** One step of a loop: the pages of a word up to the end of the range *)

Definition step_next (p e : Z) : Z := if e <? (p / 64 + 1) * 64 then e else (p / 64 + 1) * 64.
Definition step_mask (p e : Z) : Z := swap_index_mask (p mod 64) ((step_next p e - 1) mod 64).

Lemma step_next_range p e : 0 <= p < e -> p < step_next p e <= e /\ step_next p e <= (p / 64 + 1) * 64.
Proof. intros Hp. unfold step_next. case_if; btrue; zlia. Qed.

(** The pages of the step are those of the word from [p] on. *)
Lemma step_pages p e q :
  0 <= p < e -> 0 <= q -> q / 64 = p / 64 ->
  ((p mod 64 <=? q mod 64) && (q mod 64 <=? (step_next p e - 1) mod 64)) =
  ((p <=? q) && (q <? step_next p e)).
Proof.
  intros Hp Hq Hd. pose proof (step_next_range p e Hp).
  assert ((step_next p e - 1) / 64 = p / 64) by zlia.
  pose proof (Z.div_mod p 64 ltac:(lia)). pose proof (Z.div_mod q 64 ltac:(lia)).
  pose proof (Z.div_mod (step_next p e - 1) 64 ltac:(lia)). lia.
Qed.

Lemma page_word_same p q : 0 <= p -> 0 <= q -> page_region p = page_region q ->
  page_word p = page_word q <-> p / 64 = q / 64.
Proof. rewrite !page_region_div, !page_word_div. intros. split; intros; [|congruence]. zlia. Qed.

Lemma page_word_lt p : (page_word p < 512)%nat.
Proof. rewrite page_word_div. zlia. Qed.

Lemma step_bitmap set bits p e q :
  length bits = 512%nat -> 0 <= p < e -> 0 <= q -> page_region q = page_region p ->
  bitmap_has (word_write set bits (page_word p) (step_mask p e)) q =
  if (p <=? q) && (q <? step_next p e) then set else bitmap_has bits q.
Proof.
  intros Hl Hp Hq Hr. pose proof (step_next_range p e Hp) as Hn. unfold bitmap_has.
  rewrite !page_bit_mod. destruct (decide (q / 64 = p / 64)) as [Hd|Hd].
  - assert (page_word q = page_word p) as -> by (by apply page_word_same; [lia..|]).
    unfold step_mask. rewrite word_write_bit; [|rewrite Hl; apply page_word_lt|zlia..].
    by rewrite step_pages.
  - rewrite word_write_other by (intros E; apply Hd, page_word_same; [lia..|done|done]).
    replace ((p <=? q) && (q <? step_next p e)) with false; [done|].
    symmetry. apply andb_false_iff. destruct (Z.leb_spec p q); [right|by left].
    apply Z.ltb_ge. zlia.
Qed.

Lemma step_test (bits : list Z) p e :
  Z.land (bits !!! page_word p) (step_mask p e) <> 0 <->
  exists k, 0 <= k < 64 /\ Z.testbit (bits !!! page_word p) k = true /\
            p mod 64 <= k <= (step_next p e - 1) mod 64.
Proof.
  unfold step_mask. split.
  - intros Hnz.
    destruct (decide (Exists (fun k => Z.testbit (Z.land (bits !!! page_word p)
          (swap_index_mask (p mod 64) ((step_next p e - 1) mod 64))) k = true) (seqZ 0 64))) as [Hk|Hk].
    + apply list.Exists_exists in Hk as (k & Hk%elem_of_seqZ & Hb). rewrite Z.land_spec in Hb.
      rewrite swap_index_mask_bit in Hb by zlia. btrue. exists k. split; [lia|]. split; [done|lia].
    + destruct Hnz. apply Z.bits_inj'. intros k Hk0. rewrite Z.bits_0.
      destruct (decide (k < 64)).
      * apply not_true_is_false. intros Hb. apply Hk, list.Exists_exists. exists k.
        split; [apply elem_of_seqZ; lia|done].
      * rewrite Z.land_spec, swap_index_mask_bit by zlia. apply andb_false_iff. right. zlia.
  - intros (k & Hk & Hb & Hm) H0. assert (Hz : Z.testbit 0 k = true); [|by rewrite Z.bits_0 in Hz].
    rewrite <- H0, Z.land_spec, Hb, swap_index_mask_bit by zlia. lia.
Qed.

(** The loop bodies in terms of the step. *)
Lemma step_next_code p e : 0 <= p < e -> e <= 2 ^ 27 ->
  (if e <? u64 (Z.lor p 63 + 1) then e else u64 (Z.lor p 63 + 1)) = step_next p e.
Proof. intros Hp He. by rewrite page_next_word by lia. Qed.

Lemma step_mask_code p e : 0 <= p < e -> e <= 2 ^ 27 ->
  swap_index_mask (Z.land p 63) (Z.land (u64 (step_next p e - 1)) 63) = step_mask p e.
Proof.
  intros Hp He. pose proof (step_next_range p e Hp).
  rewrite u64_small by (unfold is_u64; lia). by rewrite !page_bit_mod.
Qed.

Definition index_write (set : bool) (index : horizon_swap_index) (p e : Z) (bits : list Z)
    : horizon_swap_index :=
  {| si_regions := <[page_region p := word_write set bits (page_word p) (step_mask p e)]>
                     (si_regions index) |}.

Lemma index_write_wf set index p e bits :
  swap_index_wf index -> 0 <= p < e -> e <= 2 ^ 27 -> length bits = 512%nat -> Forall is_u64 bits ->
  swap_index_wf (index_write set index p e bits).
Proof.
  intros Hwf Hp He Hl Hb. apply map_Forall_insert_2; [|done]. split.
  - rewrite page_region_div. zlia.
  - pose proof (page_word_lt p). rewrite word_write_length. split; [done|].
    apply word_write_u64; [by rewrite Hl|zlia..|done].
Qed.

Lemma index_write_in set index p e bits q :
  0 <= p < e -> 0 <= q -> length bits = 512%nat ->
  (forall q, page_region q = page_region p -> page_in index q = bitmap_has bits q) ->
  page_in (index_write set index p e bits) q =
  if (p <=? q) && (q <? step_next p e) then set else page_in index q.
Proof.
  intros Hp Hq Hl Hb. destruct (decide (page_region q = page_region p)) as [Hr|Hr].
  - rewrite (Hb q Hr). rewrite <- step_bitmap by done.
    unfold page_in, index_write. cbn [si_regions]. by rewrite Hr, lookup_insert_eq.
  - unfold page_in, index_write. cbn [si_regions]. rewrite lookup_insert_ne by done.
    replace ((p <=? q) && (q <? step_next p e)) with false; [done|].
    pose proof (step_next_range p e Hp). rewrite !page_region_div in Hr.
    symmetry. apply andb_false_iff. destruct (Z.leb_spec p q); [right|by left]. zlia.
Qed.

Lemma bitmap_zero q : bitmap_has (replicate 512 0) q = false.
Proof.
  unfold bitmap_has. rewrite lookup_total_replicate_2 by apply page_word_lt. apply Z.bits_0.
Qed.

(** What an update that stops at page [m] does to the pages. *)
Definition update_post (mem : Z -> bool) (set : bool) (index : horizon_swap_index) (page end_ : Z)
    (r : Z) (index' : horizon_swap_index) : Prop :=
  swap_index_wf index' /\
  exists m, (r = 0 /\ m = Z.max page end_ \/
             r = -1 /\ set = true /\ page <= m < end_ /\ mem (page_region m) = false) /\
    forall q, 0 <= q -> page_in index' q = if (page <=? q) && (q <? m) then set else page_in index q.

Lemma update_post_step mem set index i1 page next end_ r index' :
  page < next <= end_ ->
  (forall q, 0 <= q -> page_in i1 q = if (page <=? q) && (q <? next) then set else page_in index q) ->
  update_post mem set i1 next end_ r index' -> update_post mem set index page end_ r index'.
Proof.
  intros Hn H1 (Hwf & m & Hm & Hq). split; [done|]. exists m. split.
  - destruct Hm as [(-> & ->)|(-> & -> & Hm & Hmem)]; [left; split; [done|lia]|].
    right. repeat split; [lia..|done].
  - intros q Hq0. rewrite (Hq q Hq0), (H1 q Hq0).
    assert (next <= m) by (destruct Hm as [[_ ->]|(_ & _ & ? & _)]; lia).
    destruct (Z.leb_spec page q), (Z.leb_spec next q), (Z.ltb_spec q m), (Z.ltb_spec q next);
      simpl; try done; lia.
Qed.

Lemma swap_index_update_from_spec mem set fuel index page end_ :
  swap_index_wf index -> 0 <= page -> end_ <= 2 ^ 27 -> (Z.to_nat (end_ - page) <= fuel)%nat ->
  exists r index', swap_index_update_from fuel mem set index page end_ = Some (r, index') /\
    update_post mem set index page end_ r index'.
Proof.
  revert index page. induction fuel as [|fuel IH]; intros index page Hwf Hp He Hfuel;
    cbn [swap_index_update_from]; (destruct (Z.ltb_spec page end_) as [Hlt|Hge]; cbn [negb];
    [|exists 0, index; split; [done|]; split; [done|]; exists page;
      split; [left; split; [done|lia]|]; intros q Hq;
      by destruct (Z.leb_spec page q), (Z.ltb_spec q page); [lia|..]]); [lia|].
  rewrite step_next_code, step_mask_code by lia.
  pose proof (step_next_range page end_ ltac:(lia)) as Hn.
  assert (Hgo : forall bits, length bits = 512%nat -> Forall is_u64 bits ->
    (forall q, page_region q = page_region page -> page_in index q = bitmap_has bits q) ->
    exists r index', swap_index_update_from fuel mem set (index_write set index page end_ bits)
      (step_next page end_) end_ = Some (r, index') /\ update_post mem set index page end_ r index').
  { intros bits Hl Hb Hin.
    destruct (IH (index_write set index page end_ bits) (step_next page end_)) as (r & i' & Hr & Hpost);
      [apply index_write_wf; try done; lia|lia..|]. exists r, i'. split; [done|].
    eapply update_post_step; [|intros q Hq; apply index_write_in|]; try done; lia. }
  destruct (si_regions index !! page_region page) as [bits|] eqn:Hbits.
  - destruct (Hwf _ _ Hbits) as (Hreg & Hl & Hb).
    destruct (Hgo bits Hl Hb) as (r & i' & Hr & Hpost).
    { intros q Hq. unfold page_in. by rewrite Hq, Hbits. }
    exists r, i'. split; [|done]. rewrite <- Hr. by destruct set.
  - destruct set.
    + destruct (mem (page_region page)) eqn:Hmem.
      * destruct (Hgo (replicate 512 0)) as (r & i' & Hr & Hpost).
        { by rewrite length_replicate. }
        { apply Forall_replicate. unfold is_u64. lia. }
        { intros q Hq. unfold page_in. by rewrite Hq, Hbits, bitmap_zero. }
        exists r, i'. by split.
      * exists (-1), index. split; [done|]. split; [done|]. exists page. split.
        { right. by repeat split; [lia..|]. }
        intros q Hq. by destruct (Z.leb_spec page q), (Z.ltb_spec q page); [lia|..].
    + destruct (IH index (step_next page end_)) as (r & i' & Hr & Hpost); [done|lia..|].
      exists r, i'. split; [done|]. eapply update_post_step; [..|exact Hpost]; [lia|].
      intros q Hq. destruct ((page <=? q) && (q <? step_next page end_)) eqn:E; [|done]. btrue.
      unfold page_in. replace (page_region q) with (page_region page); [by rewrite Hbits|].
      rewrite !page_region_div. zlia.
Qed.

Lemma swap_index_contains_from_spec fuel index page end_ :
  swap_index_wf index -> 0 <= page -> end_ <= 2 ^ 27 -> (Z.to_nat (end_ - page) <= fuel)%nat ->
  exists r, swap_index_contains_from fuel index page end_ = Some r /\
    (r = true <-> exists q, page <= q < end_ /\ page_in index q = true).
Proof.
  revert page. induction fuel as [|fuel IH]; intros page Hwf Hp He Hfuel;
    cbn [swap_index_contains_from]; (destruct (Z.ltb_spec page end_) as [Hlt|Hge]; cbn [negb];
    [|exists false; split; [done|]; split; [done|]; intros (q & Hq & _); lia]); [lia|].
  assert (Hskip : forall next, page < next <= end_ ->
    (forall q, page <= q < next -> page_in index q = false) ->
    exists r, swap_index_contains_from fuel index next end_ = Some r /\
      (r = true <-> exists q, page <= q < end_ /\ page_in index q = true)).
  { intros next Hn Hno. destruct (IH next) as (r & Hr & Hiff); [done|lia..|].
    exists r. split; [done|]. rewrite Hiff. split; intros (q & Hq & Hin).
    - exists q. split; [lia|done].
    - exists q. split; [|done]. destruct (decide (q < next)); [|lia].
      rewrite Hno in Hin by lia. done. }
  destruct (si_regions index !! page_region page) as [bits|] eqn:Hbits.
  - rewrite step_next_code, step_mask_code by lia.
    pose proof (step_next_range page end_ ltac:(lia)) as Hn.
    assert (Hsame : forall q, page <= q < step_next page end_ ->
      q / 64 = page / 64 /\ page_in index q = Z.testbit (bits !!! page_word page) (q mod 64)).
    { intros q Hq. assert (Hd : q / 64 = page / 64) by zlia. split; [done|]. unfold page_in, bitmap_has.
      assert (Hr : page_region q = page_region page) by (rewrite !page_region_div; zlia).
      rewrite Hr, Hbits, page_bit_mod. do 2 f_equal. apply page_word_same; [lia..|done|done]. }
    destruct (nonzero _) eqn:Hnz; unfold nonzero in Hnz; btrue.
    + exists true. split; [done|]. split; [intros _|done]. apply step_test in Hnz as (k & Hk & Hb & Hm).
      exists (page / 64 * 64 + k).
      assert (page <= page / 64 * 64 + k < step_next page end_) as Hr by zlia.
      split; [lia|]. destruct (Hsame _ Hr) as [_ ->].
      by replace ((page / 64 * 64 + k) mod 64) with k by zlia.
    + apply Hskip; [lia|]. intros q Hq. destruct (Hsame q Hq) as [Hd ->].
      apply not_true_is_false. intros Hb. revert Hnz. apply step_test.
      exists (q mod 64). split; [zlia|]. split; [done|]. zlia.
  - rewrite page_next_region by lia.
    apply Hskip; [case_if; btrue; zlia|]. intros q Hq. unfold page_in.
    replace (page_region q) with (page_region page); [by rewrite Hbits|].
    rewrite !page_region_div. revert Hq. case_if; intros Hq; btrue; zlia.
Qed.

(** ** The index at the level of addresses *)

(** Whether the page of address [a] is marked. *)
Definition marked (index : horizon_swap_index) (a : Z) : bool := page_in index (a / 4096).

Lemma shiftr_page x : Z.shiftr x 12 = x / 4096.
Proof. by rewrite Z.shiftr_div_pow2. Qed.

(** Whether an update of the range reaches the page of [a]. *)
Definition update_covers (addr size : Z) (set : bool) (a : Z) : bool :=
  if set then (addr / 4096 <=? a / 4096) && (a / 4096 <=? (addr + size - 1) / 4096)
  else (addr <=? a / 4096 * 4096) && (a / 4096 * 4096 + 4096 <=? addr + size).

Lemma update_covers_page addr size set a :
  0 <= addr -> 0 < size -> addr + size <= 2 ^ 39 -> 0 <= a ->
  update_covers addr size set a =
  (update_first addr set <=? a / 4096) && (a / 4096 <? Z.max (update_first addr set) (update_end addr size set)).
Proof.
  intros Ha Hs Hb H0. unfold update_covers, update_first, update_end.
  destruct set; rewrite !shiftr_page, ?(u64_small (_ + _)) by (unfold is_u64; lia);
    apply eq_iff_eq_true; rewrite !andb_true_iff, !Z.leb_le, Z.ltb_lt; zlia.
Qed.

(** An update always ends. On success marking a range marks exactly the pages
    that hold one of its bytes, and clearing it clears exactly the pages it
    covers whole; every other page keeps its mark. A range that leaves the
    39-bit space is refused and changes nothing. When a bitmap cannot be
    allocated the call fails having marked only pages of the range. The index
    stays well-formed in every case. *)
Theorem swap_index_update_exact fuel mem index addr size set :
  swap_index_wf index -> is_u64 addr -> is_u64 size -> (Z.to_nat (size / 4096 + 2) <= fuel)%nat ->
  exists r index', swap_index_update fuel mem index addr size set = Some (r, index') /\
    swap_index_wf index' /\
    (r = 0 -> size = 0 \/ addr + size <= 2 ^ 39) /\
    (r = 0 -> forall a, 0 <= a -> marked index' a =
      if nonzero size && update_covers addr size set a then set else marked index a) /\
    (r <> 0 -> r = -1 /\ (2 ^ 39 < addr + size /\ index' = index \/
      set = true /\ (exists region, mem region = false) /\
      forall a, 0 <= a -> (marked index a = true -> marked index' a = true) /\
        (marked index' a = true -> marked index a = true \/ update_covers addr size true a = true))).
Proof.
  intros Hwf Ha Hs Hfuel. unfold swap_index_update. change (Z.shiftl 1 39) with (2 ^ 39).
  destruct (size =? 0) eqn:H0; btrue.
  { exists 0, index. split; [done|]. split; [done|]. subst. split; [by left|]. split; done. }
  unfold is_u64 in *. replace (nonzero size) with true by (unfold nonzero; lia).
  destruct ((2 ^ 39 <=? addr) || _) eqn:Hr.
  { exists (-1), index. split; [done|]. split; [done|]. split; [done|]. split; [done|].
    intros _. split; [done|]. left. split; [|done]. apply orb_true_iff in Hr as [Hr|Hr]; btrue; [lia|].
    destruct (decide (addr <= 2 ^ 39)); [|lia]. rewrite u64_small in Hr by (unfold is_u64; lia). lia. }
  btrue. rewrite u64_small in * by (unfold is_u64; lia).
  destruct (swap_index_update_from_spec mem set fuel index (update_first addr set)
    (update_end addr size set)) as (r & i' & Hrun & Hwf' & m & Hm & Hq).
  1: done.
  1-3: unfold update_first, update_end; destruct set;
    rewrite ?shiftr_page, ?(u64_small (_ + _)) by (unfold is_u64; lia); zlia.
  exists r, i'. split; [done|]. split; [done|]. split; [right; lia|].
  destruct Hm as [(-> & ->)|(-> & -> & Hm & Hmem)]; (split; [|]); try done.
  - intros _ a H0a. unfold marked. rewrite Hq by (apply Z.div_pos; lia).
    by rewrite update_covers_page by lia.
  - intros _. split; [done|]. right. split; [done|]. split; [by eexists|]. intros a H0a.
    unfold marked. rewrite Hq by (apply Z.div_pos; lia). rewrite update_covers_page by lia.
    destruct (page_in index (a / 4096)); [by case_if; auto|].
    case_if; [|done]. btrue. split; [done|]. right. lia.
Qed.

(** A lookup always ends and answers 1 exactly when the page of some byte of
    the range is marked; a range that wraps around the address space is
    reported as swapped. *)
Theorem swap_index_contains_exact fuel index addr size :
  swap_index_wf index -> is_u64 addr -> is_u64 size ->
  (Z.to_nat (Z.min size (2 ^ 39) / 4096 + 2) <= fuel)%nat ->
  exists r, swap_index_contains fuel index addr size = Some r /\
    (r = true <-> UINT64_MAX < addr + size - 1 \/
       exists a, addr <= a < addr + size /\ a < 2 ^ 39 /\ marked index a = true).
Proof.
  intros Hwf Ha Hs Hfuel. unfold swap_index_contains. change (Z.shiftl 1 39) with (2 ^ 39).
  unfold is_u64, UINT64_MAX in *. destruct (size =? 0) eqn:H0; btrue.
  { exists false. split; [done|]. split; [done|]. intros [?|(a & ? & _)]; lia. }
  rewrite u64_small by (unfold is_u64; lia).
  destruct (_ <? size - 1) eqn:Hw; btrue.
  { exists true. split; [done|]. split; [intros _; left; lia|done]. }
  destruct (2 ^ 39 <=? addr) eqn:Hr; btrue.
  { exists false. split; [done|]. split; [done|]. intros [?|(a & ? & ? & _)]; lia. }
  rewrite (u64_small (2 ^ 39 - addr)) by (unfold is_u64; lia).
  assert (Hsz : (if 2 ^ 39 - addr <? size then 2 ^ 39 - addr else size) = Z.min (2 ^ 39 - addr) size)
    by (case_if; btrue; lia).
  rewrite Hsz, !shiftr_page, u64_small by (unfold is_u64; lia).
  destruct (swap_index_contains_from_spec fuel index (addr / 4096)
    ((addr + Z.min (2 ^ 39 - addr) size + 4095) / 4096)) as (r & Hrun & Hiff); [done|zlia..|].
  exists r. split; [done|]. rewrite Hiff. unfold marked. split.
  - intros (q & Hq & Hin). right. exists (Z.max addr (q * 4096)).
    replace (Z.max addr (q * 4096) / 4096) with q by zlia. split; [zlia|]. split; [zlia|done].
  - intros [?|(a & Hra & Hlt & Hin)]; [lia|]. exists (a / 4096). split; [zlia|done].
Qed.

(** ** Witnesses *)

Definition swap_index_empty : horizon_swap_index := {| si_regions := ∅ |}.

Lemma swap_index_empty_wf : swap_index_wf swap_index_empty.
Proof. apply map_Forall_empty. Qed.

Lemma swap_index_update_exact_witness :
  exists index', swap_index_update 4 (fun _ => true) swap_index_empty 0x7fff800 0x1000 true
                   = Some (0, index') /\
    marked index' 0x7ffffff = true /\ marked index' 0x8000000 = true /\
    marked index' 0x8001000 = false.
Proof.
  destruct (swap_index_update_exact 4 (fun _ => true) swap_index_empty 0x7fff800 0x1000 true)
    as (r & i & Hr & _ & _ & Hq & _).
  - apply swap_index_empty_wf.
  - decide_true.
  - decide_true.
  - vm_compute. lia.
  - assert (r = 0) as -> by (vm_compute in Hr; by injection Hr).
    exists i. split; [exact Hr|]. rewrite !(Hq eq_refl) by lia. done.
Defined.

Definition swap_index_low : horizon_swap_index :=
  {| si_regions := {[0 := <[0%nat := 4]> (replicate 512 0)]} |}.

Lemma swap_index_contains_exact_witness :
  swap_index_contains 3 swap_index_low 0x2fff 1 = Some true.
Proof.
  destruct (swap_index_contains_exact 3 swap_index_low 0x2fff 1) as (r & Hr & Hiff).
  - apply map_Forall_singleton. split; [lia|]. split; [done|].
    apply Forall_insert; [apply Forall_replicate|]; decide_true.
  - decide_true.
  - decide_true.
  - vm_compute. lia.
  - rewrite Hr. f_equal. apply Hiff. right. exists 0x2fff. split; [lia|]. split; [lia|]. reflexivity.
Defined.
