(* ===== verification/SwapPager.v ===== *)
(** * The demand pager (horizon-wine/source/swap_pager.c)

    Guest pages live in a smaller number of physical slots; a fault brings a
    page in and, when no slot is free, writes the page of another slot out. The
    callbacks that map, unmap, read and write are not part of the pager: they
    are the operations of [swap_pager_ops] on a context of any type, and what
    the pager relies on is the class [PagerOps]. *)
From S2P Require Import Prelude.
Local Open Scope Z_scope.


(** A callback answers [None] for success, or the errno it fails with. *)
Record swap_pager_ops (C : Type) := mk_pager_ops {
  op_map : C -> Z -> Z -> option Z * C;
  op_unmap : C -> Z -> Z -> option Z * C;
  op_read : C -> Z -> Z -> option Z * C;
  op_write : C -> Z -> Z -> option Z * C;
  op_zero : C -> Z -> C
}.
Arguments op_map {C} _ _ _ _.
Arguments op_unmap {C} _ _ _ _.
Arguments op_read {C} _ _ _ _.
Arguments op_write {C} _ _ _ _.
Arguments op_zero {C} _ _ _.

Record swap_page := mk_swap_page { sp_slot : Z; sp_pins : Z; sp_stored : bool }.

#[export] Instance swap_page_inhabited : Inhabited swap_page :=
  populate {| sp_slot := -1; sp_pins := 0; sp_stored := false |}.

Record swap_pager (C : Type) := mk_swap_pager {
  pg_pages : list swap_page;
  pg_owners : list Z;
  pg_page_count : Z;
  pg_slot_count : Z;
  pg_hand : Z;
  pg_faults : Z;
  pg_reads : Z;
  pg_writes : Z;
  pg_ops : option (swap_pager_ops C);
  pg_context : C;
  pg_poisoned : bool
}.
Arguments pg_pages {C} _.
Arguments pg_owners {C} _.
Arguments pg_page_count {C} _.
Arguments pg_slot_count {C} _.
Arguments pg_hand {C} _.
Arguments pg_faults {C} _.
Arguments pg_reads {C} _.
Arguments pg_writes {C} _.
Arguments pg_ops {C} _.
Arguments pg_context {C} _.
Arguments pg_poisoned {C} _.

Definition set_sp_slot (v : Z) (p : swap_page) : swap_page :=
  {| sp_slot := v; sp_pins := sp_pins p; sp_stored := sp_stored p |}.
Definition set_sp_pins (v : Z) (p : swap_page) : swap_page :=
  {| sp_slot := sp_slot p; sp_pins := v; sp_stored := sp_stored p |}.
Definition set_sp_stored (v : bool) (p : swap_page) : swap_page :=
  {| sp_slot := sp_slot p; sp_pins := sp_pins p; sp_stored := v |}.

Section pager.
Context {C : Type}.
Implicit Types pager : swap_pager C.

(** [pager->pages[page]] and [pager->owners[slot]], with indices in range. *)
Definition page_at pager (page : Z) : swap_page := pg_pages pager !!! Z.to_nat page.
Definition owner_at pager (slot : Z) : Z := pg_owners pager !!! Z.to_nat slot.

(** The pager with new tables, counters or context. *)
Definition with_tables pager (pages : list swap_page) (owners : list Z) : swap_pager C :=
  mk_swap_pager C pages owners (pg_page_count pager) (pg_slot_count pager) (pg_hand pager)
    (pg_faults pager) (pg_reads pager) (pg_writes pager) (pg_ops pager) (pg_context pager)
    (pg_poisoned pager).
Definition with_page pager (page : Z) (p : swap_page) : swap_pager C :=
  with_tables pager (<[Z.to_nat page := p]> (pg_pages pager)) (pg_owners pager).
Definition with_owner pager (slot v : Z) : swap_pager C :=
  with_tables pager (pg_pages pager) (<[Z.to_nat slot := v]> (pg_owners pager)).
Definition with_hand pager (hand : Z) : swap_pager C :=
  mk_swap_pager C (pg_pages pager) (pg_owners pager) (pg_page_count pager) (pg_slot_count pager)
    hand (pg_faults pager) (pg_reads pager) (pg_writes pager) (pg_ops pager) (pg_context pager)
    (pg_poisoned pager).
Definition with_counts pager (faults reads writes : Z) : swap_pager C :=
  mk_swap_pager C (pg_pages pager) (pg_owners pager) (pg_page_count pager) (pg_slot_count pager)
    (pg_hand pager) (u64 (pg_faults pager + faults)) (u64 (pg_reads pager + reads))
    (u64 (pg_writes pager + writes)) (pg_ops pager) (pg_context pager) (pg_poisoned pager).
Definition with_context pager (context : C) : swap_pager C :=
  mk_swap_pager C (pg_pages pager) (pg_owners pager) (pg_page_count pager) (pg_slot_count pager)
    (pg_hand pager) (pg_faults pager) (pg_reads pager) (pg_writes pager) (pg_ops pager) context
    (pg_poisoned pager).
Definition with_poisoned pager (poisoned : bool) : swap_pager C :=
  mk_swap_pager C (pg_pages pager) (pg_owners pager) (pg_page_count pager) (pg_slot_count pager)
    (pg_hand pager) (pg_faults pager) (pg_reads pager) (pg_writes pager) (pg_ops pager)
    (pg_context pager) poisoned.

(** The pager with every byte cleared; the model keeps the caller's context. *)
Definition swap_pager_zero (context : C) : swap_pager C :=
  mk_swap_pager C [] [] 0 0 0 0 0 0 None context false.

(** [mem]: whether the two [calloc]s succeed. An [ops] with a null callback
    counts as none. *)
Definition swap_pager_init (pages slots : Z) (ops : option (swap_pager_ops C)) (context : C)
    (mem : bool * bool) : option Z * swap_pager C :=
  match ops with
  | None => (Some EINVAL, swap_pager_zero context)
  | Some ops =>
      if (pages =? 0) || (slots =? 0) || (pages <? slots) || (INT_MAX <? pages)
      then (Some EINVAL, swap_pager_zero context)
      else if negb (fst mem) || negb (snd mem) then (Some ENOMEM, swap_pager_zero context)
      else (None,
            mk_swap_pager C (replicate (Z.to_nat pages) (mk_swap_page (-1) 0 false))
              (replicate (Z.to_nat slots) (-1)) pages slots 0 0 0 0 (Some ops) context false)
  end.

(** The clock hand: at most [n] slots are looked at, the first one whose page
    is not pinned is taken. *)
Fixpoint pager_clock (n : nat) pager : option Z * swap_pager C :=
  match n with
  | O => (None, pager)
  | S n =>
      let slot := pg_hand pager in
      let pager := with_hand pager ((pg_hand pager + 1) mod pg_slot_count pager) in
      if sp_pins (page_at pager (owner_at pager slot)) =? 0 then (Some slot, pager)
      else pager_clock n pager
  end.

(** The slot to use: a free one, else what the clock finds. *)
Definition pager_pick pager : option Z * swap_pager C :=
  match first_index (fun o => o <? 0) (pg_owners pager) with
  | Some i => (Some (Z.of_nat i), pager)
  | None => pager_clock (Z.to_nat (pg_slot_count pager)) pager
  end.

(** The bookkeeping after a page was written out. *)
Definition pager_unload pager (c : C) (old slot : Z) : swap_pager C :=
  let pager := with_context pager c in
  let pager := with_page pager old (set_sp_stored true (page_at pager old)) in
  let pager := with_page pager old (set_sp_slot (-1) (page_at pager old)) in
  let pager := with_owner pager slot (-1) in
  with_counts pager 0 0 1.

(** The page of the slot is unmapped and written out. *)
Definition pager_evict (ops : swap_pager_ops C) pager (old slot : Z) : option Z * swap_pager C :=
  match op_unmap ops (pg_context pager) old slot with
  | (Some e, c) => (Some e, with_context pager c)
  | (None, c) =>
      match op_write ops c old slot with
      | (Some error, c) =>
          match op_map ops c old slot with
          | (Some _, c) => (Some error, with_poisoned (with_context pager c) true)
          | (None, c) => (Some error, with_context pager c)
          end
      | (None, c) => (None, pager_unload pager c old slot)
      end
  end.

(** The bookkeeping after a page was mapped. *)
Definition pager_load pager (c : C) (page slot : Z) : swap_pager C :=
  let pager := with_owner (with_context pager c) slot page in
  let pager := with_page pager page (set_sp_slot slot (page_at pager page)) in
  with_counts pager 1 0 0.

(** The page is read, or zeroed, into the slot. *)
Definition pager_read (ops : swap_pager_ops C) pager (page slot : Z) : option Z * swap_pager C :=
  if sp_stored (page_at pager page) then
    match op_read ops (pg_context pager) page slot with
    | (Some e, c) => (Some e, with_context pager c)
    | (None, c) => (None, with_counts (with_context pager c) 0 1 0)
    end
  else (None, with_context pager (op_zero ops (pg_context pager) slot)).

(** The filled slot is mapped. *)
Definition pager_map (ops : swap_pager_ops C) pager (page slot : Z) : option Z * swap_pager C :=
  match op_map ops (pg_context pager) page slot with
  | (Some e, c) => (Some e, with_context pager c)
  | (None, c) => (None, pager_load pager c page slot)
  end.

Definition pager_fill (ops : swap_pager_ops C) pager (page slot : Z) : option Z * swap_pager C :=
  match pager_read ops pager page slot with
  | (Some e, pager) => (Some e, pager)
  | (None, pager) => pager_map ops pager page slot
  end.

(** [None] for success, or the errno. A pager that was never initialized has
    no pages, so [ops] is only missed behind the first test. *)
Definition swap_pager_fault pager (page : Z) : option Z * swap_pager C :=
  if pg_page_count pager <=? page then (Some EINVAL, pager)
  else if pg_poisoned pager then (Some EIO, pager)
  else if 0 <=? sp_slot (page_at pager page) then (None, pager)
  else
    match pg_ops pager, pager_pick pager with
    | None, _ => (Some EINVAL, pager)
    | Some _, (None, pager) => (Some EBUSY, pager)
    | Some ops, (Some slot, pager) =>
        let old := owner_at pager slot in
        if 0 <=? old then
          match pager_evict ops pager old slot with
          | (Some e, pager) => (Some e, pager)
          | (None, pager) => pager_fill ops pager page slot
          end
        else pager_fill ops pager page slot
    end.

Definition swap_pager_pin pager (page : Z) : option Z * swap_pager C :=
  if (pg_page_count pager <=? page) || (sp_pins (page_at pager page) =? UINT_MAX)
  then (Some EINVAL, pager)
  else
    match swap_pager_fault pager page with
    | (Some e, pager) => (Some e, pager)
    | (None, pager) =>
        (None, with_page pager page
                 (set_sp_pins (u32 (sp_pins (page_at pager page) + 1)) (page_at pager page)))
    end.

Definition swap_pager_unpin pager (page : Z) : option Z * swap_pager C :=
  if (pg_page_count pager <=? page) || (sp_pins (page_at pager page) =? 0)
  then (Some EINVAL, pager)
  else (None, with_page pager page
                (set_sp_pins (u32 (sp_pins (page_at pager page) - 1)) (page_at pager page))).

(** The loop of [swap_pager_close] over the slots [i], [i + 1], ... *)
Fixpoint pager_close_loop (ops : swap_pager_ops C) (n : nat) pager (i : Z) (failed : bool)
    : bool * swap_pager C :=
  match n with
  | O => (failed, pager)
  | S n =>
      let page := owner_at pager i in
      if page <? 0 then pager_close_loop ops n pager (i + 1) failed
      else
        match op_unmap ops (pg_context pager) page i with
        | (Some _, c) => pager_close_loop ops n (with_context pager c) (i + 1) true
        | (None, c) =>
            let pager := with_context pager c in
            let pager := with_page pager page (set_sp_slot (-1) (page_at pager page)) in
            pager_close_loop ops n (with_owner pager i (-1)) (i + 1) failed
        end
  end.

Definition swap_pager_close pager : option Z * swap_pager C :=
  if existsb (fun p => nonzero (sp_pins p)) (pg_pages pager) then (Some EBUSY, pager)
  else
    let '(failed, pager) :=
      match pg_ops pager with
      | Some ops => pager_close_loop ops (Z.to_nat (pg_slot_count pager)) pager 0 (pg_poisoned pager)
      | None => (pg_poisoned pager, pager)
      end in
    if failed then (Some EIO, pager) else (None, swap_pager_zero (pg_context pager)).

End pager.

(** ** What the pager relies on

    A context has the content of each slot and of each page's place on disk,
    and which page is mapped at each slot. The callbacks change no more than
    their name says; a failed read leaves anything in its slot, a failed write
    anything in its page's place on disk, and a failed map leaves the slot
    unmapped (the comment in [swap_pager_fault]). *)
Class PagerView (C V : Type) := {
  frame : C -> Z -> V;
  disk : C -> Z -> V;
  mapped : C -> Z -> option Z;
  zeros : V
}.

Class PagerOps {C V : Type} `{PagerView C V} (ops : swap_pager_ops C) := {
  unmap_ok c p s r c' : op_unmap ops c p s = (r, c') -> mapped c s = Some p ->
    frame c' = frame c /\ disk c' = disk c /\
    forall t, mapped c' t = if bool_decide (r = None /\ t = s) then None else mapped c t;
  write_ok c p s r c' : op_write ops c p s = (r, c') -> mapped c s = None ->
    frame c' = frame c /\ mapped c' = mapped c /\
    (forall q, q <> p -> disk c' q = disk c q) /\ (r = None -> disk c' p = frame c s);
  read_ok c p s r c' : op_read ops c p s = (r, c') -> mapped c s = None ->
    disk c' = disk c /\ mapped c' = mapped c /\
    (forall t, t <> s -> frame c' t = frame c t) /\ (r = None -> frame c' s = disk c p);
  zero_ok c s : mapped c s = None ->
    disk (op_zero ops c s) = disk c /\ mapped (op_zero ops c s) = mapped c /\
    (forall t, t <> s -> frame (op_zero ops c s) t = frame c t) /\
    frame (op_zero ops c s) s = zeros;
  map_ok c p s r c' : op_map ops c p s = (r, c') -> mapped c s = None ->
    frame c' = frame c /\ disk c' = disk c /\
    forall t, mapped c' t = if bool_decide (r = None /\ t = s) then Some p else mapped c t
}.

Section verification.
Context {C V : Type} `{!PagerView C V} (ops : swap_pager_ops C) `{!PagerOps ops}.
Implicit Types pager : swap_pager C.

(** What a guest reads from page [p], wherever the page is. *)
Definition content pager (p : Z) : V :=
  let c := pg_context pager in
  if 0 <=? sp_slot (page_at pager p) then frame c (sp_slot (page_at pager p))
  else if sp_stored (page_at pager p) then disk c p else zeros.

Record pager_inv pager : Prop := {
  pi_ops : pg_ops pager = Some ops;
  pi_pages : Z.of_nat (length (pg_pages pager)) = pg_page_count pager;
  pi_owners : Z.of_nat (length (pg_owners pager)) = pg_slot_count pager;
  pi_slots : 0 < pg_slot_count pager;
  pi_hand : 0 <= pg_hand pager < pg_slot_count pager;
  pi_owner s : 0 <= s < pg_slot_count pager ->
    owner_at pager s = -1 \/
    0 <= owner_at pager s < pg_page_count pager /\ sp_slot (page_at pager (owner_at pager s)) = s;
  pi_slot p : 0 <= p < pg_page_count pager ->
    sp_slot (page_at pager p) = -1 \/
    0 <= sp_slot (page_at pager p) < pg_slot_count pager /\
    owner_at pager (sp_slot (page_at pager p)) = p;
  pi_pins p : 0 <= p < pg_page_count pager ->
    is_u32 (sp_pins (page_at pager p)) /\
    (sp_pins (page_at pager p) <> 0 -> 0 <= sp_slot (page_at pager p));
  pi_mapped s : 0 <= s < pg_slot_count pager ->
    (owner_at pager s = -1 -> mapped (pg_context pager) s = None) /\
    (0 <= owner_at pager s -> pg_poisoned pager = false ->
     mapped (pg_context pager) s = Some (owner_at pager s))
}.

(** What every call keeps: the pins, the pages of pinned slots and every
    page's content. *)
Record pager_same pager pager' : Prop := {
  ps_count : pg_page_count pager' = pg_page_count pager;
  ps_content p : 0 <= p < pg_page_count pager -> content pager' p = content pager p;
  ps_pinned p : 0 <= p < pg_page_count pager -> sp_pins (page_at pager p) <> 0 ->
    sp_slot (page_at pager' p) = sp_slot (page_at pager p);
  ps_pins p : 0 <= p < pg_page_count pager ->
    sp_pins (page_at pager' p) = sp_pins (page_at pager p)
}.

Lemma pager_same_refl pager : pager_same pager pager.
Proof. by constructor. Qed.

Lemma pager_same_trans p1 p2 p3 : pager_same p1 p2 -> pager_same p2 p3 -> pager_same p1 p3.
Proof.
  intros [c12 e12 n12 i12] [c23 e23 n23 i23]. constructor.
  - congruence.
  - intros p Hp. rewrite e23, e12; [done..|by rewrite c12].
  - intros p Hp Hn. rewrite n23, n12; [done..|by rewrite c12|by rewrite i12].
  - intros p Hp. rewrite i23, i12; [done..|by rewrite c12].
Qed.

Lemma page_at_with_page pager p v q :
  0 <= p < Z.of_nat (length (pg_pages pager)) -> 0 <= q ->
  page_at (with_page pager p v) q = if decide (q = p) then v else page_at pager q.
Proof.
  intros Hp Hq. unfold page_at, with_page, with_tables. cbn [pg_pages].
  case_decide as E; [subst; apply list_lookup_total_insert_eq; lia|].
  apply list_lookup_total_insert_ne. lia.
Qed.

Lemma owner_at_with_owner pager s v t :
  0 <= s < Z.of_nat (length (pg_owners pager)) -> 0 <= t ->
  owner_at (with_owner pager s v) t = if decide (t = s) then v else owner_at pager t.
Proof.
  intros Hs Ht. unfold owner_at, with_owner, with_tables. cbn [pg_owners].
  case_decide as E; [subst; apply list_lookup_total_insert_eq; lia|].
  apply list_lookup_total_insert_ne. lia.
Qed.

(** *** Picking a slot *)

Lemma pager_clock_spec n pager r pager' :
  0 <= pg_hand pager < pg_slot_count pager -> pager_clock n pager = (r, pager') ->
  (exists h, pager' = with_hand pager h /\ 0 <= h < pg_slot_count pager) /\
  match r with
  | Some slot => 0 <= slot < pg_slot_count pager /\ sp_pins (page_at pager (owner_at pager slot)) = 0
  | None => forall k, 0 <= k < Z.of_nat n ->
      sp_pins (page_at pager (owner_at pager ((pg_hand pager + k) mod pg_slot_count pager))) <> 0
  end.
Proof.
  revert pager. induction n as [|n IH]; intros pager Hh; cbn [pager_clock].
  { intros [= <- <-]. split; [exists (pg_hand pager); split; [by destruct pager|done]|]. lia. }
  set (h1 := (pg_hand pager + 1) mod pg_slot_count pager).
  assert (Hh1 : 0 <= h1 < pg_slot_count pager) by (apply Z.mod_pos_bound; lia).
  destruct (sp_pins _ =? 0) eqn:Hpin; btrue.
  - intros [= <- <-]. split; [by exists h1|]. split; [done|exact Hpin].
  - intros Hrun. apply IH in Hrun as [(h & -> & Hh') Hr]; [|done]. split; [by exists h|].
    destruct r as [slot|]; [exact Hr|]. intros k Hk. destruct (decide (k = 0)) as [->|].
    + rewrite Z.add_0_r, Z.mod_small by done. exact Hpin.
    + specialize (Hr (k - 1) ltac:(lia)). cbn [with_hand pg_hand pg_slot_count] in Hr.
      unfold h1 in Hr. rewrite Zplus_mod_idemp_l in Hr.
      by replace (pg_hand pager + 1 + (k - 1)) with (pg_hand pager + k) in Hr by lia.
Qed.

Lemma pager_pick_spec pager r pager' :
  pager_inv pager -> pager_pick pager = (r, pager') ->
  (exists h, pager' = with_hand pager h /\ 0 <= h < pg_slot_count pager) /\
  match r with
  | Some slot => 0 <= slot < pg_slot_count pager /\
      (owner_at pager slot = -1 \/ sp_pins (page_at pager (owner_at pager slot)) = 0)
  | None => forall s, 0 <= s < pg_slot_count pager ->
      0 <= owner_at pager s /\ sp_pins (page_at pager (owner_at pager s)) <> 0
  end.
Proof.
  intros Hi. unfold pager_pick.
  destruct (first_index (fun o => o <? 0) (pg_owners pager)) as [i|] eqn:Hf.
  - intros [= <- <-]. split.
    { exists (pg_hand pager). split; [by destruct pager|apply (pi_hand _ Hi)]. }
    pose proof (first_index_lt _ _ _ Hf). pose proof (pi_owners _ Hi).
    apply first_index_Some in Hf as (o & Ho & Hneg & _). split; [lia|].
    assert (Heq : owner_at pager (Z.of_nat i) = o).
    { unfold owner_at. rewrite Nat2Z.id. by apply list_lookup_total_correct. }
    destruct (pi_owner _ Hi (Z.of_nat i)); [lia|by left|]. btrue. lia.
  - intros Hc. destruct (pager_clock_spec _ _ _ _ (pi_hand _ Hi) Hc) as [Hh Hr]. split; [done|].
    destruct r as [slot|]; [destruct Hr; auto|]. intros s Hs. pose proof (pi_owners _ Hi). split.
    + apply first_index_None in Hf. eapply (list.Forall_forall _ (pg_owners pager)) in Hf.
      * btrue. exact Hf.
      * apply list_elem_of_lookup_total_2. lia.
    + pose proof (pi_hand _ Hi) as Hh2. specialize (Hr ((s - pg_hand pager) mod pg_slot_count pager)).
      rewrite Zplus_mod_idemp_r in Hr. replace (pg_hand pager + (s - pg_hand pager)) with s in Hr by lia.
      rewrite (Z.mod_small s) in Hr by done. apply Hr.
      pose proof (Z.mod_pos_bound (s - pg_hand pager) (pg_slot_count pager)). lia.
Qed.

Lemma with_hand_inv pager h :
  pager_inv pager -> 0 <= h < pg_slot_count pager -> pager_inv (with_hand pager h).
Proof. intros [] Hh. by constructor. Qed.

Lemma with_hand_same pager h : pager_same pager (with_hand pager h).
Proof. by constructor. Qed.

(** *** Tables that differ in one page and one slot *)

(** [pager'] is [pager] with page [p] and slot [s] changed, and a context in
    which [p] has the same content and the mapping of the other slots is as
    before. *)
Record pager_update pager pager' (p s : Z) : Prop := {
  pu_ops : pg_ops pager' = pg_ops pager;
  pu_page_count : pg_page_count pager' = pg_page_count pager;
  pu_slot_count : pg_slot_count pager' = pg_slot_count pager;
  pu_hand : pg_hand pager' = pg_hand pager;
  pu_poisoned : pg_poisoned pager' = pg_poisoned pager;
  pu_pages_len : length (pg_pages pager') = length (pg_pages pager);
  pu_owners_len : length (pg_owners pager') = length (pg_owners pager);
  pu_page q : 0 <= q -> q <> p -> page_at pager' q = page_at pager q;
  pu_owner t : 0 <= t -> t <> s -> owner_at pager' t = owner_at pager t;
  pu_mapped t : t <> s -> mapped (pg_context pager') t = mapped (pg_context pager) t;
  pu_frame t : t <> s -> frame (pg_context pager') t = frame (pg_context pager) t;
  pu_disk q : q <> p -> disk (pg_context pager') q = disk (pg_context pager) q
}.

(** No page but [p] is in slot [s]. *)
Definition slot_private pager (p s : Z) : Prop :=
  forall q, 0 <= q < pg_page_count pager -> q <> p -> sp_slot (page_at pager q) <> s.

Lemma slot_private_owner pager s :
  pager_inv pager -> 0 <= s -> slot_private pager (owner_at pager s) s.
Proof.
  intros Hi Hs q Hq Hne E. destruct (pi_slot _ Hi q Hq) as [H1|[_ H1]]; [lia|].
  rewrite E in H1. congruence.
Qed.

Lemma slot_private_free pager p s :
  pager_inv pager -> 0 <= s -> owner_at pager s = -1 -> slot_private pager p s.
Proof.
  intros Hi Hs Ho q Hq Hne E. destruct (pi_slot _ Hi q Hq) as [H1|[_ H1]]; [lia|].
  rewrite E in H1. lia.
Qed.

Lemma pager_update_same pager pager' p s :
  pager_update pager pager' p s -> 0 <= p -> slot_private pager p s ->
  content pager' p = content pager p -> sp_pins (page_at pager' p) = sp_pins (page_at pager p) ->
  sp_pins (page_at pager p) = 0 -> pager_same pager pager'.
Proof.
  intros [] Hp Hpriv Hc Hpin H0. constructor; [done|..].
  - intros q Hq. destruct (decide (q = p)) as [->|Hne]; [done|]. unfold content.
    rewrite pu_page0 by (done || lia). rewrite pu_disk0 by done.
    case_if; [|done]. btrue. apply pu_frame0, Hpriv; done.
  - intros q Hq Hn. destruct (decide (q = p)) as [->|Hne]; [done|]. by rewrite pu_page0 by (done || lia).
  - intros q Hq. destruct (decide (q = p)) as [->|Hne]; [done|]. by rewrite pu_page0 by (done || lia).
Qed.

Lemma pager_update_inv pager pager' p s :
  pager_inv pager -> pager_update pager pager' p s ->
  0 <= p < pg_page_count pager -> 0 <= s < pg_slot_count pager ->
  pg_poisoned pager = false -> slot_private pager p s ->
  (sp_slot (page_at pager p) = -1 \/ sp_slot (page_at pager p) = s) ->
  is_u32 (sp_pins (page_at pager' p)) ->
  (sp_pins (page_at pager' p) = 0 \/ 0 <= sp_slot (page_at pager' p)) ->
  ((owner_at pager' s = -1 /\ sp_slot (page_at pager' p) = -1 /\
    mapped (pg_context pager') s = None) \/
   (owner_at pager' s = p /\ sp_slot (page_at pager' p) = s /\
    mapped (pg_context pager') s = Some p)) ->
  pager_inv pager'.
Proof.
  intros Hi Hu Hp Hs Hpoi Hpriv Hslot Hpins Hres Hcase. destruct Hi, Hu.
  constructor; rewrite ?pu_ops0, ?pu_page_count0, ?pu_slot_count0, ?pu_hand0, ?pu_pages_len0,
    ?pu_owners_len0; try done.
  - intros t Ht. destruct (decide (t = s)) as [->|Hne].
    + destruct Hcase as [(-> & _)|(-> & Hsl & _)]; [by left|right; by split].
    + rewrite pu_owner0 by (done || lia). destruct (pi_owner0 t Ht) as [->|[Ho Hs']]; [by left|].
      right. split; [done|]. rewrite pu_page0; [done|lia|]. intros E. rewrite E in Hs'. lia.
  - intros q Hq. destruct (decide (q = p)) as [->|Hne].
    + destruct Hcase as [(_ & -> & _)|(Ho & -> & _)]; [by left|right; by split].
    + rewrite pu_page0 by (done || lia). destruct (pi_slot0 q Hq) as [->|[Hr Ho]]; [by left|].
      right. split; [done|]. rewrite pu_owner0; [done|lia|]. by apply Hpriv.
  - intros q Hq. destruct (decide (q = p)) as [->|Hne].
    + split; [done|]. destruct Hres; done.
    + rewrite pu_page0 by (done || lia). by apply pi_pins0.
  - intros t Ht. destruct (decide (t = s)) as [->|Hne].
    + destruct Hcase as [(-> & _ & ->)|(-> & _ & ->)]; split; done || lia.
    + rewrite pu_owner0, pu_mapped0, pu_poisoned0 by (done || lia). by apply pi_mapped0.
Qed.

(** A change of context alone. *)
Lemma with_context_same pager c poisoned :
  (forall p, 0 <= p < pg_page_count pager -> 0 <= sp_slot (page_at pager p) ->
     frame c (sp_slot (page_at pager p)) = frame (pg_context pager) (sp_slot (page_at pager p))) ->
  (forall p, 0 <= p < pg_page_count pager ->
     0 <= sp_slot (page_at pager p) \/ disk c p = disk (pg_context pager) p) ->
  pager_same pager (with_poisoned (with_context pager c) poisoned).
Proof.
  intros Hf Hd. constructor; [done|..|done|done]. intros p Hp. unfold content.
  change (page_at (with_poisoned (with_context pager c) poisoned) p) with (page_at pager p).
  cbn [pg_context with_context with_poisoned]. case_if; btrue; [by apply Hf|].
  destruct (Hd p Hp) as [?| ->]; [lia|done].
Qed.

Lemma with_context_inv pager c poisoned :
  pager_inv pager ->
  (forall s, 0 <= s < pg_slot_count pager -> owner_at pager s = -1 ->
     mapped c s = mapped (pg_context pager) s) ->
  (poisoned = false -> pg_poisoned pager = false /\
     forall s, mapped c s = mapped (pg_context pager) s) ->
  pager_inv (with_poisoned (with_context pager c) poisoned).
Proof.
  intros [] Hm Hp. constructor; try done. intros s Hs.
  change (owner_at (with_poisoned (with_context pager c) poisoned) s) with (owner_at pager s).
  cbn [pg_context with_context with_poisoned pg_poisoned]. destruct (pi_mapped0 s Hs). split.
  - intros Ho. rewrite Hm by done. auto.
  - intros Ho Hnp. destruct (Hp Hnp) as [? ->]. auto.
Qed.

Lemma with_poisoned_id pager c :
  pg_poisoned pager = false -> with_context pager c = with_poisoned (with_context pager c) false.
Proof. destruct pager. simpl. by intros ->. Qed.

Lemma pager_unload_spec pager c slot (old := owner_at pager slot)
    (pager' := pager_unload pager c old slot) :
  pager_inv pager -> pg_poisoned pager = false -> 0 <= slot < pg_slot_count pager ->
  0 <= old < pg_page_count pager -> sp_slot (page_at pager old) = slot ->
  sp_pins (page_at pager old) = 0 -> mapped c slot = None ->
  (forall t, t <> slot -> mapped c t = mapped (pg_context pager) t) ->
  frame c = frame (pg_context pager) ->
  (forall q, q <> old -> disk c q = disk (pg_context pager) q) ->
  disk c old = frame (pg_context pager) slot ->
  pager_inv pager' /\ pager_same pager pager' /\
  pg_poisoned pager' = false /\ pg_slot_count pager' = pg_slot_count pager /\
  owner_at pager' slot = -1 /\
  forall q, 0 <= q -> q <> old -> page_at pager' q = page_at pager q.
Proof.
  intros Hi Hpoi Hs Hold Hslot Hpin Hm0 Hm Hf Hd Hd'.
  pose proof (pi_pages _ Hi) as HPL. pose proof (pi_owners _ Hi) as HOL.
  assert (Hpo : forall q, 0 <= q -> page_at pager' q =
     if decide (q = old) then set_sp_slot (-1) (set_sp_stored true (page_at pager old)) else page_at pager q).
  { intros q Hq. subst pager'. unfold pager_unload.
    change (page_at (with_counts ?x _ _ _) q) with (page_at x q).
    change (page_at (with_owner ?x _ _) q) with (page_at x q).
    rewrite page_at_with_page; [|cbn; rewrite length_insert; lia|done].
    rewrite !page_at_with_page by (done || cbn; lia). by repeat case_decide. }
  assert (Hoo : forall t, 0 <= t -> owner_at pager' t = if decide (t = slot) then -1 else owner_at pager t).
  { intros t Ht. subst pager'. rewrite <- owner_at_with_owner; [done|lia|done]. }
  assert (Hup : pager_update pager pager' old slot).
  { constructor; try done.
    1-2: subst pager'; cbn; by rewrite !length_insert.
    - intros q Hq Hne. rewrite Hpo by done. by case_decide.
    - intros t Ht Hne. rewrite Hoo by done. by case_decide.
    - intros t Ht. subst pager'. cbn. by rewrite Hf. }
  assert (Hp' : page_at pager' old = set_sp_slot (-1) (set_sp_stored true (page_at pager old)))
    by (rewrite Hpo by lia; by case_decide).
  assert (Hpriv : slot_private pager old slot) by (apply slot_private_owner; [done|lia]).
  split_and!; [..|rewrite Hoo by lia; by case_decide|by intros; apply Hup].
  - eapply (pager_update_inv pager); try done; rewrite ?Hp'; cbn; [by right|by rewrite Hpin|by left|].
    left. rewrite Hoo by lia. by case_decide.
  - eapply pager_update_same; try done; [lia| |by rewrite Hp']. unfold content. rewrite Hp'.
    cbn [sp_slot sp_stored set_sp_slot set_sp_stored]. rewrite Hslot.
    replace (0 <=? slot) with true by lia. simpl. by rewrite Hd'.
  - done.
  - done.
Qed.

Lemma pager_evict_spec pager slot r pager' :
  pager_inv pager -> pg_poisoned pager = false -> 0 <= slot < pg_slot_count pager ->
  0 <= owner_at pager slot -> sp_pins (page_at pager (owner_at pager slot)) = 0 ->
  pager_evict ops pager (owner_at pager slot) slot = (r, pager') ->
  pager_inv pager' /\ pager_same pager pager' /\
  (r = None -> pg_poisoned pager' = false /\ pg_slot_count pager' = pg_slot_count pager /\
     owner_at pager' slot = -1 /\
     forall q, 0 <= q -> q <> owner_at pager slot -> page_at pager' q = page_at pager q).
Proof.
  intros Hi Hpoi Hs Ho Hpin. pose proof (proj2 (pi_mapped _ Hi slot Hs) Ho Hpoi) as Hmap.
  destruct (pi_owner _ Hi slot Hs) as [?|[Hold Hslot]]; [lia|].
  set (old := owner_at pager slot) in *. unfold pager_evict.
  destruct (op_unmap ops (pg_context pager) old slot) as [ru c1] eqn:Hu.
  destruct (unmap_ok _ _ _ _ _ Hu Hmap) as (Hf1 & Hd1 & Hm1). destruct ru as [e|].
  { intros [= <- <-]. rewrite with_poisoned_id by done. split_and!; [..|done].
    - assert (Hm : forall t, mapped c1 t = mapped (pg_context pager) t).
      { intros t. rewrite Hm1. case_bool_decide; naive_solver. }
      apply with_context_inv; auto.
    - apply with_context_same; [by rewrite Hf1|]. intros p Hp. right. by rewrite Hd1. }
  assert (Hms : mapped c1 slot = None) by (rewrite Hm1; case_bool_decide; naive_solver).
  destruct (op_write ops c1 old slot) as [rw c2] eqn:Hw.
  destruct (write_ok _ _ _ _ _ Hw Hms) as (Hf2 & Hm2 & Hd2 & Hd2'). destruct rw as [e|].
  { destruct (op_map ops c2 old slot) as [rm c3] eqn:Hmp.
    destruct (map_ok _ _ _ _ _ Hmp) as (Hf3 & Hd3 & Hm3); [by rewrite Hm2|].
    assert (Hsame : forall b, pager_same pager (with_poisoned (with_context pager c3) b)).
    { intros b. apply with_context_same; [by rewrite Hf3, Hf2, Hf1|]. intros p Hp.
      destruct (decide (p = old)) as [->|]; [left; lia|right]. by rewrite Hd3, Hd2, Hd1. }
    assert (Hoth : forall t, t <> slot -> mapped c3 t = mapped (pg_context pager) t).
    { intros t Ht. rewrite Hm3, Hm2, Hm1. case_bool_decide; [naive_solver|].
      case_bool_decide; [naive_solver|done]. }
    destruct rm as [e'|]; intros [= <- <-]; [|rewrite with_poisoned_id by done];
      (split_and!; [apply with_context_inv; [done|..]|apply Hsame|done]).
    1,3: intros t Ht Hno; apply Hoth; intros ->; unfold old in *; lia.
    - done.
    - intros _. split; [done|]. intros t. destruct (decide (t = slot)) as [->|]; [|by apply Hoth].
      rewrite Hm3, Hmap. case_bool_decide; naive_solver. }
  intros [= <- <-]. destruct (pager_unload_spec pager c2 slot) as (H1 & H2 & H3);
    [done..|by rewrite Hm2| | | | |].
  - intros t Ht. rewrite Hm2, Hm1. case_bool_decide; naive_solver.
  - congruence.
  - intros q Hq. by rewrite Hd2, Hd1.
  - fold old. by rewrite Hd2', Hf1.
  - split_and!; auto.
Qed.

Lemma pager_load_spec pager c page slot (pager' := pager_load pager c page slot) :
  pager_inv pager -> pg_poisoned pager = false -> 0 <= page < pg_page_count pager ->
  0 <= slot < pg_slot_count pager -> owner_at pager slot = -1 ->
  sp_slot (page_at pager page) = -1 -> mapped c slot = Some page ->
  (forall t, t <> slot -> mapped c t = mapped (pg_context pager) t) ->
  (forall t, t <> slot -> frame c t = frame (pg_context pager) t) ->
  disk c = disk (pg_context pager) -> frame c slot = content pager page ->
  pager_inv pager' /\ pager_same pager pager' /\ sp_slot (page_at pager' page) = slot.
Proof.
  intros Hi Hpoi Hp Hs Ho Hslot Hm0 Hm Hf Hd Hc.
  pose proof (pi_pages _ Hi) as HPL. pose proof (pi_owners _ Hi) as HOL.
  assert (Hpo : forall q, 0 <= q -> page_at pager' q =
     if decide (q = page) then set_sp_slot slot (page_at pager page) else page_at pager q).
  { intros q Hq. subst pager'. unfold pager_load.
    change (page_at (with_counts ?x _ _ _) q) with (page_at x q).
    rewrite page_at_with_page by (cbn; lia). by case_decide. }
  assert (Hoo : forall t, 0 <= t -> owner_at pager' t = if decide (t = slot) then page else owner_at pager t).
  { intros t Ht. subst pager'. rewrite <- owner_at_with_owner; [done|lia|done]. }
  assert (Hpin : sp_pins (page_at pager page) = 0).
  { destruct (pi_pins _ Hi page Hp) as [_ Hn]. destruct (decide (sp_pins (page_at pager page) = 0)) as [|Hne];
      [done|]. specialize (Hn Hne). lia. }
  assert (Hp' : page_at pager' page = set_sp_slot slot (page_at pager page))
    by (rewrite Hpo by lia; by case_decide).
  assert (Hpriv : slot_private pager page slot) by (apply slot_private_free; [done|lia|done]).
  assert (Hup : pager_update pager pager' page slot).
  { constructor; try done.
    1-2: subst pager'; cbn; by rewrite !length_insert.
    - intros q Hq Hne. rewrite Hpo by done. by case_decide.
    - intros t Ht Hne. rewrite Hoo by done. by case_decide.
    - intros q Hq. subst pager'. cbn. by rewrite Hd. }
  split_and!; [..|by rewrite Hp'].
  - eapply (pager_update_inv pager); try done; rewrite ?Hp'; cbn; [by left|by rewrite Hpin|by left|].
    right. rewrite Hoo by lia. by case_decide.
  - eapply pager_update_same; try done; [lia| |by rewrite Hp'].
    rewrite <- Hc. unfold content. rewrite Hp'. cbn [sp_slot set_sp_slot].
    by replace (0 <=? slot) with true by lia.
Qed.

(** A context after the slot was filled but before it is mapped. *)
Record filled pager (slot : Z) (c : C) : Prop := {
  fl_disk : disk c = disk (pg_context pager);
  fl_mapped : mapped c = mapped (pg_context pager);
  fl_frame t : t <> slot -> frame c t = frame (pg_context pager) t
}.

Lemma filled_keeps pager slot c :
  pager_inv pager -> pg_poisoned pager = false -> 0 <= slot -> owner_at pager slot = -1 ->
  filled pager slot c ->
  pager_inv (with_context pager c) /\ pager_same pager (with_context pager c).
Proof.
  intros Hi Hpoi Hs Ho [Hd Hm Hf]. rewrite with_poisoned_id by done. split.
  - apply with_context_inv; [done|..]; intros; rewrite ?Hm; done.
  - apply with_context_same; [|intros; right; by rewrite Hd]. intros p Hp Hr. apply Hf.
    destruct (decide (p = -1)); [lia|]. by apply (slot_private_free pager (-1) slot).
Qed.

Lemma with_counts_inv pager f r w : pager_inv pager -> pager_inv (with_counts pager f r w).
Proof. intros []. by constructor. Qed.

Lemma with_counts_same pager pager' f r w :
  pager_same pager pager' -> pager_same pager (with_counts pager' f r w).
Proof. intros []. by constructor. Qed.

Lemma pager_read_spec pager page slot r pager' :
  pager_inv pager -> pg_poisoned pager = false -> 0 <= slot < pg_slot_count pager ->
  owner_at pager slot = -1 -> sp_slot (page_at pager page) = -1 ->
  pager_read ops pager page slot = (r, pager') ->
  pager_inv pager' /\ pager_same pager pager' /\ pg_poisoned pager' = false /\
  pg_slot_count pager' = pg_slot_count pager /\ pg_owners pager' = pg_owners pager /\
  pg_pages pager' = pg_pages pager /\
  (r = None -> frame (pg_context pager') slot = content pager page).
Proof.
  intros Hi Hpoi Hs Ho Hslot. pose proof (proj1 (pi_mapped _ Hi slot Hs) Ho) as Hm0.
  unfold pager_read, content. rewrite Hslot. simpl. destruct (sp_stored (page_at pager page)).
  - destruct (op_read ops _ page slot) as [rr c] eqn:Hr.
    destruct (read_ok _ _ _ _ _ Hr Hm0) as (Hd & Hm & Hf & Hf').
    destruct (filled_keeps pager slot c) as [H1 H2]; [done..|lia|done|done|].
    destruct rr; intros [= <- <-]; split_and!; try done; auto using with_counts_inv, with_counts_same.
  - destruct (zero_ok (pg_context pager) slot Hm0) as (Hd & Hm & Hf & Hf').
    destruct (filled_keeps pager slot (op_zero ops (pg_context pager) slot)) as [H1 H2];
      [done..|lia|done|done|]. by intros [= <- <-].
Qed.

Lemma pager_map_spec pager page slot r pager' :
  pager_inv pager -> pg_poisoned pager = false -> 0 <= page < pg_page_count pager ->
  0 <= slot < pg_slot_count pager -> owner_at pager slot = -1 ->
  sp_slot (page_at pager page) = -1 -> frame (pg_context pager) slot = content pager page ->
  pager_map ops pager page slot = (r, pager') ->
  pager_inv pager' /\ pager_same pager pager' /\
  (r = None -> 0 <= sp_slot (page_at pager' page)).
Proof.
  intros Hi Hpoi Hp Hs Ho Hslot Hc. pose proof (proj1 (pi_mapped _ Hi slot Hs) Ho) as Hm0.
  unfold pager_map. destruct (op_map ops _ page slot) as [rm c] eqn:Hm.
  destruct (map_ok _ _ _ _ _ Hm Hm0) as (Hf & Hd & Hm'). destruct rm as [e|]; intros [= <- <-].
  - rewrite with_poisoned_id by done. split_and!; [apply with_context_inv|apply with_context_same|];
      try done; intros; rewrite ?Hf, ?Hd, ?Hm'; auto; try (split; [done|]; intros); 
      rewrite ?Hm'; case_bool_decide; naive_solver.
  - destruct (pager_load_spec pager c page slot) as (H1 & H2 & H3); try done.
    + rewrite Hm'. case_bool_decide; naive_solver.
    + intros t Ht. rewrite Hm'. case_bool_decide; naive_solver.
    + by rewrite Hf.
    + by rewrite Hf.
    + split_and!; [done..|]. rewrite H3. lia.
Qed.

Lemma pager_fill_spec pager page slot r pager' :
  pager_inv pager -> pg_poisoned pager = false -> 0 <= page < pg_page_count pager ->
  0 <= slot < pg_slot_count pager -> owner_at pager slot = -1 ->
  sp_slot (page_at pager page) = -1 -> pager_fill ops pager page slot = (r, pager') ->
  pager_inv pager' /\ pager_same pager pager' /\
  (r = None -> 0 <= sp_slot (page_at pager' page)).
Proof.
  intros Hi Hpoi Hp Hs Ho Hslot. unfold pager_fill.
  destruct (pager_read ops pager page slot) as [rr pg1] eqn:Hr.
  destruct (pager_read_spec _ _ _ _ _ Hi Hpoi Hs Ho Hslot Hr) as (Hi1 & Hs1 & Hpoi1 & Hsc & How & Hpg & Hfr).
  destruct rr as [e|]; [by intros [= <- <-]|]. intros Hmap.
  assert (Hpa : forall q, page_at pg1 q = page_at pager q) by (intros; unfold page_at; by rewrite Hpg).
  destruct (pager_map_spec pg1 page slot r pager') as (H1 & H2 & H3); try done.
  - by rewrite (ps_count _ _ Hs1).
  - by rewrite Hsc.
  - unfold owner_at. by rewrite How.
  - by rewrite Hpa.
  - rewrite Hfr by done. symmetry. by apply Hs1.
  - split_and!; [done| |done]. by eapply pager_same_trans.
Qed.

(** *** The operations *)

Lemma swap_pager_fault_spec pager page r pager' :
  pager_inv pager -> 0 <= page -> swap_pager_fault pager page = (r, pager') ->
  pager_inv pager' /\ pager_same pager pager' /\
  (r = None -> page < pg_page_count pager /\ 0 <= sp_slot (page_at pager' page)).
Proof.
  intros Hi Hp. unfold swap_pager_fault.
  destruct (_ <=? page) eqn:Hpc; btrue; [by intros [= <- <-]|].
  destruct (pg_poisoned pager) eqn:Hpoi; [by intros [= <- <-]|].
  destruct (0 <=? _) eqn:Hres; btrue; [by intros [= <- <-]|].
  assert (Hslot : sp_slot (page_at pager page) = -1) by (destruct (pi_slot _ Hi page); lia).
  rewrite (pi_ops _ Hi). destruct (pager_pick pager) as [rp pg1] eqn:Hpick.
  destruct (pager_pick_spec _ _ _ Hi Hpick) as [(h & -> & Hh) Hsel].
  pose proof (with_hand_inv _ _ Hi Hh) as Hi1. pose proof (with_hand_same pager h) as Hs1.
  destruct rp as [slot|]; [|by intros [= <- <-]]. destruct Hsel as [Hsl Hsel].
  change (owner_at (with_hand pager h) slot) with (owner_at pager slot).
  destruct (0 <=? owner_at pager slot) eqn:Ho; btrue.
  - destruct (pager_evict ops _ _ slot) as [re pg2] eqn:Hev.
    apply (pager_evict_spec (with_hand pager h) slot) in Hev as (Hi2 & Hs2 & Hev); try done;
      [|destruct Hsel; [lia|done]].
    destruct re as [e|].
    { intros [= <- <-]. split_and!; [done| |done]. by eapply pager_same_trans. }
    destruct (Hev eq_refl) as (Hpoi2 & Hsc2 & Ho2 & Hpg2). intros Hfill.
    assert (Hne : page <> owner_at pager slot).
    { intros ->. destruct (pi_owner _ Hi slot Hsl) as [?|[_ ?]]; lia. }
    apply pager_fill_spec in Hfill as (Hi3 & Hs3 & Hr3); try done.
    + split_and!; [done| |auto]. eapply pager_same_trans; [|done]. by eapply pager_same_trans.
    + by rewrite (ps_count _ _ Hs2).
    + by rewrite Hsc2.
    + by rewrite Hpg2.
  - intros Hfill. apply pager_fill_spec in Hfill as (Hi3 & Hs3 & Hr3); try done.
    + split_and!; [done| |auto]. by eapply pager_same_trans.
    + destruct (pi_owner _ Hi slot Hsl) as [?|[? _]]; [done|lia].
Qed.

(** A change of one page's pins. *)
Lemma with_pins_spec pager page n :
  pager_inv pager -> 0 <= page < pg_page_count pager -> is_u32 n ->
  (n <> 0 -> 0 <= sp_slot (page_at pager page)) ->
  pager_inv (with_page pager page (set_sp_pins n (page_at pager page))) /\
  forall p, 0 <= p < pg_page_count pager ->
    content (with_page pager page (set_sp_pins n (page_at pager page))) p = content pager p.
Proof.
  intros Hi Hp Hn Hr. pose proof (pi_pages _ Hi) as HPL.
  assert (Hpa : forall q, 0 <= q -> let p' := page_at (with_page pager page (set_sp_pins n (page_at pager page))) q in
    sp_slot p' = sp_slot (page_at pager q) /\ sp_stored p' = sp_stored (page_at pager q) /\
    sp_pins p' = if decide (q = page) then n else sp_pins (page_at pager q)).
  { intros q Hq. rewrite page_at_with_page by lia. case_decide; by subst. }
  split.
  - destruct Hi. constructor; try done.
    + cbn. by rewrite length_insert.
    + intros s Hs. change (owner_at (with_page _ _ _) s) with (owner_at pager s).
      destruct (pi_owner0 s Hs) as [?|[Ho ?]]; [by left|right]. split; [done|]. by rewrite (proj1 (Hpa _ (proj1 Ho))).
    + intros q Hq. rewrite (proj1 (Hpa q (proj1 Hq))). by apply pi_slot0.
    + intros q Hq. destruct (Hpa q (proj1 Hq)) as (-> & _ & ->). case_decide as E; [by subst|].
      by apply pi_pins0.
  - intros q Hq. unfold content. by destruct (Hpa q (proj1 Hq)) as (-> & -> & _).
Qed.

Lemma swap_pager_pin_spec pager page r pager' :
  pager_inv pager -> 0 <= page -> swap_pager_pin pager page = (r, pager') ->
  pager_inv pager' /\ pg_page_count pager' = pg_page_count pager /\
  forall p, 0 <= p < pg_page_count pager -> content pager' p = content pager p.
Proof.
  intros Hi Hp. unfold swap_pager_pin. destruct (_ || _) eqn:Hc; [by intros [= <- <-]|]. btrue.
  destruct (swap_pager_fault pager page) as [rf pg1] eqn:Hf.
  destruct (swap_pager_fault_spec _ _ _ _ Hi Hp Hf) as (Hi1 & Hs1 & Hr).
  destruct rf as [e|]; intros [= <- <-]; [split_and!; [done|apply Hs1|apply Hs1]|].
  destruct (Hr eq_refl) as [Hlt Hres].
  destruct (with_pins_spec pg1 page (u32 (sp_pins (page_at pg1 page) + 1))) as [H1 H2];
    [done|by rewrite (ps_count _ _ Hs1)|apply u32_range|done|].
  split_and!; [done|apply Hs1|]. intros p Hp'. rewrite H2; [by apply Hs1|by rewrite (ps_count _ _ Hs1)].
Qed.

Lemma swap_pager_unpin_spec pager page r pager' :
  pager_inv pager -> 0 <= page -> swap_pager_unpin pager page = (r, pager') ->
  pager_inv pager' /\ pg_page_count pager' = pg_page_count pager /\
  forall p, 0 <= p < pg_page_count pager -> content pager' p = content pager p.
Proof.
  intros Hi Hp. unfold swap_pager_unpin. destruct (_ || _) eqn:Hc; intros [= <- <-]; [done|]. btrue.
  destruct (with_pins_spec pager page (u32 (sp_pins (page_at pager page) - 1))) as [H1 H2];
    [done|lia|apply u32_range| |done].
  intros _. destruct (pi_pins _ Hi page) as [_ Hn]; [lia|]. auto.
Qed.

Lemma swap_pager_init_spec pages slots c mem pager :
  is_u32 pages -> is_u32 slots -> (forall s, mapped c s = None) ->
  swap_pager_init pages slots (Some ops) c mem = (None, pager) ->
  pager_inv pager /\ forall p, 0 <= p < pages -> content pager p = zeros.
Proof.
  intros Hp Hs Hm. unfold swap_pager_init. destruct (_ || _) eqn:Hc; [done|]. btrue.
  destruct (_ || _) eqn:Hmem; [done|]. intros [= <-]. unfold is_u32 in *.
  assert (Hpa : forall q, 0 <= q < pages ->
    replicate (Z.to_nat pages) (mk_swap_page (-1) 0 false) !!! Z.to_nat q = mk_swap_page (-1) 0 false).
  { intros q Hq. apply lookup_total_replicate_2. lia. }
  split; [constructor|]; unfold owner_at, page_at, content; cbn; try done; rewrite ?length_replicate; try lia.
  - intros s Hs'. left. apply lookup_total_replicate_2. lia.
  - intros q Hq. left. by rewrite Hpa.
  - intros q Hq. by rewrite Hpa.
  - intros s Hs'. split; [done|]. rewrite lookup_total_replicate_2 by lia. lia.
  - intros q Hq. unfold content, page_at. cbn. by rewrite Hpa.
Qed.

(** *** Closing *)

Definition no_pins pager : Prop :=
  forall p, 0 <= p < pg_page_count pager -> sp_pins (page_at pager p) = 0.

Definition pager_release pager (c : C) (slot : Z) : swap_pager C :=
  let page := owner_at pager slot in
  let pager := with_context pager c in
  with_owner (with_page pager page (set_sp_slot (-1) (page_at pager page))) slot (-1).

Lemma pager_release_spec pager c slot :
  pager_inv pager -> pg_poisoned pager = false -> no_pins pager ->
  0 <= slot < pg_slot_count pager -> 0 <= owner_at pager slot ->
  frame c = frame (pg_context pager) -> disk c = disk (pg_context pager) ->
  (forall t, mapped c t = if decide (t = slot) then None else mapped (pg_context pager) t) ->
  pager_inv (pager_release pager c slot) /\ no_pins (pager_release pager c slot).
Proof.
  intros Hi Hpoi Hno Hs Ho Hf Hd Hm. destruct (pi_owner _ Hi slot Hs) as [?|[Hold Hslot]]; [lia|].
  pose proof (pi_pages _ Hi) as HPL. pose proof (pi_owners _ Hi) as HOL.
  set (old := owner_at pager slot) in *. set (pager' := pager_release pager c slot).
  assert (Hpo : forall q, 0 <= q -> page_at pager' q =
     if decide (q = old) then set_sp_slot (-1) (page_at pager old) else page_at pager q).
  { intros q Hq. subst pager'. unfold pager_release. fold old.
    change (page_at (with_owner ?x _ _) q) with (page_at x q).
    rewrite page_at_with_page by (cbn; lia). done. }
  assert (Hoo : forall t, 0 <= t -> owner_at pager' t = if decide (t = slot) then -1 else owner_at pager t).
  { intros t Ht. subst pager'. rewrite <- owner_at_with_owner; [done|lia|done]. }
  assert (Hup : pager_update pager pager' old slot).
  { constructor; try done.
    1-2: subst pager'; cbn; by rewrite !length_insert.
    - intros q Hq Hne. rewrite Hpo by done. by case_decide.
    - intros t Ht Hne. rewrite Hoo by done. by case_decide.
    - intros t Ht. subst pager'. cbn. rewrite Hm. by case_decide.
    - intros t Ht. subst pager'. cbn. by rewrite Hf.
    - intros t Ht. subst pager'. cbn. by rewrite Hd. }
  assert (Hp' : page_at pager' old = set_sp_slot (-1) (page_at pager old))
    by (rewrite Hpo by lia; by case_decide).
  split.
  - eapply (pager_update_inv pager); try done; [by apply slot_private_owner; [|lia]|by right|..];
      rewrite ?Hp'; cbn.
    + rewrite (Hno old) by done. unfold is_u32. lia.
    + left. by apply Hno.
    + left. rewrite Hoo by lia. case_decide; [|done]. split_and!; [done..|]. rewrite Hm. by case_decide.
  - intros q Hq. rewrite Hpo by lia. case_decide; [|by apply Hno]. by apply (Hno old).
Qed.

Lemma pager_close_loop_failed n pager i f pager' :
  pager_close_loop ops n pager i true = (f, pager') -> f = true.
Proof.
  revert pager i. induction n as [|n IH]; intros pager i; cbn [pager_close_loop]; [congruence|].
  case_if; [apply IH|]. destruct (op_unmap _ _ _ _) as [[e|] c]; apply IH.
Qed.

Lemma pager_close_loop_spec n pager i failed f pager' :
  pager_inv pager -> pg_poisoned pager = false -> no_pins pager ->
  0 <= i -> i + Z.of_nat n = pg_slot_count pager ->
  pager_close_loop ops n pager i failed = (f, pager') ->
  f = false -> failed = false /\
    forall s, 0 <= s < pg_slot_count pager -> (s < i -> mapped (pg_context pager) s = None) ->
      mapped (pg_context pager') s = None.
Proof.
  revert pager i failed. induction n as [|n IH]; intros pager i failed Hi Hpoi Hno Hi0 Hin; cbn [pager_close_loop].
  { intros [= <- <-] ->. split; [done|]. intros s Hs Hm. apply Hm. lia. }
  assert (Hs : 0 <= i < pg_slot_count pager) by lia.
  destruct (pi_mapped _ Hi i Hs) as [Hm0 Hm1].
  destruct (owner_at pager i <? 0) eqn:Ho; btrue.
  - intros Hrun Hf. destruct (IH pager (i + 1) failed Hi Hpoi Hno ltac:(lia) ltac:(lia) Hrun Hf) as [H1 H2].
    split; [done|]. intros s Hs' Hm. apply H2; [done|]. intros Hlt.
    destruct (decide (s = i)) as [->|]; [|apply Hm; lia]. apply Hm0.
    destruct (pi_owner _ Hi i Hs) as [?|[? _]]; [done|lia].
  - destruct (op_unmap ops (pg_context pager) (owner_at pager i) i) as [ru c] eqn:Hu.
    destruct (unmap_ok _ _ _ _ _ Hu (Hm1 Ho Hpoi)) as (Hf1 & Hd1 & Hmu). destruct ru as [e|].
    + assert (Hm : forall t, mapped c t = mapped (pg_context pager) t).
      { intros t. rewrite Hmu. case_bool_decide; naive_solver. }
      rewrite with_poisoned_id by done. intros Hrun Hf.
      eapply IH in Hrun as [? _]; [done|by apply with_context_inv; auto|done|done|lia|cbn; lia|done].
    + intros Hrun Hf.
      assert (Hm : forall t, mapped c t = if decide (t = i) then None else mapped (pg_context pager) t).
      { intros t. rewrite Hmu. case_bool_decide; case_decide; naive_solver. }
      destruct (pager_release_spec pager c i Hi Hpoi Hno Hs Ho Hf1 Hd1 Hm) as [Hi' Hno'].
      eapply (IH (pager_release pager c i)) in Hrun as [H1 H2]; [|done|done|done|lia|cbn; lia|done].
      split; [done|]. intros s Hs' Hms. apply H2; [done|]. intros Hlt. cbn. rewrite Hm.
      case_decide; [done|]. apply Hms. lia.
Qed.

(** ** Guest memory

    The guest runs between the calls and stores into pages that are resident:
    the slot of the page gets a new content. [memory] is what the guest stored
    last in each page. *)
Inductive pager_step (n : Z) : swap_pager C * (Z -> V) -> swap_pager C * (Z -> V) -> Prop :=
| step_fault pager memory page r pager' :
    0 <= page -> swap_pager_fault pager page = (r, pager') ->
    pager_step n (pager, memory) (pager', memory)
| step_pin pager memory page r pager' :
    0 <= page -> swap_pager_pin pager page = (r, pager') ->
    pager_step n (pager, memory) (pager', memory)
| step_unpin pager memory page r pager' :
    0 <= page -> swap_pager_unpin pager page = (r, pager') ->
    pager_step n (pager, memory) (pager', memory)
| step_store pager memory page c v :
    0 <= page < n -> 0 <= sp_slot (page_at pager page) ->
    mapped c = mapped (pg_context pager) -> disk c = disk (pg_context pager) ->
    frame c (sp_slot (page_at pager page)) = v ->
    (forall t, t <> sp_slot (page_at pager page) -> frame c t = frame (pg_context pager) t) ->
    pager_step n (pager, memory)
      (with_context pager c, fun p => if decide (p = page) then v else memory p).

Definition pager_simulates (n : Z) (x : swap_pager C * (Z -> V)) : Prop :=
  pager_inv (fst x) /\ pg_page_count (fst x) = n /\
  forall p, 0 <= p < n -> content (fst x) p = snd x p.

Lemma pager_step_simulates n x y : pager_simulates n x -> pager_step n x y -> pager_simulates n y.
Proof.
  intros (Hi & Hn & Hc) Hstep. destruct Hstep as [pager memory page r pager' Hp Hrun|
    pager memory page r pager' Hp Hrun|pager memory page r pager' Hp Hrun|
    pager memory page c v Hp Hres Hm Hd Hf Hfo]; simpl in *.
  - apply swap_pager_fault_spec in Hrun as (Hi' & Hs & _); [|done..]. split_and!; [done|..]; simpl.
    + by rewrite (ps_count _ _ Hs).
    + intros p Hp'. rewrite (ps_content _ _ Hs); [auto|lia].
  - apply swap_pager_pin_spec in Hrun as (Hi' & Hs & H1); [|done..]. split_and!; [done|..]; simpl.
    + by rewrite Hs.
    + intros p Hp'. rewrite H1; [auto|lia].
  - apply swap_pager_unpin_spec in Hrun as (Hi' & Hs & H1); [|done..]. split_and!; [done|..]; simpl.
    + by rewrite Hs.
    + intros p Hp'. rewrite H1; [auto|lia].
  - split_and!; simpl; [|done|].
    + destruct Hi. constructor; try done. intros s Hs. cbn. rewrite Hm. by apply pi_mapped0.
    + intros p Hp'. rewrite <- (Hc p Hp'). unfold content.
      change (page_at (with_context pager c) p) with (page_at pager p).
      cbn [pg_context with_context]. rewrite Hd. case_decide as E.
      * subst p. by replace (0 <=? sp_slot (page_at pager page)) with true by lia.
      * case_if; [|done]. btrue. apply Hfo. destruct (pi_slot _ Hi p) as [?|[_ E1]]; [lia..|].
        destruct (pi_slot _ Hi page) as [?|[_ E2]]; [lia..|]. congruence.
Qed.

End verification.

(** C6: paging is invisible to the guest. From an initialized pager, after any
    sequence of faults, pins and unpins, failed ones included, and of stores
    into resident pages, every page reads what was stored in it last, or zeros:
    no page is lost when it is written out, when its place is taken or when a
    callback fails. *)
Theorem pager_transparent {C V : Type} `{!PagerView C V} (ops : swap_pager_ops C) `{!PagerOps ops}
    pages slots c mem pager pager' memory :
  is_u32 pages -> is_u32 slots -> (forall s, mapped c s = None) ->
  swap_pager_init pages slots (Some ops) c mem = (None, pager) ->
  rtc (pager_step pages) (pager, fun _ => zeros) (pager', memory) ->
  pager_inv ops pager' /\ forall p, 0 <= p < pages -> content pager' p = memory p.
Proof.
  intros Hp Hs Hm Hinit Hrun.
  destruct (swap_pager_init_spec ops _ _ _ _ _ Hp Hs Hm Hinit) as [Hi Hc].
  assert (Hsim : pager_simulates ops pages (pager, fun _ => zeros)).
  { split_and!; [done| |done]. revert Hinit. unfold swap_pager_init.
    repeat (case_if; [done|]). by intros [= <-]. }
  apply (rtc_keeps _ (pager_simulates ops pages)) in Hrun; [split; apply Hrun| |done].
  intros x y Hst Hx. by eapply pager_step_simulates.
Qed.

(** a fault that succeeds leaves its page resident and mapped at its slot;
    whatever its outcome a fault never moves a pinned page, and changes no
    page's content and no pin count. *)
Theorem pager_fault_pinned {C V : Type} `{!PagerView C V} (ops : swap_pager_ops C) `{!PagerOps ops}
    pager page r pager' :
  pager_inv ops pager -> 0 <= page -> swap_pager_fault pager page = (r, pager') ->
  pager_inv ops pager' /\
  (r = None -> 0 <= sp_slot (page_at pager' page) /\ (pg_poisoned pager' = false ->
     mapped (pg_context pager') (sp_slot (page_at pager' page)) = Some page)) /\
  forall p, 0 <= p < pg_page_count pager ->
    sp_pins (page_at pager' p) = sp_pins (page_at pager p) /\
    content pager' p = content pager p /\
    (sp_pins (page_at pager p) <> 0 -> sp_slot (page_at pager' p) = sp_slot (page_at pager p)).
Proof.
  intros Hi Hp Hrun. destruct (swap_pager_fault_spec ops _ _ _ _ Hi Hp Hrun) as (Hi' & Hs & Hr).
  split_and!; [done|..].
  - intros E. destruct (Hr E) as [Hlt Hres]. split; [done|]. intros Hpoi.
    destruct (pi_slot _ _ Hi' page) as [?|[Hrange Ho]]; [by rewrite (ps_count _ _ Hs)|lia|].
    rewrite <- Ho at 2. apply (pi_mapped _ _ Hi'); [done|lia|done].
  - intros p Hp'. split_and!; by apply Hs.
Qed.

(** Closing succeeds only when no page is pinned and every callback
    succeeded, and then no slot is left mapped; with a page pinned it changes
    nothing. *)
Theorem pager_close_unmaps {C V : Type} `{!PagerView C V} (ops : swap_pager_ops C) `{!PagerOps ops}
    pager r pager' :
  pager_inv ops pager -> swap_pager_close pager = (r, pager') ->
  (r = None -> no_pins pager /\ pg_poisoned pager = false /\
     forall s, 0 <= s < pg_slot_count pager -> mapped (pg_context pager') s = None) /\
  (~ no_pins pager -> r = Some EBUSY /\ pager' = pager).
Proof.
  intros Hi. pose proof (pi_pages _ _ Hi) as HPL. unfold swap_pager_close.
  destruct (existsb (fun p => nonzero (sp_pins p)) (pg_pages pager)) eqn:Hex.
  { intros [= <- <-]. done. }
  assert (Hno : no_pins pager).
  { intros p Hp. unfold page_at. destruct (decide (sp_pins (pg_pages pager !!! Z.to_nat p) = 0)) as [|Hne]; [done|].
    apply not_true_iff_false in Hex. destruct Hex. apply existsb_exists.
    exists (pg_pages pager !!! Z.to_nat p). split; [|unfold nonzero; lia].
    apply list_elem_of_In, list_elem_of_lookup_total_2. lia. }
  rewrite (pi_ops _ _ Hi). destruct (pager_close_loop _ _ _ _ _) as [f pg1] eqn:Hloop.
  destruct (pg_poisoned pager) eqn:Hpoi.
  - assert (f = true) as -> by (by eapply pager_close_loop_failed).
    intros [= <- <-]. done.
  - destruct f; intros [= <- <-]; [done|]. split; [|done]. intros _. split_and!; [done..|].
    pose proof (pi_slots _ _ Hi).
    destruct (pager_close_loop_spec ops (Z.to_nat (pg_slot_count pager)) pager 0 false false pg1 Hi Hpoi Hno (Z.le_refl 0) ltac:(lia)
      Hloop eq_refl)
      as [_ Hm]. intros s Hs. apply Hm; [done|lia].
Qed.

(** ** Witnesses: slots, disk and mappings as finite maps, with one page that
    cannot be written *)

Record map_context := mk_map_context {
  cx_frames : gmap Z Z; cx_disk : gmap Z Z; cx_mapped : gmap Z Z; cx_bad : Z
}.

#[export] Instance map_context_view : PagerView map_context Z := {
  frame c s := default 0 (cx_frames c !! s);
  disk c p := default 0 (cx_disk c !! p);
  mapped c s := cx_mapped c !! s;
  zeros := 0
}.

Definition map_context_ops : swap_pager_ops map_context := {|
  op_map c p s := (None, mk_map_context (cx_frames c) (cx_disk c) (<[s := p]> (cx_mapped c)) (cx_bad c));
  op_unmap c p s := (None, mk_map_context (cx_frames c) (cx_disk c) (delete s (cx_mapped c)) (cx_bad c));
  op_read c p s := (None, mk_map_context (<[s := default 0 (cx_disk c !! p)]> (cx_frames c))
                            (cx_disk c) (cx_mapped c) (cx_bad c));
  op_write c p s :=
    if p =? cx_bad c then (Some EIO, c)
    else (None, mk_map_context (cx_frames c) (<[p := default 0 (cx_frames c !! s)]> (cx_disk c))
                  (cx_mapped c) (cx_bad c));
  op_zero c s := mk_map_context (<[s := 0]> (cx_frames c)) (cx_disk c) (cx_mapped c) (cx_bad c)
|}.

#[export] Instance map_context_ops_ok : PagerOps map_context_ops.
Proof.
  constructor; cbn; intros c p s; try intros r c'.
  - intros [= <- <-] Hm. split_and!; [done..|]. intros t. cbn.
    case_bool_decide as E; [destruct E as [_ ->]; apply lookup_delete_eq|].
    apply lookup_delete_ne. naive_solver.
  - destruct (Z.eqb_spec p (cx_bad c)); intros [= <- <-] Hm; [by split_and!|]. split_and!; cbn; [done..| |].
    + intros q Hq. by rewrite lookup_insert_ne.
    + intros _. by rewrite lookup_insert_eq.
  - intros [= <- <-] Hm. split_and!; cbn; [done..| |].
    + intros q Hq. by rewrite lookup_insert_ne.
    + intros _. by rewrite lookup_insert_eq.
  - split_and!; cbn; [done..| |].
    + intros q Hq. by rewrite lookup_insert_ne.
    + by rewrite lookup_insert_eq.
  - intros [= <- <-] Hm. split_and!; [done..|]. intros t. cbn.
    case_bool_decide as E; [destruct E as [_ ->]; apply lookup_insert_eq|].
    apply lookup_insert_ne. naive_solver.
Qed.

Definition map_context_new : map_context := mk_map_context ∅ ∅ ∅ 7.

(** Three pages in one slot; page 0 is brought in. *)
Definition pager_example : swap_pager map_context :=
  snd (swap_pager_init 3 1 (Some map_context_ops) map_context_new (true, true)).
Definition pager_example_in : swap_pager map_context := snd (swap_pager_fault pager_example 0).
Definition pager_example_stored : swap_pager map_context :=
  with_context pager_example_in
    (mk_map_context {[0 := 42]} ∅ (cx_mapped (pg_context pager_example_in)) 7).
Definition pager_example_out : swap_pager map_context := snd (swap_pager_fault pager_example_stored 2).

Lemma pager_example_inv : pager_inv map_context_ops pager_example.
Proof.
  apply (swap_pager_init_spec map_context_ops 3 1 map_context_new (true, true));
    [decide_true|decide_true|done|reflexivity].
Qed.

(** Page 0 is stored to, page 2 takes its slot, and page 0 still reads 42. *)
Lemma pager_transparent_witness :
  disk (pg_context pager_example_out) 0 = 42 /\ content pager_example_out 0 = 42.
Proof.
  split; [reflexivity|].
  destruct (pager_transparent map_context_ops 3 1 map_context_new (true, true) pager_example
    pager_example_out (fun p => if decide (p = 0) then 42 else 0)) as [_ Hc].
  - decide_true.
  - decide_true.
  - reflexivity.
  - reflexivity.
  - apply (rtc_l _ _ (pager_example_in, fun _ => 0)).
    { apply (step_fault 3 pager_example (fun _ => 0) 0 None pager_example_in); [lia|].
      vm_compute. reflexivity. }
    apply (rtc_l _ _ (pager_example_stored, fun p => if decide (p = 0) then 42 else 0)).
    { apply (step_store 3 pager_example_in (fun _ => 0) 0); try reflexivity; [lia|].
      intros t Ht. change (sp_slot (page_at pager_example_in 0)) with 0 in Ht.
      change (frame (pg_context pager_example_in) t) with (default 0 ((<[0 := 0]> ∅ : gmap Z Z) !! t)).
      cbn. by rewrite lookup_singleton_ne, lookup_insert_ne. }
    apply rtc_once. apply (step_fault 3 pager_example_stored
      (fun p => if decide (p = 0) then 42 else 0) 2 None pager_example_out); [lia|].
    vm_compute. reflexivity.
  - apply (Hc 0). lia.
Defined.

Lemma pager_fault_pinned_witness :
  0 <= sp_slot (page_at pager_example_in 0) /\ content pager_example_in 2 = 0.
Proof.
  destruct (pager_fault_pinned map_context_ops pager_example 0 None pager_example_in) as (_ & H1 & H2).
  - apply pager_example_inv.
  - lia.
  - reflexivity.
  - split; [by apply H1|]. destruct (H2 2) as (_ & -> & _); [vm_compute; split; done|reflexivity].
Defined.

Lemma pager_close_unmaps_witness :
  mapped (pg_context (snd (swap_pager_close pager_example_in))) 0 = None.
Proof.
  destruct (pager_close_unmaps map_context_ops pager_example_in None
    (snd (swap_pager_close pager_example_in))) as [H1 _].
  - eapply (swap_pager_fault_spec map_context_ops pager_example 0 None); [apply pager_example_inv|lia|reflexivity].
  - reflexivity.
  - apply (proj2 (proj2 (H1 eq_refl)) 0). vm_compute. split; [discriminate|reflexivity].
Defined.
