(* ===== verification/SwapStore.v ===== *)
(** * The segmented swap store (horizon-wine/source/swap_store.c)

    Up to eight files of at most a gigabyte, each behind a 4 KiB header, read
    and written as one array of bytes. Modelled: [transfer], [native_transfer],
    [store_transfer], [swap_store_read], [swap_store_write] and
    [swap_store_close]. A store has POSIX descriptors or, on the Switch when it
    was opened by [swap_store_open_existing], files of a session of its own. The
    files' contents and positions are a state of their own; how many bytes a
    call of the system moves, and whether it is interrupted or fails, is decided
    by a script of answers that is a parameter. The interface of the store to
    its client is [SwapStore]. *)
From S2P Require Import Prelude.
Local Open Scope Z_scope.

Definition HEADER_SIZE : Z := 4096.
Definition SWAP_STORE_SEGMENT : Z := 1024 * 1024 * 1024.
Definition SWAP_STORE_FILES : nat := 8.

(** ** File descriptors *)

(** How the system answers one [read], [write], [fsFileRead] or [fsFileWrite]:
    it moves at most so many bytes, or fails with an errno or a result of the
    file system. A [fsFileWrite] that fails may have written some bytes. *)
Inductive io_answer := IoMoves (count : nat) | IoFails (error : Z) (torn : nat).

Record posix := mk_posix {
  px_files : gmap Z (list Z);     (** contents by descriptor, or by [FsFile] *)
  px_pos : gmap Z Z;              (** file offsets *)
  px_script : list io_answer      (** answers to come; then every transfer is whole *)
}.

Definition posix_answer (fs : posix) (size : nat) : (nat + Z) * posix :=
  match px_script fs with
  | [] => (inl size, fs)
  | IoMoves n :: l => (inl (n `min` size)%nat, mk_posix (px_files fs) (px_pos fs) l)
  | IoFails e _ :: l => (inr e, mk_posix (px_files fs) (px_pos fs) l)
  end.

Definition lseek_set (fs : posix) (fd offset : Z) : Z * posix :=
  if bool_decide (is_Some (px_files fs !! fd)) && (0 <=? offset)
  then (offset, mk_posix (px_files fs) (<[fd := offset]> (px_pos fs)) (px_script fs))
  else (-1, fs).

(** [write( fd, data, length data )]: the count or the errno. A file grows
    when it is written past its end. *)
Definition posix_write (fs : posix) (fd : Z) (data : list Z) : (nat + Z) * posix :=
  match px_files fs !! fd with
  | None => (inr EBADF, fs)
  | Some content =>
      match posix_answer fs (length data) with
      | (inr e, fs) => (inr e, fs)
      | (inl n, fs) =>
          let pos := default 0 (px_pos fs !! fd) in
          let content := content ++ replicate (Z.to_nat (pos + Z.of_nat n) - length content) 0 in
          (inl n, mk_posix (<[fd := splice content (Z.to_nat pos) (take n data)]> (px_files fs))
                    (<[fd := pos + Z.of_nat n]> (px_pos fs)) (px_script fs))
      end
  end.

(** [read( fd, data, size )]: the bytes read or the errno. *)
Definition posix_read (fs : posix) (fd : Z) (size : nat) : (list Z + Z) * posix :=
  match px_files fs !! fd with
  | None => (inr EBADF, fs)
  | Some content =>
      match posix_answer fs size with
      | (inr e, fs) => (inr e, fs)
      | (inl n, fs) =>
          let pos := default 0 (px_pos fs !! fd) in
          let data := take n (drop (Z.to_nat pos) content) in
          (inl data, mk_posix (px_files fs) (<[fd := pos + Z.of_nat (length data)]> (px_pos fs))
                       (px_script fs))
      end
  end.

(** [fsFileWrite( file, offset, data, size )] writes all its bytes or fails. *)
Definition native_write (fs : posix) (file offset : Z) (data : list Z) : option Z * posix :=
  match px_files fs !! file with
  | None => (Some EBADF, fs)
  | Some content =>
      let put n script := mk_posix (<[file := splice content (Z.to_nat offset) (take n data)]> (px_files fs)) (px_pos fs) script in
      match px_script fs with
      | IoFails rc torn :: l => (Some rc, put torn l)
      | IoMoves _ :: l => (None, put (length data) l)
      | [] => (None, put (length data) [])
      end
  end.

(** [fsFileRead( file, offset, data, size, 0, &count )] *)
Definition native_read (fs : posix) (file offset : Z) (size : nat) : (list Z + Z) * posix :=
  match px_files fs !! file with
  | None => (inr EBADF, fs)
  | Some content =>
      match posix_answer fs size with
      | (inr rc, fs) => (inr rc, fs)
      | (inl n, fs) => (inl (take n (drop (Z.to_nat offset) content)), fs)
      end
  end.

(** ** The store *)

(** [ss_native]: [io_session] is active, and [ss_files] are the files. *)
Record swap_store := mk_swap_store { ss_fd : list Z; ss_size : Z; ss_fs_error : Z; ss_native : bool; ss_files : list Z }.

Definition with_fs_error (store : swap_store) (rc : Z) : swap_store := mk_swap_store (ss_fd store) (ss_size store) rc (ss_native store) (ss_files store).

(** The loop of [transfer] when writing; [None] outside if it runs out of
    [fuel], inside for success. *)
Fixpoint transfer_write (fuel : nat) (fs : posix) (fd : Z) (data : list Z)
    : option (option Z * posix) :=
  match data with
  | [] => Some (None, fs)
  | _ =>
      match fuel with
      | O => None
      | S fuel =>
          match posix_write fs fd data with
          | (inr e, fs) => if e =? EINTR then transfer_write fuel fs fd data else Some (Some e, fs)
          | (inl O, fs) => Some (Some EIO, fs)
          | (inl n, fs) => transfer_write fuel fs fd (drop n data)
          end
      end
  end.

(** The loop of [transfer] when reading [size] bytes; [acc] is what the buffer
    holds so far. *)
Fixpoint transfer_read (fuel : nat) (fs : posix) (fd : Z) (acc : list Z) (size : nat)
    : option (option Z * list Z * posix) :=
  match size with
  | O => Some (None, acc, fs)
  | _ =>
      match fuel with
      | O => None
      | S fuel =>
          match posix_read fs fd size with
          | (inr e, fs) =>
              if e =? EINTR then transfer_read fuel fs fd acc size else Some (Some e, acc, fs)
          | (inl [], fs) => Some (Some EIO, acc, fs)
          | (inl got, fs) => transfer_read fuel fs fd (acc ++ got) (size - length got)
          end
      end
  end.

(** Every turn of the loop but the last two uses up an answer of the script. *)
Definition transfer_fuel (fs : posix) : nat := S (S (length (px_script fs))).

(** [transfer]: the seek, then the loop. A failed seek leaves errno from it. *)
Definition transfer_out (fs : posix) (fd : Z) (data : list Z) (offset : Z)
    : option (option Z * posix) :=
  let '(at_, fs) := lseek_set fs fd offset in
  if negb (at_ =? offset) then Some (Some EBADF, fs) else transfer_write (transfer_fuel fs) fs fd data.

Definition transfer_in (fs : posix) (fd : Z) (size : nat) (offset : Z)
    : option (option Z * list Z * posix) :=
  let '(at_, fs) := lseek_set fs fd offset in
  if negb (at_ =? offset) then Some (Some EBADF, [], fs) else transfer_read (transfer_fuel fs) fs fd [] size.

(** The loop of [native_transfer]: what [rc] is at its end, if bytes are left. A
    write that succeeds is whole, so it is the last. *)
Definition native_out (fs : posix) (file offset : Z) (data : list Z) : option Z * posix :=
  match data with [] => (None, fs) | _ => native_write fs file offset data end.

Fixpoint native_in (fuel : nat) (fs : posix) (file offset : Z) (acc : list Z) (size : nat) : option (option Z * list Z * posix) :=
  match size with
  | O => Some (None, acc, fs)
  | _ =>
      match fuel with
      | O => None
      | S fuel =>
          match native_read fs file offset size with
          | (inr rc, fs) => Some (Some rc, acc, fs)
          | (inl [], fs) => Some (Some 0, acc, fs)
          | (inl got, fs) => native_in fuel fs file (offset + Z.of_nat (length got)) (acc ++ got) (size - length got)
          end
      end
  end.

(** [native_transfer]: [rc] goes to [fs_error] and the errno is EIO. *)
Definition native_failed (store : swap_store) (rc : option Z) : option Z * swap_store :=
  match rc with None => (None, store) | Some rc => (Some EIO, with_fs_error store rc) end.

Definition store_chunk (offset size : Z) : Z :=
  let at_ := offset mod SWAP_STORE_SEGMENT in
  if size <? SWAP_STORE_SEGMENT - at_ then size else SWAP_STORE_SEGMENT - at_.

Definition store_fd (store : swap_store) (offset : Z) : Z :=
  (if ss_native store then ss_files store else ss_fd store) !!! Z.to_nat (offset / SWAP_STORE_SEGMENT).

(** The transfer of a chunk, through the session or the descriptor. *)
Definition chunk_out (store : swap_store) (fs : posix) (file offset : Z) (data : list Z) : option (option Z * swap_store * posix) :=
  if ss_native store then
    let '(rc, fs) := native_out fs file offset data in Some (native_failed store rc, fs)
  else
    '(r, fs) ← transfer_out fs file data offset; Some (r, store, fs).

Definition chunk_in (store : swap_store) (fs : posix) (file offset : Z) (size : nat) : option (option Z * list Z * swap_store * posix) :=
  if ss_native store then
    '(rc, got, fs) ← native_in (transfer_fuel fs) fs file offset [] size;
    let '(r, store) := native_failed store rc in Some (r, got, store, fs)
  else
    '(r, got, fs) ← transfer_in fs file size offset; Some (r, got, store, fs).

(** The loop of [store_transfer] for each direction; [segs] bounds the
    segments it goes through, of which there are at most [SWAP_STORE_FILES]. *)
Fixpoint store_write_from (segs : nat) (store : swap_store) (fs : posix) (offset : Z)
    (data : list Z) : option (option Z * swap_store * posix) :=
  match data with
  | [] => Some (None, store, fs)
  | _ =>
      match segs with
      | O => None
      | S segs =>
          let chunk := Z.to_nat (store_chunk offset (Z.of_nat (length data))) in
          r ← chunk_out store fs (store_fd store offset)
                (HEADER_SIZE + offset mod SWAP_STORE_SEGMENT) (take chunk data);
          match r with
          | (Some e, store, fs) => Some (Some e, store, fs)
          | (None, store, fs) =>
              store_write_from segs store fs (u64 (offset + Z.of_nat chunk)) (drop chunk data)
          end
      end
  end.

Fixpoint store_read_from (segs : nat) (store : swap_store) (fs : posix) (offset : Z)
    (acc : list Z) (size : nat) : option (option Z * list Z * swap_store * posix) :=
  match size with
  | O => Some (None, acc, store, fs)
  | _ =>
      match segs with
      | O => None
      | S segs =>
          let chunk := Z.to_nat (store_chunk offset (Z.of_nat size)) in
          r ← chunk_in store fs (store_fd store offset)
                (HEADER_SIZE + offset mod SWAP_STORE_SEGMENT) chunk;
          match r with
          | (Some e, got, store, fs) => Some (Some e, acc ++ got, store, fs)
          | (None, got, store, fs) =>
              store_read_from segs store fs (u64 (offset + Z.of_nat chunk)) (acc ++ got)
                (size - chunk)
          end
      end
  end.

Definition store_refuses (store : swap_store) (offset size : Z) : bool :=
  (ss_size store <? offset) || (ss_size store - offset <? size).

Definition swap_store_write (store : swap_store) (fs : posix) (offset : Z)
    (data : list Z) : option (option Z * swap_store * posix) :=
  if store_refuses store offset (Z.of_nat (length data)) then Some (Some EINVAL, store, fs)
  else store_write_from SWAP_STORE_FILES store fs offset data.

Definition swap_store_read (store : swap_store) (fs : posix) (offset : Z)
    (size : nat) : option (option Z * list Z * swap_store * posix) :=
  if store_refuses store offset (Z.of_nat size) then Some (Some EINVAL, [], store, fs)
  else store_read_from SWAP_STORE_FILES store fs offset [] size.

(** The descriptors, files and session are closed and forgotten, and the store
    has no bytes. *)
Definition swap_store_close (store : swap_store) (fs : posix) : swap_store * posix :=
  let close fs fd := if 0 <=? fd then mk_posix (delete fd (px_files fs)) (px_pos fs) (px_script fs)
                     else fs in
  (mk_swap_store (replicate SWAP_STORE_FILES (-1)) 0 (ss_fs_error store) false (replicate SWAP_STORE_FILES (-1)),
   fold_left close (take SWAP_STORE_FILES (ss_files store)) (fold_left close (take SWAP_STORE_FILES (ss_fd store)) fs)).

(** An answer after which the transfer goes on: some bytes, or an interruption
    of a [read] or [write]. *)
Definition fine_answer (native : bool) (a : io_answer) : Prop :=
  match a with IoMoves n => n <> 0%nat | IoFails e _ => native = false /\ e = EINTR end.

Definition script_fine (native : bool) (fs : posix) : Prop := Forall (fine_answer native) (px_script fs).

(** What is left of a script. *)
Definition script_left (fs fs' : posix) : Prop := exists k, px_script fs' = drop k (px_script fs).

(** ** A transfer moves a prefix of its bytes, all of them on success *)

Lemma splice_nil {A} (l : list A) i : splice l i [] = l.
Proof. unfold splice. simpl. rewrite Nat.add_0_r. apply take_drop. Qed.

Lemma splice_take_split {A} (l data : list A) i n :
  (i + length data <= length l)%nat -> (n <= length data)%nat ->
  forall m, splice (splice l i (take n data)) (i + n) (take m (drop n data)) =
            splice l i (take (n + m) data).
Proof.
  intros Hl Hn m. assert (Hlt : length (take n data) = n) by (rewrite length_take; lia).
  apply list_eq. intros j.
  assert (Hm : (length (take m (drop n data)) <= length data - n)%nat)
    by (rewrite length_take, length_drop; lia).
  assert (Hnm : length (take (n + m) data) = (n + length (take m (drop n data)))%nat)
    by (rewrite !length_take, length_drop; lia).
  assert (Hs : length (splice l i (take n data)) = length l) by (apply length_splice; lia).
  destruct (decide (i + n <= j < i + n + length (take m (drop n data)))%nat).
  - rewrite lookup_splice_in by lia. rewrite lookup_splice_in by lia.
    rewrite length_take, length_drop in *. rewrite !lookup_take_lt by lia. rewrite lookup_drop.
    f_equal. lia.
  - rewrite lookup_splice_out by lia. destruct (decide (i <= j < i + n)%nat).
    + rewrite !lookup_splice_in by lia. by rewrite !lookup_take_lt by lia.
    + by rewrite !lookup_splice_out by lia.
Qed.

Lemma left_refl fs : script_left fs fs.
Proof. by exists 0%nat. Qed.

Lemma left_trans fs1 fs2 fs3 : script_left fs1 fs2 -> script_left fs2 fs3 -> script_left fs1 fs3.
Proof. intros [j Hj] [k Hk]. exists (j + k)%nat. by rewrite Hk, Hj, drop_drop. Qed.

Lemma left_length fs fs' : script_left fs fs' -> (length (px_script fs') <= length (px_script fs))%nat.
Proof. intros [k ->]. rewrite length_drop. lia. Qed.

Lemma left_fine native fs fs' : script_left fs fs' -> script_fine native fs -> script_fine native fs'.
Proof. unfold script_fine. intros [k ->]. apply Forall_drop. Qed.

Lemma left_same fs fs1 fs2 : px_script fs2 = px_script fs1 -> script_left fs fs1 -> script_left fs fs2.
Proof. intros E [k H]. exists k. congruence. Qed.

Lemma posix_answer_spec fs size a fs' :
  posix_answer fs size = (a, fs') ->
  px_files fs' = px_files fs /\ px_pos fs' = px_pos fs /\ script_left fs fs' /\
  (forall native, script_fine native fs -> size <> 0%nat -> match a with inl n => n <> 0%nat | inr e => native = false /\ e = EINTR end) /\
  (px_script fs = [] /\ a = inl size \/
   (length (px_script fs') < length (px_script fs))%nat /\ forall n, a = inl n -> (n <= size)%nat).
Proof.
  unfold posix_answer, script_fine, script_left. destruct (px_script fs) as [|[n|e torn] l] eqn:Hs; intros [= <- <-]; simpl.
  - rewrite Hs. split_and!; [done..|by exists 0%nat|done|by left].
  - split_and!; [done..|by exists 1%nat| |right; split; [lia|intros k [= <-]; lia]]. intros native H Hsz. apply Forall_cons in H as [H _]. simpl in H. lia.
  - split_and!; [done..|by exists 1%nat| |right; split; [lia|done]]. intros native H _. by apply Forall_cons in H as [H _].
Qed.

Lemma transfer_write_S fuel fs fd data : data <> [] ->
  transfer_write (S fuel) fs fd data =
  match posix_write fs fd data with
  | (inr e, fs) => if e =? EINTR then transfer_write fuel fs fd data else Some (Some e, fs)
  | (inl O, fs) => Some (Some EIO, fs)
  | (inl n, fs) => transfer_write fuel fs fd (drop n data)
  end.
Proof. by destruct data. Qed.

Lemma transfer_read_S fuel fs fd acc size : size <> 0%nat ->
  transfer_read (S fuel) fs fd acc size =
  match posix_read fs fd size with
  | (inr e, fs) => if e =? EINTR then transfer_read fuel fs fd acc size else Some (Some e, acc, fs)
  | (inl [], fs) => Some (Some EIO, acc, fs)
  | (inl got, fs) => transfer_read fuel fs fd (acc ++ got) (size - length got)
  end.
Proof. by destruct size. Qed.

Lemma transfer_write_spec fuel fs fd data c pos :
  px_files fs !! fd = Some c -> px_pos fs !! fd = Some pos -> 0 <= pos ->
  (Z.to_nat pos + length data <= length c)%nat -> (length (px_script fs) < fuel)%nat ->
  exists r fs' done, transfer_write fuel fs fd data = Some (r, fs') /\
    (done <= length data)%nat /\ (r = None -> done = length data) /\ (script_fine false fs -> r = None) /\
    px_files fs' = <[fd := splice c (Z.to_nat pos) (take done data)]> (px_files fs) /\ script_left fs fs'.
Proof.
  revert fs data c pos. induction fuel as [|fuel IH]; intros fs data c pos Hc Hpos H0 Hl Hfuel; [lia|].
  destruct data as [|b data']; [|set (data := b :: data') in *].
  { exists None, fs, 0%nat. cbn. split_and!; try done; [by rewrite splice_nil, insert_id|apply left_refl]. }
  assert (Hstop : forall (e : Z) fs', (script_fine false fs -> False) -> px_files fs' = px_files fs -> script_left fs fs' ->
    exists r' fs'' done, Some (Some e, fs') = Some (r', fs'') /\ (done <= length data)%nat /\
    (r' = None -> done = length data) /\ (script_fine false fs -> r' = None) /\
    px_files fs'' = <[fd := splice c (Z.to_nat pos) (take done data)]> (px_files fs) /\ script_left fs fs'').
  { intros e fs' Hr Hf Hsc. exists (Some e), fs', 0%nat. split_and!; try done; try lia.
    by rewrite Hf, take_0, splice_nil, insert_id. }
  assert (Hne : length data <> 0%nat) by done.
  rewrite (transfer_write_S fuel fs fd data) by done. clearbody data. clear b data'.
  unfold posix_write. rewrite Hc. destruct (posix_answer fs (length data)) as [a fs1] eqn:Ha.
  destruct (posix_answer_spec _ _ _ _ Ha) as (Hf1 & Hp1 & Hs1 & Hfine & Hcase).
  destruct a as [n|e].
  - rewrite Hp1, Hpos, Hf1. change (default 0 (Some pos)) with pos. cbv zeta.
    assert (Hn : (n <= length data)%nat) by (destruct Hcase as [(_ & [= <-])|[_ Hcase]]; auto).
    replace (Z.to_nat (pos + Z.of_nat n) - length c)%nat with 0%nat by lia.
    cbv zeta. change (replicate 0 0) with (@nil Z). rewrite app_nil_r. destruct n as [|n].
    { apply Hstop; [intros H; by apply (Hfine false H)|cbn; by rewrite take_0, splice_nil, insert_id|by apply (left_same fs fs1)]. }
    set (n' := S n) in *.
    assert (Hlt : length (take n' data) = n') by (rewrite length_take; lia).
    set (fs2 := mk_posix _ _ _). assert (Hs2 : script_left fs fs2) by (by apply (left_same fs fs1)).
    destruct (decide (length data = n')) as [Hall|Hpart].
    + exists None, fs2, n'. rewrite drop_ge by lia. split_and!; try done. by destruct fuel.
    + destruct (IH fs2 (drop n' data) (splice c (Z.to_nat pos) (take n' data)) (pos + Z.of_nat n'))
        as (r & fs' & dn & Hrun & Hdn & Hr & Hok & Hfs & Hsc).
      * apply lookup_insert_eq.
      * apply lookup_insert_eq.
      * lia.
      * rewrite length_splice, length_drop by lia. lia.
      * cbn. destruct Hcase as [(_ & [= ?])|[Hlt' _]]; lia.
      * exists r, fs', (n' + dn)%nat. rewrite length_drop in *. split_and!; [done|lia|intros E; rewrite Hr by done; lia| | |by apply (left_trans fs fs2)].
        -- intros H. apply Hok. by apply (left_fine false fs).
        -- rewrite Hfs. cbn. rewrite insert_insert_eq. f_equal.
           rewrite Z2Nat.inj_add, Nat2Z.id by lia. apply splice_take_split; lia.
  - destruct Hcase as [(_ & [=])|[Hlt _]]. destruct (e =? EINTR) eqn:He.
    + destruct (IH fs1 data c pos) as (r & fs' & dn & Hrun & Hdn & Hr & Hok & Hfs & Hsc); try done.
      * by rewrite Hf1.
      * by rewrite Hp1.
      * lia.
      * exists r, fs', dn. split_and!; [done..| |by rewrite Hfs, Hf1|by apply (left_trans fs fs1)]. intros H. apply Hok. by apply (left_fine false fs).
    + apply Hstop; [|done|done]. intros H. destruct (Hfine false H Hne) as [_ ->]. done.
Qed.

Lemma transfer_read_spec fuel fs fd acc size c pos :
  px_files fs !! fd = Some c -> px_pos fs !! fd = Some pos -> 0 <= pos ->
  (Z.to_nat pos + size <= length c)%nat -> (length (px_script fs) < fuel)%nat ->
  exists r got fs', transfer_read fuel fs fd acc size = Some (r, got, fs') /\
    (r = None -> got = acc ++ take size (drop (Z.to_nat pos) c)) /\ (script_fine false fs -> r = None) /\
    px_files fs' = px_files fs /\ script_left fs fs'.
Proof.
  revert fs acc size pos. induction fuel as [|fuel IH]; intros fs acc size pos Hc Hpos H0 Hl Hfuel; [lia|].
  destruct size as [|size']; [|set (size := S size') in *].
  { exists None, acc, fs. split_and!; try done; [|apply left_refl]. intros _. by rewrite take_0, app_nil_r. }
  assert (Hne : size <> 0%nat) by done.
  rewrite (transfer_read_S fuel fs fd acc size) by done. clearbody size. clear size'.
  unfold posix_read. rewrite Hc. destruct (posix_answer fs size) as [a fs1] eqn:Ha.
  destruct (posix_answer_spec _ _ _ _ Ha) as (Hf1 & Hp1 & Hs1 & Hfine & Hcase).
  destruct a as [n|e].
  - rewrite Hp1, Hpos, Hf1. change (default 0 (Some pos)) with pos. cbv zeta.
    assert (Hn : (n <= size)%nat) by (destruct Hcase as [(_ & [= <-])|[_ Hcase]]; auto).
    assert (Hlen : length (take n (drop (Z.to_nat pos) c)) = n) by (rewrite length_take, length_drop; lia).
    destruct (take n (drop (Z.to_nat pos) c)) as [|b l] eqn:Ht.
    { exists (Some EIO), acc, (mk_posix (px_files fs) (<[fd := pos + Z.of_nat 0]> (px_pos fs)) (px_script fs1)).
      split_and!; try done. intros H. simpl in Hlen. by destruct (Hfine false H Hne). }
    rewrite <- Ht in *. clear b l Ht. rewrite Hlen.
    destruct (decide (size = n)) as [->|Hpart].
    + rewrite Nat.sub_diag. eexists None, _, _. split_and!; [by destruct fuel|done|done|done|by apply (left_same fs fs1)].
    + match goal with |- context [transfer_read fuel ?fs2 fd ?acc2 _] => set (fs' := fs2);
        destruct (IH fs2 acc2 (size - n)%nat (pos + Z.of_nat n)) as (r & got & fs3 & Hrun & Hr & Hok & Hfs & Hsc) end.
      * done.
      * apply lookup_insert_eq.
      * lia.
      * lia.
      * cbn. destruct Hcase as [(_ & [= ?])|[Hlt' _]]; lia.
      * assert (Hs2 : script_left fs fs') by (by apply (left_same fs fs1)).
        exists r, got, fs3. split_and!; [done| |intros H; apply Hok; by apply (left_fine false fs)|by rewrite Hfs|by apply (left_trans fs fs')].
        intros E. rewrite Hr by done. rewrite <- app_assoc. f_equal.
        rewrite Z2Nat.inj_add, Nat2Z.id by lia. rewrite <- drop_drop.
        rewrite take_take_drop. f_equal. lia.
  - destruct Hcase as [(_ & [=])|[Hlt _]]. destruct (e =? EINTR) eqn:He.
    + destruct (IH fs1 acc size pos) as (r & got & fs' & Hrun & Hr & Hok & Hfs & Hsc); try done.
      * by rewrite Hf1.
      * by rewrite Hp1.
      * lia.
      * exists r, got, fs'. split_and!; [done..|intros H; apply Hok; by apply (left_fine false fs)|by rewrite Hfs, Hf1|by apply (left_trans fs fs1)].
    + exists (Some e), acc, fs1. split_and!; try done. intros H. destruct (Hfine false H Hne) as [_ ->]. done.
Qed.

Lemma native_in_spec fuel fs file acc size c pos :
  px_files fs !! file = Some c -> 0 <= pos ->
  (Z.to_nat pos + size <= length c)%nat -> (length (px_script fs) < fuel)%nat ->
  exists rc got fs', native_in fuel fs file pos acc size = Some (rc, got, fs') /\
    (rc = None -> got = acc ++ take size (drop (Z.to_nat pos) c)) /\ (script_fine true fs -> rc = None) /\
    px_files fs' = px_files fs /\ script_left fs fs'.
Proof.
  revert fs acc size pos. induction fuel as [|fuel IH]; intros fs acc size pos Hc H0 Hl Hfuel; [lia|].
  destruct (decide (size = 0%nat)) as [->|Hne].
  { exists None, acc, fs. split_and!; try done; [|apply left_refl]. intros _. by rewrite take_0, app_nil_r. }
  assert (Hunf : native_in (S fuel) fs file pos acc size = match native_read fs file pos size with
    | (inr rc, fs) => Some (Some rc, acc, fs) | (inl [], fs) => Some (Some 0, acc, fs)
    | (inl got, fs) => native_in fuel fs file (pos + Z.of_nat (length got)) (acc ++ got) (size - length got) end) by (by destruct size).
  rewrite Hunf. clear Hunf. unfold native_read. rewrite Hc. destruct (posix_answer fs size) as [a fs1] eqn:Ha.
  destruct (posix_answer_spec _ _ _ _ Ha) as (Hf1 & _ & Hs1 & Hfine & Hcase). destruct a as [n|e].
  2:{ exists (Some e), acc, fs1. split_and!; try done. intros H. by destruct (Hfine true H Hne). }
  assert (Hn : (n <= size)%nat) by (destruct Hcase as [(_ & [= <-])|[_ Hcase]]; auto).
  assert (Hlen : length (take n (drop (Z.to_nat pos) c)) = n) by (rewrite length_take, length_drop; lia).
  destruct (take n (drop (Z.to_nat pos) c)) as [|b l] eqn:Ht.
  { exists (Some 0), acc, fs1. split_and!; try done. intros H. simpl in Hlen. by destruct (Hfine true H Hne). }
  rewrite <- Ht in *. clear b l Ht. rewrite Hlen. destruct (decide (size = n)) as [->|Hpart].
  { rewrite Nat.sub_diag. eexists None, _, fs1. split_and!; [by destruct fuel|done|done|done|done]. }
  destruct (IH fs1 (acc ++ take n (drop (Z.to_nat pos) c)) (size - n)%nat (pos + Z.of_nat n)) as (rc & got & fs3 & Hrun & Hr & Hok & Hfs & Hsc);
    [by rewrite Hf1|lia|lia|destruct Hcase as [(_ & [= ?])|[Hlt' _]]; lia|].
  exists rc, got, fs3. split_and!; [done| |intros H; apply Hok; by apply (left_fine true fs)|by rewrite Hfs|by apply (left_trans fs fs1)].
  intros E. rewrite Hr by done. rewrite <- app_assoc. f_equal. rewrite Z2Nat.inj_add, Nat2Z.id by lia. rewrite <- drop_drop. rewrite take_take_drop. f_equal. lia.
Qed.

Lemma native_out_spec fs file data c pos :
  px_files fs !! file = Some c -> 0 <= pos -> (Z.to_nat pos + length data <= length c)%nat ->
  exists rc fs' done, native_out fs file pos data = (rc, fs') /\
    (done <= length data)%nat /\ (rc = None -> done = length data) /\ (script_fine true fs -> rc = None) /\
    px_files fs' = <[file := splice c (Z.to_nat pos) (take done data)]> (px_files fs) /\ script_left fs fs'.
Proof.
  intros Hc H0 Hl. unfold native_out. destruct data as [|b data']; [|set (data := b :: data') in *].
  { exists None, fs, 0%nat. split_and!; try done; [by rewrite take_0, splice_nil, insert_id|apply left_refl]. }
  clearbody data. clear b data'. unfold native_write, script_fine, script_left. rewrite Hc. destruct (px_script fs) as [|[n|rc torn] l]; eexists _, _.
  - exists (length data). split_and!; [done..|by exists 0%nat].
  - exists (length data). split_and!; [done..|by exists 1%nat].
  - exists (torn `min` length data)%nat. split_and!; [done|lia|done| | |by exists 1%nat].
    + intros H. apply Forall_cons in H as [[H _] _]. done.
    + simpl. rewrite <- take_take. by rewrite (take_ge data (length data)) by lia.
Qed.

(** ** The store as one array of bytes *)

Global Opaque SWAP_STORE_SEGMENT.

Lemma segment_pos : 0 < SWAP_STORE_SEGMENT < 2 ^ 31.
Proof. by vm_compute. Qed.

Definition store_byte (store : swap_store) (fs : posix) (o : Z) : option Z :=
  px_files fs !! store_fd store o ≫= fun c => c !! Z.to_nat (HEADER_SIZE + o mod SWAP_STORE_SEGMENT).

(** Segment [i] exists, and its descriptor. *)
Definition segment_in (store : swap_store) (i : Z) : Prop :=
  0 <= i /\ i * SWAP_STORE_SEGMENT < ss_size store.
Definition segment_fd (store : swap_store) (i : Z) : Z := (if ss_native store then ss_files store else ss_fd store) !!! Z.to_nat i.

Record store_wf (store : swap_store) (fs : posix) : Prop := {
  sw_size : 0 <= ss_size store <= Z.of_nat SWAP_STORE_FILES * SWAP_STORE_SEGMENT;
  sw_file i : segment_in store i -> exists c, px_files fs !! segment_fd store i = Some c /\
    Z.of_nat (length c) = HEADER_SIZE + Z.min SWAP_STORE_SEGMENT (ss_size store - i * SWAP_STORE_SEGMENT);
  sw_inj i j : segment_in store i -> segment_in store j -> segment_fd store i = segment_fd store j -> i = j
}.

Lemma segment_of store o : 0 <= o < ss_size store -> segment_in store (o / SWAP_STORE_SEGMENT).
Proof.
  pose proof segment_pos. intros Ho. split; [apply Z.div_pos; lia|].
  pose proof (Z.div_mod o SWAP_STORE_SEGMENT ltac:(lia)).
  pose proof (Z.mod_pos_bound o SWAP_STORE_SEGMENT ltac:(lia)). lia.
Qed.

(** A chunk lies in one segment and the next one starts a segment. *)
Lemma store_chunk_spec store offset n :
  0 <= offset -> 0 < n -> offset + n <= ss_size store ->
  let m := store_chunk offset n in
  0 < m <= n /\ offset mod SWAP_STORE_SEGMENT + m <= SWAP_STORE_SEGMENT /\
  offset mod SWAP_STORE_SEGMENT + m <=
    Z.min SWAP_STORE_SEGMENT (ss_size store - offset / SWAP_STORE_SEGMENT * SWAP_STORE_SEGMENT) /\
  (m < n -> (offset + m) / SWAP_STORE_SEGMENT = offset / SWAP_STORE_SEGMENT + 1).
Proof.
  intros Ho Hn Hs. unfold store_chunk. pose proof segment_pos.
  pose proof (Z.mod_pos_bound offset SWAP_STORE_SEGMENT ltac:(lia)).
  pose proof (Z.div_mod offset SWAP_STORE_SEGMENT ltac:(lia)). case_if; btrue.
  - split_and!; try lia.
  - split_and!; try lia. intros _.
    replace (offset + (SWAP_STORE_SEGMENT - offset mod SWAP_STORE_SEGMENT))
      with ((offset / SWAP_STORE_SEGMENT + 1) * SWAP_STORE_SEGMENT) by lia.
    apply Z.div_mul. lia.
Qed.

(** Bytes of the chunk at [offset]: same segment, consecutive positions. *)
Lemma chunk_byte offset m o :
  0 <= offset -> offset mod SWAP_STORE_SEGMENT + m <= SWAP_STORE_SEGMENT -> offset <= o < offset + m ->
  o / SWAP_STORE_SEGMENT = offset / SWAP_STORE_SEGMENT /\
  o mod SWAP_STORE_SEGMENT = offset mod SWAP_STORE_SEGMENT + (o - offset).
Proof.
  intros H0 Hm Ho. pose proof segment_pos.
  pose proof (Z.mod_pos_bound offset SWAP_STORE_SEGMENT ltac:(lia)).
  pose proof (Z.div_mod offset SWAP_STORE_SEGMENT ltac:(lia)).
  assert (o = SWAP_STORE_SEGMENT * (offset / SWAP_STORE_SEGMENT) + (offset mod SWAP_STORE_SEGMENT + (o - offset))) by lia.
  split; symmetry; [eapply Z.div_unique|eapply Z.mod_unique]; try eassumption; left; lia.
Qed.

(** Writing part of the file of one segment. *)
Lemma store_write_segment store fs fs' offset m c data :
  store_wf store fs -> 0 <= offset < ss_size store -> Z.of_nat (length data) <= m ->
  offset mod SWAP_STORE_SEGMENT + m <= SWAP_STORE_SEGMENT ->
  offset mod SWAP_STORE_SEGMENT + m <=
    Z.min SWAP_STORE_SEGMENT (ss_size store - offset / SWAP_STORE_SEGMENT * SWAP_STORE_SEGMENT) ->
  px_files fs !! store_fd store offset = Some c ->
  px_files fs' = <[store_fd store offset :=
     splice c (Z.to_nat (HEADER_SIZE + offset mod SWAP_STORE_SEGMENT)) data]> (px_files fs) ->
  store_wf store fs' /\
  forall o, 0 <= o < ss_size store -> store_byte store fs' o =
    if bool_decide (offset <= o < offset + Z.of_nat (length data))
    then data !! Z.to_nat (o - offset) else store_byte store fs o.
Proof.
  intros [Hsz Hfile Hinj] Ho Hdata Hseg Hmin Hc Hfs. pose proof segment_pos.
  pose proof (Z.mod_pos_bound offset SWAP_STORE_SEGMENT ltac:(lia)).
  destruct (Hfile _ (segment_of store offset Ho)) as (c0 & Hc0 & Hlen).
  assert (c0 = c) as -> by (unfold segment_fd in Hc0; unfold store_fd in Hc; congruence).
  set (at_ := Z.to_nat (HEADER_SIZE + offset mod SWAP_STORE_SEGMENT)) in *.
  assert (Hfit : (at_ + length data <= length c)%nat) by (unfold HEADER_SIZE in *; lia).
  split; [constructor; [done| |done]|].
  - intros i Hi. destruct (Hfile i Hi) as (ci & Hci & Hli). rewrite Hfs.
    destruct (decide (segment_fd store i = store_fd store offset)) as [E|E].
    + rewrite E, lookup_insert_eq. eexists. split; [done|]. rewrite length_splice by done.
      rewrite E in Hci. by assert (ci = c) as <- by congruence.
    + rewrite lookup_insert_ne by done. eauto.
  - intros o Ho'. unfold store_byte. rewrite Hfs. pose proof (segment_of store o Ho') as Hso.
    pose proof (segment_of store offset Ho) as Hsoff.
    destruct (decide (o / SWAP_STORE_SEGMENT = offset / SWAP_STORE_SEGMENT)) as [E|E].
    + assert (Ef : store_fd store o = store_fd store offset) by (unfold store_fd; by rewrite E).
      rewrite Ef, Hc, lookup_insert_eq. cbn [mbind option_bind].
      pose proof (Z.mod_pos_bound o SWAP_STORE_SEGMENT ltac:(lia)).
      pose proof (Z.div_mod o SWAP_STORE_SEGMENT ltac:(lia)) as D1.
      pose proof (Z.div_mod offset SWAP_STORE_SEGMENT ltac:(lia)) as D2. rewrite E in D1.
      unfold HEADER_SIZE in *. case_bool_decide.
      * rewrite lookup_splice_in by lia. f_equal. lia.
      * rewrite lookup_splice_out by lia. done.
    + rewrite lookup_insert_ne.
      * case_bool_decide as Hr; [|done].
        destruct (chunk_byte offset m o) as [E' _]; [lia..|]. done.
      * intros Ef. apply E. symmetry. by apply (Hinj _ _ Hsoff Hso).
Qed.

Lemma lseek_ok fs fd c offset : px_files fs !! fd = Some c -> 0 <= offset ->
  lseek_set fs fd offset =
  (offset, mk_posix (px_files fs) (<[fd := offset]> (px_pos fs)) (px_script fs)).
Proof.
  intros Hc Ho. unfold lseek_set. rewrite Hc. replace (0 <=? offset) with true by lia. done.
Qed.

(** Bytes [offset] to [offset + done] of the store become the first of [data]. *)
Definition store_written (store : swap_store) (fs fs' : posix) (offset : Z) (data : list Z)
    (done : nat) : Prop :=
  forall o, 0 <= o < ss_size store -> store_byte store fs' o =
    if bool_decide (offset <= o < offset + Z.of_nat done)
    then data !! Z.to_nat (o - offset) else store_byte store fs o.

Lemma store_written_step store fs fs1 fs2 offset data n done :
  (n <= length data)%nat ->
  store_written store fs fs1 offset (take n data) n ->
  store_written store fs1 fs2 (offset + Z.of_nat n) (drop n data) done ->
  store_written store fs fs2 offset data (n + done).
Proof.
  intros Hn H1 H2 o Ho. rewrite (H2 o Ho), (H1 o Ho), lookup_drop.
  repeat case_bool_decide; try lia; [f_equal; lia| |done]. by rewrite lookup_take_lt by lia.
Qed.

Lemma store_offset_small store fs offset :
  store_wf store fs -> 0 <= offset <= ss_size store -> u64 offset = offset.
Proof.
  intros [Hsz _ _] Ho. apply u64_small. pose proof segment_pos. unfold is_u64, SWAP_STORE_FILES in *. lia.
Qed.

Lemma store_segs_left store fs offset (segs : nat) :
  store_wf store fs -> 0 <= offset < ss_size store ->
  Z.of_nat SWAP_STORE_FILES <= Z.of_nat segs + offset / SWAP_STORE_SEGMENT -> segs <> 0%nat.
Proof.
  intros [Hsz _ _] Ho Hseg ->. pose proof segment_pos.
  assert (offset / SWAP_STORE_SEGMENT < Z.of_nat SWAP_STORE_FILES)
    by (apply Z.div_lt_upper_bound; lia). lia.
Qed.

(** Only the last error of the file system changes. *)
Definition store_like (store store' : swap_store) : Prop := exists rc, store' = with_fs_error store rc.

Lemma like_refl store : store_like store store.
Proof. exists (ss_fs_error store). by destruct store. Qed.

Lemma like_trans s1 s2 s3 : store_like s1 s2 -> store_like s2 s3 -> store_like s1 s3.
Proof. intros [e1 ->] [e2 ->]. by exists e2. Qed.

Lemma like_wf store store' fs : store_like store store' -> store_wf store fs -> store_wf store' fs.
Proof. by intros [rc ->] []. Qed.

Lemma chunk_out_spec store fs file offset data c :
  px_files fs !! file = Some c -> 0 <= offset -> (Z.to_nat offset + length data <= length c)%nat ->
  exists r store' fs' done, chunk_out store fs file offset data = Some (r, store', fs') /\ store_like store store' /\
    (done <= length data)%nat /\ (r = None -> done = length data) /\ (script_fine (ss_native store) fs -> r = None) /\
    px_files fs' = <[file := splice c (Z.to_nat offset) (take done data)]> (px_files fs) /\ script_left fs fs'.
Proof.
  intros Hc H0 Hl. unfold chunk_out. destruct (ss_native store).
  - destruct (native_out_spec fs file data c offset Hc H0 Hl) as (rc & fs' & dn & -> & H1 & H2 & H3 & H4 & H5). exists (fst (native_failed store rc)), (snd (native_failed store rc)), fs', dn.
    destruct rc as [rc|]; (split_and!; [done|by apply like_refl || by exists rc|done|done| |done|done]); [intros H; by specialize (H3 H)|done].
  - unfold transfer_out. rewrite (lseek_ok _ _ c) by done. rewrite Z.eqb_refl. cbn [negb].
    match goal with |- context [transfer_write _ ?fs1 _ _] => destruct (transfer_write_spec (transfer_fuel fs1) fs1 file data c offset) as (r & fs2 & dn & -> & H1 & H2 & H3 & H4 & H5) end;
      [done|apply lookup_insert_eq|done|done|unfold transfer_fuel; simpl; lia|].
    exists r, store, fs2, dn. split_and!; [done|apply like_refl|done..].
Qed.

Lemma chunk_in_spec store fs file offset size c :
  px_files fs !! file = Some c -> 0 <= offset -> (Z.to_nat offset + size <= length c)%nat ->
  exists r got store' fs', chunk_in store fs file offset size = Some (r, got, store', fs') /\ store_like store store' /\
    (r = None -> got = take size (drop (Z.to_nat offset) c)) /\ (script_fine (ss_native store) fs -> r = None) /\
    px_files fs' = px_files fs /\ script_left fs fs'.
Proof.
  intros Hc H0 Hl. unfold chunk_in. destruct (ss_native store).
  - destruct (native_in_spec (transfer_fuel fs) fs file [] size c offset Hc H0 Hl) as (rc & got & fs' & -> & H1 & H2 & H3 & H4); [unfold transfer_fuel; lia|]. cbn [mbind option_bind].
    exists (fst (native_failed store rc)), got, (snd (native_failed store rc)), fs'.
    destruct rc as [rc|]; (split_and!; [done|by apply like_refl || by exists rc|by intros H; try apply H1|by intros H; specialize (H2 H)|done|done]).
  - unfold transfer_in. rewrite (lseek_ok _ _ c) by done. rewrite Z.eqb_refl. cbn [negb].
    match goal with |- context [transfer_read _ ?fs1 _ _ _] => destruct (transfer_read_spec (transfer_fuel fs1) fs1 file [] size c offset) as (r & got & fs2 & -> & H1 & H2 & H3 & H4) end;
      [done|apply lookup_insert_eq|done|done|unfold transfer_fuel; simpl; lia|].
    exists r, got, store, fs2. split_and!; [done|apply like_refl|done..].
Qed.

Lemma store_write_from_spec segs store fs offset data :
  store_wf store fs -> 0 <= offset -> offset + Z.of_nat (length data) <= ss_size store ->
  Z.of_nat SWAP_STORE_FILES <= Z.of_nat segs + offset / SWAP_STORE_SEGMENT ->
  exists r store' fs' done, store_write_from segs store fs offset data = Some (r, store', fs') /\ store_like store store' /\
    store_wf store fs' /\ (done <= length data)%nat /\ (r = None -> done = length data) /\ (script_fine (ss_native store) fs -> r = None) /\
    store_written store fs fs' offset data done /\ script_left fs fs'.
Proof.
  revert store fs offset data. induction segs as [|segs IH]; intros store fs offset data Hwf H0 Hs Hseg;
    (destruct (decide (data = [])) as [->|Hne];
     [exists None, store, fs, 0%nat; split_and!; try done; [apply like_refl|intros o Ho; case_bool_decide; [lia|done]|apply left_refl]|]);
    assert (Hlen : (0 < length data)%nat) by (by destruct data; [|simpl; lia]).
  { by destruct (store_segs_left store fs offset 0%nat Hwf ltac:(lia)). }
  destruct (store_chunk_spec store offset (Z.of_nat (length data)) H0 ltac:(lia) Hs) as (Hm & Hm1 & Hm2 & Hnext).
  set (m := store_chunk offset (Z.of_nat (length data))) in *. set (n := Z.to_nat m).
  pose proof segment_pos. pose proof (Z.mod_pos_bound offset SWAP_STORE_SEGMENT ltac:(lia)) as Hmod.
  destruct (sw_file _ _ Hwf _ (segment_of store offset ltac:(lia))) as (c & Hc & Hlc).
  change (segment_fd store (offset / SWAP_STORE_SEGMENT)) with (store_fd store offset) in Hc.
  assert (Hunf : store_write_from (S segs) store fs offset data =
    (r ← chunk_out store fs (store_fd store offset) (HEADER_SIZE + offset mod SWAP_STORE_SEGMENT) (take n data);
     match r with
     | (Some e, store, fs) => Some (Some e, store, fs)
     | (None, store, fs) => store_write_from segs store fs (u64 (offset + Z.of_nat n)) (drop n data)
     end)) by (by destruct data).
  rewrite Hunf. clear Hunf.
  destruct (chunk_out_spec store fs (store_fd store offset) (HEADER_SIZE + offset mod SWAP_STORE_SEGMENT) (take n data) c)
    as (r & store1 & fs2 & dn & Hrun & Hlike & Hdn & Hr & Hfine & Hfs & Hsc);
    [done|unfold HEADER_SIZE; lia|unfold HEADER_SIZE in *; rewrite length_take; lia|].
  rewrite Hrun. cbn [mbind option_bind]. rewrite length_take in Hdn, Hr.
  destruct (store_write_segment store fs fs2 offset m c (take dn (take n data))) as [Hwf2 Hb];
    [done|lia|rewrite !length_take; lia|done|done|done|exact Hfs|].
  rewrite take_take, length_take in Hb. replace (dn `min` n)%nat with dn in Hb by lia.
  replace (dn `min` length data)%nat with dn in Hb by lia. destruct r as [e|].
  { exists (Some e), store1, fs2, dn. split_and!; try done; [lia|]. intros o Ho. rewrite (Hb o Ho).
    case_bool_decide; [|done]. by rewrite lookup_take_lt by lia. }
  specialize (Hr eq_refl). assert (dn = n) as -> by lia.
  rewrite (store_offset_small store fs2) by (done || lia).
  destruct Hlike as [rc ->]. destruct (decide (m < Z.of_nat (length data))) as [Hlt|Hge].
  - destruct (IH (with_fs_error store rc) fs2 (offset + Z.of_nat n) (drop n data)) as (r & store2 & fs' & d2 & Hrun2 & Hl2 & Hwf' & Hd2 & Hr2 & Hf2 & Hw & Hs2).
    1: apply (like_wf store); [by exists rc|done].
    1-2: rewrite ?length_drop; simpl; lia.
    1: replace (offset + Z.of_nat n) with (offset + m) by lia; rewrite (Hnext Hlt); lia.
    rewrite length_drop in *. exists r, store2, fs', (n + d2)%nat.
    split_and!; [done|apply (like_trans store (with_fs_error store rc)); [by exists rc|done]|by destruct Hwf'|lia|intros E; rewrite Hr2 by done; lia|intros H1; apply Hf2; by apply (left_fine _ fs)| |by apply (left_trans fs fs2)].
    by eapply store_written_step; [lia| |].
  - rewrite drop_ge by lia. exists None, (with_fs_error store rc), fs2, n. split_and!; [by destruct segs|by exists rc|done|lia|lia|done| |done].
    intros o Ho. rewrite (Hb o Ho). case_bool_decide; [|done]. by rewrite lookup_take_lt by lia.
Qed.

Lemma store_read_from_spec segs store fs offset acc size :
  store_wf store fs -> 0 <= offset -> offset + Z.of_nat size <= ss_size store ->
  Z.of_nat SWAP_STORE_FILES <= Z.of_nat segs + offset / SWAP_STORE_SEGMENT ->
  exists r got store' fs', store_read_from segs store fs offset acc size = Some (r, got, store', fs') /\ store_like store store' /\
    px_files fs' = px_files fs /\ (script_fine (ss_native store) fs -> r = None) /\ script_left fs fs' /\
    (r = None -> exists data, got = acc ++ data /\ length data = size /\
       forall j, (j < size)%nat -> data !! j = store_byte store fs (offset + Z.of_nat j)).
Proof.
  revert store fs offset acc size. induction segs as [|segs IH]; intros store fs offset acc size Hwf H0 Hs Hseg;
    (destruct (decide (size = 0%nat)) as [->|Hne];
     [exists None, acc, store, fs; split_and!; try done; [apply like_refl|apply left_refl|]; intros _; exists []; split_and!; try done;
      [by rewrite app_nil_r|lia]|]).
  { by destruct (store_segs_left store fs offset 0%nat Hwf ltac:(lia)). }
  destruct (store_chunk_spec store offset (Z.of_nat size) H0 ltac:(lia) Hs) as (Hm & Hm1 & Hm2 & Hnext).
  set (m := store_chunk offset (Z.of_nat size)) in *. set (n := Z.to_nat m).
  pose proof segment_pos. pose proof (Z.mod_pos_bound offset SWAP_STORE_SEGMENT ltac:(lia)) as Hmod.
  destruct (sw_file _ _ Hwf _ (segment_of store offset ltac:(lia))) as (c & Hc & Hlc).
  change (segment_fd store (offset / SWAP_STORE_SEGMENT)) with (store_fd store offset) in Hc.
  assert (Hunf : store_read_from (S segs) store fs offset acc size =
    (r ← chunk_in store fs (store_fd store offset) (HEADER_SIZE + offset mod SWAP_STORE_SEGMENT) n;
     match r with
     | (Some e, got, store, fs) => Some (Some e, acc ++ got, store, fs)
     | (None, got, store, fs) =>
         store_read_from segs store fs (u64 (offset + Z.of_nat n)) (acc ++ got) (size - n)
     end)) by (by destruct size).
  rewrite Hunf. clear Hunf.
  destruct (chunk_in_spec store fs (store_fd store offset) (HEADER_SIZE + offset mod SWAP_STORE_SEGMENT) n c)
    as (r & got & store1 & fs2 & Hrun & Hlike & Hr & Hfine & Hfs & Hsc); [done|unfold HEADER_SIZE; lia|unfold HEADER_SIZE in *; lia|].
  rewrite Hrun. cbn [mbind option_bind]. destruct r as [e|].
  { exists (Some e), (acc ++ got), store1, fs2. by split_and!. }
  specialize (Hr eq_refl).
  assert (Hgl : length got = n) by (rewrite Hr, length_take, length_drop; unfold HEADER_SIZE in *; lia).
  assert (Hgb : forall j, (j < n)%nat -> got !! j = store_byte store fs (offset + Z.of_nat j)).
  { intros j Hj. destruct (chunk_byte offset m (offset + Z.of_nat j)) as [Hd Hmo]; [lia..|].
    unfold store_byte, store_fd. rewrite Hd. fold (store_fd store offset). rewrite Hc. cbn [mbind option_bind].
    rewrite Hr, lookup_take_lt, lookup_drop, Hmo by lia. f_equal. unfold HEADER_SIZE. lia. }
  assert (Hwf2 : store_wf store fs2).
  { destruct Hwf as [? Hf ?]. constructor; [done| |done]. intros i Hi. rewrite Hfs. by apply Hf. }
  rewrite (store_offset_small store fs2) by (done || lia).
  destruct Hlike as [rc ->]. destruct (decide (m < Z.of_nat size)) as [Hlt|Hge].
  - destruct (IH (with_fs_error store rc) fs2 (offset + Z.of_nat n) (acc ++ got) (size - n)%nat)
      as (r & got2 & store2 & fs' & Hrun2 & Hl2 & Hfs' & Hf2 & Hs2 & Hr2).
    1: apply (like_wf store); [by exists rc|done].
    1-2: simpl; lia.
    1: replace (offset + Z.of_nat n) with (offset + m) by lia; rewrite (Hnext Hlt); lia.
    exists r, got2, store2, fs'. split_and!; [done|apply (like_trans store (with_fs_error store rc)); [by exists rc|done]|congruence|intros H1; apply Hf2; by apply (left_fine _ fs)|by apply (left_trans fs fs2)|]. intros E.
    destruct (Hr2 E) as (d & Hgot & Hd & Hdb). exists (got ++ d).
    split_and!; [by rewrite app_assoc|rewrite length_app; lia|]. intros j Hj.
    destruct (decide (j < n)%nat); [rewrite lookup_app_l by lia; by apply Hgb|].
    rewrite lookup_app_r by lia. rewrite Hdb by lia. unfold store_byte. rewrite Hfs.
    by replace (offset + Z.of_nat n + Z.of_nat (j - length got)) with (offset + Z.of_nat j) by lia.
  - replace (size - n)%nat with 0%nat by lia. exists None, (acc ++ got), (with_fs_error store rc), fs2.
    split_and!; [by destruct segs|by exists rc|done|done|done|]. intros _. exists got. split_and!; [done|lia|].
    intros j Hj. apply Hgb. lia.
Qed.

(** ** What the store promises its client *)

Class SwapStore (St : Type) := {
  st_ok : St -> Prop;
  st_fine : St -> Prop;   (** no call of the system below is going to fail *)
  st_size : St -> Z;
  st_byte : St -> Z -> option Z;
  st_write : St -> Z -> list Z -> option (option Z * St);
  st_read : St -> Z -> nat -> option (option Z * list Z * St);
  st_close : St -> St;
  st_size_range s : st_ok s -> 0 <= st_size s <= 2 ^ 33;
  st_write_ok s offset data : st_ok s -> 0 <= offset -> offset + Z.of_nat (length data) <= st_size s ->
    exists r s', st_write s offset data = Some (r, s') /\ st_ok s' /\ st_size s' = st_size s /\
      (st_fine s -> r = None /\ st_fine s') /\
      exists done, (done <= length data)%nat /\ (r = None -> done = length data) /\
      forall o, 0 <= o < st_size s -> st_byte s' o =
        if bool_decide (offset <= o < offset + Z.of_nat done)
        then data !! Z.to_nat (o - offset) else st_byte s o;
  st_read_ok s offset size : st_ok s -> 0 <= offset -> offset + Z.of_nat size <= st_size s ->
    exists r got s', st_read s offset size = Some (r, got, s') /\ st_ok s' /\ st_size s' = st_size s /\
      (st_fine s -> r = None /\ st_fine s') /\
      (forall o, 0 <= o < st_size s -> st_byte s' o = st_byte s o) /\
      (r = None -> length got = size /\
         forall j, (j < size)%nat -> got !! j = st_byte s (offset + Z.of_nat j))
}.

Lemma store_refuses_fits store offset n :
  0 <= offset -> 0 <= n -> store_refuses store offset n = negb (offset + n <=? ss_size store).
Proof.
  intros Ho Hn. unfold store_refuses. destruct (Z.leb_spec (offset + n) (ss_size store)); simpl.
  - apply orb_false_iff. split; lia.
  - apply orb_true_iff. destruct (decide (ss_size store < offset)); [left|right]; lia.
Qed.

Lemma swap_store_write_fits store fs offset data :
  store_wf store fs -> 0 <= offset -> offset + Z.of_nat (length data) <= ss_size store ->
  exists r store' fs', swap_store_write store fs offset data = Some (r, store', fs') /\ store_like store store' /\ store_wf store fs' /\ script_left fs fs' /\
    (script_fine (ss_native store) fs -> r = None) /\
    exists done, (done <= length data)%nat /\ (r = None -> done = length data) /\
    store_written store fs fs' offset data done.
Proof.
  intros Hwf Ho Hs. unfold swap_store_write. rewrite store_refuses_fits by lia.
  replace (_ <=? ss_size store) with true by lia. cbn [negb].
  destruct (store_write_from_spec SWAP_STORE_FILES store fs offset data Hwf Ho Hs)
    as (r & store' & fs' & dn & Hrun & Hlike & Hwf' & H1 & H2 & H3 & H4 & H5); [|by eauto 15].
  pose proof segment_pos. pose proof (Z.div_pos offset SWAP_STORE_SEGMENT). lia.
Qed.

Lemma swap_store_read_fits store fs offset size :
  store_wf store fs -> 0 <= offset -> offset + Z.of_nat size <= ss_size store ->
  exists r got store' fs', swap_store_read store fs offset size = Some (r, got, store', fs') /\ store_like store store' /\
    px_files fs' = px_files fs /\ script_left fs fs' /\ (script_fine (ss_native store) fs -> r = None) /\
    (r = None -> length got = size /\
       forall j, (j < size)%nat -> got !! j = store_byte store fs (offset + Z.of_nat j)).
Proof.
  intros Hwf Ho Hs. unfold swap_store_read. rewrite store_refuses_fits by lia.
  replace (_ <=? ss_size store) with true by lia. cbn [negb].
  destruct (store_read_from_spec SWAP_STORE_FILES store fs offset [] size Hwf Ho Hs)
    as (r & got & store' & fs' & Hrun & Hlike & Hf & Hfine & Hleft & Hr).
  { pose proof segment_pos. pose proof (Z.div_pos offset SWAP_STORE_SEGMENT). lia. }
  exists r, got, store', fs'. split_and!; [done..|]. intros E. destruct (Hr E) as (d & -> & Hl & Hb). done.
Qed.

Lemma store_wf_files store fs fs' :
  store_wf store fs -> px_files fs' = px_files fs -> store_wf store fs'.
Proof. intros [] E. constructor; [done| |done]. rewrite E. done. Qed.

(** The segmented files implement the interface. *)
#[export, refine] Instance segmented_store : SwapStore (swap_store * posix) := {
  st_ok s := store_wf (fst s) (snd s);
  st_fine s := script_fine (ss_native (fst s)) (snd s);
  st_size s := ss_size (fst s);
  st_byte s := store_byte (fst s) (snd s);
  st_write s offset data :=
    '(r, store, fs) ← swap_store_write (fst s) (snd s) offset data; Some (r, (store, fs));
  st_read s offset size :=
    '(r, got, store, fs) ← swap_store_read (fst s) (snd s) offset size; Some (r, got, (store, fs));
  st_close s := swap_store_close (fst s) (snd s)
}.
Proof.
  - intros [store fs] [Hsz _ _]. simpl in *. split; [lia|].
    assert (Z.of_nat SWAP_STORE_FILES * SWAP_STORE_SEGMENT = 2 ^ 33) by (by vm_compute). lia.
  - intros [store fs] offset data Hwf Ho Hs. simpl in *.
    destruct (swap_store_write_fits store fs offset data Hwf Ho Hs) as (r & store' & fs' & Hrun & [rc ->] & Hwf' & Hleft & Hfine & H1).
    rewrite Hrun. exists r, (with_fs_error store rc, fs'). split_and!; try done; [apply (like_wf store); [by exists rc|done]|].
    intros H. split; [by apply Hfine|]. by apply (left_fine _ fs).
  - intros [store fs] offset size Hwf Ho Hs. simpl in *.
    destruct (swap_store_read_fits store fs offset size Hwf Ho Hs) as (r & got & store' & fs' & Hrun & [rc ->] & Hf & Hleft & Hfine & Hr).
    rewrite Hrun. exists r, got, (with_fs_error store rc, fs'). split_and!; try done.
    + apply (like_wf store); [by exists rc|]. by eapply store_wf_files.
    + intros H. split; [by apply Hfine|]. by apply (left_fine _ fs).
    + intros o Ho'. unfold store_byte. simpl. by rewrite Hf.
Defined.

(** C32: a store of well-formed segment files is one array of bytes, through
    POSIX descriptors and through a session of its own. Whatever short counts,
    interruptions and errors the system answers with, a write or read returns; a
    write that succeeds leaves exactly its bytes changed, to the data, also
    across segment boundaries, and one that fails has written a prefix; a read
    that succeeds gives the bytes of its range and changes no file; short counts
    and interruptions of a descriptor do not make either fail; a range that does
    not fit is refused with EINVAL. *)
Theorem swap_store_is_array store fs offset data size :
  store_wf store fs -> is_u64 offset ->
  (exists r store' fs', swap_store_write store fs offset data = Some (r, store', fs') /\ store_wf store' fs' /\
     if bool_decide (offset + Z.of_nat (length data) <= ss_size store)
     then (script_fine (ss_native store) fs -> r = None) /\
          exists done, (done <= length data)%nat /\ (r = None -> done = length data) /\
            store_written store fs fs' offset data done
     else r = Some EINVAL /\ fs' = fs) /\
  (exists r got store' fs', swap_store_read store fs offset size = Some (r, got, store', fs') /\
     px_files fs' = px_files fs /\
     if bool_decide (offset + Z.of_nat size <= ss_size store)
     then (script_fine (ss_native store) fs -> r = None) /\
          (r = None -> length got = size /\
            forall j, (j < size)%nat -> got !! j = store_byte store fs (offset + Z.of_nat j))
     else r = Some EINVAL).
Proof.
  intros Hwf [Ho _]. split; case_bool_decide as Hfit.
  - destruct (swap_store_write_fits store fs offset data Hwf Ho Hfit) as (r & store' & fs' & H1 & H2 & H3 & _ & H). exists r, store', fs'. split; [done|]. split; [by apply (like_wf store)|done].
  - exists (Some EINVAL), store, fs. split; [|done]. unfold swap_store_write.
    rewrite store_refuses_fits by lia. by replace (_ <=? ss_size store) with false by lia.
  - destruct (swap_store_read_fits store fs offset size Hwf Ho Hfit) as (r & got & store' & fs' & H1 & _ & H2 & _ & H). by exists r, got, store', fs'.
  - exists (Some EINVAL), [], store, fs. split; [|done]. unfold swap_store_read.
    rewrite store_refuses_fits by lia. by replace (_ <=? ss_size store) with false by lia.
Qed.

(** ** Witness: eight bytes of a session's file, and of a descriptor with an
    interrupted and a short write *)

Definition store_example (native : bool) : swap_store := mk_swap_store [3] 8 0 native [4].
Definition posix_example : posix :=
  mk_posix {[3 := replicate 4104 0; 4 := replicate 4104 1]} ∅ [IoFails EINTR 0; IoMoves 2].

Lemma store_example_wf native : store_wf (store_example native) posix_example.
Proof.
  assert (Hi : forall i, segment_in (store_example native) i -> i = 0).
  { intros i [H1 H2]. assert (8 < SWAP_STORE_SEGMENT) by (by vm_compute). simpl in H2. nia. }
  constructor.
  - pose proof segment_pos. simpl. unfold SWAP_STORE_FILES. lia.
  - intros i Hin. rewrite (Hi i Hin). exists (replicate 4104 (if native then 1 else 0)). split; [by destruct native|].
    rewrite length_replicate. simpl. pose proof segment_pos.
    assert (8 < SWAP_STORE_SEGMENT) by (by vm_compute). unfold HEADER_SIZE. lia.
  - intros i j H1 H2 _. by rewrite (Hi i H1), (Hi j H2).
Qed.

Lemma swap_store_is_array_witness :
  (exists store' fs', swap_store_write (store_example false) posix_example 2 [7; 8; 9] = Some (None, store', fs') /\
    store_byte (store_example false) fs' 3 = Some 8 /\ store_byte (store_example false) fs' 5 = Some 0) /\
  (exists got store' fs', swap_store_read (store_example true) (mk_posix (px_files posix_example) ∅ [IoMoves 1]) 0 3 = Some (None, got, store', fs') /\ got !! 2%nat = Some 1).
Proof.
  split.
  - destruct (swap_store_is_array (store_example false) posix_example 2 [7; 8; 9] 0) as [(r & store' & fs' & Hrun & _ & Hr & H) _]; [apply store_example_wf|decide_true|].
    assert (r = None) as -> by (apply Hr; repeat constructor; done).
    exists store', fs'. split; [exact Hrun|]. destruct H as (dn & _ & Hd & Hw). rewrite (Hd eq_refl) in Hw.
    split; rewrite Hw by (simpl; lia); reflexivity.
  - destruct (swap_store_is_array (store_example true) (mk_posix (px_files posix_example) ∅ [IoMoves 1]) 0 [] 3) as [_ (r & got & store' & fs' & Hrun & _ & Hr & H)].
    + apply (store_wf_files _ posix_example); [apply store_example_wf|done].
    + decide_true.
    + assert (r = None) as -> by (apply Hr; repeat constructor; done).
      exists got, store', fs'. split; [exact Hrun|]. destruct (H eq_refl) as [_ Hj]. rewrite Hj by lia. reflexivity.
Defined.
