(* ===== verification/SwapFile.v ===== *)
(** * The swap file (horizon-wine/source/swap_file.c)

    Blocks of whole 4 KiB units allocated in a swap store, with a bitmap of
    the units in use and a hint below which every unit is in use. The store is
    used through its interface [SwapStore]; what two readings of the clock are
    apart is an argument. *)
From S2P Require Import Prelude SwapStore.
Local Open Scope Z_scope.

Definition SWAP_FILE_UNIT : Z := 4096.

Definition unit_count (size : Z) : Z :=
  size / SWAP_FILE_UNIT + (if size mod SWAP_FILE_UNIT =? 0 then 0 else 1).

(** The counters of [struct swap_file]. *)
Record swap_file_stats := mk_swap_stats {
  fs_used_units : Z; fs_scan_units : Z; fs_scan_ticks : Z; fs_no_run : Z;
  fs_writes : Z; fs_write_bytes : Z; fs_write_ticks : Z; fs_max_write_ticks : Z; fs_write_errors : Z;
  fs_reads : Z; fs_read_bytes : Z; fs_read_ticks : Z; fs_max_read_ticks : Z; fs_read_errors : Z
}.

Record swap_file (St : Type) := mk_swap_file {
  sf_store : St;
  sf_used : option (list Z);
  sf_units : Z;
  sf_hint : Z;
  sf_stats : swap_file_stats
}.
Arguments mk_swap_file {St} _ _ _ _ _.
Arguments sf_store {St} _.
Arguments sf_used {St} _.
Arguments sf_units {St} _.
Arguments sf_hint {St} _.
Arguments sf_stats {St} _.

(** [file->used[unit / 8] & (1u << (unit % 8))] *)
Definition occupied (used : list Z) (unit : Z) : bool :=
  nonzero (Z.land (used !!! Z.to_nat (unit / 8)) (Z.shiftl 1 (unit mod 8))).

Definition occupy (used : list Z) (unit : Z) : list Z :=
  <[Z.to_nat (unit / 8) := Z.lor (used !!! Z.to_nat (unit / 8)) (Z.shiftl 1 (unit mod 8))]> used.
Definition vacate (used : list Z) (unit : Z) : list Z :=
  <[Z.to_nat (unit / 8) :=
      Z.land (used !!! Z.to_nat (unit / 8)) (Z.lnot (Z.shiftl 1 (unit mod 8)))]> used.

(** The two loops that mark and clear [n] units from [i] on; clearing asserts
    that each was in use. *)
Fixpoint occupy_run (n : nat) (used : list Z) (i : Z) : list Z :=
  match n with O => used | S n => occupy_run n (occupy used i) (i + 1) end.
Fixpoint vacate_run (n : nat) (used : list Z) (i : Z) : option (list Z) :=
  match n with
  | O => Some used
  | S n => if occupied used i then vacate_run n (vacate used i) (i + 1) else None
  end.

(** The search: the last unit of the first run of [count] free units, looking
    at [n] units from [i] on. *)
Fixpoint file_scan (n : nat) (used : list Z) (i run count : Z) : option Z :=
  match n with
  | O => None
  | S n =>
      let run := if occupied used i then 0 else run + 1 in
      if run =? count then Some i else file_scan n used (i + 1) run count
  end.

(** [while (hint < units && occupied( hint )) hint++;] *)
Fixpoint hint_advance (n : nat) (used : list Z) (hint : Z) : Z :=
  match n with
  | O => hint
  | S n => if occupied used hint then hint_advance n used (hint + 1) else hint
  end.

Fixpoint all_occupied (n : nat) (used : list Z) (i : Z) : bool :=
  match n with O => true | S n => occupied used i && all_occupied n used (i + 1) end.

Definition update_max (target value : Z) : Z := if target <? value then value else target.

Definition stats_use (s : swap_file_stats) (d : Z) : swap_file_stats :=
  mk_swap_stats (u64 (fs_used_units s + d)) (fs_scan_units s) (fs_scan_ticks s) (fs_no_run s)
    (fs_writes s) (fs_write_bytes s) (fs_write_ticks s) (fs_max_write_ticks s) (fs_write_errors s)
    (fs_reads s) (fs_read_bytes s) (fs_read_ticks s) (fs_max_read_ticks s) (fs_read_errors s).
Definition stats_scan (s : swap_file_stats) (units ticks no_run : Z) : swap_file_stats :=
  mk_swap_stats (fs_used_units s) (u64 (fs_scan_units s + units)) (u64 (fs_scan_ticks s + ticks))
    (u64 (fs_no_run s + no_run))
    (fs_writes s) (fs_write_bytes s) (fs_write_ticks s) (fs_max_write_ticks s) (fs_write_errors s)
    (fs_reads s) (fs_read_bytes s) (fs_read_ticks s) (fs_max_read_ticks s) (fs_read_errors s).
Definition stats_write (s : swap_file_stats) (ticks bytes errors : Z) : swap_file_stats :=
  mk_swap_stats (fs_used_units s) (fs_scan_units s) (fs_scan_ticks s) (fs_no_run s)
    (u64 (fs_writes s + 1)) (u64 (fs_write_bytes s + bytes)) (u64 (fs_write_ticks s + ticks))
    (update_max (fs_max_write_ticks s) ticks) (u64 (fs_write_errors s + errors))
    (fs_reads s) (fs_read_bytes s) (fs_read_ticks s) (fs_max_read_ticks s) (fs_read_errors s).
Definition stats_read (s : swap_file_stats) (ticks bytes errors : Z) : swap_file_stats :=
  mk_swap_stats (fs_used_units s) (fs_scan_units s) (fs_scan_ticks s) (fs_no_run s)
    (fs_writes s) (fs_write_bytes s) (fs_write_ticks s) (fs_max_write_ticks s) (fs_write_errors s)
    (u64 (fs_reads s + 1)) (u64 (fs_read_bytes s + bytes)) (u64 (fs_read_ticks s + ticks))
    (update_max (fs_max_read_ticks s) ticks) (u64 (fs_read_errors s + errors)).
Definition stats_zero : swap_file_stats := mk_swap_stats 0 0 0 0 0 0 0 0 0 0 0 0 0 0.

Section file.
Context {St : Type} `{!SwapStore St}.
Implicit Types file : swap_file St.

(** [store]: what [swap_store_open_existing] opened; [mem]: whether [calloc]
    succeeds. *)
Definition swap_file_open (store : St) (mem : bool) : option Z * swap_file St :=
  let units := st_size store / SWAP_FILE_UNIT in
  if mem then (None, mk_swap_file store (Some (replicate (Z.to_nat ((units + 7) / 8)) 0)) units 0 stats_zero)
  else (Some ENOMEM, mk_swap_file (st_close store) None units 0 stats_zero).

Definition swap_file_close file : swap_file St :=
  mk_swap_file (st_close (sf_store file)) None 0 (sf_hint file) (sf_stats file).

(** [None] is a failed assertion. *)
Definition swap_file_discard file (token size : Z) : option (swap_file St) :=
  let first := u32 (token - 1) in
  let count := unit_count size in
  if (token =? 0) || (size =? 0) || (sf_units file <=? first) || (sf_units file - first <? count)
  then None
  else
    used ← sf_used file;
    used ← vacate_run (Z.to_nat count) used first;
    Some (mk_swap_file (sf_store file) (Some used) (sf_units file)
            (if first <? sf_hint file then first else sf_hint file)
            (stats_use (sf_stats file) (- count))).

(** The result, the token and the file. [None] only for a failed assertion
    or a store that does not return. *)
Definition swap_file_save file (data : list Z) (scan_elapsed write_elapsed : Z)
    : option (option Z * Z * swap_file St) :=
  let size := Z.of_nat (length data) in
  match sf_used file with
  | None => Some (Some EINVAL, 0, file)
  | Some used =>
      if (size =? 0) || (st_size (sf_store file) <? size) then Some (Some EINVAL, 0, file)
      else
        let count := unit_count size in
        let hint := sf_hint file in
        let units := sf_units file in
        match file_scan (Z.to_nat (units - hint)) used hint 0 count with
        | None =>
            Some (Some ENOSPC, 0,
                  mk_swap_file (sf_store file) (Some used) units hint
                    (stats_scan (sf_stats file) (units - hint) scan_elapsed 1))
        | Some i =>
            let stats := stats_scan (sf_stats file) (i - hint + 1) scan_elapsed 0 in
            let first := i + 1 - count in
            let used := occupy_run (Z.to_nat count) used first in
            let stats := stats_use stats count in
            '(result, store) ← st_write (sf_store file) (first * SWAP_FILE_UNIT) data;
            match result with
            | Some error =>
                let stats := stats_write stats write_elapsed 0 1 in
                file ← swap_file_discard (mk_swap_file store (Some used) units hint stats)
                         (first + 1) size;
                Some (Some error, 0, file)
            | None =>
                let stats := stats_write stats write_elapsed size 0 in
                let hint := hint_advance (Z.to_nat (units - hint)) used hint in
                Some (None, first + 1, mk_swap_file store (Some used) units hint stats)
            end
        end
  end.

Definition swap_file_load file (token : Z) (size : nat) (elapsed : Z)
    : option (option Z * list Z * swap_file St) :=
  let first := u32 (token - 1) in
  let n := Z.of_nat size in
  let count := unit_count n in
  if (token =? 0) || (n =? 0) || (st_size (sf_store file) <? n) || (sf_units file <=? first)
  then Some (Some EINVAL, [], file)
  else if sf_units file - first <? count then Some (Some EINVAL, [], file)
  else
    used ← sf_used file;
    if negb (all_occupied (Z.to_nat count) used first) then Some (Some EINVAL, [], file)
    else
      '(result, got, store) ← st_read (sf_store file) (first * SWAP_FILE_UNIT) size;
      let stats := match result with
                   | Some _ => stats_read (sf_stats file) elapsed 0 1
                   | None => stats_read (sf_stats file) elapsed n 0
                   end in
      Some (result, got, mk_swap_file store (Some used) (sf_units file) (sf_hint file) stats).

End file.

(** ** The bitmap *)

Lemma occupied_testbit used unit : 0 <= unit -> occupied used unit = Z.testbit (used !!! Z.to_nat (unit / 8)) (unit mod 8).
Proof.
  intros Hu. unfold occupied, nonzero. set (b := used !!! _). set (k := unit mod 8).
  assert (Hk : 0 <= k) by (unfold k; zlia).
  assert (Hl : Z.land b (Z.shiftl 1 k) = if Z.testbit b k then Z.shiftl 1 k else 0).
  { apply Z.bits_inj'. intros j Hj. rewrite Z.land_spec, Z.shiftl_1_l.
    destruct (decide (j = k)) as [->|Hne].
    - rewrite Z.pow2_bits_true by done. destruct (Z.testbit b k);
        [by rewrite Z.pow2_bits_true|by rewrite Z.bits_0].
    - rewrite Z.pow2_bits_false, andb_false_r by done. destruct (Z.testbit b k);
        [by rewrite Z.pow2_bits_false|by rewrite Z.bits_0]. }
  rewrite Hl, Z.shiftl_1_l. pose proof (Z.pow_pos_nonneg 2 k ltac:(lia) Hk).
  destruct (Z.testbit b k); [|done]. lia.
Qed.

Lemma unit_same u v : 0 <= u -> 0 <= v -> Z.to_nat (u / 8) = Z.to_nat (v / 8) -> u mod 8 = v mod 8 -> u = v.
Proof. intros. zlia. Qed.

Lemma occupied_occupy used u v :
  0 <= u -> 0 <= v -> (Z.to_nat (u / 8) < length used)%nat ->
  occupied (occupy used u) v = if decide (v = u) then true else occupied used v.
Proof.
  intros Hu Hv Hl. rewrite !occupied_testbit by done. unfold occupy.
  destruct (decide (Z.to_nat (v / 8) = Z.to_nat (u / 8))) as [E|E].
  - rewrite E, list_lookup_total_insert_eq, Z.lor_spec, Z.shiftl_1_l by done.
    rewrite Z.pow2_bits_eqb by zlia. case_decide as Ed.
    + subst. rewrite Z.eqb_refl. apply orb_true_r.
    + destruct (Z.eqb_spec (u mod 8) (v mod 8)) as [E'|]; [|apply orb_false_r].
      destruct Ed. by apply unit_same.
  - rewrite list_lookup_total_insert_ne by done. case_decide; [congruence|done].
Qed.

Lemma occupied_vacate used u v :
  0 <= u -> 0 <= v -> (Z.to_nat (u / 8) < length used)%nat ->
  occupied (vacate used u) v = if decide (v = u) then false else occupied used v.
Proof.
  intros Hu Hv Hl. rewrite !occupied_testbit by done. unfold vacate.
  destruct (decide (Z.to_nat (v / 8) = Z.to_nat (u / 8))) as [E|E].
  - rewrite E, list_lookup_total_insert_eq, Z.land_spec, Z.lnot_spec, Z.shiftl_1_l by (done || zlia).
    rewrite Z.pow2_bits_eqb by zlia. case_decide as Ed.
    + subst. rewrite Z.eqb_refl. apply andb_false_r.
    + destruct (Z.eqb_spec (u mod 8) (v mod 8)) as [E'|]; [|apply andb_true_r].
      destruct Ed. by apply unit_same.
  - rewrite list_lookup_total_insert_ne by done. case_decide; [congruence|done].
Qed.

(** A bitmap large enough for [units] units. *)
Definition bitmap_fits (used : list Z) (units : Z) : Prop :=
  Z.of_nat (length used) = (units + 7) / 8.

Lemma bitmap_fits_lt used units u :
  bitmap_fits used units -> 0 <= u < units -> (Z.to_nat (u / 8) < length used)%nat.
Proof. unfold bitmap_fits. intros Hf Hu. zlia. Qed.

Lemma occupy_run_spec n used i units :
  bitmap_fits used units -> 0 <= i -> i + Z.of_nat n <= units ->
  bitmap_fits (occupy_run n used i) units /\
  forall v, 0 <= v -> occupied (occupy_run n used i) v =
    bool_decide (i <= v < i + Z.of_nat n) || occupied used v.
Proof.
  revert used i. induction n as [|n IH]; intros used i Hf Hi Hn; cbn [occupy_run].
  { split; [done|]. intros v Hv. case_bool_decide; [lia|done]. }
  destruct (IH (occupy used i) (i + 1)) as [H1 H2]; [|lia..|].
  { unfold bitmap_fits, occupy. by rewrite length_insert. }
  split; [done|]. intros v Hv. rewrite H2 by done.
  rewrite occupied_occupy by (done || eapply bitmap_fits_lt; done || lia).
  case_decide; repeat case_bool_decide; simpl; try done; try lia.
Qed.

Lemma vacate_run_spec n used i units :
  bitmap_fits used units -> 0 <= i -> i + Z.of_nat n <= units ->
  (forall v, i <= v < i + Z.of_nat n -> occupied used v = true) ->
  exists used', vacate_run n used i = Some used' /\ bitmap_fits used' units /\
    forall v, 0 <= v -> occupied used' v = negb (bool_decide (i <= v < i + Z.of_nat n)) && occupied used v.
Proof.
  revert used i. induction n as [|n IH]; intros used i Hf Hi Hn Hocc; cbn [vacate_run].
  { exists used. split_and!; [done..|]. intros v Hv. case_bool_decide; [lia|done]. }
  assert (Hbit : forall v, 0 <= v -> occupied (vacate used i) v = if decide (v = i) then false else occupied used v).
  { intros v Hv. apply occupied_vacate; [done..|]. eapply bitmap_fits_lt; [done|lia]. }
  rewrite Hocc by lia. destruct (IH (vacate used i) (i + 1)) as (used' & Hrun & H1 & H2); [|lia..| |].
  { unfold bitmap_fits, vacate. by rewrite length_insert. }
  { intros v Hv. rewrite Hbit by lia. case_decide; [lia|]. apply Hocc. lia. }
  exists used'. split_and!; [done..|]. intros v Hv. rewrite H2, Hbit by done.
  case_decide; repeat case_bool_decide; simpl; try done; try lia.
Qed.

Lemma all_occupied_spec n used i :
  all_occupied n used i = true <-> forall v, i <= v < i + Z.of_nat n -> occupied used v = true.
Proof.
  revert i. induction n as [|n IH]; intros i; cbn [all_occupied].
  { split; [lia|done]. }
  rewrite andb_true_iff, IH. split.
  - intros [H1 H2] v Hv. destruct (decide (v = i)) as [->|]; [done|]. apply H2. lia.
  - intros H. split; [apply H; lia|]. intros v Hv. apply H. lia.
Qed.

(** The run found is free, it is in the range looked at, and nothing is found
    only if there is no such run that starts after the [run] free units seen. *)
Lemma file_scan_spec n used i run count :
  0 < count -> 0 <= run < count -> (forall v, i - run <= v < i -> occupied used v = false) ->
  match file_scan n used i run count with
  | Some k => i <= k < i + Z.of_nat n /\ i - run <= k + 1 - count /\
      forall v, k + 1 - count <= v <= k -> occupied used v = false
  | None => forall f, i - run <= f -> f + count <= i + Z.of_nat n ->
      exists v, f <= v < f + count /\ occupied used v = true
  end.
Proof.
  revert i run. induction n as [|n IH]; intros i run Hc Hr Hfree; cbn [file_scan].
  { intros f Hf Hle. lia. }
  destruct (occupied used i) eqn:Ho.
  - destruct (Z.eqb_spec 0 count); [lia|].
    specialize (IH (i + 1) 0 Hc ltac:(lia) ltac:(intros v Hv; lia)).
    destruct (file_scan n used (i + 1) 0 count) as [k|].
    + destruct IH as (H1 & H2 & H3). split_and!; [lia..|done].
    + intros f Hf Hle. destruct (decide (f <= i)).
      * exists i. split; [lia|done].
      * apply IH; lia.
  - assert (Hfree' : forall v, i - run <= v < i + 1 -> occupied used v = false).
    { intros v Hv. destruct (decide (v = i)) as [->|]; [done|]. apply Hfree. lia. }
    destruct (Z.eqb_spec (run + 1) count) as [E|E].
    + split_and!; [lia..|]. intros v Hv. apply Hfree'. lia.
    + specialize (IH (i + 1) (run + 1) Hc ltac:(lia) ltac:(intros v Hv; apply Hfree'; lia)).
      destruct (file_scan n used (i + 1) (run + 1) count) as [k|].
      * destruct IH as (H1 & H2 & H3). split_and!; [lia..|done].
      * intros f Hf Hle. apply IH; lia.
Qed.

Lemma hint_advance_spec n used hint :
  (forall v, 0 <= v < hint -> occupied used v = true) -> 0 <= hint ->
  hint <= hint_advance n used hint <= hint + Z.of_nat n /\
  forall v, 0 <= v < hint_advance n used hint -> occupied used v = true.
Proof.
  revert hint. induction n as [|n IH]; intros hint Hh H0; cbn [hint_advance].
  { split; [lia|done]. }
  destruct (occupied used hint) eqn:Ho; [|split; [lia|done]].
  destruct (IH (hint + 1)) as [H1 H2]; [|lia|split; [lia|done]].
  intros v Hv. destruct (decide (v = hint)) as [->|]; [done|]. apply Hh. lia.
Qed.

(** ** The file as a map from tokens to saved blocks *)

Section blocks.
Context {St : Type} `{!SwapStore St}.
Implicit Types (file : swap_file St) (blocks : gmap Z (list Z)).

Definition block_units (data : list Z) : Z := unit_count (Z.of_nat (length data)).

(** Unit [u] belongs to the block of [token]. *)
Definition block_holds (token : Z) (data : list Z) (u : Z) : Prop :=
  token - 1 <= u < token - 1 + block_units data.

Record file_rep file blocks : Prop := {
  fr_ok : st_ok (sf_store file);
  fr_units : sf_units file = st_size (sf_store file) / SWAP_FILE_UNIT;
  fr_hint : 0 <= sf_hint file <= sf_units file;
  fr_used : exists used, sf_used file = Some used /\ bitmap_fits used (sf_units file) /\
    (forall u, 0 <= u < sf_hint file -> occupied used u = true) /\
    (forall u, 0 <= u < sf_units file ->
       occupied used u = true <-> exists token data, blocks !! token = Some data /\ block_holds token data u);
  fr_block token data : blocks !! token = Some data ->
    1 <= token /\ data <> [] /\ token - 1 + block_units data <= sf_units file;
  fr_disjoint t1 d1 t2 d2 u : blocks !! t1 = Some d1 -> blocks !! t2 = Some d2 ->
    block_holds t1 d1 u -> block_holds t2 d2 u -> t1 = t2;
  fr_bytes token data j : blocks !! token = Some data -> (j < length data)%nat ->
    st_byte (sf_store file) ((token - 1) * SWAP_FILE_UNIT + Z.of_nat j) = data !! j
}.

Lemma unit_count_spec n : 0 < n ->
  0 < unit_count n /\ n <= unit_count n * SWAP_FILE_UNIT < n + SWAP_FILE_UNIT.
Proof. intros Hn. unfold unit_count, SWAP_FILE_UNIT. case_if; btrue; zlia. Qed.

Lemma block_units_spec data : data <> [] ->
  0 < block_units data /\
  Z.of_nat (length data) <= block_units data * SWAP_FILE_UNIT < Z.of_nat (length data) + SWAP_FILE_UNIT.
Proof. intros Hd. apply unit_count_spec. destruct data; [done|simpl; lia]. Qed.

(** A byte of a block lies in one of its units. *)
Lemma block_byte_unit token data j :
  data <> [] -> (j < length data)%nat ->
  block_holds token data (((token - 1) * SWAP_FILE_UNIT + Z.of_nat j) / SWAP_FILE_UNIT).
Proof.
  intros Hd Hj. destruct (block_units_spec data Hd) as [H1 H2]. unfold block_holds, SWAP_FILE_UNIT in *.
  rewrite Z.div_add_l by lia. split; zlia.
Qed.

Lemma units_bytes file blocks u :
  file_rep file blocks -> u <= sf_units file -> u * SWAP_FILE_UNIT <= st_size (sf_store file).
Proof. intros Hr Hu. rewrite (fr_units _ _ Hr) in Hu. unfold SWAP_FILE_UNIT in *. zlia. Qed.

Lemma units_small file blocks : file_rep file blocks -> 0 <= sf_units file <= 2 ^ 21.
Proof.
  intros Hr. pose proof (st_size_range _ (fr_ok _ _ Hr)) as Hs. rewrite (fr_units _ _ Hr).
  unfold SWAP_FILE_UNIT. zlia.
Qed.

(** What a change of the store must keep for the blocks to stay as they are. *)
Lemma file_rep_store file blocks store stats :
  file_rep file blocks -> st_ok store -> st_size store = st_size (sf_store file) ->
  (forall token data j, blocks !! token = Some data -> (j < length data)%nat ->
     st_byte store ((token - 1) * SWAP_FILE_UNIT + Z.of_nat j) =
     st_byte (sf_store file) ((token - 1) * SWAP_FILE_UNIT + Z.of_nat j)) ->
  file_rep (mk_swap_file store (sf_used file) (sf_units file) (sf_hint file) stats) blocks.
Proof.
  intros [] Hok Hsz Hb. constructor; cbn; try done.
  - congruence.
  - intros token data j Ht Hj. rewrite Hb with (data := data) by done. by apply fr_bytes0.
Qed.

Lemma block_byte_range file blocks token data j :
  file_rep file blocks -> blocks !! token = Some data -> (j < length data)%nat ->
  0 <= (token - 1) * SWAP_FILE_UNIT + Z.of_nat j < st_size (sf_store file).
Proof.
  intros Hr Ht Hj. destruct (fr_block _ _ Hr _ _ Ht) as (H1 & H2 & H3).
  destruct (block_units_spec data H2) as [H4 H5]. pose proof (units_bytes _ _ _ Hr H3).
  unfold SWAP_FILE_UNIT in *. nia.
Qed.

(** A run of free units holds no byte of a block. *)
Lemma free_run_bytes file blocks used first count token data j :
  file_rep file blocks -> sf_used file = Some used ->
  (forall v, first <= v < first + count -> occupied used v = false) ->
  0 <= first -> first + count <= sf_units file ->
  blocks !! token = Some data -> (j < length data)%nat ->
  ~ (first * SWAP_FILE_UNIT <= (token - 1) * SWAP_FILE_UNIT + Z.of_nat j
     < (first + count) * SWAP_FILE_UNIT).
Proof.
  intros Hr Hu Hfree H0 Hn Ht Hj Hin. destruct (fr_used _ _ Hr) as (used' & Hu' & _ & _ & Hocc).
  assert (used' = used) as -> by congruence. destruct (fr_block _ _ Hr _ _ Ht) as (H1 & H2 & H3).
  pose proof (block_byte_unit token data j H2 Hj) as Hunit.
  set (u := ((token - 1) * SWAP_FILE_UNIT + Z.of_nat j) / SWAP_FILE_UNIT) in *.
  assert (Hfu : first <= u < first + count).
  { unfold u. unfold SWAP_FILE_UNIT in *. split; [apply Z.div_le_lower_bound|apply Z.div_lt_upper_bound]; lia. }
  assert (Ho : occupied used u = true) by (apply Hocc; [lia|eauto]).
  rewrite Hfree in Ho by done. done.
Qed.

(** *** Discard *)

Lemma swap_file_discard_spec file blocks token data :
  file_rep file blocks -> blocks !! token = Some data ->
  exists file', swap_file_discard file token (Z.of_nat (length data)) = Some file' /\
    file_rep file' (delete token blocks) /\ sf_store file' = sf_store file.
Proof.
  intros Hr Ht. pose proof (units_small _ _ Hr) as Hus. destruct (fr_block _ _ Hr _ _ Ht) as (H1 & H2 & H3).
  destruct (block_units_spec data H2) as [H4 H5]. destruct (fr_used _ _ Hr) as (used & Hu & Hf & Hh & Hocc).
  assert (Hlen : 0 < Z.of_nat (length data)) by (destruct data; [done|simpl; lia]).
  unfold swap_file_discard. rewrite u32_small by (unfold is_u32; lia). fold (block_units data).
  replace (_ || _) with false.
  2:{ symmetry. repeat (apply orb_false_iff; split); lia. }
  rewrite Hu. cbn [mbind option_bind].
  destruct (vacate_run_spec (Z.to_nat (block_units data)) used (token - 1) (sf_units file))
    as (used' & -> & Hf' & Hocc'); [done|lia..| |].
  { intros v Hv. apply Hocc; [lia|]. exists token, data. split; [done|]. unfold block_holds. lia. }
  cbn [mbind option_bind]. eexists. split; [done|]. split; [|done]. rewrite Z2Nat.id in Hocc' by lia.
  constructor; cbn; try apply Hr.
  - pose proof (fr_hint _ _ Hr). case_if; btrue; lia.
  - exists used'. split_and!; [done..| |].
    + intros u Hlt. rewrite Hocc' by lia. rewrite Hh by (case_if; btrue; lia).
      case_bool_decide; [|done]. case_if; btrue; lia.
    + intros u Hur. rewrite Hocc' by lia. rewrite andb_true_iff, (Hocc u Hur), negb_true_iff, bool_decide_eq_false.
      split.
      * intros (Hn & t & d & Htd & Hb). exists t, d. split; [|done]. rewrite lookup_delete_ne; [done|].
        intros ->. assert (d = data) as -> by congruence. done.
      * intros (t & d & Htd & Hb). apply lookup_delete_Some in Htd as [Hne Htd]. split; [|eauto].
        intros Hin. apply Hne. by apply (fr_disjoint _ _ Hr token data t d u).
  - intros t d Htd. apply lookup_delete_Some in Htd as [_ Htd]. by apply (fr_block _ _ Hr).
  - intros t1 d1 t2 d2 u Ht1 Ht2. apply lookup_delete_Some in Ht1 as [_ Ht1].
    apply lookup_delete_Some in Ht2 as [_ Ht2]. by apply (fr_disjoint _ _ Hr).
  - intros t d j Htd. apply lookup_delete_Some in Htd as [_ Htd]. by apply (fr_bytes _ _ Hr).
Qed.

(** *** Load *)

Lemma swap_file_load_spec file blocks token data elapsed :
  file_rep file blocks -> blocks !! token = Some data ->
  exists r got file', swap_file_load file token (length data) elapsed = Some (r, got, file') /\
    file_rep file' blocks /\ (r = None -> got = data) /\
    (exists s', st_read (sf_store file) ((token - 1) * SWAP_FILE_UNIT) (length data) = Some (r, got, s')) /\
    (st_fine (sf_store file) -> r = None).
Proof.
  intros Hr Ht. pose proof (units_small _ _ Hr) as Hus. destruct (fr_block _ _ Hr _ _ Ht) as (H1 & H2 & H3).
  destruct (block_units_spec data H2) as [H4 H5]. destruct (fr_used _ _ Hr) as (used & Hu & Hf & Hh & Hocc).
  pose proof (units_bytes _ _ _ Hr H3) as Hb. unfold SWAP_FILE_UNIT in Hb, H5.
  unfold swap_file_load. rewrite u32_small by (unfold is_u32; lia). fold (block_units data).
  assert (Hlen : 0 < Z.of_nat (length data)) by (destruct data; [done|simpl; lia]).
  replace (_ || _) with false.
  2:{ symmetry. repeat (apply orb_false_iff; split); lia. }
  replace (sf_units file - (token - 1) <? block_units data) with false by lia.
  rewrite Hu. cbn [mbind option_bind].
  assert (Hall : all_occupied (Z.to_nat (block_units data)) used (token - 1) = true).
  { apply all_occupied_spec. intros v Hv. apply Hocc; [lia|]. exists token, data.
    split; [done|]. unfold block_holds. lia. }
  rewrite Hall. cbn [negb].
  destruct (st_read_ok (sf_store file) ((token - 1) * SWAP_FILE_UNIT) (length data))
    as (r & got & store' & Hread & Hok & Hsz & Hfine & Hsame & Hgot); [apply Hr|unfold SWAP_FILE_UNIT; lia..|].
  rewrite Hread. cbn [mbind option_bind]. eexists r, got, _. split; [done|]. split; [|split; [|split; [by eexists|intros H; by apply Hfine]]].
  - rewrite <- Hu. apply file_rep_store; [done..|]. intros t d j Htd Hj. apply Hsame.
    by eapply block_byte_range.
  - intros E. destruct (Hgot E) as [Hl Hj]. apply list_eq. intros j.
    destruct (decide (j < length data)%nat); [|by rewrite !lookup_ge_None_2 by lia].
    rewrite Hj by done. by apply (fr_bytes _ _ Hr).
Qed.

(** *** Save *)

(** The state is the same for the blocks when the bitmap reads the same. *)
Lemma file_rep_used file blocks used used' store stats :
  file_rep file blocks -> sf_used file = Some used -> bitmap_fits used' (sf_units file) ->
  (forall v, 0 <= v -> occupied used' v = occupied used v) ->
  st_ok store -> st_size store = st_size (sf_store file) ->
  (forall token data j, blocks !! token = Some data -> (j < length data)%nat ->
     st_byte store ((token - 1) * SWAP_FILE_UNIT + Z.of_nat j) =
     st_byte (sf_store file) ((token - 1) * SWAP_FILE_UNIT + Z.of_nat j)) ->
  file_rep (mk_swap_file store (Some used') (sf_units file) (sf_hint file) stats) blocks.
Proof.
  intros [] Hu Hf Hsame Hok Hsz Hb. constructor; cbn; try done.
  - congruence.
  - destruct fr_used0 as (used0 & Hu0 & Hf0 & Hh & Hocc). assert (used0 = used) as -> by congruence.
    exists used'. split_and!; [done..| |]; intros u Hr; rewrite Hsame by lia; auto.
  - intros token data j Ht Hj. rewrite Hb with (data := data) by done. by apply fr_bytes0.
Qed.

(** A free run of units becomes a block. *)
Lemma file_rep_insert file blocks used first data store hint stats :
  file_rep file blocks -> sf_used file = Some used -> data <> [] ->
  0 <= first -> first + block_units data <= sf_units file ->
  (forall v, first <= v < first + block_units data -> occupied used v = false) ->
  let used' := occupy_run (Z.to_nat (block_units data)) used first in
  st_ok store -> st_size store = st_size (sf_store file) ->
  (forall o, 0 <= o < st_size (sf_store file) -> st_byte store o =
     if bool_decide (first * SWAP_FILE_UNIT <= o < first * SWAP_FILE_UNIT + Z.of_nat (length data))
     then data !! Z.to_nat (o - first * SWAP_FILE_UNIT) else st_byte (sf_store file) o) ->
  0 <= hint <= sf_units file -> (forall v, 0 <= v < hint -> occupied used' v = true) ->
  blocks !! (first + 1) = None /\
  file_rep (mk_swap_file store (Some used') (sf_units file) hint stats) (<[first + 1 := data]> blocks).
Proof.
  intros Hr Hu Hd H0 Hn Hfree used' Hok Hsz Hbytes Hh Hhint.
  destruct (fr_used _ _ Hr) as (used0 & Hu0 & Hf & _ & Hocc). assert (used0 = used) as -> by congruence.
  destruct (block_units_spec data Hd) as [Hbu Hbl].
  destruct (occupy_run_spec (Z.to_nat (block_units data)) used first (sf_units file)) as [Hf' Hocc'];
    [done|lia..|]. fold used' in Hf', Hocc'. rewrite Z2Nat.id in Hocc' by lia.
  assert (Hnew : forall t d u, blocks !! t = Some d -> block_holds t d u -> ~ block_holds (first + 1) data u).
  { intros t d u Htd Hb Hin. destruct (fr_block _ _ Hr _ _ Htd) as (Ht1 & _ & Ht3).
    unfold block_holds in *. assert (Ho : occupied used u = true) by (apply Hocc; [lia|eauto]).
    rewrite Hfree in Ho by lia. done. }
  assert (Hnone : blocks !! (first + 1) = None).
  { destruct (blocks !! (first + 1)) as [d|] eqn:E; [|done]. exfalso.
    destruct (fr_block _ _ Hr _ _ E) as (_ & He & _). destruct (block_units_spec d He).
    apply (Hnew _ _ first E); unfold block_holds; lia. }
  split; [done|]. constructor; cbn; try done.
  - rewrite Hsz. apply Hr.
  - exists used'. split_and!; [done..|]. intros u Hur. rewrite Hocc' by lia.
    rewrite orb_true_iff, bool_decide_eq_true, (Hocc u Hur). split.
    + intros [Hin|(t & d & Htd & Hb)].
      * exists (first + 1), data. rewrite lookup_insert_eq. split; [done|]. unfold block_holds. lia.
      * exists t, d. split; [|done]. rewrite lookup_insert_ne; [done|]. intros <-. congruence.
    + intros (t & d & Htd & Hb). apply lookup_insert_Some in Htd as [[<- <-]|[_ Htd]]; [left|eauto].
      unfold block_holds in Hb. lia.
  - intros t d Htd. apply lookup_insert_Some in Htd as [[<- <-]|[_ Htd]]; [|by apply Hr].
    split_and!; [lia|done|lia].
  - intros t1 d1 t2 d2 u Ht1 Ht2 Hb1 Hb2.
    apply lookup_insert_Some in Ht1 as [[<- <-]|[_ Ht1]], Ht2 as [[<- <-]|[_ Ht2]];
      [done|by destruct (Hnew t2 d2 u)|by destruct (Hnew t1 d1 u)|by eapply (fr_disjoint _ _ Hr)].
  - intros t d j Htd Hj. pose proof (units_bytes _ _ _ Hr Hn) as Hub.
    apply lookup_insert_Some in Htd as [[<- <-]|[_ Htd]].
    + rewrite Hbytes by (unfold SWAP_FILE_UNIT in *; lia). case_bool_decide; [f_equal|]; lia.
    + pose proof (block_byte_range _ _ _ _ _ Hr Htd Hj).
      pose proof (free_run_bytes _ _ _ _ _ _ _ _ Hr Hu Hfree H0 Hn Htd Hj).
      rewrite Hbytes by lia. case_bool_decide; [unfold SWAP_FILE_UNIT in *; lia|]. by apply Hr.
Qed.

(** Undoing the allocation after a failed write. *)
Lemma swap_file_undo file blocks used first data store stats :
  file_rep file blocks -> sf_used file = Some used -> data <> [] ->
  sf_hint file <= first -> first + block_units data <= sf_units file ->
  (forall v, first <= v < first + block_units data -> occupied used v = false) ->
  st_ok store -> st_size store = st_size (sf_store file) ->
  (forall token d j, blocks !! token = Some d -> (j < length d)%nat ->
     st_byte store ((token - 1) * SWAP_FILE_UNIT + Z.of_nat j) =
     st_byte (sf_store file) ((token - 1) * SWAP_FILE_UNIT + Z.of_nat j)) ->
  exists file',
    swap_file_discard (mk_swap_file store (Some (occupy_run (Z.to_nat (block_units data)) used first))
      (sf_units file) (sf_hint file) stats) (first + 1) (Z.of_nat (length data)) = Some file' /\
    file_rep file' blocks.
Proof.
  intros Hr Hu Hd Hh Hn Hfree Hok Hsz Hb. pose proof (fr_hint _ _ Hr). pose proof (units_small _ _ Hr).
  destruct (fr_used _ _ Hr) as (used0 & Hu0 & Hf & _ & Hocc). assert (used0 = used) as -> by congruence.
  destruct (block_units_spec data Hd) as [Hbu Hbl].
  assert (Hlen : 0 < Z.of_nat (length data)) by (destruct data; [done|simpl; lia]).
  destruct (occupy_run_spec (Z.to_nat (block_units data)) used first (sf_units file)) as [Hf' Hocc'];
    [done|lia..|]. rewrite Z2Nat.id in Hocc' by lia.
  unfold swap_file_discard. cbn. replace (first + 1 - 1) with first by lia.
  rewrite u32_small by (unfold is_u32; lia). fold (block_units data). replace (_ || _) with false.
  2:{ symmetry. repeat (apply orb_false_iff; split); lia. }
  destruct (vacate_run_spec (Z.to_nat (block_units data)) (occupy_run (Z.to_nat (block_units data)) used first)
    first (sf_units file)) as (used' & -> & Hf2 & Hocc2); [done|lia..| |].
  { intros v Hv. rewrite Hocc' by lia. case_bool_decide; [done|lia]. }
  cbn. replace (first <? sf_hint file) with false by lia. eexists. split; [done|].
  apply (file_rep_used file blocks used); try done. intros v Hv. rewrite Hocc2, Hocc' by done.
  rewrite Z2Nat.id by lia. case_bool_decide; simpl; [|done]. symmetry. apply Hfree. lia.
Qed.

(** No run of [n] units is free. *)
Definition no_free_run file blocks (n : Z) : Prop :=
  forall f, 0 <= f -> f + n <= sf_units file ->
    exists u token data, f <= u < f + n /\ blocks !! token = Some data /\ block_holds token data u.

Lemma swap_file_save_spec file blocks data scan_elapsed write_elapsed :
  file_rep file blocks ->
  exists r token file', swap_file_save file data scan_elapsed write_elapsed = Some (r, token, file') /\
    match r with
    | None => blocks !! token = None /\ file_rep file' (<[token := data]> blocks)
    | Some e => token = 0 /\ file_rep file' blocks /\
        (data = [] \/ st_size (sf_store file) < Z.of_nat (length data) \/
         e = ENOSPC /\ no_free_run file blocks (block_units data) \/
         exists offset s', st_write (sf_store file) offset data = Some (Some e, s'))
    end.
Proof.
  intros Hr. destruct (fr_used _ _ Hr) as (used & Hu & Hf & Hh & Hocc). pose proof (fr_hint _ _ Hr) as Hhint.
  unfold swap_file_save. rewrite Hu. destruct (_ || _) eqn:Hbad.
  { exists (Some EINVAL), 0, file. split; [done|]. split_and!; [done..|].
    apply orb_true_iff in Hbad as [E|E]; btrue; [left; by destruct data|by right; left]. }
  btrue. fold (block_units data). assert (Hd : data <> []) by (by intros ->).
  destruct (block_units_spec data Hd) as [Hbu Hbl].
  pose proof (file_scan_spec (Z.to_nat (sf_units file - sf_hint file)) used (sf_hint file) 0 (block_units data)
    Hbu ltac:(lia) ltac:(intros v Hv; lia)) as Hscan.
  destruct (file_scan _ used (sf_hint file) 0 (block_units data)) as [i|].
  2:{ eexists (Some ENOSPC), 0, _. split; [done|]. split_and!; [done| |].
      - rewrite <- Hu. apply file_rep_store; try done. apply Hr.
      - right; right; left. split; [done|]. intros f Hf0 Hfn.
        destruct (decide (sf_hint file <= f)) as [Hge|Hlt].
        + destruct (Hscan f) as (u & Hur & Ho); [lia..|]. apply Hocc in Ho as (t & d & Htd); [|lia]. eauto 10.
        + assert (Ho : occupied used f = true) by (apply Hh; lia).
          apply Hocc in Ho as (t & d & Htd); [|lia]. exists f, t, d. split; [lia|done]. }
  destruct Hscan as (Hi1 & Hi2 & Hfree). set (first := i + 1 - block_units data) in *.
  assert (Hrun : forall v, first <= v < first + block_units data -> occupied used v = false)
    by (intros v Hv; apply Hfree; lia).
  assert (Hfit : first + block_units data <= sf_units file) by lia.
  pose proof (units_bytes _ _ _ Hr Hfit) as Hub.
  destruct (st_write_ok (sf_store file) (first * SWAP_FILE_UNIT) data)
    as (r & store & Hw & Hok & Hsz & _ & dn & Hdn & Hall & Hbytes); [apply Hr|unfold SWAP_FILE_UNIT in *; lia..|].
  rewrite Hw. cbn [mbind option_bind]. destruct r as [e|].
  - destruct (swap_file_undo file blocks used first data store
      (stats_write (stats_use (stats_scan (sf_stats file) (i - sf_hint file + 1) scan_elapsed 0)
        (block_units data)) write_elapsed 0 1)) as (file' & Hdis & Hr'); try done; [lia| |].
    { intros t d j Htd Hj. pose proof (block_byte_range _ _ _ _ _ Hr Htd Hj).
      pose proof (free_run_bytes _ _ _ _ _ _ _ _ Hr Hu Hrun ltac:(lia) Hfit Htd Hj).
      rewrite Hbytes by lia. case_bool_decide; [unfold SWAP_FILE_UNIT in *; lia|done]. }
    rewrite Hdis. cbn [mbind option_bind]. exists (Some e), 0, file'. split; [done|]. split_and!; [done..|].
    right; right; right. eauto.
  - specialize (Hall eq_refl). subst dn. eexists None, _, _. split; [done|].
    set (used' := occupy_run (Z.to_nat (block_units data)) used first).
    destruct (occupy_run_spec (Z.to_nat (block_units data)) used first (sf_units file)) as [_ Ho'];
      [done|lia..|]. fold used' in Ho'.
    destruct (hint_advance_spec (Z.to_nat (sf_units file - sf_hint file)) used' (sf_hint file)) as [Ha1 Ha2].
    { intros v Hv. rewrite Ho' by lia. rewrite Hh by lia. apply orb_true_r. }
    { lia. }
    apply (file_rep_insert file blocks used first data); try done; lia.
Qed.

(** ** Sequences of calls

    [blocks] is the saved blocks that were not discarded. *)
Inductive swap_file_step : swap_file St * gmap Z (list Z) -> swap_file St * gmap Z (list Z) -> Prop :=
| step_save file blocks data e1 e2 token file' :
    swap_file_save file data e1 e2 = Some (None, token, file') ->
    swap_file_step (file, blocks) (file', <[token := data]> blocks)
| step_save_fails file blocks data e1 e2 err token file' :
    swap_file_save file data e1 e2 = Some (Some err, token, file') ->
    swap_file_step (file, blocks) (file', blocks)
| step_load file blocks token data e r got file' :
    blocks !! token = Some data -> swap_file_load file token (length data) e = Some (r, got, file') ->
    swap_file_step (file, blocks) (file', blocks)
| step_discard file blocks token data file' :
    blocks !! token = Some data -> swap_file_discard file token (Z.of_nat (length data)) = Some file' ->
    swap_file_step (file, blocks) (file', delete token blocks).

Lemma swap_file_step_rep x y :
  swap_file_step x y -> file_rep (fst x) (snd x) -> file_rep (fst y) (snd y).
Proof.
  intros Hstep. destruct Hstep as [file blocks data e1 e2 token file' Hrun|
    file blocks data e1 e2 err token file' Hrun|file blocks token data e r got file' Ht Hrun|
    file blocks token data file' Ht Hrun]; simpl; intros Hr.
  - destruct (swap_file_save_spec file blocks data e1 e2 Hr) as (r & t & f & Hrun' & H).
    rewrite Hrun in Hrun'. injection Hrun' as <- <- <-. apply H.
  - destruct (swap_file_save_spec file blocks data e1 e2 Hr) as (r & t & f & Hrun' & H).
    rewrite Hrun in Hrun'. injection Hrun' as <- <- <-. apply H.
  - destruct (swap_file_load_spec file blocks token data e Hr Ht) as (r' & g & f & Hrun' & H & _).
    rewrite Hrun in Hrun'. by injection Hrun' as <- <- <-.
  - destruct (swap_file_discard_spec file blocks token data Hr Ht) as (f & Hrun' & H & _).
    rewrite Hrun in Hrun'. by injection Hrun' as <-.
Qed.

Lemma swap_file_open_rep store file :
  st_ok store -> swap_file_open store true = (None, file) -> file_rep file ∅.
Proof.
  intros Hok [= <-]. pose proof (st_size_range _ Hok).
  assert (0 <= st_size store / SWAP_FILE_UNIT) by (apply Z.div_pos; unfold SWAP_FILE_UNIT; lia).
  constructor; cbn; try done.
  eexists. split; [done|]. unfold bitmap_fits. rewrite length_replicate. split; [zlia|].
  split; [lia|]. intros u Hu. split; [|intros (t & d & [=] & _)].
  rewrite occupied_testbit by lia. rewrite lookup_total_replicate_2 by zlia. by rewrite Z.bits_0.
Qed.

End blocks.

(** saving always returns. On success the token is new and the blocks are
    those before and the new one; on failure the blocks are as they were, the
    units taken for a write that failed are given back, and the reason is an
    empty or oversized block, no run of free units anywhere in the file, or
    the store's error. *)
Theorem swap_file_save_correct {St : Type} `{!SwapStore St} (file : swap_file St) blocks data e1 e2 :
  file_rep file blocks ->
  exists r token file', swap_file_save file data e1 e2 = Some (r, token, file') /\
    match r with
    | None => blocks !! token = None /\ file_rep file' (<[token := data]> blocks)
    | Some e => token = 0 /\ file_rep file' blocks /\
        (data = [] \/ st_size (sf_store file) < Z.of_nat (length data) \/
         e = ENOSPC /\ no_free_run file blocks (block_units data) \/
         exists offset s', st_write (sf_store file) offset data = Some (Some e, s'))
    end.
Proof. apply swap_file_save_spec. Qed.

(** C8: from a newly opened file, after any sequence of saves, failed saves,
    loads and discards, every block that was saved and not discarded can be
    loaded: the load answers what the store answers to a read of its units,
    which is success while no call of the system fails, and a load that succeeds
    gives the block as it was saved. Discarding it succeeds and keeps the
    others. *)
Theorem swap_file_roundtrip {St : Type} `{!SwapStore St} (store : St) file0 file blocks token data e :
  st_ok store -> swap_file_open store true = (None, file0) ->
  rtc swap_file_step (file0, ∅) (file, blocks) -> blocks !! token = Some data ->
  (exists r got file', swap_file_load file token (length data) e = Some (r, got, file') /\
     file_rep file' blocks /\ (r = None -> got = data) /\
     (exists s', st_read (sf_store file) ((token - 1) * SWAP_FILE_UNIT) (length data) = Some (r, got, s')) /\
     (st_fine (sf_store file) -> r = None)) /\
  (exists file', swap_file_discard file token (Z.of_nat (length data)) = Some file' /\
     file_rep file' (delete token blocks)).
Proof.
  intros Hok Hopen Hrun Ht.
  assert (Hr : file_rep file blocks).
  { change (file_rep (fst (file, blocks)) (snd (file, blocks))).
    apply (rtc_keeps _ (fun x => file_rep (fst x) (snd x)) _ _ swap_file_step_rep Hrun).
    by apply (swap_file_open_rep store). }
  split; [by apply swap_file_load_spec|].
  destruct (swap_file_discard_spec file blocks token data Hr Ht) as (f & H1 & H2 & _). eauto.
Qed.

(** ** Witnesses: a store in memory *)

Definition mem_write (s : list Z) (offset : Z) (data : list Z) : option (option Z * list Z) :=
  if decide (0 <= offset /\ offset + Z.of_nat (length data) <= Z.of_nat (length s))
  then Some (None, splice s (Z.to_nat offset) data) else Some (Some EINVAL, s).

#[export, refine] Instance mem_store : SwapStore (list Z) := {
  st_ok s := Z.of_nat (length s) <= 2 ^ 33;
  st_fine _ := True;
  st_size s := Z.of_nat (length s);
  st_byte s o := s !! Z.to_nat o;
  st_write := mem_write;
  st_read s offset size := Some (None, take size (drop (Z.to_nat offset) s), s);
  st_close s := []
}.
Proof.
  - lia.
  - intros s offset data Hok Ho Hs. unfold mem_write. rewrite decide_True by done.
    assert (Hl : length (splice s (Z.to_nat offset) data) = length s) by (apply length_splice; lia).
    exists None, (splice s (Z.to_nat offset) data). rewrite Hl. split_and!; [done..|].
    exists (length data). split_and!; [done..|]. intros o Hr. case_bool_decide.
    + rewrite lookup_splice_in by lia. f_equal. lia.
    + by rewrite lookup_splice_out by lia.
  - intros s offset size Hok Ho Hs. eexists None, _, s. split_and!; [done..|]. intros _.
    rewrite length_take, length_drop. split; [lia|]. intros j Hj.
    rewrite lookup_take_lt, lookup_drop by done. f_equal. lia.
Defined.

(** Two units. *)
Definition mem_example : list Z := replicate 8192 0.
Definition file_example : swap_file (list Z) := snd (swap_file_open mem_example true).

Lemma mem_example_ok : st_ok mem_example.
Proof. unfold mem_example. cbn. by vm_compute. Qed.

Lemma swap_file_save_correct_witness :
  exists r token file', swap_file_save file_example [1; 2; 3] 0 0 = Some (r, token, file') /\
    r = None /\ token = 1 /\ file_rep file' (<[1 := [1; 2; 3]]> ∅).
Proof.
  destruct (swap_file_save_correct file_example ∅ [1; 2; 3] 0 0) as (r & token & file' & Hrun & H).
  - apply (swap_file_open_rep mem_example); [apply mem_example_ok|reflexivity].
  - assert (Hrt : r = None /\ token = 1).
    { apply (f_equal (fmap fst)) in Hrun. vm_compute in Hrun. injection Hrun as <- <-. done. }
    destruct Hrt as [-> ->]. exists None, 1, file'. split_and!; [exact Hrun|done..|apply H].
Defined.

Definition file_example_saved : swap_file (list Z) :=
  match swap_file_save file_example [1; 2; 3] 0 0 with Some (_, _, f) => f | None => file_example end.

Lemma swap_file_roundtrip_witness :
  exists file', swap_file_load file_example_saved 1 3 0 = Some (None, [1; 2; 3], file').
Proof.
  destruct (swap_file_roundtrip mem_example file_example file_example_saved {[1 := [1; 2; 3]]} 1 [1; 2; 3] 0)
    as [(r & got & file' & H1 & _ & H2 & _ & H3) _].
  - apply mem_example_ok.
  - reflexivity.
  - apply rtc_once. apply (step_save file_example ∅ [1; 2; 3] 0 0 1 file_example_saved).
    vm_compute. reflexivity.
  - reflexivity.
  - rewrite (H3 I) in H1, H2. rewrite (H2 eq_refl) in H1. exists file'. exact H1.
Defined.
