(* ===== verification/SdWriteBuffer.v ===== *)
(** * Writes held back from the SD card (horizon-wine/source/sd_write_buffer.h)

    A window of the file with the part of it that is not on the card yet. The
    card is the callback [out], a parameter; what the buffer relies on is the
    class [SdCard]. File positions are [long long]: signed arithmetic that the
    code relies on not to overflow, so plain integers here. *)
From S2P Require Import Prelude.
Local Open Scope Z_scope.

Definition SD_WRITE_BUFFER_SIZE : Z := 1024 * 1024.
Definition SD_WRITE_DIRECT : Z := 64 * 1024.

(** [wb_data] is the first [len] bytes of the buffer: the rest of it is never
    read before it is written. *)
Record sd_write_buffer := mk_write_buffer {
  wb_key : Z;
  wb_start : Z;
  wb_data : list Z;
  wb_dirty_from : Z;
  wb_dirty_to : Z;
  wb_pos : Z
}.
Definition wb_len (wb : sd_write_buffer) : Z := Z.of_nat (length (wb_data wb)).

Section buffer.
(** [out ctx key offset bytes]: how many bytes were written, or -1. *)
Context {C : Type} (out : C -> Z -> Z -> list Z -> Z * C).

Definition sd_write_find (list_ : list sd_write_buffer) (key : Z) : option (nat * sd_write_buffer) :=
  i ← first_index (fun wb => wb_key wb =? key) list_;
  wb ← list_ !! i;
  Some (i, wb).

Definition sd_write_dirty (wb : sd_write_buffer) : bool := wb_dirty_from wb <? wb_dirty_to wb.

Definition sd_write_position (wb : option sd_write_buffer) (card_position : Z) : Z :=
  match wb with
  | Some wb => if nonzero (wb_len wb) then wb_pos wb else card_position
  | None => card_position
  end.

Definition wb_clean (wb : sd_write_buffer) : sd_write_buffer :=
  mk_write_buffer (wb_key wb) (wb_start wb) (wb_data wb) 0 0 (wb_pos wb).

Definition sd_write_seek (wb : sd_write_buffer) (pos : Z) : sd_write_buffer :=
  mk_write_buffer (wb_key wb) (wb_start wb) (wb_data wb) (wb_dirty_from wb) (wb_dirty_to wb) pos.

(** The loop of [sd_write_flush] from [done] on: whether all went out. [None]
    if it runs out of [fuel]. *)
Fixpoint flush_loop (fuel : nat) (ctx : C) (wb : sd_write_buffer) (done : Z) : option (bool * C) :=
  if negb (done <? wb_dirty_to wb) then Some (true, ctx)
  else
    match fuel with
    | O => None
    | S fuel =>
        let bytes := take (Z.to_nat (wb_dirty_to wb - done)) (drop (Z.to_nat done) (wb_data wb)) in
        let '(ret, ctx) := out ctx (wb_key wb) (wb_start wb + done) bytes in
        if ret <=? 0 then Some (false, ctx) else flush_loop fuel ctx wb (done + ret)
    end.

Definition sd_write_flush (wb : sd_write_buffer) (ctx : C) : option (Z * sd_write_buffer * C) :=
  if negb (sd_write_dirty wb) then Some (0, wb, ctx)
  else
    match flush_loop (Z.to_nat (wb_dirty_to wb - wb_dirty_from wb)) ctx wb (wb_dirty_from wb) with
    | Some (ok, ctx) => Some (if ok then 0 else -1, wb_clean wb, ctx)
    | None => None
    end.

Definition sd_write_drop (wb : sd_write_buffer) : sd_write_buffer :=
  mk_write_buffer (wb_key wb) (wb_start wb) [] 0 0 (wb_pos wb).

(** The write is put in the window, which it starts when there is none. *)
Definition take_copy (wb : sd_write_buffer) (pos : Z) (bytes : list Z) : sd_write_buffer :=
  let start := if wb_len wb =? 0 then pos else wb_start wb in
  let at_ := pos - start in
  let end_ := at_ + Z.of_nat (length bytes) in
  let data := splice (wb_data wb) (Z.to_nat at_) bytes in
  let dirty_from := if negb (sd_write_dirty wb) then at_
                    else if at_ <? wb_dirty_from wb then at_ else wb_dirty_from wb in
  let dirty_to := if negb (sd_write_dirty wb) then end_
                  else if wb_dirty_to wb <? end_ then end_ else wb_dirty_to wb in
  mk_write_buffer (wb_key wb) start data dirty_from dirty_to (pos + Z.of_nat (length bytes)).

(** The write does not go with the window there is. *)
Definition take_misfit (wb : sd_write_buffer) (pos len : Z) : bool :=
  nonzero (wb_len wb) &&
  ((SD_WRITE_DIRECT <=? len) || (pos <? wb_start wb) || (wb_start wb + wb_len wb <? pos) ||
   (SD_WRITE_BUFFER_SIZE <? pos - wb_start wb + len)).

(** The window is sent out and dropped when the write does not go with it;
    whether that failed. *)
Definition take_make_room (wb : sd_write_buffer) (pos len : Z) (ctx : C)
    : option (bool * sd_write_buffer * C) :=
  if take_misfit wb pos len then
    match sd_write_flush wb ctx with
    | Some (ret, wb, ctx) => Some (nonzero ret, sd_write_drop wb, ctx)
    | None => None
    end
  else Some (false, wb, ctx).

(** [mem]: whether a new buffer can be allocated. *)
Definition sd_write_take (list_ : list sd_write_buffer) (key pos : Z) (bytes : list Z) (ctx : C)
    (mem : bool) : option (Z * list sd_write_buffer * C) :=
  let len := Z.of_nat (length bytes) in
  if len =? 0 then Some (0, list_, ctx)
  else
    match sd_write_find list_ key with
    | Some (i, wb) =>
        match take_make_room wb pos len ctx with
        | None => None
        | Some (true, wb, ctx) => Some (-1, <[i := wb]> list_, ctx)
        | Some (false, wb, ctx) =>
            if SD_WRITE_DIRECT <=? len then Some (0, <[i := wb]> list_, ctx)
            else Some (1, <[i := take_copy wb pos bytes]> list_, ctx)
        end
    | None =>
        if SD_WRITE_DIRECT <=? len then Some (0, list_, ctx)
        else if negb mem then Some (0, list_, ctx)
        else Some (1, take_copy (mk_write_buffer key 0 [] 0 0 0) pos bytes :: list_, ctx)
    end.

Definition sd_write_forget (list_ : list sd_write_buffer) (key : Z) : list sd_write_buffer :=
  match first_index (fun wb => wb_key wb =? key) list_ with
  | Some i => delete i list_
  | None => list_
  end.

End buffer.

(** ** What the buffer relies on *)

Class SdCard {C : Type} (out : C -> Z -> Z -> list Z -> Z * C) := {
  (** the byte of a file at an offset; zero past its end *)
  card_byte : C -> Z -> Z -> Z;
  out_ok ctx key offset bytes ret ctx' : out ctx key offset bytes = (ret, ctx') -> bytes <> [] ->
    ret <= Z.of_nat (length bytes) /\
    forall k o, card_byte ctx' k o =
      if bool_decide (k = key /\ offset <= o < offset + ret)
      then bytes !!! Z.to_nat (o - offset) else card_byte ctx k o
}.

Section verification.
Context {C : Type} (out : C -> Z -> Z -> list Z -> Z * C) `{!SdCard out}.

(** The part of the window not on the card lies in it, the rest of it is as on
    the card, and it is not larger than the buffer. *)
Record wb_ok (ctx : C) (wb : sd_write_buffer) : Prop := {
  wk_size : wb_len wb <= SD_WRITE_BUFFER_SIZE;
  wk_dirty : sd_write_dirty wb = true -> 0 <= wb_dirty_from wb /\ wb_dirty_to wb <= wb_len wb;
  wk_card j : 0 <= j < wb_len wb -> ~ (wb_dirty_from wb <= j < wb_dirty_to wb) ->
    wb_data wb !!! Z.to_nat j = card_byte ctx (wb_key wb) (wb_start wb + j)
}.

(** The file as the program wrote it. *)
Definition wb_byte (ctx : C) (wb : sd_write_buffer) (o : Z) : Z :=
  if bool_decide (wb_start wb + wb_dirty_from wb <= o < wb_start wb + wb_dirty_to wb)
  then wb_data wb !!! Z.to_nat (o - wb_start wb) else card_byte ctx (wb_key wb) o.

Lemma flush_loop_spec fuel ctx wb dn :
  0 <= dn -> wb_dirty_to wb <= wb_len wb -> (Z.to_nat (wb_dirty_to wb - dn) <= fuel)%nat ->
  exists ok ctx', flush_loop out fuel ctx wb dn = Some (ok, ctx') /\
    (forall k o, ~ (k = wb_key wb /\ wb_start wb + dn <= o < wb_start wb + wb_dirty_to wb) ->
       card_byte ctx' k o = card_byte ctx k o) /\
    (ok = true -> forall o, wb_start wb + dn <= o < wb_start wb + wb_dirty_to wb ->
       card_byte ctx' (wb_key wb) o = wb_data wb !!! Z.to_nat (o - wb_start wb)).
Proof.
  revert ctx dn. induction fuel as [|fuel IH]; intros ctx dn H0 Hto Hfuel; cbn [flush_loop];
    (destruct (Z.ltb_spec dn (wb_dirty_to wb)) as [Hlt|Hge]; cbn [negb];
     [|exists true, ctx; split_and!; [done..|intros _ o Ho; lia]]); [lia|].
  unfold wb_len in Hto. set (bytes := take _ _).
  assert (Hlen : Z.of_nat (length bytes) = wb_dirty_to wb - dn)
    by (unfold bytes; rewrite length_take, length_drop; lia).
  assert (Hne : bytes <> []) by (intros E; rewrite E in Hlen; simpl in Hlen; lia).
  destruct (out ctx (wb_key wb) (wb_start wb + dn) bytes) as [ret ctx1] eqn:Hout.
  destruct (out_ok _ _ _ _ _ _ Hout Hne) as [Hret Hb].
  destruct (Z.leb_spec ret 0) as [Hneg|Hpos].
  { exists false, ctx1. split_and!; [done| |done]. intros k o Ho. rewrite Hb. case_bool_decide; [lia|done]. }
  destruct (IH ctx1 (dn + ret)) as (ok & ctx' & Hrun & Hout' & Hin); [lia|done|lia|].
  exists ok, ctx'. split_and!; [done| |].
  - intros k o Ho. rewrite Hout' by lia. rewrite Hb. case_bool_decide; [lia|done].
  - intros E o Ho. destruct (decide (wb_start wb + (dn + ret) <= o)); [apply Hin; [done|lia]|].
    rewrite Hout' by lia. rewrite Hb. case_bool_decide; [|lia]. unfold bytes.
    rewrite !list_lookup_total_alt, lookup_take_lt, lookup_drop by lia. do 2 f_equal. lia.
Qed.

(** The window of a file with nothing of it left to write. *)
Definition wb_flushed (wb wb' : sd_write_buffer) : Prop :=
  wb_key wb' = wb_key wb /\ wb_start wb' = wb_start wb /\ wb_data wb' = wb_data wb /\
  wb_pos wb' = wb_pos wb /\ sd_write_dirty wb' = false.

Lemma not_dirty_byte ctx wb o : sd_write_dirty wb = false -> wb_byte ctx wb o = card_byte ctx (wb_key wb) o.
Proof. unfold sd_write_dirty, wb_byte. intros Hd. btrue. case_bool_decide; [lia|done]. Qed.

(** A flush that succeeds puts the file on the card; whatever it answers it
    touches no other file, and the window stays with nothing dirty. *)
Lemma sd_write_flush_spec wb ctx :
  wb_ok ctx wb ->
  exists ret wb' ctx', sd_write_flush out wb ctx = Some (ret, wb', ctx') /\ wb_flushed wb wb' /\
    (ret = 0 \/ ret = -1) /\
    (forall k o, k <> wb_key wb -> card_byte ctx' k o = card_byte ctx k o) /\
    (ret = 0 -> forall o, card_byte ctx' (wb_key wb) o = wb_byte ctx wb o).
Proof.
  intros Hok. unfold sd_write_flush. destruct (sd_write_dirty wb) eqn:Hd; cbn [negb].
  - destruct (wk_dirty _ _ Hok Hd) as [H0 H1].
    destruct (flush_loop_spec (Z.to_nat (wb_dirty_to wb - wb_dirty_from wb)) ctx wb (wb_dirty_from wb))
      as (ok & ctx' & -> & Hout & Hin); [done..|].
    eexists _, _, ctx'. split; [done|]. split_and!; [done..| | |].
    + destruct ok; auto.
    + intros k o Hk. apply Hout. intros [? _]. done.
    + destruct ok; [|done]. intros _ o. unfold wb_byte. case_bool_decide as Hr.
      * by apply Hin.
      * apply Hout. intros [_ ?]. lia.
  - exists 0, wb, ctx. split; [done|]. split_and!; [done..|by left|done|].
    intros _ o. by rewrite not_dirty_byte.
Qed.

(** A write copied into a window it goes with. *)
Lemma take_copy_spec ctx wb pos bytes :
  wb_ok ctx wb -> (wb_len wb = 0 -> sd_write_dirty wb = false) -> bytes <> [] ->
  Z.of_nat (length bytes) < SD_WRITE_DIRECT ->
  (wb_len wb <> 0 -> wb_start wb <= pos <= wb_start wb + wb_len wb /\
     pos - wb_start wb + Z.of_nat (length bytes) <= SD_WRITE_BUFFER_SIZE) ->
  let wb' := take_copy wb pos bytes in
  wb_ok ctx wb' /\ wb_key wb' = wb_key wb /\ sd_write_dirty wb' = true /\ wb_len wb' <> 0 /\
  wb_pos wb' = pos + Z.of_nat (length bytes) /\
  forall o, wb_byte ctx wb' o =
    if bool_decide (pos <= o < pos + Z.of_nat (length bytes))
    then bytes !!! Z.to_nat (o - pos) else wb_byte ctx wb o.
Proof.
  intros [Hsz Hd Hcard] Hempty Hne Hdir Hfit. unfold wb_len in *. unfold take_copy, wb_len.
  assert (Hlen : 0 < Z.of_nat (length bytes)) by (destruct bytes; [done|simpl; lia]).
  set (start := if Z.of_nat (length (wb_data wb)) =? 0 then pos else wb_start wb).
  assert (Hst : start <= pos <= start + Z.of_nat (length (wb_data wb)) /\
    pos - start + Z.of_nat (length bytes) <= SD_WRITE_BUFFER_SIZE /\
    (sd_write_dirty wb = true -> start = wb_start wb) /\
    (0 < Z.of_nat (length (wb_data wb)) -> start = wb_start wb)).
  { unfold start, SD_WRITE_BUFFER_SIZE, SD_WRITE_DIRECT in *. destruct (Z.eqb_spec (Z.of_nat (length (wb_data wb))) 0) as [E|E].
    - rewrite (Hempty E). split_and!; [lia..|done|lia].
    - destruct (Hfit E). split_and!; done || lia. }
  destruct Hst as (Hst & Hroom & Hsd & Hsl). set (at_ := Z.to_nat (pos - start)).
  set (data := splice (wb_data wb) at_ bytes).
  assert (Hl : length data = (length (wb_data wb) `max` (at_ + length bytes))%nat)
    by (apply length_splice_grow; lia).
  set (from := if negb (sd_write_dirty wb) then _ else _).
  set (to := if negb (sd_write_dirty wb) then _ else _).
  assert (Hft : 0 <= from <= pos - start /\ pos - start + Z.of_nat (length bytes) <= to <= Z.of_nat (length data) /\
    (sd_write_dirty wb = true -> from <= wb_dirty_from wb /\ wb_dirty_to wb <= to)).
  { unfold from, to. destruct (sd_write_dirty wb) eqn:E; cbn [negb].
    - destruct (Hd eq_refl). split_and!; repeat case_if; btrue; lia.
    - split_and!; done || lia. }
  destruct Hft as (Hf & Ht & Hdt). unfold sd_write_dirty in Hd, Hsd, Hdt.
  assert (Hold : forall j, 0 <= j < Z.of_nat (length (wb_data wb)) -> 
    ~ (pos - start <= j < pos - start + Z.of_nat (length bytes)) ->
    data !!! Z.to_nat j = wb_data wb !!! Z.to_nat j).
  { intros j Hj Hn. rewrite !list_lookup_total_alt. f_equal. apply lookup_splice_grow_out; lia. }
  split_and!; cbn.
  - constructor; cbn; unfold wb_len; cbn; [lia|intros _; lia|]. intros j Hj Hn.
    rewrite Hold by lia. rewrite (Hsl ltac:(lia)). apply Hcard; [lia|].
    destruct (Z.ltb_spec (wb_dirty_from wb) (wb_dirty_to wb)); lia.
  - done.
  - unfold sd_write_dirty. cbn. lia.
  - lia.
  - done.
  - intros o. unfold wb_byte. cbn. case_bool_decide as H1.
    + case_bool_decide as H2.
      * rewrite !list_lookup_total_alt. f_equal. unfold data. rewrite lookup_splice_grow_in by lia.
        f_equal. lia.
      * assert (Ho : 0 <= o - start < Z.of_nat (length (wb_data wb))) by lia.
        rewrite Hold by lia. rewrite (Hsl ltac:(lia)) in *. case_bool_decide as H3; [done|].
        rewrite Hcard by lia. f_equal. lia.
    + case_bool_decide; [lia|]. case_bool_decide as H3; [|done].
      rewrite Hsd in * by lia. lia.
Qed.

(** ** All buffers *)

Definition find_wb (bufs : list sd_write_buffer) (key : Z) : option sd_write_buffer :=
  snd <$> sd_write_find bufs key.

(** The file under [key] as the program wrote it. *)
Definition file_byte (ctx : C) (bufs : list sd_write_buffer) (key o : Z) : Z :=
  match find_wb bufs key with
  | Some wb => wb_byte ctx wb o
  | None => card_byte ctx key o
  end.

Definition buf_ok (ctx : C) (wb : sd_write_buffer) : Prop :=
  wb_ok ctx wb /\ (wb_len wb = 0 -> sd_write_dirty wb = false).

Definition bufs_ok (ctx : C) (bufs : list sd_write_buffer) : Prop :=
  NoDup (wb_key <$> bufs) /\ Forall (buf_ok ctx) bufs.

Lemma find_Some bufs key i wb :
  sd_write_find bufs key = Some (i, wb) -> bufs !! i = Some wb /\ wb_key wb = key.
Proof.
  unfold sd_write_find. destruct (first_index _ bufs) as [j|] eqn:Hf; [|done].
  apply first_index_Some in Hf as (x & Hx & Hp & _). cbn. rewrite Hx. cbn. intros [= <- <-]. btrue. done.
Qed.

Lemma find_None bufs key : sd_write_find bufs key = None -> forall wb, wb ∈ bufs -> wb_key wb <> key.
Proof.
  unfold sd_write_find. destruct (first_index _ bufs) as [j|] eqn:Hf.
  - pose proof (first_index_lt _ _ _ Hf). apply first_index_Some in Hf as (x & Hx & _).
    cbn. by rewrite Hx.
  - intros _ wb Hin. apply first_index_None in Hf. eapply list.Forall_forall in Hf; [|done]. btrue. done.
Qed.

Lemma find_wb_in bufs i wb :
  NoDup (wb_key <$> bufs) -> bufs !! i = Some wb -> find_wb bufs (wb_key wb) = Some wb.
Proof.
  intros Hn Hi. unfold find_wb. destruct (sd_write_find bufs (wb_key wb)) as [[j wb']|] eqn:Hf.
  - destruct (find_Some _ _ _ _ Hf) as [Hj Hk]. cbn. f_equal.
    assert (i = j) as ->; [|congruence].
    eapply (NoDup_lookup (wb_key <$> bufs)); [done|rewrite list_lookup_fmap, Hi; done|].
    by rewrite list_lookup_fmap, Hj; cbn; rewrite Hk.
  - exfalso. eapply find_None; [done| |reflexivity]. by eapply list_elem_of_lookup_2.
Qed.

Lemma find_wb_not bufs key : (forall wb, wb ∈ bufs -> wb_key wb <> key) -> find_wb bufs key = None.
Proof.
  intros Hno. unfold find_wb. destruct (sd_write_find bufs key) as [[j wb]|] eqn:Hf; [|done].
  destruct (find_Some _ _ _ _ Hf) as [Hj Hk]. by destruct (Hno wb); [eapply list_elem_of_lookup_2|].
Qed.

Lemma find_wb_Some bufs key wb : find_wb bufs key = Some wb -> exists i, bufs !! i = Some wb /\ wb_key wb = key.
Proof.
  unfold find_wb. destruct (sd_write_find bufs key) as [[i w]|] eqn:Hf; [|done].
  intros [= <-]. exists i. by apply find_Some.
Qed.

Lemma buf_ok_card ctx ctx' wb :
  (forall o, card_byte ctx' (wb_key wb) o = card_byte ctx (wb_key wb) o) -> buf_ok ctx wb -> buf_ok ctx' wb.
Proof. intros E [[H1 H2 H3] H4]. split; [|done]. constructor; [done..|]. intros. rewrite E. auto. Qed.

(** Replacing the buffer of [key], with writes to that file only. *)
Lemma bufs_replace ctx ctx' bufs i wb wb' :
  bufs_ok ctx bufs -> bufs !! i = Some wb -> wb_key wb' = wb_key wb -> buf_ok ctx' wb' ->
  (forall k o, k <> wb_key wb -> card_byte ctx' k o = card_byte ctx k o) ->
  bufs_ok ctx' (<[i := wb']> bufs) /\ find_wb (<[i := wb']> bufs) (wb_key wb) = Some wb' /\
  forall k o, k <> wb_key wb -> file_byte ctx' (<[i := wb']> bufs) k o = file_byte ctx bufs k o.
Proof.
  intros [Hn Hok] Hi Hk Hok' Hoth.
  assert (Hkeys : wb_key <$> <[i := wb']> bufs = wb_key <$> bufs).
  { rewrite list_fmap_insert. apply list_insert_id. by rewrite list_lookup_fmap, Hi, Hk. }
  assert (Hlt : (i < length bufs)%nat) by (by eapply lookup_lt_Some).
  assert (Hn' : NoDup (wb_key <$> <[i := wb']> bufs)) by (by rewrite Hkeys).
  assert (Hi' : <[i := wb']> bufs !! i = Some wb') by (by apply list_lookup_insert_eq).
  split_and!; [split; [done|]| |].
  - apply Forall_lookup. intros j w Hj. destruct (decide (i = j)) as [<-|Hne].
    + rewrite list_lookup_insert_eq in Hj by done. by injection Hj as <-.
    + rewrite list_lookup_insert_ne in Hj by done.
      apply (buf_ok_card ctx); [|by eapply Forall_lookup_1]. intros o. apply Hoth. intros E.
      apply Hne. eapply (NoDup_lookup (wb_key <$> bufs)); [done|by rewrite list_lookup_fmap, Hi|].
      by rewrite list_lookup_fmap, Hj; cbn; rewrite E.
  - rewrite <- Hk. by apply (find_wb_in _ i).
  - intros k o Hne. unfold file_byte.
    destruct (find_wb bufs k) as [w|] eqn:Hf.
    + apply find_wb_Some in Hf as (j & Hj & <-).
      assert (i <> j) by (intros <-; congruence).
      rewrite (find_wb_in _ j w); [|done|by rewrite list_lookup_insert_ne].
      unfold wb_byte. by rewrite Hoth.
    + rewrite find_wb_not; [by apply Hoth|]. intros w Hin E.
      apply list_elem_of_lookup in Hin as [j Hj]. destruct (decide (i = j)) as [<-|Hne'].
      * rewrite Hi' in Hj. injection Hj as <-. congruence.
      * rewrite list_lookup_insert_ne in Hj by done. subst k. by rewrite (find_wb_in _ j w) in Hf.
Qed.

Lemma bufs_lookup_ok ctx bufs i wb : bufs_ok ctx bufs -> bufs !! i = Some wb -> buf_ok ctx wb.
Proof. intros [_ H] Hi. by eapply Forall_lookup_1. Qed.

Lemma sd_write_drop_ok ctx wb : buf_ok ctx (sd_write_drop wb).
Proof. split; [|done]. constructor; unfold wb_len; cbn; [done..|]. intros j Hj. lia. Qed.

Lemma take_make_room_spec ctx wb pos len :
  buf_ok ctx wb -> 0 < len ->
  exists failed wb' ctx', take_make_room out wb pos len ctx = Some (failed, wb', ctx') /\
    wb_key wb' = wb_key wb /\ buf_ok ctx' wb' /\
    (forall k o, k <> wb_key wb -> card_byte ctx' k o = card_byte ctx k o) /\
    (failed = false -> take_misfit wb' pos len = false /\
       (SD_WRITE_DIRECT <= len -> wb_len wb' = 0) /\
       forall o, wb_byte ctx' wb' o = wb_byte ctx wb o).
Proof.
  intros [Hok Hemp] Hlen. unfold take_make_room. destruct (take_misfit wb pos len) eqn:Hm.
  - destruct (sd_write_flush_spec wb ctx Hok) as (ret & wb1 & ctx1 & -> & Hfl & Hret & Hoth & Hcard).
    destruct Hfl as (Hk & _). exists (nonzero ret), (sd_write_drop wb1), ctx1.
    split_and!; [done..|apply sd_write_drop_ok|done|]. intros E. unfold nonzero in E. btrue.
    split_and!; [done..|]. intros o. rewrite not_dirty_byte by done. cbn. rewrite Hk. by apply Hcard.
  - exists false, wb, ctx. split_and!; [done..|]. intros _. split_and!; [done| |done].
    intros Hd. unfold take_misfit in Hm. destruct (nonzero (wb_len wb)) eqn:E; [|unfold nonzero in E; btrue; done].
    cbn [andb] in Hm. btrue. lia.
Qed.

Lemma take_misfit_false wb pos len :
  take_misfit wb pos len = false -> wb_len wb <> 0 ->
  wb_start wb <= pos <= wb_start wb + wb_len wb /\ pos - wb_start wb + len <= SD_WRITE_BUFFER_SIZE.
Proof.
  unfold take_misfit. intros Hm Hne. replace (nonzero (wb_len wb)) with true in Hm by (unfold nonzero; lia).
  cbn [andb] in Hm. btrue. lia.
Qed.

(** What [sd_write_take] does, by its answer. *)
Definition take_post (ctx ctx' : C) (bufs bufs' : list sd_write_buffer) (key pos : Z)
    (bytes : list Z) (ret : Z) : Prop :=
  bufs_ok ctx' bufs' /\
  (forall k o, k <> key -> file_byte ctx' bufs' k o = file_byte ctx bufs k o) /\
  (ret = 1 /\ (forall o, file_byte ctx' bufs' key o =
       if bool_decide (pos <= o < pos + Z.of_nat (length bytes))
       then bytes !!! Z.to_nat (o - pos) else file_byte ctx bufs key o) /\
     (forall card, sd_write_position (find_wb bufs' key) card = pos + Z.of_nat (length bytes)) \/
   ret = 0 /\ (forall o, file_byte ctx' bufs' key o = file_byte ctx bufs key o) /\
     (bytes <> [] -> forall o, card_byte ctx' key o = file_byte ctx bufs key o) \/
   ret = -1 /\ bytes <> []).

Lemma take_held_spec ctx bufs i wb pos bytes ctx0 bufs0 :
  bufs_ok ctx bufs -> bufs !! i = Some wb -> bytes <> [] ->
  Z.of_nat (length bytes) < SD_WRITE_DIRECT -> take_misfit wb pos (Z.of_nat (length bytes)) = false ->
  (forall k o, k <> wb_key wb -> file_byte ctx bufs k o = file_byte ctx0 bufs0 k o) ->
  (forall o, wb_byte ctx wb o = file_byte ctx0 bufs0 (wb_key wb) o) ->
  take_post ctx0 ctx bufs0 (<[i := take_copy wb pos bytes]> bufs) (wb_key wb) pos bytes 1.
Proof.
  intros Hok Hi Hne Hdir Hfit Hoth Hb. destruct (bufs_lookup_ok _ _ _ _ Hok Hi) as [Hwb Hemp].
  destruct (take_copy_spec ctx wb pos bytes) as (Hwb' & Hk & Hd & Hl & Hpos & Hbytes); try done.
  { intros Hn. by apply take_misfit_false. }
  destruct (bufs_replace ctx ctx bufs i wb (take_copy wb pos bytes)) as (H1 & H2 & H3); try done.
  split_and!; [done| |].
  - intros k o Hk'. by rewrite H3, Hoth.
  - left. split_and!; [done| |].
    + intros o. unfold file_byte at 1. rewrite H2, Hbytes. case_bool_decide; [done|apply Hb].
    + intros card. rewrite H2. unfold sd_write_position.
      replace (nonzero (wb_len (take_copy wb pos bytes))) with true by (unfold nonzero; lia). done.
Qed.

Lemma sd_write_take_spec ctx bufs key pos bytes mem :
  bufs_ok ctx bufs ->
  exists ret bufs' ctx', sd_write_take out bufs key pos bytes ctx mem = Some (ret, bufs', ctx') /\
    take_post ctx ctx' bufs bufs' key pos bytes ret.
Proof.
  intros Hok. unfold sd_write_take. destruct (Z.eqb_spec (Z.of_nat (length bytes)) 0) as [E|E].
  { assert (bytes = []) as -> by (by destruct bytes). exists 0, bufs, ctx. split; [done|].
    split_and!; [done..|]. by right; left. }
  assert (Hne : bytes <> []) by (by intros ->).
  destruct (sd_write_find bufs key) as [[i wb]|] eqn:Hf.
  - destruct (find_Some _ _ _ _ Hf) as [Hi <-]. pose proof (bufs_lookup_ok _ _ _ _ Hok Hi) as Hwb.
    assert (Hfile : forall o, file_byte ctx bufs (wb_key wb) o = wb_byte ctx wb o).
    { intros o. unfold file_byte. rewrite (find_wb_in bufs i); [done|apply Hok|done]. }
    destruct (take_make_room_spec ctx wb pos (Z.of_nat (length bytes)) Hwb ltac:(lia))
      as (failed & wb1 & ctx1 & -> & Hk & Hwb1 & Hoth & Hroom).
    destruct (bufs_replace ctx ctx1 bufs i wb wb1 Hok Hi Hk Hwb1 Hoth) as (Hok1 & Hf1 & Hfo1).
    destruct failed.
    { eexists (-1), _, ctx1. split; [done|]. split_and!; [done..|]. by right; right. }
    destruct (Hroom eq_refl) as (Hfit & Hbig & Hsame).
    destruct (Z.leb_spec SD_WRITE_DIRECT (Z.of_nat (length bytes))) as [Hd|Hd].
    + eexists 0, _, ctx1. split; [done|]. split_and!; [done..|]. right; left. split_and!; [done| |].
      * intros o. unfold file_byte at 1. by rewrite Hf1, Hsame.
      * intros _ o. rewrite Hfile, <- Hsame, not_dirty_byte; [by rewrite Hk|]. apply Hwb1. auto.
    + eexists 1, _, ctx1. split; [done|].
      assert (Hi1 : <[i := wb1]> bufs !! i = Some wb1)
        by (apply list_lookup_insert_eq; by eapply lookup_lt_Some).
      pose proof (take_held_spec ctx1 (<[i := wb1]> bufs) i wb1 pos bytes ctx bufs Hok1 Hi1 Hne Hd Hfit) as Hpost.
      rewrite list_insert_insert_eq, Hk in Hpost. apply Hpost; [done|]. intros o. by rewrite Hsame.
  - assert (Hno : find_wb bufs key = None) by (unfold find_wb; by rewrite Hf).
    assert (Hcard : forall o, file_byte ctx bufs key o = card_byte ctx key o).
    { intros o. unfold file_byte. by rewrite Hno. }
    destruct (Z.leb_spec SD_WRITE_DIRECT (Z.of_nat (length bytes))) as [Hd|Hd];
      [|destruct mem; cbn [negb]]; [eexists 0, _, ctx; split; [done|]| |eexists 0, _, ctx; split; [done|]].
    1,3: split_and!; [done..|]; by right; left.
    eexists 1, _, ctx. split; [done|].
    set (wb := mk_write_buffer key 0 [] 0 0 0).
    assert (Hok1 : bufs_ok ctx (wb :: bufs)).
    { destruct Hok as [Hn Hall]. split.
      - cbn. apply NoDup_cons. split; [|done]. intros Hin. apply list_elem_of_fmap in Hin as (w & Hw & Hin).
        by apply (find_None _ _ Hf w Hin).
      - constructor; [|done]. apply (sd_write_drop_ok ctx wb). }
    change (take_copy wb pos bytes :: bufs) with (<[0%nat := take_copy wb pos bytes]> (wb :: bufs)).
    apply (take_held_spec ctx (wb :: bufs) 0 wb pos bytes ctx bufs); try done.
    + intros k o Hk. unfold file_byte. destruct (find_wb bufs k) as [w|] eqn:Hw.
      * apply find_wb_Some in Hw as (j & Hj & <-). by rewrite (find_wb_in (wb :: bufs) (S j) w); [|apply Hok1|].
      * rewrite find_wb_not; [done|]. intros w Hin Ew. apply elem_of_cons in Hin as [->|Hin]; [done|].
        apply list_elem_of_lookup in Hin as [j Hj]. subst k.
        rewrite (find_wb_in bufs j w) in Hw; [done|apply Hok|done].
    + intros o. rewrite Hcard. by rewrite not_dirty_byte.
Qed.

End verification.

(** A write that is taken (1) is part of the file from then on and nothing
    else of any file changes, the position after it is the one the program
    sees; one that is not (0) leaves every file as the program wrote it, with
    this one wholly on the card, for the caller to write in order; only a
    failed send (-1) loses bytes, and only of this file. Every file's window
    stays consistent with the card. *)
Theorem sd_write_take_correct {C : Type} (out : C -> Z -> Z -> list Z -> Z * C) `{!SdCard out}
    ctx bufs key pos bytes mem :
  bufs_ok out ctx bufs ->
  exists ret bufs' ctx', sd_write_take out bufs key pos bytes ctx mem = Some (ret, bufs', ctx') /\
    bufs_ok out ctx' bufs' /\
    (forall k o, k <> key -> file_byte out ctx' bufs' k o = file_byte out ctx bufs k o) /\
    (ret = 1 /\ (forall o, file_byte out ctx' bufs' key o =
         if bool_decide (pos <= o < pos + Z.of_nat (length bytes))
         then bytes !!! Z.to_nat (o - pos) else file_byte out ctx bufs key o) /\
       (forall card, sd_write_position (find_wb bufs' key) card = pos + Z.of_nat (length bytes)) \/
     ret = 0 /\ (forall o, file_byte out ctx' bufs' key o = file_byte out ctx bufs key o) /\
       (bytes <> [] -> forall o, card_byte ctx' key o = file_byte out ctx bufs key o) \/
     ret = -1 /\ bytes <> []).
Proof. apply sd_write_take_spec. Qed.

(** Sending a window out always ends; when it succeeds the file on the card
    is the file the program wrote, and in any case the window is kept, with
    nothing left to send, and no other file is touched. *)
Theorem sd_write_flush_correct {C : Type} (out : C -> Z -> Z -> list Z -> Z * C) `{!SdCard out} wb ctx :
  wb_ok out ctx wb ->
  exists ret wb' ctx', sd_write_flush out wb ctx = Some (ret, wb', ctx') /\
    wb_flushed wb wb' /\ (ret = 0 \/ ret = -1) /\
    (forall k o, k <> wb_key wb -> card_byte ctx' k o = card_byte ctx k o) /\
    (ret = 0 -> (forall o, card_byte ctx' (wb_key wb) o = wb_byte out ctx wb o) /\ wb_ok out ctx' wb').
Proof.
  intros Hok. destruct (sd_write_flush_spec out wb ctx Hok) as (ret & wb' & ctx' & H1 & Hfl & H3 & H4 & H5).
  exists ret, wb', ctx'. split_and!; try done. intros E. specialize (H5 E). split; [done|].
  destruct Hfl as (Hk & Hs & Hd & _ & Hnd). destruct Hok as [Hsz Hdirty Hcard].
  constructor; unfold wb_len in *; rewrite ?Hk, ?Hs, ?Hd in *; [done| |].
  - by rewrite Hnd.
  - intros j Hj _. rewrite H5. unfold wb_byte. case_bool_decide as Hr.
    + f_equal. f_equal. lia.
    + apply Hcard; [done|]. lia.
Qed.

(** ** Witnesses: a card of finite maps that takes two bytes at a time *)

Notation map_card := (gmap (Z * Z) Z).

Fixpoint card_put (m : map_card) (key offset : Z) (bytes : list Z) : map_card :=
  match bytes with
  | [] => m
  | b :: bytes => <[(key, offset) := b]> (card_put m key (offset + 1) bytes)
  end.

Definition map_card_out (m : map_card) (key offset : Z) (bytes : list Z) : Z * map_card :=
  (Z.min 2 (Z.of_nat (length bytes)), card_put m key offset (take 2 bytes)).

Lemma card_put_spec m key offset bytes k o :
  default 0 (card_put m key offset bytes !! (k, o)) =
  if bool_decide (k = key /\ offset <= o < offset + Z.of_nat (length bytes))
  then bytes !!! Z.to_nat (o - offset) else default 0 (m !! (k, o)).
Proof.
  revert offset. induction bytes as [|b bytes IH]; intros offset; cbn [card_put].
  - case_bool_decide as H; [simpl in H; lia|done].
  - destruct (decide (key = k /\ offset = o)) as [[<- <-]|Hne].
    + rewrite lookup_insert_eq. case_bool_decide as H; [|simpl in H; lia]. by rewrite Z.sub_diag.
    + rewrite lookup_insert_ne, IH by naive_solver. case_bool_decide as H1; case_bool_decide as H2;
        simpl in H2; try lia.
      by replace (Z.to_nat (o - offset)) with (S (Z.to_nat (o - (offset + 1)))) by lia.
Qed.

#[export, refine] Instance map_card_ok : SdCard map_card_out := {
  card_byte m key o := default 0 (m !! (key, o))
}.
Proof.
  intros m key offset bytes ret m' [= <- <-] Hne. split; [lia|]. intros k o. rewrite card_put_spec.
  rewrite length_take. repeat case_bool_decide; try lia.
  rewrite !list_lookup_total_alt. by rewrite lookup_take_lt by lia.
Defined.

(** A window of four bytes, two of them to send. *)
Definition wb_example : sd_write_buffer := mk_write_buffer 9 100 [0; 0; 5; 6] 2 4 104.

Lemma wb_example_ok : wb_ok map_card_out ∅ wb_example.
Proof.
  constructor; unfold wb_len; cbn; [by vm_compute|lia|].
  intros j Hj Hn. rewrite lookup_empty. cbn. assert (j = 0 \/ j = 1) as [-> | ->] by lia; done.
Qed.

Lemma sd_write_take_correct_witness :
  exists bufs' ctx', sd_write_take map_card_out [wb_example] 9 101 [7; 8] ∅ true = Some (1, bufs', ctx') /\
    file_byte map_card_out ctx' bufs' 9 102 = 8 /\ file_byte map_card_out ctx' bufs' 9 103 = 6.
Proof.
  destruct (sd_write_take_correct map_card_out ∅ [wb_example] 9 101 [7; 8] true)
    as (ret & bufs' & ctx' & Hrun & _ & _ & H).
  - split; [apply NoDup_singleton|]. apply Forall_singleton. split; [apply wb_example_ok|]. done.
  - assert (Hr : ret = 1) by (apply (f_equal (fmap (fun x => fst (fst x)))) in Hrun; vm_compute in Hrun; by injection Hrun).
    exists bufs', ctx'. split; [by rewrite <- Hr|]. subst ret.
    destruct H as [(_ & Hb & _)|[(E & _)|(E & _)]]; [|lia..]. rewrite !Hb. done.
Defined.

Lemma sd_write_flush_correct_witness :
  exists wb' ctx', sd_write_flush map_card_out wb_example ∅ = Some (0, wb', ctx') /\
    card_byte ctx' 9 103 = 6.
Proof.
  destruct (sd_write_flush_correct map_card_out wb_example ∅ wb_example_ok)
    as (ret & wb' & ctx' & Hrun & _ & _ & _ & H).
  assert (Hr : ret = 0) by (apply (f_equal (fmap (fun x => fst (fst x)))) in Hrun; vm_compute in Hrun; by injection Hrun).
  exists wb', ctx'. split; [by rewrite <- Hr|]. rewrite (proj1 (H Hr)). done.
Defined.
