(* ===== verification/SdPath.v ===== *)
(** * Paths on the SD card (sd_cache_same_path and sd_stat_hash)

    A C string is the list of its bytes without the terminator. FAT ignores
    ASCII case, and repeated and trailing slashes name the same file. *)
From S2P Require Import Prelude.
Local Open Scope Z_scope.

Definition SLASH : Z := 47.

(** [strncmp( path, "sdmc:", 5 )] *)
Definition sdmc_prefix : list Z := [115; 100; 109; 99; 58].
Definition skip_device (path : list Z) : list Z :=
  if bool_decide (take 5 path = sdmc_prefix) then drop 5 path else path.

(** [while (a[0] == '/' && (a[1] == '/' || !a[1])) a++;] *)
Fixpoint skip_slashes (a : list Z) : list Z :=
  match a with
  | c :: r =>
      if (c =? SLASH) && (match r with [] => true | d :: _ => d =? SLASH end)
      then skip_slashes r else a
  | [] => []
  end.

Definition lower (c : Z) : Z := if (65 <=? c) && (c <=? 90) then c + 32 else c.

(** The loop of [sd_cache_same_path], one turn a character of [a]. [None] if
    it runs out of [fuel]. *)
Fixpoint same_path_loop (fuel : nat) (a b : list Z) : option bool :=
  match fuel with
  | O => None
  | S fuel =>
      match skip_slashes a, skip_slashes b with
      | [], [] => Some true
      | [], _ :: _ => Some false
      | _ :: _, [] => Some false
      | ca :: a, cb :: b =>
          if negb (lower ca =? lower cb) then Some false else same_path_loop fuel a b
      end
  end.

Definition sd_cache_same_path (a b : list Z) : option bool :=
  same_path_loop (S (length a)) (skip_device a) (skip_device b).

(** The loop of [sd_stat_hash]. *)
Fixpoint stat_hash_loop (fuel : nat) (path : list Z) (hash : Z) : option Z :=
  match fuel with
  | O => None
  | S fuel =>
      match skip_slashes path with
      | [] => Some hash
      | c :: path => stat_hash_loop fuel path (u32 (Z.lxor hash (u8 (lower c)) * 16777619))
      end
  end.

Definition sd_stat_hash (path : list Z) : option Z :=
  stat_hash_loop (S (length path)) (skip_device path) 2166136261.

(** ** Canonical paths

    Without the device, with single slashes and in lower case: what the two
    loops walk over. *)
Fixpoint canon_chars (a : list Z) : list Z :=
  match a with
  | c :: r =>
      if (c =? SLASH) && (match r with [] => true | d :: _ => d =? SLASH end)
      then canon_chars r else lower c :: canon_chars r
  | [] => []
  end.
Definition canon_path (path : list Z) : list Z := canon_chars (skip_device path).

Lemma skip_slashes_length a : (length (skip_slashes a) <= length a)%nat.
Proof. induction a as [|c r IH]; [done|]. cbn [skip_slashes]. destruct ((c =? SLASH) && _); cbn in *; lia. Qed.

Lemma canon_skip a :
  canon_chars a = match skip_slashes a with [] => [] | c :: r => lower c :: canon_chars r end.
Proof. induction a as [|c r IH]; [done|]. cbn [skip_slashes canon_chars]. by destruct ((c =? SLASH) && _). Qed.

Lemma same_path_loop_spec fuel a b :
  (length a < fuel)%nat -> same_path_loop fuel a b = Some (bool_decide (canon_chars a = canon_chars b)).
Proof.
  revert a b. induction fuel as [|fuel IH]; intros a b Hf; [lia|]. cbn [same_path_loop].
  rewrite (canon_skip a), (canon_skip b). pose proof (skip_slashes_length a) as Hl.
  destruct (skip_slashes a) as [|ca ra], (skip_slashes b) as [|cb rb]; cbn in Hl; try done.
  destruct (Z.eqb_spec (lower ca) (lower cb)) as [E|E]; cbn [negb].
  - rewrite IH by lia. rewrite E. f_equal. apply bool_decide_ext. split; congruence.
  - symmetry. f_equal. apply bool_decide_eq_false. congruence.
Qed.

Lemma skip_device_length a : (length (skip_device a) <= length a)%nat.
Proof. unfold skip_device. case_bool_decide; [rewrite length_drop|]; lia. Qed.

Lemma same_path_spec a b :
  sd_cache_same_path a b = Some (bool_decide (canon_path a = canon_path b)).
Proof. apply same_path_loop_spec. pose proof (skip_device_length a). lia. Qed.

(** The FNV hash of the canonical path. *)
Definition canon_hash (canon : list Z) : Z :=
  fold_left (fun hash c => u32 (Z.lxor hash (u8 c) * 16777619)) canon 2166136261.

Lemma stat_hash_loop_spec fuel a h :
  (length a < fuel)%nat ->
  stat_hash_loop fuel a h =
  Some (fold_left (fun hash c => u32 (Z.lxor hash (u8 c) * 16777619)) (canon_chars a) h).
Proof.
  revert a h. induction fuel as [|fuel IH]; intros a h Hf; [lia|]. cbn [stat_hash_loop].
  rewrite (canon_skip a). pose proof (skip_slashes_length a) as Hl.
  destruct (skip_slashes a) as [|c r]; [done|]. cbn in Hl |- *. apply IH. lia.
Qed.

Lemma stat_hash_spec a : sd_stat_hash a = Some (canon_hash (canon_path a)).
Proof. apply stat_hash_loop_spec. pose proof (skip_device_length a). lia. Qed.

Lemma canon_hash_range l : is_u32 (canon_hash l).
Proof.
  unfold canon_hash. assert (H : is_u32 2166136261) by (unfold is_u32; lia). revert H.
  generalize 2166136261. induction l as [|c l IH]; intros h Hh; [done|]. apply IH. apply u32_range.
Qed.

(** the comparison always ends and is an equivalence, that of the paths'
    canonical forms; two paths it takes for the same have the same hash, so a
    lookup by hash finds a path however it is spelled. *)
Theorem same_path_equivalence a b c :
  (exists r, sd_cache_same_path a b = Some r) /\
  sd_cache_same_path a a = Some true /\
  sd_cache_same_path a b = sd_cache_same_path b a /\
  (sd_cache_same_path a b = Some true -> sd_cache_same_path b c = Some true ->
   sd_cache_same_path a c = Some true) /\
  (sd_cache_same_path a b = Some true -> sd_stat_hash a = sd_stat_hash b) /\
  (sd_cache_same_path a b = Some true <-> canon_path a = canon_path b).
Proof.
  rewrite !same_path_spec, !stat_hash_spec. split_and!.
  - eauto.
  - by rewrite bool_decide_true.
  - f_equal. apply bool_decide_ext. split; congruence.
  - intros [= H1%bool_decide_eq_true] [= H2%bool_decide_eq_true].
    f_equal. apply bool_decide_eq_true. congruence.
  - intros [= H1%bool_decide_eq_true]. by rewrite H1.
  - split; [by intros [= H1%bool_decide_eq_true]|]. intros ->. by rewrite bool_decide_true.
Qed.

(** sdmc://A/b/ and /a//B *)
Example same_path_example :
  sd_cache_same_path [115;100;109;99;58;47;47;65;47;98;47] [47;97;47;47;66] = Some true.
Proof. reflexivity. Qed.
