(* ===== verification/SdStatCache.v ===== *)
(** * What stat said about paths (horizon-wine/source/sd_stat_cache.h)

    A four-way cache of 512 slots. Its promise is stated against what is on the
    card: while the callers forget every path they change, an answer of the
    cache is true of the card. [struct stat] is a type parameter. *)
From S2P Require Import Prelude SdPath.
Local Open Scope Z_scope.

Definition SD_STAT_SLOTS : Z := 512.
Definition SD_STAT_WAYS : nat := 4.
Definition ENOENT : Z := 2.

Record sd_stat_entry (T : Type) := mk_stat_entry {
  se_path : option (list Z);
  se_hash : Z;
  se_error : Z;
  se_used : Z;
  se_st : option T      (** [None]: all bytes zero *)
}.
Arguments mk_stat_entry {T} _ _ _ _ _.
Arguments se_path {T} _.
Arguments se_hash {T} _.
Arguments se_error {T} _.
Arguments se_used {T} _.
Arguments se_st {T} _.

Record sd_stat_cache (T : Type) := mk_stat_cache {
  sc_slots : list (sd_stat_entry T);
  sc_clock : Z;
  sc_hits : Z;
  sc_misses : Z
}.
Arguments mk_stat_cache {T} _ _ _ _.
Arguments sc_slots {T} _.
Arguments sc_clock {T} _.
Arguments sc_hits {T} _.
Arguments sc_misses {T} _.

(** [path[0] == '/' || !strncmp( path, "sdmc:/", 6 )] *)
Definition sd_stat_cacheable (path : list Z) : bool :=
  bool_decide (head path = Some SLASH) || bool_decide (take 6 path = sdmc_prefix ++ [SLASH]).

(** Question mark, star, angle brackets, bar, double quote, backslash, colon. *)
Definition stat_impossible_chars : list Z := [63; 42; 60; 62; 124; 34; 92; 58].
Definition sd_stat_impossible (path : list Z) : bool :=
  existsb (fun c => bool_decide (c ∈ stat_impossible_chars)) (skip_device path).

(** A path's hash and comparison; both loops always end (SdPath.v). *)
Definition hash_of (path : list Z) : Z := default 0 (sd_stat_hash path).
Definition same_path (a b : list Z) : bool := default false (sd_cache_same_path a b).

Section cache.
Context {T : Type}.
Implicit Types cache : sd_stat_cache T.

Definition entry_zero : sd_stat_entry T := mk_stat_entry None 0 0 0 None.
#[local] Instance entry_inhabited : Inhabited (sd_stat_entry T) := populate entry_zero.

Definition way (hash : Z) (i : nat) : nat := Z.to_nat (u32 (hash + Z.of_nat i) mod SD_STAT_SLOTS).

Definition entry_is (entry : sd_stat_entry T) (path : list Z) (hash : Z) : bool :=
  match se_path entry with
  | Some p => (se_hash entry =? hash) && same_path p path
  | None => false
  end.

(** The slot of the path's entry. *)
Definition sd_stat_find cache (path : list Z) (hash : Z) : option nat :=
  i ← first_index (fun i => entry_is (sc_slots cache !!! way hash i) path hash) (seq 0 SD_STAT_WAYS);
  Some (way hash i).

(** The answer of the cache: 1 with the error and, without one, the stat. *)
Definition sd_stat_lookup cache (path : list Z) : option (Z * option T) * sd_stat_cache T :=
  let hit clock := mk_stat_cache (sc_slots cache) clock (u32 (sc_hits cache + 1)) (sc_misses cache) in
  if sd_stat_impossible path then (Some (ENOENT, None), hit (sc_clock cache))
  else
    match (if sd_stat_cacheable path then sd_stat_find cache path (hash_of path) else None) with
    | None => (None, mk_stat_cache (sc_slots cache) (sc_clock cache) (sc_hits cache) (u32 (sc_misses cache + 1)))
    | Some i =>
        let entry := sc_slots cache !!! i in
        let clock := u32 (sc_clock cache + 1) in
        let entry' := mk_stat_entry (se_path entry) (se_hash entry) (se_error entry) clock (se_st entry) in
        (Some (se_error entry, if se_error entry =? 0 then se_st entry else None),
         mk_stat_cache (<[i := entry']> (sc_slots cache)) clock (u32 (sc_hits cache + 1)) (sc_misses cache))
    end.

(** The slot to take: the first free one of the four, else the one used
    longest ago. *)
Fixpoint stat_victim (slots : list (sd_stat_entry T)) (hash : Z) (ways : list nat) (oldest : option nat)
    : option nat :=
  match ways with
  | [] => oldest
  | i :: ways =>
      let slot := slots !!! way hash i in
      if bool_decide (se_path slot = None) then Some (way hash i)
      else
        stat_victim slots hash ways
          (match oldest with
           | None => Some (way hash i)
           | Some o => if se_used slot <? se_used (slots !!! o) then Some (way hash i) else oldest
           end)
  end.

(** [mem]: whether [strdup] succeeds. *)
Definition sd_stat_store cache (path : list Z) (st : T) (error : Z) (mem : bool) : sd_stat_cache T :=
  if negb (sd_stat_cacheable path) || (nonzero error && negb (error =? ENOENT)) then cache
  else
    let hash := hash_of path in
    let put i path hash :=
      let clock := u32 (sc_clock cache + 1) in
      mk_stat_cache
        (<[i := mk_stat_entry path hash error clock (if error =? 0 then Some st else None)]> (sc_slots cache))
        clock (sc_hits cache) (sc_misses cache) in
    match sd_stat_find cache path hash with
    | Some i => put i (se_path (sc_slots cache !!! i)) (se_hash (sc_slots cache !!! i))
    | None =>
        if negb mem then cache
        else
          match stat_victim (sc_slots cache) hash (seq 0 SD_STAT_WAYS) None with
          | Some i => put i (Some path) hash
          | None => cache
          end
    end.

Definition entry_forgotten (entry : sd_stat_entry T) : sd_stat_entry T :=
  mk_stat_entry None (se_hash entry) (se_error entry) (se_used entry) (se_st entry).

Definition sd_stat_forget cache (path : option (list Z)) : sd_stat_cache T :=
  match path with
  | None => cache
  | Some path =>
      if negb (sd_stat_cacheable path) then cache
      else
        match sd_stat_find cache path (hash_of path) with
        | None => cache
        | Some i =>
            mk_stat_cache (<[i := entry_forgotten (sc_slots cache !!! i)]> (sc_slots cache))
              (sc_clock cache) (sc_hits cache) (sc_misses cache)
        end
  end.

Definition sd_stat_forget_all cache : sd_stat_cache T :=
  mk_stat_cache (entry_forgotten <$> sc_slots cache) (sc_clock cache) (sc_hits cache) (sc_misses cache).

(** ** Well-formed caches *)

Lemma hash_of_canon path : hash_of path = canon_hash (canon_path path).
Proof. unfold hash_of. by rewrite stat_hash_spec. Qed.

Lemma same_path_canon a b : same_path a b = bool_decide (canon_path a = canon_path b).
Proof. unfold same_path. by rewrite same_path_spec. Qed.

Lemma way_lt h i : (way h i < 512)%nat.
Proof. unfold way, SD_STAT_SLOTS. pose proof (Z.mod_pos_bound (u32 (h + Z.of_nat i)) 512). lia. Qed.

(** An entry has its path's hash and is in one of its four slots; no two
    entries have the same path. *)
Record stat_cache_wf cache : Prop := {
  cw_slots : length (sc_slots cache) = 512%nat;
  cw_entry s entry p : sc_slots cache !! s = Some entry -> se_path entry = Some p ->
    se_hash entry = hash_of p /\ exists i, (i < SD_STAT_WAYS)%nat /\ s = way (hash_of p) i;
  cw_unique s1 e1 p1 s2 e2 p2 : sc_slots cache !! s1 = Some e1 -> se_path e1 = Some p1 ->
    sc_slots cache !! s2 = Some e2 -> se_path e2 = Some p2 -> canon_path p1 = canon_path p2 -> s1 = s2
}.

Lemma slot_at cache s : stat_cache_wf cache -> (s < 512)%nat -> sc_slots cache !! s = Some (sc_slots cache !!! s).
Proof. intros Hwf Hs. apply list_lookup_lookup_total_lt. by rewrite (cw_slots _ Hwf). Qed.

Lemma sd_stat_find_Some cache path s :
  stat_cache_wf cache -> sd_stat_find cache path (hash_of path) = Some s ->
  (s < 512)%nat /\ exists i p, (i < SD_STAT_WAYS)%nat /\ s = way (hash_of path) i /\
    se_path (sc_slots cache !!! s) = Some p /\ canon_path p = canon_path path.
Proof.
  intros Hwf. unfold sd_stat_find. destruct (first_index _ _) as [i|] eqn:Hf; [|done].
  cbn [mbind option_bind]. intros [= <-]. split; [apply way_lt|]. pose proof (first_index_lt _ _ _ Hf) as Hlt.
  rewrite length_seq in Hlt. apply first_index_Some in Hf as (x & Hx & Hp & _).
  apply lookup_seq in Hx as [-> _]. simpl in Hp. unfold entry_is in Hp.
  destruct (se_path _) as [p|] eqn:Hpath; [|done]. btrue. rewrite same_path_canon in *. btrue. eauto 10.
Qed.

Lemma sd_stat_find_None cache path :
  stat_cache_wf cache -> sd_stat_find cache path (hash_of path) = None ->
  forall s entry p, sc_slots cache !! s = Some entry -> se_path entry = Some p ->
    canon_path p <> canon_path path.
Proof.
  intros Hwf Hnone s entry p Hs Hp E. unfold sd_stat_find in Hnone.
  destruct (first_index _ _) as [i|] eqn:Hf; [done|]. apply first_index_None in Hf.
  destruct (cw_entry _ Hwf s entry p Hs Hp) as (Hh & i & Hi & ->).
  assert (Hhash : hash_of p = hash_of path) by (rewrite !hash_of_canon; congruence).
  eapply (list.Forall_forall _ _) in Hf; [|apply elem_of_seq; split; [lia|exact Hi]].
  rewrite Hhash in *. rewrite (list_lookup_total_correct _ _ _ Hs) in Hf.
  unfold entry_is in Hf. rewrite Hp, Hh, Z.eqb_refl, same_path_canon, bool_decide_true in Hf; done.
Qed.

Lemma stat_victim_way slots hash ways oldest s :
  (forall o, oldest = Some o -> exists i, (i < SD_STAT_WAYS)%nat /\ o = way hash i) ->
  Forall (fun i => i < SD_STAT_WAYS)%nat ways ->
  stat_victim slots hash ways oldest = Some s -> exists i, (i < SD_STAT_WAYS)%nat /\ s = way hash i.
Proof.
  revert oldest. induction ways as [|i ways IH]; intros oldest Ho Hw; cbn [stat_victim]; [auto|].
  inversion Hw; subst. case_bool_decide; [intros [= <-]; eauto|]. apply IH; [|done].
  intros o Heq. destruct oldest as [o'|]; [|injection Heq as <-; eauto].
  case_if; [injection Heq as <-; eauto|auto].
Qed.

(** Putting an entry for [path] in its slot, when no other slot has the path. *)
Lemma stat_put_wf cache s path entry clock hits misses i :
  stat_cache_wf cache -> (i < SD_STAT_WAYS)%nat -> s = way (hash_of path) i ->
  se_path entry = Some path -> se_hash entry = hash_of path ->
  (forall s' e p, sc_slots cache !! s' = Some e -> se_path e = Some p ->
     canon_path p = canon_path path -> s' = s) ->
  stat_cache_wf (mk_stat_cache (<[s := entry]> (sc_slots cache)) clock hits misses).
Proof.
  intros [Hl He Hu] Hi -> Hp Hh Hno. pose proof (way_lt (hash_of path) i) as Hs. constructor; cbn.
  - by rewrite length_insert.
  - intros s e p Hse Hpe. apply list_lookup_insert_Some in Hse as [(<- & <- & _)|[_ Hse]]; [|eauto].
    rewrite Hp in Hpe. injection Hpe as <-. eauto.
  - intros s1 e1 p1 s2 e2 p2 H1 Hp1 H2 Hp2 E.
    apply list_lookup_insert_Some in H1 as [(<- & <- & _)|[Hn1 H1]],
      H2 as [(<- & <- & _)|[Hn2 H2]]; [done|..].
    + symmetry. eapply Hno; [done..|]. congruence.
    + eapply Hno; [done..|]. congruence.
    + by eapply Hu.
Qed.

(** ** Coherence with the card

    [truth] gives, by canonical path, the stat of what is on the card. *)
Definition answer (error : Z) (st : option T) : Z * option T :=
  (error, if error =? 0 then st else None).

(** The true answer about a path. *)
Definition stat_of (on_card : option T) : Z * option T :=
  match on_card with Some st => (0, Some st) | None => (ENOENT, None) end.

(** The card answers a stat that works with what is there and ENOENT only when
    nothing is; any other error says nothing. *)
Definition card_says (on_card : option T) (error : Z) (st : T) : Prop :=
  error = 0 \/ error = ENOENT -> stat_of on_card = answer error (Some st).

Definition coherent cache (truth : list Z -> option T) : Prop :=
  stat_cache_wf cache /\
  forall s entry p, sc_slots cache !! s = Some entry -> se_path entry = Some p ->
    stat_of (truth (canon_path p)) = answer (se_error entry) (se_st entry).

(** A path the card's file system cannot hold is not there, whatever error the
    card answers with. *)
Definition truth_ok (truth : list Z -> option T) : Prop :=
  forall path, sd_stat_impossible path = true -> truth (canon_path path) = None.

Lemma coherent_slots cache truth clock hits misses :
  coherent cache truth -> coherent (mk_stat_cache (sc_slots cache) clock hits misses) truth.
Proof. intros [[] Hc]. by split. Qed.

Lemma coherent_put cache truth s path entry clock hits misses i :
  coherent cache truth -> (i < SD_STAT_WAYS)%nat -> s = way (hash_of path) i ->
  se_path entry = Some path -> se_hash entry = hash_of path ->
  (forall s' e p, sc_slots cache !! s' = Some e -> se_path e = Some p ->
     canon_path p = canon_path path -> s' = s) ->
  stat_of (truth (canon_path path)) = answer (se_error entry) (se_st entry) ->
  coherent (mk_stat_cache (<[s := entry]> (sc_slots cache)) clock hits misses) truth.
Proof.
  intros [Hwf Hc] Hi Hs Hp Hh Hno Ht. split; [by eapply stat_put_wf|]. cbn.
  intros s' e p He Hpe. apply list_lookup_insert_Some in He as [(_ & <- & _)|[_ He]]; [|by eapply Hc].
  congruence.
Qed.

Lemma coherent_found cache truth path s :
  coherent cache truth -> sd_stat_find cache path (hash_of path) = Some s ->
  exists i p, (i < SD_STAT_WAYS)%nat /\ s = way (hash_of p) i /\
    sc_slots cache !! s = Some (sc_slots cache !!! s) /\ se_path (sc_slots cache !!! s) = Some p /\
    se_hash (sc_slots cache !!! s) = hash_of p /\ canon_path p = canon_path path /\
    (forall s' e p', sc_slots cache !! s' = Some e -> se_path e = Some p' ->
       canon_path p' = canon_path p -> s' = s).
Proof.
  intros [Hwf _] Hf. destruct (sd_stat_find_Some _ _ _ Hwf Hf) as (Hs & i & p & Hi & Hw & Hp & Hc).
  pose proof (slot_at _ _ Hwf Hs) as Hat. exists i, p.
  split_and!; try done.
  - rewrite Hw. f_equal. rewrite !hash_of_canon. congruence.
  - by apply (cw_entry _ Hwf s _ p Hat).
  - intros s' e p' He Hp' E. by eapply (cw_unique _ Hwf).
Qed.

Lemma sd_stat_lookup_spec cache truth path ans cache' :
  coherent cache truth -> truth_ok truth -> sd_stat_lookup cache path = (ans, cache') ->
  coherent cache' truth /\ forall a, ans = Some a -> a = stat_of (truth (canon_path path)).
Proof.
  intros Hco Hok. unfold sd_stat_lookup. destruct (sd_stat_impossible path) eqn:Himp.
  { intros [= <- <-]. split; [by apply coherent_slots|]. intros a [= <-]. by rewrite Hok. }
  destruct (sd_stat_cacheable path); [|intros [= <- <-]; split; [by apply coherent_slots|done]].
  destruct (sd_stat_find cache path (hash_of path)) as [s|] eqn:Hf;
    [|intros [= <- <-]; split; [by apply coherent_slots|done]].
  destruct (coherent_found _ _ _ _ Hco Hf) as (i & p & Hi & Hw & Hat & Hp & Hh & Hc & Hu).
  pose proof (proj2 Hco s _ p Hat Hp) as Ht.
  intros [= <- <-]. split.
  - by eapply coherent_put.
  - intros a [= <-]. by rewrite <- Hc, Ht.
Qed.

Lemma sd_stat_store_spec cache truth path st error mem :
  coherent cache truth -> card_says (truth (canon_path path)) error st ->
  coherent (sd_stat_store cache path st error mem) truth.
Proof.
  intros Hco Ht0. unfold sd_stat_store. destruct (_ || _) eqn:Hkeep; [done|].
  assert (stat_of (truth (canon_path path)) = answer error (Some st)) as Ht.
  { apply Ht0. apply orb_false_iff in Hkeep as [_ Hkeep]. unfold nonzero in Hkeep. lia. }
  assert (Hst : answer error (Some st) = answer error (if error =? 0 then Some st else None)).
  { unfold answer. by destruct (error =? 0). }
  destruct (sd_stat_find cache path (hash_of path)) as [s|] eqn:Hf.
  - destruct (coherent_found _ _ _ _ Hco Hf) as (i & p & Hi & Hw & Hat & Hp & Hh & Hc & Hu).
    eapply coherent_put; try done. cbn. by rewrite Hc, Ht.
  - destruct mem; cbn [negb]; [|done].
    destruct (stat_victim _ _ _ _) as [s|] eqn:Hv; [|done].
    apply stat_victim_way in Hv as (i & Hi & Hs); [|done|].
    + eapply coherent_put; try done; cbn; [|by rewrite Ht].
      intros s' e p He Hp E. by destruct (sd_stat_find_None _ _ (proj1 Hco) Hf s' e p He Hp).
    + apply list.Forall_forall. intros j Hj. apply elem_of_seq in Hj. lia.
Qed.

Lemma coherent_forget cache truth truth' slots clock hits misses :
  coherent cache truth -> length slots = length (sc_slots cache) ->
  (forall s e, slots !! s = Some e -> se_path e <> None ->
     sc_slots cache !! s = Some e /\
     forall p, se_path e = Some p -> truth' (canon_path p) = truth (canon_path p)) ->
  coherent (mk_stat_cache slots clock hits misses) truth'.
Proof.
  intros [[Hl He Hu] Hc] Hlen Hs. split; [constructor; cbn|cbn].
  - congruence.
  - intros s e p Hse Hp. destruct (Hs s e Hse) as [H1 _]; [by rewrite Hp|]. eauto.
  - intros s1 e1 p1 s2 e2 p2 H1 Hp1 H2 Hp2 E.
    destruct (Hs s1 e1 H1) as [H1' _]; [by rewrite Hp1|].
    destruct (Hs s2 e2 H2) as [H2' _]; [by rewrite Hp2|]. by eapply Hu.
  - intros s e p Hse Hp. destruct (Hs s e Hse) as [H1 H2]; [by rewrite Hp|].
    rewrite (H2 p Hp). by eapply Hc.
Qed.

Lemma sd_stat_forget_spec cache truth truth' path :
  coherent cache truth -> sd_stat_cacheable path = true ->
  (forall c, c <> canon_path path -> truth' c = truth c) ->
  coherent (sd_stat_forget cache (Some path)) truth'.
Proof.
  intros Hco Hcache Hsame. unfold sd_stat_forget. rewrite Hcache. cbn [negb].
  destruct (sd_stat_find cache path (hash_of path)) as [s|] eqn:Hf.
  - destruct (coherent_found _ _ _ _ Hco Hf) as (i & p & Hi & Hw & Hat & Hp & Hh & Hc & Hu).
    apply (coherent_forget cache truth); [done|by rewrite length_insert|].
    intros s' e He Hne. apply list_lookup_insert_Some in He as [(<- & <- & _)|[Hne' He]]; [done|].
    split; [done|]. intros p' Hp'. apply Hsame. intros E. apply Hne'. symmetry. apply (Hu s' e p'); [done..|congruence].
  - destruct cache as [slots clock hits misses].
    apply (coherent_forget (mk_stat_cache slots clock hits misses) truth); [done..|].
    intros s e He Hne. split; [done|]. intros p Hp. apply Hsame.
    by apply (sd_stat_find_None _ _ (proj1 Hco) Hf s e p).
Qed.

Lemma sd_stat_forget_all_spec cache truth truth' :
  coherent cache truth -> coherent (sd_stat_forget_all cache) truth'.
Proof.
  intros Hco. apply (coherent_forget cache truth); [done|by rewrite length_fmap|].
  intros s e He Hne. apply list_lookup_fmap_Some in He as (e' & -> & _). done.
Qed.

(** ** The cache in front of the card

    A stat asks the cache and, on a miss, the card, whose answer is kept. A
    file that is created, written or deleted changes what is on the card at its
    path, which is forgotten with the change; a rename or a removed directory
    changes anything and everything is forgotten. A path that is forgotten has
    to be a whole one: of a relative path the cache forgets nothing. *)
Inductive stat_step : sd_stat_cache T * (list Z -> option T) ->
                      sd_stat_cache T * (list Z -> option T) -> Prop :=
| stat_hit cache truth path a cache' :
    sd_stat_lookup cache path = (Some a, cache') -> stat_step (cache, truth) (cache', truth)
| stat_miss cache truth path cache' error st mem :
    sd_stat_lookup cache path = (None, cache') -> card_says (truth (canon_path path)) error st ->
    stat_step (cache, truth) (sd_stat_store cache' path st error mem, truth)
| stat_change cache truth truth' path :
    sd_stat_cacheable path = true -> truth_ok truth' ->
    (forall c, c <> canon_path path -> truth' c = truth c) ->
    stat_step (cache, truth) (sd_stat_forget cache (Some path), truth')
| stat_rename cache truth truth' :
    truth_ok truth' -> stat_step (cache, truth) (sd_stat_forget_all cache, truth').

Definition stat_cache_new : sd_stat_cache T := mk_stat_cache (replicate 512 entry_zero) 0 0 0.

Lemma stat_cache_new_coherent truth : coherent stat_cache_new truth.
Proof.
  assert (Hno : forall s e p, replicate 512 entry_zero !! s = Some e -> se_path e <> Some p).
  { intros s e p He. by apply lookup_replicate in He as [-> _]. }
  split; [constructor|]; cbn [sc_slots stat_cache_new].
  - apply length_replicate.
  - intros s e p He Hp. by destruct (Hno s e p).
  - intros s1 e1 p1 s2 e2 p2 He Hp. by destruct (Hno s1 e1 p1).
  - intros s e p He Hp. by destruct (Hno s e p).
Qed.

Lemma stat_step_coherent x y :
  stat_step x y -> coherent (fst x) (snd x) /\ truth_ok (snd x) -> coherent (fst y) (snd y) /\ truth_ok (snd y).
Proof.
  intros Hst [Hco Hok]. destruct Hst as [cache truth path a cache' Hl|cache truth path cache' error st mem Hl Ht|
    cache truth truth' path Hc Hok' Hsame|cache truth truth' Hok']; simpl in *.
  - split; [|done]. by eapply sd_stat_lookup_spec.
  - split; [|done]. apply sd_stat_store_spec; [|done]. by eapply sd_stat_lookup_spec.
  - split; [|done]. by eapply sd_stat_forget_spec.
  - split; [|done]. by eapply sd_stat_forget_all_spec.
Qed.

End cache.

(** C33: from an empty cache, after any sequence of stats, changes of a whole
    path that forget it with the change and renames that forget everything, an
    answer of the cache is true of the card at that moment: the stat of what is
    there, or ENOENT when nothing is. A miss keeps what the card answered only
    when that is a stat or ENOENT, and a name the card cannot hold is not there,
    whatever the card answers about it. *)
Theorem stat_cache_coherent {T : Type} (truth0 truth : list Z -> option T) cache path a cache' :
  truth_ok truth0 -> rtc stat_step (stat_cache_new, truth0) (cache, truth) ->
  sd_stat_lookup cache path = (Some a, cache') -> a = stat_of (truth (canon_path path)).
Proof.
  intros Hok Hrun Hl.
  apply (rtc_keeps _ (fun x => coherent (fst x) (snd x) /\ truth_ok (snd x)) _ _ stat_step_coherent) in Hrun
    as [Hco Hok']; [|by split; [apply stat_cache_new_coherent|]].
  by eapply sd_stat_lookup_spec.
Qed.

(** ** Witness: /a is there, with a stat of 5, and is asked for twice *)

Definition truth_example (c : list Z) : option Z :=
  if bool_decide (c = [47; 97]) then Some 5 else None.

Lemma truth_example_ok : truth_ok truth_example.
Proof.
  intros path Himp. unfold truth_example. case_bool_decide as E; [|done]. exfalso.
  unfold sd_stat_impossible in Himp. apply existsb_exists in Himp as (c & Hin & Hc). btrue.
  assert (Hcan : forall l c, In c l -> c ∈ stat_impossible_chars -> c ∈ canon_chars l).
  { clear. induction l as [|d l IH]; intros c Hin Hc; [done|]. cbn [canon_chars]. destruct Hin as [->|Hin].
    - assert (Hs : (c =? SLASH) = false) by (destruct (Z.eqb_spec c SLASH) as [->|]; [|done]; set_solver).
      rewrite Hs. cbn [andb]. replace (lower c) with c; [set_solver|].
      unfold stat_impossible_chars in Hc. set_solver.
    - destruct ((d =? SLASH) && _); [by apply IH|]. apply elem_of_cons. right. by apply IH. }
  specialize (Hcan _ _ Hin Hc). fold (canon_path path) in Hcan. rewrite E in Hcan. set_solver.
Qed.

Definition stat_cache_example : sd_stat_cache Z :=
  sd_stat_store (snd (sd_stat_lookup stat_cache_new [47; 97])) [47; 97] 5 0 true.

Lemma stat_cache_coherent_witness :
  exists a cache', sd_stat_lookup stat_cache_example [47; 47; 65] = (Some a, cache') /\
    a = stat_of (truth_example (canon_path [47; 47; 65])).
Proof.
  destruct (sd_stat_lookup stat_cache_example [47; 47; 65]) as [ans cache'] eqn:Hl.
  assert (Hans : ans = Some (0, Some 5)).
  { apply (f_equal fst) in Hl. vm_compute in Hl. by rewrite <- Hl. }
  subst ans. exists (0, Some 5), cache'. split; [reflexivity|].
  apply (stat_cache_coherent truth_example truth_example stat_cache_example _ _ cache').
  - apply truth_example_ok.
  - apply rtc_once. eapply (stat_miss stat_cache_new truth_example [47; 97] _ 0 5 true); [|by intros _].
    by vm_compute.
  - exact Hl.
Defined.
