(* ===== verification/SdReadCache.v ===== *)
(** * The read cache in front of the SD card (horizon-wine/source/sd_read_cache.h)

    Every open file keeps up to eight chunks; the chunks of all files come from
    one pool, whose list [held] has a pointer to each line that holds one. A
    pointer to an open file is a key of a heap, a pointer to a line is a file
    and an index. The request that fills a chunk is a parameter. *)
From S2P Require Import Prelude SdPath.
Local Open Scope Z_scope.

Definition SD_CACHE_CHUNK : Z := 128 * 1024.
Definition SD_CACHE_LINES : nat := 8.
Definition SD_CACHE_BYPASS : Z := -2.

(** [cl_data]: the first [len] bytes of the chunk; [None] is a null pointer. *)
Record sd_cache_line := mk_cache_line {
  cl_data : option (list Z);
  cl_start : Z;
  cl_lru : Z;
  cl_used_at : Z
}.
Definition cl_len (line : sd_cache_line) : Z := Z.of_nat (length (default [] (cl_data line))).

(** All bytes zero, as [calloc] and [memset] leave it. *)
Definition line_zero : sd_cache_line := mk_cache_line None 0 0 0.
#[export] Instance line_inhabited : Inhabited sd_cache_line := populate line_zero.

(** [append], [shared] and [direct_writes] are kept for the writes by
    sd_cache.c and used nowhere here. *)
Record sd_cache_file := mk_cache_file {
  cf_key : Z;
  cf_path : list Z;
  cf_writable : bool;
  cf_cacheable : bool;
  cf_window : Z;
  cf_fill_end : Z;
  cf_size_known : bool;
  cf_size : Z;
  cf_lines : list sd_cache_line
}.

Notation line_ptr := (positive * nat)%type.

Record sd_cache_pool := mk_cache_pool {
  cp_held : list line_ptr;     (** the lines holding a chunk, [used] of them *)
  cp_held_alloc : bool;        (** whether [held] is allocated *)
  cp_max : Z;
  cp_cap : Z;
  cp_fill_min : Z;
  cp_clock : Z
}.
Definition cp_used (pool : sd_cache_pool) : Z := Z.of_nat (length (cp_held pool)).

(** The open files and the list that links them, and the pool. *)
Record sd_cache := mk_sd_cache {
  ca_files : gmap positive sd_cache_file;
  ca_list : list positive;
  ca_pool : sd_cache_pool
}.

Definition with_lines (f : sd_cache_file) (lines : list sd_cache_line) : sd_cache_file :=
  mk_cache_file (cf_key f) (cf_path f) (cf_writable f) (cf_cacheable f) (cf_window f) (cf_fill_end f)
    (cf_size_known f) (cf_size f) lines.
Definition with_held (pool : sd_cache_pool) (held : list line_ptr) (alloc : bool) : sd_cache_pool :=
  mk_cache_pool held alloc (cp_max pool) (cp_cap pool) (cp_fill_min pool) (cp_clock pool).
Definition with_files (c : sd_cache) (files : gmap positive sd_cache_file) : sd_cache :=
  mk_sd_cache files (ca_list c) (ca_pool c).
Definition with_pool (c : sd_cache) (pool : sd_cache_pool) : sd_cache :=
  mk_sd_cache (ca_files c) (ca_list c) pool.

(** Reading and writing through a pointer to a line. *)
Definition line_get (c : sd_cache) (l : line_ptr) : option sd_cache_line :=
  f ← ca_files c !! fst l; cf_lines f !! snd l.
Definition line_set (c : sd_cache) (l : line_ptr) (line : sd_cache_line) : sd_cache :=
  match ca_files c !! fst l with
  | Some f => with_files c (<[fst l := with_lines f (<[snd l := line]> (cf_lines f))]> (ca_files c))
  | None => c
  end.

(** ** The pool *)

Definition sd_cache_held_add (pool : sd_cache_pool) (l : line_ptr) : sd_cache_pool :=
  with_held pool (cp_held pool ++ [l]) (cp_held_alloc pool).

(** The last pointer takes the place of the one removed. *)
Definition sd_cache_held_remove (pool : sd_cache_pool) (l : line_ptr) : sd_cache_pool :=
  let held :=
    match first_index (fun h => bool_decide (h = l)) (cp_held pool), last (cp_held pool) with
    | Some i, Some h => removelast (<[i := h]> (cp_held pool))
    | _, _ => cp_held pool
    end in
  with_held pool held (match held with [] => false | _ => cp_held_alloc pool end).

Definition sd_cache_held_replace (pool : sd_cache_pool) (old l : line_ptr) : sd_cache_pool :=
  match first_index (fun h => bool_decide (h = old)) (cp_held pool) with
  | Some i => with_held pool (<[i := l]> (cp_held pool)) (cp_held_alloc pool)
  | None => pool
  end.

Definition line_used_at (c : sd_cache) (l : line_ptr) : Z := default 0 (cl_used_at <$> line_get c l).

Definition sd_cache_oldest (c : sd_cache) : option line_ptr :=
  fold_left (fun oldest l =>
      match oldest with
      | None => Some l
      | Some o => if line_used_at c l <? line_used_at c o then Some l else oldest
      end) (cp_held (ca_pool c)) None.

(** A line whose chunk was taken away. *)
Definition line_taken (line : sd_cache_line) : sd_cache_line :=
  mk_cache_line None (-1) 0 (cl_used_at line).

(** The loop of [sd_cache_trim]; every turn gives one chunk back. *)
Fixpoint trim_loop (n : nat) (c : sd_cache) : sd_cache :=
  match n with
  | O => c
  | S n =>
      if cp_used (ca_pool c) <=? cp_max (ca_pool c) then c
      else
        match sd_cache_oldest c with
        | None => c
        | Some old =>
            let c := line_set c old (line_taken (default line_zero (line_get c old))) in
            trim_loop n (with_pool c (sd_cache_held_remove (ca_pool c) old))
        end
  end.
Definition sd_cache_trim (c : sd_cache) : sd_cache := trim_loop (length (cp_held (ca_pool c))) c.

Definition sd_cache_reclaim (c : sd_cache) (bytes : Z) : Z * sd_cache :=
  let count := bytes / SD_CACHE_CHUNK + (if bytes mod SD_CACHE_CHUNK =? 0 then 0 else 1) in
  let before := cp_used (ca_pool c) in
  let count := if before <? count then before else count in
  let pool := ca_pool c in
  let c := with_pool c (mk_cache_pool (cp_held pool) (cp_held_alloc pool) (before - count) (cp_cap pool)
                          (cp_fill_min pool) (cp_clock pool)) in
  let c := sd_cache_trim c in
  ((before - cp_used (ca_pool c)) * SD_CACHE_CHUNK, c).

(** ** A file's lines *)

(** The loop of [sd_cache_drop] over the lines [i], [i + 1], ... *)
Fixpoint drop_loop (n : nat) (c : sd_cache) (id : positive) (i : nat) : sd_cache :=
  match n with
  | O => c
  | S n =>
      match line_get c (id, i) with
      | Some line =>
          if bool_decide (cl_data line = None) then drop_loop n c id (S i)
          else
            let c := with_pool c (sd_cache_held_remove (ca_pool c) (id, i)) in
            drop_loop n (line_set c (id, i) line_zero) id (S i)
      | None => drop_loop n c id (S i)
      end
  end.

Definition sd_cache_drop (c : sd_cache) (id : positive) : sd_cache :=
  let c := drop_loop SD_CACHE_LINES c id 0 in
  match ca_files c !! id with
  | Some f =>
      with_files c (<[id := mk_cache_file (cf_key f) (cf_path f) (cf_writable f) (cf_cacheable f) 0 0
                              false (cf_size f) (cf_lines f)]> (ca_files c))
  | None => c
  end.

Definition line_has (offset : Z) (line : sd_cache_line) : bool :=
  bool_decide (cl_data line <> None) && (0 <=? cl_start line) && (cl_start line <=? offset) &&
  (offset <? cl_start line + cl_len line).

(** The line that holds the byte at [offset], marked as used. *)
Definition sd_cache_line_for (f : sd_cache_file) (offset : Z) : option (nat * sd_cache_file) :=
  i ← first_index (line_has offset) (cf_lines f);
  line ← cf_lines f !! i;
  Some (i, with_lines f (<[i := mk_cache_line (cl_data line) (cl_start line)
                                  (Z.lor (cl_lru line) 0x80000000) (cl_used_at line)]> (cf_lines f))).

(** Start, size and window of the next fill; [None] at or past a known end. *)
Definition sd_cache_plan (f : sd_cache_file) (pool : sd_cache_pool) (offset : Z)
    : option (Z * Z * Z) :=
  let step := if cp_fill_min pool =? 0 then SD_CACHE_CHUNK else cp_fill_min pool in
  if cf_size_known f && (cf_size f <=? offset) then None
  else
    let window :=
      if cp_fill_min pool =? 0 then SD_CACHE_CHUNK
      else if nonzero (cf_window f) && (offset =? cf_fill_end f)
      then (if SD_CACHE_CHUNK <? u32 (cf_window f * 2) then SD_CACHE_CHUNK else u32 (cf_window f * 2))
      else cp_fill_min pool in
    let start := offset - offset mod step in
    let end_ := start + window in
    let end_ := if end_ - offset <? 1 then offset + 1 else end_ in
    let end_ := fold_left (fun end_ line =>
        if bool_decide (cl_data line <> None) && (offset <? cl_start line) && (cl_start line <? end_)
        then cl_start line else end_) (cf_lines f) end_ in
    let end_ := if cf_size_known f && (cf_size f <? end_) then cf_size f else end_ in
    Some (start, end_ - start, window).

Definition line_rank (line : sd_cache_line) : Z :=
  match cl_data line with None => 1 | Some _ => if cl_start line <? 0 then 0 else 2 end.

(** The scan of [sd_cache_victim] over the lines [i], [i + 1], ... *)
Fixpoint victim_scan (lines rest : list sd_cache_line) (i victim : nat) (best : Z) : nat :=
  match rest with
  | [] => victim
  | line :: rest =>
      let rank := line_rank line in
      if (rank <? best) || ((rank =? 2) && (best =? 2) && (cl_lru line <? cl_lru (lines !!! victim)))
      then victim_scan lines rest (S i) i rank
      else victim_scan lines rest (S i) victim best
  end.

Definition line_with_lru (line : sd_cache_line) (lru : Z) : sd_cache_line :=
  mk_cache_line (cl_data line) (cl_start line) lru (cl_used_at line).

(** Every line ages by one, then the line to fill is picked and marked. *)
Definition sd_cache_victim (f : sd_cache_file) : nat * sd_cache_file :=
  let lines := (fun line => line_with_lru line (Z.shiftr (cl_lru line) 1)) <$> cf_lines f in
  let victim := victim_scan lines lines 0 0 3 in
  (victim, with_lines f (<[victim := line_with_lru (lines !!! victim) 0x80000000]> lines)).

(** ** Reading *)

Section read.
(** [fill ctx offset size]: the bytes read, or [None] for a failed request. *)
Context {C : Type} (fill : C -> Z -> Z -> option (list Z) * C).

(** The line [v] of the file gets a chunk if it has none: the one read longest
    ago when the pool is full, else a new one. Whether it has one then. [mem]:
    whether the list and the chunk can be allocated. *)
Definition cache_chunk (c : sd_cache) (id : positive) (v : nat) (mem : bool * bool) : bool * sd_cache :=
  match line_get c (id, v) with
  | None => (false, c)
  | Some line =>
      let given := mk_cache_line (Some []) (cl_start line) (cl_lru line) (cl_used_at line) in
      if bool_decide (cl_data line <> None) then (true, c)
      else if cp_max (ca_pool c) <=? cp_used (ca_pool c) then
        match sd_cache_oldest c with
        | None => (false, c)
        | Some old =>
            let c := line_set c (id, v) given in
            let c := line_set c old (line_taken (default line_zero (line_get c old))) in
            (true, with_pool c (sd_cache_held_replace (ca_pool c) old (id, v)))
        end
      else if negb (cp_held_alloc (ca_pool c)) && negb (fst mem) then (false, c)
      else
        let c := with_pool c (with_held (ca_pool c) (cp_held (ca_pool c)) true) in
        if negb (snd mem) then (false, c)
        else (true, with_pool (line_set c (id, v) given) (sd_cache_held_add (ca_pool c) (id, v)))
  end.

(** What is left to do after a miss: the bytes are in line [i], the file ended
    (after so many requests), the request failed or there was no chunk. *)
Inductive missed := MissLine (i : nat) | MissEnd (requests : Z) | MissFailed | MissBypass.

(** The file after [got] bytes came back of the [want] asked for at [start]. *)
Definition file_filled (f : sd_cache_file) (start want window got : Z) : sd_cache_file :=
  mk_cache_file (cf_key f) (cf_path f) (cf_writable f) (cf_cacheable f) window (start + got)
    (if got <? want then true else cf_size_known f) (if got <? want then start + got else cf_size f)
    (cf_lines f).

Definition file_set (c : sd_cache) (id : positive) (f : sd_cache_file) : sd_cache :=
  with_files c (<[id := f]> (ca_files c)).

(** The miss branch of [sd_cache_read] at the offset [at_]. *)
Definition cache_miss (c : sd_cache) (ctx : C) (id : positive) (f : sd_cache_file) (at_ : Z)
    (mem : bool * bool) : missed * sd_cache * C :=
  match sd_cache_plan f (ca_pool c) at_ with
  | None => (MissEnd 0, c, ctx)
  | Some (start, want, window) =>
      let '(v, f) := sd_cache_victim f in
      match cache_chunk (file_set c id f) id v mem with
      | (false, c) => (MissBypass, c, ctx)
      | (true, c) =>
          let line := default line_zero (line_get c (id, v)) in
          let c := line_set c (id, v) (mk_cache_line (Some []) (-1) (cl_lru line) (cl_used_at line)) in
          match fill ctx start want with
          | (None, ctx) => (MissFailed, c, ctx)
          | (Some got, ctx) =>
              let c := line_set c (id, v) (mk_cache_line (Some got) start (cl_lru line) (cl_used_at line)) in
              match ca_files c !! id with
              | None => (MissBypass, c, ctx)
              | Some f =>
                  let c := file_set c id (file_filled f start want window (Z.of_nat (length got))) in
                  if start + Z.of_nat (length got) <=? at_ then (MissEnd 1, c, ctx) else (MissLine v, c, ctx)
              end
          end
      end
  end.

(** The copy from line [i]: the bytes and the line with the pool's new clock. *)
Definition cache_copy (c : sd_cache) (id : positive) (i : nat) (at_ : Z) (left : nat)
    : list Z * sd_cache :=
  let pool := ca_pool c in
  let clock := u64 (cp_clock pool + 1) in
  let line := default line_zero (line_get c (id, i)) in
  let c := with_pool c (mk_cache_pool (cp_held pool) (cp_held_alloc pool) (cp_max pool) (cp_cap pool)
                          (cp_fill_min pool) clock) in
  let c := line_set c (id, i) (mk_cache_line (cl_data line) (cl_start line) (cl_lru line) clock) in
  (take left (drop (Z.to_nat (at_ - cl_start line)) (default [] (cl_data line))), c).

Record read_result := mk_read_result { rr_ret : Z; rr_buf : list Z; rr_cache : sd_cache; rr_ctx : C; rr_fills : Z }.

(** The loop of [sd_cache_read]; [buf] holds the bytes copied so far and [left]
    are to come. [None] if it runs out of [fuel], or without such a file. *)
Fixpoint read_loop (fuel : nat) (c : sd_cache) (ctx : C) (id : positive) (offset : Z) (buf : list Z)
    (left : nat) (mem : Z -> bool * bool) (fills : Z) : option read_result :=
  let done_or r c ctx fills :=
    Some (mk_read_result (match buf with [] => r | _ => Z.of_nat (length buf) end) buf c ctx fills) in
  match left with
  | O => Some (mk_read_result (Z.of_nat (length buf)) buf c ctx fills)
  | _ =>
      match fuel, ca_files c !! id with
      | O, _ => None
      | _, None => None
      | S fuel, Some f =>
          let at_ := offset + Z.of_nat (length buf) in
          let go c ctx i fills :=
            let '(bytes, c) := cache_copy c id i at_ left in
            read_loop fuel c ctx id offset (buf ++ bytes) (left - length bytes) mem fills in
          match sd_cache_line_for f at_ with
          | Some (i, f) => go (file_set c id f) ctx i fills
          | None =>
              match cache_miss c ctx id f at_ (mem fills) with
              | (MissEnd n, c, ctx) => Some (mk_read_result (Z.of_nat (length buf)) buf c ctx (fills + n))
              | (MissBypass, c, ctx) => done_or SD_CACHE_BYPASS c ctx fills
              | (MissFailed, c, ctx) => done_or (-1) c ctx (fills + 1)
              | (MissLine i, c, ctx) => go c ctx i (fills + 1)
              end
          end
      end
  end.

Definition sd_cache_read (c : sd_cache) (ctx : C) (id : positive) (offset : Z) (size : nat)
    (mem : Z -> bool * bool) (fills : Z) : option read_result :=
  read_loop size c ctx id offset [] size mem fills.

End read.

(** ** Open files *)

Definition path_is (path : list Z) (f : sd_cache_file) : bool :=
  default false (sd_cache_same_path (cf_path f) path).

Definition sd_cache_find (c : sd_cache) (key : Z) : option positive :=
  i ← first_index (fun id => bool_decide (cf_key <$> ca_files c !! id = Some key)) (ca_list c);
  ca_list c !! i.

(** A loop over the list that acts on the files it picks. *)
Definition for_files (pick : sd_cache_file -> bool) (act : sd_cache -> positive -> sd_cache)
    (ids : list positive) (c : sd_cache) : sd_cache :=
  fold_left (fun c id =>
      match ca_files c !! id with
      | Some f => if pick f then act c id else c
      | None => c
      end) ids c.

Definition sd_cache_stop (c : sd_cache) (id : positive) : sd_cache :=
  let c := match ca_files c !! id with
           | Some f => file_set c id (mk_cache_file (cf_key f) (cf_path f) (cf_writable f) false
                         (cf_window f) (cf_fill_end f) (cf_size_known f) (cf_size f) (cf_lines f))
           | None => c
           end in
  sd_cache_drop c id.

Definition sd_cache_forget_path (c : sd_cache) (path : list Z) : sd_cache :=
  for_files (path_is path) sd_cache_stop (ca_list c) c.

Definition sd_cache_written (c : sd_cache) (path : list Z) : sd_cache :=
  for_files (path_is path) sd_cache_drop (ca_list c) c.

(** [id]: where the new file is allocated; [mem]: whether that succeeds. *)
Definition sd_cache_opened (c : sd_cache) (id : positive) (key : Z) (path : list Z) (writable mem : bool)
    : option positive * sd_cache :=
  if negb mem then (None, c)
  else
    let f := mk_cache_file key path writable true 0 0 false 0 (replicate SD_CACHE_LINES line_zero) in
    let c := for_files (fun f => cf_writable f && path_is path f) sd_cache_drop (ca_list c) c in
    (Some id, mk_sd_cache (<[id := f]> (ca_files c)) (id :: ca_list c) (ca_pool c)).

Definition sd_cache_closed (c : sd_cache) (key : Z) : sd_cache :=
  match first_index (fun id => bool_decide (cf_key <$> ca_files c !! id = Some key)) (ca_list c) with
  | None => c
  | Some i =>
      match ca_list c !! i with
      | None => c
      | Some id =>
          let c := sd_cache_drop c id in
          mk_sd_cache (delete id (ca_files c)) (delete i (ca_list c)) (ca_pool c)
      end
  end.

(** ** The invariant

    [content id] is the bytes of the file that [id] has open, as they are on
    the card. *)

Section inv.
Context (content : positive -> list Z).

(** What a line holds is what the file has there. *)
Definition line_ok (bytes : list Z) (line : sd_cache_line) : Prop :=
  forall data, cl_data line = Some data -> 0 <= cl_start line ->
    forall j, (j < length data)%nat -> data !! j = bytes !! (Z.to_nat (cl_start line) + j)%nat.

Record file_ok (bytes : list Z) (f : sd_cache_file) : Prop := {
  fo_lines : length (cf_lines f) = SD_CACHE_LINES;
  fo_line i line : cf_lines f !! i = Some line -> line_ok bytes line;
  fo_size : cf_size_known f = true -> Z.of_nat (length bytes) <= cf_size f;
  fo_window : 0 <= cf_window f <= SD_CACHE_CHUNK
}.

Definition has_chunk (c : sd_cache) (l : line_ptr) : Prop :=
  exists line, line_get c l = Some line /\ cl_data line <> None.

Record cache_inv (c : sd_cache) : Prop := {
  ci_files id f : ca_files c !! id = Some f -> file_ok (content id) f;
  ci_nodup : NoDup (cp_held (ca_pool c));
  ci_held l : l ∈ cp_held (ca_pool c) <-> has_chunk c l;
  ci_fill : 0 <= cp_fill_min (ca_pool c) <= SD_CACHE_CHUNK
}.

Lemma line_get_set c l line l' :
  is_Some (line_get c l) ->
  line_get (line_set c l line) l' = if decide (l' = l) then Some line else line_get c l'.
Proof.
  destruct l as [id i], l' as [id' i']. unfold line_get, line_set. cbn. intros [x Hx].
  destruct (ca_files c !! id) as [f|] eqn:Hf; [|done]. cbn in *.
  destruct (decide (id' = id)) as [->|Hne].
  - rewrite lookup_insert_eq, Hf. cbn. destruct (decide (i' = i)) as [->|Hi].
    + rewrite list_lookup_insert_eq by (by eapply lookup_lt_Some). by rewrite decide_True.
    + rewrite list_lookup_insert_ne by done. rewrite decide_False by congruence. done.
  - rewrite lookup_insert_ne by done. rewrite decide_False by congruence. done.
Qed.

Lemma line_set_pool c l line : ca_pool (line_set c l line) = ca_pool c.
Proof. unfold line_set. by destruct (ca_files c !! fst l). Qed.

Lemma line_set_list c l line : ca_list (line_set c l line) = ca_list c.
Proof. unfold line_set. by destruct (ca_files c !! fst l). Qed.

(** The files of [line_set]: those of [c], with one line replaced in one. *)
Lemma line_set_files c l line id f :
  ca_files (line_set c l line) !! id = Some f ->
  exists f0, ca_files c !! id = Some f0 /\
    f = with_lines f0 (if decide (id = fst l) then <[snd l := line]> (cf_lines f0) else cf_lines f0).
Proof.
  unfold line_set. destruct (ca_files c !! fst l) as [f0|] eqn:Hf0; cbn.
  - intros H. apply lookup_insert_Some in H as [[<- <-]|[Hne H]].
    + exists f0. by rewrite decide_True.
    + exists f. rewrite decide_False by done. split; [done|by destruct f].
  - intros H. exists f. split; [done|]. case_decide; [congruence|by destruct f].
Qed.

Lemma line_set_files_ok c l line :
  (forall id f, ca_files c !! id = Some f -> file_ok (content id) f) ->
  line_ok (content (fst l)) line ->
  forall id f, ca_files (line_set c l line) !! id = Some f -> file_ok (content id) f.
Proof.
  intros Hc Hl id f Hf. apply line_set_files in Hf as (f0 & Hf0 & ->). destruct (Hc id f0 Hf0).
  case_decide as E; [subst id|by constructor]. constructor; cbn; [by rewrite length_insert| |done..].
  intros i x Hx. apply list_lookup_insert_Some in Hx as [(_ & <- & _)|[_ Hx]]; [done|eauto].
Qed.

Lemma has_chunk_set c l line l' :
  is_Some (line_get c l) ->
  has_chunk (line_set c l line) l' <-> if decide (l' = l) then cl_data line <> None else has_chunk c l'.
Proof.
  intros Hs. unfold has_chunk. rewrite line_get_set by done. case_decide; [|done].
  split; [intros (x & [= <-] & Hd); done|eauto].
Qed.

Lemma line_empty_ok bytes line : cl_data line = None \/ cl_data line = Some [] \/ cl_start line < 0 -> line_ok bytes line.
Proof. intros H data Hd Hs j Hj. destruct H as [?|[E|?]]; [congruence| |lia]. rewrite E in Hd. injection Hd as <-. simpl in Hj. lia. Qed.

(** *** The list of held lines *)

Lemma held_remove_spec pool l :
  NoDup (cp_held pool) ->
  NoDup (cp_held (sd_cache_held_remove pool l)) /\
  forall l', l' ∈ cp_held (sd_cache_held_remove pool l) <-> l' ∈ cp_held pool /\ l' <> l.
Proof.
  intros Hn. unfold sd_cache_held_remove. cbn [cp_held with_held].
  destruct (first_index (fun h => bool_decide (h = l)) (cp_held pool)) as [i|] eqn:Hf.
  2:{ apply first_index_None in Hf. split; [done|]. intros l'. split; [|tauto]. intros Hin. split; [done|].
      intros ->. eapply list.Forall_forall in Hf; [|exact Hin]. btrue. done. }
  apply first_index_Some in Hf as (x & Hx & Hp & _). btrue. subst x.
  destruct (last (cp_held pool)) as [h|] eqn:Hlast; [|by rewrite last_None in Hlast; rewrite Hlast in Hx].
  apply last_Some in Hlast as [rest Hrest]. rewrite Hrest in *.
  apply list.NoDup_app in Hn as (H1 & H2 & _).
  assert (Hh : h ∉ rest) by (intros Hin; apply (H2 h Hin); by apply list_elem_of_singleton).
  destruct (decide (i = length rest)) as [->|Hi].
  - rewrite lookup_app_r, Nat.sub_diag in Hx by lia. injection Hx as ->.
    rewrite insert_app_r_alt, Nat.sub_diag by lia. cbn. rewrite removelast_last.
    split; [done|]. intros l'. rewrite elem_of_app, list_elem_of_singleton.
    split; [intros Hin; split; [by left|congruence]|tauto].
  - assert (Hlt : (i < length rest)%nat).
    { apply lookup_lt_Some in Hx. rewrite length_app in Hx. simpl in Hx. lia. }
    rewrite insert_app_l by done. rewrite removelast_last. rewrite lookup_app_l in Hx by done.
    destruct (NoDup_insert_fresh rest i l h H1 Hx Hh) as [Hn' Hmem]. split; [done|].
    intros l'. rewrite Hmem, elem_of_app, list_elem_of_singleton. split; [|tauto].
    intros [->|[? ?]]; [|tauto]. split; [by right|]. intros ->. apply Hh. by eapply list_elem_of_lookup_2.
Qed.

Lemma held_replace_spec pool old l :
  NoDup (cp_held pool) -> old ∈ cp_held pool -> l ∉ cp_held pool ->
  NoDup (cp_held (sd_cache_held_replace pool old l)) /\
  forall l', l' ∈ cp_held (sd_cache_held_replace pool old l) <->
             l' = l \/ l' ∈ cp_held pool /\ l' <> old.
Proof.
  intros Hn Hold Hl. unfold sd_cache_held_replace.
  destruct (first_index (fun h => bool_decide (h = old)) (cp_held pool)) as [i|] eqn:Hf.
  2:{ apply first_index_None in Hf. eapply list.Forall_forall in Hf; [|exact Hold]. btrue. done. }
  apply first_index_Some in Hf as (x & Hx & Hp & _). btrue. subst x.
  by apply (NoDup_insert_fresh _ i old l).
Qed.

Lemma oldest_held c l : sd_cache_oldest c = Some l -> l ∈ cp_held (ca_pool c).
Proof.
  unfold sd_cache_oldest.
  assert (Hgen : forall held o, fold_left (fun oldest l =>
      match oldest with
      | None => Some l
      | Some o => if line_used_at c l <? line_used_at c o then Some l else oldest
      end) held o = Some l -> l ∈ held \/ o = Some l).
  { induction held as [|h held IH]; intros o; cbn; [auto|]. intros Hr. apply IH in Hr as [Hin|Hr].
    - left. apply elem_of_cons. auto.
    - destruct o as [o|]; [case_if; [|auto]|]; injection Hr as ->; left; apply elem_of_cons; auto. }
  intros Hr. by apply Hgen in Hr as [?|?].
Qed.

Lemma oldest_none c : sd_cache_oldest c = None -> cp_held (ca_pool c) = [].
Proof.
  unfold sd_cache_oldest.
  assert (Hgen : forall held o, fold_left (fun oldest l =>
      match oldest with
      | None => Some l
      | Some o => if line_used_at c l <? line_used_at c o then Some l else oldest
      end) held (Some o) <> None).
  { induction held as [|h held IH]; intros o; cbn; [done|]. case_if; apply IH. }
  destruct (cp_held (ca_pool c)) as [|h held]; [done|]. cbn. intros Hr. by apply Hgen in Hr.
Qed.

(** *** Changes that keep the invariant *)

Lemma line_get_lt c id f i : ca_files c !! id = Some f -> line_get c (id, i) = cf_lines f !! i.
Proof. intros Hf. unfold line_get. cbn. by rewrite Hf. Qed.

Lemma line_set_inv c l old line :
  cache_inv c -> line_get c l = Some old -> line_ok (content (fst l)) line ->
  (cl_data line = None <-> cl_data old = None) -> cache_inv (line_set c l line).
Proof.
  intros [H1 H2 H3 H4] Hold Hl Hd. constructor; rewrite ?line_set_pool; try done.
  - by apply line_set_files_ok.
  - intros l'. rewrite H3, has_chunk_set by eauto. case_decide; [subst|done].
    split; [intros (x & Hx & Hn)|intros Hn; exists old]; [|split; [done|tauto]].
    assert (x = old) as -> by congruence. tauto.
Qed.

Lemma file_set_inv c id f f' :
  cache_inv c -> ca_files c !! id = Some f -> file_ok (content id) f' ->
  (forall i, (cl_data <$> cf_lines f' !! i) = Some None <-> (cl_data <$> cf_lines f !! i) = Some None) ->
  cache_inv (file_set c id f').
Proof.
  intros [H1 H2 H3 H4] Hf Hok Hd. constructor; try done.
  - intros id' g Hg. cbn in Hg. apply lookup_insert_Some in Hg as [[<- <-]|[_ Hg]]; [done|eauto].
  - intros [id' i]. rewrite H3. unfold has_chunk, line_get. cbn.
    destruct (decide (id' = id)) as [->|Hne]; [|by rewrite lookup_insert_ne].
    rewrite lookup_insert_eq, Hf. cbn. specialize (Hd i).
    assert (Hl : (i < length (cf_lines f'))%nat <-> (i < length (cf_lines f))%nat).
    { rewrite (fo_lines _ _ Hok), (fo_lines _ _ (H1 id f Hf)). done. }
    rewrite <- !lookup_lt_is_Some in Hl.
    destruct (cf_lines f' !! i) as [x|], (cf_lines f !! i) as [y|]; cbn in *.
    + split; intros (z & [= <-] & Hz); eexists; (split; [done|]); intros E; apply Hz; rewrite E in Hd; naive_solver.
    + exfalso. destruct (proj1 Hl); [eauto|done].
    + exfalso. destruct (proj2 Hl); [eauto|done].
    + done.
Qed.

Lemma with_pool_inv c pool :
  cache_inv c -> cp_held pool = cp_held (ca_pool c) -> cp_fill_min pool = cp_fill_min (ca_pool c) ->
  cache_inv (with_pool c pool).
Proof. intros [H1 H2 H3 H4] E1 E2. constructor; cbn; rewrite ?E1, ?E2; done. Qed.

Lemma oldest_line c old : cache_inv c -> sd_cache_oldest c = Some old -> exists line, line_get c old = Some line /\ cl_data line <> None.
Proof. intros Hi Ho. by apply (ci_held _ Hi), oldest_held. Qed.

(** A line gets a chunk that no line holds any more. *)
Lemma take_chunk_inv c l old line oldline given :
  cache_inv c -> line_get c l = Some line -> cl_data line = None -> cl_data given = Some [] ->
  line_get c old = Some oldline -> cl_data oldline <> None ->
  let c1 := line_set c l given in
  let c2 := line_set c1 old (line_taken oldline) in
  cache_inv (with_pool c2 (sd_cache_held_replace (ca_pool c2) old l)).
Proof.
  intros Hi Hl Hd Hg Ho Hod c1 c2. destruct Hi as [H1 H2 H3 H4].
  assert (Hne : old <> l) by (intros ->; congruence).
  assert (Hl1 : line_get c1 old = Some oldline).
  { unfold c1. rewrite line_get_set by eauto. by rewrite decide_False. }
  assert (Hin : old ∈ cp_held (ca_pool c)) by (apply H3; by exists oldline).
  assert (Hnl : l ∉ cp_held (ca_pool c)) by (rewrite H3; intros (x & Hx & Hn); congruence).
  assert (Hpool : ca_pool c2 = ca_pool c) by (unfold c2, c1; by rewrite !line_set_pool).
  rewrite Hpool. destruct (held_replace_spec (ca_pool c) old l H2 Hin Hnl) as [N1 N2].
  constructor; cbn; try done.
  - apply line_set_files_ok; [apply line_set_files_ok; [done|]|]; apply line_empty_ok; auto.
  - intros l'. rewrite N2. change (has_chunk (with_pool c2 _) l') with (has_chunk c2 l'). unfold c2.
    rewrite has_chunk_set by eauto. unfold c1. case_decide as E1.
    + subst l'. cbn. naive_solver.
    + rewrite has_chunk_set by eauto. case_decide as E2.
      * subst l'. rewrite Hg. naive_solver.
      * rewrite H3. naive_solver.
  - unfold sd_cache_held_replace. by destruct (first_index _ _).
Qed.

Lemma add_chunk_inv c l line given alloc :
  cache_inv c -> line_get c l = Some line -> cl_data line = None -> cl_data given = Some [] ->
  let c1 := with_pool c (with_held (ca_pool c) (cp_held (ca_pool c)) alloc) in
  cache_inv (with_pool (line_set c1 l given) (sd_cache_held_add (ca_pool c1) l)).
Proof.
  intros [H1 H2 H3 H4] Hl Hd Hg c1.
  assert (Hnl : l ∉ cp_held (ca_pool c)) by (rewrite H3; intros (x & Hx & Hn); congruence).
  constructor; cbn; try done.
  - apply line_set_files_ok; [done|]. apply line_empty_ok. auto.
  - apply list.NoDup_app. split_and!; [done| |apply NoDup_singleton].
    intros x Hx Hx'. apply list_elem_of_singleton in Hx'. by subst.
  - intros l'. change (has_chunk (with_pool (line_set c1 l given) _) l') with (has_chunk (line_set c1 l given) l').
    rewrite has_chunk_set by (by exists line). rewrite elem_of_app, list_elem_of_singleton, H3.
    case_decide; [subst|].
    + rewrite Hg. naive_solver.
    + change (has_chunk c1 l') with (has_chunk c l'). naive_solver.
Qed.

Lemma cache_chunk_spec c id v mem b c' :
  cache_inv c -> is_Some (line_get c (id, v)) -> cache_chunk c id v mem = (b, c') ->
  cache_inv c' /\ (b = true -> has_chunk c' (id, v)) /\ is_Some (ca_files c' !! id) /\
  (b = false -> cp_max (ca_pool c) <= 0 \/ fst mem = false \/ snd mem = false).
Proof.
  intros Hi [line Hl]. unfold cache_chunk. rewrite Hl.
  assert (Hf : is_Some (ca_files c !! id)) by (unfold line_get in Hl; cbn in Hl; by destruct (ca_files c !! id)).
  assert (Hset : forall c l x, is_Some (ca_files c !! id) -> is_Some (ca_files (line_set c l x) !! id)).
  { intros c0 l x Hs. unfold line_set. destruct (ca_files c0 !! fst l); [|done]. cbn.
    rewrite lookup_insert_is_Some'. auto. }
  case_bool_decide as Hd; [intros [= <- <-]; split_and!; try done; intros _; by exists line|].
  set (given := mk_cache_line _ _ _ _).
  destruct (cp_max (ca_pool c) <=? cp_used (ca_pool c)) eqn:Hfull; btrue.
  - destruct (sd_cache_oldest c) as [old|] eqn:Ho.
    2:{ intros [= <- <-]. split_and!; try done. intros _. left.
        apply oldest_none in Ho. unfold cp_used in Hfull. rewrite Ho in Hfull. cbn in Hfull. lia. }
    intros [= <- <-]. destruct (oldest_line _ _ Hi Ho) as (oldline & Hol & Hod).
    assert (Hne : old <> (id, v)) by (intros ->; congruence).
    rewrite (line_get_set c (id, v) given old) by eauto. rewrite decide_False by done. rewrite Hol.
    change (default line_zero (Some oldline)) with oldline.
    split_and!; [by apply (take_chunk_inv c (id, v) old line oldline)| |cbn; auto|done].
    intros _. change (has_chunk (line_set (line_set c (id, v) given) old (line_taken oldline)) (id, v)).
    rewrite has_chunk_set by (rewrite line_get_set by eauto; rewrite decide_False by done; eauto).
    rewrite decide_False by done. rewrite has_chunk_set by eauto. by rewrite decide_True.
  - destruct (negb (cp_held_alloc (ca_pool c)) && negb (fst mem)) eqn:Hm.
    { intros [= <- <-]. split_and!; try done. btrue. auto. }
    destruct (snd mem) eqn:Hm2; cbn [negb]; intros [= <- <-].
    + split_and!; [by apply (add_chunk_inv c (id, v) line)| |cbn; by apply Hset|done].
      intros _. set (c1 := with_pool c _).
      change (has_chunk (line_set c1 (id, v) given) (id, v)).
      rewrite has_chunk_set by (by exists line). by rewrite decide_True.
    + split_and!; [by apply with_pool_inv|done|done|auto].
Qed.

Lemma victim_scan_lt lines rest i victim best :
  (victim < length lines)%nat -> (i + length rest <= length lines)%nat ->
  (victim_scan lines rest i victim best < length lines)%nat.
Proof.
  revert i victim best. induction rest as [|x rest IH]; intros i victim best Hv Hi; cbn [victim_scan]; [done|].
  cbn in Hi. case_if; apply IH; lia.
Qed.

(** Lines that differ only in when they were used. *)
Definition line_same (x y : sd_cache_line) : Prop := cl_data x = cl_data y /\ cl_start x = cl_start y.

Lemma file_same_ok bytes f f' :
  file_ok bytes f -> Forall2 line_same (cf_lines f) (cf_lines f') ->
  cf_size_known f' = cf_size_known f -> cf_size f' = cf_size f -> cf_window f' = cf_window f ->
  file_ok bytes f' /\
  forall i, (cl_data <$> cf_lines f' !! i) = Some None <-> (cl_data <$> cf_lines f !! i) = Some None.
Proof.
  intros [H1 H2 H3 H4] Hs E1 E2 E3. pose proof (Forall2_length _ _ _ Hs) as Hlen. split.
  - constructor; rewrite ?E1, ?E2, ?E3; try done; [congruence|]. intros i x Hx.
    destruct (Forall2_lookup_r _ _ _ _ _ Hs Hx) as (y & Hy & [Ed Es]).
    intros data Hd H0. rewrite <- Ed in Hd. rewrite <- Es in *. by eapply H2.
  - intros i. destruct (cf_lines f' !! i) as [x|] eqn:Hx.
    + destruct (Forall2_lookup_r _ _ _ _ _ Hs Hx) as (y & Hy & [Ed Es]). rewrite Hy. cbn. by rewrite Ed.
    + apply lookup_ge_None in Hx. rewrite (lookup_ge_None_2 (cf_lines f)) by lia. done.
Qed.

Lemma sd_cache_victim_spec bytes f v f' :
  file_ok bytes f -> sd_cache_victim f = (v, f') ->
  file_ok bytes f' /\ (v < SD_CACHE_LINES)%nat /\
  forall i, (cl_data <$> cf_lines f' !! i) = Some None <-> (cl_data <$> cf_lines f !! i) = Some None.
Proof.
  intros Hok. unfold sd_cache_victim. set (lines := _ <$> cf_lines f).
  assert (Hl : length lines = SD_CACHE_LINES) by (unfold lines; rewrite length_fmap; apply Hok).
  intros [= <- <-]. set (v := victim_scan _ _ _ _ _).
  assert (Hv : (v < length lines)%nat).
  { apply victim_scan_lt; rewrite Hl; unfold SD_CACHE_LINES; lia. }
  destruct (file_same_ok bytes f (with_lines f (<[v := line_with_lru (lines !!! v) 0x80000000]> lines)))
    as [H1 H2]; try done.
  - assert (Hf2 : Forall2 line_same (cf_lines f) lines).
    { unfold lines. apply Forall2_fmap_r. apply Forall_Forall2_diag, list.Forall_forall. done. }
    cbn. destruct (Forall2_lookup_r _ _ _ v (lines !!! v) Hf2) as (y & Hy & Hs).
    { by apply list_lookup_lookup_total_lt. }
    rewrite <- (list_insert_id (cf_lines f) v y) by done.
    apply Forall2_insert; done.
  - split_and!; [done|by rewrite <- Hl|done].
Qed.

Lemma sd_cache_line_for_spec bytes f at_ i f' :
  file_ok bytes f -> sd_cache_line_for f at_ = Some (i, f') ->
  file_ok bytes f' /\
  (forall i, (cl_data <$> cf_lines f' !! i) = Some None <-> (cl_data <$> cf_lines f !! i) = Some None) /\
  exists line, cf_lines f' !! i = Some line /\ line_has at_ line = true.
Proof.
  intros Hok. unfold sd_cache_line_for. destruct (first_index _ _) as [k|] eqn:Hf; [|done].
  apply first_index_Some in Hf as (line & Hl & Hhas & _). cbn. rewrite Hl. cbn. intros [= <- <-].
  assert (Hlt : (k < length (cf_lines f))%nat) by (by eapply lookup_lt_Some).
  destruct (file_same_ok bytes f (with_lines f (<[k := mk_cache_line (cl_data line) (cl_start line)
    (Z.lor (cl_lru line) 0x80000000) (cl_used_at line)]> (cf_lines f)))) as [H1 H2]; try done.
  - cbn. rewrite <- (list_insert_id (cf_lines f) k line) at 1 by done.
    apply Forall2_insert; [apply Forall_Forall2_diag, list.Forall_forall; done|done].
  - split_and!; [done..|]. eexists. split; [by apply list_lookup_insert_eq|]. done.
Qed.

(** *** The plan of a fill *)

Lemma plan_end_spec offset lines end_ :
  offset < end_ ->
  let e := fold_left (fun end_ line =>
    if bool_decide (cl_data line <> None) && (offset <? cl_start line) && (cl_start line <? end_)
    then cl_start line else end_) lines end_ in
  offset < e <= end_.
Proof.
  revert end_. induction lines as [|x lines IH]; intros end_ He; cbn; [lia|].
  destruct (_ && _) eqn:E.
  - btrue. specialize (IH (cl_start x) ltac:(lia)). cbn in IH. lia.
  - by apply IH.
Qed.

Lemma sd_cache_plan_spec bytes f pool at_ :
  file_ok bytes f -> 0 <= at_ -> 0 <= cp_fill_min pool <= SD_CACHE_CHUNK ->
  match sd_cache_plan f pool at_ with
  | None => Z.of_nat (length bytes) <= at_
  | Some (start, want, window) =>
      0 <= start <= at_ /\ at_ < start + want /\ want <= SD_CACHE_CHUNK /\ 0 <= window <= SD_CACHE_CHUNK
  end.
Proof.
  intros [_ _ Hsize Hwin] Hat Hfm. unfold sd_cache_plan.
  destruct (cf_size_known f && (cf_size f <=? at_)) eqn:Hend.
  { btrue. specialize (Hsize ltac:(done)). lia. }
  set (step := if cp_fill_min pool =? 0 then SD_CACHE_CHUNK else cp_fill_min pool).
  set (window := if cp_fill_min pool =? 0 then SD_CACHE_CHUNK else _).
  assert (Hstep : 0 < step <= SD_CACHE_CHUNK) by (unfold step, SD_CACHE_CHUNK in *; case_if; btrue; lia).
  assert (Hw : 0 <= window <= SD_CACHE_CHUNK).
  { unfold window, SD_CACHE_CHUNK in *. rewrite u32_small by (unfold is_u32; lia).
    repeat case_if; btrue; lia. }
  pose proof (Z.mod_pos_bound at_ step ltac:(lia)) as Hmod.
  set (start := at_ - at_ mod step).
  assert (Hst : 0 <= start <= at_) by (unfold start; pose proof (Z.mod_le at_ step); lia).
  set (end1 := if start + window - at_ <? 1 then at_ + 1 else start + window).
  assert (He1 : at_ < end1 <= start + SD_CACHE_CHUNK) by (unfold end1, start in *; case_if; btrue; lia).
  pose proof (plan_end_spec at_ (cf_lines f) end1 ltac:(lia)) as He2. cbn zeta in He2 |- *.
  set (end2 := fold_left _ _ _) in *. split_and!; try lia.
  - destruct (cf_size_known f) eqn:Hk; cbn [andb] in *; [|lia]. btrue. case_if; btrue; lia.
  - destruct (cf_size_known f && (cf_size f <? end2)) eqn:Hk; btrue; lia.
Qed.

End inv.

(** What identifies an open file. *)
Definition file_meta (f : sd_cache_file) : Z * list Z * bool := (cf_key f, cf_path f, cf_writable f).
Definition meta (c : sd_cache) (id : positive) : option (Z * list Z * bool) := file_meta <$> ca_files c !! id.

Lemma line_set_meta c l x id : meta (line_set c l x) id = meta c id.
Proof.
  unfold meta, line_set. destruct (ca_files c !! fst l) as [f|] eqn:Hf; [|done]. cbn.
  destruct (decide (fst l = id)) as [<-|Hne]; [by rewrite lookup_insert_eq, Hf|by rewrite lookup_insert_ne].
Qed.

(** The same files are open, whatever of them is cached. *)
Definition same_files (c c' : sd_cache) : Prop :=
  (forall id, meta c' id = meta c id) /\ ca_list c' = ca_list c.

#[local] Instance same_files_preorder : PreOrder same_files.
Proof.
  split; [done|]. intros c1 c2 c3 [H1 L1] [H2 L2]. split; [intros id; by rewrite H2|congruence].
Qed.

Lemma same_files_line_set c l x : same_files c (line_set c l x).
Proof. split; [apply line_set_meta|apply line_set_list]. Qed.

Lemma same_files_pool c pool : same_files c (with_pool c pool).
Proof. done. Qed.

Lemma same_files_set c id f f' :
  ca_files c !! id = Some f -> file_meta f' = file_meta f -> same_files c (file_set c id f').
Proof.
  intros Hf Hm. split; [|done]. intros id'. unfold meta. cbn.
  destruct (decide (id = id')) as [<-|Hne]; [by rewrite lookup_insert_eq, Hf; cbn; rewrite Hm|].
  by rewrite lookup_insert_ne.
Qed.

Lemma cache_chunk_same c id v mem b c' : cache_chunk c id v mem = (b, c') -> same_files c c'.
Proof.
  unfold cache_chunk. destruct (line_get c (id, v)); [|by intros [= _ <-]].
  case_bool_decide; [by intros [= _ <-]|]. case_if.
  - destruct (sd_cache_oldest c); intros [= _ <-]; [|done].
    etrans; [|apply same_files_pool]. etrans; apply same_files_line_set.
  - case_if; [by intros [= _ <-]|]. case_if; intros [= _ <-]; [done|].
    etrans; [|apply same_files_pool]. etrans; [apply same_files_pool|apply same_files_line_set].
Qed.

Section reading.
Context (content : positive -> list Z) {C : Type} (fill : C -> Z -> Z -> option (list Z) * C) (id : positive).

(** A request that does not fail reads what the file has there, and less than
    asked for only at its end. It is asked for at least a byte and never for
    more than a chunk. *)
Definition fill_ok : Prop :=
  forall ctx start want got ctx', 0 <= start -> 1 <= want <= SD_CACHE_CHUNK ->
    fill ctx start want = (Some got, ctx') ->
    got = take (Z.to_nat want) (drop (Z.to_nat start) (content id)).

Definition fill_never_fails : Prop := forall ctx start want, fst (fill ctx start want) <> None.

Hypothesis Hfill : fill_ok.

Lemma fill_line_ok got start want lru used :
  0 <= start -> got = take (Z.to_nat want) (drop (Z.to_nat start) (content id)) ->
  line_ok (content id) (mk_cache_line (Some got) start lru used).
Proof.
  intros H0 Hgot data [= <-] _ j Hj. cbn. subst got. rewrite length_take in Hj.
  rewrite lookup_take_lt by lia. apply lookup_drop.
Qed.

Lemma file_filled_ok f start want window got :
  file_ok (content id) f -> 0 <= start -> 0 <= want -> 0 <= window <= SD_CACHE_CHUNK ->
  got = take (Z.to_nat want) (drop (Z.to_nat start) (content id)) ->
  file_ok (content id) (file_filled f start want window (Z.of_nat (length got))).
Proof.
  intros [H1 H2 H3 H4] Hs Hw Hwin Hgot. constructor; cbn; try done.
  case_if; btrue; [|done]. intros _. subst got. rewrite length_take, length_drop in *. lia.
Qed.

(** What a miss leaves: the byte asked for in a line, or the end of the file
    when it has no such byte, or a request or an allocation that failed. *)
Definition miss_post (c : sd_cache) (at_ : Z) (mem : bool * bool) (m : missed) (c' : sd_cache) : Prop :=
  cache_inv content c' /\ is_Some (ca_files c' !! id) /\
  cp_max (ca_pool c') = cp_max (ca_pool c) /\ same_files c c' /\
  match m with
  | MissLine i => exists line, line_get c' (id, i) = Some line /\ line_has at_ line = true
  | MissEnd _ => Z.of_nat (length (content id)) <= at_
  | MissFailed => ~ fill_never_fails
  | MissBypass => cp_max (ca_pool c) <= 0 \/ fst mem = false \/ snd mem = false
  end.

Lemma cache_chunk_max c v mem b c' :
  cache_chunk c id v mem = (b, c') -> cp_max (ca_pool c') = cp_max (ca_pool c).
Proof.
  unfold cache_chunk. destruct (line_get c (id, v)); [|by intros [= _ <-]].
  case_bool_decide; [by intros [= _ <-]|]. case_if.
  - destruct (sd_cache_oldest c); intros [= _ <-]; [|done]. cbn.
    unfold sd_cache_held_replace. destruct (first_index _ _); cbn; by rewrite !line_set_pool.
  - case_if; [by intros [= _ <-]|]. case_if; intros [= _ <-]; done.
Qed.

Lemma cache_miss_spec c ctx f at_ mem m c' ctx' :
  cache_inv content c -> ca_files c !! id = Some f -> 0 <= at_ ->
  cache_miss fill c ctx id f at_ mem = (m, c', ctx') -> miss_post c at_ mem m c'.
Proof.
  intros Hi Hf Hat. unfold cache_miss. pose proof (ci_files _ _ Hi id f Hf) as Hok.
  pose proof (sd_cache_plan_spec _ f (ca_pool c) at_ Hok Hat (ci_fill _ _ Hi)) as Hplan.
  destruct (sd_cache_plan f (ca_pool c) at_) as [[[start want] window]|].
  2:{ intros [= <- <- <-]. split_and!; try done. }
  destruct Hplan as (Hst & Hwant & Hmax & Hwin).
  destruct (sd_cache_victim f) as [v f1] eqn:Hvic.
  destruct (sd_cache_victim_spec _ _ _ _ Hok Hvic) as (Hok1 & Hv & Hsame).
  pose proof (file_set_inv content c id f f1 Hi Hf Hok1 Hsame) as Hi1.
  assert (Hf1 : ca_files (file_set c id f1) !! id = Some f1) by apply lookup_insert_eq.
  destruct (cache_chunk (file_set c id f1) id v mem) as [b c2] eqn:Hch.
  pose proof (cache_chunk_max _ _ _ _ _ Hch) as Hmx.
  assert (Hsf : same_files c c2).
  { etrans; [|by eapply cache_chunk_same]. apply (same_files_set c id f f1 Hf).
    unfold sd_cache_victim in Hvic. by injection Hvic as _ <-. }
  apply (cache_chunk_spec content) in Hch as (Hi2 & Hhas & Hf2 & Hfail); [|done|].
  2:{ rewrite (line_get_lt _ _ f1) by done. apply lookup_lt_is_Some. by rewrite (fo_lines _ _ Hok1). }
  destruct b; [|by intros [= <- <- <-]; split_and!; auto].
  destruct (Hhas eq_refl) as (line & Hl & Hd). rewrite Hl.
  change (default line_zero (Some line)) with line.
  set (c3 := line_set c2 (id, v) _).
  assert (Hi3 : cache_inv content c3).
  { eapply line_set_inv; [done|done|apply line_empty_ok; auto|done]. }
  assert (Hl3 : line_get c3 (id, v) = Some (mk_cache_line (Some []) (-1) (cl_lru line) (cl_used_at line))).
  { unfold c3. rewrite line_get_set by eauto. by rewrite decide_True. }
  assert (Hkeep : forall c l x, is_Some (ca_files c !! id) -> is_Some (ca_files (line_set c l x) !! id)).
  { intros c0 l x Hs. unfold line_set. destruct (ca_files c0 !! fst l); [|done]. cbn.
    rewrite lookup_insert_is_Some'. auto. }
  destruct (fill ctx start want) as [[got|] ctx1] eqn:Hfl.
  2:{ intros [= <- <- <-]. split_and!; [done|by apply Hkeep|unfold c3; by rewrite line_set_pool| |].
      { etrans; [done|apply same_files_line_set]. }
      intros Hnever. specialize (Hnever ctx start want). by rewrite Hfl in Hnever. }
  pose proof (Hfill ctx start want got ctx1 (proj1 Hst) ltac:(lia) Hfl) as Hgot.
  set (newl := mk_cache_line (Some got) start (cl_lru line) (cl_used_at line)).
  set (c4 := line_set c3 (id, v) newl).
  assert (Hi4 : cache_inv content c4).
  { eapply line_set_inv; [done|done| |done]. eapply fill_line_ok; [lia|done]. }
  assert (Hl4 : line_get c4 (id, v) = Some newl).
  { unfold c4. rewrite line_get_set by eauto. by rewrite decide_True. }
  destruct (ca_files c4 !! id) as [f4|] eqn:Hf4; [|unfold line_get in Hl4; cbn in Hl4; by rewrite Hf4 in Hl4].
  set (c5 := file_set c4 id _).
  assert (Hi5 : cache_inv content c5).
  { eapply file_set_inv; [done|done| |done]. apply file_filled_ok; try lia; [by apply Hi4|done]. }
  assert (Hsf5 : same_files c c5).
  { etrans; [|by eapply same_files_set]. etrans; [|apply same_files_line_set].
    etrans; [done|apply same_files_line_set]. }
  assert (Hmx5 : cp_max (ca_pool c5) = cp_max (ca_pool c)).
  { change (cp_max (ca_pool c4) = cp_max (ca_pool c)). unfold c4, c3. by rewrite !line_set_pool. }
  assert (Hs5 : is_Some (ca_files c5 !! id)) by (exists (file_filled f4 start want window (Z.of_nat (length got))); apply lookup_insert_eq).
  destruct (start + Z.of_nat (length got) <=? at_) eqn:Hend; btrue; intros [= <- <- <-]; split_and!; try done.
  - assert (Hlen : length got = (Z.to_nat want `min` (length (content id) - Z.to_nat start))%nat)
      by (subst got; by rewrite length_take, length_drop). lia.
  - exists newl. split.
    + rewrite (line_get_lt c5 id (file_filled f4 start want window (Z.of_nat (length got)))) by apply lookup_insert_eq.
      cbn. rewrite <- Hl4. symmetry. by apply line_get_lt.
    + unfold line_has, newl, cl_len. cbn. rewrite ?bool_decide_true by done. lia.
Qed.

Lemma line_has_bytes line at_ left :
  line_ok (content id) line -> line_has at_ line = true -> (0 < left)%nat ->
  let bytes := take left (drop (Z.to_nat (at_ - cl_start line)) (default [] (cl_data line))) in
  (0 < length bytes <= left)%nat /\
  forall j, (j < length bytes)%nat -> bytes !! j = content id !! (Z.to_nat at_ + j)%nat.
Proof.
  intros Hok Hhas Hleft. unfold line_has, cl_len in Hhas. btrue.
  destruct (cl_data line) as [data|] eqn:Hd; [|done].
  change (default [] (Some data)) with data in *. cbn zeta. rewrite length_take, length_drop.
  split; [lia|]. intros j Hj. rewrite lookup_take_lt, lookup_drop by lia.
  rewrite (Hok data Hd) by lia. f_equal. lia.
Qed.

Lemma cache_copy_spec c i at_ left line bytes c' :
  cache_inv content c -> line_get c (id, i) = Some line -> line_has at_ line = true -> (0 < left)%nat ->
  cache_copy c id i at_ left = (bytes, c') ->
  cache_inv content c' /\ is_Some (ca_files c' !! id) /\ cp_max (ca_pool c') = cp_max (ca_pool c) /\
  same_files c c' /\ (0 < length bytes <= left)%nat /\
  forall j, (j < length bytes)%nat -> bytes !! j = content id !! (Z.to_nat at_ + j)%nat.
Proof.
  intros Hi Hl Hhas Hleft. unfold cache_copy. rewrite Hl. change (default line_zero (Some line)) with line.
  intros [= <- <-]. set (c1 := with_pool c _).
  assert (Hi1 : cache_inv content c1) by (by apply with_pool_inv).
  assert (Hok : line_ok (content id) line).
  { unfold line_get in Hl. cbn in Hl. destruct (ca_files c !! id) as [f|] eqn:Hf; [|done].
    cbn in Hl. by eapply (ci_files _ _ Hi id f). }
  split_and!.
  - by eapply (line_set_inv content c1 (id, i) line).
  - unfold line_get in Hl. cbn in Hl. unfold line_set. cbn. destruct (ca_files c !! id) eqn:E; [|done].
    cbn. rewrite lookup_insert_eq. eauto.
  - by rewrite line_set_pool.
  - etrans; [apply same_files_pool|apply same_files_line_set].
  - by apply line_has_bytes.
  - by apply line_has_bytes.
  - by apply (line_has_bytes line at_ left).
Qed.

(** Bytes of the file from [offset] on. *)
Definition file_bytes (offset : Z) (buf : list Z) : Prop :=
  forall j, (j < length buf)%nat -> buf !! j = content id !! (Z.to_nat offset + j)%nat.

Definition no_failure (c : sd_cache) (mem : Z -> bool * bool) : Prop :=
  fill_never_fails /\ 0 < cp_max (ca_pool c) /\ forall k, mem k = (true, true).

Record read_post (c : sd_cache) (offset : Z) (size : nat) (mem : Z -> bool * bool) (res : @read_result C) : Prop := {
  rp_inv : cache_inv content (rr_cache res);
  rp_file : is_Some (ca_files (rr_cache res) !! id);
  rp_same : same_files c (rr_cache res);
  rp_bytes : file_bytes offset (rr_buf res);
  rp_size : (length (rr_buf res) <= size)%nat;
  rp_ret : rr_ret res = Z.of_nat (length (rr_buf res)) \/
           rr_buf res = [] /\ (rr_ret res = -1 \/ rr_ret res = SD_CACHE_BYPASS);
  rp_whole : no_failure c mem -> rr_ret res = Z.of_nat (length (rr_buf res)) /\
             (length (rr_buf res) = size \/
              Z.of_nat (length (content id)) <= offset + Z.of_nat (length (rr_buf res)))
}.

Lemma read_post_stop c c' offset buf left mem ret ctx fills :
  cache_inv content c' -> is_Some (ca_files c' !! id) -> same_files c c' -> file_bytes offset buf ->
  (ret = -1 \/ ret = SD_CACHE_BYPASS) -> ~ no_failure c mem ->
  read_post c offset (length buf + left) mem
    (mk_read_result (C := C) (match buf with [] => ret | _ => Z.of_nat (length buf) end) buf c' ctx fills).
Proof. intros H1 H2 H3 H4 H5 H6. constructor; cbn; try done; [lia|destruct buf; auto]. Qed.

Lemma read_loop_spec fuel c ctx offset buf rem mem fills :
  cache_inv content c -> is_Some (ca_files c !! id) -> 0 <= offset -> file_bytes offset buf ->
  (rem <= fuel)%nat ->
  exists res, read_loop fill fuel c ctx id offset buf rem mem fills = Some res /\
    read_post c offset (length buf + rem) mem res.
Proof.
  revert c ctx buf rem fills. induction fuel as [|fuel IH]; intros c ctx buf rem fills Hi Hs H0 Hb Hf;
    (destruct rem as [|lf];
     [cbn; eexists; split; [done|]; constructor; cbn; try done; [lia|by left|intros _; split; [done|left; lia]]|]); [lia|].
  set (rem := S lf) in *. destruct Hs as [f Hfile]. cbn [read_loop]. fold rem. rewrite Hfile.
  set (at_ := offset + Z.of_nat (length buf)).
  (* the copy, once the line has the byte *)
  assert (Hgo : forall c1 ctx1 i line fills1, cache_inv content c1 -> line_get c1 (id, i) = Some line ->
    line_has at_ line = true -> cp_max (ca_pool c1) = cp_max (ca_pool c) -> same_files c c1 ->
    exists res, (let '(bytes, c) := cache_copy c1 id i at_ rem in
      read_loop fill fuel c ctx1 id offset (buf ++ bytes) (rem - length bytes) mem fills1) = Some res /\
      read_post c offset (length buf + rem) mem res).
  { intros c1 ctx1 i line fills1 Hi1 Hl Hhas Hmx Hsf1.
    destruct (cache_copy c1 id i at_ rem) as [bytes c2] eqn:Hcopy.
    destruct (cache_copy_spec c1 i at_ rem line bytes c2 Hi1 Hl Hhas (Nat.lt_0_succ _) Hcopy) as (Hi2 & Hf2 & Hmx2 & Hsf2 & Hlen & Hbytes).
    destruct (IH c2 ctx1 (buf ++ bytes) (rem - length bytes)%nat fills1) as (res & Hrun & Hpost); try done; [|lia|].
    - intros j Hj. rewrite length_app in Hj. destruct (decide (j < length buf)%nat).
      + rewrite lookup_app_l by done. by apply Hb.
      + rewrite lookup_app_r by lia. rewrite Hbytes by lia. f_equal. unfold at_. lia.
    - exists res. split; [done|]. destruct Hpost. rewrite length_app in *.
      replace (length buf + length bytes + (rem - length bytes))%nat with (length buf + rem)%nat in * by lia.
      constructor; try done; [etrans; [done|]; by etrans|]. intros (Hn1 & Hn2 & Hn3). apply rp_whole0. split_and!; [done|lia|done]. }
  destruct (sd_cache_line_for f at_) as [[i f1]|] eqn:Hfor.
  - destruct (sd_cache_line_for_spec _ _ _ _ _ (ci_files _ _ Hi id f Hfile) Hfor) as (Hok1 & Hsame & line & Hl & Hhas).
    apply (Hgo (file_set c id f1) ctx i line fills); [by eapply file_set_inv| |done|done|].
    { by rewrite (line_get_lt _ _ f1) by apply lookup_insert_eq. }
    apply (same_files_set c id f f1 Hfile). unfold sd_cache_line_for in Hfor.
    destruct (first_index _ _); [|done]. cbn in Hfor. destruct (cf_lines f !! _); [|done].
    by injection Hfor as _ <-.
  - destruct (cache_miss fill c ctx id f at_ (mem fills)) as [[m c1] ctx1] eqn:Hmiss.
    apply cache_miss_spec in Hmiss as (Hi1 & Hf1 & Hmx & Hsf & Hm); [|done|done|unfold at_; lia]. destruct m as [i|n| |].
    + destruct Hm as (line & Hl & Hhas). by eapply Hgo.
    + eexists. split; [done|]. constructor; cbn; try done; [lia|by left|]. intros _. split; [done|]. right. unfold at_ in Hm. lia.
    + eexists. split; [done|]. apply read_post_stop; auto. intros (? & ? & ?). done.
    + eexists. split; [done|]. apply read_post_stop; auto. intros (? & ? & Hmem). rewrite Hmem in Hm. cbn in Hm.
      destruct Hm as [?|[?|?]]; [lia|done..].
Qed.

End reading.

(** ** Giving chunks back *)

Section giving.
Context (content : positive -> list Z).

(** A line loses its chunk and leaves the list of held lines. *)
Lemma release_inv c l line x :
  cache_inv content c -> line_get c l = Some line -> cl_data line <> None -> cl_data x = None ->
  cache_inv content (with_pool (line_set c l x) (sd_cache_held_remove (ca_pool c) l)).
Proof.
  intros [H1 H2 H3 H4] Hl Hd Hx. destruct (held_remove_spec (ca_pool c) l H2) as [N1 N2].
  constructor; cbn; try done.
  - apply line_set_files_ok; [done|]. apply line_empty_ok. auto.
  - intros l'. change (has_chunk (with_pool (line_set c l x) _) l') with (has_chunk (line_set c l x) l').
    rewrite N2, H3, has_chunk_set by eauto. case_decide; naive_solver.
Qed.

Lemma held_remove_length pool l :
  NoDup (cp_held pool) -> l ∈ cp_held pool ->
  S (length (cp_held (sd_cache_held_remove pool l))) = length (cp_held pool).
Proof.
  intros Hn Hin. unfold sd_cache_held_remove. cbn [cp_held with_held].
  destruct (first_index (fun h => bool_decide (h = l)) (cp_held pool)) as [i|] eqn:Hf.
  2:{ apply first_index_None in Hf. eapply list.Forall_forall in Hf; [|exact Hin]. btrue. done. }
  destruct (last (cp_held pool)) as [h|] eqn:Hlast;
    [|apply last_None in Hlast; rewrite Hlast in Hin; by apply elem_of_nil in Hin].
  rewrite <- (length_insert (cp_held pool) i h).
  assert (Hne : <[i := h]> (cp_held pool) <> []).
  { intros E. apply (f_equal length) in E. rewrite length_insert in E. by destruct (cp_held pool). }
  destruct (exists_last Hne) as (l0 & y & ->). rewrite removelast_last, length_app. simpl. lia.
Qed.

Lemma trim_loop_spec n c :
  cache_inv content c -> (length (cp_held (ca_pool c)) <= n)%nat ->
  let c' := trim_loop n c in
  cache_inv content c' /\ cp_max (ca_pool c') = cp_max (ca_pool c) /\
  (cp_used (ca_pool c') <= cp_max (ca_pool c) \/ cp_used (ca_pool c') = 0) /\
  cp_used (ca_pool c') <= cp_used (ca_pool c).
Proof.
  revert c. induction n as [|n IH]; intros c Hi Hn; cbn [trim_loop].
  { unfold cp_used. split_and!; try done. right. lia. }
  destruct (cp_used (ca_pool c) <=? cp_max (ca_pool c)) eqn:Hle; btrue.
  { split_and!; try done. by left. }
  destruct (sd_cache_oldest c) as [old|] eqn:Ho.
  2:{ apply oldest_none in Ho. unfold cp_used. rewrite Ho. split_and!; try done. by right. }
  destruct (oldest_line _ _ _ Hi Ho) as (line & Hl & Hd). rewrite Hl.
  change (default line_zero (Some line)) with line. rewrite line_set_pool.
  pose proof (release_inv c old line (line_taken line) Hi Hl Hd eq_refl) as Hi1.
  pose proof (held_remove_length (ca_pool c) old (ci_nodup _ _ Hi) (oldest_held _ _ Ho)) as Hlen.
  destruct (IH _ Hi1) as (H1 & H2 & H3 & H4); [cbn [ca_pool with_pool]; lia|].
  cbn [ca_pool with_pool] in H2, H3, H4. unfold cp_used in *. split_and!; [done|done|done|lia].
Qed.

Lemma drop_loop_spec n c id i f :
  cache_inv content c -> ca_files c !! id = Some f -> (i + n = SD_CACHE_LINES)%nat ->
  (forall k line, (k < i)%nat -> cf_lines f !! k = Some line -> cl_data line = None) ->
  let c' := drop_loop n c id i in
  cache_inv content c' /\ (forall id', meta c' id' = meta c id') /\ ca_list c' = ca_list c /\
  exists f', ca_files c' !! id = Some f' /\
    forall k line, cf_lines f' !! k = Some line -> cl_data line = None.
Proof.
  revert c i f. induction n as [|n IH]; intros c i f Hi Hf Hn Hk; cbn [drop_loop].
  { split_and!; try done. exists f. split; [done|]. intros k line Hl. eapply Hk; [|done].
    apply lookup_lt_Some in Hl. rewrite (fo_lines _ _ (ci_files _ _ Hi id f Hf)) in Hl. lia. }
  rewrite (line_get_lt c id f i Hf).
  destruct (cf_lines f !! i) as [line|] eqn:Hl.
  2:{ apply (IH c (S i) f); try done; [lia|]. intros k x Hlt Hx.
      destruct (decide (k = i)) as [->|]; [congruence|eapply (Hk k); [lia|done]]. }
  case_bool_decide as Hd.
  { apply (IH c (S i) f); try done; [lia|]. intros k x Hlt Hx.
    destruct (decide (k = i)) as [->|]; [congruence|eapply (Hk k); [lia|done]]. }
  set (c1 := line_set _ _ _).
  assert (Ec1 : c1 = with_pool (line_set c (id, i) line_zero) (sd_cache_held_remove (ca_pool c) (id, i))).
  { unfold c1, line_set. cbn. by rewrite Hf. }
  assert (Hf1 : ca_files c1 !! id = Some (with_lines f (<[i := line_zero]> (cf_lines f)))).
  { rewrite Ec1. unfold line_set. cbn. rewrite Hf. cbn. apply lookup_insert_eq. }
  assert (Hi1 : cache_inv content c1).
  { rewrite Ec1. apply (release_inv c (id, i) line); try done. by rewrite (line_get_lt c id f). }
  destruct (IH c1 (S i) _ Hi1 Hf1) as (H1 & H2 & H3 & H4); [lia| |].
  - cbn. intros k x Hlt Hx. apply list_lookup_insert_Some in Hx as [(_ & <- & _)|[Hne Hx]]; [done|].
    eapply Hk; [|done]. lia.
  - split_and!; try done.
    + intros id'. rewrite H2. rewrite Ec1. apply (line_set_meta c (id, i) line_zero).
    + rewrite H3, Ec1. cbn. by rewrite line_set_list.
Qed.

End giving.

(** A file that dropped its chunks is right for whatever its bytes are now. *)
Lemma sd_cache_drop_spec content content' c id :
  cache_inv content c -> (forall id', id' <> id -> content' id' = content id') ->
  is_Some (ca_files c !! id) ->
  cache_inv content' (sd_cache_drop c id) /\ same_files c (sd_cache_drop c id) /\
  forall i, ~ has_chunk (sd_cache_drop c id) (id, i).
Proof.
  intros Hi Hsame [f Hf]. unfold sd_cache_drop.
  destruct (drop_loop_spec content SD_CACHE_LINES c id 0 f Hi Hf eq_refl ltac:(intros; lia))
    as (Hi1 & Hm & Hl & f1 & Hf1 & Hno). set (c1 := drop_loop _ _ _ _) in *.
  clearbody c1. rewrite Hf1.
  set (f2 := mk_cache_file _ _ _ _ _ _ _ _ _).
  destruct (ci_files _ _ Hi1 id f1 Hf1) as [L1 L2 L3 L4]. destruct Hi1 as [F1 F2 F3 F4].
  split_and!.
  - constructor; try done.
    + intros id' g Hg. cbn in Hg. apply lookup_insert_Some in Hg as [[<- <-]|[Hne Hg]].
      * constructor; cbn; try done. intros k x Hx. apply line_empty_ok. left. by eapply Hno.
      * rewrite Hsame by done. eauto.
    + intros l. rewrite F3. unfold has_chunk, line_get. cbn.
      destruct (decide (fst l = id)) as [E|Hne].
      * rewrite E, lookup_insert_eq, Hf1. done.
      * by rewrite lookup_insert_ne.
  - split; [|done]. intros id'. rewrite <- Hm. unfold meta. cbn. destruct (decide (id = id')) as [<-|Hne].
    + by rewrite lookup_insert_eq, Hf1.
    + by rewrite lookup_insert_ne.
  - intros i (line & Hline & Hd). unfold line_get in Hline. cbn in Hline.
    rewrite lookup_insert_eq in Hline. cbn in Hline. apply Hd. by eapply Hno.
Qed.

(** An action on a file that drops its chunks, whatever else of it changes. *)
Definition drops_file (act : sd_cache -> positive -> sd_cache) : Prop :=
  forall content content' c id, cache_inv content c ->
    (forall id', id' <> id -> content' id' = content id') -> is_Some (ca_files c !! id) ->
    cache_inv content' (act c id) /\ same_files c (act c id).

Lemma sd_cache_drop_drops : drops_file sd_cache_drop.
Proof. intros content content' c id Hi Hs Hf. destruct (sd_cache_drop_spec content content' c id Hi Hs Hf) as (? & ? & _). done. Qed.

Lemma sd_cache_stop_drops : drops_file sd_cache_stop.
Proof.
  intros content content' c id Hi Hs [f Hf]. unfold sd_cache_stop. rewrite Hf. set (f1 := mk_cache_file _ _ _ _ _ _ _ _ _).
  destruct (sd_cache_drop_spec content content' (file_set c id f1) id) as (H1 & H2 & _); [|done|..].
  - eapply file_set_inv; [done|done| |done]. by destruct (ci_files _ _ Hi id f Hf).
  - cbn. rewrite lookup_insert_eq. eauto.
  - split; [done|]. etrans; [|done]. by eapply same_files_set.
Qed.

(** ** Open files over a card that changes

    [card] gives the bytes of a file by canonical path. *)
Definition content_of (card : list Z -> list Z) (c : sd_cache) (id : positive) : list Z :=
  match ca_files c !! id with Some f => card (canon_path (cf_path f)) | None => [] end.

Definition sys_inv (card : list Z -> list Z) (c : sd_cache) : Prop :=
  cache_inv (content_of card c) c /\ NoDup (ca_list c) /\
  forall id, id ∈ ca_list c <-> is_Some (ca_files c !! id).

Lemma cache_inv_ext content content' c :
  (forall id, is_Some (ca_files c !! id) -> content' id = content id) ->
  cache_inv content c -> cache_inv content' c.
Proof. intros E [H1 H2 H3 H4]. constructor; try done. intros id f Hf. rewrite E by eauto. eauto. Qed.

Lemma content_of_same card c c' id : same_files c c' -> content_of card c' id = content_of card c id.
Proof.
  intros [Hm _]. specialize (Hm id). unfold meta in Hm. unfold content_of.
  destruct (ca_files c' !! id) as [f'|], (ca_files c !! id) as [f|]; cbn in Hm; try done.
  by injection Hm as _ -> _.
Qed.

Lemma same_files_is_Some c c' id : same_files c c' -> is_Some (ca_files c' !! id) <-> is_Some (ca_files c !! id).
Proof.
  intros [Hm _]. specialize (Hm id). unfold meta in Hm.
  destruct (ca_files c' !! id), (ca_files c !! id); cbn in Hm; try done; split; eauto.
Qed.

Lemma sys_inv_same card card' c c' :
  sys_inv card c -> same_files c c' -> cache_inv (content_of card' c) c' -> sys_inv card' c'.
Proof.
  intros (_ & Hn & Hl) Hsf Hi. split_and!.
  - eapply cache_inv_ext; [|exact Hi]. intros id _. by apply content_of_same.
  - by rewrite (proj2 Hsf).
  - intros id. rewrite (proj2 Hsf), (same_files_is_Some c c') by done. apply Hl.
Qed.

(** Dropping the chunks of the files a test on their path and mode picks. *)
Lemma for_files_drop pick act content content' ids c :
  drops_file act -> cache_inv content c -> (forall id, id ∈ ids -> is_Some (ca_files c !! id)) ->
  (forall f g, file_meta f = file_meta g -> pick f = pick g) ->
  (forall id, content' id <> content id ->
     id ∈ ids /\ forall f, ca_files c !! id = Some f -> pick f = true) ->
  (forall x y : list Z, Decision (x = y)) ->
  cache_inv content' (for_files pick act ids c) /\ same_files c (for_files pick act ids c).
Proof.
  intros Hact Hi Hex Hpick Hdiff Hdec. unfold for_files. revert c content Hi Hex Hdiff.
  induction ids as [|id ids IH]; intros c content Hi Hex Hdiff; cbn [fold_left].
  { split; [|done]. eapply cache_inv_ext; [|exact Hi]. intros id _.
    destruct (Hdec (content' id) (content id)) as [|Hne]; [done|]. destruct (Hdiff id Hne) as [Hin _].
    by apply elem_of_nil in Hin. }
  destruct (Hex id) as [f Hf]; [apply elem_of_cons; by left|]. rewrite Hf.
  destruct (pick f) eqn:Hp.
  - set (content1 := fun x => if decide (x = id) then content' id else content x).
    destruct (Hact content content1 c id) as (Hi1 & Hsf); [done| |eauto|].
    { intros id' Hne. unfold content1. by rewrite decide_False. }
    destruct (IH (act c id) content1) as [H1 H2]; [done|..].
    + intros id' Hin. apply (same_files_is_Some _ _ _ Hsf), Hex, elem_of_cons. by right.
    + intros id' Hne. unfold content1 in Hne. case_decide as E; [by subst|].
      destruct (Hdiff id' Hne) as [Hin Hf']. apply elem_of_cons in Hin as [->|Hin]; [done|].
      split; [done|]. intros g Hg. pose proof (proj1 Hsf id') as Hm1. unfold meta in Hm1. rewrite Hg in Hm1.
      destruct (ca_files c !! id') as [g0|] eqn:Hg0; [|done]. rewrite (Hpick g g0); [by apply Hf'|].
      cbn in Hm1. congruence.
    + split; [done|]. by etrans.
  - destruct (IH c content) as [H1 H2]; [done|..|done].
    + intros id' Hin. apply Hex, elem_of_cons. by right.
    + intros id' Hne. destruct (Hdiff id' Hne) as [Hin Hf']. split; [|done].
      apply elem_of_cons in Hin as [->|Hin]; [|done]. rewrite (Hf' f Hf) in Hp. done.
Qed.

Lemma path_is_canon path f : path_is path f = bool_decide (canon_path (cf_path f) = canon_path path).
Proof. unfold path_is. by rewrite same_path_spec. Qed.

(** Every open file of a path drops its chunks when the path is written. *)
Lemma for_path_spec act card card' c path :
  drops_file act -> sys_inv card c -> (forall p, p <> canon_path path -> card' p = card p) ->
  sys_inv card' (for_files (path_is path) act (ca_list c) c).
Proof.
  intros Hact Hs Hsame. pose proof Hs as (Hi & Hn & Hl).
  destruct (for_files_drop (path_is path) act (content_of card c) (content_of card' c) (ca_list c) c) as [H1 H2].
  - done.
  - done.
  - intros id. apply Hl.
  - intros f g E. unfold file_meta in E. rewrite !path_is_canon. by injection E as _ -> _.
  - intros id Hne. unfold content_of in Hne. destruct (ca_files c !! id) as [f|] eqn:Hf; [|done].
    split; [apply Hl; eauto|]. intros g [= <-]. rewrite path_is_canon. apply bool_decide_eq_true.
    destruct (decide (canon_path (cf_path f) = canon_path path)) as [|Hd]; [done|].
    by rewrite Hsame in Hne.
  - intros x y. apply _.
  - by eapply sys_inv_same.
Qed.

Lemma sd_cache_opened_spec card c id key path writable mem r c' :
  sys_inv card c -> ca_files c !! id = None -> sd_cache_opened c id key path writable mem = (r, c') ->
  sys_inv card c'.
Proof.
  intros Hs Hid. unfold sd_cache_opened. destruct mem; cbn [negb]; [|by intros [= _ <-]].
  set (f0 := mk_cache_file _ _ _ _ _ _ _ _ _).
  assert (Hnew : (forall i x, cf_lines f0 !! i = Some x -> cl_data x = None) /\ forall bytes, file_ok bytes f0).
  { assert (Hn0 : forall i x, cf_lines f0 !! i = Some x -> cl_data x = None).
    { intros i x Hx. by apply lookup_replicate in Hx as [-> _]. }
    split; [done|]. intros bytes. constructor; [apply length_replicate| |done|split; done].
    intros i x Hx. apply line_empty_ok. left. by eapply Hn0. }
  clearbody f0. destruct Hnew as [Hnew Hok0].
  set (c1 := for_files _ _ _ _). intros [= _ <-]. pose proof Hs as (Hi & Hn & Hl).
  destruct (for_files_drop (fun f => cf_writable f && path_is path f) sd_cache_drop (content_of card c)
    (content_of card c) (ca_list c) c) as [H1 H2]; [apply sd_cache_drop_drops|done|intros x; apply Hl| |done|intros; apply _|].
  { intros f g E. unfold file_meta in E. rewrite !path_is_canon. by injection E as _ -> ->. }
  fold c1 in H1, H2. clearbody c1. destruct (sys_inv_same card card c c1 Hs H2 H1) as (Hi1 & Hn1 & Hl1).
  assert (Hid1 : ca_files c1 !! id = None).
  { apply eq_None_not_Some. rewrite (same_files_is_Some c c1) by done. rewrite Hid. apply is_Some_None. }
  assert (Hno : id ∉ ca_list c1) by (rewrite Hl1, Hid1; apply is_Some_None).
  destruct Hi1 as [F1 F2 F3 F4]. split_and!; cbn.
  - constructor; cbn; try done.
    + intros id' f Hf. apply lookup_insert_Some in Hf as [[<- <-]|[Hne Hf]].
      * apply Hok0.
      * unfold content_of. cbn. rewrite lookup_insert_ne by done. apply F1 in Hf as Hok.
        unfold content_of in Hok. done.
    + intros [id' i]. rewrite F3. unfold has_chunk, line_get. cbn.
      destruct (decide (id' = id)) as [->|Hne]; [|by rewrite lookup_insert_ne].
      rewrite lookup_insert_eq, Hid1. cbn [mbind option_bind cf_lines]. split.
      * intros (x & [=] & _).
      * intros (x & Hx & Hd). by destruct Hd; eapply Hnew.
  - apply NoDup_cons. done.
  - intros id'. rewrite elem_of_cons, lookup_insert_is_Some', Hl1. naive_solver.
Qed.

Lemma sd_cache_closed_spec card c key : sys_inv card c -> sys_inv card (sd_cache_closed c key).
Proof.
  intros Hs. unfold sd_cache_closed. destruct (first_index _ _) as [i|] eqn:Hf; [|done].
  destruct (ca_list c !! i) as [id|] eqn:Hid; [|done]. pose proof Hs as (Hi & Hn & Hl).
  assert (Hsome : is_Some (ca_files c !! id)) by (apply Hl; by eapply list_elem_of_lookup_2).
  destruct (sd_cache_drop_spec (content_of card c) (content_of card c) c id) as (H1 & H2 & H3); [done..|].
  set (c1 := sd_cache_drop c id) in *. clearbody c1.
  destruct (sys_inv_same card card c c1 Hs H2 H1) as (Hi1 & Hn1 & Hl1). destruct Hi1 as [F1 F2 F3 F4].
  rewrite <- (proj2 H2) in Hid. split_and!; cbn.
  - constructor; cbn; try done.
    + intros id' f Hf'. apply lookup_delete_Some in Hf' as [Hne Hf']. unfold content_of. cbn.
      rewrite lookup_delete_ne by done. apply F1 in Hf' as Hok. unfold content_of in Hok. done.
    + intros [id' k]. rewrite F3. unfold has_chunk, line_get. cbn.
      destruct (decide (id = id')) as [<-|Hne]; [|by rewrite lookup_delete_ne].
      rewrite lookup_delete_eq. split; [|intros (x & [=] & _)].
      intros (x & Hx & Hd). exfalso. apply (H3 k). exists x. split; [exact Hx|done].
  - by apply NoDup_delete.
  - intros id'. rewrite lookup_delete_is_Some, <- Hl1. split.
    + intros Hin. split; [|by eapply delete_elem_of]. intros <-.
      apply list_elem_of_lookup in Hin as [j Hj]. destruct (decide (j < i)%nat).
      * rewrite list_lookup_delete_lt in Hj by done. pose proof (NoDup_lookup _ _ _ _ Hn1 Hj Hid). lia.
      * rewrite list_lookup_delete_ge in Hj by lia. pose proof (NoDup_lookup _ _ _ _ Hn1 Hj Hid). lia.
    + intros [Hne Hin]. apply list_elem_of_lookup in Hin as [j Hj]. destruct (decide (j < i)%nat).
      * eapply list_elem_of_lookup_2. by rewrite list_lookup_delete_lt.
      * destruct (decide (j = i)) as [->|]; [congruence|]. apply (list_elem_of_lookup_2 _ (j - 1)).
        rewrite list_lookup_delete_ge by lia. by replace (S (j - 1)) with j by lia.
Qed.

Inductive sd_step : sd_cache * (list Z -> list Z) -> sd_cache * (list Z -> list Z) -> Prop :=
| sd_reads {C : Type} c card id (fill : C -> Z -> Z -> option (list Z) * C) ctx offset size mem fills res :
    is_Some (ca_files c !! id) -> 0 <= offset -> fill_ok (content_of card c) fill id ->
    sd_cache_read fill c ctx id offset size mem fills = Some res ->
    sd_step (c, card) (rr_cache res, card)
| sd_writes c card card' path :
    (forall p, p <> canon_path path -> card' p = card p) ->
    sd_step (c, card) (sd_cache_written c path, card')
| sd_forgets c card card' path :
    (forall p, p <> canon_path path -> card' p = card p) ->
    sd_step (c, card) (sd_cache_forget_path c path, card')
| sd_opens c card id key path writable mem r c' :
    ca_files c !! id = None -> sd_cache_opened c id key path writable mem = (r, c') ->
    sd_step (c, card) (c', card)
| sd_closes c card key : sd_step (c, card) (sd_cache_closed c key, card)
| sd_reclaims c card bytes : sd_step (c, card) (snd (sd_cache_reclaim c bytes), card).

Lemma file_bytes_nil content id offset : file_bytes content id offset [].
Proof. intros j Hj. simpl in Hj. lia. Qed.

Lemma trim_loop_same n c : same_files c (trim_loop n c).
Proof.
  revert c. induction n as [|n IH]; intros c; cbn [trim_loop]; [done|]. case_if; [done|].
  destruct (sd_cache_oldest c); [|done]. etrans; [|apply IH]. etrans; [|apply same_files_pool].
  apply same_files_line_set.
Qed.

Lemma sd_cache_reclaim_spec content c bytes :
  cache_inv content c -> 0 <= bytes ->
  let '(freed, c') := sd_cache_reclaim c bytes in
  cache_inv content c' /\ same_files c c' /\
  cp_used (ca_pool c') <= cp_used (ca_pool c) - Z.min (cp_used (ca_pool c)) ((bytes + SD_CACHE_CHUNK - 1) / SD_CACHE_CHUNK) /\
  freed = (cp_used (ca_pool c) - cp_used (ca_pool c')) * SD_CACHE_CHUNK.
Proof.
  intros Hi Hb. unfold sd_cache_reclaim. cbn zeta.
  set (count := if _ <? _ then _ else _). set (c1 := with_pool c _).
  assert (Hi1 : cache_inv content c1) by (by apply with_pool_inv).
  destruct (trim_loop_spec content (length (cp_held (ca_pool c1))) c1 Hi1) as (H1 & H2 & H3 & H4); [done|].
  fold (sd_cache_trim c1) in H1, H2, H3, H4.
  assert (Hmx : cp_max (ca_pool c1) = cp_used (ca_pool c) - count) by done. rewrite Hmx in *.
  assert (Hcount : count = Z.min (cp_used (ca_pool c)) ((bytes + SD_CACHE_CHUNK - 1) / SD_CACHE_CHUNK)).
  { unfold count, SD_CACHE_CHUNK.
    assert (bytes / (128 * 1024) + (if bytes mod (128 * 1024) =? 0 then 0 else 1) = (bytes + 128 * 1024 - 1) / (128 * 1024))
      as -> by (case_if; btrue; zlia).
    case_if; btrue; lia. }
  rewrite <- Hcount. split_and!; [done| |lia|done].
  etrans; [apply same_files_pool|apply trim_loop_same].
Qed.

Lemma sd_cache_reclaim_same content c bytes : cache_inv content c ->
  cache_inv content (snd (sd_cache_reclaim c bytes)) /\ same_files c (snd (sd_cache_reclaim c bytes)).
Proof.
  intros Hi. unfold sd_cache_reclaim. cbn [snd]. set (c1 := with_pool c _).
  assert (Hi1 : cache_inv content c1) by (by apply with_pool_inv).
  destruct (trim_loop_spec content (length (cp_held (ca_pool c1))) c1 Hi1) as (H1 & _); [done|].
  split; [done|]. etrans; [apply same_files_pool|apply trim_loop_same].
Qed.

Lemma sd_step_inv x y : sd_step x y -> sys_inv (snd x) (fst x) -> sys_inv (snd y) (fst y).
Proof.
  intros Hst Hs. destruct Hst as [C c card id fill ctx offset size mem fills res Hid Ho Hfill Hrun|c card card' path Hc|
    c card card' path Hc|c card id key path writable mem r c' Hid Hrun|c card key|c card bytes]; simpl in *.
  - destruct (read_loop_spec (content_of card c) fill id Hfill size c ctx offset [] size mem fills)
      as (res' & Hrun' & Hpost); try done; [apply Hs|apply file_bytes_nil|].
    unfold sd_cache_read in Hrun. rewrite Hrun in Hrun'. injection Hrun' as <-. destruct Hpost.
    by eapply sys_inv_same.
  - by apply (for_path_spec sd_cache_drop card); [apply sd_cache_drop_drops|..].
  - by apply (for_path_spec sd_cache_stop card); [apply sd_cache_stop_drops|..].
  - by eapply sd_cache_opened_spec.
  - by apply sd_cache_closed_spec.
  - destruct (sd_cache_reclaim_same (content_of card c) c bytes) as [H1 H2]; [apply Hs|].
    by eapply sys_inv_same.
Qed.

Definition sd_cache_new (max cap fill_min : Z) : sd_cache :=
  mk_sd_cache ∅ [] (mk_cache_pool [] false max cap fill_min 0).

Lemma sd_cache_new_inv card max cap fill_min :
  0 <= fill_min <= SD_CACHE_CHUNK -> sys_inv card (sd_cache_new max cap fill_min).
Proof.
  intros Hf. split_and!; cbn; [|apply NoDup_nil_2|].
  - constructor; cbn; [done|apply NoDup_nil_2| |done]. intros l. split; [by intros ?%elem_of_nil|].
    intros (line & Hl & _). unfold line_get in Hl. cbn in Hl. done.
  - intros id. rewrite lookup_empty. split; [by intros ?%elem_of_nil|by intros [? ?]].
Qed.

(** C7: from an empty cache, whatever files were opened, closed, read, written
    or forgotten and chunks reclaimed, a read of an open file always returns,
    and what it copies is what the card has in the file now, from [offset] on.
    It asks the card for at least a byte and never more than a chunk's buffer
    holds ([fill_ok]); and unless a request or an allocation fails it copies
    all that was asked for, or up to the end of the file. *)
Theorem sd_cache_read_coherent {C : Type} (fill : C -> Z -> Z -> option (list Z) * C)
    max cap fill_min card0 c card id ctx offset size mem fills :
  0 <= fill_min <= SD_CACHE_CHUNK ->
  rtc sd_step (sd_cache_new max cap fill_min, card0) (c, card) ->
  is_Some (ca_files c !! id) -> 0 <= offset -> fill_ok (content_of card c) fill id ->
  exists res, sd_cache_read fill c ctx id offset size mem fills = Some res /\
    rr_buf res = take (length (rr_buf res)) (drop (Z.to_nat offset) (content_of card c id)) /\
    (rr_ret res = Z.of_nat (length (rr_buf res)) \/ rr_buf res = [] /\ rr_ret res < 0) /\
    (no_failure fill c mem ->
       rr_buf res = take size (drop (Z.to_nat offset) (content_of card c id)) /\
       rr_ret res = Z.of_nat (length (rr_buf res))).
Proof.
  intros Hfm Hrun Hid Ho Hfill.
  apply (rtc_keeps _ (fun x => sys_inv (snd x) (fst x)) _ _ sd_step_inv) in Hrun; [|by apply sd_cache_new_inv].
  destruct (read_loop_spec (content_of card c) fill id Hfill size c ctx offset [] size mem fills)
    as (res & Hr & [P1 P2 P3 P4 P5 P6 P7]); try done; [apply Hrun|apply file_bytes_nil|]. cbn in *.
  assert (Hbuf : rr_buf res = take (length (rr_buf res)) (drop (Z.to_nat offset) (content_of card c id))).
  { apply list_eq. intros j. destruct (decide (j < length (rr_buf res))%nat).
    - rewrite lookup_take_lt, lookup_drop by done. by apply P4.
    - rewrite !lookup_ge_None_2; [done|rewrite length_take; lia|lia]. }
  exists res. split_and!; [done..| |].
  - unfold SD_CACHE_BYPASS in P6. destruct P6 as [?|[? [?|?]]]; [by left|right; split; [done|lia]..].
  - intros Hn. destruct (P7 Hn) as [Hret Hlen]. split; [|done]. rewrite Hbuf at 1.
    destruct Hlen as [->|Hlen]; [done|].
    rewrite !take_ge; [done|rewrite length_drop; lia|rewrite length_drop; lia].
Qed.

(** reclaiming memory gives back at least the chunks asked for (all of them
    when fewer are held), reports their bytes, and what stays cached is still
    right. *)
Theorem sd_cache_reclaim_gives content c bytes :
  cache_inv content c -> 0 <= bytes ->
  let '(freed, c') := sd_cache_reclaim c bytes in
  cache_inv content c' /\
  cp_used (ca_pool c') <= cp_used (ca_pool c) - Z.min (cp_used (ca_pool c)) ((bytes + SD_CACHE_CHUNK - 1) / SD_CACHE_CHUNK) /\
  freed = (cp_used (ca_pool c) - cp_used (ca_pool c')) * SD_CACHE_CHUNK.
Proof.
  intros Hi Hb. pose proof (sd_cache_reclaim_spec content c bytes Hi Hb) as H.
  destruct (sd_cache_reclaim c bytes) as [freed c']. destruct H as (H1 & _ & H2 & H3). done.
Qed.

(** ** Witnesses: one file of five bytes *)

Definition card_example (p : list Z) : list Z := if decide (p = [97]) then [1; 2; 3; 4; 5] else [].
Definition fill_example (ctx : unit) (start want : Z) : option (list Z) * unit :=
  (Some (take (Z.to_nat want) (drop (Z.to_nat start) [1; 2; 3; 4; 5])), ctx).
Definition cache_example : sd_cache := snd (sd_cache_opened (sd_cache_new 4 4 0) 1 7 [97] false true).

Lemma sd_cache_read_coherent_witness :
  exists res, sd_cache_read fill_example cache_example tt 1 1 3 (fun _ => (true, true)) 0 = Some res /\
    rr_buf res = [2; 3; 4].
Proof.
  destruct (sd_cache_read_coherent fill_example 4 4 0 card_example cache_example card_example 1 tt 1 3
    (fun _ => (true, true)) 0) as (res & Hrun & _ & _ & Hall).
  - unfold SD_CACHE_CHUNK. lia.
  - apply rtc_once. eapply (sd_opens (sd_cache_new 4 4 0) card_example 1 7 [97] false true); [done|reflexivity].
  - vm_compute. eauto.
  - lia.
  - intros ctx start want got ctx' _ _ [= <- _]. reflexivity.
  - exists res. split; [exact Hrun|]. apply Hall. split_and!; [done|by vm_compute|done].
Defined.

Lemma sd_cache_reclaim_gives_witness :
  cp_used (ca_pool (snd (sd_cache_reclaim cache_example 1))) <= 0.
Proof.
  pose proof (sd_cache_reclaim_gives (content_of card_example cache_example) cache_example 1) as H.
  destruct (sd_cache_reclaim cache_example 1) as [freed c'] eqn:E.
  destruct H as (_ & H & _).
  - apply (sd_cache_opened_spec card_example (sd_cache_new 4 4 0) 1 7 [97] false true (Some 1%positive));
      [apply sd_cache_new_inv; unfold SD_CACHE_CHUNK; lia|done|reflexivity].
  - lia.
  - exact H.
Defined.

(** A read past the end of the five bytes leaves 131072, where its fill began,
    as the file's known size. *)
Example size_after_read_past_end :
  exists res, sd_cache_read fill_example cache_example tt 1 200000 3 (fun _ => (true, true)) 0 = Some res /\
    (cf_size <$> ca_files (rr_cache res) !! 1%positive) = Some 131072.
Proof. eexists. split; vm_compute; reflexivity. Qed.
