(* ===== verification/Clipboard.v ===== *)
(** * The clipboard (dlls/ntdll/unix/horizon_clipboard.h)

    Windows and threads are numbers validated by the caller. The formats are a
    list in the order they were added; whether an allocation succeeds is an
    argument. *)
From S2P Require Import Prelude.
Local Open Scope Z_scope.

Definition HORIZON_CLIP_CF_TEXT : Z := 1.
Definition HORIZON_CLIP_CF_BITMAP : Z := 2.
Definition HORIZON_CLIP_CF_METAFILEPICT : Z := 3.
Definition HORIZON_CLIP_CF_OEMTEXT : Z := 7.
Definition HORIZON_CLIP_CF_DIB : Z := 8.
Definition HORIZON_CLIP_CF_UNICODETEXT : Z := 13.
Definition HORIZON_CLIP_CF_ENHMETAFILE : Z := 14.
Definition HORIZON_CLIP_CF_LOCALE : Z := 16.
Definition HORIZON_CLIP_CF_DIBV5 : Z := 17.
Definition HORIZON_CLIP_CF_MAX : Z := 18.

Definition HORIZON_CLIP_STATUS_SUCCESS : Z := 0x00000000.
Definition HORIZON_CLIP_STATUS_PENDING : Z := 0x00000103.
Definition HORIZON_CLIP_STATUS_BUFFER_OVERFLOW : Z := 0x80000005.
Definition HORIZON_CLIP_STATUS_INVALID_PARAMETER : Z := 0xc000000d.
Definition HORIZON_CLIP_STATUS_NO_MEMORY : Z := 0xc0000017.
Definition HORIZON_CLIP_STATUS_INVALID_LOCK_SEQUENCE : Z := 0xc000001e.
Definition HORIZON_CLIP_STATUS_BUFFER_TOO_SMALL : Z := 0xc0000023.
Definition HORIZON_CLIP_STATUS_OBJECT_NAME_NOT_FOUND : Z := 0xc0000034.
Definition HORIZON_CLIP_STATUS_NOT_OPEN : Z := 0xc001058a.

Record horizon_clip_format := mk_clip_format {
  ff_id : Z;
  ff_from : Z;
  ff_seqno : Z;
  ff_size : Z;
  ff_data : option (list Z)
}.

Record horizon_clipboard := mk_clipboard {
  cb_open_tid : Z;
  cb_open_win : Z;
  cb_owner : Z;
  cb_viewer : Z;
  cb_lcid : Z;
  cb_seqno : Z;
  cb_open_seqno : Z;
  cb_rendering : Z;
  cb_formats : list horizon_clip_format;
  cb_format_count : Z;
  cb_format_map : Z;
  cb_listen_size : Z;
  cb_listeners : list Z      (** [listen_count] of them *)
}.
Definition cb_listen_count (clip : horizon_clipboard) : Z := Z.of_nat (length (cb_listeners clip)).

(** The clipboard with its formats, their count and map, and its sequence
    number changed. *)
Definition with_formats (clip : horizon_clipboard) (formats : list horizon_clip_format)
    (count map seqno : Z) : horizon_clipboard :=
  mk_clipboard (cb_open_tid clip) (cb_open_win clip) (cb_owner clip) (cb_viewer clip) (cb_lcid clip)
    seqno (cb_open_seqno clip) (cb_rendering clip) formats count map
    (cb_listen_size clip) (cb_listeners clip).
(** ... with who holds it open changed. *)
Definition with_open (clip : horizon_clipboard) (tid win open_seqno rendering : Z) : horizon_clipboard :=
  mk_clipboard tid win (cb_owner clip) (cb_viewer clip) (cb_lcid clip) (cb_seqno clip) open_seqno
    rendering (cb_formats clip) (cb_format_count clip) (cb_format_map clip) (cb_listen_size clip)
    (cb_listeners clip).
Definition with_owner (clip : horizon_clipboard) (owner : Z) : horizon_clipboard :=
  mk_clipboard (cb_open_tid clip) (cb_open_win clip) owner (cb_viewer clip) (cb_lcid clip)
    (cb_seqno clip) (cb_open_seqno clip) (cb_rendering clip) (cb_formats clip) (cb_format_count clip)
    (cb_format_map clip) (cb_listen_size clip) (cb_listeners clip).
Definition with_viewer (clip : horizon_clipboard) (viewer : Z) : horizon_clipboard :=
  mk_clipboard (cb_open_tid clip) (cb_open_win clip) (cb_owner clip) viewer (cb_lcid clip)
    (cb_seqno clip) (cb_open_seqno clip) (cb_rendering clip) (cb_formats clip) (cb_format_count clip)
    (cb_format_map clip) (cb_listen_size clip) (cb_listeners clip).
Definition with_lcid (clip : horizon_clipboard) (lcid : Z) : horizon_clipboard :=
  mk_clipboard (cb_open_tid clip) (cb_open_win clip) (cb_owner clip) (cb_viewer clip) lcid
    (cb_seqno clip) (cb_open_seqno clip) (cb_rendering clip) (cb_formats clip) (cb_format_count clip)
    (cb_format_map clip) (cb_listen_size clip) (cb_listeners clip).
Definition with_rendering (clip : horizon_clipboard) (rendering : Z) : horizon_clipboard :=
  with_open clip (cb_open_tid clip) (cb_open_win clip) (cb_open_seqno clip) rendering.
Definition with_listeners (clip : horizon_clipboard) (size : Z) (listeners : list Z) : horizon_clipboard :=
  mk_clipboard (cb_open_tid clip) (cb_open_win clip) (cb_owner clip) (cb_viewer clip) (cb_lcid clip)
    (cb_seqno clip) (cb_open_seqno clip) (cb_rendering clip) (cb_formats clip) (cb_format_count clip)
    (cb_format_map clip) size listeners.

Definition format_is (id : Z) (format : horizon_clip_format) : bool := ff_id format =? id.

(** The position of the format in the list. *)
Definition horizon_clip_get_format (clip : horizon_clipboard) (id : Z) : option nat :=
  first_index (format_is id) (cb_formats clip).

(** The new format is added at the end, with everything else of it zero; the
    caller fills it in, so it is given here. *)
Definition horizon_clip_add_format (clip : horizon_clipboard) (format : horizon_clip_format)
    : horizon_clipboard :=
  let id := ff_id format in
  with_formats clip (cb_formats clip ++ [format]) (u32 (cb_format_count clip + 1))
    (if id <? HORIZON_CLIP_CF_MAX then Z.lor (cb_format_map clip) (Z.shiftl 1 id) else cb_format_map clip)
    (cb_seqno clip).

Definition horizon_clip_free_formats (clip : horizon_clipboard) : horizon_clipboard :=
  with_formats clip [] 0 0 (cb_seqno clip).

Definition HORIZON_CLIP_HAS (map id : Z) : bool := nonzero (Z.land map (Z.shiftl 1 id)).

(** What each format can be made from, in order of preference. *)
Definition clip_synthesized : list (Z * Z * Z) :=
  [ (HORIZON_CLIP_CF_TEXT, HORIZON_CLIP_CF_OEMTEXT, HORIZON_CLIP_CF_UNICODETEXT);
    (HORIZON_CLIP_CF_OEMTEXT, HORIZON_CLIP_CF_UNICODETEXT, HORIZON_CLIP_CF_TEXT);
    (HORIZON_CLIP_CF_UNICODETEXT, HORIZON_CLIP_CF_TEXT, HORIZON_CLIP_CF_OEMTEXT);
    (HORIZON_CLIP_CF_METAFILEPICT, HORIZON_CLIP_CF_ENHMETAFILE, 0);
    (HORIZON_CLIP_CF_ENHMETAFILE, HORIZON_CLIP_CF_METAFILEPICT, 0);
    (HORIZON_CLIP_CF_BITMAP, HORIZON_CLIP_CF_DIB, HORIZON_CLIP_CF_DIBV5);
    (HORIZON_CLIP_CF_DIB, HORIZON_CLIP_CF_BITMAP, HORIZON_CLIP_CF_DIBV5);
    (HORIZON_CLIP_CF_DIBV5, HORIZON_CLIP_CF_BITMAP, HORIZON_CLIP_CF_DIB) ].

(** The bytes of an [unsigned int] in memory. *)
Definition uint_bytes (x : Z) : list Z :=
  [u8 x; u8 (Z.shiftr x 8); u8 (Z.shiftr x 16); u8 (Z.shiftr x 24)].

(** The format the row's one is made from, with the formats [map] has. *)
Definition synthesize_from (map : Z) (row : Z * Z * Z) : option Z :=
  let '(id, a, b) := row in
  if HORIZON_CLIP_HAS map id then None
  else if HORIZON_CLIP_HAS map a then Some a
  else if nonzero b && HORIZON_CLIP_HAS map b then Some b
  else None.

(** The loop over the rows; [map] is the map before it, [mem] for which formats
    [calloc] succeeds. *)
Fixpoint synthesize_rows (map : Z) (mem : Z -> bool) (rows : list (Z * Z * Z)) (clip : horizon_clipboard)
    (total : Z) : horizon_clipboard * Z :=
  match rows with
  | [] => (clip, total)
  | row :: rows =>
      match synthesize_from map row with
      | Some from =>
          let id := fst (fst row) in
          if mem id
          then synthesize_rows map mem rows
                 (horizon_clip_add_format clip (mk_clip_format id from (cb_seqno clip) 0 None)) (total + 1)
          else synthesize_rows map mem rows clip total
      | None => synthesize_rows map mem rows clip total
      end
  end.

Definition synthesize_locale (mem : Z -> bool) (clip : horizon_clipboard) : horizon_clipboard :=
  let map := cb_format_map clip in
  if negb (HORIZON_CLIP_HAS map HORIZON_CLIP_CF_LOCALE) &&
     (HORIZON_CLIP_HAS map HORIZON_CLIP_CF_TEXT || HORIZON_CLIP_HAS map HORIZON_CLIP_CF_OEMTEXT ||
      HORIZON_CLIP_HAS map HORIZON_CLIP_CF_UNICODETEXT) && mem HORIZON_CLIP_CF_LOCALE
  then
    let clip' := horizon_clip_add_format clip
      (mk_clip_format HORIZON_CLIP_CF_LOCALE 0 (cb_seqno clip) 4 (Some (uint_bytes (cb_lcid clip)))) in
    with_formats clip' (cb_formats clip') (cb_format_count clip') (cb_format_map clip')
      (u32 (cb_seqno clip + 1))
  else clip.

Definition horizon_clip_synthesize (mem : Z -> bool) (clip : horizon_clipboard) : Z * horizon_clipboard :=
  let map := cb_format_map clip in
  let '(clip, total) := synthesize_rows map mem clip_synthesized (synthesize_locale mem clip) 0 in
  (total, clip).

(** Whether listeners are to be told, the viewer to tell, and the clipboard. *)
Definition horizon_clip_close_locked (mem : Z -> bool) (clip : horizon_clipboard)
    : bool * Z * horizon_clipboard :=
  let clip := with_open clip 0 0 (cb_open_seqno clip) (cb_rendering clip) in
  if cb_seqno clip =? cb_open_seqno clip then (false, 0, clip)
  else
    let '(total, clip) := horizon_clip_synthesize mem clip in
    let clip := if nonzero total
                then with_formats clip (cb_formats clip) (cb_format_count clip) (cb_format_map clip)
                       (u32 (cb_seqno clip + 1))
                else clip in
    (true, cb_viewer clip, clip).

(** The loop of [horizon_clip_release_locked]: what stays, the count and the
    map, and whether something went. *)
Fixpoint release_loop (formats : list horizon_clip_format) (count map : Z) (changed : bool)
    : list horizon_clip_format * Z * Z * bool :=
  match formats with
  | [] => ([], count, map, changed)
  | format :: rest =>
      if bool_decide (ff_data format <> None) ||
         (nonzero (ff_from format) && HORIZON_CLIP_HAS map (ff_from format))
      then
        let '(l, count, map, changed) := release_loop rest count map changed in
        (format :: l, count, map, changed)
      else
        let map := if ff_id format <? HORIZON_CLIP_CF_MAX
                   then Z.land map (Z.lxor UINT_MAX (Z.shiftl 1 (ff_id format))) else map in
        release_loop rest (u32 (count - 1)) map true
  end.

Definition horizon_clip_release_locked (clip : horizon_clipboard) : bool * Z * horizon_clipboard :=
  let clip := with_owner clip 0 in
  let '(formats, count, map, changed) :=
    release_loop (cb_formats clip) (cb_format_count clip) (cb_format_map clip) false in
  if negb changed then (false, 0, with_formats clip formats count map (cb_seqno clip))
  else (true, cb_viewer clip, with_formats clip formats count map (u32 (cb_seqno clip + 1))).

(** Status, the owner reported, and the clipboard. *)
Definition horizon_clip_open (clip : horizon_clipboard) (tid win : Z) : Z * Z * horizon_clipboard :=
  if nonzero (cb_open_tid clip) && negb (cb_open_win clip =? win)
  then (HORIZON_CLIP_STATUS_INVALID_LOCK_SEQUENCE, 0, clip)
  else
    let open_seqno := if cb_open_tid clip =? 0 then cb_seqno clip else cb_open_seqno clip in
    let rendering := if cb_open_tid clip =? tid then cb_rendering clip else 0 in
    (HORIZON_CLIP_STATUS_SUCCESS, cb_owner clip, with_open clip tid win open_seqno rendering).

Definition horizon_clip_empty (clip : horizon_clipboard) (tid : Z) : Z * horizon_clipboard :=
  if negb (cb_open_tid clip =? tid) then (HORIZON_CLIP_STATUS_NOT_OPEN, clip)
  else
    let clip := with_owner (horizon_clip_free_formats clip) (cb_open_win clip) in
    (HORIZON_CLIP_STATUS_SUCCESS,
     with_formats clip (cb_formats clip) (cb_format_count clip) (cb_format_map clip) (u32 (cb_seqno clip + 1))).

Definition is_text (id : Z) : bool :=
  (id =? HORIZON_CLIP_CF_TEXT) || (id =? HORIZON_CLIP_CF_OEMTEXT) || (id =? HORIZON_CLIP_CF_UNICODETEXT).

(** Status, the format's sequence number, and the clipboard. [mem_copy] and
    [mem_format]: whether the copy and a new format can be allocated. *)
Definition horizon_clip_set_data (clip : horizon_clipboard) (id lcid : Z) (data : list Z)
    (mem_copy mem_format : bool) : Z * Z * horizon_clipboard :=
  if (id =? 0) || (cb_open_tid clip =? 0) then (HORIZON_CLIP_STATUS_NOT_OPEN, 0, clip)
  else
    let size := Z.of_nat (length data) in
    if nonzero size && negb mem_copy then (HORIZON_CLIP_STATUS_NO_MEMORY, 0, clip)
    else
      let copy := match data with [] => None | _ => Some data end in
      let format := mk_clip_format id 0 (cb_seqno clip) size copy in
      let finish clip' :=
        let seqno := if cb_rendering clip' =? 0 then u32 (cb_seqno clip' + 1) else cb_seqno clip' in
        let clip' := with_formats clip' (cb_formats clip') (cb_format_count clip') (cb_format_map clip') seqno in
        (HORIZON_CLIP_STATUS_SUCCESS, ff_seqno format, if is_text id then with_lcid clip' lcid else clip') in
      match horizon_clip_get_format clip id with
      | Some i =>
          finish (with_formats clip (<[i := format]> (cb_formats clip)) (cb_format_count clip)
                    (cb_format_map clip) (cb_seqno clip))
      | None =>
          if negb mem_format then (HORIZON_CLIP_STATUS_NO_MEMORY, 0, clip)
          else finish (horizon_clip_add_format clip format)
      end.

Record horizon_clip_data_reply := mk_data_reply {
  dr_from : Z; dr_owner : Z; dr_seqno : Z; dr_total : Z; dr_data : option (list Z)
}.

Definition get_data_done (clip : horizon_clipboard) (render : bool) : horizon_clipboard :=
  if negb render && nonzero (cb_rendering clip)
  then with_rendering clip (u32 (cb_rendering clip - 1)) else clip.

Definition horizon_clip_get_data (clip : horizon_clipboard) (tid id : Z) (render cached : bool)
    (seqno reply_max : Z) : Z * horizon_clip_data_reply * horizon_clipboard :=
  let none := mk_data_reply 0 0 0 0 None in
  if negb (cb_open_tid clip =? tid) then (HORIZON_CLIP_STATUS_NOT_OPEN, none, clip)
  else
    match horizon_clip_get_format clip id ≫= fun i => cb_formats clip !! i with
    | None => (HORIZON_CLIP_STATUS_OBJECT_NAME_NOT_FOUND, none, get_data_done clip render)
    | Some format =>
        let reply data := mk_data_reply (ff_from format) (cb_owner clip) (ff_seqno format) (ff_size format) data in
        if bool_decide (ff_data format = None) && render then
          (HORIZON_CLIP_STATUS_SUCCESS, reply None,
           if nonzero (ff_from format) || nonzero (cb_owner clip)
           then with_rendering clip (u32 (cb_rendering clip + 1)) else clip)
        else if cached && (seqno =? ff_seqno format) then
          (HORIZON_CLIP_STATUS_SUCCESS, reply None, get_data_done clip render)
        else
          match ff_data format with
          | None => (HORIZON_CLIP_STATUS_SUCCESS, reply None, get_data_done clip render)
          | Some data =>
              if reply_max <? ff_size format then (HORIZON_CLIP_STATUS_BUFFER_OVERFLOW, reply None, clip)
              else (HORIZON_CLIP_STATUS_SUCCESS, reply (Some data), get_data_done clip render)
          end
    end.

(** Status, count, and the formats listed. *)
Definition horizon_clip_formats (clip : horizon_clipboard) (id max : Z) : Z * Z * list Z :=
  if nonzero id then
    (HORIZON_CLIP_STATUS_SUCCESS,
     if bool_decide (is_Some (horizon_clip_get_format clip id)) then 1 else 0, [])
  else if max <? cb_format_count clip
  then (HORIZON_CLIP_STATUS_BUFFER_TOO_SMALL, cb_format_count clip, [])
  else (HORIZON_CLIP_STATUS_SUCCESS, cb_format_count clip, ff_id <$> cb_formats clip).

(** The formats after the one with id [previous]. *)
Fixpoint after_format (formats : list horizon_clip_format) (previous : Z) : list horizon_clip_format :=
  match formats with
  | [] => []
  | format :: rest => if ff_id format =? previous then rest else after_format rest previous
  end.

Definition horizon_clip_enum (clip : horizon_clipboard) (tid previous : Z) : Z * Z :=
  if negb (cb_open_tid clip =? tid) then (HORIZON_CLIP_STATUS_NOT_OPEN, 0)
  else
    let formats := if nonzero previous then after_format (cb_formats clip) previous else cb_formats clip in
    (HORIZON_CLIP_STATUS_SUCCESS, match formats with [] => 0 | format :: _ => ff_id format end).

Definition horizon_clip_add_listener (clip : horizon_clipboard) (win : Z) (mem : bool)
    : Z * horizon_clipboard :=
  if bool_decide (win ∈ cb_listeners clip) then (HORIZON_CLIP_STATUS_INVALID_PARAMETER, clip)
  else if cb_listen_count clip =? cb_listen_size clip then
    if negb mem then (HORIZON_CLIP_STATUS_NO_MEMORY, clip)
    else
      let size := if nonzero (cb_listen_size clip) then u32 (cb_listen_size clip * 2) else 8 in
      (HORIZON_CLIP_STATUS_SUCCESS, with_listeners clip size (cb_listeners clip ++ [win]))
  else (HORIZON_CLIP_STATUS_SUCCESS, with_listeners clip (cb_listen_size clip) (cb_listeners clip ++ [win])).

Definition horizon_clip_remove_listener (clip : horizon_clipboard) (win : Z) : bool * horizon_clipboard :=
  match first_index (fun w => w =? win) (cb_listeners clip) with
  | Some i => (true, with_listeners clip (cb_listen_size clip) (delete i (cb_listeners clip)))
  | None => (false, clip)
  end.

(** Status, the old viewer, the owner, and the clipboard. *)
Definition horizon_clip_set_viewer (clip : horizon_clipboard) (viewer previous : Z)
    : Z * Z * Z * horizon_clipboard :=
  if nonzero previous && negb (cb_viewer clip =? previous)
  then (HORIZON_CLIP_STATUS_PENDING, cb_viewer clip, cb_owner clip, clip)
  else (HORIZON_CLIP_STATUS_SUCCESS, cb_viewer clip, cb_owner clip, with_viewer clip viewer).

Definition horizon_clip_window_destroyed (mem : Z -> bool) (clip : horizon_clipboard) (win : Z)
    : bool * horizon_clipboard :=
  let clip := snd (horizon_clip_remove_listener clip win) in
  let clip := if cb_viewer clip =? win then with_viewer clip 0 else clip in
  let '(notify1, clip) :=
    if cb_owner clip =? win then let '(n, _, clip) := horizon_clip_release_locked clip in (n, clip)
    else (false, clip) in
  let '(notify2, clip) :=
    if (cb_open_win clip =? win) && nonzero (cb_open_tid clip)
    then let '(n, _, clip) := horizon_clip_close_locked mem clip in (n, clip)
    else (false, clip) in
  (notify1 || notify2, clip).

Definition horizon_clip_thread_ended (mem : Z -> bool) (clip : horizon_clipboard) (tid : Z)
    : bool * horizon_clipboard :=
  if (tid =? 0) || negb (cb_open_tid clip =? tid) then (false, clip)
  else let '(n, _, clip) := horizon_clip_close_locked mem clip in (n, clip).


(** ** Well-formed clipboards *)

Definition format_ids (formats : list horizon_clip_format) : list Z := ff_id <$> formats.

(** The source of a synthesized format is not the format itself or a later
    one: it was there before. *)
Fixpoint from_earlier (formats : list horizon_clip_format) : Prop :=
  match formats with
  | [] => True
  | f :: rest => (ff_from f <> 0 -> ff_from f ∉ format_ids (f :: rest)) /\ from_earlier rest
  end.

(** One format on its own: what [set_data], the locale and the synthesis make. *)
Definition format_ok (f : horizon_clip_format) : Prop :=
  0 < ff_id f /\
  (ff_from f <> 0 -> ff_data f = None /\ 0 < ff_from f < HORIZON_CLIP_CF_MAX) /\
  ff_size f = Z.of_nat (length (default [] (ff_data f))) /\
  ff_data f <> Some [].

(** The count and the map agree with the list. *)
Record formats_ok (formats : list horizon_clip_format) (count map : Z) : Prop := {
  fo_ids : NoDup (format_ids formats);
  fo_each : Forall format_ok formats;
  fo_count : count = u32 (Z.of_nat (length formats));
  fo_map : forall i, 0 <= i < HORIZON_CLIP_CF_MAX ->
             Z.testbit map i = bool_decide (i ∈ format_ids formats);
  fo_earlier : from_earlier formats
}.

(** The source of every synthesized format is present. *)
Definition from_present (formats : list horizon_clip_format) : Prop :=
  forall f, f ∈ formats -> ff_from f <> 0 -> ff_from f ∈ format_ids formats.

Record clip_wf (clip : horizon_clipboard) : Prop := {
  cw_formats : formats_ok (cb_formats clip) (cb_format_count clip) (cb_format_map clip);
  cw_present : from_present (cb_formats clip);
  cw_listeners : NoDup (cb_listeners clip);
  cw_room : cb_listen_count clip <= cb_listen_size clip
}.

(** ** The map *)
Lemma clip_has_testbit map id : 0 <= id -> HORIZON_CLIP_HAS map id = Z.testbit map id.
Proof.
  intros Hid. unfold HORIZON_CLIP_HAS, nonzero. rewrite Z.shiftl_1_l.
  destruct (Z.testbit map id) eqn:Hb.
  - apply negb_true_iff, Z.eqb_neq. intros H0. apply (f_equal (fun x => Z.testbit x id)) in H0.
    rewrite Z.land_spec, Hb, Z.pow2_bits_true, Z.bits_0 in H0 by done. done.
  - apply negb_false_iff, Z.eqb_eq. apply Z.bits_inj'. intros n Hn.
    rewrite Z.land_spec, Z.bits_0, Z.pow2_bits_eqb by done.
    destruct (Z.eqb_spec id n) as [->|]; [by rewrite Hb|by rewrite andb_false_r].
Qed.

Lemma map_add_testbit map id i :
  0 <= id -> 0 <= i ->
  Z.testbit (Z.lor map (Z.shiftl 1 id)) i = Z.testbit map i || (id =? i).
Proof. intros. by rewrite Z.lor_spec, Z.shiftl_1_l, Z.pow2_bits_eqb. Qed.

Lemma map_remove_testbit map id i :
  0 <= id -> 0 <= i < 32 ->
  Z.testbit (Z.land map (Z.lxor UINT_MAX (Z.shiftl 1 id))) i = Z.testbit map i && negb (id =? i).
Proof.
  intros Hid Hi. rewrite Z.land_spec, Z.lxor_spec, Z.shiftl_1_l, Z.pow2_bits_eqb by done. f_equal.
  change UINT_MAX with (Z.ones 32). rewrite Z.ones_spec_low by lia. by destruct (id =? i).
Qed.

Lemma formats_has formats count map id :
  formats_ok formats count map -> 0 <= id < HORIZON_CLIP_CF_MAX ->
  HORIZON_CLIP_HAS map id = bool_decide (id ∈ format_ids formats).
Proof. intros [] Hid. rewrite clip_has_testbit by lia. auto. Qed.

(** ** Looking a format up *)
Lemma get_format_Some clip id i :
  horizon_clip_get_format clip id = Some i ->
  exists f, cb_formats clip !! i = Some f /\ ff_id f = id.
Proof.
  intros (f & Hf & Hp & _)%first_index_Some. exists f. split; [done|]. by apply Z.eqb_eq.
Qed.

Lemma get_format_None clip id :
  horizon_clip_get_format clip id = None <-> id ∉ format_ids (cb_formats clip).
Proof.
  unfold horizon_clip_get_format. rewrite first_index_None, list.Forall_forall. unfold format_ids.
  rewrite list_elem_of_fmap. split.
  - intros H (f & -> & Hf). specialize (H f Hf). unfold format_is in H. by rewrite Z.eqb_refl in H.
  - intros H f Hf. apply Z.eqb_neq. intros <-. apply H. eauto.
Qed.

(** With ids that differ, a format is found at its own position. *)
Lemma get_format_at clip i f :
  NoDup (format_ids (cb_formats clip)) -> cb_formats clip !! i = Some f ->
  horizon_clip_get_format clip (ff_id f) = Some i.
Proof.
  intros Hn Hi. apply first_index_Some. exists f. split_and!; [done|apply Z.eqb_refl|].
  intros j g Hg Hj. apply Z.eqb_neq. intros He.
  enough (j = i) by lia. eapply (NoDup_lookup (format_ids (cb_formats clip))); [done| |].
  - unfold format_ids. rewrite list_lookup_fmap, Hg. simpl. by rewrite He.
  - unfold format_ids. by rewrite list_lookup_fmap, Hi.
Qed.

(** ** Adding, replacing and removing a format *)
Lemma from_earlier_snoc l f :
  from_earlier l -> (forall g, g ∈ l -> ff_from g <> 0 -> ff_from g <> ff_id f) ->
  (ff_from f <> 0 -> ff_from f <> ff_id f) -> from_earlier (l ++ [f]).
Proof.
  induction l as [|a l IH]; simpl; intros He Hl Hf.
  - split; [|done]. intros H. specialize (Hf H). set_solver.
  - destruct He as [Ha He]. split.
    + intros H0. specialize (Ha H0). specialize (Hl a ltac:(set_solver) H0).
      unfold format_ids in *. simpl in *. rewrite fmap_app. simpl. set_solver.
    + apply IH; [done|set_solver|done].
Qed.

Lemma from_earlier_insert l i f g :
  from_earlier l -> l !! i = Some g -> ff_id f = ff_id g -> ff_from f = 0 ->
  from_earlier (<[i := f]> l).
Proof.
  revert i. induction l as [|a l IH]; [done|]. intros [|i] [Ha He] Hi Hid H0; simpl in *.
  - injection Hi as ->. split; [done|done].
  - split; [|by eapply IH]. intros H. specialize (Ha H). unfold format_ids in *. simpl in *.
    rewrite list_fmap_insert, Hid, list_insert_id; [done|]. by rewrite list_lookup_fmap, Hi.
Qed.

Lemma from_earlier_remove l1 f l2 : from_earlier (l1 ++ f :: l2) -> from_earlier (l1 ++ l2).
Proof.
  induction l1 as [|a l1 IH]; simpl; [tauto|]. intros [Ha He]. split; [|auto].
  intros H0. specialize (Ha H0). unfold format_ids in *. simpl in *. rewrite fmap_app in *. set_solver.
Qed.

Lemma from_earlier_source l1 f l2 g :
  from_earlier (l1 ++ f :: l2) -> g ∈ l1 -> ff_from g <> 0 -> ff_from g <> ff_id f.
Proof.
  induction l1 as [|a l1 IH]; simpl; [set_solver|]. intros [Ha He] [->|Hg]%elem_of_cons H0; [|auto].
  specialize (Ha H0). unfold format_ids in Ha. simpl in Ha. rewrite fmap_app in Ha. set_solver.
Qed.

Lemma formats_ok_add formats count map f :
  formats_ok formats count map -> from_present formats -> format_ok f ->
  ff_id f ∉ format_ids formats -> (ff_from f <> 0 -> ff_from f ∈ format_ids formats) ->
  formats_ok (formats ++ [f]) (u32 (count + 1))
    (if ff_id f <? HORIZON_CLIP_CF_MAX then Z.lor map (Z.shiftl 1 (ff_id f)) else map) /\
  from_present (formats ++ [f]).
Proof.
  intros [Hids Heach Hcount Hmap Hearly] Hpres Hf Hnew Hfrom.
  assert (Hids' : format_ids (formats ++ [f]) = format_ids formats ++ [ff_id f])
    by (unfold format_ids; by rewrite fmap_app).
  split; [split|].
  - rewrite Hids'. apply list.NoDup_app. split_and!; [done|set_solver|apply NoDup_singleton].
  - by apply Forall_app_2, Forall_singleton.
  - rewrite length_app, Hcount. simpl. unfold u32. rewrite Zplus_mod_idemp_l. f_equal. lia.
  - destruct Hf as [Hpos _]. intros i Hi. rewrite Hids'.
    transitivity (Z.testbit map i || (ff_id f =? i)).
    + destruct (Z.ltb_spec (ff_id f) HORIZON_CLIP_CF_MAX).
      * apply map_add_testbit; lia.
      * replace (ff_id f =? i) with false by (symmetry; apply Z.eqb_neq; lia). by rewrite orb_false_r.
    + rewrite Hmap by done. apply eq_true_iff_eq.
      rewrite orb_true_iff, !bool_decide_eq_true, Z.eqb_eq. set_solver.
  - apply from_earlier_snoc; [done| |intros H0 He; apply Hnew; rewrite <- He; auto].
    intros g Hg H0 He. apply Hnew. rewrite <- He. auto.
  - intros g Hg H0. rewrite Hids'. apply elem_of_app in Hg as [Hg|Hg].
    + specialize (Hpres g Hg H0). set_solver.
    + apply list_elem_of_singleton in Hg as ->. specialize (Hfrom H0). set_solver.
Qed.

Lemma formats_ok_nil : formats_ok [] 0 0 /\ from_present [].
Proof.
  split; [split|].
  - apply NoDup_nil_2.
  - by apply Forall_nil.
  - done.
  - intros i _. apply Z.bits_0.
  - done.
  - intros f Hf. by apply not_elem_of_nil in Hf.
Qed.

Lemma formats_ok_insert formats count map i f g :
  formats_ok formats count map -> from_present formats -> formats !! i = Some g ->
  format_ok f -> ff_id f = ff_id g -> ff_from f = 0 ->
  formats_ok (<[i := f]> formats) count map /\ from_present (<[i := f]> formats).
Proof.
  intros [Hids Heach Hcount Hmap Hearly] Hpres Hi Hf Hid H0.
  assert (Hids' : format_ids (<[i := f]> formats) = format_ids formats).
  { unfold format_ids. rewrite list_fmap_insert, Hid, list_insert_id; [done|].
    by rewrite list_lookup_fmap, Hi. }
  split; [split|]; rewrite ?Hids'; try done.
  - by apply Forall_insert.
  - by rewrite length_insert.
  - by eapply from_earlier_insert.
  - intros h [j Hj]%list_elem_of_lookup Hh. rewrite Hids'.
    apply list_lookup_insert_Some in Hj as [(-> & <- & _)|[_ Hj]]; [done|].
    apply (Hpres h); [by eapply list_elem_of_lookup_2|done].
Qed.

Lemma formats_ok_remove l1 f l2 count map :
  formats_ok (l1 ++ f :: l2) count map ->
  formats_ok (l1 ++ l2) (u32 (count - 1))
    (if ff_id f <? HORIZON_CLIP_CF_MAX
     then Z.land map (Z.lxor UINT_MAX (Z.shiftl 1 (ff_id f))) else map).
Proof.
  intros [Hids Heach Hcount Hmap Hearly]. unfold format_ids in Hids. rewrite fmap_app in Hids. simpl in Hids.
  apply list.NoDup_app in Hids as (N1 & N2 & N3). apply NoDup_cons in N3 as [N3 N4].
  apply Forall_app in Heach as [E1 E2]. inversion_clear E2 as [|? ? Ef E3]. split.
  - unfold format_ids. rewrite fmap_app. apply list.NoDup_app. split_and!; [done|set_solver|done].
  - by apply Forall_app_2.
  - rewrite Hcount, !length_app. simpl. unfold u32. rewrite Zminus_mod_idemp_l. f_equal. lia.
  - destruct Ef as [Hpos _]. intros i Hi. transitivity (Z.testbit map i && negb (ff_id f =? i)).
    + destruct (Z.ltb_spec (ff_id f) HORIZON_CLIP_CF_MAX).
      * apply map_remove_testbit; [lia|]. unfold HORIZON_CLIP_CF_MAX in *. lia.
      * replace (ff_id f =? i) with false by (symmetry; apply Z.eqb_neq; lia). by rewrite andb_true_r.
    + rewrite Hmap by done. apply eq_true_iff_eq.
      rewrite andb_true_iff, !bool_decide_eq_true, negb_true_iff, Z.eqb_neq.
      unfold format_ids. rewrite !fmap_app. simpl. specialize (N2 (ff_id f)). set_solver.
  - by eapply from_earlier_remove.
Qed.

(** ** Synthesis *)

(** The row's format can be made from the formats present. *)
Definition row_makes (ids : list Z) (row : Z * Z * Z) : Prop :=
  let '(id, a, b) := row in id ∉ ids /\ (a ∈ ids \/ b <> 0 /\ b ∈ ids).

Definition row_ok (row : Z * Z * Z) : Prop :=
  let '(id, a, b) := row in
  0 < id < HORIZON_CLIP_CF_MAX /\ 0 < a < HORIZON_CLIP_CF_MAX /\ 0 <= b < HORIZON_CLIP_CF_MAX.

Lemma clip_synthesized_ok : Forall row_ok clip_synthesized /\ NoDup (fst ∘ fst <$> clip_synthesized).
Proof. split; [by repeat constructor|decide_true]. Qed.

Lemma clip_synthesized_locale row : row ∈ clip_synthesized -> row.1.1 <> HORIZON_CLIP_CF_LOCALE.
Proof.
  revert row. apply list.Forall_forall. apply (bool_decide_unpack _). vm_compute. exact I.
Qed.

(** What the loop decides by the map, it decides by the list. *)
Lemma synthesize_from_Some formats count map row from :
  formats_ok formats count map -> row_ok row -> synthesize_from map row = Some from ->
  row_makes (format_ids formats) row /\ from ∈ format_ids formats /\ 0 < from < HORIZON_CLIP_CF_MAX.
Proof.
  intros Hok. destruct row as [[id a] b]. intros (Hid & Ha & Hb). simpl.
  rewrite !(formats_has formats count) by (done || lia). intros Hs.
  repeat case_if; simplify_eq; btrue; auto with lia.
Qed.

Lemma synthesize_from_None formats count map row :
  formats_ok formats count map -> row_ok row -> synthesize_from map row = None ->
  ~ row_makes (format_ids formats) row.
Proof.
  intros Hok. destruct row as [[id a] b]. intros (Hid & Ha & Hb). simpl.
  rewrite !(formats_has formats count) by (done || lia). intros Hs (Hn & Hab).
  repeat case_if; simplify_eq; btrue; [done|].
  apply andb_false_iff in Heqb2 as [?|?]; btrue; tauto.
Qed.

(** The clipboard with formats added at the end and nothing else changed but
    the sequence number. *)
Definition only_added (clip clip' : horizon_clipboard) (added : list horizon_clip_format) : Prop :=
  clip' = with_formats clip (cb_formats clip ++ added) (cb_format_count clip') (cb_format_map clip')
            (cb_seqno clip').

Lemma only_added_trans clip1 clip2 clip3 l1 l2 :
  only_added clip1 clip2 l1 -> only_added clip2 clip3 l2 -> only_added clip1 clip3 (l1 ++ l2).
Proof. unfold only_added. intros -> H. rewrite H. simpl. by rewrite (assoc_L (++)). Qed.

Lemma only_added_ids clip clip' added :
  only_added clip clip' added ->
  format_ids (cb_formats clip') = format_ids (cb_formats clip) ++ format_ids added.
Proof. unfold only_added, format_ids. intros ->. apply fmap_app. Qed.

Lemma add_format_ok clip f :
  clip_wf clip -> format_ok f -> ff_id f ∉ format_ids (cb_formats clip) ->
  (ff_from f <> 0 -> ff_from f ∈ format_ids (cb_formats clip)) ->
  clip_wf (horizon_clip_add_format clip f) /\ only_added clip (horizon_clip_add_format clip f) [f].
Proof.
  intros [Hok Hp Hl Hr] Hf Hnew Hfrom.
  destruct (formats_ok_add _ _ _ f Hok Hp Hf Hnew Hfrom) as [Hok' Hp'].
  split; [by split|done].
Qed.

Lemma synthesize_rows_ok base count map mem rows clip total clip' total' :
  formats_ok base count map -> clip_wf clip ->
  format_ids base ⊆ format_ids (cb_formats clip) ->
  Forall row_ok rows -> NoDup (fst ∘ fst <$> rows) ->
  Forall (fun row => row.1.1 ∈ format_ids (cb_formats clip) -> row.1.1 ∈ format_ids base) rows ->
  synthesize_rows map mem rows clip total = (clip', total') ->
  clip_wf clip' /\ exists added,
    only_added clip clip' added /\ total' = total + Z.of_nat (length added) /\
    cb_seqno clip' = cb_seqno clip /\
    (forall id, id ∈ format_ids added <->
       exists row, row ∈ rows /\ row.1.1 = id /\ row_makes (format_ids base) row /\ mem id = true).
Proof.
  intros Hbase. revert clip total. induction rows as [|row rows IH]; intros clip total Hwf Hsub Hrows Hnd Hin Hs.
  { simpl in Hs. simplify_eq. split; [done|]. exists []. split_and!; [|simpl; lia|done|].
    - unfold only_added. destruct clip'. cbn. by rewrite app_nil_r.
    - set_solver. }
  inversion_clear Hrows as [|? ? Hrow Hrows']. inversion_clear Hin as [|? ? Hi Hin'].
  simpl in Hnd. apply NoDup_cons in Hnd as [Hni Hnd]. simpl in Hs.
  destruct (synthesize_from map row) as [from|] eqn:Hf.
  2:{ apply (synthesize_from_None base count) in Hf; [|done..].
      destruct (IH clip total Hwf Hsub Hrows' Hnd Hin' Hs) as (Hwf' & added & H1 & H2 & H3 & H4).
      split; [done|]. exists added. split_and!; [done..|]. intros id. rewrite H4. set_solver. }
  destruct (synthesize_from_Some base count map row from Hbase Hrow Hf) as (Hmk & Hfrom & Hrange).
  destruct (mem row.1.1) eqn:Hm.
  2:{ destruct (IH clip total Hwf Hsub Hrows' Hnd Hin' Hs) as (Hwf' & added & H1 & H2 & H3 & H4).
      split; [done|]. exists added. split_and!; [done..|]. intros id. rewrite H4. split.
      - set_solver.
      - intros (r & [->|Hr]%elem_of_cons & He & Hk & Hid); [|by eauto]. congruence. }
  destruct row as [[id a] b]. destruct Hmk as [Hnid Hab]. destruct Hrow as (Hid & _ & _). simpl in *.
  set (f := mk_clip_format id from (cb_seqno clip) 0 None) in *.
  destruct (add_format_ok clip f Hwf) as [Hwf1 Hadd1]; [repeat split; simpl; lia || done|set_solver|set_solver|].
  assert (Hids1 : format_ids (cb_formats (horizon_clip_add_format clip f)) = format_ids (cb_formats clip) ++ [id])
    by (unfold format_ids; simpl; by rewrite fmap_app).
  destruct (IH (horizon_clip_add_format clip f) (total + 1)) as (Hwf' & added & H1 & H2 & H3 & H4);
    [done|rewrite Hids1; set_solver|done|done| |done|].
  { apply list.Forall_forall. intros r Hr. rewrite list.Forall_forall in Hin'. rewrite Hids1.
    intros [?|Heq%list_elem_of_singleton]%elem_of_app; [by apply Hin'|].
    exfalso. apply Hni. apply list_elem_of_fmap. exists r. by rewrite <- Heq. }
  split; [done|]. exists (f :: added). split_and!.
  - by apply (only_added_trans _ _ _ [f] added Hadd1).
  - rewrite H2. simpl. lia.
  - done.
  - intros id'. unfold format_ids. rewrite fmap_cons, elem_of_cons.
    change (ff_id <$> added) with (format_ids added). rewrite H4. simpl. split.
    + intros [->|(r & Hr & Hrest)]; [exists (id, a, b); set_solver|exists r; set_solver].
    + intros (r & [->|Hr]%elem_of_cons & He & Hrest); [by left|right; eauto].
Qed.

Definition any_text (ids : list Z) : Prop :=
  HORIZON_CLIP_CF_TEXT ∈ ids \/ HORIZON_CLIP_CF_OEMTEXT ∈ ids \/ HORIZON_CLIP_CF_UNICODETEXT ∈ ids.

Lemma with_formats_seqno_wf clip seqno :
  clip_wf clip ->
  clip_wf (with_formats clip (cb_formats clip) (cb_format_count clip) (cb_format_map clip) seqno).
Proof. intros [Hok Hp Hl Hr]. by split. Qed.

Lemma synthesize_locale_ok mem clip :
  clip_wf clip ->
  clip_wf (synthesize_locale mem clip) /\ exists added,
    only_added clip (synthesize_locale mem clip) added /\
    forall id, id ∈ format_ids added <->
      id = HORIZON_CLIP_CF_LOCALE /\ id ∉ format_ids (cb_formats clip) /\
      any_text (format_ids (cb_formats clip)) /\ mem id = true.
Proof.
  intros Hwf. pose proof Hwf as [Hok _ _ _]. unfold synthesize_locale.
  rewrite !(formats_has _ _ _ _ Hok) by (unfold HORIZON_CLIP_CF_MAX; split; done).
  case_if.
  - btrue. assert (Ht : any_text (format_ids (cb_formats clip))).
    { unfold any_text. rewrite !orb_true_iff, !bool_decide_eq_true in H1. tauto. }
    edestruct (add_format_ok clip (mk_clip_format HORIZON_CLIP_CF_LOCALE 0 (cb_seqno clip) 4
      (Some (uint_bytes (cb_lcid clip)))) Hwf) as [Hwf1 Hadd]; [by repeat split|done|done|].
    split; [by apply with_formats_seqno_wf|]. eexists. split; [by unfold only_added in *; rewrite Hadd|].
    intros id. simpl. rewrite list_elem_of_singleton. split; [intros ->; by split_and!|tauto].
  - split; [done|]. exists []. split.
    + unfold only_added. rewrite app_nil_r. by destruct clip.
    + intros id. split; [set_solver|]. intros (-> & Hn & Ht & Hm). exfalso.
      apply not_true_iff_false in Heqb. apply Heqb. rewrite !andb_true_iff, !orb_true_iff, negb_true_iff.
      rewrite !bool_decide_eq_true, bool_decide_eq_false. unfold any_text in Ht. tauto.
Qed.

(** The locale and then the rows, for any table of rows. *)
Lemma synthesize_with_ok rows mem clip total clip' :
  Forall row_ok rows -> NoDup (fst ∘ fst <$> rows) ->
  (forall row, row ∈ rows -> row.1.1 <> HORIZON_CLIP_CF_LOCALE) ->
  clip_wf clip ->
  synthesize_rows (cb_format_map clip) mem rows (synthesize_locale mem clip) 0 = (clip', total) ->
  clip_wf clip' /\ exists added,
    only_added clip clip' added /\
    (forall id, id ∈ format_ids added <-> mem id = true /\
       ((exists row, row ∈ rows /\ row.1.1 = id /\ row_makes (format_ids (cb_formats clip)) row) \/
        id = HORIZON_CLIP_CF_LOCALE /\ id ∉ format_ids (cb_formats clip) /\
        any_text (format_ids (cb_formats clip)))).
Proof.
  intros Hrows Hnd Hloc Hwf.
  destruct (synthesize_locale_ok mem clip Hwf) as (Hwf1 & loc & Hadd1 & Hids1).
  revert Hwf1 Hadd1. generalize (synthesize_locale mem clip) as clip1. intros clip1 Hwf1 Hadd1 Hr.
  pose proof Hwf as [Hok _ _ _]. pose proof (only_added_ids _ _ _ Hadd1) as Hf1.
  assert (Hin : Forall (fun row => row.1.1 ∈ format_ids (cb_formats clip1) ->
                          row.1.1 ∈ format_ids (cb_formats clip)) rows).
  { apply list.Forall_forall. intros row Hrow. rewrite Hf1. intros [?|Hl]%elem_of_app; [done|].
    apply Hids1 in Hl as [He _]. by destruct (Hloc row Hrow). }
  assert (Hsub : format_ids (cb_formats clip) ⊆ format_ids (cb_formats clip1))
    by (rewrite Hf1; set_solver).
  destruct (synthesize_rows_ok _ _ _ _ _ _ _ _ _ Hok Hwf1 Hsub Hrows Hnd Hin Hr)
    as (Hwf2 & added & Hadd2 & _ & _ & Hids2).
  split; [done|]. exists (loc ++ added). split; [by eapply only_added_trans|].
  intros id. unfold format_ids at 1. rewrite fmap_app, elem_of_app.
  fold (format_ids loc) (format_ids added). rewrite Hids1, Hids2. split.
  - intros [(? & ? & ? & ?)|(row & ? & ? & ? & ?)]; (split; [done|]); [right|left; exists row]; done.
  - intros (Hm & [(row & ? & ? & ?)|(? & ? & ?)]); [right; exists row|left]; done.
Qed.

Lemma synthesize_ok mem clip total clip' :
  clip_wf clip -> horizon_clip_synthesize mem clip = (total, clip') ->
  clip_wf clip' /\ exists added,
    only_added clip clip' added /\
    (forall id, id ∈ format_ids added <-> mem id = true /\
       ((exists row, row ∈ clip_synthesized /\ row.1.1 = id /\ row_makes (format_ids (cb_formats clip)) row) \/
        id = HORIZON_CLIP_CF_LOCALE /\ id ∉ format_ids (cb_formats clip) /\
        any_text (format_ids (cb_formats clip)))).
Proof.
  unfold horizon_clip_synthesize. destruct clip_synthesized_ok as [H1 H2].
  pose proof clip_synthesized_locale as H3. revert H1 H2 H3. generalize clip_synthesized.
  intros rows H1 H2 H3 Hwf.
  destruct (synthesize_rows _ _ _ _ _) as [clip2 total2] eqn:Hr. intros [= <- <-].
  by apply (synthesize_with_ok rows mem clip total2).
Qed.

Lemma with_open_wf clip tid win open_seqno rendering :
  clip_wf clip -> clip_wf (with_open clip tid win open_seqno rendering).
Proof. intros [Hok Hp Hl Hr]. by split. Qed.

Lemma with_owner_wf clip owner : clip_wf clip -> clip_wf (with_owner clip owner).
Proof. intros [Hok Hp Hl Hr]. by split. Qed.

Lemma with_viewer_wf clip viewer : clip_wf clip -> clip_wf (with_viewer clip viewer).
Proof. intros [Hok Hp Hl Hr]. by split. Qed.

Lemma with_lcid_wf clip lcid : clip_wf clip -> clip_wf (with_lcid clip lcid).
Proof. intros [Hok Hp Hl Hr]. by split. Qed.

#[export] Hint Resolve with_open_wf with_owner_wf with_viewer_wf with_lcid_wf with_formats_seqno_wf : nx.

Lemma close_locked_wf mem clip : clip_wf clip -> clip_wf (snd (horizon_clip_close_locked mem clip)).
Proof.
  intros Hwf. unfold horizon_clip_close_locked. case_if; simpl; [auto with nx|].
  destruct (horizon_clip_synthesize _ _) as [total clip2] eqn:Hs.
  apply synthesize_ok in Hs as [Hwf2 _]; [|auto with nx]. simpl. case_if; auto with nx.
Qed.

(** ** The owner going away *)

(** The loop over what is left: [kept] has been passed. What stays has its
    source among what stays, because the source came first. *)
Lemma release_loop_ok kept formats count map changed l count' map' changed' :
  formats_ok (kept ++ formats) count map -> from_present kept ->
  Forall (fun f => ff_data f <> None \/ ff_from f <> 0) kept ->
  release_loop formats count map changed = (l, count', map', changed') ->
  formats_ok (kept ++ l) count' map' /\ from_present (kept ++ l) /\
  Forall (fun f => ff_data f <> None \/ ff_from f <> 0) (kept ++ l) /\
  l `sublist_of` formats /\
  (forall f, f ∈ formats -> ff_data f <> None -> f ∈ l).
Proof.
  revert kept count map changed l count' map' changed'.
  induction formats as [|f formats IH]; intros kept count map changed l count' map' changed' Hok Hp Hk Hr; simpl in Hr.
  { simplify_eq. rewrite !app_nil_r in *. by split_and!. }
  assert (Hf : format_ok f).
  { destruct Hok as [_ Heach _ _ _]. apply Forall_app in Heach as [_ Heach]. by inversion_clear Heach. }
  destruct (bool_decide (ff_data f <> None) || _) eqn:Hkeep.
  - destruct (release_loop formats count map changed) as [[[l1 c1] m1] ch1] eqn:Hr1. simplify_eq.
    rewrite (cons_middle f), (assoc_L (++)) in Hok.
    assert (Hsrc : ff_data f <> None \/ ff_from f <> 0).
    { apply orb_true_iff in Hkeep as [?|?]; btrue; auto. }
    destruct (IH (kept ++ [f]) count map changed l1 count' map' changed') as (H1 & H2 & H3 & H4 & H5); try done.
    + intros g [Hg|Hg]%elem_of_app H0; unfold format_ids; rewrite fmap_app.
      { specialize (Hp g Hg H0). unfold format_ids in Hp. set_solver. }
      apply list_elem_of_singleton in Hg as ->. apply elem_of_app. left.
      destruct Hf as (_ & Hsyn & _). destruct (Hsyn H0) as [Hd Hrange].
      rewrite bool_decide_eq_false_2 in Hkeep by (by rewrite Hd; intros []). simpl in Hkeep.
      apply andb_true_iff in Hkeep as [_ Hh]. rewrite (formats_has _ _ _ _ Hok) in Hh by lia. btrue.
      destruct Hok as [_ _ _ _ He]. rewrite <- (assoc_L (++)) in He. simpl in He.
      assert (Hlate : ff_from f ∉ format_ids (f :: formats)).
      { clear -He H0. induction kept; simpl in He; [by apply He|]. apply IHkept, He. }
      unfold format_ids in Hh, Hlate. rewrite <- (assoc_L (++)), fmap_app in Hh. simpl in Hh, Hlate.
      set_solver.
    + apply Forall_app_2; [done|by apply Forall_singleton].
    + rewrite (cons_middle f kept l1), (assoc_L (++)). split_and!; try done.
      * by apply sublist_skip.
      * set_solver.
  - apply orb_false_iff in Hkeep as [Hnd _]. btrue.
    apply formats_ok_remove in Hok. destruct (IH _ _ _ _ _ _ _ _ Hok Hp Hk Hr) as (H1 & H2 & H3 & H4 & H5).
    split_and!; try done; [by apply sublist_cons|set_solver].
Qed.

Lemma release_locked_ok clip n v clip' :
  clip_wf clip -> horizon_clip_release_locked clip = (n, v, clip') ->
  clip_wf clip' /\ cb_owner clip' = 0 /\
  cb_formats clip' `sublist_of` cb_formats clip /\
  Forall (fun f => ff_data f <> None \/ ff_from f <> 0) (cb_formats clip') /\
  (forall f, f ∈ cb_formats clip -> ff_data f <> None -> f ∈ cb_formats clip').
Proof.
  intros [Hok Hp Hl Hro]. unfold horizon_clip_release_locked. simpl.
  destruct (release_loop _ _ _ _) as [[[l c] m] ch] eqn:Hr.
  destruct (release_loop_ok [] _ _ _ false l c m ch Hok) as (H1 & H2 & H3 & H4 & H5);
    [intros ? Hn; by apply not_elem_of_nil in Hn|by apply Forall_nil|exact Hr|].
  intros Hs. destruct ch; simpl in Hs; simplify_eq; split_and!; done || by split.
Qed.

(** One format is made from another. *)
Definition made_from (formats : list horizon_clip_format) (f g : horizon_clip_format) : Prop :=
  f ∈ formats /\ g ∈ formats /\ ff_from f <> 0 /\ ff_from f = ff_id g.

(** Following the sources from a format ends at one that is not made from
    another: the source comes earlier in the list. *)
Lemma from_chain_ends formats f :
  from_earlier formats -> from_present formats -> f ∈ formats ->
  exists g, rtc (made_from formats) f g /\ g ∈ formats /\ ff_from g = 0.
Proof.
  intros He Hp Hf. apply list_elem_of_lookup in Hf as [i Hi]. revert f Hi.
  induction i as [i IH] using lt_wf_ind. intros f Hi.
  assert (Hf : f ∈ formats) by (by eapply list_elem_of_lookup_2).
  destruct (decide (ff_from f = 0)) as [|H0]; [exists f; split_and!; [apply rtc_refl|done|done]|].
  pose proof (Hp f Hf H0) as (g & Hg & Hgin)%list_elem_of_fmap.
  apply list_elem_of_lookup in Hgin as [j Hj].
  assert (Hji : (j < i)%nat).
  { apply Nat.lt_nge. intros Hle. rewrite <- (take_drop_middle _ _ _ Hi) in He.
    assert (Hlate : ff_from f ∉ format_ids (f :: drop (S i) formats)).
    { revert He. generalize (take i formats). intros t He. induction t; simpl in He; [by apply He|]. apply IHt, He. }
    apply Hlate. rewrite <- (drop_S _ _ _ Hi), Hg.
    apply list_elem_of_fmap. exists g. split; [done|]. eapply (list_elem_of_lookup_2 _ (j - i)).
    rewrite lookup_drop. rewrite <- Hj. f_equal. lia. }
  destruct (IH j Hji g Hj) as (h & Hr & Hh & Hh0). exists h. split_and!; [|done|done].
  eapply rtc_l; [|done]. split_and!; [done|by eapply list_elem_of_lookup_2|done|done].
Qed.

(** ** The other operations keep the clipboard well-formed *)
Lemma format_ok_set id seqno data :
  0 < id ->
  format_ok (mk_clip_format id 0 seqno (Z.of_nat (length data)) (match data with [] => None | _ => Some data end)).
Proof. intros Hid. by repeat split; destruct data. Qed.

Lemma set_data_wf clip id lcid data memc memf :
  clip_wf clip -> 0 <= id -> clip_wf (snd (horizon_clip_set_data clip id lcid data memc memf)).
Proof.
  intros Hwf Hid. unfold horizon_clip_set_data. destruct ((id =? 0) || _) eqn:H0; [done|]. btrue.
  case_if; [done|]. cbv zeta.
  destruct (horizon_clip_get_format clip id) as [i|] eqn:Hg.
  - destruct (get_format_Some _ _ _ Hg) as (g & Hi & Hgid). destruct Hwf as [Hok Hp Hl Hr].
    destruct (formats_ok_insert _ _ _ i (mk_clip_format id 0 (cb_seqno clip) (Z.of_nat (length data))
      (match data with [] => None | _ => Some data end)) g Hok Hp Hi) as [Hok' Hp'];
      [apply format_ok_set; lia|done|done|].
    simpl. destruct (is_text id); split; done.
  - apply get_format_None in Hg. destruct memf; simpl; [|done].
    destruct (add_format_ok clip (mk_clip_format id 0 (cb_seqno clip) (Z.of_nat (length data))
      (match data with [] => None | _ => Some data end)) Hwf) as [[Hok' Hp' Hl' Hr'] _];
      [apply format_ok_set; lia|done|done|].
    destruct (is_text id); split; done.
Qed.

Lemma get_data_done_wf clip render : clip_wf clip -> clip_wf (get_data_done clip render).
Proof. unfold get_data_done, with_rendering. case_if; auto with nx. Qed.

Lemma get_data_wf clip tid id render cached seqno max :
  clip_wf clip -> clip_wf (snd (horizon_clip_get_data clip tid id render cached seqno max)).
Proof.
  intros Hwf. unfold horizon_clip_get_data, with_rendering.
  pose proof (get_data_done_wf clip render Hwf).
  destruct (negb _); [done|]. destruct (_ ≫= _) as [f|]; [|done]. cbv zeta.
  repeat (case_if || case_match); simpl; auto with nx.
Qed.

Lemma add_listener_wf clip win mem :
  clip_wf clip -> cb_listen_size clip < 2147483648 -> clip_wf (snd (horizon_clip_add_listener clip win mem)).
Proof.
  intros [Hok Hp Hl Hr] Hs. unfold horizon_clip_add_listener. unfold cb_listen_count in *.
  assert (Hn : win ∉ cb_listeners clip -> NoDup (cb_listeners clip ++ [win])).
  { intros Hw. apply list.NoDup_app. split_and!; [done|set_solver|apply NoDup_singleton]. }
  repeat case_if; btrue; simpl; split; simpl; auto; unfold cb_listen_count; simpl; rewrite length_app; simpl.
  - rewrite u32_small by (unfold is_u32; lia). lia.
  - lia.
  - lia.
Qed.

Lemma remove_listener_wf clip win :
  clip_wf clip -> clip_wf (snd (horizon_clip_remove_listener clip win)).
Proof.
  intros [Hok Hp Hl Hr]. unfold horizon_clip_remove_listener, cb_listen_count in *.
  destruct (first_index _ _) as [i|] eqn:Hi; [|done]. split; simpl; auto with nx.
  unfold cb_listen_count. simpl. apply first_index_lt in Hi. rewrite length_delete; [lia|].
  by apply lookup_lt_is_Some.
Qed.

Lemma release_locked_wf clip : clip_wf clip -> clip_wf (snd (horizon_clip_release_locked clip)).
Proof.
  intros Hwf. destruct (horizon_clip_release_locked clip) as [[n v] clip'] eqn:H.
  by apply release_locked_ok in H as [? _].
Qed.

Lemma window_destroyed_wf mem clip win :
  clip_wf clip -> clip_wf (snd (horizon_clip_window_destroyed mem clip win)).
Proof.
  intros Hwf. unfold horizon_clip_window_destroyed.
  pose proof (remove_listener_wf clip win Hwf) as H1. revert H1.
  generalize (snd (horizon_clip_remove_listener clip win)) as c1. intros c1 H1.
  assert (H2 : clip_wf (if cb_viewer c1 =? win then with_viewer c1 0 else c1)) by (case_if; auto with nx).
  revert H2. generalize (if cb_viewer c1 =? win then with_viewer c1 0 else c1) as c2. intros c2 H2.
  pose proof (release_locked_wf c2 H2) as H3. destruct (horizon_clip_release_locked c2) as [[n2 v2] c3].
  simpl in H3. destruct (cb_owner c2 =? win); simpl.
  - pose proof (close_locked_wf mem c3 H3) as H4. destruct (horizon_clip_close_locked mem c3) as [[n4 v4] c4].
    destruct (_ && _); done.
  - pose proof (close_locked_wf mem c2 H2) as H4. destruct (horizon_clip_close_locked mem c2) as [[n4 v4] c4].
    destruct (_ && _); done.
Qed.

(** ** The clipboards that can be reached *)
Definition clip_init : horizon_clipboard := mk_clipboard 0 0 0 0 0 0 0 0 [] 0 0 0 [].

(** Any operation, with any outcome of its allocations. A format number is an
    unsigned integer; there are never 2{^31} listeners. *)
Inductive clip_step : horizon_clipboard -> horizon_clipboard -> Prop :=
| clip_step_open clip tid win : clip_step clip (snd (horizon_clip_open clip tid win))
| clip_step_empty clip tid : clip_step clip (snd (horizon_clip_empty clip tid))
| clip_step_set_data clip id lcid data memc memf :
    0 <= id -> clip_step clip (snd (horizon_clip_set_data clip id lcid data memc memf))
| clip_step_get_data clip tid id render cached seqno max :
    clip_step clip (snd (horizon_clip_get_data clip tid id render cached seqno max))
| clip_step_close clip mem : clip_step clip (snd (horizon_clip_close_locked mem clip))
| clip_step_release clip : clip_step clip (snd (horizon_clip_release_locked clip))
| clip_step_add_listener clip win mem :
    cb_listen_size clip < 2147483648 -> clip_step clip (snd (horizon_clip_add_listener clip win mem))
| clip_step_remove_listener clip win : clip_step clip (snd (horizon_clip_remove_listener clip win))
| clip_step_set_viewer clip viewer previous :
    clip_step clip (snd (horizon_clip_set_viewer clip viewer previous))
| clip_step_window_destroyed clip mem win : clip_step clip (snd (horizon_clip_window_destroyed mem clip win))
| clip_step_thread_ended clip mem tid : clip_step clip (snd (horizon_clip_thread_ended mem clip tid)).

Lemma clip_step_wf clip clip' : clip_step clip clip' -> clip_wf clip -> clip_wf clip'.
Proof.
  intros [] Hwf.
  - unfold horizon_clip_open. case_if; simpl; auto with nx.
  - unfold horizon_clip_empty. case_if; [done|]. destruct Hwf as [_ _ Hl Hr], formats_ok_nil. by split.
  - by apply set_data_wf.
  - by apply get_data_wf.
  - by apply close_locked_wf.
  - by apply release_locked_wf.
  - by apply add_listener_wf.
  - by apply remove_listener_wf.
  - unfold horizon_clip_set_viewer. case_if; simpl; auto with nx.
  - by apply window_destroyed_wf.
  - unfold horizon_clip_thread_ended. case_if; [done|].
    pose proof (close_locked_wf mem _ Hwf) as H. by destruct (horizon_clip_close_locked _ _) as [[n v] c].
Qed.

Lemma clip_init_wf : clip_wf clip_init.
Proof. destruct formats_ok_nil. split; try done. apply NoDup_nil_2. Qed.

Lemma clip_reach_wf clip : rtc clip_step clip_init clip -> clip_wf clip.
Proof.
  intros Hr. eapply (rtc_keeps clip_step clip_wf); [|done|apply clip_init_wf]. apply clip_step_wf.
Qed.

(** ** The properties *)

(** A clipboard with a delay-rendered format of its own (100), a metafile on
    delayed rendering and some text, before and after it is closed. *)
Definition clip_filled : horizon_clipboard :=
  let c := snd (horizon_clip_open clip_init 5 7) in
  let c := snd (horizon_clip_empty c 5) in
  let c := snd (horizon_clip_set_data c 100 0 [] true true) in
  let c := snd (horizon_clip_set_data c HORIZON_CLIP_CF_ENHMETAFILE 0 [] true true) in
  snd (horizon_clip_set_data c HORIZON_CLIP_CF_TEXT 9 [104; 105; 0] true true).
Definition clip_closed : horizon_clipboard :=
  snd (horizon_clip_close_locked (fun _ => true) clip_filled).

Lemma clip_filled_reached : rtc clip_step clip_init clip_filled.
Proof.
  unfold clip_filled. cbv zeta.
  eapply rtc_l; [apply (clip_step_open _ 5 7)|]. eapply rtc_l; [apply (clip_step_empty _ 5)|].
  eapply rtc_l; [apply (clip_step_set_data _ 100 0 [] true true); lia|].
  eapply rtc_l; [apply (clip_step_set_data _ HORIZON_CLIP_CF_ENHMETAFILE 0 [] true true); done|].
  eapply rtc_l; [apply (clip_step_set_data _ HORIZON_CLIP_CF_TEXT 9 [104; 105; 0] true true); done|].
  apply rtc_refl.
Qed.

Lemma clip_closed_reached : rtc clip_step clip_init clip_closed.
Proof. eapply rtc_r; [apply clip_filled_reached|]. apply clip_step_close. Qed.

(** Closing a changed clipboard adds exactly the formats that can be made:
    with memory, a format of the table is present afterwards iff it was before
    or one of its sources was, the locale iff it was or there is text, and any
    other format iff it was. The formats that were there stay, in their order. *)
Theorem clip_close_synthesizes clip n v clip' :
  rtc clip_step clip_init clip ->
  cb_seqno clip <> cb_open_seqno clip ->
  horizon_clip_close_locked (fun _ => true) clip = (n, v, clip') ->
  let ids := format_ids (cb_formats clip) in
  let ids' := format_ids (cb_formats clip') in
  n = true /\ v = cb_viewer clip /\ cb_open_tid clip' = 0 /\ cb_open_win clip' = 0 /\
  cb_formats clip `prefix_of` cb_formats clip' /\
  forall id, id ∈ ids' <->
    id ∈ ids \/
    (exists a b, (id, a, b) ∈ clip_synthesized /\ (a ∈ ids \/ b <> 0 /\ b ∈ ids)) \/
    id = HORIZON_CLIP_CF_LOCALE /\ any_text ids.
Proof.
  intros Hr Hseq. unfold horizon_clip_close_locked. simpl. rewrite (proj2 (Z.eqb_neq _ _) Hseq).
  destruct (horizon_clip_synthesize _ _) as [total c2] eqn:Hs.
  apply synthesize_ok in Hs as (_ & added & Hadd & Hids); [|by apply with_open_wf, clip_reach_wf].
  intros Hc. simpl.
  assert (Hf : cb_formats clip' = cb_formats clip ++ added /\ n = true /\ v = cb_viewer clip /\
               cb_open_tid clip' = 0 /\ cb_open_win clip' = 0).
  { unfold only_added in Hadd. rewrite Hadd in Hc. simpl in Hc. destruct (nonzero total); by simplify_eq. }
  destruct Hf as (-> & -> & -> & -> & ->). split_and!; try done; [by exists added|]. intros id.
  unfold format_ids at 1. rewrite fmap_app, elem_of_app. fold (format_ids (cb_formats clip)) (format_ids added).
  rewrite Hids. simpl. destruct (decide (id ∈ format_ids (cb_formats clip))) as [Hin|Hin]; [tauto|]. split.
  - intros [?|(_ & [([[i a] b] & Hrow & <- & Hmk)|(-> & _ & Ht)])]; [done| |by right; right].
    right. left. exists a, b. split; [done|]. apply Hmk.
  - intros [?|[(a & b & Hrow & Hab)|(-> & Ht)]]; [done| |by right; split; [|right]].
    right. split; [done|]. left. by exists (id, a, b).
Qed.

Lemma clip_close_synthesizes_witness :
  HORIZON_CLIP_CF_UNICODETEXT ∈ format_ids (cb_formats clip_closed).
Proof.
  destruct (clip_close_synthesizes clip_filled true 0 clip_closed clip_filled_reached)
    as (_ & _ & _ & _ & _ & H); [by vm_compute|by vm_compute|].
  apply H. right. left. exists HORIZON_CLIP_CF_TEXT, HORIZON_CLIP_CF_OEMTEXT. split.
  - decide_true.
  - left. decide_true.
Defined.

(** When the owner goes away, what stays can still be rendered: every
    format left has data, or following the formats it is made from leads to one
    that has. No format with data is lost, and the order is kept. *)
Theorem clip_release_renderable clip n v clip' :
  rtc clip_step clip_init clip ->
  horizon_clip_release_locked clip = (n, v, clip') ->
  cb_owner clip' = 0 /\ cb_formats clip' `sublist_of` cb_formats clip /\
  (forall f, f ∈ cb_formats clip -> ff_data f <> None -> f ∈ cb_formats clip') /\
  (forall f, f ∈ cb_formats clip' ->
     exists g, rtc (made_from (cb_formats clip')) f g /\ g ∈ cb_formats clip' /\ ff_data g <> None).
Proof.
  intros Hr Hs. apply release_locked_ok in Hs as ([Hok Hp _ _] & Ho & Hsub & Hleft & Hdata); [|by apply clip_reach_wf].
  split_and!; [done..|]. intros f Hf.
  destruct (from_chain_ends (cb_formats clip') f) as (g & Hg & Hin & H0); [apply Hok|done|done|].
  exists g. split_and!; [done..|]. rewrite list.Forall_forall in Hleft.
  by destruct (Hleft g Hin).
Qed.

Lemma clip_release_renderable_witness :
  (cb_owner clip_closed = 7 /\ length (cb_formats clip_closed) = 7%nat) /\
  format_ids (cb_formats (snd (horizon_clip_release_locked clip_closed))) =
    [HORIZON_CLIP_CF_TEXT; HORIZON_CLIP_CF_LOCALE; HORIZON_CLIP_CF_OEMTEXT; HORIZON_CLIP_CF_UNICODETEXT] /\
  cb_owner (snd (horizon_clip_release_locked clip_closed)) = 0.
Proof.
  split; [by vm_compute|]. split; [by vm_compute|].
  destruct (clip_release_renderable clip_closed true 0 (snd (horizon_clip_release_locked clip_closed))
    clip_closed_reached) as (H & _); [by vm_compute|exact H].
Defined.

(** The reply for a format does not depend on anything but the format. *)
Lemma get_data_reply clip tid id seqno max i f :
  cb_open_tid clip = tid -> horizon_clip_get_format clip id = Some i -> cb_formats clip !! i = Some f ->
  ff_size f <= max ->
  fst (horizon_clip_get_data clip tid id false false seqno max) =
  (HORIZON_CLIP_STATUS_SUCCESS,
   mk_data_reply (ff_from f) (cb_owner clip) (ff_seqno f) (ff_size f) (ff_data f)).
Proof.
  intros <- Hi Hf Hm. unfold horizon_clip_get_data. rewrite Z.eqb_refl, Hi. simpl. rewrite Hf.
  cbv zeta. rewrite andb_false_r. destruct (ff_data f) eqn:Hd; [|done]. case_if; [|done]. btrue. lia.
Qed.

Definition set_format (clip : horizon_clipboard) (id : Z) (data : list Z) : horizon_clip_format :=
  mk_clip_format id 0 (cb_seqno clip) (Z.of_nat (length data)) (match data with [] => None | _ => Some data end).

(** Where a successful [set_data] leaves each format. *)
Lemma set_data_formats clip id lcid data memc memf seqno clip' :
  clip_wf clip -> 0 <= id ->
  horizon_clip_set_data clip id lcid data memc memf = (HORIZON_CLIP_STATUS_SUCCESS, seqno, clip') ->
  cb_open_tid clip' = cb_open_tid clip /\ cb_owner clip' = cb_owner clip /\ seqno = cb_seqno clip /\
  exists i, horizon_clip_get_format clip' id = Some i /\ cb_formats clip' !! i = Some (set_format clip id data) /\
  forall id' j f, id' <> id -> horizon_clip_get_format clip id' = Some j -> cb_formats clip !! j = Some f ->
    horizon_clip_get_format clip' id' = Some j /\ cb_formats clip' !! j = Some f.
Proof.
  intros Hwf Hid Hs. pose proof (set_data_wf clip id lcid data memc memf Hwf Hid) as Hwf'. rewrite Hs in Hwf'.
  destruct Hwf' as [[Hn' _ _ _ _] _ _ _]. simpl in Hn'.
  assert (Hp : cb_open_tid clip' = cb_open_tid clip /\ cb_owner clip' = cb_owner clip /\ seqno = cb_seqno clip /\
    exists i, cb_formats clip' !! i = Some (set_format clip id data) /\
      forall j f, cb_formats clip !! j = Some f -> ff_id f <> id -> cb_formats clip' !! j = Some f).
  { unfold horizon_clip_set_data in Hs. destruct ((id =? 0) || _) eqn:H0; [done|]. btrue.
    destruct (nonzero _ && _); [done|]. cbv zeta in Hs.
    destruct (horizon_clip_get_format clip id) as [i|] eqn:Hg.
    - destruct (get_format_Some _ _ _ Hg) as (g & Hi & Hgid). fold (set_format clip id data) in Hs.
      assert (Hf : cb_formats clip' = <[i := set_format clip id data]> (cb_formats clip))
        by (destruct (is_text id); by simplify_eq/=).
      split_and!; [by destruct (is_text id); simplify_eq/=..|]. exists i. rewrite Hf. split.
      + apply list_lookup_insert_eq. by eapply lookup_lt_Some.
      + intros j f Hj Hne. rewrite list_lookup_insert_ne; [done|]. intros <-. congruence.
    - destruct memf; [|done]. simpl in Hs. fold (set_format clip id data) in Hs.
      assert (Hf : cb_formats clip' = cb_formats clip ++ [set_format clip id data])
        by (destruct (is_text id); by simplify_eq/=).
      split_and!; [by destruct (is_text id); simplify_eq/=..|]. exists (length (cb_formats clip)). rewrite Hf. split.
      + by rewrite lookup_app_r, Nat.sub_diag by lia.
      + intros j f Hj _. by apply lookup_app_l_Some. }
  destruct Hp as (H1 & H2 & H3 & i & Hi & Hothers). split_and!; [done..|]. exists i. split_and!; [|done|].
  - by apply (get_format_at clip' i (set_format clip id data) Hn').
  - intros id' j f Hne Hj Hf. destruct (get_format_Some _ _ _ Hj) as (f' & Hf' & <-).
    assert (f' = f) as -> by congruence. pose proof (Hothers j f Hf Hne). split; [|done].
    by apply get_format_at.
Qed.

(** What is put on the clipboard is what is read back, by the thread that
    has it open, with the sequence number [set_data] reported; empty data marks
    the format for delayed rendering. Every other format reads as before. *)
Theorem clip_set_get_roundtrip clip id lcid data memc memf seqno clip' max :
  rtc clip_step clip_init clip -> 0 <= id -> Z.of_nat (length data) <= max ->
  horizon_clip_set_data clip id lcid data memc memf = (HORIZON_CLIP_STATUS_SUCCESS, seqno, clip') ->
  let tid := cb_open_tid clip in
  fst (horizon_clip_get_data clip' tid id false false 0 max) =
    (HORIZON_CLIP_STATUS_SUCCESS,
     mk_data_reply 0 (cb_owner clip) seqno (Z.of_nat (length data))
       (match data with [] => None | _ => Some data end)) /\
  forall id' i f, id' <> id -> horizon_clip_get_format clip id' = Some i -> cb_formats clip !! i = Some f ->
    ff_size f <= max ->
    fst (horizon_clip_get_data clip' tid id' false false 0 max) =
    fst (horizon_clip_get_data clip tid id' false false 0 max).
Proof.
  intros Hr Hid Hm Hs. apply clip_reach_wf in Hr.
  destruct (set_data_formats _ _ _ _ _ _ _ _ Hr Hid Hs) as (Ht & Ho & -> & i & Hi & Hf & Hothers). split.
  - rewrite (get_data_reply clip' _ id 0 max i (set_format clip id data)) by done. by rewrite Ho.
  - intros id' j f Hne Hj Hfj Hmf. destruct (Hothers id' j f Hne Hj Hfj) as [Hj' Hfj'].
    rewrite (get_data_reply clip' _ id' 0 max j f), (get_data_reply clip _ id' 0 max j f) by done. by rewrite Ho.
Qed.

Lemma clip_set_get_roundtrip_witness :
  dr_data (snd (fst (horizon_clip_get_data (snd (horizon_clip_set_data clip_filled 200 0 [1; 2; 3] true true))
    5 200 false false 0 64))) = Some [1; 2; 3].
Proof.
  destruct (clip_set_get_roundtrip clip_filled 200 0 [1; 2; 3] true true (cb_seqno clip_filled)
    (snd (horizon_clip_set_data clip_filled 200 0 [1; 2; 3] true true)) 64 clip_filled_reached)
    as [H _]; [lia|simpl; lia|by vm_compute|].
  change 5 with (cb_open_tid clip_filled). by rewrite H.
Defined.

(** Every clipboard that can be reached has formats with distinct ids, a
    count and a map that agree with the list, formats made only from earlier
    ones that are present, distinct listeners and room for them; and the
    enumeration walks the formats in order: from none to the first, from each
    to the next, from the last to none. *)
Theorem clip_reachable_enum clip tid :
  rtc clip_step clip_init clip -> cb_open_tid clip = tid ->
  clip_wf clip /\
  horizon_clip_enum clip tid 0 =
    (HORIZON_CLIP_STATUS_SUCCESS, default 0 (ff_id <$> cb_formats clip !! O)) /\
  forall i f, cb_formats clip !! i = Some f ->
    horizon_clip_enum clip tid (ff_id f) =
      (HORIZON_CLIP_STATUS_SUCCESS, default 0 (ff_id <$> cb_formats clip !! S i)).
Proof.
  intros Hr <-. apply clip_reach_wf in Hr as Hwf. split; [done|]. unfold horizon_clip_enum.
  rewrite Z.eqb_refl. simpl. split; [by destruct (cb_formats clip)|]. intros i f Hf.
  destruct Hwf as [[Hn Heach _ _ _] _ _ _]. rewrite list.Forall_forall in Heach.
  destruct (Heach f) as [Hpos _]; [by eapply list_elem_of_lookup_2|].
  unfold nonzero. rewrite (proj2 (Z.eqb_neq _ _)) by lia. simpl.
  enough (after_format (cb_formats clip) (ff_id f) = drop (S i) (cb_formats clip)) as ->.
  { replace (cb_formats clip !! S i) with (drop (S i) (cb_formats clip) !! O)
      by (rewrite lookup_drop; f_equal; lia). by destruct (drop _ _). }
  clear Heach Hr. revert i Hf Hn. induction (cb_formats clip) as [|g l IH]; [done|].
  intros [|i] Hf Hn; simpl in *.
  - injection Hf as ->. by rewrite Z.eqb_refl, drop_0.
  - apply NoDup_cons in Hn as [Hg Hn]. rewrite (proj2 (Z.eqb_neq _ _)); [by apply IH|].
    intros He. apply Hg. rewrite He. apply list_elem_of_fmap. exists f. split; [done|]. by eapply list_elem_of_lookup_2.
Qed.

Lemma clip_reachable_enum_witness :
  horizon_clip_enum clip_filled 5 100 = (HORIZON_CLIP_STATUS_SUCCESS, HORIZON_CLIP_CF_ENHMETAFILE).
Proof.
  destruct (clip_reachable_enum clip_filled 5 clip_filled_reached) as (_ & _ & H); [by vm_compute|].
  specialize (H O (mk_clip_format 100 0 1 0 None)). simpl in H. rewrite H; by vm_compute.
Defined.
