(* ===== verification/Async.v ===== *)
(** * Socket operations that wait (dlls/ntdll/unix/horizon_async.h)

    The list of overlapped operations and the handlers of horizon.c that
    create, queue, run, finish and cancel them. An operation is its position in
    the list. What an accept writes for the client to fetch, the port an
    operation holds a reference to and the objects a completion signals are not
    part of the state: a finished operation gives the actions to take. *)
From S2P Require Import Prelude.
Local Open Scope Z_scope.

Inductive async_state := HORIZON_ASYNC_DIRECT | HORIZON_ASYNC_QUEUED | HORIZON_ASYNC_READY | HORIZON_ASYNC_RUNNING.
Inductive async_direction := HORIZON_ASYNC_READ | HORIZON_ASYNC_WRITE.
Inductive async_kind := HORIZON_ASYNC_IO | HORIZON_ASYNC_ACCEPT | HORIZON_ASYNC_ACCEPT_INTO.

#[export] Instance async_state_eq_dec : EqDecision async_state.
Proof. solve_decision. Defined.
#[export] Instance async_direction_eq_dec : EqDecision async_direction.
Proof. solve_decision. Defined.
#[export] Instance async_kind_eq_dec : EqDecision async_kind.
Proof. solve_decision. Defined.

Definition HORIZON_ASYNC_STATUS_ALERTED : Z := 0x00000101.
Definition HORIZON_ASYNC_STATUS_CANCELLED : Z := 0xc0000120.
Definition HORIZON_ASYNC_STATUS_HANDLES_CLOSED : Z := 0x8000000a.
Definition HORIZON_STATUS_PENDING : Z := 0x00000103.

Definition HORIZON_ASYNC_POST : Z := 1.
Definition HORIZON_ASYNC_APC : Z := 2.
Definition HORIZON_ASYNC_EVENT : Z := 4.

Record horizon_async_data := mk_async_data {
  ad_handle : Z; ad_event : Z; ad_iosb : Z; ad_user : Z; ad_apc : Z; ad_apc_context : Z
}.

Record horizon_async := mk_async {
  ay_id : Z;
  ay_apc_id : Z;
  ay_owner_tid : Z;
  ay_sock : Z;
  ay_direction : async_direction;
  ay_state : async_state;
  ay_pending : bool;
  ay_data : horizon_async_data;
  ay_status : Z;
  ay_ready_at : Z;
  ay_port : bool;            (** whether it has a port *)
  ay_skip : bool;            (** the port's flag SKIP_COMPLETION_PORT_ON_SUCCESS *)
  ay_kind : async_kind;
  ay_accept_into : Z
}.

(** The list, with the counter of the APC ids of horizon.c. *)
Record horizon_async_list := mk_async_list {
  al_list : list horizon_async;
  al_next_id : Z;
  al_ready : Z;
  al_apc_ids : Z
}.

Definition with_state (async : horizon_async) (state : async_state) (apc_id status ready_at : Z) (pending : bool)
    : horizon_async :=
  mk_async (ay_id async) apc_id (ay_owner_tid async) (ay_sock async) (ay_direction async) state pending
    (ay_data async) status ready_at (ay_port async) (ay_skip async) (ay_kind async) (ay_accept_into async).

Definition with_list (q : horizon_async_list) (l : list horizon_async) (ready : Z) : horizon_async_list :=
  mk_async_list l (al_next_id q) ready (al_apc_ids q).

Definition is_state (s : async_state) (async : horizon_async) : bool := bool_decide (ay_state async = s).

Definition horizon_async_new_id (list : horizon_async_list) : Z * horizon_async_list :=
  let id := u32 (al_next_id list + 1) in
  let id := if id =? 0 then 1 else id in
  (id, mk_async_list (al_list list) id (al_ready list) (al_apc_ids list)).

Definition horizon_async_add (list : horizon_async_list) (async : horizon_async) : horizon_async_list :=
  with_list list (al_list list ++ [async]) (al_ready list).

Definition horizon_async_remove (list : horizon_async_list) (i : nat) : horizon_async_list :=
  with_list list (delete i (al_list list)) (al_ready list).

Definition horizon_async_find_id (list : horizon_async_list) (id : Z) : option nat :=
  if id =? 0 then None else first_index (fun async => ay_id async =? id) (al_list list).

Definition horizon_async_find_apc (list : horizon_async_list) (apc_id : Z) : option nat :=
  if apc_id =? 0 then None
  else first_index (fun async => is_state HORIZON_ASYNC_RUNNING async && (ay_apc_id async =? apc_id)) (al_list list).

Definition horizon_async_find_user (list : horizon_async_list) (user : Z) : option nat :=
  first_index (fun async => ad_user (ay_data async) =? user) (al_list list).

(** Replaces the operation at a position. *)
Definition alter_async (list : horizon_async_list) (i : nat) (async : horizon_async) (ready : Z) : horizon_async_list :=
  with_list list (<[i := async]> (al_list list)) ready.

Definition horizon_async_ready (list : horizon_async_list) (i : nat) (status now : Z) : horizon_async_list :=
  match al_list list !! i with
  | None => list
  | Some async =>
      alter_async list i
        (with_state async HORIZON_ASYNC_READY (ay_apc_id async) status now (ay_pending async))
        (if is_state HORIZON_ASYNC_READY async then al_ready list else al_ready list + 1)
  end.

Definition horizon_async_run (list : horizon_async_list) (i : nat) (apc_id : Z) : horizon_async_list :=
  match al_list list !! i with
  | None => list
  | Some async =>
      alter_async list i
        (with_state async HORIZON_ASYNC_RUNNING apc_id (ay_status async) (ay_ready_at async) (ay_pending async))
        (if is_state HORIZON_ASYNC_READY async then al_ready list - 1 else al_ready list)
  end.

(** Ready for [stale] ticks; the clock's difference wraps around. *)
Definition is_stale (now stale : Z) (async : horizon_async) : bool :=
  is_state HORIZON_ASYNC_READY async && (stale <=? u64 (now - ay_ready_at async)).

Definition horizon_async_ready_for (list : horizon_async_list) (tid now stale : Z) : option nat :=
  match first_index (fun async => is_state HORIZON_ASYNC_READY async && (ay_owner_tid async =? tid)) (al_list list) with
  | Some i => Some i
  | None => first_index (is_stale now stale) (al_list list)
  end.

Definition horizon_async_any_stale (list : horizon_async_list) (now stale : Z) : bool :=
  existsb (is_stale now stale) (al_list list).

Definition horizon_async_any_queued (list : horizon_async_list) : bool :=
  existsb (fun async => is_state HORIZON_ASYNC_QUEUED async || is_state HORIZON_ASYNC_READY async) (al_list list).

Definition on_sock (sock : Z) (direction : async_direction) (async : horizon_async) : bool :=
  (ay_sock async =? sock) && bool_decide (ay_direction async = direction).

(** The loop of [horizon_async_next_queued] from position [i]. *)
Fixpoint next_queued (sock : Z) (direction : async_direction) (l : list horizon_async) (i : nat) : option nat :=
  match l with
  | [] => None
  | async :: l =>
      if negb (on_sock sock direction async) then next_queued sock direction l (S i)
      else
        match ay_state async with
        | HORIZON_ASYNC_QUEUED => Some i
        | HORIZON_ASYNC_READY | HORIZON_ASYNC_RUNNING => None
        | HORIZON_ASYNC_DIRECT => next_queued sock direction l (S i)
        end
  end.

Definition horizon_async_next_queued (list : horizon_async_list) (sock : Z) (direction : async_direction) : option nat :=
  next_queued sock direction (al_list list) 0.

(** Whether something waits to read, and to write. *)
Definition horizon_async_waiting_on (list : horizon_async_list) (sock : Z) : bool * bool :=
  let waits direction := existsb (fun async => on_sock sock direction async && is_state HORIZON_ASYNC_QUEUED async) (al_list list) in
  (waits HORIZON_ASYNC_READ, waits HORIZON_ASYNC_WRITE).

Definition horizon_async_completion (async : horizon_async) (failed has_port skip_on_success : bool) : Z :=
  if negb (ay_pending async) && failed then 0
  else
    let actions :=
      if nonzero (ad_apc (ay_data async)) then HORIZON_ASYNC_APC
      else if nonzero (ad_apc_context (ay_data async)) && has_port && (ay_pending async || negb skip_on_success)
      then HORIZON_ASYNC_POST else 0 in
    if nonzero (ad_event (ay_data async)) then Z.lor actions HORIZON_ASYNC_EVENT else actions.

(** Whether a cancel of [sock], [iosb] and [tid] is for the operation. *)
Definition cancel_matches (sock iosb tid : Z) (async : horizon_async) : bool :=
  ((ay_sock async =? sock) ||
   (bool_decide (ay_kind async = HORIZON_ASYNC_ACCEPT_INTO) && (ay_accept_into async =? sock))) &&
  ((iosb =? 0) || (ad_iosb (ay_data async) =? iosb)) &&
  ((tid =? 0) || (ay_owner_tid async =? tid)) &&
  (is_state HORIZON_ASYNC_QUEUED async || is_state HORIZON_ASYNC_READY async).

Definition cancel_status (closing : bool) (async : horizon_async) : Z :=
  if closing && bool_decide (ay_kind async = HORIZON_ASYNC_IO)
  then HORIZON_ASYNC_STATUS_HANDLES_CLOSED else HORIZON_ASYNC_STATUS_CANCELLED.

(** The loop, from position [i] for [n] operations. *)
Fixpoint cancel_loop (n i : nat) (sock iosb tid now : Z) (closing : bool) (list : horizon_async_list) (count : Z)
    : Z * horizon_async_list :=
  match n with
  | O => (count, list)
  | S n =>
      match al_list list !! i with
      | None => (count, list)
      | Some async =>
          if cancel_matches sock iosb tid async
          then cancel_loop n (S i) sock iosb tid now closing
                 (horizon_async_ready list i (cancel_status closing async) now) (u32 (count + 1))
          else cancel_loop n (S i) sock iosb tid now closing list count
      end
  end.

Definition horizon_async_cancel (list : horizon_async_list) (sock iosb tid now : Z) (closing : bool)
    : Z * horizon_async_list :=
  cancel_loop (length (al_list list)) 0 sock iosb tid now closing list 0.

(** Where the local and the remote address go and the room of the remote one,
    or nothing when they do not fit. *)
Definition horizon_async_accept_layout (out_size recv_len local_len : Z) : option (Z * Z * Z) :=
  if (out_size <? recv_len) || (u32 (out_size - recv_len) <? local_len) then None
  else if nonzero local_len && (local_len <? 4) then None
  else
    let remote_len := u32 (out_size - recv_len - local_len) in
    if 4 <=? remote_len then Some (recv_len, u32 (recv_len + local_len), remote_len) else None.

(** ** The handlers of horizon.c *)

(** [NT_ERROR]: the two top bits are set. *)
Definition HORIZON_NT_ERROR (status : Z) : bool := Z.shiftr status 30 =? 3.

(** [horizon_server_async_create_locked]: the socket's port is given by whether
    there is one and whether it skips packets on success. *)
Definition horizon_server_async_create_locked (list : horizon_async_list) (tid : Z) (data : horizon_async_data)
    (direction : async_direction) (kind : async_kind) (port skip mem : bool)
    : option nat * horizon_async_list :=
  if negb mem then (None, list)
  else
    let '(id, list) := horizon_async_new_id list in
    let async := mk_async id 0 tid (ad_handle data) direction HORIZON_ASYNC_DIRECT false data
                   HORIZON_ASYNC_STATUS_ALERTED 0 port skip kind 0 in
    (Some (length (al_list list)), horizon_async_add list async).

(** What the two accepts do with the operation just created: it is queued. *)
Definition accept_queue (list : horizon_async_list) (i : nat) (accept_into : Z) : horizon_async_list :=
  match al_list list !! i with
  | None => list
  | Some a =>
      alter_async list i
        (mk_async (ay_id a) (ay_apc_id a) (ay_owner_tid a) (ay_sock a) (ay_direction a) HORIZON_ASYNC_QUEUED true
           (ay_data a) (ay_status a) (ay_ready_at a) (ay_port a) (ay_skip a) (ay_kind a) accept_into)
        (al_ready list)
  end.

(** [horizon_server_handle_socket_io]: the operation and the wait handle of
    the reply, which is 1 when it could not be created. *)
Definition horizon_server_handle_socket_io (list : horizon_async_list) (tid : Z) (data : horizon_async_data)
    (direction : async_direction) (port skip mem : bool) : Z * horizon_async_list :=
  match horizon_server_async_create_locked list tid data direction HORIZON_ASYNC_IO port skip mem with
  | (Some i, list') => (match al_list list' !! i with Some a => ay_id a | None => 1 end, list')
  | (None, list') => (1, list')
  end.

(** The operation is taken off the list and told: the actions of its completion. *)
Definition async_end (list : horizon_async_list) (i : nat) (async : horizon_async) (status : Z)
    : Z * horizon_async_list :=
  (horizon_async_completion async (HORIZON_NT_ERROR status) (ay_port async) (ay_skip async),
   horizon_async_remove list i).

(** [horizon_server_handle_set_async_direct_result]. *)
Definition set_async_direct_result (list : horizon_async_list) (handle status : Z) (mark_pending : bool)
    : option Z * horizon_async_list :=
  match horizon_async_find_id list handle ≫= fun i => pair i <$> al_list list !! i with
  | Some (i, async) =>
      if negb (is_state HORIZON_ASYNC_DIRECT async) then (None, list)
      else if status =? HORIZON_STATUS_PENDING then
        (None, alter_async list i
                 (with_state async HORIZON_ASYNC_QUEUED (ay_apc_id async) (ay_status async) (ay_ready_at async) true)
                 (al_ready list))
      else
        let '(actions, list) :=
          async_end list i (with_state async HORIZON_ASYNC_DIRECT (ay_apc_id async) (ay_status async)
                              (ay_ready_at async) mark_pending) status in
        (Some actions, list)
  | None => (None, list)
  end.

(** [horizon_server_async_result_locked]; [result]: the status the callback
    gave, when the request was long enough to hold one. *)
Definition async_result_locked (list : horizon_async_list) (prev_apc : Z) (result : option Z)
    : option Z * horizon_async_list :=
  if prev_apc =? 0 then (None, list)
  else
    match horizon_async_find_apc list prev_apc ≫= fun i => pair i <$> al_list list !! i with
    | None => (None, list)
    | Some (i, async) =>
        let status := default HORIZON_STATUS_PENDING result in
        if status =? HORIZON_STATUS_PENDING then
          (None, alter_async list i
                   (with_state async HORIZON_ASYNC_QUEUED 0 HORIZON_ASYNC_STATUS_ALERTED (ay_ready_at async)
                      (ay_pending async)) (al_ready list))
        else
          let '(actions, list) :=
            async_end list i (with_state async HORIZON_ASYNC_RUNNING 0 (ay_status async) (ay_ready_at async)
                                (ay_pending async)) status in
          (Some actions, list)
    end.

Definition next_apc_id (apc_ids : Z) : Z :=
  let id := u32 (apc_ids + 1) in if id =? 0 then u32 (id + 1) else id.

(** [horizon_server_async_apc_locked]: the APC id, 0 for none. *)
Definition async_apc_locked (list : horizon_async_list) (tid now stale : Z) : Z * horizon_async_list :=
  match horizon_async_ready_for list tid now stale with
  | None => (0, list)
  | Some i =>
      let id := next_apc_id (al_apc_ids list) in
      (id, horizon_async_run (mk_async_list (al_list list) (al_next_id list) (al_ready list) id) i id)
  end.

(** [horizon_sock_poll_asyncs_locked]: [polled] tells whether the socket of an
    operation is ready, [accept] how an accept on it ended, if it did. *)
Definition poll_direction (polled : horizon_async -> bool) (accept : horizon_async -> option Z) (now sock : Z)
    (direction : async_direction) (list : horizon_async_list) : bool * horizon_async_list :=
  match horizon_async_next_queued list sock direction ≫= fun i => pair i <$> al_list list !! i with
  | None => (false, list)
  | Some (i, async) =>
      if negb (polled async) then (false, list)
      else if decide (ay_kind async = HORIZON_ASYNC_IO)
      then (true, horizon_async_ready list i HORIZON_ASYNC_STATUS_ALERTED now)
      else match accept async with
           | None => (false, list)
           | Some status => (true, horizon_async_ready list i status now)
           end
  end.

Definition poll_asyncs_locked (polled : horizon_async -> bool) (accept : horizon_async -> option Z) (now sock : Z)
    (list : horizon_async_list) : bool * horizon_async_list :=
  let '(changed1, list) := poll_direction polled accept now sock HORIZON_ASYNC_READ list in
  let '(changed2, list) := poll_direction polled accept now sock HORIZON_ASYNC_WRITE list in
  (changed1 || changed2, list).

(** [horizon_sock_poll_all_asyncs_locked]: the sockets looked at, at most 64. *)
Fixpoint poll_handles (l : list horizon_async) (handles : list Z) : list Z :=
  match l with
  | [] => handles
  | async :: l =>
      if negb (bool_decide (length handles < 64)%nat) then handles
      else if negb (is_state HORIZON_ASYNC_QUEUED async) then poll_handles l handles
      else poll_handles l (if bool_decide (ay_sock async ∈ handles) then handles else handles ++ [ay_sock async])
  end.

Fixpoint poll_each (polled : horizon_async -> bool) (accept : horizon_async -> option Z) (open : Z -> bool) (now : Z)
    (handles : list Z) (list : horizon_async_list) : bool * horizon_async_list :=
  match handles with
  | [] => (false, list)
  | handle :: handles =>
      let '(changed1, list) :=
        if open handle then poll_asyncs_locked polled accept now handle list else (false, list) in
      let '(changed2, list) := poll_each polled accept open now handles list in
      (changed1 || changed2, list)
  end.

Definition poll_all_asyncs_locked (polled : horizon_async -> bool) (accept : horizon_async -> option Z)
    (open : Z -> bool) (now : Z) (list : horizon_async_list) : bool * horizon_async_list :=
  poll_each polled accept open now (poll_handles (al_list list) []) list.

Definition horizon_async_any_ready (list : horizon_async_list) : bool := 0 <? al_ready list.

(** ** The invariant *)

(** What the client was told: an operation it does not try itself is pending. *)
Definition async_ok (async : horizon_async) : Prop :=
  0 < ay_id async /\
  (ay_state async <> HORIZON_ASYNC_DIRECT -> ay_pending async = true) /\
  (ay_state async = HORIZON_ASYNC_RUNNING -> ay_apc_id async <> 0).

Record async_inv (list : horizon_async_list) : Prop := {
  ai_each : Forall async_ok (al_list list);
  ai_ready : al_ready list = Z.of_nat (countb (is_state HORIZON_ASYNC_READY) (al_list list))
}.

Lemma is_state_with s a state apc_id status ready_at pending :
  is_state s (with_state a state apc_id status ready_at pending) = bool_decide (state = s).
Proof. done. Qed.

Lemma is_state_true s a : is_state s a = true <-> ay_state a = s.
Proof. apply bool_decide_eq_true. Qed.

Lemma is_state_false s a : ay_state a <> s -> is_state s a = false.
Proof. apply bool_decide_eq_false_2. Qed.

(** Replacing an operation, with the counter kept in step. *)
Lemma alter_async_inv list i a b ready :
  async_inv list -> al_list list !! i = Some a -> async_ok b ->
  ready + Z.b2z (is_state HORIZON_ASYNC_READY a) = al_ready list + Z.b2z (is_state HORIZON_ASYNC_READY b) ->
  async_inv (alter_async list i b ready).
Proof.
  intros [He Hr] Hi Hb Hc. split; simpl; [by apply Forall_insert|].
  pose proof (countb_insert (is_state HORIZON_ASYNC_READY) (al_list list) i a b Hi).
  destruct (is_state _ a), (is_state _ b); simpl in *; lia.
Qed.

Lemma async_ok_lookup list i a : async_inv list -> al_list list !! i = Some a -> async_ok a.
Proof. intros [He _] Hi. by eapply (Forall_lookup_1 async_ok). Qed.

Lemma ready_inv list i status now :
  async_inv list ->
  (forall a, al_list list !! i = Some a -> ay_state a <> HORIZON_ASYNC_DIRECT) ->
  async_inv (horizon_async_ready list i status now).
Proof.
  intros Hinv Hs. unfold horizon_async_ready. destruct (al_list list !! i) as [a|] eqn:Hi; [|done].
  destruct (async_ok_lookup _ _ _ Hinv Hi) as (H1 & H2 & H3). specialize (Hs a eq_refl).
  apply (alter_async_inv _ _ a); [done|done| |].
  - split_and!; [done|simpl; auto|done].
  - rewrite is_state_with, bool_decide_eq_true_2 by done. destruct (is_state HORIZON_ASYNC_READY a); simpl; lia.
Qed.

Lemma run_inv list i a apc_id :
  async_inv list -> al_list list !! i = Some a -> ay_state a = HORIZON_ASYNC_READY -> apc_id <> 0 ->
  async_inv (horizon_async_run list i apc_id).
Proof.
  intros Hinv Hi Hs Hapc. unfold horizon_async_run. rewrite Hi.
  destruct (async_ok_lookup _ _ _ Hinv Hi) as (H1 & H2 & H3).
  apply (alter_async_inv _ _ a); [done|done| |].
  - split_and!; [done|simpl; intros _; apply H2; by rewrite Hs|done].
  - rewrite is_state_with, (proj2 (is_state_true _ _) Hs), bool_decide_eq_false_2 by done. simpl. lia.
Qed.

Lemma remove_inv list i a :
  async_inv list -> al_list list !! i = Some a -> ay_state a <> HORIZON_ASYNC_READY ->
  async_inv (horizon_async_remove list i).
Proof.
  intros [He Hr] Hi Hs. split; simpl; [by apply Forall_delete|]. rewrite Hr. f_equal.
  rewrite <- (take_drop_middle _ _ _ Hi) at 1. rewrite (delete_take_drop (al_list list) i), !countb_app.
  f_equal. unfold countb. simpl. by rewrite (is_state_false HORIZON_ASYNC_READY a Hs).
Qed.

Lemma add_inv list a :
  async_inv list -> async_ok a -> ay_state a <> HORIZON_ASYNC_READY -> async_inv (horizon_async_add list a).
Proof.
  intros [He Hr] Ha Hs. split; simpl; [by apply Forall_app_2, Forall_singleton|].
  rewrite Hr, countb_app. unfold countb at 3. simpl.
  rewrite (is_state_false HORIZON_ASYNC_READY a Hs). simpl. lia.
Qed.

Lemma find_pair {A} (l : list A) (o : option nat) (i : nat) (a : A) :
  (o ≫= fun i => pair i <$> l !! i) = Some (i, a) -> o = Some i /\ l !! i = Some a.
Proof.
  destruct o as [j|]; simpl; [|done]. destruct (l !! j) eqn:Hj; simpl; [|done]. intros [= -> ->]. done.
Qed.

Lemma new_id_pos list : 0 < fst (horizon_async_new_id list).
Proof.
  unfold horizon_async_new_id. simpl. pose proof (u32_range (al_next_id list + 1)) as [? _].
  destruct (Z.eqb_spec (u32 (al_next_id list + 1)) 0); lia.
Qed.

Lemma next_apc_id_nonzero ids : next_apc_id ids <> 0.
Proof. unfold next_apc_id. destruct (Z.eqb_spec (u32 (ids + 1)) 0) as [->|]; [by vm_compute|done]. Qed.

Lemma create_inv list tid data direction kind port skip mem i list' :
  async_inv list ->
  horizon_server_async_create_locked list tid data direction kind port skip mem = (i, list') ->
  async_inv list' /\
  (i = None /\ list' = list \/
   exists a, i = Some (length (al_list list)) /\ al_list list' = al_list list ++ [a] /\
     ay_state a = HORIZON_ASYNC_DIRECT /\ al_ready list' = al_ready list).
Proof.
  intros Hinv. unfold horizon_server_async_create_locked. destruct mem; simpl; intros Hc; simplify_eq.
  - split; [|right; eexists; split_and!; done].
    apply (add_inv (mk_async_list (al_list list) _ (al_ready list) _)); [by destruct Hinv| |done].
    split_and!; simpl; [apply (new_id_pos list)|done|done].
  - auto.
Qed.

Lemma accept_queue_inv list i into :
  async_inv list -> (forall a, al_list list !! i = Some a -> ay_state a = HORIZON_ASYNC_DIRECT) ->
  async_inv (accept_queue list i into).
Proof.
  intros Hinv Hd. unfold accept_queue. destruct (al_list list !! i) as [a|] eqn:Hi; [|done].
  destruct (async_ok_lookup _ _ _ Hinv Hi) as (H1 & H2 & H3). apply (alter_async_inv _ _ a); [done|done|by split_and!|].
  unfold is_state. rewrite (Hd a eq_refl). done.
Qed.

Lemma direct_result_inv list handle status mark actions list' :
  async_inv list -> set_async_direct_result list handle status mark = (actions, list') -> async_inv list'.
Proof.
  intros Hinv. unfold set_async_direct_result. destruct (_ ≫= _) as [[i a]|] eqn:Hf; [|by intros [= _ <-]].
  apply find_pair in Hf as [_ Hi]. destruct (is_state HORIZON_ASYNC_DIRECT a) eqn:Hd; simpl; [|by intros [= _ <-]].
  apply is_state_true in Hd. destruct (status =? HORIZON_STATUS_PENDING); intros [= _ <-].
  - destruct (async_ok_lookup _ _ _ Hinv Hi) as (H1 & H2 & H3).
    apply (alter_async_inv _ _ a); [done|done|by split_and!|]. unfold is_state. by rewrite Hd.
  - apply (remove_inv _ _ a); [done|done|by rewrite Hd].
Qed.

Lemma find_apc_running list apc_id i a :
  horizon_async_find_apc list apc_id = Some i -> al_list list !! i = Some a ->
  ay_state a = HORIZON_ASYNC_RUNNING /\ ay_apc_id a = apc_id.
Proof.
  unfold horizon_async_find_apc. case_if; [done|]. intros (b & Hb & Hp & _)%first_index_Some Hi.
  assert (b = a) as -> by congruence. btrue. by split; [apply is_state_true|].
Qed.

Lemma async_result_inv list prev result actions list' :
  async_inv list -> async_result_locked list prev result = (actions, list') -> async_inv list'.
Proof.
  intros Hinv. unfold async_result_locked. case_if; [by intros [= _ <-]|].
  destruct (_ ≫= _) as [[i a]|] eqn:Hf; [|by intros [= _ <-]].
  apply find_pair in Hf as [Hf Hi]. destruct (find_apc_running _ _ _ _ Hf Hi) as [Hr _].
  destruct (default _ _ =? _); intros [= _ <-].
  - destruct (async_ok_lookup _ _ _ Hinv Hi) as (H1 & H2 & H3). apply (alter_async_inv _ _ a); [done|done| |].
    + split_and!; [done|intros _; apply H2; by rewrite Hr|done].
    + unfold is_state. by rewrite Hr.
  - apply (remove_inv _ _ a); [done|done|by rewrite Hr].
Qed.

(** ** Cancelling *)

(** What a cancel makes of one operation. *)
Definition cancelled (sock iosb tid now : Z) (closing : bool) (a : horizon_async) : horizon_async :=
  if cancel_matches sock iosb tid a
  then with_state a HORIZON_ASYNC_READY (ay_apc_id a) (cancel_status closing a) now (ay_pending a) else a.

Lemma cancel_matches_state sock iosb tid a :
  cancel_matches sock iosb tid a = true -> ay_state a = HORIZON_ASYNC_QUEUED \/ ay_state a = HORIZON_ASYNC_READY.
Proof.
  unfold cancel_matches. intros H. btrue. rewrite orb_true_iff, !is_state_true in *. done.
Qed.

Lemma cancel_loop_spec n i sock iosb tid now closing list count count' list' :
  (i + n)%nat = length (al_list list) -> async_inv list ->
  cancel_loop n i sock iosb tid now closing list count = (count', list') ->
  async_inv list' /\
  al_list list' = take i (al_list list) ++ (cancelled sock iosb tid now closing <$> drop i (al_list list)) /\
  u32 count' = u32 (count + Z.of_nat (countb (cancel_matches sock iosb tid) (drop i (al_list list)))) /\
  al_next_id list' = al_next_id list /\ al_apc_ids list' = al_apc_ids list.
Proof.
  revert i list count. induction n as [|n IH]; intros i list count Hn Hinv; simpl.
  { intros [= <- <-]. rewrite drop_ge, take_ge by lia. simpl. rewrite app_nil_r, Z.add_0_r. done. }
  destruct (al_list list !! i) as [a|] eqn:Hi.
  2:{ apply lookup_ge_None in Hi. lia. }
  rewrite (drop_S _ _ _ Hi). simpl. unfold countb. simpl. destruct (cancel_matches sock iosb tid a) eqn:Hm.
  - intros Hc. set (b := cancelled sock iosb tid now closing a).
    assert (Hal : al_list (horizon_async_ready list i (cancel_status closing a) now) = <[i := b]> (al_list list)).
    { unfold horizon_async_ready. rewrite Hi. simpl. unfold b, cancelled. by rewrite Hm. }
    apply IH in Hc as (H1 & H2 & H3 & H4 & H5).
    + rewrite Hal in H2, H3. rewrite drop_insert_lt in H2, H3 by lia. rewrite H2. split_and!; [done| | | |].
      * rewrite (take_S_r (<[i := b]> (al_list list)) i b)
          by (apply list_lookup_insert_eq; by eapply lookup_lt_Some).
        rewrite take_insert_ge by lia. by rewrite <- (assoc_L (++)).
      * rewrite H3. unfold u32, countb. simpl. rewrite Zplus_mod_idemp_l. f_equal. lia.
      * rewrite H4. unfold horizon_async_ready. by rewrite Hi.
      * rewrite H5. unfold horizon_async_ready. by rewrite Hi.
    + rewrite Hal, length_insert. lia.
    + apply ready_inv; [done|]. intros a' Ha'. assert (a' = a) as -> by congruence.
      destruct (cancel_matches_state _ _ _ _ Hm) as [-> | ->]; done.
  - intros Hc. apply IH in Hc as (H1 & H2 & H3 & H4 & H5); [|lia|done].
    rewrite (take_S_r _ _ a Hi) in H2. rewrite <- (assoc_L (++)) in H2. simpl in H2.
    split_and!; try done. rewrite H2. unfold cancelled at 2. by rewrite Hm.
Qed.

Lemma cancel_inv list sock iosb tid now closing :
  async_inv list -> async_inv (snd (horizon_async_cancel list sock iosb tid now closing)).
Proof.
  intros Hinv. unfold horizon_async_cancel. destruct (cancel_loop _ _ _ _ _ _ _ _ _) as [c list'] eqn:Hc.
  by apply cancel_loop_spec in Hc as [? _].
Qed.

(** ** Choosing the next one *)
Lemma next_queued_Some sock direction l i k :
  next_queued sock direction l k = Some i <->
  exists j a, i = (k + j)%nat /\ l !! j = Some a /\ on_sock sock direction a = true /\
    ay_state a = HORIZON_ASYNC_QUEUED /\
    forall j' b, (j' < j)%nat -> l !! j' = Some b -> on_sock sock direction b = true ->
      ay_state b = HORIZON_ASYNC_DIRECT.
Proof.
  revert k. induction l as [|c l IH]; intros k; simpl.
  { split; [done|]. by intros (j & a & _ & H & _). }
  destruct (on_sock sock direction c) eqn:Hc; simpl; [destruct (ay_state c) eqn:Hs|].
  2:{ split.
      - intros [= ->]. exists O, c. split_and!; try done; intros; lia.
      - intros (j & a & -> & Ha & Hon & Hst & Hb). destruct j as [|j]; [f_equal; lia|].
        specialize (Hb O c ltac:(lia) eq_refl Hc). congruence. }
  2,3: split; [done|]; intros (j & a & -> & Ha & Hon & Hst & Hb); destruct j as [|j]; simpl in Ha;
       [congruence|specialize (Hb O c ltac:(lia) eq_refl Hc); congruence].
  all: rewrite IH; split.
  1,3: intros (j & a & -> & Ha & Hon & Hst & Hb); exists (S j), a; split_and!; try done; [lia|];
       intros [|j'] b Hj' Hl Hon'; simpl in Hl; [congruence|]; apply (Hb j'); [lia|done|done].
  all: intros (j & a & -> & Ha & Hon & Hst & Hb); destruct j as [|j]; simpl in Ha; [congruence|];
       exists j, a; split_and!; try done; [lia|]; intros j' b Hj' Hl Hon'; apply (Hb (S j')); [lia|done|done].
Qed.

Lemma next_queued_at list sock direction i :
  horizon_async_next_queued list sock direction = Some i <->
  exists a, al_list list !! i = Some a /\ on_sock sock direction a = true /\ ay_state a = HORIZON_ASYNC_QUEUED /\
    forall j b, (j < i)%nat -> al_list list !! j = Some b -> on_sock sock direction b = true ->
      ay_state b = HORIZON_ASYNC_DIRECT.
Proof.
  unfold horizon_async_next_queued. rewrite next_queued_Some. simpl. split.
  - intros (j & a & -> & H). exists a. done.
  - intros (a & H). exists i, a. done.
Qed.

Lemma poll_direction_inv polled accept now sock direction list :
  async_inv list -> async_inv (snd (poll_direction polled accept now sock direction list)).
Proof.
  intros Hinv. unfold poll_direction. destruct (_ ≫= _) as [[i a]|] eqn:Hf; [|done].
  apply find_pair in Hf as [Hf Hi]. apply next_queued_at in Hf as (a' & Ha' & _ & Hq & _).
  assert (a' = a) as -> by congruence.
  assert (Hs : forall b, al_list list !! i = Some b -> ay_state b <> HORIZON_ASYNC_DIRECT)
    by (intros b Hb; assert (b = a) as -> by congruence; by rewrite Hq).
  destruct (negb _); [done|]. destruct (decide _); [by apply ready_inv|].
  destruct (accept a); [by apply ready_inv|done].
Qed.

Lemma poll_asyncs_inv polled accept now sock list :
  async_inv list -> async_inv (snd (poll_asyncs_locked polled accept now sock list)).
Proof.
  intros Hinv. unfold poll_asyncs_locked.
  pose proof (poll_direction_inv polled accept now sock HORIZON_ASYNC_READ list Hinv) as H1.
  destruct (poll_direction _ _ _ _ HORIZON_ASYNC_READ list) as [c1 l1].
  pose proof (poll_direction_inv polled accept now sock HORIZON_ASYNC_WRITE l1 H1) as H2.
  by destruct (poll_direction _ _ _ _ HORIZON_ASYNC_WRITE l1) as [c2 l2].
Qed.

Lemma poll_each_inv polled accept open now handles list :
  async_inv list -> async_inv (snd (poll_each polled accept open now handles list)).
Proof.
  revert list. induction handles as [|h handles IH]; intros list Hinv; simpl; [done|].
  pose proof (poll_asyncs_inv polled accept now h list Hinv) as H1.
  destruct (open h).
  - destruct (poll_asyncs_locked _ _ _ _ _) as [c1 l1]. specialize (IH l1 H1).
    by destruct (poll_each _ _ _ _ _ l1).
  - specialize (IH list Hinv). by destruct (poll_each _ _ _ _ _ list).
Qed.

Lemma ready_for_ready list tid now stale i a :
  horizon_async_ready_for list tid now stale = Some i -> al_list list !! i = Some a ->
  ay_state a = HORIZON_ASYNC_READY.
Proof.
  unfold horizon_async_ready_for. intros Hf Hi. destruct (first_index _ _) as [j|] eqn:Hj.
  - injection Hf as ->. apply first_index_Some in Hj as (b & Hb & Hp & _). btrue.
    assert (b = a) as -> by congruence. by apply is_state_true.
  - apply first_index_Some in Hf as (b & Hb & Hp & _). unfold is_stale in Hp. btrue.
    assert (b = a) as -> by congruence. by apply is_state_true.
Qed.

Lemma async_apc_inv list tid now stale :
  async_inv list -> async_inv (snd (async_apc_locked list tid now stale)).
Proof.
  intros Hinv. unfold async_apc_locked. destruct (horizon_async_ready_for _ _ _ _) as [i|] eqn:Hf; [|done]. simpl.
  destruct (al_list list !! i) as [a|] eqn:Hi.
  - apply (run_inv _ i a); [by destruct Hinv|done|by eapply ready_for_ready|apply next_apc_id_nonzero].
  - unfold horizon_async_run. simpl. rewrite Hi. by destruct Hinv.
Qed.

(** ** The lists that can be reached *)
Definition async_init : horizon_async_list := mk_async_list [] 0 0 0.

Inductive async_step : horizon_async_list -> horizon_async_list -> Prop :=
| step_socket_io list tid data direction port skip mem :
    async_step list (snd (horizon_server_handle_socket_io list tid data direction port skip mem))
| step_accept list tid data kind port skip mem into i list' :
    horizon_server_async_create_locked list tid data HORIZON_ASYNC_READ kind port skip mem = (Some i, list') ->
    async_step list (accept_queue list' i into)
| step_direct_result list handle status mark :
    async_step list (snd (set_async_direct_result list handle status mark))
| step_poll list polled accept open now :
    async_step list (snd (poll_all_asyncs_locked polled accept open now list))
| step_apc list tid now stale : async_step list (snd (async_apc_locked list tid now stale))
| step_result list prev result : async_step list (snd (async_result_locked list prev result))
| step_cancel list sock iosb tid now closing :
    async_step list (snd (horizon_async_cancel list sock iosb tid now closing)).

Lemma async_step_inv list list' : async_step list list' -> async_inv list -> async_inv list'.
Proof.
  intros [] Hinv.
  - unfold horizon_server_handle_socket_io. destruct (horizon_server_async_create_locked _ _ _ _ _ _ _ _) eqn:Hc.
    apply create_inv in Hc as [? _]; [|done]. by destruct o.
  - apply create_inv in H as [H1 H2]; [|done]. destruct H2 as [[? _]|(a & [= ->] & Hl & Hs & _)]; [done|].
    apply accept_queue_inv; [done|]. intros b. rewrite Hl, lookup_app_r, Nat.sub_diag by lia. simpl. by intros [= <-].
  - destruct (set_async_direct_result _ _ _ _) eqn:Hd. by eapply direct_result_inv.
  - by apply poll_each_inv.
  - by apply async_apc_inv.
  - destruct (async_result_locked _ _ _) eqn:Hd. by eapply async_result_inv.
  - by apply cancel_inv.
Qed.

Lemma async_reach_inv list : rtc async_step async_init list -> async_inv list.
Proof.
  intros Hr. eapply (rtc_keeps async_step async_inv); [apply async_step_inv|done|]. split; [by apply Forall_nil|done].
Qed.

(** ** The properties *)

(** A recv queued on socket 16, one being tried there, and a send made ready. *)
Definition async_demo_data (handle apc context : Z) : horizon_async_data := mk_async_data handle 8 4096 77 apc context.
Definition async_demo : horizon_async_list :=
  let l := snd (horizon_server_handle_socket_io async_init 5 (async_demo_data 16 0 9) HORIZON_ASYNC_READ true false true) in
  let l := snd (set_async_direct_result l 1 HORIZON_STATUS_PENDING false) in
  let l := snd (horizon_server_handle_socket_io l 6 (async_demo_data 16 0 9) HORIZON_ASYNC_READ true false true) in
  let l := snd (horizon_server_handle_socket_io l 6 (async_demo_data 16 0 9) HORIZON_ASYNC_WRITE true false true) in
  snd (set_async_direct_result l 3 HORIZON_STATUS_PENDING false).
Definition async_demo_polled : horizon_async_list :=
  snd (poll_all_asyncs_locked (fun _ => true) (fun _ => None) (fun _ => true) 100 async_demo).

Lemma async_demo_reached : rtc async_step async_init async_demo.
Proof.
  unfold async_demo. cbv zeta.
  eapply rtc_r; [|apply step_direct_result]. do 2 (eapply rtc_r; [|apply step_socket_io]).
  eapply rtc_r; [|apply step_direct_result]. eapply rtc_r; [|apply step_socket_io]. apply rtc_refl.
Qed.

Lemma async_demo_polled_reached : rtc async_step async_init async_demo_polled.
Proof. eapply rtc_r; [apply async_demo_reached|]. apply step_poll. Qed.

(** In every list that can be reached the counter a sleeping thread looks at
    is positive exactly when an operation is ready, and an operation the client
    no longer tries itself tells the program how it ended, failed or not: its
    completion routine when it gave one, else a packet on the port when it gave
    a context and there is a port, and its event when it gave one. *)
Theorem async_reachable_told list :
  rtc async_step async_init list ->
  (horizon_async_any_ready list = true <->
   exists i a, al_list list !! i = Some a /\ ay_state a = HORIZON_ASYNC_READY) /\
  forall i a failed, al_list list !! i = Some a -> ay_state a <> HORIZON_ASYNC_DIRECT ->
    let actions := horizon_async_completion a failed (ay_port a) (ay_skip a) in
    Z.testbit actions 1 = nonzero (ad_apc (ay_data a)) /\
    Z.testbit actions 0 =
      negb (nonzero (ad_apc (ay_data a))) && nonzero (ad_apc_context (ay_data a)) && ay_port a /\
    Z.testbit actions 2 = nonzero (ad_event (ay_data a)).
Proof.
  intros Hr. apply async_reach_inv in Hr as Hinv. split.
  - unfold horizon_async_any_ready. rewrite Z.ltb_lt. destruct Hinv as [_ ->]. split.
    + intros Hc. destruct (List.filter (is_state HORIZON_ASYNC_READY) (al_list list)) as [|a l] eqn:Hf.
      { unfold countb in Hc. rewrite Hf in Hc. simpl in Hc. lia. }
      assert (Hin : In a (a :: l)) by (by left). rewrite <- Hf in Hin. apply filter_In in Hin as [Hin Ha].
      apply list_elem_of_In, list_elem_of_lookup in Hin as [i Hi]. exists i, a. split; [done|]. by apply is_state_true.
    + intros (i & a & Hi & Ha). assert (Hin : In a (List.filter (is_state HORIZON_ASYNC_READY) (al_list list))).
      { apply filter_In. split; [|by apply is_state_true].
        apply list_elem_of_In. by eapply list_elem_of_lookup_2. }
      unfold countb. destruct (List.filter _ _); [done|]. simpl. lia.
  - intros i a failed Hi Hs. destruct (async_ok_lookup _ _ _ Hinv Hi) as (_ & Hp & _).
    unfold horizon_async_completion. rewrite (Hp Hs). simpl. rewrite andb_true_r.
    destruct (nonzero (ad_apc (ay_data a))), (nonzero (ad_apc_context (ay_data a))), (ay_port a),
      (nonzero (ad_event (ay_data a))); done.
Qed.

Lemma async_reachable_told_witness :
  horizon_async_any_ready async_demo_polled = true /\
  Z.testbit (horizon_async_completion (with_state (mk_async 1 0 5 16 HORIZON_ASYNC_READ HORIZON_ASYNC_READY true
    (async_demo_data 16 0 9) HORIZON_ASYNC_STATUS_ALERTED 100 true false HORIZON_ASYNC_IO 0)
    HORIZON_ASYNC_READY 0 HORIZON_ASYNC_STATUS_ALERTED 100 true) true true false) 0 = true.
Proof.
  destruct (async_reachable_told async_demo_polled async_demo_polled_reached) as [H1 H2]. split.
  - apply H1. exists O. eexists. split; by vm_compute.
  - apply (H2 O (with_state (mk_async 1 0 5 16 HORIZON_ASYNC_READ HORIZON_ASYNC_READY true
      (async_demo_data 16 0 9) HORIZON_ASYNC_STATUS_ALERTED 100 true false HORIZON_ASYNC_IO 0)
      HORIZON_ASYNC_READY 0 HORIZON_ASYNC_STATUS_ALERTED 100 true) true); by vm_compute.
Defined.

(** Operations on one socket in one direction are made ready in order: the
    poller takes an operation only when it is queued and every earlier one
    there is still being tried by its own thread, takes it whenever that holds
    and its socket is ready, and changes no other operation. *)
Theorem async_poll_in_order polled accept now sock direction list changed list' :
  poll_direction polled accept now sock direction list = (changed, list') ->
  let oldest i a := al_list list !! i = Some a /\ on_sock sock direction a = true /\
    ay_state a = HORIZON_ASYNC_QUEUED /\
    forall j b, (j < i)%nat -> al_list list !! j = Some b -> on_sock sock direction b = true ->
      ay_state b = HORIZON_ASYNC_DIRECT in
  (changed = false /\ list' = list /\
   forall i a, oldest i a -> polled a = false \/ ay_kind a <> HORIZON_ASYNC_IO /\ accept a = None) \/
  (changed = true /\ exists i a status, oldest i a /\ polled a = true /\
     (ay_kind a = HORIZON_ASYNC_IO /\ status = HORIZON_ASYNC_STATUS_ALERTED \/
      ay_kind a <> HORIZON_ASYNC_IO /\ accept a = Some status) /\
     al_list list' = <[i := with_state a HORIZON_ASYNC_READY (ay_apc_id a) status now (ay_pending a)]> (al_list list) /\
     al_ready list' = al_ready list + 1).
Proof.
  unfold poll_direction. cbv zeta. destruct (_ ≫= _) as [[i a]|] eqn:Hf; intros Hp.
  - apply find_pair in Hf as [Hq Hi]. pose proof (proj1 (next_queued_at list sock direction i) Hq) as Ho.
    destruct Ho as (a' & Ha' & Hon & Hst & Hearlier). assert (a' = a) as -> by congruence.
    assert (Huniq : forall j b, (al_list list !! j = Some b /\ on_sock sock direction b = true /\
      ay_state b = HORIZON_ASYNC_QUEUED /\ forall k c, (k < j)%nat -> al_list list !! k = Some c ->
      on_sock sock direction c = true -> ay_state c = HORIZON_ASYNC_DIRECT) -> b = a).
    { intros j b Hb. assert (Hj : horizon_async_next_queued list sock direction = Some j)
        by (apply next_queued_at; by exists b).
      assert (j = i) as -> by congruence. destruct Hb as [Hb _]. congruence. }
    assert (Hready : forall status, horizon_async_ready list i status now =
      alter_async list i (with_state a HORIZON_ASYNC_READY (ay_apc_id a) status now (ay_pending a)) (al_ready list + 1)).
    { intros status. unfold horizon_async_ready. rewrite Hi. by rewrite (is_state_false _ a) by (by rewrite Hst). }
    destruct (polled a) eqn:Hpa; simpl in Hp.
    + destruct (decide _) as [Hk|Hk]; [|destruct (accept a) as [status|] eqn:Hac]; simplify_eq.
      * right. split; [done|]. rewrite Hready. exists i, a, HORIZON_ASYNC_STATUS_ALERTED. split_and!; auto.
      * right. split; [done|]. rewrite Hready. exists i, a, status. split_and!; auto.
      * left. split_and!; [done..|]. intros j b Hb. right. by rewrite (Huniq j b Hb).
    + simplify_eq. left. split_and!; [done..|]. intros j b Hb. left. by rewrite (Huniq j b Hb).
  - simplify_eq. left. split_and!; [done..|]. intros i a Ho. exfalso.
    assert (Hj : horizon_async_next_queued list' sock direction = Some i)
      by (apply next_queued_at; by exists a).
    rewrite Hj in Hf. simpl in Hf. destruct Ho as [Ho _]. by rewrite Ho in Hf.
Qed.

Lemma async_poll_in_order_witness :
  fst (poll_direction (fun _ => true) (fun _ => None) 100 16 HORIZON_ASYNC_READ async_demo) = true /\
  al_ready (snd (poll_direction (fun _ => true) (fun _ => None) 100 16 HORIZON_ASYNC_READ async_demo)) = 1.
Proof.
  destruct (async_poll_in_order (fun _ => true) (fun _ => None) 100 16 HORIZON_ASYNC_READ async_demo true
    (snd (poll_direction (fun _ => true) (fun _ => None) 100 16 HORIZON_ASYNC_READ async_demo)))
    as [(? & _)|(_ & i & a & status & _ & _ & _ & _ & H)]; [by vm_compute|done|].
  split; [by vm_compute|exact H].
Defined.

(** A cancel ends exactly the operations it is for: each one of the socket
    (or accepting into it), of the status block and of the thread when those
    are given, that waits or is ready, becomes ready with the status of its
    end; every other operation stays as it was. The count is their number, and
    the counter of ready operations stays right. *)
Theorem async_cancel_exact list sock iosb tid now closing count list' :
  rtc async_step async_init list ->
  Z.of_nat (length (al_list list)) <= INT_MAX ->
  horizon_async_cancel list sock iosb tid now closing = (count, list') ->
  al_list list' = cancelled sock iosb tid now closing <$> al_list list /\
  count = Z.of_nat (countb (cancel_matches sock iosb tid) (al_list list)) /\
  al_ready list' = Z.of_nat (countb (is_state HORIZON_ASYNC_READY) (al_list list')).
Proof.
  intros Hr Hlen Hc. apply async_reach_inv in Hr. unfold horizon_async_cancel in Hc.
  assert (Hrange : is_u32 count).
  { assert (Hgen : forall n i l c c' l', is_u32 c ->
      cancel_loop n i sock iosb tid now closing l c = (c', l') -> is_u32 c').
    { induction n as [|n IH]; simpl; intros i l c c' l' Hcc Hs; [by simplify_eq|].
      destruct (al_list l !! i); [|by simplify_eq].
      destruct (cancel_matches _ _ _ _); eapply IH; [apply u32_range|exact Hs|exact Hcc|exact Hs]. }
    eapply Hgen; [|exact Hc]. done. }
  apply cancel_loop_spec in Hc as ([_ H1] & H2 & H3 & _ & _); [|done|done].
  rewrite drop_0 in H2, H3. split_and!; [done| |done].
  pose proof (countb_le (cancel_matches sock iosb tid) (al_list list)). unfold INT_MAX in Hlen.
  rewrite !u32_small in H3 by (done || (unfold is_u32; lia)). lia.
Qed.

Lemma async_cancel_exact_witness :
  fst (horizon_async_cancel async_demo_polled 16 0 0 200 true) = 2 /\
  al_ready (snd (horizon_async_cancel async_demo_polled 16 0 0 200 true)) = 2.
Proof.
  destruct (async_cancel_exact async_demo_polled 16 0 0 200 true 2
    (snd (horizon_async_cancel async_demo_polled 16 0 0 200 true)) async_demo_polled_reached)
    as (_ & _ & H); [by vm_compute|by vm_compute|].
  split; [by vm_compute|]. rewrite H. by vm_compute.
Defined.

(** A thread that waits is handed an operation whenever one is for it: the
    oldest ready one it started, or else the oldest that has been ready for
    [stale] ticks. The one handed over runs under a new APC id, by which it is
    found when its result comes and no other runs under that id; with none,
    nothing changes. *)
Theorem async_handed_over list tid now stale id list' :
  rtc async_step async_init list ->
  Forall (fun a => ay_state a = HORIZON_ASYNC_RUNNING -> ay_apc_id a <> next_apc_id (al_apc_ids list)) (al_list list) ->
  async_apc_locked list tid now stale = (id, list') ->
  let mine a := is_state HORIZON_ASYNC_READY a && (ay_owner_tid a =? tid) in
  (id = 0 /\ list' = list /\ Forall (fun a => mine a = false /\ is_stale now stale a = false) (al_list list)) \/
  (id <> 0 /\ exists i a, al_list list !! i = Some a /\
     (mine a = true /\ (forall j b, (j < i)%nat -> al_list list !! j = Some b -> mine b = false) \/
      Forall (fun a => mine a = false) (al_list list) /\ is_stale now stale a = true /\
      (forall j b, (j < i)%nat -> al_list list !! j = Some b -> is_stale now stale b = false)) /\
     al_list list' = <[i := with_state a HORIZON_ASYNC_RUNNING id (ay_status a) (ay_ready_at a) (ay_pending a)]> (al_list list) /\
     al_ready list' = al_ready list - 1 /\ horizon_async_find_apc list' id = Some i).
Proof.
  intros Hr Hfresh Hs. unfold async_apc_locked in Hs. destruct (horizon_async_ready_for _ _ _ _) as [i|] eqn:Hf.
  2:{ simplify_eq. left. split_and!; [done..|]. unfold horizon_async_ready_for in Hf.
      destruct (first_index _ _) eqn:H1; [done|]. apply first_index_None in H1, Hf.
      rewrite list.Forall_forall in H1, Hf. apply list.Forall_forall. auto. }
  right. simplify_eq. split; [apply next_apc_id_nonzero|].
  assert (Ha : exists a, al_list list !! i = Some a).
  { apply lookup_lt_is_Some. unfold horizon_async_ready_for in Hf. destruct (first_index _ _) eqn:H1;
      [injection Hf as ->; by apply first_index_lt in H1|by apply first_index_lt in Hf]. }
  destruct Ha as [a Hi]. pose proof (ready_for_ready _ _ _ _ _ _ Hf Hi) as Hst.
  exists i, a. unfold horizon_async_run. simpl. rewrite Hi, (proj2 (is_state_true _ _) Hst). simpl.
  split_and!; [done| |done|done|].
  - unfold horizon_async_ready_for in Hf. destruct (first_index _ _) as [k|] eqn:H1.
    + injection Hf as ->. left. apply first_index_Some in H1 as (b & Hb & Hm & Hmin).
      assert (b = a) as -> by congruence. rewrite (proj2 (is_state_true _ _) Hst) in Hm.
      split; [done|]. intros j b' Hj Hb'. by apply (Hmin j).
    + right. apply first_index_None in H1. split; [done|]. apply first_index_Some in Hf as (b & Hb & Hm & Hmin).
      assert (b = a) as -> by congruence. split; [done|]. intros j b' Hj Hb'. by apply (Hmin j).
  - unfold horizon_async_find_apc. rewrite (proj2 (Z.eqb_neq _ _) (next_apc_id_nonzero _)). simpl.
    apply first_index_Some. eexists. split; [apply list_lookup_insert_eq; by eapply lookup_lt_Some|]. split.
    + simpl. by rewrite Z.eqb_refl.
    + intros j b Hb Hj. rewrite list_lookup_insert_ne in Hb by lia.
      destruct (is_state HORIZON_ASYNC_RUNNING b) eqn:Hrun; [|done]. simpl. apply Z.eqb_neq.
      apply (Forall_lookup_1 _ _ _ _ Hfresh Hb). by apply is_state_true.
Qed.

Lemma async_handed_over_witness :
  exists i, horizon_async_find_apc (snd (async_apc_locked async_demo_polled 9 500 50)) 1 = Some i.
Proof.
  destruct (async_handed_over async_demo_polled 9 500 50 1 (snd (async_apc_locked async_demo_polled 9 500 50))
    async_demo_polled_reached) as [[? _]|(_ & i & a & _ & _ & _ & _ & H)];
    [by vm_compute; repeat constructor|by vm_compute|done|by exists i].
Defined.
