(* ===== verification/Memfile.v ===== *)
(** * Memory behind sections that have no file (dlls/ntdll/unix/horizon_memfile.h)

    Addresses are byte addresses. The kernel operations the file calls through
    [struct horizon_memfile_ops] are a parameter with the documented behaviour
    as laws (class [MemfileKernel]); its state says which physical byte an
    address shows. Physical memory is a map of bytes, apart from the kernel's
    state, so that two addresses that show one physical byte share it. An
    access to an address that shows nothing is a fault ([None]). The file's
    mutex makes every operation one step. *)
From stdpp Require Import sorting.
From S2P Require Import Prelude.
Local Open Scope Z_scope.

Definition HORIZON_MEMFILE_PAGE_SIZE : Z := 0x1000.
Definition HORIZON_SEC_FILE : Z := 0x00800000.
Definition HORIZON_SEC_IMAGE : Z := 0x01000000.
Definition HORIZON_SEC_RESERVE : Z := 0x04000000.
Definition HORIZON_SEC_COMMIT : Z := 0x08000000.
Definition HORIZON_SEC_WRITECOMBINE : Z := 0x40000000.
Definition HORIZON_SEC_LARGE_PAGES : Z := 0x80000000.
Definition HORIZON_STATUS_INVALID_PARAMETER : Z := 0xc000000d.
Definition HORIZON_STATUS_INVALID_FILE_FOR_SECTION : Z := 0xc0000020.

Definition in_range (start size v : Z) : Prop := start <= v < start + size.

(** ** The kernel *)

(** [k_at k v]: the physical byte address [v] shows, if any. [k_used k v]: the
    address is mapped, locked or reserved. *)
Class MemfileKernel (K : Type) := {
  k_at : K -> Z -> option Z;
  k_used : K -> Z -> Prop;
  k_anchor : K -> Z -> Z -> option (Z * Z) * K;
  k_unanchor : K -> Z -> Z -> Z -> Z -> bool * K;
  k_alias : K -> Z -> Z -> Z -> bool * K;
  k_unalias : K -> Z -> Z -> Z -> bool * K;
  (** An anchor is at a new address, shows the pages and locks them. *)
  k_anchor_ok : forall k src size addr token k',
    k_anchor k src size = (Some (addr, token), k') ->
    (forall v, in_range addr size v -> ~ k_used k v) /\
    (forall i, 0 <= i < size -> k_at k' (addr + i) = k_at k (src + i)) /\
    (forall v, ~ in_range src size v -> ~ in_range addr size v -> k_at k' v = k_at k v) /\
    (forall v, k_used k' v <-> k_used k v \/ in_range addr size v);
  k_anchor_failed : forall k src size k',
    k_anchor k src size = (None, k') -> (forall v, k_at k' v = k_at k v) /\ (forall v, k_used k' v <-> k_used k v);
  (** Without it the pages show at their own address again. *)
  k_unanchor_ok : forall k addr src size token k',
    k_unanchor k addr src size token = (true, k') ->
    (forall i, 0 <= i < size -> k_at k' (src + i) = k_at k (addr + i)) /\
    (forall v, ~ in_range src size v -> ~ in_range addr size v -> k_at k' v = k_at k v) /\
    (forall v, ~ in_range addr size v -> k_used k' v <-> k_used k v);
  k_unanchor_failed : forall k addr src size token k',
    k_unanchor k addr src size token = (false, k') ->
    (forall v, k_at k' v = k_at k v) /\ (forall v, k_used k' v <-> k_used k v);
  (** An alias shows at [dst], which the caller reserved, what [src] shows. *)
  k_alias_ok : forall k dst src size k',
    k_alias k dst src size = (true, k') ->
    (forall i, 0 <= i < size -> k_at k' (dst + i) = k_at k (src + i)) /\
    (forall v, ~ in_range dst size v -> k_at k' v = k_at k v) /\ (forall v, k_used k' v <-> k_used k v);
  k_alias_failed : forall k dst src size k',
    k_alias k dst src size = (false, k') -> (forall v, k_at k' v = k_at k v) /\ (forall v, k_used k' v <-> k_used k v);
  k_unalias_ok : forall k dst src size k',
    k_unalias k dst src size = (true, k') ->
    (forall v, in_range dst size v -> k_at k' v = None) /\
    (forall v, ~ in_range dst size v -> k_at k' v = k_at k v) /\ (forall v, k_used k' v <-> k_used k v);
  k_unalias_failed : forall k dst src size k',
    k_unalias k dst src size = (false, k') -> (forall v, k_at k' v = k_at k v) /\ (forall v, k_used k' v <-> k_used k v)
}.

(** ** The file *)
Record horizon_memfile_anchor := mk_anchor {
  an_first : Z; an_count : Z; an_addr : Z; an_token : Z; an_users : Z
}.
Definition an_end (a : horizon_memfile_anchor) : Z := an_first a + an_count a.

Record horizon_memfile := mk_memfile {
  mf_data : Z;                       (** the address of its pages *)
  mf_size : Z;
  mf_pos : Z;
  mf_refs : Z;
  mf_anchors : list horizon_memfile_anchor;
  mf_committed : option (list bool)
}.
Definition with_anchors (file : horizon_memfile) (anchors : list horizon_memfile_anchor) : horizon_memfile :=
  mk_memfile (mf_data file) (mf_size file) (mf_pos file) (mf_refs file) anchors (mf_committed file).
Definition with_pos (file : horizon_memfile) (pos : Z) : horizon_memfile :=
  mk_memfile (mf_data file) (mf_size file) pos (mf_refs file) (mf_anchors file) (mf_committed file).
Definition with_refs (file : horizon_memfile) (refs : Z) : horizon_memfile :=
  mk_memfile (mf_data file) (mf_size file) (mf_pos file) refs (mf_anchors file) (mf_committed file).
Definition with_committed (file : horizon_memfile) (committed : list bool) : horizon_memfile :=
  mk_memfile (mf_data file) (mf_size file) (mf_pos file) (mf_refs file) (mf_anchors file) (Some committed).

(** The flags kept, or the status reported. *)
Definition horizon_anonymous_section_flags (flags : Z) : Z + Z :=
  let kind := Z.land flags (Z.lor (Z.lor HORIZON_SEC_IMAGE HORIZON_SEC_RESERVE) (Z.lor HORIZON_SEC_COMMIT HORIZON_SEC_FILE)) in
  if kind =? HORIZON_SEC_IMAGE then
    if nonzero (Z.land flags (Z.lor HORIZON_SEC_WRITECOMBINE HORIZON_SEC_LARGE_PAGES))
    then inr HORIZON_STATUS_INVALID_PARAMETER else inr HORIZON_STATUS_INVALID_FILE_FOR_SECTION
  else if kind =? HORIZON_SEC_COMMIT then inl flags
  else if kind =? HORIZON_SEC_RESERVE then
    if nonzero (Z.land flags HORIZON_SEC_LARGE_PAGES) then inr HORIZON_STATUS_INVALID_PARAMETER else inl flags
  else inr HORIZON_STATUS_INVALID_PARAMETER.

(** [data]: where the pages are, when they and the rest could be allocated. *)
Definition horizon_memfile_alloc (size : Z) (reserve : bool) (data : option Z) : horizon_memfile + Z :=
  if (size =? 0) || negb (size mod HORIZON_MEMFILE_PAGE_SIZE =? 0) || (9223372036854775807 <? size) then inr EINVAL
  else match data with
       | None => inr ENOMEM
       | Some data =>
           inl (mk_memfile data size 0 1 []
                  (if reserve then Some (replicate (Z.to_nat (size / HORIZON_MEMFILE_PAGE_SIZE)) false) else None))
       end.

Definition horizon_memfile_ref (file : horizon_memfile) : horizon_memfile :=
  with_refs file (u32 (mf_refs file + 1)).

(** What is left of the file: the last reference frees it, and its pages too
    unless some are still anchored. *)
Inductive unref_result := unref_kept (file : horizon_memfile) | unref_freed (pages : bool).
Definition horizon_memfile_unref (file : horizon_memfile) : unref_result :=
  let refs := u32 (mf_refs file - 1) in
  if nonzero refs then unref_kept (with_refs file refs)
  else unref_freed (match mf_anchors file with [] => true | _ => false end).

Definition horizon_memfile_range_valid (file : horizon_memfile) (offset size : Z) : bool :=
  nonzero size && (offset mod HORIZON_MEMFILE_PAGE_SIZE =? 0) && (size mod HORIZON_MEMFILE_PAGE_SIZE =? 0) &&
  (offset <=? mf_size file) && (size <=? mf_size file - offset).

Section operations.
Context {K : Type} `{MemfileKernel K}.

Fixpoint trim_anchors (data : Z) (l : list horizon_memfile_anchor) (k : K) : list horizon_memfile_anchor * K :=
  match l with
  | [] => ([], k)
  | a :: l =>
      if nonzero (an_users a) then let '(l', k') := trim_anchors data l k in (a :: l', k')
      else
        match k_unanchor k (an_addr a) (data + an_first a * HORIZON_MEMFILE_PAGE_SIZE)
                (an_count a * HORIZON_MEMFILE_PAGE_SIZE) (an_token a) with
        | (false, k') => let '(l', k'') := trim_anchors data l k' in (a :: l', k'')
        | (true, k') => trim_anchors data l k'
        end
  end.

Definition horizon_memfile_trim_locked (file : horizon_memfile) (k : K) : horizon_memfile * K :=
  let '(l, k') := trim_anchors (mf_data file) (mf_anchors file) k in (with_anchors file l, k').

(** A new anchor of the pages [[page, stop)]; [mem]: whether it can be allocated. *)
Definition make_anchor (mem : Z -> bool) (data page stop : Z) (k : K) : option horizon_memfile_anchor * K :=
  if negb (mem page) then (None, k)
  else match k_anchor k (data + page * HORIZON_MEMFILE_PAGE_SIZE) ((stop - page) * HORIZON_MEMFILE_PAGE_SIZE) with
       | (Some (addr, token), k') => (Some (mk_anchor page (stop - page) addr token 0), k')
       | (None, k') => (None, k')
       end.

(** The loop of [horizon_memfile_anchor_locked] from the anchor the walk is at.
    A gap before an anchor is closed and the walk goes on after that anchor. *)
Fixpoint anchor_pages (mem : Z -> bool) (data : Z) (l : list horizon_memfile_anchor) (page stop_at : Z) (k : K)
    : bool * list horizon_memfile_anchor * K :=
  if stop_at <=? page then (true, l, k)
  else
    match l with
    | [] =>
        match make_anchor mem data page stop_at k with
        | (Some new, k') => (true, [new], k')
        | (None, k') => (false, [], k')
        end
    | a :: rest =>
        if an_end a <=? page then
          let '(ok, l', k') := anchor_pages mem data rest page stop_at k in (ok, a :: l', k')
        else if an_first a <=? page then
          let '(ok, l', k') := anchor_pages mem data rest (an_end a) stop_at k in (ok, a :: l', k')
        else
          let stop := if an_first a <? stop_at then an_first a else stop_at in
          match make_anchor mem data page stop k with
          | (None, k') => (false, a :: rest, k')
          | (Some new, k') =>
              if stop_at <=? stop then (true, new :: a :: rest, k')
              else let '(ok, l', k'') := anchor_pages mem data rest (an_end a) stop_at k' in
                   (ok, new :: a :: l', k'')
          end
    end.

Definition horizon_memfile_anchor_locked (mem : Z -> bool) (file : horizon_memfile) (first last : Z) (k : K)
    : bool * horizon_memfile * K :=
  let '(ok, l, k') := anchor_pages mem (mf_data file) (mf_anchors file) first last k in
  (ok, with_anchors file l, k').

(** The loop of [horizon_memfile_alias_range_locked]: the first page not
    handled. *)
Fixpoint alias_pages (l : list horizon_memfile_anchor) (dst first page last : Z) (map : bool) (k : K) : Z * K :=
  if last <=? page then (page, k)
  else
    match l with
    | [] => (page, k)
    | a :: l =>
        if an_end a <=? page then alias_pages l dst first page last map k
        else if page <? an_first a then (page, k)
        else
          let stop := if an_end a <? last then an_end a else last in
          let src := an_addr a + (page - an_first a) * HORIZON_MEMFILE_PAGE_SIZE in
          let at_ := dst + (page - first) * HORIZON_MEMFILE_PAGE_SIZE in
          let size := (stop - page) * HORIZON_MEMFILE_PAGE_SIZE in
          match (if map then k_alias k at_ src size else k_unalias k at_ src size) with
          | (true, k') => alias_pages l dst first stop last map k'
          | (false, k') => (page, k')
          end
    end.

Definition horizon_memfile_alias_range_locked (file : horizon_memfile) (dst first last : Z) (map : bool) (k : K)
    : bool * Z * K :=
  let '(page, k') := alias_pages (mf_anchors file) dst first first last map k in
  (page =? last, page, k').

Definition horizon_memfile_alias_locked (file : horizon_memfile) (dst first last : Z) (map : bool) (k : K) : bool * K :=
  match horizon_memfile_alias_range_locked file dst first last map k with
  | (true, _, k') => (true, k')
  | (false, page, k') =>
      let '(_, _, k'') := horizon_memfile_alias_range_locked file dst first page (negb map) k' in (false, k'')
  end.

(** The loop of [horizon_memfile_use_locked]. *)
Fixpoint use_anchors (l : list horizon_memfile_anchor) (first last : Z) (more : bool) : list horizon_memfile_anchor :=
  match l with
  | [] => []
  | a :: l =>
      if last <=? an_first a then a :: l
      else if an_end a <=? first then a :: use_anchors l first last more
      else
        let users := if more then u32 (an_users a + 1)
                     else if nonzero (an_users a) then an_users a - 1 else an_users a in
        mk_anchor (an_first a) (an_count a) (an_addr a) (an_token a) users :: use_anchors l first last more
  end.

Definition horizon_memfile_use_locked (file : horizon_memfile) (first last : Z) (more : bool) : horizon_memfile :=
  with_anchors file (use_anchors (mf_anchors file) first last more).

Definition range_first (offset : Z) : Z := offset / HORIZON_MEMFILE_PAGE_SIZE.
Definition range_last (offset size : Z) : Z := range_first offset + size / HORIZON_MEMFILE_PAGE_SIZE.

Definition horizon_memfile_map (mem : Z -> bool) (file : horizon_memfile) (dst offset size : Z) (k : K)
    : bool * horizon_memfile * K :=
  if negb (horizon_memfile_range_valid file offset size) then (false, file, k)
  else
    let first := range_first offset in
    let last := range_last offset size in
    match horizon_memfile_anchor_locked mem file first last k with
    | (false, file', k') => let '(f, k'') := horizon_memfile_trim_locked file' k' in (false, f, k'')
    | (true, file', k') =>
        match horizon_memfile_alias_locked file' dst first last true k' with
        | (true, k'') => (true, horizon_memfile_use_locked file' first last true, k'')
        | (false, k'') => let '(f, k3) := horizon_memfile_trim_locked file' k'' in (false, f, k3)
        end
    end.

Definition horizon_memfile_alias (file : horizon_memfile) (dst offset size : Z) (map : bool) (k : K) : bool * K :=
  if negb (horizon_memfile_range_valid file offset size) then (false, k)
  else horizon_memfile_alias_locked file dst (range_first offset) (range_last offset size) map k.

Definition horizon_memfile_use (file : horizon_memfile) (offset size : Z) (more : bool) (k : K) : horizon_memfile * K :=
  if negb (horizon_memfile_range_valid file offset size) then (file, k)
  else
    let file' := horizon_memfile_use_locked file (range_first offset) (range_last offset size) more in
    if more then (file', k) else horizon_memfile_trim_locked file' k.

(** ** Copying *)

(** The physical bytes [n] addresses from [ptr] show, unless one shows none. *)
Definition shown (k : K) (ptr n : Z) : option (list Z) := mapM (fun i => k_at k (ptr + i)) (seqZ 0 n).

Definition peek (m : gmap Z Z) (p : Z) : Z := default 0 (m !! p).
Fixpoint poke (m : gmap Z Z) (ps bytes : list Z) : gmap Z Z :=
  match ps, bytes with
  | p :: ps, b :: bytes => poke (<[p := b]> m) ps bytes
  | _, _ => m
  end.

(** One [memcpy] of [n] bytes at [ptr]: of the buffer's first bytes when
    writing. The bytes copied and memory. *)
Definition copy_chunk (k : K) (write : bool) (ptr n : Z) (buffer : list Z) (m : gmap Z Z)
    : option (list Z * gmap Z Z) :=
  ps ← shown k ptr n;
  Some (if write then (take (Z.to_nat n) buffer, poke m ps (take (Z.to_nat n) buffer)) else (peek m <$> ps, m)).

(** The loop of [horizon_memfile_copy_locked] from an anchor: what it copied.
    [gap]: the part before the anchor, which the pages' own address shows. *)
Fixpoint copy_pages (k : K) (write : bool) (file : horizon_memfile) (l : list horizon_memfile_anchor)
    (offset : Z) (buffer : list Z) (len : Z) (m : gmap Z Z) : option (list Z * gmap Z Z) :=
  if len <=? 0 then Some ([], m)
  else
    match l with
    | [] =>
        let chunk := if mf_size file - offset <? len then mf_size file - offset else len in
        copy_chunk k write (mf_data file + offset) chunk buffer m
    | a :: l =>
        let page := offset / HORIZON_MEMFILE_PAGE_SIZE in
        if an_end a <=? page then copy_pages k write file l offset buffer len m
        else
          let first := an_first a * HORIZON_MEMFILE_PAGE_SIZE in
          let gap := if an_first a <=? page then 0
                     else if first - offset <? len then first - offset else len in
          match copy_chunk k write (mf_data file + offset) gap buffer m with
          | None => None
          | Some (out1, m1) =>
              let offset1 := offset + gap in
              let buffer1 := drop (Z.to_nat gap) buffer in
              let len1 := len - gap in
              if len1 <=? 0 then Some (out1, m1)
              else
                let stop := an_end a * HORIZON_MEMFILE_PAGE_SIZE in
                let chunk := if stop - offset1 <? len1 then stop - offset1 else len1 in
                match copy_chunk k write (an_addr a + (offset1 - first)) chunk buffer1 m1 with
                | None => None
                | Some (out2, m2) =>
                    '(out3, m3) ← copy_pages k write file l (offset1 + chunk)
                                    (drop (Z.to_nat chunk) buffer1) (len1 - chunk) m2;
                    Some (out1 ++ out2 ++ out3, m3)
                end
          end
    end.

Definition horizon_memfile_copy_locked (k : K) (file : horizon_memfile) (offset : Z) (buffer : list Z) (len : Z)
    (write : bool) (m : gmap Z Z) : option (list Z * gmap Z Z) :=
  copy_pages k write file (mf_anchors file) offset buffer len m.

(** A count with the bytes read, or a negative errno value. *)
Definition horizon_memfile_pread_locked (k : K) (file : horizon_memfile) (len offset : Z) (m : gmap Z Z)
    : option (Z * list Z) :=
  if offset <? 0 then Some (- EINVAL, [])
  else if mf_size file <=? offset then Some (0, [])
  else
    let count := if len <? mf_size file - offset then len else mf_size file - offset in
    '(out, _) ← horizon_memfile_copy_locked k file offset [] count false m;
    Some (count, out).

Definition horizon_memfile_pwrite_locked (k : K) (file : horizon_memfile) (bytes : list Z) (offset : Z) (m : gmap Z Z)
    : option (Z * gmap Z Z) :=
  let len := Z.of_nat (length bytes) in
  if offset <? 0 then Some (- EINVAL, m)
  else if len =? 0 then Some (0, m)
  else if mf_size file <=? offset then Some (- ENOSPC, m)
  else
    let count := if len <? mf_size file - offset then len else mf_size file - offset in
    '(_, m') ← horizon_memfile_copy_locked k file offset bytes count true m;
    Some (count, m').

Definition horizon_memfile_read (k : K) (file : horizon_memfile) (len : Z) (m : gmap Z Z)
    : option (Z * list Z * horizon_memfile) :=
  '(ret, out) ← horizon_memfile_pread_locked k file len (mf_pos file) m;
  Some (ret, out, if 0 <? ret then with_pos file (mf_pos file + ret) else file).

Definition horizon_memfile_write (k : K) (file : horizon_memfile) (bytes : list Z) (m : gmap Z Z)
    : option (Z * gmap Z Z * horizon_memfile) :=
  '(ret, m') ← horizon_memfile_pwrite_locked k file bytes (mf_pos file) m;
  Some (ret, m', if 0 <? ret then with_pos file (mf_pos file + ret) else file).

End operations.

Inductive whence := SEEK_SET | SEEK_CUR | SEEK_END | SEEK_other.
Definition MAX_OFF : Z := 9223372036854775807.

(** The new position, or a negative errno value. *)
Definition horizon_memfile_seek (file : horizon_memfile) (offset : Z) (w : whence) : Z * horizon_memfile :=
  let go base :=
    if ((0 <? offset) && (MAX_OFF - offset <? base)) || (base + offset <? 0) then (- EINVAL, file)
    else (base + offset, with_pos file (base + offset)) in
  match w with
  | SEEK_SET => go 0
  | SEEK_CUR => go (mf_pos file)
  | SEEK_END => go (mf_size file)
  | SEEK_other => (- EINVAL, file)
  end.

Definition horizon_memfile_truncate (file : horizon_memfile) (length : Z) : Z :=
  if length =? mf_size file then 0 else - EINVAL.

Definition S_IFREG : Z := 0x8000.
(** The mode, the number of links and the size. *)
Definition horizon_memfile_stat (file : horizon_memfile) : Z * Z * Z := (Z.lor S_IFREG 0x180, 1, mf_size file).

(** ** Committed pages *)

(** The first page from [pos] on, in steps of a page and before [stop], that is
    not like [committed]; at most [n] steps. *)
Fixpoint committed_loop (n : nat) (bits : list bool) (pos stop : Z) (committed : bool) : Z :=
  match n with
  | O => pos
  | S n =>
      if (pos <? stop) && eqb (default false (bits !! Z.to_nat (pos / HORIZON_MEMFILE_PAGE_SIZE))) committed
      then committed_loop n bits (pos + HORIZON_MEMFILE_PAGE_SIZE) stop committed else pos
  end.

(** Marks the pages from [pos] to [stop]; at most [n] steps. *)
Fixpoint commit_loop (n : nat) (bits : list bool) (pos stop : Z) : list bool :=
  match n with
  | O => bits
  | S n =>
      if pos <? stop
      then commit_loop n (<[Z.to_nat (pos / HORIZON_MEMFILE_PAGE_SIZE) := true]> bits)
             (pos + HORIZON_MEMFILE_PAGE_SIZE) stop
      else bits
  end.

(** Steps enough to walk from [pos] to [stop]. *)
Definition walk_fuel (pos stop : Z) : nat := Z.to_nat ((stop - pos) / HORIZON_MEMFILE_PAGE_SIZE + 1).

(** The status, the size and whether it is committed: [find_committed_range]. *)
Definition horizon_memfile_committed_range (file : horizon_memfile) (start view_size offset : Z) : Z * Z * bool :=
  if negb (offset mod HORIZON_MEMFILE_PAGE_SIZE =? 0) || (view_size <=? offset)
  then (HORIZON_STATUS_INVALID_PARAMETER, 0, false)
  else
    match mf_committed file with
    | None => (0, view_size - offset, true)
    | Some bits =>
        let pos := start + offset in
        let stop := start + view_size in
        let committed := default false (bits !! Z.to_nat (pos / HORIZON_MEMFILE_PAGE_SIZE)) in
        let pos' := committed_loop (walk_fuel pos stop) bits (pos + HORIZON_MEMFILE_PAGE_SIZE) stop committed in
        (0, (if pos' <? stop then pos' else stop) - (start + offset), committed)
    end.

Definition horizon_memfile_add_committed (file : horizon_memfile) (start view_size offset size : Z)
    : Z * horizon_memfile :=
  let stop := u64 (offset + size) in
  if negb (offset mod HORIZON_MEMFILE_PAGE_SIZE =? 0) || negb (stop mod HORIZON_MEMFILE_PAGE_SIZE =? 0) ||
     (view_size <=? offset) || (view_size <? stop) || (stop <=? offset)
  then (HORIZON_STATUS_INVALID_PARAMETER, file)
  else
    match mf_committed file with
    | None => (0, file)
    | Some bits =>
        (0, with_committed file
              (commit_loop (walk_fuel (start + offset) (start + stop)) bits (start + offset) (start + stop)))
    end.

(** ** The invariant

    [frame off] is the physical byte of the section at [off]. *)
Local Notation P := HORIZON_MEMFILE_PAGE_SIZE.
Ltac plia := unfold HORIZON_MEMFILE_PAGE_SIZE, in_range, an_end in *; Z.to_euclidean_division_equations; lia.

Definition before (a b : horizon_memfile_anchor) : Prop := an_end a <= an_first b.
Definition has_page (a : horizon_memfile_anchor) (page : Z) : Prop := an_first a <= page < an_end a.
Definition anchored (l : list horizon_memfile_anchor) (page : Z) : Prop := exists a, a ∈ l /\ has_page a page.
(** The addresses of an anchor. *)
Definition anchor_at (a : horizon_memfile_anchor) (v : Z) : Prop := in_range (an_addr a) (an_count a * P) v.

Lemma page_of_offset a off : an_first a * P <= off < an_end a * P <-> has_page a (off / P).
Proof. unfold has_page. plia. Qed.

Section invariant.
Context {K : Type} `{MemfileKernel K} (data pages : Z) (frame : Z -> Z).

Definition data_at (v : Z) : Prop := in_range data (pages * P) v.

Record mf_inv (k : K) (l : list horizon_memfile_anchor) : Prop := {
  mi_sorted : StronglySorted before l;
  mi_each : Forall (fun a => 0 <= an_first a /\ 0 < an_count a /\ an_end a <= pages) l;
  (** A page shows at its anchor's address, or at its own when it has none. *)
  mi_anchored : forall a off, a ∈ l -> has_page a (off / P) ->
    k_at k (an_addr a + (off - an_first a * P)) = Some (frame off);
  mi_own : forall off, 0 <= off < pages * P -> ~ anchored l (off / P) ->
    k_at k (data + off) = Some (frame off);
  mi_data_used : forall v, data_at v -> k_used k v;
  mi_used : forall a v, a ∈ l -> anchor_at a v -> k_used k v;
  mi_apart : forall a v, a ∈ l -> anchor_at a v -> ~ data_at v;
  mi_disjoint : forall a b v, a ∈ l -> b ∈ l -> an_first a <> an_first b -> anchor_at a v -> ~ anchor_at b v
}.

(** Addresses in use that are neither the pages' own nor an anchor's: those of
    the views. *)
Definition foreign (k : K) (l : list horizon_memfile_anchor) (v : Z) : Prop :=
  k_used k v /\ ~ data_at v /\ forall a, a ∈ l -> ~ anchor_at a v.

(** Only the shape of the anchors matters, not their users. *)
Definition same_shape (a b : horizon_memfile_anchor) : Prop :=
  an_first a = an_first b /\ an_count a = an_count b /\ an_addr a = an_addr b /\ an_token a = an_token b.

Lemma same_shape_elem l l' b :
  Forall2 same_shape l l' -> b ∈ l' -> exists a, a ∈ l /\ same_shape a b.
Proof.
  intros Hf Hb. apply list_elem_of_lookup in Hb as [i Hi].
  destruct (Forall2_lookup_r _ _ _ _ _ Hf Hi) as (a & Ha & Hs). exists a. split; [by eapply list_elem_of_lookup_2|done].
Qed.

Lemma same_shape_sym l l' : Forall2 same_shape l l' -> Forall2 same_shape l' l.
Proof. intros Hf. apply Forall2_flip. eapply Forall2_impl; [done|]. unfold flip, same_shape. naive_solver. Qed.

Lemma same_shape_anchored l l' page : Forall2 same_shape l l' -> anchored l page -> anchored l' page.
Proof.
  intros Hf (a & Ha & Hp). destruct (same_shape_elem l' l a (same_shape_sym _ _ Hf) Ha) as (b & Hb & Hs).
  exists b. split; [done|]. unfold has_page, an_end, same_shape in *. lia.
Qed.

Lemma same_shape_sorted l l' : Forall2 same_shape l l' -> StronglySorted before l -> StronglySorted before l'.
Proof.
  intros Hf. induction Hf as [|a b l l' Hab Hf IH]; [done|]. rewrite !StronglySorted_cons.
  intros [Ha Hs]. split; [|auto]. rewrite list.Forall_forall in *. intros c Hc.
  destruct (same_shape_elem _ _ _ Hf Hc) as (d & Hd & Hsd). specialize (Ha d Hd).
  unfold before, an_end, same_shape in *. lia.
Qed.

Lemma same_shape_inv k l l' : Forall2 same_shape l l' -> mf_inv k l -> mf_inv k l'.
Proof.
  intros Hf [H1 H2 H3 H4 H5 H6 H7 H8].
  assert (Hel : forall b, b ∈ l' -> exists a, a ∈ l /\ same_shape a b) by (intros b; by apply same_shape_elem).
  assert (Hat : forall a b v, same_shape a b -> anchor_at b v -> anchor_at a v).
  { intros a b v (E1 & E2 & E3 & E4). unfold anchor_at. by rewrite E2, E3. }
  split; try done.
  - by eapply same_shape_sorted.
  - rewrite list.Forall_forall in *. intros b Hb. destruct (Hel b Hb) as (a & Ha & E1 & E2 & _).
    specialize (H2 a Ha). unfold an_end in *. by rewrite <- E1, <- E2.
  - intros b off Hb Hp. destruct (Hel b Hb) as (a & Ha & E1 & E2 & E3 & E4). rewrite <- E1, <- E3.
    apply H3; [done|]. unfold has_page, an_end in *. by rewrite E1, E2.
  - intros off Hoff Hn. apply H4; [done|]. intros Ha. apply Hn. by eapply same_shape_anchored.
  - intros b v Hb Hv. destruct (Hel b Hb) as (a & Ha & Hs). eapply H6; eauto.
  - intros b v Hb Hv. destruct (Hel b Hb) as (a & Ha & Hs). eapply H7; eauto.
  - intros b c v Hb Hc Hne Hv Hv'. destruct (Hel b Hb) as (a & Ha & Hs). destruct (Hel c Hc) as (d & Hd & Hs').
    eapply (H8 a d v); eauto. destruct Hs as [-> _], Hs' as [-> _]. done.
Qed.

Lemma same_shape_foreign k l l' v : Forall2 same_shape l l' -> foreign k l v -> foreign k l' v.
Proof.
  intros Hf (Hu & Hd & Ha). split_and!; [done|done|]. intros b Hb Hv.
  destruct (same_shape_elem _ _ _ Hf Hb) as (a & Hin & E1 & E2 & E3 & _).
  apply (Ha a Hin). unfold anchor_at. by rewrite E2, E3.
Qed.

(** A kernel that shows and holds the same. *)
Definition same_kernel (k k' : K) : Prop :=
  (forall v, k_at k' v = k_at k v) /\ (forall v, k_used k' v <-> k_used k v).

Lemma same_kernel_inv k k' l : same_kernel k k' -> mf_inv k l -> mf_inv k' l.
Proof.
  intros [Ea Eu] [H1 H2 H3 H4 H5 H6 H7 H8]. split; try done.
  - intros a off Ha Hp. rewrite Ea. auto.
  - intros off Ho Hn. rewrite Ea. auto.
  - intros v Hv. apply Eu. auto.
  - intros a v Ha Hv. apply Eu. eauto.
Qed.

(** Mapping or unmapping at addresses of a view. *)
Lemma foreign_change_inv k k' l at_ size :
  mf_inv k l -> (forall v, in_range at_ size v -> foreign k l v) ->
  (forall v, ~ in_range at_ size v -> k_at k' v = k_at k v) -> (forall v, k_used k' v <-> k_used k v) ->
  mf_inv k' l /\ (forall v, foreign k l v -> foreign k' l v).
Proof.
  intros [H1 H2 H3 H4 H5 H6 H7 H8] Hfor Hsame Hu. split.
  - split; try done.
    + intros a off Ha Hp. rewrite Hsame; [auto|]. intros Hin. destruct (Hfor _ Hin) as (_ & _ & Hn).
      apply (Hn a Ha). apply page_of_offset in Hp. unfold anchor_at. plia.
    + intros off Ho Hn. rewrite Hsame; [auto|]. intros Hin. destruct (Hfor _ Hin) as (_ & Hd & _).
      apply Hd. unfold data_at. plia.
    + intros v Hv. apply Hu. auto.
    + intros a v Ha Hv. apply Hu. eauto.
  - intros v (Hus & Hd & Ha). split_and!; [by apply Hu|done|done].
Qed.

(** ** Anchoring *)
Lemma insert_anchor k l1 l2 page stop addr token k' :
  mf_inv k (l1 ++ l2) -> Forall (fun a => an_end a <= page) l1 -> Forall (fun a => stop <= an_first a) l2 ->
  0 <= page < stop -> stop <= pages ->
  k_anchor k (data + page * P) ((stop - page) * P) = (Some (addr, token), k') ->
  let l := l1 ++ mk_anchor page (stop - page) addr token 0 :: l2 in
  mf_inv k' l /\ (forall v, foreign k (l1 ++ l2) v -> foreign k' l v /\ k_at k' v = k_at k v).
Proof.
  intros [H1 H2 H3 H4 H5 H6 H7 H8] Hl1 Hl2 Hp Hs Hk l.
  destruct (k_anchor_ok _ _ _ _ _ _ Hk) as (Hnew & Hat & Hsame & Hused).
  set (new := mk_anchor page (stop - page) addr token 0) in *.
  rewrite list.Forall_forall in Hl1, Hl2.
  assert (Hel : forall a, a ∈ l <-> a = new \/ a ∈ l1 ++ l2) by (unfold l; set_solver).
  assert (Hat_new : forall v, anchor_at new v <-> in_range addr ((stop - page) * P) v) by done.
  assert (Hpos : forall a, a ∈ l1 ++ l2 -> an_end a <= page \/ stop <= an_first a)
    by (intros a [Ha|Ha]%elem_of_app; [left|right]; auto).
  assert (Hcnt : forall a, a ∈ l1 ++ l2 -> 0 < an_count a).
  { intros a Ha. rewrite list.Forall_forall in H2. by apply H2. }
  assert (Hsrc : forall v, in_range (data + page * P) ((stop - page) * P) v -> data_at v)
    by (intros v; unfold data_at; plia).
  split; [split|].
  - apply StronglySorted_app in H1 as (S1 & S2 & S3). apply StronglySorted_app. split_and!.
    + intros a b Ha [->|Hb]%elem_of_cons; [by apply Hl1|auto].
    + done.
    + apply StronglySorted_cons. split; [|done]. apply list.Forall_forall. intros b Hb.
      specialize (Hl2 b Hb). unfold before, an_end. simpl. lia.
  - apply list.Forall_forall. rewrite list.Forall_forall in H2. intros a [->|Ha]%Hel; [|auto].
    unfold an_end. simpl. lia.
  - intros a off [->|Ha]%Hel Hpg.
    + apply page_of_offset in Hpg. unfold new, an_end in Hpg. simpl in Hpg |- *. rewrite Hat by plia.
      replace (data + page * P + (off - page * P)) with (data + off) by lia.
      apply H4; [plia|]. intros (b & Hb & Hpb). apply page_of_offset in Hpb.
      destruct (Hpos b Hb); plia.
    + assert (Hv : anchor_at a (an_addr a + (off - an_first a * P)))
        by (apply page_of_offset in Hpg; unfold anchor_at; plia).
      rewrite Hsame; [auto|intros Hin; by eapply H7, Hsrc|intros Hin; by eapply Hnew, H6].
  - intros off Ho Hn. rewrite Hsame.
    + apply H4; [done|]. intros (a & Ha & Hpa). apply Hn. exists a. split; [apply Hel; auto|done].
    + intros Hin. apply Hn. exists new. split; [apply Hel; auto|]. unfold has_page, an_end, new. simpl. plia.
    + intros Hin. eapply Hnew; [done|]. apply H5. unfold data_at. plia.
  - intros v Hv. apply Hused. auto.
  - intros a v [->|Ha]%Hel Hv; apply Hused; eauto.
  - intros a v [->|Ha]%Hel Hv; [|eauto]. intros Hd. eapply Hnew; [done|]. auto.
  - intros a b v [->|Ha]%Hel [->|Hb]%Hel Hne Hv; [done| | |eauto].
    + intros Hv'. eapply Hnew; [done|]. eauto.
    + intros Hv'. eapply (Hnew v); [done|]. eauto.
  - intros v (Hu & Hd & Ha). split; [split_and!|].
    + apply Hused. auto.
    + done.
    + intros a [->|Ha']%Hel Hv; [|by eapply Ha]. by eapply Hnew.
    + apply Hsame; [intros Hin; by apply Hd, Hsrc|intros Hin; by eapply Hnew].
Qed.

Lemma make_anchor_cases mem page stop k o k' :
  make_anchor mem data page stop k = (o, k') ->
  (o = None /\ same_kernel k k') \/
  (exists addr token, o = Some (mk_anchor page (stop - page) addr token 0) /\
     k_anchor k (data + page * P) ((stop - page) * P) = (Some (addr, token), k')).
Proof.
  unfold make_anchor. destruct (negb (mem page)); [intros [= <- <-]; by left|].
  destruct (k_anchor _ _ _) as [[[addr token]|] k1] eqn:Hk; intros [= <- <-].
  - right. eauto.
  - left. split; [done|]. by apply k_anchor_failed in Hk.
Qed.

(** What anchoring leaves: the anchors that were there and new ones, unused. *)
Record anchors_grown (k : K) (l : list horizon_memfile_anchor) (k' : K) (l' : list horizon_memfile_anchor) : Prop := {
  ag_inv : mf_inv k' l';
  ag_old : forall a, a ∈ l -> a ∈ l';
  ag_new : forall a, a ∈ l' -> a ∈ l \/ an_users a = 0 /\ forall page, has_page a page -> ~ anchored l page;
  ag_foreign : forall v, foreign k l v -> foreign k' l' v /\ k_at k' v = k_at k v
}.

Lemma anchors_grown_refl k k' l : mf_inv k l -> same_kernel k k' -> anchors_grown k l k' l.
Proof.
  intros Hinv Hk. split; [by eapply same_kernel_inv|done|auto|]. destruct Hk as [Ea Eu].
  intros v (Hu & Hd & Ha). split; [|done]. split_and!; [by apply Eu|done|done].
Qed.

Lemma anchors_grown_trans k1 l1 k2 l2 k3 l3 :
  anchors_grown k1 l1 k2 l2 -> anchors_grown k2 l2 k3 l3 -> anchors_grown k1 l1 k3 l3.
Proof.
  intros [A1 A2 A3 A4] [B1 B2 B3 B4]. split; [done|auto| |].
  - intros a Ha. destruct (B3 a Ha) as [Ha2|[H0 Hn]]; [auto|]. right. split; [done|].
    intros page Hp (b & Hb & Hpb). apply (Hn page Hp). exists b. auto.
  - intros v Hv. destruct (A4 v Hv) as [Hv2 E1]. destruct (B4 v Hv2) as [Hv3 E2]. split; [done|]. congruence.
Qed.

Lemma insert_anchor_grown k l1 l2 page stop addr token k' :
  mf_inv k (l1 ++ l2) -> Forall (fun a => an_end a <= page) l1 -> Forall (fun a => stop <= an_first a) l2 ->
  0 <= page < stop -> stop <= pages ->
  k_anchor k (data + page * P) ((stop - page) * P) = (Some (addr, token), k') ->
  anchors_grown k (l1 ++ l2) k' (l1 ++ mk_anchor page (stop - page) addr token 0 :: l2).
Proof.
  intros Hinv Hl1 Hl2 Hp Hs Hk. destruct (insert_anchor _ _ _ _ _ _ _ _ Hinv Hl1 Hl2 Hp Hs Hk) as [Hinv' Hfor].
  split; [done|set_solver| |done]. intros a Ha. rewrite elem_of_app, elem_of_cons in Ha.
  destruct Ha as [Ha|[->|Ha]]; [set_solver| |set_solver]. right. split; [done|].
  intros q Hq (b & Hb & Hqb). rewrite list.Forall_forall in Hl1, Hl2.
  unfold has_page, an_end in *. simpl in Hq. apply elem_of_app in Hb as [Hb|Hb].
  - specialize (Hl1 b Hb). lia.
  - specialize (Hl2 b Hb). lia.
Qed.

Lemma sorted_after pre a rest :
  StronglySorted before (pre ++ a :: rest) -> Forall (fun b => an_end a <= an_first b) rest.
Proof. intros (_ & _ & Hs)%StronglySorted_app. by apply StronglySorted_cons in Hs as [? _]. Qed.

Lemma Forall_snoc {A} (Q : A -> Prop) l x : Forall Q l -> Q x -> Forall Q (l ++ [x]).
Proof. intros. by apply Forall_app_2, Forall_singleton. Qed.

Lemma anchored_mid pre a rest q : has_page a q -> anchored (pre ++ a :: rest) q.
Proof. intros Hq. exists a. split; [set_solver|done]. Qed.

(** The walk: [pre] has been passed. When it succeeds every page has an anchor. *)
Lemma anchor_pages_ok mem stop_at l : forall pre page k ok l' k',
  mf_inv k (pre ++ l) -> Forall (fun a => an_end a <= page) pre -> 0 <= page -> stop_at <= pages ->
  anchor_pages mem data l page stop_at k = (ok, l', k') ->
  anchors_grown k (pre ++ l) k' (pre ++ l') /\
  (ok = true -> forall q, page <= q < stop_at -> anchored (pre ++ l') q).
Proof.
  induction l as [|a l IH]; intros pre page k ok l' k' Hinv Hpre Hpage Hstop; simpl;
    (destruct (Z.leb_spec stop_at page);
      [intros [= <- <- <-]; split; [by apply anchors_grown_refl|intros; lia]|]).
  { destruct (make_anchor _ _ _ _ _) as [o k1] eqn:Hm.
    apply make_anchor_cases in Hm as [[-> Hsame]|(addr & token & -> & Hk)]; intros [= <- <- <-].
    - split; [by apply anchors_grown_refl|done].
    - split; [by apply insert_anchor_grown|]. intros _ q Hq. apply anchored_mid.
      unfold has_page, an_end. simpl. lia. }
  destruct (Z.leb_spec (an_end a) page).
  { destruct (anchor_pages _ _ _ _ _ _) as [[ok1 l1] k1] eqn:Hr. intros [= <- <- <-].
    rewrite !(cons_middle a), !(assoc_L (++)) in *. eapply IH; try done. by apply Forall_snoc. }
  pose proof (sorted_after _ _ _ (mi_sorted _ _ Hinv)) as Hafter.
  assert (Ha : 0 <= an_first a /\ 0 < an_count a /\ an_end a <= pages).
  { pose proof (mi_each _ _ Hinv) as He. apply Forall_app in He as [_ He]. by inversion_clear He. }
  assert (Hpre' : Forall (fun b => an_end b <= an_end a) (pre ++ [a])).
  { apply Forall_snoc; [|lia]. eapply Forall_impl; [exact Hpre|]. simpl. intros b Hb. unfold an_end in *. lia. }
  destruct (Z.leb_spec (an_first a) page).
  { destruct (anchor_pages _ _ _ _ _ _) as [[ok1 l1] k1] eqn:Hr. intros [= <- <- <-].
    rewrite (cons_middle a pre l), (cons_middle a pre l1), !(assoc_L (++)) in *.
    destruct (IH (pre ++ [a]) (an_end a) k ok1 l1 k1) as [Hg Hc]; try done; [unfold an_end; lia|].
    split; [done|]. intros Hok q Hq. destruct (decide (q < an_end a)).
    - exists a. split; [set_solver|]. unfold has_page. lia.
    - apply Hc; [done|lia]. }
  destruct (make_anchor _ _ _ _ _) as [o k1] eqn:Hm.
  set (stop := if an_first a <? stop_at then an_first a else stop_at) in *.
  assert (Hst : page < stop /\ stop <= an_first a /\ stop <= stop_at /\ (stop < stop_at -> stop = an_first a)).
  { unfold stop. destruct (Z.ltb_spec (an_first a) stop_at); lia. }
  apply make_anchor_cases in Hm as [[-> Hsame]|(addr & token & -> & Hk)].
  { intros [= <- <- <-]. split; [by apply anchors_grown_refl|done]. }
  assert (Hg1 : anchors_grown k (pre ++ a :: l) k1 (pre ++ mk_anchor page (stop - page) addr token 0 :: a :: l)).
  { apply insert_anchor_grown; try done; try lia. constructor; [lia|].
    eapply Forall_impl; [exact Hafter|]. simpl. intros b Hb. unfold an_end in *. lia. }
  destruct (Z.leb_spec stop_at stop).
  { intros [= <- <- <-]. split; [done|]. intros _ q Hq. apply anchored_mid.
    unfold has_page, an_end. simpl. lia. }
  destruct (anchor_pages _ _ _ _ _ _) as [[ok1 l1] k2] eqn:Hr. intros [= <- <- <-].
  set (new := mk_anchor page (stop - page) addr token 0) in *.
  destruct (IH ((pre ++ [new]) ++ [a]) (an_end a) k1 ok1 l1 k2) as [Hg Hc]; try done.
  - rewrite <- !(assoc_L (++)). apply Hg1.
  - apply Forall_snoc; [apply Forall_snoc|lia].
    + eapply Forall_impl; [exact Hpre|]. simpl. intros b Hb. unfold an_end in *. lia.
    + unfold new, an_end. simpl. unfold an_end in *. lia.
  - unfold an_end. lia.
  - assert (Happ : forall x, ((pre ++ [new]) ++ [a]) ++ x = pre ++ new :: a :: x)
      by (intros x; by rewrite <- !app_assoc).
    rewrite (Happ l), (Happ l1) in Hg. rewrite (Happ l1) in Hc. split; [exact (anchors_grown_trans _ _ _ _ _ _ Hg1 Hg)|].
    intros Hok q Hq. destruct (decide (q < stop)); [|destruct (decide (q < an_end a))].
    + exists new. split; [set_solver|]. unfold has_page, an_end, new. simpl. lia.
    + exists a. split; [set_solver|]. unfold has_page. lia.
    + apply Hc; [done|lia].
Qed.


(** ** Trimming *)
Lemma remove_anchor k l1 a l2 k' :
  mf_inv k (l1 ++ a :: l2) ->
  k_unanchor k (an_addr a) (data + an_first a * P) (an_count a * P) (an_token a) = (true, k') ->
  mf_inv k' (l1 ++ l2) /\
  (forall v, foreign k (l1 ++ a :: l2) v -> foreign k' (l1 ++ l2) v /\ k_at k' v = k_at k v).
Proof.
  intros [H1 H2 H3 H4 H5 H6 H7 H8] Hk. destruct (k_unanchor_ok _ _ _ _ _ _ Hk) as (Hat & Hsame & Hused).
  assert (Hain : a ∈ l1 ++ a :: l2) by set_solver.
  assert (Hel : forall b, b ∈ l1 ++ l2 -> b ∈ l1 ++ a :: l2) by set_solver.
  assert (Hane : forall b, b ∈ l1 ++ l2 -> an_end b <= an_first a \/ an_end a <= an_first b).
  { intros b [Hb|Hb]%elem_of_app.
    - left. apply (StronglySorted_app_1_elem_of before l1 (a :: l2) b a); [done..|set_solver].
    - right. apply sorted_after in H1. rewrite list.Forall_forall in H1. auto. }
  assert (Hrange : 0 <= an_first a /\ 0 < an_count a /\ an_end a <= pages).
  { rewrite list.Forall_forall in H2. auto. }
  assert (Hcnt : forall b, b ∈ l1 ++ l2 -> 0 < an_count b).
  { intros b Hb. rewrite list.Forall_forall in H2. apply H2. auto. }
  assert (Hsrc : forall v, in_range (data + an_first a * P) (an_count a * P) v -> data_at v)
    by (intros v; unfold data_at; plia).
  split; [split|].
  - apply StronglySorted_app in H1 as (S1 & S2 & S3). apply StronglySorted_cons in S3 as [_ S3].
    apply StronglySorted_app. split_and!; [|done|done]. intros b c Hb Hc. apply S1; set_solver.
  - rewrite list.Forall_forall in *. auto.
  - intros b off Hb Hp. assert (Hv : anchor_at b (an_addr b + (off - an_first b * P)))
      by (apply page_of_offset in Hp; unfold anchor_at; plia).
    rewrite Hsame; [by auto|intros Hin; exact (H7 b _ (Hel b Hb) Hv (Hsrc _ Hin))|].
    intros Hin. eapply (H8 b a); [auto|done| |done|done]. destruct (Hane b Hb); specialize (Hcnt b Hb); plia.
  - intros off Ho Hn. destruct (decide (an_first a * P <= off < an_end a * P)) as [Hin|Hout].
    + replace (data + off) with (data + an_first a * P + (off - an_first a * P)) by lia.
      rewrite Hat by plia. apply H3; [done|]. by apply page_of_offset.
    + rewrite Hsame.
      * apply H4; [done|]. intros (b & Hb & Hpb). apply elem_of_app in Hb as [Hb|[->|Hb]%elem_of_cons].
        { apply Hn. exists b. set_solver. } { by apply page_of_offset in Hpb. } { apply Hn. exists b. set_solver. }
      * plia.
      * intros Hin. eapply (H7 a); [done|exact Hin|]. unfold data_at. plia.
  - intros v Hv. apply Hused; [|auto]. intros Hin. by eapply (H7 a).
  - intros b v Hb Hv. apply Hused; [|eauto]. intros Hin. eapply (H8 b a); [auto|done| |done|done].
    destruct (Hane b Hb); specialize (Hcnt b Hb); plia.
  - eauto.
  - eauto.
  - intros v (Hu & Hd & Ha). split; [split_and!|].
    + apply Hused; [|done]. by apply Ha.
    + done.
    + auto.
    + apply Hsame; [intros Hin; by apply Hd, Hsrc|by apply Ha].
Qed.

(** What trimming leaves: some of the anchors, among them every one in use. *)
Record anchors_shrunk (k : K) (l : list horizon_memfile_anchor) (k' : K) (l' : list horizon_memfile_anchor) : Prop := {
  as_inv : mf_inv k' l';
  as_sub : forall a, a ∈ l' -> a ∈ l;
  as_used : forall a, a ∈ l -> an_users a <> 0 -> a ∈ l';
  as_foreign : forall v, foreign k l v -> foreign k' l' v /\ k_at k' v = k_at k v
}.

Lemma anchors_shrunk_refl k k' l : mf_inv k l -> same_kernel k k' -> anchors_shrunk k l k' l.
Proof.
  intros Hinv Hk. destruct (anchors_grown_refl _ _ _ Hinv Hk) as [H1 H2 H3 H4]. by split.
Qed.

Lemma anchors_shrunk_trans k1 l1 k2 l2 k3 l3 :
  anchors_shrunk k1 l1 k2 l2 -> anchors_shrunk k2 l2 k3 l3 -> anchors_shrunk k1 l1 k3 l3.
Proof.
  intros [A1 A2 A3 A4] [B1 B2 B3 B4]. split; [done|auto|auto|].
  intros v Hv. destruct (A4 v Hv) as [Hv2 E1]. destruct (B4 v Hv2) as [Hv3 E2]. split; [done|]. congruence.
Qed.

Lemma trim_anchors_ok l : forall pre k l' k',
  mf_inv k (pre ++ l) -> trim_anchors data l k = (l', k') -> anchors_shrunk k (pre ++ l) k' (pre ++ l').
Proof.
  induction l as [|a l IH]; intros pre k l' k' Hinv; simpl; [intros [= <- <-]; by apply anchors_shrunk_refl|].
  assert (Hkeep : forall k1 l1 k2, same_kernel k k1 -> trim_anchors data l k1 = (l1, k2) ->
    anchors_shrunk k (pre ++ a :: l) k2 (pre ++ a :: l1)).
  { intros k1 l1 k2 Hs Ht. apply anchors_shrunk_trans with k1 (pre ++ a :: l); [by apply anchors_shrunk_refl|].
    rewrite (cons_middle a pre l), (cons_middle a pre l1), !(assoc_L (++)). apply IH; [|done].
    rewrite <- (assoc_L (++)). by eapply same_kernel_inv. }
  destruct (nonzero (an_users a)) eqn:Hu.
  { destruct (trim_anchors data l k) as [l1 k1] eqn:Ht. intros [= <- <-]. by apply (Hkeep k). }
  destruct (k_unanchor _ _ _ _ _) as [[] k1] eqn:Hk.
  - intros Ht. destruct (remove_anchor _ _ _ _ _ Hinv Hk) as [Hinv1 Hfor].
    apply anchors_shrunk_trans with k1 (pre ++ l); [|by apply IH].
    split; [done|set_solver| |done]. intros b [Hb|[->|Hb]%elem_of_cons]%elem_of_app Hub; [set_solver| |set_solver].
    btrue. done.
  - destruct (trim_anchors data l k1) as [l1 k2] eqn:Ht. intros [= <- <-]. apply (Hkeep k1); [|done].
    by apply k_unanchor_failed in Hk.
Qed.

(** ** Aliasing *)

(** The addresses of [size] bytes of a view. *)
Definition view_free (k : K) (l : list horizon_memfile_anchor) (dst size : Z) : Prop :=
  forall v, in_range dst size v -> foreign k l v.

(** What mapping ([true]) or unmapping pages [[page, page')] at [dst] leaves. *)
Record pages_aliased (k k' : K) (l : list horizon_memfile_anchor) (dst first page page' : Z) (map : bool) : Prop := {
  pa_inv : mf_inv k' l;
  pa_shown : forall off, page * P <= off < page' * P ->
    k_at k' (dst + (off - first * P)) = if map then Some (frame off) else None;
  pa_same : forall v, ~ in_range (dst + (page - first) * P) ((page' - page) * P) v -> k_at k' v = k_at k v;
  pa_used : forall v, k_used k' v <-> k_used k v
}.

Lemma pages_aliased_refl k k' l dst first page map :
  mf_inv k l -> same_kernel k k' -> pages_aliased k k' l dst first page page map.
Proof. intros Hinv Hs. split; [by eapply same_kernel_inv|intros; lia|intros; apply Hs|apply Hs]. Qed.

Lemma pages_aliased_trans k1 k2 k3 l dst first p1 p2 p3 map :
  p1 <= p2 <= p3 ->
  pages_aliased k1 k2 l dst first p1 p2 map -> pages_aliased k2 k3 l dst first p2 p3 map ->
  pages_aliased k1 k3 l dst first p1 p3 map.
Proof.
  intros Hp [A1 A2 A3 A4] [B1 B2 B3 B4]. split; [done| | |].
  - intros off Hoff. destruct (decide (off < p2 * P)).
    + rewrite B3; [apply A2; plia|plia].
    + apply B2. plia.
  - intros v Hv. rewrite B3, A3; [done|plia|plia].
  - intros v. by rewrite B4.
Qed.

(** One call of the kernel for pages of one anchor. *)
Lemma alias_piece k l a dst first page stop last (map ok : bool) k' :
  mf_inv k l -> a ∈ l -> an_first a <= page -> page < stop -> stop <= an_end a -> first <= page -> stop <= last ->
  view_free k l dst ((last - first) * P) ->
  (if map then k_alias k (dst + (page - first) * P) (an_addr a + (page - an_first a) * P) ((stop - page) * P)
   else k_unalias k (dst + (page - first) * P) (an_addr a + (page - an_first a) * P) ((stop - page) * P)) = (ok, k') ->
  if ok then pages_aliased k k' l dst first page stop map else same_kernel k k'.
Proof.
  intros Hinv Ha H1 H2 H3 H4 H5 Hfree Hk.
  assert (Hsub : forall v, in_range (dst + (page - first) * P) ((stop - page) * P) v -> foreign k l v)
    by (intros v Hv; apply Hfree; plia).
  destruct map, ok.
  - destruct (k_alias_ok _ _ _ _ _ Hk) as (Hat & Hsame & Hused).
    split; [by eapply foreign_change_inv| |done|done]. intros off Hoff.
    replace (dst + (off - first * P)) with (dst + (page - first) * P + (off - page * P)) by lia.
    rewrite Hat by plia.
    replace (an_addr a + (page - an_first a) * P + (off - page * P)) with (an_addr a + (off - an_first a * P)) by lia.
    apply (mi_anchored _ _ Hinv); [done|]. apply page_of_offset. plia.
  - by apply k_alias_failed in Hk.
  - destruct (k_unalias_ok _ _ _ _ _ Hk) as (Hat & Hsame & Hused).
    split; [by eapply foreign_change_inv| |done|done]. intros off Hoff. apply Hat. plia.
  - by apply k_unalias_failed in Hk.
Qed.

Lemma view_free_alias k k' l dst first page page' last map :
  first <= page <= page' -> page' <= last ->
  view_free k l dst ((last - first) * P) -> pages_aliased k k' l dst first page page' map ->
  view_free k' l dst ((last - first) * P).
Proof.
  intros H1 H2 Hfree [_ _ _ Hu] v Hv. destruct (Hfree v Hv) as (A & B & C). split_and!; [by apply Hu|done|done].
Qed.

Lemma alias_pages_ok full l : forall dst first page last map k page' k',
  mf_inv k full -> (forall a, a ∈ l -> a ∈ full) -> first <= page <= last ->
  view_free k full dst ((last - first) * P) ->
  alias_pages l dst first page last map k = (page', k') ->
  page <= page' <= last /\ pages_aliased k k' full dst first page page' map.
Proof.
  induction l as [|a l IH]; intros dst first page last map k page' k' Hinv Hsub Hp Hfree; simpl;
    (destruct (Z.leb_spec last page); [intros [= <- <-]; split; [lia|by apply pages_aliased_refl]|]).
  { intros [= <- <-]. split; [lia|by apply pages_aliased_refl]. }
  destruct (Z.leb_spec (an_end a) page); [apply IH; try done; set_solver|].
  destruct (Z.ltb_spec page (an_first a)); [intros [= <- <-]; split; [lia|by apply pages_aliased_refl]|].
  set (stop := if an_end a <? last then an_end a else last).
  assert (Hst : page < stop /\ stop <= an_end a /\ stop <= last)
    by (unfold stop; destruct (Z.ltb_spec (an_end a) last); lia).
  clearbody stop. destruct (if map then _ else _) as [ok k1] eqn:Hk.
  eapply (alias_piece k full a dst first page stop last map) in Hk; try done; try lia; [|set_solver].
  destruct ok.
  - intros Hr. apply IH in Hr as [Hr1 Hr2]; [|apply Hk|set_solver|lia|].
    + split; [lia|]. eapply pages_aliased_trans; [|done|done]. lia.
    + eapply view_free_alias; [| |done|done]; lia.
  - intros [= <- <-]. split; [lia|by apply pages_aliased_refl].
Qed.

(** Unless a page has no anchor, only the kernel can stop the walk. *)
Lemma alias_pages_stuck l : forall dst first page last (map : bool) k page' k',
  StronglySorted before l -> (forall q, page <= q < last -> anchored l q) ->
  alias_pages l dst first page last map k = (page', k') -> page' < last ->
  exists dst' src size k1 k2, (if map then k_alias k1 dst' src size else k_unalias k1 dst' src size) = (false, k2).
Proof.
  induction l as [|a l IH]; intros dst first page last map k page' k' Hs Hc; simpl;
    (destruct (Z.leb_spec last page); [intros [= <- <-]; lia|]).
  { destruct (Hc page ltac:(lia)) as (b & Hb & _). by apply not_elem_of_nil in Hb. }
  apply StronglySorted_cons in Hs as [Ha Hs]. rewrite list.Forall_forall in Ha.
  assert (Hrest : forall p, an_end a <= p -> forall q, p <= q < last -> page <= q -> anchored l q).
  { intros p Hp q Hq Hq'. destruct (Hc q ltac:(lia)) as (b & [->|Hb]%elem_of_cons & Hqb).
    - unfold has_page in Hqb. lia.
    - by exists b. }
  destruct (Z.leb_spec (an_end a) page).
  { intros Hr. eapply IH; [done| |exact Hr]. intros q Hq. apply (Hrest page); lia. }
  destruct (Z.ltb_spec page (an_first a)).
  { destruct (Hc page ltac:(lia)) as (b & [->|Hb]%elem_of_cons & Hqb); unfold has_page in Hqb; [lia|].
    specialize (Ha b Hb). unfold before in Ha. lia. }
  destruct (if map then _ else _) as [[] k1] eqn:Hk; [|intros _ _; destruct map; eauto 10].
  intros Hr. destruct (Z.ltb_spec (an_end a) last).
  - eapply IH; [done| |exact Hr]. intros q Hq. apply (Hrest (an_end a)); lia.
  - eapply IH; [done| |exact Hr]. lia.
Qed.


(** ** Copying *)
Lemma shown_frames k ptr n off :
  (forall i, 0 <= i < n -> k_at k (ptr + i) = Some (frame (off + i))) ->
  shown k ptr n = Some (frame <$> seqZ off n).
Proof.
  intros Hat. unfold shown. apply mapM_Some. replace off with (off + 0) by lia.
  rewrite <- (fmap_add_seqZ off 0 n), <- list_fmap_compose. apply Forall2_fmap_r, Forall_Forall2_diag.
  apply list.Forall_forall. intros i [Hi1 Hi2]%elem_of_seqZ. simpl. rewrite Hat by lia. done.
Qed.

(** The effect of one or several [memcpy] over the physical bytes [ps]. *)
Definition copied (write : bool) (ps buffer : list Z) (m : gmap Z Z) : list Z * gmap Z Z :=
  if write then (take (length ps) buffer, poke m ps (take (length ps) buffer)) else (peek m <$> ps, m).

Lemma poke_app m ps1 ps2 b1 b2 :
  length ps1 = length b1 -> poke m (ps1 ++ ps2) (b1 ++ b2) = poke (poke m ps1 b1) ps2 b2.
Proof.
  revert m b1. induction ps1 as [|p ps1 IH]; intros m [|b b1] Hl; simplify_eq/=; [done|]. by apply IH.
Qed.

Lemma copied_app (write : bool) ps1 ps2 buffer m :
  (write = true -> (length ps1 <= length buffer)%nat) ->
  copied write (ps1 ++ ps2) buffer m =
  let '(out1, m1) := copied write ps1 buffer m in
  let '(out2, m2) := copied write ps2 (drop (length ps1) buffer) m1 in (out1 ++ out2, m2).
Proof.
  intros Hl. unfold copied. destruct write; [|by rewrite fmap_app].
  rewrite length_app, <- (take_take_drop buffer (length ps1) (length ps2)). f_equal.
  apply poke_app. rewrite length_take. specialize (Hl eq_refl). lia.
Qed.

Lemma copy_chunk_frames k write ptr n off buffer m :
  0 <= n -> (forall i, 0 <= i < n -> k_at k (ptr + i) = Some (frame (off + i))) ->
  copy_chunk k write ptr n buffer m = Some (copied write (frame <$> seqZ off n) buffer m).
Proof.
  intros Hn Hat. unfold copy_chunk. rewrite (shown_frames k ptr n off Hat). simpl. unfold copied.
  by rewrite length_fmap, length_seqZ.
Qed.

Lemma frames_app off n1 n2 :
  0 <= n1 -> 0 <= n2 -> frame <$> seqZ off (n1 + n2) = (frame <$> seqZ off n1) ++ (frame <$> seqZ (off + n1) n2).
Proof. intros. by rewrite seqZ_app, fmap_app by lia. Qed.

(** One part and then the rest. *)
Lemma copied_frames_app (write : bool) off n1 n2 buffer m :
  0 <= n1 -> 0 <= n2 -> (write = true -> n1 <= Z.of_nat (length buffer)) ->
  copied write (frame <$> seqZ off (n1 + n2)) buffer m =
  let '(out1, m1) := copied write (frame <$> seqZ off n1) buffer m in
  let '(out2, m2) := copied write (frame <$> seqZ (off + n1) n2) (drop (Z.to_nat n1) buffer) m1 in
  (out1 ++ out2, m2).
Proof.
  intros H1 H2 Hb. rewrite frames_app by lia. rewrite copied_app; rewrite length_fmap, length_seqZ; [done|].
  intros Hw. specialize (Hb Hw). lia.
Qed.

Section copy.
Variables (k : K) (full : list horizon_memfile_anchor) (file : horizon_memfile).
Hypothesis inv : mf_inv k full.
Hypothesis file_data : mf_data file = data.
Hypothesis file_size : mf_size file = pages * P.

Lemma own_shows off n :
  0 <= off -> off + n <= pages * P ->
  (forall q, off < (q + 1) * P -> q * P < off + n -> ~ anchored full q) ->
  forall i, 0 <= i < n -> k_at k (mf_data file + off + i) = Some (frame (off + i)).
Proof.
  intros H1 H2 Hq i Hi. rewrite file_data, <- Z.add_assoc. apply (mi_own _ _ inv); [lia|].
  apply Hq; plia.
Qed.

Lemma anchor_shows a off n :
  a ∈ full -> an_first a * P <= off -> off + n <= an_end a * P ->
  forall i, 0 <= i < n -> k_at k (an_addr a + (off - an_first a * P) + i) = Some (frame (off + i)).
Proof.
  intros Ha H1 H2 i Hi. replace (an_addr a + (off - an_first a * P) + i) with (an_addr a + (off + i - an_first a * P)) by lia.
  apply (mi_anchored _ _ inv); [done|]. apply page_of_offset. plia.
Qed.

Lemma not_anchored_between pre a rest off stop q :
  full = pre ++ a :: rest -> Forall (fun b => an_end b * P <= off) pre -> stop <= an_first a * P ->
  off < (q + 1) * P -> q * P < stop -> ~ anchored full q.
Proof.
  intros Hf Hpre Hst Hq1 Hq2 (b & Hb & Hqb). unfold has_page in Hqb.
  pose proof (mi_each _ _ inv) as He. rewrite list.Forall_forall in He. pose proof (He b Hb) as (B1 & B2 & B3).
  rewrite Hf in Hb. apply elem_of_app in Hb as [Hb|Hb].
  - rewrite list.Forall_forall in Hpre. specialize (Hpre b Hb). plia.
  - assert (Ha : an_first a <= an_first b); [|plia]. apply elem_of_cons in Hb as [->|Hb]; [lia|].
    pose proof (mi_sorted _ _ inv) as Hs. rewrite Hf in Hs. apply sorted_after in Hs.
    rewrite list.Forall_forall in Hs. specialize (Hs b Hb). assert (a ∈ full) as Hain by (rewrite Hf; set_solver).
    pose proof (He a Hain). plia.
Qed.

(** The walk ends, without a fault, with the bytes the section has there. *)
Lemma copy_pages_ok write l : forall pre offset buffer len m,
  full = pre ++ l -> Forall (fun a => an_end a * P <= offset) pre ->
  0 <= offset -> 0 <= len -> offset + len <= pages * P ->
  (write = true -> len <= Z.of_nat (length buffer)) ->
  copy_pages k write file l offset buffer len m = Some (copied write (frame <$> seqZ offset len) buffer m).
Proof.
  induction l as [|a l IH]; intros pre offset buffer len m Hf Hpre Ho Hl Hsize Hb; simpl;
    (destruct (Z.leb_spec len 0);
      [replace len with 0 by lia; rewrite seqZ_nil by lia; by destruct write|]).
  { rewrite file_size. replace (if pages * P - offset <? len then pages * P - offset else len) with len
      by (destruct (Z.ltb_spec (pages * P - offset) len); lia).
    apply copy_chunk_frames; [lia|]. apply own_shows; [lia|lia|]. intros q Hq1 Hq2 (b & Hb' & Hqb).
    rewrite Hf, app_nil_r in Hb'. rewrite list.Forall_forall in Hpre. specialize (Hpre b Hb').
    unfold has_page in Hqb. plia. }
  assert (Ha : a ∈ full) by (rewrite Hf; set_solver).
  assert (Hae : 0 <= an_first a /\ 0 < an_count a /\ an_end a <= pages).
  { pose proof (mi_each _ _ inv) as He. rewrite list.Forall_forall in He. auto. }
  assert (Hnext : forall off, offset <= off -> an_end a * P <= off ->
            full = (pre ++ [a]) ++ l /\ Forall (fun b => an_end b * P <= off) (pre ++ [a])).
  { intros off H1 H2. rewrite <- (assoc_L (++)). split; [done|]. apply Forall_snoc; [|done].
    eapply Forall_impl; [exact Hpre|]. simpl. lia. }
  destruct (Z.leb_spec (an_end a) (offset / P)).
  { destruct (Hnext offset) as [E1 E2]; [lia|plia|]. by eapply IH. }
  set (gap := if an_first a <=? offset / P then 0
              else if an_first a * P - offset <? len then an_first a * P - offset else len).
  assert (Hgap : 0 <= gap <= len /\ (gap = 0 /\ an_first a * P <= offset \/ offset + gap <= an_first a * P) /\
                 (gap < len -> an_first a * P <= offset + gap < an_end a * P)).
  { unfold gap. destruct (Z.leb_spec (an_first a) (offset / P)); [|destruct (Z.ltb_spec (an_first a * P - offset) len)]; plia. }
  clearbody gap. destruct Hgap as (Hg1 & Hg2 & Hg3).
  rewrite (copy_chunk_frames k write (mf_data file + offset) gap offset) by
    (lia || (intros i Hi; apply (own_shows offset gap); [lia|lia| |lia]; intros q Hq1 Hq2;
             eapply (not_anchored_between pre a l offset (offset + gap)); [done|done|lia|lia|lia])).
  destruct (copied write (frame <$> seqZ offset gap) buffer m) as [out1 m1] eqn:Hc1.
  assert (Hb1 : write = true -> gap <= Z.of_nat (length buffer)) by (intros Hw; specialize (Hb Hw); lia).
  destruct (Z.leb_spec (len - gap) 0).
  { replace gap with len in Hc1 by lia. by rewrite Hc1. }
  pose proof (copied_frames_app write offset gap (len - gap) buffer m) as Hs1.
  replace (gap + (len - gap)) with len in Hs1 by lia. rewrite Hs1, Hc1 by (lia || done). clear Hs1.
  set (off1 := offset + gap) in *. set (buf1 := drop (Z.to_nat gap) buffer). set (len1 := len - gap) in *.
  assert (Hb2 : write = true -> len1 <= Z.of_nat (length buf1))
    by (intros Hw; specialize (Hb Hw); unfold buf1; rewrite length_drop; lia).
  clearbody buf1. set (chunk := if an_end a * P - off1 <? len1 then an_end a * P - off1 else len1).
  assert (Hch : 0 < chunk <= len1 /\ off1 + chunk <= an_end a * P /\ (chunk < len1 -> off1 + chunk = an_end a * P))
    by (unfold chunk; destruct (Z.ltb_spec (an_end a * P - off1) len1); lia).
  clearbody chunk. destruct Hch as (Hch1 & Hch2 & Hch3).
  rewrite (copy_chunk_frames k write (an_addr a + (off1 - an_first a * P)) chunk off1) by
    (lia || (intros i Hi; apply (anchor_shows a off1 chunk); [done|lia|lia|lia])).
  pose proof (copied_frames_app write off1 chunk (len1 - chunk) buf1 m1) as Hs2.
  replace (chunk + (len1 - chunk)) with len1 in Hs2 by lia.
  rewrite Hs2 by (lia || (intros Hw; specialize (Hb2 Hw); lia)). clear Hs2.
  destruct (copied write (frame <$> seqZ off1 chunk) buf1 m1) as [out2 m2].
  destruct (decide (chunk < len1)) as [Hlt|Hge].
  - destruct (Hnext (off1 + chunk)) as [E1 E2]; [lia|lia|].
    rewrite (IH (pre ++ [a])) by (done || lia || (intros Hw; specialize (Hb2 Hw); rewrite length_drop; lia)).
    simpl. by destruct (copied write _ _ m2).
  - replace (len1 - chunk) with 0 by lia. rewrite seqZ_nil by lia.
    assert (Hnil : copy_pages k write file l (off1 + chunk) (drop (Z.to_nat chunk) buf1) 0 m2 = Some ([], m2))
      by (by destruct l).
    rewrite Hnil. simpl. unfold copied. by destruct write.
Qed.
End copy.


(** ** Counting the users

    [uses] are the page ranges of the view ranges counted as users. *)
Definition overlaps (a : horizon_memfile_anchor) (r : Z * Z) : bool := (r.1 <? an_end a) && (an_first a <? r.2).

Definition users_ok (l : list horizon_memfile_anchor) (uses : list (Z * Z)) : Prop :=
  forall a, a ∈ l -> an_users a = Z.of_nat (countb (overlaps a) uses).

(** Every page a counted range uses has an anchor. *)
Definition uses_covered (l : list horizon_memfile_anchor) (uses : list (Z * Z)) : Prop :=
  forall r, r ∈ uses -> r.1 < r.2 /\ forall q, r.1 <= q < r.2 -> anchored l q.

Record mf_state (k : K) (l : list horizon_memfile_anchor) (uses : list (Z * Z)) : Prop := {
  ms_inv : mf_inv k l;
  ms_users : users_ok l uses;
  ms_covered : uses_covered l uses
}.

Lemma use_anchors_shape l first last more : Forall2 same_shape l (use_anchors l first last more).
Proof.
  assert (Hrefl : forall l, Forall2 same_shape l l)
    by (intros l0; apply Forall_Forall2_diag, list.Forall_forall; done).
  induction l as [|a l IH]; simpl; [done|]. destruct (last <=? an_first a); [done|].
  by destruct (an_end a <=? first); constructor.
Qed.

Lemma overlaps_false a r : r.2 <= an_first a \/ an_end a <= r.1 -> overlaps a r = false.
Proof. intros Hr. unfold overlaps. apply andb_false_iff. rewrite !Z.ltb_ge. lia. Qed.

(** The walk changes the users of exactly the anchors the range overlaps. *)
Lemma use_anchors_elem l first last more b :
  StronglySorted before l -> Forall (fun a => 0 < an_count a) l -> first < last ->
  b ∈ use_anchors l first last more ->
  exists a, a ∈ l /\ same_shape a b /\
    an_users b = if overlaps a (first, last) then
                   (if more then u32 (an_users a + 1) else if nonzero (an_users a) then an_users a - 1 else an_users a)
                 else an_users a.
Proof.
  intros Hs Hc Hfl. induction l as [|a l IH]; simpl; [intros Hb; by apply not_elem_of_nil in Hb|].
  apply StronglySorted_cons in Hs as [Ha Hs]. rewrite list.Forall_forall in Ha. inversion_clear Hc as [|? ? Hca Hcl].
  destruct (Z.leb_spec last (an_first a)).
  - intros Hb. exists b. split_and!; [done|done|].
    rewrite overlaps_false; [done|]. simpl. left. apply elem_of_cons in Hb as [->|Hb]; [lia|].
    specialize (Ha b Hb). unfold before, an_end in Ha. lia.
  - destruct (Z.leb_spec (an_end a) first).
    + intros [->|Hb]%elem_of_cons.
      * exists a. split_and!; [set_solver|done|]. rewrite overlaps_false; [done|]. simpl. lia.
      * destruct (IH Hs Hcl Hb) as (c & Hc' & Hrest). exists c. split; [set_solver|done].
    + intros [->|Hb]%elem_of_cons.
      * exists a. split_and!; [set_solver|done|]. simpl. unfold overlaps. simpl.
        rewrite (proj2 (Z.ltb_lt _ _)), (proj2 (Z.ltb_lt _ _)) by lia. done.
      * destruct (IH Hs Hcl Hb) as (c & Hc' & Hrest). exists c. split; [set_solver|done].
Qed.

Lemma same_shape_overlaps a b r : same_shape a b -> overlaps a r = overlaps b r.
Proof. intros (E1 & E2 & _). unfold overlaps, an_end. by rewrite E1, E2. Qed.

Lemma mf_count_pos k l : mf_inv k l -> Forall (fun a => 0 < an_count a) l.
Proof. intros Hi. eapply Forall_impl; [apply Hi|]. simpl. lia. Qed.

Lemma use_more_state k l uses first last :
  mf_state k l uses -> first < last -> Z.of_nat (length uses) < UINT_MAX ->
  (forall q, first <= q < last -> anchored l q) ->
  mf_state k (use_anchors l first last true) ((first, last) :: uses).
Proof.
  intros [Hinv Hu Hcov] Hfl Hlen Hq. pose proof (use_anchors_shape l first last true) as Hsh.
  split; [by eapply same_shape_inv| |].
  - intros b Hb. destruct (use_anchors_elem l first last true b) as (a & Ha & Hsab & ->);
      [apply Hinv|by eapply mf_count_pos|done|done|].
    rewrite countb_cons, <- (same_shape_overlaps a b) by done.
    rewrite <- (countb_ext (overlaps a) (overlaps b)) by (intros; by apply same_shape_overlaps).
    rewrite (Hu a Ha). pose proof (countb_le (overlaps a) uses).
    destruct (overlaps a (first, last)); [|done]. rewrite u32_small by (unfold is_u32, UINT_MAX in *; lia). lia.
  - intros r Hr. apply elem_of_cons in Hr as [->|Hr]; (split; [|intros q Hrq; eapply same_shape_anchored; [done|]]);
      [done|by apply Hq|by apply Hcov|by eapply Hcov].
Qed.

Lemma use_less_state k l uses uses' first last :
  mf_state k l uses -> first < last -> uses ≡ₚ (first, last) :: uses' ->
  mf_state k (use_anchors l first last false) uses'.
Proof.
  intros [Hinv Hu Hcov] Hfl Hperm. pose proof (use_anchors_shape l first last false) as Hsh.
  split; [by eapply same_shape_inv| |].
  - intros b Hb. destruct (use_anchors_elem l first last false b) as (a & Ha & Hsab & ->);
      [apply Hinv|by eapply mf_count_pos|done|done|].
    rewrite <- (countb_ext (overlaps a) (overlaps b)) by (intros; by apply same_shape_overlaps).
    specialize (Hu a Ha). rewrite (countb_perm _ _ _ Hperm), countb_cons in Hu.
    destruct (overlaps a (first, last)); [|lia]. unfold nonzero. destruct (Z.eqb_spec (an_users a) 0); simpl; lia.
  - intros r Hr. destruct (Hcov r) as [Hne Hq]; [rewrite Hperm; set_solver|]. split; [done|].
    intros q Hrq. eapply same_shape_anchored; [done|]. by apply Hq.
Qed.

(** New anchors are of pages no range uses. *)
Lemma grown_state k l k' l' uses : mf_state k l uses -> anchors_grown k l k' l' -> mf_state k' l' uses.
Proof.
  intros [Hinv Hu Hcov] [G1 G2 G3 G4]. split; [done| |].
  - intros a Ha. destruct (G3 a Ha) as [Hin|[-> Hn]]; [auto|].
    enough (countb (overlaps a) uses = 0%nat) as -> by done.
    apply length_zero_iff_nil. destruct (List.filter (overlaps a) uses) as [|r rs] eqn:Hf; [done|exfalso].
    assert (Hr : In r (List.filter (overlaps a) uses)) by (rewrite Hf; by left).
    apply filter_In in Hr as [Hr Ho]. apply list_elem_of_In in Hr. unfold overlaps in Ho. btrue.
    assert (Hac : 0 < an_count a)
      by (pose proof (mf_count_pos _ _ G1) as Hc; rewrite list.Forall_forall in Hc; auto).
    apply (Hn (an_first a `max` r.1)); [unfold has_page, an_end in *; lia|].
    destruct (Hcov r Hr) as [Hne Hrq]. apply Hrq. unfold an_end in *. lia.
  - intros r Hr. destruct (Hcov r Hr) as [Hne Hrq]. split; [done|]. intros q Hq.
    destruct (Hrq q Hq) as (a & Ha & Hqa). exists a. auto.
Qed.

(** Only anchors no range uses are removed. *)
Lemma shrunk_state k l k' l' uses : mf_state k l uses -> anchors_shrunk k l k' l' -> mf_state k' l' uses.
Proof.
  intros [Hinv Hu Hcov] [G1 G2 G3 G4]. split; [done| |].
  - intros a Ha. auto.
  - intros r Hr. destruct (Hcov r Hr) as [Hne Hrq]. split; [done|]. intros q Hq.
    destruct (Hrq q Hq) as (a & Ha & Hqa). exists a. split; [|done].
    apply G3; [done|]. rewrite (Hu a Ha). intros H0.
    assert (Hz : countb (overlaps a) uses = 0%nat) by lia. apply length_zero_iff_nil in Hz.
    assert (Hin : In r (List.filter (overlaps a) uses)).
    { apply filter_In. split; [by apply list_elem_of_In|]. unfold overlaps, has_page in *.
      apply andb_true_iff. rewrite !Z.ltb_lt. lia. }
    by rewrite Hz in Hin.
Qed.

Lemma same_kernel_state k k' l uses : same_kernel k k' -> mf_state k l uses -> mf_state k' l uses.
Proof. intros Hk [H1 H2 H3]. split; [by eapply same_kernel_inv|done|done]. Qed.

Lemma aliased_state k k' l uses dst first page page' map :
  pages_aliased k k' l dst first page page' map -> mf_state k l uses -> mf_state k' l uses.
Proof. intros [H1 _ _ _] [_ H2 H3]. by split. Qed.

(** ** Mapping and unmapping a range *)
Lemma alias_locked_ok file dst first last map k ok k' :
  mf_inv k (mf_anchors file) -> first <= last ->
  view_free k (mf_anchors file) dst ((last - first) * P) ->
  horizon_memfile_alias_locked file dst first last map k = (ok, k') ->
  mf_inv k' (mf_anchors file) /\ (forall v, k_used k' v <-> k_used k v) /\
  (forall v, ~ in_range dst ((last - first) * P) v -> k_at k' v = k_at k v) /\
  (if ok then forall off, first * P <= off < last * P ->
        k_at k' (dst + (off - first * P)) = if map then Some (frame off) else None
   else forall off, first * P <= off < last * P ->
        k_at k' (dst + (off - first * P)) = k_at k (dst + (off - first * P)) \/
        k_at k' (dst + (off - first * P)) = None \/ k_at k' (dst + (off - first * P)) = Some (frame off)).
Proof.
  intros Hinv Hfl Hfree. unfold horizon_memfile_alias_locked, horizon_memfile_alias_range_locked.
  destruct (alias_pages _ _ _ _ _ _ _) as [page k1] eqn:Hr1.
  apply (alias_pages_ok (mf_anchors file)) in Hr1 as [Hp1 Ha1]; [|done|done|lia|done].
  destruct (Z.eqb_spec page last) as [->|Hne].
  - intros [= <- <-]. destruct Ha1 as [A1 A2 A3 A4]. split_and!; try done.
    intros v Hv. apply A3. intros Hin. apply Hv. plia.
  - destruct (alias_pages (mf_anchors file) dst first first page (negb map) k1) as [page2 k2] eqn:Hr2.
    apply (alias_pages_ok (mf_anchors file)) in Hr2 as [Hp2 Ha2]; [|apply Ha1|done|lia|].
    + intros [= <- <-]. destruct Ha1 as [A1 A2 A3 A4], Ha2 as [B1 B2 B3 B4]. split_and!; try done.
      * intros v. by rewrite B4.
      * intros v Hv. rewrite B3, A3; [done|intros Hin; apply Hv; plia|intros Hin; apply Hv; plia].
      * intros off Hoff. destruct (decide (off < page2 * P)) as [Hlt|Hge].
        { rewrite B2 by lia. destruct map; simpl; auto. }
        rewrite B3 by plia. destruct (decide (off < page * P)).
        { rewrite A2 by lia. destruct map; auto. }
        rewrite A3 by plia. auto.
    + intros v Hv. eapply (view_free_alias k k1 _ dst first first page last map); [lia|lia|done|done|plia].
Qed.

(** The file, with the ranges that use it. *)
Record file_ok (k : K) (file : horizon_memfile) (uses : list (Z * Z)) : Prop := {
  fk_data : mf_data file = data;
  fk_size : mf_size file = pages * P;
  fk_state : mf_state k (mf_anchors file) uses
}.

(** The addresses of other view ranges show what they showed. *)
Definition views_kept (k : K) (l : list horizon_memfile_anchor) (k' : K) (l' : list horizon_memfile_anchor)
    (dst size : Z) : Prop :=
  forall v, foreign k l v -> foreign k' l' v /\ (~ in_range dst size v -> k_at k' v = k_at k v).

Lemma range_valid_pages file offset size :
  0 <= offset -> 0 <= size -> mf_size file = pages * P -> horizon_memfile_range_valid file offset size = true ->
  0 <= range_first offset /\ range_first offset < range_last offset size <= pages /\
  range_first offset * P = offset /\ range_last offset size * P = offset + size.
Proof.
  intros Ho Hs Hf Hv. unfold horizon_memfile_range_valid, range_last, range_first in *. rewrite Hf in Hv. btrue. plia.
Qed.

Lemma trim_ok file k uses file' k' :
  file_ok k file uses -> horizon_memfile_trim_locked file k = (file', k') ->
  file_ok k' file' uses /\ file' = with_anchors file (mf_anchors file') /\
  anchors_shrunk k (mf_anchors file) k' (mf_anchors file').
Proof.
  intros [Hd Hsz Hst]. unfold horizon_memfile_trim_locked. rewrite Hd.
  destruct (trim_anchors data (mf_anchors file) k) as [l k1] eqn:Ht. intros [= <- <-].
  apply (trim_anchors_ok _ []) in Ht; [|apply Hst]. simpl in Ht. simpl. split_and!; [|done|done].
  split; [done|done|]. by eapply shrunk_state.
Qed.

Lemma grown_views k l k' l' dst size : anchors_grown k l k' l' -> views_kept k l k' l' dst size.
Proof. intros [_ _ _ Hf] v Hv. destruct (Hf v Hv). done. Qed.

Lemma shrunk_views k l k' l' dst size : anchors_shrunk k l k' l' -> views_kept k l k' l' dst size.
Proof. intros [_ _ _ Hf] v Hv. destruct (Hf v Hv). done. Qed.

Lemma views_kept_trans k1 l1 k2 l2 k3 l3 dst size :
  views_kept k1 l1 k2 l2 dst size -> views_kept k2 l2 k3 l3 dst size -> views_kept k1 l1 k3 l3 dst size.
Proof.
  intros H12 H23 v Hv. destruct (H12 v Hv) as [Hv2 E2]. destruct (H23 v Hv2) as [Hv3 E3]. split; [done|].
  intros Hn. rewrite E3, E2; done.
Qed.

(** A byte of a view range shows the section's byte, or nothing. *)
Definition shows_section (k : K) (dst offset i : Z) : Prop := k_at k (dst + i) = Some (frame (offset + i)).
Definition shows_at_most (k : K) (dst offset i : Z) : Prop := k_at k (dst + i) = None \/ shows_section k dst offset i.

Lemma alias_ok file uses dst offset size map k ok k' :
  file_ok k file uses -> 0 <= offset -> 0 <= size ->
  view_free k (mf_anchors file) dst size ->
  horizon_memfile_alias file dst offset size map k = (ok, k') ->
  file_ok k' file uses /\ views_kept k (mf_anchors file) k' (mf_anchors file) dst size /\
  (ok = true -> forall i, 0 <= i < size -> if map then shows_section k' dst offset i else k_at k' (dst + i) = None) /\
  (forall i, 0 <= i < size -> shows_at_most k dst offset i -> shows_at_most k' dst offset i) /\
  (horizon_memfile_range_valid file offset size = false -> ok = false).
Proof.
  intros [Hd Hsz Hst] Ho Hs Hfree. unfold horizon_memfile_alias.
  destruct (horizon_memfile_range_valid file offset size) eqn:Hv; simpl.
  2:{ intros [= <- <-]. split_and!; try done. }
  destruct (range_valid_pages file offset size Ho Hs Hsz Hv) as (V1 & V2 & V3 & V4).
  set (first := range_first offset) in *. set (last := range_last offset size) in *. clearbody first last.
  replace size with ((last - first) * P) in * by lia.
  intros Ha. apply alias_locked_ok in Ha as (A1 & A2 & A3 & A4); [|apply Hst|lia|done].
  assert (Hst' : mf_state k' (mf_anchors file) uses) by (destruct Hst; by split).
  split_and!; [by split| | | |done].
  - intros v (F1 & F2 & F3). split; [split_and!; [by apply A2|done|done]|]. apply A3.
  - intros -> i Hi. specialize (A4 (offset + i)). rewrite V3 in A4.
    replace (dst + (offset + i - offset)) with (dst + i) in A4 by lia. unfold shows_section.
    destruct map; apply A4; lia.
  - intros i Hi Hm. unfold shows_at_most, shows_section in *.
    destruct ok; specialize (A4 (offset + i)); rewrite V3 in A4;
      replace (dst + (offset + i - offset)) with (dst + i) in A4 by lia.
    + rewrite A4 by lia. destruct map; auto.
    + destruct A4 as [E|[E|E]]; [lia|rewrite E; auto..].
Qed.

Lemma use_ok file uses offset size k more file' k' :
  file_ok k file uses -> 0 <= offset -> 0 <= size ->
  horizon_memfile_range_valid file offset size = true ->
  horizon_memfile_use file offset size more k = (file', k') ->
  let r := (range_first offset, range_last offset size) in
  (more = true -> Z.of_nat (length uses) < UINT_MAX /\ forall q, r.1 <= q < r.2 -> anchored (mf_anchors file) q) ->
  forall uses', (if more then uses' = r :: uses else uses ≡ₚ r :: uses') ->
  file_ok k' file' uses' /\ file' = with_anchors file (mf_anchors file') /\
  forall dst n, views_kept k (mf_anchors file) k' (mf_anchors file') dst n.
Proof.
  intros [Hd Hsz Hst] Ho Hs Hv. unfold horizon_memfile_use. rewrite Hv. simpl.
  destruct (range_valid_pages file offset size Ho Hs Hsz Hv) as (V1 & V2 & V3 & V4).
  set (first := range_first offset) in *. set (last := range_last offset size) in *. clearbody first last.
  assert (Hshape : forall more dst n, views_kept k (mf_anchors file) k (use_anchors (mf_anchors file) first last more) dst n).
  { intros m dst n v Hfv. split; [|done]. eapply same_shape_foreign; [apply use_anchors_shape|done]. }
  destruct more.
  - intros [= <- <-] Hmore uses' ->. destruct (Hmore eq_refl) as [Hlen Hq]. simpl in Hq.
    split_and!; [split; [done|done|apply use_more_state; [done|lia|done|done]]|done|]. intros dst n. apply Hshape.
  - intros Ht _ uses' Hp.
    assert (Hf1 : file_ok k (horizon_memfile_use_locked file first last false) uses').
    { split; [done|done|]. simpl. apply (use_less_state _ _ uses); [done|lia|exact Hp]. }
    destruct (trim_ok _ _ _ _ _ Hf1 Ht) as (T1 & T2 & T3). split_and!; [done|by rewrite T2|].
    intros dst n. eapply views_kept_trans; [apply (Hshape false)|exact (shrunk_views _ _ _ _ _ _ T3)].
Qed.

Lemma map_ok mem file uses dst offset size k ok file' k' :
  file_ok k file uses -> 0 <= offset -> 0 <= size -> Z.of_nat (length uses) < UINT_MAX ->
  view_free k (mf_anchors file) dst size ->
  horizon_memfile_map mem file dst offset size k = (ok, file', k') ->
  let r := (range_first offset, range_last offset size) in
  file_ok k' file' (if ok then r :: uses else uses) /\ file' = with_anchors file (mf_anchors file') /\
  views_kept k (mf_anchors file) k' (mf_anchors file') dst size /\
  (ok = true -> horizon_memfile_range_valid file offset size = true /\
     forall i, 0 <= i < size -> shows_section k' dst offset i) /\
  (forall i, 0 <= i < size -> shows_at_most k dst offset i -> shows_at_most k' dst offset i).
Proof.
  intros [Hd Hsz Hst] Ho Hs Hlen Hfree. unfold horizon_memfile_map.
  destruct (horizon_memfile_range_valid file offset size) eqn:Hv; simpl.
  2:{ intros [= <- <- <-]. split_and!; try done. by destruct file. }
  destruct (range_valid_pages file offset size Ho Hs Hsz Hv) as (V1 & V2 & V3 & V4).
  set (first := range_first offset) in *. set (last := range_last offset size) in *. clearbody first last.
  unfold horizon_memfile_anchor_locked. rewrite Hd.
  destruct (anchor_pages _ _ _ _ _ _) as [[ok1 l1] k1] eqn:Han.
  apply (anchor_pages_ok mem last _ [] first) in Han as [Hg Hcov]; [|apply Hst|done|lia|lia]. simpl in Hg, Hcov.
  assert (Hok1 : file_ok k1 (with_anchors file l1) uses) by (split; [done|done|by eapply grown_state]).
  assert (Hsame1 : forall i, 0 <= i < size -> k_at k1 (dst + i) = k_at k (dst + i)).
  { intros i Hi. apply (ag_foreign _ _ _ _ Hg). apply Hfree. plia. }
  assert (Hfree1 : view_free k1 l1 dst size).
  { intros v Hin. by apply (ag_foreign _ _ _ _ Hg), Hfree. }
  assert (Htrim : forall k2 f k3, file_ok k2 (with_anchors file l1) uses ->
    horizon_memfile_trim_locked (with_anchors file l1) k2 = (f, k3) ->
    file_ok k3 f uses /\ f = with_anchors file (mf_anchors f) /\ anchors_shrunk k2 l1 k3 (mf_anchors f)).
  { intros k2 f k3 Hf Ht. apply (trim_ok _ _ uses) in Ht as (T1 & T2 & T3); [|done]. split_and!; [done|by rewrite T2|done]. }
  destruct ok1.
  2:{ destruct (horizon_memfile_trim_locked _ _) as [f k2] eqn:Ht. intros [= <- <- <-].
      apply Htrim in Ht as (T1 & T2 & T3); [|done]. split_and!; [done|done| |done|].
      - eapply views_kept_trans; [by apply grown_views|by apply shrunk_views].
      - intros i Hi. unfold shows_at_most, shows_section. destruct (as_foreign _ _ _ _ T3 (dst + i)) as [_ ->];
          [apply Hfree1; plia|]. by rewrite Hsame1. }
  assert (Hfree2 : view_free k1 l1 dst ((last - first) * P)) by (replace ((last - first) * P) with size by lia; done).
  destruct (horizon_memfile_alias_locked _ _ _ _ _ _) as [ok2 k2] eqn:Hal.
  apply alias_locked_ok in Hal as (A1 & A2 & A3 & A4); [|apply Hok1|lia|done]. simpl in A1.
  assert (Hok2 : file_ok k2 (with_anchors file l1) uses) by (destruct Hok1 as [O1 O2 [O3 O4 O5]]; by split; [..|split]).
  assert (Hkept2 : views_kept k1 l1 k2 l1 dst size).
  { intros v (F1 & F2 & F3). split; [split_and!; [by apply A2|done|done]|]. intros Hn. apply A3. plia. }
  assert (Hmost : forall i, 0 <= i < size -> shows_at_most k dst offset i -> shows_at_most k2 dst offset i).
  { intros i Hi Hm. unfold shows_at_most, shows_section in *.
    destruct ok2; specialize (A4 (offset + i)); rewrite V3 in A4;
      replace (dst + (offset + i - offset)) with (dst + i) in A4 by lia; [right; apply A4; lia|]. destruct A4 as [E|[E|E]]; [lia|rewrite E, Hsame1 by lia; done|auto..]. }
  destruct ok2.
  - intros [= <- <- <-]. simpl. split_and!; [|done| |split; [done|]|done].
    + split; [done|done|]. simpl. apply use_more_state; [apply Hok2|lia|done|by apply Hcov].
    + eapply views_kept_trans; [by apply grown_views|]. intros v Hfv. destruct (Hkept2 v Hfv) as [H2 E2].
      split; [|done]. eapply same_shape_foreign; [apply use_anchors_shape|done].
    + intros i Hi. specialize (A4 (offset + i)). rewrite V3 in A4.
      replace (dst + (offset + i - offset)) with (dst + i) in A4 by lia. apply A4. lia.
  - destruct (horizon_memfile_trim_locked _ _) as [f k3] eqn:Ht. intros [= <- <- <-].
    apply Htrim in Ht as (T1 & T2 & T3); [|done]. split_and!; [done|done| |done|].
    + eapply views_kept_trans; [by apply grown_views|]. eapply views_kept_trans; [done|by apply shrunk_views].
    + intros i Hi Hm. unfold shows_at_most, shows_section. destruct (as_foreign _ _ _ _ T3 (dst + i)) as [_ ->].
      * apply Hkept2, Hfree1. plia.
      * by apply Hmost.
Qed.
End invariant.

(** ** The section as an array of bytes *)
Section contents.
Context {K : Type} `{MemfileKernel K} (data pages : Z) (frame : Z -> Z).

(** The bytes of the section in memory. *)
Definition contents (m : gmap Z Z) : list Z := (fun off => peek m (frame off)) <$> seqZ 0 (pages * P).

(** Different offsets are different physical bytes. *)
Definition frames_differ : Prop :=
  forall a b, 0 <= a < pages * P -> 0 <= b < pages * P -> frame a = frame b -> a = b.

Lemma peek_poke_other ps : forall bytes m p, p ∉ ps -> peek (poke m ps bytes) p = peek m p.
Proof.
  induction ps as [|q ps IH]; intros [|b bytes] m p Hp; simpl; try done.
  rewrite IH by set_solver. unfold peek. rewrite lookup_insert_ne; [done|set_solver].
Qed.

Lemma peek_poke ps : forall bytes m,
  NoDup ps -> length ps = length bytes -> peek (poke m ps bytes) <$> ps = bytes.
Proof.
  induction ps as [|q ps IH]; intros [|b bytes] m Hn Hl; simplify_eq/=; [done|].
  apply NoDup_cons in Hn as [Hq Hn]. f_equal; [|by apply IH].
  rewrite peek_poke_other by done. unfold peek. by rewrite lookup_insert_eq.
Qed.

Lemma contents_split m off n :
  0 <= off -> 0 <= n -> off + n <= pages * P ->
  contents m = (peek m <$> (frame <$> seqZ 0 off)) ++ (peek m <$> (frame <$> seqZ off n)) ++
               (peek m <$> (frame <$> seqZ (off + n) (pages * P - off - n))).
Proof.
  intros H1 H2 H3. unfold contents. rewrite <- !list_fmap_compose, <- !fmap_app.
  change (fun o => peek m (frame o)) with (peek m ∘ frame). f_equal.
  rewrite <- seqZ_app by lia. replace off with (0 + off) at 2 by lia. rewrite <- seqZ_app by lia. f_equal. lia.
Qed.

Lemma contents_read m off n :
  0 <= off -> 0 <= n -> off + n <= pages * P ->
  peek m <$> (frame <$> seqZ off n) = take (Z.to_nat n) (drop (Z.to_nat off) (contents m)).
Proof.
  intros H1 H2 H3. rewrite (contents_split m off n) by done.
  rewrite drop_app_length' by (by rewrite !length_fmap, length_seqZ).
  by rewrite take_app_length' by (by rewrite !length_fmap, length_seqZ).
Qed.

Lemma contents_write m off n bytes :
  frames_differ -> 0 <= off -> off + n <= pages * P -> Z.of_nat (length bytes) = n ->
  contents (poke m (frame <$> seqZ off n) bytes) = splice (contents m) (Z.to_nat off) bytes.
Proof.
  intros Hf H1 H2 Hl. assert (Hn : 0 <= n) by lia.
  assert (Hother : forall o c, 0 <= o -> 0 <= c -> o + c <= pages * P -> o + c <= off \/ off + n <= o ->
    peek (poke m (frame <$> seqZ off n) bytes) <$> (frame <$> seqZ o c) = peek m <$> (frame <$> seqZ o c)).
  { intros o c Ho Hc Hoc Hd. apply list_fmap_ext. intros i p Hp. apply peek_poke_other.
    apply list_elem_of_lookup_2, list_elem_of_fmap in Hp as (x & -> & Hx%elem_of_seqZ).
    intros (y & He & Hy%elem_of_seqZ)%list_elem_of_fmap. apply Hf in He; lia. }
  unfold splice. rewrite (contents_split (poke _ _ _) off n), (contents_split m off n) by lia.
  rewrite take_app_length' by (by rewrite !length_fmap, length_seqZ). f_equal; [apply Hother; lia|]. f_equal.
  - apply peek_poke; [|rewrite length_fmap, length_seqZ; lia]. apply NoDup_fmap_2_strong; [|apply NoDup_seqZ].
    intros x y Hx%elem_of_seqZ Hy%elem_of_seqZ. apply Hf; lia.
  - rewrite (assoc_L (++)), drop_app_length'.
    + apply Hother; lia.
    + rewrite length_app, !length_fmap, !length_seqZ. lia.
Qed.

(** Reading and writing, in terms of the array. *)
Lemma memfile_io k file uses m offset len bytes :
  file_ok data pages frame k file uses -> frames_differ -> 0 <= pages -> 0 <= len ->
  let size := pages * HORIZON_MEMFILE_PAGE_SIZE in
  horizon_memfile_pread_locked k file len offset m =
    Some (if offset <? 0 then (- EINVAL, [])
          else if size <=? offset then (0, [])
          else (Z.min len (size - offset),
                take (Z.to_nat (Z.min len (size - offset))) (drop (Z.to_nat offset) (contents m)))) /\
  exists ret m', horizon_memfile_pwrite_locked k file bytes offset m = Some (ret, m') /\
    (forall p, (forall off, 0 <= off < size -> frame off <> p) -> peek m' p = peek m p) /\
    if (offset <? 0) then ret = - EINVAL /\ m' = m
    else if (Z.of_nat (length bytes) =? 0) then ret = 0 /\ m' = m
    else if (size <=? offset) then ret = - ENOSPC /\ m' = m
    else ret = Z.min (Z.of_nat (length bytes)) (size - offset) /\
         contents m' = splice (contents m) (Z.to_nat offset) (take (Z.to_nat ret) bytes).
Proof.
  intros [Hd Hsz Hst] Hf Hp Hlen size. split.
  - unfold horizon_memfile_pread_locked. rewrite Hsz. fold size. destruct (Z.ltb_spec offset 0); [done|].
    destruct (Z.leb_spec size offset); [done|].
    replace (if len <? size - offset then len else size - offset) with (Z.min len (size - offset))
      by (destruct (Z.ltb_spec len (size - offset)); lia).
    set (n := Z.min len (size - offset)). unfold horizon_memfile_copy_locked.
    rewrite (copy_pages_ok data pages frame k (mf_anchors file) file (ms_inv _ _ _ _ _ _ Hst) Hd Hsz false _ [])
      by (done || lia). simpl. by rewrite contents_read by lia.
  - unfold horizon_memfile_pwrite_locked. rewrite Hsz. fold size. destruct (Z.ltb_spec offset 0); [by exists (- EINVAL), m|].
    destruct (Z.eqb_spec (Z.of_nat (length bytes)) 0); [by exists 0, m|].
    destruct (Z.leb_spec size offset); [by exists (- ENOSPC), m|].
    replace (if Z.of_nat (length bytes) <? size - offset then Z.of_nat (length bytes) else size - offset)
      with (Z.min (Z.of_nat (length bytes)) (size - offset))
      by (destruct (Z.ltb_spec (Z.of_nat (length bytes)) (size - offset)); lia).
    set (cnt := Z.min (Z.of_nat (length bytes)) (size - offset)). unfold horizon_memfile_copy_locked.
    rewrite (copy_pages_ok data pages frame k (mf_anchors file) file (ms_inv _ _ _ _ _ _ Hst) Hd Hsz true _ [])
      by (done || lia). simpl. rewrite length_fmap, length_seqZ.
    eexists cnt, _. split; [done|]. split.
    + intros p Hnp. apply peek_poke_other. intros (o & -> & Ho%elem_of_seqZ)%list_elem_of_fmap.
      apply (Hnp o); [lia|done].
    + split; [done|]. apply contents_write; [done|lia|lia|]. rewrite length_take. lia.
Qed.
(** C34: The section is an array of bytes that keeps its size, whichever pages
    are anchored: reads and writes return without a fault; a read gives the
    bytes from its offset, cut short at the end, 0 past the end and -EINVAL
    before the start; a write stores its bytes there and changes nothing else
    of memory, is cut short at the end, and fails with -ENOSPC past it. *)
Theorem memfile_io_is_array k file uses m offset len bytes :
  file_ok data pages frame k file uses -> frames_differ -> 0 <= pages -> 0 <= len ->
  let size := pages * HORIZON_MEMFILE_PAGE_SIZE in
  horizon_memfile_pread_locked k file len offset m =
    Some (if offset <? 0 then (- EINVAL, [])
          else if size <=? offset then (0, [])
          else (Z.min len (size - offset),
                take (Z.to_nat (Z.min len (size - offset))) (drop (Z.to_nat offset) (contents m)))) /\
  exists ret m', horizon_memfile_pwrite_locked k file bytes offset m = Some (ret, m') /\
    (forall p, (forall off, 0 <= off < size -> frame off <> p) -> peek m' p = peek m p) /\
    if (offset <? 0) then ret = - EINVAL /\ m' = m
    else if (Z.of_nat (length bytes) =? 0) then ret = 0 /\ m' = m
    else if (size <=? offset) then ret = - ENOSPC /\ m' = m
    else ret = Z.min (Z.of_nat (length bytes)) (size - offset) /\
         contents m' = splice (contents m) (Z.to_nat offset) (take (Z.to_nat ret) bytes).
Proof. apply memfile_io. Qed.

(** C35: A view range that was mapped shows the section: a byte the program
    stores through it is what a read of the section at that offset gives, and a
    byte written to the section there is what the view shows. Its pages are
    counted as used. Whether mapping succeeds or fails, the other views show
    what they showed, and when it fails nothing is counted. *)
Theorem memfile_map_shows mem k file uses dst offset size ok file' k' m :
  file_ok data pages frame k file uses -> frames_differ -> 0 <= pages ->
  0 <= offset -> 0 <= size -> Z.of_nat (length uses) < UINT_MAX ->
  view_free data pages k (mf_anchors file) dst size ->
  horizon_memfile_map mem file dst offset size k = (ok, file', k') ->
  file_ok data pages frame k' file' (if ok then (range_first offset, range_last offset size) :: uses else uses) /\
  (forall v, foreign data pages k (mf_anchors file) v -> ~ in_range dst size v -> k_at k' v = k_at k v) /\
  (ok = true -> forall i b, 0 <= i < size -> exists p, k_at k' (dst + i) = Some p /\
     horizon_memfile_pread_locked k' file' 1 (offset + i) (<[p := b]> m) = Some (1, [b]) /\
     exists m', horizon_memfile_pwrite_locked k' file' [b] (offset + i) m = Some (1, m') /\ peek m' p = b).
Proof.
  intros Hfile Hf Hp Ho Hs Hlen Hfree Hm.
  destruct (map_ok data pages frame mem file uses dst offset size k ok file' k' Hfile Ho Hs Hlen Hfree Hm)
    as (Hok & _ & Hkept & Hshow & _).
  split; [done|]. split; [intros v Hv; by apply (Hkept v Hv)|]. intros -> i b Hi.
  destruct (Hshow eq_refl) as [Hv Hsh]. exists (frame (offset + i)). split; [by apply Hsh|].
  assert (Hin : 0 <= offset + i < pages * P).
  { destruct (range_valid_pages pages frame file offset size Ho Hs (fk_size _ _ _ _ _ _ Hfile) Hv) as (_ & V2 & V3 & V4). plia. }
  destruct (memfile_io k' file' _ (<[frame (offset + i) := b]> m) (offset + i) 1 [b] Hok Hf Hp ltac:(lia)) as [Hr _].
  destruct (memfile_io k' file' _ m (offset + i) 1 [b] Hok Hf Hp ltac:(lia)) as (_ & ret & m' & Hw & _ & Hw').
  rewrite (proj2 (Z.ltb_ge (offset + i) 0)), (proj2 (Z.leb_gt (pages * P) (offset + i))) in Hr, Hw' by lia.
  simpl in Hw'. rewrite Z.min_l in Hr, Hw' by lia. destruct Hw' as [-> Hc]. split.
  - rewrite Hr. do 2 f_equal. rewrite <- contents_read by lia. rewrite (seqZ_cons _ 1), seqZ_nil by lia. simpl.
    unfold peek. by rewrite lookup_insert_eq.
  - exists m'. split; [done|].
    assert (Hpk : peek m' <$> (frame <$> seqZ (offset + i) 1) = [b]).
    { rewrite contents_read, Hc by lia. unfold splice. rewrite drop_app_length'.
      - done.
      - rewrite length_take. unfold contents. rewrite length_fmap, length_seqZ. lia. }
    rewrite (seqZ_cons _ 1), seqZ_nil in Hpk by lia. simpl in Hpk. congruence.
Qed.
End contents.

(** ** A kernel

    A concrete kernel that behaves as the laws say: addresses below [ck_top]
    are in use unless they were given back; anchors go to the top. It refuses
    nothing. *)
Record concrete_kernel := mk_concrete { ck_at : Z -> option Z; ck_top : Z; ck_gone : Z -> Prop }.

Definition inb (start size v : Z) : bool := (start <=? v) && (v <? start + size).
Lemma inb_spec start size v : reflect (in_range start size v) (inb start size v).
Proof. apply iff_reflect. unfold inb, in_range. rewrite andb_true_iff, Z.leb_le, Z.ltb_lt. done. Qed.

#[export, refine] Instance concrete_memfile_kernel : MemfileKernel concrete_kernel := {
  k_at := ck_at;
  k_used k v := v < ck_top k /\ ~ ck_gone k v;
  k_anchor k src size :=
    (Some (ck_top k, 0),
     mk_concrete (fun v => if inb (ck_top k) size v then ck_at k (src + (v - ck_top k))
                           else if inb src size v then None else ck_at k v)
       (ck_top k + Z.max 0 size) (fun v => ck_gone k v /\ v < ck_top k));
  k_unanchor k addr src size token :=
    (true, mk_concrete (fun v => if inb src size v then ck_at k (addr + (v - src))
                                 else if inb addr size v then None else ck_at k v)
             (ck_top k) (fun v => ck_gone k v \/ in_range addr size v));
  k_alias k dst src size :=
    (true, mk_concrete (fun v => if inb dst size v then ck_at k (src + (v - dst)) else ck_at k v) (ck_top k) (ck_gone k));
  k_unalias k dst src size :=
    (true, mk_concrete (fun v => if inb dst size v then None else ck_at k v) (ck_top k) (ck_gone k))
}.
Proof.
  - intros k src size addr token k' [= <- <- <-]. simpl. split_and!.
    + unfold in_range. lia.
    + intros i Hi. destruct (inb_spec (ck_top k) size (ck_top k + i)); [f_equal; lia|unfold in_range in *; lia].
    + intros v H1 H2. destruct (inb_spec (ck_top k) size v); [done|]. by destruct (inb_spec src size v).
    + intros v. unfold in_range. destruct (decide (v < ck_top k)); intuition lia.
  - done.
  - intros k addr src size token k' [= <-]. simpl. split_and!.
    + intros i Hi. destruct (inb_spec src size (src + i)); [f_equal; lia|unfold in_range in *; lia].
    + intros v H1 H2. destruct (inb_spec src size v); [done|]. by destruct (inb_spec addr size v).
    + intros v. tauto.
  - done.
  - intros k dst src size k' [= <-]. simpl. split_and!; [|intros v H1; by destruct (inb_spec dst size v)|done].
    intros i Hi. destruct (inb_spec dst size (dst + i)); [f_equal; lia|unfold in_range in *; lia].
  - done.
  - intros k dst src size k' [= <-]. simpl.
    split_and!; [intros v H1; by destruct (inb_spec dst size v)|intros v H1; by destruct (inb_spec dst size v)|done].
  - done.
Defined.

(** Two pages at address 0x10000, seen as their own physical bytes. *)
Definition demo_frame (off : Z) : Z := 65536 + off.
Definition demo_kernel : concrete_kernel :=
  mk_concrete (fun v => if inb 65536 8192 v then Some v else None) 262144 (fun _ => False).
Definition demo_file : horizon_memfile := mk_memfile 65536 8192 0 1 [] None.

Lemma demo_file_ok : file_ok 65536 2 demo_frame demo_kernel demo_file [].
Proof.
  split; [done|done|]. split.
  - split; simpl; try (intros a ? Ha; by apply not_elem_of_nil in Ha); [constructor|by apply Forall_nil| | |].
    + intros off Ho _. unfold demo_frame. destruct (inb_spec 65536 8192 (65536 + off)); [done|].
      unfold in_range, HORIZON_MEMFILE_PAGE_SIZE in *. lia.
    + intros v Hv. unfold data_at, in_range, HORIZON_MEMFILE_PAGE_SIZE in Hv. split; [lia|tauto].
    + intros a b v Ha. by apply not_elem_of_nil in Ha.
  - intros a Ha. by apply not_elem_of_nil in Ha.
  - intros r Hr. by apply not_elem_of_nil in Hr.
Qed.

Lemma demo_frames : frames_differ 2 demo_frame.
Proof. intros a b _ _. unfold demo_frame. lia. Qed.

Lemma memfile_io_is_array_witness :
  exists m', horizon_memfile_pwrite_locked demo_kernel demo_file [7; 8; 9] 8190 ∅ = Some (2, m').
Proof.
  destruct (memfile_io_is_array 65536 2 demo_frame demo_kernel demo_file [] ∅ 8190 4 [7; 8; 9]
    demo_file_ok demo_frames ltac:(lia) ltac:(lia)) as (_ & ret & m' & E & _ & Hret & _).
  exists m'. rewrite E, Hret. done.
Defined.

Lemma demo_view_free : view_free 65536 2 demo_kernel (mf_anchors demo_file) 131072 4096.
Proof.
  intros v Hv. unfold in_range in Hv. split_and!; [simpl; split; [lia|tauto]| |].
  - unfold data_at, in_range, HORIZON_MEMFILE_PAGE_SIZE. lia.
  - intros a Ha. by apply not_elem_of_nil in Ha.
Qed.

Lemma memfile_map_shows_witness :
  exists p, k_at (snd (horizon_memfile_map (fun _ => true) demo_file 131072 4096 4096 demo_kernel)) (131072 + 5) = Some p.
Proof.
  destruct (horizon_memfile_map (fun _ => true) demo_file 131072 4096 4096 demo_kernel) as [[ok file'] k'] eqn:Hm.
  assert (Hok : ok = true).
  { apply (f_equal (fun x => fst (fst x))) in Hm. simpl in Hm. rewrite <- Hm. by vm_compute. }
  destruct (memfile_map_shows 65536 2 demo_frame (fun _ => true) demo_kernel demo_file [] 131072 4096 4096 ok file' k' ∅
    demo_file_ok demo_frames ltac:(lia) ltac:(lia) ltac:(lia) ltac:(done) demo_view_free Hm) as (_ & _ & H).
  destruct (H Hok 5 1 ltac:(lia)) as (p & Hp & _). by exists p.
Defined.

(** ** Committed pages *)
Lemma committed_loop_spec n : forall bits pos stop c,
  stop - pos <= Z.of_nat n * P -> pos mod P = 0 -> stop mod P = 0 -> pos <= stop ->
  let r := committed_loop n bits pos stop c in
  pos <= r <= stop /\ r mod P = 0 /\
  (forall q, pos <= q < r -> default false (bits !! Z.to_nat (q / P)) = c) /\
  (r = stop \/ default false (bits !! Z.to_nat (r / P)) <> c).
Proof.
  induction n as [|n IH]; intros bits pos stop c Hn H1 H2 H3; simpl.
  { assert (pos = stop) by lia. split_and!; [lia..|done|intros; lia|by left]. }
  destruct (Z.ltb_spec pos stop) as [Hlt|]; simpl; [|split_and!; [lia..|done|intros; lia|left; lia]].
  destruct (eqb (default false (bits !! Z.to_nat (pos / P))) c) eqn:Hb.
  - apply eqb_prop in Hb. assert (pos + P <= stop) by plia.
    destruct (IH bits (pos + P) stop c) as (A & B & C & D); [plia|plia|done|lia|].
    split_and!; [plia|plia|done| |done]. intros q Hq. destruct (decide (q < pos + P)); [|apply C; lia].
    replace (q / P) with (pos / P) by plia. done.
  - split_and!; [lia|lia|done|intros; lia|]. right. by apply eqb_false_iff.
Qed.

Lemma commit_loop_spec n : forall bits pos stop,
  stop - pos <= Z.of_nat n * P -> pos mod P = 0 -> stop mod P = 0 -> 0 <= pos ->
  stop <= Z.of_nat (length bits) * P ->
  length (commit_loop n bits pos stop) = length bits /\
  forall q, 0 <= q < Z.of_nat (length bits) * P ->
    default false (commit_loop n bits pos stop !! Z.to_nat (q / P)) =
    (pos <=? q) && (q <? stop) || default false (bits !! Z.to_nat (q / P)).
Proof.
  induction n as [|n IH]; intros bits pos stop Hn H1 H2 H3 H4; simpl.
  { split; [done|]. intros q Hq. replace ((pos <=? q) && (q <? stop)) with false; [done|].
    symmetry. apply andb_false_iff. rewrite Z.leb_gt, Z.ltb_ge. lia. }
  destruct (Z.ltb_spec pos stop).
  - destruct (IH (<[Z.to_nat (pos / P):=true]> bits) (pos + P) stop) as [L E];
      [plia|plia|done|plia|by rewrite length_insert|]. rewrite length_insert in L, E. split; [done|].
    intros q Hq. rewrite E by done. destruct (decide (q / P = pos / P)) as [Heq|Hne].
    + rewrite Heq, list_lookup_insert_eq by plia. simpl. rewrite orb_true_r.
      rewrite (proj2 (Z.leb_le pos q)), (proj2 (Z.ltb_lt q stop)) by plia. done.
    + rewrite list_lookup_insert_ne by plia. f_equal.
      destruct (Z.leb_spec pos q), (Z.leb_spec (pos + P) q); simpl; try done; plia.
  - split; [done|]. intros q Hq. replace ((pos <=? q) && (q <? stop)) with false; [done|].
    symmetry. apply andb_false_iff. rewrite Z.leb_gt, Z.ltb_ge. lia.
Qed.

(** For a section that commits page by page and a view of whole pages of
    it, a query gives the longest run of pages from the offset that are all
    committed or all not, and which; and a request to commit a range, given
    whole pages inside the view, makes exactly that range committed, while any
    other request is refused and changes nothing. The loops end. *)
Theorem memfile_committed_exact file bits start view_size offset size :
  mf_committed file = Some bits ->
  0 <= start -> start mod HORIZON_MEMFILE_PAGE_SIZE = 0 -> view_size mod HORIZON_MEMFILE_PAGE_SIZE = 0 ->
  start + view_size <= Z.of_nat (length bits) * HORIZON_MEMFILE_PAGE_SIZE -> is_u64 view_size ->
  is_u64 offset -> is_u64 size ->
  let bit f p := default false (default [] (mf_committed f) !! Z.to_nat (p / HORIZON_MEMFILE_PAGE_SIZE)) in
  (if (offset mod HORIZON_MEMFILE_PAGE_SIZE =? 0) && (offset <? view_size) then
     exists n c, horizon_memfile_committed_range file start view_size offset = (0, n, c) /\
       0 < n <= view_size - offset /\
       (forall p, start + offset <= p < start + offset + n -> bit file p = c) /\
       (n = view_size - offset \/ bit file (start + offset + n) <> c)
   else fst (fst (horizon_memfile_committed_range file start view_size offset)) = HORIZON_STATUS_INVALID_PARAMETER) /\
  let '(status, file') := horizon_memfile_add_committed file start view_size offset size in
  if (offset mod HORIZON_MEMFILE_PAGE_SIZE =? 0) && (size mod HORIZON_MEMFILE_PAGE_SIZE =? 0) && (0 <? size) &&
     (offset + size <=? view_size)
  then status = 0 /\ (forall p, 0 <= p < Z.of_nat (length bits) * HORIZON_MEMFILE_PAGE_SIZE ->
         bit file' p = (start + offset <=? p) && (p <? start + offset + size) || bit file p)
  else status = HORIZON_STATUS_INVALID_PARAMETER /\ file' = file.
Proof.
  intros Hbits Hs Hsp Hvp Hlen Hv Ho Hsz bit. unfold is_u64 in *. split.
  - unfold horizon_memfile_committed_range. rewrite Hbits.
    destruct (Z.eqb_spec (offset mod P) 0) as [Hop|]; simpl; [|done].
    destruct (Z.ltb_spec offset view_size) as [Hlt|Hge].
    2:{ by rewrite (proj2 (Z.leb_le _ _) Hge). }
    rewrite (proj2 (Z.leb_gt _ _) Hlt).
    set (c := default false (bits !! Z.to_nat ((start + offset) / P))).
    destruct (committed_loop_spec (walk_fuel (start + offset) (start + view_size)) bits (start + offset + P)
      (start + view_size) c) as (A & B & C & D); [unfold walk_fuel; plia|plia|plia|plia|].
    set (r := committed_loop _ _ _ _ _) in *.
    replace (if r <? start + view_size then r else start + view_size) with r
      by (destruct (Z.ltb_spec r (start + view_size)); lia).
    exists (r - (start + offset)), c. split; [done|]. split; [plia|]. unfold bit. rewrite Hbits. simpl. split.
    + intros p Hp. destruct (decide (p < start + offset + P)); [|apply C; lia].
      unfold c. do 3 f_equal. plia.
    + destruct D as [D|D]; [left; lia|right]. by replace (start + offset + (r - (start + offset))) with r by lia.
  - unfold horizon_memfile_add_committed. rewrite Hbits.
    destruct ((offset mod P =? 0) && (size mod P =? 0) && (0 <? size) && (offset + size <=? view_size)) eqn:Hc.
    + btrue. rewrite u64_small by (unfold is_u64; lia).
      replace (negb (offset mod P =? 0) || negb ((offset + size) mod P =? 0) || (view_size <=? offset) ||
               (view_size <? offset + size) || (offset + size <=? offset)) with false.
      2:{ symmetry. rewrite !orb_false_iff, !negb_false_iff, !Z.eqb_eq, !Z.leb_gt, Z.ltb_ge. plia. }
      split; [done|]. intros p Hp. unfold bit. rewrite Hbits. simpl.
      destruct (commit_loop_spec (walk_fuel (start + offset) (start + (offset + size))) bits (start + offset)
        (start + (offset + size))) as [_ E]; [unfold walk_fuel; plia|plia|plia|lia|lia|].
      rewrite E by done. by rewrite Z.add_assoc.
    + case_if; [done|]. exfalso. btrue. apply not_true_iff_false in Hc. apply Hc. clear Hc.
      rewrite !andb_true_iff, !Z.eqb_eq, Z.ltb_lt, Z.leb_le.
      assert (Hu : u64 (offset + size) = offset + size).
      { apply u64_small. unfold is_u64. destruct (decide (offset + size < 18446744073709551616)); [lia|exfalso].
        assert (u64 (offset + size) = offset + size - 18446744073709551616); [|lia].
        unfold u64. symmetry. apply (Z.mod_unique _ _ 1); lia. }
      rewrite Hu in *. plia.
Qed.

Definition demo_committed : horizon_memfile := mk_memfile 0 16384 0 1 [] (Some [false; true; true; false]).

Lemma memfile_committed_exact_witness :
  exists n c, horizon_memfile_committed_range demo_committed 0 16384 4096 = (0, n, c) /\ 0 < n <= 12288.
Proof.
  destruct (memfile_committed_exact demo_committed [false; true; true; false] 0 16384 4096 4096
    eq_refl ltac:(lia) eq_refl eq_refl ltac:(done) ltac:(done) ltac:(done) ltac:(done))
    as [(n & c & E & Hn & _) _].
  exists n, c. split; [exact E|exact Hn].
Defined.
