(* ===== verification/SectionViews.v ===== *)
(** * Views of sections that have no file (dlls/ntdll/unix/horizon.c)

    The ranges of the views of one section, as [horizon_mmap_section],
    [change_section_range] and what they call keep them: each range is mapped
    from the section's anchors or is a hole, and has a reservation of its
    addresses, which a change that fails can lose. Reserving and giving back
    addresses is virtmem's (libnx), an extension of the kernel's interface;
    whether a piece of a range being split gets its reservation and slot, and
    whether the range gets its reservation back, are arguments, and so is what
    other threads do between the calls, each of which takes virtmem's lock on
    its own. *)
From S2P Require Import Prelude Memfile.
Local Open Scope Z_scope.

Inductive horizon_section_state := SECTION_NONE | SECTION_ALIASED | SECTION_HOLE.
#[export] Instance section_state_eq_dec : EqDecision horizon_section_state.
Proof. solve_decision. Defined.

(** The fields of [struct horizon_mapping] a view range uses; [hm_reserved]:
    its [reservation] is there. *)
Record horizon_mapping := mk_range {
  hm_addr : Z; hm_size : Z; hm_offset : Z; hm_state : horizon_section_state; hm_reserved : bool
}.
Notation mk_mapping addr size offset state := (mk_range addr size offset state true).

Class SectionKernel (K : Type) `{MemfileKernel K} := {
  k_reserve : K -> Z -> Z -> option K;
  k_reserve_fixed : K -> Z -> Z -> K;
  k_release : K -> Z -> Z -> K;
  (** A new reservation is of addresses not in use, which show nothing. *)
  k_reserve_ok : forall k addr size k', k_reserve k addr size = Some k' ->
    (forall v, in_range addr size v -> ~ k_used k v /\ k_at k' v = None) /\
    (forall v, ~ in_range addr size v -> k_at k' v = k_at k v) /\
    (forall v, k_used k' v <-> k_used k v \/ in_range addr size v);
  (** One at given addresses does not look whether they are in use. *)
  k_reserve_fixed_ok : forall k addr size v,
    k_at (k_reserve_fixed k addr size) v = k_at k v /\
    (k_used (k_reserve_fixed k addr size) v <-> k_used k v \/ in_range addr size v);
  (** Without it the addresses that show nothing are free for others. *)
  k_release_ok : forall k addr size v,
    k_at (k_release k addr size) v = k_at k v /\
    (~ in_range addr size v -> k_used (k_release k addr size) v <-> k_used k v)
}.

Section views.
Context {K : Type} `{SectionKernel K}.

Record view_world := mk_world { vw_k : K; vw_file : horizon_memfile; vw_ranges : list horizon_mapping }.

Definition aliased (m : horizon_mapping) : bool := bool_decide (hm_state m = SECTION_ALIASED).

(** The file after a range lets go of its reference. *)
Definition range_unref (file : horizon_memfile) : horizon_memfile :=
  match horizon_memfile_unref file with unref_kept f => f | unref_freed _ => with_refs file 0 end.

Definition free_section_range (m : horizon_mapping) (file : horizon_memfile) (k : K) : horizon_memfile * K :=
  let '(file, k) := if aliased m then horizon_memfile_use file (hm_offset m) (hm_size m) false k else (file, k) in
  (range_unref file, k).

(** How making a piece goes: virtmem or the mapping pool can be out of memory. *)
Inductive piece_try := piece_made | no_reservation | no_slot.

(** A piece of a range being split. *)
Definition section_range_piece (parent : horizon_mapping) (addr size : Z) (state : horizon_section_state)
    (count_use : bool) (ok : piece_try) (file : horizon_memfile) (k : K)
    : option horizon_mapping * horizon_memfile * K :=
  let offset := hm_offset parent + (addr - hm_addr parent) in
  match ok with
  | no_reservation => (None, file, k)
  | no_slot => (None, file, k_release (k_reserve_fixed k addr size) addr size)
  | piece_made =>
      let k := k_reserve_fixed k addr size in
      let file := horizon_memfile_ref file in
      let '(file, k) := if count_use then horizon_memfile_use file offset size true k else (file, k) in
      (Some (mk_mapping addr size offset state), file, k)
  end.

(** How the calls for the pieces go, and whether the range gets its
    reservation back when one fails. *)
Record pieces_ok := mk_pieces {
  left_ok : piece_try; middle_ok : piece_try; right_ok : piece_try; again_ok : bool
}.

(** [remove_reservation]. *)
Definition remove_reservation (m : horizon_mapping) (k : K) : K :=
  if hm_reserved m then k_release k (hm_addr m) (hm_size m) else k.

(** A piece that is not needed. *)
Definition drop_piece (m : option horizon_mapping) (file : horizon_memfile) (k : K) : horizon_memfile * K :=
  match m with Some m => free_section_range m file (remove_reservation m k) | None => (file, k) end.

Definition with_state (m : horizon_mapping) (state : horizon_section_state) : horizon_mapping :=
  mk_range (hm_addr m) (hm_size m) (hm_offset m) state (hm_reserved m).
Definition with_reservation (m : horizon_mapping) (reserved : bool) : horizon_mapping :=
  mk_range (hm_addr m) (hm_size m) (hm_offset m) (hm_state m) reserved.

(** The code after [failed]: [m] goes back as it was, with a new reservation
    or, when [again] is false, without one. *)
Definition change_failed (env : nat -> K -> K) (again : bool) (m : horizon_mapping) (start size : Z)
    (state : horizon_section_state) (left_piece middle_piece : option horizon_mapping)
    (file : horizon_memfile) (k : K) : horizon_mapping * horizon_memfile * K :=
  let offset := hm_offset m + (start - hm_addr m) in
  let '(file, k) := drop_piece left_piece file k in
  let '(file, k) := drop_piece ((fun p => with_state p SECTION_HOLE) <$> middle_piece) file k in
  let '(file, k) :=
    if aliased m then
      let '(_, k) := horizon_memfile_alias file start offset size true k in (file, k)
    else if decide (state = SECTION_ALIASED) then
      let '(_, k) := horizon_memfile_alias file start offset size false k in
      horizon_memfile_use file offset size false k
    else (file, k) in
  let k := env 3%nat k in
  (with_reservation m again, file, if again then k_reserve_fixed k (hm_addr m) (hm_size m) else k).

(** What the calls for the pieces give: all of them, or those made before one failed. *)
Inductive pieces_result :=
| pieces_all (pieces : list horizon_mapping)
| pieces_stopped (left_piece middle_piece : option horizon_mapping).

Definition make_pieces (env : nat -> K -> K) (ok : pieces_ok) (m : horizon_mapping) (start size : Z)
    (state : horizon_section_state) (file : horizon_memfile) (k : K) : pieces_result * horizon_memfile * K :=
  let stop := start + size in
  let m_stop := hm_addr m + hm_size m in
  let '(left_piece, file, k) :=
    if hm_addr m <? start
    then section_range_piece m (hm_addr m) (start - hm_addr m) (hm_state m) (aliased m) (left_ok ok) file (env 0%nat k)
    else (None, file, k) in
  if (hm_addr m <? start) && negb (bool_decide (is_Some left_piece)) then (pieces_stopped None None, file, k)
  else
    let '(middle_piece, file, k) :=
      if decide (state = SECTION_NONE) then (None, file, k)
      else section_range_piece m start size state false (middle_ok ok) file (env 1%nat k) in
    if negb (bool_decide (state = SECTION_NONE)) && negb (bool_decide (is_Some middle_piece))
    then (pieces_stopped left_piece None, file, k)
    else
      let '(right_piece, file, k) :=
        if stop <? m_stop
        then section_range_piece m stop (m_stop - stop) (hm_state m) (aliased m) (right_ok ok) file (env 2%nat k)
        else (None, file, k) in
      if (stop <? m_stop) && negb (bool_decide (is_Some right_piece)) then (pieces_stopped left_piece middle_piece, file, k)
      else (pieces_all (option_list left_piece ++ option_list middle_piece ++ option_list right_piece), file, k).

(** [change_section_range] on the range at position [i]; [mem]: which anchors
    can be allocated; [env]: what other threads do before each reservation of
    the range's addresses. *)
Definition change_section_range (mem : Z -> bool) (env : nat -> K -> K) (ok : pieces_ok) (w : view_world) (i : nat)
    (start size : Z) (state : horizon_section_state) : bool * view_world :=
  match vw_ranges w !! i with
  | None => (false, w)
  | Some m =>
      let offset := hm_offset m + (start - hm_addr m) in
      if decide (hm_state m = state) then (true, w)
      else
        let '(done, file, k) :=
          if aliased m then
            let '(done, k) := horizon_memfile_alias (vw_file w) start offset size false (vw_k w) in (done, vw_file w, k)
          else if decide (state = SECTION_ALIASED) then horizon_memfile_map mem (vw_file w) start offset size (vw_k w)
          else (true, vw_file w, vw_k w) in
        if negb done then (false, mk_world k file (vw_ranges w))
        else
          match make_pieces env ok m start size state file (remove_reservation m k) with
          | (pieces_all pieces, file, k) =>
              let '(file, k) := free_section_range m file k in
              (true, mk_world k file (delete i (vw_ranges w) ++ pieces))
          | (pieces_stopped left_piece middle_piece, file, k) =>
              let '(m', file, k) := change_failed env (again_ok ok) m start size state left_piece middle_piece file k in
              (false, mk_world k file (<[i := m']> (vw_ranges w)))
          end
  end.

(** [horizon_mmap_section] at an address that was chosen; [ok]: the range could
    be allocated. *)
Definition mmap_section (mem : Z -> bool) (ok : bool) (w : view_world) (addr size offset : Z)
    (state : horizon_section_state) : bool * view_world :=
  match k_reserve (vw_k w) addr size with
  | None => (false, w)
  | Some k =>
      let '(done, file, k) :=
        if decide (state = SECTION_ALIASED) then horizon_memfile_map mem (vw_file w) addr offset size k
        else (true, vw_file w, k) in
      if negb done then (false, mk_world (k_release k addr size) file (vw_ranges w))
      else if negb ok then
        let '(file, k) :=
          if decide (state = SECTION_ALIASED) then
            let '(_, k) := horizon_memfile_alias file addr offset size false k in
            horizon_memfile_use file offset size false k
          else (file, k) in
        (false, mk_world (k_release k addr size) file (vw_ranges w))
      else (true, mk_world k (horizon_memfile_ref file) (vw_ranges w ++ [mk_mapping addr size offset state]))
  end.
End views.

(** ** The invariant *)
Local Notation P := HORIZON_MEMFILE_PAGE_SIZE.

Definition contains (v : Z) (m : horizon_mapping) : bool := inb (hm_addr m) (hm_size m) v.
Definition range_pages (m : horizon_mapping) : Z * Z :=
  (range_first (hm_offset m), range_last (hm_offset m) (hm_size m)).
(** The pages the mapped ranges use. *)
Definition used_pages (ranges : list horizon_mapping) : list (Z * Z) := range_pages <$> List.filter aliased ranges.

Section proofs.
Context {K : Type} `{SectionKernel K} (data pages : Z) (frame : Z -> Z).
Implicit Types (k : K) (file : horizon_memfile) (m : horizon_mapping).

Record range_ok k (l : list horizon_memfile_anchor) m : Prop := {
  ro_size : 0 < hm_size m;
  ro_offset : 0 <= hm_offset m;
  ro_aligned : hm_size m mod P = 0 /\ hm_offset m mod P = 0;
  ro_inside : aliased m = true -> hm_offset m + hm_size m <= pages * P;
  ro_foreign : forall v, in_range (hm_addr m) (hm_size m) v -> foreign data pages k l v;
  ro_shows : forall i, 0 <= i < hm_size m -> shows_at_most frame k (hm_addr m) (hm_offset m) i
}.

Record ranges_ok k file (uses : list (Z * Z)) (ranges : list horizon_mapping) : Prop := {
  rs_file : file_ok data pages frame k file uses;
  rs_each : Forall (range_ok k (mf_anchors file)) ranges;
  rs_disjoint : forall v, (countb (contains v) ranges <= 1)%nat
}.

Lemma contains_spec v m : contains v m = true <-> in_range (hm_addr m) (hm_size m) v.
Proof. unfold contains. destruct (inb_spec (hm_addr m) (hm_size m) v); done. Qed.

Lemma countb_elem {A} (p : A -> bool) l x : x ∈ l -> p x = true -> (0 < countb p l)%nat.
Proof. intros [l' Hl]%elem_of_Permutation Hp. rewrite (countb_perm _ _ _ Hl), countb_cons, Hp. lia. Qed.

(** An address is in one range at most. *)
Lemma contains_unique v ranges m m' :
  (countb (contains v) ranges <= 1)%nat -> m ∈ ranges -> m' ∈ ranges ->
  contains v m = true -> contains v m' = true -> m' = m.
Proof.
  intros Hc Hm Hm' Hv Hv'. apply elem_of_Permutation in Hm as [l Hl].
  rewrite (countb_perm _ _ _ Hl), countb_cons, Hv in Hc. rewrite Hl in Hm'.
  apply elem_of_cons in Hm' as [?|Hm']; [done|]. pose proof (countb_elem _ _ _ Hm' Hv'). lia.
Qed.

(** The ranges after something that changes at most the addresses of
    [[dst, dst + n)], which lie in one of them. *)
Lemma ranges_kept k k' file file' uses uses' ranges dst n :
  ranges_ok k file uses ranges -> file_ok data pages frame k' file' uses' ->
  views_kept data pages k (mf_anchors file) k' (mf_anchors file') dst n ->
  (forall m i, m ∈ ranges -> 0 <= i < hm_size m -> in_range dst n (hm_addr m + i) ->
     shows_at_most frame k' (hm_addr m) (hm_offset m) i) ->
  ranges_ok k' file' uses' ranges.
Proof.
  intros [Hf He Hd] Hf' Hk Hin. split; [done| |done]. rewrite list.Forall_forall in *. intros m Hm.
  destruct (He m Hm) as [R1 R2 R3 R4 R5 R6]. split; try done.
  - intros v Hv. by apply (Hk v), R5.
  - intros i Hi. destruct (decide (dst <= hm_addr m + i < dst + n)) as [Hr|Hr]; [by apply Hin|].
    unfold shows_at_most, shows_section. destruct (Hk (hm_addr m + i)) as [_ E]; [apply R5; unfold in_range; lia|].
    rewrite E by done. by apply R6.
Qed.

Lemma file_ok_perm k file uses uses' :
  uses ≡ₚ uses' -> file_ok data pages frame k file uses -> file_ok data pages frame k file uses'.
Proof.
  intros Hp [F1 F2 [S1 S2 S3]]. split; [done|done|]. split; [done| |].
  - intros a Ha. rewrite (S2 a Ha). f_equal. by apply countb_perm.
  - intros r Hr. apply S3. by rewrite Hp.
Qed.

Lemma ranges_ok_perm k file uses uses' ranges :
  uses ≡ₚ uses' -> ranges_ok k file uses ranges -> ranges_ok k file uses' ranges.
Proof. intros Hp [R1 R2 R3]. split; [by eapply file_ok_perm|done|done]. Qed.

(** References do not matter to what the views show. *)
Lemma file_ok_refs k file uses refs :
  file_ok data pages frame k file uses -> file_ok data pages frame k (with_refs file refs) uses.
Proof. intros [F1 F2 F3]. by split. Qed.

Lemma ranges_ok_refs k file uses ranges refs :
  ranges_ok k file uses ranges -> ranges_ok k (with_refs file refs) uses ranges.
Proof. intros [R1 R2 R3]. split; [by apply file_ok_refs|done|done]. Qed.

Lemma range_unref_refs file : exists refs, range_unref file = with_refs file refs.
Proof. unfold range_unref, horizon_memfile_unref. case_if; eauto. Qed.

(** Part of a range. *)
Definition within (m : horizon_mapping) (start size : Z) : Prop :=
  0 < size /\ hm_addr m <= start /\ start + size <= hm_addr m + hm_size m /\
  size mod P = 0 /\ (start - hm_addr m) mod P = 0.

Lemma within_valid k file uses ranges m start size :
  ranges_ok k file uses ranges -> m ∈ ranges -> within m start size -> aliased m = true ->
  horizon_memfile_range_valid file (hm_offset m + (start - hm_addr m)) size = true.
Proof.
  intros [[_ Hs _] He _] Hm (W1 & W2 & W3 & W4 & W5) Ha. rewrite list.Forall_forall in He.
  destruct (He m Hm) as [R1 R2 [R3 R3'] R4 _ _]. specialize (R4 Ha).
  unfold horizon_memfile_range_valid, nonzero. rewrite Hs, !andb_true_iff, negb_true_iff, Z.eqb_neq, !Z.eqb_eq, !Z.leb_le.
  plia.
Qed.

Lemma within_free k file uses ranges m start size :
  ranges_ok k file uses ranges -> m ∈ ranges -> within m start size ->
  view_free data pages k (mf_anchors file) start size.
Proof.
  intros [_ He _] Hm (W1 & W2 & W3 & _) v Hv. rewrite list.Forall_forall in He.
  apply (ro_foreign _ _ _ (He m Hm)). unfold in_range in *. lia.
Qed.

(** The bytes of the range that lie in a part of it. *)
Lemma within_bytes k' file uses ranges k m start size :
  ranges_ok k file uses ranges -> m ∈ ranges -> within m start size ->
  (forall i, 0 <= i < size -> shows_at_most frame k start (hm_offset m + (start - hm_addr m)) i ->
     shows_at_most frame k' start (hm_offset m + (start - hm_addr m)) i) ->
  forall m' i, m' ∈ ranges -> 0 <= i < hm_size m' -> in_range start size (hm_addr m' + i) ->
    shows_at_most frame k' (hm_addr m') (hm_offset m') i.
Proof.
  intros [_ He Hd] Hm (W1 & W2 & W3 & _) Hk m' i Hm' Hi Hin.
  assert (m' = m) as ->.
  { apply (contains_unique (hm_addr m' + i) ranges); try done; apply contains_spec; unfold in_range in *; lia. }
  unfold in_range in Hin. specialize (Hk (hm_addr m + i - start)). unfold shows_at_most, shows_section in *.
  replace (start + (hm_addr m + i - start)) with (hm_addr m + i) in Hk by lia.
  replace (hm_offset m + (start - hm_addr m) + (hm_addr m + i - start)) with (hm_offset m + i) in Hk by lia.
  apply Hk; [lia|]. rewrite list.Forall_forall in He. apply (ro_shows _ _ _ (He m Hm)). lia.
Qed.

Lemma range_offset_nonneg k file uses ranges m start size :
  ranges_ok k file uses ranges -> m ∈ ranges -> within m start size -> 0 <= hm_offset m + (start - hm_addr m).
Proof.
  intros [_ He _] Hm (W1 & W2 & _). rewrite list.Forall_forall in He. pose proof (ro_offset _ _ _ (He m Hm)). lia.
Qed.

(** The kernel side of a part of a range. *)
Lemma alias_part k file uses ranges m start size map ok k' :
  ranges_ok k file uses ranges -> m ∈ ranges -> within m start size ->
  horizon_memfile_alias file start (hm_offset m + (start - hm_addr m)) size map k = (ok, k') ->
  ranges_ok k' file uses ranges /\
  (ok = true -> forall i, 0 <= i < size ->
     if map then shows_section frame k' start (hm_offset m + (start - hm_addr m)) i else k_at k' (start + i) = None) /\
  views_kept data pages k (mf_anchors file) k' (mf_anchors file) start size.
Proof.
  intros Hr Hm Hw Ha. pose proof (range_offset_nonneg _ _ _ _ _ _ _ Hr Hm Hw) as Ho.
  destruct (alias_ok data pages frame file uses start _ size map k ok k' (rs_file _ _ _ _ Hr) Ho
    ltac:(unfold within in Hw; lia) (within_free _ _ _ _ _ _ _ Hr Hm Hw) Ha) as (A1 & A2 & A3 & A4 & _).
  split_and!; [|done|done]. eapply ranges_kept; [done|done|done|]. by eapply within_bytes.
Qed.

Lemma map_part mem k file uses ranges m start size ok file' k' :
  ranges_ok k file uses ranges -> m ∈ ranges -> within m start size -> Z.of_nat (length uses) < UINT_MAX ->
  horizon_memfile_map mem file start (hm_offset m + (start - hm_addr m)) size k = (ok, file', k') ->
  let offset := hm_offset m + (start - hm_addr m) in
  ranges_ok k' file' (if ok then (range_first offset, range_last offset size) :: uses else uses) ranges /\
  file' = with_anchors file (mf_anchors file') /\
  (ok = true -> (forall i, 0 <= i < size -> shows_section frame k' start offset i) /\ offset + size <= pages * P) /\
  views_kept data pages k (mf_anchors file) k' (mf_anchors file') start size.
Proof.
  intros Hr Hm Hw Hlen Ha offset. pose proof (range_offset_nonneg _ _ _ _ _ _ _ Hr Hm Hw) as Ho.
  destruct (map_ok data pages frame mem file uses start _ size k ok file' k' (rs_file _ _ _ _ Hr) Ho
    ltac:(unfold within in Hw; lia) Hlen (within_free _ _ _ _ _ _ _ Hr Hm Hw) Ha) as (A1 & A2 & A3 & A4 & A5).
  split_and!; [|done| |done].
  - eapply ranges_kept; [done|done|done|]. by eapply within_bytes.
  - intros Hok. destruct (A4 Hok) as [Hv Hs]. split; [done|].
    unfold horizon_memfile_range_valid in Hv. rewrite (fk_size _ _ _ _ _ _ (rs_file _ _ _ _ Hr)) in Hv. btrue.
    unfold offset. lia.
Qed.

(** Counting part of a mapped range, whose pages are anchored, or no longer
    counting a range. *)
Lemma use_part k file uses ranges m start size file' k' :
  ranges_ok k file uses ranges -> m ∈ ranges -> within m start size -> aliased m = true ->
  range_pages m ∈ uses -> Z.of_nat (length uses) < UINT_MAX ->
  horizon_memfile_use file (hm_offset m + (start - hm_addr m)) size true k = (file', k') ->
  let offset := hm_offset m + (start - hm_addr m) in
  ranges_ok k' file' ((range_first offset, range_last offset size) :: uses) ranges /\
  file' = with_anchors file (mf_anchors file') /\
  views_kept data pages k (mf_anchors file) k' (mf_anchors file') start size.
Proof.
  intros Hr Hm Hw Ha Hu Hlen Huse offset. pose proof (range_offset_nonneg _ _ _ _ _ _ _ Hr Hm Hw) as Ho.
  pose proof (within_valid _ _ _ _ _ _ _ Hr Hm Hw Ha) as Hv.
  assert (Hcov : forall q, range_first offset <= q < range_last offset size -> anchored (mf_anchors file) q).
  { intros q Hq. apply (ms_covered _ _ _ _ _ _ (fk_state _ _ _ _ _ _ (rs_file _ _ _ _ Hr)) _ Hu).
    destruct Hw as (W1 & W2 & W3 & W4 & W5). pose proof (rs_each _ _ _ _ Hr) as He.
    rewrite list.Forall_forall in He. pose proof (ro_aligned _ _ _ (He m Hm)) as [E1 E2]. unfold offset in Hq.
    unfold range_pages, range_last, range_first in *. simpl. plia. }
  destruct (use_ok data pages frame file uses _ size k true file' k' (rs_file _ _ _ _ Hr) Ho
    ltac:(unfold within in Hw; lia) Hv Huse (fun _ => conj Hlen Hcov) _ eq_refl) as (A1 & A2 & A3).
  split_and!; [|done|apply A3]. eapply (ranges_kept _ _ _ _ _ _ _ start 0); [done|done|apply A3|].
  intros m' i _ _ Hin. unfold in_range in Hin. lia.
Qed.

(** No longer counting pages that were counted. *)
Lemma unuse_pages k file uses uses' ranges offset size file' k' :
  ranges_ok k file uses ranges -> 0 <= offset -> 0 <= size ->
  horizon_memfile_range_valid file offset size = true ->
  uses ≡ₚ (range_first offset, range_last offset size) :: uses' ->
  horizon_memfile_use file offset size false k = (file', k') ->
  ranges_ok k' file' uses' ranges /\ file' = with_anchors file (mf_anchors file') /\
  forall dst n, views_kept data pages k (mf_anchors file) k' (mf_anchors file') dst n.
Proof.
  intros Hr Ho Hs Hv Hp Huse.
  assert (Hmore : false = true -> Z.of_nat (length uses) < UINT_MAX /\
    forall q, range_first offset <= q < range_last offset size -> anchored (mf_anchors file) q) by done.
  destruct (use_ok data pages frame file uses offset size k false file' k' (rs_file _ _ _ _ Hr) Ho Hs Hv Huse
    Hmore uses' Hp) as (A1 & A2 & A3).
  split_and!; [|done|done]. eapply (ranges_kept _ _ _ _ _ _ _ 0 0); [done|done|apply A3|].
  intros m' i _ _ Hin. unfold in_range in Hin. lia.
Qed.

(** ** Pieces *)

(** All the addresses of views show what they showed. *)
Definition all_kept k file k' file' : Prop :=
  views_kept data pages k (mf_anchors file) k' (mf_anchors file') 0 0.

Lemma all_kept_refl k file refs : all_kept k file k (with_refs file refs).
Proof. intros v Hv. by split. Qed.

Lemma all_kept_trans k1 f1 k2 f2 k3 f3 : all_kept k1 f1 k2 f2 -> all_kept k2 f2 k3 f3 -> all_kept k1 f1 k3 f3.
Proof. apply views_kept_trans. Qed.

(** Everything in use stays in use and shows what it showed. *)
Definition still k k' : Prop := forall v, k_used k v -> k_used k' v /\ k_at k' v = k_at k v.

Lemma undisturbed_refl k : still k k.
Proof. by intros v Hv. Qed.

Lemma undisturbed_trans k1 k2 k3 : still k1 k2 -> still k2 k3 -> still k1 k3.
Proof. intros A B v Hv. destruct (A v Hv) as [Hv2 E2]. destruct (B v Hv2) as [Hv3 E3]. split; [done|congruence]. Qed.

Lemma reserve_fixed_still k addr size : still k (k_reserve_fixed k addr size).
Proof. intros v Hv. destruct (k_reserve_fixed_ok k addr size v) as [E U]. split; [apply U; by left|done]. Qed.

(** The addresses of the section: its pages' own, its anchors' and its ranges'. *)
Definition section_address (file : horizon_memfile) (ranges : list horizon_mapping) (v : Z) : Prop :=
  data_at data pages v \/ (exists a, a ∈ mf_anchors file /\ anchor_at a v) \/
  (exists m, m ∈ ranges /\ in_range (hm_addr m) (hm_size m) v).

(** What leaves these alone leaves the views as they are. *)
Lemma ranges_undisturbed k k' file uses ranges :
  (forall v, section_address file ranges v -> k_used k v -> k_used k' v /\ k_at k' v = k_at k v) ->
  ranges_ok k file uses ranges -> ranges_ok k' file uses ranges.
Proof.
  intros Hs [[F1 F2 [[I1 I2 I3 I4 I5 I6 I7 I8] F4 F5]] He Hd].
  assert (Hda : forall v, data_at data pages v -> k_used k' v /\ k_at k' v = k_at k v)
    by (intros v Hv; apply Hs; [by left|auto]).
  assert (Han : forall a v, a ∈ mf_anchors file -> anchor_at a v -> k_used k' v /\ k_at k' v = k_at k v)
    by (intros a v Ha Hv; apply Hs; [right; left; eauto|eauto]).
  split; [split; [done|done|split; [split|done|done]]| |done]; try done.
  - intros a off Ha Hp. apply page_of_offset in Hp as Hp'. rewrite (proj2 (Han a (an_addr a + (off - an_first a * P)) Ha ltac:(unfold anchor_at; plia))). auto.
  - intros off Ho Hn. rewrite (proj2 (Hda (data + off) ltac:(unfold data_at; plia))). auto.
  - intros v Hv. by apply Hda.
  - intros a v Ha Hv. by apply (Han a).
  - rewrite list.Forall_forall in *. intros m Hm. destruct (He m Hm) as [R1 R2 R3 R4 R5 R6].
    assert (Hm' : forall v, in_range (hm_addr m) (hm_size m) v -> k_used k' v /\ k_at k' v = k_at k v)
      by (intros v Hv; apply Hs; [right; right; eauto|by apply R5]).
    split; try done.
    + intros v Hv. destruct (R5 v Hv) as (A & B & C). split_and!; [by apply Hm'|done|done].
    + intros i Hi. unfold shows_at_most, shows_section.
      rewrite (proj2 (Hm' (hm_addr m + i) ltac:(unfold in_range; lia))). by apply R6.
Qed.

Lemma still_ranges k k' file uses ranges :
  still k k' -> ranges_ok k file uses ranges -> ranges_ok k' file uses ranges.
Proof. intros Hs. apply ranges_undisturbed. intros v _. apply Hs. Qed.

Lemma still_kept k k' file refs : still k k' -> all_kept k file k' (with_refs file refs).
Proof. intros Hs v (A & B & C). destruct (Hs v A). by split. Qed.

Definition piece_of m (addr size : Z) (state : horizon_section_state) : horizon_mapping :=
  mk_mapping addr size (hm_offset m + (addr - hm_addr m)) state.

Lemma used_pages_piece m addr size state :
  used_pages [piece_of m addr size state] =
  if bool_decide (state = SECTION_ALIASED) then [range_pages (piece_of m addr size state)] else [].
Proof. unfold used_pages. simpl. unfold aliased. simpl. by destruct (bool_decide _). Qed.

Definition was_made (ok : piece_try) : bool := match ok with piece_made => true | _ => false end.

Lemma unref_refs file : 1 < mf_refs file -> is_u32 (mf_refs file) -> range_unref file = with_refs file (mf_refs file - 1).
Proof.
  intros H1 H2. unfold range_unref, horizon_memfile_unref. rewrite u32_small by (unfold is_u32 in *; lia).
  unfold nonzero. destruct (Z.eqb_spec (mf_refs file - 1) 0); [lia|done].
Qed.

(** A range lets go of its pages and its reference. *)
Lemma free_range_ok k file uses uses' ranges m file' k' :
  ranges_ok k file uses ranges -> uses ≡ₚ used_pages [m] ++ uses' ->
  (aliased m = true -> 0 <= hm_offset m /\ 0 <= hm_size m /\
     horizon_memfile_range_valid file (hm_offset m) (hm_size m) = true) ->
  1 < mf_refs file -> is_u32 (mf_refs file) ->
  free_section_range m file k = (file', k') ->
  ranges_ok k' file' uses' ranges /\ all_kept k file k' file' /\ mf_refs file' = mf_refs file - 1 /\
  mf_size file' = mf_size file.
Proof.
  intros Hr Hp Hv H1 H2. unfold free_section_range. unfold used_pages in Hp. simpl in Hp.
  destruct (aliased m) eqn:Ha; simpl in Hp.
  - destruct (Hv eq_refl) as (V1 & V2 & V3).
    destruct (horizon_memfile_use _ _ _ _ _) as [file1 k1] eqn:Huse. intros [= <- <-].
    destruct (unuse_pages _ _ _ uses' _ _ _ _ _ Hr V1 V2 V3 Hp Huse) as (A1 & A2 & A3).
    assert (E1 : mf_refs file1 = mf_refs file /\ mf_size file1 = mf_size file) by (rewrite A2; done).
    destruct E1 as [E1 E2]. rewrite unref_refs by (rewrite E1; done). split_and!; [by apply ranges_ok_refs|apply A3| |done].
    simpl. by rewrite E1.
  - intros [= <- <-]. rewrite unref_refs by done. split_and!; [|apply all_kept_refl|done|done].
    apply ranges_ok_refs. by eapply ranges_ok_perm.
Qed.

(** A part of a mapped range can be counted or not. *)
Lemma piece_valid k file uses ranges m addr size state :
  ranges_ok k file uses ranges -> m ∈ ranges -> within m addr size -> (state = SECTION_ALIASED -> aliased m = true) ->
  aliased (piece_of m addr size state) = true ->
  0 <= hm_offset (piece_of m addr size state) /\ 0 <= hm_size (piece_of m addr size state) /\
  horizon_memfile_range_valid file (hm_offset (piece_of m addr size state)) (hm_size (piece_of m addr size state)) = true.
Proof.
  intros Hr Hm Hw Hst Ha. unfold aliased in Ha. apply bool_decide_eq_true in Ha. simpl in *.
  split_and!; [by eapply range_offset_nonneg|unfold within in Hw; lia|by eapply within_valid; eauto].
Qed.

Lemma range_valid_size file file' offset size :
  mf_size file' = mf_size file ->
  horizon_memfile_range_valid file' offset size = horizon_memfile_range_valid file offset size.
Proof. intros E. unfold horizon_memfile_range_valid. by rewrite E. Qed.

(** The pieces a change leaves of a range. *)
Definition left_of m (start : Z) : option horizon_mapping :=
  if hm_addr m <? start then Some (piece_of m (hm_addr m) (start - hm_addr m) (hm_state m)) else None.
Definition middle_of m (start size : Z) (state : horizon_section_state) : option horizon_mapping :=
  if decide (state = SECTION_NONE) then None else Some (piece_of m start size state).
Definition right_of m (start size : Z) : option horizon_mapping :=
  if start + size <? hm_addr m + hm_size m
  then Some (piece_of m (start + size) (hm_addr m + hm_size m - (start + size)) (hm_state m)) else None.
Definition pieces_of m (start size : Z) (state : horizon_section_state) : list horizon_mapping :=
  option_list (left_of m start) ++ option_list (middle_of m start size state) ++ option_list (right_of m start size).

Lemma used_pages_app l1 l2 : used_pages (l1 ++ l2) = used_pages l1 ++ used_pages l2.
Proof. unfold used_pages. by rewrite List.filter_app, fmap_app. Qed.

Lemma used_pages_cons m l : used_pages (m :: l) = used_pages [m] ++ used_pages l.
Proof. apply (used_pages_app [m]). Qed.

Lemma used_pages_middle m start size state :
  used_pages (option_list (middle_of m start size state)) = used_pages [piece_of m start size state].
Proof.
  unfold middle_of. destruct (decide (state = SECTION_NONE)) as [->|]; [|done].
  rewrite used_pages_piece, bool_decide_eq_false_2 by done. done.
Qed.

Lemma used_pages_self m : aliased m = true -> range_pages m ∈ used_pages [m].
Proof. intros Ha. unfold used_pages. simpl. rewrite Ha. set_solver. Qed.

Lemma used_pages_le ranges : (length (used_pages ranges) <= length ranges)%nat.
Proof. unfold used_pages. rewrite length_fmap. apply filter_length_le. Qed.

Section holding.
(** What is given back of the range [m] is held, and other threads leave
    everything in use alone. *)
Context (m : horizon_mapping) (env : nat -> K -> K)
  (Hhold : forall k addr size, hm_addr m <= addr -> addr + size <= hm_addr m + hm_size m -> still k (k_release k addr size))
  (Henv : forall i k, still k (env i k)).

Lemma piece_ok k file uses ranges addr size state (cond : bool) i ok o file' k' :
  ranges_ok k file uses ranges -> m ∈ ranges -> (cond = true -> within m addr size) ->
  (aliased m = true -> range_pages m ∈ uses) -> (state = SECTION_ALIASED -> aliased m = true) ->
  Z.of_nat (length uses) < UINT_MAX -> is_u32 (mf_refs file + 1) ->
  (if cond then section_range_piece m addr size state (bool_decide (state = SECTION_ALIASED)) ok file (env i k)
   else (None, file, k)) = (o, file', k') ->
  o = (if cond && was_made ok then Some (piece_of m addr size state) else None) /\
  ranges_ok k' file' (used_pages (option_list o) ++ uses) ranges /\ all_kept k file k' file' /\
  mf_refs file' = mf_refs file + Z.of_nat (length (option_list o)).
Proof.
  intros Hr Hm Hw Hu Hal Hlen Href. destruct cond; simpl.
  2:{ intros [= <- <- <-]. split_and!; [done|done|by intros v Hv|simpl; lia]. }
  specialize (Hw eq_refl). pose proof (used_pages_piece m addr size state) as Hup.
  pose proof (Henv i k) as He. pose proof (reserve_fixed_still (env i k) addr size) as Hres.
  unfold section_range_piece. destruct ok; simpl.
  2:{ intros [= <- <- <-]. split_and!; [done|by eapply still_ranges|by apply (still_kept _ _ _ (mf_refs file))|simpl; lia]. }
  2:{ intros [= <- <- <-].
      assert (Hs : still k (k_release (k_reserve_fixed (env i k) addr size) addr size)).
      { eapply undisturbed_trans; [exact He|]. eapply undisturbed_trans; [exact Hres|]. apply Hhold; unfold within in Hw; lia. }
      split_and!; [done|by eapply still_ranges|by apply (still_kept _ _ _ (mf_refs file))|simpl; lia]. }
  set (k1 := k_reserve_fixed (env i k) addr size) in *.
  assert (Hs : still k k1) by (by eapply undisturbed_trans).
  assert (Hr' : ranges_ok k1 (horizon_memfile_ref file) uses ranges) by (eapply ranges_ok_refs, still_ranges; done).
  destruct (bool_decide (state = SECTION_ALIASED)) eqn:Hst; simpl.
  - apply bool_decide_eq_true in Hst.
    destruct (horizon_memfile_use _ _ _ _ _) as [file1 k2] eqn:Huse. intros [= <- <- <-].
    destruct (use_part _ _ _ _ _ _ _ _ _ Hr' Hm Hw (Hal Hst) (Hu (Hal Hst)) Hlen Huse) as (A1 & A2 & A3).
    assert (k2 = k1) as ->.
    { unfold horizon_memfile_use in Huse. destruct (negb _); simpl in Huse; congruence. }
    split_and!; [done|change (ranges_ok k1 file1 (used_pages [piece_of m addr size state] ++ uses) ranges); by rewrite Hup| |].
    + intros v Hv. destruct (still_kept _ _ file (mf_refs file) Hs v Hv) as [Hv1 E1].
      destruct (A3 v Hv1) as [Hf _]. split; [done|]. exact E1.
    + rewrite A2. simpl. rewrite u32_small by done. lia.
  - intros [= <- <- <-]. split_and!; [done| |by apply still_kept|].
    + change (ranges_ok k1 (horizon_memfile_ref file) (used_pages [piece_of m addr size state] ++ uses) ranges).
      by rewrite Hup.
    + simpl. rewrite u32_small by done. lia.
Qed.

Lemma middle_piece_ok k file uses ranges start size state (cond : bool) i ok o file' k' :
  ranges_ok k file uses ranges -> within m start size -> is_u32 (mf_refs file + 1) ->
  (if cond then (None, file, k) else section_range_piece m start size state false ok file (env i k)) = (o, file', k') ->
  o = (if negb cond && was_made ok then Some (piece_of m start size state) else None) /\
  ranges_ok k' file' uses ranges /\ all_kept k file k' file' /\
  mf_refs file' = mf_refs file + Z.of_nat (length (option_list o)).
Proof.
  intros Hr Hw Href. destruct cond; simpl.
  { intros [= <- <- <-]. split_and!; [done|done|by intros v Hv|simpl; lia]. }
  pose proof (Henv i k) as He. pose proof (reserve_fixed_still (env i k) start size) as Hres.
  unfold section_range_piece. destruct ok; simpl; intros [= <- <- <-].
  - assert (Hs : still k (k_reserve_fixed (env i k) start size)) by (by eapply undisturbed_trans).
    split_and!; [done|by eapply ranges_ok_refs, still_ranges|by apply still_kept|].
    simpl. rewrite u32_small by done. lia.
  - split_and!; [done|by eapply still_ranges|by apply (still_kept _ _ _ (mf_refs file))|simpl; lia].
  - assert (Hs : still k (k_release (k_reserve_fixed (env i k) start size) start size)).
    { eapply undisturbed_trans; [exact He|]. eapply undisturbed_trans; [exact Hres|]. apply Hhold; unfold within in Hw; lia. }
    split_and!; [done|by eapply still_ranges|by apply (still_kept _ _ _ (mf_refs file))|simpl; lia].
Qed.
Lemma drop_piece_ok k file uses uses' ranges o file' k' :
  ranges_ok k file uses ranges -> uses ≡ₚ used_pages (option_list o) ++ uses' ->
  (forall p, o = Some p -> exists addr n st, p = piece_of m addr n st /\ within m addr n /\
     (aliased p = true -> 0 <= hm_offset p /\ 0 <= hm_size p /\
        horizon_memfile_range_valid file (hm_offset p) (hm_size p) = true)) ->
  Z.of_nat (length (option_list o)) < mf_refs file -> is_u32 (mf_refs file) ->
  drop_piece o file k = (file', k') ->
  ranges_ok k' file' uses' ranges /\ all_kept k file k' file' /\
  mf_refs file' = mf_refs file - Z.of_nat (length (option_list o)) /\ mf_size file' = mf_size file.
Proof.
  intros Hr Hp Hv H1 H2. destruct o as [p|]; simpl in *.
  - destruct (Hv p eq_refl) as (addr & n & st & -> & Hw & Hval). intros Hf.
    assert (Hs : still k (remove_reservation (piece_of m addr n st) k))
      by (apply Hhold; simpl; unfold within in Hw; lia).
    destruct (free_range_ok _ file uses uses' ranges _ file' k' (still_ranges _ _ _ _ _ Hs Hr) Hp Hval H1 H2 Hf)
      as (A1 & A2 & A3 & A4).
    split_and!; [done| |done|done]. eapply all_kept_trans; [|exact A2]. by apply (still_kept _ _ _ (mf_refs file)).
  - intros [= <- <-]. split_and!; [by eapply ranges_ok_perm|by intros v Hv'|lia|done].
Qed.

(** The kernel side of a failed change is undone. *)
Lemma undo_part_ok k file rest ranges start size state file' k' :
  m ∈ ranges -> within m start size -> hm_state m <> state ->
  (state = SECTION_ALIASED -> hm_offset m + (start - hm_addr m) + size <= pages * P /\
     (hm_offset m + (start - hm_addr m)) mod P = 0) ->
  ranges_ok k file (used_pages [piece_of m start size state] ++ rest) ranges ->
  (let offset := hm_offset m + (start - hm_addr m) in
   if aliased m then let '(_, k) := horizon_memfile_alias file start offset size true k in (file, k)
   else if decide (state = SECTION_ALIASED) then
     let '(_, k) := horizon_memfile_alias file start offset size false k in horizon_memfile_use file offset size false k
   else (file, k)) = (file', k') ->
  ranges_ok k' file' rest ranges /\ views_kept data pages k (mf_anchors file) k' (mf_anchors file') start size /\
  mf_refs file' = mf_refs file.
Proof.
  intros Hm Hw Hne Hin Hr. cbv zeta. rewrite used_pages_piece in Hr. destruct (aliased m) eqn:Ham.
  - unfold aliased in Ham. apply bool_decide_eq_true in Ham. rewrite bool_decide_eq_false_2 in Hr by congruence.
    destruct (horizon_memfile_alias _ _ _ _ _ _) as [ok k3] eqn:Hal. intros [= <- <-].
    destruct (alias_part _ _ _ _ _ _ _ _ _ _ Hr Hm Hw Hal) as (C1 & _ & C3). by split_and!.
  - destruct (decide (state = SECTION_ALIASED)) as [Hst|Hst].
    + rewrite bool_decide_eq_true_2 in Hr by done. destruct (horizon_memfile_alias _ _ _ _ _ _) as [ok k3] eqn:Hal.
      destruct (alias_part _ _ _ _ _ _ _ _ _ _ Hr Hm Hw Hal) as (C1 & _ & C3). intros Huse. destruct (Hin Hst) as [Hi1 Hi2].
      destruct (unuse_pages _ _ _ rest _ (hm_offset m + (start - hm_addr m)) size file' k' C1) as (D1 & D2 & D3).
      * by eapply range_offset_nonneg.
      * unfold within in Hw; lia.
      * unfold horizon_memfile_range_valid, nonzero. rewrite (fk_size _ _ _ _ _ _ (rs_file _ _ _ _ C1)).
        pose proof (range_offset_nonneg _ _ _ _ _ _ _ C1 Hm Hw). destruct Hw as (W1 & W2 & W3 & W4 & W5).
        rewrite !andb_true_iff, negb_true_iff, Z.eqb_neq, !Z.eqb_eq, !Z.leb_le. plia.
      * done.
      * exact Huse.
      * split_and!; [done| |rewrite D2; done]. eapply views_kept_trans; [exact C3|apply D3].
    + rewrite bool_decide_eq_false_2 in Hr by done. intros [= <- <-]. split_and!; [done|by intros v Hv|done].
Qed.

Lemma all_kept_views k1 f1 k2 f2 k3 f3 start size :
  all_kept k1 f1 k2 f2 -> views_kept data pages k2 (mf_anchors f2) k3 (mf_anchors f3) start size ->
  views_kept data pages k1 (mf_anchors f1) k3 (mf_anchors f3) start size.
Proof.
  intros A B v Hv. destruct (A v Hv) as [Hv2 E2]. destruct (B v Hv2) as [Hv3 E3].
  split; [done|]. intros Hn. rewrite E3, E2; [done|unfold in_range; lia|done].
Qed.

(** What the failed change puts back: the pieces go, and the kernel side of the
    part is undone. *)
Lemma change_failed_ok again k file rest ranges start size state (l mid : option horizon_mapping) m' file' k' :
  m ∈ ranges -> within m start size -> hm_state m <> state ->
  (state = SECTION_ALIASED -> hm_offset m + (start - hm_addr m) + size <= pages * P /\
     (hm_offset m + (start - hm_addr m)) mod P = 0) ->
  (forall p, l = Some p -> exists addr n, p = piece_of m addr n (hm_state m) /\ within m addr n) ->
  (forall p, mid = Some p -> p = piece_of m start size state) ->
  ranges_ok k file (used_pages (option_list l) ++ used_pages [piece_of m start size state] ++ rest) ranges ->
  Z.of_nat (length (option_list l)) + Z.of_nat (length (option_list mid)) < mf_refs file -> is_u32 (mf_refs file) ->
  change_failed env again m start size state l mid file k = (m', file', k') ->
  m' = with_reservation m again /\
  ranges_ok k' file' rest ranges /\ views_kept data pages k (mf_anchors file) k' (mf_anchors file') start size /\
  mf_refs file' = mf_refs file - Z.of_nat (length (option_list l)) - Z.of_nat (length (option_list mid)).
Proof.
  intros Hm Hw Hne Hin Hl Hmid Hr Href1 Href2. unfold change_failed. cbv zeta.
  destruct (drop_piece l file k) as [file1 k1] eqn:Hf1.
  destruct (drop_piece_ok k file _ (used_pages [piece_of m start size state] ++ rest) ranges l file1 k1 Hr ltac:(done))
    as (A1 & A2 & A3 & A4); [|lia|done|done|].
  { intros p ->. destruct (Hl p eq_refl) as (addr & n & -> & Hwp). exists addr, n, (hm_state m). split_and!; [done..|].
    eapply (piece_valid k file); [exact Hr|done|done|]. intros Hst. unfold aliased. by rewrite bool_decide_eq_true_2. }
  set (mid' := _ <$> mid). destruct (drop_piece mid' file1 k1) as [file2 k2] eqn:Hf2.
  assert (Hmid' : used_pages (option_list mid') = [] /\ length (option_list mid') = length (option_list mid) /\
                 forall p, mid' = Some p -> p = piece_of m start size SECTION_HOLE).
  { unfold mid'. destruct mid as [p|]; simpl; split_and!; try done. rewrite (Hmid p eq_refl). by intros q [= <-]. }
  destruct Hmid' as (Hmu & Hml & Hma).
  destruct (drop_piece_ok k1 file1 _ (used_pages [piece_of m start size state] ++ rest) ranges mid' file2 k2 A1
    ltac:(by rewrite Hmu)) as (B1 & B2 & B3 & B4); [|lia|unfold is_u32 in *; lia|done|].
  { intros p Hp. exists start, size, SECTION_HOLE. rewrite (Hma p Hp). by split_and!. }
  destruct (if aliased m then _ else _) as [file3 k3] eqn:Hu.
  destruct (undo_part_ok k2 file2 rest ranges start size state file3 k3 Hm Hw Hne Hin B1 Hu) as (C1 & C2 & C3).
  intros [= <- <- <-].
  assert (Hs : still k3 (if again then k_reserve_fixed (env 3%nat k3) (hm_addr m) (hm_size m) else env 3%nat k3)).
  { destruct again; [|apply Henv]. eapply undisturbed_trans; [apply Henv|apply reserve_fixed_still]. }
  split_and!; [done|by eapply still_ranges| |lia].
  eapply all_kept_views; [exact (all_kept_trans _ _ _ _ _ _ A2 B2)|]. eapply views_kept_trans; [exact C2|].
  intros v Hv. destruct (still_kept _ _ file3 (mf_refs file3) Hs v Hv) as [Hv' E]. split; [exact Hv'|].
  intros _. apply E. unfold in_range. lia.
Qed.

Lemma not_made (c : bool) (o : option horizon_mapping) : c && negb (bool_decide (is_Some o)) = true -> o = None.
Proof. destruct o; [|done]. rewrite bool_decide_eq_true_2 by eauto. by rewrite andb_false_r. Qed.

(** The pieces that are made, and the pages they use. *)
Lemma make_pieces_ok ok k file rest ranges start size state r file' k' :
  m ∈ ranges -> within m start size ->
  ranges_ok k file (used_pages [m] ++ used_pages [piece_of m start size state] ++ rest) ranges ->
  Z.of_nat (length rest) + 4 < UINT_MAX -> 1 < mf_refs file -> mf_refs file + 3 < UINT_MAX ->
  make_pieces env ok m start size state file k = (r, file', k') ->
  all_kept k file k' file' /\
  match r with
  | pieces_all pieces =>
      pieces = pieces_of m start size state /\
      ranges_ok k' file' (used_pages [m] ++ used_pages pieces ++ rest) ranges /\
      mf_refs file' = mf_refs file + Z.of_nat (length pieces)
  | pieces_stopped l mid =>
      (forall p, l = Some p -> exists addr n, p = piece_of m addr n (hm_state m) /\ within m addr n) /\
      (forall p, mid = Some p -> p = piece_of m start size state) /\
      ranges_ok k' file' (used_pages (option_list l) ++ used_pages [piece_of m start size state] ++
                          used_pages [m] ++ rest) ranges /\
      mf_refs file' = mf_refs file + Z.of_nat (length (option_list l)) + Z.of_nat (length (option_list mid))
  end.
Proof.
  intros Hm Hw Hr Hlen Href1 Href2. unfold make_pieces. cbv zeta. set (part := piece_of m start size state) in *.
  pose proof (rs_each _ _ _ _ Hr) as He. rewrite list.Forall_forall in He.
  destruct (He m Hm) as [R1 R2 [R3 R4] _ _ _]. clear He. unfold UINT_MAX in *.
  assert (Hul : forall (x : horizon_mapping), (length (used_pages [x]) <= 1)%nat) by (intros x; apply used_pages_le).
  assert (Hself : forall l, aliased m = true -> range_pages m ∈ l ++ used_pages [m] ++ used_pages [part] ++ rest)
    by (intros l Ha; apply elem_of_app; right; apply elem_of_app; left; by apply used_pages_self).
  assert (Hstate : hm_state m = SECTION_ALIASED -> aliased m = true)
    by (intros E; unfold aliased; by rewrite bool_decide_eq_true_2).
  destruct (if hm_addr m <? start then _ else _) as [[lp file1] k1] eqn:Hlp.
  apply (piece_ok k file _ ranges _ _ (hm_state m) (hm_addr m <? start) 0 (left_ok ok) lp file1 k1 Hr) in Hlp
    as (Hlo & Hr1 & Hk1 & Hrf1); [|done| |by intros; apply (Hself [])|done| |unfold is_u32; lia].
  2:{ intros Hc. btrue. destruct Hw as (W1 & W2 & W3 & W4 & W5). split_and!; try lia; plia. }
  2:{ rewrite !length_app. pose proof (Hul m). pose proof (Hul part). unfold UINT_MAX. lia. }
  assert (Hlpiece : forall p, lp = Some p -> exists addr n, p = piece_of m addr n (hm_state m) /\ within m addr n).
  { intros p ->. destruct (Z.ltb_spec (hm_addr m) start), (was_made (left_ok ok)); try done. injection Hlo as ->.
    eexists _, _. split; [done|]. destruct Hw as (W1 & W2 & W3 & W4 & W5). split_and!; try lia; plia. }
  assert (Hlen1 : (length (option_list lp) <= 1)%nat) by (destruct lp; simpl; lia).
  assert (Hperm : forall l, used_pages l ++ used_pages [m] ++ used_pages [part] ++ rest ≡ₚ
                            used_pages l ++ used_pages [part] ++ used_pages [m] ++ rest)
    by (intros l; solve_Permutation).
  destruct ((hm_addr m <? start) && negb (bool_decide (is_Some lp))) eqn:Hstop1.
  { intros [= <- <- <-]. apply not_made in Hstop1 as ->.
    split_and!; try done; [eapply ranges_ok_perm; [apply (Hperm [])|exact Hr1]|simpl in *; lia]. }
  assert (Hl : lp = left_of m start).
  { rewrite Hlo. unfold left_of. destruct (hm_addr m <? start); [|done]. simpl in *. rewrite Hlo in Hstop1.
    by destruct (was_made (left_ok ok)). }
  destruct (if decide (state = SECTION_NONE) then _ else _) as [[mp file2] k2] eqn:Hmp.
  assert (Hcond : (if decide (state = SECTION_NONE) then (@None horizon_mapping, file1, k1)
     else section_range_piece m start size state false (middle_ok ok) file1 (env 1%nat k1)) =
    (if bool_decide (state = SECTION_NONE) then (None, file1, k1)
     else section_range_piece m start size state false (middle_ok ok) file1 (env 1%nat k1)))
    by (by destruct (decide (state = SECTION_NONE)); [rewrite bool_decide_eq_true_2|rewrite bool_decide_eq_false_2]).
  rewrite Hcond in Hmp. clear Hcond.
  apply (middle_piece_ok k1 file1 _ ranges _ _ _ _ _ _ _ _ _ Hr1 Hw) in Hmp as (Hmo & Hr2 & Hk2 & Hrf2); [|unfold is_u32; lia].
  assert (Hmpiece : forall p, mp = Some p -> p = part).
  { intros p ->. revert Hmo. destruct (negb _ && was_made _); [by intros [= ->]|done]. }
  assert (Hk02 : all_kept k file k2 file2) by (by eapply all_kept_trans).
  destruct (negb (bool_decide (state = SECTION_NONE)) && negb (bool_decide (is_Some mp))) eqn:Hstop2.
  { intros [= <- <- <-]. apply not_made in Hstop2 as ->.
    split_and!; try done; [eapply ranges_ok_perm; [apply (Hperm (option_list lp))|exact Hr2]|simpl in *; lia]. }
  assert (Hmid : mp = middle_of m start size state).
  { rewrite Hmo. unfold middle_of. rewrite Hmo in Hstop2. destruct (decide (state = SECTION_NONE)).
    - by rewrite bool_decide_eq_true_2.
    - rewrite (bool_decide_eq_false_2 (state = SECTION_NONE)) in * by done. simpl in *. by destruct (was_made (middle_ok ok)). }
  assert (Hlen2 : (length (option_list mp) <= 1)%nat) by (destruct mp; simpl; lia).
  destruct (if start + size <? hm_addr m + hm_size m then _ else _) as [[rp file3] k3] eqn:Hrp.
  apply (piece_ok k2 file2 _ ranges _ _ (hm_state m) (start + size <? hm_addr m + hm_size m) 2 (right_ok ok)
    rp file3 k3 Hr2) in Hrp as (Hro & Hr3 & Hk3 & Hrf3); [|done| |by intros; apply Hself|done| |unfold is_u32; lia].
  2:{ intros Hc. btrue. destruct Hw as (W1 & W2 & W3 & W4 & W5). split_and!; try lia; plia. }
  2:{ rewrite !length_app. pose proof (Hul m). pose proof (Hul part). pose proof (used_pages_le (option_list lp)).
      unfold UINT_MAX. lia. }
  assert (Hk03 : all_kept k file k3 file3) by (by eapply all_kept_trans).
  destruct ((start + size <? hm_addr m + hm_size m) && negb (bool_decide (is_Some rp))) eqn:Hstop3.
  { intros [= <- <- <-]. apply not_made in Hstop3 as ->.
    split_and!; try done; [eapply ranges_ok_perm; [apply (Hperm (option_list lp))|exact Hr3]|simpl in *; lia]. }
  assert (Hright : rp = right_of m start size).
  { rewrite Hro. unfold right_of. destruct (start + size <? hm_addr m + hm_size m); [|done]. simpl in *.
    rewrite Hro in Hstop3. by destruct (was_made (right_ok ok)). }
  intros [= <- <- <-]. split_and!; [done|unfold pieces_of; congruence| |rewrite !length_app; lia].
  eapply ranges_ok_perm; [|exact Hr3]. rewrite !used_pages_app, Hmid, used_pages_middle. fold part. solve_Permutation.
Qed.
End holding.

(** ** A change of one range *)
Lemma option_list_elem {A} (x : A) o : x ∈ option_list o -> o = Some x.
Proof. destruct o; simpl; [|intros Hx; by apply not_elem_of_nil in Hx]. by intros ->%list_elem_of_singleton. Qed.

Lemma pieces_elem m start size state p :
  within m start size -> hm_size m mod P = 0 -> p ∈ pieces_of m start size state ->
  exists addr n st, p = piece_of m addr n st /\ within m addr n /\
    (st = hm_state m \/ st = state /\ addr = start /\ n = size).
Proof.
  intros (W1 & W2 & W3 & W4 & W5) Hs Hp. unfold pieces_of in Hp. rewrite !elem_of_app in Hp.
  destruct Hp as [Hp|[Hp|Hp]]; apply option_list_elem in Hp.
  - unfold left_of in Hp. destruct (Z.ltb_spec (hm_addr m) start); [|done]. injection Hp as <-.
    eexists _, _, _. split; [done|]. split; [split_and!; try lia; plia|by left].
  - unfold middle_of in Hp. destruct (decide _); [done|]. injection Hp as <-.
    eexists _, _, _. split; [done|]. split; [by split_and!|by right].
  - unfold right_of in Hp. destruct (Z.ltb_spec (start + size) (hm_addr m + hm_size m)) as [Hlt|]; [|done]. injection Hp as <-.
    eexists _, _, _. split; [done|]. split; [split_and!; try lia; plia|by left].
Qed.

(** A part of a good range is a good range. *)
Lemma piece_range_ok k l m addr size state :
  range_ok k l m -> within m addr size ->
  (state = SECTION_ALIASED -> hm_offset m + (addr - hm_addr m) + size <= pages * P) ->
  range_ok k l (piece_of m addr size state).
Proof.
  intros [R1 R2 [R3 R4] R5 R6 R7] (W1 & W2 & W3 & W4 & W5) Hin. split; simpl.
  - done.
  - lia.
  - split; [done|plia].
  - unfold aliased. simpl. intros Ha. apply bool_decide_eq_true in Ha. auto.
  - intros v Hv. apply R6. unfold in_range in *. lia.
  - intros i Hi. specialize (R7 (addr - hm_addr m + i)). unfold shows_at_most, shows_section in *.
    replace (hm_addr m + (addr - hm_addr m + i)) with (addr + i) in R7 by lia.
    replace (hm_offset m + (addr - hm_addr m + i)) with (hm_offset m + (addr - hm_addr m) + i) in R7 by lia.
    apply R7. lia.
Qed.

Lemma pieces_range_ok k l m start size state :
  range_ok k l m -> within m start size ->
  (state = SECTION_ALIASED -> hm_offset m + (start - hm_addr m) + size <= pages * P) ->
  Forall (range_ok k l) (pieces_of m start size state).
Proof.
  intros Hr Hw Hin. apply list.Forall_forall. intros p Hp.
  destruct (pieces_elem _ _ _ _ _ Hw (proj1 (ro_aligned _ _ _ Hr)) Hp) as (addr & n & st & -> & Hwp & Hst).
  apply piece_range_ok; [done|done|]. destruct Hst as [-> |(-> & -> & ->)]; [|done].
  intros Ha. destruct Hwp as (W1 & W2 & W3 & _). pose proof (ro_inside _ _ _ Hr) as Hi.
  unfold aliased in Hi. rewrite bool_decide_eq_true_2 in Hi by done. specialize (Hi eq_refl). lia.
Qed.

(** The pieces do not overlap, and lie in the range. *)
Lemma pieces_count m start size state v :
  within m start size -> (countb (contains v) (pieces_of m start size state) <= countb (contains v) [m])%nat.
Proof.
  intros (W1 & W2 & W3 & _). unfold pieces_of. rewrite !countb_app, !countb_cons.
  unfold countb at 4. simpl.
  assert (Hc : forall x, contains v x = true -> in_range (hm_addr x) (hm_size x) v) by (intros; by apply contains_spec).
  assert (Hm : contains v m = false -> ~ in_range (hm_addr m) (hm_size m) v)
    by (intros E Hin; apply contains_spec in Hin; congruence).
  unfold left_of, middle_of, right_of, in_range in *.
  destruct (Z.ltb_spec (hm_addr m) start), (decide (state = SECTION_NONE)),
    (Z.ltb_spec (start + size) (hm_addr m + hm_size m)); cbn [option_list]; rewrite ?countb_cons; unfold countb; simpl;
  repeat match goal with
         | |- context [contains v ?x] =>
             lazymatch goal with E : contains v x = _ |- _ => fail | |- _ => destruct (contains v x) eqn:? end
         end;
  repeat match goal with E : contains v _ = true |- _ => apply Hc in E; simpl in E end;
  repeat match goal with E : contains v m = false |- _ => apply Hm in E end; simpl; try lia.
Qed.

(** A range replaced by its pieces. *)
Lemma replaced_ranges k file uses ranges rest m start size state :
  ranges_ok k file uses ranges -> ranges ≡ₚ m :: rest -> within m start size ->
  (state = SECTION_ALIASED -> hm_offset m + (start - hm_addr m) + size <= pages * P) ->
  ranges_ok k file uses (rest ++ pieces_of m start size state).
Proof.
  intros [Hf He Hd] Hp Hw Hin. rewrite Hp, Forall_cons in He. destruct He as [Hm He]. split; [done| |].
  - apply Forall_app_2; [done|]. by apply pieces_range_ok.
  - intros v. specialize (Hd v). rewrite countb_app. pose proof (pieces_count m start size state v Hw) as Hpc.
    rewrite (countb_perm _ _ _ Hp), countb_cons in Hd. rewrite countb_cons in Hpc. unfold countb in Hpc at 2. simpl in Hpc. lia.
Qed.

(** Giving back addresses no range has any more. *)
Lemma release_ok k file uses ranges start size :
  ranges_ok k file uses ranges -> view_free data pages k (mf_anchors file) start size ->
  (forall v, in_range start size v -> countb (contains v) ranges = 0%nat) ->
  ranges_ok (k_release k start size) file uses ranges.
Proof.
  intros [[F1 F2 [[I1 I2 I3 I4 I5 I6 I7 I8] F4 F5]] He Hd] Hfree Hno.
  assert (Hat : forall v, k_at (k_release k start size) v = k_at k v) by (intros v; apply k_release_ok).
  assert (Hu : forall v, k_used k v -> ~ in_range start size v -> k_used (k_release k start size) v)
    by (intros v H1 H2; by apply k_release_ok).
  split; [split; [done|done|split; [split|done|done]]| |done]; try done.
  - intros a off Ha Hp. rewrite Hat. auto.
  - intros off Ho Hn. rewrite Hat. auto.
  - intros v Hv. apply Hu; [auto|]. intros Hin. by apply (Hfree v Hin).
  - intros a v Ha Hv. apply Hu; [eauto|]. intros Hin. by apply (Hfree v Hin) in Hv.
  - rewrite list.Forall_forall in *. intros m Hm. destruct (He m Hm) as [R1 R2 R3 R4 R5 R6]. split; try done.
    + intros v Hv. destruct (R5 v Hv) as (A & B & C). split_and!; [|done|done]. apply Hu; [done|]. intros Hin.
      specialize (Hno v Hin). apply contains_spec in Hv. pose proof (countb_elem _ _ _ Hm Hv). lia.
    + intros i Hi. unfold shows_at_most, shows_section. rewrite Hat. by apply R6.
Qed.

Record world_ok (others : Z) (w : @view_world K) : Prop := {
  wo_ranges : ranges_ok (vw_k w) (vw_file w) (used_pages (vw_ranges w)) (vw_ranges w);
  wo_refs : mf_refs (vw_file w) = others + Z.of_nat (length (vw_ranges w));
  wo_open : 1 <= others
}.

(** Few enough ranges and references for the counters. *)
Definition world_small (others : Z) (w : @view_world K) : Prop :=
  others + Z.of_nat (length (vw_ranges w)) + 8 < UINT_MAX.

(** What a change does, besides keeping the world right. *)
Record range_changed (w w' : @view_world K) m (start size : Z) (state : horizon_section_state) (done : bool) : Prop := {
  rc_shows : done = true -> state = SECTION_ALIASED -> hm_state m <> state -> forall i, 0 <= i < size ->
    shows_section frame (vw_k w') start (hm_offset m + (start - hm_addr m)) i;
  rc_hidden : done = true -> hm_state m = SECTION_ALIASED -> hm_state m <> state -> forall i, 0 <= i < size ->
    k_at (vw_k w') (start + i) = None;
  rc_others : forall m' v, m' ∈ vw_ranges w -> in_range (hm_addr m') (hm_size m') v -> ~ in_range start size v ->
    k_at (vw_k w') v = k_at (vw_k w) v
}.

(** The kernel's part of a change. *)
Lemma change_kernel_ok mem w rest m start size state done_ file k :
  m ∈ vw_ranges w -> within m start size -> hm_state m <> state -> Z.of_nat (length rest) + 4 < UINT_MAX ->
  ranges_ok (vw_k w) (vw_file w) (used_pages [m] ++ rest) (vw_ranges w) ->
  (let offset := hm_offset m + (start - hm_addr m) in
   if aliased m then
     let '(done, k) := horizon_memfile_alias (vw_file w) start offset size false (vw_k w) in (done, vw_file w, k)
   else if decide (state = SECTION_ALIASED) then horizon_memfile_map mem (vw_file w) start offset size (vw_k w)
   else (true, vw_file w, vw_k w)) = (done_, file, k) ->
  ranges_ok k file (used_pages [m] ++ (if done_ then used_pages [piece_of m start size state] else []) ++ rest) (vw_ranges w) /\
  views_kept data pages (vw_k w) (mf_anchors (vw_file w)) k (mf_anchors file) start size /\
  mf_refs file = mf_refs (vw_file w) /\
  (done_ = true -> state = SECTION_ALIASED -> hm_offset m + (start - hm_addr m) + size <= pages * P /\
     forall i, 0 <= i < size -> shows_section frame k start (hm_offset m + (start - hm_addr m)) i) /\
  (done_ = true -> aliased m = true -> forall i, 0 <= i < size -> k_at k (start + i) = None).
Proof.
  intros Hm Hw Hne Hlen Hr. cbv zeta. rewrite used_pages_piece.
  assert (Hl : Z.of_nat (length (used_pages [m] ++ rest)) < UINT_MAX).
  { rewrite length_app. pose proof (used_pages_le [m]). simpl in *. lia. }
  destruct (aliased m) eqn:Ha.
  - destruct (horizon_memfile_alias _ _ _ _ _ _) as [d k1] eqn:Hal. intros [= <- <- <-].
    destruct (alias_part _ _ _ _ _ _ _ _ _ _ Hr Hm Hw Hal) as (A1 & A2 & A3).
    unfold aliased in Ha. apply bool_decide_eq_true in Ha.
    rewrite bool_decide_eq_false_2 by congruence. split_and!; [by destruct d|done|done|intros _ ?; congruence|].
    intros -> _ i Hi. by apply (A2 eq_refl i).
  - destruct (decide (state = SECTION_ALIASED)) as [Hst|Hst].
    + intros Hmap. destruct (map_part _ _ _ _ _ _ _ _ _ _ _ Hr Hm Hw Hl Hmap) as (A1 & A2 & A3 & A4).
      rewrite bool_decide_eq_true_2 by done.
      split_and!; [|done|rewrite A2; done|intros Hd _; destruct (A3 Hd); done|done].
      destruct done_; simpl in *; [|exact A1]. eapply ranges_ok_perm; [|exact A1]. apply Permutation_middle.
    + intros [= <- <- <-]. rewrite bool_decide_eq_false_2 by done. split_and!; [done|by intros v Hv|done|done|done].
Qed.

Lemma delete_perm (ranges : list horizon_mapping) i m : ranges !! i = Some m -> ranges ≡ₚ m :: delete i ranges.
Proof. apply delete_Permutation. Qed.

Lemma used_pages_perm l1 l2 : l1 ≡ₚ l2 -> used_pages l1 ≡ₚ used_pages l2.
Proof.
  induction 1 as [|x l1 l2 _ IH|x y l|l1 l2 l3 _ IH1 _ IH2]; [done| | |by etrans]; unfold used_pages in *; simpl.
  - destruct (aliased x); simpl; [by apply perm_skip|done].
  - destruct (aliased x), (aliased y); simpl; try done. apply perm_swap.
Qed.

(** ** A new range *)
Lemma reserve_ok k file uses ranges addr size offset k' :
  ranges_ok k file uses ranges -> 0 < size -> size mod P = 0 -> 0 <= offset -> offset mod P = 0 ->
  k_reserve k addr size = Some k' ->
  ranges_ok k' file uses (ranges ++ [mk_mapping addr size offset SECTION_HOLE]) /\
  (forall v, foreign data pages k (mf_anchors file) v -> k_at k' v = k_at k v).
Proof.
  intros [[F1 F2 [[I1 I2 I3 I4 I5 I6 I7 I8] F4 F5]] He Hd] Hs1 Hs2 Ho1 Ho2 Hk.
  destruct (k_reserve_ok _ _ _ _ Hk) as (Hnew & Hsame & Hused).
  assert (Hat : forall v, k_used k v -> k_at k' v = k_at k v)
    by (intros v Hv; apply Hsame; intros Hin; by apply (Hnew v Hin)).
  assert (Hu : forall v, k_used k v -> k_used k' v) by (intros v Hv; apply Hused; auto).
  assert (Hfor : forall v, foreign data pages k (mf_anchors file) v -> foreign data pages k' (mf_anchors file) v)
    by (intros v (A & B & C); split_and!; auto).
  split; [|intros v (A & _); auto]. split.
  - split; [done|done|]. split; [split|done|done]; try done.
    + intros a off Ha Hp. rewrite Hat; [by apply I3|]. apply (I6 a); [done|].
      apply page_of_offset in Hp. unfold anchor_at. plia.
    + intros off Ho Hn. rewrite Hat; [by apply I4|]. apply I5. unfold data_at. plia.
    + intros v Hv. by apply Hu, I5.
    + intros a v Ha Hv. by eapply Hu, I6.
  - apply Forall_app_2.
    + rewrite list.Forall_forall in *. intros m Hm. destruct (He m Hm) as [R1 R2 R3 R4 R5 R6]. split; auto.
      intros i Hi. unfold shows_at_most, shows_section.
      rewrite Hat by (apply (R5 (hm_addr m + i)); unfold in_range; lia). by apply R6.
    + apply Forall_singleton. split; simpl; try done.
      * intros v Hv. destruct (Hnew v Hv) as [Hn _]. split_and!; [apply Hused; auto|intros Hdv; by apply Hn, I5|].
        intros a Ha Hv'. by eapply Hn, I6.
      * intros i Hi. left. apply Hnew. unfold in_range. lia.
  - intros v. rewrite countb_app, countb_cons. specialize (Hd v). unfold countb at 2. simpl.
    destruct (contains v (mk_mapping addr size offset SECTION_HOLE)) eqn:Hc; [|lia].
    apply contains_spec in Hc. simpl in Hc. destruct (Hnew v Hc) as [Hn _].
    assert (Hz : countb (contains v) ranges = 0%nat); [|lia].
    destruct (countb (contains v) ranges) eqn:E; [done|exfalso].
    assert (Hex : exists m, m ∈ ranges /\ contains v m = true).
    { unfold countb in E. destruct (List.filter (contains v) ranges) as [|m l] eqn:Hf; [done|]. exists m.
      assert (Hin : In m (List.filter (contains v) ranges)) by (rewrite Hf; by left).
      apply filter_In in Hin as [Hin Hcm]. split; [by apply list_elem_of_In|done]. }
    destruct Hex as (m & Hm & Hcm). apply contains_spec in Hcm. rewrite list.Forall_forall in He.
    by apply Hn, (ro_foreign _ _ _ (He m Hm)).
Qed.

(** Without the last range, whose addresses are given back. *)
Lemma drop_last_ok k file uses ranges m :
  ranges_ok k file uses (ranges ++ [m]) -> ranges_ok (k_release k (hm_addr m) (hm_size m)) file uses ranges.
Proof.
  intros [Hf He Hd]. apply Forall_app in He as [He Hm]. rewrite Forall_singleton in Hm.
  assert (Hd' : forall v, (countb (contains v) ranges <= 1)%nat)
    by (intros v; specialize (Hd v); rewrite countb_app in Hd; lia).
  apply release_ok; [by split|intros v Hv; by apply Hm|]. intros v Hv. specialize (Hd v).
  rewrite countb_app, countb_cons in Hd. rewrite (proj2 (contains_spec v m) Hv) in Hd. lia.
Qed.

(** A hole whose bytes are mapped is a mapped range. *)
Lemma last_aliased k file uses ranges addr size offset :
  ranges_ok k file uses (ranges ++ [mk_mapping addr size offset SECTION_HOLE]) -> offset + size <= pages * P ->
  ranges_ok k file uses (ranges ++ [mk_mapping addr size offset SECTION_ALIASED]).
Proof.
  intros [Hf He Hd] Hin. apply Forall_app in He as [He Hm]. rewrite Forall_singleton in Hm.
  split; [done| |].
  - apply Forall_app_2; [done|]. apply Forall_singleton. destruct Hm as [R1 R2 R3 R4 R5 R6]. by split.
  - intros v. specialize (Hd v). rewrite countb_app, countb_cons in *. exact Hd.
Qed.

Lemma mmap_section_ok others mem ok w addr size offset state done_ w' :
  world_ok others w -> world_small others w -> 0 < size -> size mod P = 0 -> 0 <= offset -> offset mod P = 0 ->
  state <> SECTION_NONE -> mmap_section mem ok w addr size offset state = (done_, w') ->
  world_ok others w' /\
  vw_ranges w' = (if done_ then vw_ranges w ++ [mk_mapping addr size offset state] else vw_ranges w) /\
  (done_ = true -> state = SECTION_ALIASED -> forall i, 0 <= i < size -> shows_section frame (vw_k w') addr offset i) /\
  (forall m' v, m' ∈ vw_ranges w -> in_range (hm_addr m') (hm_size m') v -> k_at (vw_k w') v = k_at (vw_k w) v).
Proof.
  intros [Hr Href Hopen] Hsmall Hs1 Hs2 Ho1 Ho2 Hst. unfold mmap_section. unfold world_small, UINT_MAX in Hsmall.
  destruct (k_reserve (vw_k w) addr size) as [k1|] eqn:Hk; [|by intros [= <- <-]; split_and!].
  destruct (reserve_ok _ _ _ _ _ _ _ _ Hr Hs1 Hs2 Ho1 Ho2 Hk) as [Hr1 Hk1].
  set (hole := mk_mapping addr size offset SECTION_HOLE) in *. set (ranges1 := vw_ranges w ++ [hole]) in *.
  assert (Hm : hole ∈ ranges1) by (unfold ranges1; set_solver).
  assert (Hw : within hole addr size) by (unfold within, hole; simpl; split_and!; try lia; plia).
  assert (Hoff : hm_offset hole + (addr - hm_addr hole) = offset) by (unfold hole; simpl; lia).
  assert (Hlen : Z.of_nat (length (used_pages (vw_ranges w))) < UINT_MAX)
    by (pose proof (used_pages_le (vw_ranges w)); unfold UINT_MAX; lia).
  assert (Hother : forall m' v, m' ∈ vw_ranges w -> in_range (hm_addr m') (hm_size m') v ->
    foreign data pages (vw_k w) (mf_anchors (vw_file w)) v /\
    foreign data pages k1 (mf_anchors (vw_file w)) v /\ ~ in_range addr size v).
  { intros m' v Hm' Hv. pose proof (rs_each _ _ _ _ Hr) as He. rewrite list.Forall_forall in He.
    pose proof (rs_each _ _ _ _ Hr1) as He1. rewrite list.Forall_forall in He1.
    split_and!; [by apply (ro_foreign _ _ _ (He m' Hm'))|apply (ro_foreign _ _ _ (He1 m' ltac:(unfold ranges1; set_solver))); done|].
    intros Hin. destruct (k_reserve_ok _ _ _ _ Hk) as (Hnew & _). apply (Hnew v Hin).
    by apply (ro_foreign _ _ _ (He m' Hm')). }
  assert (Hfail : forall k2 file2, ranges_ok k2 file2 (used_pages (vw_ranges w)) ranges1 ->
    mf_refs file2 = mf_refs (vw_file w) ->
    views_kept data pages k1 (mf_anchors (vw_file w)) k2 (mf_anchors file2) addr size ->
    world_ok others (mk_world (k_release k2 addr size) file2 (vw_ranges w)) /\
    forall m' v, m' ∈ vw_ranges w -> in_range (hm_addr m') (hm_size m') v ->
      k_at (k_release k2 addr size) v = k_at (vw_k w) v).
  { intros k2 file2 B1 B2 B3. split; [split; simpl; [by apply (drop_last_ok _ _ _ _ hole)|lia|done]|].
    intros m' v Hm' Hv. destruct (Hother m' v Hm' Hv) as (F1 & F2 & F3). rewrite (proj1 (k_release_ok _ _ _ _)).
    destruct (B3 v F2) as [_ ->]; [by apply Hk1|done]. }
  destruct (decide (state = SECTION_ALIASED)) as [->|Hna].
  - rewrite <- Hoff. destruct (horizon_memfile_map _ _ _ _ _ _) as [[d file2] k2] eqn:Hmap.
    destruct (map_part _ _ _ _ _ _ _ _ _ _ _ Hr1 Hm Hw Hlen Hmap) as (A1 & A2 & A3 & A4). rewrite Hoff in *.
    assert (Hrf : mf_refs file2 = mf_refs (vw_file w)) by (by rewrite A2).
    destruct d; simpl.
    2:{ intros [= <- <-]. destruct (Hfail k2 file2 A1 Hrf A4). by split_and!. }
    destruct (A3 eq_refl) as [Hshow Hin]. destruct ok; simpl.
    + intros [= <- <-]. split_and!; [split; simpl| | |]; simpl; try done.
      * apply ranges_ok_refs. apply last_aliased; [|done].
        eapply ranges_ok_perm; [|exact A1]. rewrite used_pages_app. apply (Permutation_app_comm [_]).
      * rewrite length_app. simpl. rewrite u32_small by (unfold is_u32; lia). lia.
      * intros m' v Hm' Hv. destruct (Hother m' v Hm' Hv) as (F1 & F2 & F3).
        destruct (A4 v F2) as [_ ->]; [by apply Hk1|done].
    + destruct (horizon_memfile_alias _ _ _ _ _ _) as [d3 k3] eqn:Hal. rewrite <- Hoff in Hal.
      destruct (alias_part _ _ _ _ _ _ _ _ _ _ A1 Hm Hw Hal) as (B1 & _ & B3).
      destruct (horizon_memfile_use _ _ _ _ _) as [file4 k4] eqn:Huse. intros [= <- <-].
      destruct (unuse_pages _ _ _ (used_pages (vw_ranges w)) _ offset size file4 k4 B1) as (C1 & C2 & C3); try done; [lia| |].
      * unfold horizon_memfile_range_valid, nonzero. rewrite (fk_size _ _ _ _ _ _ (rs_file _ _ _ _ B1)).
        rewrite !andb_true_iff, negb_true_iff, Z.eqb_neq, !Z.eqb_eq, !Z.leb_le. plia.
      * destruct (Hfail k4 file4 C1) as [D1 D2]; [by rewrite C2| |by split_and!].
        eapply views_kept_trans; [exact A4|]. eapply views_kept_trans; [exact B3|apply C3].
  - destruct ok; simpl; intros [= <- <-].
    + split_and!; [split; simpl| | |]; simpl; try done.
      * destruct state; [done..|]. apply ranges_ok_refs. unfold ranges1, hole in *.
        eapply ranges_ok_perm; [|exact Hr1]. rewrite used_pages_app. unfold used_pages at 3. simpl. by rewrite app_nil_r.
      * rewrite length_app. simpl. rewrite u32_small by (unfold is_u32; lia). lia.
      * intros m' v Hm' Hv. destruct (Hother m' v Hm' Hv) as (F1 & F2 & F3). by apply Hk1.
    + destruct (Hfail k1 (vw_file w) Hr1 eq_refl) as [D1 D2]; [by intros v Hv|by split_and!].
Qed.

End proofs.

(** ** Between a reservation and the next

    Proofs about the calls between removing the reservation of a range and
    reserving it or its pieces again are done with the addresses held: in use
    though nothing in the kernel says so. The code looks for no new address
    there, so it runs on the same kernel. *)
Section held.
Context {K : Type} {KM : MemfileKernel K} {KS : SectionKernel K} (h : Z -> Prop).

Definition held_memfile : MemfileKernel K.
Proof.
  refine {| k_at := k_at; k_used k v := k_used k v \/ h v; k_anchor k src size := (None, k);
            k_unanchor := k_unanchor; k_alias := k_alias; k_unalias := k_unalias |}.
  - done.
  - by intros k src size k' [= <-].
  - intros k addr src size token k' Hk. destruct (k_unanchor_ok _ _ _ _ _ _ Hk) as (A & B & C).
    split_and!; [done|done|]. intros v Hv. by rewrite (C v Hv).
  - intros k addr src size token k' Hk. destruct (k_unanchor_failed _ _ _ _ _ _ Hk) as [A B].
    split; [done|]. intros v. by rewrite B.
  - intros k dst src size k' Hk. destruct (k_alias_ok _ _ _ _ _ Hk) as (A & B & C).
    split_and!; [done|done|]. intros v. by rewrite C.
  - intros k dst src size k' Hk. destruct (k_alias_failed _ _ _ _ _ Hk) as [A B]. split; [done|]. intros v. by rewrite B.
  - intros k dst src size k' Hk. destruct (k_unalias_ok _ _ _ _ _ Hk) as (A & B & C).
    split_and!; [done|done|]. intros v. by rewrite C.
  - intros k dst src size k' Hk. destruct (k_unalias_failed _ _ _ _ _ Hk) as [A B]. split; [done|]. intros v. by rewrite B.
Defined.

Definition held_section : @SectionKernel K held_memfile.
Proof.
  refine {| k_reserve k addr size := None; k_reserve_fixed := k_reserve_fixed; k_release := k_release |}.
  - done.
  - intros k addr size v. destruct (k_reserve_fixed_ok k addr size v) as [A B]. split; [done|].
    change ((k_used (k_reserve_fixed k addr size) v \/ h v) <-> (k_used k v \/ h v) \/ in_range addr size v). rewrite B. tauto.
  - intros k addr size v. destruct (k_release_ok k addr size v) as [A B]. split; [done|]. intros Hv.
    change ((k_used (k_release k addr size) v \/ h v) <-> (k_used k v \/ h v)). by rewrite (B Hv).
Defined.

Context (data pages : Z) (frame : Z -> Z).

(** Held addresses are in use besides those that are. *)
Lemma held_ranges k file uses ranges :
  ranges_ok data pages frame k file uses ranges -> @ranges_ok K held_memfile data pages frame k file uses ranges.
Proof.
  intros [[F1 F2 [[I1 I2 I3 I4 I5 I6 I7 I8] F4 F5]] He Hd].
  split; [split; [done|done|split; [split|done|done]]| |done]; try done.
  - intros v Hv. left. auto.
  - intros a v Ha Hv. left. eauto.
  - rewrite list.Forall_forall in *. intros m Hm. destruct (He m Hm) as [R1 R2 R3 R4 R5 R6]. split; try done.
    intros v Hv. destruct (R5 v Hv) as (A & B & C). split_and!; [by left|done|done].
Qed.

(** They need not be held when each is in use or is no range's. *)
Lemma unheld_ranges k file uses ranges :
  @ranges_ok K held_memfile data pages frame k file uses ranges ->
  (forall v, h v -> ~ data_at data pages v /\ forall a, a ∈ mf_anchors file -> ~ anchor_at a v) ->
  (forall m v, m ∈ ranges -> in_range (hm_addr m) (hm_size m) v -> h v -> k_used k v) ->
  ranges_ok data pages frame k file uses ranges.
Proof.
  intros [[F1 F2 [[I1 I2 I3 I4 I5 I6 I7 I8] F4 F5]] He Hd] Hap Hin.
  split; [split; [done|done|split; [split|done|done]]| |done]; try done.
  - intros v Hv. destruct (I5 v Hv) as [|Hh]; [done|]. by destruct (Hap v Hh).
  - intros a v Ha Hv. destruct (I6 a v Ha Hv) as [|Hh]; [done|]. destruct (Hap v Hh) as [_ Hn]. by destruct (Hn a Ha).
  - rewrite list.Forall_forall in *. intros m Hm. destruct (He m Hm) as [R1 R2 R3 R4 R5 R6]. split; try done.
    intros v Hv. destruct (R5 v Hv) as ([A|A] & B & C); split_and!; try done. by apply (Hin m).
Qed.
End held.

Section changes.
Context {K : Type} {KM : MemfileKernel K} {KS : SectionKernel K} (data pages : Z) (frame : Z -> Z).
Local Notation ranges_ok := (ranges_ok data pages frame).
Local Notation world_ok := (world_ok data pages frame).

(** Other threads leave alone what is in use, and the addresses of [m]. *)
Definition quiet (m : horizon_mapping) (env : nat -> K -> K) : Prop :=
  forall i k v, k_used k v \/ in_range (hm_addr m) (hm_size m) v ->
    k_at (env i k) v = k_at k v /\ (k_used k v -> k_used (env i k) v).

(** Every range has its reservation. *)
Definition all_reserved (w : view_world (K := K)) : Prop := Forall (fun m => hm_reserved m = true) (vw_ranges w).

(** Making a piece reserves its addresses. *)
Lemma piece_used m addr size state more ok file (k : K) p file' k' :
  section_range_piece m addr size state more ok file k = (Some p, file', k') ->
  hm_addr p = addr /\ hm_size p = size /\ forall v, k_used k' v <-> k_used k v \/ in_range addr size v.
Proof.
  unfold section_range_piece. destruct ok; [|done|done]. destruct (if more then _ else _) as [f k1] eqn:Hu.
  assert (k1 = k_reserve_fixed k addr size) as ->.
  { destruct more; [|congruence]. unfold horizon_memfile_use in Hu. destruct (negb _); simpl in Hu; congruence. }
  intros [= <- <- <-]. split_and!; [done|done|]. intros v. by apply k_reserve_fixed_ok.
Qed.

Lemma pieces_used env ok m start size state file (k : K) pieces file' k' :
  quiet m env -> make_pieces env ok m start size state file k = (pieces_all pieces, file', k') ->
  forall p v, p ∈ pieces -> in_range (hm_addr p) (hm_size p) v -> k_used k' v.
Proof.
  intros Hq. unfold make_pieces. cbv zeta.
  assert (Hone : forall (c : bool) i addr n st more tr f k1 o f' k2,
    (if c then section_range_piece m addr n st more tr f (env i k1) else (None, f, k1)) = (o, f', k2) ->
    c && negb (bool_decide (is_Some o)) = false ->
    (forall v, k_used k1 v -> k_used k2 v) /\
    forall p v, p ∈ option_list o -> in_range (hm_addr p) (hm_size p) v -> k_used k2 v).
  { intros c i addr n st more tr f k1 o f' k2 Hp Hc. destruct c; simpl in Hc.
    - destruct o as [p|]; [|by rewrite bool_decide_eq_false_2 in Hc by (by intros [? ?])].
      apply piece_used in Hp as (<- & <- & Hu). split; [intros v Hv; apply Hu; left; apply Hq; auto|].
      intros q v ->%list_elem_of_singleton Hv. apply Hu. auto.
    - injection Hp as <- <- <-. split; [done|]. intros p v Hp. by apply not_elem_of_nil in Hp. }
  destruct (if hm_addr m <? start then _ else _) as [[lp f1] k1] eqn:Hl.
  destruct ((hm_addr m <? start) && _) eqn:Hc1; [done|]. destruct (Hone _ _ _ _ _ _ _ _ _ _ _ _ Hl Hc1) as [A1 A2].
  destruct (if decide (state = SECTION_NONE) then _ else _) as [[mp f2] k2] eqn:Hm.
  destruct (negb (bool_decide (state = SECTION_NONE)) && _) eqn:Hc2; [done|].
  destruct (Hone (negb (bool_decide (state = SECTION_NONE))) 1%nat start size state false (middle_ok ok) f1 k1 mp f2 k2)
    as [B1 B2]; [|done|].
  { rewrite <- Hm. by destruct (decide (state = SECTION_NONE)); [rewrite bool_decide_eq_true_2|rewrite bool_decide_eq_false_2]. }
  destruct (if start + size <? hm_addr m + hm_size m then _ else _) as [[rp f3] k3] eqn:Hr.
  destruct ((start + size <? hm_addr m + hm_size m) && _) eqn:Hc3; [done|].
  destruct (Hone _ _ _ _ _ _ _ _ _ _ _ _ Hr Hc3) as [C1 C2]. intros [= <- <- <-] p v Hp Hv.
  rewrite !elem_of_app in Hp. destruct Hp as [Hp|[Hp|Hp]]; eauto.
Qed.

Lemma with_reservation_same m again :
  hm_reserved m = true -> again = true -> with_reservation m again = m.
Proof. destruct m; simpl. by intros -> ->. Qed.

(** The state of the section and its ranges while the addresses of [m] are held. *)
Lemma hold_ranges env m k file uses ranges :
  quiet m env -> ranges_ok k file uses ranges ->
  let h := in_range (hm_addr m) (hm_size m) in
  @SectionViews.ranges_ok K (held_memfile h) data pages frame (remove_reservation m k) file uses ranges /\
  (forall k addr size, hm_addr m <= addr -> addr + size <= hm_addr m + hm_size m ->
     @still K (held_memfile h) k (k_release k addr size)) /\
  (forall i k, @still K (held_memfile h) k (env i k)).
Proof.
  intros Hq Hr h.
  assert (Hrel : forall k addr size, hm_addr m <= addr -> addr + size <= hm_addr m + hm_size m ->
     @still K (held_memfile h) k (k_release k addr size)).
  { intros k1 addr size H1 H2 v Hv. destruct (k_release_ok k1 addr size v) as [E U]. split; [|done].
    destruct (decide (hm_addr m <= v < hm_addr m + hm_size m)) as [Hin|Hin]; [by right|left].
    destruct Hv as [Hv|Hv]; [|by destruct Hin]. apply U; [unfold in_range; lia|done]. }
  split_and!; [|done|].
  - pose proof (held_ranges h data pages frame _ _ _ _ Hr) as Hr'. unfold remove_reservation.
    destruct (hm_reserved m); [|done].
    refine (@still_ranges K (held_memfile h) data pages frame k _ file uses ranges _ Hr'). apply Hrel; lia.
  - intros i k1 v Hv. destruct (Hq i k1 v Hv) as [E U]. split; [|done]. destruct Hv; [left; auto|by right].
Qed.

(** What the change needs of the state the kernel's part leaves. *)
Record change_ready k file (rest : list (Z * Z)) ranges m (start size : Z) (state : horizon_section_state) : Prop := {
  cr_ranges : ranges_ok k file (used_pages [m] ++ used_pages [piece_of m start size state] ++ rest) ranges;
  cr_in : m ∈ ranges;
  cr_within : within m start size;
  cr_state : hm_state m <> state;
  cr_inside : state = SECTION_ALIASED -> hm_offset m + (start - hm_addr m) + size <= pages * P /\
                (hm_offset m + (start - hm_addr m)) mod P = 0;
  cr_rest : Z.of_nat (length rest) + 4 < UINT_MAX;
  cr_refs : 1 < mf_refs file /\ mf_refs file + 3 < UINT_MAX
}.

(** A view's addresses are not the section's own. *)
Lemma ranges_apart `{MemfileKernel K} k file uses ranges m v :
  SectionViews.ranges_ok data pages frame k file uses ranges -> m ∈ ranges -> in_range (hm_addr m) (hm_size m) v ->
  ~ data_at data pages v /\ forall a, a ∈ mf_anchors file -> ~ anchor_at a v.
Proof.
  intros [_ He _] Hm Hv. rewrite list.Forall_forall in He. by destruct (ro_foreign _ _ _ _ _ _ (He m Hm) v Hv) as (_ & A & B).
Qed.

Lemma removed_at m k v : k_at (remove_reservation m k) v = k_at k v.
Proof. unfold remove_reservation. destruct (hm_reserved m); [apply k_release_ok|done]. Qed.

Lemma held_foreign m k l v :
  foreign data pages k l v ->
  @foreign K (held_memfile (in_range (hm_addr m) (hm_size m))) data pages (remove_reservation m k) l v.
Proof.
  intros [F1 F2]. split; [|done]. unfold remove_reservation.
  destruct (decide (hm_addr m <= v < hm_addr m + hm_size m)); [by right|left].
  destruct (hm_reserved m); [by apply k_release_ok|done].
Qed.

(** A change whose pieces are all made: the range is replaced by them. *)
Lemma change_made_ok env ok k file rest ranges others_ m start size state pieces file1 k1 file2 k2 :
  quiet m env -> change_ready k file rest ranges m start size state ->
  ranges ≡ₚ m :: others_ -> rest = used_pages others_ ->
  make_pieces env ok m start size state file (remove_reservation m k) = (pieces_all pieces, file1, k1) ->
  free_section_range m file1 k1 = (file2, k2) ->
  pieces = pieces_of m start size state /\
  ranges_ok k2 file2 (used_pages (others_ ++ pieces)) (others_ ++ pieces) /\
  mf_refs file2 = mf_refs file + Z.of_nat (length pieces) - 1 /\
  forall v, foreign data pages k (mf_anchors file) v -> k_at k2 v = k_at k v.
Proof.
  intros Hq [Hr Hm Hw Hne Hin Hrest [Href1 Href2]] Hperm -> Hmk Hfr. set (h := in_range (hm_addr m) (hm_size m)).
  destruct (hold_ranges env m _ _ _ _ Hq Hr) as (Hr' & Hrel & Henv). fold h in Hr', Hrel, Henv.
  destruct (@make_pieces_ok K (held_memfile h) (held_section h) data pages frame m env Hrel Henv ok (remove_reservation m k) file
    _ ranges start size state (pieces_all pieces) file1 k1 Hm Hw Hr' Hrest Href1 Href2 Hmk) as (A1 & -> & A2 & A3).
  pose proof (@replaced_ranges K (held_memfile h) data pages frame _ _ _ _ _ _ _ _ _ A2 Hperm Hw (fun E => proj1 (Hin E))) as B.
  assert (B' : ranges_ok k1 file1 (used_pages [m] ++ used_pages (pieces_of m start size state) ++ used_pages others_)
                 (others_ ++ pieces_of m start size state)).
  { apply (unheld_ranges h); [done|intros v Hv; exact (@ranges_apart (held_memfile h) k1 file1 _ ranges m v A2 Hm Hv)|].
    intros m1 v [Hm1|Hm1]%elem_of_app Hv Hh; [exfalso|by eapply pieces_used].
    pose proof (rs_disjoint _ _ _ _ _ _ _ Hr v) as Hd. rewrite (countb_perm _ _ _ Hperm), countb_cons in Hd.
    apply contains_spec in Hh, Hv. rewrite Hh in Hd. pose proof (countb_elem _ _ _ Hm1 Hv). lia. }
  assert (Hlen : (length (pieces_of m start size state) <= 3)%nat).
  { unfold pieces_of. rewrite !length_app. destruct (left_of _ _), (middle_of _ _ _ _), (right_of _ _ _); simpl; lia. }
  assert (Hval : aliased m = true -> 0 <= hm_offset m /\ 0 <= hm_size m /\
    horizon_memfile_range_valid file1 (hm_offset m) (hm_size m) = true).
  { intros Ha. pose proof (rs_each _ _ _ _ _ _ _ Hr) as He. rewrite list.Forall_forall in He.
    destruct (He m Hm) as [R1 R2 [R3 R4] R5 _ _]. specialize (R5 Ha). split_and!; [done|lia|].
    unfold horizon_memfile_range_valid, nonzero. rewrite (fk_size _ _ _ _ _ _ (rs_file _ _ _ _ _ _ _ B')).
    rewrite !andb_true_iff, negb_true_iff, Z.eqb_neq, !Z.eqb_eq, !Z.leb_le. plia. }
  destruct (free_range_ok data pages frame k1 file1 _ (used_pages (pieces_of m start size state) ++ used_pages others_) _ m file2 k2
    B' ltac:(done) Hval ltac:(lia) ltac:(unfold is_u32, UINT_MAX in *; lia) Hfr) as (C1 & _ & C3 & _).
  destruct (@free_range_ok K (held_memfile h) data pages frame k1 file1 _
    (used_pages (pieces_of m start size state) ++ used_pages others_) _ m file2 k2
    B ltac:(done) Hval ltac:(lia) ltac:(unfold is_u32, UINT_MAX in *; lia) Hfr) as (_ & C2 & _ & _).
  split_and!; [done| |lia|].
  - eapply ranges_ok_perm; [|exact C1]. rewrite used_pages_app. apply Permutation_app_comm.
  - intros v Hv. apply (held_foreign m k) in Hv. destruct (A1 v Hv) as [Hf1 E1]. destruct (C2 v Hf1) as [_ E2].
    etrans; [apply E2; unfold in_range; lia|]. etrans; [apply E1; unfold in_range; lia|]. apply removed_at.
Qed.

(** One that fails: the range is back, and only its part of the kernel's side
    may be different; without a reservation its addresses are not in use. *)
Lemma change_stopped_ok env ok again k file rest ranges m start size state l mid file1 k1 m' file2 k2 :
  quiet m env -> change_ready k file rest ranges m start size state ->
  make_pieces env ok m start size state file (remove_reservation m k) = (pieces_stopped l mid, file1, k1) ->
  change_failed env again m start size state l mid file1 k1 = (m', file2, k2) ->
  m' = with_reservation m again /\ mf_refs file2 = mf_refs file /\
  (again = true -> ranges_ok k2 file2 (used_pages [m] ++ rest) ranges) /\
  forall v, foreign data pages k (mf_anchors file) v -> ~ in_range start size v -> k_at k2 v = k_at k v.
Proof.
  intros Hq [Hr Hm Hw Hne Hin Hrest [Href1 Href2]] Hmk Hcf. set (h := in_range (hm_addr m) (hm_size m)).
  destruct (hold_ranges env m _ _ _ _ Hq Hr) as (Hr' & Hrel & Henv). fold h in Hr', Hrel, Henv.
  destruct (@make_pieces_ok K (held_memfile h) (held_section h) data pages frame m env Hrel Henv ok (remove_reservation m k) file
    rest ranges start size state (pieces_stopped l mid) file1 k1 Hm Hw Hr' Hrest Href1 Href2 Hmk) as (A1 & A2 & A3 & A4 & A5).
  assert (Hb : (length (option_list l) <= 1 /\ length (option_list mid) <= 1)%nat) by (destruct l, mid; simpl; lia).
  destruct (@change_failed_ok K (held_memfile h) (held_section h) data pages frame m env Hrel Henv again k1 file1
    (used_pages [m] ++ rest) ranges start size state l mid m' file2 k2 Hm Hw Hne Hin A2 A3 A4
    ltac:(unfold UINT_MAX in *; lia) ltac:(unfold is_u32, UINT_MAX in *; lia) Hcf) as (B1 & B2 & B3 & B4).
  split_and!; [done|lia| |].
  - intros ->. apply (unheld_ranges h); [done|intros v Hv; exact (@ranges_apart (held_memfile h) k2 file2 _ ranges m v B2 Hm Hv)|].
    intros m1 v _ _ Hv. unfold change_failed in Hcf. cbv zeta in Hcf.
    repeat match type of Hcf with context [let '(_, _) := ?X in _] => destruct X end.
    injection Hcf as _ _ <-. apply k_reserve_fixed_ok. by right.
  - intros v Hv Hn. apply (held_foreign m k) in Hv. destruct (A1 v Hv) as [Hf1 E1]. destruct (B3 v Hf1) as [_ E2]. etrans; [apply E2; done|].
    etrans; [apply E1; unfold in_range; lia|]. apply removed_at.
Qed.

Lemma change_section_range_ok others mem env ok w i m start size state done_ w' :
  world_ok others w -> world_small others w -> vw_ranges w !! i = Some m -> within m start size -> quiet m env ->
  hm_reserved m = true -> change_section_range mem env ok w i start size state = (done_, w') ->
  (all_reserved w' -> world_ok others w') /\ range_changed frame w w' m start size state done_ /\
  if done_ then vw_ranges w' = if decide (hm_state m = state) then vw_ranges w
                               else delete i (vw_ranges w) ++ pieces_of m start size state
  else vw_ranges w' = vw_ranges w \/ vw_ranges w' = <[i := with_reservation m false]> (vw_ranges w).
Proof.
  intros [Hr Href Hopen] Hsmall Hi Hw Hq Hres. unfold change_section_range. rewrite Hi.
  destruct (decide (hm_state m = state)) as [He|Hne].
  { intros [= <- <-]. split_and!; [done| |done]. by split. }
  assert (Hm : m ∈ vw_ranges w) by (by eapply list_elem_of_lookup_2). pose proof (delete_perm _ _ _ Hi) as Hperm.
  set (rest := used_pages (delete i (vw_ranges w))).
  assert (Hpages : used_pages (vw_ranges w) ≡ₚ used_pages [m] ++ rest)
    by (rewrite (used_pages_perm _ _ Hperm); by rewrite (used_pages_cons m (delete i _))).
  pose proof (ranges_ok_perm _ _ _ _ _ _ _ _ Hpages Hr) as Hr0. unfold world_small, UINT_MAX in Hsmall.
  assert (Hlens : (length (vw_ranges w) = S (length (delete i (vw_ranges w))))%nat) by (by rewrite Hperm at 1).
  assert (Hlrest : Z.of_nat (length rest) + 4 < UINT_MAX).
  { pose proof (used_pages_le (delete i (vw_ranges w))). unfold rest, UINT_MAX. lia. }
  cbv zeta. match goal with |- context [match ?X with (_, _) => _ end] => destruct X as [[d file] k] eqn:Hk end.
  destruct (change_kernel_ok data pages frame mem w rest m start size state d file k Hm Hw Hne Hlrest Hr0 Hk)
    as (A1 & A2 & A3 & A4 & A5).
  pose proof (rs_each _ _ _ _ _ _ _ Hr) as Hea. rewrite list.Forall_forall in Hea.
  assert (Hfor : forall m' v, m' ∈ vw_ranges w -> in_range (hm_addr m') (hm_size m') v ->
    foreign data pages (vw_k w) (mf_anchors (vw_file w)) v) by (intros m' v Hm'; by apply (ro_foreign _ _ _ _ _ _ (Hea m' Hm'))).
  destruct d; simpl.
  2:{ intros [= <- <-]. split_and!; [|split; [done..|]; simpl|by left].
      - intros _. split; simpl; [by eapply ranges_ok_perm|lia|done].
      - intros m' v Hm' Hv Hn. by apply (A2 v (Hfor m' v Hm' Hv)). }
  assert (Hready : change_ready k file rest (vw_ranges w) m start size state).
  { split; [done|done|done|done| |done|unfold UINT_MAX; lia]. intros Hst. destruct (A4 eq_refl Hst) as [? _]. split; [done|].
    pose proof (ro_aligned _ _ _ _ _ _ (Hea m Hm)) as [_ E]. destruct Hw as (_ & _ & _ & _ & W5). plia. }
  destruct (make_pieces env ok m start size state file (remove_reservation m k)) as [[r file1] k1] eqn:Hmk.
  destruct r as [pieces|l mid].
  - destruct (free_section_range m file1 k1) as [file2 k2] eqn:Hfr. intros [= <- <-].
    destruct (change_made_ok env ok k file rest _ _ m start size state pieces file1 k1 file2 k2 Hq Hready Hperm eq_refl Hmk Hfr)
      as (-> & B1 & B2 & B3).
    assert (Hpart : forall j, 0 <= j < size -> k_at k2 (start + j) = k_at k (start + j)).
    { intros j Hj. apply B3, A2, (Hfor m); [done|]. destruct Hw as (W1 & W2 & W3 & _). unfold in_range in *. lia. }
    split_and!; [|split; simpl|done].
    + intros _. split; simpl; [done|rewrite length_app; lia|done].
    + intros _ Hst _ j Hj. unfold shows_section. rewrite Hpart by done. by apply (A4 eq_refl Hst).
    + intros _ Hst _ j Hj. rewrite Hpart by done. apply A5; [done| |done]. unfold aliased. by rewrite bool_decide_eq_true_2.
    + intros m' v Hm' Hv Hn. destruct (A2 v (Hfor m' v Hm' Hv)) as [Hv1 E1]. rewrite B3 by done. by apply E1.
  - destruct (change_failed _ _ _ _ _ _ _ _ _ _) as [[m' file2] k2] eqn:Hcf. intros [= <- <-].
    destruct (change_stopped_ok env ok (again_ok ok) k file rest _ m start size state l mid file1 k1 m' file2 k2 Hq Hready Hmk Hcf)
      as (-> & B2 & B3 & B4).
    split_and!; [|split; [done..|]; simpl|simpl].
    + intros Hall. destruct (again_ok ok) eqn:Hag.
      * split; simpl; [|rewrite length_insert; lia|done]. rewrite with_reservation_same, list_insert_id by done.
        eapply ranges_ok_perm; [by symmetry|]. by apply B3.
      * exfalso. unfold all_reserved in Hall. simpl in Hall. rewrite list.Forall_forall in Hall.
        discriminate (Hall (with_reservation m false)). eapply list_elem_of_lookup_2, list_lookup_insert_eq.
        by eapply lookup_lt_Some.
    + intros m1 v Hm1 Hv Hn. destruct (A2 v (Hfor m1 v Hm1 Hv)) as [Hv1 E1]. rewrite B4 by done. by apply E1.
    + destruct (again_ok ok); [left|by right]. by rewrite with_reservation_same, list_insert_id.
Qed.

(** ** The worlds that can be reached

    [others]: the references to the section that are not its ranges' (its
    descriptors and what the server records); it has one at least while it is
    used. No range has lost its reservation before a step. Between the steps
    other threads change whatever is not the section's. *)
Inductive view_step (others : Z) : view_world (K := K) -> view_world (K := K) -> Prop :=
| view_step_map w mem ok addr size offset state :
    all_reserved w -> world_small others w ->
    0 < size -> size mod P = 0 -> 0 <= offset -> offset mod P = 0 -> state <> SECTION_NONE ->
    view_step others w (snd (mmap_section mem ok w addr size offset state))
| view_step_change w mem env ok i m start size state :
    all_reserved w -> world_small others w -> vw_ranges w !! i = Some m -> within m start size -> quiet m env ->
    view_step others w (snd (change_section_range mem env ok w i start size state))
| view_step_others w k' :
    all_reserved w ->
    (forall v, section_address data pages (vw_file w) (vw_ranges w) v -> k_used (vw_k w) v ->
       k_used k' v /\ k_at k' v = k_at (vw_k w) v) ->
    view_step others w (mk_world k' (vw_file w) (vw_ranges w)).

Lemma view_step_ok others w w' :
  view_step others w w' -> (all_reserved w -> world_ok others w) -> all_reserved w' -> world_ok others w'.
Proof.
  intros [] Hw Hres'.
  - destruct (mmap_section _ _ _ _ _ _ _) as [d w1] eqn:E. by apply (mmap_section_ok data pages frame others) in E as [? _]; auto.
  - destruct (change_section_range _ _ _ _ _ _ _ _) as [d w1] eqn:E.
    apply (change_section_range_ok others _ _ _ _ _ m) in E as [? _]; auto.
    unfold all_reserved in *. rewrite list.Forall_forall in *. eauto using list_elem_of_lookup_2.
  - destruct (Hw ltac:(done)) as [A B C]. split; [|done|done]. by eapply ranges_undisturbed.
Qed.

(** The section before it has views. *)
Definition world_start (others : Z) (w : @view_world K) : Prop :=
  vw_ranges w = [] /\ file_ok data pages frame (vw_k w) (vw_file w) [] /\ mf_refs (vw_file w) = others /\ 1 <= others.

Lemma world_reach_ok others w0 w :
  world_start others w0 -> rtc (view_step others) w0 w -> all_reserved w -> world_ok others w.
Proof.
  intros (E & Hf & Hr & Ho) Hs.
  refine (rtc_keeps (view_step others) (fun w => all_reserved w -> world_ok others w) _ _ _ Hs _);
    [intros w1 w2; apply view_step_ok|intros _].
  split; rewrite ?E; simpl; [|lia|done]. split; [done|by apply Forall_nil|]. intros v. unfold countb. simpl. lia.
Qed.


(** A change of part of a view range that succeeds does what it says: made
    mapped, every byte of the part shows the section; taken away from a mapped
    range, none shows anything; the range is replaced by its pieces. One that
    fails leaves the ranges as they were, except that the range's reservation
    may be lost. Either way no byte outside the part shows anything else than
    before. *)
Theorem section_change_exact others w0 w mem env ok i m start size state done_ w' :
  world_start others w0 -> rtc (view_step others) w0 w -> all_reserved w -> world_small others w ->
  vw_ranges w !! i = Some m -> within m start size -> quiet m env -> hm_state m <> state ->
  change_section_range mem env ok w i start size state = (done_, w') ->
  (done_ = true -> state = SECTION_ALIASED -> forall j, 0 <= j < size ->
     k_at (vw_k w') (start + j) = Some (frame (hm_offset m + (start - hm_addr m) + j))) /\
  (done_ = true -> hm_state m = SECTION_ALIASED -> forall j, 0 <= j < size -> k_at (vw_k w') (start + j) = None) /\
  (forall m' v, m' ∈ vw_ranges w -> in_range (hm_addr m') (hm_size m') v -> ~ in_range start size v ->
     k_at (vw_k w') v = k_at (vw_k w) v) /\
  if done_ then vw_ranges w' = delete i (vw_ranges w) ++ pieces_of m start size state
  else vw_ranges w' = vw_ranges w \/ vw_ranges w' = <[i := with_reservation m false]> (vw_ranges w).
Proof.
  intros H0' Hs Hres Hsm Hi Hw Hq Hne Hc. pose proof (world_reach_ok _ _ _ H0' Hs Hres) as Hok.
  assert (Hm : hm_reserved m = true).
  { unfold all_reserved in Hres. rewrite list.Forall_forall in Hres. eauto using list_elem_of_lookup_2. }
  destruct (change_section_range_ok _ _ _ _ _ _ _ _ _ _ _ _ Hok Hsm Hi Hw Hq Hm Hc) as (_ & [R1 R2 R3] & Hr).
  split_and!; [|by auto|done|].
  - intros Hd Hst j Hj. by apply R1.
  - destruct done_; [|done]. rewrite Hr. by destruct (decide (hm_state m = state)).
Qed.
End changes.


(** ** A kernel with reservations at its top *)
#[export, refine] Instance concrete_section_kernel : SectionKernel concrete_kernel := {
  k_reserve k addr size :=
    if (addr =? ck_top k) && (0 <=? size)
    then Some (mk_concrete (fun v => if inb addr size v then None else ck_at k v) (ck_top k + size)
                 (fun v => ck_gone k v /\ v < ck_top k))
    else None;
  k_reserve_fixed k addr size :=
    mk_concrete (ck_at k) (Z.max (ck_top k) (addr + size))
      (fun v => (ck_gone k v \/ ck_top k <= v) /\ ~ in_range addr size v);
  k_release k addr size := mk_concrete (ck_at k) (ck_top k) (fun v => ck_gone k v \/ in_range addr size v)
}.
Proof.
  - intros k addr size k' Hk. destruct ((addr =? ck_top k) && (0 <=? size)) eqn:E; [|done]. injection Hk as <-. btrue. subst.
    simpl. split_and!.
    + intros v Hv. split; [unfold in_range in Hv; lia|]. by destruct (inb_spec (ck_top k) size v).
    + intros v Hv. by destruct (inb_spec (ck_top k) size v).
    + intros v. unfold in_range. destruct (decide (v < ck_top k)); intuition lia.
  - intros k addr size v. simpl. split; [done|]. unfold in_range.
    destruct (decide (addr <= v < addr + size)) as [Hin|Hin].
    + split; [tauto|]. intros _. split; [lia|tauto].
    + split; [|intros [[H1 H2]|]; [split; [lia|]|tauto]; intros [[|] _]; [tauto|lia]].
      intros [H1 H2]. left. split; [|tauto]. destruct (decide (v < ck_top k)); [done|]. exfalso. apply H2. split; [right; lia|done].
  - intros k addr size v. simpl. split; [done|]. tauto.
Defined.

Definition demo_world : view_world := mk_world demo_kernel demo_file [].
Definition demo_mapped : view_world :=
  snd (mmap_section (fun _ => true) true demo_world 262144 8192 0 SECTION_ALIASED).

Lemma demo_start : world_start 65536 2 demo_frame 1 demo_world.
Proof. split_and!; [done|apply demo_file_ok|done|lia]. Qed.

Lemma demo_reserved : all_reserved demo_world /\ all_reserved demo_mapped.
Proof. split; [by apply Forall_nil|]. by apply Forall_singleton. Qed.

Lemma demo_mapped_reached : rtc (view_step 65536 2 1) demo_world demo_mapped.
Proof. apply rtc_once, view_step_map; try done. apply demo_reserved. Qed.

(** Hiding the second page of the view, for which no piece can be reserved. *)
Definition demo_hide (again : bool) : bool * view_world :=
  change_section_range (fun _ => true) (fun _ k => k) (mk_pieces piece_made no_reservation piece_made again)
    demo_mapped 0 266240 4096 SECTION_HOLE.

(** The range keeps its reservation or is left without one, as virtmem allows. *)
Example demo_lost :
  fst (demo_hide true) = false /\ vw_ranges (snd (demo_hide true)) = [mk_mapping 262144 8192 0 SECTION_ALIASED] /\
  fst (demo_hide false) = false /\ vw_ranges (snd (demo_hide false)) = [mk_range 262144 8192 0 SECTION_ALIASED false].
Proof. by vm_compute. Qed.


Lemma section_change_exact_witness :
  let c := change_section_range (fun _ => true) (fun _ k => k) (mk_pieces piece_made piece_made piece_made true)
             demo_mapped 0 266240 4096 SECTION_HOLE in
  k_at (vw_k (snd c)) (266240 + 1) = None /\ length (vw_ranges (snd c)) = 2%nat.
Proof.
  cbv zeta. destruct (change_section_range _ _ _ _ _ _ _ _) as [d w'] eqn:Hc.
  assert (Hd : d = true) by (apply (f_equal fst) in Hc; simpl in Hc; rewrite <- Hc; by vm_compute). subst d.
  destruct (section_change_exact 65536 2 demo_frame 1 demo_world demo_mapped (fun _ => true) (fun _ k => k)
    (mk_pieces piece_made piece_made piece_made true) 0
    (mk_mapping 262144 8192 0 SECTION_ALIASED) 266240 4096 SECTION_HOLE true w' demo_start demo_mapped_reached
    (proj2 demo_reserved)) as (_ & H2 & _ & H4); [done|by vm_compute|by unfold within|done|done|done|].
  split; [apply H2; [done|done|lia]|]. simpl. rewrite H4. by vm_compute.
Defined.
