(* ===== verification/CodeArena.v ===== *)
(** * Translated code arenas (horizon-wine/source/box64_code_arena.h)

    An arena of 32-bit words whose chunk headers lie between the blocks they
    describe: size, prev_size, free and next_free in the 16 bytes before the
    payload, prev_free in the first word of the payload of a free chunk. The
    memory is one map from byte offsets to words, shared with the owner of the
    blocks, so that a store of the allocator into a block would show. *)
From S2P Require Import Prelude.
Local Open Scope Z_scope.

Definition CODE_ARENA_ALIGN : Z := 16.
Definition CODE_ARENA_HEADER : Z := 16.
Definition CODE_ARENA_MIN : Z := CODE_ARENA_HEADER + CODE_ARENA_ALIGN.
Definition CODE_ARENA_BINS : Z := 24.
Definition CODE_ARENA_WALK : Z := 32.
Definition CODE_ARENA_NONE : Z := 4294967295.

(** ** The arena *)

(** The fields of a chunk, with their byte offsets in it. *)
Inductive code_chunk := c_size | c_prev_size | c_free | c_next_free | c_prev_free.

#[export] Instance code_chunk_eq_dec : EqDecision code_chunk.
Proof. solve_decision. Defined.

Definition field_offset (f : code_chunk) : Z :=
  match f with c_size => 0 | c_prev_size => 4 | c_free => 8 | c_next_free => 12 | c_prev_free => 16 end.

Record code_arena := mk_code_arena {
  ca_base : gmap Z Z;      (** the words of the arena, by byte offset *)
  ca_size : Z;
  ca_live : Z;
  ca_bins : list Z
}.

Definition word (arena : code_arena) (x : Z) : Z := default 0 (ca_base arena !! x).

Definition store_word (arena : code_arena) (x v : Z) : code_arena :=
  mk_code_arena (<[x := v]> (ca_base arena)) (ca_size arena) (ca_live arena) (ca_bins arena).

(** [code_chunk_at( arena, offset )->f], read and written. *)
Definition code_chunk_at (arena : code_arena) (offset : Z) (f : code_chunk) : Z :=
  word arena (offset + field_offset f).

Definition set_chunk (arena : code_arena) (offset : Z) (f : code_chunk) (v : Z) : code_arena :=
  store_word arena (offset + field_offset f) v.

(** [memset( chunk, 0, sizeof( *chunk ) )]: eight words. *)
Definition clear_chunk (arena : code_arena) (offset : Z) : code_arena :=
  foldl (fun a k => store_word a (offset + k) 0) arena [0; 4; 8; 12; 16; 20; 24; 28].

Definition set_live (arena : code_arena) (live : Z) : code_arena :=
  mk_code_arena (ca_base arena) (ca_size arena) live (ca_bins arena).

Definition set_bin (arena : code_arena) (bin offset : Z) : code_arena :=
  mk_code_arena (ca_base arena) (ca_size arena) (ca_live arena) (<[Z.to_nat bin := offset]> (ca_bins arena)).

Definition bin_head (arena : code_arena) (bin : Z) : Z := default CODE_ARENA_NONE (ca_bins arena !! Z.to_nat bin).

Fixpoint bin_loop (steps : nat) (size bin : Z) : Z :=
  match steps with
  | O => bin
  | S steps => if 1 <? size then bin_loop steps (Z.shiftr size 1) (bin + 1) else bin
  end.

Definition code_arena_bin (size : Z) : Z := bin_loop (Z.to_nat (CODE_ARENA_BINS - 1)) (Z.shiftr size 5) 0.

Definition code_arena_unlink (arena : code_arena) (offset : Z) : code_arena :=
  let prev := code_chunk_at arena offset c_prev_free in
  let next := code_chunk_at arena offset c_next_free in
  let arena := if negb (prev =? CODE_ARENA_NONE) then set_chunk arena prev c_next_free next
               else set_bin arena (code_arena_bin (code_chunk_at arena offset c_size)) next in
  let next := code_chunk_at arena offset c_next_free in
  let arena := if negb (next =? CODE_ARENA_NONE)
               then set_chunk arena next c_prev_free (code_chunk_at arena offset c_prev_free) else arena in
  let arena := set_chunk arena offset c_free 0 in
  let arena := set_chunk arena offset c_prev_free CODE_ARENA_NONE in
  set_chunk arena offset c_next_free CODE_ARENA_NONE.

Definition code_arena_link (arena : code_arena) (offset : Z) : code_arena :=
  let bin := code_arena_bin (code_chunk_at arena offset c_size) in
  let arena := set_chunk arena offset c_free 1 in
  let arena := set_chunk arena offset c_prev_free CODE_ARENA_NONE in
  let arena := set_chunk arena offset c_next_free (bin_head arena bin) in
  let next := code_chunk_at arena offset c_next_free in
  let arena := if negb (next =? CODE_ARENA_NONE) then set_chunk arena next c_prev_free offset else arena in
  set_bin arena bin offset.

Definition code_arena_round (size : Z) : Z :=
  let want := u32 (u32 size + CODE_ARENA_HEADER) in
  let want := Z.land (u32 (want + CODE_ARENA_ALIGN - 1)) (UINT_MAX - (CODE_ARENA_ALIGN - 1)) in
  if want <? CODE_ARENA_MIN then CODE_ARENA_MIN else want.

(** [memory] is what the arena's pages hold before. *)
Definition code_arena_init (memory : gmap Z Z) (size : Z) : code_arena :=
  let size := u32 (Z.land size (UINT64_MAX - (CODE_ARENA_ALIGN - 1))) in
  let arena := mk_code_arena memory size 0 (replicate (Z.to_nat CODE_ARENA_BINS) CODE_ARENA_NONE) in
  if size <? CODE_ARENA_MIN then arena else
  let arena := clear_chunk arena 0 in
  let arena := set_chunk arena 0 c_size size in
  code_arena_link arena 0.

(** The chunks tried in one bin. *)
Fixpoint search_bin (tried : nat) (arena : code_arena) (want offset : Z) : option Z :=
  match tried with
  | O => None
  | S tried =>
      if offset =? CODE_ARENA_NONE then None else
      if want <=? code_chunk_at arena offset c_size then Some offset else
      search_bin tried arena want (code_chunk_at arena offset c_next_free)
  end.

Fixpoint search_bins (bins : nat) (arena : code_arena) (want bin : Z) : Z :=
  match bins with
  | O => CODE_ARENA_NONE
  | S bins =>
      match search_bin (Z.to_nat CODE_ARENA_WALK) arena want (bin_head arena bin) with
      | Some offset => offset
      | None => search_bins bins arena want (bin + 1)
      end
  end.

Definition code_arena_search (arena : code_arena) (want : Z) : Z :=
  let bin := code_arena_bin want in search_bins (Z.to_nat (CODE_ARENA_BINS - bin)) arena want bin.

Definition code_arena_fits (arena : code_arena) (size : Z) : bool :=
  negb (code_arena_search arena (code_arena_round size) =? CODE_ARENA_NONE).

(** The tail of a chunk that is worth keeping on its own. *)
Definition split_chunk (arena : code_arena) (offset want rest : Z) : code_arena :=
  let tail := u32 (offset + want) in
  let after := u32 (offset + code_chunk_at arena offset c_size) in
  let arena := clear_chunk arena tail in
  let arena := set_chunk arena tail c_size rest in
  let arena := set_chunk arena tail c_prev_size want in
  let arena := set_chunk arena offset c_size want in
  let arena := if after <? ca_size arena then set_chunk arena after c_prev_size rest else arena in
  code_arena_link arena tail.

Definition code_arena_alloc (arena : code_arena) (size : Z) : Z * code_arena :=
  let want := code_arena_round size in
  let offset := code_arena_search arena want in
  if offset =? CODE_ARENA_NONE then (0, arena) else
  let arena := code_arena_unlink arena offset in
  let rest := u32 (code_chunk_at arena offset c_size - want) in
  let arena := if CODE_ARENA_MIN <=? rest then split_chunk arena offset want rest else arena in
  let arena := set_live arena (u32 (ca_live arena + code_chunk_at arena offset c_size)) in
  (u32 (offset + CODE_ARENA_HEADER), arena).

(** Merges a chunk with the free one after it. *)
Definition merge_next (arena : code_arena) (offset : Z) : code_arena :=
  let after := u32 (offset + code_chunk_at arena offset c_size) in
  if (after <? ca_size arena) && nonzero (code_chunk_at arena after c_free) then
    let arena := code_arena_unlink arena after in
    set_chunk arena offset c_size (u32 (code_chunk_at arena offset c_size + code_chunk_at arena after c_size))
  else arena.

(** Merges a chunk with the free one before it; gives the chunk it is then part of. *)
Definition merge_prev (arena : code_arena) (offset : Z) : Z * code_arena :=
  if nonzero (code_chunk_at arena offset c_prev_size) then
    let before := u32 (offset - code_chunk_at arena offset c_prev_size) in
    if nonzero (code_chunk_at arena before c_free) then
      let arena := code_arena_unlink arena before in
      (before, set_chunk arena before c_size
                 (u32 (code_chunk_at arena before c_size + code_chunk_at arena offset c_size)))
    else (offset, arena)
  else (offset, arena).

Definition code_arena_free (arena : code_arena) (payload : Z) : Z * code_arena :=
  let offset := u32 (payload - CODE_ARENA_HEADER) in
  if (payload <? CODE_ARENA_HEADER) || (ca_size arena <=? payload) ||
     nonzero (code_chunk_at arena offset c_free) then (0, arena) else
  let arena := set_live arena (u32 (ca_live arena - code_chunk_at arena offset c_size)) in
  let arena := merge_next arena offset in
  let (offset, arena) := merge_prev arena offset in
  let after := u32 (offset + code_chunk_at arena offset c_size) in
  let arena := if after <? ca_size arena
               then set_chunk arena after c_prev_size (code_chunk_at arena offset c_size) else arena in
  let arena := code_arena_link arena offset in
  (code_chunk_at arena offset c_size, arena).

(** ** Words and fields *)

Definition field_ends (a b : Z) : Prop := a = b \/ a + 32 <= b \/ b + 32 <= a.

Lemma word_store a x v y : word (store_word a x v) y = if decide (x = y) then v else word a y.
Proof.
  unfold word, store_word. simpl. destruct (decide (x = y)) as [->|Hne].
  - by rewrite lookup_insert_eq.
  - by rewrite lookup_insert_ne.
Qed.

Lemma chunk_at_set a o f v o' f' :
  field_ends o o' ->
  code_chunk_at (set_chunk a o f v) o' f' = if decide (o = o' /\ f = f') then v else code_chunk_at a o' f'.
Proof.
  intros Ho. unfold code_chunk_at, set_chunk, field_ends in *. rewrite word_store.
  destruct (decide (o = o' /\ f = f')) as [[-> ->]|Hne]; [by rewrite decide_True|].
  rewrite decide_False; [done|]. intros He. apply Hne.
  destruct f, f'; simpl in He; split; (lia || done).
Qed.

Lemma chunk_at_set_bin a b v o f : code_chunk_at (set_bin a b v) o f = code_chunk_at a o f.
Proof. done. Qed.

Lemma chunk_at_set_live a v o f : code_chunk_at (set_live a v) o f = code_chunk_at a o f.
Proof. done. Qed.

Lemma word_clear a o x :
  word (clear_chunk a o) x = if decide (x - o ∈ [0; 4; 8; 12; 16; 20; 24; 28]) then 0 else word a x.
Proof.
  unfold clear_chunk. cbn [foldl]. rewrite !word_store.
  repeat match goal with |- context [decide (?e = x)] => destruct (decide (e = x)) end;
    destruct (decide _) as [Hin|Hin]; try done.
  all: rewrite !elem_of_cons in Hin; exfalso; try (apply Hin; lia).
  destruct Hin as [?|[?|[?|[?|[?|[?|[?|[?|Hin]]]]]]]]; try lia. by apply not_elem_of_nil in Hin.
Qed.

Lemma chunk_at_clear a o o' f :
  field_ends o o' ->
  code_chunk_at (clear_chunk a o) o' f = if decide (o = o') then 0 else code_chunk_at a o' f.
Proof.
  intros Ho. unfold code_chunk_at, field_ends in *. rewrite word_clear.
  destruct (decide (o = o')) as [->|Hne].
  - rewrite decide_True; [done|]. rewrite !elem_of_cons. destruct f; simpl; lia.
  - rewrite decide_False; [done|]. rewrite !elem_of_cons, elem_of_nil. destruct f; simpl; lia.
Qed.

Lemma size_clear a o : ca_size (clear_chunk a o) = ca_size a.
Proof. done. Qed.

(** ** Bins *)

Lemma bin_loop_range n size bin : bin <= bin_loop n size bin <= bin + Z.of_nat n.
Proof.
  revert size bin. induction n as [|n IH]; intros size bin; simpl; [lia|].
  destruct (1 <? size); [specialize (IH (Z.shiftr size 1) (bin + 1)); lia|lia].
Qed.

Lemma bin_loop_mono n s t bin : s <= t -> bin_loop n s bin <= bin_loop n t bin.
Proof.
  revert s t bin. induction n as [|n IH]; intros s t bin Hst; simpl; [lia|].
  destruct (1 <? s) eqn:Hs, (1 <? t) eqn:Ht; btrue.
  - apply IH. rewrite !Z.shiftr_div_pow2 by lia. apply Z.div_le_mono; lia.
  - lia.
  - pose proof (bin_loop_range n (Z.shiftr t 1) (bin + 1)). lia.
  - lia.
Qed.

Lemma code_arena_bin_range size : 0 <= code_arena_bin size < 24.
Proof.
  unfold code_arena_bin. pose proof (bin_loop_range (Z.to_nat (CODE_ARENA_BINS - 1)) (Z.shiftr size 5) 0) as H.
  unfold CODE_ARENA_BINS in *. lia.
Qed.

Lemma code_arena_bin_mono s t : s <= t -> code_arena_bin s <= code_arena_bin t.
Proof.
  intros Hst. apply bin_loop_mono. rewrite !Z.shiftr_div_pow2 by lia. apply Z.div_le_mono; lia.
Qed.

(** Every chunk of a higher bin is large enough. *)
Lemma code_arena_bin_fits want size : code_arena_bin want < code_arena_bin size -> want <= size.
Proof.
  intros Hlt. destruct (Z.le_gt_cases want size) as [|Hgt]; [done|].
  pose proof (code_arena_bin_mono size want ltac:(lia)). lia.
Qed.

(** ** Rounding *)

Lemma round_mask x : 0 <= x < 4294967296 -> Z.land x (UINT_MAX - (CODE_ARENA_ALIGN - 1)) = x / 16 * 16.
Proof.
  intros Hx. replace (UINT_MAX - (CODE_ARENA_ALIGN - 1)) with (Z.ldiff (Z.ones 32) (Z.ones 4)) by done.
  replace (x / 16 * 16) with (Z.shiftl (Z.shiftr x 4) 4)
    by (rewrite Z.shiftl_mul_pow2, Z.shiftr_div_pow2 by lia; done).
  apply Z.bits_inj'. intros n Hn. rewrite Z.land_spec, Z.ldiff_spec, Z.shiftl_spec by lia.
  destruct (decide (n < 4)).
  - rewrite (Z.ones_spec_low 4 n) by lia. rewrite (Z.testbit_neg_r _ (n - 4)) by lia.
    by rewrite andb_false_r, andb_false_r.
  - rewrite (Z.ones_spec_high 4 n) by lia. rewrite Z.shiftr_spec by lia. replace (n - 4 + 4) with n by lia.
    destruct (decide (n < 32)).
    + rewrite (Z.ones_spec_low 32 n) by lia. by rewrite !andb_true_r.
    + rewrite (Z.ones_spec_high 32 n) by lia.
      assert (Z.testbit x n = false) as -> by (apply (Z.bits_above_log2 x n); [lia|];
        destruct (decide (x = 0)) as [->|]; [simpl; lia|]; apply Z.log2_lt_pow2; [lia|];
        assert (2 ^ 32 <= 2 ^ n) by (apply Z.pow_le_mono_r; lia); change (2 ^ 32) with 4294967296 in *; lia).
      done.
Qed.

(** The sizes for which the rounding does not wrap around. *)
Definition size_fits (size : Z) : Prop := 0 <= size <= UINT_MAX - 31.

Lemma code_arena_round_spec size :
  size_fits size ->
  size + 16 <= code_arena_round size < 4294967296 /\ 32 <= code_arena_round size /\
  code_arena_round size `mod` 16 = 0 /\ code_arena_round size < Z.max 33 (size + 32).
Proof.
  intros Hs. unfold size_fits, UINT_MAX in Hs. unfold code_arena_round.
  rewrite (u32_small size) by zlia. rewrite (u32_small (size + _)) by (unfold CODE_ARENA_HEADER; zlia).
  unfold CODE_ARENA_HEADER, CODE_ARENA_MIN.
  rewrite (u32_small (_ - 1)) by (unfold CODE_ARENA_ALIGN; zlia).
  rewrite round_mask by (unfold CODE_ARENA_ALIGN; lia). unfold CODE_ARENA_ALIGN, CODE_ARENA_HEADER.
  destruct (_ <? _) eqn:E; btrue; [|zlia]. change ((16 + 16) `mod` 16) with 0. zlia.
Qed.

(** ** The chunks that tile an arena

    The ghost state is the list of chunks in address order, each with its size
    and whether it is free. *)
Abbreviation chunks := (list (Z * bool)).

Record placed := mk_placed { pl_off : Z; pl_prev : Z; pl_size : Z; pl_free : bool }.

Fixpoint place (o p : Z) (cs : chunks) : list placed :=
  match cs with
  | [] => []
  | (s, f) :: cs => mk_placed o p s f :: place (o + s) s cs
  end.

Fixpoint total (cs : chunks) : Z :=
  match cs with [] => 0 | (s, _) :: cs => s + total cs end.

Fixpoint live_total (cs : chunks) : Z :=
  match cs with [] => 0 | (s, f) :: cs => (if f then 0 else s) + live_total cs end.

Definition last_size (p : Z) (cs : chunks) : Z := default p (fst <$> last cs).

Definition chunk_ok (c : Z * bool) : Prop := 32 <= fst c /\ fst c `mod` 16 = 0.

(** No two free chunks lie side by side. *)
Fixpoint merged (cs : chunks) : Prop :=
  match cs with
  | (_, true) :: ((_, true) :: _) => False
  | _ :: cs => merged cs
  | [] => True
  end.

Lemma total_app cs1 cs2 : total (cs1 ++ cs2) = total cs1 + total cs2.
Proof. induction cs1 as [|[s f] cs1 IH]; simpl; lia. Qed.

Lemma live_total_app cs1 cs2 : live_total (cs1 ++ cs2) = live_total cs1 + live_total cs2.
Proof. induction cs1 as [|[s f] cs1 IH]; simpl; [lia|]. destruct f; lia. Qed.

Lemma total_nonneg cs : Forall chunk_ok cs -> 0 <= total cs.
Proof. induction 1 as [|[s f] cs [H _] _ IH]; simpl in *; lia. Qed.

Lemma live_total_le cs : Forall chunk_ok cs -> 0 <= live_total cs <= total cs.
Proof. induction 1 as [|[s f] cs [H _] _ IH]; simpl in *; [lia|]. destruct f; lia. Qed.

Lemma total_mod cs : Forall chunk_ok cs -> total cs `mod` 16 = 0.
Proof. induction 1 as [|[s f] cs [_ H] _ IH]; simpl in *; [done|]. zlia. Qed.

Lemma last_size_snoc p cs c : last_size p (cs ++ [c]) = fst c.
Proof. unfold last_size. by rewrite last_snoc. Qed.

Lemma last_size_cons p s f cs : last_size p ((s, f) :: cs) = last_size s cs.
Proof. unfold last_size. rewrite last_cons. by destruct (last cs). Qed.

Lemma place_app o p cs1 cs2 :
  place o p (cs1 ++ cs2) = place o p cs1 ++ place (o + total cs1) (last_size p cs1) cs2.
Proof.
  revert o p. induction cs1 as [|[s f] cs1 IH]; intros o p; simpl.
  - by rewrite Z.add_0_r.
  - rewrite IH, last_size_cons. do 3 f_equal; lia.
Qed.

Lemma elem_of_place x o p cs :
  x ∈ place o p cs -> exists cs1 s f cs2, cs = cs1 ++ (s, f) :: cs2 /\
    x = mk_placed (o + total cs1) (last_size p cs1) s f.
Proof.
  revert o p. induction cs as [|[s f] cs IH]; intros o p; simpl; [by intros ?%not_elem_of_nil|].
  intros [->|H]%elem_of_cons.
  - exists [], s, f, cs. split; [done|]. simpl. by rewrite Z.add_0_r.
  - apply IH in H as (cs1 & s' & f' & cs2 & -> & ->). exists ((s, f) :: cs1), s', f', cs2.
    split; [done|]. rewrite last_size_cons. simpl. f_equal; lia.
Qed.

Lemma place_middle o p cs1 s f cs2 :
  mk_placed (o + total cs1) (last_size p cs1) s f ∈ place o p (cs1 ++ (s, f) :: cs2).
Proof. rewrite place_app. simpl. set_solver. Qed.

Lemma place_bounds x o p cs :
  Forall chunk_ok cs -> x ∈ place o p cs ->
  o <= pl_off x /\ pl_off x + pl_size x <= o + total cs /\ 32 <= pl_size x /\ (pl_off x - o) `mod` 16 = 0 /\
  pl_size x `mod` 16 = 0.
Proof.
  intros Hok Hx. apply elem_of_place in Hx as (cs1 & s & f & cs2 & -> & ->). simpl.
  apply Forall_app in Hok as [H1 H2]. inversion H2 as [|? ? [H3 H4] H5]; subst. simpl in *.
  pose proof (total_nonneg _ H1). pose proof (total_nonneg _ H5). pose proof (total_mod _ H1).
  rewrite total_app. simpl. replace (o + total cs1 - o) with (total cs1) by lia. lia.
Qed.

Lemma place_apart x y o p cs :
  Forall chunk_ok cs -> x ∈ place o p cs -> y ∈ place o p cs ->
  x = y \/ pl_off x + pl_size x <= pl_off y \/ pl_off y + pl_size y <= pl_off x.
Proof.
  revert o p. induction cs as [|[s f] cs IH]; intros o p Hok; simpl; [by intros ?%not_elem_of_nil|].
  inversion Hok; subst.
  intros [->|Hx]%elem_of_cons [->|Hy]%elem_of_cons; [by left|..|by eapply IH].
  - eapply place_bounds in Hy; [|done]. simpl. lia.
  - eapply place_bounds in Hx; [|done]. simpl. lia.
Qed.

Definition is_off (cs : chunks) (o : Z) : Prop := exists x, x ∈ place 0 0 cs /\ pl_off x = o.

Lemma is_off_ends cs o o' : Forall chunk_ok cs -> is_off cs o -> is_off cs o' -> field_ends o o'.
Proof.
  intros Hok (x & Hx & <-) (y & Hy & <-). unfold field_ends.
  destruct (place_apart _ _ _ _ _ Hok Hx Hy) as [->|H]; [by left|].
  pose proof (place_bounds _ _ _ _ Hok Hx). pose proof (place_bounds _ _ _ _ Hok Hy). lia.
Qed.

Lemma is_off_middle cs1 s f cs2 : is_off (cs1 ++ (s, f) :: cs2) (total cs1).
Proof. eexists. split; [apply (place_middle 0 0)|done]. Qed.

(** ** Doubly linked free lists *)

Definition headd (d : Z) (l : list Z) : Z := default d (head l).
Definition lastd (d : Z) (l : list Z) : Z := default d (last l).

(** The chunks [l] linked in order, between [p] and [n]. *)
Fixpoint dlseg (a : code_arena) (p : Z) (l : list Z) (n : Z) : Prop :=
  match l with
  | [] => True
  | o :: l => code_chunk_at a o c_prev_free = p /\ code_chunk_at a o c_next_free = headd n l /\ dlseg a o l n
  end.

Lemma headd_app d l1 l2 : headd d (l1 ++ l2) = headd (headd d l2) l1.
Proof. by destruct l1. Qed.

Lemma lastd_cons d o l : lastd d (o :: l) = lastd o l.
Proof. unfold lastd. rewrite last_cons. by destruct (last l). Qed.

Lemma lastd_elem d o l : lastd d (o :: l) ∈ o :: l.
Proof.
  unfold lastd. destruct (last (o :: l)) as [x|] eqn:Hl.
  - apply last_Some in Hl as [l' ->]. set_solver.
  - by apply last_None in Hl.
Qed.

Lemma dlseg_app a p l1 l2 n :
  dlseg a p (l1 ++ l2) n <-> dlseg a p l1 (headd n l2) /\ dlseg a (lastd p l1) l2 n.
Proof.
  revert p. induction l1 as [|o l1 IH]; intros p; simpl; [unfold lastd; simpl; tauto|].
  rewrite IH, headd_app, lastd_cons. tauto.
Qed.

Lemma dlseg_ext a a' p l n :
  (forall o, o ∈ l -> code_chunk_at a' o c_prev_free = code_chunk_at a o c_prev_free /\
                      code_chunk_at a' o c_next_free = code_chunk_at a o c_next_free) ->
  dlseg a p l n -> dlseg a' p l n.
Proof.
  revert p. induction l as [|o l IH]; intros p He; simpl; [done|]. intros (H1 & H2 & H3).
  destruct (He o ltac:(set_solver)) as [E1 E2]. split_and!; [congruence..|].
  apply IH; [|done]. intros o' Ho'. apply He. set_solver.
Qed.

(** The segment after its last chunk is linked to something else. *)
Lemma dlseg_set_next a a' p l n n' :
  NoDup l ->
  (forall o, o ∈ l -> code_chunk_at a' o c_prev_free = code_chunk_at a o c_prev_free /\
     code_chunk_at a' o c_next_free = if decide (o = lastd p l) then n' else code_chunk_at a o c_next_free) ->
  dlseg a p l n -> dlseg a' p l n'.
Proof.
  revert p. induction l as [|o l IH]; intros p Hn He; simpl; [done|]. intros (H1 & H2 & H3).
  inversion Hn as [|? ? Ho Hl]; subst.
  destruct (He o ltac:(set_solver)) as [E1 E2]. rewrite lastd_cons in E2. split_and!; [done|..].
  - destruct l as [|q l]; [by rewrite E2, decide_True|]. rewrite E2, H2, decide_False; [done|].
    intros Heq. apply Ho. pose proof (lastd_elem o q l) as Hin. by rewrite <- Heq in Hin.
  - apply IH; [done| |done]. intros o' Ho'. destruct (He o' ltac:(set_solver)) as [F1 F2].
    rewrite lastd_cons in F2. split; [done|]. rewrite F2. done.
Qed.

(** The segment after its first chunk is linked back to something else. *)
Lemma dlseg_set_prev a a' p p' l n :
  NoDup l ->
  (forall o, o ∈ l -> code_chunk_at a' o c_next_free = code_chunk_at a o c_next_free /\
     code_chunk_at a' o c_prev_free = if decide (o = headd n l) then p' else code_chunk_at a o c_prev_free) ->
  dlseg a p l n -> dlseg a' p' l n.
Proof.
  destruct l as [|o l]; intros Hn He; simpl; [done|]. intros (H1 & H2 & H3).
  inversion Hn as [|? ? Ho Hl]; subst. unfold headd in He. simpl in He.
  destruct (He o ltac:(set_solver)) as [E1 E2]. rewrite decide_True in E2 by done.
  split_and!; [done|congruence|]. eapply dlseg_ext; [|exact H3].
  intros o' Ho'. destruct (He o' ltac:(set_solver)) as [F1 F2]. rewrite decide_False in F2; [done|].
  intros ->. done.
Qed.

(** ** Effects of linking and unlinking on the fields of chunks *)

Ltac field_cases :=
  repeat case_decide; splits_hyps; subst; try congruence;
  exfalso; first
    [ match goal with H : ~ (_ /\ _) |- _ => apply H; split_and!; congruence end
    | match goal with H : _ = CODE_ARENA_NONE \/ _ |- _ => destruct H as [|[? ?]]; congruence end ].

Section fields.
Context (a : code_arena) (cs : chunks) (o : Z).
Context (Hok : Forall chunk_ok cs) (Ho : is_off cs o).

Lemma unlink_at p n o' f :
  code_chunk_at a o c_prev_free = p -> code_chunk_at a o c_next_free = n ->
  p = CODE_ARENA_NONE \/ is_off cs p /\ p <> o -> n = CODE_ARENA_NONE \/ is_off cs n /\ n <> o ->
  is_off cs o' -> o' <> CODE_ARENA_NONE ->
  code_chunk_at (code_arena_unlink a o) o' f =
    match f with
    | c_free => if decide (o' = o) then 0 else code_chunk_at a o' f
    | c_next_free => if decide (o' = o) then CODE_ARENA_NONE else if decide (o' = p) then n else code_chunk_at a o' f
    | c_prev_free => if decide (o' = o) then CODE_ARENA_NONE else if decide (o' = n) then p else code_chunk_at a o' f
    | _ => code_chunk_at a o' f
    end.
Proof using Ho Hok.
  intros Hp Hn Hpo Hno Ho' Hno'. unfold code_arena_unlink. rewrite Hp, Hn.
  assert (H0 : field_ends o o') by (by eapply is_off_ends).
  rewrite !chunk_at_set by done.
  set (a1 := if negb (p =? CODE_ARENA_NONE) then _ else _).
  assert (E : forall x f, is_off cs x ->
            code_chunk_at a1 x f = if decide (p <> CODE_ARENA_NONE /\ p = x /\ f = c_next_free) then n else code_chunk_at a x f).
  { intros x f' Hx. unfold a1. destruct (Z.eqb_spec p CODE_ARENA_NONE) as [->|Hne]; cbn [negb].
    - rewrite decide_False by tauto. done.
    - destruct Hpo as [?|[Hpo ?]]; [done|]. rewrite chunk_at_set by (by eapply is_off_ends).
      destruct (decide (p = x /\ c_next_free = f')) as [[-> <-]|Hd]; [by rewrite decide_True by done|].
      rewrite decide_False; [done|]. intros (_ & -> & ->). by apply Hd. }
  assert (Eo : forall f, code_chunk_at a1 o f = code_chunk_at a o f).
  { intros f'. rewrite E by done. rewrite decide_False; [done|]. intros (? & -> & _). by destruct Hpo as [|[? ?]]. }
  rewrite !Eo, Hp, Hn. clear Eo.
  set (a2 := if negb (n =? CODE_ARENA_NONE) then _ else _).
  assert (E2 : code_chunk_at a2 o' f = if decide (n <> CODE_ARENA_NONE /\ n = o' /\ f = c_prev_free) then p else code_chunk_at a1 o' f).
  { unfold a2. destruct (Z.eqb_spec n CODE_ARENA_NONE) as [->|Hne]; cbn [negb].
    - rewrite decide_False by tauto. done.
    - destruct Hno as [?|[Hno ?]]; [done|]. rewrite chunk_at_set by (by eapply is_off_ends).
      destruct (decide (n = o' /\ c_prev_free = f)) as [[-> <-]|Hd]; [by rewrite decide_True by done|].
      rewrite decide_False; [done|]. intros (_ & -> & ->). by apply Hd. }
  rewrite E2, (E o') by done. clear E E2 a1 a2.
  destruct f; field_cases.
Qed.

Lemma unlink_bins :
  ca_bins (code_arena_unlink a o) =
    if decide (code_chunk_at a o c_prev_free = CODE_ARENA_NONE)
    then <[Z.to_nat (code_arena_bin (code_chunk_at a o c_size)) := code_chunk_at a o c_next_free]> (ca_bins a)
    else ca_bins a.
Proof using.
  unfold code_arena_unlink. simpl. repeat case_match; btrue; simpl; case_decide; try done; congruence.
Qed.

Lemma unlink_size : ca_size (code_arena_unlink a o) = ca_size a /\ ca_live (code_arena_unlink a o) = ca_live a.
Proof using. unfold code_arena_unlink. simpl. by repeat case_match. Qed.

Lemma link_at n o' f :
  bin_head a (code_arena_bin (code_chunk_at a o c_size)) = n ->
  n = CODE_ARENA_NONE \/ is_off cs n /\ n <> o -> is_off cs o' -> o' <> CODE_ARENA_NONE ->
  code_chunk_at (code_arena_link a o) o' f =
    match f with
    | c_free => if decide (o' = o) then 1 else code_chunk_at a o' f
    | c_next_free => if decide (o' = o) then n else code_chunk_at a o' f
    | c_prev_free => if decide (o' = o) then CODE_ARENA_NONE else if decide (o' = n) then o else code_chunk_at a o' f
    | _ => code_chunk_at a o' f
    end.
Proof using Ho Hok.
  intros Hn Hno Ho' Hno'. unfold code_arena_link. rewrite chunk_at_set_bin.
  change (bin_head (set_chunk (set_chunk a o c_free 1) o c_prev_free CODE_ARENA_NONE) ?b) with (bin_head a b).
  rewrite Hn. rewrite !(chunk_at_set _ o c_next_free) by (by left). rewrite decide_True by done.
  assert (H0 : field_ends o o') by (by eapply is_off_ends).
  set (a2 := if negb (n =? CODE_ARENA_NONE) then _ else _).
  assert (E2 : code_chunk_at a2 o' f = if decide (n <> CODE_ARENA_NONE /\ n = o' /\ f = c_prev_free) then o else
     code_chunk_at (set_chunk (set_chunk (set_chunk a o c_free 1) o c_prev_free CODE_ARENA_NONE) o c_next_free n) o' f).
  { unfold a2. destruct (Z.eqb_spec n CODE_ARENA_NONE) as [->|Hne]; cbn [negb].
    - rewrite decide_False by tauto. done.
    - destruct Hno as [?|[Hno ?]]; [done|]. rewrite chunk_at_set by (by eapply is_off_ends).
      destruct (decide (n = o' /\ c_prev_free = f)) as [[-> <-]|Hd]; [by rewrite decide_True by done|].
      rewrite decide_False; [done|]. intros (_ & -> & ->). by apply Hd. }
  rewrite E2, !chunk_at_set by done. clear E2 a2.
  destruct f; field_cases.
Qed.

Lemma link_bins :
  ca_bins (code_arena_link a o) = <[Z.to_nat (code_arena_bin (code_chunk_at a o c_size)) := o]> (ca_bins a).
Proof using. unfold code_arena_link. simpl. by repeat case_match. Qed.

Lemma link_size : ca_size (code_arena_link a o) = ca_size a /\ ca_live (code_arena_link a o) = ca_live a.
Proof using. unfold code_arena_link. simpl. by repeat case_match. Qed.
End fields.

(** ** Layout of an arena

    The words of the arena describe the chunks [cs], and the bins link the free
    ones: [fl] has the offsets of each bin in order. The chunk at [st] may have
    an outdated prev_size; -1 when no chunk has. *)

Definition b2z (b : bool) : Z := if b then 1 else 0.

(** The free chunks of bin [b]. *)
Definition in_bin (cs : chunks) (b : nat) (o : Z) : Prop :=
  exists x, x ∈ place 0 0 cs /\ pl_off x = o /\ pl_free x = true /\ Z.to_nat (code_arena_bin (pl_size x)) = b.

Record arena_lay (a : code_arena) (cs : chunks) (fl : list (list Z)) (st : Z) : Prop := {
  al_total : total cs = ca_size a;
  al_u32 : ca_size a < 4294967296;
  al_ok : Forall chunk_ok cs;
  al_size x : x ∈ place 0 0 cs -> code_chunk_at a (pl_off x) c_size = pl_size x;
  al_flag x : x ∈ place 0 0 cs -> code_chunk_at a (pl_off x) c_free = b2z (pl_free x);
  al_prev x : x ∈ place 0 0 cs -> pl_off x <> st -> code_chunk_at a (pl_off x) c_prev_size = pl_prev x;
  al_len : length fl = 24%nat /\ length (ca_bins a) = 24%nat;
  al_head b l : fl !! b = Some l -> ca_bins a !! b = Some (headd CODE_ARENA_NONE l);
  al_nodup b l : fl !! b = Some l -> NoDup l;
  al_list b l : fl !! b = Some l -> dlseg a CODE_ARENA_NONE l CODE_ARENA_NONE;
  al_mem b l o : fl !! b = Some l -> o ∈ l <-> in_bin cs b o
}.

Lemma place_mid cs1 s f cs2 :
  place 0 0 (cs1 ++ (s, f) :: cs2) =
  place 0 0 cs1 ++ mk_placed (total cs1) (last_size 0 cs1) s f :: place (total cs1 + s) s cs2.
Proof. rewrite place_app. simpl. done. Qed.

Lemma elem_flag x cs1 s f f' cs2 :
  Forall chunk_ok (cs1 ++ (s, f) :: cs2) ->
  x ∈ place 0 0 (cs1 ++ (s, f) :: cs2) <->
  x = mk_placed (total cs1) (last_size 0 cs1) s f \/
  x ∈ place 0 0 (cs1 ++ (s, f') :: cs2) /\ pl_off x <> total cs1.
Proof.
  intros [H1 [[Hs _] H2]%Forall_cons]%Forall_app. simpl in Hs.
  rewrite !place_mid, !elem_of_app, !elem_of_cons. split.
  - intros [Hx|[->|Hx]]; [|by left|]; right; (split; [tauto|]).
    + pose proof (place_bounds _ _ _ _ H1 Hx). lia.
    + pose proof (place_bounds _ _ _ _ H2 Hx). lia.
  - intros [->|[[Hx|[->|Hx]] Hne]]; [tauto|tauto|done|tauto].
Qed.

Lemma is_off_flag cs1 s f f' cs2 o :
  Forall chunk_ok (cs1 ++ (s, f) :: cs2) ->
  is_off (cs1 ++ (s, f) :: cs2) o -> is_off (cs1 ++ (s, f') :: cs2) o.
Proof.
  intros Hok (x & Hx & <-). rewrite (elem_flag _ _ _ _ f' _ Hok) in Hx. destruct Hx as [->|[Hx _]].
  - apply is_off_middle.
  - by exists x.
Qed.

Lemma ok_flag cs1 s f f' cs2 : Forall chunk_ok (cs1 ++ (s, f) :: cs2) -> Forall chunk_ok (cs1 ++ (s, f') :: cs2).
Proof. rewrite !Forall_app, !Forall_cons. done. Qed.

Lemma place_same_off x y cs :
  Forall chunk_ok cs -> x ∈ place 0 0 cs -> y ∈ place 0 0 cs -> pl_off x = pl_off y -> x = y.
Proof.
  intros Hok Hx Hy Ho. destruct (place_apart _ _ _ _ _ Hok Hx Hy) as [|H]; [done|].
  pose proof (place_bounds _ _ _ _ Hok Hx). pose proof (place_bounds _ _ _ _ Hok Hy). lia.
Qed.

Lemma in_bin_flag cs1 s f f' cs2 b o :
  Forall chunk_ok (cs1 ++ (s, f) :: cs2) ->
  in_bin (cs1 ++ (s, f) :: cs2) b o <->
  o = total cs1 /\ f = true /\ Z.to_nat (code_arena_bin s) = b \/
  o <> total cs1 /\ in_bin (cs1 ++ (s, f') :: cs2) b o.
Proof.
  intros Hok. unfold in_bin. split.
  - intros (x & Hx & <- & Hf & Hb). rewrite (elem_flag _ _ _ _ f' _ Hok) in Hx.
    destruct Hx as [->|[Hx Hne]]; [left; done|right]. split; [done|]. by exists x.
  - intros [(-> & -> & Hb)|(Hne & x & Hx & <- & Hf & Hb)].
    + eexists. rewrite (elem_flag _ _ _ _ f' _ Hok). split; [by left|done].
    + exists x. rewrite (elem_flag _ _ _ _ f' _ Hok). split; [by right|done].
Qed.

Section layout.
Context (a : code_arena) (cs : chunks) (fl : list (list Z)) (st : Z).
Context (L : arena_lay a cs fl st).

Lemma lay_off_none o : is_off cs o -> o <> CODE_ARENA_NONE.
Proof using L.
  intros (x & Hx & <-). pose proof (place_bounds _ _ _ _ (al_ok _ _ _ _ L) Hx).
  pose proof (al_total _ _ _ _ L). pose proof (al_u32 _ _ _ _ L). unfold CODE_ARENA_NONE. lia.
Qed.

Lemma lay_elem_off b l o : fl !! b = Some l -> o ∈ l -> is_off cs o.
Proof using L. intros Hl Ho. apply (al_mem _ _ _ _ L _ _ _ Hl) in Ho as (x & Hx & <- & _). by exists x. Qed.

Lemma lay_bin_list s : exists l, fl !! Z.to_nat (code_arena_bin s) = Some l.
Proof using L. apply lookup_lt_is_Some. rewrite (proj1 (al_len _ _ _ _ L)). pose proof (code_arena_bin_range s). lia. Qed.

Lemma lay_headd_off b l : fl !! b = Some l -> headd CODE_ARENA_NONE l = CODE_ARENA_NONE \/ is_off cs (headd CODE_ARENA_NONE l).
Proof using L. intros Hl. destruct l as [|o l]; [by left|right]. eapply lay_elem_off; [done|]. set_solver. Qed.

Lemma lay_lastd_off b l l' : fl !! b = Some l -> incl l' l ->
  lastd CODE_ARENA_NONE l' = CODE_ARENA_NONE /\ l' = [] \/
  lastd CODE_ARENA_NONE l' ∈ l' /\ is_off cs (lastd CODE_ARENA_NONE l').
Proof using L.
  intros Hl Hi. destruct l' as [|o l']; [by left|right]. pose proof (lastd_elem CODE_ARENA_NONE o l') as He.
  split; [done|]. eapply lay_elem_off; [done|]. apply list_elem_of_In, Hi, list_elem_of_In, He.
Qed.
End layout.

(** A chunk changes its flag, and the list of its bin changes with it. *)
Lemma relink_lay a a' cs1 s f f' cs2 fl st l l' :
  let cs := cs1 ++ (s, f) :: cs2 in
  let b := Z.to_nat (code_arena_bin s) in
  arena_lay a cs fl st -> fl !! b = Some l -> ca_size a' = ca_size a ->
  (forall o, is_off cs o ->
     code_chunk_at a' o c_size = code_chunk_at a o c_size /\
     code_chunk_at a' o c_prev_size = code_chunk_at a o c_prev_size /\
     code_chunk_at a' o c_free = if decide (o = total cs1) then b2z f' else code_chunk_at a o c_free) ->
  (forall o, is_off cs o -> o ∉ l -> o <> total cs1 ->
     code_chunk_at a' o c_prev_free = code_chunk_at a o c_prev_free /\
     code_chunk_at a' o c_next_free = code_chunk_at a o c_next_free) ->
  ca_bins a' = <[b := headd CODE_ARENA_NONE l']> (ca_bins a) ->
  NoDup l' -> dlseg a' CODE_ARENA_NONE l' CODE_ARENA_NONE ->
  (forall o, o ∈ l' <-> o = total cs1 /\ f' = true \/ o ∈ l /\ o <> total cs1) ->
  arena_lay a' (cs1 ++ (s, f') :: cs2) (<[b := l']> fl) st.
Proof.
  intros cs b L Hl Hsz Hc Hlnk Hbins Hnd Hdl Hmem. pose proof (al_ok _ _ _ _ L) as Hok.
  destruct (al_len _ _ _ _ L) as [Hlen1 Hlen2].
  assert (Hb : (b < length fl)%nat) by (by eapply lookup_lt_Some).
  assert (Hof : forall x, x ∈ place 0 0 (cs1 ++ (s, f') :: cs2) -> is_off cs (pl_off x)).
  { intros x Hx. eapply (is_off_flag _ _ f'); [by eapply ok_flag|]. by exists x. }
  assert (Hx' : forall x, x ∈ place 0 0 (cs1 ++ (s, f') :: cs2) ->
            x = mk_placed (total cs1) (last_size 0 cs1) s f' \/ x ∈ place 0 0 cs /\ pl_off x <> total cs1).
  { intros x. by rewrite (elem_flag _ _ _ _ f) by (by eapply ok_flag). }
  pose proof (place_middle 0 0 cs1 s f cs2 : _ ∈ place 0 0 cs) as Hmid.
  assert (Hother : forall b' l0 o, b' <> b -> fl !! b' = Some l0 -> o ∈ l0 -> o ∉ l /\ o <> total cs1).
  { intros b' l0 o Hne Hl0 Ho. apply (al_mem _ _ _ _ L _ _ _ Hl0) in Ho as (w & Hw & <- & Hfw & Hwb). split.
    - intros Hy. apply (al_mem _ _ _ _ L _ _ _ Hl) in Hy as (z & Hz & Hoz & _ & Hzb).
      assert (w = z) as -> by (by eapply place_same_off). congruence.
    - intros Ho. assert (w = mk_placed (total cs1) (last_size 0 cs1) s f) as -> by (by eapply place_same_off). done. }
  split.
  - rewrite Hsz, <- (al_total _ _ _ _ L). unfold cs. rewrite !total_app. done.
  - rewrite Hsz. apply (al_u32 _ _ _ _ L).
  - by eapply ok_flag.
  - intros x Hx. destruct (Hc _ (Hof _ Hx)) as (-> & _). destruct (Hx' x Hx) as [->|[Hx0 _]]; by apply (al_size _ _ _ _ L _ Hmid) || by apply (al_size _ _ _ _ L).
  - intros x Hx. destruct (Hc _ (Hof _ Hx)) as (_ & _ & ->).
    destruct (Hx' x Hx) as [->|[Hx0 Hne]]; case_decide; try done. by apply (al_flag _ _ _ _ L).
  - intros x Hx Hst. destruct (Hc _ (Hof _ Hx)) as (_ & -> & _).
    destruct (Hx' x Hx) as [->|[Hx0 _]]; [by apply (al_prev _ _ _ _ L _ Hmid)|by apply (al_prev _ _ _ _ L)].
  - rewrite length_insert, Hbins, length_insert. done.
  - intros b' l0 Hl0. rewrite Hbins. apply list_lookup_insert_Some in Hl0 as [(<- & <- & _)|[Hne Hl0]].
    + apply list_lookup_insert_eq. lia.
    + rewrite list_lookup_insert_ne by done. by apply (al_head _ _ _ _ L).
  - intros b' l0 Hl0. apply list_lookup_insert_Some in Hl0 as [(<- & <- & _)|[Hne Hl0]]; [done|by eapply (al_nodup _ _ _ _ L)].
  - intros b' l0 Hl0. apply list_lookup_insert_Some in Hl0 as [(<- & <- & _)|[Hne Hl0]]; [done|].
    eapply dlseg_ext; [|by eapply (al_list _ _ _ _ L)]. intros x Hx.
    destruct (Hother b' l0 x ltac:(done) Hl0 Hx). apply Hlnk; [|done..]. by eapply (lay_elem_off _ _ _ _ L).
  - intros b' l0 o' Hl0. rewrite (in_bin_flag _ _ _ f) by (by eapply ok_flag). fold cs.
    apply list_lookup_insert_Some in Hl0 as [(<- & <- & _)|[Hne Hl0]].
    + rewrite <- (al_mem _ _ _ _ L _ _ _ Hl), Hmem. tauto.
    + rewrite <- (al_mem _ _ _ _ L _ _ _ Hl0). split; [|by intros [(_ & _ & ?)|[_ ?]]].
      intros Hx. destruct (Hother b' l0 o' ltac:(done) Hl0 Hx). tauto.
Qed.

(** Taking a free chunk off its list. *)
Lemma unlink_lay a cs1 s cs2 fl st :
  arena_lay a (cs1 ++ (s, true) :: cs2) fl st ->
  exists fl', arena_lay (code_arena_unlink a (total cs1)) (cs1 ++ (s, false) :: cs2) fl' st.
Proof.
  intros L. pose proof (al_ok _ _ _ _ L) as Hok. set (cs := cs1 ++ (s, true) :: cs2) in *. set (o := total cs1).
  pose proof (is_off_middle cs1 s true cs2) as Ho. fold cs o in Ho.
  destruct (lay_bin_list _ _ _ _ L s) as [l Hl].
  assert (Hol : o ∈ l).
  { apply (al_mem _ _ _ _ L _ _ _ Hl). eexists. split; [apply (place_middle 0 0)|done]. }
  apply list_elem_of_split in Hol as (l1 & l2 & ->).
  pose proof (al_nodup _ _ _ _ L _ _ Hl) as Hnd. pose proof (al_list _ _ _ _ L _ _ Hl) as Hdl.
  apply dlseg_app in Hdl as [D1 (Hprev & Hnext & D2)].
  apply list.NoDup_app in Hnd as (N1 & N12 & N2). inversion N2 as [|? ? No2 N2']; subst.
  assert (No1 : o ∉ l1) by (intros Hx; apply (N12 o Hx); set_solver).
  assert (Hsz : code_chunk_at a o c_size = s) by apply (al_size _ _ _ _ L _ (place_middle 0 0 _ _ _ _)).
  assert (Hin : forall x, x ∈ l1 \/ x ∈ l2 -> is_off cs x /\ x <> o /\ x <> CODE_ARENA_NONE).
  { intros x Hx. assert (is_off cs x) by (eapply (lay_elem_off _ _ _ _ L); [done|]; set_solver).
    split_and!; [done|intros ->; tauto|by eapply lay_off_none]. }
  assert (Hp : l1 = [] /\ lastd CODE_ARENA_NONE l1 = CODE_ARENA_NONE \/ lastd CODE_ARENA_NONE l1 ∈ l1)
    by (destruct l1; [by left|right; apply lastd_elem]).
  assert (Hn : headd CODE_ARENA_NONE l2 = CODE_ARENA_NONE \/ headd CODE_ARENA_NONE l2 ∈ l2)
    by (destruct l2; [by left|right; unfold headd; simpl; set_solver]).
  assert (Hpo : lastd CODE_ARENA_NONE l1 = CODE_ARENA_NONE \/ is_off cs (lastd CODE_ARENA_NONE l1) /\ lastd CODE_ARENA_NONE l1 <> o)
    by (destruct Hp as [[_ ?]|Hp]; [by left|destruct (Hin _ (or_introl Hp)); tauto]).
  assert (Hno : headd CODE_ARENA_NONE l2 = CODE_ARENA_NONE \/ is_off cs (headd CODE_ARENA_NONE l2) /\ headd CODE_ARENA_NONE l2 <> o)
    by (destruct Hn as [?|Hn]; [by left|destruct (Hin _ (or_intror Hn)); tauto]).
  assert (U : forall o' f, is_off cs o' -> _) by
    (intros o' f Ho'; exact (unlink_at a _ o Hok Ho _ _ o' f Hprev Hnext Hpo Hno Ho' (lay_off_none _ _ _ _ L _ Ho'))).
  eexists. eapply (relink_lay a _ _ _ _ _ _ _ _ _ (l1 ++ l2) L Hl); fold o.
  - apply unlink_size.
  - intros x Hx. by rewrite !U.
  - intros x Hx Hxl Hxo. rewrite !U by done. rewrite !(decide_False (P := x = o)) by done.
    pose proof (lay_off_none _ _ _ _ L _ Hx).
    split; (rewrite decide_False; [done|]); intros ->; [destruct Hn as [?|Hn]|destruct Hp as [[_ ?]|Hp]]; try done;
      apply Hxl; set_solver.
  - rewrite unlink_bins, Hprev, Hnext, Hsz, headd_app. destruct Hp as [[-> Hp]|Hp]; [by rewrite decide_True|].
    rewrite decide_False by (by apply Hin; left). rewrite list_insert_id; [done|].
    rewrite (al_head _ _ _ _ L _ _ Hl). destruct l1; [by apply not_elem_of_nil in Hp|done].
  - apply list.NoDup_app. split_and!; [done| |done]. intros x H1 H2. apply (N12 x H1). set_solver.
  - apply dlseg_app. split.
    + eapply dlseg_set_next; [done| |exact D1]. intros x Hx. destruct (Hin x ltac:(tauto)) as (Hxo & Hxne & Hx0).
      rewrite !U by done. rewrite !(decide_False (P := x = o)) by done. split; [|done].
      rewrite decide_False; [done|]. intros ->. destruct Hn as [?|Hn]; [done|]. apply (N12 _ Hx). set_solver.
    + eapply dlseg_set_prev; [done| |exact D2]. intros x Hx. destruct (Hin x ltac:(tauto)) as (Hxo & Hxne & Hx0).
      rewrite !U by done. rewrite !(decide_False (P := x = o)) by done. split; [|done].
      rewrite decide_False; [done|]. intros ->. destruct Hp as [[_ ?]|Hp]; [done|]. apply (N12 _ Hp). set_solver.
  - intros x. rewrite !elem_of_app, elem_of_cons. split.
    + intros Hx. right. destruct (Hin x Hx). tauto.
    + intros [[_ ?]|[[?|[?|?]] ?]]; try done; tauto.
Qed.

(** Putting a chunk at the head of its list. *)
Lemma link_lay a cs1 s cs2 fl st :
  arena_lay a (cs1 ++ (s, false) :: cs2) fl st ->
  let b := Z.to_nat (code_arena_bin s) in
  exists l, fl !! b = Some l /\
    arena_lay (code_arena_link a (total cs1)) (cs1 ++ (s, true) :: cs2) (<[b := total cs1 :: l]> fl) st.
Proof.
  intros L. pose proof (al_ok _ _ _ _ L) as Hok. set (cs := cs1 ++ (s, false) :: cs2) in *. set (o := total cs1).
  pose proof (is_off_middle cs1 s false cs2) as Ho. fold cs o in Ho.
  destruct (lay_bin_list _ _ _ _ L s) as [l Hl].
  assert (Hsz : code_chunk_at a o c_size = s) by apply (al_size _ _ _ _ L _ (place_middle 0 0 _ _ _ _)).
  assert (Hol : o ∉ l).
  { intros Hx. apply (al_mem _ _ _ _ L _ _ _ Hl) in Hx as (w & Hw & How & Hf & _).
    assert (w = mk_placed (total cs1) (last_size 0 cs1) s false) as ->
      by (eapply place_same_off; [done|done|apply (place_middle 0 0)|done]). done. }
  assert (Hin : forall x, x ∈ l -> is_off cs x /\ x <> o /\ x <> CODE_ARENA_NONE).
  { intros x Hx. assert (is_off cs x) by (by eapply (lay_elem_off _ _ _ _ L)).
    split_and!; [done|intros ->; tauto|by eapply lay_off_none]. }
  assert (Hbh : bin_head a (code_arena_bin (code_chunk_at a o c_size)) = headd CODE_ARENA_NONE l)
    by (unfold bin_head; rewrite Hsz, (al_head _ _ _ _ L _ _ Hl); done).
  assert (Hn : headd CODE_ARENA_NONE l = CODE_ARENA_NONE \/ headd CODE_ARENA_NONE l ∈ l)
    by (destruct l; [by left|right; unfold headd; simpl; set_solver]).
  assert (Hno : headd CODE_ARENA_NONE l = CODE_ARENA_NONE \/ is_off cs (headd CODE_ARENA_NONE l) /\ headd CODE_ARENA_NONE l <> o)
    by (destruct Hn as [?|Hn]; [by left|destruct (Hin _ Hn); tauto]).
  assert (U : forall o' f, is_off cs o' -> _) by
    (intros o' f Ho'; exact (link_at a _ o Hok Ho _ o' f Hbh Hno Ho' (lay_off_none _ _ _ _ L _ Ho'))).
  exists l. split; [done|]. eapply (relink_lay a _ _ _ _ _ _ _ _ _ (o :: l) L Hl); fold o.
  - apply link_size.
  - intros x Hx. by rewrite !U.
  - intros x Hx Hxl Hxo. rewrite !U by done. rewrite !(decide_False (P := x = o)) by done. split; [|done].
    rewrite decide_False; [done|]. intros ->. destruct Hn as [?|?]; [by eapply lay_off_none|done].
  - by rewrite link_bins, Hsz.
  - constructor; [done|]. by eapply (al_nodup _ _ _ _ L).
  - simpl. rewrite !U by done. rewrite !decide_True by done. split_and!; [done..|].
    eapply dlseg_set_prev; [by eapply (al_nodup _ _ _ _ L)| |by eapply (al_list _ _ _ _ L)].
    intros x Hx. destruct (Hin x Hx) as (Hxo & Hxne & Hx0). rewrite !U by done.
    by rewrite !(decide_False (P := x = o)) by done.
  - intros x. rewrite elem_of_cons. split; [|tauto]. intros [->|Hx]; [by left|right]. destruct (Hin x Hx). tauto.
Qed.

(** ** Cutting chunks *)

Lemma lay_stale a cs fl st : arena_lay a cs fl (-1) -> arena_lay a cs fl st.
Proof.
  intros L. destruct L. split; try done. intros x Hx _. apply al_prev0; [done|].
  pose proof (place_bounds _ _ _ _ al_ok0 Hx). lia.
Qed.

Lemma lay_live a cs fl st v : arena_lay a cs fl st -> arena_lay (set_live a v) cs fl st.
Proof. intros L. destruct L. split; try done. intros b l Hl. eapply dlseg_ext; [|by eapply al_list0]. done. Qed.

(** The prev_size a sequence of chunks starts with is only part of its first. *)
Lemma place_prev x o q q' cs :
  x ∈ place o q cs -> exists x', x' ∈ place o q' cs /\ pl_off x' = pl_off x /\ pl_size x' = pl_size x /\
    pl_free x' = pl_free x /\ (pl_off x <> o -> x' = x).
Proof.
  destruct cs as [|[s f] cs]; simpl; [by intros ?%not_elem_of_nil|]. intros [->|Hx]%elem_of_cons.
  - exists (mk_placed o q' s f). simpl. split_and!; try done. set_solver.
  - exists x. split_and!; try done. set_solver.
Qed.

Definition busy (c : Z * bool) : Prop := snd c = false.

Lemma place_busy x o p cs : Forall busy cs -> x ∈ place o p cs -> pl_free x = false.
Proof.
  intros Hb Hx. apply elem_of_place in Hx as (c1 & s & f & c2 & -> & ->).
  apply Forall_app in Hb as [_ Hb]. by inversion Hb.
Qed.

Section recut.
Context (a a' : code_arena) (cs1 cs2 A B : chunks) (fl : list (list Z)).
Let o := total cs1.
Let e := o + total A.
Context (L : arena_lay a (cs1 ++ A ++ cs2) fl e).
Context (HT : total B = total A) (HA : Forall busy A) (HB : Forall busy B) (HBok : Forall chunk_ok B).
Context (Hsz : ca_size a' = ca_size a) (Hbins : ca_bins a' = ca_bins a).
Context (Hkeep : forall x, x ∈ place 0 0 cs1 \/ x ∈ place e (last_size (last_size 0 cs1) A) cs2 ->
  forall f, code_chunk_at a' (pl_off x) f = code_chunk_at a (pl_off x) f).
Context (Hnew : forall x, x ∈ place o (last_size 0 cs1) B -> code_chunk_at a' (pl_off x) c_size = pl_size x /\
  code_chunk_at a' (pl_off x) c_free = 0 /\ code_chunk_at a' (pl_off x) c_prev_size = pl_prev x).

Lemma recut_place cs : total cs = total A ->
  place 0 0 (cs1 ++ cs ++ cs2) = place 0 0 cs1 ++ place o (last_size 0 cs1) cs ++ place e (last_size (last_size 0 cs1) cs) cs2.
Proof using. intros Ht. rewrite !place_app. rewrite Z.add_0_l. unfold e. by rewrite Ht. Qed.

Lemma recut_old x : x ∈ place 0 0 (cs1 ++ B ++ cs2) ->
  x ∈ place o (last_size 0 cs1) B \/
  exists x', x' ∈ place 0 0 (cs1 ++ A ++ cs2) /\ pl_off x' = pl_off x /\ pl_size x' = pl_size x /\ pl_free x' = pl_free x /\
    (pl_off x <> e -> x' = x) /\ forall f, code_chunk_at a' (pl_off x) f = code_chunk_at a (pl_off x) f.
Proof using Hkeep HT.
  rewrite !recut_place by done. intros [Hx|[Hx|Hx]%elem_of_app]%elem_of_app; [|by left|].
  - right. exists x. split_and!; try done; [rewrite !elem_of_app; by left|]. apply Hkeep. by left.
  - right. apply (place_prev _ _ _ (last_size (last_size 0 cs1) A)) in Hx as (x' & Hx' & E1 & E2 & E3 & E4).
    exists x'. split_and!; try done; [rewrite !elem_of_app; tauto|]. rewrite <- E1. apply Hkeep. by right.
Qed.

Lemma recut_in_bin b x : in_bin (cs1 ++ B ++ cs2) b x <-> in_bin (cs1 ++ A ++ cs2) b x.
Proof using HT HA HB.
  unfold in_bin. rewrite !recut_place by done. split; intros (y & Hy & <- & Hf & Hb);
    (apply elem_of_app in Hy as [Hy|[Hy|Hy]%elem_of_app];
     [exists y; rewrite !elem_of_app; tauto
     |exfalso; apply place_busy in Hy; [congruence|done]
     |eapply place_prev in Hy as (y' & Hy' & E1 & E2 & E3 & _); exists y'; rewrite !elem_of_app;
      split; [right; right; exact Hy'|by rewrite E1, E2, E3]]).
Qed.

Lemma recut_lay : arena_lay a' (cs1 ++ B ++ cs2) fl e.
Proof using HA HB HBok HT Hbins Hkeep Hnew Hsz L.
  pose proof (al_ok _ _ _ _ L) as Hok. rewrite !Forall_app in Hok. destruct Hok as (O1 & O2 & O3).
  split.
  - rewrite Hsz, <- (al_total _ _ _ _ L), !total_app. lia.
  - rewrite Hsz. apply (al_u32 _ _ _ _ L).
  - rewrite !Forall_app. done.
  - intros x Hx. destruct (recut_old x Hx) as [Hb|(x' & Hx' & E1 & E2 & E3 & E4 & E5)].
    + by apply Hnew.
    + rewrite E5, <- E1, <- E2. by apply (al_size _ _ _ _ L).
  - intros x Hx. destruct (recut_old x Hx) as [Hb|(x' & Hx' & E1 & E2 & E3 & E4 & E5)].
    + rewrite (place_busy _ _ _ _ HB Hb). by apply Hnew.
    + rewrite E5, <- E1, <- E3. by apply (al_flag _ _ _ _ L).
  - intros x Hx Hst. destruct (recut_old x Hx) as [Hb|(x' & Hx' & E1 & E2 & E3 & E4 & E5)].
    + by apply Hnew.
    + rewrite E5. specialize (E4 Hst). subst x'. by apply (al_prev _ _ _ _ L).
  - rewrite Hbins. apply (al_len _ _ _ _ L).
  - intros b l Hl. rewrite Hbins. by apply (al_head _ _ _ _ L).
  - apply (al_nodup _ _ _ _ L).
  - intros b l Hl. eapply dlseg_ext; [|by eapply (al_list _ _ _ _ L)]. intros x Hx.
    apply (al_mem _ _ _ _ L _ _ _ Hl) in Hx as (y & Hy & <- & Hf & _). rewrite recut_place in Hy by done.
    apply elem_of_app in Hy as [Hy|[Hy|Hy]%elem_of_app].
    + split; apply Hkeep; by left.
    + apply place_busy in Hy; [congruence|done].
    + split; apply Hkeep; by right.
  - intros b l x Hl. rewrite (al_mem _ _ _ _ L _ _ _ Hl). symmetry. apply recut_in_bin.
Qed.
End recut.

(** Writing the size of the chunk before the one at [e], if there is one there. *)
Lemma fix_prev_lay a cs1 s f cs2 fl :
  let e := total cs1 + s in
  arena_lay a (cs1 ++ (s, f) :: cs2) fl e ->
  arena_lay (if e <? ca_size a then set_chunk a e c_prev_size s else a) (cs1 ++ (s, f) :: cs2) fl (-1).
Proof.
  intros e L. pose proof (al_ok _ _ _ _ L) as Hok. pose proof (al_total _ _ _ _ L) as Ht.
  pose proof Hok as Hok'. rewrite Forall_app, Forall_cons in Hok'. destruct Hok' as (O1 & [Os _] & O2). simpl in Os.
  rewrite total_app in Ht. simpl in Ht. destruct (Z.ltb_spec e (ca_size a)) as [He|He].
  - assert (Hoe : is_off (cs1 ++ (s, f) :: cs2) e).
    { destruct cs2 as [|[s2 f2] cs2]; [simpl in Ht; lia|]. unfold is_off. rewrite place_mid.
      exists (mk_placed e s s2 f2). simpl. split; [set_solver|done]. }
    assert (U : forall o f', is_off (cs1 ++ (s, f) :: cs2) o -> _) by
      (intros o f' Ho; exact (chunk_at_set a e c_prev_size s o f' (is_off_ends _ _ _ Hok Hoe Ho))).
    split; try (by destruct L).
    + intros x Hx. rewrite U by (by exists x). rewrite decide_False by (by intros []). by apply (al_size _ _ _ _ L).
    + intros x Hx. rewrite U by (by exists x). rewrite decide_False by (by intros []). by apply (al_flag _ _ _ _ L).
    + intros x Hx _. rewrite U by (by exists x). destruct (decide (e = pl_off x)) as [Heq|Hne].
      * rewrite decide_True by done. rewrite place_mid in Hx.
        apply elem_of_app in Hx as [Hx|[->|Hx]%elem_of_cons]; [pose proof (place_bounds _ _ _ _ O1 Hx); lia|simpl in Heq; lia|].
        destruct cs2 as [|[s2 f2] cs2]; simpl in Hx; [by apply not_elem_of_nil in Hx|].
        apply elem_of_cons in Hx as [->|Hx]; [done|].
        apply Forall_cons in O2 as [[O3 _] O4]. simpl in O3. pose proof (place_bounds _ _ _ _ O4 Hx). lia.
      * rewrite decide_False by (by intros []). by apply (al_prev _ _ _ _ L).
    + intros b l Hl. eapply dlseg_ext; [|by eapply (al_list _ _ _ _ L)]. intros x Hx.
      assert (is_off (cs1 ++ (s, f) :: cs2) x) by (by eapply (lay_elem_off _ _ _ _ L)).
      rewrite !U by done. by rewrite !decide_False by (by intros []).
  - destruct L. split; try done. intros x Hx _. apply al_prev0; [done|].
    pose proof (place_bounds _ _ _ _ Hok Hx) as Hb. rewrite total_app in Hb. simpl in Hb. lia.
Qed.

(** ** What the allocator leaves alone

    The addresses outside the arena, and the payload of every chunk that is
    handed out and not among [D]. *)
Definition safe (cs : chunks) (D : list Z) (x : Z) : Prop :=
  x < 0 \/ total cs <= x \/
  exists y, y ∈ place 0 0 cs /\ pl_free y = false /\ pl_off y ∉ D /\ pl_off y + 16 <= x < pl_off y + pl_size y.

Definition frame (cs : chunks) (D : list Z) (a a' : code_arena) : Prop :=
  forall x, safe cs D x -> word a' x = word a x.

Lemma frame_refl cs D a : frame cs D a a.
Proof. done. Qed.

Lemma frame_trans cs D a1 a2 a3 : frame cs D a1 a2 -> frame cs D a2 a3 -> frame cs D a1 a3.
Proof. intros H1 H2 x Hx. rewrite (H2 x Hx). by apply H1. Qed.

Lemma frame_mono cs D cs' D' a a' :
  (forall x, safe cs D x -> safe cs' D' x) -> frame cs' D' a a' -> frame cs D a a'.
Proof. intros Hs Hf x Hx. apply Hf. by apply Hs. Qed.

Section frame.
Context (cs : chunks) (D : list Z) (Hok : Forall chunk_ok cs).

Lemma frame_word a y w v :
  y ∈ place 0 0 cs -> pl_off y <= w < pl_off y + pl_size y ->
  pl_free y = true \/ pl_off y ∈ D \/ w < pl_off y + 16 -> frame cs D a (store_word a w v).
Proof using Hok.
  intros Hy Hw Hf x Hx. rewrite word_store. rewrite decide_False; [done|]. intros ->.
  pose proof (place_bounds _ _ _ _ Hok Hy) as Hb. destruct Hx as [Hx|[Hx|(z & Hz & Hzf & HzD & Hzx)]]; [lia..|].
  destruct (place_apart _ _ _ _ _ Hok Hy Hz) as [->|Ha]; [|lia].
  destruct Hf as [Hf|[Hf|Hf]]; [congruence|done|lia].
Qed.

Lemma frame_field a o f v :
  is_off cs o -> in_bin cs (Z.to_nat (code_arena_bin (code_chunk_at a o c_size))) o \/ o ∈ D \/ f <> c_prev_free ->
  frame cs D a (set_chunk a o f v).
Proof using Hok.
  intros (y & Hy & <-) Hf. pose proof (place_bounds _ _ _ _ Hok Hy).
  apply (frame_word _ y); [done|destruct f; simpl; lia|]. destruct Hf as [(z & Hz & Hoz & Hzf & _)|[Hf|Hf]].
  - left. assert (z = y) as -> by (by eapply place_same_off). done.
  - tauto.
  - right. right. destruct f; simpl; try done; lia.
Qed.
End frame.

Lemma unlink_frame a cs1 s cs2 fl st D :
  let cs := cs1 ++ (s, true) :: cs2 in
  arena_lay a cs fl st -> frame cs D a (code_arena_unlink a (total cs1)).
Proof.
  intros cs L. pose proof (al_ok _ _ _ _ L) as Hok. set (o := total cs1).
  assert (Hfree : forall b l q f v a, fl !! b = Some l -> q ∈ l -> frame cs D a (set_chunk a q f v)).
  { intros b l q f v a1 Hl Hq. apply (al_mem _ _ _ _ L _ _ _ Hl) in Hq as (y & Hy & <- & Hf & _).
    pose proof (place_bounds _ _ _ _ Hok Hy). apply (frame_word _ _ Hok _ y); [done|destruct f; simpl; lia|tauto]. }
  destruct (lay_bin_list _ _ _ _ L s) as [l Hl].
  assert (Hol : o ∈ l).
  { apply (al_mem _ _ _ _ L _ _ _ Hl). eexists. split; [apply (place_middle 0 0)|done]. }
  pose proof Hol as Hsp. apply list_elem_of_split in Hsp as (l1 & l2 & ->).
  pose proof (al_list _ _ _ _ L _ _ Hl) as Hdl. apply dlseg_app in Hdl as [D1 (Hprev & Hnext & D2)].
  unfold code_arena_unlink.
  repeat (eapply frame_trans; [|by eapply Hfree]).
  set (a1 := if negb _ then set_chunk a _ _ _ else _).
  assert (F1 : frame cs D a a1).
  { unfold a1. rewrite Hprev. destruct (Z.eqb_spec (lastd CODE_ARENA_NONE l1) CODE_ARENA_NONE) as [|Hne]; [done|].
    cbn [negb]. eapply Hfree; [done|]. apply elem_of_app. left. destruct l1; [done|]. apply lastd_elem. }
  assert (Hn1 : code_chunk_at a1 o c_next_free = CODE_ARENA_NONE \/ code_chunk_at a1 o c_next_free ∈ l1 ++ o :: l2).
  { assert (Hn : headd CODE_ARENA_NONE l2 = CODE_ARENA_NONE \/ headd CODE_ARENA_NONE l2 ∈ l1 ++ o :: l2)
      by (destruct l2; [by left|right; unfold headd; simpl; set_solver]).
    unfold a1. rewrite Hprev, Hnext. destruct (Z.eqb_spec (lastd CODE_ARENA_NONE l1) CODE_ARENA_NONE); cbn [negb].
    - rewrite chunk_at_set_bin, Hnext. done.
    - assert (Hl1 : lastd CODE_ARENA_NONE l1 ∈ l1) by (destruct l1; [done|apply lastd_elem]).
      rewrite chunk_at_set.
      + case_decide; [done|]. by rewrite Hnext.
      + eapply is_off_ends; [exact Hok|eapply (lay_elem_off _ _ _ _ L _ _ _ Hl); set_solver|apply is_off_middle]. }
  destruct (Z.eqb_spec (code_chunk_at a1 o c_next_free) CODE_ARENA_NONE) as [|Hne]; cbn [negb]; [done|].
  eapply frame_trans; [exact F1|]. destruct Hn1; [done|]. by eapply Hfree.
Qed.

Lemma link_frame a cs1 s cs2 fl st D :
  let cs := cs1 ++ (s, false) :: cs2 in
  arena_lay a cs fl st -> total cs1 ∈ D -> frame cs D a (code_arena_link a (total cs1)).
Proof.
  intros cs L HD. pose proof (al_ok _ _ _ _ L) as Hok. set (o := total cs1) in *.
  assert (Ho : forall a f v, frame cs D a (set_chunk a o f v)).
  { intros a1 f v. apply frame_field; [done|apply is_off_middle|tauto]. }
  assert (Hsz : code_chunk_at a o c_size = s) by apply (al_size _ _ _ _ L _ (place_middle 0 0 _ _ _ _)).
  destruct (lay_bin_list _ _ _ _ L s) as [l Hl].
  unfold code_arena_link. cbv zeta. rewrite (chunk_at_set _ o c_next_free) by (by left).
  rewrite decide_True by done.
  change (bin_head (set_chunk (set_chunk a o c_free 1) o c_prev_free CODE_ARENA_NONE) ?b) with (bin_head a b).
  rewrite Hsz. unfold bin_head. rewrite (al_head _ _ _ _ L _ _ Hl). cbn [default id from_option].
  eapply (frame_trans _ _ _ (set_chunk (set_chunk (set_chunk a o c_free 1) o c_prev_free CODE_ARENA_NONE) o c_next_free (headd CODE_ARENA_NONE l)));
    [repeat (eapply frame_trans; [|apply Ho]); done|].
  destruct (Z.eqb_spec (headd CODE_ARENA_NONE l) CODE_ARENA_NONE) as [|Hne]; cbn [negb]; [intros x _; reflexivity|].
  assert (Hh : headd CODE_ARENA_NONE l ∈ l) by (destruct l; [done|unfold headd; simpl; set_solver]).
  apply (al_mem _ _ _ _ L _ _ _ Hl) in Hh as (y & Hy & Hyo & Hf & _). rewrite <- Hyo.
  pose proof (place_bounds _ _ _ _ Hok Hy). intros x Hx.
  apply (frame_word cs D Hok _ y (pl_off y + 16) o Hy ltac:(lia) ltac:(tauto) x Hx).
Qed.

(** Chunks that are not handed out may be cut and flagged without changing
    what is left alone. *)
Lemma safe_flag cs1 s f f' cs2 D x :
  Forall chunk_ok (cs1 ++ (s, f) :: cs2) -> f = true \/ total cs1 ∈ D ->
  safe (cs1 ++ (s, f) :: cs2) D x -> safe (cs1 ++ (s, f') :: cs2) D x.
Proof.
  intros Hok Hf [Hx|[Hx|(y & Hy & Hyf & HyD & Hyx)]]; [by left|right; left; by rewrite total_app in *|].
  right. right. exists y. rewrite (elem_flag _ _ _ _ f') in Hy by done.
  destruct Hy as [->|[Hy _]]; [|done]. simpl in *. destruct Hf as [->|Hf]; done.
Qed.

Lemma safe_free cs1 s cs2 D x :
  Forall chunk_ok (cs1 ++ (s, true) :: cs2) ->
  safe (cs1 ++ (s, true) :: cs2) D x -> safe (cs1 ++ (s, true) :: cs2) (total cs1 :: D) x.
Proof.
  intros Hok [Hx|[Hx|(y & Hy & Hyf & HyD & Hyx)]]; [by left|by right; left|].
  right. right. exists y. split_and!; try done; try lia. intros [Ho|]%elem_of_cons; [|done].
  assert (y = mk_placed (total cs1) (last_size 0 cs1) s true) as ->
    by (eapply place_same_off; [done|done|apply (place_middle 0 0)|done]). done.
Qed.

Lemma safe_noff cs q D x : ~ is_off cs q -> safe cs D x -> safe cs (q :: D) x.
Proof.
  intros Hq [Hx|[Hx|(y & Hy & Hyf & HyD & Hyx)]]; [by left|by right; left|]. right. right. exists y.
  split_and!; try done; try lia. intros [Ho|]%elem_of_cons; [|done]. apply Hq. by exists y.
Qed.

Lemma safe_recut cs1 A B cs2 D x :
  total A = total B -> (forall y, y ∈ place (total cs1) (last_size 0 cs1) A -> pl_off y ∈ D) ->
  safe (cs1 ++ A ++ cs2) D x -> safe (cs1 ++ B ++ cs2) D x.
Proof.
  intros HT HA [Hx|[Hx|(y & Hy & Hyf & HyD & Hyx)]]; [by left|right; left; rewrite !total_app in *; lia|].
  right. right. rewrite recut_place with (A := A) in Hy by done.
  apply elem_of_app in Hy as [Hy|[Hy|Hy]%elem_of_app].
  - exists y. rewrite recut_place with (A := A) by done. rewrite elem_of_app. tauto.
  - by apply HA in Hy.
  - apply (place_prev _ _ _ (last_size (last_size 0 cs1) B)) in Hy as (y' & Hy' & E1 & E2 & E3 & _).
    exists y'. rewrite recut_place with (A := A) by done. rewrite !elem_of_app, E1, E2, E3. tauto.
Qed.

(** ** Searching *)

Lemma search_bin_spec n a want p l :
  dlseg a p l CODE_ARENA_NONE -> CODE_ARENA_NONE ∉ l ->
  match search_bin n a want (headd CODE_ARENA_NONE l) with
  | Some o => o ∈ l /\ want <= code_chunk_at a o c_size
  | None => forall o, o ∈ take n l -> code_chunk_at a o c_size < want
  end.
Proof.
  revert p l. induction n as [|n IH]; intros p l Hd Hn; simpl; [intros o Ho; by apply not_elem_of_nil in Ho|].
  destruct l as [|q l]; unfold headd; simpl; [intros o Ho; by apply not_elem_of_nil in Ho|].
  destruct Hd as (_ & Hnext & Hd). rewrite not_elem_of_cons in Hn. destruct Hn as [Hq Hn].
  rewrite (proj2 (Z.eqb_neq _ _)) by done. destruct (Z.leb_spec want (code_chunk_at a q c_size)); [split; [set_solver|lia]|].
  rewrite Hnext. specialize (IH q l Hd Hn). destruct (search_bin n a want (headd CODE_ARENA_NONE l)).
  - set_solver.
  - intros o [->|Ho]%elem_of_cons; [lia|by apply IH].
Qed.

Lemma search_bins_spec n a cs fl st want bin :
  arena_lay a cs fl st -> 0 <= bin -> Z.of_nat n = 24 - bin ->
  let o := search_bins n a want bin in
  (o <> CODE_ARENA_NONE -> exists b, bin <= b /\ in_bin cs (Z.to_nat b) o /\ want <= code_chunk_at a o c_size) /\
  (o = CODE_ARENA_NONE -> forall b l q, bin <= Z.of_nat b -> fl !! b = Some l -> q ∈ take 32 l -> code_chunk_at a q c_size < want).
Proof.
  intros L. revert bin. induction n as [|n IH]; intros bin Hb Hn; cbn [search_bins].
  { split; [done|]. intros _ b l q Hbl Hl. apply lookup_lt_Some in Hl. rewrite (proj1 (al_len _ _ _ _ L)) in Hl. lia. }
  destruct (lookup_lt_is_Some_2 fl (Z.to_nat bin)) as [l Hl]; [rewrite (proj1 (al_len _ _ _ _ L)); lia|].
  unfold bin_head. rewrite (al_head _ _ _ _ L _ _ Hl). cbn [default id from_option].
  assert (Hnone : CODE_ARENA_NONE ∉ l).
  { intros He. eapply (lay_off_none _ _ _ _ L); [|done]. by eapply (lay_elem_off _ _ _ _ L). }
  pose proof (search_bin_spec (Z.to_nat CODE_ARENA_WALK) a want _ l (al_list _ _ _ _ L _ _ Hl) Hnone) as Hs.
  destruct (search_bin _ a want (headd CODE_ARENA_NONE l)) as [o|].
  - destruct Hs as [Ho Hw]. split; [|intros ->; done]. intros _. exists bin. split_and!; [lia| |done].
    by apply (al_mem _ _ _ _ L _ _ _ Hl).
  - destruct (IH (bin + 1) ltac:(lia) ltac:(lia)) as [IH1 IH2]. split.
    + intros Hne. destruct (IH1 Hne) as (b & ? & ?). exists b. split; [lia|done].
    + intros Heq b l' q Hbl Hl' Hq. destruct (decide (b = Z.to_nat bin)) as [->|Hd].
      * rewrite Hl in Hl'. injection Hl' as <-. by apply Hs.
      * apply (IH2 Heq b l' q); [lia|done..].
Qed.

Lemma code_arena_search_some a cs fl st want :
  arena_lay a cs fl st -> code_arena_search a want <> CODE_ARENA_NONE ->
  exists cs1 s cs2, cs = cs1 ++ (s, true) :: cs2 /\ code_arena_search a want = total cs1 /\ want <= s.
Proof.
  intros L Hne. unfold code_arena_search in *. pose proof (code_arena_bin_range want).
  edestruct search_bins_spec as [H1 _]; [exact L|..|].
  3: { destruct (H1 Hne) as (b & Hb & (x & Hx & Hxo & Hf & Hxb) & Hw).
       rewrite <- Hxo in Hw. rewrite (al_size _ _ _ _ L _ Hx) in Hw.
       apply elem_of_place in Hx as (cs1 & s & f & cs2 & -> & ->). simpl in *. subst f.
       exists cs1, s, cs2. split_and!; [done|by rewrite <- Hxo|done]. }
  all: unfold CODE_ARENA_BINS; lia.
Qed.

(** A request fails only when no free chunk of a higher bin exists and the
    first 32 of its own bin are too small. *)
Lemma code_arena_search_none a cs fl st want :
  arena_lay a cs fl st -> code_arena_search a want = CODE_ARENA_NONE ->
  forall b l q, (Z.to_nat (code_arena_bin want) <= b)%nat -> fl !! b = Some l -> q ∈ take 32 l ->
  code_chunk_at a q c_size < want.
Proof.
  intros L He b l q Hb Hl Hq. unfold code_arena_search in *. pose proof (code_arena_bin_range want).
  edestruct search_bins_spec as [_ H2]; [exact L|..|].
  3: { eapply (H2 He b l q); [lia|done..]. }
  all: unfold CODE_ARENA_BINS; lia.
Qed.

(** ** Allocating *)

Lemma lay_here a cs1 s f cs2 fl st :
  arena_lay a (cs1 ++ (s, f) :: cs2) fl st ->
  code_chunk_at a (total cs1) c_size = s /\ code_chunk_at a (total cs1) c_free = b2z f /\
  0 <= total cs1 /\ 32 <= s /\ s `mod` 16 = 0 /\ total cs1 `mod` 16 = 0 /\ total cs1 + s <= ca_size a < 4294967296.
Proof.
  intros L. pose proof (place_middle 0 0 cs1 s f cs2) as Hm. pose proof (al_ok _ _ _ _ L) as Hok.
  pose proof (place_bounds _ _ _ _ Hok Hm) as Hb. simpl in Hb. rewrite Z.sub_0_r, !Z.add_0_l in Hb.
  pose proof (al_total _ _ _ _ L). pose proof (al_u32 _ _ _ _ L).
  split; [apply (al_size _ _ _ _ L _ Hm)|]. split; [apply (al_flag _ _ _ _ L _ Hm)|]. lia.
Qed.

(** The header of the tail is written and the chunk made smaller; the chunk
    after them still has the old size. *)
Definition cut_words (a : code_arena) (o want rest : Z) : code_arena :=
  set_chunk (set_chunk (set_chunk (clear_chunk a (o + want)) (o + want) c_size rest) (o + want) c_prev_size want)
    o c_size want.

Section split.
Context (a : code_arena) (cs1 : chunks) (s : Z) (cs2 : chunks) (fl : list (list Z)) (want rest : Z) (D : list Z).
Let cs := cs1 ++ (s, false) :: cs2.
Let o := total cs1.
Let B := [(want, false); (rest, false)].
Context (L : arena_lay a cs fl (-1)) (Hw : 32 <= want) (Hwm : want `mod` 16 = 0) (Hr : 32 <= rest)
  (Hs : s = want + rest) (HD : o ∈ D).

Lemma split_B_ok : Forall chunk_ok B /\ Forall chunk_ok (cs1 ++ B ++ cs2).
Proof using L Hw Hwm Hr Hs.
  pose proof (lay_here _ _ _ _ _ _ _ L) as (_ & _ & _ & _ & Hsm & _).
  assert (HBok : Forall chunk_ok B) by (repeat constructor; simpl; zlia). split; [done|].
  pose proof (al_ok _ _ _ _ L) as Hok. unfold cs in Hok. rewrite !Forall_app, ?Forall_cons in Hok.
  rewrite !Forall_app. tauto.
Qed.

Lemma cut_words_at q f : is_off (cs1 ++ B ++ cs2) q ->
  code_chunk_at (cut_words a o want rest) q f =
    if decide (q = o /\ f = c_size) then want else
    if decide (q = o + want) then match f with c_size => rest | c_prev_size => want | _ => 0 end
    else code_chunk_at a q f.
Proof using L Hw Hwm Hr Hs.
  clear HD D. intros Hq. destruct split_B_ok as [_ Hok'].
  assert (Hofo : is_off (cs1 ++ B ++ cs2) o) by apply is_off_middle.
  assert (Hoft : is_off (cs1 ++ B ++ cs2) (o + want)).
  { unfold is_off. simpl. rewrite place_mid. exists (mk_placed (o + want) want rest false). split; [|done]. set_solver. }
  pose proof (is_off_ends _ _ _ Hok' Hofo Hq). pose proof (is_off_ends _ _ _ Hok' Hoft Hq).
  unfold cut_words. rewrite !chunk_at_set, chunk_at_clear by done.
  destruct f; repeat case_decide; splits_hyps; subst; try congruence; try lia; exfalso;
    match goal with H : ~ (_ /\ _) |- _ => apply H; split; congruence end.
Qed.

Lemma cut_words_lay : arena_lay (cut_words a o want rest) (cs1 ++ B ++ cs2) fl (o + s).
Proof using L Hw Hwm Hr Hs.
  destruct split_B_ok as [HBok Hok']. pose proof (al_ok _ _ _ _ L) as Hok.
  replace (o + s) with (o + total [(s, false)]) by (simpl; lia).
  apply (recut_lay a); try done; [..|by repeat constructor|by repeat constructor| |].
  - apply lay_stale. exact L.
  - simpl. lia.
  - intros x Hx f. assert (Hx' : is_off (cs1 ++ B ++ cs2) (pl_off x) /\ pl_off x <> o /\ pl_off x <> o + want).
    { unfold cs in Hok. rewrite Forall_app, Forall_cons in Hok. destruct Hok as (O1 & _ & O2). destruct Hx as [Hx|Hx].
      - pose proof (place_bounds _ _ _ _ O1 Hx). split; [|lia]. exists x. rewrite place_app, elem_of_app. tauto.
      - pose proof (place_bounds _ _ _ _ O2 Hx) as Hb. simpl in Hb. split; [|lia].
        apply (place_prev _ _ _ (last_size (last_size 0 cs1) B)) in Hx as (x' & Hx' & E & _). exists x'. split; [|done].
        rewrite (recut_place cs1 cs2 [(s, false)]) by (simpl; lia). rewrite !elem_of_app. tauto. }
    destruct Hx' as (Hx1 & Hx2 & Hx3). rewrite cut_words_at by done.
    by rewrite !decide_False by (intro; splits_hyps; congruence).
  - intros x Hx. assert (Hxo : is_off (cs1 ++ B ++ cs2) (pl_off x))
      by (exists x; rewrite !place_app, !elem_of_app; tauto).
    simpl in Hx. rewrite !cut_words_at by done.
    apply elem_of_cons in Hx as [->|[->|Hx]%elem_of_cons]; [..|by apply not_elem_of_nil in Hx]; simpl; fold o.
    + rewrite decide_True by done. rewrite !decide_False by (intro; splits_hyps; (discriminate || lia)).
      pose proof (lay_here _ _ _ _ _ _ _ L) as (_ & Hf & Ho0 & _).
      pose proof (al_prev _ _ _ _ L _ (place_middle 0 0 _ _ _ _)) as Hp.
      split_and!; [done|exact Hf|apply Hp; simpl; lia].
    + rewrite !(decide_False (P := _ /\ _)) by (intros [? _]; lia). by rewrite !decide_True by done.
Qed.

Lemma cut_words_frame : frame cs D a (cut_words a o want rest).
Proof using L HD Hw Hwm Hr Hs.
  pose proof (place_middle 0 0 cs1 s false cs2) as Hm. pose proof (al_ok _ _ _ _ L) as Hok.
  unfold cut_words. repeat (eapply frame_trans; [|
    apply (frame_word _ _ Hok _ _ _ _ Hm); simpl; [fold o; lia|tauto]]). apply frame_refl.
Qed.

Lemma split_safe x : safe cs D x -> safe (cs1 ++ B ++ cs2) (o + want :: D) x.
Proof using L HD Hw Hwm Hr Hs.
  intros Hx. pose proof (al_ok _ _ _ _ L) as Hok. apply (safe_recut cs1 [(s, false)] B); [simpl; lia| |].
  - simpl. intros y [->|Hy]%elem_of_cons; [simpl; fold o; set_solver|]. by apply not_elem_of_nil in Hy.
  - apply safe_noff; [|done]. intros Hof. pose proof (is_off_ends _ _ _ Hok (is_off_middle cs1 s false cs2) Hof) as He.
    destruct Hof as (y & Hy & Hyo). fold o in He.
    destruct (place_apart _ _ _ _ _ Hok Hy (place_middle 0 0 cs1 s false cs2)) as [->|Ha];
      [simpl in Hyo; fold o in Hyo; lia|]. simpl in Ha. fold o in Ha. pose proof (place_bounds _ _ _ _ Hok Hy). unfold field_ends in He. lia.
Qed.

Lemma split_chunk_eq :
  split_chunk a o want rest =
  code_arena_link (if o + s <? ca_size a then set_chunk (cut_words a o want rest) (o + s) c_prev_size rest
                   else cut_words a o want rest) (o + want).
Proof using L Hw Hwm Hr Hs.
  pose proof (lay_here _ _ _ _ _ _ _ L) as (Hsz & _ & Ho0 & _ & Hsm & Hom & Hu). fold o in Hsz, Ho0, Hom, Hu.
  unfold split_chunk. cbv zeta. rewrite Hsz, !u32_small by zlia. done.
Qed.

Lemma after_off a1 : ca_size a1 = ca_size a -> frame cs D a1 (if o + s <? ca_size a then set_chunk a1 (o + s) c_prev_size rest else a1).
Proof using L HD Hw Hwm Hr Hs.
  intros Hsz. destruct (Z.ltb_spec (o + s) (ca_size a)) as [Hlt|]; [|apply frame_refl].
  apply frame_field; [apply (al_ok _ _ _ _ L)| |right; right; done].
  rewrite <- (al_total _ _ _ _ L) in Hlt. unfold cs in Hlt. rewrite total_app in Hlt. simpl in Hlt. fold o in Hlt.
  destruct cs2 as [|[s2 f2] cs2']; [simpl in Hlt; lia|]. unfold is_off, cs. rewrite place_mid.
  exists (mk_placed (o + s) s s2 f2). split; [|done]. simpl. fold o. set_solver.
Qed.

Lemma split_lay :
  let a' := split_chunk a o want rest in
  (exists fl', arena_lay a' (cs1 ++ (want, false) :: (rest, true) :: cs2) fl' (-1)) /\
  frame cs D a a' /\ ca_live a' = ca_live a /\ ca_size a' = ca_size a.
Proof using L HD Hw Hwm Hr Hs.
  intros a'. unfold a'. rewrite split_chunk_eq. set (a1 := cut_words a o want rest).
  set (a2 := if o + s <? ca_size a then _ else _).
  assert (L2 : arena_lay a2 (cs1 ++ B ++ cs2) fl (-1)).
  { pose proof (fix_prev_lay a1 (cs1 ++ [(want, false)]) rest false cs2 fl) as L2.
    rewrite total_app in L2. simpl in L2. fold o in L2.
    replace (o + (want + 0) + rest) with (o + s) in L2 by lia. rewrite <- app_assoc in L2. exact (L2 cut_words_lay). }
  assert (F3 : frame (cs1 ++ B ++ cs2) (o + want :: D) a2 (code_arena_link a2 (o + want)) /\
          exists fl', arena_lay (code_arena_link a2 (o + want)) (cs1 ++ (want, false) :: (rest, true) :: cs2) fl' (-1)).
  { pose proof (link_lay a2 (cs1 ++ [(want, false)]) rest cs2 fl (-1)) as L3.
    pose proof (link_frame a2 (cs1 ++ [(want, false)]) rest cs2 fl (-1) (o + want :: D)) as F3. cbv zeta in F3.
    rewrite total_app in L3, F3. simpl in L3, F3. fold o in L3, F3. rewrite Z.add_0_r in L3, F3.
    assert (E : forall f, (cs1 ++ [(want, false)]) ++ (rest, f) :: cs2 = cs1 ++ (want, false) :: (rest, f) :: cs2)
      by (intros; by rewrite <- app_assoc). rewrite !E in L3, F3.
    split; [apply F3; [exact L2|set_solver]|]. destruct (L3 L2) as (l & _ & L4). rewrite E in L4. by eexists. }
  destruct F3 as [F3 L3]. split_and!; [exact L3|..].
  - eapply frame_trans; [apply cut_words_frame|]. eapply frame_trans; [apply (after_off a1); done|].
    eapply frame_mono; [apply split_safe|exact F3].
  - rewrite (proj2 (link_size _ _)). unfold a2. by case_match.
  - rewrite (proj1 (link_size _ _)). unfold a2. by case_match.
Qed.
End split.

Lemma safe_mono cs D D' x : incl D D' -> safe cs D' x -> safe cs D x.
Proof.
  intros HD [Hx|[Hx|(y & Hy & Hyf & HyD & Hyx)]]; [by left|by right; left|]. right. right. exists y.
  split_and!; try done; try lia. intros He. apply HyD. apply list_elem_of_In, HD, list_elem_of_In, He.
Qed.

Lemma alloc_lay a cs fl size p a' :
  arena_lay a cs fl (-1) -> size_fits size -> code_arena_alloc a size = (p, a') ->
  let want := code_arena_round size in
  p = 0 /\ a' = a /\ code_arena_search a want = CODE_ARENA_NONE \/
  exists cs1 s cs2 w R fl',
    cs = cs1 ++ (s, true) :: cs2 /\ p = total cs1 + 16 /\ want <= w /\
    (R = [] /\ w = s \/ R = [(s - w, true)] /\ 32 <= s - w) /\
    arena_lay a' (cs1 ++ (w, false) :: R ++ cs2) fl' (-1) /\
    ca_live a' = u32 (ca_live a + w) /\ frame cs [] a a'.
Proof.
  intros L Hsf E want. destruct (code_arena_round_spec size Hsf) as (Hw1 & Hw2 & Hw3 & _). fold want in Hw1, Hw2, Hw3.
  unfold code_arena_alloc in E. fold want in E. cbv zeta in E.
  destruct (Z.eqb_spec (code_arena_search a want) CODE_ARENA_NONE) as [He|Hne]; [injection E as <- <-; by left|right].
  destruct (code_arena_search_some _ _ _ _ _ L Hne) as (cs1 & s & cs2 & -> & Hso & Hws). rewrite Hso in E. clear Hso Hne.
  pose proof (lay_here _ _ _ _ _ _ _ L) as (_ & _ & Ho0 & Hs32 & Hsm & Hom & Hu).
  set (o := total cs1) in *. destruct (unlink_lay _ _ _ _ _ _ L) as [fl1 L1]. fold o in L1.
  assert (U1 : u32 (o + CODE_ARENA_HEADER) = o + 16) by (apply u32_small; unfold is_u32, CODE_ARENA_HEADER; lia).
  assert (U2 : u32 (s - want) = s - want) by (apply u32_small; unfold is_u32; lia).
  pose proof (unlink_frame _ _ _ _ _ _ [] L) as F1. cbv zeta in F1. fold o in F1.
  pose proof (lay_here _ _ _ _ _ _ _ L1) as (Hsz & _). fold o in Hsz.
  assert (F2 : forall x, safe (cs1 ++ (s, true) :: cs2) [] x -> safe (cs1 ++ (s, false) :: cs2) [o] x).
  { intros x Hx. apply (safe_flag _ _ true); [apply (al_ok _ _ _ _ L)|by left|].
    apply safe_free; [apply (al_ok _ _ _ _ L)|done]. }
  set (a1 := code_arena_unlink a o) in *. set (rest := s - want).
  assert (Hlive1 : ca_live a1 = ca_live a) by apply unlink_size.
  rewrite Hsz, U1, U2 in E. fold rest in E.
  pose proof (f_equal fst E) as Hp. pose proof (f_equal snd E) as Ha'. cbn [fst snd] in Hp, Ha'.
  symmetry in Hp, Ha'. subst p.
  clear E. unfold CODE_ARENA_MIN in Ha'.
  destruct (Z.leb_spec (CODE_ARENA_HEADER + CODE_ARENA_ALIGN) rest) as [Hr|Hr]; unfold CODE_ARENA_HEADER, CODE_ARENA_ALIGN in Hr.
  - destruct (split_lay a1 cs1 s cs2 fl1 want rest [o] L1) as ((fl2 & L2) & F3 & Hlive2 & _);
      [lia|done|lia|unfold rest; lia|fold o; set_solver|]. fold o in L2, F3, Hlive2.
    exists cs1, s, cs2, want, [(rest, true)], fl2. subst a'. pose proof (lay_here _ _ _ _ _ _ _ L2) as (Hsz2 & _). fold o in Hsz2.
    split_and!; [done|done|lia|right; split; [done|unfold rest in Hr; lia]|by apply lay_live| |].
    + cbn [set_live ca_live]. rewrite Hlive2, Hlive1, Hsz2. done.
    + eapply frame_trans; [exact F1|]. eapply frame_mono; [exact F2|exact F3].
  - exists cs1, s, cs2, s, [], fl1. subst a'. rewrite Hsz, Hlive1.
    split_and!; [done|done|done|by left|by apply lay_live|done|exact F1].
Qed.

(** ** Freeing *)

(** Two neighbours become one chunk; the chunk after them still has the old size. *)
Lemma merge_lay a cs1 s1 s2 cs2 fl :
  let e := total cs1 + (s1 + s2) in
  arena_lay a (cs1 ++ (s1, false) :: (s2, false) :: cs2) fl e ->
  arena_lay (set_chunk a (total cs1) c_size (s1 + s2)) (cs1 ++ (s1 + s2, false) :: cs2) fl e.
Proof.
  intros e L. pose proof (al_ok _ _ _ _ L) as Hok. set (A := [(s1, false); (s2, false)]).
  pose proof (is_off_middle cs1 s1 false ((s2, false) :: cs2)) as Ho.
  assert (HO : 32 <= s1 /\ 32 <= s2 /\ s1 `mod` 16 = 0 /\ s2 `mod` 16 = 0 /\ Forall chunk_ok cs1 /\ Forall chunk_ok cs2).
  { rewrite Forall_app, !Forall_cons in Hok. destruct Hok as (? & [? ?] & [? ?] & ?). done. }
  assert (He : e = total cs1 + total A) by (simpl; lia). rewrite He in L |- *.
  change (cs1 ++ (s1, false) :: (s2, false) :: cs2) with (cs1 ++ A ++ cs2) in L.
  change (cs1 ++ (s1 + s2, false) :: cs2) with (cs1 ++ [(s1 + s2, false)] ++ cs2).
  apply (recut_lay a); try done; [|by repeat constructor|by repeat constructor|repeat constructor; simpl; zlia|..].
  - simpl. lia.
  - intros x Hx f. assert (Hx' : is_off (cs1 ++ A ++ cs2) (pl_off x) /\ pl_off x <> total cs1).
    { destruct HO as (? & ? & _ & _ & O1 & O2). destruct Hx as [Hx|Hx].
      - pose proof (place_bounds _ _ _ _ O1 Hx). split; [|lia]. exists x. rewrite place_app, elem_of_app. tauto.
      - pose proof (place_bounds _ _ _ _ O2 Hx) as Hb. simpl in Hb. split; [|lia].
        exists x. split; [|done]. rewrite (recut_place cs1 cs2 A) by done. rewrite !elem_of_app. tauto. }
    destruct Hx' as [Hx1 Hx2]. rewrite chunk_at_set by (by eapply is_off_ends). rewrite decide_False; [done|]. intros [? _]. congruence.
  - intros x [->|Hx]%elem_of_cons; [|by apply not_elem_of_nil in Hx]. simpl. rewrite !chunk_at_set by (by left).
    rewrite decide_True by done. rewrite !decide_False by (by intros []).
    pose proof (place_middle 0 0 cs1 s1 false ((s2, false) :: cs2)) as Hm.
    split_and!; [done|apply (al_flag _ _ _ _ L _ Hm)|apply (al_prev _ _ _ _ L _ Hm); simpl; lia].
Qed.

(** The chunks on one side of a freed chunk: those before and after the free
    neighbour it is merged with, if it has one. *)
Definition absorbs (N : chunks) (rest : option (Z * bool)) : Prop :=
  (exists s, N = [(s, true)]) \/ N = [] /\ forall s, rest <> Some (s, true).

Lemma merge_next_lay a a' cs1 s cs2 fl :
  let o := total cs1 in
  merge_next a o = a' ->
  arena_lay a (cs1 ++ (s, false) :: cs2) fl (-1) ->
  exists N cs2' fl', cs2 = N ++ cs2' /\ absorbs N (head cs2) /\
    arena_lay a' (cs1 ++ (s + total N, false) :: cs2') fl' (o + (s + total N)) /\ ca_live a' = ca_live a /\
    frame (cs1 ++ (s, false) :: cs2) [o] a a' /\
    (forall x, safe (cs1 ++ (s, false) :: cs2) [o] x -> safe (cs1 ++ (s + total N, false) :: cs2') [o] x).
Proof.
  intros o Ha' L. pose proof (lay_here _ _ _ _ _ _ _ L) as (Hsz & _ & Ho0 & Hs32 & _ & _ & Hu). fold o in Hsz, Ho0, Hu.
  pose proof (al_total _ _ _ _ L) as Ht. rewrite total_app in Ht. cbn [total] in Ht. fold o in Ht.
  pose proof (al_ok _ _ _ _ L) as Hok.
  assert (Ho : forall b, is_off (cs1 ++ (s, b) :: cs2) o) by (intros; apply is_off_middle).
  assert (U1 : u32 (o + s) = o + s) by (apply u32_small; unfold is_u32; lia).
  unfold merge_next in Ha'. rewrite Hsz, U1 in Ha'.
  assert (Hstay : (o + s <? ca_size a) && nonzero (code_chunk_at a (o + s) c_free) = false ->
     forall s, head cs2 <> Some (s, true)).
  { intros Hf s2 Hh. destruct cs2 as [|c cs2]; [done|]. simpl in Hh. injection Hh as ->. simpl in Ht.
    replace (cs1 ++ (s, false) :: (s2, true) :: cs2) with ((cs1 ++ [(s, false)]) ++ (s2, true) :: cs2) in L by (by rewrite <- app_assoc).
    pose proof (lay_here _ _ _ _ _ _ _ L) as (_ & Hfr & _ & ? & _ & _ & ?). rewrite total_app in *. simpl in *. fold o in Hfr, H0.
    rewrite Z.add_0_r in Hfr. rewrite Hfr in Hf. apply andb_false_iff in Hf as [Hf|Hf]; [btrue; lia|done]. }
  destruct ((o + s <? ca_size a) && nonzero (code_chunk_at a (o + s) c_free)) eqn:E.
  2: { subst a'. exists [], cs2, fl. split_and!; [done|right; split; [done|by apply Hstay]|..].
       all: simpl; rewrite ?Z.add_0_r; try done. by apply lay_stale. }
  clear Hstay. btrue. destruct cs2 as [|[s2 f2] cs2]; [simpl in Ht; lia|].
  pose proof L as L0.
  assert (Eq : forall f, cs1 ++ (s, false) :: (s2, f) :: cs2 = (cs1 ++ [(s, false)]) ++ (s2, f) :: cs2) by (intros; by rewrite <- app_assoc).
  rewrite Eq in L0. assert (Htl : total (cs1 ++ [(s, false)]) = o + s) by (rewrite total_app; simpl; fold o; lia).
  pose proof (lay_here _ _ _ _ _ _ _ L0) as (_ & Hfr & _ & Hs2 & _ & _ & Hu2). rewrite Htl in Hfr, Hu2.
  destruct f2; [|by rewrite Hfr in H0]. destruct (unlink_lay _ _ _ _ _ _ L0) as [fl1 L1].
  pose proof (unlink_frame _ _ _ _ _ _ [o] L0) as F1. cbv zeta in F1. rewrite Htl in L1, F1. rewrite <- Eq in L1, F1.
  pose proof (lay_here _ _ _ _ _ _ _ L1) as (Hsz1 & _). fold o in Hsz1.
  assert (Hsz2 : code_chunk_at (code_arena_unlink a (o + s)) (o + s) c_size = s2).
  { rewrite Eq in L1. pose proof (lay_here _ _ _ _ _ _ _ L1) as (Hsz2 & _). by rewrite Htl in Hsz2. }
  assert (U2 : u32 (s + s2) = s + s2) by (apply u32_small; unfold is_u32; lia).
  rewrite Hsz1, Hsz2, U2 in Ha'. subst a'.
  assert (Hsafe : forall x, safe (cs1 ++ (s, false) :: (s2, true) :: cs2) [o] x -> safe (cs1 ++ (s, false) :: (s2, false) :: cs2) [o + s; o] x).
  { intros x Hx. rewrite Eq in Hx |- *. eapply safe_flag; [by rewrite <- Eq|by left|]. rewrite <- Htl. apply safe_free; [by rewrite <- Eq|done]. }
  exists [(s2, true)], cs2, fl1. cbn [total]. rewrite Z.add_0_r. split_and!.
  - done.
  - left. by eexists.
  - apply merge_lay. by apply lay_stale.
  - apply unlink_size.
  - eapply frame_trans; [exact F1|]. eapply frame_mono; [exact Hsafe|].
    apply frame_field; [apply (al_ok _ _ _ _ L1)|apply is_off_middle|right; left; set_solver].
  - intros x Hx. apply Hsafe in Hx. eapply (safe_mono _ _ [o + s; o]); [intros z; simpl; tauto|].
    eapply (safe_recut cs1 [(s, false); (s2, false)] [(s + s2, false)]); [simpl; lia| |exact Hx].
    simpl. fold o. intros y [->|[->|Hy]%elem_of_cons]%elem_of_cons; [simpl; set_solver..|by apply not_elem_of_nil in Hy].
Qed.

Lemma merge_prev_lay a o' a' cs1 s cs2 fl :
  let o := total cs1 in
  merge_prev a o = (o', a') ->
  arena_lay a (cs1 ++ (s, false) :: cs2) fl (o + s) ->
  exists P cs1' fl', cs1 = cs1' ++ P /\ absorbs P (last cs1) /\ o' = total cs1' /\
    arena_lay a' (cs1' ++ (total P + s, false) :: cs2) fl' (o' + (total P + s)) /\ ca_live a' = ca_live a /\
    frame (cs1 ++ (s, false) :: cs2) [o] a a' /\
    (forall x, safe (cs1 ++ (s, false) :: cs2) [o] x -> safe (cs1' ++ (total P + s, false) :: cs2) [o'] x).
Proof.
  intros o Ha' L. pose proof (lay_here _ _ _ _ _ _ _ L) as (Hsz & _ & Ho0 & Hs32 & _ & _ & Hu). fold o in Hsz, Ho0, Hu.
  pose proof (al_ok _ _ _ _ L) as Hok.
  assert (Hp : code_chunk_at a o c_prev_size = last_size 0 cs1)
    by (apply (al_prev _ _ _ _ L _ (place_middle 0 0 _ _ _ _)); simpl; fold o; lia).
  unfold merge_prev in Ha'. rewrite Hp in Ha'.
  destruct cs1 as [|c cs0 _] using rev_ind.
  { injection Ha' as <- <-. exists [], [], fl. split_and!; try done. right. split; [done|]. intros; done. }
  destruct c as [s0 f0]. rewrite last_size_snoc in Ha'. cbn [fst] in Ha'.
  assert (Eq : forall f f', (cs0 ++ [(s0, f)]) ++ (s, f') :: cs2 = cs0 ++ (s0, f) :: (s, f') :: cs2) by (intros; by rewrite <- app_assoc).
  rewrite Eq in L, Hok |- *. set (b := total cs0).
  assert (Ho : o = b + s0) by (unfold o; rewrite total_app; simpl; fold b; lia).
  pose proof (lay_here _ _ _ _ _ _ _ L) as (Hszb & Hfr & Hb0 & Hs0 & _). fold b in Hszb, Hfr, Hb0.
  assert (U1 : u32 (o - s0) = b) by (rewrite u32_small; [lia|unfold is_u32; lia]).
  rewrite U1, Hfr in Ha'. replace (nonzero s0) with true in Ha' by (symmetry; unfold nonzero; lia).
  destruct f0; cbn [b2z nonzero negb Z.eqb] in Ha'.
  2: { injection Ha' as <- <-. exists [], (cs0 ++ [(s0, false)]), fl. rewrite app_nil_r, Eq. fold o. cbn [total]. rewrite Z.add_0_l.
       split_and!; try done. right. split; [done|]. intros s1. rewrite last_snoc. done. }
  destruct (unlink_lay _ _ _ _ _ _ L) as [fl1 L1]. pose proof (unlink_frame _ _ _ _ _ _ [o] L) as F1. cbv zeta in F1. fold b in L1, F1.
  pose proof (lay_here _ _ _ _ _ _ _ L1) as (Hsz1 & _). fold b in Hsz1.
  assert (Hsz2 : code_chunk_at (code_arena_unlink a b) o c_size = s).
  { rewrite <- Eq in L1. pose proof (lay_here _ _ _ _ _ _ _ L1) as (Hsz2 & _). rewrite total_app in Hsz2. simpl in Hsz2. fold b in Hsz2.
    by rewrite Z.add_0_r, <- Ho in Hsz2. }
  assert (U2 : u32 (s0 + s) = s0 + s) by (apply u32_small; unfold is_u32; lia).
  rewrite Hsz1, Hsz2, U2 in Ha'. injection Ha' as <- <-.
  assert (Hsafe : forall x, safe (cs0 ++ (s0, true) :: (s, false) :: cs2) [o] x -> safe (cs0 ++ (s0, false) :: (s, false) :: cs2) [b; o] x).
  { intros x Hx. eapply safe_flag; [done|by left|]. apply safe_free; done. }
  exists [(s0, true)], cs0, fl1. cbn [total]. rewrite Z.add_0_r. fold b. split_and!.
  - done.
  - left. by eexists.
  - done.
  - apply merge_lay. fold b. by replace (b + (s0 + s)) with (o + s) by lia.
  - apply unlink_size.
  - eapply frame_trans; [exact F1|]. eapply frame_mono; [exact Hsafe|].
    apply frame_field; [apply (al_ok _ _ _ _ L1)|apply is_off_middle|right; left; set_solver].
  - intros x Hx. apply Hsafe in Hx. eapply (safe_mono _ _ [b; o]); [intros z; simpl; tauto|].
    eapply (safe_recut cs0 [(s0, false); (s, false)] [(s0 + s, false)]); [simpl; lia| |exact Hx].
    simpl. fold b. rewrite <- Ho. intros y [->|[->|Hy]%elem_of_cons]%elem_of_cons; [simpl; set_solver..|by apply not_elem_of_nil in Hy].
Qed.

Lemma free_lay a cs1 s cs2 fl n a' :
  let o := total cs1 in
  arena_lay a (cs1 ++ (s, false) :: cs2) fl (-1) -> code_arena_free a (o + 16) = (n, a') ->
  exists P N cs1' cs2' fl' l, cs1 = cs1' ++ P /\ cs2 = N ++ cs2' /\ absorbs P (last cs1) /\ absorbs N (head cs2) /\
    n = total P + (s + total N) /\
    arena_lay a' (cs1' ++ (n, true) :: cs2') fl' (-1) /\
    fl' !! Z.to_nat (code_arena_bin n) = Some (total cs1' :: l) /\
    ca_live a' = u32 (ca_live a - s) /\ frame (cs1 ++ (s, false) :: cs2) [o] a a'.
Proof.
  intros o L E. pose proof (lay_here _ _ _ _ _ _ _ L) as (Hsz & Hf & Ho0 & Hs32 & _ & _ & Hu). fold o in Hsz, Hf, Ho0, Hu.
  assert (U1 : u32 (o + 16 - CODE_ARENA_HEADER) = o) by (unfold CODE_ARENA_HEADER; rewrite u32_small; [lia|unfold is_u32; lia]).
  unfold code_arena_free in E. rewrite U1, Hf, Hsz in E. cbn [b2z nonzero negb Z.eqb orb] in E.
  rewrite (proj2 (Z.ltb_ge (o + 16) CODE_ARENA_HEADER)), (proj2 (Z.leb_gt (ca_size a) (o + 16))) in E by (unfold CODE_ARENA_HEADER; lia).
  cbn [orb] in E. set (a0 := set_live a _) in E. cbv zeta in E.
  assert (L0 : arena_lay a0 (cs1 ++ (s, false) :: cs2) fl (-1)) by (by apply lay_live).
  destruct (merge_next_lay a0 _ cs1 s cs2 fl eq_refl L0) as (N & cs2' & fl1 & HN & HaN & L1 & Hl1 & F1 & S1).
  fold o in L1, F1, S1, Hl1. set (a1 := merge_next a0 o) in *.
  destruct (merge_prev a1 o) as [o' a2] eqn:E2.
  destruct (merge_prev_lay a1 _ _ cs1 _ cs2' fl1 E2 L1) as (P & cs1' & fl2 & HP & HaP & -> & L2 & Hl2 & F2 & S2).
  fold o in F2, S2. set (m := total P + (s + total N)) in *.
  pose proof (lay_here _ _ _ _ _ _ _ L2) as (Hsz2 & _ & Ho2 & Hm & _ & _ & Hu2).
  assert (U2 : u32 (total cs1' + m) = total cs1' + m) by (apply u32_small; unfold is_u32; lia).
  rewrite Hsz2, U2 in E. pose proof (fix_prev_lay _ _ _ _ _ _ L2) as L3.
  assert (F3 : frame (cs1' ++ (m, false) :: cs2') [total cs1'] a2
    (if total cs1' + m <? ca_size a2 then set_chunk a2 (total cs1' + m) c_prev_size m else a2)).
  { destruct (Z.ltb_spec (total cs1' + m) (ca_size a2)) as [Hlt|]; [|apply frame_refl].
    apply frame_field; [apply (al_ok _ _ _ _ L2)| |right; right; done].
    rewrite <- (al_total _ _ _ _ L2), total_app in Hlt. simpl in Hlt.
    destruct cs2' as [|[s2 f2] cs2']; [simpl in Hlt; lia|]. unfold is_off. rewrite place_mid.
    exists (mk_placed (total cs1' + m) m s2 f2). split; [|done]. simpl. set_solver. }
  set (a3 := if total cs1' + m <? ca_size a2 then _ else _) in *.
  destruct (link_lay _ _ _ _ _ _ L3) as (l & Hl & L4).
  pose proof (lay_here _ _ _ _ _ _ _ L4) as (Hsz4 & _). rewrite Hsz4 in E.
  pose proof (f_equal fst E) as En. pose proof (f_equal snd E) as Ea. cbn [fst snd] in En, Ea. subst n a'. clear E.
  exists P, N, cs1', cs2'. eexists _, l. split_and!; [done|done|done|done|done|exact L4|..].
  - apply list_lookup_insert_eq. by eapply lookup_lt_Some.
  - rewrite (proj2 (link_size _ _)). transitivity (ca_live a2); [unfold a3; by case_match|]. rewrite Hl2, Hl1. done.
  - eapply frame_trans; [exact F1|]. eapply frame_mono; [exact S1|]. eapply frame_trans; [exact F2|].
    eapply frame_mono; [exact S2|]. eapply frame_trans; [exact F3|]. eapply link_frame; [exact L3|set_solver].
Qed.

(** ** The arena and the owner of its blocks

    A block handed out is its payload's offset, with the size asked for and the
    words its owner has stored in it. *)
Record block := mk_block { bk_size : Z; bk_words : gmap Z Z }.

Inductive arena_step : code_arena * gmap Z block -> code_arena * gmap Z block -> Prop :=
| step_alloc a H size p a' :
    size_fits size -> code_arena_alloc a size = (p, a') ->
    arena_step (a, H) (a', if p =? 0 then H else <[p := mk_block size ∅]> H)
| step_store a H p b i v :
    H !! p = Some b -> 0 <= i -> i + 4 <= bk_size b -> i `mod` 4 = 0 ->
    arena_step (a, H) (store_word a (p + i) v, <[p := mk_block (bk_size b) (<[i := v]> (bk_words b))]> H)
| step_free a H p n a' :
    is_Some (H !! p) -> code_arena_free a p = (n, a') -> arena_step (a, H) (a', delete p H).

(** The offsets and sizes of the chunks that are handed out. *)
Fixpoint lives (o : Z) (cs : chunks) : list (Z * Z) :=
  match cs with
  | [] => []
  | (s, f) :: cs => (if f then [] else [(o, s)]) ++ lives (o + s) cs
  end.

Lemma lives_app o cs1 cs2 : lives o (cs1 ++ cs2) = lives o cs1 ++ lives (o + total cs1) cs2.
Proof.
  revert o. induction cs1 as [|[s f] cs1 IH]; intros o; simpl; [by rewrite Z.add_0_r|].
  rewrite IH, Z.add_assoc. by destruct f.
Qed.

Lemma lives_place o q cs o' s : (o', s) ∈ lives o cs <-> exists p, mk_placed o' p s false ∈ place o q cs.
Proof.
  revert o q. induction cs as [|[s1 f] cs IH]; intros o q; simpl.
  { split; [by intros ?%not_elem_of_nil|]. by intros [p ?%not_elem_of_nil]. }
  rewrite elem_of_app, (IH _ s1). setoid_rewrite elem_of_cons. split.
  - intros [H|[p H]]; [|exists p; by right]. destruct f; [by apply not_elem_of_nil in H|].
    apply list_elem_of_singleton in H as [= -> ->]. exists q. by left.
  - intros [p [H|H]]; [|right; by exists p]. injection H as -> -> -> <-. left. set_solver.
Qed.

Lemma lives_free o cs : Forall (fun c => snd c = true) cs -> lives o cs = [].
Proof.
  intros Hf. revert o. induction Hf as [|[s f] cs Hf _ IH]; intros o; simpl; [done|]. simpl in Hf. subst f. by rewrite IH.
Qed.

Lemma lives_split o s cs :
  (o, s) ∈ lives 0 cs -> exists cs1 cs2, cs = cs1 ++ (s, false) :: cs2 /\ o = total cs1.
Proof.
  intros Hl. apply (lives_place _ 0) in Hl as [p Hp]. apply elem_of_place in Hp as (c1 & s' & f & c2 & -> & E).
  injection E as -> _ -> <-. by exists c1, c2.
Qed.

Lemma lives_safe cs D o s x :
  (o, s) ∈ lives 0 cs -> o ∉ D -> o + 16 <= x < o + s -> safe cs D x.
Proof. intros Hl HD Hx. apply (lives_place _ 0) in Hl as [p Hp]. right. right. by exists (mk_placed o p s false). Qed.

Lemma lives_apart cs o s o' s' :
  Forall chunk_ok cs -> (o, s) ∈ lives 0 cs -> (o', s') ∈ lives 0 cs ->
  o = o' /\ s = s' \/ o + s <= o' \/ o' + s' <= o.
Proof.
  intros Hok H1 H2. apply (lives_place _ 0) in H1 as [p Hp]. apply (lives_place _ 0) in H2 as [p' Hp'].
  destruct (place_apart _ _ _ _ _ Hok Hp Hp') as [[= -> _ ->]|H]; [by left|by right].
Qed.

Lemma merged_app cs1 cs2 :
  merged (cs1 ++ cs2) <->
  merged cs1 /\ merged cs2 /\ ~ (exists s s', last cs1 = Some (s, true) /\ head cs2 = Some (s', true)).
Proof.
  induction cs1 as [|[s f] cs1 IH]; [simpl; split; [|tauto]; intros; split_and!; try done; by intros (? & ? & ? & ?)|].
  destruct cs1 as [|[s1 f1] cs1].
  - simpl. destruct cs2 as [|[s2 f2] cs2]; [destruct f; simpl; split; try tauto; intros; split_and!; try done; by intros (? & ? & ? & ?)|].
    simpl. destruct f, f2; split; try tauto; try (intros; split_and!; try done; intros (? & ? & ? & ?); congruence).
    intros (_ & _ & Hn). destruct Hn. by exists s, s2.
  - rewrite last_cons_cons. simpl app in *. destruct f, f1; simpl in IH |- *; tauto.
Qed.

(** ** What holds of the arena and its blocks *)
Record arena_blocks (memory : gmap Z Z) (size : Z) (a : code_arena) (H : gmap Z block) (cs : chunks) (fl : list (list Z)) : Prop := {
  ab_lay : arena_lay a cs fl (-1);
  ab_size : total cs = size;
  ab_merged : merged cs;
  ab_live : ca_live a = live_total cs;
  ab_block p b : H !! p = Some b -> exists s, (p - 16, s) ∈ lives 0 cs /\ bk_size b + 16 <= s /\
    forall i v, bk_words b !! i = Some v -> 0 <= i /\ i + 4 <= bk_size b /\ word a (p + i) = v;
  ab_lives o s : (o, s) ∈ lives 0 cs -> is_Some (H !! (o + 16));
  ab_out x : x < 0 \/ size <= x -> word a x = default 0 (memory !! x)
}.

Lemma arena_blocks_init memory size :
  32 <= size < 4294967296 ->
  exists s fl, 32 <= s <= size /\ s = size / 16 * 16 /\
    arena_blocks memory s (code_arena_init memory size) ∅ [(s, true)] fl.
Proof.
  intros Hs. set (s := size / 16 * 16). assert (Hs16 : s `mod` 16 = 0 /\ 32 <= s <= size) by (unfold s; zlia).
  assert (Hsz : u32 (Z.land size (UINT64_MAX - (CODE_ARENA_ALIGN - 1))) = s).
  { replace (Z.land size (UINT64_MAX - (CODE_ARENA_ALIGN - 1))) with (Z.land size (UINT_MAX - (CODE_ARENA_ALIGN - 1))).
    - rewrite round_mask by lia. apply u32_small. unfold is_u32. fold s. lia.
    - replace (UINT64_MAX - (CODE_ARENA_ALIGN - 1)) with (Z.lor (UINT_MAX - (CODE_ARENA_ALIGN - 1)) (Z.shiftl (Z.ones 32) 32)) by done.
      rewrite Z.land_lor_distr_r. replace (Z.land size (Z.shiftl (Z.ones 32) 32)) with 0; [by rewrite Z.lor_0_r|].
      symmetry. apply Z.bits_inj'. intros n Hn. rewrite Z.land_spec, Z.bits_0, Z.shiftl_spec by lia.
      destruct (decide (n < 32)); [rewrite (Z.testbit_neg_r _ (n - 32)) by lia; apply andb_false_r|].
      rewrite (Z.bits_above_log2 size n); [done|lia|]. apply Z.log2_lt_pow2; [lia|].
      assert (2 ^ 32 <= 2 ^ n) by (apply Z.pow_le_mono_r; lia). change (2 ^ 32) with 4294967296 in *. lia. }
  unfold code_arena_init. rewrite Hsz. cbv zeta.
  rewrite (proj2 (Z.ltb_ge s CODE_ARENA_MIN)) by (unfold CODE_ARENA_MIN, CODE_ARENA_HEADER, CODE_ARENA_ALIGN; lia).
  set (a0 := mk_code_arena memory s 0 _). set (a1 := set_chunk (clear_chunk a0 0) 0 c_size s).
  assert (A : forall f, code_chunk_at a1 0 f = match f with c_size => s | _ => 0 end).
  { intros f. unfold a1. rewrite chunk_at_set, chunk_at_clear by (by left). destruct f; done. }
  assert (L : arena_lay a1 ([] ++ (s, false) :: []) (replicate 24 []) (-1)).
  { split.
    - simpl. lia.
    - simpl. lia.
    - repeat constructor; simpl; lia.
    - intros x [->|Hx]%elem_of_cons; [apply A|by apply not_elem_of_nil in Hx].
    - intros x [->|Hx]%elem_of_cons; [apply A|by apply not_elem_of_nil in Hx].
    - intros x [->|Hx]%elem_of_cons _; [apply A|by apply not_elem_of_nil in Hx].
    - done.
    - intros b l [-> Hb]%lookup_replicate. change (replicate 24 CODE_ARENA_NONE !! b = Some CODE_ARENA_NONE). by apply lookup_replicate_2.
    - intros b l [-> Hb]%lookup_replicate. apply NoDup_nil_2.
    - by intros b l [-> Hb]%lookup_replicate.
    - intros b l o [-> Hb]%lookup_replicate. split; [by intros ?%not_elem_of_nil|].
      intros (x & [->|Hx]%elem_of_cons & _ & Hf & _); [done|by apply not_elem_of_nil in Hx]. }
  destruct (link_lay _ _ _ _ _ _ L) as (l & _ & L1). simpl in L1. exists s. eexists. split; [lia|]. split; [done|].
  split; [exact L1|simpl; lia|done|rewrite (proj2 (link_size _ _)); done|done|by intros o t ?%not_elem_of_nil|].
  intros x Hx. assert (Hsf : safe ([] ++ (s, false) :: []) [0] x) by (unfold safe; simpl; lia).
  transitivity (word a1 x); [apply (link_frame a1 [] s [] _ _ [0] L); [set_solver|exact Hsf]|].
  unfold a1, set_chunk. rewrite word_store, decide_False by (simpl; lia). rewrite word_clear, decide_False; [done|].
  rewrite !elem_of_cons, elem_of_nil. lia.
Qed.

Section steps.
Context (memory : gmap Z Z) (size : Z).
Implicit Types (a : code_arena) (H : gmap Z block) (cs : chunks).

(** The words of a block stay what its owner stored, when the step leaves its
    payload alone. *)
Lemma block_kept a a' cs D H p b :
  (forall p b, H !! p = Some b -> exists s, (p - 16, s) ∈ lives 0 cs /\ bk_size b + 16 <= s /\
    forall i v, bk_words b !! i = Some v -> 0 <= i /\ i + 4 <= bk_size b /\ word a (p + i) = v) ->
  frame cs D a a' -> H !! p = Some b -> p - 16 ∉ D ->
  exists s, (p - 16, s) ∈ lives 0 cs /\ bk_size b + 16 <= s /\
    forall i v, bk_words b !! i = Some v -> 0 <= i /\ i + 4 <= bk_size b /\ word a' (p + i) = v.
Proof using.
  intros Hb F Hp HD. destruct (Hb p b Hp) as (s & Hs & Hsz & Hw). exists s. split_and!; [done|done|].
  intros i v Hi. destruct (Hw i v Hi) as (H1 & H2 & H3). split_and!; [lia..|]. rewrite <- H3. apply F.
  eapply lives_safe; [done..|]. lia.
Qed.

Lemma alloc_blocks a H cs fl n p a' :
  arena_blocks memory size a H cs fl -> size_fits n -> code_arena_alloc a n = (p, a') ->
  (p <> 0 -> H !! p = None) /\
  exists cs' fl', arena_blocks memory size a' (if p =? 0 then H else <[p := mk_block n ∅]> H) cs' fl'.
Proof using.
  intros I Hn E. pose proof (ab_lay _ _ _ _ _ _ I) as L.
  destruct (alloc_lay _ _ _ _ _ _ L Hn E) as [(-> & -> & _)|(cs1 & s & cs2 & w & R & fl' & -> & -> & Hw & HR & L' & Hl & F)].
  { split; [done|]. by exists cs, fl. }
  set (o := total cs1) in *. pose proof (lay_here _ _ _ _ _ _ _ L) as (_ & _ & Ho0 & _ & _ & _ & Hu). fold o in Ho0, Hu.
  pose proof (lay_here _ _ _ _ _ _ _ L') as (_ & _ & _ & Hw32 & _).
  destruct (code_arena_round_spec n Hn) as (Hr & _). pose proof (al_ok _ _ _ _ L) as Hok. pose proof (al_ok _ _ _ _ L') as Hok'.
  assert (HRw : w + total R = s /\ Forall (fun c => snd c = true) R).
  { destruct HR as [[-> ->]|[-> ?]]; (split; [simpl; lia|]); [constructor|by repeat constructor]. }
  destruct HRw as [HRw HRf].
  assert (Hlv : lives 0 (cs1 ++ (w, false) :: R ++ cs2) = lives 0 cs1 ++ (o, w) :: lives (o + s) cs2).
  { rewrite lives_app, Z.add_0_l. fold o. cbn [lives]. rewrite lives_app, (lives_free _ _ HRf). simpl.
    do 3 f_equal. lia. }
  assert (Hlo : lives 0 (cs1 ++ (s, true) :: cs2) = lives 0 cs1 ++ lives (o + s) cs2) by (by rewrite lives_app).
  assert (Hfresh : H !! (o + 16) = None).
  { destruct (H !! (o + 16)) as [b|] eqn:Hb; [|done]. exfalso. destruct (ab_block _ _ _ _ _ _ I _ _ Hb) as (t & Ht & _).
    replace (o + 16 - 16) with o in Ht by lia. apply (lives_place _ 0) in Ht as [q Hq].
    pose proof (place_same_off _ _ _ Hok Hq (place_middle 0 0 cs1 s true cs2) eq_refl). done. }
  split; [done|]. rewrite (proj2 (Z.eqb_neq (o + 16) 0)) by lia. exists (cs1 ++ (w, false) :: R ++ cs2), fl'. split.
  - done.
  - rewrite <- (ab_size _ _ _ _ _ _ I), !total_app. simpl. rewrite total_app. lia.
  - pose proof (ab_merged _ _ _ _ _ _ I) as Hm. rewrite merged_app in Hm |- *. destruct Hm as (M1 & M2 & M3).
    split_and!; [done| |by intros (? & ? & _ & ?)]. destruct HR as [[-> ->]|[-> ?]]; simpl; [by destruct cs2 as [|[? []] ?]|exact M2].
  - rewrite Hl, (ab_live _ _ _ _ _ _ I). pose proof (live_total_le _ Hok'). pose proof (al_total _ _ _ _ L').
    assert (ca_size a' < 4294967296) by apply (al_u32 _ _ _ _ L').
    replace (live_total (cs1 ++ (w, false) :: R ++ cs2)) with (live_total (cs1 ++ (s, true) :: cs2) + w) in *.
    + apply u32_small. unfold is_u32. pose proof (live_total_le _ Hok). lia.
    + rewrite !live_total_app. simpl. rewrite live_total_app. destruct HR as [[-> ->]|[-> ?]]; simpl; lia.
  - intros p b. rewrite Hlv. destruct (decide (p = o + 16)) as [->|Hne].
    + rewrite lookup_insert_eq. intros [= <-]. exists w. split_and!; [|simpl; lia|by intros i v ?].
      replace (o + 16 - 16) with o by lia. set_solver.
    + rewrite lookup_insert_ne by done. intros Hp.
      destruct (block_kept _ _ _ _ _ _ _ (ab_block _ _ _ _ _ _ I) F Hp ltac:(set_solver)) as (t & Ht & ?).
      exists t. split; [|done]. rewrite Hlo in Ht. set_solver.
  - intros o1 s1. rewrite Hlv. intros [Hin|[[= -> ->]|Hin]%elem_of_cons]%elem_of_app; [|by rewrite lookup_insert_eq|];
      (destruct (decide (o + 16 = o1 + 16)) as [->|Hne]; [by rewrite lookup_insert_eq|rewrite lookup_insert_ne by done]);
      eapply (ab_lives _ _ _ _ _ _ I); rewrite Hlo, elem_of_app; eauto.
  - intros x Hx. rewrite <- (ab_out _ _ _ _ _ _ I x Hx). apply F.
    rewrite <- (ab_size _ _ _ _ _ _ I) in Hx. unfold safe. tauto.
Qed.

Lemma absorbs_free N r : absorbs N r -> Forall (fun c => snd c = true) N.
Proof using. intros [[s ->]|[-> _]]; [by repeat constructor|constructor]. Qed.

Lemma free_blocks a H cs fl p b n a' :
  arena_blocks memory size a H cs fl -> H !! p = Some b -> code_arena_free a p = (n, a') ->
  bk_size b + 16 <= n /\
  exists cs1 cs2 fl' l, arena_blocks memory size a' (delete p H) (cs1 ++ (n, true) :: cs2) fl' /\
    fl' !! Z.to_nat (code_arena_bin n) = Some (total cs1 :: l).
Proof using.
  intros I Hp E. pose proof (ab_lay _ _ _ _ _ _ I) as L. destruct (ab_block _ _ _ _ _ _ I _ _ Hp) as (s & Hs & Hbs & _).
  pose proof Hs as Hs'. apply lives_split in Hs' as (cs1 & cs2 & -> & Ho). set (o := total cs1) in *.
  assert (p = o + 16) as -> by lia.
  destruct (free_lay _ _ _ _ _ _ _ L E) as (P & N & c1 & c2 & fl' & l & HP & HN & HaP & HaN & Hn & L' & Hhd & Hl & F).
  pose proof (absorbs_free _ _ HaP) as HPf. pose proof (absorbs_free _ _ HaN) as HNf.
  pose proof (al_ok _ _ _ _ L) as Hok. pose proof (al_ok _ _ _ _ L') as Hok'.
  assert (Hpos : 0 <= total P /\ 0 <= total N).
  { rewrite HP, HN in Hok. rewrite !Forall_app, Forall_cons, Forall_app in Hok. destruct Hok as ((_ & ?) & _ & ? & _).
    split; by apply total_nonneg. }
  assert (Hlo : lives 0 (cs1 ++ (s, false) :: cs2) = lives 0 c1 ++ (o, s) :: lives (o + s + total N) c2).
  { rewrite lives_app, Z.add_0_l. fold o. cbn [lives]. rewrite HP, HN, !lives_app, (lives_free _ P), (lives_free _ N) by done.
    rewrite app_nil_r. done. }
  assert (Hot : o = total c1 + total P) by (unfold o; rewrite HP, total_app; done).
  assert (Hlv : lives 0 (c1 ++ (n, true) :: c2) = lives 0 c1 ++ lives (o + s + total N) c2).
  { rewrite lives_app. simpl. do 2 f_equal. lia. }
  split; [lia|]. exists c1, c2, fl', l. split; [|done]. split.
  - done.
  - rewrite <- (ab_size _ _ _ _ _ _ I), HP, HN, !total_app. simpl. rewrite total_app. lia.
  - pose proof (ab_merged _ _ _ _ _ _ I) as Hm. rewrite merged_app in Hm. destruct Hm as (M1 & M2 & _).
    assert (M2' : merged cs2) by (destruct cs2 as [|[? []] ?]; simpl in M2 |- *; done). clear M2.
    assert (Hc2 : forall t, head c2 <> Some (t, true)).
    { destruct HaN as [[t ->]|[-> HaN]]; [|simpl in HN; by rewrite <- HN]. subst cs2. intros t' Ht. destruct c2 as [|[? ?] ?]; [done|].
      simpl in Ht. injection Ht as -> ->. simpl in M2'. done. }
    assert (Hc1 : forall t, last c1 <> Some (t, true)).
    { destruct HaP as [[t ->]|[-> HaP]]; [|rewrite app_nil_r in HP; by rewrite <- HP]. subst cs1. intros t' Ht.
      apply merged_app in M1 as (_ & _ & M1). apply M1. by exists t', t. }
    subst cs1 cs2. apply merged_app in M1 as (M1 & _). apply merged_app in M2' as (_ & M2 & _).
    apply merged_app. split_and!; [done| |intros (t & ? & Ht & _); by apply (Hc1 t)].
    destruct c2 as [|[t []] c2]; [done|destruct (Hc2 t); done|exact M2].
  - rewrite Hl, (ab_live _ _ _ _ _ _ I). pose proof (live_total_le _ Hok). pose proof (live_total_le _ Hok').
    pose proof (al_total _ _ _ _ L). assert (ca_size a < 4294967296) by apply (al_u32 _ _ _ _ L).
    replace (live_total (cs1 ++ (s, false) :: cs2)) with (live_total (c1 ++ (n, true) :: c2) + s) in *.
    + rewrite Z.add_simpl_r. apply u32_small. unfold is_u32. pose proof (lay_here _ _ _ _ _ _ _ L). lia.
    + subst cs1 cs2. rewrite !live_total_app. simpl. rewrite live_total_app.
      assert (forall X, absorbs X None \/ True -> Forall (fun c => snd c = true) X -> live_total X = 0) as Z0.
      { intros X _. induction 1 as [|[? ?] ? Hf _ IH]; [done|]. simpl in *. by subst. }
      rewrite (Z0 P), (Z0 N); try tauto. lia.
  - intros q b'. rewrite lookup_delete_Some. intros [Hne Hq]. rewrite Hlv.
    destruct (block_kept _ _ _ _ _ _ _ (ab_block _ _ _ _ _ _ I) F Hq) as (t & Ht & ?).
    { rewrite list_elem_of_singleton. fold o. lia. }
    exists t. split; [|done]. rewrite Hlo in Ht. apply elem_of_app in Ht as [Ht|[[= Ht _]|Ht]%elem_of_cons]; [set_solver|lia|set_solver].
  - intros o1 s1. rewrite Hlv. intros Hin. assert (Hin' : (o1, s1) ∈ lives 0 (cs1 ++ (s, false) :: cs2)) by (rewrite Hlo; set_solver).
    rewrite lookup_delete_ne; [by eapply (ab_lives _ _ _ _ _ _ I)|]. intros Heq. assert (o1 = o) as -> by lia.
    rewrite <- Hlv in Hin. apply (lives_place _ 0) in Hin as [q Hq]. pose proof (place_bounds _ _ _ _ Hok' Hq) as Hb. simpl in Hb.
    destruct (place_apart _ _ _ _ _ Hok' Hq (place_middle 0 0 c1 n true c2)) as [Heq'|Ha]; [done|]. simpl in Ha.
    pose proof (lay_here _ _ _ _ _ _ _ L). lia.
  - intros x Hx. rewrite <- (ab_out _ _ _ _ _ _ I x Hx). apply F.
    rewrite <- (ab_size _ _ _ _ _ _ I) in Hx. unfold safe. tauto.
Qed.

(** A store of an owner into its block leaves the headers alone. *)
Lemma store_lay a cs fl o s x v :
  arena_lay a cs fl (-1) -> (o, s) ∈ lives 0 cs -> o + 16 <= x < o + s -> arena_lay (store_word a x v) cs fl (-1).
Proof using.
  intros L Hl Hx. pose proof (al_ok _ _ _ _ L) as Hok. apply (lives_place _ 0) in Hl as [q Hq].
  assert (U : forall y f, y ∈ place 0 0 cs -> pl_free y = true \/ f <> c_prev_free ->
            code_chunk_at (store_word a x v) (pl_off y) f = code_chunk_at a (pl_off y) f).
  { intros y f Hy Hf. unfold code_chunk_at. rewrite word_store, decide_False; [done|].
    pose proof (place_bounds _ _ _ _ Hok Hy). destruct (place_apart _ _ _ _ _ Hok Hy Hq) as [->|Ha]; simpl in *.
    - destruct Hf as [|Hf]; [done|]. destruct f; simpl; try done; lia.
    - destruct f; simpl; lia. }
  assert (U' : forall y f, y ∈ place 0 0 cs -> f <> c_prev_free -> code_chunk_at (store_word a x v) (pl_off y) f = code_chunk_at a (pl_off y) f)
    by (intros; apply U; tauto).
  split; try (by destruct L).
  - intros y Hy. rewrite U' by done. by apply (al_size _ _ _ _ L).
  - intros y Hy. rewrite U' by done. by apply (al_flag _ _ _ _ L).
  - intros y Hy Hs. rewrite U' by done. by apply (al_prev _ _ _ _ L).
  - intros b l Hb. eapply dlseg_ext; [|by eapply (al_list _ _ _ _ L)]. intros z Hz.
    apply (al_mem _ _ _ _ L _ _ _ Hb) in Hz as (y & Hy & <- & Hf & _). split; apply U; tauto.
Qed.

Lemma store_blocks a H cs fl p b i v :
  arena_blocks memory size a H cs fl -> H !! p = Some b -> 0 <= i -> i + 4 <= bk_size b ->
  arena_blocks memory size (store_word a (p + i) v) (<[p := mk_block (bk_size b) (<[i := v]> (bk_words b))]> H) cs fl.
Proof using.
  intros I Hp Hi Hib. destruct (ab_block _ _ _ _ _ _ I _ _ Hp) as (s & Hs & Hbs & Hw).
  pose proof (ab_lay _ _ _ _ _ _ I) as L. pose proof (al_ok _ _ _ _ L) as Hok.
  split; try (by destruct I).
  - eapply store_lay; [done..|]. lia.
  - intros q c. destruct (decide (p = q)) as [<-|Hne].
    + rewrite lookup_insert_eq. intros [= <-]. exists s. split_and!; [done|done|]. simpl. intros j u.
      rewrite word_store. destruct (decide (i = j)) as [<-|Hij].
      * rewrite lookup_insert_eq. intros [= <-]. split_and!; [lia..|]. by rewrite decide_True.
      * rewrite lookup_insert_ne by done. intros Hj. rewrite decide_False by lia. by apply Hw.
    + rewrite lookup_insert_ne by done. intros Hq. destruct (ab_block _ _ _ _ _ _ I _ _ Hq) as (t & Ht & Hct & Hv).
      exists t. split_and!; [done|done|]. intros j u Hj. destruct (Hv j u Hj) as (? & ? & Hu). split_and!; [done|done|].
      rewrite word_store, decide_False; [done|]. destruct (lives_apart _ _ _ _ _ Hok Hs Ht) as [[? _]|?]; lia.
  - intros o t Ho. destruct (decide (p = o + 16)) as [->|Hne]; [by rewrite lookup_insert_eq|].
    rewrite lookup_insert_ne by done. by eapply (ab_lives _ _ _ _ _ _ I).
  - intros x Hx. rewrite word_store, decide_False; [by apply (ab_out _ _ _ _ _ _ I)|].
    apply (lives_place _ 0) in Hs as [q Hq]. pose proof (place_bounds _ _ _ _ Hok Hq) as Hb. simpl in Hb.
    rewrite (ab_size _ _ _ _ _ _ I) in Hb. lia.
Qed.

Lemma arena_step_blocks st st' :
  arena_step st st' -> (exists cs fl, arena_blocks memory size (fst st) (snd st) cs fl) ->
  exists cs fl, arena_blocks memory size (fst st') (snd st') cs fl.
Proof using.
  intros [a H n p a' Hn E|a H p b i v Hp Hi Hib _|a H p n a' [b Hp] E] (cs & fl & I); simpl in *.
  - by eapply alloc_blocks.
  - exists cs, fl. by apply store_blocks.
  - destruct (free_blocks _ _ _ _ _ _ _ _ I Hp E) as (_ & cs1 & cs2 & fl' & l & I' & _). by eexists _, _.
Qed.
End steps.

Lemma arena_reachable memory size a H :
  32 <= size < 4294967296 -> rtc arena_step (code_arena_init memory size, ∅) (a, H) ->
  exists cs fl, arena_blocks memory (size / 16 * 16) a H cs fl.
Proof.
  intros Hs Hr. destruct (arena_blocks_init memory size Hs) as (s & fl & _ & -> & I).
  apply (rtc_keeps _ (fun st => exists cs fl, arena_blocks memory (size / 16 * 16) (fst st) (snd st) cs fl) _ _
    (arena_step_blocks memory (size / 16 * 16)) Hr). by eexists _, _.
Qed.

(** A chunk at the head of its bin serves every request it is large enough for. *)
Lemma head_fits a cs1 n cs2 fl l size :
  arena_lay a (cs1 ++ (n, true) :: cs2) fl (-1) ->
  fl !! Z.to_nat (code_arena_bin n) = Some (total cs1 :: l) -> code_arena_round size <= n ->
  code_arena_fits a size = true.
Proof.
  intros L Hl Hs. unfold code_arena_fits. apply negb_true_iff, Z.eqb_neq. intros E.
  pose proof (lay_here _ _ _ _ _ _ _ L) as (Hsz & _). pose proof (code_arena_bin_mono _ _ Hs).
  enough (code_chunk_at a (total cs1) c_size < code_arena_round size) by lia.
  apply (code_arena_search_none _ _ _ _ _ L E _ _ (total cs1)) with (2 := Hl); [lia|simpl; set_solver].
Qed.

(** C28: The blocks of a code arena are memory of their owners: after any
    allocations, frees and stores of owners into their blocks, every block
    handed out lies inside the arena at a multiple of 16, is apart from every
    other block by at least a header, and reads what its owner stored last; the
    next allocation never returns a block that is still handed out; and no word
    outside the arena has changed. *)
Theorem code_arena_blocks memory size a H :
  32 <= size < 4294967296 -> rtc arena_step (code_arena_init memory size, ∅) (a, H) ->
  (forall p b, H !! p = Some b -> 16 <= p /\ p `mod` 16 = 0 /\ p + bk_size b <= size /\
     forall i v, bk_words b !! i = Some v -> word a (p + i) = v) /\
  (forall p b q c, H !! p = Some b -> H !! q = Some c -> p <> q ->
     p + bk_size b + 16 <= q \/ q + bk_size c + 16 <= p) /\
  (forall n p a', size_fits n -> code_arena_alloc a n = (p, a') -> p <> 0 -> H !! p = None) /\
  (forall x, x < 0 \/ size <= x -> word a x = default 0 (memory !! x)).
Proof.
  intros Hs Hr. destruct (arena_reachable _ _ _ _ Hs Hr) as (cs & fl & I).
  pose proof (ab_lay _ _ _ _ _ _ I) as L. pose proof (al_ok _ _ _ _ L) as Hok. split_and!.
  - intros p b Hp. destruct (ab_block _ _ _ _ _ _ I _ _ Hp) as (s & Hl & Hbs & Hw).
    apply (lives_place _ 0) in Hl as [q Hq]. pose proof (place_bounds _ _ _ _ Hok Hq) as Hb. simpl in Hb.
    rewrite (ab_size _ _ _ _ _ _ I) in Hb. split_and!; [lia|zlia|zlia|]. intros i v Hi. by apply Hw.
  - intros p b q c Hp Hq Hne. destruct (ab_block _ _ _ _ _ _ I _ _ Hp) as (s & Hl & Hbs & _).
    destruct (ab_block _ _ _ _ _ _ I _ _ Hq) as (t & Ht & Hct & _). destruct (lives_apart _ _ _ _ _ Hok Hl Ht); lia.
  - intros n p a' Hn E. by eapply (alloc_blocks _ _ _ _ _ _ _ _ _ I Hn E).
  - intros x Hx. apply (ab_out _ _ _ _ _ _ I). zlia.
Qed.

(** What is freed can be handed out again: freeing a block reports the
    size of the hole it leaves, at least the block with its header, and a
    request that fits this hole will find room. *)
Theorem code_arena_free_reusable memory size a H p b n a' :
  32 <= size < 4294967296 -> rtc arena_step (code_arena_init memory size, ∅) (a, H) ->
  H !! p = Some b -> code_arena_free a p = (n, a') ->
  bk_size b + 16 <= n /\ forall want, code_arena_round want <= n -> code_arena_fits a' want = true.
Proof.
  intros Hs Hr Hp E. destruct (arena_reachable _ _ _ _ Hs Hr) as (cs & fl & I).
  destruct (free_blocks _ _ _ _ _ _ _ _ _ _ I Hp E) as (Hn & cs1 & cs2 & fl' & l & I' & Hl).
  split; [done|]. intros want Hw. eapply head_fits; [apply (ab_lay _ _ _ _ _ _ I')|done..].
Qed.

Lemma no_lives_one cs o :
  lives o cs = [] -> merged cs -> cs = [] \/ exists s, cs = [(s, true)].
Proof.
  destruct cs as [|[s []] [|[s' []] cs]]; simpl; try done; [by left|by right; exists s].
Qed.

(** C29: An arena loses nothing to fragmentation for good: once every block
    has been freed, whatever the order, no byte counts as handed out and the
    whole arena is one hole again that serves any request up to its size. *)
Theorem code_arena_all_freed memory size a :
  32 <= size < 4294967296 -> rtc arena_step (code_arena_init memory size, ∅) (a, ∅) ->
  ca_live a = 0 /\ forall want, code_arena_round want <= size / 16 * 16 -> code_arena_fits a want = true.
Proof.
  intros Hs Hr. destruct (arena_reachable _ _ _ _ Hs Hr) as (cs & fl & I).
  assert (Hn : lives 0 cs = []).
  { destruct (lives 0 cs) as [|[o s] l] eqn:E; [done|]. destruct (ab_lives _ _ _ _ _ _ I o s) as [b Hb]; [rewrite E; set_solver|done]. }
  pose proof (ab_lay _ _ _ _ _ _ I) as L. pose proof (ab_size _ _ _ _ _ _ I) as Ht.
  destruct (no_lives_one _ _ Hn (ab_merged _ _ _ _ _ _ I)) as [->|[s ->]].
  { simpl in Ht. zlia. }
  split; [apply (ab_live _ _ _ _ _ _ I)|]. simpl in Ht. intros want Hw.
  destruct (lay_bin_list _ _ _ _ L s) as [l Hl].
  assert (Hin : forall o, o ∈ l <-> o = 0).
  { intros o. rewrite (al_mem _ _ _ _ L _ _ _ Hl). unfold in_bin. simpl. split.
    - intros (x & [->|Hx]%elem_of_cons & <- & _); [done|by apply not_elem_of_nil in Hx].
    - intros ->. eexists. split; [by apply elem_of_cons; left|done]. }
  destruct l as [|o l]; [destruct (not_elem_of_nil 0); by apply Hin|].
  assert (o = 0) as -> by (apply Hin; set_solver).
  eapply (head_fits a [] s [] fl l); [done|exact Hl|lia].
Qed.

(** ** A run

    Two blocks of an arena of 4096 bytes, a store into the first, and its end. *)
Definition run0 : code_arena := code_arena_init ∅ 4096.
Definition run1 : code_arena := snd (code_arena_alloc run0 100).
Definition run2 : code_arena := store_word run1 20 7.
Definition run3 : code_arena := snd (code_arena_alloc run2 200).
Definition run4 : code_arena := snd (code_arena_free run3 16).
Definition run5 : code_arena := snd (code_arena_free run4 144).

Definition block_a : block := mk_block 100 (<[4 := 7]> ∅).
Definition block_b : block := mk_block 200 ∅.

Lemma run3_reachable : rtc arena_step (code_arena_init ∅ 4096, ∅) (run3, <[144 := block_b]> {[16 := block_a]}).
Proof.
  change (code_arena_init ∅ 4096) with run0. apply rtc_l with (run1, <[16 := mk_block 100 ∅]> ∅).
  { apply (step_alloc run0 ∅ 100 16 run1); [split; discriminate|vm_compute; reflexivity]. }
  apply rtc_l with (run2, <[16 := block_a]> (<[16 := mk_block 100 ∅]> ∅)).
  { apply (step_store run1 _ 16 (mk_block 100 ∅) 4 7); [reflexivity|discriminate..|reflexivity]. }
  apply rtc_once. rewrite insert_insert_eq, insert_empty. apply (step_alloc run2 {[16 := block_a]} 200 144 run3); [split; discriminate|vm_compute; reflexivity].
Qed.

Lemma run5_reachable : rtc arena_step (code_arena_init ∅ 4096, ∅) (run5, ∅).
Proof.
  replace (∅ : gmap Z block) with (delete 144 (delete 16 (<[144 := block_b]> {[16 := block_a]}) : gmap Z block)) at 2
    by (vm_compute; reflexivity).
  eapply rtc_r; [eapply rtc_r; [apply run3_reachable|]|].
  - apply (step_free run3 _ 16 128 run4); [eexists; reflexivity|vm_compute; reflexivity].
  - apply (step_free run4 _ 144 4096 run5); [eexists; reflexivity|vm_compute; reflexivity].
Qed.

Lemma code_arena_blocks_witness : word run3 20 = 7 /\ word run3 4096 = 0.
Proof.
  destruct (code_arena_blocks ∅ 4096 run3 (<[144 := block_b]> {[16 := block_a]}) ltac:(lia) run3_reachable) as (H1 & _ & _ & H4).
  split; [|apply H4; lia]. exact (proj2 (proj2 (proj2 (H1 16 block_a eq_refl))) 4 7 eq_refl).
Defined.

Lemma code_arena_free_reusable_witness : code_arena_fits run4 112 = true.
Proof.
  apply (code_arena_free_reusable ∅ 4096 run3 (<[144 := block_b]> {[16 := block_a]}) 16 block_a 128 run4 ltac:(lia) run3_reachable eq_refl).
  - vm_compute. reflexivity.
  - vm_compute. discriminate.
Defined.

Lemma code_arena_all_freed_witness : ca_live run5 = 0 /\ code_arena_fits run5 4080 = true.
Proof.
  destruct (code_arena_all_freed ∅ 4096 run5 ltac:(lia) run5_reachable) as [H1 H2].
  split; [exact H1|]. apply H2. vm_compute. discriminate.
Defined.

(** ** Freeing twice *)

(** A chunk that was merged into the one before it is not left alone when
    it is freed again, as its own header still says it is not free: with three
    blocks handed out, freeing the first, the second and the second again
    answers that 576 bytes are free there, and the next allocation gets memory
    that runs into the third block, which is still handed out. *)
Example code_arena_double_free :
  let '(p1, a1) := code_arena_alloc (code_arena_init ∅ 4096) 100 in
  let '(p2, a2) := code_arena_alloc a1 200 in
  let '(p3, a3) := code_arena_alloc a2 300 in
  let '(_, a4) := code_arena_free a3 p1 in
  let '(n, a5) := code_arena_free a4 p2 in
  let '(again, a6) := code_arena_free a5 p2 in
  let '(p, _) := code_arena_alloc a6 400 in
  n = 352 /\ again = 576 /\ p <> 0 /\ p < p3 < p + 400.
Proof. vm_compute. repeat split; discriminate. Qed.
