(* ===== verification/CodeQuarantine.v ===== *)
(** * Freed chunks that wait (horizon-wine/source/box64_code_arena.h)

    The ring of freed chunks that are not handed out again yet, and what it is
    for: entries leave in the order they came, which is the order of their
    stamps. *)
From stdpp Require Import sorting.
From S2P Require Import Prelude.
Local Open Scope Z_scope.

Record code_quarantine_entry := mk_quarantine_entry { qe_arena : Z; qe_payload : Z; qe_stamp : Z }.

Record code_quarantine := mk_quarantine {
  qu_entries : list code_quarantine_entry;
  qu_head : Z; qu_count : Z; qu_cap : Z
}.

Definition entry_zero : code_quarantine_entry := mk_quarantine_entry 0 0 0.

Definition entry_at (entries : list code_quarantine_entry) (i : Z) : code_quarantine_entry :=
  default entry_zero (entries !! Z.to_nat i).

(** The grown ring: the old entries in order from its start, then memory
    [malloc] left as it was. *)
Definition quarantine_grow (q : code_quarantine) (cap : Z) : code_quarantine :=
  let moved := map (fun i => entry_at (qu_entries q) (u32 (qu_head q + i) `mod` qu_cap q)) (seqZ 0 (qu_count q)) in
  mk_quarantine (moved ++ replicate (Z.to_nat (cap - qu_count q)) entry_zero) 0 (qu_count q) cap.

Definition quarantine_cap (q : code_quarantine) : Z :=
  if nonzero (qu_cap q) then u32 (qu_cap q * 2) else 256.

(** [memory] says whether [malloc] gives the grown ring. *)
Definition code_quarantine_push (memory : bool) (q : code_quarantine) (arena payload stamp : Z) : Z * code_quarantine :=
  let put q :=
    (1, mk_quarantine
          (<[Z.to_nat (u32 (qu_head q + qu_count q) `mod` qu_cap q) := mk_quarantine_entry arena payload stamp]> (qu_entries q))
          (qu_head q) (u32 (qu_count q + 1)) (qu_cap q)) in
  if qu_count q =? qu_cap q then
    if memory then put (quarantine_grow q (quarantine_cap q)) else (0, q)
  else put q.

Definition code_quarantine_oldest (q : code_quarantine) : option code_quarantine_entry :=
  if nonzero (qu_count q) then Some (entry_at (qu_entries q) (qu_head q)) else None.

Definition code_quarantine_drop_oldest (q : code_quarantine) : code_quarantine :=
  let head := u32 (qu_head q + 1) `mod` qu_cap q in
  let count := u32 (qu_count q - 1) in
  mk_quarantine (qu_entries q) (if nonzero count then head else 0) count (qu_cap q).

(** ** The entries in order *)

(** The entry [i] places after the oldest. *)
Definition nth_entry (q : code_quarantine) (i : Z) : code_quarantine_entry :=
  entry_at (qu_entries q) ((qu_head q + i) `mod` qu_cap q).

Record quarantine_rep (q : code_quarantine) (l : list code_quarantine_entry) : Prop := {
  qr_len : Z.of_nat (length (qu_entries q)) = qu_cap q;
  qr_count : qu_count q = Z.of_nat (length l);
  qr_cap : 0 <= qu_count q <= qu_cap q /\ qu_cap q <= 2147483648;
  qr_head : 0 <= qu_head q /\ (qu_head q < qu_cap q \/ qu_cap q = 0);
  qr_list i e : l !! i = Some e -> nth_entry q (Z.of_nat i) = e
}.

Definition quarantine_empty : code_quarantine := mk_quarantine [] 0 0 0.

Lemma quarantine_empty_rep : quarantine_rep quarantine_empty [].
Proof. split; simpl; try lia; done. Qed.

Lemma entry_at_insert entries i j e :
  0 <= i < Z.of_nat (length entries) -> 0 <= j ->
  entry_at (<[Z.to_nat i := e]> entries) j = if decide (j = i) then e else entry_at entries j.
Proof.
  intros Hi Hj. unfold entry_at. destruct (decide (j = i)) as [->|Hne].
  - rewrite list_lookup_insert_eq by lia. done.
  - rewrite list_lookup_insert_ne by lia. done.
Qed.

Lemma ring_same cap head i j :
  0 < cap -> 0 <= i < cap -> 0 <= j < cap -> (head + i) `mod` cap = (head + j) `mod` cap -> i = j.
Proof.
  intros Hc Hi Hj E. assert (H : (head + i - (head + j)) `mod` cap = 0) by (rewrite Zminus_mod, E, Z.sub_diag; apply Z.mod_0_l; lia).
  replace (head + i - (head + j)) with (i - j) in H by ring. apply Z.mod_divide in H as [k Hk]; [|lia].
  assert (k < 1) by nia. assert (-1 < k) by nia. assert (k = 0) as -> by lia. lia.
Qed.

Section rep.
Context (q : code_quarantine) (l : list code_quarantine_entry) (R : quarantine_rep q l).

Lemma quarantine_oldest_head : code_quarantine_oldest q = head l.
Proof using R.
  destruct R. unfold code_quarantine_oldest, nonzero. destruct l as [|e l']; simpl in *; [by rewrite qr_count0|].
  rewrite (proj2 (Z.eqb_neq _ _)) by lia. simpl. f_equal. rewrite <- (qr_list0 O e eq_refl). unfold nth_entry.
  rewrite Z.add_0_r, Z.mod_small by lia. done.
Qed.

(** Room for one more entry: the new one is the last. *)
Lemma quarantine_put_rep e :
  qu_count q < qu_cap q ->
  quarantine_rep (mk_quarantine (<[Z.to_nat (u32 (qu_head q + qu_count q) `mod` qu_cap q) := e]> (qu_entries q))
                    (qu_head q) (u32 (qu_count q + 1)) (qu_cap q)) (l ++ [e]).
Proof using R.
  intros Hlt. destruct R. rewrite !u32_small by zlia. split; simpl.
  - by rewrite length_insert.
  - rewrite length_app. simpl. lia.
  - lia.
  - lia.
  - intros i e' Hi. unfold nth_entry. simpl.
    assert (Hil : Z.of_nat i <= qu_count q) by (apply lookup_lt_Some in Hi; rewrite length_app in Hi; simpl in Hi; lia).
    pose proof (Z.mod_pos_bound (qu_head q + qu_count q) (qu_cap q) ltac:(lia)).
    pose proof (Z.mod_pos_bound (qu_head q + Z.of_nat i) (qu_cap q) ltac:(lia)).
    rewrite entry_at_insert by lia.
    destruct (decide _) as [E|Hne].
    + apply ring_same in E; [|lia..]. rewrite lookup_app_r in Hi by lia.
      replace (i - length l)%nat with O in Hi by lia. by injection Hi as ->.
    + destruct (decide (Z.of_nat i = qu_count q)) as [E|]; [by rewrite E in Hne|].
      rewrite lookup_app_l in Hi by lia. by apply qr_list0.
Qed.

(** The grown ring has the same entries. *)
Lemma quarantine_grow_rep cap : qu_count q < cap <= 2147483648 -> quarantine_rep (quarantine_grow q cap) l.
Proof using R.
  intros Hc. destruct R. unfold quarantine_grow. split; simpl.
  - rewrite length_app, length_replicate, length_map, length_seqZ. lia.
  - done.
  - lia.
  - lia.
  - intros i e Hi. pose proof (lookup_lt_Some _ _ _ Hi). unfold nth_entry, entry_at. simpl. rewrite Z.mod_small by lia.
    rewrite ?Z.add_0_l, ?Nat2Z.id, lookup_app_l by (rewrite length_map, length_seqZ; lia).
    change (map ?f) with (fmap (M := list) f). rewrite list_lookup_fmap, lookup_seqZ_lt by lia. simpl.
    rewrite u32_small by zlia. by apply qr_list0.
Qed.

Lemma quarantine_drop_rep e l' : l = e :: l' -> quarantine_rep (code_quarantine_drop_oldest q) l'.
Proof using R.
  intros ->. destruct R. simpl in *. unfold code_quarantine_drop_oldest. rewrite !u32_small by zlia.
  unfold nonzero. destruct (Z.eqb_spec (qu_count q - 1) 0) as [E|E]; simpl.
  - split; simpl; try lia. intros i e' Hi. apply lookup_lt_Some in Hi. lia.
  - split; simpl; try lia.
    + pose proof (Z.mod_pos_bound (qu_head q + 1) (qu_cap q)). lia.
    + intros i e' Hi. rewrite <- (qr_list0 (S i) e' Hi). unfold nth_entry. simpl. f_equal.
      rewrite Zplus_mod_idemp_l. f_equal. lia.
Qed.
End rep.

Lemma quarantine_push_rep memory q l arena payload stamp r q' :
  quarantine_rep q l -> (memory = true -> qu_cap q <= 1073741824) ->
  code_quarantine_push memory q arena payload stamp = (r, q') ->
  r = 1 /\ quarantine_rep q' (l ++ [mk_quarantine_entry arena payload stamp]) \/ r = 0 /\ memory = false /\ q' = q.
Proof.
  intros R Hm. unfold code_quarantine_push. pose proof (qr_cap _ _ R). destruct (Z.eqb_spec (qu_count q) (qu_cap q)) as [E|E].
  - destruct memory; intros [= <- <-]; [left|by right]. specialize (Hm eq_refl).
    assert (Hq : qu_count q < quarantine_cap q <= 2147483648).
    { unfold quarantine_cap, nonzero. destruct (Z.eqb_spec (qu_cap q) 0); simpl; [lia|]. rewrite u32_small by zlia. lia. }
    split; [done|]. apply (quarantine_put_rep (quarantine_grow q (quarantine_cap q))); [by apply quarantine_grow_rep|simpl; lia].
  - intros [= <- <-]. left. split; [done|]. apply quarantine_put_rep; [done|lia].
Qed.

(** ** Calls in any order

    The clock of the callers does not go back, and a ring of more than 2^31
    entries is not allocated. *)
Inductive quarantine_step :
  code_quarantine * list code_quarantine_entry * Z -> code_quarantine * list code_quarantine_entry * Z -> Prop :=
| step_push memory q l now arena payload stamp r q' :
    now <= stamp -> (memory = true -> qu_cap q <= 1073741824) ->
    code_quarantine_push memory q arena payload stamp = (r, q') ->
    quarantine_step (q, l, now) (q', if r =? 1 then l ++ [mk_quarantine_entry arena payload stamp] else l, stamp)
| step_drop q e l now : quarantine_step (q, e :: l, now) (code_quarantine_drop_oldest q, l, now).

Definition by_stamp (e e' : code_quarantine_entry) : Prop := qe_stamp e <= qe_stamp e'.

Definition quarantine_inv (st : code_quarantine * list code_quarantine_entry * Z) : Prop :=
  let '(q, l, now) := st in
  quarantine_rep q l /\ StronglySorted by_stamp l /\ Forall (fun e => qe_stamp e <= now) l.

Lemma quarantine_step_inv st st' : quarantine_step st st' -> quarantine_inv st -> quarantine_inv st'.
Proof.
  intros [memory q l now arena payload stamp r q' Hs Hm E|q e l now] (R & Hl & Hf); simpl.
  - assert (Hf' : Forall (fun e => qe_stamp e <= stamp) l) by (eapply Forall_impl; [done|]; simpl; lia).
    destruct (quarantine_push_rep _ _ _ _ _ _ _ _ R Hm E) as [[-> R']|(-> & _ & ->)]; [|done]. split_and!; [done| |].
    + apply StronglySorted_app. split_and!; [|done|repeat constructor]. intros x y Hx Hy%list_elem_of_singleton. subst y.
      rewrite list.Forall_forall in Hf'. apply (Hf' x Hx).
    + apply Forall_app. split; [done|]. constructor; [simpl; lia|constructor].
  - split_and!; [by eapply quarantine_drop_rep|by inversion Hl|by inversion Hf].
Qed.

(** The quarantine is a first-in first-out queue through any growth of its
    ring: after any pushes, refused ones included, and removals, the entry it
    calls oldest is the first of those pushed and not yet removed, no other was
    freed before it, and none is lost. *)
Theorem quarantine_fifo q l now :
  rtc quarantine_step (quarantine_empty, [], 0) (q, l, now) ->
  code_quarantine_oldest q = head l /\ qu_count q = Z.of_nat (length l) /\
  (forall i e, l !! i = Some e -> nth_entry q (Z.of_nat i) = e) /\
  (forall e e', code_quarantine_oldest q = Some e -> e' ∈ l -> qe_stamp e <= qe_stamp e').
Proof.
  intros Hr. assert (Hi : quarantine_inv (q, l, now)).
  { eapply (rtc_keeps _ _ _ _ quarantine_step_inv Hr). split_and!; [apply quarantine_empty_rep|constructor..]. }
  destruct Hi as (R & Hl & _). rewrite (quarantine_oldest_head _ _ R).
  split_and!; [done|apply (qr_count _ _ R)|apply (qr_list _ _ R)|].
  intros e e' He Hin. destruct l as [|x l]; [done|]. injection He as ->. inversion Hl as [|? ? _ Hx]; subst.
  apply elem_of_cons in Hin as [->|Hin]; [lia|]. rewrite list.Forall_forall in Hx. by apply Hx.
Qed.

Definition quarantine_two : code_quarantine :=
  snd (code_quarantine_push true (snd (code_quarantine_push true quarantine_empty 0 16 5)) 1 48 9).

Lemma quarantine_fifo_witness : code_quarantine_oldest quarantine_two = Some (mk_quarantine_entry 0 16 5).
Proof.
  apply (quarantine_fifo quarantine_two [mk_quarantine_entry 0 16 5; mk_quarantine_entry 1 48 9] 9).
  eapply rtc_l; [eapply (step_push true quarantine_empty [] 0 0 16 5 1); [lia|simpl; lia|vm_compute; reflexivity]|].
  eapply rtc_once. eapply (step_push true _ [_] 5 1 48 9 1); [lia|vm_compute; discriminate|vm_compute; reflexivity].
Defined.
