(* ===== verification/ReadRedirect.v ===== *)
(** * Loads served from elsewhere

    [horizon_read_redirect.h]: the fault handler emulates an AArch64 load from a
    window of addresses whose bytes are somewhere else. The second half of the
    file says what the loads of AArch64 do, as the architecture defines them, and
    proves that the emulation does just that.

    A register that is not there, or a byte outside the memory behind the window,
    is a fault, the value [None]. *)
From S2P Require Import Prelude.
Local Open Scope Z_scope.

(** ** The code *)

Record horizon_read_regs := mk_regs { rr_x : list Z; rr_sp : Z; rr_pc : Z; rr_v : list Z }.

Definition i64 (x : Z) : Z := (x + 9223372036854775808) `mod` 18446744073709551616 - 9223372036854775808.

Definition horizon_read_sext (value bits : Z) : Z := Z.shiftr (i64 (u64 (Z.shiftl value (64 - bits)))) (64 - bits).

(** The variables of the function once the instruction is decoded. *)
Record read_access := mk_access { ac_bytes : Z; ac_count : nat; ac_sign : Z; ac_imm : Z; ac_address : Z; ac_writeback : bool }.

Definition insn_t (insn : Z) : Z := Z.land insn 31.
Definition insn_n (insn : Z) : Z := Z.land (Z.shiftr insn 5) 31.
Definition insn_t2 (insn : Z) : Z := Z.land (Z.shiftr insn 10) 31.
Definition insn_simd (insn : Z) : bool := nonzero (Z.land (Z.shiftr insn 26) 1).
Definition insn_opc (insn : Z) : Z := Z.land (Z.shiftr insn 22) 3.

(** LDP and LDPSW; [None] is [return 0]. *)
Definition redirect_pair (insn base : Z) : option read_access :=
  let kind := Z.shiftr insn 30 in
  let index := Z.land (Z.shiftr insn 23) 3 in
  if (kind =? 3) || (index =? 0) || (insn_t insn =? insn_t2 insn) then None else
  let bytes := if insn_simd insn then Z.shiftl 4 kind else if kind =? 2 then 8 else 4 in
  let sign := if negb (insn_simd insn) && (kind =? 1) then 64 else 0 in
  let imm := horizon_read_sext (Z.land (Z.shiftr insn 15) 0x7f) 7 * bytes in
  let address := if index =? 1 then base else u64 (base + imm) in
  let writeback := negb (index =? 2) in
  if writeback && negb (insn_simd insn) && negb (insn_n insn =? 31) && ((insn_n insn =? insn_t insn) || (insn_n insn =? insn_t2 insn)) then None
  else Some (mk_access bytes 2 sign imm address writeback).

(** The bytes a single load reads, and how it extends them. *)
Definition single_bytes (insn : Z) : option (Z * Z) :=
  let log2 := Z.shiftr insn 30 in
  let opc := insn_opc insn in
  if insn_simd insn then
    if opc =? 1 then Some (Z.shiftl 1 log2, 0) else if (opc =? 3) && (log2 =? 0) then Some (16, 0) else None
  else
    if (opc =? 0) || ((opc =? 2) && (log2 =? 3)) || ((opc =? 3) && (2 <=? log2)) then None
    else Some (Z.shiftl 1 log2, if opc =? 2 then 64 else if opc =? 3 then 32 else 0).

(** The offset of the register form. *)
Definition register_index (insn index bytes : Z) : option Z :=
  let option := Z.land (Z.shiftr insn 13) 7 in
  let scale (index : Z) := if nonzero (Z.land insn 0x1000) then u64 (index * bytes) else index in
  if option =? 2 then Some (scale (u32 index))
  else if option =? 6 then Some (scale (u64 (horizon_read_sext index 32)))
  else if negb (option =? 3) && negb (option =? 7) then None
  else Some (scale index).

(** LDR, LDUR and their variants. *)
Definition redirect_single (regs : horizon_read_regs) (insn base : Z) : option (option read_access) :=
  match single_bytes insn with
  | None => Some None
  | Some (bytes, sign) =>
      if nonzero (Z.land insn 0x01000000) then
        Some (Some (mk_access bytes 1 sign 0 (u64 (base + Z.land (Z.shiftr insn 10) 0xfff * bytes)) false))
      else if negb (nonzero (Z.land insn 0x00200000)) then
        let mode := Z.land (Z.shiftr insn 10) 3 in
        if insn_simd insn && (mode =? 2) then Some None else
        let imm := horizon_read_sext (Z.land (Z.shiftr insn 12) 0x1ff) 9 in
        let writeback := (mode =? 1) || (mode =? 3) in
        if writeback && negb (insn_simd insn) && negb (insn_n insn =? 31) && (insn_n insn =? insn_t insn) then Some None
        else Some (Some (mk_access bytes 1 sign imm (if mode =? 1 then base else u64 (base + imm)) writeback))
      else if Z.land (Z.shiftr insn 10) 3 =? 2 then
        let m := Z.land (Z.shiftr insn 16) 31 in
        index ← (if m =? 31 then Some 0 else rr_x regs !! Z.to_nat m);
        Some (match register_index insn index bytes with
              | None => None
              | Some index => Some (mk_access bytes 1 sign 0 (u64 (base + index)) false)
              end)
      else Some None
  end.

Definition set_x (regs : horizon_read_regs) (i value : Z) : option horizon_read_regs :=
  _ ← rr_x regs !! Z.to_nat i;
  Some (mk_regs (<[Z.to_nat i := value]> (rr_x regs)) (rr_sp regs) (rr_pc regs) (rr_v regs)).

Definition set_v (regs : horizon_read_regs) (i value : Z) : option horizon_read_regs :=
  _ ← rr_v regs !! Z.to_nat i;
  Some (mk_regs (rr_x regs) (rr_sp regs) (rr_pc regs) (<[Z.to_nat i := value]> (rr_v regs))).

(** [memcpy] of bytes into an integer, the lowest byte first. *)
Fixpoint copy_value (backing : list Z) (offset : nat) (bytes : nat) : option Z :=
  match bytes with
  | O => Some 0
  | S bytes => b ← backing !! offset; rest ← copy_value backing (S offset) bytes; Some (b + 256 * rest)
  end.

(** One turn of the loop. *)
Definition load_target (regs : horizon_read_regs) (simd : bool) (bytes sign : Z) (backing : list Z) (offset target : Z) : option horizon_read_regs :=
  value ← copy_value backing (Z.to_nat offset) (Z.to_nat bytes);
  if simd then set_v regs target value else
  let value := if nonzero sign then u64 (horizon_read_sext value (bytes * 8)) else value in
  let value := if sign =? 32 then u32 value else value in
  if target =? 31 then Some regs else set_x regs target value.

Fixpoint load_targets (regs : horizon_read_regs) (simd : bool) (bytes sign : Z) (backing : list Z) (offset : Z) (targets : list Z) : option horizon_read_regs :=
  match targets with
  | [] => Some regs
  | target :: targets =>
      regs ← load_target regs simd bytes sign backing offset target;
      load_targets regs simd bytes sign backing (offset + bytes) targets
  end.

Definition write_base (regs : horizon_read_regs) (n value : Z) : option horizon_read_regs :=
  if n =? 31 then Some (mk_regs (rr_x regs) value (rr_pc regs) (rr_v regs)) else set_x regs n value.

Definition next_pc (regs : horizon_read_regs) : horizon_read_regs := mk_regs (rr_x regs) (rr_sp regs) (u64 (rr_pc regs + 4)) (rr_v regs).

(** The decoded load: what is read has to be inside the window. *)
Definition redirect_access (regs : horizon_read_regs) (insn base : Z) (a : read_access) (window : Z) (backing : list Z) (size : Z) : option (bool * horizon_read_regs) :=
  let offset := u64 (ac_address a - window) in
  if (size <=? offset) || (size - offset <? ac_bytes a * Z.of_nat (ac_count a)) then Some (false, regs) else
  new ← load_targets regs (insn_simd insn) (ac_bytes a) (ac_sign a) backing offset (take (ac_count a) [insn_t insn; insn_t2 insn]);
  new ← (if ac_writeback a then write_base new (insn_n insn) (u64 (base + ac_imm a)) else Some new);
  Some (true, next_pc new).

Definition horizon_redirect_read (regs : horizon_read_regs) (insn window : Z) (backing : list Z) (size : Z) : option (bool * horizon_read_regs) :=
  base ← (if insn_n insn =? 31 then Some (rr_sp regs) else rr_x regs !! Z.to_nat (insn_n insn));
  access ← (if Z.land insn 0x3a400000 =? 0x28400000 then Some (redirect_pair insn base)
            else if Z.land insn 0x3a000000 =? 0x38000000 then redirect_single regs insn base
            else Some None);
  match access with
  | None => Some (false, regs)
  | Some a => redirect_access regs insn base a window backing size
  end.

(** ** Loads of AArch64

    The instructions and what they do, after the Arm architecture. Registers of a
    program are the registers above; memory is a byte for every address. *)

Inductive load_type :=
  | Unsigned (log2 : Z)      (** LDRB, LDRH, LDR w, LDR x *)
  | Signed64 (log2 : Z)      (** LDRSB x, LDRSH x, LDRSW *)
  | Signed32 (log2 : Z)      (** LDRSB w, LDRSH w *)
  | Vector (log2 : Z).       (** LDR b, h, s, d, q *)

Inductive extend := UXTW | LSL | SXTW | SXTX.

Inductive addressing :=
  | Scaled (imm12 : Z)
  | Unscaled (imm9 : Z)
  | Post_indexed (imm9 : Z)
  | Unprivileged (imm9 : Z)
  | Pre_indexed (imm9 : Z)
  | Register_offset (m : Z) (e : extend) (shifted : bool).

Inductive pair_type := Pair_w | Pair_sw | Pair_x | Pair_s | Pair_d | Pair_q.
Inductive pair_index := Pair_post | Pair_offset | Pair_pre.

Inductive load :=
  | Load (ty : load_type) (mode : addressing) (n t : Z)
  | Load_pair (ty : pair_type) (index : pair_index) (imm7 : Z) (n t t2 : Z).

(** *** What they do *)

Definition type_bytes (ty : load_type) : Z := match ty with Unsigned k | Signed64 k | Signed32 k | Vector k => 2 ^ k end.
Definition pair_bytes (ty : pair_type) : Z := match ty with Pair_w | Pair_sw | Pair_s => 4 | Pair_x | Pair_d => 8 | Pair_q => 16 end.

Definition reg_x (regs : horizon_read_regs) (i : Z) : Z := nth (Z.to_nat i) (rr_x regs) 0.
Definition reg_base (regs : horizon_read_regs) (n : Z) : Z := if n =? 31 then rr_sp regs else reg_x regs n.
Definition reg_index (regs : horizon_read_regs) (m : Z) : Z := if m =? 31 then 0 else reg_x regs m.

(** A value of [bits] bits as one of [to] bits. *)
Definition sign_extend (bits to v : Z) : Z := if v <? 2 ^ (bits - 1) then v else v + 2 ^ to - 2 ^ bits.

Definition extended (e : extend) (v : Z) : Z :=
  match e with UXTW => v `mod` 2 ^ 32 | LSL | SXTX => v | SXTW => sign_extend 32 64 (v `mod` 2 ^ 32) end.

(** The address a load reads and, when it changes its base, what that becomes. *)
Definition load_address (regs : horizon_read_regs) (i : load) : Z * option Z :=
  match i with
  | Load ty mode n _ =>
      let base := reg_base regs n in
      match mode with
      | Scaled imm => ((base + imm * type_bytes ty) `mod` 2 ^ 64, None)
      | Unscaled imm | Unprivileged imm => ((base + imm) `mod` 2 ^ 64, None)
      | Post_indexed imm => (base, Some ((base + imm) `mod` 2 ^ 64))
      | Pre_indexed imm => ((base + imm) `mod` 2 ^ 64, Some ((base + imm) `mod` 2 ^ 64))
      | Register_offset m e shifted => ((base + extended e (reg_index regs m) * (if shifted then type_bytes ty else 1)) `mod` 2 ^ 64, None)
      end
  | Load_pair ty index imm n _ _ =>
      let base := reg_base regs n in
      let moved := (base + imm * pair_bytes ty) `mod` 2 ^ 64 in
      match index with Pair_offset => (moved, None) | Pair_post => (base, Some moved) | Pair_pre => (moved, Some moved) end
  end.

Definition load_size (i : load) : Z := match i with Load ty _ _ _ => type_bytes ty | Load_pair ty _ _ _ _ _ => 2 * pair_bytes ty end.

Fixpoint read_memory (mem : Z -> Z) (address : Z) (bytes : nat) : Z :=
  match bytes with O => 0 | S bytes => mem address + 256 * read_memory mem (address + 1) bytes end.

Definition put_x (regs : horizon_read_regs) (i v : Z) : horizon_read_regs := if i =? 31 then regs else mk_regs (<[Z.to_nat i := v]> (rr_x regs)) (rr_sp regs) (rr_pc regs) (rr_v regs).
Definition put_v (regs : horizon_read_regs) (i v : Z) : horizon_read_regs := mk_regs (rr_x regs) (rr_sp regs) (rr_pc regs) (<[Z.to_nat i := v]> (rr_v regs)).
Definition put_base (regs : horizon_read_regs) (n v : Z) : horizon_read_regs := if n =? 31 then mk_regs (rr_x regs) v (rr_pc regs) (rr_v regs) else put_x regs n v.

Definition load_into (ty : load_type) (regs : horizon_read_regs) (t v : Z) : horizon_read_regs :=
  match ty with
  | Unsigned _ => put_x regs t v
  | Signed64 k => put_x regs t (sign_extend (8 * 2 ^ k) 64 v)
  | Signed32 k => put_x regs t (sign_extend (8 * 2 ^ k) 32 v)
  | Vector _ => put_v regs t v
  end.

Definition pair_element (ty : pair_type) : load_type :=
  match ty with Pair_w => Unsigned 2 | Pair_sw => Signed64 2 | Pair_x => Unsigned 3 | Pair_s => Vector 2 | Pair_d => Vector 3 | Pair_q => Vector 4 end.

Definition execute (mem : Z -> Z) (regs : horizon_read_regs) (i : load) : horizon_read_regs :=
  let '(address, moved) := load_address regs i in
  let loaded := match i with
                | Load ty _ _ t => load_into ty regs t (read_memory mem address (Z.to_nat (type_bytes ty)))
                | Load_pair ty _ _ _ t t2 =>
                    let bytes := Z.to_nat (pair_bytes ty) in
                    load_into (pair_element ty) (load_into (pair_element ty) regs t (read_memory mem address bytes)) t2 (read_memory mem (address + pair_bytes ty) bytes)
                end in
  let n := match i with Load _ _ n _ | Load_pair _ _ _ n _ _ => n end in
  next_pc (match moved with Some v => put_base loaded n v | None => loaded end).

(** *** How they are encoded *)

Definition type_code (ty : load_type) : Z * Z * Z :=  (* size, V, opc *)
  match ty with
  | Unsigned k => (k, 0, 1)
  | Signed64 k => (k, 0, 2)
  | Signed32 k => (k, 0, 3)
  | Vector k => if k =? 4 then (0, 1, 3) else (k, 1, 1)
  end.

Definition extend_code (e : extend) : Z := match e with UXTW => 2 | LSL => 3 | SXTW => 6 | SXTX => 7 end.

Definition imm9_code (imm mode : Z) : Z := mode + 4 * (imm `mod` 512).

(** Bit 24, and the 12 bits from bit 10. *)
Definition mode_code (mode : addressing) : Z * Z :=
  match mode with
  | Scaled imm => (1, imm)
  | Unscaled imm => (0, imm9_code imm 0)
  | Post_indexed imm => (0, imm9_code imm 1)
  | Unprivileged imm => (0, imm9_code imm 2)
  | Pre_indexed imm => (0, imm9_code imm 3)
  | Register_offset m e shifted => (0, 2 + 4 * Z.b2z shifted + 8 * extend_code e + 64 * m + 2048)
  end.

Definition pair_code (ty : pair_type) : Z * Z :=  (* opc, V *)
  match ty with Pair_w => (0, 0) | Pair_sw => (1, 0) | Pair_x => (2, 0) | Pair_s => (0, 1) | Pair_d => (1, 1) | Pair_q => (2, 1) end.

Definition index_code (i : pair_index) : Z := match i with Pair_post => 1 | Pair_offset => 2 | Pair_pre => 3 end.

Definition encode (i : load) : Z :=
  match i with
  | Load ty mode n t =>
      let '(size, v, opc) := type_code ty in
      let '(b24, mid) := mode_code mode in
      t + 2 ^ 5 * n + 2 ^ 10 * mid + 2 ^ 22 * opc + 2 ^ 24 * b24 + 2 ^ 26 * v + 2 ^ 27 * 7 + 2 ^ 30 * size
  | Load_pair ty index imm n t t2 =>
      let '(opc, v) := pair_code ty in
      t + 2 ^ 5 * n + 2 ^ 10 * t2 + 2 ^ 15 * (imm `mod` 128) + 2 ^ 22 + 2 ^ 23 * index_code index + 2 ^ 26 * v + 2 ^ 27 * 5 + 2 ^ 30 * opc
  end.

(** *** The instructions there are

    Fields in range, and no load whose effect the architecture leaves open: one
    that changes its base and loads it, or a pair into one register. *)

Definition in_range (lo x hi : Z) : bool := (lo <=? x) && (x <? hi).

Definition type_valid (ty : load_type) : bool :=
  match ty with Unsigned k => in_range 0 k 4 | Signed64 k => in_range 0 k 3 | Signed32 k => in_range 0 k 2 | Vector k => in_range 0 k 5 end.

Definition is_vector (ty : load_type) : bool := match ty with Vector _ => true | _ => false end.

Definition mode_valid (ty : load_type) (mode : addressing) (n t : Z) : bool :=
  match mode with
  | Scaled imm => in_range 0 imm 4096
  | Unscaled imm => in_range (-256) imm 256
  | Unprivileged imm => in_range (-256) imm 256 && negb (is_vector ty)
  | Post_indexed imm | Pre_indexed imm => in_range (-256) imm 256 && (is_vector ty || (n =? 31) || negb (n =? t))
  | Register_offset m _ _ => in_range 0 m 32
  end.

Definition load_valid (i : load) : bool :=
  match i with
  | Load ty mode n t => type_valid ty && in_range 0 n 32 && in_range 0 t 32 && mode_valid ty mode n t
  | Load_pair ty index imm n t t2 =>
      in_range 0 n 32 && in_range 0 t 32 && in_range 0 t2 32 && in_range (-64) imm 64 && negb (t =? t2) &&
      (match index with Pair_offset => true | _ => is_vector (pair_element ty) || (n =? 31) || (negb (n =? t) && negb (n =? t2)) end)
  end.

Definition is_word (x : Z) : bool := in_range 0 x 18446744073709551616.

Definition regs_valid (regs : horizon_read_regs) : bool :=
  (length (rr_x regs) =? 31)%nat && (length (rr_v regs) =? 32)%nat && forallb is_word (rr_x regs) && is_word (rr_sp regs).

Definition is_byte (x : Z) : bool := in_range 0 x 256.

(** The window of [backing] at [window] does not reach past the end of memory. *)
Definition window_valid (window : Z) (backing : list Z) : bool :=
  (0 <=? window) && (window + Z.of_nat (length backing) <=? 18446744073709551616) && forallb is_byte backing.

Definition window_memory (window : Z) (backing : list Z) (address : Z) : Z := nth (Z.to_nat (address - window)) backing 0.

Definition reads_window (regs : horizon_read_regs) (i : load) (window : Z) (backing : list Z) : bool :=
  let address := fst (load_address regs i) in
  (window <=? address) && (address + load_size i <=? window + Z.of_nat (length backing)).

(** LDR x1, [x0, #8] with x0 at the window. *)
Definition sample_regs : horizon_read_regs := mk_regs (0x7ffe0000 :: replicate 30 0) 0 0x1000 (replicate 32 0).
Definition sample_backing : list Z := [1; 2; 3; 4; 5; 6; 7; 8; 0xf0; 0xff; 0; 0; 0; 0; 0; 0x80].
Definition sample_load : load := Load (Unsigned 3) (Scaled 1) 0 1.

(** ** Fields of an instruction *)

Lemma field_eq x lo w : 0 <= lo -> 0 <= w -> Z.land (Z.shiftr x lo) (Z.ones w) = (x / 2 ^ lo) `mod` 2 ^ w.
Proof. intros. by rewrite Z.land_ones, Z.shiftr_div_pow2. Qed.

Lemma land_high x m k : 0 <= k -> Z.land x (m * 2 ^ k) = Z.land (x / 2 ^ k) m * 2 ^ k.
Proof. intros. rewrite <- !Z.shiftl_mul_pow2, <- Z.shiftr_div_pow2 by done. rewrite Z.shiftl_land. apply Z.bits_inj'. intros i Hi. rewrite !Z.land_spec, Z.shiftl_spec by done. destruct (Z.ltb_spec i k) as [Hik|Hik]; [rewrite (Z.testbit_neg_r m) by lia; by rewrite !andb_false_r|]. rewrite Z.shiftl_spec, Z.shiftr_spec by lia. by replace (i - k + k) with i by lia. Qed.

Lemma land_low x m w : 0 <= w -> 0 <= m < 2 ^ w -> Z.land x m = Z.land (x `mod` 2 ^ w) m.
Proof.
  intros Hw Hm. rewrite <- Z.land_ones, <- Z.land_assoc by done. f_equal. rewrite Z.land_comm, Z.land_ones by done. symmetry. by apply Z.mod_small.
Qed.

Lemma bit_test x k : 0 <= k -> nonzero (Z.land x (2 ^ k)) = ((x / 2 ^ k) `mod` 2 =? 1).
Proof.
  intros Hk. replace (2 ^ k) with (1 * 2 ^ k) at 1 by lia. rewrite land_high by done. change 1 with (Z.ones 1) at 1. rewrite Z.land_ones by done. change (2 ^ 1) with 2. pose proof (Z.mod_pos_bound (x / 2 ^ k) 2).
  assert (0 < 2 ^ k) by (by apply Z.pow_pos_nonneg). unfold nonzero. assert ((x / 2 ^ k) `mod` 2 = 0 \/ (x / 2 ^ k) `mod` 2 = 1) as [-> | ->] by lia; [done|]. rewrite Z.mul_1_l. destruct (Z.eqb_spec (2 ^ k) 0); [lia|done].
Qed.

(** Arithmetic on the fields of a number that is written as their sum. *)
Ltac fields := change (2 ^ 5) with 32 in *; change (2 ^ 10) with 1024 in *; change (2 ^ 15) with 32768 in *; change (2 ^ 22) with 4194304 in *; change (2 ^ 23) with 8388608 in *; change (2 ^ 24) with 16777216 in *; change (2 ^ 26) with 67108864 in *; change (2 ^ 27) with 134217728 in *; change (2 ^ 30) with 1073741824 in *; Z.to_euclidean_division_equations; lia.

Record single_word (t n mid opc b24 v size insn : Z) : Prop := {
  sw_t : 0 <= t < 32; sw_n : 0 <= n < 32; sw_mid : 0 <= mid < 4096; sw_opc : 0 <= opc < 4; sw_b24 : 0 <= b24 < 2; sw_v : 0 <= v < 2; sw_size : 0 <= size < 4;
  sw_is : insn = t + 2 ^ 5 * n + 2 ^ 10 * mid + 2 ^ 22 * opc + 2 ^ 24 * b24 + 2 ^ 26 * v + 2 ^ 27 * 7 + 2 ^ 30 * size;
}.

Section single.
  Context (t n mid opc b24 v size insn : Z) (W : single_word t n mid opc b24 v size insn).

Lemma single_t : insn_t insn = t.
Proof. destruct W. unfold insn_t. change 31 with (Z.ones 5). rewrite Z.land_ones by lia. fields. Qed.

Lemma single_n : insn_n insn = n.
Proof. destruct W. unfold insn_n. change 31 with (Z.ones 5). rewrite field_eq by lia. fields. Qed.

Lemma single_simd : insn_simd insn = (v =? 1).
Proof. destruct W. unfold insn_simd, nonzero. change 1 with (Z.ones 1) at 1. rewrite field_eq by lia. change (2 ^ 1) with 2. assert ((insn / 2 ^ 26) `mod` 2 = v) as -> by fields. by assert (v = 0 \/ v = 1) as [-> | ->] by lia. Qed.

Lemma single_opc : insn_opc insn = opc.
Proof. destruct W. unfold insn_opc. change 3 with (Z.ones 2). rewrite field_eq by lia. change (2 ^ 2) with 4. fields. Qed.

Lemma single_size : Z.shiftr insn 30 = size.
Proof. destruct W. rewrite Z.shiftr_div_pow2 by lia. fields. Qed.

Lemma single_mid : (insn / 2 ^ 10) `mod` 4096 = mid.
Proof. destruct W. fields. Qed.

Lemma single_b24 : nonzero (Z.land insn 0x01000000) = (b24 =? 1).
Proof. destruct W. change 0x01000000 with (2 ^ 24). rewrite bit_test by lia. f_equal. fields. Qed.

Lemma single_not_pair : (Z.land insn 0x3a400000 =? 0x28400000) = false.
Proof.
  destruct W. change 0x3a400000 with (0xe9 * 2 ^ 22). rewrite land_high, (land_low _ 0xe9 8) by lia. change (2 ^ 8) with 256. assert ((insn / 2 ^ 22) `mod` 256 = opc + 4 * b24 + 16 * v + 224) as -> by fields.
  assert (opc = 0 \/ opc = 1 \/ opc = 2 \/ opc = 3) as [-> | [-> | [-> | ->]]] by lia; assert (b24 = 0 \/ b24 = 1) as [-> | ->] by lia; by assert (v = 0 \/ v = 1) as [-> | ->] by lia.
Qed.

Lemma single_is : (Z.land insn 0x3a000000 =? 0x38000000) = true.
Proof.
  destruct W. change 0x3a000000 with (0x1d * 2 ^ 25). rewrite land_high, (land_low _ 0x1d 5) by lia. change (2 ^ 5) with 32. assert ((insn / 2 ^ 25) `mod` 32 = 2 * v + 28) as -> by (change (2 ^ 25) with 33554432; fields).
  by assert (v = 0 \/ v = 1) as [-> | ->] by lia.
Qed.
End single.

(** A field of the 12 bits from bit 10. *)
Lemma mid_field insn mid lo w : (insn / 2 ^ 10) `mod` 4096 = mid -> 0 <= lo -> 0 < w -> lo + w <= 12 -> (insn / 2 ^ (10 + lo)) `mod` 2 ^ w = (mid / 2 ^ lo) `mod` 2 ^ w.
Proof.
  intros <- Hlo Hw Hle. rewrite Z.pow_add_r, <- Z.div_div by (try lia; apply Z.pow_pos_nonneg; lia). set (y := insn / 2 ^ 10). change 4096 with (2 ^ 12).
  apply Z.bits_inj'. intros i Hi. rewrite !Z.testbit_mod_pow2 by lia. destruct (Z.ltb_spec i w); [|done]. cbn [andb]. rewrite <- !Z.shiftr_div_pow2, !Z.shiftr_spec, Z.testbit_mod_pow2 by lia. by rewrite (proj2 (Z.ltb_lt (i + lo) 12)) by lia.
Qed.

Record pair_word (t n t2 imm idx v opc insn : Z) : Prop := {
  pw_t : 0 <= t < 32; pw_n : 0 <= n < 32; pw_t2 : 0 <= t2 < 32; pw_imm : 0 <= imm < 128; pw_idx : 1 <= idx < 4; pw_v : 0 <= v < 2; pw_opc : 0 <= opc < 3;
  pw_is : insn = t + 2 ^ 5 * n + 2 ^ 10 * t2 + 2 ^ 15 * imm + 2 ^ 22 + 2 ^ 23 * idx + 2 ^ 26 * v + 2 ^ 27 * 5 + 2 ^ 30 * opc;
}.

Section pair.
  Context (t n t2 imm idx v opc insn : Z) (W : pair_word t n t2 imm idx v opc insn).

Lemma pair_t : insn_t insn = t.
Proof. destruct W. unfold insn_t. change 31 with (Z.ones 5). rewrite Z.land_ones by lia. fields. Qed.

Lemma pair_n : insn_n insn = n.
Proof. destruct W. unfold insn_n. change 31 with (Z.ones 5). rewrite field_eq by lia. fields. Qed.

Lemma pair_t2 : insn_t2 insn = t2.
Proof. destruct W. unfold insn_t2. change 31 with (Z.ones 5). rewrite field_eq by lia. fields. Qed.

Lemma pair_simd : insn_simd insn = (v =? 1).
Proof. destruct W. unfold insn_simd, nonzero. change 1 with (Z.ones 1) at 1. rewrite field_eq by lia. change (2 ^ 1) with 2. assert ((insn / 2 ^ 26) `mod` 2 = v) as -> by fields. by assert (v = 0 \/ v = 1) as [-> | ->] by lia. Qed.

Lemma pair_kind : Z.shiftr insn 30 = opc.
Proof. destruct W. rewrite Z.shiftr_div_pow2 by lia. fields. Qed.

Lemma pair_idx : Z.land (Z.shiftr insn 23) 3 = idx.
Proof. destruct W. change 3 with (Z.ones 2). rewrite field_eq by lia. change (2 ^ 2) with 4. fields. Qed.

Lemma pair_imm : Z.land (Z.shiftr insn 15) 0x7f = imm.
Proof. destruct W. change 0x7f with (Z.ones 7). rewrite field_eq by lia. change (2 ^ 7) with 128. fields. Qed.

Lemma pair_is : (Z.land insn 0x3a400000 =? 0x28400000) = true.
Proof.
  destruct W. change 0x3a400000 with (0xe9 * 2 ^ 22). rewrite land_high, (land_low _ 0xe9 8) by lia. change (2 ^ 8) with 256. assert ((insn / 2 ^ 22) `mod` 256 = 1 + 2 * idx + 16 * v + 160) as -> by fields.
  assert (idx = 1 \/ idx = 2 \/ idx = 3) as [-> | [-> | ->]] by lia; by assert (v = 0 \/ v = 1) as [-> | ->] by lia.
Qed.
End pair.

(** ** Sign extension *)

Lemma sext_value x bits : 0 < bits <= 64 -> horizon_read_sext x bits = (let m := x `mod` 2 ^ bits in if m <? 2 ^ (bits - 1) then m else m - 2 ^ bits).
Proof.
  intros Hb. unfold horizon_read_sext, u64, i64. rewrite Z.shiftl_mul_pow2, Z.shiftr_div_pow2 by lia. set (k := 64 - bits). assert (0 <= k) by (unfold k; lia). assert (0 < 2 ^ k) as Hk by (apply Z.pow_pos_nonneg; lia).
  assert (2 ^ 64 = 2 ^ bits * 2 ^ k) as E by (rewrite <- Z.pow_add_r by lia; f_equal; unfold k; lia). assert (2 ^ bits = 2 * 2 ^ (bits - 1)) as E2 by (rewrite <- Z.pow_succ_r by lia; f_equal; lia). assert (0 < 2 ^ (bits - 1)) by (apply Z.pow_pos_nonneg; lia).
  change 18446744073709551616 with (2 ^ 64). rewrite E. rewrite Z.mul_mod_distr_r by lia. set (m := x `mod` 2 ^ bits). assert (0 <= m < 2 ^ bits) as Hm by (apply Z.mod_pos_bound; lia). assert (9223372036854775808 = 2 ^ (bits - 1) * 2 ^ k) as -> by (apply (Z.mul_cancel_l _ _ 2); [lia|]; rewrite Z.mul_assoc, <- E2, <- E; done).
  rewrite <- Z.mul_add_distr_r, Z.mul_mod_distr_r by lia. rewrite <- Z.mul_sub_distr_r, Z.div_mul by lia. simpl. fold m. destruct (Z.ltb_spec m (2 ^ (bits - 1))) as [Hlt|Hge].
  - rewrite Z.mod_small by lia. lia.
  - replace (m + 2 ^ (bits - 1)) with (m - 2 ^ (bits - 1) + 1 * 2 ^ bits) by lia. rewrite Z.mod_add, Z.mod_small by lia. lia.
Qed.

(** An immediate, as it comes out of its field. *)
Lemma sext_imm imm bits : 0 < bits <= 64 -> - 2 ^ (bits - 1) <= imm < 2 ^ (bits - 1) -> horizon_read_sext (imm `mod` 2 ^ bits) bits = imm.
Proof.
  intros Hb Hi. rewrite sext_value by done. assert (2 ^ bits = 2 * 2 ^ (bits - 1)) as E2 by (rewrite <- Z.pow_succ_r by lia; f_equal; lia). rewrite Z.mod_mod by lia. cbn zeta. destruct (Z.ltb_spec imm 0).
  - replace (imm `mod` 2 ^ bits) with (imm + 2 ^ bits) by (symmetry; rewrite <- (Z.mod_add imm 1) by lia; rewrite Z.mul_1_l; apply Z.mod_small; lia). destruct (Z.ltb_spec (imm + 2 ^ bits) (2 ^ (bits - 1))); lia.
  - rewrite Z.mod_small by lia. destruct (Z.ltb_spec imm (2 ^ (bits - 1))); lia.
Qed.

Lemma sext_64 v bits : 0 < bits <= 64 -> 0 <= v < 2 ^ bits -> u64 (horizon_read_sext v bits) = sign_extend bits 64 v.
Proof.
  intros Hb Hv. rewrite sext_value by done. rewrite Z.mod_small by done. cbn zeta. unfold sign_extend, u64. change 18446744073709551616 with (2 ^ 64). assert (2 ^ bits <= 2 ^ 64) by (apply Z.pow_le_mono_r; lia). destruct (v <? 2 ^ (bits - 1)); [apply Z.mod_small; lia|].
  assert (0 < 2 ^ bits) by lia. rewrite <- (Z.mod_add _ 1), Z.mul_1_l by lia. replace (v - 2 ^ bits + 2 ^ 64) with (v + 2 ^ 64 - 2 ^ bits) by lia. apply Z.mod_small. lia.
Qed.

Lemma sext_32 v bits : 0 < bits <= 32 -> 0 <= v < 2 ^ bits -> u32 (u64 (horizon_read_sext v bits)) = sign_extend bits 32 v.
Proof.
  intros Hb Hv. rewrite sext_64 by lia. unfold sign_extend, u32. change 4294967296 with (2 ^ 32). assert (2 ^ bits <= 2 ^ 32) by (apply Z.pow_le_mono_r; lia). destruct (v <? 2 ^ (bits - 1)); [apply Z.mod_small; lia|].
  replace (v + 2 ^ 64 - 2 ^ bits) with (v + 2 ^ 32 - 2 ^ bits + (2 ^ 32 - 1) * 2 ^ 32) by lia. rewrite Z.mod_add by lia. apply Z.mod_small. lia.
Qed.

(** ** Bytes *)

Lemma copy_value_is window backing n : forall off, (off + n <= length backing)%nat -> 0 <= window -> copy_value backing off n = Some (read_memory (window_memory window backing) (window + Z.of_nat off) n).
Proof.
  induction n as [|n IH]; intros off Hle Hw; [done|]. cbn [copy_value read_memory]. destruct (lookup_lt_is_Some_2 backing off ltac:(lia)) as [b Hb]. rewrite Hb. cbn [mbind option_bind]. rewrite IH by lia. cbn [mbind option_bind].
  replace (window + Z.of_nat (S off)) with (window + Z.of_nat off + 1) by lia. unfold window_memory at 2. replace (Z.to_nat (window + Z.of_nat off - window)) with off by lia. by rewrite (nth_lookup_Some _ _ _ _ Hb).
Qed.

Lemma read_memory_range mem n : forall a, (forall x, 0 <= mem x < 256) -> 0 <= read_memory mem a n < 2 ^ (8 * Z.of_nat n).
Proof.
  induction n as [|n IH]; intros a H; [done|]. cbn [read_memory]. pose proof (H a). pose proof (IH (a + 1) H). replace (8 * Z.of_nat (S n)) with (8 + 8 * Z.of_nat n) by lia. rewrite Z.pow_add_r by lia. change (2 ^ 8) with 256. lia.
Qed.

Lemma window_byte window backing a : forallb is_byte backing = true -> 0 <= window_memory window backing a < 256.
Proof.
  intros H. rewrite forallb_forall in H. unfold window_memory. destruct (nth_in_or_default (Z.to_nat (a - window)) backing 0) as [Hin| ->]; [|lia]. specialize (H _ Hin). unfold is_byte, in_range in H. lia.
Qed.

(** ** Decoding *)

Definition type_sign (ty : load_type) : Z := match ty with Unsigned _ | Vector _ => 0 | Signed64 _ => 64 | Signed32 _ => 32 end.

Lemma in_range_spec lo x hi : in_range lo x hi = true -> lo <= x < hi.
Proof. unfold in_range. lia. Qed.

Lemma type_code_ok ty : type_valid ty = true -> exists size v opc, type_code ty = (size, v, opc) /\ 0 <= size < 4 /\ 0 <= v < 2 /\ 0 <= opc < 4 /\ (v =? 1) = is_vector ty /\
  forall insn, insn_simd insn = (v =? 1) -> insn_opc insn = opc -> Z.shiftr insn 30 = size -> single_bytes insn = Some (type_bytes ty, type_sign ty).
Proof.
  assert (forall lo k hi, in_range lo k hi = true -> lo <= k < hi) as HR by (intros; by apply in_range_spec).
  destruct ty as [k|k|k|k]; simpl; intros H; apply HR in H.
  - exists k, 0, 1. repeat (split; [done || lia|]). intros insn H1 H2 H3. unfold single_bytes. rewrite H1, H2, H3. simpl. by assert (k = 0 \/ k = 1 \/ k = 2 \/ k = 3) as [-> | [-> | [-> | ->]]] by lia.
  - exists k, 0, 2. repeat (split; [done || lia|]). intros insn H1 H2 H3. unfold single_bytes. rewrite H1, H2, H3. by assert (k = 0 \/ k = 1 \/ k = 2) as [-> | [-> | ->]] by lia.
  - exists k, 0, 3. repeat (split; [done || lia|]). intros insn H1 H2 H3. unfold single_bytes. rewrite H1, H2, H3. by assert (k = 0 \/ k = 1) as [-> | ->] by lia.
  - destruct (Z.eqb_spec k 4) as [->|Hne].
    + exists 0, 1, 3. repeat (split; [done || lia|]). intros insn H1 H2 H3. unfold single_bytes. by rewrite H1, H2, H3.
    + exists k, 1, 1. repeat (split; [done || lia|]). intros insn H1 H2 H3. unfold single_bytes. rewrite H1, H2, H3. by assert (k = 0 \/ k = 1 \/ k = 2 \/ k = 3) as [-> | [-> | [-> | ->]]] by lia.
Qed.

Lemma mode_code_ok ty mode n t : mode_valid ty mode n t = true -> exists b24 mid, mode_code mode = (b24, mid) /\ 0 <= b24 < 2 /\ 0 <= mid < 4096.
Proof.
  unfold mode_code, mode_valid, imm9_code. destruct mode as [imm|imm|imm|imm|imm|m e s]; intros H; eexists _, _; (split; [reflexivity|]); first [apply in_range_spec in H|apply andb_true_iff in H as [H _]; apply in_range_spec in H]; try (split; [lia|]; pose proof (Z.mod_pos_bound imm 512); lia).
  split; [lia|]. destruct e, s; simpl; lia.
Qed.

Lemma imm9_fields imm mode mid : 0 <= mode < 4 -> mid = imm9_code imm mode -> (mid / 2 ^ 0) `mod` 2 ^ 2 = mode /\ (mid / 2 ^ 2) `mod` 2 ^ 9 = imm `mod` 2 ^ 9 /\ (mid / 2 ^ 11) `mod` 2 ^ 1 = 0.
Proof.
  intros Hm ->. unfold imm9_code. change (2 ^ 0) with 1. change (2 ^ 2) with 4. change (2 ^ 9) with 512. change (2 ^ 11) with 2048. change (2 ^ 1) with 2. pose proof (Z.mod_pos_bound imm 512 ltac:(lia)). set (y := imm `mod` 512) in *. clearbody y. Z.to_euclidean_division_equations. lia.
Qed.

Definition changes_base (moved : option Z) : bool := match moved with Some _ => true | None => false end.

Lemma mid_fields insn mid : (insn / 2 ^ 10) `mod` 4096 = mid ->
  Z.land (Z.shiftr insn 10) 0xfff = mid /\ Z.land (Z.shiftr insn 10) 3 = (mid / 2 ^ 0) `mod` 2 ^ 2 /\ Z.land (Z.shiftr insn 12) 0x1ff = (mid / 2 ^ 2) `mod` 2 ^ 9 /\ nonzero (Z.land insn 0x00200000) = ((mid / 2 ^ 11) `mod` 2 ^ 1 =? 1) /\
  Z.land (Z.shiftr insn 16) 31 = (mid / 2 ^ 6) `mod` 2 ^ 5 /\ Z.land (Z.shiftr insn 13) 7 = (mid / 2 ^ 3) `mod` 2 ^ 3 /\ nonzero (Z.land insn 0x1000) = ((mid / 2 ^ 2) `mod` 2 ^ 1 =? 1).
Proof.
  intros H. change 0xfff with (Z.ones 12). change 3 with (Z.ones 2) at 1. change 0x1ff with (Z.ones 9). change 31 with (Z.ones 5). change 7 with (Z.ones 3). change 0x00200000 with (2 ^ 21). change 0x1000 with (2 ^ 12). rewrite !field_eq, !bit_test by lia.
  split; [done|]. rewrite <- !(mid_field insn mid _ _ H) by lia. done.
Qed.

Lemma register_index_ok insn mid regs m e (s : bool) bytes : (insn / 2 ^ 10) `mod` 4096 = mid -> mid = 2 + 4 * Z.b2z s + 8 * extend_code e + 64 * m + 2048 -> 0 <= m < 32 -> 0 <= reg_index regs m < 18446744073709551616 -> 0 < bytes ->
  exists x, register_index insn (reg_index regs m) bytes = Some x /\ forall base, u64 (base + x) = (base + extended e (reg_index regs m) * (if s then bytes else 1)) `mod` 2 ^ 64.
Proof.
  intros Hmid -> Hm Hx Hb. destruct (mid_fields _ _ Hmid) as (_ & _ & _ & _ & _ & Ho & Hs). unfold register_index. rewrite Hs, Ho. set (x := reg_index regs m) in *. clearbody x.
  assert (((2 + 4 * Z.b2z s + 8 * extend_code e + 64 * m + 2048) / 2 ^ 3) `mod` 2 ^ 3 = extend_code e) as ->.
  { change (2 ^ 3) with 8. destruct s, e; simpl; Z.to_euclidean_division_equations; lia. }
  assert ((((2 + 4 * Z.b2z s + 8 * extend_code e + 64 * m + 2048) / 2 ^ 2) `mod` 2 ^ 1 =? 1) = s) as ->.
  { change (2 ^ 2) with 4. change (2 ^ 1) with 2. destruct s, e; simpl; apply Z.eqb_eq || apply Z.eqb_neq; Z.to_euclidean_division_equations; lia. }
  assert (forall base y, u64 (base + u64 y) = (base + y) `mod` 2 ^ 64) as Hu by (intros; unfold u64; change 18446744073709551616 with (2 ^ 64); by rewrite Zplus_mod_idemp_r).
  assert (u64 (horizon_read_sext x 32) = sign_extend 32 64 (x `mod` 2 ^ 32)) as Hsx.
  { rewrite <- sext_64 by (try apply Z.mod_pos_bound; lia). rewrite !sext_value by lia. by rewrite Z.mod_mod by lia. }
  destruct e; simpl; eexists; (split; [reflexivity|]); intros base; destruct s; cbn [extended]; rewrite ?Hsx, ?Z.mul_1_r; try apply Hu; done.
Qed.

Lemma regs_valid_spec regs : regs_valid regs = true -> length (rr_x regs) = 31%nat /\ length (rr_v regs) = 32%nat /\ (forall n, 0 <= n < 32 -> 0 <= reg_base regs n < 18446744073709551616 /\ 0 <= reg_index regs n < 18446744073709551616).
Proof.
  unfold regs_valid. rewrite !andb_true_iff, !Nat.eqb_eq, forallb_forall. intros [[[H1 H2] H3] H4]. split; [done|]. split; [done|]. apply in_range_spec in H4. intros n Hn.
  assert (n <> 31 -> 0 <= reg_x regs n < 18446744073709551616) as Hx by (intros Hne; apply in_range_spec, H3, nth_In; lia). unfold reg_base, reg_index. destruct (Z.eqb_spec n 31); [lia|auto].
Qed.

Lemma reg_lookup regs n : length (rr_x regs) = 31%nat -> 0 <= n < 32 -> n <> 31 -> rr_x regs !! Z.to_nat n = Some (reg_x regs n).
Proof. intros Hl Hn Hne. destruct (lookup_lt_is_Some_2 (rr_x regs) (Z.to_nat n) ltac:(lia)) as [x Hx]. rewrite Hx. unfold reg_x. by rewrite (nth_lookup_Some _ _ _ _ Hx). Qed.

Lemma base_lookup regs n : length (rr_x regs) = 31%nat -> 0 <= n < 32 -> (if n =? 31 then Some (rr_sp regs) else rr_x regs !! Z.to_nat n) = Some (reg_base regs n).
Proof. intros Hl Hn. unfold reg_base. destruct (Z.eqb_spec n 31); [done|]. by apply reg_lookup. Qed.

Lemma type_bytes_pos ty : type_valid ty = true -> 0 < type_bytes ty.
Proof. destruct ty; simpl; intros H; apply in_range_spec in H; apply Z.pow_pos_nonneg; lia. Qed.

Lemma load_word ty mode n t : load_valid (Load ty mode n t) = true -> exists size v opc b24 mid, mode_code mode = (b24, mid) /\ single_word t n mid opc b24 v size (encode (Load ty mode n t)) /\ insn_simd (encode (Load ty mode n t)) = is_vector ty /\
  single_bytes (encode (Load ty mode n t)) = Some (type_bytes ty, type_sign ty).
Proof.
  simpl. rewrite !andb_true_iff. intros [[[H1 H2] H3] H4]. apply in_range_spec in H2, H3. destruct (type_code_ok ty H1) as (size & v & opc & Ec & Hs & Hv & Ho & Hvec & Hbytes). destruct (mode_code_ok ty mode n t H4) as (b24 & mid & Em & Hb & Hmid).
  exists size, v, opc, b24, mid. rewrite Ec, Em. assert (single_word t n mid opc b24 v size (t + 2 ^ 5 * n + 2 ^ 10 * mid + 2 ^ 22 * opc + 2 ^ 24 * b24 + 2 ^ 26 * v + 2 ^ 27 * 7 + 2 ^ 30 * size)) as W by done.
  split; [done|]. split; [done|]. rewrite (single_simd _ _ _ _ _ _ _ _ W). split; [done|]. apply Hbytes; [by apply (single_simd _ _ _ _ _ _ _ _ W)|by apply (single_opc _ _ _ _ _ _ _ _ W)|by apply (single_size _ _ _ _ _ _ _ _ W)].
Qed.

Lemma decode_single regs ty mode n t : regs_valid regs = true -> load_valid (Load ty mode n t) = true -> let i := Load ty mode n t in
  exists imm, redirect_single regs (encode i) (reg_base regs n) = Some (Some (mk_access (type_bytes ty) 1 (type_sign ty) imm (fst (load_address regs i)) (changes_base (snd (load_address regs i))))) /\
    forall v, snd (load_address regs i) = Some v -> u64 (reg_base regs n + imm) = v.
Proof.
  intros HR HV. destruct (regs_valid_spec regs HR) as (Hlx & _ & Hx). destruct (load_word ty mode n t HV) as (size & v & opc & b24 & mid & Em & W & Hsimd & Hbytes). cbn zeta. set (insn := encode (Load ty mode n t)) in *.
  simpl in HV. rewrite !andb_true_iff in HV. destruct HV as [[[HT Hn] Ht] HM]. apply in_range_spec in Hn, Ht. destruct (mid_fields insn mid (single_mid _ _ _ _ _ _ _ _ W)) as (Fm & Fmode & Fimm & Freg & Fm5 & _).
  unfold redirect_single. rewrite Hbytes, (single_b24 _ _ _ _ _ _ _ _ W), Hsimd, (single_n _ _ _ _ _ _ _ _ W), (single_t _ _ _ _ _ _ _ _ W).
  assert (forall imm k, 0 <= k < 4 -> (b24, mid) = (0, imm9_code imm k) -> in_range (-256) imm 256 = true -> b24 = 0 /\ nonzero (Z.land insn 0x00200000) = false /\ Z.land (Z.shiftr insn 10) 3 = k /\ horizon_read_sext (Z.land (Z.shiftr insn 12) 0x1ff) 9 = imm) as H9.
  { intros imm k Hk [= -> ->] Hi. apply in_range_spec in Hi. destruct (imm9_fields imm k _ Hk eq_refl) as (E1 & E2 & E3). rewrite Freg, E3, Fmode, E1, Fimm, E2. split; [done|]. split; [done|]. split; [done|]. apply sext_imm; [lia|]. simpl. lia. }
  destruct mode as [imm|imm|imm|imm|imm|m e s]; cbn [mode_code mode_valid load_address fst snd] in *.
  - injection Em as <- <-. apply in_range_spec in HM. rewrite Fm. exists 0. split; [done|]. done.
  - destruct (H9 imm 0) as (-> & -> & -> & ->); [lia|done|done|]. exists imm. split; [|done]. simpl. by rewrite andb_false_r.
  - apply andb_true_iff in HM as [HM Hg]. destruct (H9 imm 1) as (-> & -> & -> & ->); [lia|done|done|]. exists imm. simpl. rewrite andb_false_r. split; [|by intros v' [= <-]].
    destruct (is_vector ty); simpl; [done|]. simpl in Hg. destruct (n =? 31); simpl in *; [done|]. by destruct (n =? t).
  - apply andb_true_iff in HM as [HM Hg]. destruct (H9 imm 2) as (-> & -> & -> & ->); [lia|done|done|]. exists imm. split; [|done]. destruct (is_vector ty); [done|]. done.
  - apply andb_true_iff in HM as [HM Hg]. destruct (H9 imm 3) as (-> & -> & -> & ->); [lia|done|done|]. exists imm. simpl. rewrite andb_false_r. split; [|by intros v' [= <-]].
    destruct (is_vector ty); simpl; [done|]. simpl in Hg. destruct (n =? 31); simpl in *; [done|]. by destruct (n =? t).
  - injection Em as <- Emid. apply in_range_spec in HM. pose proof (Hx m HM) as [_ Hmx]. rewrite Freg, Fmode, Fm5, <- Emid.
    assert (((2 + 4 * Z.b2z s + 8 * extend_code e + 64 * m + 2048) / 2 ^ 11) `mod` 2 ^ 1 = 1) as -> by (change (2 ^ 11) with 2048; change (2 ^ 1) with 2; destruct s, e; simpl; Z.to_euclidean_division_equations; lia).
    assert (((2 + 4 * Z.b2z s + 8 * extend_code e + 64 * m + 2048) / 2 ^ 0) `mod` 2 ^ 2 = 2) as -> by (change (2 ^ 0) with 1; change (2 ^ 2) with 4; destruct s, e; simpl; Z.to_euclidean_division_equations; lia).
    assert (((2 + 4 * Z.b2z s + 8 * extend_code e + 64 * m + 2048) / 2 ^ 6) `mod` 2 ^ 5 = m) as -> by (change (2 ^ 6) with 64; change (2 ^ 5) with 32; destruct s, e; simpl; Z.to_euclidean_division_equations; lia).
    cbn [Z.eqb Pos.eqb negb]. assert ((if m =? 31 then Some 0 else rr_x regs !! Z.to_nat m) = Some (reg_index regs m)) as -> by (unfold reg_index; destruct (Z.eqb_spec m 31); [done|by apply reg_lookup]). cbn [mbind option_bind].
    destruct (register_index_ok insn mid regs m e s (type_bytes ty) (single_mid _ _ _ _ _ _ _ _ W) (eq_sym Emid) HM Hmx (type_bytes_pos ty HT)) as (x & -> & Hbx). exists 0. split; [|done]. by rewrite Hbx.
Qed.

Lemma decode_pair regs ty index imm n t t2 : load_valid (Load_pair ty index imm n t t2) = true -> let i := Load_pair ty index imm n t t2 in
  pair_word t n t2 (imm `mod` 128) (index_code index) (snd (pair_code ty)) (fst (pair_code ty)) (encode i) /\ insn_simd (encode i) = is_vector (pair_element ty) /\
  exists imm', redirect_pair (encode i) (reg_base regs n) = Some (mk_access (pair_bytes ty) 2 (type_sign (pair_element ty)) imm' (fst (load_address regs i)) (changes_base (snd (load_address regs i)))) /\
    forall v, snd (load_address regs i) = Some v -> u64 (reg_base regs n + imm') = v.
Proof.
  simpl load_valid. rewrite !andb_true_iff. intros [[[[[Hn Ht] Ht2] Hi] Hne] Hg]. apply in_range_spec in Hn, Ht, Ht2, Hi. cbn zeta. set (insn := encode (Load_pair ty index imm n t t2)).
  assert (pair_word t n t2 (imm `mod` 128) (index_code index) (snd (pair_code ty)) (fst (pair_code ty)) insn) as W.
  { split; try done; [by apply Z.mod_pos_bound|by destruct index|by destruct ty|by destruct ty|by destruct ty]. }
  assert (insn_simd insn = is_vector (pair_element ty)) as Hs by (rewrite (pair_simd _ _ _ _ _ _ _ _ W); by destruct ty). split; [done|]. split; [done|]. exists (imm * pair_bytes ty).
  assert (horizon_read_sext (imm `mod` 128) 7 = imm) as Hsx by (apply (sext_imm imm 7); simpl; lia).
  unfold redirect_pair. rewrite Hs, (pair_kind _ _ _ _ _ _ _ _ W), (pair_idx _ _ _ _ _ _ _ _ W), (pair_imm _ _ _ _ _ _ _ _ W), (pair_t _ _ _ _ _ _ _ _ W), (pair_t2 _ _ _ _ _ _ _ _ W), (pair_n _ _ _ _ _ _ _ _ W), Hsx.
  apply negb_true_iff in Hne. rewrite Hne. split; [|destruct index; by intros v [= <-]].
  destruct index; cbn [load_address fst snd changes_base]; destruct ty; cbn in Hg |- *; try done; destruct (n =? 31); try done; cbn in Hg |- *; destruct (n =? t), (n =? t2); done.
Qed.

(** ** Loading *)

Lemma set_x_ok regs i v : length (rr_x regs) = 31%nat -> 0 <= i < 32 -> (if i =? 31 then Some regs else set_x regs i v) = Some (put_x regs i v).
Proof.
  intros Hl Hi. unfold put_x, set_x. destruct (Z.eqb_spec i 31); [done|]. destruct (lookup_lt_is_Some_2 (rr_x regs) (Z.to_nat i) ltac:(lia)) as [x ->]. done.
Qed.

Lemma load_into_length ty regs t v : length (rr_x (load_into ty regs t v)) = length (rr_x regs) /\ length (rr_v (load_into ty regs t v)) = length (rr_v regs).
Proof. destruct ty; simpl; unfold put_x; try destruct (t =? 31); simpl; rewrite ?length_insert; done. Qed.

Lemma load_target_ok ty regs window backing off t : type_valid ty = true -> length (rr_x regs) = 31%nat -> length (rr_v regs) = 32%nat -> 0 <= t < 32 -> 0 <= window -> forallb is_byte backing = true -> 0 <= off -> off + type_bytes ty <= Z.of_nat (length backing) ->
  load_target regs (is_vector ty) (type_bytes ty) (type_sign ty) backing off t = Some (load_into ty regs t (read_memory (window_memory window backing) (window + off) (Z.to_nat (type_bytes ty)))).
Proof.
  intros HT Hlx Hlv Ht Hw Hb Ho Hle. pose proof (type_bytes_pos ty HT) as Hp. unfold load_target. rewrite (copy_value_is window backing) by lia. cbn [mbind option_bind]. replace (window + Z.of_nat (Z.to_nat off)) with (window + off) by lia.
  pose proof (read_memory_range (window_memory window backing) (Z.to_nat (type_bytes ty)) (window + off) (fun x => window_byte window backing x Hb)) as Hr. rewrite Z2Nat.id in Hr by lia. set (v := read_memory _ _ _) in *. clearbody v.
  destruct ty as [k|k|k|k]; cbn [is_vector type_sign load_into type_valid type_bytes] in *; apply in_range_spec in HT.
  - simpl. by apply set_x_ok.
  - cbn [nonzero Z.eqb negb]. rewrite (Z.mul_comm (2 ^ k)), sext_64; [by apply set_x_ok| |done]. assert (k = 0 \/ k = 1 \/ k = 2) as [-> | [-> | ->]] by lia; simpl; lia.
  - cbn [nonzero Z.eqb Pos.eqb negb]. rewrite (Z.mul_comm (2 ^ k)), sext_32; [by apply set_x_ok| |done]. assert (k = 0 \/ k = 1) as [-> | ->] by lia; simpl; lia.
  - unfold set_v. destruct (lookup_lt_is_Some_2 (rr_v regs) (Z.to_nat t) ltac:(lia)) as [x ->]. done.
Qed.

Lemma write_base_ok regs n v : length (rr_x regs) = 31%nat -> 0 <= n < 32 -> write_base regs n v = Some (put_base regs n v).
Proof. intros Hl Hn. unfold write_base, put_base. destruct (Z.eqb_spec n 31) as [->|Hne]; [done|]. rewrite <- (set_x_ok regs n v Hl Hn). destruct (Z.eqb_spec n 31); done. Qed.

Lemma access_ok regs insn base a window backing loaded moved : window_valid window backing = true -> length (rr_x loaded) = 31%nat -> 0 <= insn_n insn < 32 -> 0 <= ac_address a < 18446744073709551616 -> 0 <= ac_bytes a ->
  ac_writeback a = changes_base moved -> (forall v, moved = Some v -> u64 (base + ac_imm a) = v) ->
  (window <= ac_address a -> ac_address a + ac_bytes a * Z.of_nat (ac_count a) <= window + Z.of_nat (length backing) ->
    load_targets regs (insn_simd insn) (ac_bytes a) (ac_sign a) backing (ac_address a - window) (take (ac_count a) [insn_t insn; insn_t2 insn]) = Some loaded) -> (0 < ac_bytes a * Z.of_nat (ac_count a)) ->
  redirect_access regs insn base a window backing (Z.of_nat (length backing)) =
    Some (if (window <=? ac_address a) && (ac_address a + ac_bytes a * Z.of_nat (ac_count a) <=? window + Z.of_nat (length backing)) then
            (true, next_pc (match moved with Some v => put_base loaded (insn_n insn) v | None => loaded end)) else (false, regs)).
Proof.
  intros HW Hl Hn Ha Hb Hwb Hm Hload Hpos. unfold window_valid in HW. rewrite !andb_true_iff in HW. destruct HW as [[Hw1 Hw2] _]. unfold redirect_access. set (len := Z.of_nat (length backing)) in *. set (total := ac_bytes a * Z.of_nat (ac_count a)) in *.
  destruct (Z.leb_spec window (ac_address a)) as [Hle|Hgt].
  - assert (u64 (ac_address a - window) = ac_address a - window) as -> by (apply u64_small; unfold is_u64; lia). cbn [andb]. destruct (Z.leb_spec (ac_address a + total) (window + len)) as [Hin|Hout].
    + assert ((len <=? ac_address a - window) || (len - (ac_address a - window) <? total) = false) as -> by (apply orb_false_iff; split; [apply Z.leb_gt|apply Z.ltb_ge]; lia). rewrite Hload by done. cbn [mbind option_bind]. rewrite Hwb.
      destruct moved as [v|]; cbn [changes_base]; [|done]. rewrite (Hm v eq_refl), write_base_ok by done. done.
    + assert ((len <=? ac_address a - window) || (len - (ac_address a - window) <? total) = true) as -> by (apply orb_true_iff; right; apply Z.ltb_lt; lia). done.
  - assert (u64 (ac_address a - window) = ac_address a - window + 18446744073709551616) as -> by (unfold u64; rewrite <- (Z.mod_add _ 1), Z.mul_1_l by lia; apply Z.mod_small; lia).
    assert ((len <=? ac_address a - window + 18446744073709551616) = true) as -> by (apply Z.leb_le; lia). done.
Qed.

Lemma load_address_range regs i : regs_valid regs = true -> load_valid i = true -> 0 <= fst (load_address regs i) < 18446744073709551616.
Proof.
  intros HR HV. destruct (regs_valid_spec regs HR) as (_ & _ & Hx). assert (forall x, 0 <= x `mod` 2 ^ 64 < 18446744073709551616) as Hm by (intros; by apply Z.mod_pos_bound).
  destruct i as [ty mode n t|ty index imm n t t2]; simpl in HV; rewrite !andb_true_iff in HV.
  - destruct HV as [[[_ Hn] _] _]. apply in_range_spec, Hx in Hn as [Hn _]. destruct mode; cbn [load_address fst]; apply Hm || done.
  - destruct HV as [[[[[Hn _] _] _] _] _]. apply in_range_spec, Hx in Hn as [Hn _]. destruct index; cbn [load_address fst]; apply Hm || done.
Qed.

(** An instruction that is one of these loads. *)
Lemma emulated_load regs i window backing :
  regs_valid regs = true -> load_valid i = true -> window_valid window backing = true ->
  horizon_redirect_read regs (encode i) window backing (Z.of_nat (length backing)) =
    Some (if reads_window regs i window backing then (true, execute (window_memory window backing) regs i) else (false, regs)).
Proof.
  intros HR HV HW. destruct (regs_valid_spec regs HR) as (Hlx & Hlv & _). pose proof (load_address_range regs i HR HV) as Ha. pose proof HW as HW'. unfold window_valid in HW'. rewrite !andb_true_iff in HW'. destruct HW' as [[Hw _] Hb].
  unfold horizon_redirect_read, reads_window, execute. destruct i as [ty mode n t|ty index imm n t t2].
  - destruct (load_word ty mode n t HV) as (size & v & opc & b24 & mid & _ & W & Hsimd & _). destruct (decode_single regs ty mode n t HR HV) as (imm & Ed & Hm). set (i := Load ty mode n t) in *. simpl in HV. rewrite !andb_true_iff in HV. destruct HV as [[[HT Hn] Ht] _]. apply in_range_spec in Hn, Ht.
    rewrite (single_n _ _ _ _ _ _ _ _ W), (base_lookup regs n Hlx Hn), (single_not_pair _ _ _ _ _ _ _ _ W), (single_is _ _ _ _ _ _ _ _ W). cbn [mbind option_bind]. rewrite Ed. cbn [mbind option_bind]. pose proof (type_bytes_pos ty HT) as Hp.
    rewrite (access_ok regs (encode i) (reg_base regs n) _ window backing (load_into ty regs t (read_memory (window_memory window backing) (fst (load_address regs i)) (Z.to_nat (type_bytes ty)))) (snd (load_address regs i))); cbn [ac_address ac_bytes ac_count ac_writeback ac_imm ac_sign]; try done; try lia.
    + rewrite (single_n _ _ _ _ _ _ _ _ W). destruct (load_address regs i) as [address moved]. cbn [fst snd load_size i]. by rewrite Z.mul_1_r.
    + by rewrite (proj1 (load_into_length ty regs t _)).
    + by rewrite (single_n _ _ _ _ _ _ _ _ W).
    + intros H1 H2. cbn [take load_targets]. rewrite Hsimd, (single_t _ _ _ _ _ _ _ _ W), (load_target_ok ty regs window backing) by (done || lia). cbn [mbind option_bind]. do 3 f_equal. lia.
  - destruct (decode_pair regs ty index imm n t t2 HV) as (W & Hsimd & imm' & Ed & Hm). set (i := Load_pair ty index imm n t t2) in *. simpl in HV. rewrite !andb_true_iff in HV. destruct HV as [[[[[Hn Ht] Ht2] _] _] _]. apply in_range_spec in Hn, Ht, Ht2.
    rewrite (pair_n _ _ _ _ _ _ _ _ W), (base_lookup regs n Hlx Hn), (pair_is _ _ _ _ _ _ _ _ W). cbn [mbind option_bind]. rewrite Ed. set (el := pair_element ty) in *. set (mem := window_memory window backing). set (one := load_into el regs t (read_memory mem (fst (load_address regs i)) (Z.to_nat (pair_bytes ty)))).
    assert (type_valid el = true /\ type_bytes el = pair_bytes ty) as [HT Heq] by (unfold el; by destruct ty). pose proof (type_bytes_pos el HT) as Hp. rewrite Heq in Hp. destruct (load_into_length el regs t (read_memory mem (fst (load_address regs i)) (Z.to_nat (pair_bytes ty)))) as [L1 L2]. fold one in L1, L2.
    rewrite (access_ok regs (encode i) (reg_base regs n) _ window backing (load_into el one t2 (read_memory mem (fst (load_address regs i) + pair_bytes ty) (Z.to_nat (pair_bytes ty)))) (snd (load_address regs i))); cbn [ac_address ac_bytes ac_count ac_writeback ac_imm ac_sign]; try done; try lia.
    + rewrite (pair_n _ _ _ _ _ _ _ _ W). unfold one. destruct (load_address regs i) as [address moved]. cbn [fst snd load_size i]. by replace (2 * pair_bytes ty) with (pair_bytes ty * Z.of_nat 2) by lia.
    + rewrite (proj1 (load_into_length el one t2 _)). by rewrite L1.
    + by rewrite (pair_n _ _ _ _ _ _ _ _ W).
    + intros H1 H2. cbn [take load_targets]. rewrite Hsimd, (pair_t _ _ _ _ _ _ _ _ W), (pair_t2 _ _ _ _ _ _ _ _ W), <- Heq in *. rewrite (load_target_ok el regs window backing) by (done || lia). cbn [mbind option_bind].
      replace (window + (fst (load_address regs i) - window)) with (fst (load_address regs i)) by lia. fold mem. rewrite (load_target_ok el _ window backing) by (done || lia || (unfold one in L1, L2; rewrite <- Heq in L1, L2; lia)). cbn [mbind option_bind]. unfold one, mem. rewrite !Heq. by replace (window + (fst (load_address regs i) - window + pair_bytes ty)) with (fst (load_address regs i) + pair_bytes ty) by lia.
Qed.

(** ** Instructions that are none of the loads *)

Lemma small_field insn lo w : 0 <= lo -> 0 <= w -> 0 <= Z.land (Z.shiftr insn lo) (Z.ones w) < 2 ^ w.
Proof. intros. rewrite field_eq by done. apply Z.mod_pos_bound, Z.pow_pos_nonneg; lia. Qed.

(** What holds of the small numbers holds of a number that is small. *)
Lemma small_cases (f : Z -> bool) n x : forallb f (seqZ 0 n) = true -> 0 <= x < n -> f x = true.
Proof. rewrite forallb_forall. intros H Hx. apply H, list_elem_of_In, elem_of_seqZ. lia. Qed.

(** The fields of an instruction with the bits of a pair or of a single load. *)
Lemma pair_decoded insn : 0 <= insn < 2 ^ 32 -> (Z.land insn 0x3a400000 =? 0x28400000) = true -> Z.shiftr insn 30 <> 3 -> Z.land (Z.shiftr insn 23) 3 <> 0 ->
  pair_word (insn_t insn) (insn_n insn) (insn_t2 insn) (Z.land (Z.shiftr insn 15) 0x7f) (Z.land (Z.shiftr insn 23) 3) (Z.land (Z.shiftr insn 26) 1) (Z.shiftr insn 30) insn.
Proof.
  intros Hr Hm Hk Hi. change 0x3a400000 with (0xe9 * 2 ^ 22) in Hm. rewrite land_high, (land_low _ 0xe9 8) in Hm by lia. unfold insn_t, insn_n, insn_t2.
  change 0x7f with (Z.ones 7). change 31 with (Z.ones 5). change 3 with (Z.ones 2) in *. change 1 with (Z.ones 1). rewrite !field_eq in * by lia. rewrite Z.land_ones, Z.shiftr_div_pow2 in * by lia.
  pose proof (small_cases (fun x => implb (Z.land x 0xe9 * 4194304 =? 0x28400000) (x =? 161 + 2 * ((x / 2) `mod` 4) + 16 * ((x / 16) `mod` 2))) 256
    ((insn / 2 ^ 22) `mod` 2 ^ 8) ltac:(vm_compute; reflexivity) ltac:(apply Z.mod_pos_bound; lia)) as E.
  cbv beta in E. change (2 ^ 22) with 4194304 in *. rewrite Hm in E. apply Z.eqb_eq in E. clear Hm.
  change (2 ^ 8) with 256 in E. change (Z.ones 2) with 3 in *. change (2 ^ 32) with 4294967296 in Hr. change (2 ^ 1) with 2. change (2 ^ 2) with 4 in *. change (2 ^ 7) with 128.
  split; fields.
Qed.

Lemma single_decoded insn : 0 <= insn < 2 ^ 32 -> (Z.land insn 0x3a000000 =? 0x38000000) = true ->
  single_word (insn_t insn) (insn_n insn) ((insn / 2 ^ 10) `mod` 4096) (insn_opc insn) ((insn / 2 ^ 24) `mod` 2) (Z.land (Z.shiftr insn 26) 1) (Z.shiftr insn 30) insn.
Proof.
  intros Hr Hm. change 0x3a000000 with (0xe8 * 2 ^ 22) in Hm. rewrite land_high, (land_low _ 0xe8 8) in Hm by lia. unfold insn_t, insn_n, insn_opc.
  change 31 with (Z.ones 5). change 3 with (Z.ones 2). change 1 with (Z.ones 1). rewrite !field_eq by lia. rewrite Z.land_ones, Z.shiftr_div_pow2 by lia.
  pose proof (small_cases (fun x => implb (Z.land x 0xe8 * 4194304 =? 0x38000000) (x =? x `mod` 4 + 4 * ((x / 4) `mod` 2) + 16 * ((x / 16) `mod` 2) + 224)) 256
    ((insn / 2 ^ 22) `mod` 2 ^ 8) ltac:(vm_compute; reflexivity) ltac:(apply Z.mod_pos_bound; lia)) as E.
  cbv beta in E. change (2 ^ 22) with 4194304 in *. rewrite Hm in E. apply Z.eqb_eq in E. clear Hm. change (2 ^ 8) with 256 in E.
  change (2 ^ 32) with 4294967296 in Hr. change (2 ^ 1) with 2. change (2 ^ 2) with 4 in *. split; fields.
Qed.

(** A field of [bits] bits as a signed number. *)
Lemma signed_field f half : 0 <= f < 2 * half -> exists imm, - half <= imm < half /\ imm `mod` (2 * half) = f.
Proof.
  intros Hf. destruct (decide (f < half)); [exists f; split; [lia|by apply Z.mod_small]|]. exists (f - 2 * half). split; [lia|].
  rewrite <- (Z.mod_add _ 1) by lia. rewrite Z.mul_1_l. replace (f - 2 * half + 2 * half) with f by lia. by apply Z.mod_small.
Qed.

Lemma in_range_true lo x hi : lo <= x < hi -> in_range lo x hi = true.
Proof. unfold in_range. lia. Qed.

(** No load has this word. *)
Definition no_load (insn : Z) : Prop := forall i, load_valid i = true -> encode i <> insn.

Lemma pair_refused insn base : 0 <= insn < 2 ^ 32 -> (Z.land insn 0x3a400000 =? 0x28400000) = true -> no_load insn -> redirect_pair insn base = None.
Proof.
  intros Hr Hm Hno. unfold redirect_pair. cbv zeta. destruct ((Z.shiftr insn 30 =? 3) || _ || _) eqn:E1; [done|]. rewrite !orb_false_iff, !Z.eqb_neq in E1. destruct E1 as [[Hk Hi] Ht].
  pose proof (pair_decoded insn Hr Hm Hk Hi) as W. destruct (_ && _ && _ && _) eqn:E2; [done|exfalso]. destruct (signed_field (Z.land (Z.shiftr insn 15) 0x7f) 64) as (imm & Hi1 & Hi2); [apply W|].
  assert (exists ty, pair_code ty = (Z.shiftr insn 30, Z.land (Z.shiftr insn 26) 1) /\ is_vector (pair_element ty) = insn_simd insn) as (ty & Hty & Hvec).
  { pose proof (pw_opc _ _ _ _ _ _ _ _ W) as H1. pose proof (pw_v _ _ _ _ _ _ _ _ W) as H2. unfold insn_simd. set (opc := Z.shiftr insn 30) in *. set (v := Z.land (Z.shiftr insn 26) 1) in *. clearbody opc v.
    assert (opc = 0 \/ opc = 1 \/ opc = 2) as [-> | [-> | ->]] by lia; assert (v = 0 \/ v = 1) as [-> | ->] by lia; [by exists Pair_w|by exists Pair_s|by exists Pair_sw|by exists Pair_d|by exists Pair_x|by exists Pair_q]. }
  assert (exists index, index_code index = Z.land (Z.shiftr insn 23) 3 /\ (match index with Pair_offset => true | _ => false end) = (Z.land (Z.shiftr insn 23) 3 =? 2)) as (index & Hix & Hoff).
  { pose proof (pw_idx _ _ _ _ _ _ _ _ W) as H1. set (idx := Z.land (Z.shiftr insn 23) 3) in *. clearbody idx. assert (idx = 1 \/ idx = 2 \/ idx = 3) as [-> | [-> | ->]] by lia; [by exists Pair_post|by exists Pair_offset|by exists Pair_pre]. }
  apply (Hno (Load_pair ty index imm (insn_n insn) (insn_t insn) (insn_t2 insn))).
  - destruct W as [W1 W2 W3 _ _ _ _ _]. cbn [load_valid]. rewrite !in_range_true by (exact W1 || exact W2 || exact W3 || exact Hi1). rewrite (proj2 (Z.eqb_neq _ _) Ht), Hvec. cbn [andb negb]. rewrite <- Hoff in E2.
    clear -E2. destruct index, (insn_simd insn), (insn_n insn =? 31), (insn_n insn =? insn_t insn), (insn_n insn =? insn_t2 insn); done.
  - cbn [encode]. rewrite Hty, Hix. change (2 * 64) with 128 in Hi2. rewrite Hi2. symmetry. apply (pw_is _ _ _ _ _ _ _ _ W).
Qed.

Lemma single_type insn bytes sign : 0 <= Z.shiftr insn 30 < 4 -> 0 <= insn_opc insn < 4 -> single_bytes insn = Some (bytes, sign) ->
  exists ty, type_valid ty = true /\ type_code ty = (Z.shiftr insn 30, Z.land (Z.shiftr insn 26) 1, insn_opc insn) /\ is_vector ty = insn_simd insn.
Proof.
  intros H1 H2. unfold single_bytes, insn_simd. pose proof (small_field insn 26 1 ltac:(lia) ltac:(lia)) as H3. change (Z.ones 1) with 1 in H3. change (2 ^ 1) with 2 in H3.
  set (size := Z.shiftr insn 30) in *. set (opc := insn_opc insn) in *. set (v := Z.land (Z.shiftr insn 26) 1) in *. clearbody size opc v.
  assert (v = 0 \/ v = 1) as [-> | ->] by lia; simpl.
  - assert (opc = 0 \/ opc = 1 \/ opc = 2 \/ opc = 3) as [-> | [-> | [-> | ->]]] by lia; simpl; [done| | |].
    + intros _. exists (Unsigned size). split; [by apply in_range_true|done].
    + destruct (Z.eqb_spec size 3); [done|]. intros _. exists (Signed64 size). split; [apply in_range_true; lia|done].
    + destruct (Z.leb_spec 2 size); [done|]. intros _. exists (Signed32 size). split; [apply in_range_true; lia|done].
  - destruct (Z.eqb_spec opc 1) as [->|]; [|destruct (Z.eqb_spec opc 3) as [->|]; [|done]; destruct (Z.eqb_spec size 0) as [->|]; [|done]; intros _; by exists (Vector 4)].
    intros _. exists (Vector size). split; [apply in_range_true; lia|]. simpl. by destruct (Z.eqb_spec size 4); [lia|].
Qed.

(** The modes with a 9-bit offset. *)
Lemma mode_unscaled ty n t mid : 0 <= mid < 2048 -> (forall mode, mode_valid ty mode n t = true -> mode_code mode <> (0, mid)) ->
  ((mid `mod` 4 =? 2) && is_vector ty) || (((mid `mod` 4 =? 1) || (mid `mod` 4 =? 3)) && negb (is_vector ty) && negb (n =? 31) && (n =? t)) = true.
Proof.
  intros Hm Hno. destruct (signed_field (mid / 4) 256) as (imm & Hi1 & Hi2); [Z.to_euclidean_division_equations; lia|]. change (2 * 256) with 512 in Hi2.
  assert (forall k, mid `mod` 4 = k -> imm9_code imm k = mid) as Hc by (intros k <-; unfold imm9_code; rewrite Hi2; pose proof (Z.div_mod mid 4); lia).
  pose proof (in_range_true (-256) imm 256 ltac:(lia)) as Hr. pose proof (Z.mod_pos_bound mid 4 ltac:(lia)) as Hk.
  assert (mid `mod` 4 = 0 \/ mid `mod` 4 = 1 \/ mid `mod` 4 = 2 \/ mid `mod` 4 = 3) as [E|[E|[E|E]]] by lia; rewrite E; specialize (Hc _ E); simpl.
  - exfalso. apply (Hno (Unscaled imm)); [done|]. simpl. by rewrite Hc.
  - pose proof (Hno (Post_indexed imm)) as H. simpl in H. rewrite Hr, Hc in H. simpl in H. destruct (is_vector ty), (n =? 31), (n =? t); try done; exfalso; by apply H.
  - pose proof (Hno (Unprivileged imm)) as H. simpl in H. rewrite Hr, Hc in H. simpl in H. destruct (is_vector ty); [done|]. exfalso. by apply H.
  - pose proof (Hno (Pre_indexed imm)) as H. simpl in H. rewrite Hr, Hc in H. simpl in H. destruct (is_vector ty), (n =? 31), (n =? t); try done; exfalso; by apply H.
Qed.

(** The mode with a register. *)
Lemma mode_register ty n t mid : 2048 <= mid < 4096 -> mid `mod` 4 = 2 -> (forall mode, mode_valid ty mode n t = true -> mode_code mode <> (0, mid)) ->
  let option := (mid / 8) `mod` 8 in option <> 2 /\ option <> 3 /\ option <> 6 /\ option <> 7.
Proof.
  intros Hm H4 Hno option. set (m := (mid / 64) `mod` 32). set (s := (mid / 4) `mod` 2 =? 1).
  assert (forall e, extend_code e <> option) as He.
  { intros e He. apply (Hno (Register_offset m e s)); [apply in_range_true, Z.mod_pos_bound; lia|]. unfold mode_code. f_equal. rewrite He. unfold m, s, option.
    assert (Z.b2z ((mid / 4) `mod` 2 =? 1) = (mid / 4) `mod` 2) as ->.
    { pose proof (Z.mod_pos_bound (mid / 4) 2 ltac:(lia)). destruct (Z.eqb_spec ((mid / 4) `mod` 2) 1); simpl; lia. }
    Z.to_euclidean_division_equations. lia. }
  split_and!; intros E; [apply (He UXTW)|apply (He LSL)|apply (He SXTW)|apply (He SXTX)]; by rewrite E.
Qed.

Lemma single_refused regs insn base : length (rr_x regs) = 31%nat -> 0 <= insn < 2 ^ 32 -> (Z.land insn 0x3a000000 =? 0x38000000) = true -> no_load insn -> redirect_single regs insn base = Some None.
Proof.
  intros Hlx Hr Hm Hno. pose proof (single_decoded insn Hr Hm) as W. unfold redirect_single. destruct (single_bytes insn) as [[bytes sign]|] eqn:Eb; [|done].
  destruct (single_type insn bytes sign (sw_size _ _ _ _ _ _ _ _ W) (sw_opc _ _ _ _ _ _ _ _ W) Eb) as (ty & HT & Hc & Hvec). set (mid := (insn / 2 ^ 10) `mod` 4096) in *. set (b24 := (insn / 2 ^ 24) `mod` 2) in *.
  assert (forall mode, mode_valid ty mode (insn_n insn) (insn_t insn) = true -> mode_code mode <> (b24, mid)) as Hmode.
  { intros mode HM E. apply (Hno (Load ty mode (insn_n insn) (insn_t insn))).
    - cbn [load_valid]. by rewrite HT, HM, !in_range_true by (apply W).
    - cbn [encode]. rewrite Hc, E. symmetry. apply (sw_is _ _ _ _ _ _ _ _ W). }
  destruct (mid_fields insn mid eq_refl) as (Fm & Fmode & Fimm & Freg & Fm5 & Fopt & _). rewrite (single_b24 _ _ _ _ _ _ _ _ W), Freg, Fmode. change (2 ^ 0) with 1. change (2 ^ 2) with 4. change (2 ^ 11) with 2048. change (2 ^ 1) with 2. rewrite Z.div_1_r.
  pose proof (sw_mid _ _ _ _ _ _ _ _ W) as Hmid. pose proof (sw_b24 _ _ _ _ _ _ _ _ W) as Hb. fold mid in Hmid. fold b24 in Hb.
  destruct (Z.eqb_spec b24 1) as [E|Hne].
  { exfalso. apply (Hmode (Scaled mid)); [by apply in_range_true|]. unfold mode_code. by rewrite E. }
  assert (b24 = 0) as E0 by lia. rewrite E0 in Hmode. clearbody b24 mid. destruct (decide (mid < 2048)) as [Hlt|Hge].
  - assert (mid / 2048 = 0) as -> by (Z.to_euclidean_division_equations; lia). change (0 `mod` 2 =? 1) with false. cbn [negb]. pose proof (mode_unscaled ty (insn_n insn) (insn_t insn) mid ltac:(lia) Hmode) as H. rewrite Hvec in H.
    destruct (insn_simd insn), (mid `mod` 4 =? 2); cbn [andb orb negb] in *; rewrite ?andb_false_r, ?andb_true_r, ?orb_false_r in *; try done; by rewrite H.
  - assert (mid / 2048 = 1) as -> by (Z.to_euclidean_division_equations; lia). change (1 `mod` 2 =? 1) with true. cbn [negb]. destruct (Z.eqb_spec (mid `mod` 4) 2) as [E4|]; [|done].
    assert (exists x, (if Z.land (Z.shiftr insn 16) 31 =? 31 then Some 0 else rr_x regs !! Z.to_nat (Z.land (Z.shiftr insn 16) 31)) = Some x) as [x ->].
    { pose proof (small_field insn 16 5 ltac:(lia) ltac:(lia)) as H5. change (Z.ones 5) with 31 in H5. destruct (Z.eqb_spec (Z.land (Z.shiftr insn 16) 31) 31); [by exists 0|apply lookup_lt_is_Some_2; lia]. }
    cbn [mbind option_bind]. destruct (mode_register ty (insn_n insn) (insn_t insn) mid ltac:(lia) E4 Hmode) as (O2 & O3 & O6 & O7). unfold register_index. rewrite Fopt. change (2 ^ 3) with 8.
    by rewrite (proj2 (Z.eqb_neq _ _) O2), (proj2 (Z.eqb_neq _ _) O3), (proj2 (Z.eqb_neq _ _) O6), (proj2 (Z.eqb_neq _ _) O7).
Qed.

(** C5: the fault handler emulates the loads it means to, exactly, and no other
    instruction. The loads are LDR, LDUR and LDTR of any size, zero- and
    sign-extending or into a vector register, with an offset, a register or a
    change of the base, and LDP and LDPSW. One whose bytes are all in the window
    leaves the registers as the architecture says, with the memory behind the
    window seen at its addresses; one that reads outside the window is refused,
    and nothing changes. Every other word, among them stores, LDNP, LDR of a
    literal, exclusive and acquiring loads, loads of vector structures, and
    loads whose effect the architecture leaves open, is refused too. *)
Theorem redirect_is_load regs insn window backing :
  regs_valid regs = true -> window_valid window backing = true -> 0 <= insn < 2 ^ 32 ->
  let read := horizon_redirect_read regs insn window backing (Z.of_nat (length backing)) in
  (forall i, load_valid i = true -> encode i = insn ->
     read = Some (if reads_window regs i window backing then (true, execute (window_memory window backing) regs i) else (false, regs))) /\
  ((forall i, load_valid i = true -> encode i <> insn) -> read = Some (false, regs)).
Proof.
  intros HR HW Hr read. split; [intros i HV <-; by apply emulated_load|]. intros Hno. unfold read, horizon_redirect_read. destruct (regs_valid_spec regs HR) as (Hlx & _).
  pose proof (small_field insn 5 5 ltac:(lia) ltac:(lia)) as Hn. change (Z.ones 5) with 31 in Hn. fold (insn_n insn) in Hn. rewrite (base_lookup regs _ Hlx Hn). cbn [mbind option_bind].
  destruct (_ =? 0x28400000) eqn:E1; [cbn [mbind option_bind]; by rewrite pair_refused|]. destruct (_ =? 0x38000000) eqn:E2; [|done]. by rewrite single_refused.
Qed.

Lemma redirect_is_load_witness :
  horizon_redirect_read sample_regs 0xf9400401 0x7ffe0000 sample_backing 16 = Some (true, execute (window_memory 0x7ffe0000 sample_backing) sample_regs sample_load).
Proof.
  destruct (redirect_is_load sample_regs 0xf9400401 0x7ffe0000 sample_backing ltac:(vm_compute; reflexivity) ltac:(vm_compute; reflexivity) ltac:(lia)) as [H _].
  apply (H sample_load); vm_compute; reflexivity.
Defined.

(** ** Any instruction *)

Lemma copy_value_there backing n : forall off, (off + n <= length backing)%nat -> is_Some (copy_value backing off n).
Proof. intros off H. rewrite (copy_value_is 0 backing n off H) by lia. by eexists. Qed.

Definition regs_there (regs : horizon_read_regs) : Prop := length (rr_x regs) = 31%nat /\ length (rr_v regs) = 32%nat.

Lemma set_x_there regs i v : regs_there regs -> 0 <= i < 31 -> exists regs', set_x regs i v = Some regs' /\ regs_there regs'.
Proof.
  intros [H1 H2] Hi. unfold set_x. destruct (lookup_lt_is_Some_2 (rr_x regs) (Z.to_nat i) ltac:(lia)) as [x ->]. eexists. split; [done|]. split; [|done]. simpl. by rewrite length_insert.
Qed.

Lemma load_target_there regs simd bytes sign backing off t : regs_there regs -> 0 <= t < 32 -> 0 <= bytes -> 0 <= off -> off + bytes <= Z.of_nat (length backing) -> exists regs', load_target regs simd bytes sign backing off t = Some regs' /\ regs_there regs'.
Proof.
  intros H Ht Hb Ho Hle. unfold load_target. destruct (copy_value_there backing (Z.to_nat bytes) (Z.to_nat off) ltac:(lia)) as [v ->]. cbn [mbind option_bind]. destruct simd.
  - destruct H as [H1 H2]. unfold set_v. destruct (lookup_lt_is_Some_2 (rr_v regs) (Z.to_nat t) ltac:(lia)) as [x ->]. eexists. split; [done|]. split; [done|]. simpl. by rewrite length_insert.
  - destruct (Z.eqb_spec t 31); [by exists regs|]. apply set_x_there; [done|lia].
Qed.

Lemma load_targets_there simd bytes sign backing targets : forall regs off, regs_there regs -> Forall (fun t => 0 <= t < 32) targets -> 0 <= bytes -> 0 <= off -> off + bytes * Z.of_nat (length targets) <= Z.of_nat (length backing) ->
  exists regs', load_targets regs simd bytes sign backing off targets = Some regs' /\ regs_there regs'.
Proof.
  induction targets as [|t targets IH]; intros regs off H Ht Hb Ho Hle; [by exists regs|]. apply Forall_cons in Ht as [Ht Hts]. simpl length in Hle. cbn [load_targets].
  destruct (load_target_there regs simd bytes sign backing off t H Ht Hb Ho ltac:(nia)) as (regs1 & -> & H1). cbn [mbind option_bind]. apply IH; [done..|lia|nia].
Qed.

Lemma access_total regs insn base a window backing : regs_there regs -> (1 <= ac_count a <= 2)%nat -> 0 <= ac_bytes a -> exists b regs', redirect_access regs insn base a window backing (Z.of_nat (length backing)) = Some (b, regs') /\ (b = false -> regs' = regs).
Proof.
  intros H Hc Hb. unfold redirect_access. pose proof (u64_range (ac_address a - window)) as Hoff. set (off := u64 (ac_address a - window)) in *. clearbody off. unfold is_u64 in Hoff.
  destruct (_ || _) eqn:E; [by exists false, regs|]. apply orb_false_iff in E as [E1 E2]. apply Z.leb_gt in E1. apply Z.ltb_ge in E2.
  assert (Forall (fun t => 0 <= t < 32) [insn_t insn; insn_t2 insn]) as Ht.
  { repeat constructor; unfold insn_t, insn_t2; change 31 with (Z.ones 5); try apply (small_field insn 10 5); try lia; rewrite Z.land_ones by lia; apply Z.mod_pos_bound; lia. }
  destruct (load_targets_there (insn_simd insn) (ac_bytes a) (ac_sign a) backing (take (ac_count a) [insn_t insn; insn_t2 insn]) regs off H) as (regs1 & -> & H1); [by apply Forall_take|done|lia|rewrite length_take; simpl length; rewrite Nat.min_l by lia; lia|]. cbn [mbind option_bind].
  destruct (ac_writeback a); [|cbn [mbind option_bind]; by eexists true, _]. pose proof (small_field insn 5 5 ltac:(lia) ltac:(lia)) as Hn. change (Z.ones 5) with 31 in Hn. fold (insn_n insn) in Hn. unfold write_base. destruct (Z.eqb_spec (insn_n insn) 31); [by eexists true, _|].
  destruct (set_x_there regs1 (insn_n insn) (u64 (base + ac_imm a)) H1) as (regs2 & -> & _); [lia|]. by eexists true, _.
Qed.

Lemma single_bytes_nonneg insn bytes sign : 0 <= insn -> single_bytes insn = Some (bytes, sign) -> 0 <= bytes.
Proof.
  intros Hi. unfold single_bytes. assert (0 <= Z.shiftl 1 (Z.shiftr insn 30)) by (by apply Z.shiftl_nonneg). repeat case_if; intros [= <- _]; lia.
Qed.

Lemma single_total regs insn base : regs_there regs -> 0 <= insn -> exists r, redirect_single regs insn base = Some r /\ forall a, r = Some a -> ac_count a = 1%nat /\ 0 <= ac_bytes a.
Proof.
  intros [H _] Hi. unfold redirect_single. destruct (single_bytes insn) as [[bytes sign]|] eqn:E; [|by exists None]. pose proof (single_bytes_nonneg insn bytes sign Hi E) as Hb.
  assert (forall r : option read_access, (forall a, r = Some a -> ac_count a = 1%nat /\ 0 <= ac_bytes a) -> exists r', Some r = Some r' /\ forall a, r' = Some a -> ac_count a = 1%nat /\ 0 <= ac_bytes a) as Hr by (intros r Ha; by exists r).
  destruct (nonzero _); [apply Hr; by intros a [= <-]|]. destruct (negb _); [repeat case_if; apply Hr; try done; by intros a [= <-]|]. destruct (_ =? 2); [|by apply Hr]. pose proof (small_field insn 16 5 ltac:(lia) ltac:(lia)) as Hm. change (Z.ones 5) with 31 in Hm. set (m := Z.land _ 31) in *.
  assert (exists x, (if m =? 31 then Some 0 else rr_x regs !! Z.to_nat m) = Some x) as [x ->] by (destruct (Z.eqb_spec m 31); [by exists 0|apply lookup_lt_is_Some_2; lia]). cbn [mbind option_bind]. apply Hr. destruct (register_index _ _ _); [by intros a [= <-]|done].
Qed.

Lemma pair_total insn base a : 0 <= insn -> redirect_pair insn base = Some a -> ac_count a = 2%nat /\ 0 <= ac_bytes a.
Proof. intros Hi. unfold redirect_pair. assert (0 <= Z.shiftl 4 (Z.shiftr insn 30)) by (by apply Z.shiftl_nonneg). cbn zeta. destruct (_ || _ || _); [done|]. destruct (_ && _ && _ && _); [done|]. intros E. apply (inj Some) in E. rewrite <- E. cbn [ac_count ac_bytes]. split; [done|]. destruct (insn_simd insn); [done|]. by destruct (_ =? 2). Qed.

(** Whatever the instruction, the emulation returns: it reads no byte outside
    the memory behind the window and no register that is not there, and when it
    refuses the instruction the registers are as they were. *)
Theorem redirect_total regs insn window backing :
  regs_valid regs = true -> 0 <= insn -> exists b regs', horizon_redirect_read regs insn window backing (Z.of_nat (length backing)) = Some (b, regs') /\ (b = false -> regs' = regs).
Proof.
  intros HR Hi. destruct (regs_valid_spec regs HR) as (Hlx & Hlv & _). assert (regs_there regs) as H by done. unfold horizon_redirect_read. pose proof (small_field insn 5 5 ltac:(lia) ltac:(lia)) as Hn. change (Z.ones 5) with 31 in Hn. fold (insn_n insn) in Hn.
  rewrite (base_lookup regs _ Hlx Hn). cbn [mbind option_bind]. destruct (_ =? 0x28400000).
  - cbn [mbind option_bind]. destruct (redirect_pair insn _) as [a|] eqn:E; [|by exists false, regs]. apply pair_total in E as [Hc Hb]; [|done]. apply access_total; [done|lia|done].
  - destruct (_ =? 0x38000000); [|by exists false, regs]. destruct (single_total regs insn (reg_base regs (insn_n insn)) H Hi) as (r & -> & Hr). cbn [mbind option_bind]. destruct r as [a|]; [|by exists false, regs]. destruct (Hr a eq_refl) as [Hc Hb]. apply access_total; [done|lia|done].
Qed.

Lemma redirect_total_witness : exists b regs', horizon_redirect_read sample_regs 0xd503201f 0x7ffe0000 sample_backing 16 = Some (b, regs') /\ (b = false -> regs' = sample_regs).
Proof. apply (redirect_total sample_regs 0xd503201f 0x7ffe0000 sample_backing); [vm_compute; reflexivity|lia]. Defined.
