(* ===== verification/FileAccess.v ===== *)
(** * Access and sharing of files

    [horizon_file_access.h], and what [horizon.c] does with it when a file is
    opened: how access rights map to the flags of [open], when an open is refused
    because of the handles a file already has, what a rename or a disposition
    does, and paths. A path is its characters, without the final zero. *)
From S2P Require Import Prelude.
Local Open Scope Z_scope.

(** ** The code *)

Definition horizon_file_map_access (access : Z) : Z :=
  let mapped := Z.land access 0x0fffffff in
  let mapped := if nonzero (Z.land access 0x80000000) then Z.lor mapped 0x00120089 else mapped in
  let mapped := if nonzero (Z.land access 0x40000000) then Z.lor mapped 0x00120116 else mapped in
  let mapped := if nonzero (Z.land access 0x20000000) then Z.lor mapped 0x001200a0 else mapped in
  if nonzero (Z.land access 0x10000000) then Z.lor mapped 0x001f01ff else mapped.

Definition horizon_file_sharing_violation (existing_access existing_sharing access sharing : Z) : bool :=
  let read := 0x0021 in
  let write := 0x0006 in
  let del := 0x00010000 in
  let none (x y : Z) := negb (nonzero (Z.land x y)) in
  let some (x y : Z) := nonzero (Z.land x y) in
  if (some access read && none existing_sharing 1) || (some access write && none existing_sharing 2) || (some access del && none existing_sharing 4) then true else
  if none access (Z.lor (Z.lor read write) del) then false else
  (some existing_access read && none sharing 1) || (some existing_access write && none sharing 2) || (some existing_access del && none sharing 4).

(** The flags of [open]. *)
Inductive open_mode := O_RDONLY | O_WRONLY | O_RDWR.
Record open_flags := mk_flags { fl_mode : open_mode; fl_append : bool; fl_creat : bool; fl_excl : bool; fl_trunc : bool }.

Definition horizon_file_access_mode (access : Z) : open_flags :=
  let mapped := horizon_file_map_access access in
  let read := nonzero (Z.land mapped 1) in
  let write := nonzero (Z.land mapped 6) in
  mk_flags (if read && write then O_RDWR else if write then O_WRONLY else O_RDONLY) (nonzero (Z.land mapped 4) && negb (nonzero (Z.land mapped 2))) false false false.

Inductive file_disposition := FILE_CREATE | FILE_OPEN | FILE_OPEN_IF | FILE_OVERWRITE | FILE_OVERWRITE_IF | FILE_SUPERSEDE | FILE_DISPOSITION_BAD.

Definition horizon_server_file_open_flags (access : Z) (create : file_disposition) : Z * open_flags :=
  let f := horizon_file_access_mode access in
  match create with
  | FILE_CREATE => (0, mk_flags (fl_mode f) (fl_append f) true true (fl_trunc f))
  | FILE_OPEN => (0, f)
  | FILE_OPEN_IF => (0, mk_flags (fl_mode f) (fl_append f) true (fl_excl f) (fl_trunc f))
  | FILE_OVERWRITE => (0, mk_flags (fl_mode f) (fl_append f) (fl_creat f) (fl_excl f) true)
  | FILE_OVERWRITE_IF | FILE_SUPERSEDE => (0, mk_flags (fl_mode f) (fl_append f) true (fl_excl f) true)
  | FILE_DISPOSITION_BAD => (0xc000000d, f)
  end.

Definition horizon_directory_open_status (options : Z) (flags : open_flags) : Z :=
  if nonzero (Z.land options 0x40) then 0xc00000ba else if fl_excl flags || fl_trunc flags then 0xc0000035 else 0.

(** The options after, and whether the file goes at its last close. *)
Definition horizon_disposition_update (options flags : Z) : Z * bool :=
  let options := if nonzero (Z.land flags 8) then Z.ldiff options 0x1000 else options in
  (options, nonzero (Z.land flags 1) || nonzero (Z.land options 0x1000)).

Inductive horizon_rename_action := HORIZON_RENAME_MOVE | HORIZON_RENAME_REPLACE | HORIZON_RENAME_NOTHING.

Definition horizon_rename_check (target_exists same_file target_is_dir target_open : bool) (flags : Z) : Z * horizon_rename_action :=
  if negb target_exists then (0, HORIZON_RENAME_MOVE) else
  if same_file then (0, HORIZON_RENAME_NOTHING) else
  if negb (nonzero (Z.land flags 1)) then (0xc0000035, HORIZON_RENAME_MOVE) else
  if target_is_dir || target_open then (0xc0000022, HORIZON_RENAME_MOVE) else (0, HORIZON_RENAME_REPLACE).

Definition horizon_dir_scan_end_status (first_query : bool) : Z := if first_query then 0xc000000f else 0x80000006.

Definition is_slash (c : Z) : bool := c =? 47.

(** The loops over the end of [dir], on its characters from the last to the
    first: slashes but the one of a device root, and the name of the last
    component. *)
Fixpoint strip_slashes (rdir : list Z) : list Z :=
  match rdir with
  | c :: ((d :: _) as rest) => if is_slash c && negb (d =? 58) then strip_slashes rest else rdir
  | _ => rdir
  end.

Fixpoint strip_name (rdir : list Z) : list Z :=
  match rdir with
  | [] => []
  | c :: rest => if is_slash c then rdir else strip_name rest
  end.

Definition horizon_dir_entry_path (dir name : list Z) : list Z :=
  let rdir := strip_slashes (reverse dir) in
  let '(rdir, name) :=
    if bool_decide (name = [46; 46]) then
      let parent := strip_slashes (strip_name rdir) in
      (if bool_decide (parent = []) then rdir else parent, [])
    else if bool_decide (name = [46]) then (rdir, [])
    else (rdir, name) in
  let slash := match name, rdir with
               | _ :: _, c :: _ => if is_slash c then [] else [47]
               | _, _ => []
               end in
  reverse rdir ++ slash ++ name.

(** [while (a[0] == '/' && (a[1] == '/' || !a[1])) a++;] *)
Fixpoint skip_path_slashes (a : list Z) : list Z :=
  match a with
  | [] => []
  | c :: rest => if is_slash c && (match rest with [] => true | d :: _ => is_slash d end) then skip_path_slashes rest else a
  end.

Definition lower_char (c : Z) : Z := if (65 <=? c) && (c <=? 90) then c + 32 else c.

(** The loop: a turn takes a character of each path. *)
Fixpoint path_equal_loop (fuel : nat) (a b : list Z) : option bool :=
  match fuel with
  | O => None
  | S fuel =>
      match skip_path_slashes a, skip_path_slashes b with
      | [], [] => Some true
      | ca :: a, cb :: b => if lower_char ca =? lower_char cb then path_equal_loop fuel a b else Some false
      | _, _ => Some false
      end
  end.

Definition horizon_unix_path_equal (a b : list Z) : option bool := path_equal_loop (S (length a)) a b.

(** ** Opening files

    A file handle: its path, its mapped access and what it shares. *)
Record shared_file := mk_shared { sf_name : list Z; sf_access : Z; sf_sharing : Z }.

(** The loop of [horizon_server_handle_create_file] over the open handles. *)
Fixpoint existing_files (files : list shared_file) (filename : list Z) (access sharing : Z) : option (Z * Z) :=
  match files with
  | [] => Some (access, sharing)
  | f :: files =>
      same ← horizon_unix_path_equal (sf_name f) filename;
      if same : bool then existing_files files filename (Z.lor access (sf_access f)) (Z.land sharing (sf_sharing f)) else existing_files files filename access sharing
  end.

(** The check under the lock; [true] is a sharing violation. *)
Definition create_file_check (files : list shared_file) (filename : list Z) (access sharing : Z) : option bool :=
  '(existing_access, existing_sharing) ← existing_files files filename 0 7;
  Some (horizon_file_sharing_violation existing_access existing_sharing (horizon_file_map_access access) sharing).

(** The new handle, made under the lock again once the file is open. *)
Definition create_file_enter (files : list shared_file) (filename : list Z) (access sharing : Z) : list shared_file :=
  mk_shared filename (horizon_file_map_access access) sharing :: files.

(** An open with no other one between its check and its handle. *)
Definition create_file_sharing (files : list shared_file) (filename : list Z) (access sharing : Z) : option (bool * list shared_file) :=
  refused ← create_file_check files filename access sharing;
  Some (if refused : bool then (false, files) else (true, create_file_enter files filename access sharing)).

(** ** Renaming files

    The loop of [horizon_server_handle_set_fd_name_info] over the other files:
    whether one has the name of the file, and whether one has the target's. *)
Fixpoint rename_scan (others : list shared_file) (name target : list Z) (target_open : bool) : option (bool * bool) :=
  match others with
  | [] => Some (false, target_open)
  | other :: others =>
      same ← horizon_unix_path_equal (sf_name other) name;
      if same : bool then Some (true, target_open) else
      onto ← horizon_unix_path_equal (sf_name other) target;
      rename_scan others name target (if onto : bool then true else target_open)
  end.

(** What [stat] says of the target. *)
Inductive stat_result := Stat_found (is_dir : bool) | Stat_eio | Stat_none.

(** The rename of file [i], under the lock: [io] is the status of a failure of
    [unlink], [rename] or [strdup]. A file that cannot be opened again has no
    descriptor any more, which is a close here. *)
Definition rename_file (files : list shared_file) (i : nat) (target : list Z) (st : stat_result) (flags : Z) (io : option Z) : option (Z * list shared_file) :=
  object ← files !! i;
  '(shared, target_open) ← rename_scan (delete i files) (sf_name object) target false;
  if shared : bool then Some (0xc0000043, files) else
  let '(target_exists, target_is_dir, target_open) :=
    match st with
    | Stat_found is_dir => (true, is_dir, target_open)
    | Stat_eio => (true, false, true)
    | Stat_none => (false, false, target_open)
    end in
  same_file ← horizon_unix_path_equal (sf_name object) target;
  let '(status, action) := horizon_rename_check target_exists same_file target_is_dir target_open flags in
  if nonzero status then Some (status, files) else
  Some (match action, io with
        | HORIZON_RENAME_NOTHING, _ => (0, files)
        | _, Some error => (error, files)
        | _, None => (0, <[i := mk_shared target (sf_access object) (sf_sharing object)]> files)
        end).

(** ** Paths by their components *)

(** The names between the slashes. *)
Fixpoint components (a : list Z) : list (list Z) :=
  match a with
  | [] => []
  | c :: rest =>
      if is_slash c then components rest else
      match rest with
      | [] => [[c]]
      | d :: _ => if is_slash d then [c] :: components rest else match components rest with w :: ws => (c :: w) :: ws | [] => [[c]] end
      end
  end.

Definition lowered (a : list Z) : list Z := lower_char <$> a.

(** Whether a slash comes before the first name. *)
Definition rooted (a : list Z) : bool := match a with c :: _ => is_slash c && negb (bool_decide (components a = [])) | [] => false end.

(** Paths that name the same file: the same names, whatever their case, and the
    same start. *)
Definition same_path (a b : list Z) : bool := bool_decide (components (lowered a) = components (lowered b)) && bool_decide (rooted a = rooted b).

(** What the loop compares. *)
Fixpoint canon (a : list Z) : list Z :=
  match a with
  | [] => []
  | c :: rest => if is_slash c && (match rest with [] => true | d :: _ => is_slash d end) then canon rest else lower_char c :: canon rest
  end.

Lemma slash_lower c : is_slash (lower_char c) = is_slash c.
Proof. unfold is_slash, lower_char. destruct (Z.leb_spec 65 c), (Z.leb_spec c 90); simpl; try done. destruct (Z.eqb_spec (c + 32) 47), (Z.eqb_spec c 47); lia || done. Qed.

Lemma canon_skip_slashes a : canon a = match skip_path_slashes a with [] => [] | c :: rest => lower_char c :: canon rest end.
Proof. induction a as [|c a IH]; [done|]. cbn [canon skip_path_slashes]. by destruct (is_slash c && _). Qed.

Lemma skip_length a : (length (skip_path_slashes a) <= length a)%nat.
Proof. induction a as [|c a IH]; [done|]. cbn [skip_path_slashes]. destruct (is_slash c && _); simpl; lia. Qed.

Lemma path_equal_canon fuel : forall a b, (length a < fuel)%nat -> path_equal_loop fuel a b = Some (bool_decide (canon a = canon b)).
Proof.
  induction fuel as [|fuel IH]; intros a b Hf; [lia|]. cbn [path_equal_loop]. rewrite (canon_skip_slashes a), (canon_skip_slashes b). pose proof (skip_length a) as Hl. destruct (skip_path_slashes a) as [|ca a'], (skip_path_slashes b) as [|cb b']; try done. simpl in Hl.
  destruct (Z.eqb_spec (lower_char ca) (lower_char cb)) as [E|E].
  - rewrite IH by lia. rewrite E. f_equal. apply bool_decide_ext. split; [by intros -> | by intros [= ->]].
  - rewrite bool_decide_eq_false_2; [done|]. by intros [= ? _].
Qed.

Lemma canon_start c rest : is_slash c = false -> canon (c :: rest) = lower_char c :: canon rest.
Proof. intros H. cbn [canon]. by rewrite H. Qed.

Lemma canon_slash rest : match rest with [] => true | d :: _ => is_slash d end = true -> canon rest = [] \/ exists x, canon rest = 47 :: x.
Proof.
  induction rest as [|d rest IH]; [by left|]. intros Hd. cbn [canon]. rewrite Hd. destruct (match rest with [] => true | d :: _ => is_slash d end) eqn:E; cbn [andb]; [by apply IH|]. right. exists (canon rest). f_equal. unfold is_slash in Hd. by apply Z.eqb_eq in Hd as ->.
Qed.

Lemma components_nonempty c rest : is_slash c = false -> components (c :: rest) <> [].
Proof. intros H. cbn [components]. rewrite H. destruct rest as [|d rest]; [done|]. destruct (is_slash d); [done|]. by destruct (components (d :: rest)). Qed.

Lemma components_canon a : components (canon a) = components (lowered a).
Proof.
  induction a as [|c a IH]; [done|]. cbn [lowered fmap list_fmap]. change (lower_char <$> a) with (lowered a). cbn [canon components]. rewrite slash_lower. destruct (is_slash c) eqn:Hc; cbn [andb].
  - destruct (match a with [] => true | d :: _ => is_slash d end); [done|]. cbn [components]. by rewrite slash_lower, Hc.
  - cbn [components]. rewrite slash_lower, Hc. destruct a as [|d a]; [done|]. destruct (is_slash d) eqn:Hd.
    + assert (lowered (d :: a) = lower_char d :: lowered a) as El by done. rewrite El in *. rewrite slash_lower, Hd. destruct (canon_slash (d :: a) Hd) as [E|[x E]]; rewrite E in *.
      * by rewrite <- IH.
      * assert (is_slash 47 = true) as -> by done. by rewrite IH.
    + rewrite (canon_start d a Hd) in *. assert (lowered (d :: a) = lower_char d :: lowered a) as El by done. rewrite El in *. rewrite slash_lower, Hd. by rewrite IH.
Qed.

Lemma components_lowered_nil a : components (lowered a) = [] <-> components a = [].
Proof.
  induction a as [|c a IH]; [done|]. assert (lowered (c :: a) = lower_char c :: lowered a) as -> by done. destruct (is_slash c) eqn:Hc.
  - cbn [components]. by rewrite slash_lower, Hc.
  - split; intros H; exfalso; [by apply (components_nonempty (lower_char c) (lowered a)); [rewrite slash_lower|]|by apply (components_nonempty c a)].
Qed.

Lemma rooted_canon a : rooted (canon a) = rooted a.
Proof.
  induction a as [|c a IH]; [done|]. destruct (is_slash c) eqn:Hc.
  - cbn [canon]. rewrite Hc. cbn [andb]. destruct (match a with [] => true | d :: _ => is_slash d end) eqn:Hd.
    + rewrite IH. unfold rooted. cbn [components]. rewrite Hc. destruct a as [|d a]; [done|]. by rewrite Hd.
    + unfold rooted. rewrite slash_lower, Hc. cbn [andb components]. rewrite slash_lower, Hc, components_canon. do 2 f_equal. apply bool_decide_ext. apply components_lowered_nil.
  - rewrite (canon_start c a Hc). unfold rooted. by rewrite slash_lower, Hc.
Qed.

(** A path put together from its names. *)
Fixpoint join (ws : list (list Z)) : list Z := match ws with [] => [] | [w] => w | w :: ws => w ++ 47 :: join ws end.

Lemma canon_join a : canon a = (if rooted a then [47] else []) ++ join (components (lowered a)).
Proof.
  induction a as [|c a IH]; [done|]. assert (lowered (c :: a) = lower_char c :: lowered a) as -> by done. destruct (is_slash c) eqn:Hc.
  - cbn [canon components]. rewrite slash_lower, Hc. cbn [andb]. unfold rooted at 1. rewrite Hc. cbn [components andb]. rewrite Hc. destruct (match a with [] => true | d :: _ => is_slash d end) eqn:Hd.
    + rewrite IH. f_equal. unfold rooted. destruct a as [|d a]; [done|]. by rewrite Hd.
    + destruct a as [|d a]; [done|]. rewrite IH. unfold rooted. rewrite Hd. cbn [andb app]. rewrite bool_decide_eq_false_2 by (by apply components_nonempty). unfold is_slash in Hc. apply Z.eqb_eq in Hc as ->. done.
  - rewrite (canon_start c a Hc), IH. unfold rooted at 2. rewrite Hc. cbn [andb app components]. rewrite slash_lower, Hc. destruct a as [|d a]; [done|]. assert (lowered (d :: a) = lower_char d :: lowered a) as El by done. rewrite El. rewrite slash_lower. unfold rooted. destruct (is_slash d) eqn:Hd; cbn [andb].
    + destruct (components (lower_char d :: lowered a)) as [|w ws] eqn:Ew.
      * rewrite bool_decide_eq_true_2; [done|]. apply components_lowered_nil. by rewrite El.
      * rewrite bool_decide_eq_false_2; [done|]. intros H. apply components_lowered_nil in H. rewrite El in H. congruence.
    + destruct (components (lower_char d :: lowered a)) as [|w ws] eqn:Ew; [by apply components_nonempty in Ew; [|rewrite slash_lower]|]. destruct ws; done.
Qed.

(** Comparing two paths character by character is comparing their names: the
    paths are the same up to case, repeated and trailing slashes. *)
Theorem unix_path_equal_spec a b : horizon_unix_path_equal a b = Some (same_path a b).
Proof.
  unfold horizon_unix_path_equal. rewrite path_equal_canon by lia. f_equal. unfold same_path. destruct (bool_decide_reflect (canon a = canon b)) as [E|E].
  - rewrite <- !components_canon, <- (rooted_canon a), <- (rooted_canon b), E. by rewrite !bool_decide_eq_true_2.
  - symmetry. apply andb_false_iff. destruct (bool_decide_reflect (components (lowered a) = components (lowered b))) as [E1|E1]; [|by left]. right. apply bool_decide_eq_false_2. intros E2. apply E. by rewrite !canon_join, E1, E2.
Qed.

(** ** Sharing *)

(** Reading, writing and deleting: the rights of an access and the bit of
    sharing. *)
Definition rights : list (Z * Z) := [(0x21, 1); (0x06, 2); (0x10000, 4)].

Definition uses (f : shared_file) (r : Z * Z) : bool := nonzero (Z.land (sf_access f) (fst r)).
Definition shares (f : shared_file) (r : Z * Z) : bool := nonzero (Z.land (sf_sharing f) (snd r)).
Definition wants_data (f : shared_file) : bool := existsb (uses f) rights.

(** The rules of Windows: [new] may not use what [old] does not share and, when
    it asks for data, has to share what [old] uses. *)
Definition conflict (old new : shared_file) : bool :=
  existsb (fun r => uses new r && negb (shares old r)) rights || (wants_data new && existsb (fun r => uses old r && negb (shares new r)) rights).

Definition on_path (filename : list Z) (f : shared_file) : bool := same_path (sf_name f) filename.

Lemma nonzero_lor x y m : nonzero (Z.land (Z.lor x y) m) = nonzero (Z.land x m) || nonzero (Z.land y m).
Proof.
  rewrite Z.land_lor_distr_l. unfold nonzero. destruct (Z.eqb_spec (Z.lor (Z.land x m) (Z.land y m)) 0) as [E|E].
  - apply Z.lor_eq_0_iff in E as [-> ->]. done.
  - destruct (Z.eqb_spec (Z.land x m) 0) as [E1|]; [|done]. destruct (Z.eqb_spec (Z.land y m) 0) as [E2|]; [|done]. rewrite E1, E2 in E. done.
Qed.

Lemma nonzero_bit x k : 0 <= k -> nonzero (Z.land x (2 ^ k)) = Z.testbit x k.
Proof.
  intros Hk. unfold nonzero. destruct (Z.eqb_spec (Z.land x (2 ^ k)) 0) as [E|E].
  - symmetry. cbn [negb]. assert (Z.testbit (Z.land x (2 ^ k)) k = false) as H by (rewrite E; apply Z.testbit_0_l). rewrite Z.land_spec, Z.pow2_bits_true, andb_true_r in H by done. done.
  - cbn [negb]. symmetry. destruct (Z.testbit x k) eqn:H; [done|]. exfalso. apply E. apply Z.bits_inj'. intros i Hi. rewrite Z.land_spec, Z.testbit_0_l. destruct (Z.eq_dec i k) as [->|Hne]; [by rewrite H|]. by rewrite Z.pow2_bits_false, andb_false_r.
Qed.

Lemma nonzero_land_bit x y k : 0 <= k -> nonzero (Z.land (Z.land x y) (2 ^ k)) = nonzero (Z.land x (2 ^ k)) && nonzero (Z.land y (2 ^ k)).
Proof. intros Hk. rewrite !nonzero_bit by done. apply Z.land_spec. Qed.

Lemma existing_spec filename files : forall access sharing, exists a s, existing_files files filename access sharing = Some (a, s) /\
  forall r, r ∈ rights -> nonzero (Z.land a (fst r)) = nonzero (Z.land access (fst r)) || existsb (fun f => on_path filename f && uses f r) files /\
    nonzero (Z.land s (snd r)) = nonzero (Z.land sharing (snd r)) && negb (existsb (fun f => on_path filename f && negb (shares f r)) files).
Proof.
  induction files as [|f files IH]; intros access sharing; cbn [existing_files].
  - exists access, sharing. split; [done|]. intros r _. simpl. by rewrite orb_false_r, andb_true_r.
  - rewrite unix_path_equal_spec. cbn [mbind option_bind]. fold (on_path filename f). destruct (on_path filename f) eqn:Hp.
    + destruct (IH (Z.lor access (sf_access f)) (Z.land sharing (sf_sharing f))) as (a & s & -> & H). exists a, s. split; [done|]. intros r Hr. destruct (H r Hr) as [-> ->]. cbn [existsb]. rewrite Hp. cbn [andb]. split.
      * rewrite nonzero_lor. unfold uses at 2. by rewrite orb_assoc.
      * rewrite negb_orb, negb_involutive, andb_assoc. f_equal. unfold shares. assert (exists k, 0 <= k /\ snd r = 2 ^ k) as (k & Hk & ->) by (unfold rights in Hr; rewrite !elem_of_cons in Hr; destruct Hr as [-> | [-> | [-> | Hr]]]; [by exists 0|by exists 1|by exists 2|by apply elem_of_nil in Hr]). by apply nonzero_land_bit.
    + destruct (IH access sharing) as (a & s & -> & H). exists a, s. split; [done|]. intros r Hr. destruct (H r Hr) as [-> ->]. cbn [existsb]. rewrite Hp. done.
Qed.

Lemma nonzero_mask x m n : nonzero (Z.land x (Z.lor m n)) = nonzero (Z.land x m) || nonzero (Z.land x n).
Proof. rewrite !(Z.land_comm x). apply nonzero_lor. Qed.

Lemma conflict_spec old new : conflict old new = true <-> (exists r, In r rights /\ uses new r = true /\ shares old r = false) \/ (wants_data new = true /\ exists r, In r rights /\ uses old r = true /\ shares new r = false).
Proof. unfold conflict. rewrite orb_true_iff, andb_true_iff, !existsb_exists. setoid_rewrite andb_true_iff. setoid_rewrite negb_true_iff. done. Qed.

(** Opening a file is refused when a handle of it is in conflict with the new
    one, and only then; otherwise the handle is made. *)
Theorem create_file_sharing_exact files filename access sharing : let new := mk_shared filename (horizon_file_map_access access) sharing in
  create_file_sharing files filename access sharing = Some (if existsb (fun f => on_path filename f && conflict f new) files then (false, files) else (true, new :: files)).
Proof.
  cbn zeta. set (new := mk_shared filename (horizon_file_map_access access) sharing). unfold create_file_sharing, create_file_check, create_file_enter. fold new. destruct (existing_spec filename files 0 7) as (a & s & -> & H). cbn [mbind option_bind].
  assert (forall r, r ∈ rights -> nonzero (Z.land a (fst r)) = existsb (fun f => on_path filename f && uses f r) files /\ negb (nonzero (Z.land s (snd r))) = existsb (fun f => on_path filename f && negb (shares f r)) files) as H'.
  { intros r Hr. destruct (H r Hr) as [-> ->]. unfold rights in Hr. rewrite !elem_of_cons in Hr. destruct Hr as [-> | [-> | [-> | Hr]]]; [| | |by apply elem_of_nil in Hr]; simpl; by rewrite negb_involutive. }
  assert (horizon_file_sharing_violation a s (horizon_file_map_access access) sharing = existsb (fun r => uses new r && negb (nonzero (Z.land s (snd r)))) rights || (wants_data new && existsb (fun r => nonzero (Z.land a (fst r)) && negb (shares new r)) rights)) as ->.
  { unfold horizon_file_sharing_violation, wants_data, rights. cbn [existsb]. unfold uses, shares, new. cbn [sf_access sf_sharing fst snd]. rewrite !nonzero_mask. rewrite !orb_false_r, !orb_assoc.
    set (p := nonzero (Z.land (horizon_file_map_access access) 33)). set (q := nonzero (Z.land (horizon_file_map_access access) 6)). set (r := nonzero (Z.land (horizon_file_map_access access) 65536)).
    destruct (_ || _ || _) eqn:E; [done|]. cbn [orb]. by destruct p, q, r. }
  assert (existsb (fun r => uses new r && negb (nonzero (Z.land s (snd r)))) rights || (wants_data new && existsb (fun r => nonzero (Z.land a (fst r)) && negb (shares new r)) rights) = existsb (fun f => on_path filename f && conflict f new) files) as ->; [|by destruct (existsb _ _)].
  apply eq_iff_eq_true. rewrite orb_true_iff, andb_true_iff, !existsb_exists. split.
  - intros [(r & Hr & Hu)|(Hw & r & Hr & Hu)]; apply andb_true_iff in Hu as [H1 H2]; destruct (H' r (proj2 (list_elem_of_In _ _) Hr)) as [E1 E2].
    + rewrite E2 in H2. apply existsb_exists in H2 as (f & Hf & Hs). apply andb_true_iff in Hs as [Hp Hs]. exists f. split; [done|]. apply andb_true_iff. split; [done|]. apply conflict_spec. left. exists r. apply negb_true_iff in Hs. done.
    + rewrite E1 in H1. apply existsb_exists in H1 as (f & Hf & Hs). apply andb_true_iff in Hs as [Hp Hs]. exists f. split; [done|]. apply andb_true_iff. split; [done|]. apply conflict_spec. right. split; [done|]. exists r. apply negb_true_iff in H2. done.
  - intros (f & Hf & Hc). apply andb_true_iff in Hc as [Hp Hc]. apply conflict_spec in Hc as [(r & Hr & Hu & Hs)|(Hw & r & Hr & Hu & Hs)]; destruct (H' r (proj2 (list_elem_of_In _ _) Hr)) as [E1 E2].
    + left. exists r. split; [done|]. rewrite Hu, E2. apply existsb_exists. exists f. by rewrite Hp, Hs.
    + right. split; [done|]. exists r. split; [done|]. rewrite E1, Hs, andb_true_r. apply existsb_exists. exists f. by rewrite Hp, Hu.
Qed.

(** ** Files opened, renamed and closed

    Opens one after another; a file that is open is there. *)
Inductive files_reachable : list shared_file -> Prop :=
  | files_none : files_reachable []
  | files_open files filename access sharing b files' : files_reachable files -> create_file_sharing files filename access sharing = Some (b, files') -> files_reachable files'
  | files_rename files i target st flags io status files' : files_reachable files -> (existsb (on_path target) files = true -> st <> Stat_none) -> rename_file files i target st flags io = Some (status, files') -> files_reachable files'
  | files_close files i : files_reachable files -> files_reachable (delete i files).

(** No two of them, the newer one first, are in conflict. *)
Definition compatible (files : list shared_file) : Prop :=
  forall i j f g, (i < j)%nat -> files !! i = Some f -> files !! j = Some g -> same_path (sf_name f) (sf_name g) = true -> conflict g f = false.

Lemma same_path_sym a b : same_path a b = same_path b a.
Proof. unfold same_path. f_equal; apply bool_decide_ext; split; congruence. Qed.

Lemma compatible_delete files k : compatible files -> compatible (delete k files).
Proof.
  intros H i j f g Hlt Hi Hj. rewrite list_lookup_delete in Hi, Hj. revert Hi Hj. repeat case_decide; apply H; lia.
Qed.

Lemma compatible_open files new : compatible files -> existsb (fun f => on_path (sf_name new) f && conflict f new) files = false -> compatible (new :: files).
Proof.
  intros H Ex i j f g Hlt Hi Hj Hp. destruct j as [|j]; [lia|]. destruct i as [|i]; [|apply (H i j); done || lia]. injection Hi as <-. apply not_true_iff_false. intros Hc. apply not_true_iff_false in Ex. apply Ex. apply existsb_exists. exists g. split; [by apply list_elem_of_In, (list_elem_of_lookup_2 _ j)|]. unfold on_path. by rewrite same_path_sym, Hp, Hc.
Qed.

Lemma rename_scan_spec name target others : forall target_open, exists o, rename_scan others name target target_open = Some (existsb (on_path name) others, o) /\
  (existsb (on_path name) others = false -> o = target_open || existsb (on_path target) others).
Proof.
  induction others as [|f others IH]; intros target_open; cbn [rename_scan existsb]; [exists target_open; by rewrite orb_false_r|].
  rewrite !unix_path_equal_spec. cbn [mbind option_bind]. fold (on_path name f) (on_path target f). destruct (on_path name f); [by exists target_open|]. cbn [orb].
  destruct (IH (if on_path target f then true else target_open)) as (o & -> & H). exists o. split; [done|]. intros Hn. rewrite (H Hn). destruct (on_path target f), target_open; done.
Qed.

(** A file gets the name of the target when no other open file has it. *)
Lemma renamed_or_not files i target st flags io status files' : (existsb (on_path target) files = true -> st <> Stat_none) -> rename_file files i target st flags io = Some (status, files') ->
  files' = files \/ exists f, files !! i = Some f /\ files' = <[i := mk_shared target (sf_access f) (sf_sharing f)]> files /\ existsb (on_path target) (delete i files) = false.
Proof.
  intros Hst E. unfold rename_file in E. destruct (files !! i) as [f|] eqn:Hi; [|done]. cbn [mbind option_bind] in E. destruct (rename_scan_spec (sf_name f) target (delete i files) false) as (o & E1 & Ho). rewrite E1 in E. cbn [mbind option_bind] in E. clear E1.
  destruct (existsb (on_path (sf_name f)) (delete i files)); [injection E as _ <-; by left|]. specialize (Ho eq_refl). cbn [orb] in Ho. rewrite unix_path_equal_spec in E.
  assert (o = true -> st <> Stat_none) as Ho'.
  { intros ->. apply Hst. symmetry in Ho. apply existsb_exists in Ho as (g & Hg & Hp). apply existsb_exists. exists g. split; [|done]. apply list_elem_of_In. apply list_elem_of_In in Hg. by eapply list_elem_of_delete_inv. }
  destruct io as [error|].
  - left. destruct st as [d| |]; cbn [mbind option_bind] in E; destruct (horizon_rename_check _ _ _ _ _) as [s a]; destruct (nonzero s), a; injection E as _ <-; done.
  - destruct o.
    + left. destruct st as [d| |]; [| |by destruct (Ho' eq_refl)]; cbn [mbind option_bind] in E; unfold horizon_rename_check in E; cbn [negb] in E; rewrite ?orb_true_r in E; destruct (same_path _ _), (nonzero (Z.land flags 1)); injection E as _ <-; done.
    + destruct st as [d| |]; cbn [mbind option_bind] in E; destruct (horizon_rename_check _ _ _ _ _) as [s a]; destruct (nonzero s), a; injection E as _ <-; (by left) || (right; by exists f).
Qed.

Lemma compatible_rename files i target f : compatible files -> existsb (on_path target) (delete i files) = false -> files !! i = Some f -> compatible (<[i := mk_shared target (sf_access f) (sf_sharing f)]> files).
Proof.
  intros H Hn Hi. assert (forall k g, k <> i -> files !! k = Some g -> same_path (sf_name g) target = false) as Hk.
  { intros k g Hne Hg. apply not_true_iff_false. intros Hp. apply not_true_iff_false in Hn. apply Hn. apply existsb_exists. exists g. split; [|done]. apply list_elem_of_In. apply (list_elem_of_lookup_2 _ (if decide (k < i)%nat then k else (k - 1)%nat)). case_decide as Hlt; [by rewrite list_lookup_delete_lt|]. rewrite list_lookup_delete_ge by lia. by replace (S (k - 1)) with k by lia. }
  intros a b x y Hlt Ha Hb Hp. destruct (decide (a = i)) as [->|Hai]; [|destruct (decide (b = i)) as [->|Hbi]].
  - rewrite list_lookup_insert_ne in Hb by lia. apply list_lookup_insert_Some in Ha as [(_ & <- & _)|[? _]]; [|done]. cbn [sf_name] in Hp. rewrite same_path_sym, (Hk b y) in Hp; [done|lia|done].
  - rewrite list_lookup_insert_ne in Ha by lia. apply list_lookup_insert_Some in Hb as [(_ & <- & _)|[? _]]; [|done]. cbn [sf_name] in Hp. by rewrite (Hk a x) in Hp.
  - rewrite list_lookup_insert_ne in Ha, Hb by lia. by apply (H a b).
Qed.

Lemma reachable_compatible files : files_reachable files -> compatible files.
Proof.
  induction 1 as [|files filename access sharing b files' _ IH E|files i target st flags io status files' _ IH Hst E|files i _ IH].
  - intros i j f g _ Hi. done.
  - rewrite create_file_sharing_exact in E. cbn zeta in E. destruct (existsb _ _) eqn:Ex; injection E as _ <-; [done|]. by apply compatible_open.
  - destruct (renamed_or_not _ _ _ _ _ _ _ _ Hst E) as [-> | (f & Hf & -> & Hn)]; [done|]. by apply compatible_rename.
  - by apply compatible_delete.
Qed.

(** C37: whatever files are opened one after another, renamed and closed, two open
    files of one path that ask for data respect each other: what one reads, writes
    or deletes the other shares, however their paths are spelled. *)
Theorem sharing_respected files i j f g r :
  files_reachable files -> i <> j -> files !! i = Some f -> files !! j = Some g -> same_path (sf_name f) (sf_name g) = true -> wants_data g = true -> In r rights -> uses f r = true -> shares g r = true.
Proof.
  intros R Hne Hi Hj Hp Hw Hr Hu. apply reachable_compatible in R. apply not_false_iff_true. intros Hs. destruct (decide (i < j)%nat) as [Hlt|Hge].
  - specialize (R i j f g Hlt Hi Hj Hp). apply not_true_iff_false in R. apply R, conflict_spec. left. by exists r.
  - assert (conflict f g = false) as Hc by (apply (R j i); [lia|done|done|by rewrite same_path_sym]). apply not_true_iff_false in Hc. apply Hc, conflict_spec. right. split; [done|]. by exists r.
Qed.

(** "a/B" and "A//b/", both to read, both sharing reads. *)
Definition sample_files : list shared_file := [mk_shared [65; 47; 47; 98; 47] 0x120089 1; mk_shared [97; 47; 66] 0x120089 3].

Lemma sample_files_reachable : files_reachable sample_files.
Proof. apply (files_open [mk_shared [97; 47; 66] 0x120089 3] [65; 47; 47; 98; 47] 0x80000000 1 true); [|reflexivity]. apply (files_open [] [97; 47; 66] 0x80000000 3 true); [apply files_none|reflexivity]. Qed.

Lemma sharing_respected_witness : shares (mk_shared [97; 47; 66] 0x120089 3) (0x21, 1) = true.
Proof. apply (sharing_respected sample_files 0 1 (mk_shared [65; 47; 47; 98; 47] 0x120089 1) _ _ sample_files_reachable); [lia|reflexivity|reflexivity|reflexivity|reflexivity|left; reflexivity|reflexivity]. Defined.

(** ** Opens at the same time

    The lock is given up between the check of an open and its handle, so the
    opens that have passed their checks are part of the state. *)
Inductive files_running : list shared_file -> list shared_file -> Prop :=
  | running_none : files_running [] []
  | running_check files checked filename access sharing : files_running files checked -> create_file_check files filename access sharing = Some false -> files_running files (mk_shared filename access sharing :: checked)
  | running_enter files checked i new : files_running files checked -> checked !! i = Some new -> files_running (create_file_enter files (sf_name new) (sf_access new) (sf_sharing new)) (delete i checked)
  | running_close files checked i : files_running files checked -> files_running (delete i files) checked.

(** Two opens of one file, both to read and to share nothing, can both succeed. *)
Theorem sharing_check_race : exists files f g, files_running files [] /\ files !! 0%nat = Some f /\ files !! 1%nat = Some g /\ same_path (sf_name f) (sf_name g) = true /\ conflict g f = true.
Proof.
  set (new := mk_shared [97] 0x80000000 0). set (old := mk_shared [97] (horizon_file_map_access 0x80000000) 0). exists [old; old], old, old. split; [|vm_compute; done].
  assert (files_running [] [new; new]) as R by (do 2 (apply running_check; [|reflexivity]); apply running_none).
  apply (running_enter [old] [new] 0 new); [|done]. by apply (running_enter [] [new; new] 0 new).
Qed.

(** ** Entries of directories *)

Lemma components_app_slash a b : components (a ++ 47 :: b) = components a ++ components b.
Proof.
  induction a as [|c a IH]; [done|]. cbn [app components]. destruct (is_slash c); [done|]. destruct a as [|d a]; cbn [app]; [done|]. cbn [app] in IH. rewrite IH. destruct (is_slash d) eqn:Hd; [done|]. destruct (components (d :: a)) eqn:E; [by apply components_nonempty in E|done].
Qed.

Lemma components_name name : name <> [] -> Forall (fun c => is_slash c = false) name -> components name = [name].
Proof.
  induction name as [|c name IH]; [done|]. intros _ H. apply Forall_cons in H as [Hc H]. cbn [components]. rewrite Hc. destruct name as [|d name]; [done|]. apply Forall_cons in H as [Hd H]. rewrite Hd. rewrite IH; [done|done|by constructor].
Qed.

Lemma components_end a : components (a ++ [47]) = components a.
Proof. by rewrite components_app_slash, app_nil_r. Qed.

Lemma slash_char c : is_slash c = true -> c = 47.
Proof. unfold is_slash. apply Z.eqb_eq. Qed.

Lemma strip_slashes_components r : components (reverse (strip_slashes r)) = components (reverse r).
Proof.
  induction r as [|c r IH]; [done|]. cbn [strip_slashes]. destruct r as [|d r]; [done|]. destruct (is_slash c) eqn:Hc; [|done]. cbn [andb]. destruct (negb (d =? 58)); [|done]. rewrite IH. rewrite (reverse_cons (d :: r)). apply slash_char in Hc as ->. by rewrite components_end.
Qed.

(** The path of an entry has the names of the directory and its own, after
    whatever slashes the directory ends with. *)
Theorem dir_entry_path_names dir name : name <> [] -> Forall (fun c => is_slash c = false) name -> name <> [46] -> name <> [46; 46] -> components (horizon_dir_entry_path dir name) = components dir ++ [name].
Proof.
  intros Hne Hn H1 H2. unfold horizon_dir_entry_path. rewrite !bool_decide_eq_false_2 by done. assert (components dir = components (reverse (strip_slashes (reverse dir)))) as -> by (by rewrite strip_slashes_components, reverse_involutive). destruct name as [|x name]; [done|].
  destruct (strip_slashes (reverse dir)) as [|c r]; cbn [app]; [by apply components_name|]. destruct (is_slash c) eqn:Hc.
  - apply slash_char in Hc as ->. rewrite reverse_cons, <- app_assoc. cbn [app]. rewrite components_app_slash, components_end. f_equal. by apply components_name.
  - cbn [app]. rewrite components_app_slash. f_equal. by apply components_name.
Qed.

Lemma dir_entry_path_names_witness : components (horizon_dir_entry_path [115; 58; 47; 97; 47; 47] [98]) = [[115; 58]; [97]; [98]].
Proof. apply (dir_entry_path_names [115; 58; 47; 97; 47; 47] [98]); [done|by repeat constructor|done|done]. Defined.

Lemma dir_entry_parent : horizon_dir_entry_path [115; 58; 47; 97; 47; 98] [46; 46] = [115; 58; 47; 97] /\ horizon_dir_entry_path [115; 58; 47; 97] [46; 46] = [115; 58; 47] /\ horizon_dir_entry_path [115; 58; 47] [46; 46] = [115; 58; 47].
Proof. done. Qed.
