(* ===== verification/ObjectDirs.v ===== *)
(** * Directories of objects

    [horizon_object_dirs.h]: the directories of object names programs can open,
    and the pages in which a directory lists its entries. Names are UTF-16 bytes,
    the lowest byte first. *)
From S2P Require Import Prelude.
Local Open Scope Z_scope.

(** ** The code *)

Inductive horizon_object_dir := HORIZON_OBJECT_DIR_NONE | HORIZON_OBJECT_DIR_DOS_DEVICES | HORIZON_OBJECT_DIR_NAMED_OBJECTS.

#[export] Instance object_dir_eq_dec : EqDecision horizon_object_dir.
Proof. solve_decision. Defined.

Definition HORIZON_OBJECT_DIR_STATUS_SUCCESS : Z := 0.
Definition HORIZON_OBJECT_DIR_STATUS_MORE_ENTRIES : Z := 0x105.
Definition HORIZON_OBJECT_DIR_STATUS_NO_MORE_ENTRIES : Z := 0x8000001a.

Definition upper (c : Z) : Z := if (97 <=? c) && (c <=? 122) then c - 32 else c.

(** [while (pos < len && !name[pos + 1] && name[pos] is a digit) pos += 2;] *)
Fixpoint skip_digits (name : list Z) : list Z :=
  match name with
  | lo :: hi :: rest => if (hi =? 0) && (48 <=? lo) && (lo <=? 57) then skip_digits rest else name
  | _ => name
  end.

Fixpoint path_is_loop (name path : list Z) : bool :=
  match path with
  | [] => bool_decide (name = [])
  | want :: path =>
      if want =? 35 then
        let rest := skip_digits name in
        if (length rest =? length name)%nat then false else path_is_loop rest path
      else
        match name with
        | lo :: hi :: rest => if upper (Z.lor lo (Z.shiftl hi 8)) =? upper want then path_is_loop rest path else false
        | _ => false
        end
  end.

Definition horizon_object_dir_path_is (name path : list Z) : bool :=
  if nonzero (Z.of_nat (length name) `mod` 2) then false else path_is_loop name path.

(** "\??", "\DosDevices", "\GLOBAL??", "\BaseNamedObjects" and
    "\Sessions\#\BaseNamedObjects". *)
Definition path_dos : list Z := [92; 63; 63].
Definition path_dos_devices : list Z := [92; 68; 111; 115; 68; 101; 118; 105; 99; 101; 115].
Definition path_global : list Z := [92; 71; 76; 79; 66; 65; 76; 63; 63].
Definition path_named : list Z := [92; 66; 97; 115; 101; 78; 97; 109; 101; 100; 79; 98; 106; 101; 99; 116; 115].
Definition path_session : list Z := [92; 83; 101; 115; 115; 105; 111; 110; 115; 92; 35] ++ path_named.

Definition horizon_object_dir_from_path (name : list Z) : horizon_object_dir :=
  if horizon_object_dir_path_is name path_dos || horizon_object_dir_path_is name path_dos_devices || horizon_object_dir_path_is name path_global then HORIZON_OBJECT_DIR_DOS_DEVICES
  else if horizon_object_dir_path_is name path_named || horizon_object_dir_path_is name path_session then HORIZON_OBJECT_DIR_NAMED_OBJECTS
  else HORIZON_OBJECT_DIR_NONE.

Record horizon_object_dir_entry := mk_dir_entry { de_name : list Z; de_type : list Z }.

(** "SymbolicLink" *)
Definition symbolic_link : list Z := [83; 121; 109; 98; 111; 108; 105; 99; 76; 105; 110; 107].

(** "C:", "D:", "E:", "F:", "G:", "H:", "Z:" *)
Definition horizon_object_dir_dos_devices : list horizon_object_dir_entry := (fun c => mk_dir_entry [c; 58] symbolic_link) <$> [67; 68; 69; 70; 71; 72; 90].

Definition le32 (x : Z) : list Z := [u8 x; u8 (Z.shiftr x 8); u8 (Z.shiftr x 16); u8 (Z.shiftr x 24)].
Definition utf16 (s : list Z) : list Z := concat ((fun c => [c; 0]) <$> s).

Definition name_len (e : horizon_object_dir_entry) : Z := 2 * Z.of_nat (length (de_name e)).
Definition type_len (e : horizon_object_dir_entry) : Z := 2 * Z.of_nat (length (de_type e)).
Definition entry_size (e : horizon_object_dir_entry) : Z := Z.land (8 + name_len e + type_len e + 3) (Z.lnot 3).

(** The bytes of a record. *)
Definition entry_record (e : horizon_object_dir_entry) : list Z :=
  let body := le32 (name_len e) ++ le32 (type_len e) ++ utf16 (de_name e) ++ utf16 (de_type e) in
  body ++ replicate (Z.to_nat (entry_size e) - length body) 0.

(** Whether the mask has the drive. *)
Definition drive_present (mask : Z) (e : horizon_object_dir_entry) : bool := match de_name e with c :: _ => nonzero (Z.land mask (Z.shiftl 1 (c - 65))) | [] => false end.

(** What the loop has so far: the number of present entries seen, of entries
    sent, the bytes and the lengths of what was looked at. *)
Record dir_page := mk_page { pg_ordinal : Z; pg_count : Z; pg_out : list Z; pg_total : Z; pg_status : Z }.

Fixpoint entries_loop (entries : list horizon_object_dir_entry) (mask index max_count reply_max : Z) (p : dir_page) : dir_page :=
  match entries with
  | [] => p
  | e :: entries =>
      if negb (pg_count p <? max_count) then p else
      if negb (drive_present mask e) then entries_loop entries mask index max_count reply_max p else
      let p := mk_page (pg_ordinal p + 1) (pg_count p) (pg_out p) (pg_total p) (pg_status p) in
      if pg_ordinal p - 1 <? index then entries_loop entries mask index max_count reply_max p else
      let total := pg_total p + (name_len e + type_len e) in
      if reply_max <? Z.of_nat (length (pg_out p)) + entry_size e then mk_page (pg_ordinal p) (pg_count p) (pg_out p) total HORIZON_OBJECT_DIR_STATUS_MORE_ENTRIES
      else entries_loop entries mask index max_count reply_max (mk_page (pg_ordinal p) (pg_count p + 1) (pg_out p ++ entry_record e) total HORIZON_OBJECT_DIR_STATUS_SUCCESS)
  end.

Definition horizon_object_dir_entries (dir : horizon_object_dir) (mask index max_count reply_max : Z) : dir_page :=
  entries_loop (if bool_decide (dir = HORIZON_OBJECT_DIR_DOS_DEVICES) then horizon_object_dir_dos_devices else []) mask index max_count reply_max (mk_page 0 0 [] 0 HORIZON_OBJECT_DIR_STATUS_NO_MORE_ENTRIES).

(** ** Pages *)

(** The entries present from [index] on, put into a page. *)
Fixpoint fill (avail : list horizon_object_dir_entry) (max_count reply_max count : Z) (out : list Z) (status : Z) : Z * list Z * Z :=
  match avail with
  | [] => (count, out, status)
  | e :: avail =>
      if negb (count <? max_count) then (count, out, status) else
      if reply_max <? Z.of_nat (length out) + entry_size e then (count, out, HORIZON_OBJECT_DIR_STATUS_MORE_ENTRIES)
      else fill avail max_count reply_max (count + 1) (out ++ entry_record e) HORIZON_OBJECT_DIR_STATUS_SUCCESS
  end.

Definition page_result (p : dir_page) : Z * list Z * Z := (pg_count p, pg_out p, pg_status p).

Lemma fill_full avail max_count reply_max count out status : max_count <= count -> fill avail max_count reply_max count out status = (count, out, status).
Proof. intros H. destruct avail as [|e avail]; [done|]. cbn [fill]. by rewrite (proj2 (Z.ltb_ge count max_count)). Qed.

Lemma loop_fill mask index max_count reply_max entries : forall p,
  page_result (entries_loop entries mask index max_count reply_max p) = fill (drop (Z.to_nat (index - pg_ordinal p)) (List.filter (drive_present mask) entries)) max_count reply_max (pg_count p) (pg_out p) (pg_status p).
Proof.
  induction entries as [|e entries IH]; intros p; cbn [entries_loop List.filter]; [by rewrite drop_nil|].
  destruct (Z.ltb_spec (pg_count p) max_count) as [Hc|Hc]; cbn [negb]; [|by rewrite fill_full]. destruct (drive_present mask e); cbn [negb]; [|by rewrite IH].
  destruct (Z.ltb_spec (pg_ordinal p + 1 - 1) index) as [Hi|Hi]; cbn [pg_ordinal pg_count pg_out pg_total pg_status].
  - rewrite (proj2 (Z.ltb_lt _ _)) by lia. rewrite IH. cbn [pg_ordinal pg_count pg_out pg_status]. replace (Z.to_nat (index - pg_ordinal p)) with (S (Z.to_nat (index - (pg_ordinal p + 1)))) by lia. done.
  - rewrite (proj2 (Z.ltb_ge _ _)) by lia. replace (Z.to_nat (index - pg_ordinal p)) with 0%nat by lia. cbn [drop fill]. rewrite (proj2 (Z.ltb_lt _ _) Hc). cbn [negb]. destruct (reply_max <? _); [done|]. rewrite IH. cbn [pg_ordinal pg_count pg_out pg_status]. replace (Z.to_nat (index - (pg_ordinal p + 1))) with 0%nat by lia. done.
Qed.

(** How many records of 36 bytes go into the page. *)
Definition page_count (avail max_count reply_max : Z) : Z := Z.min avail (Z.min max_count (reply_max / 36)).

Definition page_status (avail max_count k : Z) : Z :=
  if (k <? avail) && (k <? max_count) then HORIZON_OBJECT_DIR_STATUS_MORE_ENTRIES else if k =? 0 then HORIZON_OBJECT_DIR_STATUS_NO_MORE_ENTRIES else HORIZON_OBJECT_DIR_STATUS_SUCCESS.

Definition record_36 (e : horizon_object_dir_entry) : Prop := length (entry_record e) = 36%nat /\ entry_size e = 36.

Lemma fill_36 max_count reply_max avail : forall count out status, Forall record_36 avail -> 0 <= count <= max_count -> Z.of_nat (length out) = 36 * count -> 36 * count <= reply_max ->
  status = (if count =? 0 then HORIZON_OBJECT_DIR_STATUS_NO_MORE_ENTRIES else HORIZON_OBJECT_DIR_STATUS_SUCCESS) ->
  let k := page_count (count + Z.of_nat (length avail)) max_count reply_max in
  fill avail max_count reply_max count out status = (k, out ++ concat (entry_record <$> take (Z.to_nat (k - count)) avail), page_status (count + Z.of_nat (length avail)) max_count k).
Proof.
  induction avail as [|e avail IH]; intros count out status Hr Hc Hl Hm Hs; cbn zeta; unfold page_count, page_status in *.
  - cbn [fill length Z.of_nat]. rewrite Z.add_0_r. assert (count <= reply_max / 36) by (apply Z.div_le_lower_bound; lia). rewrite Z.min_l by lia. rewrite Z.sub_diag, Z.ltb_irrefl, app_nil_r. cbn [andb]. by rewrite Hs.
  - apply Forall_cons in Hr as [[Hr1 Hr2] Hr]. cbn [fill]. assert (count <= reply_max / 36) by (apply Z.div_le_lower_bound; lia). destruct (Z.ltb_spec count max_count) as [Hlt|Hge]; cbn [negb].
    + rewrite Hr2, Hl. destruct (Z.ltb_spec reply_max (36 * count + 36)) as [Hfull|Hroom].
      * assert (reply_max / 36 = count) as E by (symmetry; apply Z.div_unique with (reply_max - 36 * count); lia). rewrite E, (Z.min_r max_count), Z.min_r by (simpl length; lia). rewrite Z.sub_diag. cbn [take fmap list_fmap concat Z.to_nat]. rewrite app_nil_r. rewrite !(proj2 (Z.ltb_lt _ _)) by (simpl length; lia). done.
      * rewrite IH; [|done|lia|rewrite length_app, Hr1; lia|lia|by rewrite (proj2 (Z.eqb_neq _ _)) by lia]. replace (count + Z.of_nat (length (e :: avail))) with (count + 1 + Z.of_nat (length avail)) by (simpl length; lia). set (k := Z.min (count + 1 + Z.of_nat (length avail)) (Z.min max_count (reply_max / 36))).
        assert (count + 1 <= reply_max / 36) by (apply Z.div_le_lower_bound; lia). assert (count + 1 <= k) by (unfold k; lia). f_equal. f_equal. replace (Z.to_nat (k - count)) with (S (Z.to_nat (k - (count + 1)))) by lia. cbn [take fmap list_fmap concat]. by rewrite <- app_assoc.
    + assert (max_count = count) as -> by lia. rewrite (Z.min_l count), Z.min_r by (simpl length; lia). rewrite Z.sub_diag, Z.ltb_irrefl, andb_false_r, app_nil_r. by rewrite Hs.
Qed.

Lemma devices_36 mask : Forall record_36 (List.filter (drive_present mask) horizon_object_dir_dos_devices).
Proof.
  apply Forall_forall. intros e He. apply list_elem_of_In, filter_In in He as [He _]. assert (Forall record_36 horizon_object_dir_dos_devices) as H; [|by apply (proj1 (Forall_forall _ _) H), list_elem_of_In].
  repeat (apply Forall_cons_2; [split; vm_compute; reflexivity|]). apply Forall_nil_2.
Qed.

(** A page of the drives has the records of the next drives from [index] on, as
    many as asked for that fit, never more bytes than the reply takes; it says that
    there are more when the next does not fit, and that there are none when
    nothing is left. *)
Theorem object_dir_page mask index max_count reply_max : 0 <= index -> 0 <= max_count -> 0 <= reply_max ->
  let avail := drop (Z.to_nat index) (List.filter (drive_present mask) horizon_object_dir_dos_devices) in
  let k := page_count (Z.of_nat (length avail)) max_count reply_max in
  let p := horizon_object_dir_entries HORIZON_OBJECT_DIR_DOS_DEVICES mask index max_count reply_max in
  pg_count p = k /\ pg_out p = concat (entry_record <$> take (Z.to_nat k) avail) /\ 36 * k <= reply_max /\ pg_status p = page_status (Z.of_nat (length avail)) max_count k.
Proof.
  intros Hi Hm Hr. cbn zeta. unfold horizon_object_dir_entries. rewrite bool_decide_eq_true_2 by done. pose proof (loop_fill mask index max_count reply_max horizon_object_dir_dos_devices (mk_page 0 0 [] 0 HORIZON_OBJECT_DIR_STATUS_NO_MORE_ENTRIES)) as E.
  cbn [pg_ordinal pg_count pg_out pg_status] in E. rewrite Z.sub_0_r in E. set (avail := drop (Z.to_nat index) (List.filter (drive_present mask) horizon_object_dir_dos_devices)) in *. set (p := entries_loop _ _ _ _ _ _) in *.
  rewrite (fill_36 max_count reply_max avail 0 [] _) in E; [|apply Forall_drop, devices_36|lia|done|lia|done]. cbn zeta in E. rewrite Z.add_0_l, Z.sub_0_r in E. unfold page_result in E. injection E as E1 E2 E3. split; [done|]. split; [done|]. split; [|done].
  unfold page_count. pose proof (Z.mul_div_le reply_max 36). lia.
Qed.

Lemma object_dir_page_witness : pg_count (horizon_object_dir_entries HORIZON_OBJECT_DIR_DOS_DEVICES 0x2000004 1 5 100) = page_count 1 5 100.
Proof. apply (object_dir_page 0x2000004 1 5 100); lia. Defined.
