(* ===== verification/SentMessages.v ===== *)
(** * Sent messages and their results (dlls/ntdll/unix/horizon_msg_queue.h)

    The message queues of the threads: wake and changed bits, WM_QUIT, messages
    sent by other threads and the results their senders wait for. Queues and
    results are objects of a heap; reading one that was freed, or a NULL
    pointer, is [None]. The messages of a queue are a linked list with a tail
    pointer ([Chain]); the lists of results of a sender and the stack of a
    receiver are sequences of addresses. *)
From S2P Require Import Prelude Chain.
Local Open Scope Z_scope.

Definition HORIZON_MSGQ_QS_KEY : Z := 0x0001.
Definition HORIZON_MSGQ_QS_MOUSEMOVE : Z := 0x0002.
Definition HORIZON_MSGQ_QS_MOUSEBUTTON : Z := 0x0004.
Definition HORIZON_MSGQ_QS_POSTMESSAGE : Z := 0x0008.
Definition HORIZON_MSGQ_QS_TIMER : Z := 0x0010.
Definition HORIZON_MSGQ_QS_PAINT : Z := 0x0020.
Definition HORIZON_MSGQ_QS_SENDMESSAGE : Z := 0x0040.
Definition HORIZON_MSGQ_QS_HOTKEY : Z := 0x0080.
Definition HORIZON_MSGQ_QS_ALLPOSTMESSAGE : Z := 0x0100.
Definition HORIZON_MSGQ_QS_RAWINPUT : Z := 0x0400.
Definition HORIZON_MSGQ_QS_INPUT : Z :=
  Z.lor (Z.lor (Z.lor HORIZON_MSGQ_QS_KEY HORIZON_MSGQ_QS_MOUSEMOVE) HORIZON_MSGQ_QS_MOUSEBUTTON) HORIZON_MSGQ_QS_RAWINPUT.
Definition HORIZON_MSGQ_QS_SMRESULT : Z := 0x8000.

Definition HORIZON_MSGQ_MSG_ASCII : Z := 0.
Definition HORIZON_MSGQ_MSG_UNICODE : Z := 1.
Definition HORIZON_MSGQ_MSG_NOTIFY : Z := 2.
Definition HORIZON_MSGQ_MSG_CALLBACK : Z := 3.
Definition HORIZON_MSGQ_MSG_CALLBACK_RESULT : Z := 4.
Definition HORIZON_MSGQ_MSG_OTHER_PROCESS : Z := 5.

Definition HORIZON_MSGQ_STATUS_SUCCESS : Z := 0x00000000.
Definition HORIZON_MSGQ_STATUS_TIMEOUT : Z := 0x00000102.
Definition HORIZON_MSGQ_STATUS_PENDING : Z := 0x00000103.
Definition HORIZON_MSGQ_STATUS_INVALID_PARAMETER : Z := 0xc000000d.
Definition HORIZON_MSGQ_STATUS_NO_MEMORY : Z := 0xc0000017.
Definition HORIZON_MSGQ_STATUS_ACCESS_DENIED : Z := 0xc0000022.

Definition HORIZON_MSGQ_CALLBACK_RESULT_OFFSET : Z := 16.

(** ** Messages, results, queues *)

(** [data] and [data_size] are one list of bytes. *)
Record horizon_msgq_sent := mk_sent {
  sm_type : Z; sm_win : Z; sm_msg : Z; sm_wparam : Z; sm_lparam : Z; sm_x : Z; sm_y : Z; sm_time : Z;
  sm_data : list Z;
  sm_result : ptr
}.

Record horizon_msgq_result := mk_result {
  rs_msg : ptr;
  rs_sender : ptr;
  rs_receiver : ptr;
  rs_callback_msg : option horizon_msgq_sent;
  rs_replied : bool;
  rs_error : Z;
  rs_result : Z;
  rs_data : list Z;
  rs_has_deadline : bool;
  rs_deadline : Z
}.

Record horizon_msgq := mk_msgq {
  qu_tid : Z;
  qu_wake_bits : Z; qu_changed_bits : Z; qu_wake_mask : Z; qu_changed_mask : Z;
  qu_quit_message : bool; qu_exit_code : Z;
  qu_sent : clist horizon_msgq_sent;
  qu_sent_tail : link;
  qu_send_results : list positive;
  qu_callback_results : list positive;
  qu_recv_result : list positive
}.

Record horizon_msgqs := mk_msgqs {
  ms_list : list positive;                   (** the queues from [head] on *)
  ms_queues : gmap positive horizon_msgq;
  ms_results : gmap positive horizon_msgq_result
}.

Definition msgqs_empty : horizon_msgqs := mk_msgqs [] ∅ ∅.

(** Assignments to fields. *)
Definition q_bits (q : horizon_msgq) (wake changed : Z) : horizon_msgq :=
  mk_msgq (qu_tid q) wake changed (qu_wake_mask q) (qu_changed_mask q) (qu_quit_message q) (qu_exit_code q)
    (qu_sent q) (qu_sent_tail q) (qu_send_results q) (qu_callback_results q) (qu_recv_result q).
Definition q_quit (q : horizon_msgq) (code : Z) : horizon_msgq :=
  mk_msgq (qu_tid q) (qu_wake_bits q) (qu_changed_bits q) (qu_wake_mask q) (qu_changed_mask q) true code
    (qu_sent q) (qu_sent_tail q) (qu_send_results q) (qu_callback_results q) (qu_recv_result q).
Definition q_sent (q : horizon_msgq) (s : clist horizon_msgq_sent) (tail : link) : horizon_msgq :=
  mk_msgq (qu_tid q) (qu_wake_bits q) (qu_changed_bits q) (qu_wake_mask q) (qu_changed_mask q) (qu_quit_message q) (qu_exit_code q)
    s tail (qu_send_results q) (qu_callback_results q) (qu_recv_result q).
Definition q_results (q : horizon_msgq) (send callbacks recv : list positive) : horizon_msgq :=
  mk_msgq (qu_tid q) (qu_wake_bits q) (qu_changed_bits q) (qu_wake_mask q) (qu_changed_mask q) (qu_quit_message q) (qu_exit_code q)
    (qu_sent q) (qu_sent_tail q) send callbacks recv.

Definition put_queue (st : horizon_msgqs) (a : positive) (q : horizon_msgq) : horizon_msgqs :=
  mk_msgqs (ms_list st) (<[a := q]> (ms_queues st)) (ms_results st).
Definition put_result (st : horizon_msgqs) (r : positive) (res : horizon_msgq_result) : horizon_msgqs :=
  mk_msgqs (ms_list st) (ms_queues st) (<[r := res]> (ms_results st)).

Definition r_ends (res : horizon_msgq_result) (msg sender receiver : ptr) : horizon_msgq_result :=
  mk_result msg sender receiver (rs_callback_msg res) (rs_replied res) (rs_error res) (rs_result res) (rs_data res)
    (rs_has_deadline res) (rs_deadline res).
Definition r_data (res : horizon_msgq_result) (data : list Z) : horizon_msgq_result :=
  mk_result (rs_msg res) (rs_sender res) (rs_receiver res) (rs_callback_msg res) (rs_replied res) (rs_error res)
    (rs_result res) data (rs_has_deadline res) (rs_deadline res).
Definition r_deadline (res : horizon_msgq_result) (has : bool) : horizon_msgq_result :=
  mk_result (rs_msg res) (rs_sender res) (rs_receiver res) (rs_callback_msg res) (rs_replied res) (rs_error res)
    (rs_result res) (rs_data res) has (rs_deadline res).
Definition r_callback (res : horizon_msgq_result) (callback : option horizon_msgq_sent) : horizon_msgq_result :=
  mk_result (rs_msg res) (rs_sender res) (rs_receiver res) callback (rs_replied res) (rs_error res)
    (rs_result res) (rs_data res) (rs_has_deadline res) (rs_deadline res).
Definition r_answer (res : horizon_msgq_result) (value error : Z) : horizon_msgq_result :=
  mk_result (rs_msg res) (rs_sender res) (rs_receiver res) (rs_callback_msg res) true error value (rs_data res)
    false (rs_deadline res).

(** ** Queues *)

Fixpoint find_queue (queues : gmap positive horizon_msgq) (l : list positive) (tid : Z) : option ptr :=
  match l with
  | [] => Some None
  | a :: l => q ← queues !! a; if qu_tid q =? tid then Some (Some a) else find_queue queues l tid
  end.

Definition horizon_msgq_find (st : horizon_msgqs) (tid : Z) : option ptr := find_queue (ms_queues st) (ms_list st) tid.

Definition msgq_new (tid : Z) : horizon_msgq := mk_msgq tid 0 0 0 0 false 0 clist_empty LHead [] [] [].

(** [memory] says whether [calloc] succeeds. *)
Definition horizon_msgq_get (memory : bool) (st : horizon_msgqs) (tid : Z) : option (ptr * bool * horizon_msgqs) :=
  queue ← horizon_msgq_find st tid;
  if bool_decide (is_Some queue) || (tid =? 0) then Some (queue, false, st) else
  if negb memory then Some (None, false, st) else
  let a := fresh (dom (ms_queues st) : gset positive) in
  Some (Some a, true, mk_msgqs (a :: ms_list st) (<[a := msgq_new tid]> (ms_queues st)) (ms_results st)).

Definition horizon_msgq_touch (q : horizon_msgq) (bits : Z) : horizon_msgq :=
  q_bits q (Z.lor (qu_wake_bits q) bits) (Z.lor (qu_changed_bits q) bits).

Definition horizon_msgq_own_bits (results : gmap positive horizon_msgq_result) (q : horizon_msgq) : option Z :=
  replied ← match qu_send_results q with
            | [] => Some false
            | r :: _ => res ← results !! r; Some (rs_replied res)
            end;
  let bits := if cl_head (qu_sent q) then HORIZON_MSGQ_QS_SENDMESSAGE else 0 in
  let bits := if qu_quit_message q
              then Z.lor bits (Z.lor HORIZON_MSGQ_QS_POSTMESSAGE HORIZON_MSGQ_QS_ALLPOSTMESSAGE) else bits in
  Some (if replied : bool then Z.lor bits HORIZON_MSGQ_QS_SMRESULT else bits).

Definition horizon_msgq_update (results : gmap positive horizon_msgq_result) (q : horizon_msgq) (external : Z) : option horizon_msgq :=
  own ← horizon_msgq_own_bits results q;
  let wake := Z.lor external own in
  let changed := Z.ldiff (qu_changed_bits q) (Z.ldiff (qu_wake_bits q) wake) in
  let changed := Z.lor changed (Z.ldiff wake (qu_wake_bits q)) in
  Some (q_bits q wake changed).

Definition horizon_msgq_signaled (q : horizon_msgq) : bool :=
  nonzero (Z.land (qu_wake_bits q) (qu_wake_mask q)) || nonzero (Z.land (qu_changed_bits q) (qu_changed_mask q)).

Definition horizon_msgq_begin_get (q : horizon_msgq) (filter first last : Z) : horizon_msgq :=
  let changed := qu_changed_bits q in
  let changed := if nonzero (Z.land filter HORIZON_MSGQ_QS_POSTMESSAGE) then
      let changed := Z.ldiff changed (Z.lor (Z.lor HORIZON_MSGQ_QS_POSTMESSAGE HORIZON_MSGQ_QS_HOTKEY) HORIZON_MSGQ_QS_TIMER) in
      if (first =? 0) && (last =? UINT_MAX) then Z.ldiff changed HORIZON_MSGQ_QS_ALLPOSTMESSAGE else changed
    else changed in
  let changed := if nonzero (Z.land filter HORIZON_MSGQ_QS_INPUT) then Z.ldiff changed HORIZON_MSGQ_QS_INPUT else changed in
  let changed := if nonzero (Z.land filter HORIZON_MSGQ_QS_PAINT) then Z.ldiff changed HORIZON_MSGQ_QS_PAINT else changed in
  q_bits q (qu_wake_bits q) changed.

Definition horizon_msgq_post_quit (q : horizon_msgq) (exit_code : Z) : horizon_msgq :=
  horizon_msgq_touch (q_quit q exit_code) (Z.lor HORIZON_MSGQ_QS_POSTMESSAGE HORIZON_MSGQ_QS_ALLPOSTMESSAGE).

(** ** Results *)

(** The data and the callback message go with the result. *)
Definition horizon_msgq_free_result (st : horizon_msgqs) (r : positive) : option horizon_msgqs :=
  _ ← ms_results st !! r; Some (mk_msgqs (ms_list st) (ms_queues st) (delete r (ms_results st))).

(** The list of results without [r]; every result passed is read. *)
Fixpoint horizon_msgq_unlink_result (results : gmap positive horizon_msgq_result) (l : list positive) (r : positive) : option (list positive) :=
  match l with
  | [] => Some []
  | x :: l => _ ← results !! x; if decide (x = r) then Some l else cons x <$> horizon_msgq_unlink_result results l r
  end.

Definition horizon_msgq_remove_result_from_sender (st : horizon_msgqs) (r : positive) : option horizon_msgqs :=
  res ← ms_results st !! r;
  s ← rs_sender res;
  q ← ms_queues st !! s;
  send ← horizon_msgq_unlink_result (ms_results st) (qu_send_results q) r;
  callbacks ← horizon_msgq_unlink_result (ms_results st) (qu_callback_results q) r;
  let st := put_queue st s (q_results q send callbacks (qu_recv_result q)) in
  let st := put_result st r (r_ends res (rs_msg res) None (rs_receiver res)) in
  if rs_receiver res then Some st else horizon_msgq_free_result st r.

(** [*queue->sent_tail = msg; queue->sent_tail = &msg->next] for a new message. *)
Definition append_sent (q : horizon_msgq) (m : horizon_msgq_sent) : horizon_msgq :=
  let l := node_new (qu_sent q) in
  q_sent q (link_set (node_put (qu_sent q) l m None) (qu_sent_tail q) (Some l)) (LNext l).

(** The eight bytes of a result in memory. *)
Definition value_bytes (value : Z) : list Z := map (fun i => u8 (Z.shiftr value (8 * i))) (seqZ 0 8).

Definition callback_answer (m : horizon_msgq_sent) (value : Z) : horizon_msgq_sent :=
  mk_sent (sm_type m) (sm_win m) (sm_msg m) (sm_wparam m) (sm_lparam m) (sm_x m) (sm_y m) (sm_time m)
    (if HORIZON_MSGQ_CALLBACK_RESULT_OFFSET + 8 <=? Z.of_nat (length (sm_data m))
     then splice (sm_data m) (Z.to_nat HORIZON_MSGQ_CALLBACK_RESULT_OFFSET) (value_bytes value) else sm_data m)
    (sm_result m).

Definition horizon_msgq_store_result (st : horizon_msgqs) (r : positive) (value error : Z) : option horizon_msgqs :=
  res ← ms_results st !! r;
  let res := r_answer res value error in
  let st := put_result st r res in
  match rs_sender res with
  | Some s =>
      q ← ms_queues st !! s;
      match rs_callback_msg res with
      | Some callback =>
          let q := horizon_msgq_touch (append_sent q (callback_answer callback value)) HORIZON_MSGQ_QS_SENDMESSAGE in
          let st := put_queue st s q in
          let st := put_result st r (r_callback res None) in
          horizon_msgq_remove_result_from_sender st r
      | None =>
          if bool_decide (head (qu_send_results q) = Some r)
          then Some (put_queue st s (horizon_msgq_touch q HORIZON_MSGQ_QS_SMRESULT)) else Some st
      end
  | None => if rs_receiver res then Some st else horizon_msgq_free_result st r
  end.

(** A message that is taken from its queue without being received. *)
Definition horizon_msgq_free_sent (st : horizon_msgqs) (m : horizon_msgq_sent) : option horizon_msgqs :=
  match sm_result m with
  | Some r =>
      res ← ms_results st !! r;
      let st := put_result st r (r_ends res None (rs_sender res) None) in
      horizon_msgq_store_result st r 0 HORIZON_MSGQ_STATUS_ACCESS_DENIED
  | None => Some st
  end.

(** The link to a message, following the links from [k]. *)
Fixpoint find_link (fuel : nat) (s : clist horizon_msgq_sent) (l : positive) (k : link) : option (option link) :=
  match fuel with
  | O => None
  | S fuel =>
      match link_get s k with
      | None => Some None
      | Some l' => if decide (l' = l) then Some (Some k) else _ ← cl_heap s !! l'; find_link fuel s l (LNext l')
      end
  end.

(** The message stays allocated; the loop passes each message of the queue at
    most once. *)
Definition horizon_msgq_unlink_sent (q : horizon_msgq) (l : positive) : option horizon_msgq :=
  k ← find_link (S (size (cl_heap (qu_sent q)))) (qu_sent q) l LHead;
  match k with
  | None => Some q
  | Some k =>
      '(m, next) ← cl_heap (qu_sent q) !! l;
      let s := link_set (qu_sent q) k next in
      let tail := if decide (qu_sent_tail q = LNext l) then k else qu_sent_tail q in
      Some (q_sent q (node_put s l m None) tail)
  end.

(** [free( msg )]. *)
Definition drop_sent (q : horizon_msgq) (l : positive) : horizon_msgq :=
  q_sent q (node_free (qu_sent q) l) (qu_sent_tail q).

(** ** Sending, receiving, replying *)

(** Whether [calloc] gives the message, [malloc] its data, [calloc] the result
    and [calloc] the callback message. *)
Record send_memory := mk_send_memory { mem_msg : bool; mem_data : bool; mem_result : bool; mem_callback : bool }.

Definition send_type_ok (type : Z) : bool :=
  (type =? HORIZON_MSGQ_MSG_ASCII) || (type =? HORIZON_MSGQ_MSG_UNICODE) || (type =? HORIZON_MSGQ_MSG_NOTIFY) ||
  (type =? HORIZON_MSGQ_MSG_CALLBACK) || (type =? HORIZON_MSGQ_MSG_OTHER_PROCESS).

(** [*msg = *fields] with data and result of its own. *)
Definition sent_copy (fields : horizon_msgq_sent) (data : list Z) (result : ptr) : horizon_msgq_sent :=
  mk_sent (sm_type fields) (sm_win fields) (sm_msg fields) (sm_wparam fields) (sm_lparam fields) (sm_x fields)
    (sm_y fields) (sm_time fields) data result.

Definition callback_of (fields : horizon_msgq_sent) (data : list Z) : horizon_msgq_sent :=
  mk_sent HORIZON_MSGQ_MSG_CALLBACK_RESULT (sm_win fields) (sm_msg fields) 0 0 (sm_x fields) (sm_y fields)
    (sm_time fields) data None.

(** [*receiver->sent_tail = msg] and the lines after it. *)
Definition send_queue (st : horizon_msgqs) (receiver : positive) (m : horizon_msgq_sent) : option horizon_msgqs :=
  q ← ms_queues st !! receiver;
  Some (put_queue st receiver (horizon_msgq_touch (append_sent q m) HORIZON_MSGQ_QS_SENDMESSAGE)).

(** The new result joins the list of its sender. *)
Definition send_result (st : horizon_msgqs) (sender : ptr) (r : positive) (callback : bool) : option horizon_msgqs :=
  match sender with
  | None => Some st
  | Some s =>
      q ← ms_queues st !! s;
      Some (put_queue st s (if callback
        then q_results q (qu_send_results q) (r :: qu_callback_results q) (qu_recv_result q)
        else q_results q (r :: qu_send_results q) (qu_callback_results q) (qu_recv_result q)))
  end.

Definition horizon_msgq_send (mem : send_memory) (st : horizon_msgqs) (sender : ptr) (receiver : positive)
    (fields : horizon_msgq_sent) (data : list Z) (has_deadline : bool) (deadline : Z) : option (Z * horizon_msgqs) :=
  if negb (send_type_ok (sm_type fields)) then Some (HORIZON_MSGQ_STATUS_INVALID_PARAMETER, st) else
  if negb (mem_msg mem) then Some (HORIZON_MSGQ_STATUS_NO_MEMORY, st) else
  if negb (bool_decide (data = [])) && negb (mem_data mem) then Some (HORIZON_MSGQ_STATUS_NO_MEMORY, st) else
  if negb (sm_type fields =? HORIZON_MSGQ_MSG_NOTIFY) then
    if negb (mem_result mem) then Some (HORIZON_MSGQ_STATUS_NO_MEMORY, st) else
    let callback := sm_type fields =? HORIZON_MSGQ_MSG_CALLBACK in
    if callback && negb (mem_callback mem) then Some (HORIZON_MSGQ_STATUS_NO_MEMORY, st) else
    q ← ms_queues st !! receiver;
    let r := fresh (dom (ms_results st) : gset positive) in
    let res := mk_result (Some (node_new (qu_sent q))) sender (Some receiver)
                 (if callback then Some (callback_of fields data) else None) false 0 0 [] has_deadline deadline in
    st ← send_result (put_result st r res) sender r callback;
    st ← send_queue st receiver (sent_copy fields (if callback then [] else data) (Some r));
    Some (HORIZON_MSGQ_STATUS_SUCCESS, st)
  else
    st ← send_queue st receiver (sent_copy fields data None);
    Some (HORIZON_MSGQ_STATUS_SUCCESS, st).

Definition horizon_msgq_receive (st : horizon_msgqs) (a : positive) : option (option horizon_msgq_sent * horizon_msgqs) :=
  q ← ms_queues st !! a;
  match cl_head (qu_sent q) with
  | None => Some (None, st)
  | Some l =>
      '(m, _) ← cl_heap (qu_sent q) !! l;
      q ← horizon_msgq_unlink_sent q l;
      let q := drop_sent q l in
      match sm_result m with
      | Some r =>
          res ← ms_results st !! r;
          let st := put_result st r (r_ends res None (rs_sender res) (rs_receiver res)) in
          let st := put_queue st a (q_results q (qu_send_results q) (qu_callback_results q) (r :: qu_recv_result q)) in
          Some (Some (sent_copy m (sm_data m) None), st)
      | None => Some (Some m, put_queue st a q)
      end
  end.

(** [memory] says whether [malloc] gives room for the data. *)
Definition horizon_msgq_reply (memory : bool) (st : horizon_msgqs) (a : positive) (value error : Z) (remove : bool)
    (data : list Z) : option (Z * horizon_msgqs) :=
  q ← ms_queues st !! a;
  match qu_recv_result q with
  | [] => Some (HORIZON_MSGQ_STATUS_SUCCESS, st)
  | r :: rest =>
      res ← ms_results st !! r;
      let '(res, st) := if remove
        then (r_ends res (rs_msg res) (rs_sender res) None,
              put_queue st a (q_results q (qu_send_results q) (qu_callback_results q) rest))
        else (res, st) in
      let st := put_result st r res in
      if remove && negb (bool_decide (is_Some (rs_sender res))) then
        st ← horizon_msgq_free_result st r;
        Some (HORIZON_MSGQ_STATUS_SUCCESS, st)
      else
      if negb (rs_replied res) then
        let st := if negb (bool_decide (data = [])) && memory then put_result st r (r_data res data) else st in
        st ← horizon_msgq_store_result st r value error;
        Some (HORIZON_MSGQ_STATUS_SUCCESS, st)
      else Some (HORIZON_MSGQ_STATUS_SUCCESS, st)
  end.

(** The status, the value and the data of the reply. *)
Definition horizon_msgq_get_reply (st : horizon_msgqs) (a : positive) (cancel : bool) : option (Z * Z * list Z * horizon_msgqs) :=
  q ← ms_queues st !! a;
  match qu_send_results q with
  | [] => Some (HORIZON_MSGQ_STATUS_PENDING, 0, [], st)
  | r :: _ =>
      res ← ms_results st !! r;
      if negb (rs_replied res) && negb cancel then Some (HORIZON_MSGQ_STATUS_PENDING, 0, [], st) else
      let out := if rs_replied res then (rs_error res, rs_result res, rs_data res) else (HORIZON_MSGQ_STATUS_PENDING, 0, []) in
      let st := if rs_replied res then put_result st r (r_data res []) else st in
      st ← horizon_msgq_remove_result_from_sender st r;
      q ← ms_queues st !! a;
      match qu_send_results q with
      | [] => Some (out, st)
      | r' :: _ =>
          res' ← ms_results st !! r';
          Some (out, if rs_replied res' then put_queue st a (horizon_msgq_touch q HORIZON_MSGQ_QS_SMRESULT) else st)
      end
  end.

(** ** Deadlines *)

Definition is_expired (now : Z) (res : horizon_msgq_result) : bool :=
  negb (rs_replied res || negb (rs_has_deadline res) || (now <? rs_deadline res)).

(** The first result of a list whose deadline has passed. *)
Fixpoint first_expired (results : gmap positive horizon_msgq_result) (now : Z) (l : list positive) : option ptr :=
  match l with
  | [] => Some None
  | r :: l => res ← results !! r; if is_expired now res then Some (Some r) else first_expired results now l
  end.

Fixpoint queues_expired (st : horizon_msgqs) (now : Z) (l : list positive) : option ptr :=
  match l with
  | [] => Some None
  | a :: l =>
      q ← ms_queues st !! a;
      found ← first_expired (ms_results st) now (qu_send_results q);
      match found with
      | Some r => Some (Some r)
      | None =>
          found ← first_expired (ms_results st) now (qu_callback_results q);
          match found with
          | Some r => Some (Some r)
          | None => queues_expired st now l
          end
      end
  end.

Definition expire_result (st : horizon_msgqs) (r : positive) : option horizon_msgqs :=
  res ← ms_results st !! r;
  let res := r_deadline res false in
  match rs_msg res, rs_receiver res with
  | Some l, Some a =>
      q ← ms_queues st !! a;
      q ← horizon_msgq_unlink_sent q l;
      let st := put_queue st a (drop_sent q l) in
      let st := put_result st r (r_ends res None (rs_sender res) None) in
      horizon_msgq_store_result st r 0 HORIZON_MSGQ_STATUS_TIMEOUT
  | _, _ => horizon_msgq_store_result (put_result st r res) r 0 HORIZON_MSGQ_STATUS_TIMEOUT
  end.

(** The search starts over after each result that expired. *)
Fixpoint expire_loop (fuel : nat) (st : horizon_msgqs) (now : Z) (expired : bool) : option (bool * horizon_msgqs) :=
  match fuel with
  | O => None
  | S fuel =>
      found ← queues_expired st now (ms_list st);
      match found with
      | None => Some (expired, st)
      | Some r => st ← expire_result st r; expire_loop fuel st now true
      end
  end.

(** No result expires twice. *)
Definition horizon_msgq_expire (st : horizon_msgqs) (now : Z) : option (bool * horizon_msgqs) :=
  expire_loop (S (size (ms_results st))) st now false.

(** ** The end of a thread *)

Fixpoint drop_send (fuel : nat) (st : horizon_msgqs) (a : positive) : option horizon_msgqs :=
  match fuel with
  | O => None
  | S fuel =>
      q ← ms_queues st !! a;
      match qu_send_results q with
      | [] => Some st
      | r :: _ => st ← horizon_msgq_remove_result_from_sender st r; drop_send fuel st a
      end
  end.

Fixpoint drop_callbacks (fuel : nat) (st : horizon_msgqs) (a : positive) : option horizon_msgqs :=
  match fuel with
  | O => None
  | S fuel =>
      q ← ms_queues st !! a;
      match qu_callback_results q with
      | [] => Some st
      | r :: _ => st ← horizon_msgq_remove_result_from_sender st r; drop_callbacks fuel st a
      end
  end.

Fixpoint drop_received (fuel : nat) (st : horizon_msgqs) (a : positive) : option horizon_msgqs :=
  match fuel with
  | O => None
  | S fuel =>
      q ← ms_queues st !! a;
      match qu_recv_result q with
      | [] => Some st
      | _ :: _ =>
          '(_, st) ← horizon_msgq_reply true st a 0 HORIZON_MSGQ_STATUS_ACCESS_DENIED true [];
          drop_received fuel st a
      end
  end.

Fixpoint drop_messages (fuel : nat) (st : horizon_msgqs) (a : positive) : option horizon_msgqs :=
  match fuel with
  | O => None
  | S fuel =>
      q ← ms_queues st !! a;
      match cl_head (qu_sent q) with
      | None => Some st
      | Some l =>
          '(m, _) ← cl_heap (qu_sent q) !! l;
          q ← horizon_msgq_unlink_sent q l;
          st ← horizon_msgq_free_sent (put_queue st a (drop_sent q l)) m;
          drop_messages fuel st a
      end
  end.

Fixpoint unlink_queue (queues : gmap positive horizon_msgq) (l : list positive) (a : positive) : option (list positive) :=
  match l with
  | [] => Some []
  | b :: l => if decide (b = a) then Some l else _ ← queues !! b; cons b <$> unlink_queue queues l a
  end.

(** Each loop ends with the list it empties. *)
Definition horizon_msgq_destroy (st : horizon_msgqs) (a : positive) : option horizon_msgqs :=
  q ← ms_queues st !! a;
  st ← drop_send (S (length (qu_send_results q))) st a;
  st ← drop_callbacks (S (length (qu_callback_results q))) st a;
  st ← drop_received (S (length (qu_recv_result q))) st a;
  st ← drop_messages (S (size (cl_heap (qu_sent q)))) st a;
  list ← unlink_queue (ms_queues st) (ms_list st) a;
  Some (mk_msgqs list (delete a (ms_queues st)) (ms_results st)).

(** ** Lists of addresses *)

Definition without (r : positive) (l : list positive) : list positive := filter (fun x => x <> r) l.

Lemma elem_of_without r l x : x ∈ without r l <-> x ∈ l /\ x <> r.
Proof. unfold without. rewrite list_elem_of_filter. tauto. Qed.

Lemma without_fresh r l : r ∉ l -> without r l = l.
Proof.
  intros Hr. unfold without. induction l as [|x l IH]; [done|]. rewrite not_elem_of_cons in Hr.
  rewrite filter_cons_True by (intros ->; tauto). rewrite IH; tauto.
Qed.

Lemma without_cons r l : r ∉ l -> without r (r :: l) = l.
Proof. intros Hr. unfold without. rewrite filter_cons_False by tauto. by apply without_fresh. Qed.

Lemma NoDup_without r l : NoDup l -> NoDup (without r l).
Proof. apply NoDup_filter. Qed.

Lemma without_app r l1 l2 : without r (l1 ++ l2) = without r l1 ++ without r l2.
Proof. apply filter_app. Qed.

Lemma unlink_result_spec results l r :
  NoDup l -> (forall x, x ∈ l -> is_Some (results !! x)) ->
  horizon_msgq_unlink_result results l r = Some (without r l).
Proof.
  induction l as [|x l IH]; intros Hn Hl; [done|]. simpl. inversion Hn as [|? ? Hx Hn']; subst.
  destruct (Hl x ltac:(set_solver)) as [R HR]. rewrite HR. simpl. destruct (decide (x = r)) as [->|Hne].
  - by rewrite without_cons.
  - rewrite IH; [|done|intros; apply Hl; set_solver]. simpl. f_equal. unfold without. by rewrite filter_cons_True.
Qed.

Lemma unlink_queue_spec queues l a :
  NoDup l -> (forall x, x ∈ l -> is_Some (queues !! x)) -> unlink_queue queues l a = Some (without a l).
Proof.
  induction l as [|x l IH]; intros Hn Hl; [done|]. simpl. inversion Hn as [|? ? Hx Hn']; subst.
  destruct (decide (x = a)) as [->|Hne]; [by rewrite without_cons|].
  destruct (Hl x ltac:(set_solver)) as [R HR]. rewrite HR. simpl.
  rewrite IH; [|done|intros; apply Hl; set_solver]. simpl. f_equal. unfold without. by rewrite filter_cons_True.
Qed.

(** ** What holds of queues and results

    [g] gives the messages of each queue in order, with their addresses. While
    an operation works on the result [x], that one may be without an answer and
    without owners, and its callback message may be gone. *)
Definition messages := positive -> list (positive * horizon_msgq_sent).

Definition queue_ok (ms : list (positive * horizon_msgq_sent)) (q : horizon_msgq) : Prop :=
  clist_rep (qu_sent q) ms.*1 ms.*2 /\ qu_sent_tail q = link_at ms.*1 (length ms) /\
  NoDup (qu_send_results q ++ qu_callback_results q) /\ NoDup (qu_recv_result q).

Record msgq_wf (g : messages) (st : horizon_msgqs) (x : ptr) : Prop := {
  wf_list : NoDup (ms_list st) /\ forall a, a ∈ ms_list st <-> is_Some (ms_queues st !! a);
  wf_tid a b qa qb : ms_queues st !! a = Some qa -> ms_queues st !! b = Some qb -> qu_tid qa = qu_tid qb -> a = b;
  wf_queue a q : ms_queues st !! a = Some q -> queue_ok (g a) q;
  wf_pending a q l m r : ms_queues st !! a = Some q -> (l, m) ∈ g a -> sm_result m = Some r ->
    exists res, ms_results st !! r = Some res /\ rs_msg res = Some l /\ rs_receiver res = Some a;
  wf_stack a q r : ms_queues st !! a = Some q -> r ∈ qu_recv_result q ->
    exists res, ms_results st !! r = Some res /\ rs_msg res = None /\ rs_receiver res = Some a;
  wf_held a q r : ms_queues st !! a = Some q -> r ∈ qu_send_results q ++ qu_callback_results q ->
    exists res, ms_results st !! r = Some res /\ rs_sender res = Some a;
  wf_sender r res a : ms_results st !! r = Some res -> rs_sender res = Some a ->
    exists q, ms_queues st !! a = Some q /\ r ∈ qu_send_results q ++ qu_callback_results q /\
      (x <> Some r -> r ∈ qu_send_results q /\ rs_callback_msg res = None \/
                      r ∈ qu_callback_results q /\ is_Some (rs_callback_msg res) /\ rs_replied res = false);
  wf_receiver r res a : ms_results st !! r = Some res -> rs_receiver res = Some a ->
    exists q, ms_queues st !! a = Some q /\
      match rs_msg res with
      | None => r ∈ qu_recv_result q
      | Some l => exists m, (l, m) ∈ g a /\ sm_result m = Some r
      end;
  wf_done r res : ms_results st !! r = Some res -> rs_receiver res = None ->
    rs_msg res = None /\ (x <> Some r -> rs_replied res = true /\ is_Some (rs_sender res));
  wf_callback r res m : ms_results st !! r = Some res -> rs_callback_msg res = Some m -> sm_result m = None
}.

Lemma wf_weaken g st x : msgq_wf g st None -> msgq_wf g st x.
Proof.
  intros W. split; try (by destruct W).
  - intros r res a Hr Hs. destruct (wf_sender _ _ _ W r res a Hr Hs) as (q & ? & ? & H). exists q. split_and!; [done..|].
    intros _. by apply H.
  - intros r res Hr Hd. destruct (wf_done _ _ _ W r res Hr Hd) as [? H]. split; [done|]. intros _. by apply H.
Qed.

(** What of a queue the invariant is about. *)
Definition same_queue (q q' : horizon_msgq) : Prop :=
  qu_tid q' = qu_tid q /\ qu_sent q' = qu_sent q /\ qu_sent_tail q' = qu_sent_tail q /\
  qu_send_results q' = qu_send_results q /\ qu_callback_results q' = qu_callback_results q /\
  qu_recv_result q' = qu_recv_result q.

Lemma same_bits q wake changed : same_queue q (q_bits q wake changed).
Proof. done. Qed.
Lemma same_touch q bits : same_queue q (horizon_msgq_touch q bits).
Proof. done. Qed.

(** The queue at an address after another was written. *)
Lemma put_queue_lookup st a q b qb :
  ms_queues (put_queue st a q) !! b = Some qb <-> a = b /\ qb = q \/ a <> b /\ ms_queues st !! b = Some qb.
Proof. simpl. rewrite lookup_insert_Some. naive_solver. Qed.

Lemma put_result_lookup st r res r' res' :
  ms_results (put_result st r res) !! r' = Some res' <-> r = r' /\ res' = res \/ r <> r' /\ ms_results st !! r' = Some res'.
Proof. simpl. rewrite lookup_insert_Some. naive_solver. Qed.

Lemma put_list st a q q0 :
  ms_queues st !! a = Some q0 ->
  NoDup (ms_list st) /\ (forall b, b ∈ ms_list st <-> is_Some (ms_queues st !! b)) ->
  NoDup (ms_list (put_queue st a q)) /\ (forall b, b ∈ ms_list (put_queue st a q) <-> is_Some (ms_queues (put_queue st a q) !! b)).
Proof.
  intros Ha [Hn Hl]. split; [done|]. intros b. simpl. rewrite Hl. destruct (decide (a = b)) as [<-|Hne].
  - rewrite lookup_insert_eq, Ha. split; by eexists.
  - by rewrite lookup_insert_ne.
Qed.

(** A queue changes in its bits only. *)
Lemma wf_put_same g st x a q q' :
  msgq_wf g st x -> ms_queues st !! a = Some q -> same_queue q q' -> msgq_wf g (put_queue st a q') x.
Proof.
  intros W Ha (T & S1 & S2 & S3 & S4 & S5).
  assert (Hl : forall b qb, ms_queues (put_queue st a q') !! b = Some qb -> exists q0, ms_queues st !! b = Some q0 /\ same_queue q0 qb).
  { intros b qb [[<- ->]|[_ Hb]]%put_queue_lookup; [by exists q|]. exists qb. by split. }
  assert (Hl' : forall b q0, ms_queues st !! b = Some q0 -> exists qb, ms_queues (put_queue st a q') !! b = Some qb /\ same_queue q0 qb).
  { intros b q0 Hb. destruct (decide (a = b)) as [<-|Hne].
    - exists q'. rewrite Ha in Hb. injection Hb as <-. split; [by apply put_queue_lookup; left|done].
    - exists q0. split; [by apply put_queue_lookup; right|by split]. }
  split.
  - by eapply put_list, (wf_list _ _ _ W).
  - intros b c qb qc (q1 & H1 & E1 & _)%Hl (q2 & H2 & E2 & _)%Hl E. eapply (wf_tid _ _ _ W); [done..|congruence].
  - intros b qb (q1 & H1 & _ & E1 & E2 & E3 & E4 & E5)%Hl. unfold queue_ok. rewrite E1, E2, E3, E4, E5. by apply (wf_queue _ _ _ W).
  - intros b qb l m r (q1 & H1 & _)%Hl. by eapply (wf_pending _ _ _ W).
  - intros b qb r (q1 & H1 & _ & _ & _ & _ & _ & E)%Hl. rewrite E. by eapply (wf_stack _ _ _ W).
  - intros b qb r (q1 & H1 & _ & _ & _ & E1 & E2 & _)%Hl. rewrite E1, E2. by eapply (wf_held _ _ _ W).
  - intros r res b Hr Hs. destruct (wf_sender _ _ _ W r res b Hr Hs) as (q1 & H1 & H2 & H3).
    destruct (Hl' _ _ H1) as (qb & Hb & _ & _ & _ & E1 & E2 & _). exists qb. rewrite E1, E2. done.
  - intros r res b Hr Hs. destruct (wf_receiver _ _ _ W r res b Hr Hs) as (q1 & H1 & H2).
    destruct (Hl' _ _ H1) as (qb & Hb & _ & _ & _ & _ & _ & E). exists qb. split; [done|]. by rewrite E.
  - apply (wf_done _ _ _ W).
  - apply (wf_callback _ _ _ W).
Qed.

(** The result under work is answered: its ends stay. *)
Lemma wf_put_result g st r res res' :
  msgq_wf g st (Some r) -> ms_results st !! r = Some res ->
  rs_msg res' = rs_msg res -> rs_sender res' = rs_sender res -> rs_receiver res' = rs_receiver res ->
  (forall m, rs_callback_msg res' = Some m -> sm_result m = None) ->
  msgq_wf g (put_result st r res') (Some r).
Proof.
  intros W Hr E1 E2 E3 E4.
  assert (Hin : forall r1 r2 (P : horizon_msgq_result -> Prop), (P res -> P res') -> r1 = r2 ->
    (exists res, ms_results st !! r1 = Some res /\ P res) -> exists res, ms_results (put_result st r res') !! r2 = Some res /\ P res).
  { intros r1 _ P HP <- (R & HR & HPR). destruct (decide (r = r1)) as [<-|Hne].
    - exists res'. split; [by apply put_result_lookup; left|]. apply HP. congruence.
    - exists R. split; [by apply put_result_lookup; right|done]. }
  split; try (by destruct W).
  - intros a q l m r1 Ha Hm Hr1. eapply (Hin _ _ (fun R => rs_msg R = Some l /\ rs_receiver R = Some a));
      [rewrite E1, E3; done|done|by eapply (wf_pending _ _ _ W)].
  - intros a q r1 Ha Hm. eapply (Hin _ _ (fun R => rs_msg R = None /\ rs_receiver R = Some a));
      [rewrite E1, E3; done|done|by eapply (wf_stack _ _ _ W)].
  - intros a q r1 Ha Hm. eapply (Hin _ _ (fun R => rs_sender R = Some a)); [rewrite E2; done|done|by eapply (wf_held _ _ _ W)].
  - intros r1 R a [[<- ->]|[Hne HR]]%put_result_lookup Hs; [|by apply (wf_sender _ _ _ W)]. rewrite E2 in Hs.
    destruct (wf_sender _ _ _ W _ _ _ Hr Hs) as (q & Hq & Hin' & _). exists q. split_and!; [done..|]. done.
  - intros r1 R a [[<- ->]|[Hne HR]]%put_result_lookup Hs; [|by apply (wf_receiver _ _ _ W)]. rewrite E3 in Hs.
    destruct (wf_receiver _ _ _ W _ _ _ Hr Hs) as (q & Hq & Hm). exists q. rewrite E1. done.
  - intros r1 R [[<- ->]|[Hne HR]]%put_result_lookup Hd; [|by apply (wf_done _ _ _ W)]. rewrite E1. rewrite E3 in Hd.
    destruct (wf_done _ _ _ W _ _ Hr Hd) as [? _]. done.
  - intros r1 R m [[<- ->]|[Hne HR]]%put_result_lookup Hm; [by apply E4|by eapply (wf_callback _ _ _ W)].
Qed.

(** The work on a result ends with it in order. *)
Lemma wf_close g st r :
  msgq_wf g st (Some r) ->
  (forall res, ms_results st !! r = Some res ->
     (rs_receiver res = None -> rs_replied res = true /\ is_Some (rs_sender res)) /\
     (forall a q, rs_sender res = Some a -> ms_queues st !! a = Some q ->
        r ∈ qu_send_results q /\ rs_callback_msg res = None \/
        r ∈ qu_callback_results q /\ is_Some (rs_callback_msg res) /\ rs_replied res = false)) ->
  msgq_wf g st None.
Proof.
  intros W Hc. split; try (by destruct W).
  - intros r1 R a HR Hs. destruct (wf_sender _ _ _ W _ _ _ HR Hs) as (q & Hq & Hin & Hk). exists q. split_and!; [done..|].
    intros _. destruct (decide (r1 = r)) as [->|Hne]; [|by apply Hk; congruence]. by apply (proj2 (Hc _ HR) a).
  - intros r1 R HR Hd. destruct (wf_done _ _ _ W _ _ HR Hd) as [Hm Hk]. split; [done|]. intros _.
    destruct (decide (r1 = r)) as [->|Hne]; [|by apply Hk; congruence]. by apply (Hc _ HR).
Qed.

(** ** A result leaves its sender *)

Definition left_sender (st : horizon_msgqs) (r : positive) (res : horizon_msgq_result) (s : positive) (q : horizon_msgq) : horizon_msgqs :=
  mk_msgqs (ms_list st)
    (<[s := q_results q (without r (qu_send_results q)) (without r (qu_callback_results q)) (qu_recv_result q)]> (ms_queues st))
    (if rs_receiver res then <[r := r_ends res (rs_msg res) None (rs_receiver res)]> (ms_results st)
     else delete r (ms_results st)).

Lemma remove_from_sender_eq g st r res s q :
  msgq_wf g st (Some r) -> ms_results st !! r = Some res -> rs_sender res = Some s -> ms_queues st !! s = Some q ->
  horizon_msgq_remove_result_from_sender st r = Some (left_sender st r res s q).
Proof.
  intros W Hr Hs Hq. unfold horizon_msgq_remove_result_from_sender. rewrite Hr. simpl. rewrite Hs. simpl. rewrite Hq. simpl.
  destruct (wf_queue _ _ _ W _ _ Hq) as (_ & _ & Hn & _). apply list.NoDup_app in Hn as (N1 & _ & N2).
  assert (Hall : forall x, x ∈ qu_send_results q ++ qu_callback_results q -> is_Some (ms_results st !! x)).
  { intros x Hx. destruct (wf_held _ _ _ W _ _ _ Hq Hx) as (R & -> & _). by eexists. }
  rewrite !unlink_result_spec; [|done|intros; apply Hall; set_solver|done|intros; apply Hall; set_solver]. simpl.
  unfold left_sender. destruct (rs_receiver res) eqn:E; [done|]. unfold horizon_msgq_free_result, put_result, put_queue. simpl.
  rewrite lookup_insert_eq. simpl. by rewrite delete_insert_eq.
Qed.

Lemma left_sender_results st r res s q r' R :
  ms_results (left_sender st r res s q) !! r' = Some R <->
  r' <> r /\ ms_results st !! r' = Some R \/
  r' = r /\ is_Some (rs_receiver res) /\ R = r_ends res (rs_msg res) None (rs_receiver res).
Proof.
  unfold left_sender. simpl. destruct (rs_receiver res) as [a|].
  - rewrite lookup_insert_Some. split; [intros [[-> <-]|[? ?]]; [right; by split_and!|left; done]|].
    intros [[? ?]|(-> & _ & ->)]; [right; done|by left].
  - rewrite lookup_delete_Some. split; [intros [? ?]; by left|]. intros [[? ?]|(_ & [? ?] & _)]; done.
Qed.

Lemma left_sender_wf g st r res s q :
  msgq_wf g st (Some r) -> ms_results st !! r = Some res -> rs_sender res = Some s -> ms_queues st !! s = Some q ->
  msgq_wf g (left_sender st r res s q) None.
Proof.
  intros W Hr Hs Hq. set (st' := left_sender st r res s q).
  assert (Hput : ms_queues st' = ms_queues (put_queue st s
     (q_results q (without r (qu_send_results q)) (without r (qu_callback_results q)) (qu_recv_result q)))) by done.
  assert (Hql : forall b qb, ms_queues st' !! b = Some qb -> exists q0, ms_queues st !! b = Some q0 /\ qu_tid qb = qu_tid q0 /\
     qu_sent qb = qu_sent q0 /\ qu_sent_tail qb = qu_sent_tail q0 /\ qu_recv_result qb = qu_recv_result q0 /\
     (b = s /\ qu_send_results qb = without r (qu_send_results q) /\ qu_callback_results qb = without r (qu_callback_results q) /\ q0 = q \/
      b <> s /\ qb = q0)).
  { intros b qb. rewrite Hput. intros [[<- ->]|[Hne Hb]]%put_queue_lookup; [exists q; simpl; by split_and!; auto|].
    exists qb. split_and!; auto. }
  assert (Hql' : forall b q0, ms_queues st !! b = Some q0 -> exists qb, ms_queues st' !! b = Some qb /\ qu_recv_result qb = qu_recv_result q0 /\
     forall x, x <> r -> (x ∈ qu_send_results qb <-> x ∈ qu_send_results q0) /\ (x ∈ qu_callback_results qb <-> x ∈ qu_callback_results q0)).
  { intros b q0 Hb. rewrite Hput. destruct (decide (s = b)) as [<-|Hne].
    - eexists. split; [apply put_queue_lookup; left; done|]. rewrite Hq in Hb. injection Hb as <-. split; [done|]. simpl.
      intros x Hx. rewrite !elem_of_without. tauto.
    - exists q0. split; [apply put_queue_lookup; by right|]. done. }
  assert (Hres : forall r' R, ms_results st' !! r' = Some R <-> r' <> r /\ ms_results st !! r' = Some R \/
     r' = r /\ is_Some (rs_receiver res) /\ R = r_ends res (rs_msg res) None (rs_receiver res)) by (intros; apply left_sender_results).
  assert (Hkeep : forall r' R, ms_results st !! r' = Some R -> is_Some (rs_receiver R) -> exists R', ms_results st' !! r' = Some R' /\
     rs_msg R' = rs_msg R /\ rs_receiver R' = rs_receiver R).
  { intros r' R HR Hrc. destruct (decide (r' = r)) as [->|Hne].
    - rewrite Hr in HR. injection HR as <-. eexists. split; [apply Hres; right; done|done].
    - exists R. split; [apply Hres; by left|done]. }
  split.
  - unfold st', left_sender. simpl. pose proof (put_list st s (q_results q (without r (qu_send_results q)) (without r (qu_callback_results q)) (qu_recv_result q)) q Hq (wf_list _ _ _ W)). done.
  - intros b c qb qc (q1 & H1 & E1 & _)%Hql (q2 & H2 & E2 & _)%Hql E. eapply (wf_tid _ _ _ W); [done..|congruence].
  - intros b qb (q1 & H1 & _ & E1 & E2 & E3 & E4)%Hql. destruct (wf_queue _ _ _ W _ _ H1) as (Q1 & Q2 & Q3 & Q4).
    unfold queue_ok. rewrite E1, E2, E3. split_and!; [done|done| |done].
    destruct E4 as [(-> & -> & -> & ->)|[_ ->]]; [|done]. rewrite <- without_app. by apply NoDup_without.
  - intros b qb l m r' (q1 & H1 & _)%Hql Hm Hrm. destruct (wf_pending _ _ _ W _ _ _ _ _ H1 Hm Hrm) as (R & HR & Hl & Hrc).
    destruct (Hkeep _ _ HR) as (R' & HR' & E1 & E2); [by rewrite Hrc|]. exists R'. rewrite E1, E2. done.
  - intros b qb r' (q1 & H1 & _ & _ & _ & E3 & _)%Hql Hin. rewrite E3 in Hin. destruct (wf_stack _ _ _ W _ _ _ H1 Hin) as (R & HR & Hl & Hrc).
    destruct (Hkeep _ _ HR) as (R' & HR' & E1 & E2); [by rewrite Hrc|]. exists R'. rewrite E1, E2. done.
  - intros b qb r' (q1 & H1 & _ & _ & _ & _ & E4)%Hql Hin.
    assert (Hin1 : r' ∈ qu_send_results q1 ++ qu_callback_results q1 /\ r' <> r).
    { destruct E4 as [(-> & E5 & E6 & ->)|[Hne ->]].
      - rewrite E5, E6, <- without_app, elem_of_without in Hin. done.
      - split; [done|]. intros ->. destruct (wf_held _ _ _ W _ _ _ H1 Hin) as (R & HR & HsR). congruence. }
    destruct (wf_held _ _ _ W _ _ _ H1 (proj1 Hin1)) as (R & HR & HsR). exists R. split; [|done]. apply Hres. left. tauto.
  - intros r' R b HR HsR. apply Hres in HR as [[Hne HR]|(-> & _ & ->)]; [|done].
    destruct (wf_sender _ _ _ W _ _ _ HR HsR) as (q1 & H1 & Hin & Hk). destruct (Hql' _ _ H1) as (qb & Hb & _ & Hx).
    destruct (Hx r' Hne) as [X1 X2]. exists qb. split; [done|]. rewrite elem_of_app, X1, X2, <- elem_of_app. split; [done|].
    intros _. apply Hk. congruence.
  - intros r' R b HR HsR.
    assert (HR1 : exists R1, ms_results st !! r' = Some R1 /\ rs_receiver R1 = Some b /\ rs_msg R1 = rs_msg R).
    { apply Hres in HR as [[Hne HR]|(-> & _ & ->)]; [by exists R|]. exists res. simpl in *. done. }
    destruct HR1 as (R1 & HR1 & Hrc & Em). destruct (wf_receiver _ _ _ W _ _ _ HR1 Hrc) as (q1 & H1 & Hm).
    destruct (Hql' _ _ H1) as (qb & Hb & E & _). exists qb. rewrite E, <- Em. done.
  - intros r' R HR Hd. apply Hres in HR as [[Hne HR]|(-> & [? Hrc] & ->)]; [|simpl in Hd; congruence].
    destruct (wf_done _ _ _ W _ _ HR Hd) as [? H]. split; [done|]. intros _. apply H. congruence.
  - intros r' R m HR Hm. apply Hres in HR as [[Hne HR]|(-> & _ & ->)]; by eapply (wf_callback _ _ _ W).
Qed.

(** ** A result moves at its receiver *)

Definition set_messages (g : messages) (a : positive) (ms : list (positive * horizon_msgq_sent)) : messages :=
  fun b => if decide (b = a) then ms else g b.

Lemma set_messages_eq g a ms : set_messages g a ms a = ms.
Proof. unfold set_messages. by rewrite decide_True. Qed.

Lemma set_messages_ne g a ms b : b <> a -> set_messages g a ms b = g b.
Proof. intros H. unfold set_messages. by rewrite decide_False. Qed.

Lemma receiver_update_wf g st r res a q ms q' msg receiver :
  let res' := r_ends res msg (rs_sender res) receiver in
  msgq_wf g st (Some r) -> ms_results st !! r = Some res -> ms_queues st !! a = Some q ->
  rs_receiver res = Some a \/ rs_receiver res = None ->
  queue_ok ms q' -> qu_tid q' = qu_tid q -> qu_send_results q' = qu_send_results q ->
  qu_callback_results q' = qu_callback_results q ->
  (forall l m r1, sm_result m = Some r1 -> (l, m) ∈ ms <->
     r1 <> r /\ (l, m) ∈ g a \/ r1 = r /\ (l, m) ∈ ms /\ msg = Some l /\ receiver = Some a) ->
  (forall r1, r1 ∈ qu_recv_result q' <->
     r1 <> r /\ r1 ∈ qu_recv_result q \/ r1 = r /\ r1 ∈ qu_recv_result q' /\ msg = None /\ receiver = Some a) ->
  (receiver = None /\ msg = None \/ receiver = Some a /\
     match msg with None => r ∈ qu_recv_result q' | Some l => exists m, (l, m) ∈ ms /\ sm_result m = Some r end) ->
  msgq_wf (set_messages g a ms) (put_queue (put_result st r res') a q') (Some r).
Proof.
  intros res' W Hr Ha Hrc Hok Ht Hs Hc Hms Hrecv Hend.
  assert (Hq : forall b qb, ms_queues (put_queue (put_result st r res') a q') !! b = Some qb ->
     a = b /\ qb = q' \/ a <> b /\ ms_queues st !! b = Some qb) by (intros b qb Hb; by apply put_queue_lookup in Hb).
  assert (Hother : forall b R, ms_results st !! r = Some R -> rs_receiver R = Some b -> b = a)
    by (intros b R HR HRb; rewrite Hr in HR; injection HR as <-; destruct Hrc; congruence).
  assert (Hnr : forall r1 R, r1 <> r -> ms_results st !! r1 = Some R -> ms_results (put_queue (put_result st r res') a q') !! r1 = Some R)
    by (intros r1 R Hne HR; apply put_result_lookup; right; done).
  assert (Hrr : ms_results (put_queue (put_result st r res') a q') !! r = Some res') by (apply put_result_lookup; by left).
  split.
  - exact (put_list st a q' q Ha (wf_list _ _ _ W)).
  - intros b c qb qc [[<- ->]|[Hb H1]]%Hq [[<- ->]|[Hc' H2]]%Hq E; try done; eapply (wf_tid _ _ _ W); try done; congruence.
  - intros b qb [[<- ->]|[Hb H1]]%Hq; [by rewrite set_messages_eq|]. rewrite set_messages_ne by congruence. by apply (wf_queue _ _ _ W).
  - intros b qb l m r1 [[<- ->]|[Hb H1]]%Hq Hm Hr1.
    + rewrite set_messages_eq in Hm. apply (Hms _ _ _ Hr1) in Hm as [[Hne Hm]|(-> & _ & -> & ->)]; [|by exists res'].
      destruct (wf_pending _ _ _ W _ _ _ _ _ Ha Hm Hr1) as (R & HR & ?). exists R. split; [by apply Hnr|done].
    + rewrite set_messages_ne in Hm by congruence. destruct (wf_pending _ _ _ W _ _ _ _ _ H1 Hm Hr1) as (R & HR & E1 & E2).
      exists R. split; [|done]. apply Hnr; [|done]. intros ->. by apply Hb, eq_sym, (Hother b R).
  - intros b qb r1 [[<- ->]|[Hb H1]]%Hq Hin.
    + apply Hrecv in Hin as [[Hne Hin]|(-> & _ & -> & ->)]; [|by exists res'].
      destruct (wf_stack _ _ _ W _ _ _ Ha Hin) as (R & HR & ?). exists R. split; [by apply Hnr|done].
    + destruct (wf_stack _ _ _ W _ _ _ H1 Hin) as (R & HR & E1 & E2).
      exists R. split; [|done]. apply Hnr; [|done]. intros ->. by apply Hb, eq_sym, (Hother b R).
  - intros b qb r1 Hqb Hin. assert (H1 : exists R, ms_results st !! r1 = Some R /\ rs_sender R = Some b).
    { apply Hq in Hqb as [[<- ->]|[Hb H1]]; [rewrite Hs, Hc in Hin; by eapply (wf_held _ _ _ W)|by eapply (wf_held _ _ _ W)]. }
    destruct H1 as (R & HR & HRs). destruct (decide (r1 = r)) as [->|Hne].
    + exists res'. split; [done|]. simpl. congruence.
    + exists R. split; [by apply Hnr|done].
  - intros r1 R b HR HRs. assert (H1 : exists R1, ms_results st !! r1 = Some R1 /\ rs_sender R1 = Some b /\ (r1 <> r -> R1 = R)).
    { apply put_result_lookup in HR as [[<- ->]|[Hne HR]]; [exists res; simpl in HRs; by split_and!|by exists R]. }
    destruct H1 as (R1 & HR1 & HR1s & HRe). destruct (wf_sender _ _ _ W _ _ _ HR1 HR1s) as (q1 & Hq1 & Hin & Hk).
    destruct (decide (a = b)) as [<-|Hne].
    + exists q'. split; [by apply put_queue_lookup; left|]. rewrite Ha in Hq1. injection Hq1 as <-. rewrite Hs, Hc. split; [done|].
      intros Hx. rewrite <- HRe by congruence. by apply Hk.
    + exists q1. split; [by apply put_queue_lookup; right|]. split; [done|]. intros Hx. rewrite <- HRe by congruence. by apply Hk.
  - intros r1 R b HR HRr. apply put_result_lookup in HR as [[<- ->]|[Hne HR]].
    + simpl in *. destruct Hend as [[-> _]|[-> Hend]]; [done|]. injection HRr as <-. exists q'.
      split; [by apply put_queue_lookup; left|]. rewrite set_messages_eq. done.
    + destruct (wf_receiver _ _ _ W _ _ _ HR HRr) as (q1 & Hq1 & Hm). destruct (decide (a = b)) as [<-|Hnb].
      * exists q'. split; [by apply put_queue_lookup; left|]. rewrite Ha in Hq1. injection Hq1 as <-. rewrite set_messages_eq.
        destruct (rs_msg R) as [l|]; [|apply Hrecv; left; by split]. destruct Hm as (m & Hm & Hmr). exists m. split; [|done].
        apply (Hms _ _ _ Hmr). left. by split.
      * exists q1. split; [by apply put_queue_lookup; right|]. rewrite set_messages_ne by congruence. done.
  - intros r1 R HR Hd. apply put_result_lookup in HR as [[<- ->]|[Hne HR]]; [|by apply (wf_done _ _ _ W)].
    simpl in *. destruct Hend as [[_ ->]|[? _]]; [|congruence]. done.
  - intros r1 R m HR Hm. apply put_result_lookup in HR as [[<- ->]|[Hne HR]]; by eapply (wf_callback _ _ _ W).
Qed.

(** ** Appending and unlinking messages *)

Lemma append_sent_ok ms q m :
  queue_ok ms q -> queue_ok (ms ++ [(node_new (qu_sent q), m)]) (append_sent q m).
Proof.
  intros (Q1 & Q2 & Q3 & Q4). unfold queue_ok, append_sent. simpl. rewrite !fmap_app, Q2. simpl. split_and!; [|..|done|done].
  - replace (length ms) with (length ms.*1) by apply length_fmap. apply rep_append; [done|apply node_new_fresh].
  - rewrite length_app, Nat.add_1_r. simpl. rewrite lookup_app_r, length_fmap, Nat.sub_diag by (by rewrite length_fmap). done.
Qed.

(** Messages nobody waits for come and go. *)
Lemma messages_wf g st x a q q' ms :
  msgq_wf g st x -> ms_queues st !! a = Some q -> queue_ok ms q' -> qu_tid q' = qu_tid q ->
  qu_send_results q' = qu_send_results q -> qu_callback_results q' = qu_callback_results q ->
  qu_recv_result q' = qu_recv_result q ->
  (forall l m r1, sm_result m = Some r1 -> (l, m) ∈ ms <-> (l, m) ∈ g a) ->
  msgq_wf (set_messages g a ms) (put_queue st a q') x.
Proof.
  intros W Ha Hok Ht Hs Hc Hrv Hms.
  assert (Hq : forall b qb, ms_queues (put_queue st a q') !! b = Some qb ->
     a = b /\ qb = q' \/ a <> b /\ ms_queues st !! b = Some qb) by (intros b qb Hb; by apply put_queue_lookup in Hb).
  assert (Hg : forall b l m' r1, sm_result m' = Some r1 -> (l, m') ∈ set_messages g a ms b <-> (l, m') ∈ g b).
  { intros b l m' r1 Hr1. unfold set_messages. destruct (decide (b = a)) as [->|]; [by eapply Hms|done]. }
  assert (Hq' : forall b qb, ms_queues st !! b = Some qb -> exists qb', ms_queues (put_queue st a q') !! b = Some qb' /\
     qu_send_results qb' = qu_send_results qb /\ qu_callback_results qb' = qu_callback_results qb /\
     qu_recv_result qb' = qu_recv_result qb).
  { intros b qb Hb. destruct (decide (a = b)) as [<-|Hne].
    - eexists. split; [by apply put_queue_lookup; left|]. rewrite Ha in Hb. by injection Hb as <-.
    - exists qb. split; [by apply put_queue_lookup; right|done]. }
  split.
  - exact (put_list st a _ q Ha (wf_list _ _ _ W)).
  - intros b c qb qc [[<- ->]|[Hb H1]]%Hq [[<- ->]|[Hc' H2]]%Hq E; try done; eapply (wf_tid _ _ _ W); try done; congruence.
  - intros b qb [[<- ->]|[Hb H1]]%Hq; [by rewrite set_messages_eq|]. rewrite set_messages_ne by congruence. by apply (wf_queue _ _ _ W).
  - intros b qb l m' r1 Hqb Hin Hr1. rewrite Hg in Hin by done.
    apply Hq in Hqb as [[<- ->]|[_ H1]]; by eapply (wf_pending _ _ _ W).
  - intros b qb r1 [[<- ->]|[_ H1]]%Hq; rewrite ?Hrv; intros Hin; by eapply (wf_stack _ _ _ W).
  - intros b qb r1 [[<- ->]|[_ H1]]%Hq; rewrite ?Hs, ?Hc; intros Hin; by eapply (wf_held _ _ _ W).
  - intros r1 R b HR HRs. destruct (wf_sender _ _ _ W _ _ _ HR HRs) as (q1 & Hq1 & Hin & Hk).
    destruct (Hq' _ _ Hq1) as (qb & Hqb & E1 & E2 & _). exists qb. rewrite E1, E2. done.
  - intros r1 R b HR HRr. destruct (wf_receiver _ _ _ W _ _ _ HR HRr) as (q1 & Hq1 & Hin).
    destruct (Hq' _ _ Hq1) as (qb & Hqb & _ & _ & E). exists qb. rewrite E. split; [done|].
    destruct (rs_msg R); [|done]. destruct Hin as (m' & Hin & Hr1). exists m'. rewrite Hg; done.
  - apply (wf_done _ _ _ W).
  - apply (wf_callback _ _ _ W).
Qed.

Lemma append_wf g st x a q m :
  msgq_wf g st x -> ms_queues st !! a = Some q -> sm_result m = None ->
  msgq_wf (set_messages g a (g a ++ [(node_new (qu_sent q), m)])) (put_queue st a (append_sent q m)) x.
Proof.
  intros W Ha Hm. eapply messages_wf; try done; [by apply append_sent_ok, (wf_queue _ _ _ W)|].
  intros l m' r1 Hr1. rewrite elem_of_app, list_elem_of_singleton. split; [|tauto]. intros [?|[= -> ->]]; [done|congruence].
Qed.

Lemma find_link_rep fuel s ls xs l i j :
  clist_rep s ls xs -> ls !! j = Some l -> (i <= j)%nat -> (j - i < fuel)%nat ->
  find_link fuel s l (link_at ls i) = Some (Some (link_at ls j)).
Proof.
  intros Hr Hj. pose proof (lookup_lt_Some _ _ _ Hj) as Hjl. revert i. induction fuel as [|fuel IH]; intros i Hi Hf; [lia|].
  cbn [find_link]. rewrite (link_get_at _ _ _ i Hr) by lia.
  destruct (ls !! i) as [l'|] eqn:Hl'; [|apply lookup_ge_None in Hl'; lia].
  destruct (decide (l' = l)) as [->|Hne].
  - assert (i = j) as -> by (eapply NoDup_lookup; [apply Hr|done..]). done.
  - assert (i <> j) by congruence. destruct (rep_payload _ _ _ _ _ Hr Hl') as [x Hx].
    rewrite (rep_node _ _ _ Hr _ _ _ Hl' Hx). simpl.
    replace (LNext l') with (link_at ls (S i)) by (simpl; by rewrite Hl'). apply IH; lia.
Qed.

Lemma rep_size s ls (xs : list horizon_msgq_sent) : clist_rep s ls xs -> (length ls <= size (cl_heap s))%nat.
Proof.
  intros Hr. rewrite <- (size_list_to_set (C := gset positive) ls) by apply Hr. rewrite <- size_dom. apply subseteq_size.
  intros l Hl. apply elem_of_list_to_set, list_elem_of_lookup in Hl as [i Hi].
  destruct (rep_payload _ _ _ _ _ Hr Hi) as [x Hx]. apply elem_of_dom. rewrite (rep_node _ _ _ Hr _ _ _ Hi Hx). by eexists.
Qed.

Lemma unlink_sent_ok ms q i l m :
  queue_ok ms q -> ms !! i = Some (l, m) ->
  exists q1, horizon_msgq_unlink_sent q l = Some q1 /\ queue_ok (delete i ms) (drop_sent q1 l) /\
    same_queue (q_sent q (qu_sent (drop_sent q1 l)) (qu_sent_tail (drop_sent q1 l))) (drop_sent q1 l) /\
    cl_heap (qu_sent q) !! l = Some (m, ms.*1 !! S i).
Proof.
  intros (Q1 & Q2 & Q3 & Q4) Hi. assert (Hl : ms.*1 !! i = Some l) by (by rewrite list_lookup_fmap, Hi).
  assert (Hm : ms.*2 !! i = Some m) by (by rewrite list_lookup_fmap, Hi).
  pose proof (lookup_lt_Some _ _ _ Hi) as Hlt. pose proof (rep_node _ _ _ Q1 _ _ _ Hl Hm) as Hn.
  unfold horizon_msgq_unlink_sent. pose proof (rep_size _ _ _ Q1) as Hsz. rewrite length_fmap in Hsz.
  change LHead with (link_at ms.*1 0). rewrite (find_link_rep _ _ _ _ l 0 i Q1 Hl) by lia. simpl. rewrite Hn. simpl. eexists. split; [done|].
  assert (Hnf : node_free (node_put (link_set (qu_sent q) (link_at ms.*1 i) (ms.*1 !! S i)) l m None) l =
                node_free (link_set (qu_sent q) (link_at ms.*1 i) (ms.*1 !! S i)) l)
    by (unfold node_free, node_put; simpl; by rewrite delete_insert_eq).
  split_and!; [|done|done]. unfold queue_ok, drop_sent. simpl.
  rewrite !list_fmap_delete, Hnf. split_and!; [by apply rep_remove| |done|done].
  rewrite length_delete by (by eexists). rewrite Q2.
  assert (Hlast : link_at ms.*1 (length ms) = LNext l <-> S i = length ms).
  { replace (LNext l) with (link_at ms.*1 (S i)) by (simpl; by rewrite Hl). split; [|by intros ->].
    intros E. symmetry. eapply (link_at_inj ms.*1); [apply Q1|rewrite length_fmap; lia..|done]. }
  destruct (decide (link_at ms.*1 (length ms) = LNext l)) as [E|E].
  - apply Hlast in E. replace (length ms - 1)%nat with i by lia. symmetry. apply link_at_delete. lia.
  - assert (Hne : S i <> length ms) by (intros ?; by apply E, Hlast). destruct (length ms) as [|n] eqn:En; [lia|].
    simpl. rewrite Nat.sub_0_r. destruct n as [|n]; [lia|]. simpl. rewrite list_lookup_delete_ge by lia. done.
Qed.

(** A result without owners is freed. *)
Lemma free_result_wf g st r res :
  msgq_wf g st (Some r) -> ms_results st !! r = Some res -> rs_sender res = None -> rs_receiver res = None ->
  msgq_wf g (mk_msgqs (ms_list st) (ms_queues st) (delete r (ms_results st))) None.
Proof.
  intros W Hr Hs Hrc.
  assert (Hd : forall r' R, delete r (ms_results st) !! r' = Some R <-> r' <> r /\ ms_results st !! r' = Some R).
  { intros r' R. rewrite lookup_delete_Some. naive_solver. }
  assert (Hno : forall r' R, ms_results st !! r' = Some R -> is_Some (rs_receiver R) \/ is_Some (rs_sender R) -> r' <> r).
  { intros r' R HR [[? ?]|[? ?]] ->; congruence. }
  split; simpl; try (by destruct W).
  - intros a q l m r' Hq Hm Hmr. destruct (wf_pending _ _ _ W _ _ _ _ _ Hq Hm Hmr) as (R & HR & E1 & E2).
    exists R. rewrite Hd. split; [|done]. split; [|done]. eapply Hno; [done|]. rewrite E2. left. by eexists.
  - intros a q r' Hq Hin. destruct (wf_stack _ _ _ W _ _ _ Hq Hin) as (R & HR & E1 & E2).
    exists R. rewrite Hd. split; [|done]. split; [|done]. eapply Hno; [done|]. rewrite E2. left. by eexists.
  - intros a q r' Hq Hin. destruct (wf_held _ _ _ W _ _ _ Hq Hin) as (R & HR & E1).
    exists R. rewrite Hd. split; [|done]. split; [|done]. eapply Hno; [done|]. rewrite E1. right. by eexists.
  - intros r' R a [Hne HR]%Hd HRs. destruct (wf_sender _ _ _ W _ _ _ HR HRs) as (q & Hq & Hin & Hkk). exists q. split_and!; [done..|].
    intros _. apply Hkk. congruence.
  - intros r' R a [Hne HR]%Hd. by apply (wf_receiver _ _ _ W).
  - intros r' R [Hne HR]%Hd HRd. destruct (wf_done _ _ _ W _ _ HR HRd) as [? Hx]. split; [done|]. intros _. apply Hx. congruence.
  - intros r' R m [Hne HR]%Hd. by eapply (wf_callback _ _ _ W).
Qed.

(** ** Storing a result *)

(** The sender has the answer: in its result, or as the message it asked for,
    and then the result is not its any more. *)
Definition told (g : messages) (st : horizon_msgqs) (r : positive) (res : horizon_msgq_result) (value error : Z) : Prop :=
  forall s, rs_sender res = Some s ->
    match rs_callback_msg res with
    | None => exists res', ms_results st !! r = Some res' /\ rs_sender res' = Some s /\ rs_callback_msg res' = None /\
                rs_replied res' = true /\ rs_error res' = error /\ rs_result res' = value
    | Some cb => (exists l, (l, callback_answer cb value) ∈ g s) /\ forall res', ms_results st !! r = Some res' -> rs_sender res' = None
    end.

(** What storing a result leaves alone: every other result and every queue but
    the sender's. *)
Record stored (g : messages) (st : horizon_msgqs) (r : positive) (res : horizon_msgq_result) (value error : Z)
    (g' : messages) (st' : horizon_msgqs) : Prop := {
  so_wf : msgq_wf g' st' None;
  so_list : ms_list st' = ms_list st;
  so_result : match ms_results st' !! r with
              | None => True
              | Some res' => rs_replied res' = true /\ rs_error res' = error /\ rs_result res' = value
              end;
  so_others r' : r' <> r -> ms_results st' !! r' = ms_results st !! r';
  so_queues b : rs_sender res <> Some b -> ms_queues st' !! b = ms_queues st !! b /\ g' b = g b;
  so_told : told g' st' r res value error;
  so_messages b x : x ∈ g b -> x ∈ g' b
}.

Lemma store_plain_eq st r res s q value error :
  ms_results st !! r = Some res -> rs_sender res = Some s -> rs_callback_msg res = None -> ms_queues st !! s = Some q ->
  horizon_msgq_store_result st r value error =
    let st1 := put_result st r (r_answer res value error) in
    Some (if bool_decide (head (qu_send_results q) = Some r)
          then put_queue st1 s (horizon_msgq_touch q HORIZON_MSGQ_QS_SMRESULT) else st1).
Proof.
  intros Hr Hs Hc Hq. unfold horizon_msgq_store_result. rewrite Hr. simpl. rewrite Hs, Hq. simpl. rewrite Hc. by case_bool_decide.
Qed.

Section store.
Context (g : messages) (st : horizon_msgqs) (r : positive) (res : horizon_msgq_result) (value error : Z).
Context (W : msgq_wf g st (Some r)) (Hr : ms_results st !! r = Some res).
Let res1 := r_answer res value error.
Let st1 := put_result st r res1.

Lemma store_answered : msgq_wf g st1 (Some r) /\ ms_results st1 !! r = Some res1 /\
  forall r', r' <> r -> ms_results st1 !! r' = ms_results st !! r'.
Proof using W Hr.
  split_and!; [|apply put_result_lookup; by left|intros r' Hne; simpl; by rewrite lookup_insert_ne].
  apply (wf_put_result _ _ _ res); try done. intros m Hm. by eapply (wf_callback _ _ _ W).
Qed.

(** The answer goes to the sender as a message of its own. *)
Lemma store_callback_wf s q cb :
  rs_sender res = Some s -> ms_queues st !! s = Some q -> rs_callback_msg res = Some cb ->
  exists g' st', horizon_msgq_store_result st r value error = Some st' /\ stored g st r res value error g' st'.
Proof using W Hr.
  intros Hs Hq Hcb. destruct store_answered as (W1 & Hr1 & _).
  unfold horizon_msgq_store_result. rewrite Hr. simpl. rewrite Hs, Hq. simpl. rewrite Hcb. fold res1 st1.
  set (q1 := append_sent q (callback_answer cb value)). set (q2 := horizon_msgq_touch q1 _).
  set (st3 := put_result (put_queue st1 s q2) r _).
  set (g1 := set_messages g s (g s ++ [(node_new (qu_sent q), callback_answer cb value)])).
  assert (W2 : msgq_wf g1 (put_queue st1 s q2) (Some r)).
  { assert (W2 : msgq_wf g1 (put_queue st1 s q1) (Some r)) by
      (apply append_wf; [done|done|simpl; by eapply (wf_callback _ _ _ W)]).
    replace (put_queue st1 s q2) with (put_queue (put_queue st1 s q1) s q2)
      by (unfold put_queue; simpl; by rewrite insert_insert_eq).
    eapply wf_put_same; [done|apply put_queue_lookup; by left|done]. }
  assert (W3 : msgq_wf g1 st3 (Some r)) by (apply (wf_put_result _ _ _ res1); done).
  assert (Hr3 : ms_results st3 !! r = Some (r_callback res1 None)) by (apply put_result_lookup; by left).
  assert (Hq3 : ms_queues st3 !! s = Some q2) by (apply (lookup_insert_eq (ms_queues st))).
  exists g1, (left_sender st3 r (r_callback res1 None) s q2). split; [by eapply remove_from_sender_eq|]. split.
  - by apply left_sender_wf.
  - done.
  - destruct (ms_results (left_sender _ _ _ _ _) !! r) as [R|] eqn:HR; [|done].
    apply left_sender_results in HR as [[? _]|(_ & _ & ->)]; done.
  - intros r' Hne. apply option_eq. intros R. rewrite left_sender_results. simpl.
    rewrite insert_insert_eq, lookup_insert_ne by done. naive_solver.
  - intros b Hb. assert (Hbs : s <> b) by congruence. simpl. rewrite !lookup_insert_ne by done. split; [done|]. by apply set_messages_ne.
  - intros s' Hs'. rewrite Hs in Hs'. injection Hs' as <-. rewrite Hcb. split.
    + eexists. unfold g1. rewrite set_messages_eq. apply elem_of_app. right. apply list_elem_of_here.
    + intros R HR. apply left_sender_results in HR as [[? _]|(_ & _ & ->)]; done.
  - intros b x Hx. unfold g1, set_messages. case_decide as E; [subst b; apply elem_of_app; by left|done].
Qed.

(** The sender finds the answer in its list. *)
Lemma store_plain_wf s q :
  rs_sender res = Some s -> ms_queues st !! s = Some q -> rs_callback_msg res = None -> r ∈ qu_send_results q ->
  exists g' st', horizon_msgq_store_result st r value error = Some st' /\ stored g st r res value error g' st'.
Proof using W Hr.
  intros Hs Hq Hcb Hsend. destruct store_answered as (W1 & Hr1 & Hoth).
  rewrite (store_plain_eq _ _ _ s q) by done. cbv zeta. fold res1 st1.
  assert (W2 : msgq_wf g st1 None).
  { apply (wf_close _ _ r); [done|]. intros R HR. rewrite Hr1 in HR. injection HR as <-. simpl. rewrite Hs, Hcb. split; [done|].
    intros a q' [= <-] Hq'. simpl in Hq'. rewrite Hq in Hq'. injection Hq' as <-. by left. }
  exists g. eexists. split; [done|]. destruct (bool_decide _).
  - split; [eapply wf_put_same; [done|exact Hq|done]|done|simpl; by rewrite lookup_insert_eq|apply Hoth| |intros s' Hs'; rewrite Hcb; exists res1; simpl; by rewrite lookup_insert_eq|done].
    intros b Hb. assert (Hbs : s <> b) by congruence. simpl. by rewrite lookup_insert_ne.
  - split; [done|done|simpl; by rewrite lookup_insert_eq|apply Hoth|done|intros s' Hs'; rewrite Hcb; exists res1; simpl; by rewrite lookup_insert_eq|done].
Qed.

(** Nobody waits for the answer. *)
Lemma store_alone_wf :
  rs_sender res = None ->
  exists g' st', horizon_msgq_store_result st r value error = Some st' /\ stored g st r res value error g' st'.
Proof using W Hr.
  intros Hs. destruct store_answered as (W1 & Hr1 & Hoth).
  unfold horizon_msgq_store_result. rewrite Hr. simpl. rewrite Hs. fold res1 st1. destruct (rs_receiver res) as [a|] eqn:Hrc.
  - exists g, st1. split; [done|]. split; [|done|by rewrite Hr1|apply Hoth|done|intros s' Hs'; congruence|done]. apply (wf_close _ _ r); [done|].
    intros R HR. rewrite Hr1 in HR. injection HR as <-. simpl. rewrite Hs, Hrc. done.
  - unfold horizon_msgq_free_result. rewrite Hr1. simpl. exists g. eexists. split; [done|].
    split; [by apply (free_result_wf _ st1 _ res1)|done|simpl; by rewrite lookup_delete_eq| |done|intros s' Hs'; congruence|done].
    intros r' Hne; simpl; by rewrite lookup_delete_ne, lookup_insert_ne.
Qed.

Lemma store_result_wf :
  (forall s q, rs_sender res = Some s -> ms_queues st !! s = Some q ->
     r ∈ qu_send_results q /\ rs_callback_msg res = None \/ r ∈ qu_callback_results q /\ is_Some (rs_callback_msg res)) ->
  exists g' st', horizon_msgq_store_result st r value error = Some st' /\ stored g st r res value error g' st'.
Proof using W Hr.
  intros Hk. destruct (rs_sender res) as [s|] eqn:Hs; [|by apply store_alone_wf].
  destruct (wf_sender _ _ _ W _ _ _ Hr Hs) as (q & Hq & _). destruct (Hk s q eq_refl Hq) as [[? ?]|[_ [cb ?]]].
  - by eapply store_plain_wf.
  - by eapply store_callback_wf.
Qed.
End store.

(** The kind of a result is right wherever no work on it is under way. *)
Lemma wf_kind g st r res s q :
  msgq_wf g st None -> ms_results st !! r = Some res -> rs_sender res = Some s -> ms_queues st !! s = Some q ->
  r ∈ qu_send_results q /\ rs_callback_msg res = None \/
  r ∈ qu_callback_results q /\ is_Some (rs_callback_msg res) /\ rs_replied res = false.
Proof.
  intros W Hr Hs Hq. destruct (wf_sender _ _ _ W _ _ _ Hr Hs) as (q' & Hq' & _ & Hk). rewrite Hq in Hq'. injection Hq' as <-. by apply Hk.
Qed.

(** ** Receiving *)

(** Messages have addresses of their own. *)
Lemma queue_ok_nodup ms q : queue_ok ms q -> NoDup ms.*1.
Proof. intros (Q1 & _). apply Q1. Qed.

Lemma message_once ms q l m l' m' : queue_ok ((l, m) :: ms) q -> (l', m') ∈ ms -> l' <> l.
Proof.
  intros Hok Hin ->. apply queue_ok_nodup in Hok. rewrite fmap_cons in Hok. inversion Hok as [|? ? Hn _]; subst. apply Hn.
  apply list_elem_of_fmap. by exists (l, m').
Qed.

(** The message that is first, or any other that carries a result, is the only
    one for that result. *)
Lemma result_once g st x a q l m l' m' r :
  msgq_wf g st x -> ms_queues st !! a = Some q -> (l, m) ∈ g a -> (l', m') ∈ g a ->
  sm_result m = Some r -> sm_result m' = Some r -> l' = l.
Proof.
  intros W Ha Hm Hm' Hr Hr'. destruct (wf_pending _ _ _ W _ _ _ _ _ Ha Hm Hr) as (R & HR & E & _).
  destruct (wf_pending _ _ _ W _ _ _ _ _ Ha Hm' Hr') as (R' & HR' & E' & _). congruence.
Qed.

Lemma pending_not_stacked g st x a q l m r :
  msgq_wf g st x -> ms_queues st !! a = Some q -> (l, m) ∈ g a -> sm_result m = Some r -> r ∉ qu_recv_result q.
Proof.
  intros W Ha Hm Hr Hin. destruct (wf_pending _ _ _ W _ _ _ _ _ Ha Hm Hr) as (R & HR & E & _).
  destruct (wf_stack _ _ _ W _ _ _ Ha Hin) as (R' & HR' & E' & _). congruence.
Qed.

(** Taking a message with a result out of its queue, whatever becomes of the
    result. *)
Lemma take_message_wf g st a q i l m r res q1 receiver :
  msgq_wf g st None -> ms_queues st !! a = Some q -> g a !! i = Some (l, m) -> sm_result m = Some r ->
  ms_results st !! r = Some res -> horizon_msgq_unlink_sent q l = Some q1 ->
  let recv := if receiver : option positive then r :: qu_recv_result q else qu_recv_result q in
  receiver = None \/ receiver = Some a ->
  msgq_wf (set_messages g a (delete i (g a)))
    (put_queue (put_result st r (r_ends res None (rs_sender res) receiver)) a
       (q_results (drop_sent q1 l) (qu_send_results q) (qu_callback_results q) recv)) (Some r).
Proof.
  intros W Ha Hi Hm Hr Hu recv Hrv. pose proof (wf_queue _ _ _ W _ _ Ha) as Hok.
  assert (Hin : (l, m) ∈ g a) by (by eapply list_elem_of_lookup_2).
  destruct (unlink_sent_ok _ _ _ _ _ Hok Hi) as (q1' & Hu' & Hok1 & (T & _ & _ & E1 & E2 & E3) & _).
  rewrite Hu in Hu'. injection Hu' as <-. simpl in T, E1, E2, E3.
  pose proof (pending_not_stacked _ _ _ _ _ _ _ _ W Ha Hin Hm) as Hns.
  destruct (wf_pending _ _ _ W _ _ _ _ _ Ha Hin Hm) as (R & HR & Hmsg & Hrc). rewrite Hr in HR. injection HR as <-.
  assert (Hother : forall l' m', (l', m') ∈ delete i (g a) -> (l', m') ∈ g a /\ l' <> l).
  { intros l' m' Hin'. split; [by eapply delete_elem_of|]. intros ->. apply list_elem_of_lookup in Hin' as [j Hj].
    pose proof (queue_ok_nodup _ _ Hok) as Hnd. assert (Hj' : exists k, k <> i /\ g a !! k = Some (l, m')).
    { destruct (decide (j < i)%nat); [rewrite list_lookup_delete_lt in Hj by done; exists j; split; [lia|done]|].
      rewrite list_lookup_delete_ge in Hj by lia. exists (S j). split; [lia|done]. }
    destruct Hj' as (k & Hk & Hkl). apply Hk. eapply (NoDup_lookup (g a).*1); [done|..]; rewrite list_lookup_fmap; [rewrite Hkl|rewrite Hi]; done. }
  apply (receiver_update_wf g st r res a q); try done.
  - by apply wf_weaken.
  - by left.
  - destruct Hok1 as (O1 & O2 & O3 & O4). unfold queue_ok. simpl in *. rewrite E1, E2, E3 in *. split_and!; [done..|].
    unfold recv. destruct receiver; [constructor|]; done.
  - intros l' m' r1 Hr1. split.
    + intros [Hin' Hne]%Hother. left. split; [|done]. intros ->. apply Hne. by eapply (result_once g st None a q l m).
    + intros [[Hne Hin']|(_ & ? & _)]; [|done]. apply list_elem_of_lookup in Hin' as [j Hj].
      assert (j <> i) by (intros ->; rewrite Hi in Hj; injection Hj as -> ->; congruence).
      destruct (decide (j < i)%nat).
      * apply list_elem_of_lookup. exists j. by rewrite list_lookup_delete_lt.
      * apply list_elem_of_lookup. exists (j - 1)%nat. rewrite list_lookup_delete_ge by lia. by replace (S (j - 1)) with j by lia.
  - simpl. unfold recv. intros r1. destruct Hrv as [->| ->].
    + split; [|by intros [[_ ?]|(_ & _ & _ & ?)]]. intros Hin'. left. split; [|done]. intros ->. done.
    + rewrite elem_of_cons. split; [|tauto]. intros [->|Hin']; [tauto|]. left. split; [|done]. intros ->. done.
  - destruct Hrv as [->| ->]; [by left|right]. simpl. unfold recv. split; [done|]. set_solver.
Qed.

Definition received (m : horizon_msgq_sent) (recv : list positive) : list positive :=
  match sm_result m with Some r => r :: recv | None => recv end.

Lemma receive_wf g st a q :
  msgq_wf g st None -> ms_queues st !! a = Some q ->
  match g a with
  | [] => horizon_msgq_receive st a = Some (None, st)
  | (l, m) :: ms => exists st' q', horizon_msgq_receive st a = Some (Some (sent_copy m (sm_data m) None), st') /\
      msgq_wf (set_messages g a ms) st' None /\
      ms_queues st' = <[a := q']> (ms_queues st) /\ qu_send_results q' = qu_send_results q /\
      qu_recv_result q' = received m (qu_recv_result q) /\
      (forall r', ms_results st' !! r' = if decide (sm_result m = Some r') then
         (fun res => r_ends res None (rs_sender res) (rs_receiver res)) <$> ms_results st !! r' else ms_results st !! r')
  end.
Proof.
  intros W Ha. pose proof (wf_queue _ _ _ W _ _ Ha) as Hok. unfold horizon_msgq_receive. rewrite Ha. simpl.
  destruct (g a) as [|[l m] ms] eqn:Hg.
  { destruct Hok as (Q1 & _). by rewrite (rep_head _ _ _ Q1). }
  pose proof Hok as (Q1 & _). rewrite (rep_head _ _ _ Q1). simpl.
  destruct (unlink_sent_ok _ _ 0 l m Hok eq_refl) as (q1 & Hu & Hok1 & (T & _ & _ & E1 & E2 & E3) & Hh). simpl in *.
  rewrite Hh. simpl. rewrite Hu. simpl. destruct (sm_result m) as [r|] eqn:Hm.
  - destruct (wf_pending _ _ _ W a q l m r Ha) as (res & Hr & Hmsg & Hrc); [rewrite Hg; set_solver|done|].
    rewrite Hr. simpl. rewrite E1, E2, E3. eexists _, _. split; [done|].
    pose proof (take_message_wf g st a q 0 l m r res q1 (Some a) W Ha ltac:(by rewrite Hg) Hm Hr Hu ltac:(by right)) as W1.
    rewrite Hg in W1. simpl in W1. split_and!; [|done|done|unfold received; by rewrite Hm|].
    + rewrite Hrc. eapply wf_close; [exact W1|]. intros R HR. apply put_result_lookup in HR as [[_ ->]|[? _]]; [|done]. simpl. split; [done|].
      intros b qb Hsb Hqb. destruct (wf_sender _ _ _ W _ _ _ Hr Hsb) as (q0 & Hq0 & _ & Hk). specialize (Hk ltac:(done)).
      apply put_queue_lookup in Hqb as [[<- ->]|[Hne Hqb]]; simpl; [rewrite Ha in Hq0; by injection Hq0 as ->|].
      simpl in Hqb. rewrite Hq0 in Hqb. by injection Hqb as ->.
    + intros r'. simpl. destruct (decide (Some r = Some r')) as [[= <-]|Hne]; [by rewrite lookup_insert_eq, Hr|].
      by rewrite lookup_insert_ne by congruence.
  - eexists _, _. split; [by destruct m; simpl in Hm; subst|]. split_and!; [|done|done|unfold received; by rewrite Hm|done].
    eapply messages_wf; try done. intros l' m' r1 Hr1. rewrite Hg, elem_of_cons. split; [tauto|]. intros [[= -> ->]|?]; [congruence|done].
Qed.

Lemma wf_ext g g' st x : (forall b, g' b = g b) -> msgq_wf g st x -> msgq_wf g' st x.
Proof.
  intros E W. split; try (by destruct W).
  - intros a q. rewrite E. apply (wf_queue _ _ _ W).
  - intros a q l m r. rewrite E. apply (wf_pending _ _ _ W).
  - intros r res a Hr Hrc. destruct (wf_receiver _ _ _ W _ _ _ Hr Hrc) as (q & Hq & Hm). exists q. by rewrite E.
Qed.

Lemma set_messages_id g a b : set_messages g a (g a) b = g b.
Proof. unfold set_messages. by destruct (decide (b = a)) as [->|]. Qed.

(** ** Replying *)

(** What a reply leaves alone. *)
Record replied (g : messages) (st : horizon_msgqs) (a r : positive) (res : horizon_msgq_result) (q' : horizon_msgq)
    (g' : messages) (st' : horizon_msgqs) : Prop := {
  rp_wf : msgq_wf g' st' None;
  rp_list : ms_list st' = ms_list st;
  rp_result : match ms_results st' !! r with None => True | Some res' => rs_replied res' = true end;
  rp_others r' : r' <> r -> ms_results st' !! r' = ms_results st !! r';
  rp_queues b : rs_sender res <> Some b -> ms_queues st' !! b = (if decide (b = a) then Some q' else ms_queues st !! b) /\ g' b = g b
}.

Section reply.
Context (g : messages) (st : horizon_msgqs) (a : positive) (q : horizon_msgq) (r : positive) (rest : list positive)
  (res : horizon_msgq_result).
Context (W : msgq_wf g st None) (Ha : ms_queues st !! a = Some q) (Hrv : qu_recv_result q = r :: rest)
  (Hr : ms_results st !! r = Some res).
Let popped : horizon_msgq := q_results q (qu_send_results q) (qu_callback_results q) rest.
Let res1 : horizon_msgq_result := r_ends res (rs_msg res) (rs_sender res) None.
Let st1 : horizon_msgqs := put_result (put_queue st a popped) r res1.

Lemma reply_head : rs_msg res = None /\ rs_receiver res = Some a.
Proof using W Ha Hrv Hr.
  destruct (wf_stack _ _ _ W a q r Ha) as (R & HR & ?); [rewrite Hrv; set_solver|]. rewrite Hr in HR. by injection HR as <-.
Qed.

Lemma reply_popped : msgq_wf g st1 (Some r).
Proof using W Ha Hrv Hr.
  destruct reply_head as [Hm Hrc]. pose proof (wf_queue _ _ _ W _ _ Ha) as (Q1 & Q2 & Q3 & Q4). rewrite Hrv in Q4.
  inversion Q4 as [|? ? Hnr Q4']; subst.
  eapply (wf_ext (set_messages g a (g a))); [intros b; by rewrite set_messages_id|].
  unfold st1, res1. rewrite Hm.
  change (put_result (put_queue st a popped) r ?R) with (put_queue (put_result st r R) a popped).
  apply (receiver_update_wf g st r res a q); try done.
  - by apply wf_weaken.
  - by left.
  - intros l m r1 Hr1. split; [|by intros [[_ ?]|(_ & _ & ? & _)]]. intros Hin. left. split; [|done]. intros ->.
    eapply pending_not_stacked; [done..|]. rewrite Hrv. set_solver.
  - simpl. intros r1. rewrite Hrv, elem_of_cons. split.
    + intros Hin. left. split; [by intros ->|by right].
    + intros [[? [?|?]]|(_ & _ & _ & ?)]; done.
  - by left.
Qed.

Lemma reply_queues b : rs_sender res <> Some b ->
  ms_queues st1 !! b = if decide (b = a) then Some popped else ms_queues st !! b.
Proof using.
  intros _. simpl. destruct (decide (b = a)) as [->|Hne]; [by rewrite lookup_insert_eq|by rewrite lookup_insert_ne].
Qed.

Lemma reply_kind s q0 (st2 : horizon_msgqs) : ms_queues st2 = ms_queues st \/ ms_queues st2 = ms_queues st1 ->
  rs_sender res = Some s -> ms_queues st2 !! s = Some q0 ->
  r ∈ qu_send_results q0 /\ rs_callback_msg res = None \/ r ∈ qu_callback_results q0 /\ is_Some (rs_callback_msg res) /\ rs_replied res = false.
Proof using W Ha Hr.
  intros E Hs Hq0. assert (H1 : exists q1, ms_queues st !! s = Some q1 /\ qu_send_results q0 = qu_send_results q1 /\ qu_callback_results q0 = qu_callback_results q1).
  { destruct E as [E|E]; rewrite E in Hq0; [by exists q0|]. simpl in Hq0. apply lookup_insert_Some in Hq0 as [[<- <-]|[_ Hq0]]; [by exists q|by exists q0]. }
  destruct H1 as (q1 & Hq1 & -> & ->). by eapply wf_kind.
Qed.

Lemma reply_wf memory value error remove data :
  exists g' st', horizon_msgq_reply memory st a value error remove data = Some (HORIZON_MSGQ_STATUS_SUCCESS, st') /\
    replied g st a r res (if remove then popped else q) g' st'.
Proof using W Ha Hrv Hr.
  destruct reply_head as [Hm Hrc]. unfold horizon_msgq_reply. rewrite Ha. simpl. rewrite Hrv, Hr. simpl.
  set (res2 := if remove then res1 else res). set (st2 := if remove then st1 else put_result st r res).
  assert (E : (if remove then (r_ends res (rs_msg res) (rs_sender res) None, put_queue st a popped) else (res, st)) =
          (res2, if remove then put_queue st a popped else st)) by (unfold res2, res1; by destruct remove).
  fold popped. rewrite E. clear E.
  assert (Est2 : put_result (if remove then put_queue st a popped else st) r res2 = st2) by (unfold st2, res2, st1; by destruct remove).
  rewrite Est2. clear Est2.
  assert (W2 : msgq_wf g st2 (Some r)).
  { unfold st2. destruct remove; [apply reply_popped|]. apply (wf_put_result _ _ _ res); try done; [by apply wf_weaken|].
    intros m Hcb. by eapply (wf_callback _ _ _ W). }
  assert (Hr2 : ms_results st2 !! r = Some res2) by (unfold st2, res2; destruct remove; simpl; by rewrite lookup_insert_eq).
  assert (Es : rs_sender res2 = rs_sender res) by (unfold res2; by destruct remove).
  assert (Ec : rs_callback_msg res2 = rs_callback_msg res) by (unfold res2; by destruct remove).
  assert (Er : rs_replied res2 = rs_replied res) by (unfold res2; by destruct remove).
  assert (Hoth : forall r', r' <> r -> ms_results st2 !! r' = ms_results st !! r').
  { intros r' Hne. unfold st2. destruct remove; simpl; by rewrite lookup_insert_ne. }
  assert (HQ : forall b, rs_sender res <> Some b -> ms_queues st2 !! b = if decide (b = a) then Some (if remove then popped else q) else ms_queues st !! b).
  { intros b Hb. unfold st2. destruct remove; [by apply reply_queues|]. simpl. destruct (decide (b = a)) as [->|]; done. }
  assert (HQ2 : ms_queues st2 = ms_queues st \/ ms_queues st2 = ms_queues st1) by (unfold st2; destruct remove; [by right|by left]).
  assert (HL : ms_list st2 = ms_list st) by (unfold st2; by destruct remove).
  clearbody st2. rewrite Es, Er. destruct (remove && negb (bool_decide (is_Some (rs_sender res)))) eqn:Hfree.
  { apply andb_true_iff in Hfree as [-> Hns]. apply negb_true_iff, bool_decide_eq_false in Hns.
    assert (Hs : rs_sender res = None) by (destruct (rs_sender res); [destruct Hns; by eexists|done]).
    unfold horizon_msgq_free_result. rewrite Hr2. simpl. exists g. eexists. split; [done|].
    split; [by apply (free_result_wf _ st2 _ res2); [..|rewrite Es|]|done|simpl; by rewrite lookup_delete_eq| |by intros b Hb; rewrite HQ].
    intros r' Hne. simpl. rewrite lookup_delete_ne by done. by apply Hoth. }
  destruct (rs_replied res) eqn:Hrep; simpl.
  - exists g, st2. split; [done|]. split; [|done|rewrite Hr2, Er; done|done|by intros b Hb; rewrite HQ].
    eapply wf_close; [done|]. intros R HR. rewrite Hr2 in HR. injection HR as <-. rewrite Es, Ec, Er. split.
    + intros Hn. split; [done|]. destruct remove; [|unfold res2 in Hn; congruence]. simpl in Hfree.
      apply negb_false_iff, bool_decide_eq_true in Hfree. done.
    + intros b qb Hb Hqb. destruct (reply_kind b qb st2 HQ2 Hb Hqb) as [?|(_ & _ & ?)]; [by left|congruence].
  - set (st3 := if _ && memory then _ else st2).
    assert (H3 : exists res3, ms_results st3 !! r = Some res3 /\ rs_sender res3 = rs_sender res /\ rs_callback_msg res3 = rs_callback_msg res /\
              msgq_wf g st3 (Some r) /\ ms_queues st3 = ms_queues st2 /\ ms_list st3 = ms_list st2 /\
              forall r', r' <> r -> ms_results st3 !! r' = ms_results st2 !! r').
    { unfold st3. destruct (_ && memory); [|exists res2; done]. exists (r_data res2 data). simpl. rewrite lookup_insert_eq.
      split_and!; [done|done|done| |done|done|intros; by rewrite lookup_insert_ne].
      apply (wf_put_result _ _ _ res2); try done. simpl. rewrite Ec. intros m Hcb. by eapply (wf_callback _ _ _ W). }
    destruct H3 as (res3 & Hr3 & Es3 & Ec3 & W3 & EQ & EL & Eo). clearbody st3.
    destruct (store_result_wf g st3 r res3 value error W3 Hr3) as (g' & st' & Hst & S).
    { rewrite Es3, Ec3, EQ. intros s q0 Hs Hq0. destruct (reply_kind s q0 st2 HQ2 Hs Hq0) as [?|(? & ? & _)]; tauto. }
    rewrite Hst. simpl. exists g', st'. split; [done|]. split.
    + apply S.
    + by rewrite (so_list _ _ _ _ _ _ _ _ S), EL.
    + pose proof (so_result _ _ _ _ _ _ _ _ S). destruct (ms_results st' !! r); tauto.
    + intros r' Hne. rewrite (so_others _ _ _ _ _ _ _ _ S) by done. rewrite Eo by done. by apply Hoth.
    + intros b Hb. rewrite <- Es3 in Hb. destruct (so_queues _ _ _ _ _ _ _ _ S b Hb) as [-> ->]. rewrite EQ. split; [|done]. apply HQ. congruence.
Qed.
End reply.

(** ** Fetching a reply *)

Lemma get_reply_wf g st a q cancel :
  msgq_wf g st None -> ms_queues st !! a = Some q ->
  exists out st', horizon_msgq_get_reply st a cancel = Some (out, st') /\ msgq_wf g st' None.
Proof.
  intros W Ha. unfold horizon_msgq_get_reply. rewrite Ha. simpl. destruct (qu_send_results q) as [|r l] eqn:Hl; [by eexists _, _|].
  destruct (wf_held _ _ _ W a q r Ha) as (res & Hr & Hs); [rewrite Hl; set_solver|]. rewrite Hr. simpl.
  destruct (negb (rs_replied res) && negb cancel); [by eexists _, _|].
  set (res1 := if rs_replied res then r_data res [] else res). set (st1 := if rs_replied res then _ else st).
  assert (W1 : msgq_wf g st1 (Some r) /\ ms_results st1 !! r = Some res1 /\ rs_sender res1 = Some a /\ ms_queues st1 !! a = Some q).
  { unfold st1, res1. destruct (rs_replied res); [|split_and!; try done; by apply wf_weaken].
    split_and!; [|simpl; by rewrite lookup_insert_eq|done|done]. apply (wf_put_result _ _ _ res); try done; [by apply wf_weaken|].
    intros m Hm. by eapply (wf_callback _ _ _ W). }
  destruct W1 as (W1 & Hr1 & Hs1 & Hq1). clearbody st1 res1.
  rewrite (remove_from_sender_eq _ _ _ _ _ _ W1 Hr1 Hs1 Hq1). simpl. rewrite lookup_insert_eq. simpl.
  pose proof (left_sender_wf _ _ _ _ _ _ W1 Hr1 Hs1 Hq1) as W2.
  destruct (without r (qu_send_results q)) as [|r' l'] eqn:Hl'; [by eexists _, _|].
  set (q' := q_results q (r' :: l') _ _).
  assert (Hq' : ms_queues (left_sender st1 r res1 a q) !! a = Some q') by (simpl; rewrite lookup_insert_eq; by rewrite Hl').
  destruct (wf_held _ _ _ W2 a _ r' Hq') as (R & HR & _); [simpl; set_solver|]. simpl in HR. rewrite HR. simpl.
  eexists _, _. split; [done|]. destruct (rs_replied R); [|done]. eapply wf_put_same; [done|exact Hq'|done].
Qed.

(** ** Sending *)

(** A new result joins the list of its sender. *)
Definition push_result (callback : bool) (r : positive) (q : horizon_msgq) : horizon_msgq :=
  if callback then q_results q (qu_send_results q) (r :: qu_callback_results q) (qu_recv_result q)
  else q_results q (r :: qu_send_results q) (qu_callback_results q) (qu_recv_result q).

Lemma push_same callback r q :
  qu_tid (push_result callback r q) = qu_tid q /\ qu_sent (push_result callback r q) = qu_sent q /\
  qu_sent_tail (push_result callback r q) = qu_sent_tail q /\ qu_recv_result (push_result callback r q) = qu_recv_result q.
Proof. by destruct callback. Qed.

Lemma push_elem callback r q r' :
  let q' := push_result callback r q in
  r' ∈ qu_send_results q' ++ qu_callback_results q' <-> r' = r \/ r' ∈ qu_send_results q ++ qu_callback_results q.
Proof. destruct callback; simpl; set_solver. Qed.

Lemma push_first (callback : bool) r q :
  if callback then r ∈ qu_callback_results (push_result callback r q)
  else head (qu_send_results (push_result callback r q)) = Some r.
Proof. destruct callback; simpl; [set_solver|done]. Qed.

Lemma push_nodup callback r q :
  r ∉ qu_send_results q ++ qu_callback_results q -> NoDup (qu_send_results q ++ qu_callback_results q) ->
  NoDup (qu_send_results (push_result callback r q) ++ qu_callback_results (push_result callback r q)).
Proof.
  intros Hn Q. destruct callback; simpl; [|by constructor].
  apply list.NoDup_app in Q as (N1 & N2 & N3). rewrite not_elem_of_app in Hn. apply list.NoDup_app. split_and!; [done| |].
  - intros x Hx [->|Hx']%elem_of_cons; [tauto|by apply (N2 x)].
  - constructor; [tauto|done].
Qed.

Section new_result.
Context (g : messages) (st : horizon_msgqs) (r : positive) (res : horizon_msgq_result) (sender : ptr) (callback : bool).
Context (W : msgq_wf g st None) (Hr : ms_results st !! r = None) (Hs : rs_sender res = sender)
  (Hrc : rs_receiver res = None) (Hm : rs_msg res = None)
  (Hcb : forall m, rs_callback_msg res = Some m -> sm_result m = None)
  (Hq : match sender with Some s => is_Some (ms_queues st !! s) | None => True end).
Let push := push_result callback r.

Definition joined : horizon_msgqs :=
  mk_msgqs (ms_list st)
    (match sender with
     | Some s => match ms_queues st !! s with Some q => <[s := push q]> (ms_queues st) | None => ms_queues st end
     | None => ms_queues st
     end) (<[r := res]> (ms_results st)).

Lemma joined_eq res' : send_result (put_result st r res') sender r callback = Some (put_result joined r res').
Proof using Hs Hq.
  unfold send_result, joined, put_result. simpl. rewrite insert_insert_eq. destruct sender as [s|]; [|done].
  destruct Hq as [q Hq0]. rewrite Hq0. done.
Qed.

Lemma joined_old b qb : ms_queues joined !! b = Some qb -> exists q, ms_queues st !! b = Some q /\
  (sender = Some b /\ qb = push q \/ sender <> Some b /\ qb = q).
Proof using Hs Hq.
  unfold joined. simpl. destruct sender as [s|]; [|intros; exists qb; split; [done|by right]]. destruct Hq as [q Hq0]. rewrite Hq0.
  intros [[<- <-]|[Hne Hb]]%lookup_insert_Some; [exists q; split; [done|by left]|]. exists qb. split; [done|right; split; [congruence|done]].
Qed.

Lemma joined_new b q : ms_queues st !! b = Some q -> ms_queues joined !! b = Some (if decide (sender = Some b) then push q else q).
Proof using Hs Hq.
  intros Hb. unfold joined. simpl. destruct sender as [s|]; [|done]. destruct (decide (Some s = Some b)) as [[= ->]|Hne].
  - rewrite Hb. apply lookup_insert_eq.
  - destruct Hq as [q0 Hq0]. rewrite Hq0. rewrite lookup_insert_ne by congruence. done.
Qed.

Lemma joined_results r' R : ms_results joined !! r' = Some R <-> r' = r /\ R = res \/ r' <> r /\ ms_results st !! r' = Some R.
Proof using.
  clear. simpl. rewrite lookup_insert_Some. split; (intros [[? ?]|[? ?]]; [left; split; congruence|right; split; congruence]).
Qed.

Lemma joined_keeps r' R : ms_results st !! r' = Some R -> ms_results joined !! r' = Some R.
Proof using Hr. intros HR. apply joined_results. right. split; [|done]. intros ->. congruence. Qed.

Lemma joined_queue b qb : ms_queues joined !! b = Some qb -> queue_ok (g b) qb.
Proof using W Hr Hs Hq.
  intros (q1 & H1 & E1)%joined_old. destruct (wf_queue _ _ _ W _ _ H1) as (Q1 & Q2 & Q3 & Q4).
  destruct E1 as [[_ ->]|[_ ->]]; [|done]. destruct (push_same callback r q1) as (_ & E2 & E3 & E4). unfold queue_ok, push.
  rewrite E2, E3, E4. split_and!; [done|done| |done]. apply push_nodup; [|done].
  intros Hin. destruct (wf_held _ _ _ W _ _ _ H1 Hin) as (R & HR & _). congruence.
Qed.

Lemma joined_wf : msgq_wf g joined (Some r).
Proof using W Hr Hs Hrc Hm Hcb Hq.
  split.
  - destruct (wf_list _ _ _ W) as [N1 N2]. split; [done|]. intros b. simpl. rewrite N2. split; intros [q Hb].
    + change (is_Some (ms_queues joined !! b)). rewrite (joined_new _ _ Hb). by eexists.
    + destruct (joined_old _ _ Hb) as (q0 & -> & _). by eexists.
  - intros b c qb qc (q1 & H1 & E1)%joined_old (q2 & H2 & E2)%joined_old E. eapply (wf_tid _ _ _ W); [done..|].
    pose proof (push_same callback r q1) as [T1 _]. pose proof (push_same callback r q2) as [T2 _]. unfold push in *.
    destruct E1 as [[_ ->]|[_ ->]], E2 as [[_ ->]|[_ ->]]; congruence.
  - intros b qb. apply joined_queue.
  - intros b qb l m r' (q1 & H1 & _)%joined_old Hin Hmr. destruct (wf_pending _ _ _ W _ _ _ _ _ H1 Hin Hmr) as (R & HR & ?). exists R. split; [by apply joined_keeps|done].
  - intros b qb r' (q1 & H1 & E1)%joined_old Hin. assert (Hin' : r' ∈ qu_recv_result q1).
    { destruct E1 as [[_ ->]|[_ ->]]; [|done]. by destruct (push_same callback r q1) as (_ & _ & _ & <-). }
    destruct (wf_stack _ _ _ W _ _ _ H1 Hin') as (R & HR & ?). exists R. split; [by apply joined_keeps|done].
  - intros b qb r' (q1 & H1 & E1)%joined_old Hin.
    assert (Hin' : r' = r /\ sender = Some b \/ r' ∈ qu_send_results q1 ++ qu_callback_results q1).
    { destruct E1 as [[E ->]|[_ ->]]; [apply push_elem in Hin as [->|Hin]; tauto|by right]. }
    destruct Hin' as [[-> E]|Hin']; [exists res; split; [apply joined_results; by left|congruence]|].
    destruct (wf_held _ _ _ W _ _ _ H1 Hin') as (R & HR & ?). exists R. split; [by apply joined_keeps|done].
  - intros r' R b [[-> ->]|[Hne HR]]%joined_results HRs.
    + assert (HsE : sender = Some b) by congruence. pose proof Hq as Hq1. rewrite HsE in Hq1. destruct Hq1 as [q Hq0]. exists (push q).
      rewrite (joined_new _ _ Hq0), decide_True by done. split_and!; [done|apply push_elem; by left|done].
    + destruct (wf_sender _ _ _ W _ _ _ HR HRs) as (q & Hb & Hin & Hk). rewrite (joined_new _ _ Hb). eexists. split; [done|].
      specialize (Hk ltac:(done)). destruct (decide (sender = Some b)); [|split; [done|by intros _]]. split; [apply push_elem; by right|].
      intros _. unfold push, push_result. destruct callback; simpl; set_solver.
  - intros r' R b [[-> ->]|[Hne HR]]%joined_results HRr; [congruence|]. destruct (wf_receiver _ _ _ W _ _ _ HR HRr) as (q & Hb & Hin).
    rewrite (joined_new _ _ Hb). eexists. split; [done|]. destruct (rs_msg R); [done|].
    destruct (decide (sender = Some b)); [|done]. unfold push. by destruct (push_same callback r q) as (_ & _ & _ & ->).
  - intros r' R [[-> ->]|[Hne HR]]%joined_results HRr; [done|]. destruct (wf_done _ _ _ W _ _ HR HRr) as [? Hx]. split; [done|]. intros _. by apply Hx.
  - intros r' R m [[-> ->]|[Hne HR]]%joined_results Hc; [by apply Hcb|by eapply (wf_callback _ _ _ W)].
Qed.

Lemma joined_sent b q : ms_queues st !! b = Some q -> exists q', ms_queues joined !! b = Some q' /\ qu_sent q' = qu_sent q /\
  qu_recv_result q' = qu_recv_result q /\ qu_sent_tail q' = qu_sent_tail q.
Proof using Hs Hq.
  intros Hb. rewrite (joined_new _ _ Hb). eexists. split; [done|]. destruct (decide (sender = Some b)); [|done].
  destruct (push_same callback r q) as (_ & ? & ? & ?). done.
Qed.

Lemma joined_first s q : sender = Some s -> ms_queues joined !! s = Some q ->
  if callback then r ∈ qu_callback_results q else head (qu_send_results q) = Some r.
Proof using Hs Hq.
  intros E Hb. destruct (joined_old _ _ Hb) as (q0 & _ & [[_ ->]|[? _]]); [|done]. apply push_first.
Qed.

(** A message with a new result joins the queue of its receiver. *)
Lemma sent_wf a q m l :
  ms_queues st !! a = Some q -> l = node_new (qu_sent q) -> sm_result m = Some r ->
  callback = bool_decide (is_Some (rs_callback_msg res)) -> rs_replied res = false ->
  let res' := r_ends res (Some l) (rs_sender res) (Some a) in
  exists q1, ms_queues joined !! a = Some q1 /\
    msgq_wf (set_messages g a (g a ++ [(l, m)]))
      (put_queue (put_result joined r res') a (horizon_msgq_touch (append_sent q1 m) HORIZON_MSGQ_QS_SENDMESSAGE)) None.
Proof using W Hr Hs Hrc Hm Hcb Hq.
  intros Ha -> Hmr Ecb Hrep res'. destruct (joined_sent _ _ Ha) as (q1 & Hq1 & E1 & E2 & E3). exists q1. split; [done|].
  pose proof joined_wf as W1. set (l := node_new (qu_sent q)) in *.
  assert (Hr1 : ms_results joined !! r = Some res) by (apply joined_results; by left).
  assert (Hf1 : r ∉ qu_recv_result q1).
  { intros Hin. destruct (wf_stack _ _ _ W1 _ _ _ Hq1 Hin) as (R & HR & _ & Hx). rewrite Hr1 in HR. injection HR as <-. congruence. }
  assert (Hf2 : forall l' m', (l', m') ∈ g a -> sm_result m' <> Some r).
  { intros l' m' Hin Hm'. destruct (wf_pending _ _ _ W1 _ _ _ _ _ Hq1 Hin Hm') as (R & HR & _ & Hx). rewrite Hr1 in HR. injection HR as <-. congruence. }
  assert (W2 : msgq_wf (set_messages g a (g a ++ [(l, m)])) (put_queue (put_result joined r res') a (append_sent q1 m)) (Some r)).
  { apply (receiver_update_wf g joined r res a q1); try done.
    - by right.
    - unfold l. rewrite <- E1. apply append_sent_ok. by apply (wf_queue _ _ _ W1).
    - intros l' m' r1 Hr1'. rewrite elem_of_app, list_elem_of_singleton. split.
      + intros [Hin|[= -> ->]]; [left; split; [|done]; intros ->; by eapply Hf2|right]. split_and!; [congruence|by right|done|done].
      + intros [[_ ?]|(_ & ? & _)]; tauto.
    - simpl. intros r1. split; [|by intros [[_ ?]|(_ & ? & _)]]. intros Hin. left. split; [|done]. intros ->. done.
    - right. split; [done|]. exists m. split; [set_solver|done]. }
  replace (put_queue (put_result joined r res') a (horizon_msgq_touch (append_sent q1 m) HORIZON_MSGQ_QS_SENDMESSAGE)) with
    (put_queue (put_queue (put_result joined r res') a (append_sent q1 m)) a (horizon_msgq_touch (append_sent q1 m) HORIZON_MSGQ_QS_SENDMESSAGE))
    by (unfold put_queue; simpl; by rewrite insert_insert_eq).
  assert (W3 : msgq_wf (set_messages g a (g a ++ [(l, m)])) (put_queue (put_queue (put_result joined r res') a (append_sent q1 m)) a
     (horizon_msgq_touch (append_sent q1 m) HORIZON_MSGQ_QS_SENDMESSAGE)) (Some r))
    by (eapply wf_put_same; [exact W2|apply put_queue_lookup; by left|done]).
  eapply wf_close; [exact W3|]. intros R HR. simpl in HR. rewrite lookup_insert_eq in HR. injection HR as <-. simpl. split; [done|].
  intros b qb HsR Hqb. assert (Hk : exists qb', ms_queues joined !! b = Some qb' /\ qu_send_results qb = qu_send_results qb' /\ qu_callback_results qb = qu_callback_results qb').
  { simpl in Hqb. rewrite insert_insert_eq in Hqb. apply lookup_insert_Some in Hqb as [[<- <-]|[_ Hqb]]; [by exists q1|by exists qb]. }
  destruct Hk as (qb' & Hqb' & -> & ->). pose proof (joined_first b qb' ltac:(congruence) Hqb') as Ehd. rewrite Ecb in Ehd.
  destruct (rs_callback_msg res) as [c|]; [rewrite bool_decide_eq_true_2 in Ehd by (by eexists); right; split_and!; [done|by eexists|done]|left].
  rewrite bool_decide_eq_false_2 in Ehd by (by intros [? ?]). split; [|done]. destruct (qu_send_results qb'); [done|]. injection Ehd as ->. set_solver.
Qed.
End new_result.

(** A send that is refused changes nothing. *)
Ltac send_refused g :=
  eexists _, _; split; [done|split; [done|split;
    [intros ? ->; btrue; simpl in *; congruence|by exists g]]].

(** What a send did, when it did not fail. *)
Lemma send_wf g mem st sender a q fields data has_deadline deadline :
  msgq_wf g st None -> ms_queues st !! a = Some q ->
  match sender with Some s => is_Some (ms_queues st !! s) | None => True end ->
  exists status st', horizon_msgq_send mem st sender a fields data has_deadline deadline = Some (status, st') /\
    (status <> HORIZON_MSGQ_STATUS_SUCCESS -> st' = st) /\
    (send_type_ok (sm_type fields) = true -> mem = mk_send_memory true true true true -> status = HORIZON_MSGQ_STATUS_SUCCESS) /\
    exists g', msgq_wf g' st' None /\
    (status = HORIZON_MSGQ_STATUS_SUCCESS -> exists l m, g' a = g a ++ [(l, m)] /\
       is_Some (ms_queues st' !! a) /\ m = sent_copy fields (sm_data m) (sm_result m) /\
       (sm_type fields <> HORIZON_MSGQ_MSG_NOTIFY -> is_Some (sm_result m)) /\
       forall r, sm_result m = Some r -> exists res, ms_results st' !! r = Some res /\ rs_sender res = sender /\
         rs_replied res = false /\ rs_data res = [] /\ ms_results st !! r = None /\
         (sm_type fields <> HORIZON_MSGQ_MSG_CALLBACK -> rs_callback_msg res = None /\ sm_data m = data /\ 
            forall s q', sender = Some s -> ms_queues st' !! s = Some q' -> head (qu_send_results q') = Some r)).
Proof.
  intros W Ha Hsq. unfold horizon_msgq_send.
  destruct (negb (send_type_ok (sm_type fields))) eqn:B1; [send_refused g|].
  destruct (negb (mem_msg mem)) eqn:B2; [send_refused g|].
  destruct (negb (bool_decide (data = [])) && negb (mem_data mem)) eqn:B3; [send_refused g|].
  destruct (negb (sm_type fields =? HORIZON_MSGQ_MSG_NOTIFY)) eqn:B4.
  2: { unfold send_queue. rewrite Ha. simpl. eexists _, _. split; [done|]. split; [done|]. split; [done|].
       exists (set_messages g a (g a ++ [(node_new (qu_sent q), sent_copy fields data None)])). split.
       - replace (put_queue st a _) with (put_queue (put_queue st a (append_sent q (sent_copy fields data None))) a
           (horizon_msgq_touch (append_sent q (sent_copy fields data None)) HORIZON_MSGQ_QS_SENDMESSAGE))
           by (unfold put_queue; simpl; by rewrite insert_insert_eq).
         eapply wf_put_same; [by apply append_wf|apply put_queue_lookup; by left|done].
       - intros _. eexists _, _. rewrite set_messages_eq. split; [done|]. split; [simpl; by rewrite lookup_insert_eq|].
         split; [done|]. split; [btrue; done|done]. }
  destruct (negb (mem_result mem)) eqn:B5; [send_refused g|].
  set (callback := sm_type fields =? HORIZON_MSGQ_MSG_CALLBACK).
  destruct (callback && negb (mem_callback mem)) eqn:B6; [send_refused g|].
  rewrite Ha. simpl. set (r := fresh (dom (ms_results st) : gset positive)).
  assert (Hr : ms_results st !! r = None) by (apply (not_elem_of_dom (D := gset positive)), is_fresh).
  set (cb := if callback then Some (callback_of fields data) else None).
  set (res0 := mk_result None sender None cb false 0 0 [] has_deadline deadline).
  set (l := node_new (qu_sent q)). set (res := mk_result (Some l) sender (Some a) cb false 0 0 [] has_deadline deadline).
  assert (Ecb : callback = bool_decide (is_Some cb)) by (unfold cb; destruct callback; [symmetry; by apply bool_decide_eq_true; eexists|done]).
  assert (Hcb : forall m, rs_callback_msg res0 = Some m -> sm_result m = None) by (simpl; unfold cb; destruct callback; [by intros m [= <-]|done]).
  set (m := sent_copy fields (if callback then [] else data) (Some r)).
  destruct (sent_wf g st r res0 sender callback W Hr eq_refl eq_refl eq_refl Hcb Hsq a q m l Ha eq_refl eq_refl Ecb eq_refl) as (q1 & Hq1 & W2).
  assert (Hst1 : send_result (put_result st r res) sender r callback = Some (put_result (joined st r res0 sender callback) r res))
    by (by apply joined_eq).
  rewrite Hst1. cbn [mbind option_bind]. unfold send_queue. change (ms_queues (put_result ?S r res)) with (ms_queues S). rewrite Hq1. simpl.
  eexists _, _. split; [done|]. split; [done|]. split; [done|]. eexists. split; [exact W2|].
  intros _. exists l, m. rewrite set_messages_eq. split; [done|].
  split; [simpl; by rewrite lookup_insert_eq|]. split; [done|]. split; [by eexists|]. intros r' [= <-]. exists res. simpl. rewrite lookup_insert_eq.
  split_and!; try done. intros Hnc. assert (Hcf : callback = false) by (unfold callback; lia). unfold cb. rewrite Hcf in *. split_and!; [done|done|].
  intros s q' Hs Hq'. assert (Hk : exists qb', ms_queues (joined st r res0 sender false) !! s = Some qb' /\ qu_send_results q' = qu_send_results qb').
  { apply lookup_insert_Some in Hq' as [[<- <-]|[_ Hqb]]; [by exists q1|by exists q']. }
  destruct Hk as (qb' & Hqb' & ->). exact (joined_first st r res0 sender false eq_refl Hsq s qb' Hs Hqb').
Qed.

(** ** New queues *)

Lemma find_queue_spec g st x tid :
  msgq_wf g st x ->
  match horizon_msgq_find st tid with
  | Some (Some a) => exists q, ms_queues st !! a = Some q /\ qu_tid q = tid
  | Some None => forall a q, ms_queues st !! a = Some q -> qu_tid q <> tid
  | None => False
  end.
Proof.
  intros W. destruct (wf_list _ _ _ W) as [_ Hl]. unfold horizon_msgq_find.
  assert (Hsub : forall a, a ∈ ms_list st -> is_Some (ms_queues st !! a)) by (intros a; apply Hl).
  assert (Hall : forall a q, ms_queues st !! a = Some q -> a ∈ ms_list st \/ qu_tid q <> tid) by (intros a q Ha; left; apply Hl; by eexists).
  clear Hl W. revert Hsub Hall. generalize (ms_list st). intros l. induction l as [|b l IH]; intros Hsub Hall; simpl.
  { intros a q Ha. by destruct (Hall a q Ha) as [?%not_elem_of_nil|?]. }
  destruct (Hsub b ltac:(set_solver)) as [qb Hb]. rewrite Hb. simpl. destruct (Z.eqb_spec (qu_tid qb) tid) as [E|E]; [by exists qb|].
  apply IH; [intros; apply Hsub; set_solver|]. intros a q Ha. destruct (Hall a q Ha) as [[->|?]%elem_of_cons|?]; [right; congruence|tauto..].
Qed.

Lemma get_wf g memory st tid :
  msgq_wf g st None ->
  exists a created st' g', horizon_msgq_get memory st tid = Some (a, created, st') /\ msgq_wf g' st' None.
Proof.
  intros W. pose proof (find_queue_spec _ _ _ tid W) as Hf. unfold horizon_msgq_get.
  destruct (horizon_msgq_find st tid) as [queue|]; [|done]. simpl.
  destruct (bool_decide (is_Some queue) || (tid =? 0)) eqn:E; [by eexists _, _, _, g|].
  destruct memory; simpl; [|by eexists _, _, _, g].
  apply orb_false_iff in E as [E%bool_decide_eq_false _]. destruct queue as [a0|]; [destruct E; by eexists|]. clear E.
  set (a := fresh (dom (ms_queues st) : gset positive)).
  assert (Hfr : ms_queues st !! a = None) by (apply (not_elem_of_dom (D := gset positive)), is_fresh).
  eexists _, _, _, (set_messages g a []). split; [done|].
  assert (Hq : forall b qb, <[a := msgq_new tid]> (ms_queues st) !! b = Some qb <-> b = a /\ qb = msgq_new tid \/ b <> a /\ ms_queues st !! b = Some qb).
  { intros b qb. rewrite lookup_insert_Some. naive_solver. }
  assert (Hold : forall b qb, ms_queues st !! b = Some qb -> b <> a) by (intros b qb Hb ->; congruence).
  split; simpl.
  - destruct (wf_list _ _ _ W) as [N1 N2]. split.
    + constructor; [|done]. intros Hin. apply N2 in Hin as [? ?]. congruence.
    + intros b. rewrite elem_of_cons, N2. destruct (decide (b = a)) as [->|Hne].
      * rewrite lookup_insert_eq. split; [by eexists|by left].
      * rewrite lookup_insert_ne by done. tauto.
  - intros b c qb qc [[-> ->]|[Hb H1]]%Hq [[-> ->]|[Hc H2]]%Hq E; try done; simpl in E.
    + by destruct (Hf _ _ H2).
    + by destruct (Hf _ _ H1).
    + by eapply (wf_tid _ _ _ W).
  - intros b qb [[-> ->]|[Hb H1]]%Hq; [rewrite set_messages_eq|rewrite set_messages_ne by done; by apply (wf_queue _ _ _ W)].
    split_and!; [apply rep_empty|done|constructor|constructor].
  - intros b qb l m r [[-> ->]|[Hb H1]]%Hq; [rewrite set_messages_eq; by intros ?%not_elem_of_nil|]. rewrite set_messages_ne by done. by apply (wf_pending _ _ _ W _ _ _ _ _ H1).
  - intros b qb r [[-> ->]|[Hb H1]]%Hq; [by intros ?%not_elem_of_nil|]. by apply (wf_stack _ _ _ W _ _ _ H1).
  - intros b qb r [[-> ->]|[Hb H1]]%Hq; [by intros ?%not_elem_of_nil|]. by apply (wf_held _ _ _ W _ _ _ H1).
  - intros r R b HR HRs. destruct (wf_sender _ _ _ W _ _ _ HR HRs) as (q & Hb & ?). exists q. rewrite Hq. split; [|done]. right. split; [by eapply Hold|done].
  - intros r R b HR HRs. destruct (wf_receiver _ _ _ W _ _ _ HR HRs) as (q & Hb & ?). exists q. rewrite Hq, set_messages_ne by (by eapply Hold).
    split; [|done]. right. split; [by eapply Hold|done].
  - apply (wf_done _ _ _ W).
  - apply (wf_callback _ _ _ W).
Qed.

(** ** Deadlines *)

Lemma first_expired_spec results now l :
  (forall r, r ∈ l -> is_Some (results !! r)) ->
  match first_expired results now l with
  | Some (Some r) => r ∈ l /\ exists res, results !! r = Some res /\ is_expired now res = true
  | Some None => forall r res, r ∈ l -> results !! r = Some res -> is_expired now res = false
  | None => False
  end.
Proof.
  induction l as [|r l IH]; intros Hl; simpl; [by intros ? ? ?%not_elem_of_nil|].
  destruct (Hl r ltac:(set_solver)) as [res Hr]. rewrite Hr. simpl. destruct (is_expired now res) eqn:E; [split; [set_solver|by exists res]|].
  specialize (IH ltac:(intros; apply Hl; set_solver)). destruct (first_expired results now l) as [[r'|]|]; [|..|done].
  - destruct IH as [? ?]. split; [set_solver|done].
  - intros r' res' [->|Hin]%elem_of_cons Hr'; [congruence|by eapply IH].
Qed.

Lemma queues_expired_spec g st now :
  msgq_wf g st None ->
  match queues_expired st now (ms_list st) with
  | Some (Some r) => exists res, ms_results st !! r = Some res /\ is_Some (rs_sender res) /\ is_expired now res = true
  | Some None => forall r res, ms_results st !! r = Some res -> is_Some (rs_sender res) -> is_expired now res = false
  | None => False
  end.
Proof.
  intros W. destruct (wf_list _ _ _ W) as [_ Hl].
  assert (Hsub : forall a, a ∈ ms_list st -> is_Some (ms_queues st !! a)) by (intros a; apply Hl).
  assert (Hall : forall r res, ms_results st !! r = Some res -> is_Some (rs_sender res) -> is_expired now res = true ->
     exists a q, a ∈ ms_list st /\ ms_queues st !! a = Some q /\ r ∈ qu_send_results q ++ qu_callback_results q).
  { intros r res Hr [a Hs] _. destruct (wf_sender _ _ _ W _ _ _ Hr Hs) as (q & Hq & Hin & _). exists a, q. split_and!; [apply Hl; by eexists|done..]. }
  clear Hl. revert Hsub Hall. generalize (ms_list st). intros l. induction l as [|a l IH]; intros Hsub Hall; simpl.
  { intros r res Hr Hs. destruct (is_expired now res) eqn:E; [|done]. destruct (Hall _ _ Hr Hs E) as (a & q & ?%not_elem_of_nil & _). done. }
  destruct (Hsub a ltac:(set_solver)) as [q Ha]. rewrite Ha. simpl.
  assert (Hin : forall r, r ∈ qu_send_results q ++ qu_callback_results q -> exists res, ms_results st !! r = Some res /\ is_Some (rs_sender res)).
  { intros r Hr. destruct (wf_held _ _ _ W _ _ _ Ha Hr) as (R & HR & HRs). exists R. split; [done|]. rewrite HRs. by eexists. }
  pose proof (first_expired_spec (ms_results st) now (qu_send_results q)) as H1.
  destruct (first_expired _ now (qu_send_results q)) as [[r|]|]; simpl.
  2: pose proof (first_expired_spec (ms_results st) now (qu_callback_results q)) as H2;
     destruct (first_expired _ now (qu_callback_results q)) as [[r|]|]; simpl.
  - destruct H1 as (H1 & R & HR & HE); [intros r' Hr'; destruct (Hin r' ltac:(set_solver)) as (R & -> & _); by eexists|].
    exists R. destruct (Hin r ltac:(set_solver)) as (R' & HR' & ?). rewrite HR in HR'. injection HR' as <-. done.
  - destruct H2 as (H2 & R & HR & HE); [intros r' Hr'; destruct (Hin r' ltac:(set_solver)) as (R & -> & _); by eexists|].
    exists R. destruct (Hin r ltac:(set_solver)) as (R' & HR' & ?). rewrite HR in HR'. injection HR' as <-. done.
  - specialize (H1 ltac:(intros r' Hr'; destruct (Hin r' ltac:(set_solver)) as (R & -> & _); by eexists)).
    specialize (H2 ltac:(intros r' Hr'; destruct (Hin r' ltac:(set_solver)) as (R & -> & _); by eexists)).
    apply IH; [intros; apply Hsub; set_solver|]. intros r R HR Hs HE. destruct (Hall r R HR Hs HE) as (b & qb & [->|Hb]%elem_of_cons & Hqb & Hrb); [|by exists b, qb].
    rewrite Ha in Hqb. injection Hqb as <-. apply elem_of_app in Hrb as [Hrb|Hrb]; [specialize (H1 _ _ Hrb HR)|specialize (H2 _ _ Hrb HR)]; congruence.
  - apply H2. intros r' Hr'; destruct (Hin r' ltac:(set_solver)) as (R & -> & _); by eexists.
  - apply H1. intros r' Hr'; destruct (Hin r' ltac:(set_solver)) as (R & -> & _); by eexists.
Qed.

(** A queue with the lists it has is itself. *)
Lemma q_results_id q q' :
  qu_send_results q' = qu_send_results q -> qu_callback_results q' = qu_callback_results q -> qu_recv_result q' = qu_recv_result q ->
  q_results q' (qu_send_results q) (qu_callback_results q) (qu_recv_result q) = q'.
Proof. destruct q'. unfold q_results. simpl. by intros -> -> ->. Qed.

(** Taking a message with a result out of its queue and answering for it. *)
Lemma discard_wf g st a q i l m r res q1 res' value error :
  msgq_wf g st None -> ms_queues st !! a = Some q -> g a !! i = Some (l, m) -> sm_result m = Some r ->
  ms_results st !! r = Some res -> horizon_msgq_unlink_sent q l = Some q1 ->
  rs_msg res' = None -> rs_sender res' = rs_sender res -> rs_receiver res' = None -> rs_callback_msg res' = rs_callback_msg res ->
  exists g' st', horizon_msgq_store_result (put_result (put_queue st a (drop_sent q1 l)) r res') r value error = Some st' /\
    stored (set_messages g a (delete i (g a))) (put_result (put_queue st a (drop_sent q1 l)) r res') r res' value error g' st'.
Proof.
  intros W Ha Hi Hm Hr Hu E1 E2 E3 E4.
  destruct (unlink_sent_ok _ _ _ _ _ (wf_queue _ _ _ W _ _ Ha) Hi) as (q1' & Hu' & _ & (_ & _ & _ & F1 & F2 & F3) & _).
  rewrite Hu in Hu'. injection Hu' as <-. simpl in F1, F2, F3.
  pose proof (take_message_wf g st a q i l m r res q1 None W Ha Hi Hm Hr Hu ltac:(by left)) as W1. cbv zeta in W1.
  rewrite q_results_id in W1 by done.
  change (put_queue (put_result st r ?R) a ?Q) with (put_result (put_queue st a Q) r R) in W1.
  assert (W2 : msgq_wf (set_messages g a (delete i (g a))) (put_result (put_queue st a (drop_sent q1 l)) r res') (Some r)).
  { replace (put_result (put_queue st a (drop_sent q1 l)) r res') with
      (put_result (put_result (put_queue st a (drop_sent q1 l)) r (r_ends res None (rs_sender res) None)) r res')
      by (unfold put_result; simpl; by rewrite insert_insert_eq).
    eapply wf_put_result; [exact W1|apply put_result_lookup; by left|done..|].
    rewrite E4. intros m' Hm'. by eapply (wf_callback _ _ _ W). }
  apply store_result_wf; [exact W2|simpl; by rewrite lookup_insert_eq|].
  rewrite E2, E4. intros s qs Hs Hqs. destruct (wf_sender _ _ _ W _ _ _ Hr Hs) as (q0 & Hq0 & _ & Hk). specialize (Hk ltac:(done)).
  simpl in Hqs. apply lookup_insert_Some in Hqs as [[<- <-]|[_ Hqs]].
  - rewrite Ha in Hq0. injection Hq0 as <-. simpl. rewrite F1, F2. tauto.
  - rewrite Hq0 in Hqs. injection Hqs as <-. tauto.
Qed.

(** The messages nobody waits for stay. *)
Definition plain_kept (g g' : messages) : Prop := forall b l m, (l, m) ∈ g b -> sm_result m = None -> (l, m) ∈ g' b.

Lemma plain_kept_delete g a i l m r : g a !! i = Some (l, m) -> sm_result m = Some r -> plain_kept g (set_messages g a (delete i (g a))).
Proof.
  intros Hi Hm b l' m' Hin Hn. unfold set_messages. case_decide as E; [subst b|done].
  rewrite <- (take_drop_middle (g a) i (l, m) Hi) in Hin. rewrite delete_take_drop.
  rewrite elem_of_app, elem_of_cons in Hin. apply elem_of_app. destruct Hin as [H|[H|H]]; [by left| |by right]. injection H as -> ->. congruence.
Qed.

Lemma expire_result_wf g st r res now :
  msgq_wf g st None -> ms_results st !! r = Some res -> is_expired now res = true ->
  exists g' st', expire_result st r = Some st' /\ msgq_wf g' st' None /\ ms_list st' = ms_list st /\
    (forall r', r' <> r -> ms_results st' !! r' = ms_results st !! r') /\
    (forall res', ms_results st' !! r = Some res' -> rs_replied res' = true) /\
    told g' st' r res 0 HORIZON_MSGQ_STATUS_TIMEOUT /\ plain_kept g g'.
Proof.
  intros W Hr He. unfold expire_result. rewrite Hr. simpl.
  assert (Hplain : exists g' st', horizon_msgq_store_result (put_result st r (r_deadline res false)) r 0 HORIZON_MSGQ_STATUS_TIMEOUT = Some st' /\
     stored g (put_result st r (r_deadline res false)) r (r_deadline res false) 0 HORIZON_MSGQ_STATUS_TIMEOUT g' st').
  { apply store_result_wf.
    - apply (wf_put_result _ _ _ res); try done; [by apply wf_weaken|]. intros m Hm. by eapply (wf_callback _ _ _ W).
    - simpl. by rewrite lookup_insert_eq.
    - simpl. intros s q Hs Hq. destruct (wf_kind _ _ _ _ _ _ W Hr Hs Hq) as [?|(? & ? & _)]; tauto. }
  assert (Hdone : forall g0 st0 res0 g' st', (forall r', r' <> r -> ms_results st0 !! r' = ms_results st !! r') -> ms_list st0 = ms_list st ->
     rs_sender res0 = rs_sender res -> rs_callback_msg res0 = rs_callback_msg res -> plain_kept g g0 ->
     stored g0 st0 r res0 0 HORIZON_MSGQ_STATUS_TIMEOUT g' st' ->
     msgq_wf g' st' None /\ ms_list st' = ms_list st /\ (forall r', r' <> r -> ms_results st' !! r' = ms_results st !! r') /\
     (forall res', ms_results st' !! r = Some res' -> rs_replied res' = true) /\ told g' st' r res 0 HORIZON_MSGQ_STATUS_TIMEOUT /\ plain_kept g g').
  { intros g0 st0 res0 g' st' Ho Hl Es Ec Hk S. split_and!; [apply S|by rewrite (so_list _ _ _ _ _ _ _ _ S)| | | |].
    - intros r' Hne. rewrite (so_others _ _ _ _ _ _ _ _ S) by done. by apply Ho.
    - intros R HR. pose proof (so_result _ _ _ _ _ _ _ _ S) as H. rewrite HR in H. apply H.
    - pose proof (so_told _ _ _ _ _ _ _ _ S) as H. unfold told in *. by rewrite Es, Ec in H.
    - intros b l m Hin Hn. apply (so_messages _ _ _ _ _ _ _ _ S). by apply Hk. }
  destruct (rs_msg res) as [l|] eqn:Hmsg; [destruct (rs_receiver res) as [a|] eqn:Hrc|].
  - destruct (wf_receiver _ _ _ W _ _ _ Hr Hrc) as (q & Ha & Hin). rewrite Hmsg in Hin. destruct Hin as (m & Hin & Hm).
    apply list_elem_of_lookup in Hin as [i Hi].
    destruct (unlink_sent_ok _ _ _ _ _ (wf_queue _ _ _ W _ _ Ha) Hi) as (q1 & Hu & _). rewrite Ha. simpl. rewrite Hu. simpl.
    destruct (discard_wf g st a q i l m r res q1 (r_ends (r_deadline res false) None (rs_sender res) None) 0 HORIZON_MSGQ_STATUS_TIMEOUT W Ha Hi Hm Hr Hu)
      as (g' & st' & Hst & S); [done..|]. exists g', st'. split; [exact Hst|]. eapply Hdone; [| | | | |exact S]; [|done|done|done|by eapply plain_kept_delete].
    intros r' Hne. simpl. by rewrite lookup_insert_ne.
  - destruct Hplain as (g' & st' & Hst & S). exists g', st'. split; [exact Hst|]. eapply Hdone; [| | | | |exact S]; [|done|done|done|by intros ? ? ?]. intros r' Hne. simpl. by rewrite lookup_insert_ne.
  - destruct Hplain as (g' & st' & Hst & S). exists g', st'. split; [exact Hst|]. eapply Hdone; [| | | | |exact S]; [|done|done|done|by intros ? ? ?]. intros r' Hne. simpl. by rewrite lookup_insert_ne.
Qed.

(** The results whose deadline has passed. *)
Definition expired_of (now : Z) (results : gmap positive horizon_msgq_result) : gmap positive horizon_msgq_result :=
  filter (fun '(_, res) => is_expired now res = true) results.

(** A result without an answer whose deadline is not after [now]. *)
Definition past_deadline (now : Z) (res : horizon_msgq_result) : Prop :=
  rs_replied res = false /\ rs_has_deadline res = true /\ rs_deadline res <= now.

Lemma is_expired_spec now res : is_expired now res = true <-> past_deadline now res.
Proof.
  unfold is_expired, past_deadline. destruct (rs_replied res), (rs_has_deadline res); simpl; try (split; [done|intros (? & ? & ?); done]).
  rewrite negb_true_iff, Z.ltb_ge. naive_solver.
Qed.

Lemma not_past_deadline now res : is_expired now res = false <-> ~ past_deadline now res.
Proof. rewrite <- is_expired_spec. by destruct (is_expired now res). Qed.

Lemma replied_not_expired now res : rs_replied res = true -> is_expired now res = false.
Proof. intros H. unfold is_expired. by rewrite H. Qed.

Lemma expired_fewer now results results' r res :
  results !! r = Some res -> is_expired now res = true ->
  (forall r', r' <> r -> results' !! r' = results !! r') ->
  (forall res', results' !! r = Some res' -> is_expired now res' = false) ->
  (size (expired_of now results') < size (expired_of now results))%nat.
Proof.
  intros Hr He Ho Hn. assert (Hin : expired_of now results !! r = Some res) by (by apply map_lookup_filter_Some).
  assert (Hsub : expired_of now results' ⊆ delete r (expired_of now results)).
  { apply map_subseteq_spec. intros r' R [HR HE]%map_lookup_filter_Some. destruct (decide (r' = r)) as [->|Hne].
    - rewrite (Hn R HR) in HE. done.
    - rewrite lookup_delete_ne by done. apply map_lookup_filter_Some. by rewrite <- Ho. }
  apply map_subseteq_size in Hsub. rewrite <- (insert_delete_id _ _ _ Hin). rewrite map_size_insert_None by apply lookup_delete_eq. lia.
Qed.

(** A thread waits for the result, past its deadline. *)
Definition overdue (now : Z) (res : horizon_msgq_result) : Prop := is_Some (rs_sender res) /\ is_expired now res = true.

Lemma told_kept g g' st st' now r res : msgq_wf g st None -> plain_kept g g' -> (forall r res, ms_results st !! r = Some res -> ~ overdue now res -> ms_results st' !! r = Some res) ->
  (forall r, ms_results st !! r = None -> ms_results st' !! r = None) ->
  (forall res', ms_results st !! r = Some res' -> rs_replied res' = true) -> (forall cb, rs_callback_msg res = Some cb -> sm_result cb = None) ->
  told g st r res 0 HORIZON_MSGQ_STATUS_TIMEOUT -> told g' st' r res 0 HORIZON_MSGQ_STATUS_TIMEOUT.
Proof.
  intros W Hk Ho Hnone Hrep Hcb T s Hs. specialize (T s Hs). destruct (rs_callback_msg res) as [cb|] eqn:Ec.
  - destruct T as [[l Hl] T]. split; [exists l; apply Hk; [done|]; simpl; by apply Hcb|]. intros R HR. destruct (ms_results st !! r) as [R0|] eqn:E; [|by rewrite Hnone in HR].
    rewrite (Ho _ _ E) in HR; [injection HR as <-; by apply T|]. intros [_ H]. unfold is_expired in H. by rewrite (Hrep R0 eq_refl) in H.
  - destruct T as (R & HR & T). exists R. split; [|done]. apply Ho; [done|]. intros [_ H]. unfold is_expired in H. by rewrite (Hrep R HR) in H.
Qed.

Lemma expire_loop_wf fuel g st now expired :
  msgq_wf g st None -> (size (expired_of now (ms_results st)) < fuel)%nat ->
  exists e g' st', expire_loop fuel st now expired = Some (e, st') /\ msgq_wf g' st' None /\ ms_list st' = ms_list st /\
    (forall r res, ms_results st !! r = Some res -> ~ overdue now res -> ms_results st' !! r = Some res) /\
    (forall r, ms_results st !! r = None -> ms_results st' !! r = None) /\
    (forall r res, ms_results st !! r = Some res -> overdue now res -> told g' st' r res 0 HORIZON_MSGQ_STATUS_TIMEOUT) /\
    plain_kept g g' /\ (e = true <-> expired = true \/ exists r res, ms_results st !! r = Some res /\ overdue now res).
Proof.
  revert g st expired. induction fuel as [|fuel IH]; intros g st expired W Hf; [lia|]. cbn [expire_loop].
  pose proof (queues_expired_spec g st now W) as Hq. destruct (queues_expired st now (ms_list st)) as [[r|]|]; [|..|done]; simpl.
  - destruct Hq as (res & Hr & Hs & He). destruct (expire_result_wf g st r res now W Hr He) as (g1 & st1 & Hst & W1 & Hl1 & Ho & Hd & Ht & Hk).
    rewrite Hst. simpl.
    assert (Hlt : (size (expired_of now (ms_results st1)) < size (expired_of now (ms_results st)))%nat)
      by (eapply expired_fewer; [done..|]; intros; apply replied_not_expired; by apply Hd).
    destruct (IH g1 st1 true W1 ltac:(lia)) as (e & g' & st' & Hlp & W' & Hl' & P1 & P2 & P3 & P4 & P5).
    exists e, g', st'. split; [done|]. split; [done|]. split; [congruence|]. split; [|split; [|split; [|split]]].
    + intros r' R HR HE. assert (r' <> r) by (intros ->; rewrite Hr in HR; injection HR as <-; by apply HE). apply P1; [by rewrite Ho|done].
    + intros r' HR. apply P2. rewrite Ho; [done|]. intros ->. congruence.
    + intros r' R HR HE. destruct (decide (r' = r)) as [->|Hne]; [|apply P3; [by rewrite Ho|done]]. rewrite Hr in HR. injection HR as <-.
      apply (told_kept g1 g' st1 st' now); try done. intros cb Hcb. by eapply (wf_callback _ _ _ W).
    + intros b l m Hin Hn. apply P4; [|done]. by apply Hk.
    + split; [intros _; right; by exists r, res|]. intros _. apply P5. by left.
  - exists expired, g, st. do 5 (split; [done|]). split; [|split; [by intros ? ? ?|split; [by left|]]].
    + intros r res Hr [HS HE]. rewrite (Hq _ _ Hr HS) in HE. done.
    + intros [H|(r & res & Hr & HS & HE)]; [done|]. rewrite (Hq _ _ Hr HS) in HE. done.
Qed.

(** ** The end of a thread *)

Lemma drop_send_wf fuel g st a q :
  msgq_wf g st None -> ms_queues st !! a = Some q -> (length (qu_send_results q) < fuel)%nat ->
  exists st', drop_send fuel st a = Some st' /\ msgq_wf g st' None /\ ms_list st' = ms_list st /\
    ms_queues st' !! a = Some (q_results q [] (qu_callback_results q) (qu_recv_result q)).
Proof.
  revert st q. induction fuel as [|fuel IH]; intros st q W Ha Hf; [lia|]. cbn [drop_send]. rewrite Ha. simpl.
  destruct (qu_send_results q) as [|r l] eqn:Hl.
  { exists st. split_and!; [done..|]. rewrite Ha, <- Hl. f_equal. symmetry. by apply q_results_id. }
  destruct (wf_held _ _ _ W a q r Ha) as (res & Hr & Hs); [rewrite Hl; set_solver|].
  assert (W0 : msgq_wf g st (Some r)) by (by apply wf_weaken).
  rewrite (remove_from_sender_eq _ _ _ _ _ _ W0 Hr Hs Ha). simpl. pose proof (left_sender_wf _ _ _ _ _ _ W0 Hr Hs Ha) as W1.
  pose proof (wf_queue _ _ _ W _ _ Ha) as (_ & _ & Hn & _). rewrite Hl in Hn. simpl in Hn. inversion Hn as [|? ? Hnr Hn']; subst.
  rewrite not_elem_of_app in Hnr. destruct Hnr as [Hn1 Hn2].
  assert (Ha1 : ms_queues (left_sender st r res a q) !! a = Some (q_results q l (qu_callback_results q) (qu_recv_result q))).
  { simpl. rewrite lookup_insert_eq, Hl, without_cons, (without_fresh r (qu_callback_results q)) by done. done. }
  destruct (IH _ _ W1 Ha1) as (st' & Hst & W' & El & Ea); [simpl in *; lia|]. exists st'. done.
Qed.

Lemma drop_callbacks_wf fuel g st a q :
  msgq_wf g st None -> ms_queues st !! a = Some q -> (length (qu_callback_results q) < fuel)%nat -> qu_send_results q = [] ->
  exists st', drop_callbacks fuel st a = Some st' /\ msgq_wf g st' None /\ ms_list st' = ms_list st /\
    ms_queues st' !! a = Some (q_results q [] [] (qu_recv_result q)).
Proof.
  revert st q. induction fuel as [|fuel IH]; intros st q W Ha Hf Hs0; [lia|]. cbn [drop_callbacks]. rewrite Ha. simpl.
  destruct (qu_callback_results q) as [|r l] eqn:Hl.
  { exists st. split_and!; [done..|]. rewrite Ha. f_equal. symmetry. rewrite <- Hs0 at 1. rewrite <- Hl. by apply q_results_id. }
  destruct (wf_held _ _ _ W a q r Ha) as (res & Hr & Hs); [rewrite Hl; set_solver|].
  assert (W0 : msgq_wf g st (Some r)) by (by apply wf_weaken).
  rewrite (remove_from_sender_eq _ _ _ _ _ _ W0 Hr Hs Ha). simpl. pose proof (left_sender_wf _ _ _ _ _ _ W0 Hr Hs Ha) as W1.
  pose proof (wf_queue _ _ _ W _ _ Ha) as (_ & _ & Hn & _). rewrite Hl, Hs0 in Hn. simpl in Hn. inversion Hn as [|? ? Hnr Hn']; subst.
  assert (Ha1 : ms_queues (left_sender st r res a q) !! a = Some (q_results q [] l (qu_recv_result q))).
  { simpl. rewrite lookup_insert_eq, Hl, Hs0, without_cons by done. done. }
  destruct (IH _ _ W1 Ha1) as (st' & Hst & W' & El & Ea); [simpl in *; lia|done|]. exists st'. done.
Qed.

(** No result has a sender with empty lists. *)
Lemma no_sender g st x a q r res :
  msgq_wf g st x -> ms_queues st !! a = Some q -> qu_send_results q = [] -> qu_callback_results q = [] ->
  ms_results st !! r = Some res -> rs_sender res <> Some a.
Proof.
  intros W Ha E1 E2 Hr Hs. destruct (wf_sender _ _ _ W _ _ _ Hr Hs) as (q' & Hq' & Hin & _). rewrite Ha in Hq'. injection Hq' as <-.
  rewrite E1, E2 in Hin. by apply not_elem_of_nil in Hin.
Qed.

Lemma drop_received_wf fuel g st a q :
  msgq_wf g st None -> ms_queues st !! a = Some q -> (length (qu_recv_result q) < fuel)%nat ->
  qu_send_results q = [] -> qu_callback_results q = [] ->
  exists g' st', drop_received fuel st a = Some st' /\ msgq_wf g' st' None /\ ms_list st' = ms_list st /\
    ms_queues st' !! a = Some (q_results q [] [] []) /\ g' a = g a.
Proof.
  revert g st q. induction fuel as [|fuel IH]; intros g st q W Ha Hf E1 E2; [lia|]. cbn [drop_received]. rewrite Ha. simpl.
  destruct (qu_recv_result q) as [|r rest] eqn:Hl.
  { exists g, st. split_and!; [done..| |done]. rewrite Ha. f_equal. symmetry. rewrite <- E1 at 1. rewrite <- E2 at 1. rewrite <- Hl. by apply q_results_id. }
  destruct (wf_stack _ _ _ W a q r Ha) as (res & Hr & _); [rewrite Hl; set_solver|].
  destruct (reply_wf g st a q r rest res W Ha Hl Hr true 0 HORIZON_MSGQ_STATUS_ACCESS_DENIED true []) as (g1 & st1 & Hst & P).
  rewrite Hst. simpl. pose proof (no_sender _ _ _ _ _ _ _ W Ha E1 E2 Hr) as Hns.
  destruct (rp_queues _ _ _ _ _ _ _ _ P a Hns) as [Ha1 Hg1]. rewrite decide_True in Ha1 by done.
  destruct (IH _ _ _ (rp_wf _ _ _ _ _ _ _ _ P) Ha1) as (g' & st' & Hlp & W' & El & Ea & Eg); [simpl in *; lia|done|done|].
  exists g', st'. split_and!; [done|done|rewrite El; apply P|done|congruence].
Qed.

Lemma drop_messages_wf fuel g st a q :
  msgq_wf g st None -> ms_queues st !! a = Some q -> (length (g a) < fuel)%nat ->
  qu_send_results q = [] -> qu_callback_results q = [] -> qu_recv_result q = [] ->
  exists g' st' q', drop_messages fuel st a = Some st' /\ msgq_wf g' st' None /\ ms_list st' = ms_list st /\
    ms_queues st' !! a = Some q' /\ g' a = [] /\ qu_send_results q' = [] /\ qu_callback_results q' = [] /\ qu_recv_result q' = [].
Proof.
  revert g st q. induction fuel as [|fuel IH]; intros g st q W Ha Hf E1 E2 E3; [lia|]. cbn [drop_messages]. rewrite Ha. simpl.
  pose proof (wf_queue _ _ _ W _ _ Ha) as Hok. pose proof Hok as (Q1 & _). rewrite (rep_head _ _ _ Q1).
  destruct (g a) as [|[l m] ms] eqn:Hg; [by exists g, st, q|]. simpl.
  destruct (unlink_sent_ok _ _ 0 l m Hok eq_refl) as (q1 & Hu & Hok1 & (T & _ & _ & F1 & F2 & F3) & Hh). simpl in *.
  rewrite Hh. simpl. rewrite Hu. simpl. unfold horizon_msgq_free_sent. destruct (sm_result m) as [r|] eqn:Hm.
  - destruct (wf_pending _ _ _ W a q l m r Ha) as (res & Hr & _); [rewrite Hg; set_solver|done|]. simpl. rewrite Hr. simpl.
    destruct (discard_wf g st a q 0 l m r res q1 (r_ends res None (rs_sender res) None) 0 HORIZON_MSGQ_STATUS_ACCESS_DENIED W Ha
       ltac:(by rewrite Hg) Hm Hr Hu) as (g1 & st1 & Hst & S); [done..|]. rewrite Hst. simpl.
    pose proof (no_sender _ _ _ _ _ _ _ W Ha E1 E2 Hr) as Hns.
    destruct (so_queues _ _ _ _ _ _ _ _ S a Hns) as [Ha1 Hg1]. simpl in Ha1. rewrite lookup_insert_eq in Ha1.
    rewrite set_messages_eq, Hg in Hg1. simpl in Hg1.
    destruct (IH g1 st1 (drop_sent q1 l) (so_wf _ _ _ _ _ _ _ _ S) Ha1) as (g' & st' & q' & Hlp & W' & El & ?); [rewrite Hg1; simpl in Hf; lia|simpl; congruence..|].
    exists g', st', q'. split_and!; try done; [by rewrite El, (so_list _ _ _ _ _ _ _ _ S)|tauto..].
  - simpl. destruct (IH (set_messages g a ms) (put_queue st a (drop_sent q1 l)) (drop_sent q1 l)) as (g' & st' & q' & Hlp & W' & El & ?).
    + eapply messages_wf; try done. intros l' m' r1 Hr1. rewrite Hg, elem_of_cons. split; [tauto|]. intros [[= -> ->]|?]; [congruence|done].
    + apply put_queue_lookup. by left.
    + rewrite set_messages_eq. simpl in Hf. lia.
    + simpl. congruence.
    + simpl. congruence.
    + simpl. congruence.
    + exists g', st', q'. done.
Qed.

#[local] Arguments drop_send : simpl never.
#[local] Arguments drop_callbacks : simpl never.
#[local] Arguments drop_received : simpl never.
#[local] Arguments drop_messages : simpl never.

Lemma destroy_wf g st a q :
  msgq_wf g st None -> ms_queues st !! a = Some q ->
  exists g' st', horizon_msgq_destroy st a = Some st' /\ msgq_wf g' st' None /\ ms_list st' = without a (ms_list st) /\
    ms_queues st' !! a = None.
Proof.
  intros W Ha. unfold horizon_msgq_destroy. rewrite Ha. simpl.
  destruct (drop_send_wf _ _ _ _ _ W Ha (Nat.lt_succ_diag_r _)) as (st1 & H1 & W1 & L1 & A1). rewrite H1. simpl.
  destruct (drop_callbacks_wf (S (length (qu_callback_results q))) _ _ _ _ W1 A1 ltac:(simpl; lia) eq_refl) as (st2 & H2 & W2 & L2 & A2).
  rewrite H2. simpl.
  destruct (drop_received_wf (S (length (qu_recv_result q))) _ _ _ _ W2 A2 ltac:(simpl; lia) eq_refl eq_refl) as (g3 & st3 & H3 & W3 & L3 & A3 & G3).
  rewrite H3. simpl.
  assert (Hlen : (length (g3 a) < S (size (cl_heap (qu_sent q))))%nat).
  { rewrite G3. destruct (wf_queue _ _ _ W _ _ Ha) as (Q1 & _). pose proof (rep_size _ _ _ Q1) as Hs. rewrite length_fmap in Hs. lia. }
  destruct (drop_messages_wf _ _ _ _ _ W3 A3 Hlen eq_refl eq_refl eq_refl) as (g4 & st4 & q4 & H4 & W4 & L4 & A4 & G4 & E1 & E2 & E3).
  rewrite H4. simpl. destruct (wf_list _ _ _ W4) as [N1 N2].
  rewrite unlink_queue_spec; [|done|intros x; apply N2]. simpl. exists g4. eexists. split; [done|].
  split_and!; [|simpl; congruence|simpl; apply lookup_delete_eq].
  assert (Hd : forall b qb, delete a (ms_queues st4) !! b = Some qb <-> b <> a /\ ms_queues st4 !! b = Some qb).
  { intros b qb. rewrite lookup_delete_Some. naive_solver. }
  split; simpl.
  - split; [by apply NoDup_without|]. intros b. rewrite elem_of_without, N2. unfold is_Some. setoid_rewrite Hd. naive_solver.
  - intros b c qb qc [_ H5]%Hd [_ H6]%Hd. by apply (wf_tid _ _ _ W4).
  - intros b qb [_ H5]%Hd. by apply (wf_queue _ _ _ W4).
  - intros b qb l m r [_ H5]%Hd. by apply (wf_pending _ _ _ W4 _ _ _ _ _ H5).
  - intros b qb r [_ H5]%Hd. by apply (wf_stack _ _ _ W4 _ _ _ H5).
  - intros b qb r [_ H5]%Hd. by apply (wf_held _ _ _ W4 _ _ _ H5).
  - intros r R b HR Hs. destruct (wf_sender _ _ _ W4 _ _ _ HR Hs) as (qb & Hb & Hin & Hk). exists qb. rewrite Hd. split_and!; [|done..|done].
    intros ->. by apply (no_sender g4 st4 None a q4 r R).
  - intros r R b HR Hs. destruct (wf_receiver _ _ _ W4 _ _ _ HR Hs) as (qb & Hb & Hin). exists qb. rewrite Hd. split_and!; [|done|done].
    intros ->. rewrite A4 in Hb. injection Hb as <-. rewrite G4, E3 in Hin. destruct (rs_msg R); [destruct Hin as (? & ?%not_elem_of_nil & _); done|by apply not_elem_of_nil in Hin].
  - apply (wf_done _ _ _ W4).
  - apply (wf_callback _ _ _ W4).
Qed.

(** ** The server

    The calls the server makes for the threads, which it knows by their ids. *)
Inductive msgq_op :=
| OpGet (memory : bool) (tid : Z)
| OpUpdate (tid external : Z)
| OpBeginGet (tid filter first last : Z)
| OpQuit (tid exit_code : Z)
| OpSend (mem : send_memory) (sender : option Z) (receiver : Z) (fields : horizon_msgq_sent) (data : list Z)
    (has_deadline : bool) (deadline : Z)
| OpReceive (tid : Z)
| OpReply (memory : bool) (tid value error : Z) (remove : bool) (data : list Z)
| OpGetReply (tid : Z) (cancel : bool)
| OpExpire (now : Z)
| OpDestroy (tid : Z).

(** Nothing happens for a thread without a queue. *)
Definition with_queue (st : horizon_msgqs) (tid : Z) (f : positive -> option horizon_msgqs) : option horizon_msgqs :=
  queue ← horizon_msgq_find st tid;
  match queue with Some a => f a | None => Some st end.

Definition on_queue (st : horizon_msgqs) (a : positive) (f : horizon_msgq -> option horizon_msgq) : option horizon_msgqs :=
  q ← ms_queues st !! a; q ← f q; Some (put_queue st a q).

Definition run_op (st : horizon_msgqs) (op : msgq_op) : option horizon_msgqs :=
  match op with
  | OpGet memory tid => snd <$> horizon_msgq_get memory st tid
  | OpUpdate tid external => with_queue st tid (fun a => on_queue st a (fun q => horizon_msgq_update (ms_results st) q external))
  | OpBeginGet tid filter first last =>
      with_queue st tid (fun a => on_queue st a (fun q => Some (horizon_msgq_begin_get q filter first last)))
  | OpQuit tid code => with_queue st tid (fun a => on_queue st a (fun q => Some (horizon_msgq_post_quit q code)))
  | OpSend mem sender receiver fields data has_deadline deadline =>
      s ← match sender with Some tid => horizon_msgq_find st tid | None => Some None end;
      with_queue st receiver (fun a => snd <$> horizon_msgq_send mem st s a fields data has_deadline deadline)
  | OpReceive tid => with_queue st tid (fun a => snd <$> horizon_msgq_receive st a)
  | OpReply memory tid value error remove data =>
      with_queue st tid (fun a => snd <$> horizon_msgq_reply memory st a value error remove data)
  | OpGetReply tid cancel => with_queue st tid (fun a => snd <$> horizon_msgq_get_reply st a cancel)
  | OpExpire now => snd <$> horizon_msgq_expire st now
  | OpDestroy tid => with_queue st tid (horizon_msgq_destroy st)
  end.

Fixpoint run (st : horizon_msgqs) (ops : list msgq_op) : option horizon_msgqs :=
  match ops with
  | [] => Some st
  | op :: ops => st ← run_op st op; run st ops
  end.

Lemma msgqs_empty_wf : msgq_wf (fun _ => []) msgqs_empty None.
Proof.
  split; simpl; try done. split; [constructor|]. intros a. split; [by intros ?%not_elem_of_nil|by intros [? ?]].
Qed.

Lemma update_same g st a q external :
  msgq_wf g st None -> ms_queues st !! a = Some q ->
  exists q', horizon_msgq_update (ms_results st) q external = Some q' /\ same_queue q q'.
Proof.
  intros W Ha. unfold horizon_msgq_update, horizon_msgq_own_bits. destruct (qu_send_results q) as [|r l] eqn:Hl; [by eexists|].
  destruct (wf_held _ _ _ W a q r Ha) as (res & Hr & _); [rewrite Hl; set_solver|]. rewrite Hr. by eexists.
Qed.

Lemma on_queue_wf g st a q f :
  msgq_wf g st None -> ms_queues st !! a = Some q -> (exists q', f q = Some q' /\ same_queue q q') ->
  exists st', on_queue st a f = Some st' /\ msgq_wf g st' None.
Proof.
  intros W Ha (q' & Hf & Hs). unfold on_queue. rewrite Ha. simpl. rewrite Hf. simpl. eexists. split; [done|]. by eapply wf_put_same.
Qed.

Lemma run_op_wf g st op :
  msgq_wf g st None -> exists g' st', run_op st op = Some st' /\ msgq_wf g' st' None.
Proof.
  intros W.
  assert (Hwq : forall tid f, (forall a q, ms_queues st !! a = Some q -> exists g' st', f a = Some st' /\ msgq_wf g' st' None) ->
            exists g' st', with_queue st tid f = Some st' /\ msgq_wf g' st' None).
  { intros tid f Hf. unfold with_queue. pose proof (find_queue_spec _ _ _ tid W) as Hq.
    destruct (horizon_msgq_find st tid) as [[a|]|]; simpl; [|by exists g, st|done]. destruct Hq as (q & Hq & _). by eapply Hf. }
  destruct op as [memory tid|tid external|tid flt first last|tid code|mem sender receiver fields data hd dl|tid|memory tid value error remove data|tid cancel|now|tid];
    cbn [run_op].
  - destruct (get_wf g memory st tid W) as (a & c & st' & g' & -> & W'). by exists g', st'.
  - apply Hwq. intros a q Ha. destruct (on_queue_wf g st a q (fun q => horizon_msgq_update (ms_results st) q external) W Ha (update_same _ _ _ _ external W Ha)) as (st' & ? & ?). by exists g, st'.
  - apply Hwq. intros a q Ha. destruct (on_queue_wf g st a q (fun q => Some (horizon_msgq_begin_get q flt first last)) W Ha) as (st' & ? & ?); [by eexists|]. by exists g, st'.
  - apply Hwq. intros a q Ha. destruct (on_queue_wf g st a q (fun q => Some (horizon_msgq_post_quit q code)) W Ha) as (st' & ? & ?); [by eexists|]. by exists g, st'.
  - assert (Hs : exists s, match sender with Some tid => horizon_msgq_find st tid | None => Some None end = Some s /\
       match s with Some s => is_Some (ms_queues st !! s) | None => True end).
    { destruct sender as [tid|]; [|by eexists]. pose proof (find_queue_spec _ _ _ tid W) as Hq.
      destruct (horizon_msgq_find st tid) as [[a|]|]; [|by eexists|done]. destruct Hq as (q & Hq & _). eexists. split; [done|]. by eexists. }
    destruct Hs as (s & -> & Hs). simpl. apply Hwq. intros a q Ha.
    destruct (send_wf g mem st s a q fields data hd dl W Ha Hs) as (status & st' & -> & _ & _ & g' & W' & _). by exists g', st'.
  - apply Hwq. intros a q Ha. pose proof (receive_wf g st a q W Ha) as Hrc. destruct (g a) as [|[l m] ms]; [rewrite Hrc; by exists g, st|].
    destruct Hrc as (st' & q' & -> & W' & _). by eexists _, st'.
  - apply Hwq. intros a q Ha. destruct (qu_recv_result q) as [|r rest] eqn:Hl.
    { unfold horizon_msgq_reply. rewrite Ha. simpl. rewrite Hl. by exists g, st. }
    destruct (wf_stack _ _ _ W a q r Ha) as (res & Hr & _); [rewrite Hl; set_solver|].
    destruct (reply_wf g st a q r rest res W Ha Hl Hr memory value error remove data) as (g' & st' & -> & P). exists g', st'. split; [done|apply P].
  - apply Hwq. intros a q Ha. destruct (get_reply_wf g st a q cancel W Ha) as (out & st' & -> & W'). by exists g, st'.
  - destruct (expire_loop_wf (S (size (ms_results st))) g st now false W) as (e & g' & st' & Hlp & W' & _).
    { apply Nat.lt_succ_r. apply map_subseteq_size, map_filter_subseteq. }
    unfold horizon_msgq_expire. rewrite Hlp. by exists g', st'.
  - apply Hwq. intros a q Ha. destruct (destroy_wf g st a q W Ha) as (g' & st' & ? & ? & _). by exists g', st'.
Qed.

Lemma run_wf g st ops : msgq_wf g st None -> exists g' st', run st ops = Some st' /\ msgq_wf g' st' None.
Proof.
  revert g st. induction ops as [|op ops IH]; intros g st W; simpl; [by exists g, st|].
  destruct (run_op_wf g st op W) as (g1 & st1 & -> & W1). simpl. by eapply IH.
Qed.

Lemma run_reachable ops st : run msgqs_empty ops = Some st -> exists g, msgq_wf g st None.
Proof. intros H. destruct (run_wf _ _ ops msgqs_empty_wf) as (g & st' & H' & W). rewrite H in H'. injection H' as <-. by exists g. Qed.

(** C11: No sequence of calls of the server for any threads, refused
    allocations, timeouts and threads that end at any time included, reads a
    queue, a message or a result that was freed or follows a NULL pointer, and
    no loop runs on; and when the last thread has gone, no result is left
    allocated. *)
Theorem msgq_no_fault ops :
  exists st, run msgqs_empty ops = Some st /\ (ms_list st = [] -> ms_results st = ∅ /\ ms_queues st = ∅).
Proof.
  destruct (run_wf _ _ ops msgqs_empty_wf) as (g & st & Hrun & W). exists st. split; [done|]. intros Hl.
  destruct (wf_list _ _ _ W) as [_ N]. assert (Hq : ms_queues st = ∅).
  { apply map_empty. intros a. apply eq_None_not_Some. rewrite <- N, Hl. apply not_elem_of_nil. }
  split; [|done]. apply map_empty. intros r. apply eq_None_not_Some. intros [res Hr].
  destruct (rs_receiver res) as [a|] eqn:Hrc.
  - destruct (wf_receiver _ _ _ W _ _ _ Hr Hrc) as (q & Hqa & _). by rewrite Hq in Hqa.
  - destruct (wf_done _ _ _ W _ _ Hr Hrc) as [_ Hd]. destruct (Hd ltac:(done)) as [_ [s Hs]].
    destruct (wf_sender _ _ _ W _ _ _ Hr Hs) as (q & Hqa & _). by rewrite Hq in Hqa.
Qed.

(** C13: A thread never waits for an answer nobody can give: in every state the
    server reaches, a result that some thread waits for and that has no answer
    yet belongs to a thread that still has a queue, and is there either as a
    message that was not received yet or among those being processed. *)
Theorem msgq_awaited_alive ops st a q r res :
  run msgqs_empty ops = Some st -> ms_queues st !! a = Some q ->
  r ∈ qu_send_results q ++ qu_callback_results q -> ms_results st !! r = Some res -> rs_replied res = false ->
  exists b qb, rs_receiver res = Some b /\ ms_queues st !! b = Some qb /\
    (r ∈ qu_recv_result qb \/
     exists l m next, rs_msg res = Some l /\ cl_heap (qu_sent qb) !! l = Some (m, next) /\ sm_result m = Some r).
Proof.
  intros Hrun Ha Hin Hr Hn. destruct (run_reachable _ _ Hrun) as [g W].
  destruct (rs_receiver res) as [b|] eqn:Hrc.
  - destruct (wf_receiver _ _ _ W _ _ _ Hr Hrc) as (qb & Hb & Hm). exists b, qb. split_and!; [done..|].
    destruct (rs_msg res) as [l|]; [right|by left]. destruct Hm as (m & Hin' & Hmr). apply list_elem_of_lookup in Hin' as [i Hi].
    destruct (unlink_sent_ok _ _ _ _ _ (wf_queue _ _ _ W _ _ Hb) Hi) as (_ & _ & _ & _ & Hh). by eexists _, _, _.
  - destruct (wf_done _ _ _ W _ _ Hr Hrc) as [_ Hd]. destruct (Hd ltac:(done)). congruence.
Qed.

(** The thread at [s] has the answer to result [r]: the result is among those
    it fetches, or its callback message is in its queue and the result is not
    its any more. *)
Definition answered (st : horizon_msgqs) (s r : positive) (callback : option horizon_msgq_sent) (value error : Z) : Prop :=
  exists q, ms_queues st !! s = Some q /\
    match callback with
    | None => r ∈ qu_send_results q /\ exists res, ms_results st !! r = Some res /\ rs_replied res = true /\ rs_error res = error /\ rs_result res = value
    | Some cb => (exists l next, cl_heap (qu_sent q) !! l = Some (callback_answer cb value, next)) /\ r ∉ qu_send_results q ++ qu_callback_results q
    end.

Lemma told_answered g st r res s value error : msgq_wf g st None -> is_Some (ms_queues st !! s) -> rs_sender res = Some s -> told g st r res value error -> answered st s r (rs_callback_msg res) value error.
Proof.
  intros W [q Hq] Hs T. specialize (T s Hs). exists q. split; [done|]. destruct (rs_callback_msg res) as [cb|].
  - destruct T as [[l Hl] T]. split.
    + apply list_elem_of_lookup in Hl as [i Hi]. destruct (unlink_sent_ok _ _ _ _ _ (wf_queue _ _ _ W _ _ Hq) Hi) as (_ & _ & _ & _ & Hh). by eexists _, _.
    + intros Hin. destruct (wf_held _ _ _ W _ _ _ Hq Hin) as (R & HR & HRs). rewrite (T R HR) in HRs. done.
  - destruct T as (R & HR & HRs & HRc & T). split; [|by exists R]. destruct (wf_kind _ _ _ _ _ _ W HR HRs Hq) as [[? _]|(_ & [? ?] & _)]; [done|congruence].
Qed.

(** C14: Expiring ends, and is exact. Every result a thread waits for whose
    deadline has passed without an answer is answered with STATUS_TIMEOUT and
    the value 0: the sender finds it among its results or, when it asked for a
    callback, gets its callback message. Every other result is as it was, no
    result appears, and the call says whether it answered one. *)
Theorem msgq_expire_exact ops st now :
  run msgqs_empty ops = Some st ->
  exists e st', horizon_msgq_expire st now = Some (e, st') /\
    (forall r res s, ms_results st !! r = Some res -> rs_sender res = Some s -> past_deadline now res ->
       answered st' s r (rs_callback_msg res) 0 HORIZON_MSGQ_STATUS_TIMEOUT) /\
    (forall r res, ms_results st !! r = Some res -> rs_sender res = None \/ ~ past_deadline now res -> ms_results st' !! r = Some res) /\
    (forall r, ms_results st !! r = None -> ms_results st' !! r = None) /\
    (e = true <-> exists r res, ms_results st !! r = Some res /\ is_Some (rs_sender res) /\ past_deadline now res).
Proof.
  intros Hrun. destruct (run_reachable _ _ Hrun) as [g W].
  destruct (expire_loop_wf (S (size (ms_results st))) g st now false W) as (e & g' & st' & Hlp & W' & Hl & H1 & H2 & H3 & _ & H4).
  { apply Nat.lt_succ_r. apply map_subseteq_size, map_filter_subseteq. }
  assert (Ho : forall res, overdue now res <-> is_Some (rs_sender res) /\ past_deadline now res) by (intros res; unfold overdue; by rewrite is_expired_spec).
  exists e, st'. split; [done|]. split; [|split; [|split; [done|]]].
  - intros r res s Hr Hs Hp. apply (told_answered g'); [done| |done|apply H3; [done|apply Ho; eauto]].
    destruct (wf_list _ _ _ W') as [_ N]. apply N. rewrite Hl. destruct (wf_list _ _ _ W) as [_ N0]. apply N0. destruct (wf_sender _ _ _ W _ _ _ Hr Hs) as (q & Hq & _). eauto.
  - intros r res Hr Hp. apply H1; [done|]. rewrite Ho. intros [[s Hs] Hd]. destruct Hp; congruence.
  - rewrite H4. setoid_rewrite Ho. split; [intros [|H]; done|]. by right.
Qed.

(** ** A message and its answer *)

(** A plain result answered by the thread that received its message, and
    fetched by the sender. *)
Lemma reply_fetch st a q r rest s qs l res value error data :
  ms_queues st !! a = Some q -> qu_recv_result q = r :: rest -> ms_results st !! r = Some res ->
  rs_sender res = Some s -> rs_callback_msg res = None -> rs_replied res = false -> rs_data res = [] ->
  ms_queues st !! s = Some qs -> qu_send_results qs = r :: l ->
  exists st' res' qs', horizon_msgq_reply true st a value error true data = Some (HORIZON_MSGQ_STATUS_SUCCESS, st') /\
    ms_results st' !! r = Some res' /\ rs_replied res' = true /\ rs_error res' = error /\ rs_result res' = value /\ rs_data res' = data /\
    ms_queues st' !! s = Some qs' /\ qu_send_results qs' = r :: l.
Proof.
  intros Ha Hrv Hr Hs Hc Hrep Hd Hqs Hl. unfold horizon_msgq_reply. rewrite Ha. simpl. rewrite Hrv, Hr. simpl. rewrite Hs, Hrep. simpl.
  set (popped := q_results q _ _ rest). set (res1 := r_ends res _ _ None).
  set (st1 := put_result (put_queue st a popped) r res1).
  set (res2 := r_data res1 data). set (st2 := if negb (bool_decide (data = [])) && true then _ else st1).
  assert (Hq2 : exists qs1, ms_queues st1 !! s = Some qs1 /\ qu_send_results qs1 = r :: l).
  { simpl. destruct (decide (a = s)) as [<-|Hne]; [rewrite lookup_insert_eq|rewrite lookup_insert_ne by done; by exists qs].
    exists popped. split; [done|]. rewrite Ha in Hqs. by injection Hqs as <-. }
  destruct Hq2 as (qs1 & Hq2 & Hl1).
  assert (H2 : ms_results st2 !! r = Some res2 /\ ms_queues st2 = ms_queues st1).
  { unfold st2. rewrite andb_true_r. destruct (bool_decide (data = [])) eqn:E; simpl; rewrite lookup_insert_eq; split; try done.
    apply bool_decide_eq_true in E as ->. unfold res2, r_data, res1, r_ends. simpl. by rewrite Hd. }
  destruct H2 as [Hr2 EQ]. clearbody st2. rewrite <- EQ in Hq2.
  rewrite (store_plain_eq _ _ _ s qs1) by (done || by simpl). cbv zeta. rewrite Hl1. simpl. rewrite bool_decide_eq_true_2 by done.
  eexists _, (r_answer res2 value error), _. split; [done|]. simpl. rewrite !lookup_insert_eq. split_and!; [done..|]. exact Hl1.
Qed.

Lemma get_reply_answered g st s q r l res cancel :
  msgq_wf g st None -> ms_queues st !! s = Some q -> qu_send_results q = r :: l -> ms_results st !! r = Some res -> rs_replied res = true ->
  exists st', horizon_msgq_get_reply st s cancel = Some (rs_error res, rs_result res, rs_data res, st').
Proof.
  intros W Hq Hl Hr Hrep. destruct (get_reply_wf g st s q cancel W Hq) as (out & st' & Hg & _). exists st'. rewrite Hg. do 2 f_equal.
  unfold horizon_msgq_get_reply in Hg. rewrite Hq in Hg. simpl in Hg. rewrite Hl, Hr in Hg. simpl in Hg. rewrite Hrep in Hg. simpl in Hg.
  destruct (horizon_msgq_remove_result_from_sender _ r) as [st2|]; [|done]. simpl in Hg. destruct (ms_queues st2 !! s) as [q2|]; [|done]. simpl in Hg.
  destruct (qu_send_results q2) as [|r' l']; [by injection Hg as <-|]. destruct (ms_results st2 !! r'); [|done]. by injection Hg as <-.
Qed.


(** ** A run

    Two threads, a message with a deadline from the first to the second. *)
Definition all_memory : send_memory := mk_send_memory true true true true.
Definition test_message : horizon_msgq_sent := mk_sent HORIZON_MSGQ_MSG_UNICODE 7 0x400 1 2 0 0 0 [] None.
Definition two_threads : list msgq_op := [OpGet true 11; OpGet true 22].
Definition sent_one : list msgq_op := two_threads ++ [OpSend all_memory (Some 11) 22 test_message [5; 6] true 100].

Definition state_of (ops : list msgq_op) : horizon_msgqs := default msgqs_empty (run msgqs_empty ops).

Lemma msgq_awaited_alive_witness :
  exists b qb, ms_queues (state_of sent_one) !! b = Some qb /\ qu_tid qb = 22.
Proof.
  destruct (msgq_awaited_alive sent_one (state_of sent_one) 1 (default (msgq_new 0) (ms_queues (state_of sent_one) !! 1%positive)) 1
     (default (mk_result None None None None false 0 0 [] false 0) (ms_results (state_of sent_one) !! 1%positive)))
    as (b & qb & Hb & Hqb & _); [vm_compute; reflexivity|vm_compute; reflexivity|vm_compute; apply list_elem_of_here|vm_compute; reflexivity|vm_compute; reflexivity|].
  exists b, qb. split; [exact Hqb|]. revert Hb Hqb. vm_compute. intros [= <-] [= <-]. reflexivity.
Defined.

Lemma msgq_expire_exact_witness :
  exists st', horizon_msgq_expire (state_of sent_one) 100 = Some (true, st') /\ answered st' 1 1 None 0 HORIZON_MSGQ_STATUS_TIMEOUT.
Proof.
  destruct (msgq_expire_exact sent_one (state_of sent_one) 100) as (e & st' & H1 & H2 & _ & _ & H3); [vm_compute; reflexivity|].
  destruct (ms_results (state_of sent_one) !! 1%positive) as [res|] eqn:Hr; [|vm_compute in Hr; discriminate].
  assert (rs_sender res = Some 1%positive /\ rs_callback_msg res = None /\ past_deadline 100 res) as (Hs & Hc & Hp).
  { vm_compute in Hr. injection Hr as <-. repeat split. vm_compute. discriminate. }
  exists st'. split; [rewrite H1; do 2 f_equal; apply H3; exists 1%positive, res; split; [exact Hr|]; split; [rewrite Hs; by eexists|exact Hp]|].
  rewrite <- Hc. apply (H2 1%positive res 1%positive Hr Hs Hp).
Defined.

