(* ===== verification/Threads.v ===== *)
(** * Threads, mutexes and keyed events

    [horizon_threads.h]: the state of a thread of the server and its rights,
    the mutex, the rendezvous of keyed events and the list of threads that
    nobody joined. The last two run without the server's lock, so they are
    step relations over what their own locks make atomic. *)
From S2P Require Import Prelude.
Local Open Scope Z_scope.

(** ** Threads *)

Definition HORIZON_THREAD_STILL_ACTIVE : Z := 0x103.
Definition HORIZON_THREAD_INFO_TERMINATED : Z := 2.
Definition HORIZON_THREAD_INFO_LAST : Z := 4.
Definition HORIZON_THREAD_MAX_SUSPEND : Z := 127.
Definition HORIZON_THREAD_ALL_ACCESS : Z := 0x1fffff.
Definition HORIZON_THREADS_STATUS_ACCESS_DENIED : Z := 0xc0000022.
Definition HORIZON_THREADS_STATUS_MUTANT_NOT_OWNED : Z := 0xc0000046.
Definition HORIZON_THREADS_STATUS_SUSPEND_EXCEEDED : Z := 0xc000004a.

(** [if (access & test) access |= rights] *)
Definition imply (test rights access : Z) : Z := if nonzero (Z.land access test) then Z.lor access rights else access.

Definition horizon_thread_map_access (access : Z) : Z :=
  let access := imply 0x80000000 0x00020048 access in
  let access := imply 0x40000000 0x00020437 access in
  let access := imply 0x20000000 0x00121800 access in
  let access := imply 0x12000000 HORIZON_THREAD_ALL_ACCESS access in
  let access := Z.land access (Z.lxor UINT_MAX 0xf2000000) in
  let access := imply 0x0040 0x0800 access in
  imply 0x0020 0x0400 access.

Record horizon_thread_state := mk_thread {
  ts_tid : Z; ts_pid : Z; ts_teb : Z; ts_entry : Z; ts_affinity : Z;
  ts_priority : Z; ts_base_priority : Z;
  ts_exit_code : Z;
  ts_started : bool; ts_terminated : bool; ts_is_system : bool;
  ts_suspend : Z;
  ts_creation_time : Z; ts_exit_time : Z;
}.

Definition t_with_exit_code (t : horizon_thread_state) code := mk_thread (ts_tid t) (ts_pid t) (ts_teb t) (ts_entry t) (ts_affinity t) (ts_priority t) (ts_base_priority t) code (ts_started t) (ts_terminated t) (ts_is_system t) (ts_suspend t) (ts_creation_time t) (ts_exit_time t).
Definition t_with_suspend (t : horizon_thread_state) n := mk_thread (ts_tid t) (ts_pid t) (ts_teb t) (ts_entry t) (ts_affinity t) (ts_priority t) (ts_base_priority t) (ts_exit_code t) (ts_started t) (ts_terminated t) (ts_is_system t) n (ts_creation_time t) (ts_exit_time t).
Definition t_ended (t : horizon_thread_state) now := mk_thread (ts_tid t) (ts_pid t) (ts_teb t) (ts_entry t) (ts_affinity t) (ts_priority t) (ts_base_priority t) (ts_exit_code t) (ts_started t) true (ts_is_system t) 0 (ts_creation_time t) now.

Definition horizon_thread_init (tid pid affinity now : Z) : horizon_thread_state :=
  mk_thread tid pid 0 0 affinity 0 0 0 false false false 0 now 0.

Definition horizon_thread_exit_status (t : horizon_thread_state) : Z := if ts_terminated t then ts_exit_code t else HORIZON_THREAD_STILL_ACTIVE.

Definition horizon_thread_info_flags (t : horizon_thread_state) (running : Z) : Z :=
  let flags := if ts_terminated t then HORIZON_THREAD_INFO_TERMINATED else 0 in
  if running =? 1 then Z.lor flags HORIZON_THREAD_INFO_LAST else flags.

Definition horizon_thread_set_exit_code (t : horizon_thread_state) (code : Z) : horizon_thread_state :=
  if negb (ts_terminated t) then t_with_exit_code t code else t.

(** Whether this call ended the thread. *)
Definition horizon_thread_mark_terminated (t : horizon_thread_state) (now : Z) : bool * horizon_thread_state :=
  if ts_terminated t then (false, t) else (true, t_ended t now).

Definition horizon_thread_may_start (t : horizon_thread_state) : bool := negb (nonzero (ts_suspend t)) || ts_terminated t.

(** The status, the count before and the thread. *)
Definition horizon_thread_resume (t : horizon_thread_state) : Z * Z * horizon_thread_state :=
  (0, ts_suspend t, if nonzero (ts_suspend t) then t_with_suspend t (ts_suspend t - 1) else t).

Definition horizon_thread_suspend (t : horizon_thread_state) : Z * Z * horizon_thread_state :=
  if ts_terminated t then (HORIZON_THREADS_STATUS_ACCESS_DENIED, ts_suspend t, t) else
  if HORIZON_THREAD_MAX_SUSPEND <=? ts_suspend t then (HORIZON_THREADS_STATUS_SUSPEND_EXCEEDED, ts_suspend t, t) else
  (0, ts_suspend t, t_with_suspend t (ts_suspend t + 1)).

(** ** Mutexes *)

Record horizon_mutex_state := mk_mutex {
  mx_owner : Z;
  mx_count : Z;
  mx_abandoned : bool;
}.

Definition horizon_mutex_signaled (m : horizon_mutex_state) (tid : Z) : bool := negb (nonzero (mx_count m)) || (mx_owner m =? tid).

(** Whether the acquisition inherits an abandoned mutex. *)
Definition horizon_mutex_acquire (m : horizon_mutex_state) (tid : Z) : bool * horizon_mutex_state :=
  (mx_abandoned m, if nonzero (mx_count m) && (mx_owner m =? tid) then mk_mutex (mx_owner m) (u32 (mx_count m + 1)) false else mk_mutex tid 1 false).

(** The status, the count before and the mutex. *)
Definition horizon_mutex_release (m : horizon_mutex_state) (tid : Z) : Z * Z * horizon_mutex_state :=
  if negb (nonzero (mx_count m)) || negb (mx_owner m =? tid) then (HORIZON_THREADS_STATUS_MUTANT_NOT_OWNED, mx_count m, m) else
  let count := mx_count m - 1 in
  (0, mx_count m, mk_mutex (if nonzero count then mx_owner m else 0) count (mx_abandoned m)).

Definition horizon_mutex_abandon (m : horizon_mutex_state) (tid : Z) : bool * horizon_mutex_state :=
  if negb (nonzero (mx_count m)) || negb (mx_owner m =? tid) then (false, m) else (true, mk_mutex 0 0 true).

(** ** Keyed events

    A call of [horizon_keyed_rendezvous] is a frame that other calls reach
    through the queue while it waits; a frame that returned is gone, and using
    it is a fault. *)

Record horizon_keyed_waiter := mk_keyed {
  ky_object : Z;
  ky_key : Z;
  ky_release : bool;
}.

#[export] Instance horizon_keyed_waiter_eq_dec : EqDecision horizon_keyed_waiter.
Proof. solve_decision. Defined.

Inductive keyed_phase := K_looking | K_late.

Record keyed_frame := mk_frame {
  kf_self : horizon_keyed_waiter;
  kf_done : bool;
  kf_end : Z;
  kf_phase : keyed_phase;
}.

Definition frame_done (f : keyed_frame) : keyed_frame := mk_frame (kf_self f) true (kf_end f) (kf_phase f).
Definition frame_phase (f : keyed_frame) (p : keyed_phase) : keyed_frame := mk_frame (kf_self f) (kf_done f) (kf_end f) p.

(** The queue, the frames, and the calls that returned with what they
    returned, the newest first. *)
Record keyed_state := mk_keyed_state {
  ke_queue : list positive;
  ke_frames : gmap positive keyed_frame;
  ke_returned : list (horizon_keyed_waiter * Z);
}.

Definition keyed_meets (self peer : horizon_keyed_waiter) : bool :=
  negb (Bool.eqb (ky_release peer) (ky_release self) || negb (ky_object peer =? ky_object self) || negb (ky_key peer =? ky_key self)).

(** The peer, if there is one, and the queue without it. *)
Fixpoint horizon_keyed_match_locked (frames : gmap positive keyed_frame) (queue : list positive) (self : horizon_keyed_waiter) : option (option positive * list positive) :=
  match queue with
  | [] => Some (None, [])
  | peer :: queue =>
      f ← frames !! peer;
      if negb (keyed_meets self (kf_self f)) then '(r, queue) ← horizon_keyed_match_locked frames queue self; Some (r, peer :: queue)
      else Some (Some peer, queue)
  end.

Definition horizon_keyed_enqueue_locked (queue : list positive) (self : positive) : list positive := queue ++ [self].

Fixpoint horizon_keyed_cancel_locked (queue : list positive) (self : positive) : bool * list positive :=
  match queue with
  | [] => (false, [])
  | q :: queue =>
      if negb (bool_decide (q = self)) then let '(r, queue) := horizon_keyed_cancel_locked queue self in (r, q :: queue) else (true, queue)
  end.

(** The first section of a call: 0 or 1 is returned, or frame [id] waits.
    [now] is the time when its deadline is taken. *)
Definition rendezvous_enter (st : keyed_state) (id : positive) (self : horizon_keyed_waiter) (timeout now : Z) : option (option Z * keyed_state) :=
  '(peer, queue) ← horizon_keyed_match_locked (ke_frames st) (ke_queue st) self;
  match peer with
  | Some peer =>
      f ← ke_frames st !! peer;
      Some (Some 0, mk_keyed_state queue (<[peer := frame_done f]> (ke_frames st)) ((self, 0) :: ke_returned st))
  | None =>
      if timeout =? 0 then Some (Some 1, mk_keyed_state queue (ke_frames st) ((self, 1) :: ke_returned st)) else
      Some (None, mk_keyed_state (horizon_keyed_enqueue_locked queue id)
        (<[id := mk_frame self false (if 0 <? timeout then now + timeout else 0) K_looking]> (ke_frames st)) (ke_returned st))
  end.

(** The frame returns. *)
Definition rendezvous_leave (st : keyed_state) (queue : list positive) (id : positive) (f : keyed_frame) (r : Z) : option Z * keyed_state :=
  (Some r, mk_keyed_state queue (delete id (ke_frames st)) ((kf_self f, r) :: ke_returned st)).

(** What a waiting call does next: it looks at [done] and at the time, or, when
    it was late, takes the lock and leaves the queue. *)
Definition rendezvous_turn (st : keyed_state) (id : positive) (now : Z) : option (option Z * keyed_state) :=
  f ← ke_frames st !! id;
  match kf_phase f with
  | K_looking =>
      if kf_done f then Some (rendezvous_leave st (ke_queue st) id f 0) else
      Some (None, if nonzero (kf_end f) && (kf_end f - now <=? 0) then mk_keyed_state (ke_queue st) (<[id := frame_phase f K_late]> (ke_frames st)) (ke_returned st) else st)
  | K_late =>
      let '(cancelled, queue) := horizon_keyed_cancel_locked (ke_queue st) id in
      if cancelled : bool then Some (rendezvous_leave st queue id f 1) else
      Some (None, mk_keyed_state queue (<[id := frame_phase f K_looking]> (ke_frames st)) (ke_returned st))
  end.

(** Calls of any threads. *)
Inductive keyed_step : keyed_state -> keyed_state -> Prop :=
  | Keyed_enter st id self timeout now r st' : ke_frames st !! id = None -> rendezvous_enter st id self timeout now = Some (r, st') -> keyed_step st st'
  | Keyed_turn st id now r st' : is_Some (ke_frames st !! id) -> rendezvous_turn st id now = Some (r, st') -> keyed_step st st'.

Definition keyed_start : keyed_state := mk_keyed_state [] ∅ [].
Definition keyed_reachable (st : keyed_state) : Prop := rtc keyed_step keyed_start st.

(** ** Threads nobody joined *)

(** Nodes are objects; [zo_nodes] gives the thread of each node that is not
    freed. A reaper holds the nodes it has to look at, those it keeps and how
    many it joined. *)
Record zombie_state := mk_zombies {
  zo_nodes : gmap positive Z;
  zo_head : list positive;
  zo_pending : Z;
  zo_reaped : Z;
  zo_reapers : gmap positive (Z * list positive * list positive * Z);
  zo_joined : list Z;
}.

Definition horizon_zombie_push (st : zombie_state) (node : positive) (self : Z) : zombie_state :=
  mk_zombies (<[node := self]> (zo_nodes st)) (node :: zo_head st) (u32 (zo_pending st + 1)) (zo_reaped st) (zo_reapers st) (zo_joined st).

(** The parts of [horizon_zombie_reap]: the list is taken; ... *)
Definition reap_take (st : zombie_state) (call : positive) (self : Z) : zombie_state :=
  mk_zombies (zo_nodes st) [] (zo_pending st) (zo_reaped st) (<[call := (self, zo_head st, [], 0)]> (zo_reapers st)) (zo_joined st).

(** ... a node is kept, or joined and freed; ... *)
Definition reap_turn (st : zombie_state) (call : positive) : option zombie_state :=
  '(self, nodes, keep, joined) ← zo_reapers st !! call;
  node ← head nodes;
  thread ← zo_nodes st !! node;
  if thread =? self then Some (mk_zombies (zo_nodes st) (zo_head st) (zo_pending st) (zo_reaped st) (<[call := (self, tail nodes, node :: keep, joined)]> (zo_reapers st)) (zo_joined st))
  else Some (mk_zombies (delete node (zo_nodes st)) (zo_head st) (zo_pending st) (zo_reaped st) (<[call := (self, tail nodes, keep, u32 (joined + 1))]> (zo_reapers st)) (thread :: zo_joined st)).

(** ... and those that were kept go back. *)
Definition reap_end (st : zombie_state) (call : positive) : option (Z * zombie_state) :=
  '(self, nodes, keep, joined) ← zo_reapers st !! call;
  if negb (bool_decide (nodes = [])) then None else
  Some (joined, mk_zombies (zo_nodes st) (reverse keep ++ zo_head st) (u32 (zo_pending st - joined)) (u64 (zo_reaped st + joined)) (delete call (zo_reapers st)) (zo_joined st)).

(** ** Rights *)

Lemma lor_absorbs a b : Z.lor a (Z.land a b) = a.
Proof. apply Z.bits_inj'. intros n _. rewrite Z.lor_spec, Z.land_spec. by destruct (Z.testbit a n). Qed.

Lemma land_part r g t : Z.land r g = 0 -> Z.land g t = t -> Z.land r t = 0.
Proof. intros H E. rewrite <- E, Z.land_assoc, H. apply Z.land_0_l. Qed.

Lemma imply_id test rights r : Z.land r test = 0 -> imply test rights r = r.
Proof. intros H. unfold imply. by rewrite H. Qed.

(** What the last two tests add. *)
Definition implied (r : Z) : Z := Z.lor (if nonzero (Z.land r 0x40) then 0x800 else 0) (if nonzero (Z.land r 0x20) then 0x400 else 0).

Lemma imply_rights r : imply 0x20 0x400 (imply 0x40 0x800 r) = Z.lor r (implied r).
Proof.
  unfold implied. assert (H : Z.land (imply 0x40 0x800 r) 0x20 = Z.land r 0x20).
  { unfold imply. destruct (nonzero _); [|done]. rewrite Z.land_lor_distr_l. change (Z.land 0x800 0x20) with 0. by rewrite Z.lor_0_r. }
  unfold imply at 1. rewrite H. unfold imply. destruct (nonzero (Z.land r 0x40)), (nonzero (Z.land r 0x20)); rewrite ?Z.lor_0_r, ?Z.lor_0_l, ?Z.lor_assoc; done.
Qed.

Lemma implied_cases r : implied r ∈ [0; 0x400; 0x800; 0xc00].
Proof. unfold implied. destruct (nonzero _), (nonzero _); vm_compute; set_solver. Qed.

Lemma implied_lor r c : c ∈ [0; 0x400; 0x800; 0xc00] -> implied (Z.lor r c) = implied r.
Proof.
  intros Hc. unfold implied. rewrite !Z.land_lor_distr_l. assert (H : Z.land c 0x40 = 0 /\ Z.land c 0x20 = 0) by (repeat (apply elem_of_cons in Hc as [-> |Hc]; [done|]); by apply not_elem_of_nil in Hc).
  destruct H as [-> ->]. by rewrite !Z.lor_0_r.
Qed.

(** The rights of a thread handle are what the request asked for and what
    that implies: no generic right is left, the specific rights asked for are
    there, asking for what was given gives the same, and a generic right gives
    its whole set. *)
Theorem thread_access_closed access :
  let r := horizon_thread_map_access access in
  Z.land r 0xf2000000 = 0 /\ horizon_thread_map_access r = r /\
  Z.land access 0x0dffffff = Z.land (Z.land access 0x0dffffff) r /\
  (nonzero (Z.land access 0x12000000) = true -> Z.land r HORIZON_THREAD_ALL_ACCESS = HORIZON_THREAD_ALL_ACCESS).
Proof.
  unfold horizon_thread_map_access. cbv zeta. change (Z.lxor UINT_MAX 0xf2000000) with 0x0dffffff. set (x := imply 0x12000000 _ _).
  rewrite !imply_rights. set (y := Z.land x 0x0dffffff). set (r := Z.lor y (implied y)). pose proof (implied_cases y) as Hc.
  assert (Hg : Z.land r 0xf2000000 = 0).
  { subst r. rewrite Z.land_lor_distr_l. subst y. rewrite <- Z.land_assoc. change (Z.land 0x0dffffff 0xf2000000) with 0. rewrite Z.land_0_r, Z.lor_0_l.
    repeat (apply elem_of_cons in Hc as [-> |Hc]; [done|]). by apply not_elem_of_nil in Hc. }
  assert (Hm : Z.land r 0x0dffffff = r).
  { subst r. rewrite Z.land_lor_distr_l. f_equal; [subst y; rewrite <- Z.land_assoc; done|]. repeat (apply elem_of_cons in Hc as [-> |Hc]; [done|]). by apply not_elem_of_nil in Hc. }
  split; [done|]. split; [|split].
  - rewrite !(imply_id 0x80000000), !(imply_id 0x40000000), !(imply_id 0x20000000), !(imply_id 0x12000000) by (eapply land_part; [exact Hg|done]).
    rewrite Hm. subst r. rewrite implied_lor by done. by rewrite <- Z.lor_assoc, Z.lor_diag.
  - assert (Hx : Z.land access x = access).
    { assert (Hi : forall t s a, Z.land access a = access -> Z.land access (imply t s a) = access).
      { intros t s a E. unfold imply. destruct (nonzero _); [|done]. rewrite Z.land_lor_distr_r, E. apply lor_absorbs. }
      subst x. apply Hi, Hi, Hi, Hi. apply Z.land_diag. }
    subst r. rewrite Z.land_lor_distr_r. subst y. replace (Z.land (Z.land access 0x0dffffff) (Z.land x 0x0dffffff)) with (Z.land access 0x0dffffff); [by rewrite lor_absorbs|].
    rewrite (Z.land_comm x), Z.land_assoc, <- (Z.land_assoc access), Z.land_diag. rewrite <- Z.land_assoc, (Z.land_comm _ x), Z.land_assoc, Hx. done.
  - intros Ht. assert (Hall : Z.land x HORIZON_THREAD_ALL_ACCESS = HORIZON_THREAD_ALL_ACCESS).
    { subst x. match goal with |- context [imply 0x12000000 _ ?a] => set (w := a) end. assert (Hw : nonzero (Z.land w 0x12000000) = true).
      { assert (Hi : forall t s a, Z.land s 0x12000000 = 0 -> Z.land (imply t s a) 0x12000000 = Z.land a 0x12000000).
        { intros t s a E. unfold imply. destruct (nonzero (Z.land a t)); [|done]. by rewrite Z.land_lor_distr_l, E, Z.lor_0_r. }
        subst w. by rewrite !Hi. }
      unfold imply. rewrite Hw. cbv iota. rewrite Z.land_lor_distr_l, Z.land_diag. rewrite Z.lor_comm, (Z.land_comm w). apply lor_absorbs. }
    subst r y. rewrite Z.land_lor_distr_l, <- Z.land_assoc, (Z.land_comm 0x0dffffff), Z.land_assoc, Hall. change (Z.land HORIZON_THREAD_ALL_ACCESS 0x0dffffff) with HORIZON_THREAD_ALL_ACCESS.
    rewrite (Z.land_comm (implied _)). apply lor_absorbs.
Qed.

(** ** The life of a thread *)

Inductive thread_op :=
  | T_exit_code (code : Z)
  | T_end (now : Z)
  | T_suspend
  | T_resume.

(** Whether the operation ended the thread, and the thread. *)
Definition thread_do (t : horizon_thread_state) (op : thread_op) : bool * horizon_thread_state :=
  match op with
  | T_exit_code code => (false, horizon_thread_set_exit_code t code)
  | T_end now => horizon_thread_mark_terminated t now
  | T_suspend => (false, snd (horizon_thread_suspend t))
  | T_resume => (false, snd (horizon_thread_resume t))
  end.

(** The number of operations that ended it, and the thread. *)
Fixpoint thread_run (ops : list thread_op) (t : horizon_thread_state) : nat * horizon_thread_state :=
  match ops with
  | [] => (0%nat, t)
  | op :: ops =>
      let '(ended, t) := thread_do t op in
      let '(n, t) := thread_run ops t in
      ((if ended then 1 else 0) + n, t)%nat
  end.

Lemma thread_do_ok t op :
  0 <= ts_suspend t <= HORIZON_THREAD_MAX_SUSPEND -> (ts_terminated t = true -> ts_suspend t = 0) ->
  let t' := snd (thread_do t op) in
  0 <= ts_suspend t' <= HORIZON_THREAD_MAX_SUSPEND /\ (ts_terminated t' = true -> ts_suspend t' = 0) /\
  (ts_terminated t = true -> ts_terminated t' = true /\ ts_exit_code t' = ts_exit_code t /\ ts_exit_time t' = ts_exit_time t) /\
  fst (thread_do t op) = negb (ts_terminated t) && ts_terminated t' /\ ts_tid t' = ts_tid t.
Proof.
  intros Hs Ht. destruct op; simpl.
  - unfold horizon_thread_set_exit_code. destruct (ts_terminated t) eqn:E; simpl; rewrite ?E; done.
  - unfold horizon_thread_mark_terminated. destruct (ts_terminated t) eqn:E; simpl; rewrite ?E; done.
  - unfold horizon_thread_suspend. destruct (ts_terminated t) eqn:E; simpl; rewrite ?E; [done|]. destruct (_ <=? _) eqn:El; btrue; simpl; rewrite E; [done|]. split_and!; try done; lia.
  - unfold horizon_thread_resume. destruct (nonzero (ts_suspend t)) eqn:En; btrue; simpl; [|by destruct (ts_terminated t)].
    destruct (ts_terminated t) eqn:E; simpl; [by rewrite Ht in En|]. split_and!; try done; unfold HORIZON_THREAD_MAX_SUSPEND in *; lia.
Qed.

Lemma thread_run_ok ops t :
  0 <= ts_suspend t <= HORIZON_THREAD_MAX_SUSPEND -> (ts_terminated t = true -> ts_suspend t = 0) ->
  let t' := snd (thread_run ops t) in
  0 <= ts_suspend t' <= HORIZON_THREAD_MAX_SUSPEND /\ (ts_terminated t' = true -> ts_suspend t' = 0) /\
  (ts_terminated t = true -> ts_terminated t' = true /\ ts_exit_code t' = ts_exit_code t /\ ts_exit_time t' = ts_exit_time t) /\
  fst (thread_run ops t) = (if negb (ts_terminated t) && ts_terminated t' then 1 else 0)%nat /\ ts_tid t' = ts_tid t.
Proof.
  revert t. induction ops as [|op ops IH]; intros t Hs Ht; simpl; [by destruct (ts_terminated t)|].
  pose proof (thread_do_ok t op Hs Ht) as (A1 & A2 & A3 & A4 & A5). destruct (thread_do t op) as [e t1]. simpl in A1, A2, A3, A4, A5.
  pose proof (IH t1 A1 A2) as (B1 & B2 & B3 & B4 & B5). destruct (thread_run ops t1) as [n t2]. simpl in *. split; [done|]. split; [done|]. split; [|split; [|congruence]].
  - intros E. destruct (A3 E) as (E1 & C1 & X1). destruct (B3 E1) as (E2 & C2 & X2). split_and!; congruence.
  - subst e n. destruct (ts_terminated t) eqn:E; simpl.
    + destruct (A3 eq_refl) as (-> & _). done.
    + destruct (ts_terminated t1) eqn:E1; simpl; [|done]. destruct (B3 eq_refl) as (-> & _). done.
Qed.

(** C38: A thread through any exit codes, suspends, resumes and ends: its count
    of suspends stays between 0 and 127; exactly one of the ends counts, the
    first; from then on it is not suspended, may pass the start gate, and keeps
    the exit code it had, which is what a query returns, STILL_ACTIVE before. *)
Theorem thread_life tid pid affinity now ops more :
  let '(ends, t) := thread_run ops (horizon_thread_init tid pid affinity now) in
  let '(_, t') := thread_run more t in
  0 <= ts_suspend t <= 127 /\ ends = (if ts_terminated t then 1 else 0)%nat /\
  (ts_terminated t = false -> horizon_thread_exit_status t = HORIZON_THREAD_STILL_ACTIVE) /\
  (ts_terminated t = true -> horizon_thread_may_start t' = true /\ ts_suspend t' = 0 /\ horizon_thread_exit_status t' = ts_exit_code t /\ ts_exit_time t' = ts_exit_time t).
Proof.
  pose proof (thread_run_ok ops (horizon_thread_init tid pid affinity now)) as (A1 & A2 & _ & A4 & _); [done..|].
  destruct (thread_run ops _) as [ends t]. simpl in A1, A2, A4. pose proof (thread_run_ok more t A1 A2) as (B1 & B2 & B3 & _). destruct (thread_run more t) as [n t'].
  simpl in B1, B2, B3. split; [exact A1|]. split; [exact A4|]. split.
  - intros E. unfold horizon_thread_exit_status. by rewrite E.
  - intros E. destruct (B3 E) as (E' & C & X). unfold horizon_thread_may_start, horizon_thread_exit_status. rewrite E', orb_true_r. auto.
Qed.

(** ** What a mutex is *)

Inductive mutex_spec :=
  | M_free (abandoned : bool)
  | M_held (tid : Z) (depth : nat).

Inductive mutex_op := M_acquire | M_release | M_abandon.

(** What a thread is told: the abandoned flag, the status, whether it held the
    mutex. [None]: the mutex is not signaled for the thread, so it waits. *)
Inductive mutex_answer := A_waits | A_acquired (abandoned : bool) | A_released (status previous : Z) | A_abandoned (held : bool).

Definition spec_do (m : mutex_spec) (tid : Z) (op : mutex_op) : mutex_answer * mutex_spec :=
  match op, m with
  | M_acquire, M_free abandoned => (A_acquired abandoned, M_held tid 1)
  | M_acquire, M_held t n => if decide (t = tid) then (A_acquired false, M_held tid (S n)) else (A_waits, m)
  | M_release, M_held t n =>
      if decide (t = tid) then (A_released 0 (Z.of_nat n), if decide (n = 1%nat) then M_free false else M_held t (pred n))
      else (A_released HORIZON_THREADS_STATUS_MUTANT_NOT_OWNED (Z.of_nat n), m)
  | M_release, M_free _ => (A_released HORIZON_THREADS_STATUS_MUTANT_NOT_OWNED 0, m)
  | M_abandon, M_held t n => if decide (t = tid) then (A_abandoned true, M_free true) else (A_abandoned false, m)
  | M_abandon, M_free _ => (A_abandoned false, m)
  end.

(** The server's use: a mutex is taken when it is signaled. *)
Definition mutex_do (m : horizon_mutex_state) (tid : Z) (op : mutex_op) : mutex_answer * horizon_mutex_state :=
  match op with
  | M_acquire => if horizon_mutex_signaled m tid then let '(a, m) := horizon_mutex_acquire m tid in (A_acquired a, m) else (A_waits, m)
  | M_release => let '(status, previous, m) := horizon_mutex_release m tid in (A_released status previous, m)
  | M_abandon => let '(held, m) := horizon_mutex_abandon m tid in (A_abandoned held, m)
  end.

Fixpoint spec_run (m : mutex_spec) (ops : list (Z * mutex_op)) : list mutex_answer :=
  match ops with
  | [] => []
  | (tid, op) :: ops => let '(a, m) := spec_do m tid op in a :: spec_run m ops
  end.

Fixpoint mutex_run (m : horizon_mutex_state) (ops : list (Z * mutex_op)) : list mutex_answer :=
  match ops with
  | [] => []
  | (tid, op) :: ops => let '(a, m) := mutex_do m tid op in a :: mutex_run m ops
  end.

(** The implementation [m] of [s]; a mutex that is held was not abandoned. *)
Definition mutex_is (m : horizon_mutex_state) (s : mutex_spec) : Prop :=
  match s with
  | M_free abandoned => m = mk_mutex 0 0 abandoned
  | M_held tid n => m = mk_mutex tid (Z.of_nat n) false /\ (0 < n)%nat
  end.

Lemma mutex_do_is m s tid op n :
  mutex_is m s -> (forall t d, s = M_held t d -> (d <= n)%nat) -> Z.of_nat n + 1 < 4294967296 ->
  fst (mutex_do m tid op) = fst (spec_do s tid op) /\ mutex_is (snd (mutex_do m tid op)) (snd (spec_do s tid op)) /\
  (forall t d, snd (spec_do s tid op) = M_held t d -> (d <= S n)%nat).
Proof.
  intros H Hn Hb. destruct op, s as [ab|t d]; simpl in H |- *.
  - subst m. split; [done|]. split; [split; [done|lia]|]. intros t d [= <- <-]. lia.
  - destruct H as [-> Hd]. specialize (Hn t d eq_refl). unfold horizon_mutex_signaled, horizon_mutex_acquire. simpl. assert (E : nonzero (Z.of_nat d) = true) by (unfold nonzero; lia). rewrite E. simpl.
    destruct (decide (t = tid)) as [-> |Hne].
    + rewrite Z.eqb_refl. simpl. split; [done|]. split; [|intros ? ? [= _ <-]; lia]. split; [|lia]. f_equal. rewrite u32_small; [lia|]. unfold is_u32. lia.
    + assert (E2 : (t =? tid) = false) by lia. rewrite E2. simpl. split; [done|]. split; [done|]. intros ? ? [= _ <-]. lia.
  - subst m. done.
  - destruct H as [-> Hd]. specialize (Hn t d eq_refl). unfold horizon_mutex_release. simpl. assert (E : nonzero (Z.of_nat d) = true) by (unfold nonzero; lia). rewrite E. simpl.
    destruct (decide (t = tid)) as [-> |Hne].
    + rewrite Z.eqb_refl. simpl. destruct (decide (d = 1%nat)) as [-> |Hd1]; simpl; [done|]. assert (E2 : nonzero (Z.of_nat d - 1) = true) by (unfold nonzero; lia). rewrite E2.
      split; [done|]. split; [|intros ? ? [= _ <-]; lia]. split; [f_equal; lia|lia].
    + assert (E2 : (t =? tid) = false) by lia. rewrite E2. simpl. split; [done|]. split; [done|]. intros ? ? [= _ <-]. lia.
  - subst m. done.
  - destruct H as [-> Hd]. specialize (Hn t d eq_refl). unfold horizon_mutex_abandon. simpl. assert (E : nonzero (Z.of_nat d) = true) by (unfold nonzero; lia). rewrite E. simpl.
    destruct (decide (t = tid)) as [-> |Hne]; [by rewrite Z.eqb_refl|]. assert (E2 : (t =? tid) = false) by lia. rewrite E2. simpl. split; [done|]. split; [done|]. intros ? ? [= _ <-]. lia.
Qed.


(** ** Keyed events meet in pairs *)

Definition is_side (release : bool) (object key : Z) (w : horizon_keyed_waiter) : bool :=
  Bool.eqb (ky_release w) release && (ky_object w =? object) && (ky_key w =? key).

(** The calls of a side that met a peer: those that returned 0 and those that
    were told. *)
Definition met (st : keyed_state) (release : bool) (object key : Z) : nat :=
  (countb (fun '(w, r) => is_side release object key w && (r =? 0)%Z) (ke_returned st) +
   count_map (fun f => is_side release object key (kf_self f) && kf_done f) (ke_frames st))%nat.

Record keyed_inv (st : keyed_state) : Prop := {
  ki_nodup : NoDup (ke_queue st);
  ki_queued : forall id, id ∈ ke_queue st <-> exists f, ke_frames st !! id = Some f /\ kf_done f = false;
  ki_apart : forall a b fa fb, a ∈ ke_queue st -> b ∈ ke_queue st -> ke_frames st !! a = Some fa -> ke_frames st !! b = Some fb -> keyed_meets (kf_self fa) (kf_self fb) = false;
  ki_met : forall object key, met st false object key = met st true object key;
  ki_returns : Forall (fun '(_, r) => r = 0 \/ r = 1) (ke_returned st);
}.

Lemma keyed_match_spec frames queue self :
  (forall id, id ∈ queue -> is_Some (frames !! id)) ->
  (horizon_keyed_match_locked frames queue self = Some (None, queue) /\ forall id f, id ∈ queue -> frames !! id = Some f -> keyed_meets self (kf_self f) = false) \/
  (exists q1 q2 peer f, queue = q1 ++ peer :: q2 /\ frames !! peer = Some f /\ keyed_meets self (kf_self f) = true /\
    (forall id f, id ∈ q1 -> frames !! id = Some f -> keyed_meets self (kf_self f) = false) /\
    horizon_keyed_match_locked frames queue self = Some (Some peer, q1 ++ q2)).
Proof.
  induction queue as [|q queue IH]; intros Hq; [left; split; [done|]; intros id f Hi; by apply not_elem_of_nil in Hi|].
  destruct (Hq q) as [f Hf]; [by left|]. cbn [horizon_keyed_match_locked]. rewrite Hf. cbn [mbind option_bind]. destruct (keyed_meets self (kf_self f)) eqn:Em; cbn [negb]; cbv iota.
  { right. exists [], queue, q, f. split_and!; try done. intros id f' Hi. by apply not_elem_of_nil in Hi. }
  destruct IH as [[-> H]|(q1 & q2 & peer & fp & -> & Hp & Hm & Hn & ->)]; [intros id Hi; apply Hq; by right| |]; cbn [mbind option_bind].
  - left. split; [done|]. intros id f' [-> |Hi]%elem_of_cons Hf'; [congruence|by eapply H].
  - right. exists (q :: q1), q2, peer, fp. split_and!; try done. intros id f' [-> |Hi]%elem_of_cons Hf'; [congruence|by eapply Hn].
Qed.

Lemma keyed_cancel_spec queue self :
  (self ∉ queue /\ horizon_keyed_cancel_locked queue self = (false, queue)) \/
  (exists q1 q2, queue = q1 ++ self :: q2 /\ horizon_keyed_cancel_locked queue self = (true, q1 ++ q2)).
Proof.
  induction queue as [|q queue IH]; [left; split; [apply not_elem_of_nil|done]|]. cbn [horizon_keyed_cancel_locked]. case_bool_decide as E; cbn [negb]; cbv iota.
  - subst q. right. by exists [], queue.
  - destruct IH as [[Hn ->]|(q1 & q2 & -> & ->)]; [left; split; [|done]; by apply not_elem_of_cons|right]. by exists (q :: q1), q2.
Qed.

Lemma meets_sides self peer : keyed_meets self peer = true -> ky_release peer = negb (ky_release self) /\ ky_object peer = ky_object self /\ ky_key peer = ky_key self.
Proof.
  unfold keyed_meets. intros H. apply negb_true_iff in H. apply orb_false_iff in H as [H Hk]. apply orb_false_iff in H as [Hr Ho]. btrue. split_and!; [|lia|lia].
  destruct (ky_release peer), (ky_release self); done.
Qed.

Lemma meets_sym a b : keyed_meets a b = keyed_meets b a.
Proof. unfold keyed_meets. rewrite (Z.eqb_sym (ky_object b)), (Z.eqb_sym (ky_key b)). by destruct (ky_release a), (ky_release b). Qed.

Lemma meets_self a : keyed_meets a a = false.
Proof. unfold keyed_meets. by rewrite Bool.eqb_reflx. Qed.

(** [side] of a caller or its peer. *)
Lemma side_sum self peer release object key : keyed_meets self peer = true ->
  ((if is_side release object key self then 1 else 0) + (if is_side release object key peer then 1 else 0) =
   (if is_side (negb release) object key self then 1 else 0) + (if is_side (negb release) object key peer then 1 else 0))%nat.
Proof.
  intros (Hr & Ho & Hk)%meets_sides. unfold is_side. rewrite Hr, Ho, Hk. destruct (ky_release self), release, (ky_object self =? object), (ky_key self =? key); done.
Qed.

Lemma keyed_enter_ok st id self timeout now :
  keyed_inv st -> ke_frames st !! id = None -> exists r st', rendezvous_enter st id self timeout now = Some (r, st') /\ keyed_inv st'.
Proof.
  intros [I1 I2 I3 I4 I5] Hid. unfold rendezvous_enter. assert (Hidq : id ∉ ke_queue st) by (intros Hi; apply I2 in Hi as (f & Hf & _); congruence).
  destruct (keyed_match_spec (ke_frames st) (ke_queue st) self) as [[-> Hno]|(q1 & q2 & peer & f & Eq & Hf & Hm & _ & ->)]; [intros q Hq; apply I2 in Hq as (f & Hf & _); by exists f| |]; cbn [mbind option_bind].
  - destruct (timeout =? 0).
    + eexists _, _. split; [done|]. split; try done; simpl; [|by constructor; [right|]].
      intros object key. specialize (I4 object key). unfold met in *. simpl. rewrite !countb_cons. change (1 =? 0) with false. rewrite !andb_false_r. done.
    + eexists _, _. split; [done|]. unfold horizon_keyed_enqueue_locked. split; simpl; [| | | |done].
      * apply NoDup_app. split_and!; [done| |apply NoDup_singleton]. intros q Hq ->%list_elem_of_singleton. done.
      * intros q. rewrite elem_of_app, list_elem_of_singleton. destruct (decide (q = id)) as [-> |Hne].
        -- rewrite lookup_insert_eq. split; [intros _; by eexists|by right].
        -- rewrite lookup_insert_ne by done. rewrite <- I2. split; [intros [?| ?]; done|by left].
      * intros a b fa fb. rewrite !elem_of_app, !list_elem_of_singleton. intros Ha Hb Hfa Hfb.
        destruct (decide (a = id)) as [-> |Hna], (decide (b = id)) as [-> |Hnb]; rewrite ?lookup_insert_eq in Hfa; rewrite ?lookup_insert_eq in Hfb;
          rewrite ?lookup_insert_ne in Hfa by done; rewrite ?lookup_insert_ne in Hfb by done.
        -- injection Hfa as <-. injection Hfb as <-. apply meets_self.
        -- injection Hfa as <-. destruct Hb as [Hb|Hb]; [|done]. simpl. by eapply Hno.
        -- injection Hfb as <-. destruct Ha as [Ha|Ha]; [|done]. simpl. rewrite meets_sym. by eapply Hno.
        -- destruct Ha as [Ha|Ha]; [|done]. destruct Hb as [Hb|Hb]; [|done]. exact (I3 a b fa fb Ha Hb Hfa Hfb).
      * intros object key. specialize (I4 object key). unfold met in *. simpl. rewrite !count_map_new by done. simpl. rewrite !andb_false_r. done.
  - rewrite Hf. cbn [mbind option_bind]. eexists _, _. split; [done|]. rewrite Eq in I1, I2, I3. apply NoDup_app in I1 as (N1 & N12 & N2). apply NoDup_cons in N2 as [Np N2].
    assert (Hp : peer ∈ q1 ++ peer :: q2) by (rewrite elem_of_app; right; by left). apply I2 in Hp as Hpf. destruct Hpf as (f' & Hf' & Hd). assert (f' = f) as -> by congruence.
    assert (Hsub : forall q, q ∈ q1 ++ q2 <-> q ∈ q1 ++ peer :: q2 /\ q <> peer).
    { intros q. rewrite !elem_of_app, elem_of_cons. split; [|intros [[?|[?|?]] ?]; auto; done].
      intros [Hq|Hq]; [split; [by left|intros ->; eapply N12; [exact Hq|by left]]|split; [by right; right|by intros ->]]. }
    split; simpl.
    + apply NoDup_app. split_and!; [done| |done]. intros q Hq Hq2. eapply N12; [exact Hq|by right].
    + intros q. rewrite Hsub, I2. destruct (decide (q = peer)) as [-> |Hne]; [rewrite lookup_insert_eq|rewrite lookup_insert_ne by done].
      * split; [intros [_ ?]; done|]. intros (fx & [= <-] & E). done.
      * split; [by intros [? _]|done].
    + intros a b fa fb [Ha Hap]%Hsub [Hb Hbp]%Hsub. rewrite !lookup_insert_ne by done. by apply I3.
    + intros object key. specialize (I4 object key). unfold met in *. simpl. rewrite !countb_cons. change (0 =? 0) with true. rewrite !andb_true_r.
      pose proof (count_map_update (fun f => is_side false object key (kf_self f) && kf_done f) (ke_frames st) peer f (frame_done f) Hf) as U1.
      pose proof (count_map_update (fun f => is_side true object key (kf_self f) && kf_done f) (ke_frames st) peer f (frame_done f) Hf) as U2.
      cbn beta in U1, U2. rewrite Hd, !andb_false_r in U1, U2. simpl in U1, U2. rewrite !andb_true_r in U1, U2. pose proof (side_sum self (kf_self f) false object key Hm) as S. simpl in S. lia.
    + constructor; [by left|done].
Qed.

Lemma keyed_turn_ok st id f now :
  keyed_inv st -> ke_frames st !! id = Some f ->
  exists r st', rendezvous_turn st id now = Some (r, st') /\ keyed_inv st' /\
    (kf_done f = true -> kf_phase f = K_looking -> r = Some 0) /\
    (kf_done f = true -> kf_phase f = K_late -> r = None /\ ke_frames st' !! id = Some (frame_phase f K_looking)) /\
    (kf_done f = false -> r = None \/ r = Some 1 /\ id ∉ ke_queue st').
Proof.
  intros I Hf. pose proof I as [I1 I2 I3 I4 I5]. unfold rendezvous_turn. rewrite Hf. cbn [mbind option_bind].
  assert (Hphase : forall p, keyed_inv (mk_keyed_state (ke_queue st) (<[id := frame_phase f p]> (ke_frames st)) (ke_returned st))).
  { intros p. split; simpl; [done| | | |done].
    - intros q. rewrite I2. destruct (decide (q = id)) as [-> |Hne]; [rewrite lookup_insert_eq, Hf|by rewrite lookup_insert_ne]. split; intros (fx & [= <-] & E); by eexists.
    - intros a b fa fb Ha Hb. assert (HL : forall q fq, <[id := frame_phase f p]> (ke_frames st) !! q = Some fq -> exists fq', ke_frames st !! q = Some fq' /\ kf_self fq' = kf_self fq).
      { intros q fq. destruct (decide (q = id)) as [-> |Hne]; [rewrite lookup_insert_eq; intros [= <-]; by exists f|rewrite lookup_insert_ne by done; by exists fq]. }
      intros (fa' & Hfa & <-)%HL (fb' & Hfb & <-)%HL. exact (I3 a b fa' fb' Ha Hb Hfa Hfb).
    - intros object key. specialize (I4 object key). unfold met in *. simpl.
      pose proof (count_map_update (fun f => is_side false object key (kf_self f) && kf_done f) (ke_frames st) id f (frame_phase f p) Hf) as U1.
      pose proof (count_map_update (fun f => is_side true object key (kf_self f) && kf_done f) (ke_frames st) id f (frame_phase f p) Hf) as U2. simpl in U1, U2. lia. }
  (** A frame that leaves: told, or out of the queue. *)
  assert (Hleave : forall queue r, NoDup queue -> (forall q, q ∈ queue <-> q ∈ ke_queue st /\ q <> id) -> (r = 0 /\ kf_done f = true \/ r = 1 /\ kf_done f = false) ->
    keyed_inv (snd (rendezvous_leave st queue id f r))).
  { intros queue r Hn Hq Hr. split; simpl; [done| | | |].
    - intros q. rewrite Hq, I2. destruct (decide (q = id)) as [-> |Hne]; [rewrite lookup_delete_eq|rewrite lookup_delete_ne by done]; [split; [intros [_ ?]; done|intros (? & [=] & _)]|].
      split; [by intros [? _]|done].
    - intros a b fa fb [Ha Hna]%Hq [Hb Hnb]%Hq. rewrite !lookup_delete_ne by done. intros Hfa Hfb. exact (I3 a b fa fb Ha Hb Hfa Hfb).
    - intros object key. specialize (I4 object key). unfold met in *. simpl. rewrite !countb_cons.
      rewrite !(count_map_delete _ (ke_frames st) id f Hf) in I4. destruct Hr as [[-> Hd]|[-> Hd]]; rewrite Hd in I4; change (0 =? 0) with true; change (1 =? 0) with false; rewrite ?andb_true_r, ?andb_false_r in *; lia.
    - constructor; [destruct Hr as [[-> _]|[-> _]]; auto|done]. }
  destruct (kf_phase f) eqn:Ep.
  - destruct (kf_done f) eqn:Hd.
    + eexists _, _. split; [done|]. split; [|done]. apply Hleave; [done| |by left]. intros q. split; [|by intros [? _]]. intros Hq. split; [done|]. intros ->.
      apply I2 in Hq as (f' & Hf' & E). congruence.
    + eexists _, _. split; [done|]. split; [|split_and!; try done; by left]. destruct (_ && _); [apply Hphase|done].
  - destruct (keyed_cancel_spec (ke_queue st) id) as [[Hn ->]|(q1 & q2 & Eq & ->)]; cbv iota.
    + eexists _, _. split; [done|]. split; [apply Hphase|]. simpl. rewrite lookup_insert_eq. split_and!; try done. by left.
    + assert (Hq : id ∈ ke_queue st) by (rewrite Eq, elem_of_app; right; by left). apply I2 in Hq as Hqf. destruct Hqf as (f' & Hf' & Hd). assert (f' = f) as -> by congruence.
      rewrite Eq in I1. apply NoDup_app in I1 as (N1 & N12 & N2). apply NoDup_cons in N2 as [Np N2].
      assert (Hsub : forall q, q ∈ q1 ++ q2 <-> q ∈ ke_queue st /\ q <> id).
      { intros q. rewrite Eq, !elem_of_app, elem_of_cons. split; [|intros [[?|[?|?]] ?]; [by left|done|by right]].
        intros [Hq'|Hq']; [split; [by left|intros ->; eapply N12; [exact Hq'|by left]]|split; [by right; right|by intros ->]]. }
      eexists _, _. split; [done|]. split; [|simpl; split_and!; [by rewrite Hd|by rewrite Hd|]]; [apply Hleave; [|done|by right]|].
      * apply NoDup_app. split_and!; [done| |done]. intros q Hq1 Hq2. eapply N12; [exact Hq1|by right].
      * intros _. right. split; [done|]. rewrite Hsub. by intros [_ ?].
Qed.

Lemma keyed_reachable_inv st : keyed_reachable st -> keyed_inv st.
Proof.
  intros H. eapply (rtc_keeps keyed_step keyed_inv); [|exact H|].
  - intros x y [s id self timeout now r s' Hid E|s id now r s' [f Hf] E] I.
    + destruct (keyed_enter_ok s id self timeout now I Hid) as (r' & s2 & E' & I'). rewrite E in E'. by injection E' as <- <-.
    + destruct (keyed_turn_ok s id f now I Hf) as (r' & s2 & E' & I' & _). rewrite E in E'. by injection E' as <- <-.
  - split; simpl; [constructor| |by intros a b fa fb Ha; apply not_elem_of_nil in Ha|done|done].
    intros id. rewrite lookup_empty. split; [by intros ?%not_elem_of_nil|]. intros (? & [=] & _).
Qed.

(** C15: Waits and releases of keyed events meet in pairs, under any
    interleaving of any calls with timeouts: no frame that returned is used;
    for every object and key as many waits as releases have met; a call that
    met a peer is not in the queue; and no wait stands in the queue beside a
    release it could meet. *)
Theorem keyed_pairs st :
  keyed_reachable st ->
  (forall object key, met st false object key = met st true object key) /\
  (forall a b fa fb, a ∈ ke_queue st -> b ∈ ke_queue st -> ke_frames st !! a = Some fa -> ke_frames st !! b = Some fb -> keyed_meets (kf_self fa) (kf_self fb) = false) /\
  (forall id f, ke_frames st !! id = Some f -> kf_done f = true <-> id ∉ ke_queue st) /\
  (forall id self timeout now, ke_frames st !! id = None -> is_Some (rendezvous_enter st id self timeout now)) /\
  (forall id now, is_Some (ke_frames st !! id) -> is_Some (rendezvous_turn st id now)).
Proof.
  intros R. pose proof (keyed_reachable_inv st R) as I. split_and!; [apply I|apply I| | |].
  - intros id f Hf. rewrite (ki_queued _ I). destruct (kf_done f) eqn:Hd; split; try done.
    + intros _ (f' & Hf' & Hd'). congruence.
    + intros H. destruct H. by exists f.
  - intros id self timeout now Hid. destruct (keyed_enter_ok st id self timeout now I Hid) as (r & st' & -> & _). by eexists.
  - intros id now [f Hf]. destruct (keyed_turn_ok st id f now I Hf) as (r & st' & -> & _). by eexists.
Qed.

(** C16: No pairing is lost to a timeout: a call that was told by its peer
    returns 0 at its next turn, or, when it was already taking the lock to
    leave the queue, at the one after that; a call that was not told goes on or
    returns 1 and is out of the queue, so nobody tells it later. *)
Theorem keyed_told_returns st id f now1 now2 :
  keyed_reachable st -> ke_frames st !! id = Some f ->
  exists r st1, rendezvous_turn st id now1 = Some (r, st1) /\
    (kf_done f = true -> r = Some 0 \/ r = None /\ exists st2, rendezvous_turn st1 id now2 = Some (Some 0, st2)) /\
    (kf_done f = false -> r = None \/ r = Some 1 /\ id ∉ ke_queue st1).
Proof.
  intros R Hf. destruct (keyed_turn_ok st id f now1 (keyed_reachable_inv st R) Hf) as (r & st1 & E & I1 & H1 & H2 & H3). exists r, st1. split; [done|]. split; [|done].
  intros Hd. destruct (kf_phase f) eqn:Ep; [left; by apply H1|right]. destruct (H2 Hd eq_refl) as [-> Hf1]. split; [done|].
  destruct (keyed_turn_ok st1 id _ now2 I1 Hf1) as (r2 & st2 & E2 & _ & K1 & _). exists st2. rewrite E2. by rewrite (K1 Hd eq_refl).
Qed.

(** ** Threads are joined once *)

Inductive zombie_step : zombie_state -> zombie_state -> Prop :=
  (** Queueing itself is the last thing a thread does. *)
  | Zombie_push st node self : zo_nodes st !! node = None -> self ∉ zo_joined st -> (forall n, zo_nodes st !! n <> Some self) -> zombie_step st (horizon_zombie_push st node self)
  | Zombie_take st call self : zo_reapers st !! call = None -> Z.of_nat (length (zo_head st)) < 4294967296 -> zombie_step st (reap_take st call self)
  | Zombie_turn st call st' : reap_turn st call = Some st' -> zombie_step st st'
  | Zombie_end st call n st' : reap_end st call = Some (n, st') -> zombie_step st st'.

Definition zombie_start : zombie_state := mk_zombies ∅ [] 0 0 ∅ [].
Definition zombie_reachable (st : zombie_state) : Prop := rtc zombie_step zombie_start st.

Definition in_hand (r : Z * list positive * list positive * Z) : list positive := let '(_, nodes, keep, _) := r in nodes ++ keep.
Definition joined_by (r : Z * list positive * list positive * Z) : Z := snd r.

(** Where the nodes are. *)
Definition zombie_places (st : zombie_state) : list positive := zo_head st ++ bind_map in_hand (zo_reapers st).

Record zombie_inv (st : zombie_state) : Prop := {
  zi_nodup : NoDup (zombie_places st);
  zi_nodes : forall n, n ∈ zombie_places st <-> is_Some (zo_nodes st !! n);
  zi_pending : zo_pending st = u32 (Z.of_nat (length (zombie_places st)) + sum_map joined_by (zo_reapers st));
  zi_reaped : u64 (zo_reaped st + sum_map joined_by (zo_reapers st)) = u64 (Z.of_nat (length (zo_joined st)));
  zi_fits : forall call r, zo_reapers st !! call = Some r -> 0 <= joined_by r /\ joined_by r + Z.of_nat (length (in_hand r)) < 4294967296;
  zi_once : NoDup (zo_joined st) /\ (forall n t, zo_nodes st !! n = Some t -> t ∉ zo_joined st) /\ (forall n n' t, zo_nodes st !! n = Some t -> zo_nodes st !! n' = Some t -> n = n');
}.

Lemma joined_pair x j : joined_by (x, j) = j.
Proof. done. Qed.

Lemma u32_add a b : u32 (u32 a + b) = u32 (a + b).
Proof. unfold u32. by rewrite Zplus_mod_idemp_l. Qed.

Lemma u64_add a b : u64 (u64 a + b) = u64 (a + b).
Proof. unfold u64. by rewrite Zplus_mod_idemp_l. Qed.

(** The nodes are in the same places, in another order. *)
Lemma zombie_inv_places st places :
  zombie_inv st -> zombie_places st ≡ₚ places -> NoDup places /\ (forall n, n ∈ places <-> is_Some (zo_nodes st !! n)) /\
  zo_pending st = u32 (Z.of_nat (length places) + sum_map joined_by (zo_reapers st)).
Proof. intros [I1 I2 I3 _ _ _] E. split_and!; [by rewrite <- E|intros n; by rewrite <- E|by rewrite <- E]. Qed.

Lemma zombie_push_inv st node self :
  zombie_inv st -> zo_nodes st !! node = None -> self ∉ zo_joined st -> (forall n, zo_nodes st !! n <> Some self) -> zombie_inv (horizon_zombie_push st node self).
Proof.
  intros [I1 I2 I3 I4 I5 (O1 & O2 & O3)] Hn Hj Hs. assert (Hp : zombie_places (horizon_zombie_push st node self) = node :: zombie_places st) by done.
  split; rewrite ?Hp; simpl; [| | |done|done|].
  - apply NoDup_cons. split; [|done]. rewrite I2, Hn. by intros [? ?].
  - intros n. rewrite elem_of_cons, I2. destruct (decide (n = node)) as [-> |Hne]; [rewrite lookup_insert_eq; split; [by eexists|by left]|rewrite lookup_insert_ne by done]. split; [by intros [?|?]|by right].
  - rewrite I3, u32_add. f_equal. lia.
  - split_and!; [done| |].
    + intros n t. destruct (decide (n = node)) as [-> |Hne]; [rewrite lookup_insert_eq; by intros [= <-]|rewrite lookup_insert_ne by done; apply O2].
    + intros n n' t. destruct (decide (n = node)) as [-> |Hne], (decide (n' = node)) as [-> |Hne']; rewrite ?lookup_insert_eq, ?lookup_insert_ne by done; [done| | |apply O3].
      * intros [= ->] H. by destruct (Hs n').
      * intros H [= ->]. by destruct (Hs n).
Qed.

Lemma zombie_take_inv st call self : zombie_inv st -> zo_reapers st !! call = None -> Z.of_nat (length (zo_head st)) < 4294967296 -> zombie_inv (reap_take st call self).
Proof.
  intros I Hc Hl. pose proof I as [_ _ _ I4 I5 I6]. assert (E : zombie_places st ≡ₚ zombie_places (reap_take st call self)).
  { unfold zombie_places. simpl. rewrite bind_map_new by done. simpl. by rewrite app_nil_r. }
  destruct (zombie_inv_places st _ I E) as (J1 & J2 & J3). split; [done|done| | | |done]; simpl; rewrite ?sum_map_new by done; [done|done|].
  intros c r. destruct (decide (c = call)) as [-> |Hne]; [rewrite lookup_insert_eq|rewrite lookup_insert_ne by done; apply I5]. intros [= <-]. unfold joined_by, in_hand. simpl. rewrite app_nil_r. lia.
Qed.

Lemma zombie_turn_inv st call self node nodes keep joined :
  zombie_inv st -> zo_reapers st !! call = Some (self, node :: nodes, keep, joined) ->
  exists thread st', zo_nodes st !! node = Some thread /\ reap_turn st call = Some st' /\ zombie_inv st' /\ zo_joined st' = (if thread =? self then zo_joined st else thread :: zo_joined st).
Proof.
  intros I Hc. pose proof I as [I1 I2 I3 I4 I5 (O1 & O2 & O3)]. destruct (I5 _ _ Hc) as [F1 F2]. unfold joined_by in F1, F2. simpl in F1, F2.
  assert (E : zombie_places st ≡ₚ node :: zo_head st ++ nodes ++ keep ++ bind_map in_hand (delete call (zo_reapers st))).
  { unfold zombie_places. rewrite (bind_map_delete in_hand _ _ _ Hc). simpl. rewrite <- !Permutation_middle. by rewrite <- !(assoc_L (++)). }
  destruct (zombie_inv_places st _ I E) as (J1 & J2 & J3). set (rest := zo_head st ++ nodes ++ keep ++ bind_map in_hand (delete call (zo_reapers st))) in *.
  destruct (proj1 (J2 node)) as [thread Ht]; [by left|]. unfold reap_turn. rewrite Hc. cbn [mbind option_bind head]. rewrite Ht. cbn [mbind option_bind tail].
  apply NoDup_cons in J1 as [Jn J1]. exists thread. destruct (thread =? self) eqn:Es; eexists; (split; [done|]); (split; [done|]); (split; [|done]); btrue.
  - set (st' := mk_zombies _ _ _ _ _ _). assert (E' : zombie_places st ≡ₚ zombie_places st').
    { rewrite E. subst rest. unfold zombie_places. simpl. rewrite (bind_map_update in_hand _ _ _ _ Hc). simpl. rewrite <- !(assoc_L (++)). simpl. by rewrite <- !Permutation_middle. }
    destruct (zombie_inv_places st _ I E') as (K1 & K2 & K3). split; [done|done| | | |done]; subst st'; simpl; rewrite ?(sum_map_update _ _ _ _ _ Hc); rewrite ?joined_pair.
    + etransitivity; [exact K3|]. f_equal. lia.
    + rewrite <- I4. f_equal. lia.
    + intros c r. destruct (decide (c = call)) as [-> |Hne]; [rewrite lookup_insert_eq|rewrite lookup_insert_ne by done; apply I5]. intros [= <-]. unfold joined_by. simpl. rewrite length_app in *. simpl. lia.
  - assert (E' : rest ≡ₚ zombie_places (mk_zombies (delete node (zo_nodes st)) (zo_head st) (zo_pending st) (zo_reaped st) (<[call := (self, nodes, keep, u32 (joined + 1))]> (zo_reapers st)) (thread :: zo_joined st))).
    { subst rest. unfold zombie_places. simpl. rewrite (bind_map_update in_hand _ _ _ _ Hc). simpl. by rewrite <- !(assoc_L (++)). }
    assert (Ej : u32 (joined + 1) = joined + 1) by (apply u32_small; unfold is_u32; lia).
    rewrite Ej in E' |- *. split; rewrite <- ?E'; simpl; rewrite ?(sum_map_update _ _ _ _ _ Hc); rewrite ?joined_pair.
    + done.
    + intros n. rewrite <- E'. destruct (decide (n = node)) as [-> |Hne]; [rewrite lookup_delete_eq; split; [by intros ?|by intros [? ?]]|rewrite lookup_delete_ne by done].
      specialize (J2 n). rewrite elem_of_cons in J2. rewrite <- J2. split; [by right|by intros [?|?]].
    + rewrite J3. f_equal. simpl. lia.
    + replace (zo_reaped st + (sum_map joined_by (zo_reapers st) - joined + (joined + 1))) with (zo_reaped st + sum_map joined_by (zo_reapers st) + 1) by lia.
      rewrite <- u64_add, I4, u64_add. f_equal. lia.
    + intros c r. destruct (decide (c = call)) as [-> |Hne]; [rewrite lookup_insert_eq|rewrite lookup_insert_ne by done; apply I5]. intros [= <-]. unfold joined_by. simpl. lia.
    + split_and!.
      * apply NoDup_cons. split; [by apply (O2 node)|done].
      * intros n t Hn. apply lookup_delete_Some in Hn as [Hne Hn]. apply not_elem_of_cons. split; [|by apply (O2 n)]. intros ->. by apply Hne, (O3 node n thread).
      * intros n n' t Hn Hn'. apply lookup_delete_Some in Hn as [_ Hn]. apply lookup_delete_Some in Hn' as [_ Hn']. by eapply O3.
Qed.

Lemma zombie_end_inv st call self keep joined :
  zombie_inv st -> zo_reapers st !! call = Some (self, [], keep, joined) -> exists st', reap_end st call = Some (joined, st') /\ zombie_inv st'.
Proof.
  intros I Hc. pose proof I as [_ _ _ I4 I5 I6]. unfold reap_end. rewrite Hc. cbn [mbind option_bind]. rewrite bool_decide_eq_true_2 by done. cbn [negb]. cbv iota.
  set (st' := mk_zombies _ _ _ _ _ _). exists st'. split; [done|]. assert (E : zombie_places st ≡ₚ zombie_places st').
  { unfold zombie_places. subst st'. simpl. rewrite (bind_map_delete in_hand _ _ _ Hc), (reverse_Permutation keep). simpl. rewrite !(assoc_L (++)). by rewrite (Permutation_app_comm keep). }
  destruct (zombie_inv_places st _ I E) as (J1 & J2 & J3). rewrite (sum_map_delete _ _ _ _ Hc), joined_pair in J3, I4.
  split; [done|done| | | |done].
  - change (zo_pending st') with (u32 (zo_pending st - joined)). change (zo_reapers st') with (delete call (zo_reapers st)).
    etransitivity; [apply (f_equal (fun x => u32 (x - joined)) J3)|]. unfold Z.sub. rewrite u32_add. f_equal. lia.
  - change (zo_reaped st') with (u64 (zo_reaped st + joined)). change (zo_reapers st') with (delete call (zo_reapers st)). change (zo_joined st') with (zo_joined st).
    rewrite u64_add, <- I4. f_equal. lia.
  - intros c r Hr. change (delete call (zo_reapers st) !! c = Some r) in Hr. apply lookup_delete_Some in Hr as [_ Hr]. by eapply I5.
Qed.

Lemma zombie_reachable_inv st : zombie_reachable st -> zombie_inv st.
Proof.
  intros H. eapply (rtc_keeps zombie_step zombie_inv); [|exact H|].
  - intros x y [s node self Hn Hj Hs|s call self Hc Hl|s call s' E|s call n s' E] I.
    + by apply zombie_push_inv.
    + by apply zombie_take_inv.
    + pose proof E as E0. unfold reap_turn in E0. destruct (zo_reapers s !! call) as [[[[self nodes] keep] joined]|] eqn:Hc; [|done]. cbn [mbind option_bind] in E0.
      destruct nodes as [|node nodes]; [done|]. destruct (zombie_turn_inv s call self node nodes keep joined I Hc) as (t & s2 & _ & E' & I' & _). congruence.
    + pose proof E as E0. unfold reap_end in E0. destruct (zo_reapers s !! call) as [[[[self nodes] keep] joined]|] eqn:Hc; [|done]. cbn [mbind option_bind] in E0.
      destruct nodes as [|node nodes]; [|done]. destruct (zombie_end_inv s call self keep joined I Hc) as (s2 & E' & I'). congruence.
  - split; unfold zombie_places; simpl; rewrite ?bind_map_empty, ?sum_map_empty; [constructor| |done|done|done|].
    + intros n. rewrite lookup_empty. split; [by intros ?%not_elem_of_nil|by intros [? ?]].
    + split_and!; [constructor|done|done].
Qed.

(** C18: Threads nobody joined are joined once: with any pushes and any reapers
    at once, a reaper uses no node that was freed and never joins itself, no
    thread is joined twice or joined while it is still queued, and the counter
    of pending threads is the number of queued threads and of those joined by
    reapers that have not counted them yet. *)
Theorem zombies_joined_once st :
  zombie_reachable st ->
  NoDup (zo_joined st) /\ (forall n t, zo_nodes st !! n = Some t -> t ∉ zo_joined st) /\
  zo_pending st = u32 (Z.of_nat (length (zombie_places st)) + sum_map joined_by (zo_reapers st)) /\
  (forall n, n ∈ zombie_places st <-> is_Some (zo_nodes st !! n)) /\ NoDup (zombie_places st) /\
  (forall call self node nodes keep joined, zo_reapers st !! call = Some (self, node :: nodes, keep, joined) ->
     exists thread st', zo_nodes st !! node = Some thread /\ reap_turn st call = Some st' /\ (thread = self -> zo_joined st' = zo_joined st)) /\
  (forall call self keep joined, zo_reapers st !! call = Some (self, [], keep, joined) -> is_Some (reap_end st call)).
Proof.
  intros R. pose proof (zombie_reachable_inv st R) as I. destruct (zi_once _ I) as (O1 & O2 & _). split; [done|]. split; [done|]. split; [apply I|]. split; [apply I|]. split; [apply I|]. split.
  - intros call self node nodes keep joined Hc. destruct (zombie_turn_inv st call self node nodes keep joined I Hc) as (t & st' & Ht & E & _ & Ej). exists t, st'. split_and!; [done..|].
    intros ->. by rewrite Z.eqb_refl in Ej.
  - intros call self keep joined Hc. destruct (zombie_end_inv st call self keep joined I Hc) as (st' & -> & _). by eexists.
Qed.

(** ** Examples *)


(** A wait with a timeout, told by a release while it is late. *)
Definition keyed_sample (release : bool) : horizon_keyed_waiter := mk_keyed 1 2 release.
Definition keyed_1 : keyed_state := default keyed_start (snd <$> rendezvous_enter keyed_start 1 (keyed_sample false) 10 0).
Definition keyed_2 : keyed_state := default keyed_start (snd <$> rendezvous_turn keyed_1 1 20).
Definition keyed_3 : keyed_state := default keyed_start (snd <$> rendezvous_enter keyed_2 2 (keyed_sample true) 0 0).

Lemma keyed_3_reachable : keyed_reachable keyed_3.
Proof.
  eapply rtc_l; [apply (Keyed_enter keyed_start 1 (keyed_sample false) 10 0 None keyed_1); vm_compute; reflexivity|].
  eapply rtc_l; [apply (Keyed_turn keyed_1 1 20 None keyed_2); [vm_compute; by eexists|vm_compute; reflexivity]|].
  eapply rtc_l; [apply (Keyed_enter keyed_2 2 (keyed_sample true) 0 0 (Some 0) keyed_3); vm_compute; reflexivity|]. apply rtc_refl.
Qed.

Lemma keyed_pairs_witness : met keyed_3 false 1 2 = 1%nat /\ met keyed_3 true 1 2 = 1%nat.
Proof. destruct (keyed_pairs keyed_3 keyed_3_reachable) as [H _]. split; [|rewrite <- H]; vm_compute; reflexivity. Defined.

Lemma keyed_told_returns_witness :
  exists r st1, rendezvous_turn keyed_3 1 30 = Some (r, st1) /\ (r = Some 0 \/ r = None /\ exists st2, rendezvous_turn st1 1 31 = Some (Some 0, st2)).
Proof.
  destruct (keyed_told_returns keyed_3 1 (mk_frame (keyed_sample false) true 10 K_late) 30 31 keyed_3_reachable) as (r & st1 & E & H & _); [vm_compute; reflexivity|].
  exists r, st1. split; [exact E|]. apply H. reflexivity.
Defined.

(** Two queued threads, of which one reaps. *)
Definition zombie_1 : zombie_state := horizon_zombie_push (horizon_zombie_push zombie_start 1 10) 2 20.
Definition zombie_2 : zombie_state := default zombie_start (reap_turn (reap_take zombie_1 1 20) 1).
Definition zombie_3 : zombie_state := default zombie_start (reap_turn zombie_2 1).

Lemma zombie_3_reachable : zombie_reachable zombie_3.
Proof.
  eapply rtc_l; [apply (Zombie_push zombie_start 1 10); [done|by intros ?%not_elem_of_nil|by intros n]|].
  eapply rtc_l; [apply (Zombie_push _ 2 20); [done|by intros ?%not_elem_of_nil|]|].
  { intros n. simpl. rewrite lookup_insert_Some, lookup_empty. intros [[_ ?]|[_ ?]]; done. }
  eapply rtc_l; [apply (Zombie_take zombie_1 1 20); [done|simpl; lia]|].
  eapply rtc_l; [apply (Zombie_turn (reap_take zombie_1 1 20) 1 zombie_2); vm_compute; reflexivity|].
  eapply rtc_l; [apply (Zombie_turn zombie_2 1 zombie_3); vm_compute; reflexivity|]. apply rtc_refl.
Qed.

Lemma zombies_joined_once_witness : NoDup (zo_joined zombie_3) /\ zo_joined zombie_3 = [10] /\ zo_pending zombie_3 = 2.
Proof. destruct (zombies_joined_once zombie_3 zombie_3_reachable) as (H & _). split; [exact H|]. vm_compute. split; reflexivity. Defined.
