(* ===== verification/ServerObjects.v ===== *)
(** * Objects and handles of the server

    [horizon.c]: the objects programs reach through handles, the table of
    handles with its hash, and the references that keep an object. An object or
    an entry of the table is a node of a heap; using one that was freed is a
    fault, the value [None].

    Calls that leave this part of the server (registry, sockets, the file
    system) are recorded in [ws_calls], the newest first, and answered by a
    stream. Not modelled: message queue objects, the contexts of suspended
    threads, and the parts of an object only sockets, pipes and windows use. *)
From S2P Require Import Prelude Chain Completion Threads.
Local Open Scope Z_scope.

Definition HORIZON_STATUS_SUCCESS : Z := 0.
Definition HORIZON_STATUS_ABANDONED_WAIT_0 : Z := 0x80.
Definition HORIZON_STATUS_USER_APC : Z := 0xc0.
Definition HORIZON_STATUS_KERNEL_APC : Z := 0x100.
Definition HORIZON_STATUS_TIMEOUT : Z := 0x102.
Definition HORIZON_STATUS_PENDING : Z := 0x103.
Definition HORIZON_STATUS_OBJECT_NAME_EXISTS : Z := 0x40000000.
Definition HORIZON_STATUS_INVALID_HANDLE : Z := 0xc0000008.
Definition HORIZON_STATUS_INVALID_PARAMETER : Z := 0xc000000d.
Definition HORIZON_STATUS_NO_MEMORY : Z := 0xc0000017.
Definition HORIZON_STATUS_ACCESS_DENIED : Z := 0xc0000022.
Definition HORIZON_STATUS_OBJECT_TYPE_MISMATCH : Z := 0xc0000024.
Definition HORIZON_STATUS_OBJECT_NAME_NOT_FOUND : Z := 0xc0000034.
Definition HORIZON_STATUS_SEMAPHORE_LIMIT_EXCEEDED : Z := 0xc0000047.
Definition HORIZON_STATUS_NOT_SAME_OBJECT : Z := 0xc00001ac.
Definition HORIZON_CURRENT_THREAD_HANDLE : Z := 0xfffffffe.
Definition HORIZON_CURRENT_PROCESS_HANDLE : Z := 0xffffffff.
Definition HORIZON_PROCESS_ALL_ACCESS : Z := 0x1fffff.
Definition HORIZON_PROCESS_QUERY_LIMITED_INFORMATION : Z := 0x1000.
Definition HORIZON_SERVER_HANDLE_HASH_SIZE : Z := 4096.
Definition HORIZON_OBJECT_DIR_NAMED_OBJECTS : Z := 2.

(** ** State *)

Inductive horizon_server_object_type :=
  | OBJECT_RESERVE | OBJECT_REG_KEY | OBJECT_EVENT | OBJECT_KEYED_EVENT | OBJECT_MUTEX | OBJECT_SEMAPHORE | OBJECT_TIMER
  | OBJECT_FILE | OBJECT_MAPPING | OBJECT_PROCESS | OBJECT_THREAD | OBJECT_SOCK | OBJECT_WINSTATION | OBJECT_DESKTOP
  | OBJECT_MSG_QUEUE | OBJECT_DIRECTORY | OBJECT_COMPLETION | OBJECT_COMPLETION_WAIT | OBJECT_NAMED_PIPE | OBJECT_NSI.

#[export] Instance object_type_eq_dec : EqDecision horizon_server_object_type.
Proof. solve_decision. Defined.

(** What an object has of a file: the descriptors are -1 when there is none. *)
Record object_file := mk_object_file {
  fi_fd : Z; fi_peer_fd : Z;
  fi_name : list Z;
  fi_options : Z;
  fi_delete : bool; fi_is_dir : bool;
}.

(** A link of [ob_waiters] is a waiter and the index of its link. *)
Record server_object := mk_object {
  ob_id : Z;
  ob_type : horizon_server_object_type;
  ob_refs : Z;
  ob_waiters : list (positive * nat);
  ob_manual_reset : bool; ob_signaled : bool;
  ob_count : Z; ob_max : Z;
  ob_mutex : horizon_mutex_state;
  ob_thread : horizon_thread_state;
  ob_apcs : list (list Z);
  ob_context_valid : bool;
  ob_rootdir : Z; ob_name : list Z;
  ob_timer_when : Z; ob_timer_period : Z;
  ob_file : object_file;
  ob_directory : Z;
  ob_completion : horizon_completion_queue; ob_completion_closed : bool;
  ob_wait_port : option positive; ob_wait_msg : horizon_completion_msg; ob_wait_has_msg : bool;
  ob_file_completion : option positive; ob_file_completion_key : Z; ob_file_completion_flags : Z;
  ob_has_image : bool; ob_mapping_shared_file : option positive;
  ob_reg_key : option positive;
}.

Definition o_refs (o : server_object) n := mk_object (ob_id o) (ob_type o) n (ob_waiters o) (ob_manual_reset o) (ob_signaled o) (ob_count o) (ob_max o) (ob_mutex o) (ob_thread o) (ob_apcs o) (ob_context_valid o) (ob_rootdir o) (ob_name o) (ob_timer_when o) (ob_timer_period o) (ob_file o) (ob_directory o) (ob_completion o) (ob_completion_closed o) (ob_wait_port o) (ob_wait_msg o) (ob_wait_has_msg o) (ob_file_completion o) (ob_file_completion_key o) (ob_file_completion_flags o) (ob_has_image o) (ob_mapping_shared_file o) (ob_reg_key o).
Definition o_waiters (o : server_object) l := mk_object (ob_id o) (ob_type o) (ob_refs o) l (ob_manual_reset o) (ob_signaled o) (ob_count o) (ob_max o) (ob_mutex o) (ob_thread o) (ob_apcs o) (ob_context_valid o) (ob_rootdir o) (ob_name o) (ob_timer_when o) (ob_timer_period o) (ob_file o) (ob_directory o) (ob_completion o) (ob_completion_closed o) (ob_wait_port o) (ob_wait_msg o) (ob_wait_has_msg o) (ob_file_completion o) (ob_file_completion_key o) (ob_file_completion_flags o) (ob_has_image o) (ob_mapping_shared_file o) (ob_reg_key o).
Definition o_signaled (o : server_object) b := mk_object (ob_id o) (ob_type o) (ob_refs o) (ob_waiters o) (ob_manual_reset o) b (ob_count o) (ob_max o) (ob_mutex o) (ob_thread o) (ob_apcs o) (ob_context_valid o) (ob_rootdir o) (ob_name o) (ob_timer_when o) (ob_timer_period o) (ob_file o) (ob_directory o) (ob_completion o) (ob_completion_closed o) (ob_wait_port o) (ob_wait_msg o) (ob_wait_has_msg o) (ob_file_completion o) (ob_file_completion_key o) (ob_file_completion_flags o) (ob_has_image o) (ob_mapping_shared_file o) (ob_reg_key o).
Definition o_event (o : server_object) manual state := mk_object (ob_id o) (ob_type o) (ob_refs o) (ob_waiters o) manual state (ob_count o) (ob_max o) (ob_mutex o) (ob_thread o) (ob_apcs o) (ob_context_valid o) (ob_rootdir o) (ob_name o) (ob_timer_when o) (ob_timer_period o) (ob_file o) (ob_directory o) (ob_completion o) (ob_completion_closed o) (ob_wait_port o) (ob_wait_msg o) (ob_wait_has_msg o) (ob_file_completion o) (ob_file_completion_key o) (ob_file_completion_flags o) (ob_has_image o) (ob_mapping_shared_file o) (ob_reg_key o).
Definition o_count (o : server_object) n := mk_object (ob_id o) (ob_type o) (ob_refs o) (ob_waiters o) (ob_manual_reset o) (ob_signaled o) n (ob_max o) (ob_mutex o) (ob_thread o) (ob_apcs o) (ob_context_valid o) (ob_rootdir o) (ob_name o) (ob_timer_when o) (ob_timer_period o) (ob_file o) (ob_directory o) (ob_completion o) (ob_completion_closed o) (ob_wait_port o) (ob_wait_msg o) (ob_wait_has_msg o) (ob_file_completion o) (ob_file_completion_key o) (ob_file_completion_flags o) (ob_has_image o) (ob_mapping_shared_file o) (ob_reg_key o).
Definition o_semaphore (o : server_object) n m := mk_object (ob_id o) (ob_type o) (ob_refs o) (ob_waiters o) (ob_manual_reset o) (ob_signaled o) n m (ob_mutex o) (ob_thread o) (ob_apcs o) (ob_context_valid o) (ob_rootdir o) (ob_name o) (ob_timer_when o) (ob_timer_period o) (ob_file o) (ob_directory o) (ob_completion o) (ob_completion_closed o) (ob_wait_port o) (ob_wait_msg o) (ob_wait_has_msg o) (ob_file_completion o) (ob_file_completion_key o) (ob_file_completion_flags o) (ob_has_image o) (ob_mapping_shared_file o) (ob_reg_key o).
Definition o_mutex (o : server_object) m := mk_object (ob_id o) (ob_type o) (ob_refs o) (ob_waiters o) (ob_manual_reset o) (ob_signaled o) (ob_count o) (ob_max o) m (ob_thread o) (ob_apcs o) (ob_context_valid o) (ob_rootdir o) (ob_name o) (ob_timer_when o) (ob_timer_period o) (ob_file o) (ob_directory o) (ob_completion o) (ob_completion_closed o) (ob_wait_port o) (ob_wait_msg o) (ob_wait_has_msg o) (ob_file_completion o) (ob_file_completion_key o) (ob_file_completion_flags o) (ob_has_image o) (ob_mapping_shared_file o) (ob_reg_key o).
Definition o_thread (o : server_object) t := mk_object (ob_id o) (ob_type o) (ob_refs o) (ob_waiters o) (ob_manual_reset o) (ob_signaled o) (ob_count o) (ob_max o) (ob_mutex o) t (ob_apcs o) (ob_context_valid o) (ob_rootdir o) (ob_name o) (ob_timer_when o) (ob_timer_period o) (ob_file o) (ob_directory o) (ob_completion o) (ob_completion_closed o) (ob_wait_port o) (ob_wait_msg o) (ob_wait_has_msg o) (ob_file_completion o) (ob_file_completion_key o) (ob_file_completion_flags o) (ob_has_image o) (ob_mapping_shared_file o) (ob_reg_key o).
Definition o_apcs (o : server_object) l := mk_object (ob_id o) (ob_type o) (ob_refs o) (ob_waiters o) (ob_manual_reset o) (ob_signaled o) (ob_count o) (ob_max o) (ob_mutex o) (ob_thread o) l (ob_context_valid o) (ob_rootdir o) (ob_name o) (ob_timer_when o) (ob_timer_period o) (ob_file o) (ob_directory o) (ob_completion o) (ob_completion_closed o) (ob_wait_port o) (ob_wait_msg o) (ob_wait_has_msg o) (ob_file_completion o) (ob_file_completion_key o) (ob_file_completion_flags o) (ob_has_image o) (ob_mapping_shared_file o) (ob_reg_key o).
Definition o_context_valid (o : server_object) b := mk_object (ob_id o) (ob_type o) (ob_refs o) (ob_waiters o) (ob_manual_reset o) (ob_signaled o) (ob_count o) (ob_max o) (ob_mutex o) (ob_thread o) (ob_apcs o) b (ob_rootdir o) (ob_name o) (ob_timer_when o) (ob_timer_period o) (ob_file o) (ob_directory o) (ob_completion o) (ob_completion_closed o) (ob_wait_port o) (ob_wait_msg o) (ob_wait_has_msg o) (ob_file_completion o) (ob_file_completion_key o) (ob_file_completion_flags o) (ob_has_image o) (ob_mapping_shared_file o) (ob_reg_key o).
Definition o_name (o : server_object) root n := mk_object (ob_id o) (ob_type o) (ob_refs o) (ob_waiters o) (ob_manual_reset o) (ob_signaled o) (ob_count o) (ob_max o) (ob_mutex o) (ob_thread o) (ob_apcs o) (ob_context_valid o) root n (ob_timer_when o) (ob_timer_period o) (ob_file o) (ob_directory o) (ob_completion o) (ob_completion_closed o) (ob_wait_port o) (ob_wait_msg o) (ob_wait_has_msg o) (ob_file_completion o) (ob_file_completion_key o) (ob_file_completion_flags o) (ob_has_image o) (ob_mapping_shared_file o) (ob_reg_key o).
Definition o_timer (o : server_object) b t p := mk_object (ob_id o) (ob_type o) (ob_refs o) (ob_waiters o) (ob_manual_reset o) b (ob_count o) (ob_max o) (ob_mutex o) (ob_thread o) (ob_apcs o) (ob_context_valid o) (ob_rootdir o) (ob_name o) t p (ob_file o) (ob_directory o) (ob_completion o) (ob_completion_closed o) (ob_wait_port o) (ob_wait_msg o) (ob_wait_has_msg o) (ob_file_completion o) (ob_file_completion_key o) (ob_file_completion_flags o) (ob_has_image o) (ob_mapping_shared_file o) (ob_reg_key o).
Definition o_new_timer (o : server_object) manual := mk_object (ob_id o) (ob_type o) (ob_refs o) (ob_waiters o) manual false (ob_count o) (ob_max o) (ob_mutex o) (ob_thread o) (ob_apcs o) (ob_context_valid o) (ob_rootdir o) (ob_name o) 0 0 (ob_file o) (ob_directory o) (ob_completion o) (ob_completion_closed o) (ob_wait_port o) (ob_wait_msg o) (ob_wait_has_msg o) (ob_file_completion o) (ob_file_completion_key o) (ob_file_completion_flags o) (ob_has_image o) (ob_mapping_shared_file o) (ob_reg_key o).
Definition o_completion (o : server_object) q := mk_object (ob_id o) (ob_type o) (ob_refs o) (ob_waiters o) (ob_manual_reset o) (ob_signaled o) (ob_count o) (ob_max o) (ob_mutex o) (ob_thread o) (ob_apcs o) (ob_context_valid o) (ob_rootdir o) (ob_name o) (ob_timer_when o) (ob_timer_period o) (ob_file o) (ob_directory o) q (ob_completion_closed o) (ob_wait_port o) (ob_wait_msg o) (ob_wait_has_msg o) (ob_file_completion o) (ob_file_completion_key o) (ob_file_completion_flags o) (ob_has_image o) (ob_mapping_shared_file o) (ob_reg_key o).
Definition o_closed (o : server_object) b := mk_object (ob_id o) (ob_type o) (ob_refs o) (ob_waiters o) (ob_manual_reset o) (ob_signaled o) (ob_count o) (ob_max o) (ob_mutex o) (ob_thread o) (ob_apcs o) (ob_context_valid o) (ob_rootdir o) (ob_name o) (ob_timer_when o) (ob_timer_period o) (ob_file o) (ob_directory o) (ob_completion o) b (ob_wait_port o) (ob_wait_msg o) (ob_wait_has_msg o) (ob_file_completion o) (ob_file_completion_key o) (ob_file_completion_flags o) (ob_has_image o) (ob_mapping_shared_file o) (ob_reg_key o).
Definition o_wait_port (o : server_object) p := mk_object (ob_id o) (ob_type o) (ob_refs o) (ob_waiters o) (ob_manual_reset o) (ob_signaled o) (ob_count o) (ob_max o) (ob_mutex o) (ob_thread o) (ob_apcs o) (ob_context_valid o) (ob_rootdir o) (ob_name o) (ob_timer_when o) (ob_timer_period o) (ob_file o) (ob_directory o) (ob_completion o) (ob_completion_closed o) p (ob_wait_msg o) (ob_wait_has_msg o) (ob_file_completion o) (ob_file_completion_key o) (ob_file_completion_flags o) (ob_has_image o) (ob_mapping_shared_file o) (ob_reg_key o).
Definition o_wait_msg (o : server_object) m b := mk_object (ob_id o) (ob_type o) (ob_refs o) (ob_waiters o) (ob_manual_reset o) (ob_signaled o) (ob_count o) (ob_max o) (ob_mutex o) (ob_thread o) (ob_apcs o) (ob_context_valid o) (ob_rootdir o) (ob_name o) (ob_timer_when o) (ob_timer_period o) (ob_file o) (ob_directory o) (ob_completion o) (ob_completion_closed o) (ob_wait_port o) m b (ob_file_completion o) (ob_file_completion_key o) (ob_file_completion_flags o) (ob_has_image o) (ob_mapping_shared_file o) (ob_reg_key o).
Definition o_file_completion (o : server_object) p k := mk_object (ob_id o) (ob_type o) (ob_refs o) (ob_waiters o) (ob_manual_reset o) (ob_signaled o) (ob_count o) (ob_max o) (ob_mutex o) (ob_thread o) (ob_apcs o) (ob_context_valid o) (ob_rootdir o) (ob_name o) (ob_timer_when o) (ob_timer_period o) (ob_file o) (ob_directory o) (ob_completion o) (ob_completion_closed o) (ob_wait_port o) (ob_wait_msg o) (ob_wait_has_msg o) p k (ob_file_completion_flags o) (ob_has_image o) (ob_mapping_shared_file o) (ob_reg_key o).
Definition o_completion_flags (o : server_object) f := mk_object (ob_id o) (ob_type o) (ob_refs o) (ob_waiters o) (ob_manual_reset o) (ob_signaled o) (ob_count o) (ob_max o) (ob_mutex o) (ob_thread o) (ob_apcs o) (ob_context_valid o) (ob_rootdir o) (ob_name o) (ob_timer_when o) (ob_timer_period o) (ob_file o) (ob_directory o) (ob_completion o) (ob_completion_closed o) (ob_wait_port o) (ob_wait_msg o) (ob_wait_has_msg o) (ob_file_completion o) (ob_file_completion_key o) f (ob_has_image o) (ob_mapping_shared_file o) (ob_reg_key o).
Definition o_file (o : server_object) f := mk_object (ob_id o) (ob_type o) (ob_refs o) (ob_waiters o) (ob_manual_reset o) (ob_signaled o) (ob_count o) (ob_max o) (ob_mutex o) (ob_thread o) (ob_apcs o) (ob_context_valid o) (ob_rootdir o) (ob_name o) (ob_timer_when o) (ob_timer_period o) f (ob_directory o) (ob_completion o) (ob_completion_closed o) (ob_wait_port o) (ob_wait_msg o) (ob_wait_has_msg o) (ob_file_completion o) (ob_file_completion_key o) (ob_file_completion_flags o) (ob_has_image o) (ob_mapping_shared_file o) (ob_reg_key o).
Definition o_reg_key (o : server_object) k := mk_object (ob_id o) (ob_type o) (ob_refs o) (ob_waiters o) (ob_manual_reset o) (ob_signaled o) (ob_count o) (ob_max o) (ob_mutex o) (ob_thread o) (ob_apcs o) (ob_context_valid o) (ob_rootdir o) (ob_name o) (ob_timer_when o) (ob_timer_period o) (ob_file o) (ob_directory o) (ob_completion o) (ob_completion_closed o) (ob_wait_port o) (ob_wait_msg o) (ob_wait_has_msg o) (ob_file_completion o) (ob_file_completion_key o) (ob_file_completion_flags o) (ob_has_image o) (ob_mapping_shared_file o) k.
Definition o_mapping (o : server_object) f image shared := mk_object (ob_id o) (ob_type o) (ob_refs o) (ob_waiters o) (ob_manual_reset o) (ob_signaled o) (ob_count o) (ob_max o) (ob_mutex o) (ob_thread o) (ob_apcs o) (ob_context_valid o) (ob_rootdir o) (ob_name o) (ob_timer_when o) (ob_timer_period o) f (ob_directory o) (ob_completion o) (ob_completion_closed o) (ob_wait_port o) (ob_wait_msg o) (ob_wait_has_msg o) (ob_file_completion o) (ob_file_completion_key o) (ob_file_completion_flags o) image shared (ob_reg_key o).

(** An object as [calloc] and [horizon_server_create_handle_locked] leave it. *)
Definition new_object (id : Z) (type : horizon_server_object_type) (refs : Z) (thread : horizon_thread_state) : server_object :=
  mk_object id type refs [] false false 0 0 (mk_mutex 0 0 false) thread [] false 0 [] 0 0 (mk_object_file (-1) (-1) [] 0 false false) 0
    completion_queue_new false None (mk_completion_msg 0 0 0 0) false None 0 0 false None None.

Record horizon_server_handle_entry := mk_entry {
  he_handle : Z;
  he_access : Z;
  he_object : positive;
}.

(** A client of the server: a thread with a pipe, or a thread that calls the
    server directly and whose thread-local [horizon_sync_thread] is
    [cn_thread]. *)
Record horizon_server_connection := mk_connection {
  cn_pid : Z; cn_tid : Z;
  cn_direct : bool;
  cn_thread : option positive;
  cn_completion_wait : option positive; cn_completion_wait_handle : Z;
}.

(** What a select asks for, read from its data. *)
Inductive select_op :=
  | Select_none
  | Select_wait (handles : list Z) (all : bool)
  | Select_signal_and_wait (wait : Z) (signal : option Z)
  | Select_keyed_event
  | Select_bad.

(** A select that is not answered yet, of the connection whose key it has:
    [wt_tried] is what the select knows of being queued (-1, 0 or 1),
    [wt_gated] says that it sleeps until its thread is resumed, [wt_links] are
    the objects it waits for with the objects that carry its links. *)
Record horizon_sync_waiter := mk_waiter {
  wt_op : select_op; wt_alertable : bool; wt_timeout : Z; wt_contexts : bool;
  wt_initial : bool; wt_gated : bool;
  wt_tried : Z;
  wt_queued : bool; wt_notified : bool; wt_completed : bool;
  wt_status : Z;
  wt_links : list (positive * positive);
}.

(** A view of an image: process, base and section. *)
Record horizon_image_view := mk_view { iv_pid : Z; iv_base : Z; iv_mapping : positive }.

(** Calls into other parts. *)
Inductive outside_call :=
  | Call_reg_handle_closed (key : positive) (handle : Z)
  | Call_reg_release (key : positive)
  | Call_close (fd : Z)
  | Call_remove (name : list Z) (is_dir : bool)
  | Call_pthread_create.

(** [ws_hash] has the buckets that are not empty; [ws_held] are the references
    other parts keep (the ports of socket operations, the events of registry
    notifications); [ws_ready] are the threads an operation of a socket is ready
    for. *)
Record wine_server := mk_wine_server {
  ws_objects : gmap positive server_object;
  ws_entries : gmap positive horizon_server_handle_entry;
  ws_handles : list positive;
  ws_hash : gmap Z (list positive);
  ws_next_handle : Z;
  ws_timers : list positive;
  ws_threads : list positive;
  ws_running : Z;
  ws_next_tid : Z;
  ws_conns : gmap positive horizon_server_connection;
  ws_frames : gmap positive horizon_sync_waiter;
  ws_waiting : list positive;
  ws_held : list positive;
  ws_views : list horizon_image_view;
  ws_ready : list Z;
  ws_memory : nat -> bool;
  ws_allocs : nat;
  ws_answers : nat -> Z;
  ws_asked : nat;
  ws_calls : list outside_call;
}.

Definition s_objects (st : wine_server) m := mk_wine_server m (ws_entries st) (ws_handles st) (ws_hash st) (ws_next_handle st) (ws_timers st) (ws_threads st) (ws_running st) (ws_next_tid st) (ws_conns st) (ws_frames st) (ws_waiting st) (ws_held st) (ws_views st) (ws_ready st) (ws_memory st) (ws_allocs st) (ws_answers st) (ws_asked st) (ws_calls st).
Definition s_entries (st : wine_server) m := mk_wine_server (ws_objects st) m (ws_handles st) (ws_hash st) (ws_next_handle st) (ws_timers st) (ws_threads st) (ws_running st) (ws_next_tid st) (ws_conns st) (ws_frames st) (ws_waiting st) (ws_held st) (ws_views st) (ws_ready st) (ws_memory st) (ws_allocs st) (ws_answers st) (ws_asked st) (ws_calls st).
Definition s_table (st : wine_server) e l h := mk_wine_server (ws_objects st) e l h (ws_next_handle st) (ws_timers st) (ws_threads st) (ws_running st) (ws_next_tid st) (ws_conns st) (ws_frames st) (ws_waiting st) (ws_held st) (ws_views st) (ws_ready st) (ws_memory st) (ws_allocs st) (ws_answers st) (ws_asked st) (ws_calls st).
Definition s_next_handle (st : wine_server) n := mk_wine_server (ws_objects st) (ws_entries st) (ws_handles st) (ws_hash st) n (ws_timers st) (ws_threads st) (ws_running st) (ws_next_tid st) (ws_conns st) (ws_frames st) (ws_waiting st) (ws_held st) (ws_views st) (ws_ready st) (ws_memory st) (ws_allocs st) (ws_answers st) (ws_asked st) (ws_calls st).
Definition s_timers (st : wine_server) l := mk_wine_server (ws_objects st) (ws_entries st) (ws_handles st) (ws_hash st) (ws_next_handle st) l (ws_threads st) (ws_running st) (ws_next_tid st) (ws_conns st) (ws_frames st) (ws_waiting st) (ws_held st) (ws_views st) (ws_ready st) (ws_memory st) (ws_allocs st) (ws_answers st) (ws_asked st) (ws_calls st).
Definition s_threads (st : wine_server) l := mk_wine_server (ws_objects st) (ws_entries st) (ws_handles st) (ws_hash st) (ws_next_handle st) (ws_timers st) l (ws_running st) (ws_next_tid st) (ws_conns st) (ws_frames st) (ws_waiting st) (ws_held st) (ws_views st) (ws_ready st) (ws_memory st) (ws_allocs st) (ws_answers st) (ws_asked st) (ws_calls st).
Definition s_running (st : wine_server) n := mk_wine_server (ws_objects st) (ws_entries st) (ws_handles st) (ws_hash st) (ws_next_handle st) (ws_timers st) (ws_threads st) n (ws_next_tid st) (ws_conns st) (ws_frames st) (ws_waiting st) (ws_held st) (ws_views st) (ws_ready st) (ws_memory st) (ws_allocs st) (ws_answers st) (ws_asked st) (ws_calls st).
Definition s_next_tid (st : wine_server) n := mk_wine_server (ws_objects st) (ws_entries st) (ws_handles st) (ws_hash st) (ws_next_handle st) (ws_timers st) (ws_threads st) (ws_running st) n (ws_conns st) (ws_frames st) (ws_waiting st) (ws_held st) (ws_views st) (ws_ready st) (ws_memory st) (ws_allocs st) (ws_answers st) (ws_asked st) (ws_calls st).
Definition s_conns (st : wine_server) m := mk_wine_server (ws_objects st) (ws_entries st) (ws_handles st) (ws_hash st) (ws_next_handle st) (ws_timers st) (ws_threads st) (ws_running st) (ws_next_tid st) m (ws_frames st) (ws_waiting st) (ws_held st) (ws_views st) (ws_ready st) (ws_memory st) (ws_allocs st) (ws_answers st) (ws_asked st) (ws_calls st).
Definition s_frames (st : wine_server) m := mk_wine_server (ws_objects st) (ws_entries st) (ws_handles st) (ws_hash st) (ws_next_handle st) (ws_timers st) (ws_threads st) (ws_running st) (ws_next_tid st) (ws_conns st) m (ws_waiting st) (ws_held st) (ws_views st) (ws_ready st) (ws_memory st) (ws_allocs st) (ws_answers st) (ws_asked st) (ws_calls st).
Definition s_waiting (st : wine_server) l := mk_wine_server (ws_objects st) (ws_entries st) (ws_handles st) (ws_hash st) (ws_next_handle st) (ws_timers st) (ws_threads st) (ws_running st) (ws_next_tid st) (ws_conns st) (ws_frames st) l (ws_held st) (ws_views st) (ws_ready st) (ws_memory st) (ws_allocs st) (ws_answers st) (ws_asked st) (ws_calls st).
Definition s_held (st : wine_server) l := mk_wine_server (ws_objects st) (ws_entries st) (ws_handles st) (ws_hash st) (ws_next_handle st) (ws_timers st) (ws_threads st) (ws_running st) (ws_next_tid st) (ws_conns st) (ws_frames st) (ws_waiting st) l (ws_views st) (ws_ready st) (ws_memory st) (ws_allocs st) (ws_answers st) (ws_asked st) (ws_calls st).
Definition s_views (st : wine_server) l := mk_wine_server (ws_objects st) (ws_entries st) (ws_handles st) (ws_hash st) (ws_next_handle st) (ws_timers st) (ws_threads st) (ws_running st) (ws_next_tid st) (ws_conns st) (ws_frames st) (ws_waiting st) (ws_held st) l (ws_ready st) (ws_memory st) (ws_allocs st) (ws_answers st) (ws_asked st) (ws_calls st).
Definition s_ready (st : wine_server) r := mk_wine_server (ws_objects st) (ws_entries st) (ws_handles st) (ws_hash st) (ws_next_handle st) (ws_timers st) (ws_threads st) (ws_running st) (ws_next_tid st) (ws_conns st) (ws_frames st) (ws_waiting st) (ws_held st) (ws_views st) r (ws_memory st) (ws_allocs st) (ws_answers st) (ws_asked st) (ws_calls st).
Definition s_allocs (st : wine_server) n := mk_wine_server (ws_objects st) (ws_entries st) (ws_handles st) (ws_hash st) (ws_next_handle st) (ws_timers st) (ws_threads st) (ws_running st) (ws_next_tid st) (ws_conns st) (ws_frames st) (ws_waiting st) (ws_held st) (ws_views st) (ws_ready st) (ws_memory st) n (ws_answers st) (ws_asked st) (ws_calls st).
Definition s_called (st : wine_server) n l := mk_wine_server (ws_objects st) (ws_entries st) (ws_handles st) (ws_hash st) (ws_next_handle st) (ws_timers st) (ws_threads st) (ws_running st) (ws_next_tid st) (ws_conns st) (ws_frames st) (ws_waiting st) (ws_held st) (ws_views st) (ws_ready st) (ws_memory st) (ws_allocs st) (ws_answers st) n l.

(** ** Memory and calls *)

Definition put_object (st : wine_server) (o : positive) (obj : server_object) : wine_server := s_objects st (<[o := obj]> (ws_objects st)).

(** [calloc] or [malloc]: whether there is memory. *)
Definition ws_alloc (st : wine_server) : bool * wine_server := (ws_memory st (ws_allocs st), s_allocs st (S (ws_allocs st))).

(** A call that leaves this part: its answer. *)
Definition outside (st : wine_server) (c : outside_call) : Z * wine_server :=
  (ws_answers st (ws_asked st), s_called st (S (ws_asked st)) (c :: ws_calls st)).

Fixpoint remove_first (x : positive) (l : list positive) : option (list positive) :=
  match l with
  | [] => None
  | y :: l => if decide (x = y) then Some l else l ← remove_first x l; Some (y :: l)
  end.

(** The list without the first [x]. *)
Fixpoint remove_one (x : Z) (l : list Z) : list Z :=
  match l with
  | [] => []
  | y :: l => if x =? y then l else y :: remove_one x l
  end.

(** ** The table of handles *)

Definition horizon_server_alloc_handle (st : wine_server) : Z * wine_server :=
  let handle := u32 (ws_next_handle st + 4) in (handle, s_next_handle st handle).

Definition horizon_server_handle_bucket (handle : Z) : Z := Z.land (Z.shiftr handle 2) (HORIZON_SERVER_HANDLE_HASH_SIZE - 1).

Definition bucket_of (st : wine_server) (handle : Z) : list positive := default [] (ws_hash st !! horizon_server_handle_bucket handle).

Fixpoint find_in_bucket (entries : gmap positive horizon_server_handle_entry) (l : list positive) (handle : Z) : option (option positive) :=
  match l with
  | [] => Some None
  | e :: l => entry ← entries !! e; if he_handle entry =? handle then Some (Some e) else find_in_bucket entries l handle
  end.

(** The entry of a handle, if it is one. *)
Definition horizon_server_find_handle_locked (st : wine_server) (handle : Z) : option (option positive) :=
  find_in_bucket (ws_entries st) (bucket_of st handle) handle.

(** Entry [e] is in the heap, with its handle. *)
Definition horizon_server_link_handle_locked (st : wine_server) (e : positive) : option wine_server :=
  entry ← ws_entries st !! e;
  Some (s_table st (ws_entries st) (e :: ws_handles st) (<[horizon_server_handle_bucket (he_handle entry) := e :: bucket_of st (he_handle entry)]> (ws_hash st))).

(** An entry that is not linked is a fault. *)
Definition horizon_server_unlink_handle_locked (st : wine_server) (e : positive) : option wine_server :=
  entry ← ws_entries st !! e;
  handles ← remove_first e (ws_handles st);
  bucket ← remove_first e (bucket_of st (he_handle entry));
  Some (s_table st (ws_entries st) handles (<[horizon_server_handle_bucket (he_handle entry) := bucket]> (ws_hash st))).

Definition new_entry (st : wine_server) (entry : horizon_server_handle_entry) : positive * wine_server :=
  let e := fresh (dom (ws_entries st)) in (e, s_entries st (<[e := entry]> (ws_entries st))).

Definition free_entry (st : wine_server) (e : positive) : wine_server := s_entries st (delete e (ws_entries st)).

(** The entry, if there was memory. *)
Definition horizon_server_create_handle_locked (st : wine_server) (type : horizon_server_object_type) : option (option positive * wine_server) :=
  let '(ok1, st) := ws_alloc st in
  let '(ok2, st) := ws_alloc st in
  if negb ok1 || negb ok2 then Some (None, st) else
  let '(handle, st) := horizon_server_alloc_handle st in
  let o := fresh (dom (ws_objects st)) in
  let '(e, st) := new_entry st (mk_entry handle 0 o) in
  st ← horizon_server_link_handle_locked st e;
  Some (Some e, put_object st o (new_object handle type 1 (horizon_thread_init 0 0 0 0))).

Definition horizon_server_create_handle_for_object_locked (st : wine_server) (o : positive) : option (option positive * wine_server) :=
  let '(ok, st) := ws_alloc st in
  if negb ok then Some (None, st) else
  let '(handle, st) := horizon_server_alloc_handle st in
  obj ← ws_objects st !! o;
  let obj := o_refs obj (u32 (ob_refs obj + 1)) in
  let st := put_object st o (if decide (ob_type obj = OBJECT_COMPLETION) then o_closed obj false else obj) in
  let '(e, st) := new_entry st (mk_entry handle 0 o) in
  st ← horizon_server_link_handle_locked st e;
  Some (Some e, st).

(** ** Freeing *)

Definition unlink_from (o : positive) (l : list positive) : list positive := default l (remove_first o l).

Definition horizon_server_unlink_timer_locked (st : wine_server) (timer : positive) : wine_server :=
  s_timers st (unlink_from timer (ws_timers st)).

(** The calls that release what an object has outside. *)
Definition release_outside (st : wine_server) (obj : server_object) : wine_server :=
  let st := match ob_reg_key obj with Some key => snd (outside st (Call_reg_release key)) | None => st end in
  let st := if fi_fd (ob_file obj) =? -1 then st else snd (outside st (Call_close (fi_fd (ob_file obj)))) in
  if fi_peer_fd (ob_file obj) =? -1 then st else snd (outside st (Call_close (fi_peer_fd (ob_file obj)))).

(** [if (object && !--object->refs) horizon_server_free_object( object )] *)
Definition drop_with (free : wine_server -> positive -> option wine_server) (st : wine_server) (o : option positive) : option wine_server :=
  match o with
  | None => Some st
  | Some o =>
      obj ← ws_objects st !! o;
      let refs := u32 (ob_refs obj - 1) in
      let st := put_object st o (o_refs obj refs) in
      if nonzero refs then Some st else free st o
  end.

(** The memory of the object goes here and not at the end: nothing that is
    freed with it reads it. *)
Fixpoint horizon_server_free_object (fuel : nat) (st : wine_server) (o : positive) : option wine_server :=
  match fuel with
  | O => None
  | S fuel =>
      obj ← ws_objects st !! o;
      let st := if decide (ob_type obj = OBJECT_TIMER) then horizon_server_unlink_timer_locked st o else st in
      let st := if decide (ob_type obj = OBJECT_THREAD) then s_threads st (unlink_from o (ws_threads st)) else st in
      _ ← horizon_completion_clear (S (size (cl_heap (cq_list (ob_completion obj))))) (ob_completion obj);
      let st := s_objects st (delete o (ws_objects st)) in
      st ← drop_with (horizon_server_free_object fuel) st (ob_wait_port obj);
      st ← drop_with (horizon_server_free_object fuel) st (ob_file_completion obj);
      st ← drop_with (horizon_server_free_object fuel) st (ob_mapping_shared_file obj);
      Some (release_outside st obj)
  end.

(** A mapping has its shared file, that file its port, the port nothing. *)
Definition FREE_DEPTH : nat := 4.

Definition free_object (st : wine_server) (o : positive) : option wine_server := horizon_server_free_object FREE_DEPTH st o.

Definition drop_object (st : wine_server) (o : option positive) : option wine_server := drop_with free_object st o.

(** ** Looking up *)

(** The thread of the connection whose request is handled. *)
Definition current_thread (st : wine_server) (cur : option positive) : option positive :=
  c ← cur; conn ← ws_conns st !! c; cn_thread conn.

Definition horizon_server_current_tid (st : wine_server) (cur : option positive) : Z :=
  match c ← cur; ws_conns st !! c with Some conn => cn_tid conn | None => 0 end.

(** The entry's object, which the table keeps. *)
Definition entry_object (st : wine_server) (e : positive) : option (horizon_server_handle_entry * positive * server_object) :=
  entry ← ws_entries st !! e; obj ← ws_objects st !! he_object entry; Some (entry, he_object entry, obj).

(** Any type. *)
Definition horizon_server_find_handle_object_locked (st : wine_server) (cur : option positive) (handle : Z) : option (option positive) :=
  if handle =? 0 then Some None else
  if handle =? HORIZON_CURRENT_THREAD_HANDLE then Some (current_thread st cur) else
  e ← horizon_server_find_handle_locked st handle;
  match e with
  | None => Some None
  | Some e => entry ← ws_entries st !! e; Some (Some (he_object entry))
  end.

(** The status and the object. *)
Definition horizon_server_find_typed_object_locked (st : wine_server) (handle : Z) (type : horizon_server_object_type) : option (Z * option positive) :=
  if handle =? 0 then Some (HORIZON_STATUS_INVALID_HANDLE, None) else
  e ← horizon_server_find_handle_locked st handle;
  match e with
  | None => Some (HORIZON_STATUS_INVALID_HANDLE, None)
  | Some e =>
      '(_, o, obj) ← entry_object st e;
      Some (if decide (ob_type obj = type) then (HORIZON_STATUS_SUCCESS, Some o) else (HORIZON_STATUS_OBJECT_TYPE_MISMATCH, None))
  end.

Definition horizon_server_compare_object_handles (st : wine_server) (cur : option positive) (first second : Z) : option Z :=
  if (first =? 0) || (second =? 0) then Some HORIZON_STATUS_INVALID_HANDLE else
  a ← horizon_server_find_handle_object_locked st cur first;
  b ← horizon_server_find_handle_object_locked st cur second;
  Some (match a, b with
        | Some a, Some b => if decide (a = b) then HORIZON_STATUS_SUCCESS else HORIZON_STATUS_NOT_SAME_OBJECT
        | _, _ => HORIZON_STATUS_INVALID_HANDLE
        end).

Fixpoint has_handles_loop (entries : gmap positive horizon_server_handle_entry) (l : list positive) (o : positive) : option bool :=
  match l with
  | [] => Some false
  | e :: l => entry ← entries !! e; if decide (he_object entry = o) then Some true else has_handles_loop entries l o
  end.

Definition horizon_server_object_has_handles_locked (st : wine_server) (o : positive) : option bool := has_handles_loop (ws_entries st) (ws_handles st) o.

(** Resolves a thread handle: the status and the thread. *)
Definition horizon_server_get_thread_locked (st : wine_server) (cur : option positive) (handle : Z) : option (Z * option positive) :=
  if handle =? HORIZON_CURRENT_THREAD_HANDLE then
    let o := current_thread st cur in Some (if decide (is_Some o) then HORIZON_STATUS_SUCCESS else HORIZON_STATUS_INVALID_HANDLE, o)
  else horizon_server_find_typed_object_locked st handle OBJECT_THREAD.

(** ** Names *)

Record horizon_object_name := mk_object_name { on_rootdir : Z; on_name : list Z }.

Definition horizon_server_name_matches (obj : server_object) (type : option horizon_server_object_type) (name : horizon_object_name) : bool :=
  negb (bool_decide (on_name name = [])) && negb (bool_decide (ob_name obj = [])) && (ob_rootdir obj =? on_rootdir name) && bool_decide (ob_name obj = on_name name) &&
  match type with None => true | Some type => bool_decide (ob_type obj = type) end.

Definition horizon_server_name_root_locked (st : wine_server) (rootdir : Z) : option Z :=
  if rootdir =? 0 then Some rootdir else
  e ← horizon_server_find_handle_locked st rootdir;
  match e with
  | None => Some rootdir
  | Some e =>
      '(_, _, obj) ← entry_object st e;
      Some (if decide (ob_type obj = OBJECT_DIRECTORY) then (if ob_directory obj =? HORIZON_OBJECT_DIR_NAMED_OBJECTS then 0 else rootdir) else rootdir)
  end.

Fixpoint find_named_loop (st : wine_server) (l : list positive) (type : option horizon_server_object_type) (name : horizon_object_name) : option (option positive) :=
  match l with
  | [] => Some None
  | e :: l => '(_, o, obj) ← entry_object st e; if horizon_server_name_matches obj type name then Some (Some o) else find_named_loop st l type name
  end.

(** With [None] this is [horizon_server_find_named_object_any_locked]. *)
Definition horizon_server_find_named_object_locked (st : wine_server) (type : option horizon_server_object_type) (name : horizon_object_name) : option (option positive) :=
  root ← horizon_server_name_root_locked st (on_rootdir name);
  find_named_loop st (ws_handles st) type (mk_object_name root (on_name name)).

Definition horizon_server_set_object_name (st : wine_server) (o : positive) (name : horizon_object_name) : option (Z * wine_server) :=
  if bool_decide (on_name name = []) then Some (HORIZON_STATUS_SUCCESS, st) else
  let '(ok, st) := ws_alloc st in
  if negb ok then Some (HORIZON_STATUS_NO_MEMORY, st) else
  root ← horizon_server_name_root_locked st (on_rootdir name);
  obj ← ws_objects st !! o;
  Some (HORIZON_STATUS_SUCCESS, put_object st o (o_name obj root (on_name name))).

(** The status and the entry. *)
Definition horizon_server_create_named_object_handle_locked (st : wine_server) (type : horizon_server_object_type) (name : horizon_object_name) : option (Z * option positive * wine_server) :=
  found ← horizon_server_find_named_object_locked st None name;
  match found with
  | Some o =>
      obj ← ws_objects st !! o;
      if decide (ob_type obj = type) then
        '(e, st) ← horizon_server_create_handle_for_object_locked st o;
        Some (if decide (is_Some e) then HORIZON_STATUS_OBJECT_NAME_EXISTS else HORIZON_STATUS_NO_MEMORY, e, st)
      else Some (HORIZON_STATUS_OBJECT_TYPE_MISMATCH, None, st)
  | None =>
      '(e, st) ← horizon_server_create_handle_locked st type;
      match e with
      | None => Some (HORIZON_STATUS_NO_MEMORY, None, st)
      | Some e =>
          entry ← ws_entries st !! e;
          '(status, st) ← horizon_server_set_object_name st (he_object entry) name;
          if nonzero status then
            st ← horizon_server_unlink_handle_locked st e;
            st ← free_object st (he_object entry);
            Some (HORIZON_STATUS_NO_MEMORY, None, free_entry st e)
          else Some (HORIZON_STATUS_SUCCESS, Some e, st)
      end
  end.

(** The status and the new handle. *)
Definition horizon_server_open_named_object_handle (st : wine_server) (type : horizon_server_object_type) (name : horizon_object_name) : option (Z * Z * wine_server) :=
  if bool_decide (on_name name = []) then Some (HORIZON_STATUS_OBJECT_NAME_NOT_FOUND, 0, st) else
  found ← horizon_server_find_named_object_locked st (Some type) name;
  match found with
  | None => Some (HORIZON_STATUS_OBJECT_NAME_NOT_FOUND, 0, st)
  | Some o =>
      '(e, st) ← horizon_server_create_handle_for_object_locked st o;
      match e with
      | None => Some (HORIZON_STATUS_NO_MEMORY, 0, st)
      | Some e => entry ← ws_entries st !! e; Some (HORIZON_STATUS_SUCCESS, he_handle entry, st)
      end
  end.

(** ** Duplicating *)

Definition horizon_process_map_access (access : Z) : Z :=
  let access := imply 0x80000000 0x00020410 access in
  let access := imply 0x40000000 0x00020bea access in
  let access := imply 0x20000000 0x00121001 access in
  let access := imply 0x12000000 HORIZON_PROCESS_ALL_ACCESS access in
  let access := Z.land access (Z.lxor UINT_MAX 0xf2000000) in
  let access := imply 0x0400 HORIZON_PROCESS_QUERY_LIMITED_INFORMATION access in
  let access := imply 0x0200 0x2000 access in
  if Z.land access 0x28 =? 0x28 then Z.lor access HORIZON_PROCESS_QUERY_LIMITED_INFORMATION else access.

Definition set_access (st : wine_server) (e : positive) (access : Z) : option wine_server :=
  entry ← ws_entries st !! e; Some (s_entries st (<[e := mk_entry (he_handle entry) access (he_object entry)]> (ws_entries st))).

(** The access of the duplicate of an entry with [source_access]. *)
Definition duplicate_access (obj : server_object) (access options source_access : Z) : Z :=
  if decide (ob_type obj = OBJECT_THREAD) then (if nonzero (Z.land options 2) then source_access else horizon_thread_map_access access)
  else if decide (ob_type obj = OBJECT_PROCESS) then (if nonzero (Z.land options 2) then source_access else horizon_process_map_access access)
  else 0.

(** The status and the new handle. *)
Definition horizon_server_duplicate_object_handle (st : wine_server) (cur : option positive) (handle access options : Z) : option (Z * Z * wine_server) :=
  if handle =? 0 then Some (HORIZON_STATUS_INVALID_HANDLE, 0, st) else
  let '(ok, st) := ws_alloc st in
  if negb ok then Some (HORIZON_STATUS_NO_MEMORY, 0, st) else
  if handle =? HORIZON_CURRENT_PROCESS_HANDLE then
    '(e, st) ← horizon_server_create_handle_locked st OBJECT_PROCESS;
    match e with
    | None => Some (HORIZON_STATUS_NO_MEMORY, 0, st)
    | Some e =>
        st ← set_access st e (if nonzero (Z.land options 2) then HORIZON_PROCESS_ALL_ACCESS else horizon_process_map_access access);
        entry ← ws_entries st !! e;
        Some (HORIZON_STATUS_SUCCESS, he_handle entry, st)
    end
  else
  source ← (if bool_decide (handle = HORIZON_CURRENT_THREAD_HANDLE /\ is_Some (current_thread st cur)) then
              Some ((fun o => (o, HORIZON_THREAD_ALL_ACCESS)) <$> current_thread st cur)
            else e ← horizon_server_find_handle_locked st handle;
                 match e with None => Some None | Some e => entry ← ws_entries st !! e; Some (Some (he_object entry, he_access entry)) end);
  match source with
  | None => Some (HORIZON_STATUS_INVALID_HANDLE, 0, st)
  | Some (o, source_access) =>
      obj ← ws_objects st !! o;
      let '(new, st) := horizon_server_alloc_handle st in
      let st := put_object st o (o_refs obj (u32 (ob_refs obj + 1))) in
      let '(e, st) := new_entry st (mk_entry new (duplicate_access obj access options source_access) o) in
      st ← horizon_server_link_handle_locked st e;
      Some (HORIZON_STATUS_SUCCESS, new, st)
  end.
