(* ===== verification/ServerSync.v ===== *)
(** * Waits of the server

    [horizon.c]: which objects are signaled, what a wait takes of them, selects
    over several objects, the waiters that sleep in the lists of the objects
    they wait for, and the operations that wake them.

    Everything runs under the lock of the objects, so an operation is one step;
    a select is a step from the time it gets the lock to the time it sleeps or
    replies. The waits that poll, which a select falls back on when it cannot
    queue itself, are selects that may run again at any time. *)
From S2P Require Import Prelude Chain Completion Threads ServerObjects.
Local Open Scope Z_scope.

(** ** Signals *)

Definition port_queue (st : wine_server) (obj : server_object) : option (option (horizon_completion_queue * bool)) :=
  match ob_wait_port obj with
  | None => Some None
  | Some p => port ← ws_objects st !! p; Some (Some (ob_completion port, ob_completion_closed port))
  end.

Definition horizon_server_object_is_signaled (st : wine_server) (tid : Z) (obj : server_object) : option bool :=
  match ob_type obj with
  | OBJECT_EVENT => Some (ob_signaled obj)
  | OBJECT_MUTEX => Some (horizon_mutex_signaled (ob_mutex obj) tid)
  | OBJECT_SEMAPHORE => Some (0 <? ob_count obj)
  | OBJECT_TIMER => Some (ob_signaled obj)
  | OBJECT_THREAD => Some (ts_terminated (ob_thread obj))
  | OBJECT_COMPLETION => Some (0 <? cq_depth (ob_completion obj))
  | OBJECT_COMPLETION_WAIT =>
      q ← port_queue st obj;
      Some (horizon_completion_wait_signaled (fst <$> q) (default false (snd <$> q)))
  | OBJECT_PROCESS | OBJECT_RESERVE | OBJECT_KEYED_EVENT => Some true
  | _ => Some false
  end.

(** Whether the wait acquired an abandoned mutex, or a port was closed. *)
Definition horizon_server_consume_signal (st : wine_server) (tid : Z) (o : positive) (obj : server_object) : option (bool * wine_server) :=
  match ob_type obj with
  | OBJECT_EVENT => Some (false, if ob_manual_reset obj then st else put_object st o (o_signaled obj false))
  | OBJECT_MUTEX => let '(abandoned, m) := horizon_mutex_acquire (ob_mutex obj) tid in Some (abandoned, put_object st o (o_mutex obj m))
  | OBJECT_SEMAPHORE => Some (false, if nonzero (ob_count obj) then put_object st o (o_count obj (ob_count obj - 1)) else st)
  | OBJECT_TIMER => Some (false, if ob_manual_reset obj then st else put_object st o (o_signaled obj false))
  | OBJECT_COMPLETION_WAIT =>
      q ← port_queue st obj;
      '(abandoned, msg, q') ← horizon_completion_wait_satisfy (fst <$> q) (default false (snd <$> q));
      st ← match ob_wait_port obj, q' with
           | Some p, Some q' => port ← ws_objects st !! p; Some (put_object st p (o_completion port q'))
           | _, _ => Some st
           end;
      obj ← ws_objects st !! o;
      Some (abandoned, match msg with
                       | None => st
                       | Some None => put_object st o (o_wait_msg obj (ob_wait_msg obj) false)
                       | Some (Some m) => put_object st o (o_wait_msg obj m true)
                       end)
  | _ => Some (false, st)
  end.

(** SUCCESS, ABANDONED_WAIT_0, TIMEOUT or an error. *)
Definition horizon_server_wait_object_locked (st : wine_server) (cur : option positive) (handle : Z) (consume : bool) : option (Z * wine_server) :=
  if handle =? 0 then Some (HORIZON_STATUS_INVALID_HANDLE, st) else
  if handle =? HORIZON_CURRENT_THREAD_HANDLE then
    '(status, thread) ← horizon_server_get_thread_locked st cur handle;
    Some (if decide (is_Some thread) then HORIZON_STATUS_TIMEOUT else status, st)
  else
  e ← horizon_server_find_handle_locked st handle;
  match e with
  | None => Some (HORIZON_STATUS_INVALID_HANDLE, st)
  | Some e =>
      '(_, o, obj) ← entry_object st e;
      let tid := horizon_server_current_tid st cur in
      signaled ← horizon_server_object_is_signaled st tid obj;
      if negb signaled then Some (HORIZON_STATUS_TIMEOUT, st) else
      if negb consume then Some (HORIZON_STATUS_SUCCESS, st) else
      '(abandoned, st) ← horizon_server_consume_signal st tid o obj;
      Some (if abandoned : bool then HORIZON_STATUS_ABANDONED_WAIT_0 else HORIZON_STATUS_SUCCESS, st)
  end.

(** The loops of [horizon_server_select_wait]: for all objects, without taking
    anything, the first status that is not SUCCESS; ... *)
Fixpoint wait_all_test (st : wine_server) (cur : option positive) (handles : list Z) : option Z :=
  match handles with
  | [] => Some HORIZON_STATUS_SUCCESS
  | h :: handles =>
      '(status, _) ← horizon_server_wait_object_locked st cur h false;
      if nonzero status then Some status else wait_all_test st cur handles
  end.

(** ... then taking all; ... *)
Fixpoint wait_all_take (st : wine_server) (cur : option positive) (handles : list Z) (status : Z) : option (Z * wine_server) :=
  match handles with
  | [] => Some (status, st)
  | h :: handles =>
      '(s, st) ← horizon_server_wait_object_locked st cur h true;
      wait_all_take st cur handles (if s =? HORIZON_STATUS_ABANDONED_WAIT_0 then HORIZON_STATUS_ABANDONED_WAIT_0 else status)
  end.

(** ... for any object, the first that gives something. *)
Fixpoint wait_any (st : wine_server) (cur : option positive) (handles : list Z) (i : Z) (status : Z) : option (Z * wine_server) :=
  match handles with
  | [] => Some (status, st)
  | h :: handles =>
      '(s, st) ← horizon_server_wait_object_locked st cur h true;
      if (s =? HORIZON_STATUS_SUCCESS) || (s =? HORIZON_STATUS_ABANDONED_WAIT_0) then Some (u32 (s + i), st) else
      if negb (s =? HORIZON_STATUS_TIMEOUT) then Some (s, st) else wait_any st cur handles (i + 1) s
  end.

Definition horizon_server_select_wait (st : wine_server) (cur : option positive) (handles : list Z) (all : bool) : option (Z * wine_server) :=
  if bool_decide (handles = []) then Some (HORIZON_STATUS_INVALID_PARAMETER, st) else
  if all then
    status ← wait_all_test st cur handles;
    if nonzero status then Some (status, st) else wait_all_take st cur handles status
  else wait_any st cur handles 0 HORIZON_STATUS_TIMEOUT.

Definition horizon_server_select_status (st : wine_server) (cur : option positive) (op : select_op) : option (Z * wine_server) :=
  match op with
  | Select_none => Some (HORIZON_STATUS_TIMEOUT, st)
  | Select_bad => Some (HORIZON_STATUS_INVALID_PARAMETER, st)
  | Select_wait handles all => horizon_server_select_wait st cur handles all
  | Select_signal_and_wait wait _ => horizon_server_wait_object_locked st cur wait true
  | Select_keyed_event => Some (HORIZON_STATUS_SUCCESS, st)
  end.

(** ** Waking *)

Definition put_frame (st : wine_server) (w : positive) (f : horizon_sync_waiter) : wine_server := s_frames st (<[w := f]> (ws_frames st)).

Definition f_notified (f : horizon_sync_waiter) b := mk_waiter (wt_op f) (wt_alertable f) (wt_timeout f) (wt_contexts f) (wt_initial f) (wt_gated f) (wt_tried f) (wt_queued f) b (wt_completed f) (wt_status f) (wt_links f).
Definition f_status (f : horizon_sync_waiter) completed status := mk_waiter (wt_op f) (wt_alertable f) (wt_timeout f) (wt_contexts f) (wt_initial f) (wt_gated f) (wt_tried f) (wt_queued f) (wt_notified f) completed status (wt_links f).
Definition f_links (f : horizon_sync_waiter) queued links := mk_waiter (wt_op f) (wt_alertable f) (wt_timeout f) (wt_contexts f) (wt_initial f) (wt_gated f) (wt_tried f) queued (wt_notified f) (wt_completed f) (wt_status f) links.
Definition f_tried (f : horizon_sync_waiter) tried := mk_waiter (wt_op f) (wt_alertable f) (wt_timeout f) (wt_contexts f) (wt_initial f) (wt_gated f) tried (wt_queued f) (wt_notified f) (wt_completed f) (wt_status f) (wt_links f).
Definition f_again (f : horizon_sync_waiter)  := mk_waiter (wt_op f) (wt_alertable f) (wt_timeout f) (wt_contexts f) false (wt_gated f) (wt_tried f) (wt_queued f) (wt_notified f) (wt_completed f) (wt_status f) (wt_links f).
Definition f_gated (f : horizon_sync_waiter) b := mk_waiter (wt_op f) (wt_alertable f) (wt_timeout f) (wt_contexts f) (wt_initial f) b (wt_tried f) (wt_queued f) (wt_notified f) (wt_completed f) (wt_status f) (wt_links f).

Definition horizon_sync_notify_locked (st : wine_server) (w : positive) : option wine_server :=
  f ← ws_frames st !! w;
  Some (if wt_notified f then st else put_frame st w (f_notified f true)).

Fixpoint notify_all (st : wine_server) (l : list positive) : option wine_server :=
  match l with
  | [] => Some st
  | w :: l => st ← horizon_sync_notify_locked st w; notify_all st l
  end.

Definition horizon_server_signal_changed_locked (st : wine_server) : option wine_server := notify_all st (ws_waiting st).

(** Whether the waiter must run before it may be satisfied: its thread is
    suspended, or has an APC or an operation of a socket to run. *)
Definition must_run (st : wine_server) (w : positive) (f : horizon_sync_waiter) : option bool :=
  conn ← ws_conns st !! w;
  thread ← cn_thread conn;
  t ← ws_objects st !! thread;
  Some (nonzero (ts_suspend (ob_thread t)) || (wt_alertable f && negb (bool_decide (ob_apcs t = []))) || bool_decide (cn_tid conn ∈ ws_ready st)).

(** One link of the loop. *)
Definition notify_link (st : wine_server) (satisfy : bool) (w : positive) : option wine_server :=
  f ← ws_frames st !! w;
  if wt_completed f then Some st else
  must ← must_run st w f;
  if negb satisfy || must then horizon_sync_notify_locked st w else
  '(status, st) ← horizon_server_select_status st (Some w) (wt_op f);
  f ← ws_frames st !! w;
  if status =? HORIZON_STATUS_TIMEOUT then Some (put_frame st w (f_status f false status))
  else horizon_sync_notify_locked (put_frame st w (f_status f true status)) w.

Fixpoint notify_links (st : wine_server) (satisfy : bool) (links : list (positive * nat)) : option wine_server :=
  match links with
  | [] => Some st
  | (w, _) :: links => st ← notify_link st satisfy w; notify_links st satisfy links
  end.

Definition horizon_sync_notify_object_locked (st : wine_server) (o : positive) (satisfy : bool) : option wine_server :=
  obj ← ws_objects st !! o;
  let source := if decide (ob_type obj = OBJECT_COMPLETION_WAIT) then default o (ob_wait_port obj) else o in
  src ← ws_objects st !! source;
  notify_links st satisfy (ob_waiters src).

(** [horizon_sync_notify_async_locked] *)
Fixpoint notify_ready (st : wine_server) (l : list positive) : option wine_server :=
  match l with
  | [] => Some st
  | w :: l =>
      f ← ws_frames st !! w;
      conn ← ws_conns st !! w;
      st ← (if negb (wt_completed f) && bool_decide (cn_tid conn ∈ ws_ready st) then horizon_sync_notify_locked st w else Some st);
      notify_ready st l
  end.

Definition horizon_sync_notify_async_locked (st : wine_server) : option wine_server := notify_ready st (ws_waiting st).

(** ** Queueing *)

(** The links of a waiter from the last to the first. *)
Fixpoint unlink_links (st : wine_server) (w : positive) (links : list (positive * positive)) : option wine_server :=
  match links with
  | [] => Some st
  | (o, source) :: links =>
      f ← ws_frames st !! w;
      let st := put_frame st w (f_links f (wt_queued f) (reverse links)) in
      src ← ws_objects st !! source;
      let st := put_object st source (o_waiters src (List.filter (fun l => negb (bool_decide (l = (w, length links)))) (ob_waiters src))) in
      st ← (if decide (source = o) then Some st else drop_object st (Some source));
      st ← drop_object st (Some o);
      unlink_links st w links
  end.

Definition horizon_sync_unqueue_locked (st : wine_server) (w : positive) : option wine_server :=
  f ← ws_frames st !! w;
  let st := if wt_queued f then put_frame (s_waiting st (unlink_from w (ws_waiting st))) w (f_links f false (wt_links f)) else st in
  unlink_links st w (reverse (wt_links f)).

(** The source of the links of an object a select may queue on. *)
Definition link_source (obj : server_object) (o : positive) : option positive :=
  match ob_type obj with
  | OBJECT_EVENT | OBJECT_MUTEX | OBJECT_SEMAPHORE | OBJECT_TIMER | OBJECT_THREAD | OBJECT_COMPLETION => Some o
  | OBJECT_COMPLETION_WAIT => ob_wait_port obj
  | _ => None
  end.

(** Whether all objects were linked. The counts go up before the link is stored,
    which makes no difference under the lock. *)
Fixpoint queue_links (st : wine_server) (w : positive) (handles : list Z) : option (bool * wine_server) :=
  match handles with
  | [] => Some (true, st)
  | h :: handles =>
      found ← horizon_server_find_handle_object_locked st (Some w) h;
      match found with
      | None => Some (false, st)
      | Some o =>
          obj ← ws_objects st !! o;
          match link_source obj o with
          | None => Some (false, st)
          | Some source =>
              st ← (if decide (source = o) then Some st else
                    src ← ws_objects st !! source; Some (put_object st source (o_refs src (u32 (ob_refs src + 1)))));
              obj ← ws_objects st !! o;
              let st := put_object st o (o_refs obj (u32 (ob_refs obj + 1))) in
              src ← ws_objects st !! source;
              f ← ws_frames st !! w;
              let st := put_object st source (o_waiters src (ob_waiters src ++ [(w, length (wt_links f))])) in
              queue_links (put_frame st w (f_links f (wt_queued f) (wt_links f ++ [(o, source)]))) w handles
          end
      end
  end.

Definition queue_handles (op : select_op) : option (list Z) :=
  match op with
  | Select_wait handles _ => if bool_decide (handles = []) || (64 <? Z.of_nat (length handles)) then None else Some handles
  | Select_signal_and_wait wait _ => Some [wait]
  | _ => None
  end.

Definition horizon_sync_queue_locked (st : wine_server) (w : positive) : option (bool * wine_server) :=
  f ← ws_frames st !! w;
  match queue_handles (wt_op f) with
  | None => Some (false, st)
  | Some handles =>
      '(ok, st) ← queue_links st w handles;
      if ok : bool then
        f ← ws_frames st !! w;
        Some (true, put_frame (s_waiting st (w :: ws_waiting st)) w (f_links f true (wt_links f)))
      else st ← horizon_sync_unqueue_locked st w; Some (false, st)
  end.

(** ** Signaling *)

(** [if (!object->signaled) { object->signaled = 1; notify }] *)
Definition set_signaled (st : wine_server) (o : positive) (obj : server_object) : option wine_server :=
  if ob_signaled obj then Some st else horizon_sync_notify_object_locked (put_object st o (o_signaled obj true)) o true.

(** A release of the mutex by [tid]: the status and the count before. *)
Definition release_mutex (st : wine_server) (tid : Z) (o : positive) (obj : server_object) : option (Z * Z * wine_server) :=
  let '(status, previous, m) := horizon_mutex_release (ob_mutex obj) tid in
  let st := put_object st o (o_mutex obj m) in
  st ← (if (status =? 0) && negb (nonzero (mx_count m)) then horizon_sync_notify_object_locked st o true else Some st);
  Some (status, previous, st).

Definition horizon_server_signal_object_locked (st : wine_server) (cur : option positive) (handle : Z) : option (Z * wine_server) :=
  if handle =? 0 then Some (HORIZON_STATUS_INVALID_HANDLE, st) else
  e ← horizon_server_find_handle_locked st handle;
  match e with
  | None => Some (HORIZON_STATUS_INVALID_HANDLE, st)
  | Some e =>
      '(_, o, obj) ← entry_object st e;
      match ob_type obj with
      | OBJECT_EVENT => st ← set_signaled st o obj; Some (HORIZON_STATUS_SUCCESS, st)
      | OBJECT_MUTEX => '(status, _, st) ← release_mutex st (horizon_server_current_tid st cur) o obj; Some (status, st)
      | OBJECT_SEMAPHORE =>
          if ob_count obj =? ob_max obj then Some (HORIZON_STATUS_SEMAPHORE_LIMIT_EXCEEDED, st) else
          st ← horizon_sync_notify_object_locked (put_object st o (o_count obj (u32 (ob_count obj + 1)))) o true;
          Some (HORIZON_STATUS_SUCCESS, st)
      | _ => Some (HORIZON_STATUS_OBJECT_TYPE_MISMATCH, st)
      end
  end.

(** The timer as its expiry leaves it: the next deadline of a periodic one is
    the first after [now]. *)
Definition expired_timer (obj : server_object) (now : Z) : server_object :=
  if nonzero (ob_timer_period obj) then
    let period := ob_timer_period obj * 10000 in
    o_timer obj true (ob_timer_when obj + (Z.quot (now - ob_timer_when obj) period + 1) * period) (ob_timer_period obj)
  else o_timer obj true 0 (ob_timer_period obj).

Fixpoint update_timers (st : wine_server) (l : list positive) (now : Z) : option wine_server :=
  match l with
  | [] => Some st
  | t :: l =>
      obj ← ws_objects st !! t;
      if now <? ob_timer_when obj then update_timers st l now else
      let st := if nonzero (ob_timer_period obj) then st else horizon_server_unlink_timer_locked st t in
      st ← horizon_sync_notify_object_locked (put_object st t (expired_timer obj now)) t true;
      update_timers st l now
  end.

Definition horizon_server_update_timers_locked (st : wine_server) (now : Z) : option wine_server := update_timers st (ws_timers st) now.

(** ** The end of a thread *)

Definition put_conn (st : wine_server) (c : positive) (conn : horizon_server_connection) : wine_server := s_conns st (<[c := conn]> (ws_conns st)).
Definition c_thread (conn : horizon_server_connection) t := mk_connection (cn_pid conn) (cn_tid conn) (cn_direct conn) t (cn_completion_wait conn) (cn_completion_wait_handle conn).
Definition c_wait (conn : horizon_server_connection) o h := mk_connection (cn_pid conn) (cn_tid conn) (cn_direct conn) (cn_thread conn) o h.

Definition horizon_server_end_completion_wait_locked (st : wine_server) (c : positive) : option wine_server :=
  conn ← ws_conns st !! c;
  match cn_completion_wait conn with
  | None => Some st
  | Some o =>
      found ← horizon_server_find_handle_locked st (cn_completion_wait_handle conn);
      st ← match found with
           | None => Some st
           | Some e =>
               entry ← ws_entries st !! e;
               if decide (he_object entry = o) then
                 st ← horizon_server_unlink_handle_locked st e;
                 obj ← ws_objects st !! o;
                 Some (free_entry (put_object st o (o_refs obj (u32 (ob_refs obj - 1)))) e)
               else Some st
           end;
      drop_object (put_conn st c (c_wait conn None 0)) (Some o)
  end.

Fixpoint abandon_mutexes (st : wine_server) (l : list positive) (tid : Z) : option wine_server :=
  match l with
  | [] => Some st
  | e :: l =>
      '(_, o, obj) ← entry_object st e;
      st ← (if decide (ob_type obj = OBJECT_MUTEX) then
              let '(held, m) := horizon_mutex_abandon (ob_mutex obj) tid in
              if held : bool then horizon_sync_notify_object_locked (put_object st o (o_mutex obj m)) o true else Some st
            else Some st);
      abandon_mutexes st l tid
  end.

(** The thread's messages, timers and clipboard are dropped by the parts that
    have them. *)
Definition horizon_server_end_thread_locked (st : wine_server) (c : positive) (now : Z) : option wine_server :=
  st ← horizon_server_end_completion_wait_locked st c;
  conn ← ws_conns st !! c;
  match cn_thread conn with
  | None => Some st
  | Some t =>
      let st := put_conn st c (c_thread conn None) in
      obj ← ws_objects st !! t;
      let '(ended, thread) := horizon_thread_mark_terminated (ob_thread obj) now in
      let st := put_object st t (o_thread obj thread) in
      let st := if ended then s_running st (u32 (ws_running st - 1)) else st in
      st ← abandon_mutexes st (ws_handles st) (ts_tid thread);
      st ← horizon_sync_notify_object_locked st t true;
      st ← horizon_server_signal_changed_locked st;
      drop_object st (Some t)
  end.
