(* ===== verification/ServerRequests.v ===== *)
(** * Requests on the objects of the server

    [horizon.c]: the handlers of the requests on events, mutexes, semaphores,
    timers, completion ports, threads and handles, the select, and the calls by
    which other parts of the server use objects. A handler gives the status, the
    fields of its reply in their order, and the server. Reading the request and
    writing the reply are not modelled; the name of an object is given as it was
    parsed. *)
From S2P Require Import Prelude Chain Completion Threads ServerObjects ServerSync.
Local Open Scope Z_scope.

Definition HORIZON_STATUS_INVALID_CID : Z := 0xc000000b.
Definition HORIZON_STATUS_NO_SUCH_FILE : Z := 0xc000000f.
Definition HORIZON_STATUS_NO_MORE_ENTRIES : Z := 0x8000001a.
Definition HORIZON_STATUS_NOT_SUPPORTED : Z := 0xc00000bb.
Definition HORIZON_STATUS_OBJECT_NAME_COLLISION : Z := 0xc0000035.
Definition HORIZON_STATUS_OBJECT_PATH_NOT_FOUND : Z := 0xc000003a.
Definition HORIZON_STATUS_TOO_MANY_OPENED_FILES : Z := 0xc000011f.
Definition HORIZON_USER_APC_MAX : Z := 512.
Definition ENOENT : Z := 2.

(** A signed 64-bit difference, as the machine leaves it. *)
Definition s64 (x : Z) : Z := (x + 9223372036854775808) `mod` 18446744073709551616 - 9223372036854775808.

Notation reply := (Z * list Z * wine_server)%type.

(** ** Objects that are created by name *)

(** The entry that was created or found, what a new object starts as, and the
    handle of the reply. *)
Definition create_named (st : wine_server) (type : horizon_server_object_type) (name : horizon_object_name) (start : server_object -> server_object) : option reply :=
  '(status, e, st) ← horizon_server_create_named_object_handle_locked st type name;
  match e with
  | None => Some (status, [0], st)
  | Some e =>
      '(entry, o, obj) ← entry_object st e;
      Some (status, [he_handle entry], if status =? HORIZON_STATUS_SUCCESS then put_object st o (start obj) else st)
  end.

Definition horizon_server_handle_create_event st name (manual_reset initial_state : bool) := create_named st OBJECT_EVENT name (fun obj => o_event obj manual_reset initial_state).
Definition horizon_server_handle_create_completion st name := create_named st OBJECT_COMPLETION name id.
Definition horizon_server_handle_create_keyed_event st name := create_named st OBJECT_KEYED_EVENT name id.
Definition horizon_server_handle_create_mutex st (conn : horizon_server_connection) name (owned : bool) :=
  create_named st OBJECT_MUTEX name (fun obj => if owned then o_mutex obj (snd (horizon_mutex_acquire (ob_mutex obj) (cn_tid conn))) else obj).
Definition horizon_server_handle_create_semaphore st name (initial max : Z) : option reply :=
  if (max =? 0) || (max <? initial) then Some (HORIZON_STATUS_INVALID_PARAMETER, [0], st) else
  create_named st OBJECT_SEMAPHORE name (fun obj => o_semaphore obj initial max).
Definition horizon_server_handle_create_timer st name (manual : bool) := create_named st OBJECT_TIMER name (fun obj => o_new_timer obj manual).

(** An object of a type by its handle: [None] inside with the status of the
    error. *)
Definition typed (st : wine_server) (handle : Z) (type : horizon_server_object_type) (none : list Z) (f : positive -> server_object -> option reply) : option reply :=
  '(status, found) ← horizon_server_find_typed_object_locked st handle type;
  match found with
  | None => Some (status, none, st)
  | Some o => obj ← ws_objects st !! o; f o obj
  end.

Definition done (st : option wine_server) (fields : list Z) : option reply := st ← st; Some (HORIZON_STATUS_SUCCESS, fields, st).

Definition of_bool (b : bool) : Z := if b then 1 else 0.

(** ** Events *)

Inductive event_op := PULSE_EVENT | SET_EVENT | RESET_EVENT | EVENT_OP_BAD.

Definition horizon_server_handle_event_op (st : wine_server) (handle : Z) (op : event_op) : option reply :=
  typed st handle OBJECT_EVENT [0] (fun o obj =>
    let state := [of_bool (ob_signaled obj)] in
    match op with
    | PULSE_EVENT =>
        st ← horizon_sync_notify_object_locked (put_object st o (o_signaled obj true)) o true;
        obj ← ws_objects st !! o;
        done (Some (put_object st o (o_signaled obj false))) state
    | SET_EVENT => done (set_signaled st o obj) state
    | RESET_EVENT => done (Some (put_object st o (o_signaled obj false))) state
    | EVENT_OP_BAD => Some (HORIZON_STATUS_INVALID_PARAMETER, state, st)
    end).

Definition horizon_server_handle_query_event (st : wine_server) (handle : Z) : option reply :=
  typed st handle OBJECT_EVENT [0; 0] (fun o obj => Some (HORIZON_STATUS_SUCCESS, [of_bool (ob_manual_reset obj); of_bool (ob_signaled obj)], st)).

(** ** Mutexes and semaphores *)

Definition horizon_server_handle_release_mutex (st : wine_server) (conn : horizon_server_connection) (handle : Z) : option reply :=
  typed st handle OBJECT_MUTEX [0] (fun o obj => '(status, previous, st) ← release_mutex st (cn_tid conn) o obj; Some (status, [previous], st)).

Definition horizon_server_handle_query_mutex (st : wine_server) (conn : horizon_server_connection) (handle : Z) : option reply :=
  typed st handle OBJECT_MUTEX [0; 0; 0] (fun o obj =>
    let m := ob_mutex obj in
    Some (HORIZON_STATUS_SUCCESS, [mx_count m; of_bool (nonzero (mx_count m) && (mx_owner m =? cn_tid conn)); of_bool (mx_abandoned m)], st)).

Definition horizon_server_handle_release_semaphore (st : wine_server) (handle count : Z) : option reply :=
  typed st handle OBJECT_SEMAPHORE [0] (fun o obj =>
    if count =? 0 then Some (HORIZON_STATUS_INVALID_PARAMETER, [0], st) else
    if (ob_max obj <? count) || (u32 (ob_max obj - count) <? ob_count obj) then Some (HORIZON_STATUS_SEMAPHORE_LIMIT_EXCEEDED, [0], st) else
    done (horizon_sync_notify_object_locked (put_object st o (o_count obj (u32 (ob_count obj + count)))) o true) [ob_count obj]).

Definition horizon_server_handle_query_semaphore (st : wine_server) (handle : Z) : option reply :=
  typed st handle OBJECT_SEMAPHORE [0; 0] (fun o obj => Some (HORIZON_STATUS_SUCCESS, [ob_count obj; ob_max obj], st)).

(** ** Timers *)

Definition horizon_server_handle_set_timer (st : wine_server) (handle expire period now : Z) : option reply :=
  typed st handle OBJECT_TIMER [0] (fun o obj =>
    let st := if nonzero (ob_timer_when obj) then st else s_timers st (o :: ws_timers st) in
    let obj' := o_timer obj false (if expire <=? 0 then s64 (now - expire) else Z.max expire now) (if 0 <? period then period else 0) in
    done (horizon_sync_notify_object_locked (put_object st o obj') o false) [of_bool (ob_signaled obj)]).

Definition horizon_server_handle_cancel_timer (st : wine_server) (handle : Z) : option reply :=
  typed st handle OBJECT_TIMER [0] (fun o obj =>
    let st := horizon_server_unlink_timer_locked st o in
    done (horizon_sync_notify_object_locked (put_object st o (o_timer obj false 0 0)) o false) [of_bool (ob_signaled obj)]).

Definition horizon_server_handle_get_timer_info (st : wine_server) (handle now : Z) : option reply :=
  st ← horizon_server_update_timers_locked st now;
  typed st handle OBJECT_TIMER [0; 0] (fun o obj => Some (HORIZON_STATUS_SUCCESS, [ob_timer_when obj; of_bool (ob_signaled obj)], st)).

(** ** Completion ports *)

Definition horizon_server_post_completion_locked (st : wine_server) (port : positive) (ckey cvalue status information : Z) : option wine_server :=
  obj ← ws_objects st !! port;
  let '(mem, st) := ws_alloc st in
  let '(added, q) := horizon_completion_add (ob_completion obj) ckey cvalue status information mem in
  let st := put_object st port (o_completion obj q) in
  if nonzero added then horizon_sync_notify_object_locked st port true else Some st.

Definition horizon_server_handle_add_completion (st : wine_server) (handle ckey cvalue status information : Z) : option reply :=
  typed st handle OBJECT_COMPLETION [] (fun o _ => done (horizon_server_post_completion_locked st o ckey cvalue status information) []).

(** The completion wait of the client, if there is memory for a first one. *)
Definition horizon_server_completion_wait_locked (st : wine_server) (c : positive) : option (option positive * wine_server) :=
  conn ← ws_conns st !! c;
  match cn_completion_wait conn with
  | Some o => Some (Some o, st)
  | None =>
      '(e, st) ← horizon_server_create_handle_locked st OBJECT_COMPLETION_WAIT;
      match e with
      | None => Some (None, st)
      | Some e =>
          '(entry, o, obj) ← entry_object st e;
          let st := put_object st o (o_refs obj (u32 (ob_refs obj + 1))) in
          Some (Some o, put_conn st c (c_wait conn (Some o) (he_handle entry)))
      end
  end.

Definition horizon_server_bind_completion_wait_locked (st : wine_server) (wait port : positive) : option wine_server :=
  w ← ws_objects st !! wait;
  if decide (ob_wait_port w = Some port) then Some st else
  p ← ws_objects st !! port;
  let st := put_object st port (o_refs p (u32 (ob_refs p + 1))) in
  st ← drop_object st (ob_wait_port w);
  w ← ws_objects st !! wait;
  Some (put_object st wait (o_wait_port w (Some port))).

Definition msg_fields (m : horizon_completion_msg) : list Z := [cm_ckey m; cm_cvalue m; cm_information m; cm_status m].

(** The reply ends with the handle of the wait. *)
Definition horizon_server_handle_remove_completion (st : wine_server) (c : positive) (handle : Z) : option reply :=
  typed st handle OBJECT_COMPLETION [0; 0; 0; 0; 0] (fun port obj =>
    '(msg, q) ← horizon_completion_take (ob_completion obj);
    let st := put_object st port (o_completion obj q) in
    match msg with
    | Some m =>
        conn ← ws_conns st !! c;
        st ← match cn_completion_wait conn with
             | Some wait => horizon_server_bind_completion_wait_locked st wait port
             | None => Some st
             end;
        Some (HORIZON_STATUS_SUCCESS, msg_fields m ++ [0], st)
    | None =>
        '(wait, st) ← horizon_server_completion_wait_locked st c;
        match wait with
        | None => Some (HORIZON_STATUS_NO_MEMORY, [0; 0; 0; 0; 0], st)
        | Some wait =>
            st ← horizon_server_bind_completion_wait_locked st wait port;
            conn ← ws_conns st !! c;
            Some (HORIZON_STATUS_PENDING, [0; 0; 0; 0; cn_completion_wait_handle conn], st)
        end
    end).

Definition horizon_server_handle_get_thread_completion (st : wine_server) (conn : horizon_server_connection) : option reply :=
  match cn_completion_wait conn with
  | None => Some (HORIZON_STATUS_INVALID_HANDLE, [0; 0; 0; 0], st)
  | Some o =>
      obj ← ws_objects st !! o;
      Some (if ob_wait_has_msg obj then (HORIZON_STATUS_SUCCESS, msg_fields (ob_wait_msg obj), put_object st o (o_wait_msg obj (ob_wait_msg obj) false))
            else (HORIZON_STATUS_INVALID_HANDLE, [0; 0; 0; 0], st))
  end.

Definition horizon_server_handle_query_completion (st : wine_server) (handle : Z) : option reply :=
  typed st handle OBJECT_COMPLETION [0] (fun o obj => Some (HORIZON_STATUS_SUCCESS, [cq_depth (ob_completion obj)], st)).

Definition horizon_server_find_io_object_locked (st : wine_server) (handle : Z) : option (Z * option positive) :=
  '(status, o) ← horizon_server_find_typed_object_locked st handle OBJECT_FILE;
  '(status, o) ← (if status =? HORIZON_STATUS_OBJECT_TYPE_MISMATCH then horizon_server_find_typed_object_locked st handle OBJECT_SOCK else Some (status, o));
  if status =? HORIZON_STATUS_OBJECT_TYPE_MISMATCH then horizon_server_find_typed_object_locked st handle OBJECT_NSI else Some (status, o).

Definition horizon_server_handle_set_completion_info (st : wine_server) (handle chandle ckey : Z) : option reply :=
  '(status, found) ← horizon_server_find_io_object_locked st handle;
  match found with
  | None => Some (status, [], st)
  | Some file =>
      obj ← ws_objects st !! file;
      if negb (horizon_completion_file_overlapped (fi_options (ob_file obj))) || bool_decide (is_Some (ob_file_completion obj)) then
        Some (HORIZON_STATUS_INVALID_PARAMETER, [], st)
      else typed st chandle OBJECT_COMPLETION [] (fun port p =>
        let st := put_object st port (o_refs p (u32 (ob_refs p + 1))) in
        obj ← ws_objects st !! file;
        Some (HORIZON_STATUS_SUCCESS, [], put_object st file (o_file_completion obj (Some port) ckey)))
  end.

Definition horizon_server_handle_add_fd_completion (st : wine_server) (handle cvalue code information : Z) (async : bool) : option reply :=
  '(status, found) ← horizon_server_find_io_object_locked st handle;
  match found with
  | None => Some (status, [], st)
  | Some file =>
      obj ← ws_objects st !! file;
      match ob_file_completion obj with
      | Some port =>
          if horizon_completion_file_posts async (ob_file_completion_flags obj) then
            done (horizon_server_post_completion_locked st port (ob_file_completion_key obj) cvalue code information) []
          else Some (status, [], st)
      | None => Some (status, [], st)
      end
  end.

Definition horizon_server_handle_set_fd_completion_mode (st : wine_server) (handle flags : Z) : option reply :=
  '(status, found) ← horizon_server_find_io_object_locked st handle;
  match found with
  | None => Some (status, [], st)
  | Some file =>
      obj ← ws_objects st !! file;
      if horizon_completion_file_overlapped (fi_options (ob_file obj)) then
        Some (HORIZON_STATUS_SUCCESS, [], put_object st file (o_completion_flags obj (horizon_completion_file_mode (ob_file_completion_flags obj) flags)))
      else Some (HORIZON_STATUS_INVALID_PARAMETER, [], st)
  end.

(** ** Handles *)

(** By the error numbers of newlib. *)
Definition horizon_server_errno_status (error : Z) : Z :=
  if error =? 0 then HORIZON_STATUS_SUCCESS else
  if (error =? 13) || (error =? 1) then HORIZON_STATUS_ACCESS_DENIED else
  if error =? 17 then HORIZON_STATUS_OBJECT_NAME_COLLISION else
  if error =? ENOENT then HORIZON_STATUS_NO_SUCH_FILE else
  if error =? 20 then HORIZON_STATUS_OBJECT_PATH_NOT_FOUND else
  if (error =? 24) || (error =? 23) then HORIZON_STATUS_TOO_MANY_OPENED_FILES else
  if error =? ENOMEM then HORIZON_STATUS_NO_MEMORY else HORIZON_STATUS_INVALID_PARAMETER.

(** Whether the last close of the object deletes its file. *)
Definition deletes_file (obj : server_object) : bool :=
  let f := ob_file obj in
  bool_decide (ob_type obj = OBJECT_FILE) && (nonzero (Z.land (fi_options f) 0x1000) || fi_delete f) && negb (bool_decide (fi_name f = [])).

(** The descriptor is closed first: an open file cannot be deleted. *)
Definition delete_on_close (st : wine_server) (o : positive) (obj : server_object) : Z * wine_server :=
  if negb (deletes_file obj) then (HORIZON_STATUS_SUCCESS, st) else
  let f := ob_file obj in
  let '(status, st) :=
    if fi_fd f =? -1 then (HORIZON_STATUS_SUCCESS, st) else
    let '(error, st) := outside st (Call_close (fi_fd f)) in
    (if nonzero error then horizon_server_errno_status error else HORIZON_STATUS_SUCCESS,
     put_object st o (o_file obj (mk_object_file (-1) (fi_peer_fd f) (fi_name f) (fi_options f) (fi_delete f) (fi_is_dir f)))) in
  let '(error, st) := outside st (Call_remove (fi_name f) (fi_is_dir f)) in
  (if nonzero error && negb (error =? ENOENT) then horizon_server_errno_status error else status, st).

(** [cancelled] are the threads of the operations of a socket that its close
    makes ready. *)
Definition close_sock (st : wine_server) (obj : server_object) (cancelled : list Z) : option wine_server :=
  if bool_decide (ob_type obj = OBJECT_SOCK) && negb (bool_decide (cancelled = [])) then
    horizon_sync_notify_async_locked (s_ready st (cancelled ++ ws_ready st))
  else Some st.

Definition close_port (st : wine_server) (o : positive) (obj : server_object) : option wine_server :=
  if decide (ob_type obj = OBJECT_COMPLETION) then
    has ← horizon_server_object_has_handles_locked st o;
    if has : bool then Some st else
    obj ← ws_objects st !! o;
    horizon_sync_notify_object_locked (put_object st o (o_closed obj true)) o true
  else Some st.

(** The reference of the handle. *)
Definition close_reference (st : wine_server) (o : positive) : option (Z * wine_server) :=
  obj ← ws_objects st !! o;
  if negb (nonzero (ob_refs obj)) then Some (HORIZON_STATUS_SUCCESS, st) else
  let obj := o_refs obj (u32 (ob_refs obj - 1)) in
  let st := put_object st o obj in
  if nonzero (ob_refs obj) then Some (HORIZON_STATUS_SUCCESS, st) else
  let '(status, st) := delete_on_close st o obj in
  st ← free_object st o;
  Some (status, st).

Definition horizon_server_close_object_handle (st : wine_server) (handle : Z) (cancelled : list Z) : option (Z * wine_server) :=
  if handle =? 0 then Some (HORIZON_STATUS_INVALID_HANDLE, st) else
  found ← horizon_server_find_handle_locked st handle;
  match found with
  | None => Some (HORIZON_STATUS_INVALID_HANDLE, st)
  | Some e =>
      '(_, o, obj) ← entry_object st e;
      st ← horizon_server_unlink_handle_locked st e;
      st ← horizon_sync_notify_object_locked st o false;
      st ← close_sock st obj cancelled;
      st ← close_port st o obj;
      let st := match ob_reg_key obj with Some key => snd (outside st (Call_reg_handle_closed key handle)) | None => st end in
      '(status, st) ← close_reference st o;
      Some (status, free_entry st e)
  end.

Definition handle_reply (r : option (Z * Z * wine_server)) : option reply := '(status, handle, st) ← r; Some (status, [handle], st).

(** ** Threads *)

Definition horizon_server_alloc_thread_locked (st : wine_server) (tid pid affinity now : Z) : option positive * wine_server :=
  let '(ok, st) := ws_alloc st in
  if negb ok then (None, st) else
  let o := fresh (dom (ws_objects st)) in
  let st := put_object st o (new_object tid OBJECT_THREAD 0 (horizon_thread_init tid pid affinity now)) in
  (Some o, s_running (s_threads st (o :: ws_threads st)) (u32 (ws_running st + 1))).

Definition t_created (t : horizon_thread_state) (suspended is_system : bool) : horizon_thread_state :=
  mk_thread (ts_tid t) (ts_pid t) (ts_teb t) (ts_entry t) (ts_affinity t) (ts_priority t) (ts_base_priority t) (ts_exit_code t) (ts_started t) (ts_terminated t) is_system (of_bool suspended) (ts_creation_time t) (ts_exit_time t).
Definition t_started (t : horizon_thread_state) : horizon_thread_state :=
  mk_thread (ts_tid t) (ts_pid t) (ts_teb t) (ts_entry t) (ts_affinity t) (ts_priority t) (ts_base_priority t) (ts_exit_code t) true (ts_terminated t) (ts_is_system t) (ts_suspend t) (ts_creation_time t) (ts_exit_time t).
Definition t_entry (t : horizon_thread_state) (teb entry : Z) : horizon_thread_state :=
  mk_thread (ts_tid t) (ts_pid t) teb entry (ts_affinity t) (ts_priority t) (ts_base_priority t) (ts_exit_code t) (ts_started t) (ts_terminated t) (ts_is_system t) (ts_suspend t) (ts_creation_time t) (ts_exit_time t).

(** The first connection, which has no thread yet. *)
Definition horizon_server_handle_init_first_thread (st : wine_server) (c : positive) (unix_pid affinity now : Z) : option reply :=
  conn ← ws_conns st !! c;
  let pid := if 0 <? unix_pid then unix_pid else 1 in
  let conn := mk_connection pid 4 (cn_direct conn) (cn_thread conn) (cn_completion_wait conn) (cn_completion_wait_handle conn) in
  match cn_thread conn with
  | Some _ => Some (HORIZON_STATUS_SUCCESS, [pid; 4], put_conn st c conn)
  | None =>
      let '(thread, st) := horizon_server_alloc_thread_locked st 4 pid affinity now in
      match thread with
      | None => Some (HORIZON_STATUS_SUCCESS, [pid; 4], put_conn st c conn)
      | Some o =>
          obj ← ws_objects st !! o;
          let st := put_object st o (o_thread (o_refs obj 1) (t_started (ob_thread obj))) in
          Some (HORIZON_STATUS_SUCCESS, [pid; 4], put_conn st c (c_thread conn thread))
      end
  end.

(** The connection of the new thread, [None] when there is no memory. *)
Definition new_thread_locked (st : wine_server) (pid tid access affinity now : Z) (suspended is_system : bool) : option (option (positive * Z) * wine_server) :=
  let '(thread, st) := horizon_server_alloc_thread_locked st tid pid affinity now in
  match thread with
  | None => Some (None, st)
  | Some o =>
      '(e, st) ← horizon_server_create_handle_for_object_locked st o;
      match e with
      | None => st ← free_object (s_running st (u32 (ws_running st - 1))) o; Some (None, st)
      | Some e =>
          obj ← ws_objects st !! o;
          let st := put_object st o (o_thread (o_refs obj (u32 (ob_refs obj + 1))) (t_created (ob_thread obj) suspended is_system)) in
          st ← set_access st e (horizon_thread_map_access access);
          entry ← ws_entries st !! e;
          let c := fresh (dom (ws_conns st)) in
          Some (Some (c, he_handle entry), put_conn st c (mk_connection pid tid false (Some o) None 0))
      end
  end.

(** The connection is freed when its native thread cannot be made. *)
Definition horizon_server_handle_new_thread (st : wine_server) (conn : horizon_server_connection) (access affinity now : Z) (suspended is_system : bool) : option reply :=
  let '(ok, st) := ws_alloc st in
  if negb ok then Some (HORIZON_STATUS_NO_MEMORY, [0; 0], st) else
  let tid := u32 (ws_next_tid st + 4) in
  let st := s_next_tid st tid in
  '(thread, st) ← new_thread_locked st (cn_pid conn) tid access affinity now suspended is_system;
  match thread with
  | None => Some (HORIZON_STATUS_NO_MEMORY, [0; 0], st)
  | Some (c, handle) =>
      let '(error, st) := outside st Call_pthread_create in
      if nonzero error then
        st ← horizon_server_end_thread_locked st c now;
        '(_, st) ← horizon_server_close_object_handle st handle [];
        Some (HORIZON_STATUS_NO_MEMORY, [0; 0], s_conns st (delete c (ws_conns st)))
      else Some (HORIZON_STATUS_SUCCESS, [tid; handle], st)
  end.

(** [init_thread] up to the start gate ... *)
Definition init_thread_enter (st : wine_server) (c : positive) (teb entry : Z) : option wine_server :=
  conn ← ws_conns st !! c;
  match cn_thread conn with
  | None => Some st
  | Some o => obj ← ws_objects st !! o; Some (put_object st o (o_thread obj (t_entry (ob_thread obj) teb entry)))
  end.

(** ... and a turn of its loop: whether the gate is open. *)
Definition init_thread_turn (st : wine_server) (c : positive) : option (bool * wine_server) :=
  conn ← ws_conns st !! c;
  match cn_thread conn with
  | None => Some (true, st)
  | Some o =>
      obj ← ws_objects st !! o;
      if horizon_thread_may_start (ob_thread obj) then Some (true, put_object st o (o_thread obj (t_started (ob_thread obj)))) else Some (false, st)
  end.

(** A thread by its handle. *)
Definition with_thread (st : wine_server) (cur : option positive) (handle : Z) (none : list Z) (f : positive -> server_object -> option reply) : option reply :=
  '(status, thread) ← horizon_server_get_thread_locked st cur handle;
  match thread with
  | None => Some (status, none, st)
  | Some o => obj ← ws_objects st !! o; f o obj
  end.

(** The doorbell of the thread is rung in another part. *)
Definition horizon_server_handle_resume_thread (st : wine_server) (cur : option positive) (handle : Z) : option reply :=
  '(status, fields, st) ← with_thread st cur handle [0] (fun o obj =>
    let '(status, count, thread) := horizon_thread_resume (ob_thread obj) in
    Some (status, [count], put_object st o (o_thread obj thread)));
  st ← horizon_server_signal_changed_locked st;
  Some (status, fields, st).

Definition horizon_server_handle_suspend_thread (st : wine_server) (cur : option positive) (handle : Z) : option reply :=
  '(status, fields, st) ← with_thread st cur handle [0] (fun o obj =>
    let '(status, count, thread) := horizon_thread_suspend (ob_thread obj) in
    Some (status, [count], put_object st o (o_thread obj thread)));
  st ← (if nonzero status then Some st else horizon_server_signal_changed_locked st);
  Some (status, fields, st).

Definition horizon_server_handle_terminate_thread (st : wine_server) (cur : option positive) (handle exit_code : Z) : option reply :=
  with_thread st cur handle [0] (fun o obj =>
    if decide (current_thread st cur = Some o) then
      Some (HORIZON_STATUS_SUCCESS, [1], put_object st o (o_thread obj (horizon_thread_set_exit_code (ob_thread obj) exit_code)))
    else Some (if ts_terminated (ob_thread obj) then HORIZON_STATUS_SUCCESS else HORIZON_STATUS_NOT_SUPPORTED, [0], st)).

Fixpoint find_thread (st : wine_server) (l : list positive) (p : horizon_thread_state -> bool) : option (option positive) :=
  match l with
  | [] => Some None
  | o :: l => obj ← ws_objects st !! o; if p (ob_thread obj) then Some (Some o) else find_thread st l p
  end.

(** A new handle of the thread with an access. *)
Definition thread_handle (st : wine_server) (o : positive) (access : Z) : option reply :=
  '(e, st) ← horizon_server_create_handle_for_object_locked st o;
  match e with
  | None => Some (HORIZON_STATUS_NO_MEMORY, [0], st)
  | Some e =>
      st ← set_access st e (horizon_thread_map_access access);
      entry ← ws_entries st !! e;
      Some (HORIZON_STATUS_SUCCESS, [he_handle entry], st)
  end.

Definition horizon_server_handle_open_thread (st : wine_server) (tid access : Z) : option reply :=
  found ← find_thread st (ws_threads st) (fun t => ts_tid t =? tid);
  match found with
  | None => Some (HORIZON_STATUS_INVALID_CID, [0], st)
  | Some o => thread_handle st o access
  end.

(** The loop of [get_next_thread]: the thread of the process with the next
    smaller or greater id. *)
Fixpoint next_thread (st : wine_server) (l : list positive) (pid : Z) (down : bool) (last : Z) (next : option (positive * Z)) : option (option (positive * Z)) :=
  match l with
  | [] => Some next
  | o :: l =>
      obj ← ws_objects st !! o;
      let t := ob_thread obj in
      let tid := ts_tid t in
      let skip := negb (ts_pid t =? pid) || ts_is_system t || (if down then last <=? tid else tid <=? last) in
      let better := match next with None => true | Some (_, n) => if down then n <? tid else tid <? n end in
      next_thread st l pid down last (if negb skip && better then Some (o, tid) else next)
  end.

Definition horizon_server_handle_get_next_thread (st : wine_server) (c : positive) (conn : horizon_server_connection) (process last flags access : Z) : option reply :=
  if 1 <? flags then Some (HORIZON_STATUS_INVALID_PARAMETER, [0], st) else
  '(status, _) ← (if process =? HORIZON_CURRENT_PROCESS_HANDLE then Some (HORIZON_STATUS_SUCCESS, None) else horizon_server_find_typed_object_locked st process OBJECT_PROCESS);
  if nonzero status then Some (status, [0], st) else
  '(status, start) ← (if last =? 0 then Some (HORIZON_STATUS_SUCCESS, Some (if nonzero flags then UINT_MAX else 0)) else
    '(status, thread) ← horizon_server_get_thread_locked st (Some c) last;
    match thread with
    | None => Some (status, None)
    | Some o => obj ← ws_objects st !! o; Some (status, Some (ts_tid (ob_thread obj)))
    end);
  match start with
  | None => Some (status, [0], st)
  | Some start =>
      next ← next_thread st (ws_threads st) (cn_pid conn) (nonzero flags) start None;
      match next with
      | None => Some (HORIZON_STATUS_NO_MORE_ENTRIES, [0], st)
      | Some (o, _) => thread_handle st o access
      end
  end.
