(* ===== verification/ServerSelect.v ===== *)
(** * Selects, user APCs, and the parts that use objects from outside

    [horizon.c]: queueing and taking user APCs, the select of a client, turn by
    turn, the calls of a client that enters the server directly, and the
    references that sockets, the registry, files and sections keep. At the end,
    [server_do] is one event of the running server and [server_allowed] says
    which events the clients and the other parts make. *)
From S2P Require Import Prelude Chain Completion Threads ServerObjects ServerSync ServerRequests.
Local Open Scope Z_scope.

Definition TIMEOUT_INFINITE : Z := 0x7fffffffffffffff.

(** ** User APCs *)

Fixpoint notify_alertable (st : wine_server) (l : list positive) (thread : positive) : option wine_server :=
  match l with
  | [] => Some st
  | w :: l =>
      f ← ws_frames st !! w;
      conn ← ws_conns st !! w;
      st ← (if bool_decide (cn_thread conn = Some thread) && wt_alertable f then horizon_sync_notify_locked st w else Some st);
      notify_alertable st l thread
  end.

Definition horizon_server_queue_user_apc_locked (st : wine_server) (thread : positive) (call : list Z) : option (Z * wine_server) :=
  let size := Z.of_nat (length call) in
  if (size =? 0) || (HORIZON_USER_APC_MAX <? size) then Some (HORIZON_STATUS_INVALID_PARAMETER, st) else
  let '(ok, st) := ws_alloc st in
  if negb ok then Some (HORIZON_STATUS_NO_MEMORY, st) else
  obj ← ws_objects st !! thread;
  let st := put_object st thread (o_apcs obj (ob_apcs obj ++ [call])) in
  st ← notify_alertable st (ws_waiting st) thread;
  Some (HORIZON_STATUS_SUCCESS, st).

Definition horizon_server_take_user_apc_locked (st : wine_server) (thread : option positive) : option (option (list Z) * wine_server) :=
  match thread with
  | None => Some (None, st)
  | Some o =>
      obj ← ws_objects st !! o;
      match ob_apcs obj with
      | [] => Some (None, st)
      | apc :: apcs => Some (Some apc, put_object st o (o_apcs obj apcs))
      end
  end.

Definition horizon_server_handle_queue_apc (st : wine_server) (cur : option positive) (handle : Z) (data : list Z) : option reply :=
  with_thread st cur handle [0] (fun o _ =>
    '(status, st') ← (if bool_decide (data = []) then Some (HORIZON_STATUS_SUCCESS, st) else horizon_server_queue_user_apc_locked st o data);
    Some (status, [of_bool (bool_decide (current_thread st cur = Some o))], st')).

(** ** The select *)

(** What a turn of the loop comes to: a reply, or sleep. *)
Inductive turn := Turn_reply (status : Z) | Turn_sleep.

(** Every way out of the loop ends with this. *)
Definition select_reply (st : wine_server) (c : positive) (status : Z) : option (turn * wine_server) :=
  st ← horizon_sync_unqueue_locked st c;
  Some (Turn_reply status, s_frames st (delete c (ws_frames st))).

(** Whether the select leaves the loop of a suspended thread: [None] when it is
    not in it, and the status of its reply if it has to reply. *)
Definition unqueue_again (st : wine_server) (c : positive) : option wine_server :=
  f ← ws_frames st !! c;
  if wt_queued f then
    st ← horizon_sync_unqueue_locked st c;
    f ← ws_frames st !! c;
    Some (put_frame st c (f_tried f (-1)))
  else Some st.

(** Entering the loop of a suspended thread, which publishes its contexts. *)
Definition gate_enter (st : wine_server) (c thread : positive) : option wine_server :=
  st ← unqueue_again st c;
  f ← ws_frames st !! c;
  let st := put_frame st c (f_gated f true) in
  obj ← ws_objects st !! thread;
  if ob_context_valid obj then Some st else horizon_server_signal_changed_locked (put_object st thread (o_context_valid obj true)).

(** The part of a turn for a suspended thread: sleep, a reply, or go on. *)
Definition select_gate (st : wine_server) (c : positive) : option (option turn * wine_server) :=
  conn ← ws_conns st !! c;
  match cn_thread conn with
  | None => Some (None, st)
  | Some thread =>
      f ← ws_frames st !! c;
      obj ← ws_objects st !! thread;
      let t := ob_thread obj in
      if negb (wt_gated f || (ts_started t && nonzero (ts_suspend t))) then Some (None, st) else
      st ← (if wt_gated f then Some st else gate_enter st c thread);
      if nonzero (ts_suspend t) && negb (ts_terminated t) then Some (Some Turn_sleep, st) else
      f ← ws_frames st !! c;
      obj ← ws_objects st !! thread;
      let st := put_frame (put_object st thread (o_context_valid obj false)) c (f_gated f false) in
      Some (if wt_contexts f then (Some (Turn_reply (if ts_terminated t then HORIZON_STATUS_ACCESS_DENIED else HORIZON_STATUS_SUCCESS)), st)
            else if ts_terminated t then (Some (Turn_reply HORIZON_STATUS_ACCESS_DENIED), st) else (None, st))
  end.

(** The signal of a signal-and-wait, before the first wait: the status of an
    error. *)
Definition select_signal (st : wine_server) (c : positive) (f : horizon_sync_waiter) : option (option Z * wine_server) :=
  match wt_op f with
  | Select_signal_and_wait wait (Some signal) =>
      if wt_initial f then
        '(status, _) ← horizon_server_wait_object_locked st (Some c) wait false;
        if negb (status =? HORIZON_STATUS_SUCCESS) && negb (status =? HORIZON_STATUS_TIMEOUT) then Some (Some status, st) else
        '(status, st) ← horizon_server_signal_object_locked st (Some c) signal;
        Some (if nonzero status then Some status else None, st)
      else Some (None, st)
  | _ => Some (None, st)
  end.

(** Whether the time of the select is over: negative timeouts are performance
    time, positive ones wall time. *)
Definition select_expired (timeout counter now : Z) : bool :=
  if timeout =? TIMEOUT_INFINITE then false else
  if timeout <? 0 then - (timeout + 1) <? counter else timeout <=? now.

Definition timer_due (st : wine_server) (now : Z) (link : positive * positive) : bool :=
  match ws_objects st !! fst link with
  | Some obj => bool_decide (ob_type obj = OBJECT_TIMER) && nonzero (ob_timer_when obj) && (ob_timer_when obj <=? now)
  | None => false
  end.

(** [horizon_sync_sleep_locked]: it does not sleep when a timer is due. *)
Definition horizon_sync_sleep_locked (st : wine_server) (c : positive) (now : Z) : option wine_server :=
  f ← ws_frames st !! c;
  Some (if existsb (timer_due st now) (wt_links f) then st else put_frame st c (f_notified f false)).

(** The end of a turn that found nothing: queueing and sleeping. *)
Definition select_sleep (st : wine_server) (c : positive) (direct : bool) (now : Z) : option (turn * wine_server) :=
  f ← ws_frames st !! c;
  '(tried, st) ← (if direct && (wt_tried f <? 0) then
                    '(queued, st) ← horizon_sync_queue_locked st c;
                    Some (of_bool queued, st)
                  else Some (wt_tried f, st));
  f ← ws_frames st !! c;
  let st := put_frame st c (f_again (f_tried f tried)) in
  st ← (if 0 <? tried then horizon_sync_sleep_locked st c now else Some st);
  Some (Turn_sleep, st).

(** A turn that is not stopped by the gate. [counter] and [now] are the clocks. *)
Definition select_look (st : wine_server) (c : positive) (counter now : Z) : option (turn * wine_server) :=
  conn ← ws_conns st !! c;
  f ← ws_frames st !! c;
  if wt_completed f then select_reply st c (wt_status f) else
  '(error, st) ← select_signal st c f;
  match error with
  | Some status => select_reply st c status
  | None =>
      if decide (cn_tid conn ∈ ws_ready st) then
        select_reply (s_ready st (remove_one (cn_tid conn) (ws_ready st))) c HORIZON_STATUS_KERNEL_APC
      else
      '(apc, st) ← (if wt_alertable f then horizon_server_take_user_apc_locked st (cn_thread conn) else Some (None, st));
      if decide (is_Some apc) then select_reply st c HORIZON_STATUS_USER_APC else
      st ← horizon_server_update_timers_locked st now;
      f ← ws_frames st !! c;
      if wt_completed f then select_reply st c (wt_status f) else
      '(status, st) ← horizon_server_select_status st (Some c) (wt_op f);
      if negb (status =? HORIZON_STATUS_TIMEOUT) || (wt_timeout f =? 0) || select_expired (wt_timeout f) counter now then select_reply st c status
      else select_sleep st c (cn_direct conn) now
  end.

(** A turn of the loop of [horizon_server_handle_select], from the time the
    thread has the lock to the time it sleeps or leaves; [quit] is the check
    after the sleep. *)
Definition horizon_server_handle_select (st : wine_server) (c : positive) (counter now : Z) (quit : bool) : option (turn * wine_server) :=
  st ← (if quit then unqueue_again st c else Some st);
  '(gate, st) ← select_gate st c;
  match gate with
  | Some Turn_sleep => Some (Turn_sleep, st)
  | Some (Turn_reply status) => select_reply st c status
  | None => select_look st c counter now
  end.

Definition select_begin (st : wine_server) (c : positive) (op : select_op) (alertable : bool) (timeout : Z) (contexts : bool) : wine_server :=
  put_frame st c (mk_waiter op alertable timeout contexts true false (-1) false false false 0 []).

(** ** Direct calls *)

(** [horizon_sync_get_thread_locked]: connection [c] stands for the thread-local
    [horizon_sync_thread] of a native thread, [pthread_setspecific] fails only
    for want of memory. *)
Definition sync_forget (st : wine_server) (c : positive) : option (bool * wine_server) :=
  match ws_conns st !! c with
  | None => Some (true, st)
  | Some conn =>
      let '(ok, st) := ws_alloc st in
      if negb ok then Some (false, st) else
      st ← drop_object (s_conns st (delete c (ws_conns st))) (cn_thread conn);
      Some (true, st)
  end.

Definition sync_find (st : wine_server) (c : positive) (tid : Z) : option (option positive * wine_server) :=
  found ← find_thread st (ws_threads st) (fun t => (ts_tid t =? tid) && negb (ts_terminated t));
  match found with
  | None => Some (None, st)
  | Some o =>
      let '(ok, st) := ws_alloc st in
      if negb ok then Some (None, st) else
      obj ← ws_objects st !! o;
      let st := put_object st o (o_refs obj (u32 (ob_refs obj + 1))) in
      Some (Some o, put_conn st c (mk_connection (ts_pid (ob_thread obj)) tid true (Some o) None 0))
  end.

Definition horizon_sync_get_thread_locked (st : wine_server) (c : positive) (tid : Z) : option (option positive * wine_server) :=
  known ← match ws_conns st !! c with
          | None => Some None
          | Some conn =>
              match cn_thread conn with
              | None => Some None
              | Some o => obj ← ws_objects st !! o; Some (if ts_tid (ob_thread obj) =? tid then Some (o, obj) else None)
              end
          end;
  match known with
  | Some (o, obj) => Some (if ts_terminated (ob_thread obj) then None else Some o, st)
  | None =>
      '(ok, st) ← sync_forget st c;
      if ok : bool then sync_find st c tid else Some (None, st)
  end.

(** [horizon_sync_release_thread], when the native thread ends. *)
Definition horizon_sync_release_thread (st : wine_server) (c : positive) : option wine_server :=
  conn ← ws_conns st !! c;
  drop_object (s_conns st (delete c (ws_conns st))) (cn_thread conn).

(** ** References of other parts *)

Definition hold (st : wine_server) (o : positive) (obj : server_object) : wine_server :=
  s_held (put_object st o (o_refs obj (u32 (ob_refs obj + 1)))) (o :: ws_held st).

Definition let_go (st : wine_server) (o : positive) : option wine_server :=
  drop_object (s_held st (unlink_from o (ws_held st))) (Some o).

(** A notification of the registry keeps its event and resets it, when
    [horizon_reg_notify] answers PENDING. *)
Definition registry_notification (st : wine_server) (event : Z) (pending : bool) : option reply :=
  found ← horizon_server_find_handle_locked st event;
  match found with
  | None => Some (HORIZON_STATUS_INVALID_HANDLE, [], st)
  | Some e =>
      '(_, o, obj) ← entry_object st e;
      if negb (bool_decide (ob_type obj = OBJECT_EVENT)) then Some (HORIZON_STATUS_INVALID_HANDLE, [], st) else
      if pending then Some (HORIZON_STATUS_PENDING, [], hold st o (o_signaled obj false)) else Some (HORIZON_STATUS_SUCCESS, [], st)
  end.

Definition horizon_registry_signal (st : wine_server) (event : positive) : option wine_server :=
  obj ← ws_objects st !! event;
  st ← horizon_server_signal_changed_locked (put_object st event (o_signaled obj true));
  let_go st event.

(** An operation of a socket keeps the port of the socket and resets its event. *)
Definition async_new_port (st : wine_server) (sock : Z) : option wine_server :=
  '(_, found) ← horizon_server_find_typed_object_locked st sock OBJECT_SOCK;
  match found with
  | None => Some st
  | Some o =>
      obj ← ws_objects st !! o;
      match ob_file_completion obj with
      | None => Some st
      | Some port => p ← ws_objects st !! port; Some (hold st port p)
      end
  end.

Definition async_new_event (st : wine_server) (event : Z) : option wine_server :=
  if event =? 0 then Some st else
  found ← horizon_server_find_handle_locked st event;
  match found with
  | None => Some st
  | Some e =>
      '(_, o, obj) ← entry_object st e;
      Some (if decide (ob_type obj = OBJECT_EVENT) then put_object st o (o_signaled obj false) else st)
  end.

Definition horizon_server_async_free_locked (st : wine_server) (port : option positive) : option wine_server :=
  match port with None => Some st | Some port => let_go st port end.

(** [horizon_async_finish_locked] with the actions [horizon_async_completion]
    gave: an APC for a thread, a packet on the held port, and an event. *)
Definition horizon_async_finish_locked (st : wine_server) (apc : option (Z * list Z)) (post : option (positive * (Z * Z * Z * Z))) (event : option Z) : option wine_server :=
  st ← match apc with
       | None => Some st
       | Some (tid, call) =>
           found ← find_thread st (ws_threads st) (fun t => ts_tid t =? tid);
           match found with
           | None => Some st
           | Some o => '(_, st) ← horizon_server_queue_user_apc_locked st o call; Some st
           end
       end;
  st ← match post with
       | None => Some st
       | Some (port, (key, value, status, total)) => horizon_server_post_completion_locked st port key value status total
       end;
  match event with
  | None => Some st
  | Some handle =>
      found ← horizon_server_find_handle_locked st handle;
      match found with
      | None => Some st
      | Some e =>
          '(_, o, obj) ← entry_object st e;
          if decide (ob_type obj = OBJECT_EVENT) then set_signaled st o obj else Some st
      end
  end.

(** The poller found operations ready for threads. *)
Definition sock_poll_ready (st : wine_server) (tids : list Z) : option wine_server := horizon_sync_notify_async_locked (s_ready st (tids ++ ws_ready st)).

(** ** Files and sections *)

(** A new object without a name. *)
Definition create_plain (st : wine_server) (type : horizon_server_object_type) (start : server_object -> server_object) : option reply :=
  '(e, st) ← horizon_server_create_handle_locked st type;
  match e with
  | None => Some (HORIZON_STATUS_NO_MEMORY, [0], st)
  | Some e => '(entry, o, obj) ← entry_object st e; Some (HORIZON_STATUS_SUCCESS, [he_handle entry], put_object st o (start obj))
  end.

Definition close_unused (st : wine_server) (fd : Z) : wine_server := if fd =? -1 then st else snd (outside st (Call_close fd)).

(** The end of [horizon_server_handle_create_file]: the descriptor becomes a
    file object, or is closed. *)
Definition create_file_object (st : wine_server) (fd : Z) (name : list Z) (options : Z) (is_dir : bool) : option reply :=
  '(status, fields, st) ← create_plain st OBJECT_FILE (fun obj => o_file obj (mk_object_file fd (-1) name options false is_dir));
  Some (status, fields, if nonzero status then close_unused st fd else st).

(** The sockets and the NSI device of [horizon_server_handle_open_file_object]. *)
Definition open_device (st : wine_server) (nsi : bool) (options : Z) : option reply :=
  create_plain st (if nsi then OBJECT_NSI else OBJECT_SOCK) (fun obj => o_file obj (mk_object_file (-1) (-1) [] options false false)).

(** The handle of a registry key that was opened, which is released again when
    there is no memory. *)
Definition open_key_object (st : wine_server) (key : positive) : option reply :=
  '(status, fields, st) ← create_plain st OBJECT_REG_KEY (fun obj => o_reg_key obj (Some key));
  Some (status, fields, if nonzero status then snd (outside st (Call_reg_release key)) else st).

(** The end of [horizon_server_build_shared_image]: a file object without a
    handle. *)
Definition shared_file_object (st : wine_server) (fd : Z) : option positive * wine_server :=
  let '(ok, st) := ws_alloc st in
  if negb ok then (None, snd (outside st (Call_close fd))) else
  let o := fresh (dom (ws_objects st)) in
  (Some o, put_object st o (o_file (new_object 0 OBJECT_FILE 1 (horizon_thread_init 0 0 0 0)) (mk_object_file fd (-1) [] 0 false false))).

(** The part of [horizon_server_handle_create_mapping] that makes the section of
    descriptor [fd], with the shared file of an image. *)
Definition create_mapping_object (st : wine_server) (name : horizon_object_name) (fd : Z) (file_name : list Z) (image : bool) (shared : option positive) : option reply :=
  '(status, e, st) ← (if bool_decide (on_name name = []) then
                        '(e, st) ← horizon_server_create_handle_locked st OBJECT_MAPPING;
                        Some (if decide (is_Some e) then HORIZON_STATUS_SUCCESS else HORIZON_STATUS_NO_MEMORY, e, st)
                      else horizon_server_create_named_object_handle_locked st OBJECT_MAPPING name);
  '(handle, st) ← match e with
                  | None => Some (0, st)
                  | Some e =>
                      '(entry, o, obj) ← entry_object st e;
                      Some (he_handle entry, if status =? HORIZON_STATUS_SUCCESS then put_object st o (o_mapping obj (mk_object_file fd (-1) file_name 0 false false) image shared) else st)
                  end;
  if status =? HORIZON_STATUS_SUCCESS then Some (status, [handle], st) else
  let st := close_unused st fd in
  st ← match shared with None => Some st | Some o => free_object st o end;
  Some (status, [handle], st).

(** From the shared file of an image on, which the descriptor [shared_fd] holds. *)
Definition create_mapping_end (st : wine_server) (name : horizon_object_name) (fd : Z) (file_name : list Z) (image : bool) (shared_fd : option Z) : option reply :=
  match shared_fd with
  | None => create_mapping_object st name fd file_name image None
  | Some sfd =>
      let '(shared, st) := shared_file_object st sfd in
      match shared with
      | None => Some (HORIZON_STATUS_NO_MEMORY, [0], close_unused st fd)
      | Some _ => create_mapping_object st name fd file_name image shared
      end
  end.

(** [horizon_server_handle_get_mapping_info]: memory for what it answers of an
    image, and a handle of the shared file of the section when the access of the
    request maps it. *)
Definition mapping_data (st : wine_server) (obj : server_object) : bool * wine_server := if ob_has_image obj then ws_alloc st else (true, st).

Definition mapping_shared_handle (st : wine_server) (mapping : Z) (maps : bool) : option reply :=
  found ← horizon_server_find_handle_locked st mapping;
  match found with
  | None => Some (HORIZON_STATUS_INVALID_HANDLE, [0], st)
  | Some e =>
      '(_, o, obj) ← entry_object st e;
      if negb (bool_decide (ob_type obj = OBJECT_MAPPING)) then Some (HORIZON_STATUS_OBJECT_TYPE_MISMATCH, [0], st) else
      let '(ok, st) := mapping_data st obj in
      if negb ok then Some (HORIZON_STATUS_NO_MEMORY, [0], st) else
      match (if maps then ob_mapping_shared_file obj else None) with
      | None => Some (HORIZON_STATUS_SUCCESS, [0], st)
      | Some file =>
          '(e, st) ← horizon_server_create_handle_for_object_locked st file;
          match e with
          | None => Some (HORIZON_STATUS_NO_MEMORY, [0], st)
          | Some e => entry ← ws_entries st !! e; Some (HORIZON_STATUS_SUCCESS, [he_handle entry], st)
          end
      end
  end.

(** ** Views of images *)

Definition is_view (pid base : Z) (v : horizon_image_view) : bool := (iv_pid v =? pid) && (iv_base v =? base).

Definition horizon_server_find_image_view_locked (st : wine_server) (pid base : Z) : option horizon_image_view := List.find (is_view pid base) (ws_views st).

Fixpoint take_view (p : horizon_image_view -> bool) (l : list horizon_image_view) : option (horizon_image_view * list horizon_image_view) :=
  match l with
  | [] => None
  | v :: l => if p v then Some (v, l) else '(x, l) ← take_view p l; Some (x, v :: l)
  end.

Definition horizon_server_remove_image_view_locked (st : wine_server) (pid base : Z) : option wine_server :=
  match take_view (is_view pid base) (ws_views st) with
  | None => Some st
  | Some (v, views) => drop_object (s_views st views) (Some (iv_mapping v))
  end.

Definition horizon_server_handle_map_image_view (st : wine_server) (conn : horizon_server_connection) (mapping base : Z) : option reply :=
  found ← horizon_server_find_handle_locked st mapping;
  match found with
  | None => Some (HORIZON_STATUS_INVALID_HANDLE, [], st)
  | Some e =>
      '(_, o, obj) ← entry_object st e;
      if negb (bool_decide (ob_type obj = OBJECT_MAPPING)) || negb (ob_has_image obj) then Some (HORIZON_STATUS_OBJECT_TYPE_MISMATCH, [], st) else
      let '(ok, st) := ws_alloc st in
      if negb ok then Some (HORIZON_STATUS_NO_MEMORY, [], st) else
      st ← horizon_server_remove_image_view_locked st (cn_pid conn) base;
      obj ← ws_objects st !! o;
      let st := put_object st o (o_refs obj (u32 (ob_refs obj + 1))) in
      Some (HORIZON_STATUS_SUCCESS, [], s_views st (mk_view (cn_pid conn) base o :: ws_views st))
  end.

(** ** Events of the running server *)

Inductive server_request :=
  | Rq_create_event (name : horizon_object_name) (manual_reset initial_state : bool)
  | Rq_create_mutex (name : horizon_object_name) (owned : bool)
  | Rq_create_semaphore (name : horizon_object_name) (initial max : Z)
  | Rq_create_timer (name : horizon_object_name) (manual : bool)
  | Rq_create_keyed_event (name : horizon_object_name)
  | Rq_create_completion (name : horizon_object_name)
  | Rq_open (type : horizon_server_object_type) (name : horizon_object_name)
  | Rq_event_op (handle : Z) (op : event_op)
  | Rq_query_event (handle : Z)
  | Rq_release_mutex (handle : Z)
  | Rq_query_mutex (handle : Z)
  | Rq_release_semaphore (handle count : Z)
  | Rq_query_semaphore (handle : Z)
  | Rq_set_timer (handle expire period now : Z)
  | Rq_cancel_timer (handle : Z)
  | Rq_get_timer_info (handle now : Z)
  | Rq_add_completion (handle ckey cvalue status information : Z)
  | Rq_remove_completion (handle : Z)
  | Rq_get_thread_completion
  | Rq_query_completion (handle : Z)
  | Rq_set_completion_info (handle chandle ckey : Z)
  | Rq_add_fd_completion (handle cvalue status information : Z) (async : bool)
  | Rq_set_fd_completion_mode (handle flags : Z)
  | Rq_close_handle (handle : Z) (cancelled : list Z)
  | Rq_dup_handle (handle access options : Z)
  | Rq_compare_objects (first second : Z)
  | Rq_allocate_reserve_object
  | Rq_open_process (pid access : Z)
  | Rq_new_thread (access affinity now : Z) (suspended is_system : bool)
  | Rq_init_thread (teb entry : Z)
  | Rq_resume_thread (handle : Z)
  | Rq_suspend_thread (handle : Z)
  | Rq_terminate_thread (handle exit_code : Z)
  | Rq_open_thread (tid access : Z)
  | Rq_get_next_thread (process last flags access : Z)
  | Rq_queue_apc (handle : Z) (data : list Z)
  | Rq_create_file (fd : Z) (name : list Z) (options : Z) (is_dir : bool)
  | Rq_open_device (nsi : bool) (options : Z)
  | Rq_open_key (key : positive)
  | Rq_set_registry_notification (event : Z) (pending : bool)
  | Rq_create_mapping (name : horizon_object_name) (fd : Z) (file_name : list Z) (image : bool) (shared_fd : option Z)
  | Rq_get_mapping_info (mapping : Z) (maps : bool)
  | Rq_map_image_view (mapping base : Z)
  | Rq_unmap_view (base : Z).

Definition horizon_server_handle_open_process (st : wine_server) (conn : horizon_server_connection) (pid access : Z) : option reply :=
  if negb (pid =? cn_pid conn) then Some (HORIZON_STATUS_INVALID_CID, [0], st) else
  '(e, st) ← horizon_server_create_handle_locked st OBJECT_PROCESS;
  match e with
  | None => Some (HORIZON_STATUS_NO_MEMORY, [0], st)
  | Some e =>
      st ← set_access st e (horizon_process_map_access access);
      entry ← ws_entries st !! e;
      Some (HORIZON_STATUS_SUCCESS, [he_handle entry], st)
  end.

Definition status_reply (r : option (Z * wine_server)) : option reply := '(status, st) ← r; Some (status, [], st).

(** The requests of [horizon_server_thread]. *)
Definition request_do (st : wine_server) (c : positive) (conn : horizon_server_connection) (r : server_request) : option reply :=
  match r with
  | Rq_create_event name manual_reset initial_state => horizon_server_handle_create_event st name manual_reset initial_state
  | Rq_create_mutex name owned => horizon_server_handle_create_mutex st conn name owned
  | Rq_create_semaphore name initial max => horizon_server_handle_create_semaphore st name initial max
  | Rq_create_timer name manual => horizon_server_handle_create_timer st name manual
  | Rq_create_keyed_event name => horizon_server_handle_create_keyed_event st name
  | Rq_create_completion name => horizon_server_handle_create_completion st name
  | Rq_open type name => handle_reply (horizon_server_open_named_object_handle st type name)
  | Rq_event_op handle op => horizon_server_handle_event_op st handle op
  | Rq_query_event handle => horizon_server_handle_query_event st handle
  | Rq_release_mutex handle => horizon_server_handle_release_mutex st conn handle
  | Rq_query_mutex handle => horizon_server_handle_query_mutex st conn handle
  | Rq_release_semaphore handle count => horizon_server_handle_release_semaphore st handle count
  | Rq_query_semaphore handle => horizon_server_handle_query_semaphore st handle
  | Rq_set_timer handle expire period now => horizon_server_handle_set_timer st handle expire period now
  | Rq_cancel_timer handle => horizon_server_handle_cancel_timer st handle
  | Rq_get_timer_info handle now => horizon_server_handle_get_timer_info st handle now
  | Rq_add_completion handle ckey cvalue status information => horizon_server_handle_add_completion st handle ckey cvalue status information
  | Rq_remove_completion handle => horizon_server_handle_remove_completion st c handle
  | Rq_get_thread_completion => horizon_server_handle_get_thread_completion st conn
  | Rq_query_completion handle => horizon_server_handle_query_completion st handle
  | Rq_set_completion_info handle chandle ckey => horizon_server_handle_set_completion_info st handle chandle ckey
  | Rq_add_fd_completion handle cvalue status information async => horizon_server_handle_add_fd_completion st handle cvalue status information async
  | Rq_set_fd_completion_mode handle flags => horizon_server_handle_set_fd_completion_mode st handle flags
  | Rq_close_handle handle cancelled => status_reply (horizon_server_close_object_handle st handle cancelled)
  | Rq_dup_handle handle access options => handle_reply (horizon_server_duplicate_object_handle st (Some c) handle access options)
  | Rq_compare_objects first second => status ← horizon_server_compare_object_handles st (Some c) first second; Some (status, [], st)
  | Rq_allocate_reserve_object => create_plain st OBJECT_RESERVE id
  | Rq_open_process pid access => horizon_server_handle_open_process st conn pid access
  | Rq_new_thread access affinity now suspended is_system => horizon_server_handle_new_thread st conn access affinity now suspended is_system
  | Rq_init_thread teb entry => done (init_thread_enter st c teb entry) []
  | Rq_resume_thread handle => horizon_server_handle_resume_thread st (Some c) handle
  | Rq_suspend_thread handle => horizon_server_handle_suspend_thread st (Some c) handle
  | Rq_terminate_thread handle exit_code => horizon_server_handle_terminate_thread st (Some c) handle exit_code
  | Rq_open_thread tid access => horizon_server_handle_open_thread st tid access
  | Rq_get_next_thread process last flags access => horizon_server_handle_get_next_thread st c conn process last flags access
  | Rq_queue_apc handle data => horizon_server_handle_queue_apc st (Some c) handle data
  | Rq_create_file fd name options is_dir => create_file_object st fd name options is_dir
  | Rq_open_device nsi options => open_device st nsi options
  | Rq_open_key key => open_key_object st key
  | Rq_set_registry_notification event pending => registry_notification st event pending
  | Rq_create_mapping name fd file_name image shared_fd => create_mapping_end st name fd file_name image shared_fd
  | Rq_get_mapping_info mapping maps => mapping_shared_handle st mapping maps
  | Rq_map_image_view mapping base => horizon_server_handle_map_image_view st conn mapping base
  | Rq_unmap_view base => done (horizon_server_remove_image_view_locked st (cn_pid conn) base) []
  end.

Inductive server_event :=
  | Ev_connect (c : positive)
  | Ev_init_first_thread (c : positive) (unix_pid affinity now : Z)
  | Ev_request (c : positive) (r : server_request)
  | Ev_start_gate (c : positive)
  | Ev_select (c : positive) (op : select_op) (alertable : bool) (timeout : Z) (contexts : bool) (counter now : Z)
  | Ev_turn (c : positive) (counter now : Z) (quit : bool)
  | Ev_end (c : positive) (now : Z)
  | Ev_direct (c : positive) (tid : Z)
  | Ev_direct_end (c : positive)
  | Ev_registry_signal (event : positive)
  | Ev_async_new (sock event : Z)
  | Ev_async_finish (apc : option (Z * list Z)) (post : option (positive * (Z * Z * Z * Z))) (event : option Z)
  | Ev_async_free (port : option positive)
  | Ev_sock_ready (tids : list Z)
  | Ev_sock_event (handle : Z).

(** What a client is told: nothing while its select sleeps. *)
Definition answer := option (Z * list Z).

Definition turn_answer (t : turn) : answer := match t with Turn_reply status => Some (status, []) | Turn_sleep => None end.
Definition silent (r : option wine_server) : option (answer * wine_server) := st ← r; Some (None, st).
Definition answered (r : option reply) : option (answer * wine_server) := '(status, fields, st) ← r; Some (Some (status, fields), st).
Definition turned (r : option (turn * wine_server)) : option (answer * wine_server) := '(t, st) ← r; Some (turn_answer t, st).

Definition server_do (st : wine_server) (ev : server_event) : option (answer * wine_server) :=
  match ev with
  | Ev_connect c => Some (None, put_conn st c (mk_connection 0 0 false None None 0))
  | Ev_init_first_thread c unix_pid affinity now => answered (horizon_server_handle_init_first_thread st c unix_pid affinity now)
  | Ev_request c r => conn ← ws_conns st !! c; answered (request_do st c conn r)
  | Ev_start_gate c => '(_, st) ← init_thread_turn st c; Some (None, st)
  | Ev_select c op alertable timeout contexts counter now => turned (horizon_server_handle_select (select_begin st c op alertable timeout contexts) c counter now false)
  | Ev_turn c counter now quit => turned (horizon_server_handle_select st c counter now quit)
  | Ev_end c now =>
      conn ← ws_conns st !! c;
      st ← match cn_thread conn with Some _ => horizon_server_end_thread_locked st c now | None => Some st end;
      Some (None, s_conns st (delete c (ws_conns st)))
  | Ev_direct c tid => '(_, st) ← horizon_sync_get_thread_locked st c tid; Some (None, st)
  | Ev_direct_end c => silent (horizon_sync_release_thread st c)
  | Ev_registry_signal event => silent (horizon_registry_signal st event)
  | Ev_async_new sock event => st ← async_new_port st sock; silent (async_new_event st event)
  | Ev_async_finish apc post event => silent (horizon_async_finish_locked st apc post event)
  | Ev_async_free port => silent (horizon_server_async_free_locked st port)
  | Ev_sock_ready tids => silent (sock_poll_ready st tids)
  | Ev_sock_event handle => '(_, st) ← horizon_server_signal_object_locked st None handle; Some (None, st)
  end.

(** *** Which events there are

    Times are positive and fit 64 bits, as the clocks do. A client makes [init_first_thread] its first call and goes on when it has
    its thread object; a thread makes one call at a time, through its pipe or directly; only what
    [horizon_server_sync_call] lists is called directly; a thread waits only for
    its own completion wait; other parts use what they hold. *)
Definition frame_tid (st : wine_server) (w : positive) : option Z := cn_tid <$> ws_conns st !! w.
Definition busy (st : wine_server) (tid : Z) : bool := existsb (fun x => bool_decide (frame_tid st (fst x) = Some tid)) (map_to_list (ws_frames st)).

Definition direct_request (r : server_request) : bool :=
  match r with
  | Rq_event_op _ _ | Rq_query_event _ | Rq_release_mutex _ | Rq_query_mutex _ | Rq_release_semaphore _ _ | Rq_query_semaphore _ => true
  | _ => false
  end.

Definition may_request (st : wine_server) (c : positive) : bool :=
  match ws_conns st !! c with
  | Some conn => nonzero (cn_tid conn) && bool_decide (is_Some (cn_thread conn)) && negb (busy st (cn_tid conn))
  | None => false
  end.

(** The handles a select waits for. *)
Definition op_handles (op : select_op) : list Z :=
  match op with
  | Select_wait handles _ => handles
  | Select_signal_and_wait wait _ => [wait]
  | _ => []
  end.

(** The completion waits of the thread. *)
Definition own_wait (st : wine_server) (tid : Z) (o : positive) : bool :=
  existsb (fun x => bool_decide (cn_completion_wait (snd x) = Some o) && (cn_tid (snd x) =? tid)) (map_to_list (ws_conns st)).

Definition own_handle (st : wine_server) (tid handle : Z) : bool :=
  match horizon_server_find_handle_locked st handle with
  | Some (Some e) =>
      match entry_object st e with
      | Some (_, o, obj) => negb (bool_decide (ob_type obj = OBJECT_COMPLETION_WAIT)) || own_wait st tid o
      | None => false
      end
  | _ => true
  end.

Definition own_waits (st : wine_server) (c : positive) (op : select_op) : bool :=
  match ws_conns st !! c with Some conn => forallb (own_handle st (cn_tid conn)) (op_handles op) | None => false end.

Definition is_s64 (x : Z) : bool := (-9223372036854775808 <=? x) && (x <? 9223372036854775808).
Definition is_clock (now : Z) : bool := (0 <? now) && is_s64 now.

Definition event_clock (ev : server_event) : bool :=
  match ev with
  | Ev_request _ (Rq_set_timer _ expire _ now) => is_clock now && is_s64 expire
  | Ev_request _ (Rq_get_timer_info _ now) | Ev_select _ _ _ _ _ _ now | Ev_turn _ _ now _ => is_clock now
  | _ => true
  end.

Definition server_allowed (st : wine_server) (ev : server_event) : bool :=
  event_clock ev &&
  match ev with
  | Ev_connect c => bool_decide (ws_conns st !! c = None) && bool_decide (ws_frames st !! c = None)
  | Ev_init_first_thread c _ _ _ =>
      match ws_conns st !! c with Some conn => negb (cn_direct conn) && (cn_tid conn =? 0) && bool_decide (cn_thread conn = None) && bool_decide (ws_frames st !! c = None) | None => false end
  | Ev_request c r =>
      may_request st c && match ws_conns st !! c with Some conn => negb (cn_direct conn) || direct_request r | None => false end
  | Ev_start_gate c => may_request st c
  | Ev_select c op _ _ _ _ _ => may_request st c && own_waits st c op
  | Ev_turn c _ _ _ => match ws_frames st !! c with Some f => own_waits st c (wt_op f) | None => false end
  | Ev_end c _ =>
      match ws_conns st !! c with
      | Some conn => negb (cn_direct conn) && negb (busy st (cn_tid conn)) && bool_decide (ws_frames st !! c = None) && (bool_decide (is_Some (cn_thread conn)) || bool_decide (cn_completion_wait conn = None))
      | None => false
      end
  | Ev_direct c tid => nonzero tid && bool_decide (ws_frames st !! c = None) && match ws_conns st !! c with Some conn => cn_direct conn | None => true end
  | Ev_direct_end c => bool_decide (ws_frames st !! c = None) && match ws_conns st !! c with Some conn => cn_direct conn | None => false end
  | Ev_registry_signal event => bool_decide (event ∈ ws_held st)
  | Ev_async_new _ _ | Ev_sock_ready _ | Ev_sock_event _ => true
  | Ev_async_finish _ post _ => match post with Some (port, _) => bool_decide (port ∈ ws_held st) | None => true end
  | Ev_async_free port => match port with Some port => bool_decide (port ∈ ws_held st) | None => true end
  end.
