(* ===== verification/ServerInv.v ===== *)
(** * The objects of the server stay well formed

    The invariant of [ServerObjects], [ServerSync], [ServerRequests] and
    [ServerSelect]: the count of every object is the number of its references
    (handles, objects, connections, waiters, other parts), the table of handles
    and its hash agree, the waiters of an object are the links of the selects,
    and lists and pointers have objects of the right types. [X] are references
    an operation has in hand. *)
From S2P Require Import Prelude Chain Completion Threads ServerObjects ServerSync ServerRequests ServerSelect.
Local Open Scope Z_scope.

(** ** References *)

Definition occ (o : positive) (l : list positive) : nat := countb (fun x => bool_decide (x = o)) l.

Definition opt_list {A} (x : option A) : list A := match x with Some y => [y] | None => [] end.

Definition object_refs (obj : server_object) : list positive := opt_list (ob_wait_port obj) ++ opt_list (ob_file_completion obj) ++ opt_list (ob_mapping_shared_file obj).
Definition connection_refs (conn : horizon_server_connection) : list positive := opt_list (cn_thread conn) ++ opt_list (cn_completion_wait conn).
Definition link_refs (l : positive * positive) : list positive := fst l :: (if decide (snd l = fst l) then [] else [snd l]).
Definition waiter_refs (f : horizon_sync_waiter) : list positive := wt_links f ≫= link_refs.
Definition entry_refs (entries : gmap positive horizon_server_handle_entry) (e : positive) : list positive := match entries !! e with Some en => [he_object en] | None => [] end.

Definition server_refs (st : wine_server) : list positive :=
  (ws_handles st ≫= entry_refs (ws_entries st)) ++ bind_map object_refs (ws_objects st) ++ bind_map connection_refs (ws_conns st) ++
  bind_map waiter_refs (ws_frames st) ++ ws_held st ++ (iv_mapping <$> ws_views st).

(** ** The invariant *)

Definition type_at (objs : gmap positive server_object) (o : positive) : option horizon_server_object_type := ob_type <$> objs !! o.

Record refs_ok (objs : gmap positive server_object) (R : list positive) : Prop := {
  ro_count : forall o obj, objs !! o = Some obj -> ob_refs obj = Z.of_nat (occ o R);
  ro_there : forall o, o ∈ R -> is_Some (objs !! o);
}.

Definition queue_ok (q : horizon_completion_queue) : Prop := exists ls xs, completion_queue_rep q ls xs /\ cq_depth q = Z.of_nat (length xs).

Definition payload_ok (obj : server_object) : Prop :=
  queue_ok (ob_completion obj) /\ (mx_count (ob_mutex obj) <> 0 -> mx_owner (ob_mutex obj) <> 0) /\
  (ts_terminated (ob_thread obj) = true -> ts_suspend (ob_thread obj) = 0) /\ 0 <= ob_timer_period obj.

Record object_ok (objs : gmap positive server_object) (obj : server_object) : Prop := {
  oo_port : forall p, ob_wait_port obj = Some p -> ob_type obj = OBJECT_COMPLETION_WAIT /\ type_at objs p = Some OBJECT_COMPLETION;
  oo_file : forall p, ob_file_completion obj = Some p -> ob_type obj ∈ [OBJECT_FILE; OBJECT_SOCK; OBJECT_NSI] /\ type_at objs p = Some OBJECT_COMPLETION;
  oo_shared : forall p, ob_mapping_shared_file obj = Some p -> ob_type obj = OBJECT_MAPPING /\ type_at objs p = Some OBJECT_FILE;
  oo_payload : payload_ok obj;
}.

Definition links_ok (objs : gmap positive server_object) (frames : gmap positive horizon_sync_waiter) : Prop :=
  forall src obj, objs !! src = Some obj -> NoDup (ob_waiters obj) /\
    forall w i, (w, i) ∈ ob_waiters obj <-> exists f, frames !! w = Some f /\ snd <$> wt_links f !! i = Some src.

Record table_ok (entries : gmap positive horizon_server_handle_entry) (handles : list positive) (hash : gmap Z (list positive)) (next : Z) : Prop := {
  ta_nodup : NoDup handles;
  ta_entry : forall e, e ∈ handles -> exists en, entries !! e = Some en /\ 0 < he_handle en <= next;
  ta_unique : forall e1 e2 en1 en2, e1 ∈ handles -> e2 ∈ handles -> entries !! e1 = Some en1 -> entries !! e2 = Some en2 -> he_handle en1 = he_handle en2 -> e1 = e2;
  ta_bucket : forall b, NoDup (default [] (hash !! b));
  ta_hash : forall b e, e ∈ default [] (hash !! b) <-> e ∈ handles /\ exists en, entries !! e = Some en /\ horizon_server_handle_bucket (he_handle en) = b;
}.

Record lists_ok (objs : gmap positive server_object) (timers threads : list positive) : Prop := {
  lo_timers : NoDup timers;
  lo_timer : forall t, t ∈ timers <-> exists obj, objs !! t = Some obj /\ ob_type obj = OBJECT_TIMER /\ ob_timer_when obj <> 0;
  lo_threads : NoDup threads;
  lo_thread : forall t, t ∈ threads <-> type_at objs t = Some OBJECT_THREAD;
}.

Record conns_ok (objs : gmap positive server_object) (conns : gmap positive horizon_server_connection) : Prop := {
  co_thread : forall c conn t, conns !! c = Some conn -> cn_thread conn = Some t -> type_at objs t = Some OBJECT_THREAD;
  co_wait : forall c conn o, conns !! c = Some conn -> cn_completion_wait conn = Some o -> type_at objs o = Some OBJECT_COMPLETION_WAIT;
  co_new : forall c conn, conns !! c = Some conn -> cn_tid conn = 0 \/ cn_direct conn = true -> cn_completion_wait conn = None;
  co_unique : forall c1 c2 conn1 conn2 o, conns !! c1 = Some conn1 -> conns !! c2 = Some conn2 ->
    cn_completion_wait conn1 = Some o -> cn_completion_wait conn2 = Some o -> c1 = c2;
}.

(** What link [i] of a select is to handle [i] of it. *)
Definition handle_ok (st : wine_server) (conn : horizon_server_connection) (h : Z) (o : positive) : Prop :=
  if decide (h = HORIZON_CURRENT_THREAD_HANDLE) then cn_thread conn = Some o else
  h <= ws_next_handle st /\ forall e en, e ∈ ws_handles st -> ws_entries st !! e = Some en -> he_handle en = h -> he_object en = o.

Record link_ok (st : wine_server) (conn : horizon_server_connection) (op : select_op) (i : nat) (l : positive * positive) : Prop := {
  lk_handle : exists h, op_handles op !! i = Some h /\ handle_ok st conn h (fst l);
  lk_source : exists obj, ws_objects st !! fst l = Some obj /\ link_source obj (fst l) = Some (snd l);
  lk_own : type_at (ws_objects st) (fst l) = Some OBJECT_COMPLETION_WAIT ->
    exists c conn', ws_conns st !! c = Some conn' /\ cn_completion_wait conn' = Some (fst l) /\ cn_tid conn' = cn_tid conn;
}.

Record frame_ok (st : wine_server) (w : positive) (f : horizon_sync_waiter) : Prop := {
  fo_conn : exists conn, ws_conns st !! w = Some conn /\ cn_tid conn <> 0 /\ is_Some (cn_thread conn) /\
    (forall i l, wt_links f !! i = Some l -> link_ok st conn (wt_op f) i l);
  fo_queued : wt_queued f = true -> length (wt_links f) = length (op_handles (wt_op f)) /\ queue_handles (wt_op f) = Some (op_handles (wt_op f));
}.

Record server_inv (st : wine_server) (X : list positive) : Prop := {
  si_refs : refs_ok (ws_objects st) (server_refs st ++ X);
  si_objects : forall o obj, ws_objects st !! o = Some obj -> object_ok (ws_objects st) obj;
  si_links : links_ok (ws_objects st) (ws_frames st);
  si_table : table_ok (ws_entries st) (ws_handles st) (ws_hash st) (ws_next_handle st);
  si_lists : lists_ok (ws_objects st) (ws_timers st) (ws_threads st);
  si_conns : conns_ok (ws_objects st) (ws_conns st);
  si_frames : forall w f, ws_frames st !! w = Some f -> frame_ok st w f;
  si_tids : forall w1 w2 f1 f2, ws_frames st !! w1 = Some f1 -> ws_frames st !! w2 = Some f2 -> frame_tid st w1 = frame_tid st w2 -> w1 = w2;
  si_waiting : NoDup (ws_waiting st) /\ forall w, w ∈ ws_waiting st <-> exists f, ws_frames st !! w = Some f /\ wt_queued f = true;
}.

(** ** Counting *)

Lemma occ_app o l1 l2 : occ o (l1 ++ l2) = (occ o l1 + occ o l2)%nat.
Proof. apply countb_app. Qed.

Lemma occ_perm o l1 l2 : l1 ≡ₚ l2 -> occ o l1 = occ o l2.
Proof. apply countb_perm. Qed.

Lemma occ_cons o x l : occ o (x :: l) = ((if decide (x = o) then 1 else 0) + occ o l)%nat.
Proof. unfold occ. rewrite countb_cons. by destruct (decide (x = o)) as [->|Hn]; [rewrite bool_decide_true|rewrite bool_decide_false]. Qed.

Lemma occ_elem o l : o ∈ l <-> (0 < occ o l)%nat.
Proof.
  induction l as [|x l IH]; [split; [by intros ?%elem_of_nil|unfold occ, countb; simpl; intros; lia]|].
  rewrite occ_cons, elem_of_cons. destruct (decide (x = o)) as [->|Hn]; [split; [intros _; lia|by left]|].
  rewrite IH. split; [intros [->|H]; [done|lia]|right; lia].
Qed.

Lemma refs_ok_perm objs R1 R2 : R1 ≡ₚ R2 -> refs_ok objs R1 -> refs_ok objs R2.
Proof.
  intros Hp [H1 H2]. split; [intros o obj Ho; by rewrite <- (occ_perm o _ _ Hp), (H1 o obj Ho)|intros o Ho; apply H2; by rewrite Hp].
Qed.

(** Two lists of references that differ by a permutation of their parts:
    solved by counting. *)
Lemma elem_occ_iff (l1 l2 : list positive) : (forall o, occ o l1 = occ o l2) -> forall o, o ∈ l1 <-> o ∈ l2.
Proof. intros H o. by rewrite !occ_elem, H. Qed.

Lemma refs_ok_occ objs R1 R2 : (forall o, occ o R1 = occ o R2) -> refs_ok objs R1 -> refs_ok objs R2.
Proof. intros Hp [H1 H2]. split; [intros o obj Ho; by rewrite <- Hp, (H1 o obj Ho)|intros o Ho; apply H2; by apply (elem_occ_iff R1 R2 Hp)]. Qed.

Lemma occ_bind_map_update {A} (f : A -> list positive) m i x y o :
  m !! i = Some x -> (occ o (bind_map f (<[i := y]> m)) + occ o (f x) = occ o (bind_map f m) + occ o (f y))%nat.
Proof. intros Hi. rewrite (occ_perm o _ _ (bind_map_update f m i x y Hi)), (occ_perm o _ _ (bind_map_delete f m i x Hi)), !occ_app. lia. Qed.

Lemma occ_bind_map_new {A} (f : A -> list positive) m i x o : m !! i = None -> occ o (bind_map f (<[i := x]> m)) = (occ o (f x) + occ o (bind_map f m))%nat.
Proof. intros Hi. by rewrite (occ_perm o _ _ (bind_map_new f m i x Hi)), occ_app. Qed.

Lemma occ_bind_map_delete {A} (f : A -> list positive) m i x o : m !! i = Some x -> occ o (bind_map f m) = (occ o (f x) + occ o (bind_map f (delete i m)))%nat.
Proof. intros Hi. by rewrite (occ_perm o _ _ (bind_map_delete f m i x Hi)), occ_app. Qed.

Lemma occ_server st o :
  occ o (server_refs st) = (occ o (ws_handles st ≫= entry_refs (ws_entries st)) + occ o (bind_map object_refs (ws_objects st)) + occ o (bind_map connection_refs (ws_conns st)) +
    occ o (bind_map waiter_refs (ws_frames st)) + occ o (ws_held st) + occ o (iv_mapping <$> ws_views st))%nat.
Proof. unfold server_refs. rewrite !occ_app. lia. Qed.

(** Where a reference comes from. *)
Lemma ref_object st o obj p : ws_objects st !! o = Some obj -> p ∈ object_refs obj -> p ∈ server_refs st.
Proof. intros Ho Hp. unfold server_refs. rewrite !elem_of_app. right; left. apply elem_of_bind_map. eauto. Qed.

Lemma ref_conn st c conn p : ws_conns st !! c = Some conn -> p ∈ connection_refs conn -> p ∈ server_refs st.
Proof. intros Ho Hp. unfold server_refs. rewrite !elem_of_app. right; right; left. apply elem_of_bind_map. eauto. Qed.

Lemma ref_frame st w f i l p : ws_frames st !! w = Some f -> wt_links f !! i = Some l -> p ∈ link_refs l -> p ∈ server_refs st.
Proof.
  intros Ho Hl Hp. unfold server_refs. rewrite !elem_of_app. right; right; right; left. apply elem_of_bind_map. exists w, f. split; [done|].
  unfold waiter_refs. apply list_elem_of_bind. exists l. split; [done|]. by eapply list_elem_of_lookup_2.
Qed.

Lemma ref_entry st e en : e ∈ ws_handles st -> ws_entries st !! e = Some en -> he_object en ∈ server_refs st.
Proof.
  intros He Hen. unfold server_refs. rewrite elem_of_app. left. apply list_elem_of_bind. exists e. split; [|done]. unfold entry_refs. rewrite Hen. by apply list_elem_of_singleton.
Qed.

Lemma link_refs_src (l : positive * positive) : snd l ∈ link_refs l.
Proof. unfold link_refs. destruct (decide _) as [->|]; set_solver. Qed.

Lemma link_refs_obj (l : positive * positive) : fst l ∈ link_refs l.
Proof. unfold link_refs. set_solver. Qed.

(** ** Objects that stay *)

(** The objects of [R] keep their types and the ports they wait on. *)
Definition stable (objs objs' : gmap positive server_object) (p : positive) : Prop :=
  forall obj, objs !! p = Some obj -> exists obj', objs' !! p = Some obj' /\ ob_type obj' = ob_type obj /\ ob_wait_port obj' = ob_wait_port obj.

Lemma stable_type objs objs' p t : stable objs objs' p -> type_at objs p = Some t -> type_at objs' p = Some t.
Proof.
  intros Hs. unfold type_at. destruct (objs !! p) as [obj|] eqn:E; [|done]. destruct (Hs obj E) as (obj' & -> & Ht & _). simpl. by rewrite Ht.
Qed.

Lemma stable_type_back objs objs' p t : stable objs objs' p -> is_Some (objs !! p) -> type_at objs' p = Some t -> type_at objs p = Some t.
Proof. intros Hs [obj Ho]. unfold type_at. destruct (Hs obj Ho) as (obj' & -> & Ht & _). rewrite Ho. simpl. by rewrite Ht. Qed.

Lemma object_refs_in obj p : ob_wait_port obj = Some p \/ ob_file_completion obj = Some p \/ ob_mapping_shared_file obj = Some p <-> p ∈ object_refs obj.
Proof.
  unfold object_refs. rewrite !elem_of_app. unfold opt_list.
  destruct (ob_wait_port obj), (ob_file_completion obj), (ob_mapping_shared_file obj); rewrite ?list_elem_of_singleton, ?elem_of_nil; naive_solver.
Qed.

Lemma object_ok_stable objs objs' obj : (forall p, p ∈ object_refs obj -> stable objs objs' p) -> object_ok objs obj -> object_ok objs' obj.
Proof.
  intros Hs [H1 H2 H3 H4]. split; [intros p Hp; split; [by (apply (H1 p) || apply (H2 p) || apply (H3 p))|]..|done].
  - eapply stable_type; [apply Hs, object_refs_in; by left|]. by apply H1.
  - eapply stable_type; [apply Hs, object_refs_in; by right; left|]. by apply H2.
  - eapply stable_type; [apply Hs, object_refs_in; by right; right|]. by apply H3.
Qed.

Lemma conns_ok_stable objs objs' conns : (forall p, p ∈ bind_map connection_refs conns -> stable objs objs' p) -> conns_ok objs conns -> conns_ok objs' conns.
Proof.
  intros Hs [H1 H2 H3 H4]. split; [| |done|done].
  - intros c conn t Hc Ht. eapply stable_type; [|by eapply H1]. apply Hs, elem_of_bind_map. exists c, conn. split; [done|]. unfold connection_refs. rewrite Ht. set_solver.
  - intros c conn o Hc Ht. eapply stable_type; [|by eapply H2]. apply Hs, elem_of_bind_map. exists c, conn. split; [done|]. unfold connection_refs. rewrite Ht. set_solver.
Qed.

Lemma link_source_kin obj obj' o : ob_type obj' = ob_type obj -> ob_wait_port obj' = ob_wait_port obj -> link_source obj' o = link_source obj o.
Proof. unfold link_source. by intros -> ->. Qed.

(** A link stays right when its object, the table and the connections do. *)
Lemma link_ok_stable st st' conn op i l :
  stable (ws_objects st) (ws_objects st') (fst l) -> ws_conns st' = ws_conns st -> ws_next_handle st <= ws_next_handle st' ->
  (forall e en h, op_handles op !! i = Some h -> h <= ws_next_handle st -> e ∈ ws_handles st' -> ws_entries st' !! e = Some en -> he_handle en = h ->
    exists e2 en2, e2 ∈ ws_handles st /\ ws_entries st !! e2 = Some en2 /\ he_handle en2 = h /\ he_object en2 = he_object en) ->
  link_ok st conn op i l -> link_ok st' conn op i l.
Proof.
  intros Hs Hc Hn Hh [(h & Hh1 & Hh2) (obj & Ho & Hsrc) Hown]. destruct (Hs obj Ho) as (obj' & Ho' & Ht & Hp). split.
  - exists h. split; [done|]. unfold handle_ok in *. destruct (decide _); [done|]. destruct Hh2 as [Hle Hen]. split; [lia|].
    intros e en He Hen1 Hhe. destruct (Hh e en h Hh1 Hle He Hen1 Hhe) as (e2 & en2 & He2 & Hen2 & Hhe2 & <-). by apply (Hen e2 en2).
  - exists obj'. split; [done|]. by rewrite (link_source_kin obj obj').
  - intros Hty. rewrite Hc. apply Hown. eapply stable_type_back; eauto.
Qed.

(** ** Changes of objects *)

Record same_rest (st st' : wine_server) : Prop := {
  sr_entries : ws_entries st' = ws_entries st;
  sr_handles : ws_handles st' = ws_handles st;
  sr_hash : ws_hash st' = ws_hash st;
  sr_next : ws_next_handle st' = ws_next_handle st;
  sr_conns : ws_conns st' = ws_conns st;
  sr_frames : ws_frames st' = ws_frames st;
  sr_waiting : ws_waiting st' = ws_waiting st;
}.

Lemma same_rest_refl st : same_rest st st.
Proof. by split. Qed.

Lemma same_rest_trans st1 st2 st3 : same_rest st1 st2 -> same_rest st2 st3 -> same_rest st1 st3.
Proof. intros [] []. split; congruence. Qed.

Lemma inv_change_objects st st' X X' :
  server_inv st X -> same_rest st st' ->
  refs_ok (ws_objects st') (server_refs st' ++ X') ->
  (forall o obj, ws_objects st' !! o = Some obj -> object_ok (ws_objects st') obj) ->
  links_ok (ws_objects st') (ws_frames st) ->
  lists_ok (ws_objects st') (ws_timers st') (ws_threads st') ->
  (forall p, p ∈ server_refs st -> stable (ws_objects st) (ws_objects st') p) ->
  server_inv st' X'.
Proof.
  intros I [He Hh Hha Hn Hc Hf Hw] HR HO HL HT HS. split; [done|done|by rewrite Hf| |done| | | |].
  - rewrite He, Hh, Hha, Hn. apply I.
  - rewrite Hc. apply (conns_ok_stable (ws_objects st)); [|apply I]. intros p Hp. apply HS. unfold server_refs. set_solver.
  - intros w f Hwf. rewrite Hf in Hwf. destruct (si_frames _ _ I w f Hwf) as [(conn & H1 & H2 & H3 & H4) H5]. split; [|done].
    exists conn. rewrite Hc. split_and!; [done..|]. intros i l Hl. eapply link_ok_stable; [|done|lia| |by apply H4].
    + apply HS. eapply ref_frame; [done|done|apply link_refs_obj].
    + rewrite He, Hh. intros e en h _ _ Hin Hen Hhe. by exists e, en.
  - unfold frame_tid. rewrite Hf, Hc. intros w1 w2 f1 f2 H1 H2. by apply (si_tids _ _ I w1 w2 f1 f2).
  - rewrite Hw, Hf. apply I.
Qed.

(** What an object has besides what the structure is about. *)
Record same_shape (obj obj' : server_object) : Prop := {
  sh_type : ob_type obj' = ob_type obj;
  sh_refs : ob_refs obj' = ob_refs obj;
  sh_waiters : ob_waiters obj' = ob_waiters obj;
  sh_port : ob_wait_port obj' = ob_wait_port obj;
  sh_file : ob_file_completion obj' = ob_file_completion obj;
  sh_shared : ob_mapping_shared_file obj' = ob_mapping_shared_file obj;
}.

Lemma same_shape_refl obj : same_shape obj obj.
Proof. by split. Qed.

Lemma same_shape_trans o1 o2 o3 : same_shape o1 o2 -> same_shape o2 o3 -> same_shape o1 o3.
Proof. intros [] []. split; congruence. Qed.

Lemma same_shape_refs obj obj' : same_shape obj obj' -> object_refs obj' = object_refs obj.
Proof. intros [_ _ _ H1 H2 H3]. unfold object_refs. by rewrite H1, H2, H3. Qed.

Lemma occ_objects_update st st' o obj obj' p :
  ws_objects st !! o = Some obj -> ws_objects st' = <[o := obj']> (ws_objects st) -> same_rest st st' -> ws_held st' = ws_held st -> ws_views st' = ws_views st ->
  (occ p (server_refs st') + occ p (object_refs obj) = occ p (server_refs st) + occ p (object_refs obj'))%nat.
Proof.
  intros Ho Ho' [He Hh _ _ Hc Hf _] Hhe Hv. rewrite !occ_server, He, Hh, Hc, Hf, Hhe, Hv, Ho'.
  pose proof (occ_bind_map_update object_refs (ws_objects st) o obj obj' p Ho). lia.
Qed.

Lemma stable_insert objs o obj obj' p :
  objs !! o = Some obj -> ob_type obj' = ob_type obj -> ob_wait_port obj' = ob_wait_port obj -> stable objs (<[o := obj']> objs) p.
Proof.
  intros Ho Ht Hp x Hx. destruct (decide (p = o)) as [->|Hne].
  - rewrite Ho in Hx. injection Hx as <-. exists obj'. by rewrite lookup_insert_eq.
  - exists x. by rewrite lookup_insert_ne.
Qed.

Lemma links_ok_insert objs frames o obj obj' :
  objs !! o = Some obj -> ob_waiters obj' = ob_waiters obj -> links_ok objs frames -> links_ok (<[o := obj']> objs) frames.
Proof.
  intros Ho Hw HL src x Hx. destruct (decide (src = o)) as [->|Hne].
  - rewrite lookup_insert_eq in Hx. injection Hx as <-. rewrite Hw. by apply HL.
  - rewrite lookup_insert_ne in Hx by done. by apply HL.
Qed.

Lemma objects_ok_insert objs o obj obj' :
  objs !! o = Some obj -> ob_type obj' = ob_type obj -> ob_wait_port obj' = ob_wait_port obj ->
  (forall o obj, objs !! o = Some obj -> object_ok objs obj) -> object_ok objs obj' ->
  forall p x, <[o := obj']> objs !! p = Some x -> object_ok (<[o := obj']> objs) x.
Proof.
  intros Ho Ht Hp HO Hok p x Hx.
  assert (object_ok objs x) as Hx'.
  { destruct (decide (p = o)) as [->|Hne]; [rewrite lookup_insert_eq in Hx; by injection Hx as <-|]. rewrite lookup_insert_ne in Hx by done. by eapply HO. }
  eapply object_ok_stable; [|done]. intros q _. by apply (stable_insert objs o obj obj').
Qed.

Lemma lists_ok_insert objs timers threads o obj obj' :
  objs !! o = Some obj -> ob_type obj' = ob_type obj -> (ob_type obj = OBJECT_TIMER -> ob_timer_when obj' <> 0 <-> ob_timer_when obj <> 0) ->
  lists_ok objs timers threads -> lists_ok (<[o := obj']> objs) timers threads.
Proof.
  intros Ho Ht Hwhen [H1 H2 H3 H4]. split; [done| |done|].
  - intros t. rewrite H2. destruct (decide (t = o)) as [->|Hne]; [rewrite lookup_insert_eq, Ho|by rewrite lookup_insert_ne].
    split; intros (x & [= <-] & Hx & Hw); eexists; (split; [done|]); (split; [congruence|]); apply Hwhen; congruence.
  - intros t. rewrite H4. unfold type_at. destruct (decide (t = o)) as [->|Hne]; [rewrite lookup_insert_eq, Ho; simpl; by rewrite Ht|by rewrite lookup_insert_ne].
Qed.

(** The count of one object changes with the references in hand; its contents
    may change. *)
Lemma inv_put st X X' o obj obj' n :
  server_inv st X -> ws_objects st !! o = Some obj -> same_shape obj (o_refs obj' (ob_refs obj)) -> ob_refs obj' = n -> payload_ok obj' ->
  (ob_type obj = OBJECT_TIMER -> ob_timer_when obj' <> 0 <-> ob_timer_when obj <> 0) ->
  (forall p, p <> o -> occ p X' = occ p X) -> n - ob_refs obj = Z.of_nat (occ o X') - Z.of_nat (occ o X) -> (forall p, p ∈ X' -> p = o \/ p ∈ X) ->
  server_inv (put_object st o obj') X'.
Proof.
  intros I Ho Hs Hn Hpay Hwhen HX HXo HXin. set (st' := put_object st o obj').
  assert (ob_type obj' = ob_type obj) as Ht by (by destruct Hs). assert (ob_wait_port obj' = ob_wait_port obj) as Hp by (by destruct Hs).
  assert (forall p, occ p (server_refs st') = occ p (server_refs st)) as Hocc.
  { intros p. pose proof (occ_objects_update st st' o obj obj' p Ho eq_refl ltac:(by split) eq_refl eq_refl) as H.
    assert (object_refs obj' = object_refs obj) as Hr by exact (same_shape_refs obj _ Hs). rewrite Hr in H. lia. }
  destruct (si_refs _ _ I) as [R1 R2].
  apply (inv_change_objects st st' X X' I); [by split| | | | |].
  - split.
    + intros p x Hx. rewrite occ_app, Hocc. simpl in Hx. destruct (decide (p = o)) as [->|Hne].
      * rewrite lookup_insert_eq in Hx. injection Hx as <-. pose proof (R1 o obj Ho) as H. rewrite occ_app in H. lia.
      * rewrite lookup_insert_ne in Hx by done. rewrite (R1 p x Hx), occ_app, (HX p Hne). done.
    + intros p Hin. simpl. destruct (decide (p = o)) as [->|Hne]; [rewrite lookup_insert_eq; eauto|]. rewrite lookup_insert_ne by done. apply R2.
      rewrite elem_of_app in *. destruct Hin as [Hin|Hin]; [left; by apply (elem_occ_iff _ _ Hocc)|]. right. by destruct (HXin p Hin).
  - apply (objects_ok_insert _ o obj obj' Ho Ht Hp (si_objects _ _ I)).
    destruct (si_objects _ _ I o obj Ho) as [A1 A2 A3 _]. destruct Hs as [S1 S2 S3 S4 S5 S6]. simpl in *. split; [rewrite S1, S4|rewrite S1, S5|rewrite S1, S6|]; done.
  - apply (links_ok_insert _ _ o obj obj' Ho); [by destruct Hs|apply I].
  - apply (lists_ok_insert _ _ _ o obj obj' Ho Ht Hwhen), I.
  - intros p _. by apply (stable_insert _ o obj obj').
Qed.

(** Room for [k] more references of every object. *)
Definition refs_room (st : wine_server) (k : Z) : Prop := forall o obj, ws_objects st !! o = Some obj -> ob_refs obj + k < 4294967296.

Lemma refs_nonneg st X o obj : server_inv st X -> ws_objects st !! o = Some obj -> 0 <= ob_refs obj.
Proof. intros I Ho. rewrite (ro_count _ _ (si_refs _ _ I) o obj Ho). lia. Qed.

Lemma inv_put_payload st X o obj obj' :
  server_inv st X -> ws_objects st !! o = Some obj -> same_shape obj obj' -> payload_ok obj' ->
  (ob_type obj = OBJECT_TIMER -> ob_timer_when obj' <> 0 <-> ob_timer_when obj <> 0) -> server_inv (put_object st o obj') X.
Proof.
  intros I Ho Hs Hp Hw. apply (inv_put st X X o obj obj' (ob_refs obj) I Ho); [|by destruct Hs|done|done|done|lia|by right].
  by destruct Hs.
Qed.

Lemma payload_refs obj n : payload_ok obj -> payload_ok (o_refs obj n).
Proof. done. Qed.

Lemma inv_ref_up st X o obj :
  server_inv st X -> ws_objects st !! o = Some obj -> ob_refs obj + 1 < 4294967296 -> server_inv (put_object st o (o_refs obj (u32 (ob_refs obj + 1)))) (o :: X).
Proof.
  intros I Ho Hr. pose proof (refs_nonneg _ _ _ _ I Ho). eapply (inv_put st X (o :: X) o obj _ _ I Ho); [by destruct obj|done| |done| | |].
  - apply payload_refs, (si_objects _ _ I o obj Ho).
  - intros p Hne. rewrite occ_cons, decide_False by done. done.
  - simpl. rewrite u32_small by (unfold is_u32; lia). rewrite occ_cons, decide_True by done. lia.
  - intros p. rewrite elem_of_cons. naive_solver.
Qed.

Lemma inv_ref_pos st X o obj : server_inv st (o :: X) -> ws_objects st !! o = Some obj -> 0 < ob_refs obj.
Proof. intros I Ho. rewrite (ro_count _ _ (si_refs _ _ I) o obj Ho), occ_app, occ_cons, decide_True by done. lia. Qed.

Lemma inv_ref_there st X o : server_inv st (o :: X) -> exists obj, ws_objects st !! o = Some obj.
Proof. intros I. destruct (ro_there _ _ (si_refs _ _ I) o) as [obj Ho]; [set_solver|]. by exists obj. Qed.

Lemma inv_ref_down st X o obj :
  server_inv st (o :: X) -> ws_objects st !! o = Some obj -> ob_refs obj < 4294967296 -> server_inv (put_object st o (o_refs obj (u32 (ob_refs obj - 1)))) X.
Proof.
  intros I Ho Hr. pose proof (inv_ref_pos _ _ _ _ I Ho) as Hpos. eapply (inv_put st (o :: X) X o obj _ _ I Ho); [by destruct obj|done| |done| | |].
  - apply payload_refs, (si_objects _ _ I o obj Ho).
  - intros p Hne. rewrite occ_cons, decide_False by done. done.
  - simpl. rewrite u32_small by (unfold is_u32; lia). rewrite occ_cons, decide_True by done. lia.
  - intros p. rewrite elem_of_cons. naive_solver.
Qed.

Lemma refs_room_le st k1 k2 : refs_room st k1 -> k2 <= k1 -> refs_room st k2.
Proof. intros H Hle o obj Ho. specialize (H o obj Ho). lia. Qed.

(** The references in hand may be reordered. *)
Lemma inv_perm st X X' : server_inv st X -> (forall o, occ o X = occ o X') -> server_inv st X'.
Proof.
  intros [R O L T LI C F TI W] HX. split; [|done..]. eapply refs_ok_occ; [|exact R]. intros o. rewrite !occ_app, HX. done.
Qed.

(** ** Freeing *)

Lemma elem_of_remove_first x l l' : remove_first x l = Some l' -> l ≡ₚ x :: l'.
Proof.
  revert l'. induction l as [|y l IH]; intros l' H; [done|]. cbn [remove_first] in H. destruct (decide (x = y)) as [->|Hne]; [by injection H as ->|].
  destruct (remove_first x l) as [r|] eqn:E; [|done]. injection H as <-. rewrite (IH r eq_refl). constructor.
Qed.

Lemma remove_first_some x l : x ∈ l -> exists l', remove_first x l = Some l'.
Proof.
  induction l as [|y l IH]; intros H; [by apply elem_of_nil in H|]. cbn [remove_first]. destruct (decide (x = y)); [eauto|].
  apply elem_of_cons in H as [H|H]; [done|]. destruct (IH H) as [l' ->]. eauto.
Qed.

Lemma remove_first_none x l : remove_first x l = None -> x ∉ l.
Proof. intros H Hin. destruct (remove_first_some x l Hin) as [l' E]. congruence. Qed.

Lemma unlink_from_spec x l : NoDup l -> NoDup (unlink_from x l) /\ forall y, y ∈ unlink_from x l <-> y ∈ l /\ y <> x.
Proof.
  intros Hn. unfold unlink_from. destruct (remove_first x l) as [l'|] eqn:E; simpl.
  - pose proof (elem_of_remove_first x l l' E) as Hp. rewrite Hp in Hn. apply NoDup_cons in Hn as [Hx Hn']. split; [done|].
    intros y. rewrite Hp, elem_of_cons. split; [intros H; split; [by right|intros ->; done]|intros [[->|H] Hne]; done].
  - split; [done|]. intros y. split; [|tauto]. intros H. split; [done|]. intros ->. by eapply remove_first_none.
Qed.

Lemma unlink_from_occ x l o : x ∈ l -> (occ o (unlink_from x l) + (if decide (x = o) then 1 else 0) = occ o l)%nat.
Proof.
  intros Hin. unfold unlink_from. destruct (remove_first_some x l Hin) as [l' E]. rewrite E. simpl.
  rewrite (occ_perm o _ _ (elem_of_remove_first x l l' E)), occ_cons. lia.
Qed.

(** An object nothing refers to is taken out. *)
Definition without (st : wine_server) (o : positive) (obj : server_object) : wine_server :=
  let st := if decide (ob_type obj = OBJECT_TIMER) then horizon_server_unlink_timer_locked st o else st in
  let st := if decide (ob_type obj = OBJECT_THREAD) then s_threads st (unlink_from o (ws_threads st)) else st in
  s_objects st (delete o (ws_objects st)).

Lemma without_rest st o obj : same_rest st (without st o obj) /\ ws_objects (without st o obj) = delete o (ws_objects st) /\ ws_held (without st o obj) = ws_held st /\ ws_views (without st o obj) = ws_views st.
Proof. unfold without. by destruct (decide (ob_type obj = OBJECT_TIMER)), (decide (ob_type obj = OBJECT_THREAD)). Qed.

Lemma without_lists st X o obj : server_inv st X -> ws_objects st !! o = Some obj -> lists_ok (delete o (ws_objects st)) (ws_timers (without st o obj)) (ws_threads (without st o obj)).
Proof.
  intros I Ho. destruct (si_lists _ _ I) as [T1 T2 H1 H2].
  assert (forall t, (exists x, delete o (ws_objects st) !! t = Some x /\ ob_type x = OBJECT_TIMER /\ ob_timer_when x <> 0) <-> t ∈ ws_timers st /\ t <> o) as Ht.
  { intros t. rewrite T2. split.
    - intros (x & Hx & Hx2). apply lookup_delete_Some in Hx as [Hne Hx]. split; [by exists x|done].
    - intros [(x & Hx & Hx2) Hne]. exists x. by rewrite lookup_delete_ne. }
  assert (forall t, type_at (delete o (ws_objects st)) t = Some OBJECT_THREAD <-> t ∈ ws_threads st /\ t <> o) as Hth.
  { intros t. rewrite H2. unfold type_at. destruct (decide (t = o)) as [->|Hne]; [rewrite lookup_delete_eq; split; [done|tauto]|rewrite lookup_delete_ne by done; tauto]. }
  assert (ob_type obj <> OBJECT_TIMER -> o ∉ ws_timers st) as Hnt by (intros Hn Hin; apply T2 in Hin as (x & Hx & Hty & _); congruence).
  assert (ob_type obj <> OBJECT_THREAD -> o ∉ ws_threads st) as Hnth by (intros Hn Hin; apply H2 in Hin; unfold type_at in Hin; rewrite Ho in Hin; simpl in Hin; congruence).
  assert (NoDup (ws_timers (without st o obj)) /\ forall y, y ∈ ws_timers (without st o obj) <-> y ∈ ws_timers st /\ y <> o) as [A1 A2].
  { unfold without. destruct (decide (ob_type obj = OBJECT_TIMER)) as [E|E], (decide (ob_type obj = OBJECT_THREAD)); simpl; try (by apply unlink_from_spec);
      (split; [done|]); intros y; (split; [|tauto]); intros Hy; (split; [done|]); intros ->; by apply Hnt. }
  assert (NoDup (ws_threads (without st o obj)) /\ forall y, y ∈ ws_threads (without st o obj) <-> y ∈ ws_threads st /\ y <> o) as [B1 B2].
  { unfold without. destruct (decide (ob_type obj = OBJECT_TIMER)) as [E|E], (decide (ob_type obj = OBJECT_THREAD)); simpl; try (by apply unlink_from_spec);
      (split; [done|]); intros y; (split; [|tauto]); intros Hy; (split; [done|]); intros ->; by apply Hnth. }
  split; [done| |done|]; intros t; [rewrite A2; by rewrite Ht|rewrite B2; by rewrite Hth].
Qed.

Lemma inv_without st X o obj :
  server_inv st X -> ws_objects st !! o = Some obj -> ob_refs obj = 0 -> server_inv (without st o obj) (object_refs obj ++ X).
Proof.
  intros I Ho Hz. destruct (without_rest st o obj) as (Hr & Hobjs & Hheld & Hviews). destruct (si_refs _ _ I) as [R1 R2].
  assert (o ∉ server_refs st ++ X) as Hno by (rewrite occ_elem; pose proof (R1 o obj Ho); lia).
  assert (o ∉ server_refs st) as Hno' by (intros Hin; apply Hno, elem_of_app; by left).
  assert (forall p, p ∈ server_refs st -> stable (ws_objects st) (delete o (ws_objects st)) p) as Hst.
  { intros p Hp x Hx. exists x. rewrite lookup_delete_ne by (intros ->; done). done. }
  assert (forall p, occ p (server_refs st ++ X) = occ p (server_refs (without st o obj) ++ object_refs obj ++ X)) as Hocc.
  { intros p. rewrite !occ_app, !occ_server, Hobjs, Hheld, Hviews. destruct Hr as [-> -> _ _ -> -> _].
    rewrite (occ_bind_map_delete object_refs (ws_objects st) o obj p Ho). lia. }
  apply (inv_change_objects st _ X _ I Hr).
  - apply (refs_ok_occ _ _ _ Hocc). rewrite Hobjs. split.
    + intros p x Hx. apply lookup_delete_Some in Hx as [_ Hx]. by apply R1.
    + intros p Hp. rewrite lookup_delete_ne by (intros ->; done). by apply R2.
  - rewrite Hobjs. intros p x Hx. apply lookup_delete_Some in Hx as [_ Hx]. eapply object_ok_stable; [|by apply (si_objects _ _ I p x)].
    intros q Hq. apply Hst. by eapply ref_object.
  - rewrite Hobjs. intros src x Hx. apply lookup_delete_Some in Hx as [_ Hx]. by apply (si_links _ _ I).
  - rewrite Hobjs. by apply (without_lists st X).
  - rewrite Hobjs. exact Hst.
Qed.

(** What freeing leaves: fewer objects with smaller counts, the rest as it was. *)
Record shrinks (st st' : wine_server) : Prop := {
  sk_rest : same_rest st st';
  sk_objects : forall p obj', ws_objects st' !! p = Some obj' -> exists obj, ws_objects st !! p = Some obj /\ obj' = o_refs obj (ob_refs obj') /\ ob_refs obj' <= ob_refs obj;
  sk_held : ws_held st' = ws_held st;
  sk_views : ws_views st' = ws_views st;
  sk_ready : ws_ready st' = ws_ready st;
  sk_next_tid : ws_next_tid st' = ws_next_tid st;
}.

Lemma o_refs_same obj : o_refs obj (ob_refs obj) = obj.
Proof. by destruct obj. Qed.

Lemma shrinks_refl st : shrinks st st.
Proof. split; [by split| |done..]. intros p obj Hp. exists obj. by rewrite o_refs_same. Qed.

Lemma shrinks_trans st1 st2 st3 : shrinks st1 st2 -> shrinks st2 st3 -> shrinks st1 st3.
Proof.
  intros [A1 A2 A3 A4 A5 A6] [B1 B2 B3 B4 B5 B6]. split; [by eapply same_rest_trans| |congruence..].
  intros p o3 H3. destruct (B2 p o3 H3) as (o2 & H2 & E3 & L3). destruct (A2 p o2 H2) as (o1 & H1 & E2 & L2). exists o1. split; [done|]. split; [|lia].
  rewrite E3, E2. by destruct o1.
Qed.

Lemma shrinks_room st st' k : shrinks st st' -> refs_room st k -> refs_room st' k.
Proof. intros S H o obj' Ho. destruct (sk_objects _ _ S o obj' Ho) as (obj & Hobj & _ & Hle). specialize (H o obj Hobj). lia. Qed.

Lemma inv_outside st X c : server_inv st X -> server_inv (snd (outside st c)) X.
Proof. intros [R O L T LI C F TI W]. split; try done. intros w f Hw. destruct (F w f Hw) as [(conn & H1 & H2 & H3 & H4) H5]. split; [|done]. exists conn. split_and!; [done..|].
  intros i l Hl. destruct (H4 i l Hl) as [A B D]. by split. Qed.

Lemma shrinks_outside st c : shrinks st (snd (outside st c)).
Proof. split; [by split| |done..]. intros p obj Hp. exists obj. by rewrite o_refs_same. Qed.

Lemma release_outside_ok st X obj : server_inv st X -> server_inv (release_outside st obj) X /\ shrinks st (release_outside st obj).
Proof.
  intros I. unfold release_outside. set (s1 := match ob_reg_key obj with Some key => _ | None => _ end).
  assert (server_inv s1 X /\ shrinks st s1) as [I1 S1] by (unfold s1; destruct (ob_reg_key obj); [split; [by apply inv_outside|apply shrinks_outside]|split; [done|apply shrinks_refl]]).
  set (s2 := if fi_fd (ob_file obj) =? -1 then s1 else _).
  assert (server_inv s2 X /\ shrinks st s2) as [I2 S2].
  { unfold s2. destruct (fi_fd (ob_file obj) =? -1); [done|]. split; [by apply inv_outside|]. eapply shrinks_trans; [done|apply shrinks_outside]. }
  destruct (fi_peer_fd (ob_file obj) =? -1); [done|]. split; [by apply inv_outside|]. eapply shrinks_trans; [done|apply shrinks_outside].
Qed.

Lemma queue_ok_clear q : queue_ok q -> exists q', horizon_completion_clear (S (size (cl_heap (cq_list q)))) q = Some q'.
Proof.
  intros (ls & xs & Hr & _). destruct (completion_clear_rep (S (size (cl_heap (cq_list q)))) q ls xs Hr) as (q' & Hq & _); [|by exists q'].
  pose proof (cq_rep_list _ _ _ Hr) as Hl. pose proof (rep_length _ _ _ Hl) as Hlen. rewrite <- Hlen.
  assert (length ls <= size (cl_heap (cq_list q)))%nat; [|lia]. rewrite <- size_dom.
  rewrite <- (size_list_to_set (C := gset positive) ls) by apply (rep_nodup _ _ _ Hl). apply subseteq_size.
  intros l Hin. apply elem_of_list_to_set in Hin. apply list_elem_of_lookup in Hin as [i Hi].
  destruct (lookup_lt_is_Some_2 xs i) as [x Hx]; [rewrite <- Hlen; by eapply lookup_lt_Some|].
  apply elem_of_dom. rewrite (rep_node _ _ _ Hl i l x Hi Hx). eauto.
Qed.

(** How deep freeing an object can go. *)
Definition rank (t : horizon_server_object_type) : nat :=
  match t with OBJECT_MAPPING => 3 | OBJECT_FILE | OBJECT_SOCK | OBJECT_NSI | OBJECT_COMPLETION_WAIT => 2 | _ => 1 end.

Definition frees (free : wine_server -> positive -> option wine_server) (n : nat) : Prop :=
  forall st X o obj, server_inv st X -> refs_room st 0 -> ws_objects st !! o = Some obj -> ob_refs obj = 0 -> (rank (ob_type obj) <= n)%nat ->
    exists st', free st o = Some st' /\ server_inv st' X /\ shrinks st st'.

Lemma drop_with_ok free n st X o :
  frees free n -> server_inv st (opt_list o ++ X) -> refs_room st 0 -> (forall p, o = Some p -> forall t, type_at (ws_objects st) p = Some t -> (rank t <= n)%nat) ->
  exists st', drop_with free st o = Some st' /\ server_inv st' X /\ shrinks st st'.
Proof.
  intros Hf I Hroom Hrank. destruct o as [o|]; [|exists st; split; [done|]; split; [done|apply shrinks_refl]].
  change (opt_list (Some o) ++ X) with (o :: X) in I. destruct (inv_ref_there _ _ _ I) as [obj Ho]. pose proof (inv_ref_pos _ _ _ _ I Ho) as Hpos.
  pose proof (Hroom o obj Ho) as Hr. pose proof (inv_ref_down _ _ _ _ I Ho ltac:(lia)) as I'. cbn [drop_with]. rewrite Ho. cbn [mbind option_bind].
  set (st1 := put_object st o (o_refs obj (u32 (ob_refs obj - 1)))) in *.
  assert (u32 (ob_refs obj - 1) = ob_refs obj - 1) as Hu by (apply u32_small; unfold is_u32; lia).
  assert (shrinks st st1) as S1.
  { split; [by split| |done..]. intros p x Hx. simpl in Hx. destruct (decide (p = o)) as [->|Hne].
    - rewrite lookup_insert_eq in Hx. injection Hx as <-. exists obj. split; [done|]. split; [by destruct obj|]. simpl. lia.
    - rewrite lookup_insert_ne in Hx by done. exists x. split; [done|]. by rewrite o_refs_same. }
  destruct (nonzero (u32 (ob_refs obj - 1))) eqn:Hz; [by exists st1|].
  destruct (Hf st1 X o (o_refs obj (u32 (ob_refs obj - 1))) I') as (st2 & Hst2 & I2 & S2).
  - by eapply shrinks_room.
  - simpl. by rewrite lookup_insert_eq.
  - simpl. unfold nonzero in Hz. apply negb_false_iff, Z.eqb_eq in Hz. done.
  - simpl. apply (Hrank o eq_refl). unfold type_at. by rewrite Ho.
  - exists st2. split; [done|]. split; [done|]. by eapply shrinks_trans.
Qed.

Lemma type_at_shrinks st st' p t : shrinks st st' -> type_at (ws_objects st') p = Some t -> type_at (ws_objects st) p = Some t.
Proof.
  intros S. unfold type_at. destruct (ws_objects st' !! p) as [obj'|] eqn:E; [|done]. simpl. intros [= <-].
  destruct (sk_objects _ _ S p obj' E) as (obj & -> & -> & _). done.
Qed.

Lemma shrinks_without st o obj : shrinks st (without st o obj).
Proof.
  destruct (without_rest st o obj) as (Hr & Hobjs & Hh & Hv). split; [done| |done|done| |].
  - rewrite Hobjs. intros p x Hx. apply lookup_delete_Some in Hx as [_ Hx]. exists x. by rewrite o_refs_same.
  - unfold without. by destruct (decide (ob_type obj = OBJECT_TIMER)), (decide (ob_type obj = OBJECT_THREAD)).
  - unfold without. by destruct (decide (ob_type obj = OBJECT_TIMER)), (decide (ob_type obj = OBJECT_THREAD)).
Qed.

Lemma free_object_eq fuel st o :
  horizon_server_free_object (S fuel) st o =
    (obj ← ws_objects st !! o;
     _ ← horizon_completion_clear (S (size (cl_heap (cq_list (ob_completion obj))))) (ob_completion obj);
     st ← drop_with (horizon_server_free_object fuel) (without st o obj) (ob_wait_port obj);
     st ← drop_with (horizon_server_free_object fuel) st (ob_file_completion obj);
     st ← drop_with (horizon_server_free_object fuel) st (ob_mapping_shared_file obj);
     Some (release_outside st obj)).
Proof. reflexivity. Qed.

Lemma child_rank objs obj p : object_ok objs obj -> p ∈ object_refs obj -> forall t, type_at objs p = Some t -> (S (rank t) <= rank (ob_type obj))%nat.
Proof.
  intros [H1 H2 H3 _] Hp t Ht. apply object_refs_in in Hp as [Hp|[Hp|Hp]].
  - destruct (H1 p Hp) as [-> E]. rewrite E in Ht. injection Ht as <-. done.
  - destruct (H2 p Hp) as [Hty E]. rewrite E in Ht. injection Ht as <-. rewrite !elem_of_cons in Hty. destruct Hty as [-> |[-> |[-> |H]]]; [done..|]. by apply elem_of_nil in H.
  - destruct (H3 p Hp) as [-> E]. rewrite E in Ht. injection Ht as <-. done.
Qed.

Lemma free_object_ok fuel : frees (horizon_server_free_object fuel) fuel.
Proof.
  induction fuel as [|fuel IH]; intros st X o obj I Hroom Ho Hz Hrank; [destruct (ob_type obj); simpl in Hrank; lia|].
  rewrite free_object_eq, Ho. cbn [mbind option_bind].
  destruct (queue_ok_clear (ob_completion obj)) as [q' Hq']; [apply (si_objects _ _ I o obj Ho)|]. rewrite Hq'. cbn [mbind option_bind].
  pose proof (inv_without st X o obj I Ho Hz) as I0. pose proof (shrinks_without st o obj) as S0. set (st0 := without st o obj) in *.
  pose proof (si_objects _ _ I o obj Ho) as Hok.
  assert (forall st', shrinks st st' -> forall p, p ∈ object_refs obj -> forall t, type_at (ws_objects st') p = Some t -> (rank t <= fuel)%nat) as Hchild.
  { intros st' S' p Hp t Ht. apply (type_at_shrinks st st' p t S') in Ht. pose proof (child_rank _ _ p Hok Hp t Ht). lia. }
  unfold object_refs in I0. rewrite <- !(assoc (++)) in I0.
  destruct (drop_with_ok _ fuel st0 _ (ob_wait_port obj) IH I0) as (st1 & E1 & I1 & S1); [by eapply shrinks_room| |].
  { intros p Hp t. apply Hchild; [done|]. apply object_refs_in. by left. }
  rewrite E1. cbn [mbind option_bind]. assert (shrinks st st1) as S01 by (by eapply shrinks_trans).
  destruct (drop_with_ok _ fuel st1 _ (ob_file_completion obj) IH I1) as (st2 & E2 & I2 & S2); [by eapply shrinks_room| |].
  { intros p Hp t. apply Hchild; [done|]. apply object_refs_in. by right; left. }
  rewrite E2. cbn [mbind option_bind]. assert (shrinks st st2) as S02 by (by eapply shrinks_trans).
  destruct (drop_with_ok _ fuel st2 X (ob_mapping_shared_file obj) IH I2) as (st3 & E3 & I3 & S3); [by eapply shrinks_room| |].
  { intros p Hp t. apply Hchild; [done|]. apply object_refs_in. by right; right. }
  rewrite E3. cbn [mbind option_bind]. destruct (release_outside_ok st3 X obj I3) as [I4 S4].
  exists (release_outside st3 obj). split; [done|]. split; [done|]. do 2 (eapply shrinks_trans; [done|]). done.
Qed.

Lemma rank_bound t : (rank t <= FREE_DEPTH)%nat.
Proof. destruct t; simpl; unfold FREE_DEPTH; lia. Qed.

(** Dropping a reference in hand. *)
Lemma drop_ok st X o : server_inv st (opt_list o ++ X) -> refs_room st 0 -> exists st', drop_object st o = Some st' /\ server_inv st' X /\ shrinks st st'.
Proof. intros I Hr. apply (drop_with_ok _ FREE_DEPTH); [apply free_object_ok|done|done|]. intros p _ t _. apply rank_bound. Qed.

Lemma free_ok st X o obj : server_inv st X -> refs_room st 0 -> ws_objects st !! o = Some obj -> ob_refs obj = 0 ->
  exists st', free_object st o = Some st' /\ server_inv st' X /\ shrinks st st'.
Proof. intros I Hr Ho Hz. by eapply (free_object_ok FREE_DEPTH st X o obj), rank_bound. Qed.

(** ** The table of handles *)

Record same_objects (st st' : wine_server) : Prop := {
  so_objects : ws_objects st' = ws_objects st;
  so_timers : ws_timers st' = ws_timers st;
  so_threads : ws_threads st' = ws_threads st;
  so_conns : ws_conns st' = ws_conns st;
  so_frames : ws_frames st' = ws_frames st;
  so_waiting : ws_waiting st' = ws_waiting st;
}.

Lemma inv_change_table st st' X X' :
  server_inv st X -> same_objects st st' ->
  table_ok (ws_entries st') (ws_handles st') (ws_hash st') (ws_next_handle st') ->
  refs_ok (ws_objects st') (server_refs st' ++ X') -> ws_next_handle st <= ws_next_handle st' ->
  (forall e en, e ∈ ws_handles st' -> ws_entries st' !! e = Some en -> he_handle en <= ws_next_handle st ->
    exists en2, e ∈ ws_handles st /\ ws_entries st !! e = Some en2 /\ he_handle en2 = he_handle en /\ he_object en2 = he_object en) ->
  server_inv st' X'.
Proof.
  intros I [Ho Ht Hth Hc Hf Hw] HT HR Hn Hold. split; [done|rewrite Ho; apply I|rewrite Ho, Hf; apply I|done|rewrite Ho, Ht, Hth; apply I|rewrite Ho, Hc; apply I| | |rewrite Hw, Hf; apply I].
  - intros w f Hwf. rewrite Hf in Hwf. destruct (si_frames _ _ I w f Hwf) as [(conn & H1 & H2 & H3 & H4) H5]. split; [|done].
    exists conn. rewrite Hc. split_and!; [done..|]. intros i l Hl. eapply link_ok_stable; [|done|lia| |by apply H4].
    + rewrite Ho. intros obj Hobj. by exists obj.
    + intros e en h _ Hle Hin Hen Hhe. destruct (Hold e en Hin Hen ltac:(lia)) as (en2 & A & B & C & D). exists e, en2. by rewrite C.
  - unfold frame_tid. rewrite Hf, Hc. intros w1 w2 f1 f2 H1 H2. by apply (si_tids _ _ I w1 w2 f1 f2).
Qed.

Lemma find_in_bucket_ok entries l h :
  (forall e, e ∈ l -> is_Some (entries !! e)) ->
  exists r, find_in_bucket entries l h = Some r /\
    match r with
    | Some e => e ∈ l /\ exists en, entries !! e = Some en /\ he_handle en = h
    | None => forall e en, e ∈ l -> entries !! e = Some en -> he_handle en <> h
    end.
Proof.
  induction l as [|e l IH]; intros Hl; [exists None; split; [done|]; intros e en H; by apply elem_of_nil in H|].
  destruct (Hl e) as [en Hen]; [set_solver|]. cbn [find_in_bucket]. rewrite Hen. cbn [mbind option_bind].
  destruct (Z.eqb_spec (he_handle en) h) as [Heq|Hne]; [exists (Some e); split; [done|]; split; [set_solver|]; by exists en|].
  destruct IH as (r & Hr & Hspec); [intros x Hx; apply Hl; set_solver|]. exists r. split; [done|]. destruct r as [e'|].
  - destruct Hspec as [Hin Hx]. split; [set_solver|done].
  - intros e' en' Hin Hen'. apply elem_of_cons in Hin as [->|Hin]; [congruence|]. by eapply Hspec.
Qed.

(** The entry of handle [h], if it is one. *)
Definition handle_is (st : wine_server) (h : Z) (r : option positive) : Prop :=
  match r with
  | Some e => e ∈ ws_handles st /\ exists en, ws_entries st !! e = Some en /\ he_handle en = h
  | None => forall e en, e ∈ ws_handles st -> ws_entries st !! e = Some en -> he_handle en <> h
  end.

Lemma find_handle_ok st X h : server_inv st X -> exists r, horizon_server_find_handle_locked st h = Some r /\ handle_is st h r.
Proof.
  intros I. pose proof (si_table _ _ I) as T. unfold horizon_server_find_handle_locked, bucket_of.
  destruct (find_in_bucket_ok (ws_entries st) (default [] (ws_hash st !! horizon_server_handle_bucket h)) h) as (r & Hr & Hspec).
  - intros e He. apply (ta_hash _ _ _ _ T) in He as [_ (en & -> & _)]. eauto.
  - exists r. split; [done|]. destruct r as [e|].
    + destruct Hspec as [Hin Hx]. split; [|done]. by apply (ta_hash _ _ _ _ T) in Hin as [Hin _].
    + intros e en Hin Hen Hh. apply (Hspec e en); [|done|done]. apply (ta_hash _ _ _ _ T). split; [done|]. exists en. by rewrite Hh.
Qed.

Lemma find_handle_is st X h e en : server_inv st X -> e ∈ ws_handles st -> ws_entries st !! e = Some en -> he_handle en = h -> horizon_server_find_handle_locked st h = Some (Some e).
Proof.
  intros I Hin Hen Hh. destruct (find_handle_ok st X h I) as ([e'|] & -> & Hspec); [|by destruct (Hspec e en)].
  destruct Hspec as [Hin' (en' & Hen' & Hh')]. f_equal; f_equal. apply (ta_unique _ _ _ _ (si_table _ _ I) e' e en' en); congruence || done.
Qed.

Lemma entry_ok st X e : server_inv st X -> e ∈ ws_handles st -> exists en obj, entry_object st e = Some (en, he_object en, obj) /\ ws_entries st !! e = Some en /\ ws_objects st !! he_object en = Some obj.
Proof.
  intros I Hin. destruct (ta_entry _ _ _ _ (si_table _ _ I) e Hin) as (en & Hen & _).
  destruct (ro_there _ _ (si_refs _ _ I) (he_object en)) as [obj Ho]; [apply elem_of_app; left; by eapply ref_entry|].
  exists en, obj. unfold entry_object. rewrite Hen. cbn [mbind option_bind]. by rewrite Ho.
Qed.

Lemma entry_refs_others entries e en l o : e ∉ l -> occ o (l ≫= entry_refs (<[e := en]> entries)) = occ o (l ≫= entry_refs entries).
Proof.
  induction l as [|x l IH]; intros Hn; [done|]. rewrite !bind_cons, !occ_app, IH by set_solver. f_equal. unfold entry_refs. rewrite lookup_insert_ne by set_solver. done.
Qed.

(** A new entry of the table, whose handle is the newest. *)
Record linked_to (st st' : wine_server) (e : positive) (en : horizon_server_handle_entry) : Prop := {
  li_entries : ws_entries st' = <[e := en]> (ws_entries st);
  li_handles : ws_handles st' = e :: ws_handles st;
  li_hash : ws_hash st' = <[horizon_server_handle_bucket (he_handle en) := e :: bucket_of st (he_handle en)]> (ws_hash st);
  li_next : ws_next_handle st' = he_handle en;
  li_objects : same_objects st st';
  li_held : ws_held st' = ws_held st;
  li_views : ws_views st' = ws_views st;
}.

Lemma linked_refs st st' e en o : linked_to st st' e en -> ws_entries st !! e = None -> e ∉ ws_handles st -> occ o (server_refs st') = (occ o [he_object en] + occ o (server_refs st))%nat.
Proof.
  intros [He Hh _ _ [Ho _ _ Hc Hf _] Hhe Hv] Hnew Hnin. rewrite !occ_server, Ho, Hc, Hf, Hhe, Hv, He, Hh, bind_cons, occ_app.
  unfold entry_refs at 1. rewrite lookup_insert_eq. rewrite entry_refs_others by done. lia.
Qed.

Lemma linked_table st X st' e en : server_inv st X -> linked_to st st' e en -> ws_entries st !! e = None -> e ∉ ws_handles st -> ws_next_handle st < he_handle en -> 0 < he_handle en ->
  table_ok (ws_entries st') (ws_handles st') (ws_hash st') (ws_next_handle st').
Proof.
  intros I [He Hh Hha Hn _ _ _] Hnew Hnin Hlt Hpos. destruct (si_table _ _ I) as [T1 T2 T3 T4 T5]. rewrite He, Hh, Hha, Hn.
  assert (forall x, x ∈ ws_handles st -> <[e := en]> (ws_entries st) !! x = ws_entries st !! x) as Hold by (intros x Hx; rewrite lookup_insert_ne; [done|intros ->; done]).
  split.
  - by constructor.
  - intros x Hx. apply elem_of_cons in Hx as [->|Hx]; [exists en; rewrite lookup_insert_eq; split; [done|lia]|].
    destruct (T2 x Hx) as (en' & Hen' & Hb). exists en'. rewrite Hold by done. split; [done|lia].
  - assert (forall x en', x ∈ ws_handles st -> ws_entries st !! x = Some en' -> he_handle en' <> he_handle en) as Hnh by (intros x en' Hx Hen'; destruct (T2 x Hx) as (en2 & Hen2 & Hb); rewrite Hen2 in Hen'; injection Hen' as ->; lia).
    intros x y enx eny Hx Hy Hex Hey Heq. apply elem_of_cons in Hx as [->|Hx], Hy as [->|Hy]; [done| | |].
    + rewrite lookup_insert_eq in Hex. injection Hex as <-. rewrite Hold in Hey by done. by destruct (Hnh y eny).
    + rewrite lookup_insert_eq in Hey. injection Hey as <-. rewrite Hold in Hex by done. by destruct (Hnh x enx).
    + rewrite Hold in Hex, Hey by done. by apply (T3 x y enx eny).
  - intros b. destruct (decide (b = horizon_server_handle_bucket (he_handle en))) as [->|Hb]; [rewrite lookup_insert_eq|by rewrite lookup_insert_ne].
    simpl. constructor; [|apply T4]. unfold bucket_of. intros Hin. by apply T5 in Hin as [Hin _].
  - intros b x. destruct (decide (x = e)) as [->|Hxe].
    + rewrite lookup_insert_eq. destruct (decide (b = horizon_server_handle_bucket (he_handle en))) as [->|Hb].
      * rewrite lookup_insert_eq. simpl. split; [intros _; split; [set_solver|by exists en]|set_solver].
      * rewrite lookup_insert_ne by done. split; [intros Hin; by apply T5 in Hin as [Hin _]|]. intros [_ (en' & [= <-] & Hb')]. done.
    + rewrite (lookup_insert_ne (ws_entries st)) by congruence. rewrite elem_of_cons. assert (x ∈ default [] (<[horizon_server_handle_bucket (he_handle en):=e :: bucket_of st (he_handle en)]> (ws_hash st) !! b) <-> x ∈ default [] (ws_hash st !! b)) as ->.
      { destruct (decide (b = horizon_server_handle_bucket (he_handle en))) as [->|Hb]; [rewrite lookup_insert_eq|by rewrite lookup_insert_ne]. simpl. unfold bucket_of. rewrite elem_of_cons. naive_solver. }
      rewrite T5. naive_solver.
Qed.

Lemma inv_linked st X st' e en : server_inv st (he_object en :: X) -> linked_to st st' e en -> ws_entries st !! e = None -> ws_next_handle st < he_handle en -> 0 < he_handle en -> server_inv st' X.
Proof.
  intros I L Hnew Hlt Hpos.
  assert (e ∉ ws_handles st) as Hnin by (intros Hin; destruct (ta_entry _ _ _ _ (si_table _ _ I) e Hin) as (x & Hx & _); congruence).
  apply (inv_change_table st st' (he_object en :: X) X I (li_objects _ _ _ _ L)).
  - by eapply linked_table.
  - destruct (li_objects _ _ _ _ L) as [-> _ _ _ _ _]. eapply refs_ok_occ; [|apply (si_refs _ _ I)]. intros o.
    rewrite !occ_app, (linked_refs st st' e en o L Hnew Hnin), (occ_cons o (he_object en) X). rewrite (occ_cons o (he_object en) []). change (occ o []) with 0%nat. lia.
  - rewrite (li_next _ _ _ _ L). lia.
  - destruct L as [-> -> _ _ _ _ _]. intros x enx Hx Hex Hle. apply elem_of_cons in Hx as [->|Hx].
    + rewrite lookup_insert_eq in Hex. injection Hex as <-. lia.
    + rewrite lookup_insert_ne in Hex by (intros ->; done). by exists enx.
Qed.

Lemma bind_perm_occ {A} (f : A -> list positive) l1 l2 o : l1 ≡ₚ l2 -> occ o (l1 ≫= f) = occ o (l2 ≫= f).
Proof. intros Hp. apply occ_perm. by rewrite Hp. Qed.

Lemma remove_first_nodup x l l' : NoDup l -> remove_first x l = Some l' -> NoDup l' /\ forall y, y ∈ l' <-> y ∈ l /\ y <> x.
Proof. intros Hn E. pose proof (unlink_from_spec x l Hn) as H. unfold unlink_from in H. by rewrite E in H. Qed.

(** An entry that left the table; it is still in memory. *)
Record unlinked (st st' : wine_server) (e : positive) : Prop := {
  un_objects : same_objects st st';
  un_entries : ws_entries st' = ws_entries st;
  un_handles : forall x, x ∈ ws_handles st' <-> x ∈ ws_handles st /\ x <> e;
  un_next : ws_next_handle st' = ws_next_handle st;
  un_held : ws_held st' = ws_held st;
  un_views : ws_views st' = ws_views st;
  un_ready : ws_ready st' = ws_ready st;
  un_next_tid : ws_next_tid st' = ws_next_tid st;
}.

Lemma unlink_ok st X e en : server_inv st X -> e ∈ ws_handles st -> ws_entries st !! e = Some en ->
  exists st', horizon_server_unlink_handle_locked st e = Some st' /\ server_inv st' (he_object en :: X) /\ unlinked st st' e.
Proof.
  intros I Hin Hen. destruct (si_table _ _ I) as [T1 T2 T3 T4 T5]. set (b := horizon_server_handle_bucket (he_handle en)).
  assert (e ∈ bucket_of st (he_handle en)) as Hb by (apply T5; split; [done|by exists en]).
  destruct (remove_first_some e _ Hin) as [hs Hhs]. destruct (remove_first_some e _ Hb) as [bs Hbs].
  pose proof (remove_first_nodup e _ hs T1 Hhs) as [Hn1 Hs1]. pose proof (remove_first_nodup e _ bs (T4 b) Hbs) as [Hn2 Hs2].
  unfold horizon_server_unlink_handle_locked. rewrite Hen. cbn [mbind option_bind]. rewrite Hhs. cbn [mbind option_bind]. rewrite Hbs. cbn [mbind option_bind].
  eexists. split; [done|]. set (st' := s_table _ _ _ _). split; [|by split].
  apply (inv_change_table st st' X _ I); [by split| | |done|].
  - split; simpl; [done| | | |].
    + intros x Hx. apply Hs1 in Hx as [Hx _]. by apply T2.
    + intros x y enx eny Hx Hy. apply Hs1 in Hx as [Hx _], Hy as [Hy _]. by apply T3.
    + intros b'. destruct (decide (b' = b)) as [->|Hne]; [by rewrite lookup_insert_eq|]. by rewrite lookup_insert_ne.
    + intros b' x. rewrite Hs1. destruct (decide (b' = b)) as [->|Hne].
      * rewrite lookup_insert_eq. simpl. rewrite Hs2. unfold bucket_of. rewrite T5. unfold b. naive_solver.
      * rewrite lookup_insert_ne by done. rewrite T5. split; [|naive_solver]. intros [Hx (enx & Hex & Hbx)]. split; [|by exists enx]. split; [done|]. intros ->. unfold b in Hne. congruence.
  - simpl. eapply refs_ok_occ; [|apply (si_refs _ _ I)]. intros o. rewrite !occ_app, !occ_server. simpl.
    rewrite (bind_perm_occ _ _ _ o (elem_of_remove_first e _ hs Hhs)), bind_cons, occ_app. unfold entry_refs at 1. rewrite Hen, occ_cons, (occ_cons o (he_object en) X). change (occ o []) with 0%nat. lia.
  - simpl. intros x enx Hx Hex _. apply Hs1 in Hx as [Hx _]. by exists enx.
Qed.

Lemma inv_free_entry st X e : server_inv st X -> e ∉ ws_handles st -> server_inv (free_entry st e) X.
Proof.
  intros I Hnin. set (st' := free_entry st e).
  assert (forall x, x ∈ ws_handles st -> ws_entries st' !! x = ws_entries st !! x) as Hold by (intros x Hx; simpl; rewrite lookup_delete_ne; [done|intros ->; done]).
  apply (inv_change_table st st' X X I); [by split| | |done|].
  - destruct (si_table _ _ I) as [T1 T2 T3 T4 T5]. split; [done| | |done|].
    + intros x Hx. rewrite Hold by done. by apply T2.
    + intros x y enx eny Hx Hy. rewrite !Hold by done. by apply T3.
    + intros b x. change (ws_hash st') with (ws_hash st). change (ws_handles st') with (ws_handles st). rewrite T5.
      split; (intros [Hx Hex]; split; [done|]); [by rewrite (Hold x Hx)|by rewrite (Hold x Hx) in Hex].
  - eapply refs_ok_occ; [|apply (si_refs _ _ I)]. intros o. rewrite !occ_app, !occ_server. do 6 f_equal. apply occ_perm. simpl.
    assert (forall l, e ∉ l -> l ≫= entry_refs (ws_entries st) = l ≫= entry_refs (delete e (ws_entries st))) as Hl; [|by rewrite <- Hl].
    induction l as [|x l IH]; intros Hx; [done|]. rewrite !bind_cons, IH by set_solver. f_equal. unfold entry_refs. by rewrite lookup_delete_ne by set_solver.
  - intros x enx Hx Hex _. exists enx. rewrite Hold in Hex by done. done.
Qed.

Lemma inv_set_access st X e en access : server_inv st X -> ws_entries st !! e = Some en ->
  exists st', set_access st e access = Some st' /\ st' = s_entries st (<[e := mk_entry (he_handle en) access (he_object en)]> (ws_entries st)) /\ server_inv st' X.
Proof.
  intros I Hen. unfold set_access. rewrite Hen. cbn [mbind option_bind]. eexists. split; [done|]. split; [done|].
  set (en' := mk_entry (he_handle en) access (he_object en)). set (st' := s_entries _ _).
  assert (forall x enx, ws_entries st' !! x = Some enx -> exists en2, ws_entries st !! x = Some en2 /\ he_handle en2 = he_handle enx /\ he_object en2 = he_object enx) as Hback.
  { intros x enx Hx. simpl in Hx. destruct (decide (x = e)) as [->|Hne]; [rewrite lookup_insert_eq in Hx; injection Hx as <-; by exists en|]. rewrite lookup_insert_ne in Hx by done. by exists enx. }
  assert (forall x en2, ws_entries st !! x = Some en2 -> exists enx, ws_entries st' !! x = Some enx /\ he_handle en2 = he_handle enx /\ he_object en2 = he_object enx) as Hforth.
  { intros x en2 Hx. simpl. destruct (decide (x = e)) as [->|Hne]; [rewrite lookup_insert_eq; rewrite Hen in Hx; injection Hx as <-; by exists en'|]. rewrite lookup_insert_ne by done. by exists en2. }
  apply (inv_change_table st st' X X I); [by split| | |done|].
  - destruct (si_table _ _ I) as [T1 T2 T3 T4 T5]. split; [done| | |done|].
    + intros x Hx. destruct (T2 x Hx) as (en2 & Hx2 & Hb). destruct (Hforth x en2 Hx2) as (enx & Hex & Hh & _). exists enx. rewrite <- Hh. done.
    + intros x y enx eny Hx Hy Hex Hey Heq. destruct (Hback x enx Hex) as (a & Ha & Hah & _), (Hback y eny Hey) as (b & Hb & Hbh & _). apply (T3 x y a b); congruence || done.
    + intros b x. change (ws_hash st') with (ws_hash st). change (ws_handles st') with (ws_handles st). rewrite T5. split; intros [Hx (a & Ha & Hb)]; (split; [done|]).
      * destruct (Hforth x a Ha) as (enx & Hex & Hh & _). exists enx. by rewrite <- Hh.
      * destruct (Hback x a Ha) as (enx & Hex & Hh & _). exists enx. by rewrite Hh.
  - eapply refs_ok_occ; [|apply (si_refs _ _ I)]. intros o. rewrite !occ_app, !occ_server. do 6 f_equal. apply occ_perm. simpl.
    assert (forall l, l ≫= entry_refs (ws_entries st) = l ≫= entry_refs (<[e := en']> (ws_entries st))) as Hl; [|by rewrite <- Hl].
    induction l as [|x l IH]; [done|]. rewrite !bind_cons, IH. f_equal. unfold entry_refs.
    destruct (decide (x = e)) as [->|Hne]; [by rewrite lookup_insert_eq, Hen|]. by rewrite lookup_insert_ne.
  - intros x enx Hx Hex _. destruct (Hback x enx Hex) as (a & Ha & Hah & Hao). by exists a.
Qed.
