(* ===== verification/ServerLinks.v ===== *)
(** * Waiters and their links

    How the invariant of [ServerInv] is kept by the operations on selects: their
    flags, queueing, unqueueing, and what notifications do. *)
From S2P Require Import Prelude Chain Completion Threads ServerObjects ServerSync ServerRequests ServerSelect ServerInv.
Local Open Scope Z_scope.

(** ** Frames *)

Lemma occ_frames_update st st' w f f' o :
  ws_frames st !! w = Some f -> ws_frames st' = <[w := f']> (ws_frames st) ->
  ws_entries st' = ws_entries st -> ws_handles st' = ws_handles st -> bind_map object_refs (ws_objects st') = bind_map object_refs (ws_objects st) \/ (occ o (bind_map object_refs (ws_objects st')) = occ o (bind_map object_refs (ws_objects st))) ->
  ws_conns st' = ws_conns st -> ws_held st' = ws_held st -> ws_views st' = ws_views st ->
  (occ o (server_refs st') + occ o (waiter_refs f) = occ o (server_refs st) + occ o (waiter_refs f'))%nat.
Proof.
  intros Hw Hf He Hh Ho Hc Hhe Hv. rewrite !occ_server, He, Hh, Hc, Hhe, Hv, Hf. pose proof (occ_bind_map_update waiter_refs (ws_frames st) w f f' o Hw).
  assert (occ o (bind_map object_refs (ws_objects st')) = occ o (bind_map object_refs (ws_objects st))) by (destruct Ho as [->|]; done). lia.
Qed.

(** The waiters of [src] and the links of [w] change together. *)
Lemma inv_change_links st X X' w f f' src srcobj ws :
  server_inv st X -> ws_frames st !! w = Some f -> ws_objects st !! src = Some srcobj -> wt_op f' = wt_op f -> wt_queued f' = wt_queued f ->
  (forall p, occ p (waiter_refs f') + occ p X' = occ p (waiter_refs f) + occ p X)%nat ->
  NoDup ws -> (forall w' i, (w', i) ∈ ws <-> exists g, <[w := f']> (ws_frames st) !! w' = Some g /\ snd <$> wt_links g !! i = Some src) ->
  (forall i p, p <> src -> snd <$> wt_links f' !! i = Some p <-> snd <$> wt_links f !! i = Some p) ->
  (forall i l conn, ws_conns st !! w = Some conn -> wt_links f' !! i = Some l -> link_ok st conn (wt_op f) i l) ->
  (wt_queued f' = true -> length (wt_links f') = length (wt_links f)) ->
  server_inv (put_frame (put_object st src (o_waiters srcobj ws)) w f') X'.
Proof.
  intros I Hw Hsrc Hop Hq Hocc Hnd Hws Hsame Hlinks Hlen. set (st' := put_frame _ _ _).
  assert (forall p, stable (ws_objects st) (ws_objects st') p) as Hst by (intros p; by apply (stable_insert _ src srcobj (o_waiters srcobj ws))).
  assert (forall p, occ p (server_refs st ++ X) = occ p (server_refs st' ++ X')) as Hrefs.
  { intros p. rewrite !occ_app. pose proof (occ_frames_update st st' w f f' p Hw eq_refl eq_refl eq_refl) as H. specialize (Hocc p).
    assert (occ p (bind_map object_refs (ws_objects st')) = occ p (bind_map object_refs (ws_objects st))) as Ho.
    { pose proof (occ_bind_map_update object_refs (ws_objects st) src srcobj (o_waiters srcobj ws) p Hsrc) as H'. change (object_refs (o_waiters srcobj ws)) with (object_refs srcobj) in H'. simpl. lia. }
    specialize (H (or_intror Ho) eq_refl eq_refl eq_refl). lia. }
  destruct (si_refs _ _ I) as [R1 R2]. split.
  - apply (refs_ok_occ _ _ _ Hrefs). split.
    + intros p x Hx. simpl in Hx. destruct (decide (p = src)) as [->|Hne]; [rewrite lookup_insert_eq in Hx; injection Hx as <-; by apply (R1 src srcobj)|]. rewrite lookup_insert_ne in Hx by done. by apply R1.
    + intros p Hp. simpl. destruct (decide (p = src)) as [->|Hne]; [rewrite lookup_insert_eq; eauto|]. rewrite lookup_insert_ne by done. by apply R2.
  - apply (objects_ok_insert _ src srcobj (o_waiters srcobj ws) Hsrc eq_refl eq_refl (si_objects _ _ I)). destruct (si_objects _ _ I src srcobj Hsrc) as [A B C D]. by split.
  - intros p x Hx. simpl in Hx. destruct (decide (p = src)) as [->|Hne]; [rewrite lookup_insert_eq in Hx; injection Hx as <-; done|]. rewrite lookup_insert_ne in Hx by done.
    destruct (si_links _ _ I p x Hx) as [L1 L2]. split; [done|]. intros w' i. rewrite L2. simpl. destruct (decide (w' = w)) as [->|Hne'].
    + rewrite lookup_insert_eq. split; intros (g & Hg & Hs); (eexists; split; [done|]); [rewrite Hw in Hg|]; injection Hg as <-; by apply Hsame.
    + by rewrite lookup_insert_ne.
  - apply I.
  - apply (lists_ok_insert _ _ _ src srcobj (o_waiters srcobj ws) Hsrc eq_refl); [done|apply I].
  - apply (conns_ok_stable (ws_objects st)); [done|apply I].
  - intros w' g Hg. assert (forall conn op i l, link_ok st conn op i l -> link_ok st' conn op i l) as Hlk.
    { intros conn op i l Hl. eapply link_ok_stable; [apply Hst|done|done| |done]. intros e en h _ _ He Hen Hhe. by exists e, en. }
    simpl in Hg. destruct (decide (w' = w)) as [->|Hne'].
    + rewrite lookup_insert_eq in Hg. injection Hg as <-. destruct (si_frames _ _ I w f Hw) as [(conn & H1 & H2 & H3 & H4) H5]. split.
      * exists conn. split_and!; [done..|]. intros i l Hl. rewrite Hop. apply Hlk. by apply Hlinks.
      * intros Hqf. rewrite Hop, (Hlen Hqf). apply H5. congruence.
    + rewrite lookup_insert_ne in Hg by done. destruct (si_frames _ _ I w' g Hg) as [(conn & H1 & H2 & H3 & H4) H5]. split; [|done]. exists conn. split_and!; [done..|]. intros i l Hl. by apply Hlk, H4.
  - intros w1 w2 f1 f2 H1 H2. change (frame_tid st' w1) with (frame_tid st w1). change (frame_tid st' w2) with (frame_tid st w2). simpl in H1, H2. 
    assert (forall w', is_Some (<[w := f']> (ws_frames st) !! w') -> is_Some (ws_frames st !! w')) as Hold.
    { intros w' Hw'. destruct (decide (w' = w)) as [->|Hne']; [rewrite Hw; eauto|]. by rewrite lookup_insert_ne in Hw'. }
    destruct (Hold w1) as [g1 Hg1]; [eauto|]. destruct (Hold w2) as [g2 Hg2]; [eauto|]. by apply (si_tids _ _ I w1 w2 g1 g2).
  - destruct (si_waiting _ _ I) as [W1 W2]. split; [done|]. intros w'. change (ws_waiting st') with (ws_waiting st). rewrite W2. simpl. destruct (decide (w' = w)) as [->|Hne'].
    + rewrite lookup_insert_eq, Hw. split; intros (g & [= <-] & Hg); eexists; (split; [done|]); congruence.
    + by rewrite lookup_insert_ne.
Qed.

(** The flags of a select, and its place in the list of sleeping selects. *)
Lemma inv_put_frame st X w f f' l :
  server_inv st X -> ws_frames st !! w = Some f -> wt_op f' = wt_op f -> wt_links f' = wt_links f ->
  (wt_queued f' = true -> length (wt_links f) = length (op_handles (wt_op f)) /\ queue_handles (wt_op f) = Some (op_handles (wt_op f))) ->
  NoDup l -> (forall x, x ∈ l <-> x = w /\ wt_queued f' = true \/ x <> w /\ x ∈ ws_waiting st) ->
  server_inv (put_frame (s_waiting st l) w f') X.
Proof.
  intros I Hw Hop Hli Hq Hnd Hl. set (st' := put_frame _ _ _). destruct (si_waiting _ _ I) as [W1 W2].
  assert (waiter_refs f' = waiter_refs f) as Hwr by (unfold waiter_refs; by rewrite Hli).
  split; try apply I.
  - apply (refs_ok_occ _ (server_refs st ++ X)); [|apply I]. intros p. rewrite !occ_app.
    pose proof (occ_frames_update st st' w f f' p Hw eq_refl eq_refl eq_refl (or_introl eq_refl) eq_refl eq_refl eq_refl) as H. rewrite Hwr in H. lia.
  - intros src obj Hsrc. destruct (si_links _ _ I src obj Hsrc) as [L1 L2]. split; [done|]. intros w' i. rewrite L2. simpl. destruct (decide (w' = w)) as [->|Hne].
    + rewrite lookup_insert_eq, Hw. split; intros (g & [= <-] & Hg); eexists; (split; [done|]); congruence.
    + by rewrite lookup_insert_ne.
  - intros w' g Hg. assert (forall conn op i l, link_ok st conn op i l -> link_ok st' conn op i l) as Hlk by (intros conn op i k [A B C]; by split).
    simpl in Hg. destruct (decide (w' = w)) as [->|Hne'].
    + rewrite lookup_insert_eq in Hg. injection Hg as <-. destruct (si_frames _ _ I w f Hw) as [(conn & H1 & H2 & H3 & H4) H5]. split.
      * exists conn. rewrite Hop, Hli. split_and!; [done..|]. intros i k Hk. by apply Hlk, H4.
      * rewrite Hop, Hli. done.
    + rewrite lookup_insert_ne in Hg by done. destruct (si_frames _ _ I w' g Hg) as [(conn & H1 & H2 & H3 & H4) H5]. split; [|done]. exists conn. split_and!; [done..|]. intros i k Hk. by apply Hlk, H4.
  - intros w1 w2 f1 f2 H1 H2. change (frame_tid st' w1) with (frame_tid st w1). change (frame_tid st' w2) with (frame_tid st w2). simpl in H1, H2.
    assert (forall w', is_Some (<[w := f']> (ws_frames st) !! w') -> is_Some (ws_frames st !! w')) as Hold.
    { intros w' Hw'. destruct (decide (w' = w)) as [->|Hne']; [rewrite Hw; eauto|]. by rewrite lookup_insert_ne in Hw'. }
    destruct (Hold w1) as [g1 Hg1]; [eauto|]. destruct (Hold w2) as [g2 Hg2]; [eauto|]. by apply (si_tids _ _ I w1 w2 g1 g2).
  - split; [done|]. intros x. change (ws_waiting st') with l. rewrite Hl, W2. simpl. destruct (decide (x = w)) as [->|Hne].
    + rewrite lookup_insert_eq. split; [intros [[_ H]|[? _]]; [by exists f'|done]|]. intros (g & [= <-] & Hg). by left.
    + rewrite lookup_insert_ne by done. split; [intros [[? _]|[_ H]]; done|]. intros H. by right.
Qed.

Lemma inv_put_flags st X w f f' :
  server_inv st X -> ws_frames st !! w = Some f -> wt_op f' = wt_op f -> wt_links f' = wt_links f -> wt_queued f' = wt_queued f -> server_inv (put_frame st w f') X.
Proof.
  intros I Hw Hop Hli Hq. destruct (si_waiting _ _ I) as [W1 W2].
  enough (server_inv (put_frame (s_waiting st (ws_waiting st)) w f') X) as H by (by destruct st).
  apply (inv_put_frame st X w f f' _ I Hw Hop Hli); [|done|].
  - rewrite Hq. apply (si_frames _ _ I w f Hw).
  - intros x. rewrite W2, Hq. destruct (decide (x = w)) as [->|Hne]; [|naive_solver]. rewrite Hw. split; [intros (g & [= <-] & H); by left|]. intros [[_ H]|[? _]]; [by exists f|done].
Qed.

(** ** Unqueueing *)

(** Equal but for the count and the waiters. *)
Definition same_payload (obj obj' : server_object) : Prop := obj' = o_refs (o_waiters obj (ob_waiters obj')) (ob_refs obj').

Lemma same_payload_refl obj : same_payload obj obj.
Proof. by destruct obj. Qed.

Lemma same_payload_trans o1 o2 o3 : same_payload o1 o2 -> same_payload o2 o3 -> same_payload o1 o3.
Proof. unfold same_payload. intros H1 H2. rewrite H2, H1. by destruct o1. Qed.

(** The selects other than [w], and all objects that stay, are as they were; no
    object has more than [k] references more. *)
Record rehooks (st st' : wine_server) (w : positive) (k : Z) : Prop := {
  uh_objects : forall p obj', ws_objects st' !! p = Some obj' -> exists obj, ws_objects st !! p = Some obj /\ same_payload obj obj' /\ ob_refs obj' <= ob_refs obj + k;
  uh_entries : ws_entries st' = ws_entries st;
  uh_handles : ws_handles st' = ws_handles st;
  uh_next : ws_next_handle st' = ws_next_handle st;
  uh_conns : ws_conns st' = ws_conns st;
  uh_frames : forall w', w' <> w -> ws_frames st' !! w' = ws_frames st !! w';
  uh_ready : ws_ready st' = ws_ready st;
  uh_held : ws_held st' = ws_held st;
  uh_views : ws_views st' = ws_views st;
  uh_next_tid : ws_next_tid st' = ws_next_tid st;
}.

Notation unhooks st st' w := (rehooks st st' w 0).

Lemma unhooks_refl st w : unhooks st st w.
Proof. split; try done. intros p obj Hp. exists obj. split; [done|]. split; [apply same_payload_refl|lia]. Qed.

Lemma rehooks_trans st1 st2 st3 w k1 k2 : rehooks st1 st2 w k1 -> rehooks st2 st3 w k2 -> rehooks st1 st3 w (k1 + k2).
Proof.
  intros [A1 A2 A3 A4 A5 A6 A7 A8 A9 A10] [B1 B2 B3 B4 B5 B6 B7 B8 B9 B10]. split; [|congruence|congruence|congruence|congruence|intros w' Hw; rewrite B6, A6; done|congruence..].
  intros p o3 H3. destruct (B1 p o3 H3) as (o2 & H2 & P3 & L3). destruct (A1 p o2 H2) as (o1 & H1 & P2 & L2). exists o1. split; [done|]. split; [by eapply same_payload_trans|lia].
Qed.

Lemma rehooks_le st st' w k1 k2 : rehooks st st' w k1 -> k1 <= k2 -> rehooks st st' w k2.
Proof. intros [A B C D E F G H J K] Hle. split; try done. intros p x Hx. destruct (A p x Hx) as (y & Hy & P & L). exists y. split; [done|]. split; [done|lia]. Qed.

Lemma unhooks_trans st1 st2 st3 w : unhooks st1 st2 w -> unhooks st2 st3 w -> unhooks st1 st3 w.
Proof. apply rehooks_trans. Qed.

Lemma shrinks_unhooks st st' w : shrinks st st' -> unhooks st st' w.
Proof.
  intros [[A1 A2 A3 A4 A5 A6 A7] B C D E F]. split; try done; [|by rewrite A6]. intros p obj' Hp. destruct (B p obj' Hp) as (obj & Ho & Heq & Hle). exists obj. split; [done|]. split; [|lia].
  unfold same_payload. rewrite Heq. by destruct obj.
Qed.

Lemma rehooks_room st st' w k n : rehooks st st' w k -> refs_room st n -> refs_room st' (n - k).
Proof. intros S H o obj' Ho. destruct (uh_objects _ _ _ _ S o obj' Ho) as (obj & Hobj & _ & Hle). specialize (H o obj Hobj). lia. Qed.

Lemma unhooks_room st st' w k : unhooks st st' w -> refs_room st k -> refs_room st' k.
Proof. intros S H. apply (rehooks_room _ _ _ _ _ S) in H. by rewrite Z.sub_0_r in H. Qed.

Lemma filter_link_nodup w n (ws : list (positive * nat)) : NoDup ws -> NoDup (List.filter (fun l => negb (bool_decide (l = (w, n)))) ws) /\
  forall w' i, (w', i) ∈ List.filter (fun l => negb (bool_decide (l = (w, n)))) ws <-> (w', i) ∈ ws /\ (w', i) <> (w, n).
Proof.
  intros Hn. split; [apply base.NoDup_ListNoDup, List.NoDup_filter; by apply base.NoDup_ListNoDup|].
  intros w' i. rewrite !list_elem_of_In, List.filter_In, negb_true_iff, bool_decide_eq_false. done.
Qed.

(** Taking the last link off. *)
Lemma inv_link_remove st X w f links o src srcobj :
  server_inv st X -> ws_frames st !! w = Some f -> wt_links f = links ++ [(o, src)] -> wt_queued f = false -> ws_objects st !! src = Some srcobj ->
  server_inv (put_object (put_frame st w (f_links f (wt_queued f) links)) src
    (o_waiters srcobj (List.filter (fun l => negb (bool_decide (l = (w, length links)))) (ob_waiters srcobj)))) (link_refs (o, src) ++ X).
Proof.
  intros I Hw Hli Hq Hsrc. destruct (si_links _ _ I src srcobj Hsrc) as [L1 L2]. destruct (filter_link_nodup w (length links) (ob_waiters srcobj) L1) as [N1 N2].
  assert (forall i l, links !! i = Some l <-> wt_links f !! i = Some l /\ i <> length links) as Hi.
  { intros i l. rewrite Hli. destruct (decide (i < length links)%nat) as [Hlt|Hge].
    - rewrite lookup_app_l by done. split; [intros H; split; [done|lia]|tauto].
    - rewrite (lookup_ge_None_2 links i) by lia. split; [done|]. intros [H Hne]. apply lookup_lt_Some in H. rewrite length_app in H. simpl in H. lia. }
  apply (inv_change_links st X _ w f (f_links f (wt_queued f) links) src srcobj _ I Hw Hsrc eq_refl eq_refl).
  - intros p. change (waiter_refs (f_links f (wt_queued f) links)) with (links ≫= link_refs). unfold waiter_refs. rewrite Hli, bind_app, !occ_app, bind_cons, occ_app. change (occ p ([] ≫= link_refs)) with 0%nat. lia.
  - done.
  - intros w' i. rewrite N2, L2. destruct (decide (w' = w)) as [->|Hne].
    + rewrite lookup_insert_eq, Hw. split.
      * intros [(g & [= <-] & Hg) Hne]. eexists. split; [done|]. simpl. destruct (wt_links f !! i) as [l|] eqn:E; [|done]. simpl in Hg.
        assert (links !! i = Some l) as -> by (apply Hi; split; [done|congruence]). done.
      * intros (g & [= <-] & Hg). simpl in Hg. destruct (links !! i) as [l|] eqn:E; [|done]. apply Hi in E as [E Hne]. split; [exists f; split; [done|]; by rewrite E|congruence].
    + rewrite lookup_insert_ne by done. split; [tauto|]. intros H. split; [done|congruence].
  - intros i p Hp. simpl. split.
    + destruct (links !! i) as [l|] eqn:E; [|done]. apply Hi in E as [-> _]. done.
    + destruct (wt_links f !! i) as [l|] eqn:E; [|done]. simpl. intros [= <-]. destruct (decide (i = length links)) as [->|Hne].
      * rewrite Hli, lookup_app_r, Nat.sub_diag in E by lia. injection E as <-. done.
      * assert (links !! i = Some l) as -> by (by apply Hi). done.
  - intros i l conn Hc Hl. simpl in Hl. apply Hi in Hl as [Hl _]. destruct (si_frames _ _ I w f Hw) as [(conn' & H1 & H2 & H3 & H4) H5]. rewrite Hc in H1. injection H1 as <-. by apply H4.
  - simpl. congruence.
Qed.

Lemma unlink_links_ok links : forall st X w f,
  server_inv st X -> refs_room st 0 -> ws_frames st !! w = Some f -> wt_queued f = false -> wt_links f = reverse links ->
  exists st', unlink_links st w links = Some st' /\ server_inv st' X /\ unhooks st st' w /\ ws_frames st' !! w = Some (f_links f false []) /\ ws_waiting st' = ws_waiting st.
Proof.
  induction links as [|[o src] links IH]; intros st X w f I Hroom Hw Hq Hli.
  { exists st. split; [done|]. split; [done|]. split; [apply unhooks_refl|]. split; [|done]. rewrite Hw. f_equal. destruct f; simpl in *. by rewrite Hq, Hli. }
  rewrite reverse_cons in Hli. cbn [unlink_links]. rewrite Hw. cbn [mbind option_bind].
  assert (src ∈ server_refs st) as Hin.
  { eapply (ref_frame st w f (length (reverse links)) (o, src)); [done| |apply (link_refs_src (o, src))]. rewrite Hli, lookup_app_r, Nat.sub_diag by lia. done. }
  destruct (ro_there _ _ (si_refs _ _ I) src) as [srcobj Hsrc]; [apply elem_of_app; by left|].
  change (ws_objects (put_frame st w (f_links f (wt_queued f) (reverse links))) !! src) with (ws_objects st !! src). rewrite Hsrc. cbn [mbind option_bind].
  pose proof (inv_link_remove st X w f (reverse links) o src srcobj I Hw Hli Hq Hsrc) as I1. rewrite length_reverse in I1.
  set (st1 := put_object _ _ _) in *. assert (unhooks st st1 w) as U1.
  { split; try done; [|intros w' Hne; simpl; by rewrite lookup_insert_ne]. intros p x Hx. simpl in Hx. destruct (decide (p = src)) as [->|Hne].
    - rewrite lookup_insert_eq in Hx. injection Hx as <-. exists srcobj. split; [done|]. split; [by destruct srcobj|simpl; lia].
    - rewrite lookup_insert_ne in Hx by done. exists x. split; [done|]. split; [apply same_payload_refl|lia]. }
  unfold link_refs in I1. simpl in I1.
  assert (exists st2, (if decide (src = o) then Some st1 else drop_object st1 (Some src)) = Some st2 /\ server_inv st2 (o :: X) /\ shrinks st1 st2) as (st2 & E2 & I2 & S2).
  { destruct (decide (src = o)) as [->|Hne]; [exists st1; split; [done|]; split; [done|apply shrinks_refl]|].
    apply drop_ok; [|by eapply unhooks_room]. eapply inv_perm; [exact I1|]. intros p. simpl. rewrite !occ_cons. lia. }
  rewrite E2. cbn [mbind option_bind]. destruct (drop_ok st2 X (Some o) I2) as (st3 & E3 & I3 & S3); [by eapply shrinks_room, unhooks_room|].
  rewrite E3. cbn [mbind option_bind]. pose proof (shrinks_trans _ _ _ S2 S3) as S13. pose proof (unhooks_trans _ _ _ _ U1 (shrinks_unhooks _ _ w S13)) as U3.
  assert (ws_frames st3 !! w = Some (f_links f (wt_queued f) (reverse links))) as Hw3 by (rewrite (sr_frames _ _ (sk_rest _ _ S13)); simpl; by rewrite lookup_insert_eq).
  destruct (IH st3 X w (f_links f (wt_queued f) (reverse links)) I3) as (st4 & E4 & I4 & U4 & F4 & W4); [by eapply unhooks_room|exact Hw3|done|done|].
  exists st4. split; [done|]. split; [done|]. split; [by eapply unhooks_trans|]. split; [rewrite F4; by destruct f|]. rewrite W4. by rewrite (sr_waiting _ _ (sk_rest _ _ S13)).
Qed.

Lemma unqueue_ok st X w f : server_inv st X -> refs_room st 0 -> ws_frames st !! w = Some f ->
  exists st', horizon_sync_unqueue_locked st w = Some st' /\ server_inv st' X /\ unhooks st st' w /\ ws_frames st' !! w = Some (f_links f false []) /\ (forall x, x ∈ ws_waiting st' <-> x ∈ ws_waiting st /\ x <> w).
Proof.
  intros I Hroom Hw. destruct (si_waiting _ _ I) as [W1 W2]. unfold horizon_sync_unqueue_locked. rewrite Hw. cbn [mbind option_bind].
  destruct (wt_queued f) eqn:Hq.
  - destruct (unlink_from_spec w (ws_waiting st) W1) as [N1 N2]. set (st1 := put_frame _ _ _).
    assert (server_inv st1 X) as I1.
    { apply (inv_put_frame st X w f _ _ I Hw); [done|done|done|done|]. intros x. rewrite N2. simpl. naive_solver. }
    destruct (unlink_links_ok (reverse (wt_links f)) st1 X w (f_links f false (wt_links f)) I1) as (st2 & E2 & I2 & U2 & F2 & Wt2);
      [done|simpl; by rewrite lookup_insert_eq|done|simpl; by rewrite reverse_involutive|].
    exists st2. split; [done|]. split; [done|]. split.
    + eapply unhooks_trans; [|exact U2]. split; try done; [|intros w' Hne; simpl; by rewrite lookup_insert_ne]. intros p obj Hp. exists obj. split; [done|]. split; [apply same_payload_refl|lia].
    + split; [rewrite F2; by destruct f|]. rewrite Wt2. exact N2.
  - destruct (unlink_links_ok (reverse (wt_links f)) st X w f I) as (st2 & E2 & I2 & U2 & F2 & Wt2); [done|done|done|by rewrite reverse_involutive|].
    exists st2. split; [done|]. split; [done|]. split; [done|]. split; [done|]. rewrite Wt2. intros x. split; [|tauto]. intros Hx. split; [done|].
    intros ->. apply W2 in Hx as (g & Hg & Hgq). congruence.
Qed.

(** ** Queueing *)

(** A handle that names a completion wait names one of the thread. *)
Definition owned (st : wine_server) (tid h : Z) : Prop :=
  forall e en, e ∈ ws_handles st -> ws_entries st !! e = Some en -> he_handle en = h -> type_at (ws_objects st) (he_object en) = Some OBJECT_COMPLETION_WAIT ->
    exists c conn, ws_conns st !! c = Some conn /\ cn_completion_wait conn = Some (he_object en) /\ cn_tid conn = tid.

Lemma find_handle_object_ok st X w conn h : server_inv st X -> ws_conns st !! w = Some conn ->
  exists r, horizon_server_find_handle_object_locked st (Some w) h = Some r /\
    forall o, r = Some o -> h <> 0 /\ handle_ok st conn h o /\ o ∈ server_refs st /\ (h <> HORIZON_CURRENT_THREAD_HANDLE -> exists e en, e ∈ ws_handles st /\ ws_entries st !! e = Some en /\ he_handle en = h /\ he_object en = o).
Proof.
  intros I Hc. unfold horizon_server_find_handle_object_locked. destruct (Z.eqb_spec h 0) as [->|Hnz]; [exists None; by split|].
  destruct (Z.eqb_spec h HORIZON_CURRENT_THREAD_HANDLE) as [->|Hnt].
  - exists (cn_thread conn). unfold current_thread. cbn [mbind option_bind]. rewrite Hc. split; [done|]. intros o Ho. split; [done|]. split; [unfold handle_ok; by rewrite decide_True|].
    split; [|done]. eapply ref_conn; [done|]. unfold connection_refs. rewrite Ho. set_solver.
  - destruct (find_handle_ok st X h I) as (r & -> & Hr). cbn [mbind option_bind]. destruct r as [e|]; [|exists None; by split].
    destruct Hr as [Hin (en & Hen & Hh)]. rewrite Hen. cbn [mbind option_bind]. exists (Some (he_object en)). split; [done|]. intros o [= <-]. split; [done|].
    split; [|split; [by eapply ref_entry|]; intros _; by exists e, en]. unfold handle_ok. rewrite decide_False by done. destruct (ta_entry _ _ _ _ (si_table _ _ I) e Hin) as (en' & Hen' & Hb).
    split; [rewrite Hen in Hen'; injection Hen' as <-; lia|]. intros e2 en2 Hin2 Hen2 Hh2. assert (e2 = e) as -> by (apply (ta_unique _ _ _ _ (si_table _ _ I) e2 e en2 en); congruence || done). congruence.
Qed.

Lemma link_source_in objs obj o src : object_ok objs obj -> link_source obj o = Some src -> src = o \/ src ∈ object_refs obj /\ type_at objs src = Some OBJECT_COMPLETION.
Proof.
  intros Hok. unfold link_source. destruct (ob_type obj) eqn:Ht; try (by intros [= <-]; left); try done.
  intros Hp. right. split; [apply object_refs_in; by left|]. by apply Hok.
Qed.

(** The handle is in the table, or stands for the thread itself. *)
Definition live (st : wine_server) (h : Z) : Prop := h = HORIZON_CURRENT_THREAD_HANDLE \/ exists e en, e ∈ ws_handles st /\ ws_entries st !! e = Some en /\ he_handle en = h.

Lemma live_same st st' h : ws_handles st' = ws_handles st -> ws_entries st' = ws_entries st -> live st h -> live st' h.
Proof. unfold live. by intros -> ->. Qed.

(** Adding a link, with its references in hand. *)
Lemma inv_link_add st X w f o src srcobj conn :
  server_inv st (link_refs (o, src) ++ X) -> ws_frames st !! w = Some f -> wt_queued f = false -> ws_objects st !! src = Some srcobj -> ws_conns st !! w = Some conn ->
  link_ok st conn (wt_op f) (length (wt_links f)) (o, src) ->
  server_inv (put_frame (put_object st src (o_waiters srcobj (ob_waiters srcobj ++ [(w, length (wt_links f))]))) w (f_links f (wt_queued f) (wt_links f ++ [(o, src)]))) X.
Proof.
  intros I Hw Hq Hsrc Hc Hlk. destruct (si_links _ _ I src srcobj Hsrc) as [L1 L2].
  assert ((w, length (wt_links f)) ∉ ob_waiters srcobj) as Hnew.
  { intros Hin. apply L2 in Hin as (g & Hg & Hs). rewrite Hw in Hg. injection Hg as <-. rewrite (lookup_ge_None_2 (wt_links f)) in Hs by lia. done. }
  apply (inv_change_links st (link_refs (o, src) ++ X) X w f (f_links f (wt_queued f) (wt_links f ++ [(o, src)])) src srcobj _ I Hw Hsrc eq_refl eq_refl).
  - intros p. change (waiter_refs (f_links f (wt_queued f) (wt_links f ++ [(o, src)]))) with ((wt_links f ++ [(o, src)]) ≫= link_refs). unfold waiter_refs. rewrite bind_app, !occ_app, bind_cons, occ_app. change (occ p ([] ≫= link_refs)) with 0%nat. lia.
  - apply list.NoDup_app. split; [done|]. split; [|apply NoDup_singleton]. intros x Hx Hx'. apply list_elem_of_singleton in Hx' as ->. done.
  - intros w' i. rewrite elem_of_app, list_elem_of_singleton, L2. destruct (decide (w' = w)) as [->|Hne].
    + rewrite lookup_insert_eq, Hw. simpl. split.
      * intros [(g & [= <-] & Hg)|[= ->]]; (eexists; split; [done|]); simpl; [|by rewrite lookup_app_r, Nat.sub_diag by lia].
        destruct (wt_links f !! i) as [l|] eqn:E; [|done]. rewrite lookup_app_l by (by eapply lookup_lt_Some). by rewrite E.
      * intros (g & [= <-] & Hg). simpl in Hg. destruct (decide (i < length (wt_links f))%nat) as [Hlt|Hge].
        -- left. exists f. split; [done|]. by rewrite lookup_app_l in Hg.
        -- right. rewrite lookup_app_r in Hg by lia. destruct (i - length (wt_links f))%nat eqn:Ei; [|done]. f_equal. lia.
    + rewrite lookup_insert_ne by done. split; [intros [H|[= ? _]]; done|]. intros H. by left.
  - intros i p Hp. simpl. destruct (decide (i < length (wt_links f))%nat) as [Hlt|Hge]; [by rewrite lookup_app_l|].
    rewrite lookup_app_r by lia. rewrite (lookup_ge_None_2 (wt_links f)) by lia. destruct (i - length (wt_links f))%nat; simpl; [|done]. split; [congruence|done].
  - intros i l conn' Hc' Hl. rewrite Hc in Hc'. injection Hc' as <-. simpl in Hl. destruct (decide (i < length (wt_links f))%nat) as [Hlt|Hge].
    + rewrite lookup_app_l in Hl by done. destruct (si_frames _ _ I w f Hw) as [(conn' & H1 & H2 & H3 & H4) H5]. rewrite Hc in H1. injection H1 as <-. by apply H4.
    + rewrite lookup_app_r in Hl by lia. destruct (i - length (wt_links f))%nat eqn:Ei; [|done]. injection Hl as <-. by replace i with (length (wt_links f)) by lia.
  - simpl. congruence.
Qed.

Lemma same_payload_type obj obj' : same_payload obj obj' -> ob_type obj' = ob_type obj /\ ob_wait_port obj' = ob_wait_port obj.
Proof. unfold same_payload. intros ->. done. Qed.

Lemma ref_up_rehooks st o obj w : ws_objects st !! o = Some obj -> 0 <= ob_refs obj -> ob_refs obj + 1 < 4294967296 -> rehooks st (put_object st o (o_refs obj (u32 (ob_refs obj + 1)))) w 1.
Proof.
  intros Ho Hz Hr. split; try done. intros p x Hx. simpl in Hx. destruct (decide (p = o)) as [->|Hne].
  - rewrite lookup_insert_eq in Hx. injection Hx as <-. exists obj. split; [done|]. split; [by destruct obj|]. simpl. rewrite u32_small by (unfold is_u32; lia). lia.
  - rewrite lookup_insert_ne in Hx by done. exists x. split; [done|]. split; [apply same_payload_refl|lia].
Qed.

(** Objects with references are in both states. *)
Lemma rehooks_stable st st' X w k p : rehooks st st' w k -> server_inv st' X -> p ∈ server_refs st' ++ X -> stable (ws_objects st) (ws_objects st') p.
Proof.
  intros H I Hp obj Ho. destruct (ro_there _ _ (si_refs _ _ I) p Hp) as [obj' Ho']. destruct (uh_objects _ _ _ _ H p obj' Ho') as (x & Hx & Hpay & _).
  rewrite Ho in Hx. injection Hx as <-. exists obj'. split; [done|]. by apply same_payload_type.
Qed.

Lemma put_object_stable st o obj obj' p : ws_objects st !! o = Some obj -> ob_type obj' = ob_type obj -> ob_wait_port obj' = ob_wait_port obj -> stable (ws_objects st) (ws_objects (put_object st o obj')) p.
Proof. intros. by apply (stable_insert _ o obj). Qed.

Lemma stable_trans m1 m2 m3 p : stable m1 m2 p -> stable m2 m3 p -> stable m1 m3 p.
Proof. intros H1 H2 a Ha. destruct (H1 a Ha) as (b & Hb & T1 & P1). destruct (H2 b Hb) as (c & Hc & T2 & P2). exists c. split; [done|]. split; congruence. Qed.

Lemma owned_stable st st' tid h : (forall p, stable (ws_objects st) (ws_objects st') p) -> (forall e en, e ∈ ws_handles st' -> ws_entries st' !! e = Some en -> is_Some (ws_objects st !! he_object en)) ->
  ws_handles st' = ws_handles st -> ws_entries st' = ws_entries st -> ws_conns st' = ws_conns st -> owned st tid h -> owned st' tid h.
Proof. intros Hs Hthere Hh He Hc Hown e en Hin Hen Hhe Ht. rewrite Hc. apply (Hown e en); [congruence|congruence|done|]. eapply stable_type_back; [apply Hs|by eapply Hthere|done]. Qed.

Lemma queue_link_ok st X w f conn h o obj src :
  server_inv st X -> refs_room st 2 -> ws_frames st !! w = Some f -> wt_queued f = false -> ws_conns st !! w = Some conn ->
  op_handles (wt_op f) !! length (wt_links f) = Some h -> owned st (cn_tid conn) h ->
  h <> 0 -> handle_ok st conn h o -> o ∈ server_refs st -> (h <> HORIZON_CURRENT_THREAD_HANDLE -> exists e en, e ∈ ws_handles st /\ ws_entries st !! e = Some en /\ he_handle en = h /\ he_object en = o) ->
  ws_objects st !! o = Some obj -> link_source obj o = Some src ->
  exists st2 srcobj,
    (st1 ← (if decide (src = o) then Some st else s ← ws_objects st !! src; Some (put_object st src (o_refs s (u32 (ob_refs s + 1)))));
     obj ← ws_objects st1 !! o; Some (put_object st1 o (o_refs obj (u32 (ob_refs obj + 1))))) = Some st2 /\
    ws_objects st2 !! src = Some srcobj /\ ws_frames st2 = ws_frames st /\
    let st3 := put_frame (put_object st2 src (o_waiters srcobj (ob_waiters srcobj ++ [(w, length (wt_links f))]))) w (f_links f (wt_queued f) (wt_links f ++ [(o, src)])) in
    server_inv st3 X /\ rehooks st st3 w 2 /\ (forall p, stable (ws_objects st) (ws_objects st3) p) /\ ws_waiting st3 = ws_waiting st.
Proof.
  intros I Hroom Hw Hq Hc Hi Hown Hnz Hh Hin Hent Ho Hsrc.
  pose proof (si_objects _ _ I o obj Ho) as Hok. pose proof (link_source_in _ _ _ _ Hok Hsrc) as Hsin.
  assert (o <> src -> src ∈ server_refs st) as Hsrcref by (intros Hne; destruct Hsin as [->|[Hr _]]; [done|by eapply ref_object]).
  assert (exists st1, (if decide (src = o) then Some st else s ← ws_objects st !! src; Some (put_object st src (o_refs s (u32 (ob_refs s + 1))))) = Some st1 /\
    server_inv st1 ((if decide (src = o) then [] else [src]) ++ X) /\ rehooks st st1 w 1 /\ (forall p, stable (ws_objects st) (ws_objects st1) p) /\ same_rest st st1) as (st1 & E1 & I1 & H1 & Hs1 & SR1).
  { destruct (decide (src = o)) as [->|Hne].
    - exists st. split; [done|]. split; [done|]. split; [|split; [by intros p x Hx; exists x|by split]]. eapply rehooks_le; [apply unhooks_refl|lia].
    - destruct (ro_there _ _ (si_refs _ _ I) src) as [s Hs]; [apply elem_of_app; left; by apply Hsrcref|]. rewrite Hs. cbn [mbind option_bind]. eexists. split; [done|].
      pose proof (Hroom src s Hs). pose proof (refs_nonneg _ _ _ _ I Hs). split; [apply inv_ref_up; done || lia|]. split; [apply ref_up_rehooks; done || lia|]. split; [|by split].
      intros p. by apply (put_object_stable _ _ s). }
  rewrite E1. cbn [mbind option_bind].
  destruct (ro_there _ _ (si_refs _ _ I1) o) as [obj1 Ho1]; [apply elem_of_app; left; rewrite occ_elem|].
  { rewrite occ_elem in Hin. pose proof (ro_count _ _ (si_refs _ _ I) o obj Ho) as Hcnt. destruct (Hs1 o obj Ho) as (obj1 & Ho1 & _). pose proof (ro_count _ _ (si_refs _ _ I1) o obj1 Ho1) as Hcnt1.
    revert E1. destruct (decide (src = o)) as [->|Hne]; [intros [= <-]; done|]. destruct (ws_objects st !! src) as [s|] eqn:Hs; [|done]. cbn [mbind option_bind]. intros [= <-]. simpl in *.
    rewrite lookup_insert_ne in Ho1 by done. rewrite Ho in Ho1. injection Ho1 as <-. rewrite occ_app, occ_cons, decide_False in Hcnt1 by done. rewrite occ_app in Hcnt. lia. }
  rewrite Ho1. cbn [mbind option_bind]. destruct (uh_objects _ _ _ _ H1 o obj1 Ho1) as (objx & Hx & Hpay & Hle). rewrite Ho in Hx. injection Hx as <-.
  pose proof (Hroom o obj Ho). pose proof (refs_nonneg _ _ _ _ I1 Ho1).
  pose proof (inv_ref_up _ _ _ _ I1 Ho1 ltac:(lia)) as I2. pose proof (ref_up_rehooks st1 o obj1 w Ho1 ltac:(lia) ltac:(lia)) as H2.
  set (st2 := put_object st1 o (o_refs obj1 (u32 (ob_refs obj1 + 1)))) in *.
  assert (forall p, stable (ws_objects st) (ws_objects st2) p) as Hs2 by (intros p; eapply stable_trans; [apply Hs1|]; by apply (put_object_stable _ _ obj1)).
  assert (ws_conns st2 = ws_conns st) as Hc2 by apply (sr_conns _ _ SR1).
  assert (server_inv st2 (link_refs (o, src) ++ X)) as I2' by (unfold link_refs; simpl; exact I2).
  destruct (ro_there _ _ (si_refs _ _ I2') src) as [srcobj Hsrcobj]; [apply elem_of_app; right; apply elem_of_app; left; apply (link_refs_src (o, src))|].
  exists st2, srcobj. split; [done|]. split; [done|]. split; [apply (sr_frames _ _ SR1)|].
  assert (ws_frames st2 !! w = Some f) as Hw2 by (change (ws_frames st2) with (ws_frames st1); by rewrite (sr_frames _ _ SR1)).
  cbv zeta. set (st3 := put_frame _ _ _). split; [|split; [|split]].
  - apply (inv_link_add st2 X w f o src srcobj conn I2' Hw2 Hq Hsrcobj); [by rewrite Hc2|]. split; cbn [fst snd].
    + exists h. split; [done|]. unfold handle_ok in *. destruct (decide _); [done|]. change (ws_next_handle st2) with (ws_next_handle st1). change (ws_handles st2) with (ws_handles st1). change (ws_entries st2) with (ws_entries st1).
      destruct SR1 as [-> -> _ -> _ _ _]. done.
    + destruct (Hs2 o obj Ho) as (obj2 & Ho2 & T2 & P2). exists obj2. split; [done|]. by rewrite (link_source_kin obj obj2).
    + intros Ht. rewrite Hc2. apply (stable_type_back _ _ _ _ (Hs2 o)) in Ht; [|eauto]. destruct (decide (h = HORIZON_CURRENT_THREAD_HANDLE)) as [->|Hne].
      * unfold handle_ok in Hh. rewrite decide_True in Hh by done. pose proof (co_thread _ _ (si_conns _ _ I) w conn o Hc Hh). congruence.
      * destruct (Hent Hne) as (e & en & He & Hen & Hhe & <-). by apply (Hown e en).
  - replace 2 with (1 + (1 + 0)) by lia. eapply rehooks_trans; [exact H1|]. eapply rehooks_trans; [exact H2|]. split; try done; [|intros w' Hne; simpl; by rewrite lookup_insert_ne].
    intros p x Hx. simpl in Hx. destruct (decide (p = src)) as [->|Hne].
    + rewrite lookup_insert_eq in Hx. injection Hx as <-. exists srcobj. split; [done|]. split; [by destruct srcobj|simpl; lia].
    + rewrite lookup_insert_ne in Hx by done. exists x. split; [done|]. split; [apply same_payload_refl|lia].
  - intros p. eapply stable_trans; [apply Hs2|]. by apply (put_object_stable _ _ srcobj).
  - apply (sr_waiting _ _ SR1).
Qed.

Lemma f_links_same f q l : wt_queued f = q -> wt_links f = l -> Some f = Some (f_links f q l).
Proof. intros <- <-. by destruct f. Qed.

Lemma queue_links_ok handles : forall st X w f conn pre,
  server_inv st X -> refs_room st (2 * Z.of_nat (length handles)) -> ws_frames st !! w = Some f -> wt_queued f = false -> ws_conns st !! w = Some conn ->
  op_handles (wt_op f) = pre ++ handles -> length (wt_links f) = length pre -> Forall (owned st (cn_tid conn)) handles ->
  exists ok st' links, queue_links st w handles = Some (ok, st') /\ server_inv st' X /\ rehooks st st' w (2 * Z.of_nat (length handles)) /\
    ws_frames st' !! w = Some (f_links f false links) /\ (ok = true -> length links = length (pre ++ handles) /\ Forall (live st) handles) /\ ws_waiting st' = ws_waiting st.
Proof.
  induction handles as [|h handles IH]; intros st X w f conn pre I Hroom Hw Hq Hc Hop Hlen Hown.
  { exists true, st, (wt_links f). split; [done|]. split; [done|]. split; [apply unhooks_refl|]. split; [rewrite Hw; by apply f_links_same|]. split; [|done]. intros _. split; [by rewrite app_nil_r|constructor]. }
  assert (exists links, ws_frames st !! w = Some (f_links f false links)) as [links0 Hl0] by (exists (wt_links f); rewrite Hw; by apply f_links_same).
  assert (rehooks st st w (2 * Z.of_nat (length (h :: handles)))) as Hself by (eapply rehooks_le; [apply unhooks_refl|lia]).
  apply Forall_cons in Hown as [Hown1 Hown]. cbn [queue_links]. destruct (find_handle_object_ok st X w conn h I Hc) as (r & -> & Hr). cbn [mbind option_bind].
  destruct r as [o|]; [|exists false, st, links0; done]. destruct (Hr o eq_refl) as (Hnz & Hh & Hin & Hent).
  destruct (ro_there _ _ (si_refs _ _ I) o) as [obj Ho]; [apply elem_of_app; by left|]. rewrite Ho. cbn [mbind option_bind].
  destruct (link_source obj o) as [src|] eqn:Hsrc; [|exists false, st, links0; done].
  assert (op_handles (wt_op f) !! length (wt_links f) = Some h) as Hi by (rewrite Hop, Hlen, lookup_app_r, Nat.sub_diag by lia; done).
  destruct (queue_link_ok st X w f conn h o obj src I) as (st2 & srcobj & E2 & Hsrcobj & F2 & I3 & H3 & S3 & W3); try done; [eapply refs_room_le; [done|]; simpl length; lia|].
  match type of E2 with mbind ?k ?m = _ => destruct m as [st1|] eqn:E1 end; [|done]. cbn [mbind option_bind] in E2 |- *.
  destruct (ws_objects st1 !! o) as [obj1|] eqn:Ho1; [|done]. cbn [mbind option_bind] in E2 |- *. injection E2 as E2. rewrite E2, Hsrcobj. cbn [mbind option_bind]. rewrite F2, Hw. cbn [mbind option_bind].
  set (f3 := f_links f (wt_queued f) (wt_links f ++ [(o, src)])) in *. set (st3 := put_frame _ w f3) in *.
  destruct (IH st3 X w f3 conn (pre ++ [h])) as (ok & st' & links & E & I' & H' & F' & Hok & W'); [done| |simpl; by rewrite lookup_insert_eq|done|by rewrite (uh_conns _ _ _ _ H3)|rewrite <- (assoc (++)); done|simpl; rewrite !length_app; simpl; lia| |].
  { apply (rehooks_room _ _ _ _ _ H3) in Hroom. eapply refs_room_le; [done|]. simpl length. lia. }
  { eapply Forall_impl; [exact Hown|]. intros h' Hh'. apply (owned_stable st st3 _ _ S3); [|apply (uh_handles _ _ _ _ H3)|apply (uh_entries _ _ _ _ H3)|apply (uh_conns _ _ _ _ H3)|done].
    rewrite (uh_handles _ _ _ _ H3), (uh_entries _ _ _ _ H3). intros e en He Hen. apply (ro_there _ _ (si_refs _ _ I)), elem_of_app. left. by eapply ref_entry. }
  exists ok, st', links. split; [done|]. split; [done|]. split; [|split; [|split]].
  - replace (2 * Z.of_nat (length (h :: handles))) with (2 + 2 * Z.of_nat (length handles)) by (simpl length; lia). by eapply rehooks_trans.
  - rewrite F'. by destruct f.
  - intros Hk. destruct (Hok Hk) as [Hlen' Hlive]. split; [by rewrite Hlen', <- (assoc (++))|]. constructor.
    + destruct (decide (h = HORIZON_CURRENT_THREAD_HANDLE)) as [->|Hne]; [by left|right]. destruct (Hent Hne) as (e & en & He & Hen & Hhe & _). by exists e, en.
    + eapply Forall_impl; [exact Hlive|]. intros h' [->|(e & en & He)]; [by left|right]. exists e, en. by rewrite <- (uh_handles _ _ _ _ H3), <- (uh_entries _ _ _ _ H3).
  - by rewrite W'.
Qed.

Lemma queue_handles_ops op handles : queue_handles op = Some handles -> op_handles op = handles /\ (1 <= length handles <= 64)%nat.
Proof.
  destruct op as [|hs all|wait signal| |]; simpl; try done.
  - destruct (bool_decide_reflect (hs = [])) as [->|Hne]; simpl; [done|]. destruct (Z.ltb_spec 64 (Z.of_nat (length hs))); simpl; [done|].
    intros [= <-]. split; [done|]. destruct hs; [done|]. simpl in *. lia.
  - intros [= <-]. split; [done|]. simpl. lia.
Qed.

Lemma sync_queue_ok st X w f conn : server_inv st X -> refs_room st 128 -> ws_frames st !! w = Some f -> wt_queued f = false -> wt_links f = [] -> ws_conns st !! w = Some conn ->
  Forall (owned st (cn_tid conn)) (op_handles (wt_op f)) ->
  exists ok st' links, horizon_sync_queue_locked st w = Some (ok, st') /\ server_inv st' X /\ rehooks st st' w 128 /\ ws_frames st' !! w = Some (f_links f ok links) /\
    (ok = false -> links = []) /\ (ok = true -> Forall (live st) (op_handles (wt_op f))) /\ (forall x, x <> w -> x ∈ ws_waiting st' <-> x ∈ ws_waiting st).
Proof.
  intros I Hroom Hw Hq Hli Hc Hown. unfold horizon_sync_queue_locked. rewrite Hw. cbn [mbind option_bind].
  assert (rehooks st st w 128) as Hself by (eapply rehooks_le; [apply unhooks_refl|lia]).
  destruct (queue_handles (wt_op f)) as [handles|] eqn:Hqh; [|exists false, st, []; split; [done|]; split; [done|]; split; [done|]; split; [rewrite Hw; by apply f_links_same|done]].
  apply queue_handles_ops in Hqh as Hops. destruct Hops as [Hop Hb]. rewrite Hop in Hown.
  destruct (queue_links_ok handles st X w f conn [] I) as (ok & st1 & links & E1 & I1 & H1 & F1 & Hok & W1); try done; [eapply refs_room_le; [done|]; lia|by rewrite Hli|]. rewrite E1. cbn [mbind option_bind].
  destruct ok.
  - rewrite F1. cbn [mbind option_bind]. eexists true, _, links. split; [done|]. destruct (si_waiting _ _ I1) as [N1 N2].
    assert (w ∉ ws_waiting st1) as Hnw by (intros Hx; apply N2 in Hx as (g & Hg & Hgq); rewrite F1 in Hg; injection Hg as <-; done).
    split; [|split; [|split; [|split; [done|split]]]].
    + apply (inv_put_frame st1 X w _ (f_links (f_links f false links) true links) _ I1 F1); [done|done| |by constructor|].
      * intros _. simpl. rewrite (proj1 (Hok eq_refl)). simpl. by rewrite Hop.
      * intros x. rewrite elem_of_cons. simpl. split; [intros [->|Hx]; [by left|right]; split; [intros ->; done|done]|]. intros [[-> _]|[_ H]]; [by left|by right].
    + assert (rehooks st st1 w 128) as H1' by (eapply rehooks_le; [exact H1|lia]).
      replace 128 with (128 + 0) by lia. eapply rehooks_trans; [exact H1'|]. split; try done; [|intros w' Hne; simpl; by rewrite lookup_insert_ne]. intros p x Hx. exists x. split; [done|]. split; [apply same_payload_refl|lia].
    + simpl. rewrite lookup_insert_eq. by destruct f.
    + intros _. rewrite Hop. by apply Hok.
    + intros x Hne. simpl. rewrite elem_of_cons, W1. naive_solver.
  - destruct (unqueue_ok st1 X w (f_links f false links) I1) as (st2 & E2 & I2 & U2 & F2 & Wt2); [|exact F1|].
    { apply (rehooks_room _ _ _ _ _ H1) in Hroom. eapply refs_room_le; [done|]. lia. }
    rewrite E2. cbn [mbind option_bind]. exists false, st2, []. split; [done|]. split; [done|]. split; [|split; [rewrite F2; by destruct f|split; [done|split; [done|]]]].
    + replace 128 with (128 + 0) by lia. eapply rehooks_trans; [eapply rehooks_le; [exact H1|lia]|exact U2].
    + intros x Hne. rewrite Wt2, W1. naive_solver.
Qed.
