(* ===== verification/ServerWake.v ===== *)
(** * Sleeping selects have nothing to wake for

    A select that sleeps in the lists of its objects and has not been notified
    has nothing to return: that is the invariant [wake_except] of the server,
    with the selects excepted that an operation has yet to notify. This file
    defines it and shows what waits, consumed signals and notifications do to
    it. *)
From S2P Require Import Prelude Chain Completion Threads ServerObjects ServerSync ServerRequests ServerSelect ServerInv ServerLinks.
Local Open Scope Z_scope.

(** ** Signals *)

(** Whether thread [tid] gets something of object [o]. A mutex counts as taken
    while it has an owner. *)
Definition object_signals (objs : gmap positive server_object) (tid : Z) (obj : server_object) : bool :=
  match ob_type obj with
  | OBJECT_EVENT | OBJECT_TIMER => ob_signaled obj
  | OBJECT_MUTEX => (mx_owner (ob_mutex obj) =? 0) || (mx_owner (ob_mutex obj) =? tid)
  | OBJECT_SEMAPHORE => 0 <? ob_count obj
  | OBJECT_THREAD => ts_terminated (ob_thread obj)
  | OBJECT_COMPLETION => 0 <? cq_depth (ob_completion obj)
  | OBJECT_COMPLETION_WAIT =>
      match ob_wait_port obj with
      | None => true
      | Some p => match objs !! p with Some port => ob_completion_closed port || (0 <? cq_depth (ob_completion port)) | None => true end
      end
  | _ => true
  end.

Definition signals (objs : gmap positive server_object) (tid : Z) (o : positive) : bool := match objs !! o with Some obj => object_signals objs tid obj | None => false end.

(** No mutex has been taken so often by its owner that its count wrapped. *)
Definition mutex_counts (st : wine_server) : Prop := forall o obj, ws_objects st !! o = Some obj -> mx_count (ob_mutex obj) = 0 -> mx_owner (ob_mutex obj) = 0.

Lemma depth_nonneg st X o obj : server_inv st X -> ws_objects st !! o = Some obj -> 0 <= cq_depth (ob_completion obj).
Proof. intros I Ho. destruct (si_objects _ _ I o obj Ho) as [_ _ _ [(ls & xs & _ & ->) _]]. lia. Qed.

(** The signal of the code, which is at least that much. *)
Lemma is_signaled_ok st X tid o obj : server_inv st X -> ws_objects st !! o = Some obj ->
  exists b, horizon_server_object_is_signaled st tid obj = Some b /\
    (is_Some (link_source obj o) -> b = false -> object_signals (ws_objects st) tid obj = false) /\
    (mutex_counts st -> object_signals (ws_objects st) tid obj = false -> b = false).
Proof.
  intros I Ho. pose proof (si_objects _ _ I o obj Ho) as Hok. destruct (oo_payload _ _ Hok) as (_ & Hm & _).
  unfold horizon_server_object_is_signaled, object_signals.
  destruct (ob_type obj) eqn:Ht; try (eexists; split; [done|]; unfold link_source; rewrite Ht; split; [intros [? ?]; done|done]).
  - eexists. split; [done|]. unfold horizon_mutex_signaled. split.
    + intros _. rewrite orb_false_iff, negb_false_iff. unfold nonzero. rewrite negb_true_iff, Z.eqb_neq. intros [Hc ->]. rewrite orb_false_r. apply Z.eqb_neq. by apply Hm.
    + intros Hmc. specialize (Hmc o obj Ho). rewrite !orb_false_iff. intros [H1 ->]. split; [|done]. apply Z.eqb_neq in H1. unfold nonzero. rewrite negb_involutive. apply Z.eqb_neq. tauto.
  - unfold port_queue. destruct (ob_wait_port obj) as [p|] eqn:Hp.
    + destruct (ro_there _ _ (si_refs _ _ I) p) as [port Hport]; [apply elem_of_app; left; eapply ref_object; [done|]; apply object_refs_in; by left|].
      rewrite Hport. cbn [mbind option_bind fmap option_fmap option_map fst snd default]. eexists. split; [done|]. unfold horizon_completion_wait_signaled. simpl.
      pose proof (depth_nonneg _ _ _ _ I Hport). unfold nonzero.
      assert (negb (cq_depth (ob_completion port) =? 0) = (0 <? cq_depth (ob_completion port))) as -> by (destruct (Z.eqb_spec (cq_depth (ob_completion port)) 0), (Z.ltb_spec 0 (cq_depth (ob_completion port))); simpl; lia). done.
    + cbn [mbind option_bind fmap option_fmap option_map]. eexists. split; [done|]. done.
Qed.

(** ** What waits and notifications change *)

Record consumed (obj obj' : server_object) : Prop := {
  cs_shape : same_shape obj obj';
  cs_thread : ob_thread obj' = ob_thread obj;
  cs_apcs : ob_apcs obj' = ob_apcs obj;
  cs_when : ob_timer_when obj' = ob_timer_when obj;
  cs_closed : ob_completion_closed obj' = ob_completion_closed obj;
  cs_file : ob_file obj' = ob_file obj;
  cs_key : ob_reg_key obj' = ob_reg_key obj;
  cs_max : ob_max obj' = ob_max obj;
}.

Lemma consumed_refl obj : consumed obj obj.
Proof. by split. Qed.

Lemma consumed_trans o1 o2 o3 : consumed o1 o2 -> consumed o2 o3 -> consumed o1 o3.
Proof. intros [A1 A2 A3 A4 A5 A6 A7 A8] [B1 B2 B3 B4 B5 B6 B7 B8]. split; [by eapply same_shape_trans|congruence..]. Qed.

(** The flags of a select that a notification changes. *)
Definition calm_frame (f f' : horizon_sync_waiter) : Prop :=
  f' = f_status (f_notified f (wt_notified f')) (wt_completed f') (wt_status f') /\ (wt_notified f = true -> wt_notified f' = true) /\ (wt_completed f = true -> f' = f_notified f (wt_notified f')).

Lemma calm_frame_refl f : calm_frame f f.
Proof. split; [by destruct f|]. split; [done|]. by destruct f. Qed.

Lemma calm_frame_trans f1 f2 f3 : calm_frame f1 f2 -> calm_frame f2 f3 -> calm_frame f1 f3.
Proof.
  intros (A1 & A2 & A3) (B1 & B2 & B3). split; [rewrite B1, A1; by destruct f1|]. split; [auto|]. intros H. specialize (A3 H).
  assert (wt_completed f2 = true) as H2 by (rewrite A3; done). rewrite (B3 H2), A3. by destruct f1.
Qed.

Record calm (st st' : wine_server) : Prop := {
  ca_objects : forall p obj, ws_objects st !! p = Some obj -> exists obj', ws_objects st' !! p = Some obj' /\ consumed obj obj';
  ca_dom : forall p, ws_objects st !! p = None -> ws_objects st' !! p = None;
  ca_entries : ws_entries st' = ws_entries st;
  ca_handles : ws_handles st' = ws_handles st;
  ca_hash : ws_hash st' = ws_hash st;
  ca_next : ws_next_handle st' = ws_next_handle st;
  ca_timers : ws_timers st' = ws_timers st;
  ca_threads : ws_threads st' = ws_threads st;
  ca_conns : ws_conns st' = ws_conns st;
  ca_waiting : ws_waiting st' = ws_waiting st;
  ca_held : ws_held st' = ws_held st;
  ca_views : ws_views st' = ws_views st;
  ca_ready : ws_ready st' = ws_ready st;
  ca_next_tid : ws_next_tid st' = ws_next_tid st;
  ca_frames : forall w f, ws_frames st !! w = Some f -> exists f', ws_frames st' !! w = Some f' /\ calm_frame f f';
  ca_no_frame : forall w, ws_frames st !! w = None -> ws_frames st' !! w = None;
}.

Lemma calm_refl st : calm st st.
Proof. split; try done; [intros p obj Hp; exists obj; split; [done|apply consumed_refl]|intros w f Hw; exists f; split; [done|apply calm_frame_refl]]. Qed.

Lemma calm_trans st1 st2 st3 : calm st1 st2 -> calm st2 st3 -> calm st1 st3.
Proof.
  intros A B. split; try (etransitivity; [apply B|apply A]).
  - intros p o1 H1. destruct (ca_objects _ _ A p o1 H1) as (o2 & H2 & C2). destruct (ca_objects _ _ B p o2 H2) as (o3 & H3 & C3). exists o3. split; [done|]. by eapply consumed_trans.
  - intros p H. by apply (ca_dom _ _ B), (ca_dom _ _ A).
  - intros w f1 H1. destruct (ca_frames _ _ A w f1 H1) as (f2 & H2 & C2). destruct (ca_frames _ _ B w f2 H2) as (f3 & H3 & C3). exists f3. split; [done|]. by eapply calm_frame_trans.
  - intros w H. by apply (ca_no_frame _ _ B), (ca_no_frame _ _ A).
Qed.

Lemma calm_back st st' p obj' : calm st st' -> ws_objects st' !! p = Some obj' -> exists obj, ws_objects st !! p = Some obj /\ consumed obj obj'.
Proof.
  intros C H. destruct (ws_objects st !! p) as [obj|] eqn:E; [|rewrite (ca_dom _ _ C p E) in H; done].
  destruct (ca_objects _ _ C p obj E) as (x & Hx & Hc). rewrite Hx in H. injection H as ->. by exists obj.
Qed.

Lemma calm_frame_back st st' w f' : calm st st' -> ws_frames st' !! w = Some f' -> exists f, ws_frames st !! w = Some f /\ calm_frame f f'.
Proof.
  intros C H. destruct (ws_frames st !! w) as [f|] eqn:E; [|rewrite (ca_no_frame _ _ C w E) in H; done].
  destruct (ca_frames _ _ C w f E) as (x & Hx & Hc). rewrite Hx in H. injection H as ->. by exists f.
Qed.

Lemma calm_room st st' k : calm st st' -> refs_room st k -> refs_room st' k.
Proof. intros C H o obj' Ho. destruct (calm_back _ _ _ _ C Ho) as (obj & Hobj & Hc). rewrite (sh_refs _ _ (cs_shape _ _ Hc)). by apply (H o). Qed.

Lemma calm_type st st' p : calm st st' -> type_at (ws_objects st') p = type_at (ws_objects st) p.
Proof.
  intros C. unfold type_at. destruct (ws_objects st !! p) as [obj|] eqn:E.
  - destruct (ca_objects _ _ C p obj E) as (obj' & -> & Hc). simpl. by rewrite (sh_type _ _ (cs_shape _ _ Hc)).
  - by rewrite (ca_dom _ _ C p E).
Qed.

Lemma calm_object st o obj obj' : ws_objects st !! o = Some obj -> consumed obj obj' -> calm st (put_object st o obj').
Proof.
  intros Ho Hc. split; try done.
  - intros p x Hx. simpl. destruct (decide (p = o)) as [->|Hne]; [rewrite lookup_insert_eq; rewrite Ho in Hx; injection Hx as <-; by exists obj'|].
    rewrite lookup_insert_ne by done. exists x. split; [done|apply consumed_refl].
  - intros p Hp. simpl. rewrite lookup_insert_ne; [done|]. intros ->. congruence.
  - intros w f Hw. exists f. split; [done|apply calm_frame_refl].
Qed.

Lemma calm_put_frame st w f f' : ws_frames st !! w = Some f -> calm_frame f f' -> calm st (put_frame st w f').
Proof.
  intros Hw Hc. split; try done.
  - intros p obj Hp. exists obj. split; [done|apply consumed_refl].
  - intros w' g Hg. simpl. destruct (decide (w' = w)) as [->|Hne]; [rewrite lookup_insert_eq; rewrite Hw in Hg; injection Hg as <-; by exists f'|].
    rewrite lookup_insert_ne by done. exists g. split; [done|apply calm_frame_refl].
  - intros w' Hw'. simpl. rewrite lookup_insert_ne; [done|]. intros ->. congruence.
Qed.

(** ** Taking signals *)

(** What a wait of thread [tid] does: it takes signals, and for other threads
    nothing is signaled that was not. *)
Record takes (st st' : wine_server) (tid : Z) : Prop := {
  tk_calm : calm st st';
  tk_frames : ws_frames st' = ws_frames st;
  tk_quiet : forall tid' o, tid' <> tid -> signals (ws_objects st') tid' o = true -> signals (ws_objects st) tid' o = true;
}.

Lemma takes_refl st tid : takes st st tid.
Proof. split; [apply calm_refl|done|done]. Qed.

Lemma takes_trans st1 st2 st3 tid : takes st1 st2 tid -> takes st2 st3 tid -> takes st1 st3 tid.
Proof. intros [A1 A2 A3] [B1 B2 B3]. split; [by eapply calm_trans|congruence|auto]. Qed.

(** Changing an object that is no port. *)
Lemma signals_put objs o obj obj' tid p :
  objs !! o = Some obj -> ob_type obj' = ob_type obj -> ob_wait_port obj' = ob_wait_port obj ->
  (ob_completion_closed obj' || (0 <? cq_depth (ob_completion obj')) = true -> ob_completion_closed obj || (0 <? cq_depth (ob_completion obj)) = true) ->
  (object_signals objs tid obj' = true -> object_signals objs tid obj = true) ->
  signals (<[o := obj']> objs) tid p = true -> signals objs tid p = true.
Proof.
  intros Ho Ht Hp Hport Hsig.
  assert (forall x, object_signals (<[o := obj']> objs) tid x = true -> object_signals objs tid x = true) as Hx.
  { intros x. unfold object_signals. destruct (ob_type x); try done. destruct (ob_wait_port x) as [q|]; [|done]. destruct (decide (q = o)) as [->|Hne].
    - rewrite lookup_insert_eq, Ho. exact Hport.
    - by rewrite lookup_insert_ne. }
  unfold signals. destruct (decide (p = o)) as [->|Hne]; [rewrite lookup_insert_eq, Ho; auto|]. rewrite lookup_insert_ne by done. destruct (objs !! p); [|done]. apply Hx.
Qed.

Lemma takes_put st tid o obj obj' :
  ws_objects st !! o = Some obj -> consumed obj obj' -> (0 <? cq_depth (ob_completion obj') = true -> 0 <? cq_depth (ob_completion obj) = true) ->
  (forall tid', tid' <> tid -> object_signals (ws_objects st) tid' obj' = true -> object_signals (ws_objects st) tid' obj = true) ->
  takes st (put_object st o obj') tid.
Proof.
  intros Ho Hc Hd Hs. split; [by apply (calm_object st o obj)|done|]. intros tid' p Hne. apply signals_put with obj; [done|apply Hc|apply Hc| |by apply Hs].
  rewrite (cs_closed _ _ Hc). rewrite !orb_true_iff. tauto.
Qed.

Lemma queue_ok_take q : queue_ok q -> exists m q', horizon_completion_take q = Some (m, q') /\ queue_ok q' /\ cq_depth q' <= cq_depth q.
Proof.
  intros (ls & xs & Hr & Hd). destruct xs as [|x xs].
  - exists None, q. split; [by eapply completion_take_empty|]. split; [by exists ls, []|lia].
  - destruct (completion_take_rep q ls x xs Hr) as (q' & ls' & E & Hr'). exists (Some x), q'. split; [done|].
    assert (cq_depth q' = Z.of_nat (length xs)) as Hd'.
    { pose proof (cq_rep_depth _ _ _ Hr) as H1. rewrite Hd in H1. assert (Z.of_nat (length (x :: xs)) < 4294967296) as Hlt by (unfold u32 in H1; pose proof (Z.mod_pos_bound (Z.of_nat (length (x :: xs))) 4294967296); lia).
      rewrite (cq_rep_depth _ _ _ Hr'). apply u32_small. unfold is_u32. simpl length in Hlt. lia. }
    split; [by exists ls', xs|]. rewrite Hd', Hd. simpl length. lia.
Qed.

Lemma consume_ok st X tid o obj : server_inv st X -> tid <> 0 -> ws_objects st !! o = Some obj ->
  exists b st', horizon_server_consume_signal st tid o obj = Some (b, st') /\ server_inv st' X /\ takes st st' tid.
Proof.
  intros I Htid Ho. pose proof (si_objects _ _ I o obj Ho) as Hok. destruct (oo_payload _ _ Hok) as (Hq & Hm & Hth).
  assert (forall b : bool, exists st', Some (b, st) = Some (b, st') /\ server_inv st' X /\ takes st st' tid) as Hnone by (intros b; exists st; split; [done|]; split; [done|apply takes_refl]).
  assert (forall obj', consumed obj obj' -> payload_ok obj' -> (ob_completion obj' = ob_completion obj) ->
    (forall tid', tid' <> tid -> object_signals (ws_objects st) tid' obj' = true -> object_signals (ws_objects st) tid' obj = true) ->
    forall b : bool, exists st', Some (b, put_object st o obj') = Some (b, st') /\ server_inv st' X /\ takes st st' tid) as Hput.
  { intros obj' Hc Hpay Hcq Hs b. eexists. split; [done|]. split; [|apply (takes_put st tid o obj); [done|done|by rewrite Hcq|done]].
    apply (inv_put_payload st X o obj obj' I Ho); [apply Hc|done|]. by rewrite (cs_when _ _ Hc). }
  unfold horizon_server_consume_signal. destruct (ob_type obj) eqn:Ht; try (by exists false; apply Hnone).
  - exists false. destruct (ob_manual_reset obj); [apply Hnone|]. apply Hput; [by split|done|done|]. intros tid' _. unfold object_signals. simpl. by rewrite Ht.
  - unfold horizon_mutex_acquire. eexists. apply Hput; [by split| |done|].
    + split; [done|]. split; [|done]. simpl. destruct (nonzero (mx_count (ob_mutex obj)) && (mx_owner (ob_mutex obj) =? tid)) eqn:E; simpl; [|done].
      apply andb_true_iff in E as [_ E]. apply Z.eqb_eq in E as ->. done.
    + intros tid' Hne. unfold object_signals. simpl. rewrite Ht. destruct (nonzero (mx_count (ob_mutex obj)) && (mx_owner (ob_mutex obj) =? tid)); simpl; [done|].
      rewrite !orb_true_iff, !Z.eqb_eq. intros [?|?]; [done|congruence].
  - exists false. destruct (nonzero (ob_count obj)); [|apply Hnone]. apply Hput; [by split|done|done|]. intros tid' _. unfold object_signals. simpl. rewrite Ht. rewrite !Z.ltb_lt. lia.
  - exists false. destruct (ob_manual_reset obj); [apply Hnone|]. apply Hput; [by split|done|done|]. intros tid' _. unfold object_signals. simpl. by rewrite Ht.
  - unfold port_queue. destruct (ob_wait_port obj) as [p|] eqn:Hp; [|cbn; exists true; rewrite Ho; cbn; apply Hnone].
    destruct (ro_there _ _ (si_refs _ _ I) p) as [port Hport]; [apply elem_of_app; left; eapply ref_object; [done|]; apply object_refs_in; by left|].
    destruct (oo_port _ _ Hok p Hp) as [_ Htp]. assert (p <> o) as Hpo by (intros ->; unfold type_at in Htp; rewrite Ho in Htp; simpl in Htp; congruence).
    rewrite Hport. cbn [mbind option_bind fmap option_fmap option_map fst snd default]. unfold horizon_completion_wait_satisfy, id.
    pose proof (si_objects _ _ I p port Hport) as Hokp. destruct (oo_payload _ _ Hokp) as (Hqp & Hmp & Hthp).
    assert (forall q', queue_ok q' -> cq_depth q' <= cq_depth (ob_completion port) -> server_inv (put_object st p (o_completion port q')) X /\ takes st (put_object st p (o_completion port q')) tid) as Hpp.
    { intros q' Hq' Hle. split.
      - apply (inv_put_payload st X p port _ I Hport); [by split|done|done].
      - apply (takes_put st tid p port); [done|by split|simpl; rewrite !Z.ltb_lt; lia|]. intros tid' _. unfold object_signals. simpl. unfold type_at in Htp. rewrite Hport in Htp. simpl in Htp. injection Htp as ->. rewrite !Z.ltb_lt. lia. }
    destruct (ob_completion_closed port).
    + cbn [mbind option_bind]. destruct (Hpp (ob_completion port)) as [I1 T1]; [done|lia|]. simpl. rewrite lookup_insert_ne, Ho by done. cbn [mbind option_bind]. eexists _, _. split; [done|done].
    + destruct (queue_ok_take (ob_completion port) Hqp) as (m & q' & Em & Hq' & Hle). rewrite Em. cbn [mbind option_bind]. destruct (Hpp q' Hq' Hle) as [I1 T1].
      set (st1 := put_object st p (o_completion port q')) in *. assert (ws_objects st1 !! o = Some obj) as Ho1 by (simpl; by rewrite lookup_insert_ne). rewrite Ho1. cbn [mbind option_bind].
      assert (forall m' b', server_inv (put_object st1 o (o_wait_msg obj m' b')) X /\ takes st (put_object st1 o (o_wait_msg obj m' b')) tid) as Hmsg.
      { intros m' b'. split; [apply (inv_put_payload st1 X o obj _ I1 Ho1); [by split|done|done]|]. eapply takes_trans; [exact T1|]. apply (takes_put st1 tid o obj); [done|by split|done|]. intros tid' _. unfold object_signals. simpl. rewrite Ht. done. }
      destruct m as [m|]; eexists _, _; (split; [done|]); apply Hmsg.
Qed.

(** ** Waits *)

(** Thread [tid] gets nothing of handle [h]. *)
Definition handle_still (st : wine_server) (tid h : Z) : Prop :=
  h <> 0 /\ (h = HORIZON_CURRENT_THREAD_HANDLE \/
    exists e en obj, e ∈ ws_handles st /\ ws_entries st !! e = Some en /\ he_handle en = h /\ ws_objects st !! he_object en = Some obj /\ horizon_server_object_is_signaled st tid obj = Some false).

Lemma current_tid_is st c conn : ws_conns st !! c = Some conn -> horizon_server_current_tid st (Some c) = cn_tid conn.
Proof. intros Hc. unfold horizon_server_current_tid. cbn [mbind option_bind]. by rewrite Hc. Qed.

Lemma wait_object_ok st X c conn h consume : server_inv st X -> ws_conns st !! c = Some conn -> cn_tid conn <> 0 ->
  exists s st', horizon_server_wait_object_locked st (Some c) h consume = Some (s, st') /\ server_inv st' X /\ takes st st' (cn_tid conn) /\
    s ∈ [HORIZON_STATUS_SUCCESS; HORIZON_STATUS_ABANDONED_WAIT_0; HORIZON_STATUS_TIMEOUT; HORIZON_STATUS_INVALID_HANDLE] /\
    (s = HORIZON_STATUS_TIMEOUT -> st' = st /\ handle_still st (cn_tid conn) h) /\ (consume = false -> st' = st).
Proof.
  intros I Hc Htid. unfold horizon_server_wait_object_locked. rewrite (current_tid_is st c conn Hc).
  assert (forall s, s ∈ [HORIZON_STATUS_SUCCESS; HORIZON_STATUS_ABANDONED_WAIT_0; HORIZON_STATUS_TIMEOUT; HORIZON_STATUS_INVALID_HANDLE] -> (s = HORIZON_STATUS_TIMEOUT -> handle_still st (cn_tid conn) h) ->
    exists s' st', Some (s, st) = Some (s', st') /\ server_inv st' X /\ takes st st' (cn_tid conn) /\
    s' ∈ [HORIZON_STATUS_SUCCESS; HORIZON_STATUS_ABANDONED_WAIT_0; HORIZON_STATUS_TIMEOUT; HORIZON_STATUS_INVALID_HANDLE] /\
    (s' = HORIZON_STATUS_TIMEOUT -> st' = st /\ handle_still st (cn_tid conn) h) /\ (consume = false -> st' = st)) as Hno.
  { intros s Hs Hst. exists s, st. split; [done|]. split; [done|]. split; [apply takes_refl|]. split; [done|]. split; [|done]. intros Heq. split; [done|by apply Hst]. }
  destruct (Z.eqb_spec h 0) as [->|Hnz]; [by apply Hno; [set_solver|]|]. destruct (Z.eqb_spec h HORIZON_CURRENT_THREAD_HANDLE) as [->|Hnt].
  { unfold horizon_server_get_thread_locked. rewrite Z.eqb_refl. cbn [mbind option_bind]. destruct (decide (is_Some (current_thread st (Some c)))); apply Hno; [set_solver|intros _; split; [done|by left]|set_solver|done]. }
  destruct (find_handle_ok st X h I) as (r & -> & Hr). cbn [mbind option_bind]. destruct r as [e|]; [|by apply Hno; [set_solver|]].
  destruct Hr as [Hin (en & Hen & Hh)]. destruct (entry_ok st X e I Hin) as (en' & obj & -> & Hen' & Ho). rewrite Hen in Hen'. injection Hen' as <-. cbn [mbind option_bind].
  destruct (is_signaled_ok st X (cn_tid conn) _ obj I Ho) as (b & Hb & _ & _). rewrite Hb. cbn [mbind option_bind]. destruct b; cbn [negb].
  - destruct consume; cbn [negb]; [|by apply Hno; [set_solver|]].
    destruct (consume_ok st X (cn_tid conn) _ obj I Htid Ho) as (a & st' & Ea & I' & T'). rewrite Ea. cbn [mbind option_bind].
    exists (if a then HORIZON_STATUS_ABANDONED_WAIT_0 else HORIZON_STATUS_SUCCESS), st'. split; [by destruct a|]. split; [done|]. split; [done|]. split; [destruct a; set_solver|]. by destruct a.
  - apply Hno; [set_solver|]. intros _. split; [done|]. right. by exists e, en, obj.
Qed.

Lemma wait_object_still st X c conn h consume : server_inv st X -> ws_conns st !! c = Some conn -> is_Some (cn_thread conn) -> handle_still st (cn_tid conn) h ->
  horizon_server_wait_object_locked st (Some c) h consume = Some (HORIZON_STATUS_TIMEOUT, st).
Proof.
  intros I Hc Hth [Hnz Hs]. unfold horizon_server_wait_object_locked. rewrite (current_tid_is st c conn Hc). destruct (Z.eqb_spec h 0); [done|].
  destruct (Z.eqb_spec h HORIZON_CURRENT_THREAD_HANDLE) as [->|Hnt].
  { unfold horizon_server_get_thread_locked. rewrite Z.eqb_refl. cbn [mbind option_bind]. unfold current_thread. cbn [mbind option_bind]. rewrite Hc. by rewrite decide_True. }
  destruct Hs as [->|(e & en & obj & Hin & Hen & Hh & Ho & Hb)]; [done|]. rewrite (find_handle_is st X h e en I Hin Hen Hh). cbn [mbind option_bind].
  unfold entry_object. rewrite Hen. cbn [mbind option_bind]. rewrite Ho. cbn [mbind option_bind]. by rewrite Hb.
Qed.

Lemma handle_still_live st tid h : handle_still st tid h -> live st h.
Proof. intros [H0 [->|(e & en & obj & He & Hen & Hh & _)]]; [by left|right; by exists e, en]. Qed.

Lemma wait_live_or_invalid st X c h consume : server_inv st X -> live st h \/ horizon_server_wait_object_locked st (Some c) h consume = Some (HORIZON_STATUS_INVALID_HANDLE, st).
Proof.
  intros I. unfold horizon_server_wait_object_locked. destruct (h =? 0); [by right|]. destruct (Z.eqb_spec h HORIZON_CURRENT_THREAD_HANDLE) as [->|Hne]; [left; by left|].
  destruct (find_handle_ok st X h I) as ([e|] & -> & Hr); [|by right]. destruct Hr as (He & en & Hen & Hh). left. right. by exists e, en.
Qed.

Lemma wait_all_test_ok handles : forall st X c conn, server_inv st X -> ws_conns st !! c = Some conn -> cn_tid conn <> 0 ->
  exists s, wait_all_test st (Some c) handles = Some s /\ (s = HORIZON_STATUS_TIMEOUT -> exists i h, handles !! i = Some h /\ handle_still st (cn_tid conn) h /\ Forall (live st) (take i handles)).
Proof.
  induction handles as [|h handles IH]; intros st X c conn I Hc Htid; [exists HORIZON_STATUS_SUCCESS; done|]. cbn [wait_all_test].
  destruct (wait_object_ok st X c conn h false I Hc Htid) as (s & st' & Es & _ & _ & _ & Hst & _). rewrite Es. cbn [mbind option_bind]. destruct (nonzero s) eqn:Hnz.
  - exists s. split; [done|]. intros Hs. exists 0%nat, h. split; [done|]. split; [by apply Hst|by apply Forall_nil].
  - destruct (IH st X c conn I Hc Htid) as (s' & -> & Hs'). exists s'. split; [done|]. intros E. destruct (Hs' E) as (i & h' & Hi & Hh & Hlv). exists (S i), h'. split; [done|]. split; [done|].
    simpl. apply Forall_cons. split; [|done]. destruct (wait_live_or_invalid st X c h false I) as [Hl|Hi']; [done|]. rewrite Es in Hi'. injection Hi' as -> _. done.
Qed.

Lemma wait_all_take_ok handles : forall st X c conn s, server_inv st X -> ws_conns st !! c = Some conn -> cn_tid conn <> 0 ->
  exists s' st', wait_all_take st (Some c) handles s = Some (s', st') /\ server_inv st' X /\ takes st st' (cn_tid conn) /\ s' ∈ [s; HORIZON_STATUS_ABANDONED_WAIT_0].
Proof.
  induction handles as [|h handles IH]; intros st X c conn s I Hc Htid; [exists s, st; split; [done|]; split; [done|]; split; [apply takes_refl|set_solver]|]. cbn [wait_all_take].
  destruct (wait_object_ok st X c conn h true I Hc Htid) as (s1 & st1 & -> & I1 & T1 & _). cbn [mbind option_bind].
  destruct (IH st1 X c conn (if s1 =? HORIZON_STATUS_ABANDONED_WAIT_0 then HORIZON_STATUS_ABANDONED_WAIT_0 else s)) as (s' & st' & -> & I' & T' & Hs'); [done|by rewrite (ca_conns _ _ (tk_calm _ _ _ T1))|done|].
  exists s', st'. split; [done|]. split; [done|]. split; [by eapply takes_trans|]. destruct (s1 =? HORIZON_STATUS_ABANDONED_WAIT_0); set_solver.
Qed.

Lemma wait_any_ok handles : forall st X c conn i s, server_inv st X -> ws_conns st !! c = Some conn -> cn_tid conn <> 0 -> 0 <= i -> i + Z.of_nat (length handles) <= 64 -> s = HORIZON_STATUS_TIMEOUT ->
  exists s' st', wait_any st (Some c) handles i s = Some (s', st') /\ server_inv st' X /\ takes st st' (cn_tid conn) /\
    (s' = HORIZON_STATUS_TIMEOUT -> st' = st /\ Forall (handle_still st (cn_tid conn)) handles).
Proof.
  induction handles as [|h handles IH]; intros st X c conn i s I Hc Htid Hi Hlen Hs; [exists s, st; split; [done|]; split; [done|]; split; [apply takes_refl|done]|]. cbn [wait_any]. simpl length in Hlen.
  destruct (wait_object_ok st X c conn h true I Hc Htid) as (s1 & st1 & -> & I1 & T1 & Hin & Hst & _). cbn [mbind option_bind].
  rewrite !elem_of_cons in Hin. destruct Hin as [-> |[-> |[-> |[-> |H]]]]; [| | | |by apply elem_of_nil in H]; cbn.
  - eexists _, st1. split; [done|]. split; [done|]. split; [done|]. unfold HORIZON_STATUS_TIMEOUT, HORIZON_STATUS_SUCCESS. rewrite u32_small by (unfold is_u32; lia). intros E. exfalso. lia.
  - eexists _, st1. split; [done|]. split; [done|]. split; [done|]. unfold HORIZON_STATUS_TIMEOUT, HORIZON_STATUS_ABANDONED_WAIT_0. rewrite u32_small by (unfold is_u32; lia). intros E. exfalso. lia.
  - destruct (Hst eq_refl) as [-> Hstill]. destruct (IH st X c conn (i + 1) HORIZON_STATUS_TIMEOUT) as (s' & st' & -> & I' & T' & Hs'); [done..|lia|lia|done|].
    exists s', st'. split; [done|]. split; [done|]. split; [done|]. intros E. destruct (Hs' E) as [-> Hall]. split; [done|]. by constructor.
  - eexists _, st1. done.
Qed.

(** A wait with more handles than can be queued only takes. *)
Lemma wait_any_takes handles : forall st X c conn i s, server_inv st X -> ws_conns st !! c = Some conn -> cn_tid conn <> 0 ->
  exists s' st', wait_any st (Some c) handles i s = Some (s', st') /\ server_inv st' X /\ takes st st' (cn_tid conn).
Proof.
  induction handles as [|h handles IH]; intros st X c conn i s I Hc Htid; [exists s, st; split; [done|]; split; [done|apply takes_refl]|]. cbn [wait_any].
  destruct (wait_object_ok st X c conn h true I Hc Htid) as (s1 & st1 & -> & I1 & T1 & Hin & Hst & _). cbn [mbind option_bind].
  destruct ((s1 =? HORIZON_STATUS_SUCCESS) || (s1 =? HORIZON_STATUS_ABANDONED_WAIT_0)); [eexists _, st1; done|]. destruct (negb (s1 =? HORIZON_STATUS_TIMEOUT)); [eexists _, st1; done|].
  destruct (IH st1 X c conn (i + 1) s1) as (s' & st' & -> & I' & T'); [done|by rewrite (ca_conns _ _ (tk_calm _ _ _ T1))|done|]. exists s', st'. split; [done|]. split; [done|]. by eapply takes_trans.
Qed.

(** What a select of thread [tid] that gets TIMEOUT has found. *)
Definition op_still (st : wine_server) (tid : Z) (op : select_op) : Prop :=
  match op with
  | Select_wait handles true => exists i h, handles !! i = Some h /\ handle_still st tid h /\ Forall (live st) (take i handles)
  | _ => Forall (handle_still st tid) (op_handles op)
  end.

Lemma select_status_ok st X c conn op : server_inv st X -> ws_conns st !! c = Some conn -> cn_tid conn <> 0 ->
  exists s st', horizon_server_select_status st (Some c) op = Some (s, st') /\ server_inv st' X /\ takes st st' (cn_tid conn) /\
    (s = HORIZON_STATUS_TIMEOUT -> is_Some (queue_handles op) -> st' = st /\ op_still st (cn_tid conn) op).
Proof.
  intros I Hc Htid. destruct op as [|handles all|wait signal| |]; cbn [horizon_server_select_status].
  - eexists _, st. split; [done|]. split; [done|]. split; [apply takes_refl|]. by intros _ [].
  - unfold horizon_server_select_wait. destruct (bool_decide_reflect (handles = [])) as [->|Hne]; [eexists _, st; split; [done|]; split; [done|]; split; [apply takes_refl|done]|].
    destruct all.
    + destruct (wait_all_test_ok handles st X c conn I Hc Htid) as (s & -> & Hs). cbn [mbind option_bind]. destruct (nonzero s) eqn:Hnz.
      * exists s, st. split; [done|]. split; [done|]. split; [apply takes_refl|]. intros E _. split; [done|]. by apply Hs.
      * destruct (wait_all_take_ok handles st X c conn s I Hc Htid) as (s' & st' & -> & I' & T' & Hs'). exists s', st'. split; [done|]. split; [done|]. split; [done|].
        intros ->. unfold nonzero in Hnz. apply negb_false_iff, Z.eqb_eq in Hnz as ->. exfalso. rewrite !elem_of_cons in Hs'. destruct Hs' as [H|[H|H]]; [done|done|by apply elem_of_nil in H].
    + destruct (decide (Z.of_nat (length handles) <= 64)) as [Hle|Hgt].
      * destruct (wait_any_ok handles st X c conn 0 HORIZON_STATUS_TIMEOUT I Hc Htid) as (s' & st' & -> & I' & T' & Hs'); [lia|lia|done|]. exists s', st'. split; [done|]. split; [done|]. split; [done|]. intros E _. by apply Hs'.
      * destruct (wait_any_takes handles st X c conn 0 HORIZON_STATUS_TIMEOUT I Hc Htid) as (s' & st' & -> & I' & T'). exists s', st'. split; [done|]. split; [done|]. split; [done|]. intros _ [hs Hq]. apply queue_handles_ops in Hq as [<- Hb]. simpl in Hb. lia.
  - destruct (wait_object_ok st X c conn wait true I Hc Htid) as (s & st' & -> & I' & T' & _ & Hst & _). exists s, st'. split; [done|]. split; [done|]. split; [done|]. intros E _. destruct (Hst E) as [-> Hs]. split; [done|]. simpl. by constructor.
  - eexists _, st. split; [done|]. split; [done|]. split; [apply takes_refl|done].
  - eexists _, st. split; [done|]. split; [done|]. split; [apply takes_refl|done].
Qed.

(** ** Sleeping selects *)

Definition sleeping (f : horizon_sync_waiter) : Prop := wt_queued f = true /\ wt_notified f = false /\ wt_completed f = false.

Definition link_still (objs : gmap positive server_object) (tid h : Z) (l : positive * positive) : Prop := h = HORIZON_CURRENT_THREAD_HANDLE \/ signals objs tid (fst l) = false.

(** No object of the select is signaled or, when it waits for all, one is not
    and the handles up to it are open: a wait for all objects looks no further. *)
Definition links_still (open : Z -> Prop) (objs : gmap positive server_object) (tid : Z) (f : horizon_sync_waiter) : Prop :=
  match wt_op f with
  | Select_wait handles true => exists i h l, handles !! i = Some h /\ wt_links f !! i = Some l /\ link_still objs tid h l /\ Forall open (take (S i) handles)
  | op => forall i h l, op_handles op !! i = Some h -> wt_links f !! i = Some l -> link_still objs tid h l
  end.

(** The thread has no APC to run and is not to stop. *)
Definition thread_still (objs : gmap positive server_object) (conn : horizon_server_connection) (f : horizon_sync_waiter) : Prop :=
  forall t obj, cn_thread conn = Some t -> objs !! t = Some obj ->
    (wt_alertable f = true -> ob_apcs obj = []) /\ ts_started (ob_thread obj) && nonzero (ts_suspend (ob_thread obj)) = false.

Definition frame_still (st : wine_server) (w : positive) (f : horizon_sync_waiter) : Prop :=
  forall conn, ws_conns st !! w = Some conn ->
    links_still (live st) (ws_objects st) (cn_tid conn) f /\ thread_still (ws_objects st) conn f /\ cn_tid conn ∉ ws_ready st.

(** The handles that have to be open: a wait for all objects that is not over yet
    looks no further than the first that is not signaled. *)
Definition live_handles (op : select_op) : list Z := match op with Select_wait _ true => [] | _ => op_handles op end.

Lemma live_handles_in op h : h ∈ live_handles op -> h ∈ op_handles op.
Proof. destruct op as [|handles [|]| | |]; set_solver. Qed.

Definition frame_live (st : wine_server) (f : horizon_sync_waiter) : Prop := Forall (live st) (live_handles (wt_op f)).

(** The handles of every sleeping select are open, but for those in [EL], and it
    has nothing to return, but for those in [E]. *)
Definition wake_except (st : wine_server) (EL E : positive -> Prop) : Prop :=
  forall w f, ws_frames st !! w = Some f -> sleeping f -> (~ EL w -> frame_live st f) /\ (~ E w -> frame_still st w f).

Definition nobody (w : positive) : Prop := False.

Definition wake (st : wine_server) : Prop := wake_except st nobody nobody.

Lemma wake_weaken st (EL E EL' E' : positive -> Prop) : (forall w, EL w -> EL' w) -> (forall w, E w -> E' w) -> wake_except st EL E -> wake_except st EL' E'.
Proof. intros H1 H2 W w f Hw Hs. destruct (W w f Hw Hs) as [A B]. split; intros H; [apply A|apply B]; auto. Qed.

Lemma links_still_mono (open open' : Z -> Prop) objs objs' tid f f' : wt_op f' = wt_op f -> wt_links f' = wt_links f -> (forall h, h ∈ op_handles (wt_op f) -> open h -> open' h) ->
  (forall i l, wt_links f !! i = Some l -> signals objs' tid (fst l) = true -> signals objs tid (fst l) = true) -> links_still open objs tid f -> links_still open' objs' tid f'.
Proof.
  intros Hop Hli Hopen Hs. unfold links_still. rewrite Hop, Hli.
  assert (forall i h l, wt_links f !! i = Some l -> link_still objs tid h l -> link_still objs' tid h l) as Hl.
  { intros i h l Hl [->|H]; [by left|right]. destruct (signals objs' tid (fst l)) eqn:E; [|done]. rewrite (Hs i l Hl E) in H. done. }
  destruct (wt_op f) as [|handles []|wait signal| |]; try (intros H i h l Hi Hk; by eapply Hl, H).
  intros (i & h & l & Hi & Hk & H & Hlv). exists i, h, l. split; [done|]. split; [done|]. split; [by eapply Hl|]. rewrite list.Forall_forall in *. intros x Hx. apply Hopen; [|auto]. apply list_elem_of_lookup in Hx as [j Hj]. apply lookup_take_Some in Hj as [Hj _]. by eapply list_elem_of_lookup_2.
Qed.

Lemma frame_still_mono st st' w f f' :
  frame_still st w f -> wt_op f' = wt_op f -> wt_links f' = wt_links f -> wt_alertable f' = wt_alertable f -> ws_conns st' !! w = ws_conns st !! w -> (forall h, h ∈ op_handles (wt_op f) -> live st h -> live st' h) ->
  (forall conn i l, ws_conns st !! w = Some conn -> wt_links f !! i = Some l -> signals (ws_objects st') (cn_tid conn) (fst l) = true -> signals (ws_objects st) (cn_tid conn) (fst l) = true) ->
  (forall conn t obj', ws_conns st !! w = Some conn -> cn_thread conn = Some t -> ws_objects st' !! t = Some obj' -> exists obj, ws_objects st !! t = Some obj /\ (wt_alertable f = true -> ob_apcs obj = [] -> ob_apcs obj' = []) /\
    (ts_started (ob_thread obj) && nonzero (ts_suspend (ob_thread obj)) = false -> ts_started (ob_thread obj') && nonzero (ts_suspend (ob_thread obj')) = false)) ->
  (forall conn, ws_conns st !! w = Some conn -> cn_tid conn ∈ ws_ready st' -> cn_tid conn ∈ ws_ready st) -> frame_still st' w f'.
Proof.
  intros F Hop Hli Hal Hc Hlv Hs Ht Hr conn Hconn. rewrite Hc in Hconn. destruct (F conn Hconn) as (F1 & F2 & F3). split; [|split; [|by intros ?%(Hr conn Hconn)]].
  - eapply links_still_mono; [done|done|exact Hlv| |done]. intros i l. by apply Hs.
  - intros t obj' Hth Hobj'. destruct (Ht conn t obj' Hconn Hth Hobj') as (obj & Ho & A1 & A2). destruct (F2 t obj Hth Ho) as [B1 B2]. rewrite Hal. split; [intros H; apply A1; [done|by apply B1]|by apply A2].
Qed.

(** Taking signals wakes nobody but the thread itself. *)
Lemma wake_takes st st' tid EL (E E' : positive -> Prop) :
  takes st st' tid -> (forall w, E w -> E' w) -> (forall w f, ws_frames st !! w = Some f -> frame_tid st w = Some tid -> E' w) -> wake_except st EL E -> wake_except st' EL E'.
Proof.
  intros [C F Q] HE Ht W w f Hw Hs. rewrite F in Hw. destruct (W w f Hw Hs) as [A B]. split.
  - intros H. eapply Forall_impl; [by apply A|]. intros h. apply live_same; [apply (ca_handles _ _ C)|apply (ca_entries _ _ C)].
  - intros H. apply (frame_still_mono st st' w f f); [apply B; auto|done|done|done|by rewrite (ca_conns _ _ C)|intros h _; apply live_same; [apply (ca_handles _ _ C)|apply (ca_entries _ _ C)]| | |by rewrite (ca_ready _ _ C)].
    + intros conn i l Hc Hl. apply Q. intros Heq. apply H, (Ht w f Hw). unfold frame_tid. rewrite Hc. simpl. by rewrite Heq.
    + intros conn t obj' Hc Hth Hobj'. destruct (calm_back _ _ _ _ C Hobj') as (obj & Ho & Hco). exists obj. rewrite (cs_thread _ _ Hco), (cs_apcs _ _ Hco). done.
Qed.

(** Changing the flags of one select. *)
Lemma wake_put_frame st w f f' EL (E : positive -> Prop) (EL' E' : positive -> Prop) :
  ws_frames st !! w = Some f -> wt_op f' = wt_op f -> (sleeping f' -> (~ EL' w -> frame_live st f) /\ (~ E' w -> frame_still st w f')) ->
  (forall x, x <> w -> EL x -> EL' x) -> (forall x, x <> w -> E x -> E' x) -> wake_except st EL E -> wake_except (put_frame st w f') EL' E'.
Proof.
  intros Hw Hop Hself HEL HE W x g Hg Hs. simpl in Hg. destruct (decide (x = w)) as [->|Hne].
  - rewrite lookup_insert_eq in Hg. injection Hg as <-. destruct (Hself Hs) as [A B]. split; [|done]. intros H. unfold frame_live. rewrite Hop. by apply A.
  - rewrite lookup_insert_ne in Hg by done. destruct (W x g Hg Hs) as [A B]. split; intros H; [apply A|apply B]; auto.
Qed.

(** ** Notifications *)

Lemma notify_locked_ok st X w f EL E : server_inv st X -> ws_frames st !! w = Some f ->
  exists st', horizon_sync_notify_locked st w = Some st' /\ server_inv st' X /\ calm st st' /\ ws_objects st' = ws_objects st /\
    (exists f', ws_frames st' !! w = Some f' /\ wt_notified f' = true) /\
    (wake_except st EL E -> wake_except st' (fun x => EL x /\ x <> w) (fun x => E x /\ x <> w)).
Proof.
  intros I Hw. unfold horizon_sync_notify_locked. rewrite Hw. cbn [mbind option_bind]. destruct (wt_notified f) eqn:Hn.
  - exists st. split; [done|]. split; [done|]. split; [apply calm_refl|]. split; [done|]. split; [by exists f|]. intros W x g Hg Hs. destruct (decide (x = w)) as [->|Hne].
    + rewrite Hw in Hg. injection Hg as <-. destruct Hs as (_ & Hs & _). congruence.
    + destruct (W x g Hg Hs) as [A B]. split; intros H; [apply A|apply B]; tauto.
  - eexists. split; [done|]. split; [by apply (inv_put_flags st X w f)|]. split; [apply (calm_put_frame st w f); [done|by destruct f]|]. split; [done|]. split; [eexists; split; [simpl; by rewrite lookup_insert_eq|done]|].
    apply (wake_put_frame st w f); [done|done| |tauto|tauto]. intros (_ & Hs & _). done.
Qed.

Lemma notify_all_ok l : forall st X EL E, server_inv st X -> (forall w, w ∈ l -> is_Some (ws_frames st !! w)) ->
  exists st', notify_all st l = Some st' /\ server_inv st' X /\ calm st st' /\ ws_objects st' = ws_objects st /\ (wake_except st EL E -> wake_except st' (fun x => EL x /\ x ∉ l) (fun x => E x /\ x ∉ l)).
Proof.
  induction l as [|w l IH]; intros st X EL E I Hl; cbn [notify_all].
  { exists st. split; [done|]. split; [done|]. split; [apply calm_refl|]. split; [done|]. apply wake_weaken; intros x Hx; (split; [done|apply not_elem_of_nil]). }
  destruct (Hl w) as [f Hw]; [set_solver|]. destruct (notify_locked_ok st X w f EL E I Hw) as (st1 & -> & I1 & C1 & O1 & _ & W1). cbn [mbind option_bind].
  destruct (IH st1 X (fun x => EL x /\ x <> w) (fun x => E x /\ x <> w) I1) as (st2 & E2 & I2 & C2 & O2 & W2).
  { intros x Hx. destruct (Hl x) as [g Hg]; [set_solver|]. destruct (ca_frames _ _ C1 x g Hg) as (g' & Hg' & _). eauto. }
  exists st2. split; [done|]. split; [done|]. split; [by eapply calm_trans|]. split; [congruence|]. intros W. eapply wake_weaken; [| |by apply W2, W1]; intros x; rewrite not_elem_of_cons; tauto.
Qed.

(** Everybody is told. *)
Lemma signal_changed_ok st X : server_inv st X -> exists st', horizon_server_signal_changed_locked st = Some st' /\ server_inv st' X /\ calm st st' /\ ws_objects st' = ws_objects st /\ wake st'.
Proof.
  intros I. destruct (si_waiting _ _ I) as [_ Hwait]. destruct (notify_all_ok (ws_waiting st) st X (fun _ => True) (fun _ => True) I) as (st' & E & I' & C' & O' & W'); [intros w Hw; apply Hwait in Hw as (f & Hf & _); eauto|].
  exists st'. split; [done|]. split; [done|]. split; [done|]. split; [done|]. intros w f' Hf' Hs.
  assert (wake_except st (fun _ => True) (fun _ => True)) as W0 by (intros x g Hg Hsl; split; intros H; exfalso; by apply H).
  destruct (W' W0 w f' Hf' Hs) as [A B]. destruct (calm_frame_back _ _ _ _ C' Hf') as (f & Hf & Hc).
  assert (w ∈ ws_waiting st) as Hin by (apply Hwait; exists f; split; [done|]; destruct Hc as (Hc & _); destruct Hs as (Hs & _); rewrite Hc in Hs; done).
  split; intros _; [apply A|apply B]; intros [_ H]; done.
Qed.

(** A handle that gives nothing, seen from its link. *)
Lemma handle_link_still st X w f conn i h l : server_inv st X -> ws_frames st !! w = Some f -> ws_conns st !! w = Some conn -> op_handles (wt_op f) !! i = Some h -> wt_links f !! i = Some l ->
  handle_still st (cn_tid conn) h -> link_still (ws_objects st) (cn_tid conn) h l.
Proof.
  intros I Hw Hc Hi Hl [Hnz [->|(e & en & obj & Hin & Hen & Hh & Ho & Hb)]]; [by left|]. destruct (decide (h = HORIZON_CURRENT_THREAD_HANDLE)) as [->|Hne]; [by left|right].
  destruct (fo_conn _ _ _ (si_frames _ _ I w f Hw)) as (conn' & Hc' & _ & _ & Hlk). rewrite Hc in Hc'. injection Hc' as <-. destruct (Hlk i l Hl) as [(h' & Hi' & Hok) (obj' & Ho' & Hsrc) _].
  rewrite Hi in Hi'. injection Hi' as <-. unfold handle_ok in Hok. rewrite decide_False in Hok by done. destruct Hok as [_ Hok]. rewrite (Hok e en Hin Hen Hh) in Ho. rewrite Ho in Ho'. injection Ho' as <-.
  destruct (is_signaled_ok st X (cn_tid conn) (fst l) obj I Ho) as (b & Hb' & H1 & _). rewrite Hb in Hb'. injection Hb' as <-. unfold signals. rewrite Ho. apply H1; eauto.
Qed.

Lemma op_links_still st X w f conn : server_inv st X -> ws_frames st !! w = Some f -> wt_queued f = true -> ws_conns st !! w = Some conn -> op_still st (cn_tid conn) (wt_op f) -> links_still (live st) (ws_objects st) (cn_tid conn) f.
Proof.
  intros I Hw Hq Hc. destruct (fo_queued _ _ _ (si_frames _ _ I w f Hw) Hq) as [Hlen _].
  pose proof (fun i h l => handle_link_still st X w f conn i h l I Hw Hc) as Hls. unfold op_still, links_still. destruct (wt_op f) as [|handles []|wait signal| |];
    try (intros Hall i h l Hi Hl; apply (Hls i h l Hi Hl); rewrite Forall_lookup in Hall; by eapply Hall).
  intros (i & h & Hi & Hst & Hlv). destruct (lookup_lt_is_Some_2 (wt_links f) i) as [l Hl]; [rewrite Hlen; by eapply lookup_lt_Some|]. exists i, h, l. split; [done|]. split; [done|]. split; [by apply (Hls i h l)|]. rewrite (take_S_r _ _ h) by done. apply Forall_app_2; [done|]. apply Forall_singleton. by apply handle_still_live in Hst.
Qed.

(** The thread of a select. *)
Lemma frame_thread_ok st X w f : server_inv st X -> ws_frames st !! w = Some f ->
  exists conn t obj, ws_conns st !! w = Some conn /\ cn_tid conn <> 0 /\ cn_thread conn = Some t /\ ws_objects st !! t = Some obj.
Proof.
  intros I Hw. destruct (fo_conn _ _ _ (si_frames _ _ I w f Hw)) as (conn & Hc & Htid & [t Ht] & _).
  destruct (ro_there _ _ (si_refs _ _ I) t) as [obj Ho]; [apply elem_of_app; left; eapply ref_conn; [done|]; unfold connection_refs; rewrite Ht; set_solver|]. by exists conn, t, obj.
Qed.

Lemma must_run_ok st X w f : server_inv st X -> ws_frames st !! w = Some f ->
  exists b, must_run st w f = Some b /\ (b = false -> forall conn, ws_conns st !! w = Some conn -> thread_still (ws_objects st) conn f /\ cn_tid conn ∉ ws_ready st).
Proof.
  intros I Hw. destruct (frame_thread_ok st X w f I Hw) as (conn & t & obj & Hc & Htid & Ht & Ho). unfold must_run. rewrite Hc. cbn [mbind option_bind]. rewrite Ht. cbn [mbind option_bind]. rewrite Ho. cbn [mbind option_bind].
  eexists. split; [done|]. rewrite !orb_false_iff, bool_decide_eq_false. intros [[H1 H2] H3] conn' [= <-]. split; [|done].
  intros t' obj' Ht' Ho'. rewrite Ht in Ht'. injection Ht' as <-. rewrite Ho in Ho'. injection Ho' as <-. rewrite H1, andb_false_r. split; [|done]. intros Hal. rewrite Hal in H2. simpl in H2.
  apply negb_false_iff, bool_decide_eq_true in H2. done.
Qed.

Definition minus (E : positive -> Prop) (w : positive) (x : positive) : Prop := E x /\ x <> w.

Lemma notify_link_ok st X (b : bool) w f : server_inv st X -> ws_frames st !! w = Some f ->
  exists st', notify_link st b w = Some st' /\ server_inv st' X /\ calm st st' /\
    forall EL E, wake_except st EL E -> wake_except st' (if b then EL else minus EL w) (minus E w).
Proof.
  intros I Hw. unfold notify_link. rewrite Hw. cbn [mbind option_bind].
  assert (forall EL E, wake_except st EL E -> wake_except st (minus EL w) (minus E w) -> wake_except st (if b then EL else minus EL w) (minus E w)) as Hb.
  { intros EL E W W'. destruct b; [|done]. eapply wake_weaken; [|done|exact W']. by intros x [H _]. }
  destruct (wt_completed f) eqn:Hcomp.
  { exists st. split; [done|]. split; [done|]. split; [apply calm_refl|]. intros EL E W. apply Hb; [done|]. intros x g Hg Hs. destruct (decide (x = w)) as [->|Hne].
    - rewrite Hw in Hg. injection Hg as <-. destruct Hs as (_ & _ & Hs). congruence.
    - destruct (W x g Hg Hs) as [A B]. unfold minus. split; intros H; [apply A|apply B]; tauto. }
  destruct (must_run_ok st X w f I Hw) as (must & -> & Hmust). cbn [mbind option_bind]. destruct (negb b || must) eqn:Hbm.
  { destruct (notify_locked_ok st X w f nobody nobody I Hw) as (st1 & E1 & I1 & C1 & _). rewrite E1. exists st1. split; [done|]. split; [done|]. split; [done|]. intros EL E W.
    destruct (notify_locked_ok st X w f EL E I Hw) as (st1' & E1' & _ & _ & _ & _ & W1). rewrite E1 in E1'. injection E1' as <-. specialize (W1 W).
    destruct b; [|exact W1]. eapply wake_weaken; [|done|exact W1]. by intros x [H _]. }
  apply orb_false_iff in Hbm as [Hb1 ->]. apply negb_false_iff in Hb1 as ->.
  destruct (frame_thread_ok st X w f I Hw) as (conn & t & obj & Hc & Htid & Ht & Ho).
  destruct (select_status_ok st X w conn (wt_op f) I Hc Htid) as (s & st1 & E1 & I1 & T1 & Hs). rewrite E1. cbn [mbind option_bind]. rewrite (tk_frames _ _ _ T1), Hw. cbn [mbind option_bind].
  assert (ws_frames st1 !! w = Some f) as Hw1 by (by rewrite (tk_frames _ _ _ T1)).
  assert (forall EL E, wake_except st EL E -> wake_except st1 EL (fun x => E x \/ x = w)) as W1.
  { intros EL E W. eapply wake_takes; [exact T1|by left| |exact W]. intros x g Hg Hx. right. apply (si_tids _ _ I x w g f Hg Hw). rewrite Hx. unfold frame_tid. by rewrite Hc. }
  destruct (Z.eqb_spec s HORIZON_STATUS_TIMEOUT) as [->|Hne].
  - eexists. split; [done|]. split; [by apply (inv_put_flags st1 X w f)|]. split.
    { eapply calm_trans; [apply (tk_calm _ _ _ T1)|]. apply (calm_put_frame st1 w f _ Hw1). split; [by destruct f|]. split; [done|]. simpl. congruence. }
    intros EL E W. pose proof (W w f Hw) as Wf. apply (wake_put_frame st1 w f _ EL (fun x => E x \/ x = w)); [done|done| |done|unfold minus; naive_solver|by apply W1].
    intros (Hq & Hn & _). simpl in Hq, Hn. destruct (fo_queued _ _ _ (si_frames _ _ I w f Hw) Hq) as [_ Hqh]. destruct (Hs eq_refl) as [-> Hop]; [rewrite Hqh; eauto|].
    split; [intros H; by apply Wf|]. intros _ conn' Hc'. rewrite Hc in Hc'. injection Hc' as <-. destruct (Hmust eq_refl conn Hc) as [M1 M2]. split; [|by split].
    apply (links_still_mono (live st) _ (ws_objects st) _ _ f); [done|done|done|done|]. by apply (op_links_still st X w f conn).
  - set (st2 := put_frame st1 w (f_status f true s)). assert (server_inv st2 X) as I2 by (by apply (inv_put_flags st1 X w f)).
    assert (ws_frames st2 !! w = Some (f_status f true s)) as Hw2 by (simpl; by rewrite lookup_insert_eq).
    assert (calm st st2) as C2.
    { eapply calm_trans; [apply (tk_calm _ _ _ T1)|]. apply (calm_put_frame st1 w f _ Hw1). split; [by destruct f|]. split; [done|]. simpl. congruence. }
    destruct (notify_locked_ok st2 X w _ nobody nobody I2 Hw2) as (st3 & E3 & I3 & C3 & _). rewrite E3. exists st3. split; [done|]. split; [done|]. split; [by eapply calm_trans|]. intros EL E W.
    destruct (notify_locked_ok st2 X w _ EL E I2 Hw2) as (st3' & E3' & _ & _ & _ & _ & W3). rewrite E3 in E3'. injection E3' as <-.
    eapply wake_weaken; [| |apply W3]; [by intros x [H _]|by unfold minus|]. apply (wake_put_frame st1 w f _ EL (fun x => E x \/ x = w)); [done|done| |done|naive_solver|by apply W1].
    intros (_ & _ & Hx). done.
Qed.

Lemma notify_links_ok links : forall st X (b : bool), server_inv st X -> (forall w i, (w, i) ∈ links -> is_Some (ws_frames st !! w)) ->
  exists st', notify_links st b links = Some st' /\ server_inv st' X /\ calm st st' /\
    forall EL E, wake_except st EL E -> wake_except st' (fun x => EL x /\ (b = true \/ x ∉ (fst <$> links))) (fun x => E x /\ x ∉ (fst <$> links)).
Proof.
  induction links as [|[w i] links IH]; intros st X b I Hl; cbn [notify_links].
  { exists st. split; [done|]. split; [done|]. split; [apply calm_refl|]. intros EL E. apply wake_weaken; intros x Hx; (split; [done|]); [right|]; apply not_elem_of_nil. }
  destruct (Hl w i) as [f Hw]; [set_solver|]. destruct (notify_link_ok st X b w f I Hw) as (st1 & -> & I1 & C1 & W1). cbn [mbind option_bind].
  destruct (IH st1 X b I1) as (st2 & E2 & I2 & C2 & W2).
  { intros x j Hx. destruct (Hl x j) as [g Hg]; [set_solver|]. destruct (ca_frames _ _ C1 x g Hg) as (g' & Hg' & _). eauto. }
  exists st2. split; [done|]. split; [done|]. split; [by eapply calm_trans|]. intros EL E W. specialize (W2 _ _ (W1 EL E W)). eapply wake_weaken; [| |exact W2]; intros x; rewrite fmap_cons, not_elem_of_cons; unfold minus; simpl.
  - destruct b; [intros [H _]; split; [done|by left]|]. naive_solver.
  - naive_solver.
Qed.

(** The object whose list has the waiters of [o]. *)
Definition source_of (obj : server_object) (o : positive) : positive := if decide (ob_type obj = OBJECT_COMPLETION_WAIT) then default o (ob_wait_port obj) else o.

(** The selects that have a link in the list of [src]. *)
Definition linked (st : wine_server) (src w : positive) : Prop := exists f i, ws_frames st !! w = Some f /\ snd <$> wt_links f !! i = Some src.

Lemma notify_object_ok st X o obj (b : bool) : server_inv st X -> ws_objects st !! o = Some obj ->
  exists st', horizon_sync_notify_object_locked st o b = Some st' /\ server_inv st' X /\ calm st st' /\
    forall EL E, wake_except st EL E -> wake_except st' (fun x => EL x /\ (b = true \/ ~ linked st (source_of obj o) x)) (fun x => E x /\ ~ linked st (source_of obj o) x).
Proof.
  intros I Ho. unfold horizon_sync_notify_object_locked. rewrite Ho. cbn [mbind option_bind]. fold (source_of obj o).
  assert (exists src, ws_objects st !! source_of obj o = Some src) as [src Hsrc].
  { unfold source_of. destruct (decide _) as [Ht|]; [|by exists obj]. destruct (ob_wait_port obj) as [p|] eqn:Hp; simpl; [|by exists obj].
    destruct (ro_there _ _ (si_refs _ _ I) p) as [x Hx]; [|by exists x]. apply elem_of_app; left. eapply ref_object; [done|]. apply object_refs_in. by left. }
  rewrite Hsrc. cbn [mbind option_bind]. destruct (si_links _ _ I _ src Hsrc) as [_ HL].
  destruct (notify_links_ok (ob_waiters src) st X b I) as (st' & E' & I' & C' & W'); [intros w i Hin; apply HL in Hin as (f & Hf & _); eauto|].
  exists st'. split; [done|]. split; [done|]. split; [done|]. intros EL E W.
  assert (forall x, linked st (source_of obj o) x -> x ∈ (fst <$> ob_waiters src)) as Hlk.
  { intros x (f & i & Hf & Hs). apply list_elem_of_fmap. exists (x, i). split; [done|]. apply HL. by exists f. }
  eapply wake_weaken; [| |by apply W']; intros x [H1 H2]; (split; [done|]); [destruct H2 as [H2|H2]; [by left|right]|]; intros Hx; by apply H2, Hlk.
Qed.

(** After a change of [o] the selects it has to wake are told. *)
Lemma notify_true_ok st X o obj : server_inv st X -> ws_objects st !! o = Some obj -> wake_except st nobody (linked st (source_of obj o)) ->
  exists st', horizon_sync_notify_object_locked st o true = Some st' /\ server_inv st' X /\ calm st st' /\ wake st'.
Proof.
  intros I Ho W. destruct (notify_object_ok st X o obj true I Ho) as (st' & E & I' & C' & W'). exists st'. split; [done|]. split; [done|]. split; [done|].
  eapply wake_weaken; [| |by apply W']; [by intros x [H _]|by intros x [H1 H2]].
Qed.

Lemma notify_false_ok st X o obj : server_inv st X -> ws_objects st !! o = Some obj -> wake_except st (linked st (source_of obj o)) (linked st (source_of obj o)) ->
  exists st', horizon_sync_notify_object_locked st o false = Some st' /\ server_inv st' X /\ calm st st' /\ wake st'.
Proof.
  intros I Ho W. destruct (notify_object_ok st X o obj false I Ho) as (st' & E & I' & C' & W'). exists st'. split; [done|]. split; [done|]. split; [done|].
  eapply wake_weaken; [| |by apply W']; [intros x [H1 [H2|H2]]; done|by intros x [H1 H2]].
Qed.

(** The loops that notify those of the waiting selects a test picks. *)
Lemma notify_ready_ok l : forall st X, server_inv st X -> (forall w, w ∈ l -> is_Some (ws_frames st !! w)) ->
  exists st', notify_ready st l = Some st' /\ server_inv st' X /\ calm st st' /\
    forall EL E, wake_except st EL E -> wake_except st' EL (fun x => E x /\ ~ (x ∈ l /\ exists conn, ws_conns st !! x = Some conn /\ cn_tid conn ∈ ws_ready st)).
Proof.
  induction l as [|w l IH]; intros st X I Hl; cbn [notify_ready].
  { exists st. split; [done|]. split; [done|]. split; [apply calm_refl|]. intros EL E. apply wake_weaken; [done|]. intros x Hx. split; [done|]. intros [H _]. by apply elem_of_nil in H. }
  destruct (Hl w) as [f Hw]; [set_solver|]. rewrite Hw. cbn [mbind option_bind]. destruct (frame_thread_ok st X w f I Hw) as (conn & t & obj & Hc & _). rewrite Hc. cbn [mbind option_bind].
  assert (exists st1, (if negb (wt_completed f) && bool_decide (cn_tid conn ∈ ws_ready st) then horizon_sync_notify_locked st w else Some st) = Some st1 /\ server_inv st1 X /\ calm st st1 /\
    forall EL E, wake_except st EL E -> wake_except st1 EL (fun x => E x /\ ~ (x = w /\ cn_tid conn ∈ ws_ready st))) as (st1 & -> & I1 & C1 & W1).
  { destruct (negb (wt_completed f) && bool_decide (cn_tid conn ∈ ws_ready st)) eqn:Eb.
    - destruct (notify_locked_ok st X w f nobody nobody I Hw) as (st1 & E1 & I1 & C1 & _). exists st1. split; [done|]. split; [done|]. split; [done|]. intros EL E W.
      destruct (notify_locked_ok st X w f EL E I Hw) as (st1' & E1' & _ & _ & _ & _ & W1). rewrite E1 in E1'. injection E1' as <-. eapply wake_weaken; [| |by apply W1]; [by intros x [H _]|]. intros x [H1 H2]. split; [done|]. tauto.
    - exists st. split; [done|]. split; [done|]. split; [apply calm_refl|]. intros EL E W x g Hg Hs. destruct (W x g Hg Hs) as [A B]. split; [done|]. intros H. apply B. intros HE. apply H. split; [done|].
      intros [-> Hin]. rewrite Hw in Hg. injection Hg as <-. destruct Hs as (_ & _ & Hs). rewrite Hs in Eb. simpl in Eb. by apply bool_decide_eq_false in Eb. }
  cbn [mbind option_bind]. destruct (IH st1 X I1) as (st2 & E2 & I2 & C2 & W2).
  { intros x Hx. destruct (Hl x) as [g Hg]; [set_solver|]. destruct (ca_frames _ _ C1 x g Hg) as (g' & Hg' & _). eauto. }
  exists st2. split; [done|]. split; [done|]. split; [by eapply calm_trans|]. intros EL E W. eapply wake_weaken; [done| |by apply W2, W1]. intros x [[H1 H2] H3]. split; [done|].
  rewrite (ca_conns _ _ C1), (ca_ready _ _ C1) in H3. rewrite elem_of_cons. intros [[->|Hx] (conn' & Hc' & Hr)]; [|by eauto]. rewrite Hc in Hc'. injection Hc' as <-. tauto.
Qed.

Lemma notify_async_ok st X EL : server_inv st X -> wake_except st EL (fun x => exists conn, ws_conns st !! x = Some conn /\ cn_tid conn ∈ ws_ready st) ->
  exists st', horizon_sync_notify_async_locked st = Some st' /\ server_inv st' X /\ calm st st' /\ wake_except st' EL nobody.
Proof.
  intros I W. destruct (si_waiting _ _ I) as [_ Hwait]. destruct (notify_ready_ok (ws_waiting st) st X I) as (st' & E & I' & C' & W'); [intros w Hw; apply Hwait in Hw as (f & Hf & _); eauto|].
  exists st'. split; [done|]. split; [done|]. split; [done|]. intros x g Hg Hs. destruct (W' _ _ W x g Hg Hs) as [A B]. split; [done|]. intros _. apply B. intros [H1 H2]. apply H2. split; [|done].
  destruct (calm_frame_back _ _ _ _ C' Hg) as (f & Hf & Hc). apply Hwait. exists f. split; [done|]. destruct Hc as (Hc & _), Hs as (Hs & _). rewrite Hc in Hs. done.
Qed.

Lemma notify_alertable_ok l : forall st X thread, server_inv st X -> (forall w, w ∈ l -> is_Some (ws_frames st !! w)) ->
  exists st', notify_alertable st l thread = Some st' /\ server_inv st' X /\ calm st st' /\ ws_objects st' = ws_objects st /\
    forall EL E, wake_except st EL E -> wake_except st' EL (fun x => E x /\ ~ (x ∈ l /\ exists conn f, ws_conns st !! x = Some conn /\ ws_frames st !! x = Some f /\ cn_thread conn = Some thread /\ wt_alertable f = true)).
Proof.
  induction l as [|w l IH]; intros st X thread I Hl; cbn [notify_alertable].
  { exists st. split; [done|]. split; [done|]. split; [apply calm_refl|]. split; [done|]. intros EL E. apply wake_weaken; [done|]. intros x Hx. split; [done|]. intros [H _]. by apply elem_of_nil in H. }
  destruct (Hl w) as [f Hw]; [set_solver|]. rewrite Hw. cbn [mbind option_bind]. destruct (frame_thread_ok st X w f I Hw) as (conn & t & obj & Hc & _). rewrite Hc. cbn [mbind option_bind].
  assert (exists st1, (if bool_decide (cn_thread conn = Some thread) && wt_alertable f then horizon_sync_notify_locked st w else Some st) = Some st1 /\ server_inv st1 X /\ calm st st1 /\ ws_objects st1 = ws_objects st /\
    forall EL E, wake_except st EL E -> wake_except st1 EL (fun x => E x /\ ~ (x = w /\ cn_thread conn = Some thread /\ wt_alertable f = true))) as (st1 & -> & I1 & C1 & O1 & W1).
  { destruct (bool_decide (cn_thread conn = Some thread) && wt_alertable f) eqn:Eb.
    - destruct (notify_locked_ok st X w f nobody nobody I Hw) as (st1 & E1 & I1 & C1 & O1 & _). exists st1. split; [done|]. split; [done|]. split; [done|]. split; [done|]. intros EL E W.
      destruct (notify_locked_ok st X w f EL E I Hw) as (st1' & E1' & _ & _ & _ & _ & W1). rewrite E1 in E1'. injection E1' as <-. eapply wake_weaken; [| |by apply W1]; [by intros x [H _]|]. intros x [H1 H2]. split; [done|]. tauto.
    - exists st. split; [done|]. split; [done|]. split; [apply calm_refl|]. split; [done|]. intros EL E. apply wake_weaken; [done|]. intros x HE. split; [done|].
      intros (-> & Ht & Hal). rewrite Hal, andb_true_r in Eb. by apply bool_decide_eq_false in Eb. }
  cbn [mbind option_bind]. destruct (IH st1 X thread I1) as (st2 & E2 & I2 & C2 & O2 & W2).
  { intros x Hx. destruct (Hl x) as [g Hg]; [set_solver|]. destruct (ca_frames _ _ C1 x g Hg) as (g' & Hg' & _). eauto. }
  exists st2. split; [done|]. split; [done|]. split; [by eapply calm_trans|]. split; [congruence|]. intros EL E W. eapply wake_weaken; [done| |by apply W2, W1]. intros x [[H1 H2] H3]. split; [done|].
  rewrite elem_of_cons. intros [[->|Hx] (conn' & f' & Hc' & Hf' & Ht & Hal)].
  - rewrite Hc in Hc'. injection Hc' as <-. rewrite Hw in Hf'. injection Hf' as <-. tauto.
  - destruct (ca_frames _ _ C1 x f' Hf') as (g & Hg & Hcf). apply H3. split; [done|]. exists conn', g. rewrite (ca_conns _ _ C1). split_and!; [done..|]. destruct Hcf as (-> & _). done.
Qed.
