(* ===== verification/ServerKeep.v ===== *)
(** * Changes that keep the server well formed and nobody asleep too long

    The steps requests are made of, with what each does to the invariants of
    [ServerInv] and [ServerWake]: changing an object, counting references,
    dropping them, adding and removing handles, connections. *)
From S2P Require Import Prelude Chain Completion Threads ServerObjects ServerSync ServerRequests ServerSelect ServerInv ServerLinks ServerWake.
Local Open Scope Z_scope.

(** ** Objects *)

Definition thread_quiet (obj obj' : server_object) : Prop :=
  (ob_apcs obj = [] -> ob_apcs obj' = []) /\
  (ts_started (ob_thread obj) && nonzero (ts_suspend (ob_thread obj)) = false -> ts_started (ob_thread obj') && nonzero (ts_suspend (ob_thread obj')) = false).

Definition port_signals (obj : server_object) : bool := ob_completion_closed obj || (0 <? cq_depth (ob_completion obj)).

Lemma thread_quiet_same obj obj' : ob_apcs obj' = ob_apcs obj -> ob_thread obj' = ob_thread obj -> thread_quiet obj obj'.
Proof. intros H1 H2. split; [by rewrite H1|by rewrite H2]. Qed.

(** The source of a link whose object is [o], or a completion wait on [o]. *)
Lemma link_of_object st X w f i l o obj : server_inv st X -> ws_frames st !! w = Some f -> wt_links f !! i = Some l -> ws_objects st !! o = Some obj ->
  (fst l = o -> snd l = source_of obj o) /\
  (forall x, ws_objects st !! fst l = Some x -> ob_type x = OBJECT_COMPLETION_WAIT -> ob_wait_port x = Some o -> snd l = source_of obj o).
Proof.
  intros I Hw Hl Ho. destruct (fo_conn _ _ _ (si_frames _ _ I w f Hw)) as (conn & _ & _ & _ & Hlk). destruct (Hlk i l Hl) as [_ (x & Hx & Hsrc) _].
  assert (link_source x (fst l) = Some (snd l) -> ob_type x = OBJECT_COMPLETION_WAIT -> ob_wait_port x = Some (snd l)) as Hcw by (unfold link_source; intros H Ht; by rewrite Ht in H).
  split.
  - intros <-. rewrite Ho in Hx. injection Hx as <-. unfold source_of. unfold link_source in Hsrc. destruct (ob_type obj); try (by injection Hsrc); try done. by rewrite decide_True, Hsrc.
  - intros y Hy Ht Hp. rewrite Hx in Hy. injection Hy as <-. assert (snd l = o) as -> by (pose proof (Hcw Hsrc Ht); congruence). unfold source_of. destruct (decide (ob_type obj = OBJECT_COMPLETION_WAIT)) as [Hto|]; [|done].
    destruct (oo_port _ _ (si_objects _ _ I _ x Hx) o Hp) as [_ Hto']. unfold type_at in Hto'. rewrite Ho in Hto'. simpl in Hto'. congruence.
Qed.

Lemma wake_put_loud st X o obj obj' EL E : server_inv st X -> ws_objects st !! o = Some obj -> ob_type obj' = ob_type obj -> ob_wait_port obj' = ob_wait_port obj -> thread_quiet obj obj' ->
  wake_except st EL E -> wake_except (put_object st o obj') EL (fun x => E x \/ linked st (source_of obj o) x).
Proof.
  intros I Ho Ht Hp [Q1 Q2] W w f Hw Hs. destruct (W w f Hw Hs) as [A B]. split; [exact A|]. intros H. apply (frame_still_mono st _ w f f); [apply B; tauto|done|done|done|done|done| | |done].
  - intros conn i l Hc Hl. destruct (link_of_object st X w f i l o obj I Hw Hl Ho) as [L1 L2].
    assert (snd l <> source_of obj o) as Hne by (intros E1; apply H; right; exists f, i; split; [done|]; rewrite Hl; simpl; by rewrite E1).
    assert (fst l <> o) as Hfo by (intros E1; by apply Hne, L1). unfold signals. simpl. rewrite lookup_insert_ne by done. destruct (ws_objects st !! fst l) as [x|] eqn:Hx; [|done].
    unfold object_signals. destruct (ob_type x) eqn:Htx; try done. destruct (ob_wait_port x) as [p|] eqn:Hpx; [|done]. rewrite lookup_insert_ne; [done|]. intros <-. by apply Hne, (L2 x).
  - intros conn t y Hc Hth Hy. simpl in Hy. destruct (decide (t = o)) as [->|Hne]; [rewrite lookup_insert_eq in Hy; injection Hy as <-; by exists obj|]. rewrite lookup_insert_ne in Hy by done. by exists y.
Qed.

Lemma wake_put_quiet st o obj obj' EL E : ws_objects st !! o = Some obj -> ob_type obj' = ob_type obj -> ob_wait_port obj' = ob_wait_port obj -> thread_quiet obj obj' ->
  (port_signals obj' = true -> port_signals obj = true) -> (forall tid, object_signals (ws_objects st) tid obj' = true -> object_signals (ws_objects st) tid obj = true) ->
  wake_except st EL E -> wake_except (put_object st o obj') EL E.
Proof.
  intros Ho Ht Hp [Q1 Q2] Hport Hsig W w f Hw Hs. destruct (W w f Hw Hs) as [A B]. split; [exact A|]. intros H. apply (frame_still_mono st _ w f f); [by apply B|done|done|done|done|done| | |done].
  - intros conn i l Hc Hl. apply (signals_put (ws_objects st) o obj obj'); [done|done|done|exact Hport|apply Hsig].
  - intros conn t y Hc Hth Hy. simpl in Hy. destruct (decide (t = o)) as [->|Hne]; [rewrite lookup_insert_eq in Hy; injection Hy as <-; by exists obj|]. rewrite lookup_insert_ne in Hy by done. by exists y.
Qed.

(** Counts do not matter. *)
Lemma wake_put_refs st o obj n EL E : ws_objects st !! o = Some obj -> wake_except st EL E -> wake_except (put_object st o (o_refs obj n)) EL E.
Proof. intros Ho. apply (wake_put_quiet st o obj); [done|done|done|by apply thread_quiet_same|done|done]. Qed.

(** ** Dropping *)

Lemma signals_payload objs objs' tid o :
  (forall obj', objs' !! o = Some obj' -> exists obj, objs !! o = Some obj /\ same_payload obj obj' /\ forall p port', ob_wait_port obj = Some p -> objs' !! p = Some port' -> exists port, objs !! p = Some port /\ same_payload port port') ->
  (forall obj' p, objs' !! o = Some obj' -> ob_type obj' = OBJECT_COMPLETION_WAIT -> ob_wait_port obj' = Some p -> is_Some (objs' !! p)) ->
  signals objs' tid o = true -> signals objs tid o = true.
Proof.
  intros H1 H2. unfold signals. destruct (objs' !! o) as [obj'|] eqn:Ho'; [|done]. destruct (H1 obj' eq_refl) as (obj & -> & Hpay & Hport). unfold same_payload in Hpay.
  assert (ob_type obj' = ob_type obj) as Ht by (by rewrite Hpay). assert (ob_wait_port obj' = ob_wait_port obj) as Hp by (by rewrite Hpay).
  unfold object_signals. rewrite Ht. destruct (ob_type obj) eqn:Htt; try done; try (by rewrite Hpay). rewrite Hp. destruct (ob_wait_port obj) as [p|]; [|done].
  destruct (H2 obj' p eq_refl ltac:(congruence) Hp) as [port' Hp']. rewrite Hp'. destruct (Hport p port' eq_refl Hp') as (port & -> & ->). done.
Qed.

(** Objects that stay are as they were, but for counts and waiters. *)
Lemma wake_rehooks st st' X w k EL E : server_inv st' X -> rehooks st st' w k -> wake_except st EL E -> wake_except st' (fun x => EL x \/ x = w) (fun x => E x \/ x = w).
Proof.
  intros I' R W x f Hx Hs. destruct (decide (x = w)) as [->|Hne]; [split; intros H; exfalso; apply H; by right|]. rewrite (uh_frames _ _ _ _ R x Hne) in Hx. destruct (W x f Hx Hs) as [A B]. split.
  - intros H. eapply Forall_impl; [apply A; tauto|]. intros h. apply live_same; [apply (uh_handles _ _ _ _ R)|apply (uh_entries _ _ _ _ R)].
  - intros H. apply (frame_still_mono st st' x f f); [apply B; tauto|done|done|done|by rewrite (uh_conns _ _ _ _ R)|intros h _; apply live_same; [apply (uh_handles _ _ _ _ R)|apply (uh_entries _ _ _ _ R)]| | |by rewrite (uh_ready _ _ _ _ R)].
    + intros conn i l Hc Hl. apply signals_payload.
      * intros obj' Ho'. destruct (uh_objects _ _ _ _ R (fst l) obj' Ho') as (obj & Ho & Hpay & _). exists obj. split; [done|]. split; [done|]. intros p port' Hp Hp'.
        destruct (uh_objects _ _ _ _ R p port' Hp') as (port & Hport & Hpay' & _). by exists port.
      * intros obj' p Ho' Ht Hp. apply (ro_there _ _ (si_refs _ _ I')), elem_of_app. left. eapply ref_object; [exact Ho'|]. apply object_refs_in. by left.
    + intros conn t obj' Hc Hth Ho'. destruct (uh_objects _ _ _ _ R t obj' Ho') as (obj & Ho & Hpay & _). exists obj. split; [done|]. rewrite Hpay. done.
Qed.

Lemma wake_shrinks st st' X EL E : server_inv st' X -> shrinks st st' -> wake_except st EL E -> wake_except st' EL E.
Proof.
  intros I' S W. set (w := fresh (dom (ws_frames st))). assert (ws_frames st' !! w = None) as Hw.
  { rewrite (sr_frames _ _ (sk_rest _ _ S)). apply not_elem_of_dom, is_fresh. }
  pose proof (wake_rehooks st st' X w 0 EL E I' (shrinks_unhooks _ _ w S) W) as W'. intros x f Hx Hs. destruct (W' x f Hx Hs) as [A B]. assert (x <> w) by congruence. split; intros H'; [apply A|apply B]; tauto.
Qed.

Lemma drop_keep st X o EL E : server_inv st (opt_list o ++ X) -> wake_except st EL E -> refs_room st 0 ->
  exists st', drop_object st o = Some st' /\ server_inv st' X /\ wake_except st' EL E /\ shrinks st st'.
Proof. intros I W Hr. destruct (drop_ok st X o I Hr) as (st' & E' & I' & S'). exists st'. split; [done|]. split; [done|]. split; [by eapply wake_shrinks|done]. Qed.

(** ** Handles *)

Lemma wake_same_objects st st' (EL EL' E E' : positive -> Prop) : same_objects st st' -> ws_ready st' = ws_ready st ->
  (forall w f h, ws_frames st !! w = Some f -> sleeping f -> ~ EL' w \/ ~ E' w -> h ∈ op_handles (wt_op f) -> live st h -> live st' h) -> (forall w, EL w -> EL' w) -> (forall w, E w -> E' w) ->
  wake_except st EL E -> wake_except st' EL' E'.
Proof.
  intros [Ho _ _ Hc Hf _] Hr Hlive HEL HE W w f Hw Hs. rewrite Hf in Hw. destruct (W w f Hw Hs) as [A B]. split.
  - intros H. unfold frame_live. apply Forall_forall. intros h Hh. apply (Hlive w f h Hw Hs (or_introl H) (live_handles_in _ _ Hh)). assert (frame_live st f) as Hl by (apply A; auto). unfold frame_live in Hl. rewrite Forall_forall in Hl. by apply Hl.
  - intros H. apply (frame_still_mono st st' w f f); [apply B; auto|done|done|done|by rewrite Hc|intros h; apply (Hlive w f h Hw Hs (or_intror H))|by rewrite Ho| |by rewrite Hr].
    intros conn t obj' _ _ Hobj. exists obj'. rewrite <- Ho. done.
Qed.

Lemma wake_linked st st' e en EL E : linked_to st st' e en -> ws_ready st' = ws_ready st -> e ∉ ws_handles st -> ws_entries st !! e = None -> wake_except st EL E -> wake_except st' EL E.
Proof.
  intros [He Hh _ _ Ho _ _] Hr Hn Hnew. apply (wake_same_objects st st'); [done|done| |done|done]. intros w f h _ _ _ _ [->|(x & enx & Hx & Hex & Hhx)]; [by left|right].
  exists x, enx. rewrite Hh, He. split; [set_solver|]. split; [|done]. rewrite lookup_insert_ne; [done|]. intros ->. congruence.
Qed.

(** The selects that wait for the handle of an entry that left the table are
    linked to its object. *)
Lemma unlinked_live st X st' e en w f h : server_inv st X -> unlinked st st' e -> e ∈ ws_handles st -> ws_entries st !! e = Some en -> ws_frames st !! w = Some f -> wt_queued f = true -> h ∈ op_handles (wt_op f) -> live st h ->
  live st' h \/ exists i l, wt_links f !! i = Some l /\ fst l = he_object en.
Proof.
  intros I U He Hen Hw Hq Hh [->|(x & enx & Hx & Hex & Hhx)]; [by left; left|]. destruct (decide (x = e)) as [->|Hne].
  - destruct (decide (h = HORIZON_CURRENT_THREAD_HANDLE)) as [->|Hnt]; [by left; left|]. right. rewrite Hen in Hex. injection Hex as <-.
    apply list_elem_of_lookup in Hh as [i Hi]. destruct (fo_queued _ _ _ (si_frames _ _ I w f Hw) Hq) as [Hlen _].
    destruct (lookup_lt_is_Some_2 (wt_links f) i) as [l Hl]; [rewrite Hlen; by eapply lookup_lt_Some|]. exists i, l. split; [done|].
    destruct (fo_conn _ _ _ (si_frames _ _ I w f Hw)) as (conn & _ & _ & _ & Hlk). destruct (Hlk i l Hl) as [(h' & Hi' & Hok) _ _].
    rewrite Hi in Hi'. injection Hi' as <-. unfold handle_ok in Hok. rewrite decide_False in Hok by done. symmetry. by apply (proj2 Hok e en).
  - left. right. exists x, enx. rewrite (un_entries _ _ _ U). split; [|done]. apply (un_handles _ _ _ U). done.
Qed.

Lemma wake_unlinked st X st' e en obj EL E : server_inv st X -> unlinked st st' e -> e ∈ ws_handles st -> ws_entries st !! e = Some en -> ws_objects st !! he_object en = Some obj ->
  wake_except st EL E -> wake_except st' (fun x => EL x \/ linked st (source_of obj (he_object en)) x) (fun x => E x \/ linked st (source_of obj (he_object en)) x).
Proof.
  intros I U He Hen Ho. apply (wake_same_objects st st'); [apply U|apply U| |by left|by left].
  intros w f h Hw (Hq & _) HL Hh Hlive. destruct (unlinked_live st X st' e en w f h I U He Hen Hw Hq Hh Hlive) as [|(i & l & Hl & Hfst)]; [done|]. exfalso.
  enough (linked st (source_of obj (he_object en)) w) by (destruct HL as [HL|HL]; apply HL; by right). exists f, i. split; [done|]. rewrite Hl. simpl. f_equal.
  by apply (link_of_object st X w f i l _ obj I Hw Hl Ho).
Qed.

(** ** The server between operations *)

Definition good (st : wine_server) (X : list positive) : Prop := server_inv st X /\ wake st.

Definition handle_room (st : wine_server) : Prop := 0 <= ws_next_handle st /\ ws_next_handle st + 4 < 4294967296.

Lemma drop_good st X o : good st (opt_list o ++ X) -> refs_room st 0 -> exists st', drop_object st o = Some st' /\ good st' X /\ shrinks st st'.
Proof. intros [I W] Hr. destruct (drop_keep st X o nobody nobody I W Hr) as (st' & E & I' & W' & S'). by exists st'. Qed.

(** *** New objects *)

Lemma refs_fresh st X o : server_inv st X -> ws_objects st !! o = None -> o ∉ server_refs st ++ X.
Proof. intros I Ho Hin. destruct (ro_there _ _ (si_refs _ _ I) o Hin). congruence. Qed.

Lemma occ_fresh o l : o ∉ l -> occ o l = 0%nat.
Proof. rewrite occ_elem. lia. Qed.

Lemma occ_replicate o n p : occ p (replicate n o) = (if decide (o = p) then n else 0)%nat.
Proof. induction n as [|n IH]; simpl; [by destruct (decide _)|]. rewrite occ_cons, IH. by destruct (decide _). Qed.

Record newly (st st' : wine_server) (o : positive) (obj : server_object) : Prop := {
  nw_none : ws_objects st !! o = None;
  nw_objects : ws_objects st' = <[o := obj]> (ws_objects st);
  nw_rest : same_rest st st';
  nw_held : ws_held st' = ws_held st;
  nw_views : ws_views st' = ws_views st;
  nw_ready : ws_ready st' = ws_ready st;
  nw_timers : ws_timers st' = ws_timers st;
  nw_threads : ws_threads st' = if decide (ob_type obj = OBJECT_THREAD) then o :: ws_threads st else ws_threads st;
}.

Definition plain (obj : server_object) : Prop := object_refs obj = [] /\ ob_waiters obj = [] /\ ob_timer_when obj = 0 /\ payload_ok obj.

Lemma stable_fresh (objs : gmap positive server_object) o obj p : objs !! o = None -> stable objs (<[o := obj]> objs) p.
Proof. intros Ho x Hx. exists x. split; [|done]. rewrite lookup_insert_ne; [done|]. intros <-. congruence. Qed.

Lemma newly_refs st st' o obj p : newly st st' o obj -> object_refs obj = [] -> occ p (server_refs st') = occ p (server_refs st).
Proof. intros [H1 H2 [R1 R2 R3 R4 R5 R6 R7] H4 H5 _ _ _] Hobj. by rewrite !occ_server, R1, R2, R5, R6, H4, H5, H2, occ_bind_map_new, Hobj. Qed.

Lemma newly_lists st X st' o obj : server_inv st X -> newly st st' o obj -> ob_timer_when obj = 0 -> lists_ok (ws_objects st') (ws_timers st') (ws_threads st').
Proof.
  intros I [Ho -> _ _ _ _ -> ->] Hw. destruct (si_lists _ _ I) as [L1 L2 L3 L4].
  assert (o ∉ ws_threads st) as Hnt by (rewrite L4; unfold type_at; by rewrite Ho). split; [done| | |].
  - intros t. rewrite L2. destruct (decide (t = o)) as [->|Hne]; [rewrite lookup_insert_eq, Ho|by rewrite lookup_insert_ne]. split; intros (x & [= <-] & _ & Hx); done.
  - destruct (decide _); [by apply NoDup_cons|done].
  - intros t. unfold type_at. destruct (decide (t = o)) as [->|Hne]; [rewrite lookup_insert_eq; simpl; destruct (decide _) as [->|]|].
    + split; [done|left].
    + split; [done|by intros [=]].
    + rewrite lookup_insert_ne by done. change (ob_type <$> ws_objects st !! t) with (type_at (ws_objects st) t). destruct (decide _); rewrite <- L4, ?elem_of_cons; naive_solver.
Qed.

Lemma inv_new_object st st' X o obj n : server_inv st X -> newly st st' o obj -> plain obj -> ob_refs obj = Z.of_nat n -> server_inv st' (replicate n o ++ X).
Proof.
  intros I N (Hrefs & Hwt & Hwhen & Hpay) Hn. pose proof (nw_none _ _ _ _ N) as Ho. pose proof (nw_objects _ _ _ _ N) as Ho'. pose proof (refs_fresh _ _ _ I Ho) as Hfresh.
  apply (inv_change_objects st st' X _ I (nw_rest _ _ _ _ N)).
  - destruct (si_refs _ _ I) as [R1 R2]. split.
    + intros p x Hx. rewrite !occ_app, (newly_refs _ _ _ _ p N Hrefs), occ_replicate. rewrite Ho' in Hx. destruct (decide (o = p)) as [->|Hne].
      * rewrite lookup_insert_eq in Hx. injection Hx as <-. apply occ_fresh in Hfresh. rewrite occ_app in Hfresh. lia.
      * rewrite lookup_insert_ne in Hx by done. rewrite (R1 p x Hx), occ_app. lia.
    + intros p Hin. rewrite Ho'. destruct (decide (o = p)) as [->|Hne]; [rewrite lookup_insert_eq; eauto|]. rewrite lookup_insert_ne by done. apply R2.
      rewrite !elem_of_app in *. destruct Hin as [Hin|[Hin|Hin]]; [left; by apply (elem_occ_iff _ _ (fun q => newly_refs _ _ _ _ q N Hrefs))| |by right]. apply elem_of_replicate in Hin as [-> _]. done.
  - intros p x Hx. rewrite Ho' in *. apply (object_ok_stable (ws_objects st)); [intros; by apply stable_fresh|]. destruct (decide (o = p)) as [->|Hne].
    + rewrite lookup_insert_eq in Hx. injection Hx as <-. assert (forall q, q ∉ object_refs obj) as Hno by (rewrite Hrefs; intros q; apply not_elem_of_nil).
      split; [intros q Hq; exfalso; apply (Hno q), object_refs_in; auto..|done].
    + rewrite lookup_insert_ne in Hx by done. by eapply (si_objects _ _ I).
  - intros src x Hx. rewrite Ho' in Hx. destruct (decide (o = src)) as [->|Hne]; [|rewrite lookup_insert_ne in Hx by done; by apply (si_links _ _ I)].
    rewrite lookup_insert_eq in Hx. injection Hx as <-. rewrite Hwt. split; [apply NoDup_nil_2|]. intros w i. split; [by intros ?%elem_of_nil|]. intros (f & Hf & Hl). exfalso. apply Hfresh, elem_of_app. left.
    destruct (wt_links f !! i) as [l|] eqn:Hl'; [|done]. injection Hl as <-. eapply ref_frame; [exact Hf|exact Hl'|apply link_refs_src].
  - by apply (newly_lists st X st' o obj).
  - intros p _. rewrite Ho'. by apply stable_fresh.
Qed.

Lemma wake_new_object st st' X o obj EL E : server_inv st X -> newly st st' o obj -> wake_except st EL E -> wake_except st' EL E.
Proof.
  intros I [Ho Ho' [R1 R2 R3 R4 R5 R6 R7] _ _ Hr _ _] W w f Hw Hs. rewrite R6 in Hw. destruct (W w f Hw Hs) as [A B]. pose proof (refs_fresh _ _ _ I Ho) as Hfresh. split.
  - intros H. eapply Forall_impl; [by apply A|]. intros h. by apply live_same.
  - intros H. apply (frame_still_mono st st' w f f); [by apply B|done|done|done|by rewrite R5|intros h _; by apply live_same| | |by rewrite Hr].
    + intros conn i l Hc Hl. assert (fst l <> o) as Hne by (intros <-; apply Hfresh, elem_of_app; left; eapply ref_frame; [exact Hw|exact Hl|apply link_refs_obj]).
      unfold signals. rewrite Ho', lookup_insert_ne by done. destruct (ws_objects st !! fst l) as [x|] eqn:Hx; [|done]. unfold object_signals. destruct (ob_type x); try done. destruct (ob_wait_port x) as [p|] eqn:Hp; [|done].
      rewrite lookup_insert_ne; [done|]. intros <-. apply Hfresh, elem_of_app. left. eapply ref_object; [exact Hx|]. apply object_refs_in. by left.
    + intros conn t y Hc Hth Hy. exists y. split; [|done]. rewrite Ho', lookup_insert_ne in Hy; [done|]. intros <-. apply Hfresh, elem_of_app. left. eapply ref_conn; [exact Hc|]. unfold connection_refs. rewrite Hth. set_solver.
Qed.

Lemma good_new_object st st' X o obj n : good st X -> newly st st' o obj -> plain obj -> ob_refs obj = Z.of_nat n -> good st' (replicate n o ++ X).
Proof. intros [I W] N P Hn. split; [by apply (inv_new_object st st' X o obj)|by apply (wake_new_object st st' X o obj)]. Qed.

(** *** New handles *)

Lemma entry_fresh st X e : server_inv st X -> ws_entries st !! e = None -> e ∉ ws_handles st.
Proof. intros I He Hin. destruct (ta_entry _ _ _ _ (si_table _ _ I) e Hin) as (en & Hen & _). congruence. Qed.

Lemma good_linked st X st' e en : good st (he_object en :: X) -> linked_to st st' e en -> ws_ready st' = ws_ready st -> ws_entries st !! e = None -> ws_next_handle st < he_handle en -> 0 < he_handle en -> good st' X.
Proof.
  intros [I W] L Hr He Hn H0. split; [by apply (inv_linked st X st' e en)|]. apply (wake_linked st st' e en nobody nobody L Hr); [by apply (entry_fresh st _ e I)|done|done].
Qed.

Lemma u32_next st : handle_room st -> u32 (ws_next_handle st + 4) = ws_next_handle st + 4.
Proof. intros [H1 H2]. apply u32_small. unfold is_u32. lia. Qed.

(** What the creation of handle [e] to [o] leaves. *)
Record created (st st' : wine_server) (e : positive) (access : Z) (o : positive) (obj : server_object) : Prop := {
  cr_objects : ws_objects st' = <[o := obj]> (ws_objects st);
  cr_entry : ws_entries st' !! e = Some (mk_entry (ws_next_handle st + 4) access o);
  cr_entries : forall x, x <> e -> ws_entries st' !! x = ws_entries st !! x;
  cr_fresh : e ∉ ws_handles st;
  cr_handles : ws_handles st' = e :: ws_handles st;
  cr_conns : ws_conns st' = ws_conns st;
  cr_frames : ws_frames st' = ws_frames st;
  cr_waiting : ws_waiting st' = ws_waiting st;
  cr_ready : ws_ready st' = ws_ready st;
  cr_next_tid : ws_next_tid st' = ws_next_tid st;
}.

Lemma queue_ok_new : queue_ok completion_queue_new.
Proof. exists [], []. split; [apply completion_queue_new_rep|done]. Qed.

Lemma new_object_payload id type refs t : (ts_terminated t = true -> ts_suspend t = 0) -> payload_ok (new_object id type refs t).
Proof. intros Ht. split; [apply queue_ok_new|]. simpl. split; [done|]. split; [exact Ht|lia]. Qed.

Lemma new_object_plain id type refs tid pid affinity now : plain (new_object id type refs (horizon_thread_init tid pid affinity now)).
Proof. split; [done|]. split; [done|]. split; [done|]. by apply new_object_payload. Qed.

(** Memory that was asked for. *)
Definition only_alloc (st st' : wine_server) : Prop := exists n, st' = s_allocs st n.

Lemma good_alloc st X n : good st X -> good (s_allocs st n) X.
Proof. intros [[R1 R2 R3 R4 R5 R6 R7 R8 R9] W]. split; [|exact W]. split; [exact R1|exact R2|exact R3|exact R4|exact R5|exact R6| |exact R8|exact R9]. intros w f Hw. destruct (R7 w f Hw) as [(conn & H1 & H2 & H3 & H4) H5]. split; [|done]. exists conn. split; [done|]. split; [done|]. split; [done|].
  intros i l Hl. destruct (H4 i l Hl) as [K1 K2 K3]. by split. Qed.

Lemma only_alloc_good st st' X : only_alloc st st' -> good st X -> good st' X.
Proof. intros [n ->]. apply good_alloc. Qed.

Lemma create_handle_ok st X type : good st X -> handle_room st -> type <> OBJECT_THREAD ->
  exists r st', horizon_server_create_handle_locked st type = Some (r, st') /\ good st' X /\
    match r with
    | None => only_alloc st st'
    | Some e => exists o, ws_objects st !! o = None /\ created st st' e 0 o (new_object (ws_next_handle st + 4) type 1 (horizon_thread_init 0 0 0 0))
    end.
Proof.
  intros G Hh Ht. unfold horizon_server_create_handle_locked. cbn [ws_alloc fst snd]. destruct (negb _ || negb _) eqn:Em.
  { exists None, (s_allocs st (S (S (ws_allocs st)))). split; [done|]. split; [by apply good_alloc|by exists (S (S (ws_allocs st)))]. }
  set (st1 := s_allocs st (S (S (ws_allocs st)))). assert (good st1 X) as G1 by (by apply good_alloc). set (h := u32 (ws_next_handle st + 4)). assert (h = ws_next_handle st + 4) as Hn by (by apply u32_next).
  set (o := fresh (dom (ws_objects st))). assert (ws_objects st !! o = None) as Ho by (apply not_elem_of_dom, is_fresh).
  set (e := fresh (dom (ws_entries st))). assert (ws_entries st !! e = None) as He by (apply not_elem_of_dom, is_fresh).
  set (obj := new_object h type 1 (horizon_thread_init 0 0 0 0)). set (st2 := put_object st1 o obj).
  assert (good st2 (o :: X)) as G2.
  { apply (good_new_object st1 st2 X o obj 1 G1); [|apply new_object_plain|done]. split; [done|done|by split|done|done|done|done|]. by rewrite decide_False by exact Ht. }
  set (en := mk_entry h 0 o). eexists (Some e), _. split.
  { unfold horizon_server_link_handle_locked, new_entry, horizon_server_alloc_handle. cbn [fst snd]. change (ws_entries (s_entries (s_next_handle st1 h) (<[e := en]> (ws_entries st)))) with (<[e := en]> (ws_entries st)).
    change (fresh (dom (ws_entries (s_next_handle (s_allocs (s_allocs st (S (ws_allocs st))) (S (ws_allocs (s_allocs st (S (ws_allocs st)))))) _)))) with e. cbn. rewrite lookup_insert_eq. cbn. reflexivity. }
  split.
  - apply (good_linked st2 X _ e en G2); [|done|done|simpl; lia|simpl; destruct Hh; lia]. split; [done|done|done|done|by split|done|done].
  - rewrite (u32_next st Hh). exists o. split; [done|]. split; [done|apply lookup_insert_eq|intros x Hx; by apply lookup_insert_ne|by apply (entry_fresh st X e (proj1 G))|done..].
Qed.

(** *** Changes nobody has to be told of *)

Record quiet (obj obj' : server_object) : Prop := {
  qu_thread : thread_quiet obj obj';
  qu_port : port_signals obj' = true -> port_signals obj = true;
  qu_signals : forall objs tid, object_signals objs tid obj' = true -> object_signals objs tid obj = true;
}.

Definition same_when (obj obj' : server_object) : Prop := ob_type obj = OBJECT_TIMER -> ob_timer_when obj' <> 0 <-> ob_timer_when obj <> 0.

Lemma object_payload st X o obj : server_inv st X -> ws_objects st !! o = Some obj -> payload_ok obj.
Proof. intros I Ho. apply (si_objects _ _ I o obj Ho). Qed.

Lemma good_put_quiet st X o obj obj' : good st X -> ws_objects st !! o = Some obj -> same_shape obj obj' -> payload_ok obj' -> same_when obj obj' -> quiet obj obj' -> good (put_object st o obj') X.
Proof.
  intros [I W] Ho Hs Hp Hw [Q1 Q2 Q3]. split; [by apply (inv_put_payload st X o obj)|]. apply (wake_put_quiet st o obj); [done|apply Hs|apply Hs|done|done|intros tid; apply Q3|done].
Qed.

Lemma good_put_up st X o obj obj' : good st X -> ws_objects st !! o = Some obj -> same_shape obj (o_refs obj' (ob_refs obj)) -> ob_refs obj' = ob_refs obj + 1 -> payload_ok obj' -> same_when obj obj' -> quiet obj obj' ->
  good (put_object st o obj') (o :: X).
Proof.
  intros [I W] Ho Hs Hr Hp Hw [Q1 Q2 Q3]. split.
  - apply (inv_put st X (o :: X) o obj obj' (ob_refs obj') I Ho Hs eq_refl Hp Hw).
    + intros p Hne. by rewrite occ_cons, decide_False by done.
    + rewrite occ_cons, decide_True by done. lia.
    + intros p. rewrite elem_of_cons. naive_solver.
  - apply (wake_put_quiet st o obj); [done|exact (sh_type _ _ Hs)|exact (sh_port _ _ Hs)|done|done|intros tid; apply Q3|done].
Qed.

Lemma u32_up st X o obj k : server_inv st X -> ws_objects st !! o = Some obj -> refs_room st k -> 1 <= k -> u32 (ob_refs obj + 1) = ob_refs obj + 1.
Proof. intros I Ho Hr Hk. apply u32_small. pose proof (refs_nonneg _ _ _ _ I Ho). specialize (Hr o obj Ho). unfold is_u32. lia. Qed.

Lemma good_ref_up st X o obj : good st X -> ws_objects st !! o = Some obj -> refs_room st 1 -> good (put_object st o (o_refs obj (u32 (ob_refs obj + 1)))) (o :: X).
Proof.
  intros G Ho Hr. rewrite (u32_up st X o obj 1 (proj1 G) Ho Hr ltac:(lia)). apply (good_put_up st X o obj); [done|done|by split|done|exact (object_payload st X o obj (proj1 G) Ho)|done|by split].
Qed.

Lemma refs_room_put st k n o obj obj' : refs_room st k -> ws_objects st !! o = Some obj -> 0 <= n -> ob_refs obj' <= ob_refs obj + n -> refs_room (put_object st o obj') (k - n).
Proof.
  intros Hr Ho H0 Hn p x Hx. simpl in Hx. pose proof (Hr o obj Ho) as H. destruct (decide (p = o)) as [->|Hne].
  - rewrite lookup_insert_eq in Hx. injection Hx as <-. lia.
  - rewrite lookup_insert_ne in Hx by done. pose proof (Hr p x Hx). lia.
Qed.

(** *** Handles to objects there are *)

Definition opened (obj : server_object) : server_object :=
  let obj := o_refs obj (ob_refs obj + 1) in if decide (ob_type obj = OBJECT_COMPLETION) then o_closed obj false else obj.

Lemma opened_shape obj : same_shape obj (o_refs (opened obj) (ob_refs obj)) /\ ob_refs (opened obj) = ob_refs obj + 1 /\ ob_thread (opened obj) = ob_thread obj /\ ob_type (opened obj) = ob_type obj /\ ob_apcs (opened obj) = ob_apcs obj.
Proof. unfold opened. simpl. by destruct (decide _). Qed.

Lemma good_opened st X o obj : good st X -> ws_objects st !! o = Some obj -> good (put_object st o (opened obj)) (o :: X).
Proof.
  intros G Ho. apply (good_put_up st X o obj); [done|done|by apply opened_shape|by apply opened_shape| | |].
  - pose proof (object_payload st X o obj (proj1 G) Ho). unfold opened. simpl. by destruct (decide _).
  - unfold same_when, opened. simpl. by destruct (decide _).
  - unfold opened. simpl. destruct (decide _) as [Ht|]; [|by split]. split; [by split| |].
    + unfold port_signals. simpl. intros ->. by rewrite orb_true_r.
    + intros objs tid. unfold object_signals. simpl. by rewrite Ht.
Qed.

Lemma create_handle_for_ok st X o obj : good st X -> handle_room st -> refs_room st 1 -> ws_objects st !! o = Some obj ->
  exists r st', horizon_server_create_handle_for_object_locked st o = Some (r, st') /\ good st' X /\
    match r with None => only_alloc st st' | Some e => created st st' e 0 o (opened obj) end.
Proof.
  intros G Hh Hr Ho. unfold horizon_server_create_handle_for_object_locked. cbn [ws_alloc fst snd]. destruct (negb _) eqn:Em.
  { exists None, (s_allocs st (S (ws_allocs st))). split; [done|]. split; [by apply good_alloc|by exists (S (ws_allocs st))]. }
  set (st1 := s_allocs st (S (ws_allocs st))). assert (good st1 X) as G1 by (by apply good_alloc). set (h := u32 (ws_next_handle st + 4)). assert (h = ws_next_handle st + 4) as Hn by (by apply u32_next).
  set (e := fresh (dom (ws_entries st))). assert (ws_entries st !! e = None) as He by (apply not_elem_of_dom, is_fresh).
  unfold horizon_server_alloc_handle. cbn [fst snd]. change (ws_objects (s_next_handle st1 _)) with (ws_objects st). rewrite Ho. cbn [mbind option_bind]. rewrite (u32_up st X o obj 1 (proj1 G) Ho Hr ltac:(lia)).
  pose proof (good_opened st1 X o obj G1 Ho) as G2. fold (opened obj). set (st2 := put_object st1 o (opened obj)) in *. set (en := mk_entry h 0 o). eexists (Some e), _. split.
  { unfold horizon_server_link_handle_locked, new_entry. cbn [fst snd].
    change (fresh (dom (ws_entries (put_object (s_next_handle st1 (u32 (ws_next_handle st1 + 4))) o (opened obj))))) with e. cbn. rewrite lookup_insert_eq. cbn. reflexivity. }
  split.
  - apply (good_linked st2 X _ e en G2); [|done|done|simpl; lia|simpl; destruct Hh; lia]. split; [done|done|done|done|by split|done|done].
  - rewrite (u32_next st Hh). split; [done|apply lookup_insert_eq|intros x Hx; by apply lookup_insert_ne|by apply (entry_fresh st X e (proj1 G))|done..].
Qed.
