(* ===== verification/ServerHandlers.v ===== *)
(** * The handlers keep the server well formed

    Every handler of [ServerRequests] and [ServerSelect] that works on objects
    and handles, from a server that is [good]: it returns, and leaves the server
    [good]. *)
From S2P Require Import Prelude Chain Completion Threads ServerObjects ServerSync ServerRequests ServerSelect ServerInv ServerLinks ServerWake ServerKeep.
Local Open Scope Z_scope.

(** Room for what one event adds. *)
Record fits (st : wine_server) : Prop := {
  ft_refs : refs_room st 256;
  ft_handles : handle_room st;
  ft_depths : forall o obj, ws_objects st !! o = Some obj -> cq_depth (ob_completion obj) + 1 < 4294967296;
}.

Definition safe {A} (r : option (A * wine_server)) : Prop := exists a st', r = Some (a, st') /\ good st' [].

Lemma safe_ret {A} (a : A) st : good st [] -> safe (Some (a, st)).
Proof. by exists a, st. Qed.

Lemma safe_done r fields : (exists st', r = Some st' /\ good st' []) -> safe (done r fields).
Proof. intros (st' & -> & G). by eexists _, st'. Qed.

Lemma nonzero_spec n : nonzero n = true <-> n <> 0.
Proof. unfold nonzero. destruct (Z.eqb_spec n 0); simpl; split; done. Qed.

(** ** Objects by handle *)

Lemma find_typed_ok st X h type : server_inv st X -> exists s r, horizon_server_find_typed_object_locked st h type = Some (s, r) /\
  forall o, r = Some o -> exists e en obj, e ∈ ws_handles st /\ ws_entries st !! e = Some en /\ he_handle en = h /\ he_object en = o /\ ws_objects st !! o = Some obj /\ ob_type obj = type.
Proof.
  intros I. unfold horizon_server_find_typed_object_locked. destruct (h =? 0); [by eexists _, None|]. destruct (find_handle_ok st X h I) as (r & -> & Hr). simpl. destruct r as [e|]; [|by eexists _, None].
  destruct Hr as (He & en & Hen & Hh). destruct (entry_ok st X e I He) as (en' & obj & -> & Hen' & Ho). rewrite Hen in Hen'. injection Hen' as <-. simpl. destruct (decide _) as [Ht|]; [|by eexists _, None].
  eexists _, _. split; [done|]. intros o [= <-]. by exists e, en, obj.
Qed.

Lemma typed_safe st h type none f : good st [] -> (forall o obj, ws_objects st !! o = Some obj -> ob_type obj = type -> safe (f o obj)) -> safe (typed st h type none f).
Proof.
  intros G Hf. unfold typed. destruct (find_typed_ok st [] h type (proj1 G)) as (s & r & -> & Hr). simpl. destruct r as [o|]; [|by apply safe_ret].
  destruct (Hr o eq_refl) as (e & en & obj & _ & _ & _ & _ & Ho & Ht). rewrite Ho. by apply Hf.
Qed.

(** What signals and notifications change. *)
Record mild (st st' : wine_server) : Prop := {
  mi_objects : forall p obj, ws_objects st !! p = Some obj -> exists obj', ws_objects st' !! p = Some obj' /\ same_shape obj obj' /\ ob_thread obj' = ob_thread obj /\ ob_apcs obj' = ob_apcs obj;
  mi_dom : forall p, ws_objects st !! p = None -> ws_objects st' !! p = None;
  mi_entries : ws_entries st' = ws_entries st;
  mi_handles : ws_handles st' = ws_handles st;
  mi_next : ws_next_handle st' = ws_next_handle st;
  mi_conns : ws_conns st' = ws_conns st;
  mi_ready : ws_ready st' = ws_ready st;
  mi_held : ws_held st' = ws_held st;
  mi_frames : forall w f, ws_frames st !! w = Some f -> exists f', ws_frames st' !! w = Some f' /\ calm_frame f f';
  mi_no_frame : forall w, ws_frames st !! w = None -> ws_frames st' !! w = None;
}.

Lemma mild_refl st : mild st st.
Proof. split; try done. - intros p obj Ho. exists obj. split; [done|]. split; [apply same_shape_refl|done]. - intros w f Hw. exists f. split; [done|apply calm_frame_refl]. Qed.

Lemma mild_trans st1 st2 st3 : mild st1 st2 -> mild st2 st3 -> mild st1 st3.
Proof.
  intros [A1 A2 A3 A4 A5 A6 A7 A8 A9 A10] [B1 B2 B3 B4 B5 B6 B7 B8 B9 B10]. split; try congruence; [|by auto| |by auto].
  - intros p obj Ho. destruct (A1 p obj Ho) as (o2 & H2 & S2 & T2 & P2). destruct (B1 p o2 H2) as (o3 & H3 & S3 & T3 & P3). exists o3. split; [done|]. split; [by eapply same_shape_trans|split; congruence].
  - intros w f Hw. destruct (A9 w f Hw) as (f2 & H2 & C2). destruct (B9 w f2 H2) as (f3 & H3 & C3). exists f3. split; [done|by eapply calm_frame_trans].
Qed.

Lemma calm_mild st st' : calm st st' -> mild st st'.
Proof.
  intros C. split; try (by apply C). intros p obj Ho. destruct (ca_objects _ _ C p obj Ho) as (obj' & Ho' & [S1 S2 S3 S4 S5 S6]). by exists obj'.
Qed.

Lemma mild_put st st' o obj obj' : ws_objects st !! o = Some obj -> same_shape obj obj' -> ob_thread obj' = ob_thread obj -> ob_apcs obj' = ob_apcs obj -> (exists l, st' = put_object (s_timers st l) o obj') -> mild st st'.
Proof.
  intros Ho Hs Ht Hp [l ->]. split; try done.
  - intros p x Hx. simpl. destruct (decide (p = o)) as [->|Hne].
    + rewrite Ho in Hx. injection Hx as <-. exists obj'. by rewrite lookup_insert_eq.
    + exists x. rewrite lookup_insert_ne by done. split; [done|]. split; [apply same_shape_refl|done].
  - intros p Hx. simpl. rewrite lookup_insert_ne; [done|]. intros <-. congruence.
  - intros w f Hw. exists f. split; [done|apply calm_frame_refl].
Qed.

Lemma mild_room st st' k : mild st st' -> refs_room st k -> refs_room st' k.
Proof.
  intros M Hr p obj' Ho'. destruct (ws_objects st !! p) as [obj|] eqn:Ho; [|by rewrite (mi_dom _ _ M p Ho) in Ho'].
  destruct (mi_objects _ _ M p obj Ho) as (x & Hx & Hs & _). rewrite Ho' in Hx. injection Hx as <-. rewrite (sh_refs _ _ Hs). by apply (Hr p).
Qed.

Lemma told_mild st st' o obj obj' : ws_objects st !! o = Some obj -> same_shape obj obj' -> ob_thread obj' = ob_thread obj -> ob_apcs obj' = ob_apcs obj -> calm (put_object st o obj') st' -> mild st st'.
Proof. intros Ho Hs Ht Hp C. apply (mild_trans _ (put_object st o obj')); [|by apply calm_mild]. by apply (mild_put st _ o obj obj'); [..|exists (ws_timers st)]. Qed.

(** ** Changes that are told *)

Lemma source_of_kin obj obj' o : ob_type obj' = ob_type obj -> ob_wait_port obj' = ob_wait_port obj -> source_of obj' o = source_of obj o.
Proof. unfold source_of. by intros -> ->. Qed.

Lemma wake_loud st X o obj obj' : good st X -> ws_objects st !! o = Some obj -> same_shape obj obj' -> thread_quiet obj obj' ->
  wake_except (put_object st o obj') nobody (linked st (source_of obj o)).
Proof.
  intros [I W] Ho Hs Hq. eapply wake_weaken; [| |apply (wake_put_loud st X o obj obj' nobody nobody I Ho (sh_type _ _ Hs) (sh_port _ _ Hs) Hq W)]; [done|]. by intros w [[]|].
Qed.

Lemma change_told st X o obj obj' : good st X -> ws_objects st !! o = Some obj -> same_shape obj obj' -> payload_ok obj' -> same_when obj obj' -> thread_quiet obj obj' ->
  exists st', horizon_sync_notify_object_locked (put_object st o obj') o true = Some st' /\ good st' X /\ calm (put_object st o obj') st'.
Proof.
  intros G Ho Hs Hp Hw Hq. set (st1 := put_object st o obj'). assert (server_inv st1 X) as I1 by (by apply (inv_put_payload st X o obj); [apply G|..]).
  assert (ws_objects st1 !! o = Some obj') as Ho1 by apply lookup_insert_eq.
  destruct (notify_true_ok st1 X o obj' I1 Ho1) as (st' & E & I' & C & W').
  - rewrite (source_of_kin obj obj' o (sh_type _ _ Hs) (sh_port _ _ Hs)). exact (wake_loud st X o obj obj' G Ho Hs Hq).
  - by exists st'.
Qed.

Lemma set_signaled_ok st X o obj : good st X -> ws_objects st !! o = Some obj -> exists st', set_signaled st o obj = Some st' /\ good st' X /\ mild st st'.
Proof.
  intros G Ho. unfold set_signaled. destruct (ob_signaled obj); [exists st; split; [done|]; split; [done|apply mild_refl]|]. destruct (change_told st X o obj (o_signaled obj true) G Ho) as (st' & E & G' & C).
  - by split.
  - exact (object_payload st X o obj (proj1 G) Ho).
  - done.
  - by split.
  - exists st'. split; [done|]. split; [done|]. by apply (told_mild st st' o obj (o_signaled obj true)).
Qed.

Lemma quiet_unsignal obj : quiet obj (o_signaled obj false).
Proof. split; [by split|done|]. intros objs tid. unfold object_signals. simpl. by destruct (ob_type obj). Qed.

Lemma good_unsignal st X o obj : good st X -> ws_objects st !! o = Some obj -> good (put_object st o (o_signaled obj false)) X.
Proof. intros G Ho. apply (good_put_quiet st X o obj); [done|done|by split|exact (object_payload st X o obj (proj1 G) Ho)|done|apply quiet_unsignal]. Qed.

Lemma event_op_safe st h op : good st [] -> safe (horizon_server_handle_event_op st h op).
Proof.
  intros G. apply typed_safe; [done|]. intros o obj Ho Ht. destruct op.
  - destruct (change_told st [] o obj (o_signaled obj true) G Ho) as (st' & -> & G' & C); [by split|exact (object_payload st [] o obj (proj1 G) Ho)|done|by split|]. simpl.
    destruct (ca_objects _ _ C o (o_signaled obj true) (lookup_insert_eq _ _ _)) as (obj' & Ho' & _). rewrite Ho'. apply safe_ret. by apply good_unsignal.
  - apply safe_done. destruct (set_signaled_ok st [] o obj G Ho) as (st' & -> & G' & _). by exists st'.
  - apply safe_done. eexists. split; [done|]. by apply good_unsignal.
  - by apply safe_ret.
Qed.

(** ** Mutexes and semaphores *)

Lemma good_mutex_quiet st X o obj m : good st X -> ws_objects st !! o = Some obj -> (mx_count m <> 0 -> mx_owner m <> 0) -> mx_owner m = mx_owner (ob_mutex obj) -> good (put_object st o (o_mutex obj m)) X.
Proof.
  intros G Ho Hm Hown. destruct (object_payload st X o obj (proj1 G) Ho) as (P1 & P2 & P3). apply (good_put_quiet st X o obj); [done|done|by split|done|done|].
  split; [by split|done|]. intros objs tid. unfold object_signals. simpl. by rewrite Hown.
Qed.

Lemma change_mutex st X o obj m : good st X -> ws_objects st !! o = Some obj -> (mx_count m <> 0 -> mx_owner m <> 0) ->
  exists st', horizon_sync_notify_object_locked (put_object st o (o_mutex obj m)) o true = Some st' /\ good st' X /\ calm (put_object st o (o_mutex obj m)) st'.
Proof.
  intros G Ho Hm. destruct (object_payload st X o obj (proj1 G) Ho) as (P1 & P2 & P3). apply (change_told st X o obj); [done|done|by split|done|done|by split].
Qed.

Lemma mild_mutex st o obj m : ws_objects st !! o = Some obj -> mild st (put_object st o (o_mutex obj m)).
Proof. intros Ho. by apply (mild_put st _ o obj (o_mutex obj m)); [..|exists (ws_timers st)]. Qed.

Lemma release_mutex_ok st X tid o obj : good st X -> ws_objects st !! o = Some obj -> exists s n st', release_mutex st tid o obj = Some (s, n, st') /\ good st' X /\ mild st st'.
Proof.
  intros G Ho. unfold release_mutex, horizon_mutex_release. destruct (object_payload st X o obj (proj1 G) Ho) as (_ & Hm & _).
  destruct (negb _ || negb _) eqn:E; [simpl; eexists _, _, _; split; [done|]; split; [by apply good_mutex_quiet|by apply mild_mutex]|]. simpl. apply orb_false_iff in E as [E _]. apply negb_false_iff in E. rewrite nonzero_spec in E.
  destruct (nonzero (mx_count (ob_mutex obj) - 1)) eqn:Hn; simpl.
  - eexists _, _, _. split; [done|]. split; [apply good_mutex_quiet; [done|done|simpl; auto|done]|by apply mild_mutex].
  - destruct (change_mutex st X o obj (mk_mutex 0 (mx_count (ob_mutex obj) - 1) (mx_abandoned (ob_mutex obj))) G Ho) as (st' & -> & G' & C).
    { simpl. intros Hc. apply nonzero_spec in Hc. congruence. }
    simpl. eexists _, _, st'. split; [done|]. split; [done|]. refine (told_mild st st' o obj _ Ho _ _ _ C); [by split|done|done].
Qed.

Lemma release_mutex_safe st conn h : good st [] -> safe (horizon_server_handle_release_mutex st conn h).
Proof.
  intros G. apply typed_safe; [done|]. intros o obj Ho Ht. destruct (release_mutex_ok st [] (cn_tid conn) o obj G Ho) as (s & n & st' & -> & G' & _). by apply safe_ret.
Qed.

Lemma change_count st X o obj n : good st X -> ws_objects st !! o = Some obj ->
  exists st', horizon_sync_notify_object_locked (put_object st o (o_count obj n)) o true = Some st' /\ good st' X /\ mild st st'.
Proof.
  intros G Ho. pose proof (object_payload st X o obj (proj1 G) Ho). destruct (change_told st X o obj (o_count obj n) G Ho) as (st' & E & G' & C); [by split|done|done|by split|]. exists st'. split; [done|]. split; [done|]. by apply (told_mild st st' o obj (o_count obj n)).
Qed.

Lemma release_semaphore_safe st h count : good st [] -> safe (horizon_server_handle_release_semaphore st h count).
Proof.
  intros G. apply typed_safe; [done|]. intros o obj Ho Ht. destruct (count =? 0); [by apply safe_ret|]. destruct (_ || _); [by apply safe_ret|]. apply safe_done. destruct (change_count st [] o obj (u32 (ob_count obj + count)) G Ho) as (st' & E & G' & _). by exists st'.
Qed.

Lemma signal_object_ok st X cur h : good st X -> exists s st', horizon_server_signal_object_locked st cur h = Some (s, st') /\ good st' X /\ mild st st'.
Proof.
  intros G. pose proof (mild_refl st) as Mr. unfold horizon_server_signal_object_locked. destruct (h =? 0); [by eexists _, st|]. destruct (find_handle_ok st X h (proj1 G)) as (r & -> & Hr). simpl. destruct r as [e|]; [|by eexists _, st].
  destruct Hr as (He & _). destruct (entry_ok st X e (proj1 G) He) as (en & obj & -> & Hen & Ho). simpl. destruct (ob_type obj); try (by eexists _, st).
  - destruct (set_signaled_ok st X _ obj G Ho) as (st' & -> & G' & M). by eexists _, st'.
  - destruct (release_mutex_ok st X (horizon_server_current_tid st cur) _ obj G Ho) as (s & n & st' & -> & G' & M). by eexists s, st'.
  - destruct (_ =? _); [by eexists _, st|]. destruct (change_count st X _ obj (u32 (ob_count obj + 1)) G Ho) as (st' & -> & G' & M). by eexists _, st'.
Qed.

(** Requests that only look. *)
Lemma query_event_safe st h : good st [] -> safe (horizon_server_handle_query_event st h).
Proof. intros G. apply typed_safe; [done|]. intros. by apply safe_ret. Qed.

Lemma query_mutex_safe st conn h : good st [] -> safe (horizon_server_handle_query_mutex st conn h).
Proof. intros G. apply typed_safe; [done|]. intros. by apply safe_ret. Qed.

Lemma query_semaphore_safe st h : good st [] -> safe (horizon_server_handle_query_semaphore st h).
Proof. intros G. apply typed_safe; [done|]. intros. by apply safe_ret. Qed.

Lemma query_completion_safe st h : good st [] -> safe (horizon_server_handle_query_completion st h).
Proof. intros G. apply typed_safe; [done|]. intros. by apply safe_ret. Qed.

(** ** Timers *)

Lemma lists_timer objs timers threads o obj obj' l : lists_ok objs timers threads -> objs !! o = Some obj -> ob_type obj = OBJECT_TIMER -> ob_type obj' = ob_type obj ->
  NoDup l -> (forall t, t ∈ l <-> t = o /\ ob_timer_when obj' <> 0 \/ t <> o /\ t ∈ timers) -> lists_ok (<[o := obj']> objs) l threads.
Proof.
  intros [L1 L2 L3 L4] Ho Ht Ht' Hn Hl. split; [done| |done|].
  - intros t. rewrite Hl. destruct (decide (t = o)) as [->|Hne].
    + rewrite lookup_insert_eq. split; [intros [[_ Hw]|[]]; [|done]; exists obj'; split; [done|split; [congruence|done]]|]. intros (x & [= <-] & _ & Hw). by left.
    + rewrite lookup_insert_ne by done. rewrite <- L2. naive_solver.
  - intros t. rewrite L4. unfold type_at. destruct (decide (t = o)) as [->|Hne]; [rewrite lookup_insert_eq, Ho; simpl; by rewrite Ht'|by rewrite lookup_insert_ne].
Qed.

Lemma inv_put_timer st X o obj obj' l : server_inv st X -> ws_objects st !! o = Some obj -> same_shape obj obj' -> payload_ok obj' -> lists_ok (<[o := obj']> (ws_objects st)) l (ws_threads st) ->
  server_inv (put_object (s_timers st l) o obj') X.
Proof.
  intros I Ho Hs Hp Hl. set (st' := put_object (s_timers st l) o obj').
  assert (forall p, occ p (server_refs st') = occ p (server_refs st)) as Hocc.
  { intros p. pose proof (occ_objects_update st st' o obj obj' p Ho eq_refl ltac:(by split) eq_refl eq_refl) as H. rewrite (same_shape_refs obj obj' Hs) in H. lia. }
  apply (inv_change_objects st st' X X I); [by split| | | |exact Hl|].
  - apply (refs_ok_occ _ (server_refs st ++ X)); [intros p; by rewrite !occ_app, Hocc|]. destruct (si_refs _ _ I) as [R1 R2]. split.
    + intros p x Hx. simpl in Hx. destruct (decide (p = o)) as [->|Hne]; [rewrite lookup_insert_eq in Hx; injection Hx as <-; rewrite (sh_refs _ _ Hs); by apply R1|]. rewrite lookup_insert_ne in Hx by done. by apply R1.
    + intros p Hin. simpl. destruct (decide (p = o)) as [->|Hne]; [rewrite lookup_insert_eq; eauto|]. rewrite lookup_insert_ne by done. by apply R2.
  - apply (objects_ok_insert _ o obj obj' Ho (sh_type _ _ Hs) (sh_port _ _ Hs) (si_objects _ _ I)).
    destruct (si_objects _ _ I o obj Ho) as [A1 A2 A3 _]. destruct Hs as [S1 S2 S3 S4 S5 S6]. split; [rewrite S1, S4|rewrite S1, S5|rewrite S1, S6|]; done.
  - apply (links_ok_insert _ _ o obj obj' Ho); [by destruct Hs|apply I].
  - intros p _. by apply (stable_insert _ o obj obj' p Ho); apply Hs.
Qed.

Lemma timer_told st X o obj obj' l b : good st X -> ws_objects st !! o = Some obj -> ob_type obj = OBJECT_TIMER -> same_shape obj obj' -> payload_ok obj' -> ob_thread obj' = ob_thread obj -> ob_apcs obj' = ob_apcs obj ->
  NoDup l -> (forall t, t ∈ l <-> t = o /\ ob_timer_when obj' <> 0 \/ t <> o /\ t ∈ ws_timers st) ->
  exists st', horizon_sync_notify_object_locked (put_object (s_timers st l) o obj') o b = Some st' /\ good st' X /\ mild st st' /\ ws_timers st' = l.
Proof.
  intros G Ho Ht Hs Hp Hth Hap Hn Hl. set (st1 := put_object (s_timers st l) o obj').
  assert (server_inv st1 X) as I1. { apply (inv_put_timer st X o obj); [apply G|done|done|done|]. apply (lists_timer _ (ws_timers st) _ o obj); [apply (proj1 G)|done|done|apply Hs|done|done]. }
  assert (ws_objects st1 !! o = Some obj') as Ho1 by apply lookup_insert_eq.
  assert (wake_except st1 nobody (linked st1 (source_of obj' o))) as W1.
  { rewrite (source_of_kin obj obj' o (sh_type _ _ Hs) (sh_port _ _ Hs)). exact (wake_loud st X o obj obj' G Ho Hs (thread_quiet_same _ _ Hap Hth)). }
  assert (exists st', horizon_sync_notify_object_locked st1 o b = Some st' /\ server_inv st' X /\ calm st1 st' /\ wake st') as (st' & E & I' & C & W').
  { destruct b; [by apply (notify_true_ok st1 X o obj')|]. apply (notify_false_ok st1 X o obj' I1 Ho1). by apply (wake_weaken st1 nobody (linked st1 (source_of obj' o))). }
  exists st'. split; [done|]. split; [done|]. split; [|by rewrite (ca_timers _ _ C)]. apply (mild_trans _ st1); [|by apply calm_mild]. by apply (mild_put st st1 o obj obj'); [..|exists l].
Qed.

Lemma is_clock_spec now : is_clock now = true -> 0 < now < 9223372036854775808.
Proof. unfold is_clock, is_s64. lia. Qed.

Lemma set_when expire now : is_clock now = true -> is_s64 expire = true -> (if expire <=? 0 then s64 (now - expire) else Z.max expire now) <> 0.
Proof.
  intros Hn%is_clock_spec He. unfold is_s64 in He. apply andb_prop in He as [He1 He2]. destruct (expire <=? 0) eqn:E; [|lia]. unfold s64. intros H.
  assert ((now - expire + 9223372036854775808) `mod` 18446744073709551616 = 9223372036854775808) as Hm by lia.
  rewrite Z.mod_eq in Hm by lia. assert (18446744073709551616 * ((now - expire + 9223372036854775808) `div` 18446744073709551616) = now - expire) as Hd by lia. nia.
Qed.

Lemma timer_list st X o obj : server_inv st X -> ws_objects st !! o = Some obj -> ob_type obj = OBJECT_TIMER -> NoDup (ws_timers st) /\ (o ∈ ws_timers st <-> ob_timer_when obj <> 0).
Proof. intros I Ho Ht. destruct (si_lists _ _ I) as [L1 L2 _ _]. split; [done|]. rewrite L2. split; [intros (x & Hx & _ & Hw); congruence|]. intros Hw. by exists obj. Qed.

Lemma set_timer_safe st h expire period now : good st [] -> is_clock now = true -> is_s64 expire = true -> safe (horizon_server_handle_set_timer st h expire period now).
Proof.
  intros G Hn He. apply typed_safe; [done|]. intros o obj Ho Ht. apply safe_done. destruct (timer_list st [] o obj (proj1 G) Ho Ht) as [Hnd Hin]. pose proof (object_payload st [] o obj (proj1 G) Ho) as (P1 & P2 & P3 & P4).
  set (obj' := o_timer _ _ _ _). pose proof (set_when expire now Hn He) as Hw.
  destruct (timer_told st [] o obj obj' (if nonzero (ob_timer_when obj) then ws_timers st else o :: ws_timers st) false G Ho Ht) as (st' & E & G' & _); try done; try (by split).
  - split; [done|]. split; [done|]. split; [done|]. simpl. destruct (0 <? period) eqn:Ep; lia.
  - destruct (nonzero _) eqn:En; [done|]. apply NoDup_cons. split; [|done]. rewrite Hin. intros H%nonzero_spec. congruence.
  - intros t. change (ob_timer_when obj') with (if expire <=? 0 then s64 (now - expire) else Z.max expire now).
    destruct (decide (t = o)) as [->|Hne]; destruct (nonzero _) eqn:En; rewrite ?elem_of_cons.
    + rewrite Hin. apply nonzero_spec in En. naive_solver.
    + naive_solver.
    + naive_solver.
    + naive_solver.
  - exists st'. split; [|done]. rewrite <- E. by destruct (nonzero _).
Qed.

Lemma unlink_timer_list st X o obj : server_inv st X -> ws_objects st !! o = Some obj -> NoDup (unlink_from o (ws_timers st)) /\ forall t, t ∈ unlink_from o (ws_timers st) <-> t = o /\ 0 <> 0 \/ t <> o /\ t ∈ ws_timers st.
Proof. intros I Ho. destruct (unlink_from_spec o (ws_timers st) (lo_timers _ _ _ (si_lists _ _ I))) as [H1 H2]. split; [done|]. intros t. rewrite H2. naive_solver. Qed.

Lemma cancel_timer_safe st h : good st [] -> safe (horizon_server_handle_cancel_timer st h).
Proof.
  intros G. apply typed_safe; [done|]. intros o obj Ho Ht. apply safe_done. destruct (unlink_timer_list st [] o obj (proj1 G) Ho) as [Hnd Hl]. pose proof (object_payload st [] o obj (proj1 G) Ho) as (P1 & P2 & P3 & P4).
  destruct (timer_told st [] o obj (o_timer obj false 0 0) (unlink_from o (ws_timers st)) false G Ho Ht) as (st' & E & G' & _); try done; try (by split).
  by exists st'.
Qed.

Lemma expired_when obj now : 0 < now -> 0 <= ob_timer_period obj -> ob_timer_when obj <= now -> ob_timer_when (expired_timer obj now) <> 0 <-> ob_timer_period obj <> 0.
Proof.
  intros Hn Hp Hw. unfold expired_timer. destruct (nonzero _) eqn:En; simpl.
  - apply nonzero_spec in En. split; [done|]. intros _. set (p := ob_timer_period obj * 10000). assert (0 < p) as Hp' by (unfold p; lia).
    pose proof (Z.quot_rem' (now - ob_timer_when obj) p) as Hq. pose proof (Z.rem_bound_pos (now - ob_timer_when obj) p ltac:(lia) ltac:(lia)). lia.
  - split; [done|]. intros H%nonzero_spec. congruence.
Qed.

Lemma update_timers_ok l : forall st X now, good st X -> 0 < now -> NoDup l -> (forall t, t ∈ l -> t ∈ ws_timers st) -> exists st', update_timers st l now = Some st' /\ good st' X /\ mild st st'.
Proof.
  induction l as [|t l IH]; intros st X now G Hn Hnd Hl; [exists st; split; [done|]; split; [done|apply mild_refl]|]. apply NoDup_cons in Hnd as [Ht Hnd].
  destruct (proj1 (lo_timer _ _ _ (si_lists _ _ (proj1 G)) t) (Hl t (list_elem_of_here _ _))) as (obj & Ho & Hty & Hwhen). simpl. rewrite Ho. simpl.
  destruct (now <? ob_timer_when obj) eqn:Ew; [apply (IH st X now); [done|done|done|set_solver]|]. destruct (object_payload st X t obj (proj1 G) Ho) as (P1 & P2 & P3 & P4).
  pose proof (expired_when obj now Hn P4 ltac:(lia)) as Hexp. destruct (unlink_timer_list st X t obj (proj1 G) Ho) as [Hnu Hlu]. destruct (timer_list st X t obj (proj1 G) Ho Hty) as [Hnt Hint].
  set (l' := if nonzero (ob_timer_period obj) then ws_timers st else unlink_from t (ws_timers st)).
  assert (same_shape obj (expired_timer obj now)) as Hs by (unfold expired_timer; destruct (nonzero _); by split).
  destruct (timer_told st X t obj (expired_timer obj now) l' true G Ho Hty Hs) as (st' & E & G' & M & Htm).
  - unfold payload_ok, expired_timer. by destruct (nonzero _).
  - unfold expired_timer. by destruct (nonzero _).
  - unfold expired_timer. by destruct (nonzero _).
  - unfold l'. by destruct (nonzero _).
  - intros x. rewrite Hexp. unfold l'. destruct (nonzero _) eqn:En; [apply nonzero_spec in En|assert (ob_timer_period obj = 0) by (destruct (decide (ob_timer_period obj = 0)); [done|]; apply nonzero_spec in n; congruence)].
    + destruct (decide (x = t)) as [->|Hne]; naive_solver.
    + rewrite Hlu. naive_solver.
  - assert (horizon_sync_notify_object_locked (put_object (if nonzero (ob_timer_period obj) then st else horizon_server_unlink_timer_locked st t) t (expired_timer obj now)) t true = Some st') as -> by (rewrite <- E; unfold l'; by destruct (nonzero _)).
    simpl. destruct (IH st' X now G' Hn Hnd) as (st'' & -> & G'' & M').
    + intros x Hx. rewrite Htm. unfold l'. assert (x <> t) by (intros ->; done). destruct (nonzero _); [by apply Hl, list_elem_of_further|]. apply Hlu. right. split; [done|]. by apply Hl, list_elem_of_further.
    + exists st''. split; [done|]. split; [done|by apply (mild_trans _ st')].
Qed.

Lemma server_update_timers_ok st X now : good st X -> 0 < now -> exists st', horizon_server_update_timers_locked st now = Some st' /\ good st' X /\ mild st st'.
Proof. intros G Hn. apply update_timers_ok; [done|done|apply (proj1 G)|done]. Qed.

Lemma get_timer_info_safe st h now : good st [] -> is_clock now = true -> safe (horizon_server_handle_get_timer_info st h now).
Proof.
  intros G Hn%is_clock_spec. unfold horizon_server_handle_get_timer_info. destruct (server_update_timers_ok st [] now G) as (st' & -> & G' & _); [lia|]. simpl. apply typed_safe; [done|]. intros. by apply safe_ret.
Qed.

(** ** Names and new objects *)

Lemma name_root_ok st X rootdir : server_inv st X -> exists root, horizon_server_name_root_locked st rootdir = Some root.
Proof.
  intros I. unfold horizon_server_name_root_locked. destruct (rootdir =? 0); [by eexists|]. destruct (find_handle_ok st X rootdir I) as (r & -> & Hr). simpl. destruct r as [e|]; [|by eexists].
  destruct Hr as (He & _). destruct (entry_ok st X e I He) as (en & obj & -> & _). by eexists.
Qed.

Lemma find_named_loop_ok st X type name l : server_inv st X -> (forall e, e ∈ l -> e ∈ ws_handles st) ->
  exists r, find_named_loop st l type name = Some r /\ forall o, r = Some o -> exists e en obj, e ∈ ws_handles st /\ ws_entries st !! e = Some en /\ he_object en = o /\ ws_objects st !! o = Some obj /\ horizon_server_name_matches obj type name = true.
Proof.
  intros I. induction l as [|e l IH]; intros Hl; [by exists None|]. simpl. destruct (entry_ok st X e I (Hl e (list_elem_of_here _ _))) as (en & obj & -> & Hen & Ho). simpl.
  destruct (horizon_server_name_matches obj type name) eqn:Em; [|apply IH; set_solver]. exists (Some (he_object en)). split; [done|]. intros o [= <-]. exists e, en, obj. split; [by apply Hl; left|done].
Qed.

Lemma find_named_ok st X type name : server_inv st X -> exists r, horizon_server_find_named_object_locked st type name = Some r /\
  forall o, r = Some o -> is_Some (ws_objects st !! o) /\ exists e en, e ∈ ws_handles st /\ ws_entries st !! e = Some en /\ he_object en = o.
Proof.
  intros I. unfold horizon_server_find_named_object_locked. destruct (name_root_ok st X (on_rootdir name) I) as (root & ->). simpl.
  destruct (find_named_loop_ok st X type (mk_object_name root (on_name name)) (ws_handles st) I) as (r & -> & Hr); [done|]. exists r. split; [done|]. intros o Ho. destruct (Hr o Ho) as (e & en & obj & H1 & H2 & H3 & -> & _). split; [by eexists|by exists e, en].
Qed.

(** An object without waiters wakes nobody. *)
Lemma wake_lonely st X o obj obj' : good st X -> ws_objects st !! o = Some obj -> ob_waiters obj = [] -> ob_wait_port obj = None -> ob_type obj' = ob_type obj -> ob_wait_port obj' = ob_wait_port obj -> thread_quiet obj obj' -> wake (put_object st o obj').
Proof.
  intros [I W] Ho Hw Hp Ht Hp' Hq. eapply wake_weaken; [| |apply (wake_put_loud st X o obj obj' nobody nobody I Ho Ht Hp' Hq W)]; [done|].
  intros w [[]|(f & i & Hf & Hl)]. exfalso. assert (source_of obj o = o) as Hs by (unfold source_of; destruct (decide _); [by rewrite Hp|done]). rewrite Hs in Hl.
  assert ((w, i) ∈ ob_waiters obj) as Hin by (apply (si_links _ _ I o obj Ho); by exists f). rewrite Hw in Hin. by apply elem_of_nil in Hin.
Qed.

Lemma plain_port obj : plain obj -> ob_wait_port obj = None.
Proof. intros [H _]. unfold object_refs in H. by destruct (ob_wait_port obj). Qed.

Lemma good_lonely st X o obj obj' : good st X -> ws_objects st !! o = Some obj -> plain obj -> same_shape obj obj' -> plain obj' -> thread_quiet obj obj' -> good (put_object st o obj') X.
Proof.
  intros G Ho Hpl Hs Hpl' Hq. split.
  - apply (inv_put_payload st X o obj obj'); [apply G|done|done|apply Hpl'|]. intros _. destruct Hpl as (_ & _ & -> & _), Hpl' as (_ & _ & -> & _). done.
  - apply (wake_lonely st X o obj obj' G Ho); [apply Hpl|by apply plain_port|apply Hs|apply Hs|done].
Qed.

Lemma set_name_ok st X o obj name : good st X -> ws_objects st !! o = Some obj ->
  exists s st', horizon_server_set_object_name st o name = Some (s, st') /\ good st' X /\
    (nonzero s = true -> only_alloc st st') /\ (nonzero s = false -> exists n root obj', st' = put_object (s_allocs st n) o obj' /\ (obj' = obj \/ obj' = o_name obj root (on_name name))).
Proof.
  intros G Ho. unfold horizon_server_set_object_name. destruct (bool_decide _).
  { eexists _, (put_object st o obj). split; [f_equal; f_equal; unfold put_object; rewrite insert_id by done; by destruct st|]. split; [|split; [done|intros _; exists (ws_allocs st), 0, obj; split; [by destruct st|by left]]].
    unfold put_object. rewrite insert_id by done. by destruct st. }
  cbn [ws_alloc fst snd]. destruct (negb _); [eexists _, _; split; [done|]; split; [by apply good_alloc|]; split; [by exists (S (ws_allocs st))|done]|].
  set (st1 := s_allocs st (S (ws_allocs st))). assert (good st1 X) as G1 by (by apply good_alloc). destruct (name_root_ok st1 X (on_rootdir name) (proj1 G1)) as (root & ->). simpl. rewrite Ho. simpl.
  eexists _, _. split; [done|]. split; [|split; [done|intros _; exists (S (ws_allocs st)), root, (o_name obj root (on_name name)); split; [done|by right]]].
  apply (good_put_quiet st1 X o obj); [done|done|by split|exact (object_payload st X o obj (proj1 G) Ho)|done|by split].
Qed.

Definition handle_to (st : wine_server) (e : positive) (en : horizon_server_handle_entry) (obj : server_object) : Prop :=
  e ∈ ws_handles st /\ ws_entries st !! e = Some en /\ ws_objects st !! he_object en = Some obj.

Lemma handle_to_object st e en obj : handle_to st e en obj -> entry_object st e = Some (en, he_object en, obj).
Proof. intros (_ & He & Ho). unfold entry_object. rewrite He. simpl. by rewrite Ho. Qed.

Lemma created_handle st st' e access o obj : created st st' e access o obj -> handle_to st' e (mk_entry (ws_next_handle st + 4) access o) obj.
Proof. intros C. split; [rewrite (cr_handles _ _ _ _ _ _ C); left|]. split; [apply C|]. simpl. rewrite (cr_objects _ _ _ _ _ _ C). apply lookup_insert_eq. Qed.

(** A reference in hand that is the only one: the object may be freed at once. *)
Lemma free_object_count fuel st o obj n : ws_objects st !! o = Some obj -> horizon_server_free_object fuel (put_object st o (o_refs obj n)) o = horizon_server_free_object fuel st o.
Proof.
  intros Ho. destruct fuel as [|fuel]; [done|]. rewrite !free_object_eq. rewrite Ho. simpl. rewrite lookup_insert_eq. simpl.
  replace (without (put_object st o (o_refs obj n)) o (o_refs obj n)) with (without st o obj); [done|].
  unfold without. simpl. destruct (decide _), (decide _); unfold s_objects, put_object; simpl; rewrite delete_insert_eq; done.
Qed.

Lemma free_held st X o obj : good st (o :: X) -> ws_objects st !! o = Some obj -> ob_refs obj = 1 -> refs_room st 0 -> exists st', free_object st o = Some st' /\ good st' X /\ shrinks st st'.
Proof.
  intros [I W] Ho H1 Hr. pose proof (inv_ref_down st X o obj I Ho ltac:(lia)) as I1. rewrite H1 in I1. change (u32 (1 - 1)) with 0 in I1.
  set (st1 := put_object st o (o_refs obj 0)) in *. assert (refs_room st1 0) as Hr1.
  { intros p x Hx. simpl in Hx. destruct (decide (p = o)) as [->|Hne]; [rewrite lookup_insert_eq in Hx; injection Hx as <-; simpl; lia|]. rewrite lookup_insert_ne in Hx by done. by apply (Hr p). }
  destruct (free_ok st1 X o (o_refs obj 0) I1 Hr1 (lookup_insert_eq _ _ _) eq_refl) as (st' & E & I' & S'). exists st'. unfold free_object in *. unfold st1 in E. rewrite (free_object_count _ st o obj 0 Ho) in E. split; [done|].
  assert (shrinks st st') as S.
  { apply (shrinks_trans _ st1); [|done]. split; [by split| |done..]. intros p x Hx. simpl in Hx. destruct (decide (p = o)) as [->|Hne].
    - rewrite lookup_insert_eq in Hx. injection Hx as <-. exists obj. split; [done|]. split; [done|simpl; lia].
    - rewrite lookup_insert_ne in Hx by done. exists x. split; [done|]. split; [by rewrite o_refs_same|lia]. }
  split; [|done]. split; [done|]. by apply (wake_shrinks st st' X).
Qed.

Lemma unlink_lonely st X e en obj : good st X -> handle_to st e en obj -> plain obj -> exists st', horizon_server_unlink_handle_locked st e = Some st' /\ good st' (he_object en :: X) /\ unlinked st st' e.
Proof.
  intros [I W] (He & Hen & Ho) Hpl. destruct (unlink_ok st X e en I He Hen) as (st' & E & I' & U). exists st'. split; [done|]. split; [|done]. split; [done|].
  pose proof (wake_unlinked st X st' e en obj nobody nobody I U He Hen Ho W) as W'.
  assert (forall w, ~ linked st (source_of obj (he_object en)) w) as Hno.
  { intros w (f & i & Hf & Hl). assert (source_of obj (he_object en) = he_object en) as Hs by (unfold source_of; destruct (decide _); [by rewrite (plain_port _ Hpl)|done]). rewrite Hs in Hl.
    assert ((w, i) ∈ ob_waiters obj) as Hin by (apply (si_links _ _ I _ obj Ho); by exists f). destruct Hpl as (_ & Hw & _). rewrite Hw in Hin. by apply elem_of_nil in Hin. }
  eapply wake_weaken; [| |exact W']; intros w [[]|Hl]; by apply Hno in Hl.
Qed.

Lemma good_free_entry st X e : good st X -> e ∉ ws_handles st -> good (free_entry st e) X.
Proof.
  intros [I W] He. split; [by apply inv_free_entry|]. apply (wake_same_objects st (free_entry st e) nobody nobody nobody nobody); [by split|done| |done|done|done].
  intros w f h _ _ _ _ [->|(x & en & Hx & Hen & Hh)]; [by left|right]. exists x, en. split; [done|]. split; [|done]. simpl. rewrite lookup_delete_ne; [done|]. intros ->. done.
Qed.

Definition same_clients (st st' : wine_server) : Prop := ws_conns st' = ws_conns st /\ ws_frames st' = ws_frames st.

(** An object without handles does not get more references. *)
Definition no_handle (st : wine_server) (p : positive) : Prop := forall e en, e ∈ ws_handles st -> ws_entries st !! e = Some en -> he_object en <> p.
Definition left_alone (st st' : wine_server) : Prop := forall p obj obj', no_handle st p -> ws_objects st !! p = Some obj -> ws_objects st' !! p = Some obj' -> ob_refs obj' <= ob_refs obj /\ ob_type obj' = ob_type obj.

Lemma alone_refl st st' : ws_objects st' = ws_objects st -> left_alone st st'.
Proof. intros E p x y _ Hx Hy. rewrite E, Hx in Hy. injection Hy as <-. split; [lia|done]. Qed.

Lemma created_alone st st' e access o obj : created st st' e access o obj -> ws_objects st !! o = None \/ ~ no_handle st o -> left_alone st st'.
Proof.
  intros C Ho p x y Hno Hx Hy. rewrite (cr_objects _ _ _ _ _ _ C) in Hy. destruct (decide (p = o)) as [->|Hne]; [destruct Ho; [congruence|done]|]. rewrite lookup_insert_ne in Hy by done. rewrite Hx in Hy. injection Hy as <-. split; [lia|done].
Qed.

Lemma create_named_ok st X type name : good st X -> fits st -> type <> OBJECT_THREAD ->
  exists s r st', horizon_server_create_named_object_handle_locked st type name = Some (s, r, st') /\ good st' X /\ same_clients st st' /\ refs_room st' 255 /\ left_alone st st' /\ (s = HORIZON_STATUS_SUCCESS -> is_Some r) /\
    forall e, r = Some e -> exists en obj, handle_to st' e en obj /\ ob_type obj = type /\ (s = HORIZON_STATUS_SUCCESS -> plain obj /\ ws_objects st !! he_object en = None).
Proof.
  intros G F Ht. unfold horizon_server_create_named_object_handle_locked. destruct (find_named_ok st X None name (proj1 G)) as (r & -> & Hr). simpl. destruct r as [o|].
  - destruct (Hr o eq_refl) as [(obj & Ho) (e0 & en0 & He0 & Hen0 & Heo0)]. rewrite Ho. simpl. destruct (decide (ob_type obj = type)) as [Hty|].
    + destruct (create_handle_for_ok st X o obj G (ft_handles _ F) (refs_room_le _ _ 1 (ft_refs _ F) ltac:(lia)) Ho) as (r & st' & -> & G' & Hc). simpl. eexists _, r, st'. split; [done|]. split; [done|]. destruct r as [e|]; simpl.
      * split; [by split; apply Hc|]. split.
        { intros p x Hx. rewrite (cr_objects _ _ _ _ _ _ Hc) in Hx. destruct (decide (p = o)) as [->|Hne]; [rewrite lookup_insert_eq in Hx; injection Hx as <-; rewrite (proj1 (proj2 (opened_shape obj))); pose proof (ft_refs _ F o obj Ho); lia|].
          rewrite lookup_insert_ne in Hx by done. pose proof (ft_refs _ F p x Hx). lia. }
        split; [apply (created_alone _ _ _ _ _ _ Hc); right; intros Hno; by apply (Hno e0 en0 He0 Hen0)|]. split; [done|]. intros e' [= <-]. eexists _, _. split; [by eapply created_handle|]. split; [by rewrite <- Hty; apply opened_shape|done].
      * destruct Hc as [n ->]. split; [done|]. split; [by apply (refs_room_le _ 256); [apply F|]|]. split; [apply alone_refl; done|]. done.
    + eexists _, None, st. split; [done|]. split; [done|]. split; [done|]. split; [by apply (refs_room_le _ 256); [apply F|]|]. split; [by apply alone_refl|]. done.
  - destruct (create_handle_ok st X type G (ft_handles _ F) Ht) as (r & st1 & -> & G1 & Hc). simpl. destruct r as [e|].
    2:{ destruct Hc as [n ->]. eexists _, None, _. split; [done|]. split; [done|]. split; [done|]. split; [by apply (refs_room_le _ 256); [apply F|]|]. split; [by apply alone_refl|]. done. }
    destruct Hc as (o & Hnone & Hc). pose proof (created_handle _ _ _ _ _ _ Hc) as Hh. pose proof Hh as (Hin & Hen & Ho). rewrite Hen. simpl in *.
    assert (refs_room st1 255) as R1.
    { intros p x Hx. rewrite (cr_objects _ _ _ _ _ _ Hc) in Hx. destruct (decide (p = o)) as [->|Hne]; [rewrite lookup_insert_eq in Hx; injection Hx as <-; simpl; lia|]. rewrite lookup_insert_ne in Hx by done. pose proof (ft_refs _ F p x Hx). lia. }
    destruct (set_name_ok st1 X o _ name G1 Ho) as (s & st2 & -> & G2 & Hf & Hok). simpl. destruct (nonzero s) eqn:Es.
    + destruct (Hf eq_refl) as [n ->]. destruct (unlink_lonely (s_allocs st1 n) X e _ _ G2 Hh (new_object_plain _ _ _ _ _ _ _)) as (st3 & -> & G3 & U). simpl.
      assert (ws_objects st3 = ws_objects st1) as Eo by apply (un_objects _ _ _ U). simpl in G3.
      destruct (free_held st3 X o _ G3 ltac:(rewrite Eo; exact Ho) eq_refl) as (st4 & -> & G4 & S4). { intros p x Hx. rewrite Eo in Hx. pose proof (R1 p x Hx). lia. }
      simpl. eexists _, None, _. split; [done|]. split.
      { apply good_free_entry; [done|]. rewrite (sr_handles _ _ (sk_rest _ _ S4)). intros Hx%(un_handles _ _ _ U). by destruct Hx. }
      split. { split; simpl; [rewrite (sr_conns _ _ (sk_rest _ _ S4)), (so_conns _ _ (un_objects _ _ _ U)); apply Hc|rewrite (sr_frames _ _ (sk_rest _ _ S4)), (so_frames _ _ (un_objects _ _ _ U)); apply Hc]. }
      split; [apply (shrinks_room st3 st4 255 S4); intros p x Hx; rewrite Eo in Hx; by apply (R1 p)|]. split; [|done].
      intros p x y Hno Hx Hy. destruct (sk_objects _ _ S4 p y Hy) as (z & Hz & Ey & Hle). rewrite Eo in Hz. destruct (created_alone _ _ _ _ _ _ Hc (or_introl Hnone) p x z Hno Hx Hz). split; [lia|]. by rewrite Ey.
    + destruct (Hok eq_refl) as (n & root & obj' & -> & Hobj'). eexists _, (Some e), _. split; [done|]. split; [done|]. split; [by split; apply Hc|].
      assert (plain obj' /\ ob_type obj' = type /\ ob_refs obj' = 1) as (Hp' & Ht' & Hr') by (destruct Hobj' as [-> | ->]; (split; [apply new_object_plain|done])).
      split. { intros p x Hx. simpl in Hx. destruct (decide (p = o)) as [->|Hne]; [rewrite lookup_insert_eq in Hx; injection Hx as <-; lia|]. rewrite lookup_insert_ne in Hx by done. by apply (R1 p). }
      split.
      { intros p x y Hno Hx Hy. simpl in Hy. destruct (decide (p = o)) as [->|Hne]; [congruence|]. rewrite lookup_insert_ne in Hy by done. by apply (created_alone _ _ _ _ _ _ Hc (or_introl Hnone) p x y). }
      split; [by eexists|]. intros e' [= <-]. eexists _, obj'. split; [split; [exact Hin|]; split; [exact Hen|]; apply lookup_insert_eq|]. by split.
Qed.

(** What a new object starts as. *)
Definition starts (start : server_object -> server_object) : Prop := forall obj, plain obj -> same_shape obj (start obj) /\ plain (start obj) /\ thread_quiet obj (start obj).

Lemma create_named_safe st type name start : good st [] -> fits st -> type <> OBJECT_THREAD -> starts start -> safe (create_named st type name start).
Proof.
  intros G F Ht Hst. unfold create_named. destruct (create_named_ok st [] type name G F Ht) as (s & r & st' & -> & G' & _ & _ & _ & _ & Hr). simpl. destruct r as [e|]; [|by apply safe_ret].
  destruct (Hr e eq_refl) as (en & obj & Hh & _ & Hpl). rewrite (handle_to_object _ _ _ _ Hh). simpl. apply safe_ret. destruct (s =? HORIZON_STATUS_SUCCESS) eqn:Es; [|done].
  destruct (Hpl ltac:(lia)) as [Hp _]. destruct (Hst obj Hp) as (H1 & H2 & H3). apply (good_lonely st' [] _ obj); [done|apply Hh|done..].
Qed.

Lemma starts_id : starts id.
Proof. intros obj H. split; [apply same_shape_refl|]. by split. Qed.

Lemma create_event_safe st name m i : good st [] -> fits st -> safe (horizon_server_handle_create_event st name m i).
Proof. intros G F. apply create_named_safe; [done|done|done|]. intros obj H. split; [by split|]. by split. Qed.

Lemma create_mutex_safe st conn name owned : good st [] -> fits st -> cn_tid conn <> 0 -> safe (horizon_server_handle_create_mutex st conn name owned).
Proof.
  intros G F Htid. apply create_named_safe; [done|done|done|]. intros obj H. destruct owned; [|split; [apply same_shape_refl|]; by split]. split; [by split|]. split; [|by split].
  destruct H as (H1 & H2 & H3 & P1 & P2 & P3). split; [done|]. split; [done|]. split; [done|]. split; [done|]. split; [|done]. simpl. destruct (_ && _) eqn:E; simpl; [|done]. apply andb_true_iff in E as [E _]. intros _. apply P2. by apply nonzero_spec.
Qed.

Lemma create_semaphore_safe st name i m : good st [] -> fits st -> safe (horizon_server_handle_create_semaphore st name i m).
Proof.
  intros G F. unfold horizon_server_handle_create_semaphore. destruct (_ || _); [by apply safe_ret|]. apply create_named_safe; [done|done|done|]. intros obj H. split; [by split|]. by split.
Qed.

Lemma create_timer_safe st name m : good st [] -> fits st -> safe (horizon_server_handle_create_timer st name m).
Proof.
  intros G F. apply create_named_safe; [done|done|done|]. intros obj H. split; [by split|]. split; [|by split]. destruct H as (H1 & H2 & H3 & P1 & P2 & P3 & P4). by repeat split.
Qed.

Lemma create_keyed_event_safe st name : good st [] -> fits st -> safe (horizon_server_handle_create_keyed_event st name).
Proof. intros G F. apply create_named_safe; [done|done|done|apply starts_id]. Qed.

Lemma create_completion_safe st name : good st [] -> fits st -> safe (horizon_server_handle_create_completion st name).
Proof. intros G F. apply create_named_safe; [done|done|done|apply starts_id]. Qed.

Lemma create_plain_ok st type start : good st [] -> fits st -> type <> OBJECT_THREAD -> starts start -> safe (create_plain st type start).
Proof.
  intros G F Ht Hst. unfold create_plain. destruct (create_handle_ok st [] type G (ft_handles _ F) Ht) as (r & st' & -> & G' & Hc). simpl. destruct r as [e|]; [|by apply safe_ret].
  destruct Hc as (o & _ & Hc). pose proof (created_handle _ _ _ _ _ _ Hc) as Hh. rewrite (handle_to_object _ _ _ _ Hh). simpl. apply safe_ret.
  destruct (Hst _ (new_object_plain (ws_next_handle st + 4) type 1 0 0 0 0)) as (H1 & H2 & H3). apply (good_lonely st' [] o _ _ G' (proj2 (proj2 Hh))); [apply new_object_plain|done..].
Qed.

Lemma good_outside st X c : good st X -> good (snd (outside st c)) X.
Proof. intros [I W]. split; [by apply inv_outside|exact W]. Qed.

Lemma good_close_unused st X fd : good st X -> good (close_unused st fd) X.
Proof. intros G. unfold close_unused. destruct (fd =? -1); [done|by apply good_outside]. Qed.

Lemma starts_file f : starts (fun obj => o_file obj f).
Proof. intros obj H. split; [by split|]. by split. Qed.

Lemma create_file_safe st fd name options d : good st [] -> fits st -> safe (create_file_object st fd name options d).
Proof.
  intros G F. unfold create_file_object. destruct (create_plain_ok st OBJECT_FILE (fun obj => o_file obj (mk_object_file fd (-1) name options false d)) G F) as ([s fs] & st' & -> & G'); [done|apply starts_file|]. simpl. apply safe_ret.
  destruct (nonzero s); [by apply good_close_unused|done].
Qed.

Lemma open_device_safe st nsi options : good st [] -> fits st -> safe (open_device st nsi options).
Proof. intros G F. apply create_plain_ok; [done|done|by destruct nsi|apply starts_file]. Qed.

Lemma open_key_safe st key : good st [] -> fits st -> safe (open_key_object st key).
Proof.
  intros G F. unfold open_key_object. destruct (create_plain_ok st OBJECT_REG_KEY (fun obj => o_reg_key obj (Some key)) G F) as ([s fs] & st' & -> & G'); [done| |].
  - intros obj H. split; [by split|]. by split.
  - simpl. apply safe_ret. destruct (nonzero s); [by apply good_outside|done].
Qed.

Lemma open_named_safe st type name : good st [] -> fits st -> safe (handle_reply (horizon_server_open_named_object_handle st type name)).
Proof.
  intros G F. unfold horizon_server_open_named_object_handle. destruct (bool_decide _); [by apply safe_ret|]. destruct (find_named_ok st [] (Some type) name (proj1 G)) as (r & -> & Hr). simpl. destruct r as [o|]; [|by apply safe_ret].
  destruct (Hr o eq_refl) as [(obj & Ho) _]. destruct (create_handle_for_ok st [] o obj G (ft_handles _ F) (refs_room_le _ _ 1 (ft_refs _ F) ltac:(lia)) Ho) as (r & st' & -> & G' & Hc). simpl. destruct r as [e|]; [|by apply safe_ret].
  rewrite (cr_entry _ _ _ _ _ _ Hc). by apply safe_ret.
Qed.

Lemma good_set_access st X e en access : good st X -> ws_entries st !! e = Some en ->
  exists st', set_access st e access = Some st' /\ good st' X /\ st' = s_entries st (<[e := mk_entry (he_handle en) access (he_object en)]> (ws_entries st)).
Proof.
  intros [I W] He. destruct (inv_set_access st X e en access I He) as (st' & E & Hst & I'). exists st'. split; [done|]. split; [|done]. split; [done|]. subst st'.
  apply (wake_same_objects st _ nobody nobody nobody nobody); [by split|done| |done|done|done]. intros w f h _ _ _ _ [->|(x & enx & Hx & Hex & Hh)]; [by left|right].
  destruct (decide (x = e)) as [->|Hne].
  - eexists e, _. split; [done|]. simpl. rewrite lookup_insert_eq. split; [done|]. simpl. congruence.
  - exists x, enx. split; [done|]. simpl. by rewrite lookup_insert_ne.
Qed.

Lemma open_process_safe st conn pid access : good st [] -> fits st -> safe (horizon_server_handle_open_process st conn pid access).
Proof.
  intros G F. unfold horizon_server_handle_open_process. destruct (negb _); [by apply safe_ret|]. destruct (create_handle_ok st [] OBJECT_PROCESS G (ft_handles _ F)) as (r & st' & -> & G' & Hc); [done|]. simpl.
  destruct r as [e|]; [|by apply safe_ret]. destruct Hc as (o & _ & Hc). destruct (good_set_access st' [] e _ (horizon_process_map_access access) G' (cr_entry _ _ _ _ _ _ Hc)) as (st2 & -> & G2 & ->). simpl. rewrite lookup_insert_eq. simpl. by apply safe_ret.
Qed.
