(* ===== verification/ServerPorts.v ===== *)
(** * Handlers of completion ports, connections and closing *)
From S2P Require Import Prelude Chain Completion Threads ServerObjects ServerSync ServerRequests ServerSelect ServerInv ServerLinks ServerWake ServerKeep ServerHandlers.
Local Open Scope Z_scope.

(** ** Objects that get another child *)

Lemma object_ok_types (objs objs' : gmap positive server_object) obj : (forall p, type_at objs' p = type_at objs p) -> object_ok objs obj -> object_ok objs' obj.
Proof. intros H [H1 H2 H3 H4]. split; [intros p Hp; rewrite H; auto..|done]. Qed.

Lemma conns_ok_types (objs objs' : gmap positive server_object) conns : (forall p, type_at objs' p = type_at objs p) -> conns_ok objs conns -> conns_ok objs' conns.
Proof. intros H [H1 H2 H3 H4]. split; [intros; rewrite H; eauto..|done|done]. Qed.

Lemma type_at_insert (objs : gmap positive server_object) o obj obj' p : objs !! o = Some obj -> ob_type obj' = ob_type obj -> type_at (<[o := obj']> objs) p = type_at objs p.
Proof. intros Ho Ht. unfold type_at. destruct (decide (p = o)) as [->|Hne]; [rewrite lookup_insert_eq, Ho; simpl; by rewrite Ht|by rewrite lookup_insert_ne]. Qed.

Definition not_linked (st : wine_server) (o : positive) : Prop := forall w f i l, ws_frames st !! w = Some f -> wt_links f !! i = Some l -> fst l <> o.

Lemma inv_put_children st X X' o obj obj' :
  server_inv st X -> ws_objects st !! o = Some obj -> ob_type obj' = ob_type obj -> ob_refs obj' = ob_refs obj -> ob_waiters obj' = ob_waiters obj -> same_when obj obj' -> object_ok (ws_objects st) obj' ->
  (forall p, occ p X' + occ p (object_refs obj') = occ p X + occ p (object_refs obj))%nat ->
  (ob_wait_port obj' = ob_wait_port obj \/ not_linked st o) -> server_inv (put_object st o obj') X'.
Proof.
  intros I Ho Ht Hr Hw Hwhen Hok HX Hport. set (st' := put_object st o obj').
  assert (forall p, occ p (server_refs st' ++ X') = occ p (server_refs st ++ X)) as Hocc.
  { intros p. pose proof (occ_objects_update st st' o obj obj' p Ho eq_refl ltac:(by split) eq_refl eq_refl) as H. specialize (HX p). rewrite !occ_app. lia. }
  assert (forall p, type_at (ws_objects st') p = type_at (ws_objects st) p) as Htypes by (intros p; by apply type_at_insert with obj).
  split.
  - apply (refs_ok_occ _ (server_refs st ++ X)); [by intros p; rewrite Hocc|]. destruct (si_refs _ _ I) as [R1 R2]. split.
    + intros p x Hx. simpl in Hx. destruct (decide (p = o)) as [->|Hne]; [rewrite lookup_insert_eq in Hx; injection Hx as <-; rewrite Hr; by apply R1|]. rewrite lookup_insert_ne in Hx by done. by apply R1.
    + intros p Hin. simpl. destruct (decide (p = o)) as [->|Hne]; [rewrite lookup_insert_eq; eauto|]. rewrite lookup_insert_ne by done. by apply R2.
  - intros p x Hx. apply (object_ok_types (ws_objects st)); [done|]. simpl in Hx. destruct (decide (p = o)) as [->|Hne]; [rewrite lookup_insert_eq in Hx; by injection Hx as <-|]. rewrite lookup_insert_ne in Hx by done. by eapply (si_objects _ _ I).
  - apply (links_ok_insert _ _ o obj obj' Ho Hw), I.
  - apply I.
  - apply (lists_ok_insert _ _ _ o obj obj' Ho Ht Hwhen), I.
  - apply (conns_ok_types (ws_objects st)); [done|apply I].
  - intros w f Hf. destruct (si_frames _ _ I w f Hf) as [(conn & H1 & H2 & H3 & H4) H5]. split; [|done]. exists conn. split; [done|]. split; [done|]. split; [done|]. intros i l Hl.
    destruct (H4 i l Hl) as [K1 (x & Hx & Hsrc) K3]. split; [done| |intros Hty; apply K3; by rewrite <- Htypes].
    simpl. destruct (decide (fst l = o)) as [E|Hne]; [|exists x; by rewrite lookup_insert_ne]. destruct Hport as [Hp|Hnl]; [|by apply (Hnl w f i l Hf Hl) in E].
    rewrite E in *. rewrite Ho in Hx. injection Hx as <-. exists obj'. rewrite lookup_insert_eq. split; [done|]. by rewrite (link_source_kin obj obj' o Ht Hp).
  - apply I.
  - apply I.
Qed.

Lemma wake_put_unlinked st X o obj obj' EL E : server_inv st X -> ws_objects st !! o = Some obj -> ob_type obj <> OBJECT_COMPLETION -> not_linked st o -> thread_quiet obj obj' -> wake_except st EL E -> wake_except (put_object st o obj') EL E.
Proof.
  intros I Ho Ht Hnl [Q1 Q2] W w f Hw Hs. destruct (W w f Hw Hs) as [A B]. split; [exact A|]. intros H. apply (frame_still_mono st _ w f f); [by apply B|done|done|done|done|done| | |done].
  - intros conn i l Hc Hl. pose proof (Hnl w f i l Hw Hl) as Hne. unfold signals. simpl. rewrite lookup_insert_ne by done. destruct (ws_objects st !! fst l) as [x|] eqn:Hx; [|done].
    unfold object_signals. destruct (ob_type x) eqn:Htx; try done. destruct (ob_wait_port x) as [p|] eqn:Hp; [|done]. rewrite lookup_insert_ne; [done|]. intros <-.
    destruct (oo_port _ _ (si_objects _ _ I _ x Hx) o Hp) as [_ Hto]. unfold type_at in Hto. rewrite Ho in Hto. injection Hto as Hto. done.
  - intros conn t y Hc Hth Hy. simpl in Hy. destruct (decide (t = o)) as [->|Hne]; [rewrite lookup_insert_eq in Hy; injection Hy as <-; by exists obj|]. rewrite lookup_insert_ne in Hy by done. by exists y.
Qed.

(** ** Connections *)

(** Thread [tid] has no select. *)
Definition idle (st : wine_server) (tid : Z) : Prop := forall w f, ws_frames st !! w = Some f -> frame_tid st w <> Some tid.

Lemma inv_change_conns st X X' conns' : server_inv st X -> conns_ok (ws_objects st) conns' ->
  (forall p, occ p (bind_map connection_refs conns') + occ p X' = occ p (bind_map connection_refs (ws_conns st)) + occ p X)%nat ->
  (forall w f, ws_frames st !! w = Some f -> conns' !! w = ws_conns st !! w) ->
  (forall c conn o, ws_conns st !! c = Some conn -> cn_completion_wait conn = Some o -> idle st (cn_tid conn) \/ exists conn', conns' !! c = Some conn' /\ cn_completion_wait conn' = Some o /\ cn_tid conn' = cn_tid conn) ->
  server_inv (s_conns st conns') X'.
Proof.
  intros I Hc HX Hf Hown. destruct I as [R1 R2 R3 R4 R5 R6 R7 R8 R9]. split; [|done|done|done|done|done| | |done].
  - apply (refs_ok_occ _ (server_refs st ++ X)); [|done]. intros p. specialize (HX p). rewrite !occ_app, !occ_server. simpl. lia.
  - intros w f Hw. destruct (R7 w f Hw) as [(conn & H1 & H2 & H3 & H4) H5]. split; [|done]. exists conn. simpl. rewrite (Hf w f Hw). split; [done|]. split; [done|]. split; [done|].
    intros i l Hl. destruct (H4 i l Hl) as [K1 K2 K3]. split; [done|done|]. intros Hty. destruct (K3 Hty) as (c & conn' & Hcc & Hwt & Htid).
    destruct (Hown c conn' (fst l) Hcc Hwt) as [Hidle|(x & Hx & Hxw & Hxt)].
    + exfalso. apply (Hidle w f Hw). unfold frame_tid. rewrite H1. simpl. by rewrite Htid.
    + exists c, x. split; [done|]. split; [done|congruence].
  - intros w1 w2 f1 f2 H1 H2. unfold frame_tid. simpl. rewrite (Hf w1 f1 H1), (Hf w2 f2 H2). by apply (R8 w1 w2 f1 f2).
Qed.

Lemma wake_conns st conns' EL E : (forall w f, ws_frames st !! w = Some f -> conns' !! w = ws_conns st !! w) -> wake_except st EL E -> wake_except (s_conns st conns') EL E.
Proof. intros Hf W w f Hw Hs. destruct (W w f Hw Hs) as [A B]. split; [exact A|]. intros H conn Hc. simpl in Hc. rewrite (Hf w f Hw) in Hc. by apply B. Qed.

(** The place of a connection without a select. *)
Definition conn_free (st : wine_server) (c : positive) (conn' : option horizon_server_connection) : Prop :=
  ws_frames st !! c = None /\
  forall old o, ws_conns st !! c = Some old -> cn_completion_wait old = Some o -> idle st (cn_tid old) \/ exists conn, conn' = Some conn /\ cn_completion_wait conn = Some o /\ cn_tid conn = cn_tid old.

Definition conn_refs_at (st : wine_server) (c : positive) : list positive := match ws_conns st !! c with Some conn => connection_refs conn | None => [] end.

Record conn_ok (st : wine_server) (c : positive) (conn : horizon_server_connection) : Prop := {
  cx_thread : forall t, cn_thread conn = Some t -> type_at (ws_objects st) t = Some OBJECT_THREAD;
  cx_wait : forall o, cn_completion_wait conn = Some o -> type_at (ws_objects st) o = Some OBJECT_COMPLETION_WAIT;
  cx_new : cn_tid conn = 0 \/ cn_direct conn = true -> cn_completion_wait conn = None;
  cx_unique : forall c2 conn2 o, c2 <> c -> ws_conns st !! c2 = Some conn2 -> cn_completion_wait conn = Some o -> cn_completion_wait conn2 <> Some o;
}.

Lemma conns_ok_insert st X c conn : server_inv st X -> conn_ok st c conn -> conns_ok (ws_objects st) (<[c := conn]> (ws_conns st)).
Proof.
  intros I [H1 H2 H3 H4]. destruct (si_conns _ _ I) as [C1 C2 C3 C4]. split.
  - intros c2 x t Hx. destruct (decide (c = c2)) as [->|Hne]; [rewrite lookup_insert_eq in Hx; injection Hx as <-; auto|]. rewrite lookup_insert_ne in Hx by done. by apply (C1 c2).
  - intros c2 x t Hx. destruct (decide (c = c2)) as [->|Hne]; [rewrite lookup_insert_eq in Hx; injection Hx as <-; auto|]. rewrite lookup_insert_ne in Hx by done. by apply (C2 c2).
  - intros c2 x Hx. destruct (decide (c = c2)) as [->|Hne]; [rewrite lookup_insert_eq in Hx; injection Hx as <-; auto|]. rewrite lookup_insert_ne in Hx by done. by apply (C3 c2).
  - intros c1 c2 x1 x2 o Hx1 Hx2 Hw1 Hw2. destruct (decide (c1 = c)) as [->|Hne1], (decide (c2 = c)) as [->|Hne2]; [done|..].
    + rewrite lookup_insert_eq in Hx1. injection Hx1 as <-. rewrite lookup_insert_ne in Hx2 by done. by destruct (H4 c2 x2 o Hne2 Hx2 Hw1).
    + rewrite lookup_insert_eq in Hx2. injection Hx2 as <-. rewrite lookup_insert_ne in Hx1 by done. by destruct (H4 c1 x1 o Hne1 Hx1 Hw2).
    + rewrite lookup_insert_ne in Hx1, Hx2 by done. by apply (C4 c1 c2 x1 x2 o).
Qed.

Lemma good_put_conn st X X' c conn : good st X -> conn_free st c (Some conn) -> conn_ok st c conn -> (forall p, occ p (connection_refs conn) + occ p X' = occ p (conn_refs_at st c) + occ p X)%nat -> good (put_conn st c conn) X'.
Proof.
  intros [I W] [Hf Hown] Hok HX. assert (forall w f, ws_frames st !! w = Some f -> <[c := conn]> (ws_conns st) !! w = ws_conns st !! w) as Hframes by (intros w f Hw; apply lookup_insert_ne; intros <-; congruence).
  split; [|by apply wake_conns]. apply (inv_change_conns st X); [done|by apply (conns_ok_insert st X)| |done|].
  - intros p. specialize (HX p). unfold conn_refs_at in HX. destruct (ws_conns st !! c) as [old|] eqn:Ec.
    + pose proof (occ_bind_map_update connection_refs (ws_conns st) c old conn p Ec). lia.
    + rewrite (occ_bind_map_new connection_refs (ws_conns st) c conn p Ec). unfold occ in HX at 3. simpl in HX. lia.
  - intros c2 conn2 o Hc2 Hw. destruct (decide (c = c2)) as [->|Hne].
    + destruct (Hown conn2 o Hc2 Hw) as [Hi|(x & [= <-] & Hx & Ht)]; [by left|right]. exists conn. by rewrite lookup_insert_eq.
    + right. exists conn2. by rewrite lookup_insert_ne.
Qed.

Lemma good_delete_conn st X c : good st X -> conn_free st c None -> good (s_conns st (delete c (ws_conns st))) (conn_refs_at st c ++ X).
Proof.
  intros [I W] [Hf Hown]. assert (forall w f, ws_frames st !! w = Some f -> delete c (ws_conns st) !! w = ws_conns st !! w) as Hframes by (intros w f Hw; apply lookup_delete_ne; intros <-; congruence).
  split; [|by apply wake_conns]. apply (inv_change_conns st X); [done| | |done|].
  - destruct (si_conns _ _ I) as [C1 C2 C3 C4]. split.
    + intros c2 x t [_ Hx]%lookup_delete_Some. by apply (C1 c2).
    + intros c2 x t [_ Hx]%lookup_delete_Some. by apply (C2 c2).
    + intros c2 x [_ Hx]%lookup_delete_Some. by apply (C3 c2).
    + intros c1 c2 x1 x2 o [_ Hx1]%lookup_delete_Some [_ Hx2]%lookup_delete_Some. by apply (C4 c1 c2).
  - intros p. rewrite occ_app. unfold conn_refs_at. destruct (ws_conns st !! c) as [old|] eqn:Ec.
    + rewrite (occ_bind_map_delete connection_refs (ws_conns st) c old p Ec). lia.
    + rewrite delete_id by done. unfold occ at 2. simpl. lia.
  - intros c2 conn2 o Hc2 Hw. destruct (decide (c = c2)) as [->|Hne].
    + destruct (Hown conn2 o Hc2 Hw) as [Hi|(x & [=] & _)]. by left.
    + right. exists conn2. by rewrite lookup_delete_ne.
Qed.

(** ** Ports *)

Lemma queue_ok_add q ckey cvalue status information : queue_ok q -> cq_depth q + 1 < 4294967296 -> exists q', horizon_completion_add q ckey cvalue status information true = (1, q') /\ queue_ok q'.
Proof.
  intros (ls & xs & Hr & Hd) Hroom. destruct (completion_add_rep q ls xs ckey cvalue status information Hr) as (q' & l & E & Hr'). exists q'. split; [done|]. eexists _, _. split; [exact Hr'|].
  rewrite (cq_rep_depth _ _ _ Hr'). apply u32_small. unfold is_u32. rewrite length_app. simpl. lia.
Qed.

Lemma payload_completion obj q : payload_ok obj -> queue_ok q -> payload_ok (o_completion obj q).
Proof. intros (P1 & P2) Hq. by split. Qed.

Lemma post_completion_ok st X port obj k v s i : good st X -> ws_objects st !! port = Some obj -> cq_depth (ob_completion obj) + 1 < 4294967296 ->
  exists st', horizon_server_post_completion_locked st port k v s i = Some st' /\ good st' X.
Proof.
  intros G Ho Hd. unfold horizon_server_post_completion_locked. rewrite Ho. cbn [ws_alloc mbind option_bind fst snd]. set (st1 := s_allocs st (S (ws_allocs st))). assert (good st1 X) as G1 by (by apply good_alloc).
  pose proof (object_payload st X port obj (proj1 G) Ho) as Hp. destruct (ws_memory st (ws_allocs st)).
  - destruct (queue_ok_add (ob_completion obj) k v s i (proj1 Hp) Hd) as (q' & -> & Hq'). cbv beta iota zeta. change (nonzero 1) with true. cbv iota.
    destruct (change_told st1 X port obj (o_completion obj q') G1 Ho) as (st' & E & G' & _); [by split|by apply payload_completion|done|by split|]. by exists st'.
  - cbn. eexists. split; [done|]. apply (good_put_quiet st1 X port obj); [done|done|by split|by apply payload_completion; [|apply Hp]|done|by split].
Qed.

Lemma add_completion_safe st h k v s i : good st [] -> fits st -> safe (horizon_server_handle_add_completion st h k v s i).
Proof. intros G F. apply typed_safe; [done|]. intros o obj Ho _. apply safe_done. apply (post_completion_ok st [] o obj); [done|done|by apply (ft_depths _ F o)]. Qed.

(** A port or another object without children is dropped. *)
Definition drop_leaf (st : wine_server) (q : positive) (qobj : server_object) : wine_server :=
  if nonzero (u32 (ob_refs qobj - 1)) then put_object st q (o_refs qobj (u32 (ob_refs qobj - 1))) else release_outside (s_objects st (delete q (ws_objects st))) qobj.

Lemma port_leaf st X q qobj : server_inv st X -> ws_objects st !! q = Some qobj -> ob_type qobj = OBJECT_COMPLETION -> ob_wait_port qobj = None /\ ob_file_completion qobj = None /\ ob_mapping_shared_file qobj = None.
Proof.
  intros I Ho Ht. destruct (si_objects _ _ I q qobj Ho) as [H1 H2 H3 _]. rewrite Ht in *. split; [|split].
  - destruct (ob_wait_port qobj); [|done]. by destruct (H1 _ eq_refl).
  - destruct (ob_file_completion qobj) as [p|]; [|done]. destruct (H2 p eq_refl) as [H _]. set_solver.
  - destruct (ob_mapping_shared_file qobj); [|done]. by destruct (H3 _ eq_refl).
Qed.

Lemma drop_leaf_eq st X q qobj : server_inv st X -> ws_objects st !! q = Some qobj -> ob_type qobj = OBJECT_COMPLETION -> drop_object st (Some q) = Some (drop_leaf st q qobj).
Proof.
  intros I Ho Ht. destruct (port_leaf st X q qobj I Ho Ht) as (H1 & H2 & H3). unfold drop_object, drop_with, drop_leaf. rewrite Ho. simpl. destruct (nonzero _); [done|]. unfold free_object. change FREE_DEPTH with (S 3). rewrite free_object_count by done.
  rewrite free_object_eq, Ho. cbn [mbind option_bind]. destruct (queue_ok_clear _ (proj1 (object_payload st X q qobj I Ho))) as (q' & Hq). rewrite Hq. cbn [mbind option_bind]. rewrite H1, H2, H3. simpl. f_equal. f_equal. unfold without. rewrite Ht. by rewrite !decide_False by done.
Qed.

Lemma release_outside_put st o x obj : release_outside (put_object st o x) obj = put_object (release_outside st obj) o x.
Proof. unfold release_outside. destruct (ob_reg_key obj), (fi_fd (ob_file obj) =? -1), (fi_peer_fd (ob_file obj) =? -1); done. Qed.

Lemma release_outside_objects st obj : ws_objects (release_outside st obj) = ws_objects st.
Proof. unfold release_outside. destruct (ob_reg_key obj), (fi_fd (ob_file obj) =? -1), (fi_peer_fd (ob_file obj) =? -1); done. Qed.

Lemma drop_leaf_put st q qobj o x : o <> q -> drop_leaf (put_object st o x) q qobj = put_object (drop_leaf st q qobj) o x.
Proof.
  intros Hne. unfold drop_leaf. destruct (nonzero _).
  - unfold put_object, s_objects. simpl. f_equal. by apply insert_insert_ne.
  - rewrite <- release_outside_put. f_equal. unfold put_object, s_objects. simpl. f_equal. by apply delete_insert_ne.
Qed.

Lemma drop_leaf_lookup st q qobj p : p <> q -> ws_objects (drop_leaf st q qobj) !! p = ws_objects st !! p.
Proof. intros Hne. unfold drop_leaf. destruct (nonzero _); [apply lookup_insert_ne; done|]. rewrite release_outside_objects. simpl. by apply lookup_delete_ne. Qed.

(** ** Completion waits *)

Lemma own_not_linked st X c conn o : server_inv st X -> ws_conns st !! c = Some conn -> cn_completion_wait conn = Some o -> idle st (cn_tid conn) -> not_linked st o.
Proof.
  intros I Hc Hw Hidle w f i l Hf Hl <-. destruct (si_frames _ _ I w f Hf) as [(wconn & H1 & _ & _ & H4) _]. destruct (H4 i l Hl) as [_ _ K]. destruct (si_conns _ _ I) as [_ C2 _ C4].
  destruct (K (C2 c conn (fst l) Hc Hw)) as (c2 & conn2 & Hc2 & Hw2 & Ht2). rewrite (C4 c2 c conn2 conn (fst l) Hc2 Hc Hw2 Hw) in Hc2. rewrite Hc in Hc2. injection Hc2 as <-.
  apply (Hidle w f Hf). unfold frame_tid. rewrite H1. simpl. by rewrite Ht2.
Qed.

Lemma good_put_port st X X' o obj p : good st X -> ws_objects st !! o = Some obj -> ob_type obj = OBJECT_COMPLETION_WAIT -> not_linked st o -> (forall q, p = Some q -> type_at (ws_objects st) q = Some OBJECT_COMPLETION) ->
  (forall q, occ q X' + occ q (opt_list p) = occ q X + occ q (opt_list (ob_wait_port obj)))%nat -> good (put_object st o (o_wait_port obj p)) X'.
Proof.
  intros [I W] Ho Ht Hnl Hp HX. destruct (si_objects _ _ I o obj Ho) as [A1 A2 A3 A4]. split.
  - apply (inv_put_children st X X' o obj); [done|done|done|done|done|done| | |by right].
    + split; [|done|done|done]. intros q Hq. split; [done|]. by apply Hp.
    + intros q. specialize (HX q). unfold object_refs. simpl. rewrite !occ_app. lia.
  - apply (wake_put_unlinked st X o obj); [done|done|congruence|done|by split|done].
Qed.

Lemma not_linked_frames st st' o : ws_frames st' = ws_frames st -> not_linked st o -> not_linked st' o.
Proof. intros Hf H w f i l. rewrite Hf. apply H. Qed.

Lemma type_at_is st o obj : ws_objects st !! o = Some obj -> type_at (ws_objects st) o = Some (ob_type obj).
Proof. unfold type_at. by intros ->. Qed.

(** The wait leaves its old port. *)
Lemma leave_port st X wait w : good st X -> ws_objects st !! wait = Some w -> ob_type w = OBJECT_COMPLETION_WAIT -> not_linked st wait -> refs_room st 0 ->
  exists st2, drop_object st (ob_wait_port w) = Some (put_object st2 wait w) /\ good st2 X /\ ws_objects st2 !! wait = Some (o_wait_port w None) /\ (forall q, Some q <> ob_wait_port w -> ws_objects st2 !! q = ws_objects (put_object st wait (o_wait_port w None)) !! q) /\
    ws_frames st2 = ws_frames st /\ ws_conns st2 = ws_conns st.
Proof.
  intros G Ho Ht Hnl Hr. destruct (ob_wait_port w) as [q|] eqn:Hp.
  - destruct (oo_port _ _ (si_objects _ _ (proj1 G) wait w Ho) q Hp) as [_ Htq]. destruct (ws_objects st !! q) as [qobj|] eqn:Hq; [|by unfold type_at in Htq; rewrite Hq in Htq]. rewrite (type_at_is st q qobj Hq) in Htq. injection Htq as Htq.
    assert (wait <> q) as Hne by (intros ->; congruence). set (st1 := put_object st wait (o_wait_port w None)).
    assert (good st1 (q :: X)) as G1. { apply (good_put_port st X (q :: X) wait w None); [done|done|done|done|done|]. intros x. rewrite Hp. simpl. rewrite !occ_cons. unfold occ at 2 4. simpl. lia. }
    assert (ws_objects st1 !! q = Some qobj) as Hq1 by (simpl; by rewrite lookup_insert_ne). assert (refs_room st1 0) as Hr1 by (apply (refs_room_put st 0 0 wait w _ Hr Ho); [lia|simpl; lia]).
    destruct (drop_good st1 X (Some q) G1 Hr1) as (st2 & E & G2 & S2). rewrite (drop_leaf_eq st1 _ q qobj (proj1 G1) Hq1 Htq) in E. injection E as E.
    exists (drop_leaf st1 q qobj). split.
    + rewrite <- drop_leaf_put by done. unfold st1. rewrite (drop_leaf_eq st X q qobj (proj1 G) Hq Htq). f_equal. f_equal. unfold put_object, s_objects. simpl. rewrite insert_insert_eq, insert_id by done. by destruct st.
    + rewrite E. split; [done|]. rewrite <- E. split; [rewrite drop_leaf_lookup by done; apply lookup_insert_eq|]. split; [intros x Hx; apply drop_leaf_lookup; congruence|]. rewrite E, (sr_frames _ _ (sk_rest _ _ S2)), (sr_conns _ _ (sk_rest _ _ S2)). done.
  - exists (put_object st wait (o_wait_port w None)). assert (o_wait_port w None = w) as -> by (rewrite <- Hp; by destruct w). assert (put_object st wait w = st) as E by (unfold put_object, s_objects; rewrite insert_id by done; by destruct st).
    rewrite !E. split; [done|]. split; [done|]. split; [done|]. done.
Qed.

Lemma bind_ok st X wait port w p : good st X -> ws_objects st !! wait = Some w -> ob_type w = OBJECT_COMPLETION_WAIT -> not_linked st wait -> ws_objects st !! port = Some p -> ob_type p = OBJECT_COMPLETION -> refs_room st 1 ->
  exists st', horizon_server_bind_completion_wait_locked st wait port = Some st' /\ good st' X /\ ws_conns st' = ws_conns st.
Proof.
  intros G Ho Ht Hnl Hp Htp Hr. unfold horizon_server_bind_completion_wait_locked. rewrite Ho. simpl. destruct (decide _) as [|Hnp]; [by exists st|]. rewrite Hp. simpl. assert (wait <> port) as Hne by (intros ->; congruence).
  set (st1 := put_object st port (o_refs p (u32 (ob_refs p + 1)))). assert (good st1 (port :: X)) as G1 by (by apply good_ref_up). assert (ws_objects st1 !! wait = Some w) as Ho1 by (simpl; by rewrite lookup_insert_ne).
  assert (refs_room st1 0) as Hr1 by (apply (refs_room_put st 1 1 port p _ Hr Hp); [lia|simpl; rewrite (u32_up st X port p 1 (proj1 G) Hp Hr); lia]).
  destruct (leave_port st1 (port :: X) wait w G1 Ho1 Ht Hnl Hr1) as (st2 & -> & G2 & Ho2 & Hsame & Hf2 & Hc2). simpl. rewrite lookup_insert_eq. simpl. eexists. split; [done|]. split; [|exact Hc2].
  assert (type_at (ws_objects st2) port = Some OBJECT_COMPLETION) as Htype.
  { unfold type_at. rewrite (Hsame port ltac:(congruence)). simpl. rewrite lookup_insert_ne by done. rewrite lookup_insert_eq. simpl. by rewrite Htp. }
  pose proof (good_put_port st2 (port :: X) X wait (o_wait_port w None) (Some port) G2 Ho2 Ht (not_linked_frames _ _ _ Hf2 Hnl)) as G3.
  assert (put_object (put_object st2 wait w) wait (o_wait_port w (Some port)) = put_object st2 wait (o_wait_port (o_wait_port w None) (Some port))) as -> by (unfold put_object, s_objects; simpl; rewrite insert_insert_eq; done).
  apply G3; [by intros q [= <-]|]. intros q. simpl. rewrite !occ_cons. unfold occ at 2 4. simpl. lia.
Qed.

Lemma completion_wait_ok st X c conn : good st X -> handle_room st -> refs_room st 1 -> ws_conns st !! c = Some conn -> ws_frames st !! c = None -> cn_tid conn <> 0 -> cn_direct conn = false ->
  exists r st', horizon_server_completion_wait_locked st c = Some (r, st') /\ good st' X /\ ws_frames st' = ws_frames st /\ refs_room st' 1 /\
    (forall o obj, ws_objects st !! o = Some obj -> ws_objects st' !! o = Some obj) /\
    forall o, r = Some o -> exists conn' w, ws_conns st' !! c = Some conn' /\ cn_tid conn' = cn_tid conn /\ cn_completion_wait conn' = Some o /\ ws_objects st' !! o = Some w /\ ob_type w = OBJECT_COMPLETION_WAIT /\
      (forall x, frame_tid st' x = frame_tid st x).
Proof.
  intros G Hh Hr Hc Hf Htid Hdir. unfold horizon_server_completion_wait_locked. rewrite Hc. simpl. destruct (cn_completion_wait conn) as [o|] eqn:Hw.
  - exists (Some o), st. split; [done|]. split; [done|]. split; [done|]. split; [done|]. split; [done|]. intros o' [= <-]. pose proof (co_wait _ _ (si_conns _ _ (proj1 G)) c conn o Hc Hw) as Ht. unfold type_at in Ht. destruct (ws_objects st !! o) as [w|] eqn:Ho; [|done]. injection Ht as Ht. exists conn, w. done.
  - destruct (create_handle_ok st X OBJECT_COMPLETION_WAIT G Hh) as (r & st1 & -> & G1 & Hcr); [done|]. simpl. destruct r as [e|]; [|destruct Hcr as [n ->]; exists None; eexists; split; [done|]; by repeat (split; [done|])].
    destruct Hcr as (o & Hnone & Hcr). rewrite (handle_to_object _ _ _ _ (created_handle _ _ _ _ _ _ Hcr)). simpl. set (obj := new_object _ _ _ _) in *. pose proof (proj2 (proj2 (created_handle _ _ _ _ _ _ Hcr))) as Ho. simpl in Ho.
    assert (refs_room st1 1) as R1. { intros p x Hx. rewrite (cr_objects _ _ _ _ _ _ Hcr) in Hx. destruct (decide (p = o)) as [->|Hne]; [rewrite lookup_insert_eq in Hx; injection Hx as <-; done|]. rewrite lookup_insert_ne in Hx by done. by apply (Hr p). }
    pose proof (good_ref_up st1 X o obj G1 Ho R1) as G2. set (st2 := put_object st1 o (o_refs obj (u32 (ob_refs obj + 1)))) in *. eexists (Some o), _. split; [done|].
    assert (ws_conns st2 = ws_conns st) as Ec by apply (cr_conns _ _ _ _ _ _ Hcr). split.
    { apply (good_put_conn st2 (o :: X) X c); [done| | |].
      - split; [by simpl; rewrite (cr_frames _ _ _ _ _ _ Hcr)|]. intros old o' Hold. rewrite Ec, Hc in Hold. injection Hold as <-. congruence.
      - split; simpl.
        + intros t Ht. pose proof (co_thread _ _ (si_conns _ _ (proj1 G2)) c conn t) as H. rewrite Ec in H. by apply H.
        + intros o' [= <-]. unfold type_at. simpl. by rewrite lookup_insert_eq.
        + intros [H|H]; congruence.
        + intros c2 conn2 o' _ Hc2 [= <-] Hw2. rewrite (cr_conns _ _ _ _ _ _ Hcr) in Hc2. pose proof (co_wait _ _ (si_conns _ _ (proj1 G)) c2 conn2 o Hc2 Hw2) as H. unfold type_at in H. by rewrite Hnone in H.
      - intros p. unfold conn_refs_at. rewrite Ec, Hc. unfold connection_refs. simpl. rewrite Hw, !occ_app, occ_cons. simpl. rewrite occ_cons. unfold occ at 2 5. simpl. lia. }
    split; [simpl; apply (cr_frames _ _ _ _ _ _ Hcr)|]. split.
    { intros p x Hx. simpl in Hx. rewrite (cr_objects _ _ _ _ _ _ Hcr) in Hx. destruct (decide (p = o)) as [->|Hne]; [rewrite lookup_insert_eq in Hx; injection Hx as <-; done|]. rewrite !lookup_insert_ne in Hx by done. by apply (Hr p). }
    split. { intros p x Hx. simpl. rewrite (cr_objects _ _ _ _ _ _ Hcr). rewrite !lookup_insert_ne; [done|intros <-; congruence..]. }
    intros o' [= <-]. eexists _, _. simpl. rewrite !lookup_insert_eq. split; [done|]. split; [done|]. split; [done|]. split; [done|]. split; [done|]. intros x. unfold frame_tid. simpl. rewrite (cr_conns _ _ _ _ _ _ Hcr).
    destruct (decide (x = c)) as [->|Hne]; [rewrite lookup_insert_eq, Hc; done|by rewrite lookup_insert_ne].
Qed.

Lemma good_take st X o obj q : good st X -> ws_objects st !! o = Some obj -> queue_ok q -> cq_depth q <= cq_depth (ob_completion obj) -> good (put_object st o (o_completion obj q)) X.
Proof.
  intros G Ho Hq Hd. apply (good_put_quiet st X o obj); [done|done|by split|apply payload_completion; [exact (object_payload st X o obj (proj1 G) Ho)|done]|done|]. split; [by split| |].
  - unfold port_signals. simpl. intros [->|H]%orb_prop; [done|]. apply orb_true_intro. right. lia.
  - intros objs tid. unfold object_signals. simpl. destruct (ob_type obj); try done. lia.
Qed.

Lemma remove_completion_safe st c conn h : good st [] -> fits st -> ws_conns st !! c = Some conn -> ws_frames st !! c = None -> cn_tid conn <> 0 -> cn_direct conn = false -> idle st (cn_tid conn) -> safe (horizon_server_handle_remove_completion st c h).
Proof.
  intros G F Hc Hf Htid Hdir Hidle. apply typed_safe; [done|]. intros port obj Ho Ht. destruct (queue_ok_take _ (proj1 (object_payload st [] port obj (proj1 G) Ho))) as (m & q & -> & Hq & Hd). cbn [mbind option_bind].
  pose proof (good_take st [] port obj q G Ho Hq Hd) as G1. set (st1 := put_object st port (o_completion obj q)) in *. assert (refs_room st1 1) as R1.
  { intros p x Hx. simpl in Hx. destruct (decide (p = port)) as [->|Hne]; [rewrite lookup_insert_eq in Hx; injection Hx as <-; simpl; pose proof (ft_refs _ F port obj Ho); lia|]. rewrite lookup_insert_ne in Hx by done. pose proof (ft_refs _ F p x Hx). lia. }
  assert (ws_objects st1 !! port = Some (o_completion obj q)) as Ho1 by apply lookup_insert_eq. destruct m as [m|].
  - change (ws_conns st1) with (ws_conns st). rewrite Hc. cbn [mbind option_bind]. destruct (cn_completion_wait conn) as [wait|] eqn:Hw; [|by apply safe_ret].
    pose proof (co_wait _ _ (si_conns _ _ (proj1 G1)) c conn wait Hc Hw) as Htw. unfold type_at in Htw. destruct (ws_objects st1 !! wait) as [w|] eqn:How; [|done]. injection Htw as Htw.
    destruct (bind_ok st1 [] wait port w _ G1 How Htw (own_not_linked st1 [] c conn wait (proj1 G1) Hc Hw Hidle) Ho1 Ht R1) as (st2 & -> & G2 & _). by apply safe_ret.
  - destruct (completion_wait_ok st1 [] c conn G1 (ft_handles _ F) R1 Hc Hf Htid Hdir) as (r & st2 & -> & G2 & Hf2 & R2 & Hkeep & Hr). cbn [mbind option_bind]. destruct r as [wait|]; [|by apply safe_ret].
    destruct (Hr wait eq_refl) as (conn' & w & Hc2 & Ht2 & Hw2 & How & Htw & Htids). assert (idle st2 (cn_tid conn')) as Hidle2 by (intros x f Hx; rewrite Hf2 in Hx; rewrite Htids, Ht2; by apply (Hidle x f)).
    destruct (bind_ok st2 [] wait port w _ G2 How Htw (own_not_linked st2 [] c conn' wait (proj1 G2) Hc2 Hw2 Hidle2) (Hkeep _ _ Ho1) Ht R2) as (st3 & -> & G3 & Ec). cbn [mbind option_bind]. rewrite Ec, Hc2. by apply safe_ret.
Qed.

Lemma get_thread_completion_safe st c conn : good st [] -> ws_conns st !! c = Some conn -> safe (horizon_server_handle_get_thread_completion st conn).
Proof.
  intros G Hc. unfold horizon_server_handle_get_thread_completion. destruct (cn_completion_wait conn) as [o|] eqn:Hw; [|by apply safe_ret].
  pose proof (co_wait _ _ (si_conns _ _ (proj1 G)) c conn o Hc Hw) as Ht. unfold type_at in Ht. destruct (ws_objects st !! o) as [w|] eqn:Ho; [|done]. simpl. destruct (ob_wait_has_msg w); [|by apply safe_ret]. apply safe_ret.
  apply (good_put_quiet st [] o w); [done|done|by split|exact (object_payload st [] o w (proj1 G) Ho)|done|by split].
Qed.

Lemma find_io_ok st X h : server_inv st X -> exists s r, horizon_server_find_io_object_locked st h = Some (s, r) /\
  forall o, r = Some o -> exists obj, ws_objects st !! o = Some obj /\ ob_type obj ∈ [OBJECT_FILE; OBJECT_SOCK; OBJECT_NSI].
Proof.
  intros I. unfold horizon_server_find_io_object_locked.
  assert (forall type, type ∈ [OBJECT_FILE; OBJECT_SOCK; OBJECT_NSI] -> exists s r, horizon_server_find_typed_object_locked st h type = Some (s, r) /\ forall o, r = Some o -> exists obj, ws_objects st !! o = Some obj /\ ob_type obj ∈ [OBJECT_FILE; OBJECT_SOCK; OBJECT_NSI]) as H.
  { intros type Ht. destruct (find_typed_ok st X h type I) as (s & r & E & Hr). exists s, r. split; [done|]. intros o Ho. destruct (Hr o Ho) as (_ & _ & obj & _ & _ & _ & _ & Hobj & <-). by exists obj. }
  destruct (H OBJECT_FILE) as (s1 & r1 & -> & H1); [set_solver|]. simpl. destruct (s1 =? _).
  - destruct (H OBJECT_SOCK) as (s2 & r2 & -> & H2); [set_solver|]. simpl. destruct (s2 =? _); [|by exists s2, r2]. apply H. set_solver.
  - simpl. destruct (s1 =? _); [|by exists s1, r1]. apply H. set_solver.
Qed.

Lemma set_completion_info_safe st h ch key : good st [] -> fits st -> safe (horizon_server_handle_set_completion_info st h ch key).
Proof.
  intros G F. unfold horizon_server_handle_set_completion_info. destruct (find_io_ok st [] h (proj1 G)) as (s & r & -> & Hr). cbn [mbind option_bind]. destruct r as [file|]; [|by apply safe_ret].
  destruct (Hr file eq_refl) as (obj & Ho & Hty). rewrite Ho. cbn [mbind option_bind]. destruct (negb _ || _) eqn:E; [by apply safe_ret|]. apply orb_false_iff in E as [_ E]. apply bool_decide_eq_false in E.
  assert (ob_file_completion obj = None) as Hno by (destruct (ob_file_completion obj); [by destruct E; eexists|done]). apply typed_safe; [done|]. intros port p Hp Htp.
  assert (file <> port) as Hne by (intros ->; rewrite Ho in Hp; injection Hp as <-; rewrite Htp in Hty; set_solver). pose proof (good_ref_up st [] port p G Hp (refs_room_le _ _ 1 (ft_refs _ F) ltac:(lia))) as G1.
  set (st1 := put_object st port _) in *. assert (ws_objects st1 !! file = Some obj) as Ho1 by (simpl; by rewrite lookup_insert_ne). rewrite Ho1. cbn [mbind option_bind]. apply safe_ret.
  destruct (si_objects _ _ (proj1 G1) file obj Ho1) as [A1 A2 A3 A4]. split.
  - apply (inv_put_children st1 [port] [] file obj); [apply G1|done|done|done|done|done| | |by left].
    + split; [done| |done|done]. intros q [= <-]. split; [done|]. unfold type_at. simpl. rewrite lookup_insert_eq. simpl. by rewrite Htp.
    + intros q. unfold object_refs. simpl. rewrite Hno, !occ_app. simpl. rewrite !occ_cons. change (occ q []) with 0%nat. lia.
  - apply (wake_put_quiet st1 file obj); [done|done|done|by split|done| |apply G1]. intros tid. unfold object_signals. simpl. done.
Qed.

Lemma add_fd_completion_safe st h v s i a : good st [] -> fits st -> safe (horizon_server_handle_add_fd_completion st h v s i a).
Proof.
  intros G F. unfold horizon_server_handle_add_fd_completion. destruct (find_io_ok st [] h (proj1 G)) as (s' & r & -> & Hr). cbn [mbind option_bind]. destruct r as [file|]; [|by apply safe_ret].
  destruct (Hr file eq_refl) as (obj & Ho & Hty). rewrite Ho. cbn [mbind option_bind]. destruct (ob_file_completion obj) as [port|] eqn:Hp; [|by apply safe_ret]. destruct (horizon_completion_file_posts _ _); [|by apply safe_ret].
  destruct (oo_file _ _ (si_objects _ _ (proj1 G) file obj Ho) port Hp) as [_ Ht]. unfold type_at in Ht. destruct (ws_objects st !! port) as [p|] eqn:Hport; [|done]. apply safe_done. apply (post_completion_ok st [] port p); [done|done|by apply (ft_depths _ F port)].
Qed.

Lemma set_fd_mode_safe st h flags : good st [] -> safe (horizon_server_handle_set_fd_completion_mode st h flags).
Proof.
  intros G. unfold horizon_server_handle_set_fd_completion_mode. destruct (find_io_ok st [] h (proj1 G)) as (s' & r & -> & Hr). cbn [mbind option_bind]. destruct r as [file|]; [|by apply safe_ret].
  destruct (Hr file eq_refl) as (obj & Ho & Hty). rewrite Ho. cbn [mbind option_bind]. destruct (horizon_completion_file_overlapped _); [|by apply safe_ret]. apply safe_ret.
  apply (good_put_quiet st [] file obj); [done|done|by split|exact (object_payload st [] file obj (proj1 G) Ho)|done|by split].
Qed.

(** ** Duplicating and comparing *)

Lemma compare_safe st c conn a b : good st [] -> ws_conns st !! c = Some conn -> exists s, horizon_server_compare_object_handles st (Some c) a b = Some s.
Proof.
  intros G Hc. unfold horizon_server_compare_object_handles. destruct (_ || _); [by eexists|]. destruct (find_handle_object_ok st [] c conn a (proj1 G) Hc) as (r1 & -> & _). simpl. destruct (find_handle_object_ok st [] c conn b (proj1 G) Hc) as (r2 & -> & _). by eexists.
Qed.

Lemma good_new_handle st X o obj access : good st X -> handle_room st -> refs_room st 1 -> ws_objects st !! o = Some obj ->
  exists st', (let '(new, st) := horizon_server_alloc_handle st in let st := put_object st o (o_refs obj (u32 (ob_refs obj + 1))) in let '(e, st) := new_entry st (mk_entry new access o) in
    st ← horizon_server_link_handle_locked st e; Some (HORIZON_STATUS_SUCCESS, new, st)) = Some (HORIZON_STATUS_SUCCESS, ws_next_handle st + 4, st') /\ good st' X.
Proof.
  intros G Hh Hr Ho. pose proof (good_ref_up st X o obj G Ho Hr) as G1. set (e := fresh (dom (ws_entries st))). assert (ws_entries st !! e = None) as He by (apply not_elem_of_dom, is_fresh).
  unfold horizon_server_alloc_handle. cbn [fst snd]. rewrite (u32_next st Hh). set (h := ws_next_handle st + 4). eexists. split.
  { unfold horizon_server_link_handle_locked, new_entry. cbn [fst snd]. change (fresh (dom (ws_entries (put_object (s_next_handle st h) o (o_refs obj (u32 (ob_refs obj + 1))))))) with e. cbn. rewrite lookup_insert_eq. cbn. reflexivity. }
  apply (good_linked (put_object st o (o_refs obj (u32 (ob_refs obj + 1)))) X _ e (mk_entry h access o)); [done| |done|done|simpl; unfold h; lia|simpl; unfold h; destruct Hh; lia]. split; [done|done|done|done|by split|done|done].
Qed.

Lemma duplicate_safe st c conn h access options : good st [] -> fits st -> ws_conns st !! c = Some conn -> safe (handle_reply (horizon_server_duplicate_object_handle st (Some c) h access options)).
Proof.
  intros G F Hc. unfold horizon_server_duplicate_object_handle. destruct (h =? 0); [by apply safe_ret|]. cbn [ws_alloc fst snd]. set (st1 := s_allocs st (S (ws_allocs st))). assert (good st1 []) as G1 by (by apply good_alloc).
  destruct (negb _); [by apply safe_ret|]. destruct (h =? HORIZON_CURRENT_PROCESS_HANDLE).
  { destruct (create_handle_ok st1 [] OBJECT_PROCESS G1 (ft_handles _ F)) as (r & st' & -> & G' & Hcr); [done|]. simpl. destruct r as [e|]; [|by apply safe_ret]. destruct Hcr as (o & _ & Hcr).
    destruct (good_set_access st' [] e _ (if nonzero (Z.land options 2) then HORIZON_PROCESS_ALL_ACCESS else horizon_process_map_access access) G' (cr_entry _ _ _ _ _ _ Hcr)) as (st2 & -> & G2 & ->). simpl. rewrite lookup_insert_eq. simpl. by apply safe_ret. }
  set (source := if bool_decide _ then _ else _). assert (exists r, source = Some r /\ forall o a, r = Some (o, a) -> is_Some (ws_objects st1 !! o)) as (r & -> & Hr).
  { unfold source. destruct (bool_decide _).
    - eexists. split; [done|]. intros o a. unfold current_thread. simpl. rewrite Hc. simpl. destruct (cn_thread conn) as [t|] eqn:Ht; [|done]. intros [= <- _].
      pose proof (co_thread _ _ (si_conns _ _ (proj1 G)) c conn t Hc Ht) as H. unfold type_at in H. destruct (ws_objects st !! t); [by eexists|done].
    - destruct (find_handle_ok st1 [] h (proj1 G1)) as (r & -> & Hr). simpl. destruct r as [e|]; [|by exists None]. destruct Hr as (He & en & Hen & _). change (ws_entries st) with (ws_entries st1). rewrite Hen. simpl. eexists. split; [done|]. intros o a [= <- _].
      destruct (entry_ok st1 [] e (proj1 G1) He) as (en' & obj & _ & Hen' & Ho). rewrite Hen in Hen'. injection Hen' as <-. by eexists. }
  simpl. destruct r as [[o a]|]; [|by apply safe_ret]. destruct (Hr o a eq_refl) as (obj & Ho). change (ws_objects st) with (ws_objects st1). rewrite Ho. simpl.
  destruct (good_new_handle st1 [] o obj (duplicate_access obj access options a) G1 (ft_handles _ F) (refs_room_le st1 256 1 (ft_refs _ F) ltac:(lia)) Ho) as (st2 & E & G2). unfold handle_reply. cbn in E. rewrite E. by apply safe_ret.
Qed.

(** ** Closing *)

Record same_fields (st st' : wine_server) : Prop := {
  sf_rest : same_rest st st';
  sf_objects : ws_objects st' = ws_objects st;
  sf_timers : ws_timers st' = ws_timers st;
  sf_threads : ws_threads st' = ws_threads st;
  sf_held : ws_held st' = ws_held st;
  sf_views : ws_views st' = ws_views st;
}.

Lemma inv_same_fields st st' X : same_fields st st' -> server_inv st X -> server_inv st' X.
Proof.
  intros [R E1 E2 E3 E4 E5] I. apply (inv_change_objects st st' X X I R); rewrite ?E1, ?E2, ?E3; [|apply I|apply I|apply I|].
  - destruct R as [R1 R2 R3 R4 R5 R6 R7]. assert (server_refs st' = server_refs st) as -> by (unfold server_refs; by rewrite R1, R2, R5, R6, E1, E4, E5). apply I.
  - intros p _ x Hx. by exists x.
Qed.

(** Operations of sockets become ready for threads. *)
Lemma make_ready_ok st X tids : good st X -> exists st', horizon_sync_notify_async_locked (s_ready st (tids ++ ws_ready st)) = Some st' /\ good st' X /\ calm (s_ready st (tids ++ ws_ready st)) st'.
Proof.
  intros [I W]. set (st1 := s_ready st (tids ++ ws_ready st)). assert (server_inv st1 X) as I1 by (by apply (inv_same_fields st)).
  destruct (notify_async_ok st1 X nobody I1) as (st' & E & I' & C & W').
  - intros w f Hw Hs. destruct (W w f Hw Hs) as [A B]. split; [exact A|]. intros Hn conn Hc. destruct (B (fun H => H) conn Hc) as (B1 & B2 & B3). split; [done|]. split; [done|]. intros Hin. apply Hn. by exists conn.
  - by exists st'.
Qed.

Lemma calm_there st st' o obj : calm st st' -> ws_objects st !! o = Some obj -> is_Some (ws_objects st' !! o).
Proof. intros C Ho. destruct (ca_objects _ _ C o obj Ho) as (x & Hx & _). by eexists. Qed.

Record closing (st st' : wine_server) : Prop := {
  cl_handles : ws_handles st' = ws_handles st;
  cl_conns : ws_conns st' = ws_conns st;
  cl_room : refs_room st 0 -> refs_room st' 0;
  cl_frames : forall w, is_Some (ws_frames st' !! w) -> is_Some (ws_frames st !! w);
}.

Lemma closing_refl st : closing st st.
Proof. by split. Qed.

Lemma closing_trans st1 st2 st3 : closing st1 st2 -> closing st2 st3 -> closing st1 st3.
Proof. intros [A1 A2 A3 A4] [B1 B2 B3 B4]. split; [congruence|congruence|auto|auto]. Qed.

Lemma calm_closing st st' : calm st st' -> closing st st'.
Proof.
  intros C. split; [apply C|apply C|by apply calm_room|]. intros w [f Hf]. destruct (ws_frames st !! w) as [g|] eqn:E; [by eexists|]. by rewrite (ca_no_frame _ _ C w E) in Hf.
Qed.

Lemma shrinks_closing st st' : shrinks st st' -> closing st st'.
Proof. intros S. split; [apply (sk_rest _ _ S)|apply (sk_rest _ _ S)|by apply shrinks_room|]. intros w. by rewrite (sr_frames _ _ (sk_rest _ _ S)). Qed.

Lemma close_sock_ok st X obj cancelled : good st X -> exists st', close_sock st obj cancelled = Some st' /\ good st' X /\ closing st st'.
Proof.
  intros G. unfold close_sock. destruct (_ && _); [|exists st; split; [done|]; split; [done|apply closing_refl]]. destruct (make_ready_ok st X cancelled G) as (st' & E & G' & C). exists st'. split; [done|]. split; [done|].
  destruct (calm_closing _ _ C) as [H1 H2 H3 H4]. by split.
Qed.

Lemma has_handles_ok entries l o : (forall e, e ∈ l -> is_Some (entries !! e)) -> exists b, has_handles_loop entries l o = Some b.
Proof.
  induction l as [|e l IH]; intros H; [by eexists|]. simpl. destruct (H e (list_elem_of_here _ _)) as [en ->]. simpl. destruct (decide _); [by eexists|]. apply IH. set_solver.
Qed.

Lemma close_port_ok st X o obj : good st (o :: X) -> exists st', close_port st o obj = Some st' /\ good st' (o :: X) /\ closing st st'.
Proof.
  intros G. unfold close_port. destruct (decide _) as [_|]; [|exists st; split; [done|]; split; [done|apply closing_refl]].
  destruct (has_handles_ok (ws_entries st) (ws_handles st) o) as [b Hb]. { intros e He. destruct (ta_entry _ _ _ _ (si_table _ _ (proj1 G)) e He) as (en & Hen & _). by eexists. }
  unfold horizon_server_object_has_handles_locked. rewrite Hb. simpl. destruct b; [exists st; split; [done|]; split; [done|apply closing_refl]|].
  destruct (inv_ref_there st X o (proj1 G)) as [x Hx]. rewrite Hx. simpl. destruct (change_told st (o :: X) o x (o_closed x true) G Hx) as (st' & E & G' & C); [by split|exact (object_payload st _ o x (proj1 G) Hx)|done|by split|].
  exists st'. split; [done|]. split; [done|]. destruct (calm_closing _ _ C) as [H1 H2 H3 H4]. split; [done|done| |done]. intros Hr. apply H3. apply (refs_room_put st 0 0 o x _ Hr Hx); [lia|simpl; lia].
Qed.

Lemma good_put_file st X o obj f : good st X -> ws_objects st !! o = Some obj -> good (put_object st o (o_file obj f)) X.
Proof. intros G Ho. apply (good_put_quiet st X o obj); [done|done|by split|exact (object_payload st X o obj (proj1 G) Ho)|done|by split]. Qed.

Lemma delete_on_close_ok st X o obj : good st X -> ws_objects st !! o = Some obj -> exists s st' obj', delete_on_close st o obj = (s, st') /\ good st' X /\ ws_objects st' !! o = Some obj' /\ ob_refs obj' = ob_refs obj /\ closing st st'.
Proof.
  intros G Ho. unfold delete_on_close. destruct (negb _); [exists HORIZON_STATUS_SUCCESS, st, obj; split; [done|]; split; [done|]; split; [done|]; split; [done|apply closing_refl]|].
  destruct (fi_fd (ob_file obj) =? -1); cbn [outside fst snd].
  - eexists _, _, obj. split; [done|]. split; [exact (good_outside st X _ G)|]. split; [done|]. split; [done|]. by split.
  - eexists _, _, _. split; [done|]. split; [|split; [simpl; apply lookup_insert_eq|split; [done|]]].
    + refine (good_outside _ X (Call_remove (fi_name (ob_file obj)) (fi_is_dir (ob_file obj))) _). apply good_put_file; [exact (good_outside st X (Call_close (fi_fd (ob_file obj))) G)|done].
    + split; [done|done| |done]. intros Hr. apply (refs_room_put st 0 0 o obj _ Hr Ho); [lia|simpl; lia].
Qed.

Lemma close_reference_ok st X o : good st (o :: X) -> refs_room st 0 -> exists s st', close_reference st o = Some (s, st') /\ good st' X /\ closing st st'.
Proof.
  intros G Hr. destruct (inv_ref_there st X o (proj1 G)) as [obj Ho]. unfold close_reference. rewrite Ho. cbn [mbind option_bind]. pose proof (inv_ref_pos st X o obj (proj1 G) Ho) as Hpos. pose proof (Hr o obj Ho) as Hmax.
  assert (nonzero (ob_refs obj) = true) as -> by (apply nonzero_spec; lia). cbn [negb]. pose proof (inv_ref_down st X o obj (proj1 G) Ho ltac:(lia)) as I1. pose proof (wake_put_refs st o obj (u32 (ob_refs obj - 1)) nobody nobody Ho (proj2 G)) as W1.
  set (st1 := put_object st o (o_refs obj (u32 (ob_refs obj - 1)))) in *. assert (closing st st1) as C1.
  { split; [done|done| |done]. intros _. apply (refs_room_put st 0 0 o obj _ Hr Ho); [lia|]. simpl. rewrite u32_small by (unfold is_u32; lia). lia. }
  cbn [ob_refs o_refs]. destruct (nonzero (u32 (ob_refs obj - 1))) eqn:En; [by exists HORIZON_STATUS_SUCCESS, st1|].
  destruct (delete_on_close_ok st1 X o (o_refs obj (u32 (ob_refs obj - 1))) (conj I1 W1) (lookup_insert_eq _ _ _)) as (s & st2 & obj2 & -> & G2 & Ho2 & Hr2 & C2).
  assert (ob_refs obj2 = 0) as H0. { rewrite Hr2. simpl. destruct (decide (u32 (ob_refs obj - 1) = 0)) as [|Hn]; [done|]. apply nonzero_spec in Hn. congruence. }
  destruct (free_ok st2 X o obj2 (proj1 G2) (cl_room _ _ C2 (cl_room _ _ C1 Hr)) Ho2 H0) as (st3 & -> & I3 & S3). exists s, st3. split; [done|]. split; [|by apply (closing_trans _ st1); [|apply (closing_trans _ st2); [|apply shrinks_closing]]].
  split; [done|]. by apply (wake_shrinks st2 st3 X nobody nobody I3 S3), G2.
Qed.

Lemma close_handle_ok st X h cancelled : good st X -> refs_room st 0 -> exists s st', horizon_server_close_object_handle st h cancelled = Some (s, st') /\ good st' X /\ ws_conns st' = ws_conns st /\ (forall w, is_Some (ws_frames st' !! w) -> is_Some (ws_frames st !! w)).
Proof.
  intros G Hr. unfold horizon_server_close_object_handle. destruct (h =? 0); [by eexists _, st|]. destruct (find_handle_ok st X h (proj1 G)) as (r & -> & Hfind). cbn [mbind option_bind]. destruct r as [e|]; [|by eexists _, st].
  destruct Hfind as (He & _). destruct (entry_ok st X e (proj1 G) He) as (en & obj & -> & Hen & Ho). cbn [mbind option_bind]. destruct (unlink_ok st X e en (proj1 G) He Hen) as (st1 & -> & I1 & U). cbn [mbind option_bind]. set (o := he_object en) in *.
  assert (ws_objects st1 !! o = Some obj) as Ho1 by (by rewrite (so_objects _ _ (un_objects _ _ _ U))).
  pose proof (wake_unlinked st X st1 e en obj nobody nobody (proj1 G) U He Hen Ho (proj2 G)) as W1. destruct (notify_false_ok st1 (o :: X) o obj I1 Ho1) as (st2 & -> & I2 & C2 & W2).
  { eapply wake_weaken; [| |exact W1]; (intros w [[]|(f & i & Hf & Hl)]; exists f, i; by rewrite (so_frames _ _ (un_objects _ _ _ U))). }
  cbn [mbind option_bind]. destruct (close_sock_ok st2 (o :: X) obj cancelled (conj I2 W2)) as (st3 & -> & G3 & C3). cbn [mbind option_bind]. destruct (close_port_ok st3 X o obj G3) as (st4 & -> & G4 & C4). cbn [mbind option_bind].
  set (st5 := match ob_reg_key obj with Some key => _ | None => st4 end). assert (good st5 (o :: X) /\ closing st4 st5) as [G5 C5] by (unfold st5; destruct (ob_reg_key obj); [split; [by apply good_outside|by split]|split; [done|apply closing_refl]]).
  assert (closing st1 st5) as C15 by (eapply closing_trans; [by apply calm_closing|]; eapply closing_trans; [done|]; by eapply closing_trans).
  assert (refs_room st1 0) as Hr1 by (intros p x Hx; rewrite (so_objects _ _ (un_objects _ _ _ U)) in Hx; by apply (Hr p)).
  destruct (close_reference_ok st5 X o G5 (cl_room _ _ C15 Hr1)) as (s & st6 & -> & G6 & C6). cbn [mbind option_bind]. pose proof (closing_trans _ _ _ C15 C6) as C16. eexists _, _. split; [done|]. split.
  - apply good_free_entry; [done|]. rewrite (cl_handles _ _ C16). intros Hx%(un_handles _ _ _ U). by destruct Hx.
  - simpl. rewrite (cl_conns _ _ C16), (so_conns _ _ (un_objects _ _ _ U)). split; [done|]. intros w Hw. rewrite <- (so_frames _ _ (un_objects _ _ _ U)). by apply (cl_frames _ _ C16).
Qed.
