(* ===== verification/ServerClients.v ===== *)
(** * Handlers of threads and clients, and the calls of other parts *)
From S2P Require Import Prelude Chain Completion Threads ServerObjects ServerSync ServerRequests ServerSelect ServerInv ServerLinks ServerWake ServerKeep ServerHandlers ServerPorts.
Local Open Scope Z_scope.

Lemma good_same_fields st st' X : same_fields st st' -> ws_ready st' = ws_ready st -> good st X -> good st' X.
Proof.
  intros S Hr [I W]. split; [by apply (inv_same_fields st)|]. destruct S as [[R1 R2 R3 R4 R5 R6 R7] E1 _ _ _ _]. intros w f Hw Hs. rewrite R6 in Hw. destruct (W w f Hw Hs) as [A B]. split.
  - intros H. eapply Forall_impl; [by apply A|]. intros h. by apply live_same.
  - intros H. apply (frame_still_mono st st' w f f); [by apply B|done|done|done|by rewrite R5|intros h _; by apply live_same|by rewrite E1| |by rewrite Hr].
    intros conn t obj' _ _ Hobj. exists obj'. by rewrite <- E1.
Qed.

Lemma good_running st X n : good st X -> good (s_running st n) X.
Proof. apply good_same_fields; [split; [by split|done..]|done]. Qed.

Lemma good_next_tid st X n : good st X -> good (s_next_tid st n) X.
Proof. apply good_same_fields; [split; [by split|done..]|done]. Qed.

(** ** The end of a completion wait *)

Lemma conn_wait_object st X c conn o : server_inv st X -> ws_conns st !! c = Some conn -> cn_completion_wait conn = Some o -> exists w, ws_objects st !! o = Some w /\ ob_type w = OBJECT_COMPLETION_WAIT.
Proof. intros I Hc Hw. pose proof (co_wait _ _ (si_conns _ _ I) c conn o Hc Hw) as Ht. unfold type_at in Ht. destruct (ws_objects st !! o) as [w|]; [|done]. injection Ht as Ht. by exists w. Qed.

Lemma conn_thread_object st X c conn t : server_inv st X -> ws_conns st !! c = Some conn -> cn_thread conn = Some t -> exists obj, ws_objects st !! t = Some obj /\ ob_type obj = OBJECT_THREAD.
Proof. intros I Hc Hw. pose proof (co_thread _ _ (si_conns _ _ I) c conn t Hc Hw) as Ht. unfold type_at in Ht. destruct (ws_objects st !! t) as [w|]; [|done]. injection Ht as Ht. by exists w. Qed.

(** A handle to an object no select is linked to is dropped silently. *)
Lemma unlink_silent st X e en obj : good st X -> e ∈ ws_handles st -> ws_entries st !! e = Some en -> ws_objects st !! he_object en = Some obj -> not_linked st (he_object en) -> refs_room st 0 ->
  exists st1, horizon_server_unlink_handle_locked st e = Some st1 /\ ws_objects st1 !! he_object en = Some obj /\
    let st' := free_entry (put_object st1 (he_object en) (o_refs obj (u32 (ob_refs obj - 1)))) e in
    good st' X /\ ws_conns st' = ws_conns st /\ ws_frames st' = ws_frames st /\ refs_room st' 0.
Proof.
  intros G He Hen Ho Hnl Hr. destruct (unlink_ok st X e en (proj1 G) He Hen) as (st1 & E & I1 & U). exists st1. split; [done|]. destruct (un_objects _ _ _ U) as [O1 _ _ O4 O5 _]. rewrite O1. split; [done|]. cbv zeta.
  assert (ws_objects st1 !! he_object en = Some obj) as Ho1 by (by rewrite O1). assert (0 < ob_refs obj) as Hpos by (by apply (inv_ref_pos st1 X (he_object en))). pose proof (Hr _ _ Ho) as Hmax. split.
  - apply good_free_entry; [|simpl; intros Hx%(un_handles _ _ _ U); by destruct Hx]. split; [by apply inv_ref_down; [..|lia]|]. apply wake_put_refs; [done|].
    apply (wake_same_objects st st1 nobody nobody nobody nobody); [apply U|apply U| |done|done|apply G]. intros w f h Hw (Hq & _) _ Hh Hlive.
    destruct (unlinked_live st X st1 e en w f h (proj1 G) U He Hen Hw Hq Hh Hlive) as [|(i & l & Hl & Hfst)]; [done|]. by destruct (Hnl w f i l Hw Hl).
  - simpl. rewrite O4, O5. split; [done|]. split; [done|]. intros p x Hx. simpl in Hx. rewrite O1 in Hx. destruct (decide (p = he_object en)) as [->|Hne]; [rewrite lookup_insert_eq in Hx; injection Hx as <-; simpl; rewrite u32_small by (unfold is_u32; lia); lia|].
    rewrite lookup_insert_ne in Hx by done. by apply (Hr p).
Qed.

(** What the end of a connection leaves of it. *)
Record ended (st st' : wine_server) (c : positive) (conn conn' : horizon_server_connection) : Prop := {
  ed_conns : ws_conns st' = <[c := conn']> (ws_conns st);
  ed_tid : cn_tid conn' = cn_tid conn;
  ed_direct : cn_direct conn' = cn_direct conn;
  ed_wait : cn_completion_wait conn' = None;
  ed_frames : forall w, is_Some (ws_frames st' !! w) -> is_Some (ws_frames st !! w);
  ed_room : refs_room st' 0;
}.

Lemma good_conn_wait st X c conn o : good st X -> ws_conns st !! c = Some conn -> ws_frames st !! c = None -> cn_completion_wait conn = Some o -> idle st (cn_tid conn) -> good (put_conn st c (c_wait conn None 0)) (o :: X).
Proof.
  intros G Hc Hf Hw Hidle. apply (good_put_conn st X (o :: X) c); [done| | |].
  - split; [done|]. intros old o' Hold Hw'. left. rewrite Hc in Hold. by injection Hold as <-.
  - split; simpl; [|done|done|done]. intros t Ht. by apply (co_thread _ _ (si_conns _ _ (proj1 G)) c conn t).
  - intros p. unfold conn_refs_at. rewrite Hc. unfold connection_refs. simpl. rewrite Hw, !occ_app. simpl. rewrite !occ_cons. change (occ p []) with 0%nat. lia.
Qed.

Lemma end_wait_ok st X c conn : good st X -> refs_room st 0 -> ws_conns st !! c = Some conn -> ws_frames st !! c = None -> (forall o, cn_completion_wait conn = Some o -> idle st (cn_tid conn)) ->
  exists st' conn', horizon_server_end_completion_wait_locked st c = Some st' /\ good st' X /\ ended st st' c conn conn' /\ cn_thread conn' = cn_thread conn.
Proof.
  intros G Hr Hc Hf Hidle. unfold horizon_server_end_completion_wait_locked. rewrite Hc. cbn [mbind option_bind]. destruct (cn_completion_wait conn) as [o|] eqn:Hw.
  2:{ exists st, conn. split; [done|]. split; [done|]. split; [|done]. split; [by rewrite insert_id|done|done|done|done|done]. }
  specialize (Hidle o eq_refl). destruct (find_handle_ok st X (cn_completion_wait_handle conn) (proj1 G)) as (r & -> & Hfind). cbn [mbind option_bind].
  assert (exists st1, match r with None => Some st | Some e => entry ← ws_entries st !! e; if decide (he_object entry = o) then st ← horizon_server_unlink_handle_locked st e; obj ← ws_objects st !! o; Some (free_entry (put_object st o (o_refs obj (u32 (ob_refs obj - 1)))) e) else Some st end = Some st1 /\
    good st1 X /\ ws_conns st1 = ws_conns st /\ ws_frames st1 = ws_frames st /\ refs_room st1 0) as (st1 & -> & G1 & Hc1 & Hf1 & R1).
  { destruct r as [e|]; [|by exists st]. destruct Hfind as (He & en & Hen & _). rewrite Hen. cbn [mbind option_bind]. destruct (decide _) as [<-|]; [|by exists st].
    destruct (conn_wait_object st X c conn _ (proj1 G) Hc Hw) as (w & Ho & _). destruct (unlink_silent st X e en w G He Hen Ho (own_not_linked st X c conn _ (proj1 G) Hc Hw Hidle) Hr) as (st1 & -> & Ho1 & H). cbn [mbind option_bind]. rewrite Ho1. cbn [mbind option_bind]. eexists. by split. }
  cbn [mbind option_bind]. assert (good (put_conn st1 c (c_wait conn None 0)) (o :: X)) as G2.
  { apply good_conn_wait; [done|by rewrite Hc1|by rewrite Hf1|done|]. intros w f Hwf. unfold frame_tid. rewrite Hc1. rewrite Hf1 in Hwf. by apply (Hidle w f). }
  destruct (drop_good _ X (Some o) G2 R1) as (st2 & E & G3 & S3). exists st2, (c_wait conn None 0). split; [done|]. split; [done|]. split; [|done]. destruct (sk_rest _ _ S3) as [_ _ _ _ S5 S6 _].
  split; [rewrite S5; simpl; by rewrite Hc1|done|done|done|intros w; rewrite S6; simpl; by rewrite Hf1|by apply (shrinks_room _ _ 0 S3)].
Qed.

(** ** Abandoned mutexes *)

Lemma notify_closing st X o obj obj' : server_inv st X -> ws_objects st !! o = Some obj -> same_shape obj obj' -> payload_ok obj' -> same_when obj obj' -> refs_room st 0 ->
  exists st', horizon_sync_notify_object_locked (put_object st o obj') o true = Some st' /\ server_inv st' X /\ closing st st' /\ (forall p, is_Some (ws_objects st !! p) -> is_Some (ws_objects st' !! p)).
Proof.
  intros I Ho Hs Hp Hw Hr. assert (server_inv (put_object st o obj') X) as I1 by (by apply (inv_put_payload st X o obj)). destruct (notify_object_ok (put_object st o obj') X o obj' true I1 (lookup_insert_eq _ _ _)) as (st' & E & I' & C & _).
  exists st'. split; [done|]. split; [done|]. split.
  - destruct (calm_closing _ _ C) as [H1 H2 H3 H4]. split; [done|done| |done]. intros _. apply H3, (refs_room_put st 0 0 o obj _ Hr Ho); [lia|]. rewrite (sh_refs _ _ Hs). lia.
  - intros p [x Hx]. destruct (decide (p = o)) as [->|Hne]; [exact (calm_there _ _ o obj' C (lookup_insert_eq _ _ _))|]. apply (calm_there _ _ p x C). simpl. by rewrite lookup_insert_ne.
Qed.

Lemma abandon_ok l : forall st X tid, server_inv st X -> refs_room st 0 -> (forall e, e ∈ l -> e ∈ ws_handles st) ->
  exists st', abandon_mutexes st l tid = Some st' /\ server_inv st' X /\ closing st st' /\ (forall p, is_Some (ws_objects st !! p) -> is_Some (ws_objects st' !! p)).
Proof.
  induction l as [|e l IH]; intros st X tid I Hr Hl; [exists st; split; [done|]; split; [done|]; split; [apply closing_refl|done]|].
  cbn [abandon_mutexes]. destruct (entry_ok st X e I (Hl e (list_elem_of_here _ _))) as (en & obj & -> & _ & Ho). cbn [mbind option_bind].
  assert (exists st1, (if decide (ob_type obj = OBJECT_MUTEX) then let '(held, m) := horizon_mutex_abandon (ob_mutex obj) tid in if held : bool then horizon_sync_notify_object_locked (put_object st (he_object en) (o_mutex obj m)) (he_object en) true else Some st else Some st) = Some st1 /\
    server_inv st1 X /\ closing st st1 /\ (forall p, is_Some (ws_objects st !! p) -> is_Some (ws_objects st1 !! p))) as (st1 & -> & I1 & C1 & K1).
  { destruct (decide _); [|exists st; split; [done|]; split; [done|]; split; [apply closing_refl|done]]. unfold horizon_mutex_abandon. destruct (_ || _); [exists st; split; [done|]; split; [done|]; split; [apply closing_refl|done]|].
    destruct (object_payload st X _ obj I Ho) as (P1 & P2 & P3). apply (notify_closing st X _ obj); [done|done|by split|by split|done|done]. }
  cbn [mbind option_bind]. destruct (IH st1 X tid I1 (cl_room _ _ C1 Hr)) as (st2 & -> & I2 & C2 & K2).
  - intros x Hx. rewrite (cl_handles _ _ C1). by apply Hl, list_elem_of_further.
  - exists st2. split; [done|]. split; [done|]. split; [by eapply closing_trans|auto].
Qed.

(** ** The end of a thread *)

Lemma good_conn_thread st X c conn t : good st X -> ws_conns st !! c = Some conn -> ws_frames st !! c = None -> cn_thread conn = Some t -> cn_completion_wait conn = None -> good (put_conn st c (c_thread conn None)) (t :: X).
Proof.
  intros G Hc Hf Ht Hw. apply (good_put_conn st X (t :: X) c); [done| | |].
  - split; [done|]. intros old o' Hold Hw'. rewrite Hc in Hold. injection Hold as <-. congruence.
  - split; simpl; [done|congruence|by intros _|congruence].
  - intros p. unfold conn_refs_at. rewrite Hc. unfold connection_refs. simpl. rewrite Ht, Hw. simpl. rewrite !occ_cons. change (occ p []) with 0%nat. lia.
Qed.

Lemma ended_payload obj now : payload_ok obj -> payload_ok (o_thread obj (snd (horizon_thread_mark_terminated (ob_thread obj) now))).
Proof. intros (P1 & P2 & P3 & P4). split; [done|]. split; [done|]. split; [|done]. unfold horizon_thread_mark_terminated. by destruct (ts_terminated (ob_thread obj)); simpl; [intros _; apply P3|]. Qed.

Lemma end_thread_ok st X c conn now : good st X -> refs_room st 0 -> ws_conns st !! c = Some conn -> ws_frames st !! c = None -> (forall o, cn_completion_wait conn = Some o -> idle st (cn_tid conn)) ->
  exists st' conn', horizon_server_end_thread_locked st c now = Some st' /\ good st' X /\ ended st st' c conn conn' /\ cn_thread conn' = None.
Proof.
  intros G Hr Hc Hf Hidle. unfold horizon_server_end_thread_locked. destruct (end_wait_ok st X c conn G Hr Hc Hf Hidle) as (st1 & conn1 & -> & G1 & E1 & Ht1). cbn [mbind option_bind]. destruct E1 as [E1 E2 E3 E4 E5 E6].
  assert (ws_conns st1 !! c = Some conn1) as Hc1 by (rewrite E1; apply lookup_insert_eq). rewrite Hc1. cbn [mbind option_bind]. rewrite Ht1. destruct (cn_thread conn) as [t|] eqn:Ht.
  2:{ exists st1, conn1. split; [done|]. split; [done|]. split; [by split|congruence]. }
  assert (ws_frames st1 !! c = None) as Hf1 by (destruct (ws_frames st1 !! c) eqn:E; [|done]; destruct (E5 c) as [x Hx]; [by eexists|congruence]).
  pose proof (good_conn_thread st1 X c conn1 t G1 Hc1 Hf1 Ht1 E4) as G2. set (st2 := put_conn st1 c (c_thread conn1 None)) in *. destruct (inv_ref_there st2 X t (proj1 G2)) as [obj Ho]. rewrite Ho. cbn [mbind option_bind].
  pose proof (ended_payload obj now (object_payload st2 _ t obj (proj1 G2) Ho)) as Hpay. destruct (horizon_thread_mark_terminated (ob_thread obj) now) as [done_ thread]. simpl in Hpay.
  assert (server_inv (put_object st2 t (o_thread obj thread)) (t :: X)) as I3 by (apply (inv_put_payload st2 (t :: X) t obj); [apply G2|done|by split|done|done]). set (st3 := put_object st2 t (o_thread obj thread)) in *.
  set (st4 := if done_ then s_running st3 _ else st3). assert (server_inv st4 (t :: X)) as I4 by (unfold st4; destruct done_; [apply (inv_same_fields st3); [split; [by split|done..]|done]|done]).
  assert (closing st2 st4 /\ is_Some (ws_objects st4 !! t)) as [C4 K4].
  { assert (refs_room st3 0) as R3 by (apply (refs_room_put st2 0 0 t obj _ E6 Ho); [lia|simpl; lia]). unfold st4. destruct done_; (split; [by split|simpl; rewrite lookup_insert_eq; by eexists]). }
  assert (refs_room st4 0) as R4 by (apply C4; exact E6). destruct (abandon_ok (ws_handles st4) st4 (t :: X) (ts_tid thread) I4 R4) as (st5 & -> & I5 & C5 & K5); [done|]. cbn [mbind option_bind].
  destruct (K5 t K4) as [obj5 Ho5]. destruct (notify_object_ok st5 (t :: X) t obj5 true I5 Ho5) as (st6 & -> & I6 & C6 & _). cbn [mbind option_bind].
  destruct (signal_changed_ok st6 (t :: X) I6) as (st7 & -> & I7 & C7 & _ & W7). cbn [mbind option_bind].
  assert (closing st2 st7) as C27 by (eapply closing_trans; [exact C4|]; eapply closing_trans; [exact C5|]; eapply closing_trans; apply calm_closing; [exact C6|exact C7]).
  destruct (drop_good st7 X (Some t) (conj I7 W7) (cl_room _ _ C27 E6)) as (st8 & -> & G8 & S8). exists st8, (c_thread conn1 None). split; [done|]. split; [done|]. split; [|done].
  pose proof (closing_trans _ _ _ C27 (shrinks_closing _ _ S8)) as [D1 D2 D3 D4]. split; [rewrite D2; simpl; by rewrite E1, insert_insert_eq|done|done|done|intros w Hx; by apply E5, D4|by apply D3].
Qed.

(** ** New threads *)

Lemma alloc_thread_ok st X tid pid affinity now : good st X -> exists r st', horizon_server_alloc_thread_locked st tid pid affinity now = (r, st') /\ good st' X /\
  match r with
  | None => only_alloc st st'
  | Some o => ws_objects st !! o = None /\ ws_objects st' = <[o := new_object tid OBJECT_THREAD 0 (horizon_thread_init tid pid affinity now)]> (ws_objects st) /\ ws_conns st' = ws_conns st /\ ws_frames st' = ws_frames st /\ ws_next_handle st' = ws_next_handle st
  end.
Proof.
  intros G. unfold horizon_server_alloc_thread_locked. cbn [ws_alloc fst snd]. destruct (negb _); [eexists None, _; split; [done|]; split; [by apply good_alloc|by eexists]|]. set (st1 := s_allocs st (S (ws_allocs st))). assert (good st1 X) as G1 by (by apply good_alloc).
  set (o := fresh (dom (ws_objects st1))). assert (ws_objects st1 !! o = None) as Ho by (apply not_elem_of_dom, is_fresh). set (obj := new_object tid OBJECT_THREAD 0 (horizon_thread_init tid pid affinity now)).
  eexists (Some o), _. split; [done|]. split; [|done]. apply good_running. apply (good_new_object st1 _ X o obj 0 G1); [|apply new_object_plain|done]. split; [done|done|by split|done|done|done|done|done].
Qed.

Lemma conn_free_new st X c conn' : server_inv st X -> ws_conns st !! c = None -> conn_free st c conn'.
Proof.
  intros I Hc. split; [|congruence]. destruct (ws_frames st !! c) as [f|] eqn:Hf; [|done]. destruct (fo_conn _ _ _ (si_frames _ _ I c f Hf)) as (conn & Hconn & _). congruence.
Qed.

Lemma init_first_safe st c conn pid affinity now : good st [] -> ws_conns st !! c = Some conn -> ws_frames st !! c = None -> cn_tid conn = 0 -> cn_thread conn = None -> safe (horizon_server_handle_init_first_thread st c pid affinity now).
Proof.
  intros G Hc Hf Htid Hth. unfold horizon_server_handle_init_first_thread. rewrite Hc. cbn [mbind option_bind cn_thread]. rewrite Hth. pose proof (co_new _ _ (si_conns _ _ (proj1 G)) c conn Hc (or_introl Htid)) as Hw. rewrite Hw. set (p := if 0 <? pid then pid else 1).
  assert (forall st1 X t, good st1 X -> ws_conns st1 = ws_conns st -> ws_frames st1 = ws_frames st -> (forall x, t = Some x -> type_at (ws_objects st1) x = Some OBJECT_THREAD) -> (forall q, occ q (opt_list t) = occ q X) -> good (put_conn st1 c (mk_connection p 4 (cn_direct conn) t None (cn_completion_wait_handle conn))) []) as Hput.
  { intros st1 X t G1 Ec Ef Htt HX. apply (good_put_conn st1 X [] c); [done| | |].
    - split; [by rewrite Ef|]. intros old o Hold. rewrite Ec, Hc in Hold. injection Hold as <-. congruence.
    - split; simpl; [done|done|by intros _|done].
    - intros q. unfold conn_refs_at. rewrite Ec, Hc. unfold connection_refs. simpl. rewrite Hth, Hw. simpl. rewrite app_nil_r, (HX q). change (occ q []) with 0%nat. lia. }
  destruct (alloc_thread_ok st [] 4 p affinity now G) as (r & st1 & -> & G1 & Hr). destruct r as [o|].
  - destruct Hr as (Hnone & Eo & Ec & Ef & _). assert (ws_objects st1 !! o = Some (new_object 4 OBJECT_THREAD 0 (horizon_thread_init 4 p affinity now))) as Ho by (rewrite Eo; apply lookup_insert_eq). rewrite Ho. cbn [mbind option_bind]. apply safe_ret.
    apply (Hput _ [o] (Some o)); [|done|done| |done].
    + apply (good_put_up st1 [] o _ _ G1 Ho); [by split|done| |done|by split]. by apply new_object_payload.
    + intros x [= <-]. unfold type_at. simpl. by rewrite lookup_insert_eq.
  - destruct Hr as [n ->]. apply safe_ret. by apply (Hput _ [] None).
Qed.

Lemma good_created_thread st X o obj suspended is_system : good st X -> ws_objects st !! o = Some obj -> refs_room st 1 -> ts_started (ob_thread obj) = false -> ts_terminated (ob_thread obj) = false ->
  good (put_object st o (o_thread (o_refs obj (u32 (ob_refs obj + 1))) (t_created (ob_thread obj) suspended is_system))) (o :: X).
Proof.
  intros G Ho Hr Hs Ht. destruct (object_payload st X o obj (proj1 G) Ho) as (P1 & P2 & P3 & P4). rewrite (u32_up st X o obj 1 (proj1 G) Ho Hr ltac:(lia)).
  apply (good_put_up st X o obj); [done|done|by split|done| |done|].
  - split; [done|]. split; [done|]. split; [|done]. simpl. congruence.
  - split; [|done|done]. split; [done|]. simpl. by rewrite Hs.
Qed.

(** The connection of a new thread is new, and so are the thread and its handle. *)
Lemma new_thread_ok st X pid tid access affinity now suspended is_system : good st X -> fits st ->
  exists r st', new_thread_locked st pid tid access affinity now suspended is_system = Some (r, st') /\ good st' X /\ refs_room st' 0 /\
    forall c h, r = Some (c, h) -> exists conn, ws_conns st' !! c = Some conn /\ cn_completion_wait conn = None /\ ws_frames st' !! c = None.
Proof.
  intros G F. unfold new_thread_locked. destruct (alloc_thread_ok st X tid pid affinity now G) as (r & st1 & -> & G1 & Hr). destruct r as [o|].
  2:{ destruct Hr as [n ->]. eexists None, _. split; [done|]. split; [done|]. split; [|done]. by apply (refs_room_le _ 256); [apply F|]. }
  destruct Hr as (Hnone & Eo & Ec & Ef & En). set (obj := new_object tid OBJECT_THREAD 0 (horizon_thread_init tid pid affinity now)) in *.
  assert (ws_objects st1 !! o = Some obj) as Ho by (rewrite Eo; apply lookup_insert_eq). assert (refs_room st1 2) as R1.
  { intros p x Hx. rewrite Eo in Hx. destruct (decide (p = o)) as [->|Hne]; [rewrite lookup_insert_eq in Hx; injection Hx as <-; done|]. rewrite lookup_insert_ne in Hx by done. pose proof (ft_refs _ F p x Hx). lia. }
  destruct (create_handle_for_ok st1 X o obj G1) as (r & st2 & -> & G2 & Hc); [split; rewrite En; apply (ft_handles _ F)|by apply (refs_room_le _ 2)|done|]. cbn [mbind option_bind]. destruct r as [e|].
  2:{ destruct Hc as [n ->]. set (st3 := s_running _ _). assert (good st3 X) as G3 by (by apply good_running). destruct (free_ok st3 X o obj (proj1 G3)) as (st4 & -> & I4 & S4); [by apply (refs_room_le _ 2)|done|done|].
    eexists None, st4. split; [done|]. split; [split; [done|by apply (wake_shrinks st3 st4 X nobody nobody I4 S4), G3]|]. split; [|done]. apply (shrinks_room st3 st4 0 S4). by apply (refs_room_le _ 2). }
  pose proof (created_handle _ _ _ _ _ _ Hc) as (Hin & Hen & Ho2). simpl in Ho2. rewrite Ho2. cbn [mbind option_bind].
  assert (refs_room st2 1) as R2. { intros p x Hx. rewrite (cr_objects _ _ _ _ _ _ Hc) in Hx. destruct (decide (p = o)) as [->|Hne]; [rewrite lookup_insert_eq in Hx; injection Hx as <-; done|]. rewrite lookup_insert_ne in Hx by done. pose proof (R1 p x Hx). lia. }
  pose proof (good_created_thread st2 X o (opened obj) suspended is_system G2 Ho2 R2 eq_refl eq_refl) as G3. set (st3 := put_object st2 o _) in *. destruct (good_set_access st3 (o :: X) e _ (horizon_thread_map_access access) G3 Hen) as (st4 & -> & G4 & E4). cbn [mbind option_bind].
  assert (ws_entries st4 !! e = Some (mk_entry (ws_next_handle st1 + 4) (horizon_thread_map_access access) o)) as -> by (rewrite E4; apply lookup_insert_eq). cbn [mbind option_bind]. set (c := fresh (dom (ws_conns st4))).
  assert (ws_conns st4 !! c = None) as Hcn by (apply not_elem_of_dom, is_fresh). pose proof (conn_free_new st4 _ c (Some (mk_connection pid tid false (Some o) None 0)) (proj1 G4) Hcn) as Hfree. eexists _, _. split; [done|]. split; [|split].
  - apply (good_put_conn st4 (o :: X) X c); [done|done| |].
    + split; simpl; [|done|done|done]. intros t [= <-]. rewrite E4. unfold type_at. simpl. by rewrite lookup_insert_eq.
    + intros p. unfold conn_refs_at. rewrite Hcn. unfold connection_refs. simpl. rewrite !occ_cons. change (occ p []) with 0%nat. lia.
  - intros p x Hx. rewrite E4 in Hx. simpl in Hx. destruct (decide (p = o)) as [->|Hne]; [rewrite lookup_insert_eq in Hx; injection Hx as <-; done|]. rewrite lookup_insert_ne in Hx by done. pose proof (R2 p x Hx). lia.
  - intros c' h [= <- _]. eexists. simpl. rewrite lookup_insert_eq. split; [done|]. split; [done|]. apply Hfree.
Qed.

Lemma new_thread_safe st conn access affinity now suspended is_system : good st [] -> fits st -> safe (horizon_server_handle_new_thread st conn access affinity now suspended is_system).
Proof.
  intros G F. unfold horizon_server_handle_new_thread. cbn [ws_alloc fst snd]. set (st1 := s_allocs st (S (ws_allocs st))). assert (good st1 []) as G1 by (by apply good_alloc). destruct (negb _); [by apply safe_ret|].
  set (tid := u32 _). assert (fits (s_next_tid st1 tid)) as F1 by (destruct F as [F1 F2 F3]; by split). destruct (new_thread_ok (s_next_tid st1 tid) [] (cn_pid conn) tid access affinity now suspended is_system (good_next_tid _ _ _ G1) F1) as (r & st2 & -> & G2 & R2 & Hr).
  cbn [mbind option_bind]. destruct r as [[c h]|]; [|by apply safe_ret]. destruct (Hr c h eq_refl) as (cc & Hcc & Hw & Hf). cbn [outside fst snd]. set (st3 := s_called st2 _ _). assert (good st3 []) as G3 by (exact (good_outside st2 [] Call_pthread_create G2)).
  destruct (nonzero _); [|by apply safe_ret]. destruct (end_thread_ok st3 [] c cc now G3 R2 Hcc Hf) as (st4 & c4 & -> & G4 & [E1 E2 E3 E4 E5 E6] & Ht4); [congruence|]. cbn [mbind option_bind].
  destruct (close_handle_ok st4 [] h [] G4 E6) as (s & st5 & -> & G5 & Ec5 & Ef5). cbn [mbind option_bind]. apply safe_ret. assert (ws_conns st5 !! c = Some c4) as Hc5 by (rewrite Ec5, E1; apply lookup_insert_eq).
  pose proof (good_delete_conn st5 [] c G5) as G6. unfold conn_refs_at in G6. rewrite Hc5 in G6. unfold connection_refs in G6. rewrite E4, Ht4 in G6. apply G6. split.
  - destruct (ws_frames st5 !! c) as [f|] eqn:E; [|done]. destruct (E5 c (Ef5 c (ex_intro _ f E))) as [x Hx]. simpl in Hx. congruence.
  - intros old o Hold. rewrite Hc5 in Hold. injection Hold as <-. congruence.
Qed.

(** ** Requests on threads *)

Lemma payload_thread obj t : payload_ok obj -> (ts_terminated t = true -> ts_suspend t = 0) -> payload_ok (o_thread obj t).
Proof. intros (P1 & P2 & P3 & P4) Ht. split; [done|]. split; [done|]. by split. Qed.

Lemma good_put_thread st X o obj t : good st X -> ws_objects st !! o = Some obj -> ts_terminated t = ts_terminated (ob_thread obj) -> (ts_terminated t = true -> ts_suspend t = 0) ->
  (ts_started (ob_thread obj) && nonzero (ts_suspend (ob_thread obj)) = false -> ts_started t && nonzero (ts_suspend t) = false) -> good (put_object st o (o_thread obj t)) X.
Proof.
  intros G Ho Ht Hs Hq. apply (good_put_quiet st X o obj); [done|done|by split|apply payload_thread; [exact (object_payload st X o obj (proj1 G) Ho)|done]|done|]. split; [by split|done|]. intros objs tid. unfold object_signals. simpl. by rewrite Ht.
Qed.

(** A change everybody is told of. *)
Lemma thread_changed st X o obj t : good st X -> ws_objects st !! o = Some obj -> (ts_terminated t = true -> ts_suspend t = 0) -> exists st', horizon_server_signal_changed_locked (put_object st o (o_thread obj t)) = Some st' /\ good st' X.
Proof.
  intros G Ho Ht. assert (server_inv (put_object st o (o_thread obj t)) X) as I by (apply (inv_put_payload st X o obj); [apply G|done|by split|apply payload_thread; [exact (object_payload st X o obj (proj1 G) Ho)|done]|done]).
  destruct (signal_changed_ok _ X I) as (st' & E & I' & _ & _ & W). by exists st'.
Qed.

Lemma get_thread_ok st X c conn h : server_inv st X -> ws_conns st !! c = Some conn -> exists s r, horizon_server_get_thread_locked st (Some c) h = Some (s, r) /\ forall o, r = Some o -> exists obj, ws_objects st !! o = Some obj /\ ob_type obj = OBJECT_THREAD.
Proof.
  intros I Hc. unfold horizon_server_get_thread_locked. destruct (_ =? _).
  - eexists _, _. split; [done|]. intros o. unfold current_thread. simpl. rewrite Hc. simpl. intros Ht. by apply (conn_thread_object st X c conn o).
  - destruct (find_typed_ok st X h OBJECT_THREAD I) as (s & r & E & Hr). exists s, r. split; [done|]. intros o Ho. destruct (Hr o Ho) as (_ & _ & obj & _ & _ & _ & _ & H1 & H2). by exists obj.
Qed.

Lemma resume_safe st c conn h : good st [] -> ws_conns st !! c = Some conn -> safe (horizon_server_handle_resume_thread st (Some c) h).
Proof.
  intros G Hc. unfold horizon_server_handle_resume_thread, with_thread. destruct (get_thread_ok st [] c conn h (proj1 G) Hc) as (s & r & -> & Hr). cbn [mbind option_bind]. destruct r as [o|].
  - destruct (Hr o eq_refl) as (obj & Ho & _). rewrite Ho. unfold horizon_thread_resume. cbn [mbind option_bind]. destruct (object_payload st [] o obj (proj1 G) Ho) as (_ & _ & P3 & _).
    set (t := if nonzero (ts_suspend (ob_thread obj)) then t_with_suspend (ob_thread obj) (ts_suspend (ob_thread obj) - 1) else ob_thread obj).
    destruct (thread_changed st [] o obj t G Ho) as (st' & E & G').
    + unfold t. destruct (nonzero _) eqn:En; [|done]. simpl. intros H. apply nonzero_spec in En. by rewrite P3 in En.
    + rewrite E. by apply safe_ret.
  - cbn [mbind option_bind]. destruct (signal_changed_ok st [] (proj1 G)) as (st' & -> & I' & _ & _ & W). by apply safe_ret.
Qed.

Lemma suspend_safe st c conn h : good st [] -> ws_conns st !! c = Some conn -> safe (horizon_server_handle_suspend_thread st (Some c) h).
Proof.
  intros G Hc. unfold horizon_server_handle_suspend_thread, with_thread. destruct (get_thread_ok st [] c conn h (proj1 G) Hc) as (s & r & -> & Hr). cbn [mbind option_bind]. destruct r as [o|].
  - destruct (Hr o eq_refl) as (obj & Ho & _). rewrite Ho. cbn [mbind option_bind]. destruct (object_payload st [] o obj (proj1 G) Ho) as (_ & _ & P3 & _). unfold horizon_thread_suspend.
    destruct (ts_terminated (ob_thread obj)) eqn:Et; [|destruct (_ <=? _)]; cbn [mbind option_bind].
    + apply safe_ret. apply good_put_thread; [done|done|done|intros _; by apply P3|done].
    + apply safe_ret. apply good_put_thread; [done|done|done|congruence|done].
    + change (nonzero 0) with false. cbv iota. destruct (thread_changed st [] o obj (t_with_suspend (ob_thread obj) (ts_suspend (ob_thread obj) + 1)) G Ho) as (st' & -> & G'); [simpl; congruence|]. by apply safe_ret.
  - cbn [mbind option_bind]. destruct (nonzero s); [by apply safe_ret|]. destruct (signal_changed_ok st [] (proj1 G)) as (st' & -> & I' & _ & _ & W). by apply safe_ret.
Qed.

Lemma with_thread_safe st c conn h none f : good st [] -> ws_conns st !! c = Some conn -> (forall o obj, ws_objects st !! o = Some obj -> ob_type obj = OBJECT_THREAD -> safe (f o obj)) -> safe (with_thread st (Some c) h none f).
Proof.
  intros G Hc Hf. unfold with_thread. destruct (get_thread_ok st [] c conn h (proj1 G) Hc) as (s & r & -> & Hr). cbn [mbind option_bind]. destruct r as [o|]; [|by apply safe_ret]. destruct (Hr o eq_refl) as (obj & Ho & Ht). rewrite Ho. by apply Hf.
Qed.

Lemma terminate_safe st c conn h code : good st [] -> ws_conns st !! c = Some conn -> safe (horizon_server_handle_terminate_thread st (Some c) h code).
Proof.
  intros G Hc. apply (with_thread_safe st c conn); [done|done|]. intros o obj Ho _. destruct (decide _); [|by apply safe_ret]. apply safe_ret. destruct (object_payload st [] o obj (proj1 G) Ho) as (_ & _ & P3 & _).
  unfold horizon_thread_set_exit_code. destruct (ts_terminated (ob_thread obj)) eqn:E; simpl; apply good_put_thread; try done; [by rewrite E|]. simpl. congruence.
Qed.

Lemma init_enter_safe st c conn teb entry : good st [] -> ws_conns st !! c = Some conn -> safe (done (init_thread_enter st c teb entry) []).
Proof.
  intros G Hc. apply safe_done. unfold init_thread_enter. rewrite Hc. cbn [mbind option_bind]. destruct (cn_thread conn) as [o|] eqn:Ht; [|by exists st]. destruct (conn_thread_object st [] c conn o (proj1 G) Hc Ht) as (obj & Ho & _). rewrite Ho. cbn [mbind option_bind].
  eexists. split; [done|]. destruct (object_payload st [] o obj (proj1 G) Ho) as (_ & _ & P3 & _). by apply good_put_thread.
Qed.

Lemma start_gate_ok st c conn : good st [] -> ws_conns st !! c = Some conn -> safe (init_thread_turn st c).
Proof.
  intros G Hc. unfold init_thread_turn. rewrite Hc. cbn [mbind option_bind]. destruct (cn_thread conn) as [o|] eqn:Ht; [|by apply safe_ret]. destruct (conn_thread_object st [] c conn o (proj1 G) Hc Ht) as (obj & Ho & _). rewrite Ho. cbn [mbind option_bind].
  destruct (object_payload st [] o obj (proj1 G) Ho) as (_ & _ & P3 & _). unfold horizon_thread_may_start. destruct (_ || _) eqn:E; [|by apply safe_ret]. apply safe_ret. apply good_put_thread; [done|done|done|done|]. intros _. simpl.
  apply orb_prop in E as [E|E]; [by apply negb_true_iff in E|]. by rewrite (P3 E).
Qed.

Lemma find_thread_ok st X l p : server_inv st X -> (forall o, o ∈ l -> o ∈ ws_threads st) -> exists r, find_thread st l p = Some r /\ forall o, r = Some o -> exists obj, ws_objects st !! o = Some obj /\ ob_type obj = OBJECT_THREAD.
Proof.
  intros I. induction l as [|o l IH]; intros Hl; [by exists None|]. simpl. pose proof (proj1 (lo_thread _ _ _ (si_lists _ _ I) o) (Hl o (list_elem_of_here _ _))) as Ht. unfold type_at in Ht. destruct (ws_objects st !! o) as [obj|] eqn:Ho; [|done]. injection Ht as Ht. simpl.
  destruct (p (ob_thread obj)); [|apply IH; set_solver]. exists (Some o). split; [done|]. intros o' [= <-]. by exists obj.
Qed.

Lemma thread_handle_safe st o obj access : good st [] -> fits st -> ws_objects st !! o = Some obj -> safe (thread_handle st o access).
Proof.
  intros G F Ho. unfold thread_handle. destruct (create_handle_for_ok st [] o obj G (ft_handles _ F) (refs_room_le _ _ 1 (ft_refs _ F) ltac:(lia)) Ho) as (r & st' & -> & G' & Hc). cbn [mbind option_bind]. destruct r as [e|]; [|by apply safe_ret].
  destruct (good_set_access st' [] e _ (horizon_thread_map_access access) G' (cr_entry _ _ _ _ _ _ Hc)) as (st2 & -> & G2 & ->). cbn [mbind option_bind ws_entries s_entries]. rewrite lookup_insert_eq. by apply safe_ret.
Qed.

Lemma open_thread_safe st tid access : good st [] -> fits st -> safe (horizon_server_handle_open_thread st tid access).
Proof.
  intros G F. unfold horizon_server_handle_open_thread. destruct (find_thread_ok st [] (ws_threads st) (fun t => ts_tid t =? tid) (proj1 G)) as (r & -> & Hr); [done|]. cbn [mbind option_bind]. destruct r as [o|]; [|by apply safe_ret]. destruct (Hr o eq_refl) as (obj & Ho & _). by apply (thread_handle_safe st o obj).
Qed.

Lemma next_thread_ok st X l pid down last next : server_inv st X -> (forall o, o ∈ l -> o ∈ ws_threads st) -> (forall o n, next = Some (o, n) -> is_Some (ws_objects st !! o)) ->
  exists r, next_thread st l pid down last next = Some r /\ forall o n, r = Some (o, n) -> is_Some (ws_objects st !! o).
Proof.
  intros I. revert next. induction l as [|o l IH]; intros next Hl Hn; [by exists next|]. simpl. pose proof (proj1 (lo_thread _ _ _ (si_lists _ _ I) o) (Hl o (list_elem_of_here _ _))) as Ht. unfold type_at in Ht. destruct (ws_objects st !! o) as [obj|] eqn:Ho; [|done]. simpl.
  apply IH; [set_solver|]. intros o' n. match goal with |- (if ?b then _ else _) = _ -> _ => destruct b end; [|apply Hn]. intros [= <- _]. by eexists.
Qed.

Lemma get_next_thread_safe st c conn process last flags access : good st [] -> fits st -> ws_conns st !! c = Some conn -> safe (horizon_server_handle_get_next_thread st c conn process last flags access).
Proof.
  intros G F Hc. unfold horizon_server_handle_get_next_thread. destruct (1 <? flags); [by apply safe_ret|].
  assert (exists s r, (if process =? HORIZON_CURRENT_PROCESS_HANDLE then Some (HORIZON_STATUS_SUCCESS, None) else horizon_server_find_typed_object_locked st process OBJECT_PROCESS) = Some (s, r)) as (s & r & ->).
  { destruct (_ =? _); [by eexists _, _|]. destruct (find_typed_ok st [] process OBJECT_PROCESS (proj1 G)) as (s & r & -> & _). by eexists _, _. }
  cbn [mbind option_bind]. destruct (nonzero s); [by apply safe_ret|].
  assert (exists s start, (if last =? 0 then Some (HORIZON_STATUS_SUCCESS, Some (if nonzero flags then UINT_MAX else 0)) else '(status, thread) ← horizon_server_get_thread_locked st (Some c) last; match thread with None => Some (status, None) | Some o => obj ← ws_objects st !! o; Some (status, Some (ts_tid (ob_thread obj))) end) = Some (s, start)) as (s2 & start & ->).
  { destruct (last =? 0); [by eexists _, _|]. destruct (get_thread_ok st [] c conn last (proj1 G) Hc) as (s2 & r2 & -> & Hr2). cbn [mbind option_bind]. destruct r2 as [o|]; [|by eexists _, _]. destruct (Hr2 o eq_refl) as (obj & Ho & _). rewrite Ho. by eexists _, _. }
  cbn [mbind option_bind]. destruct start as [start|]; [|by apply safe_ret]. destruct (next_thread_ok st [] (ws_threads st) (cn_pid conn) (nonzero flags) start None (proj1 G)) as (n & -> & Hn); [done|done|]. cbn [mbind option_bind].
  destruct n as [[o n]|]; [|by apply safe_ret]. destruct (Hn o n eq_refl) as [obj Ho]. by apply (thread_handle_safe st o obj).
Qed.
