(* ===== verification/ServerParts.v ===== *)
(** * User APCs, direct calls, and what other parts keep *)
From S2P Require Import Prelude Chain Completion Threads ServerObjects ServerSync ServerRequests ServerSelect ServerInv ServerLinks ServerWake ServerKeep ServerHandlers ServerPorts ServerClients.
Local Open Scope Z_scope.

(** ** User APCs *)

(** Who sleeps is in the list of sleeping selects. *)
Lemma wake_finish st X E : server_inv st X -> (forall w, E w -> w ∉ ws_waiting st) -> wake_except st nobody E -> wake st.
Proof.
  intros I HE W w f Hw Hs. destruct (W w f Hw Hs) as [A B]. split; [exact A|]. intros _. apply B. intros Hx. apply (HE w Hx). apply (si_waiting _ _ I). exists f. split; [done|]. apply Hs.
Qed.

Definition alertable_of (st : wine_server) (thread x : positive) : Prop :=
  exists conn f, ws_conns st !! x = Some conn /\ ws_frames st !! x = Some f /\ cn_thread conn = Some thread /\ wt_alertable f = true.

Lemma wake_put_apcs st thread obj l : wake st -> ws_objects st !! thread = Some obj -> wake_except (put_object st thread (o_apcs obj l)) nobody (alertable_of st thread).
Proof.
  intros W Ho w f Hw Hs. destruct (W w f Hw Hs) as [A B]. split; [exact A|]. intros Hn. apply (frame_still_mono st _ w f f); [apply B; by intros []|done|done|done|done|done| | |done].
  - intros conn i lk Hc Hl. by apply (signals_put (ws_objects st) thread obj (o_apcs obj l)).
  - intros conn t y Hc Hth Hy. simpl in Hy. destruct (decide (t = thread)) as [->|Hne]; [|rewrite lookup_insert_ne in Hy by done; by exists y].
    rewrite lookup_insert_eq in Hy. injection Hy as <-. exists obj. split; [done|]. split; [|done]. intros Ha. exfalso. apply Hn. by exists conn, f.
Qed.

Lemma queue_user_apc_ok st X thread obj call : good st X -> ws_objects st !! thread = Some obj -> exists s st', horizon_server_queue_user_apc_locked st thread call = Some (s, st') /\ good st' X /\
  (forall p q, ws_objects st !! p = Some q -> exists q', ws_objects st' !! p = Some q' /\ ob_completion q' = ob_completion q).
Proof.
  intros G Ho. unfold horizon_server_queue_user_apc_locked. destruct (_ || _); [eexists _, st; split; [done|]; split; [done|]; intros p q Hq; by exists q|]. cbn [ws_alloc fst snd]. set (st1 := s_allocs st (S (ws_allocs st))). assert (good st1 X) as G1 by (by apply good_alloc).
  destruct (negb _); [eexists _, st1; split; [done|]; split; [done|]; intros p q Hq; by exists q|]. change (ws_objects st1) with (ws_objects st). rewrite Ho. cbn [mbind option_bind]. set (st2 := put_object st1 thread (o_apcs obj (ob_apcs obj ++ [call]))).
  assert (server_inv st2 X) as I2 by (apply (inv_put_payload st1 X thread obj); [apply G1|done|by split|exact (object_payload st X thread obj (proj1 G) Ho)|done]).
  destruct (notify_alertable_ok (ws_waiting st2) st2 X thread I2) as (st' & E & I' & C & Eo & HW). { intros w Hw. destruct (proj1 (proj2 (si_waiting _ _ I2) w) Hw) as (f & Hf & _). by eexists. }
  rewrite E. cbn [mbind option_bind]. eexists _, st'. split; [done|]. split.
  - split; [done|]. eapply (wake_finish st' X); [done| |apply (HW nobody (alertable_of st1 thread)), wake_put_apcs; [apply G1|done]].
    intros w [Ha Hn] Hin. apply Hn. split; [by rewrite <- (ca_waiting _ _ C)|exact Ha].
  - intros p q Hq. rewrite Eo. simpl. destruct (decide (p = thread)) as [->|Hne]; [rewrite lookup_insert_eq; rewrite Ho in Hq; injection Hq as <-; by eexists|rewrite lookup_insert_ne by done; by exists q].
Qed.

Lemma queue_apc_safe st c conn h data : good st [] -> ws_conns st !! c = Some conn -> safe (horizon_server_handle_queue_apc st (Some c) h data).
Proof.
  intros G Hc. apply (with_thread_safe st c conn); [done|done|]. intros o obj Ho _. destruct (bool_decide (data = [])); [by apply safe_ret|]. destruct (queue_user_apc_ok st [] o obj data G Ho) as (s & st' & -> & G' & _). by apply safe_ret.
Qed.

(** ** References of other parts *)

Lemma good_held_in st X o : good st (o :: X) -> good (s_held st (o :: ws_held st)) X.
Proof.
  intros [I W]. split; [|exact W]. apply (inv_change_objects st _ (o :: X) X I); [by split| |apply I|apply I|apply I|intros p _ x Hx; by exists x].
  apply (refs_ok_occ _ (server_refs st ++ o :: X)); [|apply I]. intros p. rewrite !occ_app, !occ_server. simpl. rewrite !occ_cons. lia.
Qed.

Lemma good_held_out st X o : good st X -> o ∈ ws_held st -> good (s_held st (unlink_from o (ws_held st))) (o :: X).
Proof.
  intros [I W] Ho. split; [|exact W]. apply (inv_change_objects st _ X (o :: X) I); [by split| |apply I|apply I|apply I|intros p _ x Hx; by exists x].
  apply (refs_ok_occ _ (server_refs st ++ X)); [|apply I]. intros p. rewrite !occ_app, !occ_server. simpl. rewrite occ_cons. pose proof (unlink_from_occ o (ws_held st) p Ho). lia.
Qed.

Lemma let_go_ok st X o : good st X -> o ∈ ws_held st -> refs_room st 0 -> exists st', let_go st o = Some st' /\ good st' X.
Proof.
  intros G Ho Hr. unfold let_go. destruct (drop_good (s_held st (unlink_from o (ws_held st))) X (Some o) (good_held_out st X o G Ho) Hr) as (st' & E & G' & _). by exists st'.
Qed.

Lemma hold_ok st X o obj : good st X -> ws_objects st !! o = Some obj -> refs_room st 1 -> good (hold st o obj) X.
Proof. intros G Ho Hr. unfold hold. apply (good_held_in (put_object st o (o_refs obj (u32 (ob_refs obj + 1)))) X o). by apply good_ref_up. Qed.

Lemma put_same st o obj : ws_objects st !! o = Some obj -> put_object st o obj = st.
Proof. intros Ho. unfold put_object, s_objects. rewrite insert_id by done. by destruct st. Qed.

Lemma hold_reset_ok st X o obj : good st X -> ws_objects st !! o = Some obj -> refs_room st 1 -> good (hold st o (o_signaled obj false)) X.
Proof.
  intros G Ho Hr. assert (hold st o (o_signaled obj false) = hold (put_object st o (o_signaled obj false)) o (o_signaled obj false)) as -> by (unfold hold, put_object, s_held, s_objects; simpl; by rewrite insert_insert_eq).
  apply hold_ok; [by apply good_unsignal|apply lookup_insert_eq|]. apply (refs_room_put st 1 0 o obj _ Hr Ho); [lia|simpl; lia].
Qed.

Lemma registry_notification_safe st h pending : good st [] -> fits st -> safe (registry_notification st h pending).
Proof.
  intros G F. unfold registry_notification. destruct (find_handle_ok st [] h (proj1 G)) as (r & -> & Hr). cbn [mbind option_bind]. destruct r as [e|]; [|by apply safe_ret]. destruct Hr as (He & _). destruct (entry_ok st [] e (proj1 G) He) as (en & obj & -> & _ & Ho). cbn [mbind option_bind].
  destruct (negb _); [by apply safe_ret|]. destruct pending; [|by apply safe_ret]. apply safe_ret. apply hold_reset_ok; [done|done|]. by apply (refs_room_le _ 256); [apply F|].
Qed.

Lemma held_object st X o : server_inv st X -> o ∈ ws_held st -> exists obj, ws_objects st !! o = Some obj.
Proof. intros I Ho. destruct (ro_there _ _ (si_refs _ _ I) o) as [obj Hx]; [|by exists obj]. apply elem_of_app. left. unfold server_refs. rewrite !elem_of_app. tauto. Qed.

Lemma registry_signal_ok st event : good st [] -> fits st -> event ∈ ws_held st -> exists st', horizon_registry_signal st event = Some st' /\ good st' [].
Proof.
  intros G F Hh. unfold horizon_registry_signal. destruct (held_object st [] event (proj1 G) Hh) as [obj Ho]. rewrite Ho. cbn [mbind option_bind].
  assert (server_inv (put_object st event (o_signaled obj true)) []) as I1 by (apply (inv_put_payload st [] event obj); [apply G|done|by split|exact (object_payload st [] event obj (proj1 G) Ho)|done]).
  destruct (signal_changed_ok _ [] I1) as (st2 & -> & I2 & C & _ & W2). cbn [mbind option_bind]. apply let_go_ok; [done|by rewrite (ca_held _ _ C)|]. apply (calm_room _ _ 0 C).
  apply (refs_room_put st 0 0 event obj _ (refs_room_le _ _ 0 (ft_refs _ F) ltac:(lia)) Ho); [lia|simpl; lia].
Qed.

Lemma async_new_ok st sock event : good st [] -> fits st -> exists st1 st', async_new_port st sock = Some st1 /\ async_new_event st1 event = Some st' /\ good st' [].
Proof.
  intros G F. assert (exists st1, async_new_port st sock = Some st1 /\ good st1 []) as (st1 & E1 & G1).
  { unfold async_new_port. destruct (find_typed_ok st [] sock OBJECT_SOCK (proj1 G)) as (s & r & -> & Hr). cbn [mbind option_bind]. destruct r as [o|]; [|by exists st]. destruct (Hr o eq_refl) as (_ & _ & obj & _ & _ & _ & _ & Ho & _). rewrite Ho. cbn [mbind option_bind].
    destruct (ob_file_completion obj) as [port|] eqn:Hp; [|by exists st]. destruct (oo_file _ _ (si_objects _ _ (proj1 G) o obj Ho) port Hp) as [_ Ht]. unfold type_at in Ht. destruct (ws_objects st !! port) as [p|] eqn:Hport; [|done]. cbn [mbind option_bind].
    eexists. split; [done|]. apply hold_ok; [done|done|]. by apply (refs_room_le _ 256); [apply F|]. }
  exists st1. rewrite E1. unfold async_new_event. destruct (event =? 0); [by exists st1|]. destruct (find_handle_ok st1 [] event (proj1 G1)) as (r & -> & Hr). cbn [mbind option_bind]. destruct r as [e|]; [|by exists st1]. destruct Hr as (He & _).
  destruct (entry_ok st1 [] e (proj1 G1) He) as (en & obj & -> & _ & Ho). cbn [mbind option_bind]. eexists. split; [done|]. split; [done|]. destruct (decide _); [by apply good_unsignal|done].
Qed.

Lemma async_finish_ok st apc post event : good st [] -> fits st -> (forall port m, post = Some (port, m) -> port ∈ ws_held st) -> exists st', horizon_async_finish_locked st apc post event = Some st' /\ good st' [].
Proof.
  intros G F Hpost. unfold horizon_async_finish_locked.
  assert (exists st1, match apc with None => Some st | Some (tid, call) => found ← find_thread st (ws_threads st) (fun t => ts_tid t =? tid); match found with None => Some st | Some o => '(_, st) ← horizon_server_queue_user_apc_locked st o call; Some st end end = Some st1 /\ good st1 [] /\
    (forall p q, ws_objects st !! p = Some q -> exists q', ws_objects st1 !! p = Some q' /\ ob_completion q' = ob_completion q)) as (st1 & -> & G1 & K1).
  { destruct apc as [[tid call]|]; [|exists st; split; [done|]; split; [done|]; intros p q Hq; by exists q]. destruct (find_thread_ok st [] (ws_threads st) (fun t => ts_tid t =? tid) (proj1 G)) as (r & -> & Hr); [done|]. cbn [mbind option_bind].
    destruct r as [o|]; [|exists st; split; [done|]; split; [done|]; intros p q Hq; by exists q]. destruct (Hr o eq_refl) as (obj & Ho & _). destruct (queue_user_apc_ok st [] o obj call G Ho) as (s & st' & -> & G' & K). by exists st'. }
  cbn [mbind option_bind].
  assert (exists st2, match post with None => Some st1 | Some (port, (key, value, status, total)) => horizon_server_post_completion_locked st1 port key value status total end = Some st2 /\ good st2 []) as (st2 & -> & G2).
  { destruct post as [[port [[[key value] status] total]]|]; [|by exists st1]. destruct (held_object st [] port (proj1 G) (Hpost _ _ eq_refl)) as [p Hp]. destruct (K1 port p Hp) as (p' & Hp' & Eq). apply (post_completion_ok st1 [] port p'); [done|done|]. rewrite Eq. by apply (ft_depths _ F port). }
  cbn [mbind option_bind]. destruct event as [h|]; [|by exists st2]. destruct (find_handle_ok st2 [] h (proj1 G2)) as (r & -> & Hr). cbn [mbind option_bind]. destruct r as [e|]; [|by exists st2]. destruct Hr as (He & _).
  destruct (entry_ok st2 [] e (proj1 G2) He) as (en & obj & -> & _ & Ho). cbn [mbind option_bind]. destruct (decide _); [|by exists st2]. destruct (set_signaled_ok st2 [] _ obj G2 Ho) as (st' & E & G' & _). by exists st'.
Qed.

Lemma async_free_ok st port : good st [] -> fits st -> (forall p, port = Some p -> p ∈ ws_held st) -> exists st', horizon_server_async_free_locked st port = Some st' /\ good st' [].
Proof. intros G F Hp. destruct port as [p|]; [|by exists st]. apply let_go_ok; [done|by apply Hp|]. by apply (refs_room_le _ 256); [apply F|]. Qed.

Lemma sock_ready_ok st tids : good st [] -> exists st', sock_poll_ready st tids = Some st' /\ good st' [].
Proof. intros G. destruct (make_ready_ok st [] tids G) as (st' & E & G' & _). by exists st'. Qed.

(** ** Direct calls *)

Lemma forget_conn st X c conn : good st X -> refs_room st 0 -> ws_conns st !! c = Some conn -> cn_direct conn = true -> ws_frames st !! c = None ->
  exists st', drop_object (s_conns st (delete c (ws_conns st))) (cn_thread conn) = Some st' /\ good st' X /\ ws_conns st' = delete c (ws_conns st) /\ (forall k, refs_room st k -> refs_room st' k).
Proof.
  intros G Hr Hc Hd Hf. pose proof (co_new _ _ (si_conns _ _ (proj1 G)) c conn Hc (or_intror Hd)) as Hw.
  assert (good (s_conns st (delete c (ws_conns st))) (opt_list (cn_thread conn) ++ X)) as G1.
  { pose proof (good_delete_conn st X c G) as H. unfold conn_refs_at in H. rewrite Hc in H. unfold connection_refs in H. rewrite Hw, app_nil_r in H. apply H. split; [done|]. intros old o Hold. rewrite Hc in Hold. injection Hold as <-. congruence. }
  destruct (drop_good _ X (cn_thread conn) G1 Hr) as (st' & E & G' & S). exists st'. split; [done|]. split; [done|]. split; [by rewrite (sr_conns _ _ (sk_rest _ _ S))|]. intros k Hk. by apply (shrinks_room _ _ k S).
Qed.

Lemma sync_find_ok st c tid : good st [] -> refs_room st 1 -> ws_conns st !! c = None -> safe (sync_find st c tid).
Proof.
  intros G Hr Hc. unfold sync_find. destruct (find_thread_ok st [] (ws_threads st) (fun t => (ts_tid t =? tid) && negb (ts_terminated t)) (proj1 G)) as (r & -> & Hfind); [done|]. cbn [mbind option_bind]. destruct r as [o|]; [|by apply safe_ret].
  destruct (Hfind o eq_refl) as (obj & Ho & Ht). cbn [ws_alloc fst snd]. set (st1 := s_allocs st (S (ws_allocs st))). assert (good st1 []) as G1 by (by apply good_alloc). destruct (negb _); [by apply safe_ret|]. change (ws_objects st1) with (ws_objects st). rewrite Ho. cbn [mbind option_bind]. apply safe_ret.
  pose proof (good_ref_up st1 [] o obj G1 Ho Hr) as G2. set (st2 := put_object st1 o _) in *. apply (good_put_conn st2 [o] [] c); [done|by apply (conn_free_new st2 [o] c _ (proj1 G2))| |].
  - split; simpl; [|done|done|done]. intros t [= <-]. unfold type_at. simpl. rewrite lookup_insert_eq. simpl. by rewrite Ht.
  - intros p. unfold conn_refs_at. change (ws_conns st2) with (ws_conns st). rewrite Hc. unfold connection_refs. simpl. rewrite !occ_cons. change (occ p []) with 0%nat. lia.
Qed.

Lemma sync_get_thread_ok st c tid : good st [] -> fits st -> ws_frames st !! c = None -> (forall conn, ws_conns st !! c = Some conn -> cn_direct conn = true) -> safe (horizon_sync_get_thread_locked st c tid).
Proof.
  intros G F Hf Hd. unfold horizon_sync_get_thread_locked.
  assert (exists k, match ws_conns st !! c with None => Some None | Some conn => match cn_thread conn with None => Some None | Some o => obj ← ws_objects st !! o; Some (if ts_tid (ob_thread obj) =? tid then Some (o, obj) else None) end end = Some k) as (k & ->).
  { destruct (ws_conns st !! c) as [conn|] eqn:Hc; [|by eexists]. destruct (cn_thread conn) as [o|] eqn:Ht; [|by eexists]. destruct (conn_thread_object st [] c conn o (proj1 G) Hc Ht) as (obj & -> & _). by eexists. }
  cbn [mbind option_bind]. destruct k as [[o obj]|]; [by apply safe_ret|]. unfold sync_forget. destruct (ws_conns st !! c) as [conn|] eqn:Hc.
  - cbn [ws_alloc fst snd]. set (st1 := s_allocs st (S (ws_allocs st))). assert (good st1 []) as G1 by (by apply good_alloc). destruct (negb _); [by apply safe_ret|].
    destruct (forget_conn st1 [] c conn G1 (refs_room_le st1 256 0 (ft_refs _ F) ltac:(lia)) Hc (Hd conn eq_refl) Hf) as (st2 & E & G2 & Ec & Hroom). change (ws_conns st) with (ws_conns st1). rewrite E. cbn [mbind option_bind].
    apply sync_find_ok; [done|apply Hroom, (refs_room_le st1 256 1 (ft_refs _ F)); lia|]. rewrite Ec. apply lookup_delete_eq.
  - cbn [mbind option_bind]. apply sync_find_ok; [done|by apply (refs_room_le _ 256); [apply F|]|done].
Qed.

Lemma release_thread_ok st c conn : good st [] -> fits st -> ws_conns st !! c = Some conn -> cn_direct conn = true -> ws_frames st !! c = None -> exists st', horizon_sync_release_thread st c = Some st' /\ good st' [].
Proof.
  intros G F Hc Hd Hf. unfold horizon_sync_release_thread. rewrite Hc. cbn [mbind option_bind]. destruct (forget_conn st [] c conn G (refs_room_le _ _ 0 (ft_refs _ F) ltac:(lia)) Hc Hd Hf) as (st' & E & G' & _). by exists st'.
Qed.

(** ** Sections and their views *)

Lemma shared_file_ok st fd : good st [] -> exists r st', shared_file_object st fd = (r, st') /\
  match r with
  | None => good st' []
  | Some o => good st' [o] /\ ws_objects st !! o = None /\ (exists obj, ws_objects st' = <[o := obj]> (ws_objects st) /\ ob_type obj = OBJECT_FILE /\ ob_refs obj = 1 /\ cq_depth (ob_completion obj) = 0) /\
      ws_next_handle st' = ws_next_handle st /\ ws_handles st' = ws_handles st /\ ws_entries st' = ws_entries st
  end.
Proof.
  intros G. unfold shared_file_object. cbn [ws_alloc fst snd]. set (st1 := s_allocs st (S (ws_allocs st))). assert (good st1 []) as G1 by (by apply good_alloc). destruct (negb _); [eexists None, _; split; [done|by apply good_outside]|].
  set (o := fresh (dom (ws_objects st1))). assert (ws_objects st1 !! o = None) as Ho by (apply not_elem_of_dom, is_fresh). eexists (Some o), _. split; [done|]. set (obj := o_file _ _).
  split; [|split; [done|]; split; [by exists obj|done]]. apply (good_new_object st1 _ [] o obj 1 G1); [|apply new_object_plain|done]. by split; [|done|split|..].
Qed.

(** The new section takes the shared file over. *)
Lemma good_put_mapping st X o obj f image shared : good st (opt_list shared ++ X) -> ws_objects st !! o = Some obj -> ob_type obj = OBJECT_MAPPING -> plain obj -> (forall p, shared = Some p -> type_at (ws_objects st) p = Some OBJECT_FILE) ->
  good (put_object st o (o_mapping obj f image shared)) X.
Proof.
  intros [I W] Ho Ht Hpl Hsh. destruct (si_objects _ _ I o obj Ho) as [A1 A2 A3 A4]. assert (object_refs obj = []) as Hno by apply Hpl. assert (ob_wait_port obj = None /\ ob_file_completion obj = None /\ ob_mapping_shared_file obj = None) as (N1 & N2 & N3).
  { unfold object_refs in Hno. by destruct (ob_wait_port obj), (ob_file_completion obj), (ob_mapping_shared_file obj). }
  split.
  - apply (inv_put_children st (opt_list shared ++ X) X o obj); [done|done|done|done|done|done| | |by left].
    + split; simpl; [congruence|congruence| |done]. intros p Hp. split; [done|]. by apply Hsh.
    + intros p. rewrite Hno. change (object_refs (o_mapping obj f image shared)) with (opt_list (ob_wait_port obj) ++ opt_list (ob_file_completion obj) ++ opt_list shared). rewrite N1, N2, !occ_app. cbn [opt_list]. change (occ p []) with 0%nat. lia.
  - apply (wake_lonely st _ o obj _ (conj I W) Ho); [apply Hpl|done|done|done|by split].
Qed.

Lemma create_mapping_ok st name fd file_name image shared : good st (opt_list shared) -> fits st ->
  (forall p, shared = Some p -> no_handle st p /\ exists obj, ws_objects st !! p = Some obj /\ ob_type obj = OBJECT_FILE /\ ob_refs obj = 1) -> safe (create_mapping_object st name fd file_name image shared).
Proof.
  intros G F Hsh. unfold create_mapping_object.
  assert (exists s r st1, (if bool_decide (on_name name = []) then '(e, st) ← horizon_server_create_handle_locked st OBJECT_MAPPING; Some (if decide (is_Some e) then HORIZON_STATUS_SUCCESS else HORIZON_STATUS_NO_MEMORY, e, st) else horizon_server_create_named_object_handle_locked st OBJECT_MAPPING name) = Some (s, r, st1) /\
    good st1 (opt_list shared) /\ left_alone st st1 /\ refs_room st1 255 /\ (s = HORIZON_STATUS_SUCCESS -> is_Some r) /\ forall e, r = Some e -> exists en obj, handle_to st1 e en obj /\ ob_type obj = OBJECT_MAPPING /\ (s = HORIZON_STATUS_SUCCESS -> plain obj)) as (s & r & st1 & -> & G1 & Hal & R1 & Hs & He).
  { destruct (bool_decide _).
    - destruct (create_handle_ok st (opt_list shared) OBJECT_MAPPING G (ft_handles _ F)) as (r & st1 & -> & G1 & Hc); [done|]. cbn [mbind option_bind]. destruct r as [e|].
      + destruct Hc as (o & Hnone & Hc). eexists _, (Some e), st1. split; [done|]. split; [done|]. split; [by apply (created_alone _ _ _ _ _ _ Hc); left|]. split.
        { intros p x Hx. rewrite (cr_objects _ _ _ _ _ _ Hc) in Hx. destruct (decide (p = o)) as [->|Hne]; [rewrite lookup_insert_eq in Hx; injection Hx as <-; done|]. rewrite lookup_insert_ne in Hx by done. pose proof (ft_refs _ F p x Hx). lia. }
        split; [by eexists|]. intros e' [= <-]. eexists _, _. split; [by eapply created_handle|]. split; [done|]. intros _. apply new_object_plain.
      + destruct Hc as [n ->]. eexists _, None, _. split; [done|]. split; [done|]. split; [by apply alone_refl|]. split; [by apply (refs_room_le _ 256); [apply F|]|]. done.
    - destruct (create_named_ok st (opt_list shared) OBJECT_MAPPING name G F) as (s & r & st1 & -> & G1 & _ & R1 & Hal & Hs & He); [done|]. exists s, r, st1. split; [done|]. split; [done|]. split; [done|]. split; [done|]. split; [done|].
      intros e Hr. destruct (He e Hr) as (en & obj & H1 & H2 & H3). exists en, obj. split; [done|]. split; [done|]. intros Hx. by apply H3. }
  cbn [mbind option_bind].
  assert (forall p, shared = Some p -> exists obj, ws_objects st1 !! p = Some obj /\ ob_refs obj = 1 /\ type_at (ws_objects st1) p = Some OBJECT_FILE) as Hsh1.
  { intros p Hp. destruct (Hsh p Hp) as (Hno & obj & Ho & Ht & Hr1). rewrite Hp in G1. destruct (inv_ref_there st1 [] p (proj1 G1)) as [x Hx]. pose proof (inv_ref_pos st1 [] p x (proj1 G1) Hx). destruct (Hal p obj x Hno Ho Hx) as [Hle Hty]. exists x. split; [done|]. split; [lia|]. rewrite (type_at_is st1 p x Hx). congruence. }
  set (res := match r with None => Some (0, st1) | Some e => _ end).
  assert (exists h st2, res = Some (h, st2) /\ if s =? HORIZON_STATUS_SUCCESS then good st2 [] else st2 = st1) as (h & st2 & -> & H2).
  { unfold res. destruct r as [e|].
    - destruct (He e eq_refl) as (en & obj & Hh & Ht & Hpl). rewrite (handle_to_object _ _ _ _ Hh). cbn [mbind option_bind]. eexists _, _. split; [done|]. destruct (s =? HORIZON_STATUS_SUCCESS) eqn:Es; [|done].
      apply good_put_mapping; [by rewrite app_nil_r|apply Hh|done|apply Hpl; lia|]. intros p Hp. destruct (Hsh1 p Hp) as (_ & _ & _ & H). exact H.
    - exists 0, st1. split; [done|]. destruct (s =? HORIZON_STATUS_SUCCESS) eqn:Es; [|done]. destruct (Hs ltac:(lia)) as [x Hx]. done. }
  cbn [mbind option_bind]. destruct (s =? HORIZON_STATUS_SUCCESS); [by apply safe_ret|]. subst st2. set (st3 := close_unused st1 fd). assert (good st3 (opt_list shared)) as G3 by (by apply good_close_unused).
  assert (ws_objects st3 = ws_objects st1) as E3 by (unfold st3, close_unused; by destruct (fd =? -1)).
  destruct shared as [p|]; [|by apply safe_ret]. destruct (Hsh1 p eq_refl) as (obj & Ho & Hr1 & _). destruct (free_held st3 [] p obj G3) as (st4 & -> & G4 & _); [by rewrite E3|done| |by apply safe_ret].
  intros q x Hx. rewrite E3 in Hx. pose proof (R1 q x Hx). lia.
Qed.

Lemma create_mapping_safe st name fd file_name image shared_fd : good st [] -> fits st -> safe (create_mapping_end st name fd file_name image shared_fd).
Proof.
  intros G F. unfold create_mapping_end. destruct shared_fd as [sfd|]; [|by apply create_mapping_ok]. destruct (shared_file_ok st sfd G) as (r & st1 & -> & Hr). destruct r as [o|]; [|apply safe_ret; by apply good_close_unused].
  destruct Hr as (G1 & Hnone & (obj & Eo & Ht & Hr1 & Hd) & En & Eh & Ee). apply create_mapping_ok; [done| |].
  - split.
    + intros p x Hx. rewrite Eo in Hx. destruct (decide (p = o)) as [->|Hne]; [rewrite lookup_insert_eq in Hx; injection Hx as <-; lia|]. rewrite lookup_insert_ne in Hx by done. by apply (ft_refs _ F p).
    + unfold handle_room. rewrite En. apply F.
    + intros p x Hx. rewrite Eo in Hx. destruct (decide (p = o)) as [->|Hne]; [rewrite lookup_insert_eq in Hx; injection Hx as <-; lia|]. rewrite lookup_insert_ne in Hx by done. by apply (ft_depths _ F p).
  - intros p [= <-]. split; [|exists obj; rewrite Eo, lookup_insert_eq; done]. intros e en He Hen Heo. rewrite Eh in He. rewrite Ee in Hen. destruct (entry_ok st [] e (proj1 G) He) as (en' & x & _ & Hen' & Hx). rewrite Hen in Hen'. injection Hen' as <-. congruence.
Qed.

Lemma mapping_data_ok st obj : good st [] -> fits st -> exists ok st', mapping_data st obj = (ok, st') /\ good st' [] /\ fits st' /\ ws_objects st' = ws_objects st.
Proof.
  intros G F. unfold mapping_data. destruct (ob_has_image obj); [|by exists true, st]. eexists _, _. split; [reflexivity|]. split; [by apply good_alloc|]. split; [|done]. by destruct F.
Qed.

Lemma mapping_shared_safe st h maps : good st [] -> fits st -> safe (mapping_shared_handle st h maps).
Proof.
  intros G F. unfold mapping_shared_handle. destruct (find_handle_ok st [] h (proj1 G)) as (r & -> & Hr). cbn [mbind option_bind]. destruct r as [e|]; [|by apply safe_ret]. destruct Hr as (He & _). destruct (entry_ok st [] e (proj1 G) He) as (en & obj & -> & _ & Ho). cbn [mbind option_bind].
  destruct (negb _); [by apply safe_ret|]. destruct (mapping_data_ok st obj G F) as (ok & st1 & -> & G1 & F1 & E1). destruct (negb ok); [by apply safe_ret|]. rewrite <- E1 in Ho. clear G F. rename G1 into G, F1 into F.
  destruct maps; [|by apply safe_ret]. destruct (ob_mapping_shared_file obj) as [file|] eqn:Hf; [|by apply safe_ret]. destruct (oo_shared _ _ (si_objects _ _ (proj1 G) _ obj Ho) file Hf) as [_ Ht]. unfold type_at in Ht. destruct (ws_objects st1 !! file) as [x|] eqn:Hx; [|done].
  destruct (create_handle_for_ok st1 [] file x G (ft_handles _ F) (refs_room_le _ _ 1 (ft_refs _ F) ltac:(lia)) Hx) as (r & st' & -> & G' & Hc). cbn [mbind option_bind]. destruct r as [e'|]; [|by apply safe_ret]. rewrite (cr_entry _ _ _ _ _ _ Hc). by apply safe_ret.
Qed.

Lemma take_view_occ p l v l' o : take_view p l = Some (v, l') -> occ o (iv_mapping <$> l) = occ o (iv_mapping v :: (iv_mapping <$> l')).
Proof.
  revert l'. induction l as [|x l IH]; intros l'; [done|]. cbn [take_view]. destruct (p x); [by intros [= -> ->]|]. destruct (take_view p l) as [[y l2]|] eqn:E; [|done]. cbn [mbind option_bind]. intros [= <- <-]. rewrite !fmap_cons, !occ_cons, (IH l2 eq_refl), occ_cons. lia.
Qed.

Lemma good_views st X X' l : good st X -> (forall p, occ p (iv_mapping <$> l) + occ p X' = occ p (iv_mapping <$> ws_views st) + occ p X)%nat -> good (s_views st l) X'.
Proof.
  intros [I W] HX. split; [|exact W]. apply (inv_change_objects st _ X X' I); [by split| |apply I|apply I|apply I|intros p _ x Hx; by exists x].
  apply (refs_ok_occ _ (server_refs st ++ X)); [|apply I]. intros p. specialize (HX p). rewrite !occ_app, !occ_server. simpl. lia.
Qed.

Lemma remove_view_ok st pid base : good st [] -> refs_room st 0 -> exists st', horizon_server_remove_image_view_locked st pid base = Some st' /\ good st' [] /\ (forall k, refs_room st k -> refs_room st' k) /\ (forall o en, ws_entries st !! o = Some en -> ws_entries st' !! o = Some en) /\ ws_handles st' = ws_handles st.
Proof.
  intros G Hr. unfold horizon_server_remove_image_view_locked. destruct (take_view _ _) as [[v l]|] eqn:E; [|by exists st]. destruct (drop_good (s_views st l) [] (Some (iv_mapping v))) as (st' & Ed & G' & S).
  - apply (good_views st []); [done|]. intros p. rewrite (take_view_occ _ _ _ _ p E). simpl. rewrite !occ_cons. change (occ p []) with 0%nat. lia.
  - exact Hr.
  - exists st'. split; [done|]. split; [done|]. split; [intros k Hk; by apply (shrinks_room _ _ k S)|]. rewrite (sr_entries _ _ (sk_rest _ _ S)), (sr_handles _ _ (sk_rest _ _ S)). done.
Qed.

Lemma unmap_view_safe st pid base : good st [] -> fits st -> safe (done (horizon_server_remove_image_view_locked st pid base) []).
Proof. intros G F. apply safe_done. destruct (remove_view_ok st pid base G) as (st' & E & G' & _); [by apply (refs_room_le _ 256); [apply F|]|]. by exists st'. Qed.

Lemma map_view_safe st conn h base : good st [] -> fits st -> safe (horizon_server_handle_map_image_view st conn h base).
Proof.
  intros G F. unfold horizon_server_handle_map_image_view. destruct (find_handle_ok st [] h (proj1 G)) as (r & -> & Hr). cbn [mbind option_bind]. destruct r as [e|]; [|by apply safe_ret]. destruct Hr as (He & _). destruct (entry_ok st [] e (proj1 G) He) as (en & obj & -> & Hen & Ho). cbn [mbind option_bind].
  destruct (_ || _); [by apply safe_ret|]. cbn [ws_alloc fst snd]. set (st1 := s_allocs st (S (ws_allocs st))). assert (good st1 []) as G1 by (by apply good_alloc). destruct (negb _); [by apply safe_ret|].
  destruct (remove_view_ok st1 (cn_pid conn) base G1) as (st2 & -> & G2 & Hroom & Hent & Hhan); [by apply (refs_room_le st1 256 0 (ft_refs _ F))|]. cbn [mbind option_bind].
  destruct (entry_ok st2 [] e (proj1 G2)) as (en2 & obj2 & _ & Hen2 & Ho2); [by rewrite Hhan|]. rewrite (Hent e en Hen) in Hen2. injection Hen2 as <-. rewrite Ho2. cbn [mbind option_bind]. apply safe_ret.
  apply (good_views _ [he_object en]); [apply good_ref_up; [done|done|apply Hroom, (refs_room_le st1 256 1 (ft_refs _ F)); lia]|]. intros p. rewrite fmap_cons, !occ_cons. cbn [ws_views put_object s_objects iv_mapping]. change (occ p []) with 0%nat. lia.
Qed.
