(* ===== verification/ServerTurns.v ===== *)
(** * Turns of a select

    A select that begins, a turn of its loop, and its reply leave the server
    [good]; a select that goes to sleep has nothing to return. *)
From S2P Require Import Prelude Chain Completion Threads ServerObjects ServerSync ServerRequests ServerSelect ServerInv ServerLinks ServerWake ServerKeep ServerHandlers ServerPorts ServerClients ServerParts.
Local Open Scope Z_scope.

(** ** What a select knows of being queued *)

Record tried_ok (f : horizon_sync_waiter) : Prop := {
  to_queued : wt_queued f = true <-> 0 < wt_tried f;
  to_links : wt_queued f = false -> wt_links f = [];
  to_gated : wt_gated f = true -> wt_queued f = false;
}.

Definition frames_tried (st : wine_server) : Prop := forall w f, ws_frames st !! w = Some f -> tried_ok f.

Lemma tried_calm f f' : calm_frame f f' -> tried_ok f -> tried_ok f'.
Proof. intros (-> & _) [H1 H2 H3]. by split. Qed.

(** ** What stays during a turn *)

Record keeps (st st' : wine_server) : Prop := {
  kp_handles : ws_handles st' = ws_handles st;
  kp_entries : ws_entries st' = ws_entries st;
  kp_conns : ws_conns st' = ws_conns st;
  kp_ready : ws_ready st' = ws_ready st;
  kp_objects : forall p obj', ws_objects st' !! p = Some obj' -> exists obj, ws_objects st !! p = Some obj /\ ob_type obj' = ob_type obj /\ ob_thread obj' = ob_thread obj /\ ob_apcs obj' = ob_apcs obj /\ ob_refs obj' <= ob_refs obj;
}.

Lemma keeps_refl st : keeps st st.
Proof. split; try done. intros p obj Ho. exists obj. repeat (split; [done|]). lia. Qed.

Lemma keeps_trans st1 st2 st3 : keeps st1 st2 -> keeps st2 st3 -> keeps st1 st3.
Proof.
  intros [A1 A2 A3 A4 A5] [B1 B2 B3 B4 B5]. split; try congruence. intros p o3 H3. destruct (B5 p o3 H3) as (o2 & H2 & T2 & U2 & V2 & W2). destruct (A5 p o2 H2) as (o1 & H1 & T1 & U1 & V1 & W1). exists o1. split; [done|]. repeat (split; [congruence|]). lia.
Qed.

Lemma keeps_room st st' k : keeps st st' -> refs_room st k -> refs_room st' k.
Proof. intros K Hr p x Hx. destruct (kp_objects _ _ K p x Hx) as (y & Hy & _ & _ & _ & Hle). pose proof (Hr p y Hy). lia. Qed.

Lemma mild_keeps st st' : mild st st' -> keeps st st'.
Proof.
  intros M. split; try apply M. intros p obj' Ho'. destruct (ws_objects st !! p) as [obj|] eqn:Ho; [|by rewrite (mi_dom _ _ M p Ho) in Ho'].
  destruct (mi_objects _ _ M p obj Ho) as (x & Hx & Hs & Ht & Hp). rewrite Ho' in Hx. injection Hx as <-. exists obj. split; [done|]. split; [apply Hs|]. split; [done|]. split; [done|]. rewrite (sh_refs _ _ Hs). lia.
Qed.

Lemma unhooks_keeps st st' w : unhooks st st' w -> keeps st st'.
Proof.
  intros [H1 H2 H3 H4 H5 H6 H7 _ _ _]. split; try done. intros p obj' Ho'. destruct (H1 p obj' Ho') as (obj & Ho & Hpay & Hle). exists obj. split; [done|]. rewrite Hpay. simpl. repeat (split; [done|]). lia.
Qed.

Lemma owned_keeps st st' tid h : keeps st st' -> owned st tid h -> owned st' tid h.
Proof.
  intros K H e en He Hen Hh Ht. rewrite (kp_handles _ _ K) in He. rewrite (kp_entries _ _ K) in Hen. rewrite (kp_conns _ _ K). apply (H e en He Hen Hh). unfold type_at in *. destruct (ws_objects st' !! he_object en) as [x|] eqn:Hx; [|done].
  destruct (kp_objects _ _ K _ x Hx) as (y & -> & Hy & _). simpl in *. by rewrite <- Hy.
Qed.

Lemma mild_tried st st' : mild st st' -> frames_tried st -> frames_tried st'.
Proof.
  intros M T w f' Hf'. destruct (ws_frames st !! w) as [f|] eqn:Hf; [|by rewrite (mi_no_frame _ _ M w Hf) in Hf']. destruct (mi_frames _ _ M w f Hf) as (x & Hx & Hc). rewrite Hf' in Hx. injection Hx as <-. apply (tried_calm f f' Hc). by apply (T w).
Qed.

(** ** A select begins *)

Lemma inv_begin st X c conn f : server_inv st X -> ws_conns st !! c = Some conn -> cn_tid conn <> 0 -> is_Some (cn_thread conn) -> ws_frames st !! c = None -> idle st (cn_tid conn) -> wt_links f = [] -> wt_queued f = false -> server_inv (put_frame st c f) X.
Proof.
  intros I Hc Htid Hth Hf Hidle Hl Hq. destruct I as [R1 R2 R3 R4 R5 R6 R7 R8 [R9 R10]]. split; [|done| |done|done|done| | |].
  - apply (refs_ok_occ _ (server_refs st ++ X)); [|done]. intros p. rewrite !occ_app, !occ_server. simpl. rewrite (occ_bind_map_new waiter_refs _ c f p Hf). unfold waiter_refs at 2. rewrite Hl. simpl. change (occ p []) with 0%nat. lia.
  - intros src obj Ho. destruct (R3 src obj Ho) as [H1 H2]. split; [done|]. intros w i. rewrite H2. simpl. destruct (decide (w = c)) as [->|Hne]; [|by rewrite lookup_insert_ne].
    rewrite lookup_insert_eq, Hf. split; intros (g & [= <-] & Hg). rewrite Hl in Hg. done.
  - intros w g Hg. simpl in Hg. destruct (decide (w = c)) as [->|Hne].
    + rewrite lookup_insert_eq in Hg. injection Hg as <-. split; [|congruence]. exists conn. split; [done|]. split; [done|]. split; [done|]. intros i l. by rewrite Hl.
    + rewrite lookup_insert_ne in Hg by done. destruct (R7 w g Hg) as [(wc & H1 & H2 & H3 & H4) H5]. split; [|done]. exists wc. split; [done|]. split; [done|]. split; [done|]. intros i l Hil. destruct (H4 i l Hil) as [K1 K2 K3]. by split.
  - intros w1 w2 f1 f2 H1 H2 Ht. simpl in H1, H2. change (frame_tid st w1 = frame_tid st w2) in Ht. assert (frame_tid st c = Some (cn_tid conn)) as Hct by (unfold frame_tid; by rewrite Hc).
    destruct (decide (w1 = c)) as [->|N1], (decide (w2 = c)) as [->|N2]; [done|..].
    + rewrite lookup_insert_ne in H2 by done. destruct (Hidle w2 f2 H2). congruence.
    + rewrite lookup_insert_ne in H1 by done. destruct (Hidle w1 f1 H1). congruence.
    + rewrite lookup_insert_ne in H1, H2 by done. by apply (R8 w1 w2 f1 f2).
  - split; [done|]. intros w. simpl. rewrite R10. destruct (decide (w = c)) as [->|Hne]; [|by rewrite lookup_insert_ne]. rewrite lookup_insert_eq, Hf. split; intros (g & [= <-] & Hg). congruence.
Qed.

Lemma begin_good st c conn op alertable timeout contexts : good st [] -> frames_tried st -> ws_conns st !! c = Some conn -> cn_tid conn <> 0 -> is_Some (cn_thread conn) -> ws_frames st !! c = None -> idle st (cn_tid conn) ->
  good (select_begin st c op alertable timeout contexts) [] /\ frames_tried (select_begin st c op alertable timeout contexts).
Proof.
  intros [I W] T Hc Htid Hth Hf Hidle. unfold select_begin. set (f := mk_waiter _ _ _ _ _ _ _ _ _ _ _ _). split; [split|].
  - by apply (inv_begin st [] c conn f).
  - intros w g Hg Hs. simpl in Hg. destruct (decide (w = c)) as [->|Hne]; [rewrite lookup_insert_eq in Hg; injection Hg as <-; by destruct Hs|]. rewrite lookup_insert_ne in Hg by done. by apply (W w g).
  - intros w g Hg. simpl in Hg. destruct (decide (w = c)) as [->|Hne]; [rewrite lookup_insert_eq in Hg; injection Hg as <-; split; [done|done|done]|]. rewrite lookup_insert_ne in Hg by done. by apply (T w).
Qed.

(** ** A reply *)

Lemma inv_delete_frame st X c f : server_inv st X -> ws_frames st !! c = Some f -> wt_links f = [] -> wt_queued f = false -> server_inv (s_frames st (delete c (ws_frames st))) X.
Proof.
  intros I Hf Hl Hq. destruct I as [R1 R2 R3 R4 R5 R6 R7 R8 [R9 R10]]. split; [|done| |done|done|done| | |].
  - apply (refs_ok_occ _ (server_refs st ++ X)); [|done]. intros p. rewrite !occ_app, !occ_server. simpl. rewrite (occ_bind_map_delete waiter_refs _ c f p Hf). unfold waiter_refs at 1. rewrite Hl. simpl. change (occ p []) with 0%nat. lia.
  - intros src obj Ho. destruct (R3 src obj Ho) as [H1 H2]. split; [done|]. intros w i. rewrite H2. simpl. destruct (decide (w = c)) as [->|Hne]; [|by rewrite lookup_delete_ne].
    rewrite lookup_delete_eq, Hf. split; intros (g & [= <-] & Hg). rewrite Hl in Hg. done.
  - intros w g Hg'. simpl in Hg'. apply lookup_delete_Some in Hg' as [Hne Hg]. destruct (R7 w g Hg) as [(wc & H1 & H2 & H3 & H4) H5]. split; [|done]. exists wc. split; [done|]. split; [done|]. split; [done|]. intros i l Hil. destruct (H4 i l Hil) as [K1 K2 K3]. by split.
  - intros w1 w2 f1 f2 H1 H2. simpl in H1, H2. apply lookup_delete_Some in H1 as [_ H1]. apply lookup_delete_Some in H2 as [_ H2]. by apply (R8 w1 w2 f1 f2).
  - split; [done|]. intros w. simpl. rewrite R10. destruct (decide (w = c)) as [->|Hne]; [|by rewrite lookup_delete_ne]. rewrite lookup_delete_eq, Hf. split; intros (g & [= <-] & Hg). congruence.
Qed.

(** Select [c] itself may have something to return. *)
Definition near (st : wine_server) (c : positive) : Prop := server_inv st [] /\ wake_except st (eq c) (eq c).

Lemma good_near st c : good st [] -> near st c.
Proof. intros [I W]. split; [done|]. by apply (wake_weaken st nobody nobody). Qed.

Lemma near_good st c f : near st c -> ws_frames st !! c = Some f -> (sleeping f -> frame_live st f /\ frame_still st c f) -> good st [].
Proof.
  intros [I W] Hf Hs. split; [done|]. intros w g Hg Hsl. destruct (decide (w = c)) as [->|Hne]; [rewrite Hf in Hg; injection Hg as <-; destruct (Hs Hsl); by split|]. destruct (W w g Hg Hsl) as [A B]. split; intros _; [apply A|apply B]; congruence.
Qed.

Definition others_tried (st : wine_server) (c : positive) : Prop := forall w f, w <> c -> ws_frames st !! w = Some f -> tried_ok f.

Lemma reply_ok st c f s : near st c -> refs_room st 0 -> others_tried st c -> ws_frames st !! c = Some f -> exists st', select_reply st c s = Some (Turn_reply s, st') /\ good st' [] /\ frames_tried st'.
Proof.
  intros [I W] Hr T Hf. unfold select_reply. destruct (unqueue_ok st [] c f I Hr Hf) as (st1 & -> & I1 & U & Hf1 & _). cbn [mbind option_bind]. eexists. split; [done|]. split; [split|].
  - by apply (inv_delete_frame st1 [] c (f_links f false [])).
  - intros w g Hg' Hs. simpl in Hg'. apply lookup_delete_Some in Hg' as [Hne Hg]. pose proof (wake_rehooks st st1 [] c 0 _ _ I1 U W w g Hg Hs) as [A B]. split; intros _; [apply A|apply B]; intros [|]; congruence.
  - intros w g Hg'. simpl in Hg'. apply lookup_delete_Some in Hg' as [Hne Hg]. rewrite (uh_frames _ _ _ _ U w (not_eq_sym Hne)) in Hg. by apply (T w g (not_eq_sym Hne)).
Qed.

Lemma tried_others st c : frames_tried st -> others_tried st c.
Proof. intros T w f _. apply T. Qed.

(** ** Suspended threads *)

Definition requeue (f f' : horizon_sync_waiter) : Prop := f' = f \/ f' = f_tried (f_links f false []) (-1).

Lemma put_frame_tried st c f : others_tried st c -> tried_ok f -> frames_tried (put_frame st c f).
Proof. intros T H w g Hg. simpl in Hg. destruct (decide (w = c)) as [->|Hne]; [rewrite lookup_insert_eq in Hg; by injection Hg as <-|]. rewrite lookup_insert_ne in Hg by done. by apply (T w g). Qed.

(** Flags that do not put the select to sleep. *)
Lemma good_flags st c f f' : good st [] -> ws_frames st !! c = Some f -> wt_op f' = wt_op f -> wt_links f' = wt_links f -> wt_queued f' = wt_queued f -> wt_alertable f' = wt_alertable f -> (sleeping f' -> sleeping f) -> good (put_frame st c f') [].
Proof.
  intros [I W] Hf Hop Hl Hq Ha Hs. split; [by apply (inv_put_flags st [] c f f')|]. apply (wake_put_frame st c f f' nobody nobody nobody nobody Hf Hop); [|done|done|done]. intros Hs'. destruct (W c f Hf (Hs Hs')) as [A B]. split; [done|].
  intros _. apply (frame_still_mono st st c f f'); [apply B; by intros []|done|done|done|done|done|done| |done]. intros conn t obj' _ _ Ho. by exists obj'.
Qed.

Lemma unqueue_again_ok st c f : good st [] -> refs_room st 0 -> frames_tried st -> ws_frames st !! c = Some f ->
  exists st' f', unqueue_again st c = Some st' /\ good st' [] /\ frames_tried st' /\ ws_frames st' !! c = Some f' /\ requeue f f' /\ wt_queued f' = false /\ keeps st st'.
Proof.
  intros G Hr T Hf. unfold unqueue_again. rewrite Hf. cbn [mbind option_bind]. destruct (wt_queued f) eqn:Hq; [|exists st, f; split; [done|]; split; [done|]; split; [done|]; split; [done|]; split; [by left|]; split; [done|apply keeps_refl]].
  destruct (unqueue_ok st [] c f (proj1 G) Hr Hf) as (st1 & -> & I1 & U & Hf1 & _). cbn [mbind option_bind]. rewrite Hf1. cbn [mbind option_bind]. set (f' := f_tried (f_links f false []) (-1)). exists (put_frame st1 c f'), f'. split; [done|].
  assert (good st1 []) as G1.
  { apply (near_good st1 c (f_links f false [])); [|done|by intros [? _]]. split; [done|]. eapply wake_weaken; [| |apply (wake_rehooks st st1 [] c 0 nobody nobody I1 U (proj2 G))]; (intros w [[]|]; done). }
  split; [apply (good_flags st1 c (f_links f false []) f' G1 Hf1); try done|].
  split. { apply put_frame_tried; [intros w g Hne Hg; rewrite (uh_frames _ _ _ _ U w Hne) in Hg; by apply (T w)|]. split; [by split|done|]. simpl. intros _. done. }
  split; [apply lookup_insert_eq|]. split; [by right|]. split; [done|]. apply (keeps_trans _ st1); [by apply (unhooks_keeps st st1 c)|]. by destruct (keeps_refl st1).
Qed.

Lemma good_context st c f thread obj b : good st [] -> ws_frames st !! c = Some f -> ws_objects st !! thread = Some obj -> good (put_object st thread (o_context_valid obj b)) [] /\ mild st (put_object st thread (o_context_valid obj b)).
Proof.
  intros G Hf Ho. split; [|by apply (mild_put st _ thread obj (o_context_valid obj b)); [..|exists (ws_timers st)]]. apply (good_put_quiet st [] thread obj); [done|done|by split|exact (object_payload st [] thread obj (proj1 G) Ho)|done|by split].
Qed.

(** Facts a turn goes on with. *)
Record turning (st st' : wine_server) (c : positive) (op : select_op) : Prop := {
  tu_good : good st' [];
  tu_tried : frames_tried st';
  tu_frame : exists f', ws_frames st' !! c = Some f' /\ wt_op f' = op;
  tu_keeps : keeps st st';
}.

Lemma turning_mild st st1 st2 c op : turning st st1 c op -> mild st1 st2 -> good st2 [] -> turning st st2 c op.
Proof.
  intros [G T (f & Hf & Ho) K] M G2. split; [done|by apply (mild_tried st1)| |by apply (keeps_trans _ st1); [|apply mild_keeps]]. destruct (mi_frames _ _ M c f Hf) as (f2 & Hf2 & (E & _)). exists f2. split; [done|]. rewrite E. done.
Qed.

(** A select whose thread is suspended is not queued. *)
Lemma turning_flags st st1 c f f' op : turning st st1 c op -> ws_frames st1 !! c = Some f -> wt_op f' = wt_op f -> wt_links f' = wt_links f -> wt_queued f' = wt_queued f -> wt_alertable f' = wt_alertable f -> (sleeping f' -> sleeping f) -> tried_ok f' -> turning st (put_frame st1 c f') c op.
Proof.
  intros [G T (g & Hg & Ho) K] Hf Hop Hl Hq Ha Hs Ht. rewrite Hf in Hg. injection Hg as <-. split; [by apply (good_flags st1 c f)|apply put_frame_tried; [by apply tried_others|done]| |].
  - exists f'. simpl. rewrite lookup_insert_eq. split; [done|congruence].
  - apply (keeps_trans _ st1); [done|]. by destruct (keeps_refl st1).
Qed.

Lemma gate_enter_ok st c f conn thread : good st [] -> refs_room st 0 -> frames_tried st -> ws_frames st !! c = Some f -> ws_conns st !! c = Some conn -> cn_thread conn = Some thread ->
  exists st', gate_enter st c thread = Some st' /\ turning st st' c (wt_op f) /\ forall f', ws_frames st' !! c = Some f' -> wt_gated f' = true.
Proof.
  intros G Hr T Hf Hc Hth. unfold gate_enter. destruct (unqueue_again_ok st c f G Hr T Hf) as (st1 & f1 & -> & G1 & T1 & Hf1 & Hreq & Hq1 & K1). cbn [mbind option_bind]. rewrite Hf1. cbn [mbind option_bind].
  set (st2 := put_frame st1 c (f_gated f1 true)). assert (turning st st2 c (wt_op f)) as U2.
  { apply (turning_flags st st1 c f1); [|done|done|done|done|done|by intros (H1 & H2 & H3); simpl in *; congruence|].
    - split; [done|done|exists f1; split; [done|]; by destruct Hreq as [-> | ->]|done].
    - destruct (T1 c f1 Hf1) as [A1 A2 A3]. by split. }
  assert (ws_frames st2 !! c = Some (f_gated f1 true)) as Hf2 by apply lookup_insert_eq.
  destruct (conn_thread_object st1 [] c conn thread (proj1 G1)) as (obj & Ho & _); [by rewrite (kp_conns _ _ K1)|done|]. change (ws_objects st2) with (ws_objects st1). rewrite Ho. cbn [mbind option_bind].
  destruct (ob_context_valid obj); [exists st2; split; [done|]; split; [done|]; intros f' Hf'; rewrite Hf2 in Hf'; by injection Hf' as <-|].
  destruct (good_context st2 c _ thread obj true (tu_good _ _ _ _ U2) Hf2 Ho) as [G3 M3]. destruct (signal_changed_ok _ [] (proj1 G3)) as (st4 & E4 & I4 & C4 & _ & W4). exists st4. split; [done|]. pose proof (mild_trans _ _ _ M3 (calm_mild _ _ C4)) as M. split; [by apply (turning_mild st st2)|].
  intros f' Hf'. destruct (mi_frames _ _ M c _ Hf2) as (x & Hx & (Ex & _)). rewrite Hf' in Hx. injection Hx as <-. by rewrite Ex.
Qed.

Definition not_suspended (st : wine_server) (c : positive) : Prop :=
  forall conn t obj, ws_conns st !! c = Some conn -> cn_thread conn = Some t -> ws_objects st !! t = Some obj -> ts_started (ob_thread obj) && nonzero (ts_suspend (ob_thread obj)) = false.

Definition not_gated (st : wine_server) (c : positive) : Prop := forall f, ws_frames st !! c = Some f -> wt_gated f = false.

Lemma select_gate_ok st c f : good st [] -> refs_room st 0 -> frames_tried st -> ws_frames st !! c = Some f ->
  exists g st', select_gate st c = Some (g, st') /\ turning st st' c (wt_op f) /\ (g = None -> not_suspended st' c /\ not_gated st' c).
Proof.
  intros G Hr T Hf. unfold select_gate. destruct (frame_thread_ok st [] c f (proj1 G) Hf) as (conn & thread & obj & Hc & _ & Hth & Ho). rewrite Hc. cbn [mbind option_bind]. rewrite Hth, Hf. cbn [mbind option_bind]. rewrite Ho. cbn [mbind option_bind].
  assert (turning st st c (wt_op f)) as U0 by (split; [done|done|by exists f|apply keeps_refl]).
  destruct (negb _) eqn:En.
  { apply negb_true_iff, orb_false_iff in En as [Eg En]. exists None, st. split; [done|]. split; [done|]. intros _. split; [|intros f' Hf'; congruence]. intros conn' t' obj' Hc' Ht' Ho'. assert (conn' = conn) as -> by congruence. assert (t' = thread) as -> by congruence. assert (obj' = obj) as -> by congruence. done. }
  assert (exists st1, (if wt_gated f then Some st else gate_enter st c thread) = Some st1 /\ turning st st1 c (wt_op f) /\ forall f', ws_frames st1 !! c = Some f' -> wt_gated f' = true) as (st1 & -> & U1 & Hg1).
  { destruct (wt_gated f) eqn:Hg; [exists st; split; [done|]; split; [done|]; congruence|by apply (gate_enter_ok st c f conn)]. }
  cbn [mbind option_bind]. destruct (nonzero _ && negb _) eqn:Es; [exists (Some Turn_sleep), st1; by split|]. destruct (tu_frame _ _ _ _ U1) as (f1 & Hf1 & Hop1). rewrite Hf1. cbn [mbind option_bind].
  destruct (conn_thread_object st1 [] c conn thread (proj1 (tu_good _ _ _ _ U1))) as (obj1 & Ho1 & _); [by rewrite (kp_conns _ _ (tu_keeps _ _ _ _ U1))|done|]. rewrite Ho1. cbn [mbind option_bind].
  destruct (good_context st1 c f1 thread obj1 false (tu_good _ _ _ _ U1) Hf1 Ho1) as [G2 M2]. set (st2 := put_object st1 thread _) in *. pose proof (turning_mild _ _ _ _ _ U1 M2 G2) as U2. set (st3 := put_frame st2 c (f_gated f1 false)).
  assert (turning st st3 c (wt_op f)) as U3.
  { apply (turning_flags st st2 c f1); [done|done|done|done|done|done|by intros (H1 & H2 & H3)|]. destruct (tu_tried _ _ _ _ U1 c f1 Hf1) as [A1 A2 A3]. by split. }
  assert (not_suspended st3 c) as Hns.
  { intros conn' t' obj' Hc' Ht' Ho'. destruct (kp_objects _ _ (tu_keeps _ _ _ _ U3) t' obj' Ho') as (x & Hx & _ & Etx & _). rewrite (kp_conns _ _ (tu_keeps _ _ _ _ U3)) in Hc'. assert (conn' = conn) as -> by congruence. assert (t' = thread) as -> by congruence. assert (x = obj) as -> by congruence.
    rewrite Etx. destruct (object_payload st [] thread obj (proj1 G) Ho) as (_ & _ & P3 & _). apply andb_false_iff in Es as [Es|Es]; [by rewrite Es, andb_false_r|]. apply negb_false_iff in Es. rewrite (P3 Es). apply andb_false_r. }
  assert (not_gated st3 c) as Hng by (intros f' Hf'; simpl in Hf'; rewrite lookup_insert_eq in Hf'; by injection Hf' as <-).
  destruct (wt_contexts f1); [by eexists _, st3|]. destruct (ts_terminated (ob_thread obj)); by eexists _, st3.
Qed.

(** ** Going to sleep *)

Lemma signaled_rehooks st st' X w k tid o obj obj' : server_inv st' X -> rehooks st st' w k -> ws_objects st' !! o = Some obj' -> ws_objects st !! o = Some obj -> same_payload obj obj' ->
  horizon_server_object_is_signaled st' tid obj' = horizon_server_object_is_signaled st tid obj.
Proof.
  intros I' R Ho' Ho Hpay. unfold same_payload in Hpay. assert (ob_type obj' = ob_type obj /\ ob_wait_port obj' = ob_wait_port obj) as [Ht Hp] by (by rewrite Hpay).
  assert (port_queue st' obj' = port_queue st obj) as Hq.
  { unfold port_queue. rewrite Hp. destruct (ob_wait_port obj) as [p|] eqn:E; [|done]. destruct (ro_there _ _ (si_refs _ _ I') p) as [port' Hport'].
    - apply elem_of_app. left. eapply ref_object; [exact Ho'|]. apply object_refs_in. left. congruence.
    - destruct (uh_objects _ _ _ _ R p port' Hport') as (port & Hport & Hpp & _). rewrite Hport', Hport. simpl. by rewrite Hpp. }
  unfold horizon_server_object_is_signaled. rewrite Ht, Hq. destruct (ob_type obj); try done; by rewrite Hpay.
Qed.

Lemma handle_still_rehooks st st' X w k tid h : server_inv st' X -> rehooks st st' w k -> handle_still st tid h -> handle_still st' tid h.
Proof.
  intros I' R [H0 [->|(e & en & obj & He & Hen & Hh & Ho & Hs)]]; split; try done; [by left|right].
  destruct (entry_ok st' X e I') as (en' & obj' & _ & Hen' & Ho'); [by rewrite (uh_handles _ _ _ _ R)|]. rewrite (uh_entries _ _ _ _ R), Hen in Hen'. injection Hen' as <-.
  destruct (uh_objects _ _ _ _ R _ obj' Ho') as (x & Hx & Hpay & _). rewrite Ho in Hx. injection Hx as <-. exists e, en, obj'. rewrite (uh_handles _ _ _ _ R), (uh_entries _ _ _ _ R). repeat (split; [done|]). by rewrite (signaled_rehooks st st' X w k tid _ obj obj' I' R Ho' Ho Hpay).
Qed.

Lemma op_still_rehooks st st' X w k tid op : server_inv st' X -> rehooks st st' w k -> op_still st tid op -> op_still st' tid op.
Proof.
  intros I' R. unfold op_still. destruct op as [|handles [|]| | |]; try (intros H; eapply Forall_impl; [exact H|]; intros h; by apply (handle_still_rehooks st st' X w k)).
  intros (i & h & Hi & Hh & Hlv). exists i, h. split; [done|]. split; [by apply (handle_still_rehooks st st' X w k)|].
  eapply Forall_impl; [exact Hlv|]. intros x. apply live_same; [apply (uh_handles _ _ _ _ R)|apply (uh_entries _ _ _ _ R)].
Qed.

Lemma op_still_live st tid f : op_still st tid (wt_op f) -> frame_live st f.
Proof.
  unfold op_still, frame_live, live_handles. destruct (wt_op f) as [|handles [|]| | |]; intros H; first [exact (Forall_nil_2 _)|eapply Forall_impl; [exact H|intros h; apply handle_still_live]].
Qed.

Lemma near_put st c f f' : near st c -> ws_frames st !! c = Some f -> wt_op f' = wt_op f -> wt_links f' = wt_links f -> wt_queued f' = wt_queued f -> near (put_frame st c f') c.
Proof.
  intros [I W] Hf Hop Hl Hq. split; [by apply (inv_put_flags st [] c f f')|]. apply (wake_put_frame st c f f' (eq c) (eq c) (eq c) (eq c) Hf Hop); [|done|done|done]. intros _. split; intros H; by destruct H.
Qed.

(** A select that is queued and has nothing to return may sleep. *)
Lemma sleep_good st c f f' conn : near st c -> ws_frames st !! c = Some f -> ws_conns st !! c = Some conn -> wt_op f' = wt_op f -> wt_links f' = wt_links f -> wt_queued f' = wt_queued f -> wt_alertable f' = wt_alertable f ->
  (wt_queued f = true -> op_still st (cn_tid conn) (wt_op f)) -> thread_still (ws_objects st) conn f -> cn_tid conn ∉ ws_ready st -> good (put_frame st c f') [].
Proof.
  intros N Hf Hc Hop Hl Hq Ha Hstill Hth Hr. apply (near_good _ c f'); [by apply (near_put st c f)|apply lookup_insert_eq|]. intros (Hsq & _). rewrite Hq in Hsq. pose proof (Hstill Hsq) as Ho. split.
  - pose proof (op_still_live st (cn_tid conn) f Ho) as H. unfold frame_live. rewrite Hop. exact H.
  - assert (frame_still st c f) as H. { intros conn' Hc'. rewrite Hc in Hc'. injection Hc' as <-. split; [by apply (op_links_still st [] c f conn (proj1 N))|]. done. }
    apply (frame_still_mono st _ c f f' H); try done. intros conn' t obj' _ _ Ho'. by exists obj'.
Qed.

Definition no_apcs (st : wine_server) (conn : horizon_server_connection) (f : horizon_sync_waiter) : Prop := forall t obj, wt_alertable f = true -> cn_thread conn = Some t -> ws_objects st !! t = Some obj -> ob_apcs obj = [].

Lemma rehooks_thread_still st st' w k conn f f' : rehooks st st' w k -> wt_alertable f' = wt_alertable f -> thread_still (ws_objects st) conn f -> thread_still (ws_objects st') conn f'.
Proof. intros R Ha H t obj' Ht Ho'. destruct (uh_objects _ _ _ _ R t obj' Ho') as (obj & Ho & Hpay & _). destruct (H t obj Ht Ho) as [H1 H2]. rewrite Hpay. simpl. rewrite Ha. done. Qed.

(** The select queues itself, or not. *)
Lemma select_queue_ok st c f conn (direct : bool) : near st c -> refs_room st 128 -> frames_tried st -> ws_frames st !! c = Some f -> ws_conns st !! c = Some conn -> wt_gated f = false -> Forall (owned st (cn_tid conn)) (op_handles (wt_op f)) ->
  thread_still (ws_objects st) conn f -> (is_Some (queue_handles (wt_op f)) -> op_still st (cn_tid conn) (wt_op f)) ->
  exists tried st' f', (if direct && (wt_tried f <? 0) then '(queued, st) ← horizon_sync_queue_locked st c; Some (of_bool queued, st) else Some (wt_tried f, st)) = Some (tried, st') /\
    near st' c /\ others_tried st' c /\ ws_frames st' !! c = Some f' /\ tried_ok (f_tried f' tried) /\ ws_conns st' = ws_conns st /\ ws_ready st' = ws_ready st /\ thread_still (ws_objects st') conn f' /\ (wt_queued f' = true -> op_still st' (cn_tid conn) (wt_op f')).
Proof.
  intros [I W] Hr T Hf Hc Hg Hown Hth Hstill. assert (forall st' f', server_inv st' [] -> ws_frames st' !! c = Some f' -> wt_queued f' = true -> is_Some (queue_handles (wt_op f'))) as Hqh.
  { intros st' f' I' Hf' Hq. destruct (fo_queued _ _ _ (si_frames _ _ I' c f' Hf') Hq) as [_ ->]. by eexists. }
  destruct (direct && (wt_tried f <? 0)) eqn:Ed.
  2:{ exists (wt_tried f), st, f. split; [done|]. split; [done|]. split; [by apply tried_others|]. split; [done|]. split; [destruct (T c f Hf) as [A1 A2 A3]; by split|]. split; [done|]. split; [done|]. split; [done|]. intros Hq. apply Hstill. by apply (Hqh st f). }
  apply andb_true_iff in Ed as [_ Ed]. destruct (T c f Hf) as [A1 A2 A3]. assert (wt_queued f = false) as Hq. { destruct (wt_queued f) eqn:E; [|done]. pose proof (proj1 A1 eq_refl). lia. }
  destruct (sync_queue_ok st [] c f conn I Hr Hf Hq (A2 Hq) Hc Hown) as (ok & st1 & links & -> & I1 & R & Hf1 & Hno & _ & _). cbn [mbind option_bind]. exists (of_bool ok), st1, (f_links f ok links). split; [done|].
  split. { split; [done|]. eapply wake_weaken; [| |exact (wake_rehooks st st1 [] c 128 (eq c) (eq c) I1 R W)]; (intros w [|]; done). }
  split. { intros w g Hne Hg'. rewrite (uh_frames _ _ _ _ R w Hne) in Hg'. by apply (T w). }
  split; [done|]. split. { split; simpl; [by destruct ok|intros ->; by apply Hno|congruence]. }
  split; [apply R|]. split; [apply R|]. split; [by apply (rehooks_thread_still st st1 c 128 conn f)|]. intros Hok. apply (op_still_rehooks st st1 [] c 128 _ _ I1 R). apply Hstill. by apply (Hqh st1 (f_links f ok links)).
Qed.

Lemma select_sleep_ok st c f conn direct now : near st c -> refs_room st 128 -> frames_tried st -> ws_frames st !! c = Some f -> ws_conns st !! c = Some conn -> wt_gated f = false -> Forall (owned st (cn_tid conn)) (op_handles (wt_op f)) ->
  thread_still (ws_objects st) conn f -> cn_tid conn ∉ ws_ready st -> (is_Some (queue_handles (wt_op f)) -> op_still st (cn_tid conn) (wt_op f)) ->
  exists st', select_sleep st c direct now = Some (Turn_sleep, st') /\ good st' [] /\ frames_tried st'.
Proof.
  intros N Hr T Hf Hc Hg Hown Hth Hready Hstill. unfold select_sleep. rewrite Hf. cbn [mbind option_bind]. destruct (select_queue_ok st c f conn direct N Hr T Hf Hc Hg Hown Hth Hstill) as (tried & st1 & f1 & -> & N1 & T1 & Hf1 & Ht1 & Ec & Er & Hth1 & Hs1).
  cbn [mbind option_bind]. rewrite Hf1. cbn [mbind option_bind]. set (f2 := f_again (f_tried f1 tried)). set (st2 := put_frame st1 c f2). assert (ws_conns st1 !! c = Some conn) as Hc1 by (by rewrite Ec). assert (tried_ok f2) as Ht2 by (by destruct Ht1 as [A1 A2 A3]; split).
  assert (good st2 []) as G2 by (apply (sleep_good st1 c f1 f2 conn); try done; by rewrite Er). assert (frames_tried st2) as T2 by (by apply put_frame_tried). destruct (0 <? tried); [|exists st2; by split].
  unfold horizon_sync_sleep_locked. assert (ws_frames st2 !! c = Some f2) as Hf2 by apply lookup_insert_eq. rewrite Hf2. cbn [mbind option_bind]. destruct (existsb _ _); cbn [mbind option_bind]; [exists st2; by split|]. eexists. split; [done|].
  assert (put_frame st2 c (f_notified f2 false) = put_frame st1 c (f_notified f2 false)) as -> by (unfold put_frame, s_frames, st2; simpl; by rewrite insert_insert_eq).
  split; [apply (sleep_good st1 c f1 _ conn); try done; by rewrite Er|]. apply put_frame_tried; [done|]. by destruct Ht2 as [A1 A2 A3]; split.
Qed.

(** ** A look at the objects *)

Lemma select_signal_ok st c f conn : good st [] -> ws_frames st !! c = Some f -> ws_conns st !! c = Some conn -> cn_tid conn <> 0 -> exists e st', select_signal st c f = Some (e, st') /\ good st' [] /\ mild st st'.
Proof.
  intros G Hf Hc Htid. pose proof (mild_refl st) as Mr. unfold select_signal. destruct (wt_op f) as [|handles all|wait [signal|]| |]; try (by exists None, st). destruct (wt_initial f); [|by exists None, st].
  destruct (wait_object_ok st [] c conn wait false (proj1 G) Hc Htid) as (s & st1 & -> & _ & _ & _ & _ & Hsame). rewrite (Hsame eq_refl). cbn [mbind option_bind]. destruct (negb _ && negb _); [by eexists _, st|].
  destruct (signal_object_ok st [] (Some c) signal G) as (s2 & st2 & -> & G2 & M2). cbn [mbind option_bind]. by eexists _, st2.
Qed.

Lemma good_ready st X l : good st X -> (forall x, x ∈ l -> x ∈ ws_ready st) -> good (s_ready st l) X.
Proof.
  intros [I W] Hl. split; [by apply (inv_same_fields st)|]. intros w f Hw Hs. destruct (W w f Hw Hs) as [A B]. split; [exact A|]. intros H conn Hc. destruct (B H conn Hc) as (B1 & B2 & B3). split; [done|]. split; [done|]. intros Hin. by apply B3, Hl.
Qed.

Lemma remove_one_in x l y : y ∈ remove_one x l -> y ∈ l.
Proof. induction l as [|z l IH]; [done|]. simpl. destruct (x =? z); [by right|]. rewrite !elem_of_cons. naive_solver. Qed.

Lemma take_apc_ok st c conn t obj : good st [] -> ws_conns st !! c = Some conn -> cn_thread conn = Some t -> ws_objects st !! t = Some obj ->
  exists r st', horizon_server_take_user_apc_locked st (cn_thread conn) = Some (r, st') /\ good st' [] /\ ws_frames st' = ws_frames st /\ (forall k, refs_room st k -> refs_room st' k) /\ (r = None -> st' = st /\ ob_apcs obj = []).
Proof.
  intros G Hc Ht Ho. unfold horizon_server_take_user_apc_locked. rewrite Ht, Ho. cbn [mbind option_bind]. destruct (ob_apcs obj) as [|apc apcs] eqn:Ea; [by exists None, st|]. eexists (Some apc), _. split; [done|]. split; [|split; [done|split; [|done]]].
  - apply (good_put_quiet st [] t obj); [done|done|by split|exact (object_payload st [] t obj (proj1 G) Ho)|done|]. split; [|done|done]. split; [congruence|done].
  - intros k Hk. replace k with (k - 0) by lia. apply (refs_room_put st k 0 t obj _ Hk Ho); [lia|simpl; lia].
Qed.

Lemma takes_near st st' c conn : good st [] -> ws_conns st !! c = Some conn -> is_Some (ws_frames st !! c) -> server_inv st' [] -> takes st st' (cn_tid conn) -> near st' c.
Proof.
  intros G Hc [f0 Hf0] I' Hk. split; [done|]. apply (wake_takes st st' (cn_tid conn) (eq c) (eq c) (eq c) Hk); [done| |by apply (wake_weaken st nobody nobody), G].
  intros w f Hw Ht. apply (si_tids _ _ (proj1 G) c w f0 f Hf0 Hw). rewrite Ht. unfold frame_tid. by rewrite Hc.
Qed.

Lemma takes_keeps st st' tid : takes st st' tid -> keeps st st'.
Proof. intros K. by apply mild_keeps, calm_mild, (tk_calm _ _ _ K). Qed.

(** The end of a look: timers, then the objects. *)
Definition look_tail (st : wine_server) (c : positive) (direct : bool) (counter now : Z) : option (turn * wine_server) :=
  st ← horizon_server_update_timers_locked st now;
  f ← ws_frames st !! c;
  if wt_completed f then select_reply st c (wt_status f) else
  '(status, st) ← horizon_server_select_status st (Some c) (wt_op f);
  if negb (status =? HORIZON_STATUS_TIMEOUT) || (wt_timeout f =? 0) || select_expired (wt_timeout f) counter now then select_reply st c status
  else select_sleep st c direct now.

Definition turn_ok (r : option (turn * wine_server)) : Prop := exists t st', r = Some (t, st') /\ good st' [] /\ frames_tried st'.

Lemma reply_turn st c f s : near st c -> refs_room st 0 -> others_tried st c -> ws_frames st !! c = Some f -> turn_ok (select_reply st c s).
Proof. intros N Hr T Hf. destruct (reply_ok st c f s N Hr T Hf) as (st' & E & G & T'). by eexists _, st'. Qed.

Lemma keeps_thread_still st st' conn f f' : keeps st st' -> wt_alertable f' = wt_alertable f -> thread_still (ws_objects st) conn f -> thread_still (ws_objects st') conn f'.
Proof. intros K Ha H t obj' Ht Ho'. destruct (kp_objects _ _ K t obj' Ho') as (obj & Ho & _ & E1 & E2 & _). destruct (H t obj Ht Ho) as [H1 H2]. by rewrite E1, E2, Ha. Qed.

Lemma look_tail_ok st c f conn direct counter now : good st [] -> refs_room st 128 -> frames_tried st -> ws_frames st !! c = Some f -> ws_conns st !! c = Some conn -> cn_tid conn <> 0 -> wt_gated f = false -> Forall (owned st (cn_tid conn)) (op_handles (wt_op f)) ->
  thread_still (ws_objects st) conn f -> cn_tid conn ∉ ws_ready st -> 0 < now -> turn_ok (look_tail st c direct counter now).
Proof.
  intros G Hr T Hf Hc Htid Hg Hown Hth Hready Hnow. unfold look_tail. destruct (server_update_timers_ok st [] now G Hnow) as (st1 & -> & G1 & M1). cbn [mbind option_bind]. pose proof (mild_keeps _ _ M1) as K1. pose proof (mild_tried _ _ M1 T) as T1. pose proof (keeps_room _ _ 128 K1 Hr) as R1.
  destruct (mi_frames _ _ M1 c f Hf) as (f1 & Hf1 & Cf1 & _). rewrite Hf1. cbn [mbind option_bind]. assert (wt_op f1 = wt_op f /\ wt_alertable f1 = wt_alertable f /\ wt_gated f1 = wt_gated f) as (Ho1 & Ha1 & Hg1) by (by rewrite Cf1).
  destruct (wt_completed f1) eqn:Hcomp; [apply (reply_turn st1 c f1); [by apply good_near|by apply (refs_room_le _ 128)|by apply tried_others|done]|].
  assert (ws_conns st1 !! c = Some conn) as Hc1 by (by rewrite (kp_conns _ _ K1)). destruct (select_status_ok st1 [] c conn (wt_op f1) (proj1 G1) Hc1 Htid) as (s & st2 & -> & I2 & K2 & Hto). cbn [mbind option_bind].
  assert (near st2 c) as N2 by (by apply (takes_near st1 st2 c conn)). pose proof (takes_keeps _ _ _ K2) as K12. assert (ws_frames st2 = ws_frames st1) as Ef by apply K2. assert (frames_tried st2) as T2 by (intros w g; rewrite Ef; apply T1).
  destruct (_ || _) eqn:Es; [apply (reply_turn st2 c f1); [done|apply (keeps_room st1 st2 0 K12); by apply (refs_room_le _ 128)|by apply tried_others|by rewrite Ef]|].
  apply orb_false_iff in Es as [Es _]. apply orb_false_iff in Es as [Es _]. apply negb_false_iff, Z.eqb_eq in Es.
  destruct (select_sleep_ok st2 c f1 conn direct now) as (st3 & -> & G3 & T3); try done; [by apply (keeps_room st1)|by rewrite Ef|by rewrite (kp_conns _ _ K12)|congruence| | | | |by eexists _, st3].
  - rewrite Ho1. eapply Forall_impl; [exact Hown|]. intros h. by apply owned_keeps, (keeps_trans _ st1).
  - apply (keeps_thread_still st st2 conn f f1); [by apply (keeps_trans _ st1)|done|done].
  - by rewrite (kp_ready _ _ K12), (kp_ready _ _ K1).
  - intros Hqh. destruct (Hto Es Hqh) as [-> H]. done.
Qed.

Lemma select_look_ok st c f conn counter now : good st [] -> refs_room st 128 -> frames_tried st -> ws_frames st !! c = Some f -> ws_conns st !! c = Some conn -> not_gated st c -> Forall (owned st (cn_tid conn)) (op_handles (wt_op f)) -> not_suspended st c -> 0 < now ->
  turn_ok (select_look st c counter now).
Proof.
  intros G Hr T Hf Hc Hg Hown Hns Hnow. unfold select_look. destruct (frame_thread_ok st [] c f (proj1 G) Hf) as (conn' & t & obj & Hc' & Htid & Hth & Ho). rewrite Hc in Hc'. injection Hc' as <-. rewrite Hc. cbn [mbind option_bind]. rewrite Hf. cbn [mbind option_bind].
  destruct (wt_completed f); [apply (reply_turn st c f); [by apply good_near|by apply (refs_room_le _ 128)|by apply tried_others|done]|].
  destruct (select_signal_ok st c f conn G Hf Hc Htid) as (e & st1 & -> & G1 & M1). cbn [mbind option_bind]. pose proof (mild_keeps _ _ M1) as K1. pose proof (mild_tried _ _ M1 T) as T1. pose proof (keeps_room _ _ 128 K1 Hr) as R1.
  destruct (mi_frames _ _ M1 c f Hf) as (f1 & Hf1 & Cf1 & _). assert (wt_op f1 = wt_op f /\ wt_alertable f1 = wt_alertable f /\ wt_gated f1 = wt_gated f) as (Ho1 & Ha1 & Hg1) by (by rewrite Cf1).
  assert (ws_conns st1 !! c = Some conn) as Hc1 by (by rewrite (kp_conns _ _ K1)). destruct e as [s|]; [apply (reply_turn st1 c f1); [by apply good_near|by apply (refs_room_le _ 128)|by apply tried_others|done]|].
  destruct (decide (cn_tid conn ∈ ws_ready st1)) as [|Hready].
  { apply (reply_turn (s_ready st1 (remove_one (cn_tid conn) (ws_ready st1))) c f1); [|by apply (refs_room_le st1 128)|intros w g _; apply T1|done]. apply good_near, good_ready; [done|]. intros x. apply remove_one_in. }
  destruct (conn_thread_object st1 [] c conn t (proj1 G1) Hc1 Hth) as (obj1 & Hob1 & _).
  assert (exists apc st2, (if wt_alertable f then horizon_server_take_user_apc_locked st1 (cn_thread conn) else Some (None, st1)) = Some (apc, st2) /\ good st2 [] /\ ws_frames st2 = ws_frames st1 /\ refs_room st2 128 /\ (apc = None -> st2 = st1 /\ (wt_alertable f = true -> ob_apcs obj1 = []))) as (apc & st2 & -> & G2 & Ef & R2 & Hnone).
  { destruct (wt_alertable f); [|by exists None, st1]. destruct (take_apc_ok st1 c conn t obj1 G1 Hc1 Hth Hob1) as (r & st2 & -> & G2 & Ef & Hk & Hn). exists r, st2. split; [done|]. split; [done|]. split; [done|]. split; [by apply Hk|]. intros Hr0. destruct (Hn Hr0) as [-> ?]. done. }
  cbn [mbind option_bind]. destruct (decide (is_Some apc)) as [|Hapc]; [apply (reply_turn st2 c f1); [by apply good_near|by apply (refs_room_le _ 128)|intros w g _; rewrite Ef; apply T1|by rewrite Ef]|].
  destruct apc as [x|]; [destruct Hapc; by eexists|]. destruct (Hnone eq_refl) as [-> Hno]. apply (look_tail_ok st1 c f1 conn (cn_direct conn) counter now); try done.
  - rewrite Hg1. by apply Hg.
  - rewrite Ho1. eapply Forall_impl; [exact Hown|]. intros h. by apply owned_keeps.
  - intros t' x Ht' Hx. assert (t' = t) as -> by congruence. assert (x = obj1) as -> by congruence. rewrite Ha1. split; [done|]. destruct (kp_objects _ _ K1 t obj1 Hob1) as (y & Hy & _ & Ey & _). rewrite Ey. by apply (Hns conn t y).
Qed.

(** ** The turn *)

Lemma select_turn_ok st c f conn counter now quit : good st [] -> refs_room st 128 -> frames_tried st -> ws_frames st !! c = Some f -> ws_conns st !! c = Some conn -> Forall (owned st (cn_tid conn)) (op_handles (wt_op f)) -> 0 < now ->
  turn_ok (horizon_server_handle_select st c counter now quit).
Proof.
  intros G Hr T Hf Hc Hown Hnow. unfold horizon_server_handle_select.
  assert (exists st1 f1, (if quit then unqueue_again st c else Some st) = Some st1 /\ good st1 [] /\ frames_tried st1 /\ ws_frames st1 !! c = Some f1 /\ wt_op f1 = wt_op f /\ keeps st st1) as (st1 & f1 & -> & G1 & T1 & Hf1 & Ho1 & K1).
  { destruct quit; [|exists st, f; split; [done|]; split; [done|]; split; [done|]; split; [done|]; split; [done|apply keeps_refl]].
    destruct (unqueue_again_ok st c f G (refs_room_le _ _ 0 Hr ltac:(lia)) T Hf) as (st1 & f1 & E & G1 & T1 & Hf1 & Hreq & _ & K1). exists st1, f1. split; [done|]. split; [done|]. split; [done|]. split; [done|]. split; [by destruct Hreq as [-> | ->]|done]. }
  cbn [mbind option_bind]. pose proof (keeps_room _ _ 128 K1 Hr) as R1. destruct (select_gate_ok st1 c f1 G1 (refs_room_le _ _ 0 R1 ltac:(lia)) T1 Hf1) as (g & st2 & -> & U & Hnone). cbn [mbind option_bind]. destruct U as [G2 T2 (f2 & Hf2 & Ho2) K2].
  pose proof (keeps_trans _ _ _ K1 K2) as K. pose proof (keeps_room _ _ 128 K Hr) as R2. destruct g as [[s|]|].
  - apply (reply_turn st2 c f2); [by apply good_near|by apply (refs_room_le _ 128)|by apply tried_others|done].
  - by eexists _, st2.
  - destruct (Hnone eq_refl) as [Hns Hng]. apply (select_look_ok st2 c f2 conn); try done; [by rewrite (kp_conns _ _ K)|]. rewrite Ho2, Ho1. eapply Forall_impl; [exact Hown|]. intros h. by apply owned_keeps.
Qed.
