(* ===== verification/ServerFrames.v ===== *)
(** * Only a select queues itself

    What a select knows of being queued, and its links, change in its own turns
    only: every other operation leaves them. *)
From S2P Require Import Prelude Chain Completion Threads ServerObjects ServerSync ServerRequests ServerSelect.
Local Open Scope Z_scope.

Definition frame_core (f : horizon_sync_waiter) : Z * bool * list (positive * positive) * bool := (wt_tried f, wt_queued f, wt_links f, wt_gated f).

Definition core (st : wine_server) : gmap positive (Z * bool * list (positive * positive) * bool) := frame_core <$> ws_frames st.

Create HintDb server_core.

(** Splits a run of an operation into the runs of its parts. *)
Ltac run_steps :=
  repeat match goal with
  | H : _ ≫= _ = Some _ |- _ => apply bind_Some in H; destruct H as (? & ? & H)
  | H : Some _ = Some _ |- _ => injection H; clear H; intros; subst
  | H : None = Some _ |- _ => discriminate H
  | x : (_ * _)%type |- _ => destruct x
  | H : (_, _) = (_, _) |- _ => injection H; clear H; intros; subst
  | H : match ?x with _ => _ end = Some _ |- _ => destruct x eqn:?
  | H : match ?x with _ => _ end = (_, _) |- _ => destruct x eqn:?
  end.

(** Goes back from a state through the operations that made it. *)
Ltac core_back :=
  repeat match goal with
  | |- core ?s = core ?s => reflexivity
  | |- core (match ?x with _ => _ end) = _ => destruct x eqn:?
  | |- core (put_object ?s _ _) = ?r => change (core s = r)
  | |- core (put_conn ?s _ _) = ?r => change (core s = r)
  | |- core (s_objects ?s _) = ?r => change (core s = r)
  | |- core (s_entries ?s _) = ?r => change (core s = r)
  | |- core (s_table ?s _ _ _) = ?r => change (core s = r)
  | |- core (s_next_handle ?s _) = ?r => change (core s = r)
  | |- core (s_timers ?s _) = ?r => change (core s = r)
  | |- core (s_threads ?s _) = ?r => change (core s = r)
  | |- core (s_running ?s _) = ?r => change (core s = r)
  | |- core (s_next_tid ?s _) = ?r => change (core s = r)
  | |- core (s_conns ?s _) = ?r => change (core s = r)
  | |- core (s_held ?s _) = ?r => change (core s = r)
  | |- core (s_views ?s _) = ?r => change (core s = r)
  | |- core (s_ready ?s _) = ?r => change (core s = r)
  | |- core (s_allocs ?s _) = ?r => change (core s = r)
  | |- core (s_called ?s _ _) = ?r => change (core s = r)
  | |- core (free_entry ?s _) = ?r => change (core s = r)
  | |- core (snd (outside ?s _)) = ?r => change (core s = r)
  | |- core (horizon_server_unlink_timer_locked ?s _) = ?r => change (core s = r)
  | H : _ = Some ?s |- core ?s = _ => etransitivity; [solve [eauto 2 with server_core nocore]|]
  | H : _ = Some (_, ?s) |- core ?s = _ => etransitivity; [solve [eauto 2 with server_core nocore]|]
  | H : _ = (_, ?s) |- core ?s = _ => etransitivity; [solve [eauto 2 with server_core nocore]|]
  end.

Ltac core_run := cbv zeta; intros; run_steps; core_back; try done.

(** ** Objects and handles *)

Lemma release_core st obj : core (release_outside st obj) = core st.
Proof. unfold release_outside. core_run. Qed.
#[export] Hint Rewrite release_core : server_core.

Lemma drop_with_core free st o st' : (forall st o st', free st o = Some st' -> core st' = core st) -> drop_with free st o = Some st' -> core st' = core st.
Proof. intros Hf. unfold drop_with. destruct o as [o|]; [|by intros [= <-]]. intros H. run_steps; [done|]. by rewrite (Hf _ _ _ H). Qed.

Lemma free_core fuel st o st' : horizon_server_free_object fuel st o = Some st' -> core st' = core st.
Proof.
  revert st o st'. induction fuel as [|fuel IH]; intros st o st' H; [done|]. cbn [horizon_server_free_object] in H. apply bind_Some in H as (obj & _ & H). apply bind_Some in H as (q & _ & H).
  apply bind_Some in H as (s1 & H1%(drop_with_core _ _ _ _ IH) & H). apply bind_Some in H as (s2 & H2%(drop_with_core _ _ _ _ IH) & H). apply bind_Some in H as (s3 & H3%(drop_with_core _ _ _ _ IH) & H). injection H as <-.
  rewrite release_core, H3, H2, H1. by destruct (decide _), (decide _).
Qed.

Lemma free_object_core st o st' : free_object st o = Some st' -> core st' = core st.
Proof. apply free_core. Qed.

Lemma drop_core st o st' : drop_object st o = Some st' -> core st' = core st.
Proof. apply drop_with_core. intros ? ? ?. apply free_object_core. Qed.
#[export] Hint Resolve free_object_core drop_core : server_core.

Lemma link_core st e st' : horizon_server_link_handle_locked st e = Some st' -> core st' = core st.
Proof. unfold horizon_server_link_handle_locked. core_run. Qed.

Lemma unlink_core st e st' : horizon_server_unlink_handle_locked st e = Some st' -> core st' = core st.
Proof. unfold horizon_server_unlink_handle_locked. core_run. Qed.

Lemma set_access_core st e a st' : set_access st e a = Some st' -> core st' = core st.
Proof. unfold set_access. core_run. Qed.
#[export] Hint Resolve link_core unlink_core set_access_core : server_core.

Lemma create_core st t r st' : horizon_server_create_handle_locked st t = Some (r, st') -> core st' = core st.
Proof. unfold horizon_server_create_handle_locked, ws_alloc, horizon_server_alloc_handle, new_entry. core_run. Qed.

Lemma create_for_core st o r st' : horizon_server_create_handle_for_object_locked st o = Some (r, st') -> core st' = core st.
Proof. unfold horizon_server_create_handle_for_object_locked, ws_alloc, horizon_server_alloc_handle, new_entry. core_run. Qed.

Lemma set_name_core st o name s st' : horizon_server_set_object_name st o name = Some (s, st') -> core st' = core st.
Proof. unfold horizon_server_set_object_name, ws_alloc. core_run. Qed.
#[export] Hint Resolve create_core create_for_core set_name_core : server_core.

Lemma create_named_handle_core st t name r st' : horizon_server_create_named_object_handle_locked st t name = Some (r, st') -> core st' = core st.
Proof. unfold horizon_server_create_named_object_handle_locked. core_run. Qed.

Lemma open_named_core st t name r st' : horizon_server_open_named_object_handle st t name = Some (r, st') -> core st' = core st.
Proof. unfold horizon_server_open_named_object_handle. core_run. Qed.

Lemma duplicate_core st c h a o r st' : horizon_server_duplicate_object_handle st c h a o = Some (r, st') -> core st' = core st.
Proof. unfold horizon_server_duplicate_object_handle, ws_alloc, horizon_server_alloc_handle, new_entry. core_run. Qed.
#[export] Hint Resolve create_named_handle_core open_named_core duplicate_core : server_core.

(** ** Notifications *)

Lemma put_frame_core st w f f' : ws_frames st !! w = Some f -> frame_core f' = frame_core f -> core (put_frame st w f') = core st.
Proof. intros Hf He. unfold core, put_frame. simpl. rewrite fmap_insert, He. apply insert_id. by rewrite lookup_fmap, Hf. Qed.

Lemma notify_locked_core st w st' : horizon_sync_notify_locked st w = Some st' -> core st' = core st.
Proof. unfold horizon_sync_notify_locked. intros H. apply bind_Some in H as (f & Hf & H). injection H as <-. destruct (wt_notified f); [done|]. by apply (put_frame_core st w f). Qed.
#[export] Hint Resolve notify_locked_core : server_core.

Lemma notify_all_core l : forall st st', notify_all st l = Some st' -> core st' = core st.
Proof. induction l as [|w l IH]; intros st st' H; [by injection H as <-|]. cbn [notify_all] in H. apply bind_Some in H as (s & H1 & H). rewrite (IH _ _ H). by apply notify_locked_core in H1. Qed.

Lemma signal_changed_core st st' : horizon_server_signal_changed_locked st = Some st' -> core st' = core st.
Proof. apply notify_all_core. Qed.
#[export] Hint Resolve signal_changed_core : server_core.

Lemma consume_core st tid o obj r st' : horizon_server_consume_signal st tid o obj = Some (r, st') -> core st' = core st.
Proof. unfold horizon_server_consume_signal. destruct (horizon_mutex_acquire (ob_mutex obj) tid). core_run. Qed.
#[export] Hint Resolve consume_core : server_core.

Lemma wait_object_core st c h b r st' : horizon_server_wait_object_locked st c h b = Some (r, st') -> core st' = core st.
Proof. unfold horizon_server_wait_object_locked. core_run. Qed.
#[export] Hint Resolve wait_object_core : server_core.

Lemma wait_all_take_core l : forall st c s r st', wait_all_take st c l s = Some (r, st') -> core st' = core st.
Proof. induction l as [|h l IH]; intros st c s r st' H; [by injection H as _ <-|]. cbn [wait_all_take] in H. apply bind_Some in H as ([s1 st1] & H1 & H). rewrite (IH _ _ _ _ _ H). by apply wait_object_core in H1. Qed.

Lemma wait_any_core l : forall st c i s r st', wait_any st c l i s = Some (r, st') -> core st' = core st.
Proof.
  induction l as [|h l IH]; intros st c i s r st' H; [by injection H as _ <-|]. cbn [wait_any] in H. apply bind_Some in H as ([s1 st1] & H1%wait_object_core & H). destruct (_ || _); [by injection H as _ <-|]. destruct (negb _); [by injection H as _ <-|]. by rewrite (IH _ _ _ _ _ _ H).
Qed.
#[export] Hint Resolve wait_all_take_core wait_any_core : server_core.

Lemma select_status_core st c op r st' : horizon_server_select_status st c op = Some (r, st') -> core st' = core st.
Proof. unfold horizon_server_select_status, horizon_server_select_wait. core_run. Qed.
#[export] Hint Resolve select_status_core : server_core.

Lemma notify_link_core st b w st' : notify_link st b w = Some st' -> core st' = core st.
Proof.
  unfold notify_link. intros H. apply bind_Some in H as (f & _ & H). destruct (wt_completed f); [by injection H as <-|]. apply bind_Some in H as (must & _ & H). destruct (_ || _); [by apply notify_locked_core in H|].
  apply bind_Some in H as ([s st1] & H1%select_status_core & H). apply bind_Some in H as (f1 & Hf1 & H). rewrite <- H1. destruct (s =? _); [injection H as <-|apply notify_locked_core in H; rewrite H]; by apply (put_frame_core st1 w f1).
Qed.

Lemma notify_links_core l : forall st b st', notify_links st b l = Some st' -> core st' = core st.
Proof. induction l as [|[w i] l IH]; intros st b st' H; [by injection H as <-|]. cbn [notify_links] in H. apply bind_Some in H as (s & H1%notify_link_core & H). by rewrite (IH _ _ _ H). Qed.
#[export] Hint Resolve notify_links_core : server_core.

Lemma notify_object_core st o b st' : horizon_sync_notify_object_locked st o b = Some st' -> core st' = core st.
Proof. unfold horizon_sync_notify_object_locked. core_run. Qed.

Lemma notify_ready_core l : forall st st', notify_ready st l = Some st' -> core st' = core st.
Proof. induction l as [|w l IH]; intros st st' H; [by injection H as <-|]. cbn [notify_ready] in H. apply bind_Some in H as (f & _ & H). apply bind_Some in H as (conn & _ & H). apply bind_Some in H as (s & H1 & H). rewrite (IH _ _ H). destruct (_ && _); [by apply notify_locked_core in H1|by injection H1 as <-]. Qed.

Lemma notify_async_core st st' : horizon_sync_notify_async_locked st = Some st' -> core st' = core st.
Proof. apply notify_ready_core. Qed.

Lemma notify_alertable_core l : forall st t st', notify_alertable st l t = Some st' -> core st' = core st.
Proof. induction l as [|w l IH]; intros st t st' H; [by injection H as <-|]. cbn [notify_alertable] in H. apply bind_Some in H as (f & _ & H). apply bind_Some in H as (conn & _ & H). apply bind_Some in H as (s & H1 & H). rewrite (IH _ _ _ H). destruct (_ && _); [by apply notify_locked_core in H1|by injection H1 as <-]. Qed.
#[export] Hint Resolve notify_object_core notify_async_core notify_alertable_core : server_core.

(** ** Signals and ends *)

Lemma set_signaled_core st o obj st' : set_signaled st o obj = Some st' -> core st' = core st.
Proof. unfold set_signaled. core_run. Qed.

Lemma release_mutex_core st tid o obj r st' : release_mutex st tid o obj = Some (r, st') -> core st' = core st.
Proof. unfold release_mutex. destruct (horizon_mutex_release (ob_mutex obj) tid) as [[s n] m]. core_run. Qed.
#[export] Hint Resolve set_signaled_core release_mutex_core : server_core.

Lemma signal_object_core st c h r st' : horizon_server_signal_object_locked st c h = Some (r, st') -> core st' = core st.
Proof. unfold horizon_server_signal_object_locked. core_run. Qed.

Lemma update_timers_core l : forall st now st', update_timers st l now = Some st' -> core st' = core st.
Proof.
  induction l as [|t l IH]; intros st now st' H; [by injection H as <-|]. cbn [update_timers] in H. apply bind_Some in H as (obj & _ & H). destruct (now <? _); [by apply (IH _ _ _ H)|]. apply bind_Some in H as (s & H1%notify_object_core & H). rewrite (IH _ _ _ H), H1. by destruct (nonzero _).
Qed.

Lemma server_update_timers_core st now st' : horizon_server_update_timers_locked st now = Some st' -> core st' = core st.
Proof. apply update_timers_core. Qed.

Lemma end_wait_core st c st' : horizon_server_end_completion_wait_locked st c = Some st' -> core st' = core st.
Proof. unfold horizon_server_end_completion_wait_locked. core_run. Qed.

Lemma abandon_core l : forall st tid st', abandon_mutexes st l tid = Some st' -> core st' = core st.
Proof.
  induction l as [|e l IH]; intros st tid st' H; [by injection H as <-|]. cbn [abandon_mutexes] in H. apply bind_Some in H as ([[en o] obj] & _ & H). apply bind_Some in H as (s & H1 & H). rewrite (IH _ _ _ H).
  destruct (decide _); [|by injection H1 as <-]. destruct (horizon_mutex_abandon _ _) as [held m]. destruct held; [by apply notify_object_core in H1|by injection H1 as <-].
Qed.
#[export] Hint Resolve signal_object_core server_update_timers_core end_wait_core abandon_core : server_core.

Lemma end_thread_core st c now st' : horizon_server_end_thread_locked st c now = Some st' -> core st' = core st.
Proof. unfold horizon_server_end_thread_locked. core_run. Qed.

Lemma post_core st p k v s i st' : horizon_server_post_completion_locked st p k v s i = Some st' -> core st' = core st.
Proof. unfold horizon_server_post_completion_locked, ws_alloc. core_run. Qed.

Lemma completion_wait_core st c r st' : horizon_server_completion_wait_locked st c = Some (r, st') -> core st' = core st.
Proof. unfold horizon_server_completion_wait_locked. core_run. Qed.

Lemma bind_core st w p st' : horizon_server_bind_completion_wait_locked st w p = Some st' -> core st' = core st.
Proof. unfold horizon_server_bind_completion_wait_locked. core_run. Qed.
#[export] Hint Resolve end_thread_core post_core completion_wait_core bind_core : server_core.

Lemma close_sock_core st obj l st' : close_sock st obj l = Some st' -> core st' = core st.
Proof. unfold close_sock. core_run. Qed.

Lemma close_port_core st o obj st' : close_port st o obj = Some st' -> core st' = core st.
Proof. unfold close_port. core_run. Qed.

Lemma close_reference_core st o r st' : close_reference st o = Some (r, st') -> core st' = core st.
Proof. unfold close_reference, delete_on_close, outside. core_run. Qed.
#[export] Hint Resolve close_sock_core close_port_core close_reference_core : server_core.

Lemma close_handle_core st h l r st' : horizon_server_close_object_handle st h l = Some (r, st') -> core st' = core st.
Proof. unfold horizon_server_close_object_handle. core_run. Qed.

Lemma alloc_thread_core st a b c d r st' : horizon_server_alloc_thread_locked st a b c d = (r, st') -> core st' = core st.
Proof. unfold horizon_server_alloc_thread_locked, ws_alloc. core_run. Qed.
#[export] Hint Resolve close_handle_core alloc_thread_core : server_core.

Lemma new_thread_core st a b c d e f g r st' : new_thread_locked st a b c d e f g = Some (r, st') -> core st' = core st.
Proof. unfold new_thread_locked. core_run. Qed.

Lemma thread_handle_core st o a r st' : thread_handle st o a = Some (r, st') -> core st' = core st.
Proof. unfold thread_handle. core_run. Qed.

Lemma queue_apc_core st t l r st' : horizon_server_queue_user_apc_locked st t l = Some (r, st') -> core st' = core st.
Proof. unfold horizon_server_queue_user_apc_locked, ws_alloc. core_run. Qed.

Lemma let_go_core st o st' : let_go st o = Some st' -> core st' = core st.
Proof. unfold let_go. core_run. Qed.

Lemma remove_view_core st p b st' : horizon_server_remove_image_view_locked st p b = Some st' -> core st' = core st.
Proof. unfold horizon_server_remove_image_view_locked. core_run. Qed.

Lemma init_turn_core st c r st' : init_thread_turn st c = Some (r, st') -> core st' = core st.
Proof. unfold init_thread_turn. core_run. Qed.

Lemma init_enter_core st c a b st' : init_thread_enter st c a b = Some st' -> core st' = core st.
Proof. unfold init_thread_enter. core_run. Qed.
#[export] Hint Resolve new_thread_core thread_handle_core queue_apc_core let_go_core remove_view_core init_turn_core init_enter_core : server_core.

(** ** Requests *)

Lemma create_plain_core st t start r st' : create_plain st t start = Some (r, st') -> core st' = core st.
Proof. unfold create_plain. core_run. Qed.

Lemma create_named_core st t name start r st' : create_named st t name start = Some (r, st') -> core st' = core st.
Proof. unfold create_named. core_run. Qed.

Lemma close_unused_core st fd : core (close_unused st fd) = core st.
Proof. unfold close_unused. by destruct (fd =? -1). Qed.

Lemma create_mapping_core st name fd file_name image shared r st' : create_mapping_object st name fd file_name image shared = Some (r, st') -> core st' = core st.
Proof. unfold create_mapping_object. core_run; unfold close_unused in *; core_run. Qed.
#[export] Hint Resolve create_plain_core create_named_core create_mapping_core : server_core.

Lemma request_core st c conn r a st' : request_do st c conn r = Some (a, st') -> core st' = core st.
Proof.
  destruct r; cbn [request_do];
    unfold horizon_server_handle_create_event, horizon_server_handle_create_mutex, horizon_server_handle_create_semaphore, horizon_server_handle_create_timer, horizon_server_handle_create_keyed_event, horizon_server_handle_create_completion,
      handle_reply, status_reply, horizon_server_handle_event_op, horizon_server_handle_query_event, horizon_server_handle_release_mutex, horizon_server_handle_query_mutex, horizon_server_handle_release_semaphore, horizon_server_handle_query_semaphore,
      horizon_server_handle_set_timer, horizon_server_handle_cancel_timer, horizon_server_handle_get_timer_info, horizon_server_handle_add_completion, horizon_server_handle_remove_completion, horizon_server_handle_get_thread_completion,
      horizon_server_handle_query_completion, horizon_server_handle_set_completion_info, horizon_server_handle_add_fd_completion, horizon_server_handle_set_fd_completion_mode, horizon_server_handle_open_process, horizon_server_handle_new_thread,
      horizon_server_handle_resume_thread, horizon_server_handle_suspend_thread, horizon_server_handle_terminate_thread, horizon_server_handle_open_thread, horizon_server_handle_get_next_thread, horizon_server_handle_queue_apc, create_file_object, open_device, open_key_object,
      registry_notification, create_mapping_end, shared_file_object, mapping_shared_handle, mapping_data, horizon_server_handle_map_image_view, typed, with_thread, done, hold, close_unused, ws_alloc, outside; core_run.
Qed.
