(* ===== verification/ServerSafe.v ===== *)
(** * The running server

    The server from its start, by the events of [ServerSelect]: no event faults,
    counts of references are exact, and no select sleeps when it has something
    to return. *)
From S2P Require Import Prelude Chain Completion Threads ServerObjects ServerSync ServerRequests ServerSelect ServerInv ServerLinks ServerWake ServerKeep ServerHandlers ServerPorts ServerClients ServerParts ServerTurns ServerFrames.
Local Open Scope Z_scope.

(** ** Runs *)

(** The counters of [horizon.c] start at these values. *)
Definition server_start (memory : nat -> bool) (answers : nat -> Z) : wine_server :=
  mk_wine_server ∅ ∅ [] ∅ 0x100 [] [] 0 4 ∅ ∅ [] [] [] [] memory 0 answers 0 [].

(** Counters that have room for one more event. *)
Definition server_fits (st : wine_server) : bool :=
  forallb (fun x => (ob_refs (snd x) + 256 <? 4294967296) && (cq_depth (ob_completion (snd x)) + 1 <? 4294967296)) (map_to_list (ws_objects st)) &&
  (0 <=? ws_next_handle st) && (ws_next_handle st + 4 <? 4294967296).

Inductive server_reachable (memory : nat -> bool) (answers : nat -> Z) : wine_server -> Prop :=
  | reachable_start : server_reachable memory answers (server_start memory answers)
  | reachable_step st ev a st' : server_reachable memory answers st -> server_allowed st ev = true -> server_fits st = true -> server_do st ev = Some (a, st') -> server_reachable memory answers st'.

(** A run of allowed events: the answers and the server. *)
Fixpoint server_run (st : wine_server) (evs : list server_event) : option (list answer * wine_server) :=
  match evs with
  | [] => Some ([], st)
  | ev :: evs => if server_allowed st ev && server_fits st then '(a, st) ← server_do st ev; '(l, st) ← server_run st evs; Some (a :: l, st) else None
  end.

Lemma server_run_reachable memory answers evs : forall st l st', server_reachable memory answers st -> server_run st evs = Some (l, st') -> server_reachable memory answers st'.
Proof.
  induction evs as [|ev evs IH]; intros st l st' R H; [by injection H as _ <-|]. cbn [server_run] in H. destruct (_ && _) eqn:E; [|done]. apply andb_true_iff in E as [E1 E2]. apply bind_Some in H as ([a st1] & H1 & H). apply bind_Some in H as ([l2 st2] & H2 & H). injection H as _ <-.
  apply (IH st1 l2); [by eapply reachable_step|done].
Qed.

Lemma fits_ok st : server_fits st = true -> fits st.
Proof.
  unfold server_fits. rewrite !andb_true_iff. intros [[H1 H2] H3]. rewrite forallb_forall in H1.
  assert (forall o obj, ws_objects st !! o = Some obj -> ob_refs obj + 256 < 4294967296 /\ cq_depth (ob_completion obj) + 1 < 4294967296) as H.
  { intros o obj Ho. specialize (H1 (o, obj)). simpl in H1. assert (In (o, obj) (map_to_list (ws_objects st))) as Hin by (by apply list_elem_of_In, elem_of_map_to_list). specialize (H1 Hin). lia. }
  split; [intros o obj Ho; by apply (H o)|split; lia|intros o obj Ho; by apply (H o)].
Qed.

(** ** What may happen *)

Lemma busy_idle st tid : busy st tid = false -> idle st tid.
Proof.
  unfold busy. intros H w f Hw Ht. assert (existsb (fun x => bool_decide (frame_tid st (fst x) = Some tid)) (map_to_list (ws_frames st)) = true) as E; [|congruence].
  apply existsb_exists. exists (w, f). split; [by apply list_elem_of_In, elem_of_map_to_list|]. by apply bool_decide_eq_true_2.
Qed.

Lemma may_request_ok st c : may_request st c = true -> exists conn, ws_conns st !! c = Some conn /\ cn_tid conn <> 0 /\ is_Some (cn_thread conn) /\ idle st (cn_tid conn).
Proof.
  unfold may_request. destruct (ws_conns st !! c) as [conn|]; [|done]. rewrite !andb_true_iff. intros [[H1 H2] H3]. exists conn. split; [done|]. split; [by apply nonzero_spec|]. split; [by apply bool_decide_eq_true_1 in H2|]. apply busy_idle. by apply negb_true_iff.
Qed.

Lemma idle_no_frame st c conn : ws_conns st !! c = Some conn -> idle st (cn_tid conn) -> ws_frames st !! c = None.
Proof. intros Hc Hi. destruct (ws_frames st !! c) as [f|] eqn:E; [|done]. destruct (Hi c f E). unfold frame_tid. by rewrite Hc. Qed.

Lemma own_waits_ok st X c conn op : server_inv st X -> ws_conns st !! c = Some conn -> own_waits st c op = true -> Forall (owned st (cn_tid conn)) (op_handles op).
Proof.
  intros I Hc. unfold own_waits. rewrite Hc. rewrite forallb_forall. intros H. apply Forall_forall. intros h Hh e en He Hen Heh Hty. specialize (H h (proj1 (list_elem_of_In _ _) Hh)). unfold own_handle in H. rewrite (find_handle_is st X h e en I He Hen Heh) in H.
  destruct (entry_ok st X e I He) as (en' & obj & E & Hen' & Ho). rewrite Hen in Hen'. injection Hen' as <-. rewrite E in H. unfold type_at in Hty. rewrite Ho in Hty. injection Hty as Hty. apply orb_prop in H as [H|H].
  - rewrite bool_decide_eq_true_2 in H by done. done.
  - unfold own_wait in H. apply existsb_exists in H as ([c2 conn2] & Hin & H). apply list_elem_of_In, elem_of_map_to_list in Hin. apply andb_true_iff in H as [H1 H2]. apply bool_decide_eq_true_1 in H1. simpl in *. exists c2, conn2. split; [done|]. split; [done|lia].
Qed.

(** ** The invariant *)

Definition server_ok (st : wine_server) : Prop := good st [] /\ frames_tried st.

Lemma core_tried st st' : core st' = core st -> frames_tried st -> frames_tried st'.
Proof.
  intros E T w f' Hf'. assert (core st !! w = Some (frame_core f')) as Hw by (rewrite <- E; unfold core; by rewrite lookup_fmap, Hf'). unfold core in Hw. rewrite lookup_fmap in Hw. destruct (ws_frames st !! w) as [f|] eqn:Hf; [|done]. injection Hw as H1 H2 H3 H4.
  destruct (T w f Hf) as [A1 A2 A3]. split; [by rewrite <- H1, <- H2|by rewrite <- H2, <- H3|by rewrite <- H4, <- H2].
Qed.

Lemma start_ok memory answers : server_ok (server_start memory answers).
Proof.
  split; [split|].
  - split; try done.
    + split; [done|]. intros o Ho. unfold server_refs in Ho. simpl in Ho. by apply elem_of_nil in Ho.
    + split; [apply NoDup_nil_2|by intros e ?%elem_of_nil|by intros e1 e2 ? ? ?%elem_of_nil|intros b; apply NoDup_nil_2|]. intros b e. change (e ∈ [] <-> e ∈ [] /\ exists en, (∅ : gmap positive horizon_server_handle_entry) !! e = Some en /\ horizon_server_handle_bucket (he_handle en) = b). split; [by intros ?%elem_of_nil|by intros [?%elem_of_nil _]].
    + split; [apply NoDup_nil_2| |apply NoDup_nil_2|]; intros t; (split; [by intros ?%elem_of_nil|]); [by intros (obj & Ho & _)|done].
    + split; [apply NoDup_nil_2|]. intros w. split; [by intros ?%elem_of_nil|]. by intros (f & Hf & _).
  - intros w f Hw. done.
  - intros w f Hw. done.
Qed.

Lemma safe_answered r : safe (A := Z * list Z) r -> exists a st', answered r = Some (a, st') /\ good st' [].
Proof. intros ([s fs] & st' & -> & G). by eexists _, st'. Qed.

Lemma request_safe st c conn r : good st [] -> fits st -> ws_conns st !! c = Some conn -> cn_tid conn <> 0 -> idle st (cn_tid conn) -> cn_direct conn = false \/ direct_request r = true -> event_clock (Ev_request c r) = true -> safe (A := Z * list Z) (request_do st c conn r).
Proof.
  intros G F Hc Htid Hidle Hd Hclock. pose proof (idle_no_frame st c conn Hc Hidle) as Hf. assert (refs_room st 0) as R0 by (by apply (refs_room_le _ 256); [apply F|]).
  destruct r; cbn [request_do]; [apply create_event_safe|apply create_mutex_safe|apply create_semaphore_safe|apply create_timer_safe|apply create_keyed_event_safe|apply create_completion_safe|apply open_named_safe|apply event_op_safe|apply query_event_safe|apply release_mutex_safe|apply query_mutex_safe|apply release_semaphore_safe|apply query_semaphore_safe|..]; try done.
  - cbn [event_clock] in Hclock. apply andb_true_iff in Hclock as [H1 H2]. by apply set_timer_safe.
  - by apply cancel_timer_safe.
  - by apply get_timer_info_safe.
  - by apply add_completion_safe.
  - destruct Hd as [Hd|]; [|done]. by apply (remove_completion_safe st c conn).
  - by apply (get_thread_completion_safe st c).
  - by apply query_completion_safe.
  - by apply set_completion_info_safe.
  - by apply add_fd_completion_safe.
  - by apply set_fd_mode_safe.
  - unfold status_reply. destruct (close_handle_ok st [] handle cancelled G R0) as (s & st' & -> & G' & _). by apply safe_ret.
  - by apply (duplicate_safe st c conn).
  - destruct (compare_safe st c conn first second G Hc) as (s & ->). by apply safe_ret.
  - apply create_plain_ok; [done|done|done|apply starts_id].
  - by apply open_process_safe.
  - by apply new_thread_safe.
  - by apply (init_enter_safe st c conn).
  - by apply (resume_safe st c conn).
  - by apply (suspend_safe st c conn).
  - by apply (terminate_safe st c conn).
  - by apply open_thread_safe.
  - by apply get_next_thread_safe.
  - by apply (queue_apc_safe st c conn).
  - by apply create_file_safe.
  - by apply open_device_safe.
  - by apply open_key_safe.
  - by apply registry_notification_safe.
  - by apply create_mapping_safe.
  - by apply mapping_shared_safe.
  - by apply map_view_safe.
  - by apply unmap_view_safe.
Qed.

Definition event_ok (r : option (answer * wine_server)) : Prop := exists a st', r = Some (a, st') /\ server_ok st'.

Lemma turned_ok r : turn_ok r -> event_ok (turned r).
Proof. intros (t & st' & -> & G & T). by eexists _, st'. Qed.

(** An event that is no turn of a select. *)
Lemma kept_ok st r : frames_tried st -> (exists a st', r = Some (a, st') /\ good st' []) -> (forall a st', r = Some (a, st') -> core st' = core st) -> event_ok r.
Proof. intros T (a & st' & E & G) Hc. exists a, st'. split; [done|]. split; [done|]. by apply (core_tried st), T; apply (Hc a). Qed.

Lemma silent_good r : (exists st', r = Some st' /\ good st' []) -> exists a st', silent r = Some (a, st') /\ good st' [].
Proof. intros (st' & -> & G). by eexists _, st'. Qed.

Lemma connect_good st c : good st [] -> ws_conns st !! c = None -> good (put_conn st c (mk_connection 0 0 false None None 0)) [].
Proof.
  intros G Hc. apply (good_put_conn st [] [] c); [done|by apply (conn_free_new st [] c _ (proj1 G))|by split|]. intros p. unfold conn_refs_at. by rewrite Hc.
Qed.

Lemma end_good st c conn now : good st [] -> fits st -> ws_conns st !! c = Some conn -> ws_frames st !! c = None -> idle st (cn_tid conn) -> is_Some (cn_thread conn) \/ cn_completion_wait conn = None ->
  exists st', (st ← match cn_thread conn with Some _ => horizon_server_end_thread_locked st c now | None => Some st end; Some (s_conns st (delete c (ws_conns st)))) = Some st' /\ good st' [].
Proof.
  intros G F Hc Hf Hidle Hor. assert (refs_room st 0) as R0 by (by apply (refs_room_le _ 256); [apply F|]).
  assert (exists st1 conn1, match cn_thread conn with Some _ => horizon_server_end_thread_locked st c now | None => Some st end = Some st1 /\ good st1 [] /\ ws_conns st1 !! c = Some conn1 /\ connection_refs conn1 = [] /\ ws_frames st1 !! c = None) as (st1 & conn1 & -> & G1 & Hc1 & Hr1 & Hf1).
  { destruct (cn_thread conn) as [t|] eqn:Ht.
    - destruct (end_thread_ok st [] c conn now G R0 Hc Hf) as (st1 & conn1 & E & G1 & [E1 E2 E3 E4 E5 E6] & Ht1); [done|]. exists st1, conn1. split; [done|]. split; [done|]. split; [rewrite E1; apply lookup_insert_eq|]. split; [unfold connection_refs; by rewrite E4, Ht1|].
      destruct (ws_frames st1 !! c) as [f|] eqn:E7; [|done]. destruct (E5 c (ex_intro _ f E7)) as [x Hx]. congruence.
    - destruct Hor as [[x Hx]|Hw]; [done|]. exists st, conn. split; [done|]. split; [done|]. split; [done|]. split; [unfold connection_refs; by rewrite Ht, Hw|done]. }
  cbn [mbind option_bind]. eexists. split; [done|]. pose proof (good_delete_conn st1 [] c G1) as G2. unfold conn_refs_at in G2. rewrite Hc1, Hr1 in G2. apply G2. split; [done|]. intros old o Hold Hw. rewrite Hc1 in Hold. injection Hold as <-. unfold connection_refs in Hr1. rewrite Hw in Hr1. by destruct (cn_thread conn1).
Qed.

Lemma connection_good st ev : good st [] -> fits st -> server_allowed st ev = true ->
  match ev with Ev_connect _ | Ev_init_first_thread _ _ _ _ | Ev_end _ _ | Ev_direct _ _ | Ev_direct_end _ => True | _ => False end -> exists a st', server_do st ev = Some (a, st') /\ good st' [].
Proof.
  intros G F Ha Hev. unfold server_allowed in Ha. apply andb_true_iff in Ha as [_ Ha]. destruct ev; try done; cbn [server_do].
  - apply andb_true_iff in Ha as [Hc _]. apply bool_decide_eq_true_1 in Hc. eexists _, _. split; [done|]. by apply connect_good.
  - destruct (ws_conns st !! c) as [conn|] eqn:Hc; [|done]. rewrite !andb_true_iff in Ha. destruct Ha as [[[H1 H2] H3] H4]. apply bool_decide_eq_true_1 in H3, H4. apply safe_answered. apply (init_first_safe st c conn); [done|done|done|lia|done].
  - destruct (ws_conns st !! c) as [conn|] eqn:Hc; [|done]. rewrite !andb_true_iff in Ha. destruct Ha as [[[H1 H2] H3] H4]. apply bool_decide_eq_true_1 in H3. apply negb_true_iff in H2. cbn [mbind option_bind].
    destruct (end_good st c conn now G F Hc H3 (busy_idle _ _ H2)) as (st' & E & G'). { apply orb_prop in H4 as [H4|H4]; apply bool_decide_eq_true_1 in H4; [by left|by right]. }
    apply bind_Some in E as (st1 & E1 & E2). injection E2 as <-. rewrite E1. cbn [mbind option_bind]. by eexists _, _.
  - rewrite !andb_true_iff in Ha. destruct Ha as [[H1 H2] H3]. apply bool_decide_eq_true_1 in H2. destruct (sync_get_thread_ok st c tid G F H2) as (a & st' & -> & G'); [intros conn Hc; by rewrite Hc in H3|]. by eexists _, _.
  - rewrite !andb_true_iff in Ha. destruct Ha as [H2 H3]. apply bool_decide_eq_true_1 in H2. destruct (ws_conns st !! c) as [conn|] eqn:Hc; [|done]. apply silent_good. by apply (release_thread_ok st c conn).
Qed.

Lemma parts_good st ev : good st [] -> fits st -> server_allowed st ev = true ->
  match ev with Ev_registry_signal _ | Ev_async_new _ _ | Ev_async_finish _ _ _ | Ev_async_free _ | Ev_sock_ready _ | Ev_sock_event _ => True | _ => False end -> exists a st', server_do st ev = Some (a, st') /\ good st' [].
Proof.
  intros G F Ha Hev. unfold server_allowed in Ha. apply andb_true_iff in Ha as [_ Ha]. destruct ev; try done; cbn [server_do].
  - apply bool_decide_eq_true_1 in Ha. apply silent_good. by apply registry_signal_ok.
  - destruct (async_new_ok st sock event G F) as (st1 & st' & -> & E & G'). cbn [mbind option_bind]. apply silent_good. by exists st'.
  - apply silent_good, async_finish_ok; [done|done|]. intros port m Hp. rewrite Hp in Ha. destruct m. by apply bool_decide_eq_true_1 in Ha.
  - apply silent_good, async_free_ok; [done|done|]. intros p Hp. rewrite Hp in Ha. by apply bool_decide_eq_true_1 in Ha.
  - apply silent_good. by apply sock_ready_ok.
  - destruct (signal_object_ok st [] None handle G) as (s & st' & -> & G' & _). by eexists _, _.
Qed.

(** Events other than turns keep what selects know of being queued. *)
Lemma event_core st ev a st' : match ev with Ev_select _ _ _ _ _ _ _ | Ev_turn _ _ _ _ => False | _ => True end -> server_do st ev = Some (a, st') -> core st' = core st.
Proof.
  destruct ev; try done; intros _; cbn [server_do]; unfold answered, silent.
  - core_run.
  - unfold horizon_server_handle_init_first_thread. core_run.
  - intros H. apply bind_Some in H as (conn & _ & H). apply bind_Some in H as ([[s fs] st1] & H & H2). injection H2 as _ <-. by apply request_core in H.
  - core_run.
  - core_run.
  - unfold horizon_sync_get_thread_locked, sync_forget, sync_find, ws_alloc. core_run.
  - unfold horizon_sync_release_thread. core_run.
  - unfold horizon_registry_signal. core_run.
  - unfold async_new_port, async_new_event, hold. core_run.
  - unfold horizon_async_finish_locked. core_run.
  - unfold horizon_server_async_free_locked. core_run.
  - unfold sock_poll_ready. core_run.
  - core_run.
Qed.

Lemma server_do_ok st ev : server_ok st -> server_allowed st ev = true -> server_fits st = true -> event_ok (server_do st ev).
Proof.
  intros [G T] Ha F%fits_ok. assert (refs_room st 128) as R by (by apply (refs_room_le _ 256); [apply F|]). pose proof Ha as Ha'. unfold server_allowed in Ha. apply andb_true_iff in Ha as [Hclock Ha].
  destruct ev; try (apply (kept_ok st); [done|by apply connection_good|by intros ? ?; apply event_core]); try (apply (kept_ok st); [done|by apply parts_good|by intros ? ?; apply event_core]).
  - apply andb_true_iff in Ha as [Hm Hd]. destruct (may_request_ok st c Hm) as (conn & Hc & Htid & Hth & Hidle). rewrite Hc in Hd. apply (kept_ok st); [done| |by intros ? ?; apply event_core]. cbn [server_do]. rewrite Hc. cbn [mbind option_bind]. apply safe_answered.
    apply request_safe; try done. apply orb_prop in Hd as [Hd|Hd]; [left; by apply negb_true_iff|by right].
  - destruct (may_request_ok st c Ha) as (conn & Hc & _). apply (kept_ok st); [done| |by intros ? ?; apply event_core]. cbn [server_do]. destruct (start_gate_ok st c conn G Hc) as (b & st' & -> & G'). by eexists _, _.
  - apply andb_true_iff in Ha as [Hm Hw]. destruct (may_request_ok st c Hm) as (conn & Hc & Htid & Hth & Hidle). cbn [event_clock] in Hclock. apply is_clock_spec in Hclock. destruct (begin_good st c conn op alertable timeout contexts G T Hc Htid Hth (idle_no_frame st c conn Hc Hidle) Hidle) as [G1 T1].
    cbn [server_do]. apply turned_ok. eapply (select_turn_ok _ c _ conn); [done|exact R|done|apply lookup_insert_eq|done| |lia]. eapply Forall_impl; [exact (own_waits_ok st [] c conn op (proj1 G) Hc Hw)|]. intros h Ho. exact Ho.
  - cbn [event_clock] in Hclock. apply is_clock_spec in Hclock. destruct (ws_frames st !! c) as [f|] eqn:Hf; [|done]. destruct (frame_thread_ok st [] c f (proj1 G) Hf) as (conn & _ & _ & Hc & _). cbn [server_do]. apply turned_ok. apply (select_turn_ok st c f conn); try done; [exact (own_waits_ok st [] c conn (wt_op f) (proj1 G) Hc Ha)|lia].
Qed.

Lemma reachable_server_ok memory answers st : server_reachable memory answers st -> server_ok st.
Proof.
  induction 1 as [|st ev a st' _ IH Ha Hf E]; [apply start_ok|]. destruct (server_do_ok st ev IH Ha Hf) as (b & st2 & E2 & Hok). rewrite E in E2. injection E2 as _ ->. done.
Qed.
