(* ===== verification/ServerTheorems.v ===== *)
(** * What the server promises

    The theorems on the objects, handles and waits of the server, over all runs
    of [ServerSafe]. *)
From S2P Require Import Prelude Chain Completion Threads ServerObjects ServerSync ServerRequests ServerSelect ServerInv ServerLinks ServerWake ServerKeep ServerHandlers ServerTurns ServerFrames ServerSafe.
Local Open Scope Z_scope.

(** ** A run to look at *)

Definition plenty (n : nat) : bool := true.
Definition no_error (n : nat) : Z := 0.
Definition unnamed : horizon_object_name := mk_object_name 0 [].

(** Client 1 starts, makes an auto-reset event and a mutex it owns, and a second
    thread, which is client 2, starts, calls the server directly as client 4 and
    sleeps on the event and the mutex. *)
Definition sample_events : list server_event :=
  [Ev_connect 1; Ev_init_first_thread 1 1 1 5;
   Ev_request 1 (Rq_create_event unnamed false false);
   Ev_request 1 (Rq_create_mutex unnamed true);
   Ev_request 1 (Rq_new_thread 0x1fffff 1 5 false false);
   Ev_request 2 (Rq_init_thread 0x7000 0x8000);
   Ev_start_gate 2;
   Ev_direct 4 8;
   Ev_select 4 (Select_wait [0x104; 0x108] false) true TIMEOUT_INFINITE false 10 10].

Definition sample_server : wine_server := match server_run (server_start plenty no_error) sample_events with Some (_, st) => st | None => server_start plenty no_error end.

Lemma sample_server_reachable : server_reachable plenty no_error sample_server.
Proof.
  unfold sample_server. destruct (server_run (server_start plenty no_error) sample_events) as [[l st]|] eqn:E; [|apply reachable_start]. apply (server_run_reachable plenty no_error sample_events (server_start plenty no_error) l st); [apply reachable_start|done].
Qed.

(** ** Safety *)

(** An event that comes to an end, without a fault. *)
Definition returns (r : option (answer * wine_server)) : Prop := exists a st', r = Some (a, st').

(** How many pointers to the object there are. *)
Definition pointers_to (st : wine_server) (o : positive) : nat := occ o (server_refs st).

Definition server_typed (st : wine_server) : Prop :=
  (forall o obj, ws_objects st !! o = Some obj -> object_ok (ws_objects st) obj) /\ conns_ok (ws_objects st) (ws_conns st) /\ lists_ok (ws_objects st) (ws_timers st) (ws_threads st).

(** C2: an event the clients and the other parts of the server make never uses
    freed memory, never unlinks what is not linked and always comes to an end:
    from every state the server can reach it returns, while no counter wraps. *)
Theorem server_no_fault memory answers st ev :
  server_reachable memory answers st -> server_allowed st ev = true -> server_fits st = true -> returns (server_do st ev).
Proof. intros R Ha Hf. destruct (server_do_ok st ev (reachable_server_ok _ _ _ R) Ha Hf) as (a & st' & E & _). by exists a, st'. Qed.

Lemma server_no_fault_witness : returns (server_do sample_server (Ev_request 1 (Rq_event_op 0x104 SET_EVENT))).
Proof. apply (server_no_fault plenty no_error); [apply sample_server_reachable|vm_compute; reflexivity|vm_compute; reflexivity]. Defined.

(** C4: the count of an object is the number of handles, objects, connections,
    links of selects and other parts that refer to it, and whatever is referred
    to is there. *)
Theorem server_counts_exact memory answers st :
  server_reachable memory answers st ->
  (forall o obj, ws_objects st !! o = Some obj -> ob_refs obj = Z.of_nat (pointers_to st o)) /\ (forall o, (0 < pointers_to st o)%nat -> is_Some (ws_objects st !! o)).
Proof.
  intros R. destruct (reachable_server_ok _ _ _ R) as [[I _] _]. destruct (si_refs _ _ I) as [H1 H2]. rewrite app_nil_r in H1, H2. split; [exact H1|]. intros o Ho. apply H2. by apply occ_elem.
Qed.

Lemma server_counts_exact_witness : pointers_to sample_server 2 = 2%nat /\ is_Some (ws_objects sample_server !! 2%positive).
Proof. split; [vm_compute; reflexivity|]. apply (server_counts_exact plenty no_error sample_server sample_server_reachable). vm_compute. auto. Defined.

(** C40: pointers have objects of the right type: a completion wait waits on a
    port, a file posts to a port, a section shares a file, a connection has a
    thread and a completion wait, the lists of timers and threads have exactly
    the timers that are set and the threads. *)
Theorem server_well_typed memory answers st :
  server_reachable memory answers st -> server_typed st.
Proof. intros R. destruct (reachable_server_ok _ _ _ R) as [[I _] _]. split; [apply I|]. split; apply I. Qed.

Lemma server_well_typed_witness : conns_ok (ws_objects sample_server) (ws_conns sample_server).
Proof. apply (server_well_typed plenty no_error sample_server sample_server_reachable). Defined.

(** ** The table of handles *)

(** The entry of a handle, searched in the list of all handles. *)
Definition find_in_list (st : wine_server) (h : Z) : option positive :=
  List.find (fun e => match ws_entries st !! e with Some en => he_handle en =? h | None => false end) (ws_handles st).

(** C39: Looking a handle up in the hash is searching it in the list of all
    handles, in every state the server reaches while no counter wraps: the
    chain of its bucket has the entry exactly when the list has it, and the
    walk uses no entry that was freed. *)
Theorem handle_lookup_is_search memory answers st h :
  server_reachable memory answers st -> horizon_server_find_handle_locked st h = Some (find_in_list st h).
Proof.
  intros R. destruct (reachable_server_ok _ _ _ R) as [[I _] _]. unfold find_in_list. destruct (List.find _ (ws_handles st)) as [e|] eqn:E.
  - apply find_some in E as [He Hh]. apply list_elem_of_In in He. destruct (ws_entries st !! e) as [en|] eqn:Hen; [|done]. apply (find_handle_is st [] h e en I He Hen). lia.
  - destruct (find_handle_ok st [] h I) as (r & -> & Hr). destruct r as [e|]; [|done]. destruct Hr as (He & en & Hen & Hh). apply list_elem_of_In in He. pose proof (find_none _ _ E e He) as Hn. simpl in Hn. rewrite Hen in Hn. lia.
Qed.

Lemma handle_lookup_is_search_witness : horizon_server_find_handle_locked sample_server 0x108 = Some (find_in_list sample_server 0x108).
Proof. apply (handle_lookup_is_search plenty no_error), sample_server_reachable. Defined.

(** ** Waits *)

Lemma wait_any_still st X c conn handles i : server_inv st X -> ws_conns st !! c = Some conn -> is_Some (cn_thread conn) -> Forall (handle_still st (cn_tid conn)) handles -> wait_any st (Some c) handles i HORIZON_STATUS_TIMEOUT = Some (HORIZON_STATUS_TIMEOUT, st).
Proof.
  intros I Hc Ht. revert i. induction handles as [|h handles IH]; intros i Hh; [done|]. apply Forall_cons in Hh as [Hh Hhs]. cbn [wait_any]. rewrite (wait_object_still st X c conn h true I Hc Ht Hh). cbn [mbind option_bind]. by apply IH.
Qed.

(** An open handle is signaled or not. *)
Lemma wait_live st X c conn h : server_inv st X -> ws_conns st !! c = Some conn -> is_Some (cn_thread conn) -> live st h ->
  exists s, horizon_server_wait_object_locked st (Some c) h false = Some (s, st) /\ (s = HORIZON_STATUS_SUCCESS \/ s = HORIZON_STATUS_TIMEOUT).
Proof.
  intros I Hc Ht Hl. unfold horizon_server_wait_object_locked. rewrite (current_tid_is st c conn Hc). destruct (Z.eqb_spec h HORIZON_CURRENT_THREAD_HANDLE) as [->|Hnt].
  - change (HORIZON_CURRENT_THREAD_HANDLE =? 0) with false. unfold horizon_server_get_thread_locked. rewrite Z.eqb_refl. cbn [mbind option_bind]. unfold current_thread. cbn [mbind option_bind]. rewrite Hc. rewrite decide_True by done. eauto.
  - destruct Hl as [|(e & en & He & Hen & Hh)]; [done|]. destruct (ta_entry _ _ _ _ (si_table _ _ I) e He) as (en' & Hen' & Hpos). rewrite Hen in Hen'. injection Hen' as <-.
    destruct (Z.eqb_spec h 0); [lia|]. rewrite (find_handle_is st X h e en I He Hen Hh). cbn [mbind option_bind].
    destruct (entry_ok st X e I He) as (en' & obj & -> & Hen' & Ho). cbn [mbind option_bind]. rewrite Hen in Hen'. injection Hen' as <-.
    destruct (is_signaled_ok st X (cn_tid conn) (he_object en) obj I Ho) as (b & -> & _). cbn [mbind option_bind]. destruct b; eauto.
Qed.

Lemma wait_all_still st X c conn handles i h : server_inv st X -> ws_conns st !! c = Some conn -> is_Some (cn_thread conn) -> handles !! i = Some h -> handle_still st (cn_tid conn) h -> Forall (live st) (take i handles) ->
  wait_all_test st (Some c) handles = Some HORIZON_STATUS_TIMEOUT.
Proof.
  intros I Hc Ht. revert i. induction handles as [|x handles IH]; intros i Hi Hs Hlv; [done|]. cbn [wait_all_test]. destruct i as [|i].
  - injection Hi as ->. by rewrite (wait_object_still st X c conn h false I Hc Ht Hs).
  - simpl in Hlv. apply Forall_cons in Hlv as [Hx Hlv]. destruct (wait_live st X c conn x I Hc Ht Hx) as (s & -> & [-> | ->]); [|done]. cbn. by apply (IH i).
Qed.

(** A link that is not signaled, seen from its handle. *)
Lemma link_handle_still st w f conn i h l : server_inv st [] -> mutex_counts st -> ws_frames st !! w = Some f -> ws_conns st !! w = Some conn -> op_handles (wt_op f) !! i = Some h -> wt_links f !! i = Some l -> link_still (ws_objects st) (cn_tid conn) h l ->
  live st h -> handle_still st (cn_tid conn) h.
Proof.
  intros I Hm Hf Hc Hi Hl Hs Hlive. destruct (decide (h = HORIZON_CURRENT_THREAD_HANDLE)) as [->|Hne]; [split; [done|by left]|]. destruct Hlive as [|(e & en & He & Hen & Hh)]; [done|].
  destruct (fo_conn _ _ _ (si_frames _ _ I w f Hf)) as (conn' & Hc' & _ & _ & Hlk). rewrite Hc in Hc'. injection Hc' as <-. destruct (Hlk i l Hl) as [(h' & Hi' & Hok) _ _]. rewrite Hi in Hi'. injection Hi' as <-. unfold handle_ok in Hok. rewrite decide_False in Hok by done.
  pose proof (proj2 Hok e en He Hen Hh) as Heo. destruct (ta_entry _ _ _ _ (si_table _ _ I) e He) as (en' & Hen' & Hpos). rewrite Hen in Hen'. injection Hen' as <-. split; [lia|right]. destruct (entry_ok st [] e I He) as (en' & obj & _ & Hen' & Ho). rewrite Hen in Hen'. injection Hen' as <-.
  exists e, en, obj. repeat (split; [done|]). destruct Hs as [|Hs]; [done|]. unfold signals in Hs. rewrite <- Heo, Ho in Hs. destruct (is_signaled_ok st [] (cn_tid conn) (he_object en) obj I Ho) as (b & Hb & _ & Hf2). by rewrite Hb, (Hf2 Hm Hs).
Qed.

(** A select that does not wait for all its objects. *)
Definition waits_any (op : select_op) : bool := match op with Select_wait _ true => false | _ => true end.

Lemma still_handles st w f conn : server_inv st [] -> mutex_counts st -> ws_frames st !! w = Some f -> ws_conns st !! w = Some conn -> wt_queued f = true -> frame_live st f -> links_still (live st) (ws_objects st) (cn_tid conn) f ->
  waits_any (wt_op f) = true -> Forall (handle_still st (cn_tid conn)) (op_handles (wt_op f)).
Proof.
  intros I Hm Hf Hc Hq Hlive Hs Hany. destruct (fo_queued _ _ _ (si_frames _ _ I w f Hf) Hq) as [Hlen _]. apply Forall_lookup. intros i h Hi.
  assert (exists l, wt_links f !! i = Some l) as [l Hl] by (apply lookup_lt_is_Some_2; rewrite Hlen; by eapply lookup_lt_Some).
  apply (link_handle_still st w f conn i h l I Hm Hf Hc Hi Hl); unfold frame_live, live_handles, links_still in *; destruct (wt_op f) as [|handles [|]| | |]; try done; try (by apply (Hs i h l)); by apply (proj1 (Forall_lookup _ _) Hlive i).
Qed.

Lemma still_status st w f conn : server_inv st [] -> mutex_counts st -> ws_frames st !! w = Some f -> ws_conns st !! w = Some conn -> wt_queued f = true -> frame_live st f -> links_still (live st) (ws_objects st) (cn_tid conn) f ->
  horizon_server_select_status st (Some w) (wt_op f) = Some (HORIZON_STATUS_TIMEOUT, st).
Proof.
  intros I Hm Hf Hc Hq Hlive Hs. destruct (frame_thread_ok st [] w f I Hf) as (conn' & t & obj & Hc' & Htid & Hth & _). rewrite Hc in Hc'. injection Hc' as <-. assert (is_Some (cn_thread conn)) as Hth' by (by eexists).
  destruct (fo_queued _ _ _ (si_frames _ _ I w f Hf) Hq) as [_ Hqh]. destruct (queue_handles_ops _ _ Hqh) as [_ Hcount]. pose proof (still_handles st w f conn I Hm Hf Hc Hq Hlive Hs) as Hall. pose proof (link_handle_still st w f conn) as Hone.
  unfold links_still in Hs. destruct (wt_op f) as [|handles [|]|wait sg| |]; try done; cbn [horizon_server_select_status op_handles waits_any] in *; unfold horizon_server_select_wait; try (rewrite bool_decide_eq_false_2 by (intros ->; simpl in Hcount; lia)).
  - destruct Hs as (i & h & l & Hi & Hl & Hst & Hlv). rewrite (take_S_r _ _ h Hi), Forall_app, Forall_singleton in Hlv. destruct Hlv as [Hlv Hh].
    by rewrite (wait_all_still st [] w conn handles i h I Hc Hth' Hi (Hone i h l I Hm Hf Hc Hi Hl Hst Hh) Hlv).
  - apply (wait_any_still st [] w conn handles 0 I Hc Hth'). by apply Hall.
  - apply (wait_object_still st [] w conn wait true I Hc Hth'). specialize (Hall eq_refl). by inversion Hall.
Qed.

(** C1: no wake-up is lost. A select that sleeps in the lists of its objects,
    and that no one has notified, has nothing to return: looking at its objects
    now, whether it waits for one or for all of them, gives TIMEOUT and changes
    nothing, its thread has no APC for it and is not to stop, and it is not held
    ready. So whatever signals an object, queues an APC, suspends a thread or
    closes a handle notifies the selects that have to look again. This is so
    while no mutex has been taken so often by its owner that its 32-bit count
    wrapped to 0 with the owner still set. *)
Theorem server_no_lost_wakeup memory answers st w f conn :
  server_reachable memory answers st -> mutex_counts st -> ws_frames st !! w = Some f -> ws_conns st !! w = Some conn -> 0 < wt_tried f -> wt_notified f = false -> wt_completed f = false ->
  horizon_server_select_status st (Some w) (wt_op f) = Some (HORIZON_STATUS_TIMEOUT, st) /\
  (exists t obj, cn_thread conn = Some t /\ ws_objects st !! t = Some obj /\ (wt_alertable f = true -> ob_apcs obj = []) /\ ts_started (ob_thread obj) && nonzero (ts_suspend (ob_thread obj)) = false) /\
  cn_tid conn ∉ ws_ready st.
Proof.
  intros R Hm Hf Hc Ht Hn Hd. destruct (reachable_server_ok _ _ _ R) as [[I W] T]. destruct (T w f Hf) as [Hq _ _]. apply Hq in Ht.
  destruct (W w f Hf) as [A B]; [by split|]. destruct (B (fun H => H) conn Hc) as (Hl & Hth & Hr). split; [apply (still_status st w f conn I Hm Hf Hc Ht); [exact (A (fun H => H))|done]|]. split; [|done].
  destruct (frame_thread_ok st [] w f I Hf) as (conn' & t & obj & Hc' & _ & Hct & Ho). rewrite Hc in Hc'. injection Hc' as <-. exists t, obj. split; [done|]. split; [done|]. exact (Hth t obj Hct Ho).
Qed.

Definition mutex_counts_test (st : wine_server) : bool := forallb (fun x => implb (mx_count (ob_mutex (snd x)) =? 0) (mx_owner (ob_mutex (snd x)) =? 0)) (map_to_list (ws_objects st)).

Lemma mutex_counts_tested st : mutex_counts_test st = true -> mutex_counts st.
Proof.
  unfold mutex_counts_test. rewrite forallb_forall. intros H o obj Ho Hc. specialize (H (o, obj) (proj1 (list_elem_of_In _ _) (proj2 (elem_of_map_to_list _ _ _) Ho))). simpl in H. rewrite Hc in H. lia.
Qed.

(** Client 4 sleeps on the event and the mutex of client 1. *)
Definition sample_frame : option horizon_sync_waiter := ws_frames sample_server !! 4%positive.

Lemma server_no_lost_wakeup_witness :
  match sample_frame with Some f => horizon_server_select_status sample_server (Some 4%positive) (wt_op f) = Some (HORIZON_STATUS_TIMEOUT, sample_server) | None => False end.
Proof.
  destruct sample_frame as [f|] eqn:E; [|vm_compute in E; discriminate]. destruct (ws_conns sample_server !! 4%positive) as [conn|] eqn:Ec; [|vm_compute in Ec; discriminate].
  apply (server_no_lost_wakeup plenty no_error sample_server 4 f conn sample_server_reachable); [apply mutex_counts_tested; vm_compute; reflexivity|exact E|exact Ec|vm_compute in E; injection E as <-; vm_compute; reflexivity..].
Defined.
