(* ===== verification/ServerEvents.v ===== *)
(** * Events that wake one thread

    An auto-reset event that is set while threads sleep on it is handed to the
    first of them, within the request that sets it: no other thread, and no later
    wait, can take it in between. *)
From S2P Require Import Prelude Chain Completion Threads ServerObjects ServerSync ServerRequests ServerSelect ServerInv ServerLinks ServerWake ServerKeep ServerHandlers ServerTurns ServerFrames ServerSafe ServerTheorems.
Local Open Scope Z_scope.

(** Handle [h] is open and refers to object [o]. *)
Definition refers (st : wine_server) (h : Z) (o : positive) : Prop :=
  h <> 0 /\ h <> HORIZON_CURRENT_THREAD_HANDLE /\ exists e en, e ∈ ws_handles st /\ ws_entries st !! e = Some en /\ he_handle en = h /\ he_object en = o.

(** The select sleeps and has not been notified, and its thread has nothing to
    run first: it is not to be suspended and has no APC for the select. *)
Definition sleeps (st : wine_server) (w : positive) : bool :=
  match ws_frames st !! w with
  | Some f => wt_queued f && negb (wt_notified f) && negb (wt_completed f) && bool_decide (must_run st w f = Some false)
  | None => false
  end.

Lemma sleeps_spec st w : sleeps st w = true -> exists f, ws_frames st !! w = Some f /\ sleeping f /\ must_run st w f = Some false.
Proof.
  unfold sleeps. destruct (ws_frames st !! w) as [f|]; [|done]. rewrite !andb_true_iff, !negb_true_iff, bool_decide_eq_true. intros [[[H1 H2] H3] H4]. by exists f.
Qed.

Lemma signaled_off obj : ob_signaled obj = false -> o_signaled (o_signaled obj true) false = obj.
Proof. destruct obj. simpl. by intros ->. Qed.

Lemma put_back st m : s_objects (s_objects st m) (ws_objects st) = st.
Proof. by destruct st. Qed.

Section set_event.
  Context (st : wine_server) (o : positive) (obj : server_object).
  Context (I : server_inv st []) (Ho : ws_objects st !! o = Some obj).
  Context (Htype : ob_type obj = OBJECT_EVENT) (Hauto : ob_manual_reset obj = false) (Hoff : ob_signaled obj = false).

(** The server with the event set. *)
Definition event_set : wine_server := put_object st o (o_signaled obj true).

Lemma event_set_inv : server_inv event_set [].
Proof. apply (inv_put_payload st [] o obj); [done|done|by split|apply (oo_payload _ _ (si_objects _ _ I o obj Ho))|done]. Qed.

Lemma event_set_clear : put_object event_set o (o_signaled (o_signaled obj true) false) = st.
Proof.
  unfold event_set, put_object. simpl. rewrite insert_insert_eq. rewrite (signaled_off obj Hoff), (insert_id (ws_objects st) o obj Ho). apply put_back.
Qed.

Lemma event_set_signaled tid p x : ws_objects st !! p = Some x -> horizon_server_object_is_signaled event_set tid x = horizon_server_object_is_signaled st tid x.
Proof.
  intros Hx. unfold horizon_server_object_is_signaled, port_queue. destruct (ob_type x); try done. destruct (ob_wait_port x) as [q|] eqn:Hq; [|done]. destruct (oo_port _ _ (si_objects _ _ I p x Hx) q Hq) as [_ Ht].
  simpl. rewrite lookup_insert_ne; [done|]. intros <-. unfold type_at in Ht. rewrite Ho in Ht. simpl in Ht. congruence.
Qed.

Lemma event_set_still tid h : handle_still st tid h -> refers st h o \/ handle_still event_set tid h.
Proof.
  intros [Hnz [->|(e & en & x & He & Hen & Hh & Hx & Hb)]]; [right; split; [done|by left]|]. destruct (decide (h = HORIZON_CURRENT_THREAD_HANDLE)) as [->|Hne]; [right; split; [done|by left]|].
  destruct (decide (he_object en = o)) as [Heo|Heo]; [left; split; [done|]; split; [done|]; by exists e, en|]. right. split; [done|right]. exists e, en, x. repeat (split; [done|]).
  split; [simpl; by rewrite lookup_insert_ne|]. by rewrite (event_set_signaled tid (he_object en)).
Qed.

(** The wait on the event takes it back. *)
Lemma event_set_wait c h : refers st h o -> horizon_server_wait_object_locked event_set (Some c) h true = Some (HORIZON_STATUS_SUCCESS, st).
Proof.
  intros (Hnz & Hne & e & en & He & Hen & Hh & Heo). unfold horizon_server_wait_object_locked. rewrite !(proj2 (Z.eqb_neq _ _)) by done. rewrite (find_handle_is event_set [] h e en event_set_inv He Hen Hh). cbn [mbind option_bind].
  unfold entry_object. assert (ws_entries event_set !! e = Some en) as -> by done. cbn [mbind option_bind]. assert (ws_objects event_set !! he_object en = Some (o_signaled obj true)) as -> by (rewrite Heo; simpl; by rewrite lookup_insert_eq).
  cbn [mbind option_bind]. unfold horizon_server_object_is_signaled. assert (ob_type (o_signaled obj true) = OBJECT_EVENT) as Ht by done. rewrite Ht. cbn [mbind option_bind]. assert (ob_signaled (o_signaled obj true) = true) as -> by done. cbn [negb].
  unfold horizon_server_consume_signal. rewrite Ht. assert (ob_manual_reset (o_signaled obj true) = false) as -> by done. cbn [mbind option_bind]. by rewrite Heo, event_set_clear.
Qed.

Lemma event_set_any c conn handles i : ws_conns st !! c = Some conn -> is_Some (cn_thread conn) -> Forall (handle_still st (cn_tid conn)) handles -> (exists j h, handles !! j = Some h /\ refers st h o) ->
  exists k h, handles !! k = Some h /\ refers st h o /\ wait_any event_set (Some c) handles i HORIZON_STATUS_TIMEOUT = Some (u32 (i + Z.of_nat k), st).
Proof.
  intros Hc Ht. revert i. induction handles as [|h handles IH]; intros i Hall (j & h' & Hj & Hr); [done|]. apply Forall_cons in Hall as [Hh Hall]. cbn [wait_any]. destruct (event_set_still (cn_tid conn) h Hh) as [Hrh|Hsh].
  - exists 0%nat, h. split; [done|]. split; [done|]. rewrite (event_set_wait c h Hrh). cbn [mbind option_bind]. simpl. by rewrite Z.add_0_r.
  - rewrite (wait_object_still event_set [] c conn h true event_set_inv Hc Ht Hsh). cbn [mbind option_bind]. destruct j as [|j].
    + injection Hj as ->. pose proof (event_set_wait c h' Hr) as E. rewrite (wait_object_still event_set [] c conn h' true event_set_inv Hc Ht Hsh) in E. done.
    + destruct (IH (i + 1) Hall) as (k & x & Hk & Hx & E); [by exists j, h'|]. exists (S k), x. split; [done|]. split; [done|]. simpl. rewrite E. do 3 f_equal. lia.
Qed.

(** A select in the list of the event has a handle that refers to it. *)
Lemma event_link_refers w f i : ws_frames st !! w = Some f -> frame_live st f -> waits_any (wt_op f) = true -> (w, i) ∈ ob_waiters obj -> exists j h, op_handles (wt_op f) !! j = Some h /\ refers st h o.
Proof.
  intros Hf Hlive Hany Hin. apply (si_links _ _ I o obj Ho) in Hin as (f' & Hf' & Hl). rewrite Hf in Hf'. injection Hf' as <-. destruct (wt_links f !! i) as [l|] eqn:El; [|done]. injection Hl as Hl.
  destruct (fo_conn _ _ _ (si_frames _ _ I w f Hf)) as (conn & Hc & _ & _ & Hlk). destruct (Hlk i l El) as [(h & Hi & Hok) (x & Hx & Hsrc) _].
  assert (fst l = o) as Hfst.
  { unfold link_source in Hsrc. destruct (ob_type x) eqn:Htx; try done; try congruence. destruct (oo_port _ _ (si_objects _ _ I _ x Hx) (snd l) Hsrc) as [_ Ht]. rewrite Hl in Ht. unfold type_at in Ht. rewrite Ho in Ht. simpl in Ht. congruence. }
  exists i, h. split; [done|]. rewrite Hfst in Hok. unfold handle_ok in Hok. destruct (decide (h = HORIZON_CURRENT_THREAD_HANDLE)) as [->|Hne].
  { pose proof (co_thread _ _ (si_conns _ _ I) w conn o Hc Hok) as Ht. unfold type_at in Ht. rewrite Ho in Ht. simpl in Ht. congruence. }
  assert (live st h) as [|(e & en & He & Hen & Hh)].
  { unfold frame_live, live_handles in Hlive. destruct (wt_op f) as [|handles [|]| | |]; try done; by apply (proj1 (Forall_lookup _ _) Hlive i). }
  - done.
  - destruct (ta_entry _ _ _ _ (si_table _ _ I) e He) as (en' & Hen' & Hpos). rewrite Hen in Hen'. injection Hen' as <-. split; [lia|]. split; [done|]. exists e, en. repeat (split; [done|]). by apply (proj2 Hok e en).
Qed.
End set_event.

(** ** The rest of the list *)

(** Only selects have changed: [w] has completed, and the others sleep as
    before. *)
Record handed (st s : wine_server) (w : positive) : Prop := {
  hd_same : s = s_frames st (ws_frames s);
  hd_inv : server_inv s [];
  hd_first : exists F, ws_frames s !! w = Some F /\ wt_completed F = true;
  hd_others : forall x g, x <> w -> ws_frames st !! x = Some g -> exists v, ws_frames s !! x = Some (f_status g (wt_completed g) v);
}.

Lemma handed_link st s w x : good st [] -> mutex_counts st -> handed st s w -> sleeps st x = true -> exists s', notify_link s true x = Some s' /\ handed st s' w /\ (forall F, ws_frames s !! w = Some F -> ws_frames s' !! w = Some F).
Proof.
  intros [I W] Hm [Hs Hi (F & HF & HFc) Ho] Hx. destruct (decide (x = w)) as [->|Hne].
  { exists s. split; [unfold notify_link; rewrite HF; cbn [mbind option_bind]; by rewrite HFc|]. split; [split; [done|done|by exists F|done]|done]. }
  destruct (sleeps_spec st x Hx) as (g & Hg & Hsl & Hmust). destruct (W x g Hg Hsl) as [A B]. destruct (frame_thread_ok st [] x g I Hg) as (conn & t & obj & Hc & _ & _ & _). destruct (B (fun H => H) conn Hc) as (Hl & _ & _).
  destruct (Ho x g Hne Hg) as (v & Hgs). destruct Hsl as (Hq & Hn & Hcomp). rewrite Hcomp in Hgs.
  assert (must_run s x (f_status g false v) = Some false) as Hmust' by (rewrite Hs; exact Hmust).
  assert (horizon_server_select_status s (Some x) (wt_op g) = Some (HORIZON_STATUS_TIMEOUT, s)) as Er.
  { apply (still_status s x (f_status g false v) conn); [done|by rewrite Hs|done|by rewrite Hs|done|rewrite Hs; exact (A (fun H => H))|by rewrite Hs]. }
  unfold notify_link. rewrite Hgs. cbn [mbind option_bind]. assert (wt_completed (f_status g false v) = false) as -> by done. rewrite Hmust'. cbn [mbind option_bind negb orb]. assert (wt_op (f_status g false v) = wt_op g) as -> by done.
  rewrite Er. cbn [mbind option_bind]. rewrite Hgs. cbn [mbind option_bind]. rewrite Z.eqb_refl. eexists. split; [done|].
  assert (ws_frames s !! w = Some F -> <[x := f_status (f_status g false v) false HORIZON_STATUS_TIMEOUT]> (ws_frames s) !! w = Some F) as Hw by (intros H; by rewrite lookup_insert_ne).
  split; [split|intros F' HF'; simpl; by rewrite lookup_insert_ne].
  - rewrite Hs at 1. done.
  - by apply (inv_put_flags s [] x (f_status g false v)).
  - exists F. split; [by apply Hw|done].
  - intros y gy Hy Hgy. simpl. destruct (decide (y = x)) as [->|Hyx].
    + rewrite Hg in Hgy. injection Hgy as <-. rewrite lookup_insert_eq, Hcomp. by exists HORIZON_STATUS_TIMEOUT.
    + rewrite lookup_insert_ne by done. by apply Ho.
Qed.

Lemma handed_links links : forall st s w, good st [] -> mutex_counts st -> handed st s w -> Forall (fun x => sleeps st (fst x) = true) links -> exists s', notify_links s true links = Some s' /\ handed st s' w /\ (forall F, ws_frames s !! w = Some F -> ws_frames s' !! w = Some F).
Proof.
  induction links as [|[x i] links IH]; intros st s w G Hm H Hl; [by exists s|]. apply Forall_cons in Hl as [Hx Hl]. cbn [notify_links]. destruct (handed_link st s w x G Hm H Hx) as (s1 & -> & H1 & F1). cbn [mbind option_bind].
  destruct (IH st s1 w G Hm H1 Hl) as (s2 & -> & H2 & F2). exists s2. split; [done|]. split; [done|]. auto.
Qed.

(** The first of the list. *)
Lemma handed_first st o obj w i f : good st [] -> mutex_counts st -> ws_objects st !! o = Some obj -> ob_type obj = OBJECT_EVENT -> ob_manual_reset obj = false -> ob_signaled obj = false -> (w, i) ∈ ob_waiters obj -> ws_frames st !! w = Some f -> sleeps st w = true -> waits_any (wt_op f) = true ->
  exists s k h, notify_link (event_set st o obj) true w = Some s /\ op_handles (wt_op f) !! k = Some h /\ refers st h o /\ handed st s w /\ ws_frames s !! w = Some (f_notified (f_status f true (Z.of_nat k)) true).
Proof.
  intros [I W] Hm Ho Ht Ha Hoff Hin Hf Hp Hany. destruct (sleeps_spec st w Hp) as (f' & Hf' & Hsl & Hmust). rewrite Hf in Hf'. injection Hf' as <-. destruct (W w f Hf Hsl) as [A B]. specialize (A (fun H => H)).
  destruct (frame_thread_ok st [] w f I Hf) as (conn & t & tobj & Hc & Htid & Hth & Hto). destruct (B (fun H => H) conn Hc) as (Hl & _ & _). destruct Hsl as (Hq & Hn & Hcomp). pose proof (still_handles st w f conn I Hm Hf Hc Hq A Hl Hany) as Hall.
  destruct (event_link_refers st o obj I Ho Ht w f i Hf A Hany Hin) as (j & h & Hj & Hr).
  assert (exists k h, op_handles (wt_op f) !! k = Some h /\ refers st h o /\ horizon_server_select_status (event_set st o obj) (Some w) (wt_op f) = Some (Z.of_nat k, st)) as (k & h' & Hk & Hr' & Es).
  { destruct (fo_queued _ _ _ (si_frames _ _ I w f Hf) Hq) as [_ Hqh]. destruct (queue_handles_ops _ _ Hqh) as [_ Hcount].
    destruct (wt_op f) as [|handles [|]|wait sg| |]; try done; cbn [horizon_server_select_status op_handles] in *.
    - unfold horizon_server_select_wait. rewrite bool_decide_eq_false_2 by (intros ->; done). destruct (event_set_any st o obj I Ho Ht Ha Hoff w conn handles 0 Hc ltac:(by eexists) Hall) as (k & h2 & Hk & Hr2 & E); [by exists j, h|].
      exists k, h2. split; [done|]. split; [done|]. rewrite E, u32_small; [done|]. apply lookup_lt_Some in Hk. unfold is_u32. lia.
    - destruct j as [|j]; [|done]. injection Hj as ->. exists 0%nat, h. split; [done|]. split; [done|]. by apply event_set_wait. }
  assert (must_run (event_set st o obj) w f = Some false) as Hmust'.
  { rewrite <- Hmust. unfold must_run. assert (ws_conns (event_set st o obj) !! w = Some conn) as -> by done. rewrite Hc. cbn [mbind option_bind]. rewrite Hth. cbn [mbind option_bind]. simpl. rewrite lookup_insert_ne; [done|].
    intros <-. pose proof (co_thread _ _ (si_conns _ _ I) w conn o Hc Hth) as E. unfold type_at in E. rewrite Ho in E. simpl in E. congruence. }
  destruct (notify_link_ok (event_set st o obj) [] true w f (event_set_inv st o obj I Ho) Hf) as (s & E & Is & _). exists s, k, h'. split; [done|]. split; [done|]. split; [done|].
  unfold notify_link in E. assert (ws_frames (event_set st o obj) !! w = Some f) as Hf2 by done. rewrite Hf2 in E. cbn [mbind option_bind] in E. rewrite Hcomp, Hmust' in E. cbn [mbind option_bind negb orb] in E. rewrite Es in E. cbn [mbind option_bind] in E. rewrite Hf in E. cbn [mbind option_bind] in E.
  destruct (Z.eqb_spec (Z.of_nat k) HORIZON_STATUS_TIMEOUT) as [Hk2|_].
  { destruct (fo_queued _ _ _ (si_frames _ _ I w f Hf) Hq) as [_ Hqh]. destruct (queue_handles_ops _ _ Hqh) as [_ Hcount]. apply lookup_lt_Some in Hk. unfold HORIZON_STATUS_TIMEOUT in Hk2. lia. }
  unfold horizon_sync_notify_locked in E. simpl in E. rewrite lookup_insert_eq in E. cbn [mbind option_bind] in E. assert (wt_notified (f_status f true (Z.of_nat k)) = false) as Hn2 by done. rewrite Hn2 in E. injection E as <-.
  split; [split; [done|done| |]|].
  - eexists. split; [simpl; apply lookup_insert_eq|done].
  - intros x g Hx Hg. exists (wt_status g). simpl. rewrite !lookup_insert_ne by done. rewrite Hg. by destruct g.
  - simpl. apply lookup_insert_eq.
Qed.

Lemma event_op_set st h o obj : server_inv st [] -> refers st h o -> ws_objects st !! o = Some obj -> ob_type obj = OBJECT_EVENT -> ob_signaled obj = false ->
  horizon_server_handle_event_op st h SET_EVENT = done (notify_links (event_set st o obj) true (ob_waiters obj)) [0].
Proof.
  intros I (Hnz & _ & e & en & He & Hen & Hh & Heo) Ho Ht Hoff. unfold horizon_server_handle_event_op, typed, horizon_server_find_typed_object_locked. rewrite (proj2 (Z.eqb_neq _ _)) by done. rewrite (find_handle_is st [] h e en I He Hen Hh). cbn [mbind option_bind].
  unfold entry_object. rewrite Hen. cbn [mbind option_bind]. rewrite Heo, Ho. cbn [mbind option_bind]. rewrite decide_True by done. cbn [mbind option_bind]. rewrite Ho. cbn [mbind option_bind]. rewrite Hoff. unfold set_signaled. rewrite Hoff.
  unfold horizon_sync_notify_object_locked. fold (event_set st o obj). assert (ws_objects (event_set st o obj) !! o = Some (o_signaled obj true)) as Ho2 by (simpl; apply lookup_insert_eq). rewrite Ho2. cbn [mbind option_bind].
  rewrite decide_False by (simpl; congruence). by rewrite Ho2.
Qed.

(** C3: setting an auto-reset event that is off while every thread in its list
    sleeps, none of them notified yet, to be suspended or with an APC to run,
    and the first of them waits for any of its objects, hands it to that first
    one within the request: its select is complete, with the index of a handle
    of the event as its status, and awake; the event is taken again, the other
    threads, whether they wait for any or for all of their objects, sleep on,
    and nothing else of the server has changed. This is so while no mutex has
    been taken so often by its owner that its 32-bit count wrapped. *)
Theorem auto_event_wakes_first memory answers st h o obj w i rest f :
  server_reachable memory answers st -> mutex_counts st -> refers st h o -> ws_objects st !! o = Some obj -> ob_type obj = OBJECT_EVENT -> ob_manual_reset obj = false -> ob_signaled obj = false ->
  ob_waiters obj = (w, i) :: rest -> forallb (fun x => sleeps st (fst x)) (ob_waiters obj) = true -> ws_frames st !! w = Some f -> waits_any (wt_op f) = true ->
  exists st' k h', horizon_server_handle_event_op st h SET_EVENT = Some (HORIZON_STATUS_SUCCESS, [0], st') /\
    st' = s_frames st (ws_frames st') /\
    ws_frames st' !! w = Some (f_notified (f_status f true (Z.of_nat k)) true) /\ op_handles (wt_op f) !! k = Some h' /\ refers st h' o /\
    forall x g, x <> w -> ws_frames st !! x = Some g -> exists v, ws_frames st' !! x = Some (f_status g (wt_completed g) v).
Proof.
  intros R Hm Hr Ho Ht Ha Hoff Hw Hall Hf Hany. destruct (reachable_server_ok _ _ _ R) as [G _]. pose proof G as [I _]. rewrite (event_op_set st h o obj I Hr Ho Ht Hoff). rewrite forallb_forall in Hall.
  assert (Forall (fun x => sleeps st (fst x) = true) ((w, i) :: rest)) as Hp by (rewrite <- Hw; apply Forall_forall; intros x Hx; apply Hall; by apply list_elem_of_In). apply Forall_cons in Hp as [Hpw Hp]. simpl in Hpw.
  destruct (handed_first st o obj w i f G Hm Ho Ht Ha Hoff) as (s & k & h' & E & Hk & Hr' & Hd & Hs); [rewrite Hw; apply list_elem_of_here|done|done|done|]. rewrite Hw. cbn [notify_links]. rewrite E. cbn [mbind option_bind].
  destruct (handed_links rest st s w G Hm Hd Hp) as (s' & -> & [H1 H2 _ H4] & Hkeep). exists s', k, h'. split; [done|]. split; [done|]. split; [by apply Hkeep|]. by split.
Qed.

(** A third thread, client 5, sleeps on the event through client 6. *)
Definition two_events : list server_event :=
  [Ev_request 1 (Rq_new_thread 0x1fffff 1 6 false false); Ev_request 5 (Rq_init_thread 0x9000 0xa000); Ev_start_gate 5; Ev_direct 6 12;
   Ev_select 6 (Select_wait [0x104] false) false TIMEOUT_INFINITE false 11 11].

Definition sample_two : wine_server := match server_run sample_server two_events with Some (_, st) => st | None => sample_server end.

Lemma two_reachable : server_reachable plenty no_error sample_two.
Proof.
  unfold sample_two. destruct (server_run sample_server two_events) as [[l st]|] eqn:E; [|apply sample_server_reachable]. by apply (server_run_reachable plenty no_error two_events sample_server l st sample_server_reachable).
Qed.

Lemma auto_event_wakes_first_witness : exists st' k, horizon_server_handle_event_op sample_two 0x104 SET_EVENT = Some (HORIZON_STATUS_SUCCESS, [0], st') /\ option_map wt_status (ws_frames st' !! 4%positive) = Some k.
Proof.
  destruct (ws_objects sample_two !! 2%positive) as [obj|] eqn:Eo; [|vm_compute in Eo; discriminate]. destruct (ws_frames sample_two !! 4%positive) as [f|] eqn:Ef; [|vm_compute in Ef; discriminate].
  destruct (auto_event_wakes_first plenty no_error sample_two 0x104 2 obj 4 0 [(6%positive, 0%nat)] f) as (st' & k & h' & E & _ & Hf & _).
  - apply two_reachable.
  - apply mutex_counts_tested. vm_compute. reflexivity.
  - split; [done|]. split; [done|]. destruct (ws_entries sample_two !! 1%positive) as [en|] eqn:En; [|vm_compute in En; discriminate]. exists 1%positive, en.
    assert (bool_decide (1%positive ∈ ws_handles sample_two) = true) as H by (vm_compute; reflexivity). apply bool_decide_eq_true_1 in H. split; [exact H|]. split; [exact En|]. vm_compute in En. injection En as <-. split; reflexivity.
  - exact Eo.
  - vm_compute in Eo. injection Eo as <-. reflexivity.
  - vm_compute in Eo. injection Eo as <-. reflexivity.
  - vm_compute in Eo. injection Eo as <-. reflexivity.
  - vm_compute in Eo. injection Eo as <-. reflexivity.
  - assert (option_map (fun x => forallb (fun l => sleeps sample_two (fst l)) (ob_waiters x)) (ws_objects sample_two !! 2%positive) = Some true) as H by (vm_compute; reflexivity). rewrite Eo in H. injection H as H. exact H.
  - exact Ef.
  - vm_compute in Ef. injection Ef as <-. reflexivity.
  - exists st', (Z.of_nat k). split; [exact E|]. rewrite Hf. reflexivity.
Defined.
