(* ===== verification/RegistryNames.v ===== *)
(** * Registry names

    Names of registry keys and values ([horizon_registry.h]): comparing them,
    cutting a path into its elements, and the binary search that finds a name
    among the sorted subkeys or values of a key.

    A name is the list of its 16-bit units. Lengths are in bytes in the code,
    [2 * length] here; the odd byte that [len & ~1u] drops is not part of a
    list of units, so that operation is the identity on it. *)
From S2P Require Import Prelude.
From Stdlib Require Import Sorted.
Local Open Scope Z_scope.

Definition reg_name : Type := list Z.

(** The length in bytes of a name or of another array of units. *)
Definition bytes_len (name : list Z) : Z := 2 * Z.of_nat (length name).

Definition BACKSLASH : Z := 92.

(** A unit as the comparison sees it: ASCII letters in upper case. *)
Definition reg_upper (c : Z) : Z := if (97 <=? c) && (c <=? 122) then c - (97 - 65) else c.

(** The loop over the common part, then the comparison of the lengths. *)
Fixpoint horizon_reg_compare (a b : reg_name) : Z :=
  match a, b with
  | ca :: a, cb :: b =>
      let ca := reg_upper ca in
      let cb := reg_upper cb in
      if negb (ca =? cb) then (if ca <? cb then -1 else 1) else horizon_reg_compare a b
  | [], [] => 0
  | [], _ :: _ => -1
  | _ :: _, [] => 1
  end.

(** The units of [name] before its first backslash. *)
Fixpoint horizon_reg_element (name : reg_name) : reg_name :=
  match name with
  | [] => []
  | c :: name => if c =? BACKSLASH then [] else c :: horizon_reg_element name
  end.

(** The name without the backslashes it starts with. *)
Fixpoint skip_backslashes (name : reg_name) : reg_name :=
  match name with
  | [] => []
  | c :: rest => if c =? BACKSLASH then skip_backslashes rest else name
  end.

(** The binary search of [horizon_reg_find_subkey] and
    [horizon_reg_find_value]: whether the name was found, and where it is or
    would be inserted. [name_at] reads the name of an entry of the array. *)
Fixpoint search_loop (fuel : nat) (name_at : Z -> option reg_name) (name : reg_name) (min max : Z) : option (bool * Z) :=
  match fuel with
  | O => None
  | S fuel =>
      if min <? max then
        let i := u32 (min + max) / 2 in
        found ← name_at i;
        let res := horizon_reg_compare found name in
        if res =? 0 then Some (true, i)
        else if 0 <? res then search_loop fuel name_at name min i
        else search_loop fuel name_at name (i + 1) max
      else Some (false, min)
  end.

(** ** The order of names *)

Definition name_lt (a b : reg_name) : Prop := horizon_reg_compare a b = -1.

(** Equality without the case of ASCII letters. *)
Definition name_eq (a b : reg_name) : Prop := map reg_upper a = map reg_upper b.

#[export] Instance name_eq_dec a b : Decision (name_eq a b).
Proof. unfold name_eq. apply _. Defined.

#[export] Instance name_eq_equivalence : Equivalence name_eq.
Proof. unfold name_eq. split; intros ?; intros; congruence. Qed.

Lemma compare_values a b :
  horizon_reg_compare a b = -1 \/ horizon_reg_compare a b = 0 \/ horizon_reg_compare a b = 1.
Proof.
  revert b. induction a as [|x a IH]; intros [|y b]; simpl; auto.
  destruct (reg_upper x =? reg_upper y); simpl; [apply IH|]. destruct (_ <? _); auto.
Qed.

Lemma compare_zero a b : horizon_reg_compare a b = 0 <-> name_eq a b.
Proof.
  unfold name_eq. revert b. induction a as [|x a IH]; intros [|y b]; simpl; try done.
  destruct (reg_upper x =? reg_upper y) eqn:E; simpl; btrue.
  - rewrite IH. split; [congruence|]. by intros [= _ ?].
  - destruct (_ <? _); split; intros; congruence.
Qed.

Lemma compare_flip a b : horizon_reg_compare b a = - horizon_reg_compare a b.
Proof.
  revert b. induction a as [|x a IH]; intros [|y b]; simpl; try done.
  rewrite (Z.eqb_sym (reg_upper y)). destruct (reg_upper x =? reg_upper y) eqn:E; simpl; [apply IH|].
  destruct (reg_upper y <? reg_upper x) eqn:E1, (reg_upper x <? reg_upper y) eqn:E2; btrue; try done; lia.
Qed.

Lemma compare_pos a b : 0 < horizon_reg_compare a b <-> name_lt b a.
Proof. unfold name_lt. rewrite (compare_flip a b). destruct (compare_values a b) as [-> |[-> | ->]]; lia. Qed.

(** The comparison sees a name only up to case. *)
#[export] Instance compare_proper : Proper (name_eq ==> name_eq ==> eq) horizon_reg_compare.
Proof.
  unfold name_eq. intros a. induction a as [|x a IH]; intros [|x' a'] Ha [|y b] [|y' b'] Hb; simpl in *; try done.
  injection Ha as Hx Ha. injection Hb as Hy Hb. rewrite Hx, Hy. destruct (_ =? _); simpl; [|done]. by apply IH.
Qed.

#[export] Instance name_lt_proper : Proper (name_eq ==> name_eq ==> iff) name_lt.
Proof. intros a a' Ha b b' Hb. unfold name_lt. by rewrite Ha, Hb. Qed.

#[export] Instance name_lt_trans : Transitive name_lt.
Proof.
  unfold name_lt. intros a b. revert a. induction b as [|y b IH]; intros [|x a] [|z c]; simpl; try done.
  destruct (reg_upper x =? reg_upper y) eqn:E1, (reg_upper y =? reg_upper z) eqn:E2; simpl; btrue.
  - intros H1 H2. assert (E : reg_upper x =? reg_upper z = true) by (apply Z.eqb_eq; congruence).
    rewrite E. simpl. by eapply IH.
  - intros _. rewrite E1. rewrite (proj2 (Z.eqb_neq _ _) E2). done.
  - intros H _. rewrite <- E2. rewrite (proj2 (Z.eqb_neq _ _) E1). simpl. done.
  - destruct (reg_upper x <? reg_upper y) eqn:L1, (reg_upper y <? reg_upper z) eqn:L2; try done. btrue. intros _ _.
    assert (E : reg_upper x =? reg_upper z = false) by (apply Z.eqb_neq; lia).
    assert (L : reg_upper x <? reg_upper z = true) by (apply Z.ltb_lt; lia). by rewrite E, L.
Qed.

Lemma name_lt_irrefl a b : name_eq a b -> ~ name_lt a b.
Proof. intros H%compare_zero. unfold name_lt. rewrite H. done. Qed.

Lemma name_trichotomy a b : name_lt a b \/ name_eq a b \/ name_lt b a.
Proof.
  rewrite <- compare_zero. unfold name_lt. rewrite (compare_flip a b). destruct (compare_values a b) as [-> |[-> | ->]]; auto.
Qed.

(** ** Sorted names *)

Abbreviation sorted_names := (StronglySorted name_lt).

Lemma sorted_names_lookup l i j a b :
  sorted_names l -> l !! i = Some a -> l !! j = Some b -> (i < j)%nat -> name_lt a b.
Proof.
  intros Hs. revert i j. induction Hs as [|x l Hs IH Hx]; intros i j Hi Hj Hij; [done|].
  destruct j as [|j]; [lia|]. destruct i as [|i]; simpl in *.
  - injection Hi as ->. rewrite list.Forall_forall in Hx. apply Hx. by eapply list_elem_of_lookup_2.
  - eapply IH; [done..|lia].
Qed.

(** Two entries with the same name are the same entry. *)
Lemma sorted_names_inj l i j a b :
  sorted_names l -> l !! i = Some a -> l !! j = Some b -> name_eq a b -> i = j.
Proof.
  intros Hs Hi Hj He. destruct (Nat.lt_trichotomy i j) as [H|[H|H]]; [|done|].
  - destruct (name_lt_irrefl _ _ He). by eapply sorted_names_lookup.
  - symmetry in He. destruct (name_lt_irrefl _ _ He). by eapply sorted_names_lookup.
Qed.

Lemma sorted_names_app l1 l2 :
  sorted_names (l1 ++ l2) <-> sorted_names l1 /\ sorted_names l2 /\ forall a b, a ∈ l1 -> b ∈ l2 -> name_lt a b.
Proof.
  induction l1 as [|x l1 IH]; simpl.
  - split; [|tauto]. intros H. split_and!; [constructor|done|]. intros a b ?%not_elem_of_nil. done.
  - split.
    + intros H. apply StronglySorted_inv in H as [Hs Hx]. apply IH in Hs as (H1 & H2 & H3).
      rewrite Forall_app in Hx. destruct Hx as [Hx1 Hx2]. split_and!; [by constructor|done|].
      intros a b [->|Ha]%elem_of_cons Hb; [|by apply H3]. rewrite list.Forall_forall in Hx2. by apply Hx2.
    + intros (H1 & H2 & H3). apply StronglySorted_inv in H1 as [Hs Hx]. constructor.
      * apply IH. split_and!; [done..|]. intros a b Ha Hb. apply H3; [by right|done].
      * rewrite Forall_app. split; [done|]. apply list.Forall_forall. intros b Hb. apply H3; [by left|done].
Qed.

(** Inserting a name where the search put it. *)
Lemma sorted_names_insert l i name :
  sorted_names l -> (forall j a, l !! j = Some a -> (j < i)%nat -> name_lt a name) ->
  (forall j a, l !! j = Some a -> (i <= j)%nat -> name_lt name a) ->
  sorted_names (take i l ++ name :: drop i l).
Proof.
  intros Hs H1 H2. rewrite <- (take_drop i l) in Hs. apply sorted_names_app in Hs as (S1 & S2 & S3).
  apply sorted_names_app. split_and!; [done| |].
  - constructor; [done|]. apply list.Forall_forall. intros a [j Hj]%list_elem_of_lookup. rewrite lookup_drop in Hj.
    eapply H2; [done|lia].
  - intros a b Ha [->|Hb]%elem_of_cons; [|by apply S3]. apply list_elem_of_lookup in Ha as [j Hj].
    apply lookup_take_Some in Hj as [Hj Hlt]. by eapply H1.
Qed.

Lemma sorted_names_delete l i : sorted_names l -> sorted_names (delete i l).
Proof.
  intros Hs. rewrite delete_take_drop. rewrite <- (take_drop (S i) l) in Hs. apply sorted_names_app in Hs as (S1 & S2 & S3).
  assert (Hsub : forall a, a ∈ take i l -> a ∈ take (S i) l).
  { intros a [j Hj]%list_elem_of_lookup. apply lookup_take_Some in Hj as [Hj ?]. eapply list_elem_of_lookup_2.
    rewrite lookup_take_lt by (instantiate (1 := j); lia). done. }
  apply sorted_names_app. split_and!; [|done|].
  - rewrite <- (take_drop i l) in S1. rewrite take_app in S1. apply sorted_names_app in S1 as (S1 & _).
    rewrite take_take in S1. by rewrite Nat.min_r in S1 by lia.
  - intros a b Ha Hb. apply S3; [by apply Hsub|done].
Qed.

(** ** The search *)

(** Where a name is in a sorted array, or goes. *)
Definition found_at (l : list reg_name) (name : reg_name) (r : bool * Z) : Prop :=
  match r with
  | (true, i) => 0 <= i /\ exists a, l !! Z.to_nat i = Some a /\ name_eq a name
  | (false, i) => 0 <= i <= Z.of_nat (length l) /\
      (forall j a, l !! j = Some a -> (j < Z.to_nat i)%nat -> name_lt a name) /\
      (forall j a, l !! j = Some a -> (Z.to_nat i <= j)%nat -> name_lt name a)
  end.

Lemma search_loop_spec fuel name_at l name min max :
  sorted_names l -> Z.of_nat (length l) < 2147483648 ->
  (forall i, 0 <= i < Z.of_nat (length l) -> name_at i = l !! Z.to_nat i) ->
  0 <= min -> min <= max -> max <= Z.of_nat (length l) ->
  (forall j a, l !! j = Some a -> Z.of_nat j < min -> name_lt a name) ->
  (forall j a, l !! j = Some a -> max <= Z.of_nat j -> name_lt name a) ->
  (Z.to_nat (max - min) < fuel)%nat ->
  exists r, search_loop fuel name_at name min max = Some r /\ found_at l name r.
Proof.
  intros Hs Hl Hn. revert min max. induction fuel as [|fuel IH]; intros min max H0 Hmm Hm Hlo Hhi Hf; [lia|].
  cbn [search_loop]. destruct (min <? max) eqn:E; btrue.
  - rewrite (u32_small (min + max)) by (unfold is_u32; lia).
    assert (Hi : min <= (min + max) / 2 < max) by (split; [apply Z.div_le_lower_bound; lia|apply Z.div_lt_upper_bound; lia]).
    set (i := (min + max) / 2) in *. clearbody i. rewrite Hn by lia.
    destruct (lookup_lt_is_Some_2 l (Z.to_nat i)) as [a Ha]; [lia|]. rewrite Ha. simpl.
    destruct (horizon_reg_compare a name =? 0) eqn:Ec; [|destruct (0 <? horizon_reg_compare a name) eqn:Ep]; btrue.
    + exists (true, i). split; [done|]. split; [lia|]. exists a. split; [done|]. by apply compare_zero.
    + apply compare_pos in Ep. apply IH; [lia..|done| |lia]. intros j b Hb Hj.
      destruct (decide (j = Z.to_nat i)) as [-> |Hne]; [congruence|]. transitivity a; [done|].
      eapply sorted_names_lookup; [done..|lia].
    + assert (Hlt : name_lt a name) by (unfold name_lt; destruct (compare_values a name) as [-> |[?|?]]; lia).
      apply IH; [lia..| |done|lia]. intros j b Hb Hj. destruct (decide (j = Z.to_nat i)) as [-> |Hne]; [congruence|].
      transitivity a; [|done]. eapply sorted_names_lookup; [done..|lia].
  - exists (false, min). split; [done|]. assert (min = max) as -> by lia. split; [lia|]. split.
    + intros j a Ha Hj. eapply Hlo; [done|lia].
    + intros j a Ha Hj. eapply Hhi; [done|lia].
Qed.

(** What is found is the only entry of that name, and what is not found is
    not there. *)
Lemma found_at_iff l name found i :
  sorted_names l -> found_at l name (found, i) ->
  (found = true <-> exists a, a ∈ l /\ name_eq a name).
Proof.
  intros Hs. destruct found; simpl.
  - intros (_ & a & Ha & He). split; [|done]. intros _. exists a. split; [by eapply list_elem_of_lookup_2|done].
  - intros (_ & Hlo & Hhi). split; [done|]. intros (a & Ha & He). apply list_elem_of_lookup in Ha as [j Hj].
    destruct (decide (j < Z.to_nat i)%nat).
    + destruct (name_lt_irrefl _ _ He). by eapply Hlo.
    + symmetry in He. destruct (name_lt_irrefl _ _ He). eapply Hhi; [done|lia].
Qed.

(** ** Elements of a path *)

Lemma element_le name : (length (horizon_reg_element name) <= length name)%nat.
Proof. induction name as [|c name IH]; simpl; [lia|]. destruct (c =? BACKSLASH); simpl; lia. Qed.

Lemma element_take name : horizon_reg_element name = take (length (horizon_reg_element name)) name.
Proof. induction name as [|c name IH]; simpl; [done|]. destruct (c =? BACKSLASH); simpl; congruence. Qed.

Lemma element_no_backslash name : BACKSLASH ∉ horizon_reg_element name.
Proof.
  induction name as [|c name IH]; simpl; [by apply not_elem_of_nil|]. destruct (c =? BACKSLASH) eqn:E; [by apply not_elem_of_nil|].
  btrue. apply not_elem_of_cons. split; [congruence|done].
Qed.

Lemma element_id name : BACKSLASH ∉ name -> horizon_reg_element name = name.
Proof.
  induction name as [|c name IH]; [done|]. rewrite not_elem_of_cons. intros [H1 H2]. simpl.
  destruct (c =? BACKSLASH) eqn:E; btrue; [congruence|]. by rewrite IH.
Qed.

Lemma element_app name rest : BACKSLASH ∉ name -> horizon_reg_element (name ++ BACKSLASH :: rest) = name.
Proof.
  induction name as [|c name IH]; [done|]. rewrite not_elem_of_cons. intros [H1 H2]. simpl.
  destruct (c =? BACKSLASH) eqn:E; btrue; [congruence|]. by rewrite IH.
Qed.

Lemma skip_le name : (length (skip_backslashes name) <= length name)%nat.
Proof. induction name as [|c name IH]; simpl; [lia|]. destruct (c =? BACKSLASH); simpl; lia. Qed.

Lemma skip_head name c rest : skip_backslashes name = c :: rest -> c <> BACKSLASH.
Proof. induction name as [|d name IH]; simpl; [done|]. destruct (d =? BACKSLASH) eqn:E; [done|]. btrue. by intros [= <- _]. Qed.

Lemma skip_id name : head name <> Some BACKSLASH -> skip_backslashes name = name.
Proof. destruct name as [|c name]; simpl; [done|]. intros H. destruct (c =? BACKSLASH) eqn:E; [|done]. btrue. congruence. Qed.
