(* ===== verification/Registry.v ===== *)
(** * The registry tree

    [horizon_registry.h] without its text loader: keys with sorted subkeys and
    values, symbolic links, references and change notifications, and from
    [horizon_registry_server.h] the count of changes of a hive that the
    registry calls back.

    Keys are objects of a heap: an operation that reads or frees an object
    that is not there gives [None], as does one that indexes an array out of
    bounds. Memory and the clock are streams the state carries: each
    allocation and each reading of the clock takes the next element. The
    events that were signaled are the list [rg_signaled]. *)
From S2P Require Import Prelude RegistryNames.
Local Open Scope Z_scope.

(** ** Data *)

Definition HORIZON_REG_SUCCESS : Z := 0.
Definition HORIZON_REG_NAME_EXISTS : Z := 0x40000000.
Definition HORIZON_REG_PENDING : Z := 0x103.
Definition HORIZON_REG_NO_MORE_ENTRIES : Z := 0x8000001a.
Definition HORIZON_REG_INVALID_PARAMETER : Z := 0xc000000d.
Definition HORIZON_REG_NO_MEMORY : Z := 0xc0000017.
Definition HORIZON_REG_ACCESS_DENIED : Z := 0xc0000022.
Definition HORIZON_REG_NAME_NOT_FOUND : Z := 0xc0000034.
Definition HORIZON_REG_NAME_COLLISION : Z := 0xc0000035.
Definition HORIZON_REG_PATH_SYNTAX_BAD : Z := 0xc000003b.
Definition HORIZON_REG_NAME_TOO_LONG : Z := 0xc0000106.
Definition HORIZON_REG_CANNOT_DELETE : Z := 0xc0000121.
Definition HORIZON_REG_KEY_DELETED : Z := 0xc000017c.
Definition HORIZON_REG_CHILD_MUST_BE_VOLATILE : Z := 0xc0000181.

Definition HORIZON_REG_OPTION_VOLATILE : Z := 1.
Definition HORIZON_REG_OPTION_CREATE_LINK : Z := 2.
Definition HORIZON_REG_OBJ_OPENLINK : Z := 256.

Definition HORIZON_REG_NONE : Z := 0.
Definition HORIZON_REG_LINK : Z := 6.

Definition HORIZON_REG_KEY_BASIC : Z := 0.
Definition HORIZON_REG_KEY_NODE : Z := 1.
Definition HORIZON_REG_KEY_FULL : Z := 2.
Definition HORIZON_REG_KEY_NAME : Z := 3.
Definition HORIZON_REG_KEY_CACHED : Z := 4.
Definition HORIZON_REG_VALUE_BASIC : Z := 0.
Definition HORIZON_REG_VALUE_FULL : Z := 1.
Definition HORIZON_REG_VALUE_PARTIAL : Z := 2.

Definition HORIZON_REG_CHANGE_NAME : Z := 1.
Definition HORIZON_REG_CHANGE_LAST_SET : Z := 4.

Definition HORIZON_REG_MAX_NAME : Z := 512.
Definition HORIZON_REG_MAX_VALUE : Z := 32766.
Definition HORIZON_REG_MAX_LINKS : Z := 16.

Definition HORIZON_REG_FLAG_VOLATILE : Z := 1.
Definition HORIZON_REG_FLAG_DELETED : Z := 2.
Definition HORIZON_REG_FLAG_SYMLINK : Z := 4.

(** A value; its data are bytes, and a null pointer goes with length 0. *)
Record horizon_reg_value := mk_value {
  v_name : reg_name;
  v_type : Z;
  v_data : list Z;
}.

Record horizon_reg_notify_entry := mk_notify {
  n_hkey : Z;
  n_event : Z;
  n_filter : Z;
  n_subtree : bool;
}.

Record horizon_reg_key := mk_key {
  k_name : reg_name;
  k_class : option (list Z);
  k_parent : option positive;
  k_subkeys : list positive;
  k_subkey_max : Z;
  k_values : list horizon_reg_value;
  k_value_max : Z;
  k_flags : Z;
  k_modif : Z;
  k_refs : Z;
  k_notify : list horizon_reg_notify_entry;
}.

(** The registry with the objects its pointers lead to, the streams of its
    allocations and of its clock, the events it signaled, and the hives whose
    changes are counted while [rg_changed] is set. *)
Record horizon_reg := mk_reg {
  rg_root : option positive;
  rg_keys : gmap positive horizon_reg_key;
  rg_memory : nat -> bool;
  rg_allocs : nat;
  rg_clock : nat -> Z;
  rg_reads : nat;
  rg_signaled : list Z;
  rg_changed : bool;
  rg_hives : option positive * option positive;
  rg_generation : Z * Z;
}.

(** What a key information query returns besides its data. *)
Record horizon_reg_key_info := mk_info {
  i_subkeys : Z;
  i_max_subkey : Z;
  i_max_class : Z;
  i_values : Z;
  i_max_value : Z;
  i_max_data : Z;
  i_modif : Z;
  i_total : Z;
  i_namelen : Z;
}.

(** The key named, or the parent of the missing last element. *)
Record horizon_reg_path := mk_path { path_key : positive; path_last : option reg_name }.

(** "SymbolicLinkValue" *)
Definition horizon_reg_symlink_value : reg_name :=
  [83; 121; 109; 98; 111; 108; 105; 99; 76; 105; 110; 107; 86; 97; 108; 117; 101].

(** "Registry" and "\Registry" *)
Definition registry_name : reg_name := [82; 101; 103; 105; 115; 116; 114; 121].
Definition registry_prefix : reg_name := BACKSLASH :: registry_name.

(** *** Updates of one field *)

Definition k_with_class (k : horizon_reg_key) c := mk_key (k_name k) c (k_parent k) (k_subkeys k) (k_subkey_max k) (k_values k) (k_value_max k) (k_flags k) (k_modif k) (k_refs k) (k_notify k).
Definition k_with_name (k : horizon_reg_key) n := mk_key n (k_class k) (k_parent k) (k_subkeys k) (k_subkey_max k) (k_values k) (k_value_max k) (k_flags k) (k_modif k) (k_refs k) (k_notify k).
Definition k_with_parent (k : horizon_reg_key) p := mk_key (k_name k) (k_class k) p (k_subkeys k) (k_subkey_max k) (k_values k) (k_value_max k) (k_flags k) (k_modif k) (k_refs k) (k_notify k).
Definition k_with_subkeys (k : horizon_reg_key) l max := mk_key (k_name k) (k_class k) (k_parent k) l max (k_values k) (k_value_max k) (k_flags k) (k_modif k) (k_refs k) (k_notify k).
Definition k_with_values (k : horizon_reg_key) l max := mk_key (k_name k) (k_class k) (k_parent k) (k_subkeys k) (k_subkey_max k) l max (k_flags k) (k_modif k) (k_refs k) (k_notify k).
Definition k_with_flags (k : horizon_reg_key) f := mk_key (k_name k) (k_class k) (k_parent k) (k_subkeys k) (k_subkey_max k) (k_values k) (k_value_max k) f (k_modif k) (k_refs k) (k_notify k).
Definition k_with_modif (k : horizon_reg_key) t := mk_key (k_name k) (k_class k) (k_parent k) (k_subkeys k) (k_subkey_max k) (k_values k) (k_value_max k) (k_flags k) t (k_refs k) (k_notify k).
Definition k_with_refs (k : horizon_reg_key) r := mk_key (k_name k) (k_class k) (k_parent k) (k_subkeys k) (k_subkey_max k) (k_values k) (k_value_max k) (k_flags k) (k_modif k) r (k_notify k).
Definition k_with_notify (k : horizon_reg_key) n := mk_key (k_name k) (k_class k) (k_parent k) (k_subkeys k) (k_subkey_max k) (k_values k) (k_value_max k) (k_flags k) (k_modif k) (k_refs k) n.

Definition with_root (reg : horizon_reg) r := mk_reg r (rg_keys reg) (rg_memory reg) (rg_allocs reg) (rg_clock reg) (rg_reads reg) (rg_signaled reg) (rg_changed reg) (rg_hives reg) (rg_generation reg).
Definition with_keys (reg : horizon_reg) ks := mk_reg (rg_root reg) ks (rg_memory reg) (rg_allocs reg) (rg_clock reg) (rg_reads reg) (rg_signaled reg) (rg_changed reg) (rg_hives reg) (rg_generation reg).
Definition with_allocs (reg : horizon_reg) n := mk_reg (rg_root reg) (rg_keys reg) (rg_memory reg) n (rg_clock reg) (rg_reads reg) (rg_signaled reg) (rg_changed reg) (rg_hives reg) (rg_generation reg).
Definition with_reads (reg : horizon_reg) n := mk_reg (rg_root reg) (rg_keys reg) (rg_memory reg) (rg_allocs reg) (rg_clock reg) n (rg_signaled reg) (rg_changed reg) (rg_hives reg) (rg_generation reg).
Definition with_signaled (reg : horizon_reg) l := mk_reg (rg_root reg) (rg_keys reg) (rg_memory reg) (rg_allocs reg) (rg_clock reg) (rg_reads reg) l (rg_changed reg) (rg_hives reg) (rg_generation reg).
Definition with_changed (reg : horizon_reg) c h g := mk_reg (rg_root reg) (rg_keys reg) (rg_memory reg) (rg_allocs reg) (rg_clock reg) (rg_reads reg) (rg_signaled reg) c h g.

Definition put_key (reg : horizon_reg) (key : positive) (k : horizon_reg_key) : horizon_reg :=
  with_keys reg (<[key := k]> (rg_keys reg)).

Definition has_flag (k : horizon_reg_key) (flag : Z) : bool := nonzero (Z.land (k_flags k) flag).

(** *** The surroundings: memory, the clock, the events *)

(** Whether the next allocation succeeds. *)
Definition malloc (reg : horizon_reg) : bool * horizon_reg :=
  (rg_memory reg (rg_allocs reg), with_allocs reg (S (rg_allocs reg))).

(** [reg->now()] *)
Definition now (reg : horizon_reg) : Z * horizon_reg :=
  (rg_clock reg (rg_reads reg), with_reads reg (S (rg_reads reg))).

(** [reg->signal( event )] for each of the events. *)
Definition signal (reg : horizon_reg) (events : list Z) : horizon_reg :=
  with_signaled reg (rg_signaled reg ++ events).

(** Runs the body of a loop for every element of a list. *)
Fixpoint for_each {A S} (f : S -> A -> option S) (l : list A) (s : S) : option S :=
  match l with
  | [] => Some s
  | x :: l => s ← f s x; for_each f l s
  end.

(** How many steps a walk up the tree or down it can take. *)
Definition walk_fuel (reg : horizon_reg) : nat := S (size (rg_keys reg)).

(** *** Bytes of units *)

Fixpoint units_bytes (l : list Z) : list Z :=
  match l with [] => [] | c :: l => c mod 256 :: c / 256 :: units_bytes l end.

(** The 16-bit units bytes hold; an odd last byte is none. *)
Fixpoint bytes_units (l : list Z) : list Z :=
  match l with a :: b :: l => a + 256 * b :: bytes_units l | _ => [] end.

(** C's conversion of an [unsigned int] to [int]. *)
Definition to_int (x : Z) : Z := if x <? 2147483648 then x else x - 4294967296.

(** ** Finding *)

(** The subkey named [name], and where it is or would be inserted. *)
Definition horizon_reg_find_subkey (reg : horizon_reg) (k : horizon_reg_key) (name : reg_name) : option (option positive * Z) :=
  let name_at i := sub ← k_subkeys k !! Z.to_nat i; k_name <$> rg_keys reg !! sub in
  '(found, i) ← search_loop (S (length (k_subkeys k))) name_at name 0 (Z.of_nat (length (k_subkeys k)));
  if found : bool then sub ← k_subkeys k !! Z.to_nat i; Some (Some sub, i) else Some (None, i).

Definition horizon_reg_find_value (k : horizon_reg_key) (name : reg_name) : option (option horizon_reg_value * Z) :=
  let name_at i := v_name <$> k_values k !! Z.to_nat i in
  '(found, i) ← search_loop (S (length (k_values k))) name_at name 0 (Z.of_nat (length (k_values k)));
  if found : bool then v ← k_values k !! Z.to_nat i; Some (Some v, i) else Some (None, i).

(** ** Notifications *)

(** The loop over a key's notifications: those kept, and the events of those
    that watch the change. *)
Fixpoint notify_loop (watches : horizon_reg_notify_entry -> bool) (l : list horizon_reg_notify_entry)
    : list horizon_reg_notify_entry * list Z :=
  match l with
  | [] => ([], [])
  | n :: l =>
      let '(kept, events) := notify_loop watches l in
      if watches n then (kept, n_event n :: events) else (n :: kept, events)
  end.

Definition horizon_reg_check_notify (reg : horizon_reg) (key : positive) (change : Z) (not_subtree : bool) : option horizon_reg :=
  k ← rg_keys reg !! key;
  let watches n := (n_subtree n || not_subtree) && nonzero (Z.land change (n_filter n)) in
  let '(kept, events) := notify_loop watches (k_notify k) in
  Some (signal (put_key reg key (k_with_notify k kept)) events).

(** [horizon_registry_changed]: the hive of the key was changed. *)
Fixpoint horizon_registry_changed (fuel : nat) (reg : horizon_reg) (key : option positive) : option horizon_reg :=
  match fuel with
  | O => None
  | S fuel =>
      match key with
      | None => Some reg
      | Some key =>
          let '(g0, g1) := rg_generation reg in
          if bool_decide (Some key = fst (rg_hives reg)) then Some (with_changed reg (rg_changed reg) (rg_hives reg) (u64 (g0 + 1), g1))
          else if bool_decide (Some key = snd (rg_hives reg)) then Some (with_changed reg (rg_changed reg) (rg_hives reg) (g0, u64 (g1 + 1)))
          else k ← rg_keys reg !! key; horizon_registry_changed fuel reg (k_parent k)
      end
  end.

(** The loop of [horizon_reg_touch] over the parents. *)
Fixpoint touch_parents (fuel : nat) (reg : horizon_reg) (key : option positive) (change : Z) : option horizon_reg :=
  match fuel with
  | O => None
  | S fuel =>
      match key with
      | None => Some reg
      | Some key =>
          reg ← horizon_reg_check_notify reg key change false;
          k ← rg_keys reg !! key;
          touch_parents fuel reg (k_parent k) change
      end
  end.

Definition horizon_reg_touch (reg : horizon_reg) (key : positive) (change : Z) : option horizon_reg :=
  let '(t, reg) := now reg in
  k ← rg_keys reg !! key;
  let reg := put_key reg key (k_with_modif k t) in
  reg ← (if rg_changed reg then horizon_registry_changed (walk_fuel reg) reg (Some key) else Some reg);
  reg ← horizon_reg_check_notify reg key change true;
  k ← rg_keys reg !! key;
  touch_parents (walk_fuel reg) reg (k_parent k) change.

(** ** Making, linking and releasing keys *)

Definition key_new (name : reg_name) (modif : Z) : horizon_reg_key :=
  mk_key name None None [] 0 [] 0 0 modif 1 [].

Definition horizon_reg_alloc_key (reg : horizon_reg) (name : reg_name) (modif : Z) : option positive * horizon_reg :=
  let '(ok, reg) := malloc reg in
  if negb ok then (None, reg) else
  let '(ok, reg) := if bool_decide (name = []) then (true, reg) else malloc reg in
  if negb ok then (None, reg) else
  let key := fresh (dom (rg_keys reg) : gset positive) in
  (Some key, put_key reg key (key_new name modif)).

Fixpoint horizon_reg_release (fuel : nat) (reg : horizon_reg) (key : positive) : option horizon_reg :=
  match fuel with
  | O => None
  | S fuel =>
      k ← rg_keys reg !! key;
      let refs := u32 (k_refs k - 1) in
      if nonzero refs then Some (put_key reg key (k_with_refs k refs)) else
      let reg := put_key reg key (k_with_notify (k_with_refs k refs) []) in
      let reg := signal reg (map n_event (k_notify k)) in
      reg ← for_each (fun reg sub =>
               s ← rg_keys reg !! sub;
               let s := k_with_flags (k_with_parent s None) (Z.lor (k_flags s) HORIZON_REG_FLAG_DELETED) in
               horizon_reg_release fuel (put_key reg sub s) sub) (k_subkeys k) reg;
      Some (with_keys reg (delete key (rg_keys reg)))
  end.

(** The room an array that is full grows to. *)
Definition grown (max : Z) : Z := if max =? 0 then 8 else u32 (max + max / 2).

Definition horizon_reg_link (reg : horizon_reg) (parent key : positive) (index : Z) : option (Z * horizon_reg) :=
  p ← rg_keys reg !! parent;
  let count := Z.of_nat (length (k_subkeys p)) in
  let '(ok, max, reg) := if count =? k_subkey_max p
                         then let '(ok, reg) := malloc reg in (ok, grown (k_subkey_max p), reg)
                         else (true, k_subkey_max p, reg) in
  if negb ok then Some (HORIZON_REG_NO_MEMORY, reg) else
  if (count <? index) || (max <=? count) then None else
  let l := take (Z.to_nat index) (k_subkeys p) ++ key :: drop (Z.to_nat index) (k_subkeys p) in
  let reg := put_key reg parent (k_with_subkeys p l max) in
  k ← rg_keys reg !! key;
  Some (HORIZON_REG_SUCCESS, put_key reg key (k_with_parent k (Some parent))).

(** A registry whose keys are all gone, before [horizon_reg_init]. *)
Definition reg_nothing (memory : nat -> bool) (clock : nat -> Z) : horizon_reg :=
  mk_reg None ∅ memory 0 clock 0 [] false (None, None) (0, 0).

Definition horizon_reg_init (reg : horizon_reg) : bool * horizon_reg :=
  let reg := with_changed reg false (rg_hives reg) (rg_generation reg) in
  let '(t, reg) := now reg in
  let '(root, reg) := horizon_reg_alloc_key reg registry_name t in
  (bool_decide (is_Some root), with_root reg root).

(** ** Lookup *)

(** The loop of [horizon_reg_lookup] from [key]. [follow] looks up the target
    of a symbolic link. *)
Fixpoint lookup_loop (fuel : nat) (follow : reg_name -> option (Z * option horizon_reg_path)) (reg : horizon_reg)
    (key : positive) (name : reg_name) (attributes links : Z) : option (Z * option horizon_reg_path) :=
  match fuel with
  | O => None
  | S fuel =>
      k ← rg_keys reg !! key;
      if has_flag k HORIZON_REG_FLAG_DELETED then Some (HORIZON_REG_KEY_DELETED, None) else
      let name := skip_backslashes name in
      if has_flag k HORIZON_REG_FLAG_SYMLINK &&
         (negb (bool_decide (name = [])) || (Z.land attributes HORIZON_REG_OBJ_OPENLINK =? 0)) then
        '(value, _) ← horizon_reg_find_value k horizon_reg_symlink_value;
        match value with
        | None => Some (HORIZON_REG_NAME_NOT_FOUND, None)
        | Some v =>
            if (Z.of_nat (length (v_data v)) <? 2) || (HORIZON_REG_MAX_LINKS <=? links) ||
               negb (bool_decide (head (bytes_units (v_data v)) = Some BACKSLASH))
            then Some (HORIZON_REG_NAME_NOT_FOUND, None)
            else
              '(status, target) ← follow (bytes_units (v_data v));
              if nonzero status then Some (status, None) else
              target ← target;
              if bool_decide (is_Some (path_last target)) then Some (HORIZON_REG_NAME_NOT_FOUND, None)
              else lookup_loop fuel follow reg (path_key target) name attributes links
        end
      else if bool_decide (name = []) then Some (HORIZON_REG_SUCCESS, Some (mk_path key None)) else
      let elem := horizon_reg_element name in
      if HORIZON_REG_MAX_NAME <? bytes_len elem then Some (HORIZON_REG_INVALID_PARAMETER, None) else
      let rest := skip_backslashes (drop (length elem) name) in
      '(found, _) ← horizon_reg_find_subkey reg k elem;
      match found with
      | None =>
          if negb (bool_decide (rest = [])) then Some (HORIZON_REG_NAME_NOT_FOUND, None)
          else Some (HORIZON_REG_SUCCESS, Some (mk_path key (Some elem)))
      | Some sub => lookup_loop fuel follow reg sub rest attributes links
      end
  end.

(** [depth] bounds the calls for the targets of links; with the code's limit
    on [links], 17 is enough. A loop turns at most twice for every element of
    the name, once for a link and once for the element. *)
Fixpoint horizon_reg_lookup (depth : nat) (reg : horizon_reg) (base : option positive) (name : reg_name)
    (attributes links : Z) : option (Z * option horizon_reg_path) :=
  match depth with
  | O => None
  | S depth =>
      let follow target := horizon_reg_lookup depth reg None target 0 (links + 1) in
      let loop key name := lookup_loop (2 * length name + 2) follow reg key name attributes links in
      match base with
      | None =>
          if negb (bool_decide (head name = Some BACKSLASH)) then Some (HORIZON_REG_PATH_SYNTAX_BAD, None)
          else if (bytes_len name <? bytes_len registry_prefix) ||
                  nonzero (horizon_reg_compare (take (length registry_prefix) name) registry_prefix) ||
                  ((bytes_len registry_prefix <? bytes_len name) &&
                   negb (bool_decide (name !! length registry_prefix = Some BACKSLASH)))
          then Some (HORIZON_REG_NAME_NOT_FOUND, None)
          else root ← rg_root reg; loop root (drop (length registry_prefix) name)
      | Some base =>
          if bool_decide (head name = Some BACKSLASH) then Some (HORIZON_REG_PATH_SYNTAX_BAD, None)
          else loop base name
      end
  end.

Definition LOOKUP_DEPTH : nat := 17.

(** ** Opening, creating, deleting and renaming keys *)

Definition ref_key (reg : horizon_reg) (key : positive) : option horizon_reg :=
  k ← rg_keys reg !! key; Some (put_key reg key (k_with_refs k (u32 (k_refs k + 1)))).

(** The status, the key opened with a reference for the caller, the registry. *)
Definition horizon_reg_open (reg : horizon_reg) (base : option positive) (name : reg_name) (attributes : Z)
    : option (Z * option positive * horizon_reg) :=
  '(status, path) ← horizon_reg_lookup LOOKUP_DEPTH reg base name attributes 0;
  if nonzero status then Some (status, None, reg) else
  path ← path;
  if bool_decide (is_Some (path_last path)) then Some (HORIZON_REG_NAME_NOT_FOUND, None, reg) else
  reg ← ref_key reg (path_key path);
  Some (HORIZON_REG_SUCCESS, Some (path_key path), reg).

(** The new key of a create request: allocated, linked, marked and told. *)
Definition create_missing (reg : horizon_reg) (parent : positive) (last : reg_name) (options : Z)
    : option (option positive * horizon_reg) :=
  let '(t, reg) := now reg in
  let '(key, reg) := horizon_reg_alloc_key reg last t in
  match key with
  | None => Some (None, reg)
  | Some key =>
      p ← rg_keys reg !! parent;
      '(_, index) ← horizon_reg_find_subkey reg p last;
      '(status, reg) ← horizon_reg_link reg parent key index;
      if nonzero status then
        reg ← horizon_reg_release (walk_fuel reg) reg key;
        Some (None, reg)
      else
      k ← rg_keys reg !! key;
      let flags := if nonzero (Z.land options HORIZON_REG_OPTION_VOLATILE)
                   then Z.lor (k_flags k) HORIZON_REG_FLAG_VOLATILE else k_flags k in
      let flags := if nonzero (Z.land options HORIZON_REG_OPTION_CREATE_LINK)
                   then Z.lor flags HORIZON_REG_FLAG_SYMLINK else flags in
      reg ← horizon_reg_touch (put_key reg key (k_with_flags k flags)) parent HORIZON_REG_CHANGE_NAME;
      Some (Some key, reg)
  end.

Definition horizon_reg_create (reg : horizon_reg) (base : option positive) (name : reg_name) (attributes options : Z)
    (class : list Z) : option (Z * option positive * horizon_reg) :=
  let attributes := if nonzero (Z.land options HORIZON_REG_OPTION_CREATE_LINK)
                    then Z.lor attributes HORIZON_REG_OBJ_OPENLINK else attributes in
  '(status, path) ← horizon_reg_lookup LOOKUP_DEPTH reg base name attributes 0;
  if nonzero status then Some (status, None, reg) else
  path ← path;
  let missing := bool_decide (is_Some (path_last path)) in
  if negb missing && nonzero (Z.land options HORIZON_REG_OPTION_CREATE_LINK)
  then Some (HORIZON_REG_NAME_COLLISION, None, reg) else
  k ← rg_keys reg !! path_key path;
  if missing && (Z.land options HORIZON_REG_OPTION_VOLATILE =? 0) && has_flag k HORIZON_REG_FLAG_VOLATILE
  then Some (HORIZON_REG_CHILD_MUST_BE_VOLATILE, None, reg) else
  let '(ok, reg) := if bool_decide (class = []) then (true, reg) else malloc reg in
  if negb ok then Some (HORIZON_REG_NO_MEMORY, None, reg) else
  '(status, key, reg) ← match path_last path with
                        | None => Some (HORIZON_REG_NAME_EXISTS, Some (path_key path), reg)
                        | Some last =>
                            '(key, reg) ← create_missing reg (path_key path) last options;
                            Some (HORIZON_REG_SUCCESS, key, reg)
                        end;
  match key with
  | None => Some (HORIZON_REG_NO_MEMORY, None, reg)
  | Some key =>
      k ← rg_keys reg !! key;
      let reg := if bool_decide (class = []) then reg else put_key reg key (k_with_class k (Some class)) in
      reg ← ref_key reg key;
      Some (status, Some key, reg)
  end.

Definition horizon_reg_delete (reg : horizon_reg) (key : positive) : option (Z * horizon_reg) :=
  k ← rg_keys reg !! key;
  if has_flag k HORIZON_REG_FLAG_DELETED then Some (HORIZON_REG_SUCCESS, reg) else
  match k_parent k with
  | None => Some (HORIZON_REG_ACCESS_DENIED, reg)
  | Some parent =>
      if negb (bool_decide (k_subkeys k = [])) then Some (HORIZON_REG_ACCESS_DENIED, reg) else
      p ← rg_keys reg !! parent;
      i ← first_index (fun sub => bool_decide (sub = key)) (k_subkeys p);
      let reg := put_key reg parent (k_with_subkeys p (delete i (k_subkeys p)) (k_subkey_max p)) in
      k ← rg_keys reg !! key;
      let reg := put_key reg key (k_with_flags (k_with_parent k None) (Z.lor (k_flags k) HORIZON_REG_FLAG_DELETED)) in
      reg ← horizon_reg_touch reg parent HORIZON_REG_CHANGE_NAME;
      reg ← horizon_reg_release (walk_fuel reg) reg key;
      Some (HORIZON_REG_SUCCESS, reg)
  end.

(** The move of an entry of the array from [current] to the place [index] the
    search gave: the two [memmove]s and the store. *)
Definition move_subkey (l : list positive) (current index : nat) (key : positive) : list positive :=
  if (current <? index)%nat then
    let index := (index - 1)%nat in
    <[index := key]> (splice l current (take (index - current) (drop (current + 1) l)))
  else if (index <? current)%nat then
    <[index := key]> (splice l (index + 1) (take (current - index) (drop index l)))
  else <[index := key]> l.

Definition horizon_reg_rename (reg : horizon_reg) (key : positive) (name : reg_name) : option (Z * horizon_reg) :=
  if bool_decide (name = []) || negb (bool_decide (horizon_reg_element name = name)) || (HORIZON_REG_MAX_NAME <? bytes_len name)
  then Some (HORIZON_REG_INVALID_PARAMETER, reg) else
  k ← rg_keys reg !! key;
  match k_parent k with
  | None => Some (HORIZON_REG_CANNOT_DELETE, reg)
  | Some parent =>
      p ← rg_keys reg !! parent;
      '(found, index) ← horizon_reg_find_subkey reg p name;
      if bool_decide (is_Some found) then Some (HORIZON_REG_CANNOT_DELETE, reg) else
      let '(ok, reg) := malloc reg in
      if negb ok then Some (HORIZON_REG_NO_MEMORY, reg) else
      current ← first_index (fun sub => bool_decide (sub = key)) (k_subkeys p);
      let reg := put_key reg parent (k_with_subkeys p (move_subkey (k_subkeys p) current (Z.to_nat index) key) (k_subkey_max p)) in
      k ← rg_keys reg !! key;
      let reg := put_key reg key (k_with_name k name) in
      reg ← horizon_reg_touch reg key HORIZON_REG_CHANGE_NAME;
      Some (HORIZON_REG_SUCCESS, reg)
  end.

(** ** Values *)

Definition horizon_reg_insert_value (reg : horizon_reg) (key : positive) (name : reg_name) (index : Z) : option (Z * horizon_reg) :=
  k ← rg_keys reg !! key;
  if HORIZON_REG_MAX_VALUE <? bytes_len name then Some (HORIZON_REG_NAME_TOO_LONG, reg) else
  let count := Z.of_nat (length (k_values k)) in
  let '(ok, k, reg) := if count =? k_value_max k
                       then let '(ok, reg) := malloc reg in
                            (ok, if ok then k_with_values k (k_values k) (grown (k_value_max k)) else k, reg)
                       else (true, k, reg) in
  let reg := put_key reg key k in
  if negb ok then Some (HORIZON_REG_NO_MEMORY, reg) else
  let '(ok, reg) := if bool_decide (name = []) then (true, reg) else malloc reg in
  if negb ok then Some (HORIZON_REG_NO_MEMORY, reg) else
  if (count <? index) || (k_value_max k <=? count) then None else
  let l := take (Z.to_nat index) (k_values k) ++ mk_value name HORIZON_REG_NONE [] :: drop (Z.to_nat index) (k_values k) in
  Some (HORIZON_REG_SUCCESS, put_key reg key (k_with_values k l (k_value_max k))).

(** Stores type and data of the value at [index]. *)
Definition store_value (reg : horizon_reg) (key : positive) (index : Z) (type : Z) (data : list Z) : option horizon_reg :=
  k ← rg_keys reg !! key;
  v ← k_values k !! Z.to_nat index;
  Some (put_key reg key (k_with_values k (<[Z.to_nat index := mk_value (v_name v) type data]> (k_values k)) (k_value_max k))).

Definition horizon_reg_set_value (reg : horizon_reg) (key : positive) (name : reg_name) (type : Z) (data : list Z)
    : option (Z * horizon_reg) :=
  k ← rg_keys reg !! key;
  '(value, index) ← horizon_reg_find_value k name;
  if match value with Some v => (v_type v =? type) && bool_decide (v_data v = data) | None => false end
  then Some (HORIZON_REG_SUCCESS, reg) else
  if has_flag k HORIZON_REG_FLAG_SYMLINK &&
     (negb (type =? HORIZON_REG_LINK) || nonzero (horizon_reg_compare name horizon_reg_symlink_value))
  then Some (HORIZON_REG_ACCESS_DENIED, reg) else
  let '(ok, reg) := if bool_decide (data = []) then (true, reg) else malloc reg in
  if negb ok then Some (HORIZON_REG_NO_MEMORY, reg) else
  '(status, reg) ← (if bool_decide (is_Some value) then Some (HORIZON_REG_SUCCESS, reg)
                    else horizon_reg_insert_value reg key name index);
  if nonzero status then Some (status, reg) else
  reg ← store_value reg key index type data;
  reg ← horizon_reg_touch reg key HORIZON_REG_CHANGE_LAST_SET;
  Some (HORIZON_REG_SUCCESS, reg).

(** The status, the type, the length of the data and up to [max] bytes of it. *)
Definition horizon_reg_get_value (reg : horizon_reg) (key : positive) (name : reg_name) (max : Z)
    : option (Z * Z * Z * list Z) :=
  k ← rg_keys reg !! key;
  '(value, _) ← horizon_reg_find_value k name;
  match value with
  | None => Some (HORIZON_REG_NAME_NOT_FOUND, -1, 0, [])
  | Some v =>
      let len := Z.of_nat (length (v_data v)) in
      Some (HORIZON_REG_SUCCESS, v_type v, len, take (Z.to_nat (if len <? max then len else max)) (v_data v))
  end.

Definition horizon_reg_delete_value (reg : horizon_reg) (key : positive) (name : reg_name) : option (Z * horizon_reg) :=
  k ← rg_keys reg !! key;
  '(value, index) ← horizon_reg_find_value k name;
  match value with
  | None => Some (HORIZON_REG_NAME_NOT_FOUND, reg)
  | Some _ =>
      let reg := put_key reg key (k_with_values k (delete (Z.to_nat index) (k_values k)) (k_value_max k)) in
      reg ← horizon_reg_touch reg key HORIZON_REG_CHANGE_LAST_SET;
      Some (HORIZON_REG_SUCCESS, reg)
  end.

Definition horizon_reg_notify (reg : horizon_reg) (key : positive) (hkey event : Z) (subtree : bool) (filter : Z)
    : option (Z * horizon_reg) :=
  let '(ok, reg) := malloc reg in
  if negb ok then Some (HORIZON_REG_NO_MEMORY, reg) else
  k ← rg_keys reg !! key;
  Some (HORIZON_REG_PENDING, put_key reg key (k_with_notify k (mk_notify hkey event filter subtree :: k_notify k))).

Definition horizon_reg_handle_closed (reg : horizon_reg) (key : positive) (hkey : Z) : option horizon_reg :=
  k ← rg_keys reg !! key;
  let '(kept, events) := notify_loop (fun n => n_hkey n =? hkey) (k_notify k) in
  Some (signal (put_key reg key (k_with_notify k kept)) events).

(** ** Enumeration *)

(** The two walks of [horizon_reg_full_name]: the size of the name, and the
    copies into the buffer from its end on. *)
Fixpoint full_name_size (fuel : nat) (reg : horizon_reg) (key : option positive) (size : Z) : option Z :=
  match fuel with
  | O => None
  | S fuel =>
      match key with
      | None => Some size
      | Some key => k ← rg_keys reg !! key; full_name_size fuel reg (k_parent k) (u32 (size + u32 (2 + bytes_len (k_name k))))
      end
  end.

Fixpoint full_name_copy (fuel : nat) (reg : horizon_reg) (key : option positive) (buffer : list Z) (pos : Z) : option (list Z) :=
  match fuel with
  | O => None
  | S fuel =>
      match key with
      | None => Some buffer
      | Some key =>
          k ← rg_keys reg !! key;
          let pos := u32 (pos - bytes_len (k_name k)) in
          if bytes_len buffer <? pos + bytes_len (k_name k) then None else
          let buffer := splice buffer (Z.to_nat (pos / 2)) (k_name k) in
          let pos := u32 (pos - 2) in
          if bytes_len buffer <? pos + 2 then None else
          full_name_copy fuel reg (k_parent k) (<[Z.to_nat (pos / 2) := BACKSLASH]> buffer) pos
      end
  end.

(** The full name of a key, when there is memory for it. *)
Definition horizon_reg_full_name (reg : horizon_reg) (key : positive) : option (option (list Z) * horizon_reg) :=
  size ← full_name_size (walk_fuel reg) reg (Some key) 0;
  let '(ok, reg) := malloc reg in
  if negb ok then Some (None, reg) else
  name ← full_name_copy (walk_fuel reg) reg (Some key) (replicate (Z.to_nat (size / 2)) 0) size;
  Some (Some name, reg).

Definition max_of (start : Z) (l : list Z) : Z := fold_left (fun m x => if m <? to_int x then to_int x else m) l start.

Definition class_len (k : horizon_reg_key) : Z := bytes_len (default [] (k_class k)).

Definition info_zero : horizon_reg_key_info := mk_info 0 0 0 0 0 0 0 0 0.

(** What [horizon_reg_enum_key] copies for the class of information: the
    lengths of name and class it replies, the longest names and data, the
    length of the name for the full classes, and the full name. *)
Definition enum_class (reg : horizon_reg) (key : positive) (k : horizon_reg_key) (info_class : Z)
    : option (option (Z * Z * horizon_reg_key_info * option (list Z)) * Z * horizon_reg) :=
  let namelen := bytes_len (k_name k) in
  if info_class =? HORIZON_REG_KEY_NAME then
    '(name, reg) ← horizon_reg_full_name reg key;
    match name with
    | None => Some (None, HORIZON_REG_NO_MEMORY, reg)
    | Some name => Some (Some (bytes_len name, 0, info_zero, Some name), HORIZON_REG_SUCCESS, reg)
    end
  else if info_class =? HORIZON_REG_KEY_BASIC then Some (Some (namelen, 0, info_zero, None), HORIZON_REG_SUCCESS, reg)
  else if info_class =? HORIZON_REG_KEY_NODE then Some (Some (namelen, class_len k, info_zero, None), HORIZON_REG_SUCCESS, reg)
  else if (info_class =? HORIZON_REG_KEY_FULL) || (info_class =? HORIZON_REG_KEY_CACHED) then
    subs ← mapM (fun sub => rg_keys reg !! sub) (k_subkeys k);
    let info := mk_info 0 (max_of 0 (map (fun s => bytes_len (k_name s)) subs)) (max_of 0 (map class_len subs)) 0
                  (max_of 0 (map (fun v => bytes_len (v_name v)) (k_values k)))
                  (max_of 0 (map (fun v => Z.of_nat (length (v_data v))) (k_values k))) 0 0 namelen in
    Some (Some (0, if info_class =? HORIZON_REG_KEY_CACHED then 0 else class_len k, info, None), HORIZON_REG_SUCCESS, reg)
  else Some (None, HORIZON_REG_INVALID_PARAMETER, reg).

(** The status, the information and up to [max] bytes of name and class. *)
Definition horizon_reg_enum_key (reg : horizon_reg) (key : positive) (index info_class max : Z)
    : option (Z * horizon_reg_key_info * list Z * horizon_reg) :=
  k ← rg_keys reg !! key;
  if negb (index =? -1) && ((index <? 0) || (Z.of_nat (length (k_subkeys k)) <=? index))
  then Some (HORIZON_REG_NO_MORE_ENTRIES, info_zero, [], reg) else
  key ← (if index =? -1 then Some key else k_subkeys k !! Z.to_nat index);
  k ← rg_keys reg !! key;
  '(r, status, reg) ← enum_class reg key k info_class;
  match r with
  | None => Some (status, info_zero, [], reg)
  | Some (namelen, classlen, info, fullname) =>
      let total := u32 (namelen + classlen) in
      let len := if total <? max then total else max in
      let '(replied, data) :=
        if namelen <? len then
          (namelen, take (Z.to_nat namelen) (units_bytes (k_name k)) ++
                    take (Z.to_nat (len - namelen)) (units_bytes (default [] (k_class k))))
        else if nonzero len then
          match fullname with
          | Some name => (namelen, take (Z.to_nat len) (units_bytes name))
          | None => (len, take (Z.to_nat len) (units_bytes (k_name k)))
          end
        else (i_namelen info, []) in
      Some (HORIZON_REG_SUCCESS,
            mk_info (to_int (Z.of_nat (length (k_subkeys k)))) (i_max_subkey info) (i_max_class info)
              (to_int (Z.of_nat (length (k_values k)))) (i_max_value info) (i_max_data info) (k_modif k) total replied,
            data, reg)
  end.

(** The status, the type, the length of the reply, the length of the name
    when data is returned, and up to [max] bytes of name and data. *)
Definition horizon_reg_enum_value (reg : horizon_reg) (key : positive) (index info_class max : Z)
    : option (Z * Z * Z * option Z * list Z) :=
  k ← rg_keys reg !! key;
  if (index <? 0) || (Z.of_nat (length (k_values k)) <=? index) then Some (HORIZON_REG_NO_MORE_ENTRIES, 0, 0, None, []) else
  v ← k_values k !! Z.to_nat index;
  let name_bytes := bytes_len (v_name v) in
  let data_bytes := Z.of_nat (length (v_data v)) in
  let lens := if info_class =? HORIZON_REG_VALUE_BASIC then Some (name_bytes, name_bytes)
              else if info_class =? HORIZON_REG_VALUE_FULL then Some (u32 (name_bytes + data_bytes), name_bytes)
              else if info_class =? HORIZON_REG_VALUE_PARTIAL then Some (data_bytes, 0)
              else None in
  match lens with
  | None => Some (HORIZON_REG_INVALID_PARAMETER, v_type v, 0, None, [])
  | Some (total, name_bytes) =>
      let len := if total <? max then total else max in
      if name_bytes <? len then
        Some (HORIZON_REG_SUCCESS, v_type v, total, Some name_bytes,
              take (Z.to_nat name_bytes) (units_bytes (v_name v)) ++ take (Z.to_nat (len - name_bytes)) (v_data v))
      else if nonzero len then
        Some (HORIZON_REG_SUCCESS, v_type v, total, Some len, take (Z.to_nat len) (units_bytes (v_name v)))
      else Some (HORIZON_REG_SUCCESS, v_type v, total, None, [])
  end.

(** ** Root keys *)

(** The characters of a path up to a backslash, 256 at most. *)
Definition ascii_element (path : list Z) : reg_name := take 256 (horizon_reg_element path).

(** [horizon_reg_create_ascii]; [path] is the string before its null. Every
    turn of the loop takes at least one character, or is the last. *)
Fixpoint horizon_reg_create_ascii (fuel : nat) (reg : horizon_reg) (key : positive) (path : list Z)
    : option (option positive * horizon_reg) :=
  match fuel with
  | O => None
  | S fuel =>
      if bool_decide (path = []) then Some (Some key, reg) else
      let name := ascii_element path in
      let rest := drop (length name) path in
      let rest := if bool_decide (head rest = Some BACKSLASH) then tail rest else rest in
      k ← rg_keys reg !! key;
      '(found, index) ← horizon_reg_find_subkey reg k name;
      match found with
      | Some sub => horizon_reg_create_ascii fuel reg sub rest
      | None =>
          let '(t, reg) := now reg in
          let '(sub, reg) := horizon_reg_alloc_key reg name t in
          match sub with
          | None => Some (None, reg)
          | Some sub =>
              '(status, reg) ← horizon_reg_link reg key sub index;
              if nonzero status then
                reg ← horizon_reg_release (walk_fuel reg) reg sub;
                Some (None, reg)
              else horizon_reg_create_ascii fuel reg sub rest
          end
      end
  end.
