(* ===== verification/RegistryInv.v ===== *)
(** * The invariant of the registry tree

    What a registry is between calls ([reg_wf]: sorted subkeys and values with
    unique names, links both ways between a key and its parent, exact
    reference counts), and that every operation of [Registry] returns and
    keeps it, with what it changes. States that differ in times, classes and
    notifications only are [reg_like]; [calm] adds that no event was lost. *)
From S2P Require Import Prelude RegistryNames Registry.
Local Open Scope Z_scope.

#[local] Arguments horizon_reg_touch : simpl never.
#[local] Arguments search_loop : simpl never.
#[local] Arguments walk_fuel : simpl never.
#[local] Arguments LOOKUP_DEPTH : simpl never.

(** ** The invariant *)

(** The name of a key of the heap. *)
Definition key_name (keys : gmap positive horizon_reg_key) (key : positive) : reg_name := default [] (k_name <$> keys !! key).

(** How many references to [key] the callers hold. *)
Definition held_count (held : list positive) (key : positive) : nat := countb (fun h => bool_decide (h = key)) held.

(** Whether the tree holds a reference to the key. *)
Definition linked (reg : horizon_reg) (key : positive) (k : horizon_reg_key) : Prop :=
  is_Some (k_parent k) \/ rg_root reg = Some key.

#[export] Instance linked_dec reg key k : Decision (linked reg key k).
Proof. unfold linked. apply _. Defined.

(** A name that is an element of a path. *)
Definition good_name (name : reg_name) : Prop :=
  name <> [] /\ BACKSLASH ∉ name /\ bytes_len name <= HORIZON_REG_MAX_NAME.

(** Room in an array that grows by a half. *)
Definition good_room (count max : Z) : Prop := count <= max /\ (max = 0 \/ 8 <= max).

(** What a key by itself is: [held] are the references of the callers. *)
Record key_wf (reg : horizon_reg) (held : list positive) (key : positive) (k : horizon_reg_key) : Prop := {
  kw_sub : forall sub, sub ∈ k_subkeys k -> exists s, rg_keys reg !! sub = Some s /\ k_parent s = Some key;
  kw_nodup : NoDup (k_subkeys k);
  kw_parent : forall p, k_parent k = Some p -> exists kp, rg_keys reg !! p = Some kp /\ key ∈ k_subkeys kp;
  kw_deleted : has_flag k HORIZON_REG_FLAG_DELETED = false <-> linked reg key k;
  kw_leaf : has_flag k HORIZON_REG_FLAG_DELETED = true -> k_subkeys k = [];
  kw_sorted : sorted_names (map (key_name (rg_keys reg)) (k_subkeys k));
  kw_values : sorted_names (map v_name (k_values k));
  kw_name : is_Some (k_parent k) -> good_name (k_name k);
  kw_room : good_room (Z.of_nat (length (k_subkeys k))) (k_subkey_max k) /\
            good_room (Z.of_nat (length (k_values k))) (k_value_max k);
  kw_refs : k_refs k = (if decide (linked reg key k) then 1 else 0) + Z.of_nat (held_count held key) /\ 0 < k_refs k;
}.

Record reg_wf (reg : horizon_reg) (held : list positive) : Prop := {
  wf_root : exists r k, rg_root reg = Some r /\ rg_keys reg !! r = Some k /\ k_parent k = None /\ k_name k = registry_name;
  wf_keys : forall key k, rg_keys reg !! key = Some k -> key_wf reg held key k;
  wf_held : forall key, key ∈ held -> is_Some (rg_keys reg !! key);
  wf_ranked : exists rank : positive -> nat, forall key k p,
    rg_keys reg !! key = Some k -> k_parent k = Some p -> (rank p < rank key)%nat;
}.

(** What memory bounds: the number of keys, of values of a key and of
    references. *)
Definition reg_fits (reg : horizon_reg) : Prop :=
  Z.of_nat (size (rg_keys reg)) < 2147483648 /\
  map_Forall (fun _ k => Z.of_nat (length (k_values k)) < 2147483648 /\ k_refs k < UINT_MAX) (rg_keys reg).

#[export] Instance reg_fits_dec reg : Decision (reg_fits reg).
Proof. unfold reg_fits. apply _. Defined.

(** *** States that differ in times, classes and notifications only *)

Definition key_like (k k' : horizon_reg_key) : Prop :=
  k_name k = k_name k' /\ k_parent k = k_parent k' /\ k_subkeys k = k_subkeys k' /\ k_subkey_max k = k_subkey_max k' /\
  k_values k = k_values k' /\ k_value_max k = k_value_max k' /\ k_flags k = k_flags k' /\ k_refs k = k_refs k'.

Definition reg_like (reg reg' : horizon_reg) : Prop :=
  rg_root reg = rg_root reg' /\ map_relation (fun _ => key_like) (fun _ _ => False) (fun _ _ => False) (rg_keys reg) (rg_keys reg').

#[export] Instance key_like_equivalence : Equivalence key_like.
Proof. unfold key_like. split; intros ?; intros; splits_hyps; split_and!; congruence. Qed.

Lemma reg_like_lookup reg reg' key :
  reg_like reg reg' -> option_Forall2 key_like (rg_keys reg !! key) (rg_keys reg' !! key).
Proof. intros [_ H]. specialize (H key). destruct (rg_keys reg !! key), (rg_keys reg' !! key); simpl in *; try done; constructor; exact H. Qed.

Lemma reg_like_intro reg reg' :
  rg_root reg = rg_root reg' -> (forall key, option_Forall2 key_like (rg_keys reg !! key) (rg_keys reg' !! key)) -> reg_like reg reg'.
Proof. intros Hr H. split; [done|]. intros key. by destruct (H key). Qed.

#[export] Instance reg_like_equivalence : Equivalence reg_like.
Proof.
  split.
  - intros reg. apply reg_like_intro; [done|]. intros key. reflexivity.
  - intros reg reg' H. apply reg_like_intro; [symmetry; apply H|]. intros key. symmetry. by apply reg_like_lookup.
  - intros r1 r2 r3 H1 H2. apply reg_like_intro; [rewrite (proj1 H1); apply H2|]. intros key.
    etransitivity; by apply reg_like_lookup.
Qed.

Lemma reg_like_Some reg reg' key k :
  reg_like reg reg' -> rg_keys reg !! key = Some k -> exists k', rg_keys reg' !! key = Some k' /\ key_like k k'.
Proof. intros H Hk. pose proof (reg_like_lookup _ _ key H) as Hl. rewrite Hk in Hl. inversion Hl. eauto. Qed.

Lemma reg_like_put reg key k k' : rg_keys reg !! key = Some k -> key_like k k' -> reg_like reg (put_key reg key k').
Proof.
  intros Hk Hl. apply reg_like_intro; [done|]. intros key'. simpl. destruct (decide (key' = key)) as [-> |Hne].
  - rewrite lookup_insert_eq, Hk. by constructor.
  - by rewrite lookup_insert_ne.
Qed.

Lemma reg_like_key_name reg reg' : reg_like reg reg' -> forall key, key_name (rg_keys reg) key = key_name (rg_keys reg') key.
Proof.
  intros H key. unfold key_name. pose proof (reg_like_lookup _ _ key H) as Hl. destruct Hl as [k k' Hk|]; [|done]. simpl. apply Hk.
Qed.

(** The invariant does not see times, classes and notifications. *)
Lemma reg_like_wf reg reg' held : reg_like reg reg' -> reg_wf reg held -> reg_wf reg' held.
Proof.
  intros HL W. assert (HR : rg_root reg = rg_root reg') by apply HL. assert (HL' : reg_like reg' reg) by (by symmetry). split.
  - destruct (wf_root _ _ W) as (r & k & Hr & Hk & Hp & Hn). destruct (reg_like_Some _ _ _ _ HL Hk) as (k' & Hk' & Hl).
    exists r, k'. unfold key_like in Hl. splits_hyps. split_and!; congruence.
  - intros key k' Hk'. destruct (reg_like_Some _ _ _ _ HL' Hk') as (k & Hk & L). unfold key_like in L.
    destruct L as (L1 & L2 & L3 & L4 & L5 & L6 & L7 & L8). destruct (wf_keys _ _ W _ _ Hk) as [K1 K2 K3 K4 K5 K6 K7 K8 K9 K10].
    assert (HLk : linked reg' key k' <-> linked reg key k) by (unfold linked; rewrite <- HR, L2; done).
    assert (HF : forall f, has_flag k' f = has_flag k f) by (intros f; unfold has_flag; congruence).
    split; rewrite ?L1, ?L2, ?L3, ?L4, ?L5, ?L6, ?HF, ?HLk; try done.
    + intros sub Hsub. destruct (K1 sub Hsub) as (s & Hs & Hp). destruct (reg_like_Some _ _ _ _ HL Hs) as (s' & Hs' & Ls).
      exists s'. split; [done|]. destruct Ls as (_ & E & _). congruence.
    + intros p Hp. destruct (K3 p Hp) as (kp & Hkp & Hin). destruct (reg_like_Some _ _ _ _ HL Hkp) as (kp' & Hkp' & Ls).
      exists kp'. split; [done|]. destruct Ls as (_ & _ & E & _). congruence.
    + rewrite (map_ext _ (key_name (rg_keys reg))); [done|]. intros a. symmetry. by apply reg_like_key_name.
    + rewrite L8. rewrite (decide_ext _ _ _ _ HLk). done.
  - intros key Hin. destruct (wf_held _ _ W key Hin) as [k Hk]. destruct (reg_like_Some _ _ _ _ HL Hk) as (k' & ? & _). by exists k'.
  - destruct (wf_ranked _ _ W) as [rank Hr]. exists rank. intros key k' p Hk' Hp.
    destruct (reg_like_Some _ _ _ _ HL' Hk') as (k & Hk & L). destruct L as (_ & L2 & _). eapply Hr; [done|congruence].
Qed.

Lemma reg_like_fits reg reg' : reg_like reg reg' -> reg_fits reg -> reg_fits reg'.
Proof.
  intros HL [F1 F2]. assert (HL' : reg_like reg' reg) by (by symmetry). split.
  - assert (E : dom (rg_keys reg') = dom (rg_keys reg)).
    { apply set_eq. intros key. rewrite !elem_of_dom. pose proof (reg_like_lookup _ _ key HL) as H. destruct H; [|done].
      split; intros _; eauto. }
    rewrite <- size_dom, E, size_dom. done.
  - intros key k' Hk'. destruct (reg_like_Some _ _ _ _ HL' Hk') as (k & Hk & L). destruct (F2 key k Hk).
    unfold key_like in L. splits_hyps. split; congruence.
Qed.

(** *** Events *)

(** The events the notifications of the keys still hold. *)
Definition key_events (k : horizon_reg_key) : list Z := map n_event (k_notify k).
Definition pending_events (reg : horizon_reg) : list Z := map_to_list (rg_keys reg) ≫= (fun '(_, k) => key_events k).

(** Every event asked for: signaled, or still held by a key. *)
Definition all_events (reg : horizon_reg) : list Z := rg_signaled reg ++ pending_events reg.

(** Nothing but times, classes and notifications changed, and no event was
    lost or signaled twice. *)
Definition calm (reg reg' : horizon_reg) : Prop := reg_like reg reg' /\ all_events reg' ≡ₚ all_events reg.

#[export] Instance calm_preorder : PreOrder calm.
Proof.
  split; [by intros reg|]. intros r1 r2 r3 [L1 E1] [L2 E2]. split; [by transitivity r2|]. by rewrite E2.
Qed.

Lemma calm_like reg reg' : calm reg reg' -> reg_like reg reg'.
Proof. by intros []. Qed.

Lemma pending_insert_new (keys : gmap positive horizon_reg_key) key k :
  keys !! key = None ->
  (map_to_list (<[key := k]> keys) ≫= (fun '(_, k) => key_events k)) ≡ₚ key_events k ++ (map_to_list keys ≫= (fun '(_, k) => key_events k)).
Proof. intros Hk. by rewrite (map_to_list_insert keys key k Hk). Qed.

Lemma pending_delete reg key k :
  rg_keys reg !! key = Some k ->
  pending_events reg ≡ₚ key_events k ++ (map_to_list (delete key (rg_keys reg)) ≫= (fun '(_, k) => key_events k)).
Proof.
  intros Hk. unfold pending_events. rewrite <- (insert_delete_id _ _ _ Hk) at 1. apply pending_insert_new. apply lookup_delete_eq.
Qed.

Lemma pending_put reg key k k' :
  rg_keys reg !! key = Some k -> pending_events (put_key reg key k') ++ key_events k ≡ₚ pending_events reg ++ key_events k'.
Proof.
  intros Hk. rewrite (pending_delete reg key k) by done. unfold pending_events. simpl. rewrite <- insert_delete_eq.
  rewrite pending_insert_new by apply lookup_delete_eq. solve_Permutation.
Qed.

(** A change of one key and the events it signals. *)
Lemma events_put reg key k k' events :
  rg_keys reg !! key = Some k -> key_events k ≡ₚ events ++ key_events k' ->
  all_events (signal (put_key reg key k') events) ≡ₚ all_events reg.
Proof.
  intros Hk He. unfold all_events. simpl. change (pending_events (signal (put_key reg key k') events)) with (pending_events (put_key reg key k')).
  pose proof (pending_put reg key k k' Hk) as Hp. rewrite He in Hp. apply (Permutation_app_inv_r (key_events k')).
  rewrite <- !(assoc_L (++)). rewrite <- Hp. solve_Permutation.
Qed.

Lemma events_put_same reg key k k' :
  rg_keys reg !! key = Some k -> k_notify k' = k_notify k -> all_events (put_key reg key k') ≡ₚ all_events reg.
Proof.
  intros Hk He. pose proof (events_put reg key k k' [] Hk) as H. unfold all_events, signal in *. simpl in *. rewrite app_nil_r in H.
  apply H. unfold key_events. by rewrite He.
Qed.

Lemma calm_put reg key k k' : rg_keys reg !! key = Some k -> key_like k k' -> k_notify k' = k_notify k -> calm reg (put_key reg key k').
Proof. intros Hk Hl Hn. split; [by eapply reg_like_put|by eapply events_put_same]. Qed.

Lemma calm_same reg reg' : rg_root reg' = rg_root reg -> rg_keys reg' = rg_keys reg -> rg_signaled reg' = rg_signaled reg -> calm reg reg'.
Proof.
  intros H1 H2 H3. split; [|unfold all_events, pending_events; by rewrite H2, H3].
  apply reg_like_intro; [done|]. intros key. rewrite H2. reflexivity.
Qed.

Lemma filter_split {A} (f : A -> bool) l : l ≡ₚ List.filter f l ++ List.filter (fun x => negb (f x)) l.
Proof.
  induction l as [|x l IH]; simpl; [done|]. destruct (f x); simpl; [by constructor|]. rewrite <- Permutation_middle. by constructor.
Qed.

(** *** Walks up the tree end *)

Definition depth_of (reg : horizon_reg) (depth : positive -> nat) : Prop :=
  forall key k, rg_keys reg !! key = Some k -> (depth key < size (rg_keys reg))%nat /\
    forall p, k_parent k = Some p -> (depth p < depth key)%nat.

Lemma wf_depth reg held : reg_wf reg held -> exists depth, depth_of reg depth.
Proof.
  intros W. destruct (wf_ranked _ _ W) as [rank Hr].
  set (below := fun key => filter (fun key' => (rank key' < rank key)%nat) (dom (rg_keys reg) : gset positive)).
  exists (fun key => size (below key)). intros key k Hk.
  assert (Hin : key ∈ (dom (rg_keys reg) : gset positive)) by (by apply elem_of_dom_2 in Hk). split.
  - rewrite <- size_dom. apply subset_size. split; [set_solver|]. intros Hs. specialize (Hs key Hin).
    apply elem_of_filter in Hs as [? _]. lia.
  - intros p Hp. pose proof (Hr _ _ _ Hk Hp) as Hlt. apply subset_size. split.
    + intros x Hx. apply elem_of_filter in Hx as [? ?]. apply elem_of_filter. split; [lia|done].
    + destruct (kw_parent _ _ _ _ (wf_keys _ _ W _ _ Hk) p Hp) as (kp & Hkp & _). apply elem_of_dom_2 in Hkp.
      intros Hs. assert (Hx : p ∈ below key) by (by apply elem_of_filter). apply Hs, elem_of_filter in Hx as [? _]. lia.
Qed.

Lemma reg_like_depth reg reg' depth : reg_like reg reg' -> depth_of reg depth -> depth_of reg' depth.
Proof.
  intros HL D key k' Hk'. assert (HL' : reg_like reg' reg) by (by symmetry).
  destruct (reg_like_Some _ _ _ _ HL' Hk') as (k & Hk & L). destruct (D key k Hk) as [D1 D2].
  assert (E : size (rg_keys reg') = size (rg_keys reg)).
  { rewrite <- !size_dom. f_equal. apply set_eq. intros x. rewrite !elem_of_dom.
    pose proof (reg_like_lookup _ _ x HL) as H. destruct H; [|done]. split; intros _; eauto. }
  split; [by rewrite E|]. intros p Hp. apply D2. destruct L as (_ & L2 & _). congruence.
Qed.

(** The steps a walk from [key] up to the root takes. *)
Definition steps_up (depth : positive -> nat) (key : option positive) : nat :=
  match key with None => 1 | Some key => S (S (depth key)) end.

Lemma steps_up_parent reg depth key k : depth_of reg depth -> rg_keys reg !! key = Some k -> (steps_up depth (k_parent k) <= S (depth key))%nat.
Proof. intros D Hk. destruct (D key k Hk) as [_ D2]. destruct (k_parent k) as [p|]; simpl; [|lia]. specialize (D2 p eq_refl). lia. Qed.

Lemma walk_enough reg depth key k : depth_of reg depth -> rg_keys reg !! key = Some k -> (steps_up depth (Some key) <= walk_fuel reg)%nat.
Proof. intros D Hk. destruct (D key k Hk) as [D1 _]. unfold walk_fuel. simpl. lia. Qed.

(** A key whose parent is somewhere has the parent in the heap. *)
Definition parent_ok (reg : horizon_reg) (key : option positive) : Prop :=
  match key with None => True | Some key => is_Some (rg_keys reg !! key) end.

Lemma wf_parent_ok reg held key k : reg_wf reg held -> rg_keys reg !! key = Some k -> parent_ok reg (k_parent k).
Proof.
  intros W Hk. destruct (k_parent k) as [p|] eqn:Hp; [|done]. destruct (kw_parent _ _ _ _ (wf_keys _ _ W _ _ Hk) p Hp) as (kp & ? & _).
  by exists kp.
Qed.

Lemma reg_like_parent_ok reg reg' key : reg_like reg reg' -> parent_ok reg key -> parent_ok reg' key.
Proof. intros HL. destruct key as [key|]; [|done]. intros [k Hk]. destruct (reg_like_Some _ _ _ _ HL Hk) as (k' & ? & _). by exists k'. Qed.

(** *** Notifications *)

Lemma notify_loop_filter watches l :
  notify_loop watches l = (List.filter (fun n => negb (watches n)) l, map n_event (List.filter watches l)).
Proof. induction l as [|n l IH]; simpl; [done|]. rewrite IH. by destruct (watches n). Qed.

(** What a key's notifications are after a change. *)
Definition watching (change : Z) (not_subtree : bool) (n : horizon_reg_notify_entry) : bool :=
  (n_subtree n || not_subtree) && nonzero (Z.land change (n_filter n)).

Lemma check_notify_eq reg key k change not_subtree :
  rg_keys reg !! key = Some k ->
  horizon_reg_check_notify reg key change not_subtree =
  Some (signal (put_key reg key (k_with_notify k (List.filter (fun n => negb (watching change not_subtree n)) (k_notify k))))
          (map n_event (List.filter (watching change not_subtree) (k_notify k)))).
Proof. intros Hk. unfold horizon_reg_check_notify. rewrite Hk. cbn [mbind option_bind]. by rewrite notify_loop_filter. Qed.

Lemma key_like_notify k n : key_like k (k_with_notify k n).
Proof. by unfold key_like. Qed.

(** Taking notifications off a key and signaling them. *)
Lemma calm_signal reg key k f :
  rg_keys reg !! key = Some k ->
  calm reg (signal (put_key reg key (k_with_notify k (List.filter (fun n => negb (f n)) (k_notify k)))) (map n_event (List.filter f (k_notify k)))).
Proof.
  intros Hk. split.
  - transitivity (put_key reg key (k_with_notify k (List.filter (fun n => negb (f n)) (k_notify k))));
      [eapply reg_like_put; [done|apply key_like_notify]|]. apply reg_like_intro; [done|]. intros ?. reflexivity.
  - apply (events_put _ _ k); [done|]. unfold key_events. simpl. rewrite <- map_app. apply Permutation_map, filter_split.
Qed.

Lemma check_notify_calm reg key k change not_subtree :
  rg_keys reg !! key = Some k ->
  exists reg', horizon_reg_check_notify reg key change not_subtree = Some reg' /\ calm reg reg'.
Proof. intros Hk. rewrite (check_notify_eq _ _ k) by done. eexists. split; [done|]. by apply calm_signal. Qed.

Lemma touch_parents_calm fuel reg held depth key change :
  reg_wf reg held -> depth_of reg depth -> parent_ok reg key -> (steps_up depth key <= fuel)%nat ->
  exists reg', touch_parents fuel reg key change = Some reg' /\ calm reg reg'.
Proof.
  revert reg key. induction fuel as [|fuel IH]; intros reg key W D Hp Hf; [destruct key; simpl in Hf; lia|].
  destruct key as [key|]; [|by exists reg]. destruct Hp as [k Hk]. cbn [touch_parents].
  destruct (check_notify_calm reg key k change false Hk) as (r1 & -> & C1). cbn [mbind option_bind].
  pose proof (calm_like _ _ C1) as L1. destruct (reg_like_Some _ _ _ _ L1 Hk) as (k1 & Hk1 & Lk). rewrite Hk1. cbn [mbind option_bind].
  assert (W1 : reg_wf r1 held) by (by eapply reg_like_wf). assert (D1 : depth_of r1 depth) by (by eapply reg_like_depth).
  destruct (IH r1 (k_parent k1) W1 D1) as (r2 & Hr2 & C2).
  - by eapply wf_parent_ok.
  - pose proof (steps_up_parent _ _ _ _ D1 Hk1). simpl in Hf. lia.
  - exists r2. split; [done|]. by transitivity r1.
Qed.

Lemma changed_like fuel reg held depth key :
  reg_wf reg held -> depth_of reg depth -> parent_ok reg key -> (steps_up depth key <= fuel)%nat ->
  exists reg', horizon_registry_changed fuel reg key = Some reg' /\ rg_keys reg' = rg_keys reg /\ rg_root reg' = rg_root reg /\
    rg_signaled reg' = rg_signaled reg /\ rg_hives reg' = rg_hives reg /\ rg_changed reg' = rg_changed reg.
Proof.
  intros W D. revert key. induction fuel as [|fuel IH]; intros key Hp Hf; [destruct key; simpl in Hf; lia|].
  destruct key as [key|]; [|by exists reg]. destruct Hp as [k Hk]. cbn [horizon_registry_changed].
  destruct (rg_generation reg) as [g0 g1]. case_bool_decide; [by eexists|]. case_bool_decide; [by eexists|].
  rewrite Hk. cbn [mbind option_bind]. apply IH; [by eapply wf_parent_ok|].
  pose proof (steps_up_parent _ _ _ _ D Hk). simpl in Hf. lia.
Qed.

Lemma touch_calm reg held key k change :
  reg_wf reg held -> rg_keys reg !! key = Some k ->
  exists reg', horizon_reg_touch reg key change = Some reg' /\ calm reg reg'.
Proof.
  intros W Hk. unfold horizon_reg_touch, now. cbv beta iota zeta.
  change (rg_keys (with_reads reg (S (rg_reads reg)))) with (rg_keys reg). rewrite Hk. cbn [mbind option_bind].
  set (r0 := put_key (with_reads reg (S (rg_reads reg))) key (k_with_modif k (rg_clock reg (rg_reads reg)))).
  assert (C0 : calm reg r0).
  { transitivity (with_reads reg (S (rg_reads reg))); [by apply calm_same|]. by eapply calm_put. }
  assert (W0 : reg_wf r0 held) by (eapply reg_like_wf; [by apply calm_like|done]). destruct (wf_depth _ _ W0) as [depth D0].
  assert (Hk0 : exists k0, rg_keys r0 !! key = Some k0) by (simpl; rewrite lookup_insert_eq; eauto). destruct Hk0 as [k0 Hk0].
  assert (H1 : exists r1, (if rg_changed r0 then horizon_registry_changed (walk_fuel r0) r0 (Some key) else Some r0) = Some r1 /\ calm r0 r1).
  { destruct (rg_changed r0); [|by exists r0].
    destruct (changed_like (walk_fuel r0) r0 held depth (Some key)) as (r1 & -> & E1 & E2 & E3 & _); [done..|by exists k0| |].
    - by eapply walk_enough.
    - exists r1. split; [done|]. by apply calm_same. }
  destruct H1 as (r1 & -> & C1). cbn [mbind option_bind]. destruct (reg_like_Some _ _ _ _ (calm_like _ _ C1) Hk0) as (k1 & Hk1 & _).
  destruct (check_notify_calm r1 key k1 change true Hk1) as (r2 & -> & C2). cbn [mbind option_bind].
  destruct (reg_like_Some _ _ _ _ (calm_like _ _ C2) Hk1) as (k2 & Hk2 & _). rewrite Hk2. cbn [mbind option_bind].
  assert (C : calm reg r2) by (transitivity r0; [done|]; by transitivity r1).
  assert (W2 : reg_wf r2 held) by (eapply reg_like_wf; [by apply calm_like|done]).
  assert (D2 : depth_of r2 depth) by (eapply reg_like_depth; [|exact D0]; transitivity r1; by apply calm_like).
  destruct (touch_parents_calm (walk_fuel r2) r2 held depth (k_parent k2) change) as (r3 & Hr3 & C3); [done|done|by eapply wf_parent_ok| |].
  - pose proof (steps_up_parent _ _ _ _ D2 Hk2). destruct (D2 _ _ Hk2) as [? _]. unfold walk_fuel. lia.
  - exists r3. split; [done|]. by transitivity r2.
Qed.

(** *** Finding *)

Lemma find_value_spec k name :
  sorted_names (map v_name (k_values k)) -> Z.of_nat (length (k_values k)) < 2147483648 ->
  exists r i, horizon_reg_find_value k name = Some (r, i) /\
    match r with
    | Some v => 0 <= i /\ k_values k !! Z.to_nat i = Some v /\ name_eq (v_name v) name
    | None => found_at (map v_name (k_values k)) name (false, i)
    end.
Proof.
  intros Hs Hl. unfold horizon_reg_find_value.
  destruct (search_loop_spec (S (length (k_values k))) (fun i => v_name <$> k_values k !! Z.to_nat i) (map v_name (k_values k)) name 0
     (Z.of_nat (length (k_values k)))) as ([found i] & -> & Hf); rewrite ?length_map; [done|done| |lia|lia|lia| | |lia|].
  - intros i _. symmetry. apply list_lookup_fmap.
  - lia.
  - intros j a Ha Hj. apply lookup_lt_Some in Ha. rewrite length_map in Ha. lia.
  - cbn [mbind option_bind]. destruct found.
    + destruct Hf as (H0 & a & Ha & He). rewrite list_lookup_fmap in Ha. apply fmap_Some in Ha as (v & Hv & ->). rewrite Hv.
      cbn [mbind option_bind]. exists (Some v), i. done.
    + exists None, i. done.
Qed.

Lemma find_subkey_spec reg k name :
  (forall sub, sub ∈ k_subkeys k -> is_Some (rg_keys reg !! sub)) ->
  sorted_names (map (key_name (rg_keys reg)) (k_subkeys k)) -> Z.of_nat (length (k_subkeys k)) < 2147483648 ->
  exists r i, horizon_reg_find_subkey reg k name = Some (r, i) /\
    match r with
    | Some sub => 0 <= i /\ k_subkeys k !! Z.to_nat i = Some sub /\ name_eq (key_name (rg_keys reg) sub) name
    | None => found_at (map (key_name (rg_keys reg)) (k_subkeys k)) name (false, i)
    end.
Proof.
  intros Hin Hs Hl. unfold horizon_reg_find_subkey.
  destruct (search_loop_spec (S (length (k_subkeys k))) (fun i => sub ← k_subkeys k !! Z.to_nat i; k_name <$> rg_keys reg !! sub)
     (map (key_name (rg_keys reg)) (k_subkeys k)) name 0 (Z.of_nat (length (k_subkeys k)))) as ([found i] & -> & Hf);
     rewrite ?length_map; [done|done| |lia|lia|lia| | |lia|].
  - intros i Hi. rewrite list_lookup_fmap. destruct (lookup_lt_is_Some_2 (k_subkeys k) (Z.to_nat i)) as [sub Hsub]; [lia|].
    rewrite Hsub. simpl. destruct (Hin sub) as [s Hsk]; [by eapply list_elem_of_lookup_2|]. unfold key_name. by rewrite Hsk.
  - lia.
  - intros j a Ha Hj. apply lookup_lt_Some in Ha. rewrite length_map in Ha. lia.
  - cbn [mbind option_bind]. destruct found.
    + destruct Hf as (H0 & a & Ha & He). rewrite list_lookup_fmap in Ha. apply fmap_Some in Ha as (v & Hv & ->). rewrite Hv.
      cbn [mbind option_bind]. exists (Some v), i. done.
    + exists None, i. done.
Qed.

(** The subkeys of a key are fewer than the keys. *)
Lemma subkeys_fit reg held key k :
  reg_wf reg held -> reg_fits reg -> rg_keys reg !! key = Some k -> Z.of_nat (length (k_subkeys k)) < 2147483648.
Proof.
  intros W [F _] Hk. destruct (wf_keys _ _ W _ _ Hk) as [K1 K2 _ _ _ _ _ _ _ _].
  assert ((length (k_subkeys k) <= size (rg_keys reg))%nat); [|lia]. rewrite <- size_dom, <- (size_list_to_set (C := gset positive)) by done.
  apply subseteq_size. intros sub Hsub. apply elem_of_list_to_set in Hsub. destruct (K1 sub Hsub) as (s & Hs & _). by eapply elem_of_dom_2.
Qed.

Lemma find_subkey_wf reg held key k name :
  reg_wf reg held -> reg_fits reg -> rg_keys reg !! key = Some k ->
  exists r i, horizon_reg_find_subkey reg k name = Some (r, i) /\
    match r with
    | Some sub => 0 <= i /\ k_subkeys k !! Z.to_nat i = Some sub /\ name_eq (key_name (rg_keys reg) sub) name
    | None => found_at (map (key_name (rg_keys reg)) (k_subkeys k)) name (false, i)
    end.
Proof.
  intros W F Hk. destruct (wf_keys _ _ W _ _ Hk). apply find_subkey_spec; [|done|by eapply subkeys_fit].
  intros sub Hsub. destruct (kw_sub0 sub Hsub) as (s & ? & _). by exists s.
Qed.

Lemma find_value_wf reg held key k name :
  reg_wf reg held -> reg_fits reg -> rg_keys reg !! key = Some k ->
  exists r i, horizon_reg_find_value k name = Some (r, i) /\
    match r with
    | Some v => 0 <= i /\ k_values k !! Z.to_nat i = Some v /\ name_eq (v_name v) name
    | None => found_at (map v_name (k_values k)) name (false, i)
    end.
Proof. intros W [_ F] Hk. destruct (wf_keys _ _ W _ _ Hk). apply find_value_spec; [done|]. by apply (F key k Hk). Qed.

(** ** Lookup ends and finds a live key *)

(** What a lookup without an error gives: a live key, no link unless links
    are to be opened; and when an element is missing, a name the key has no
    subkey of. *)
Definition path_ok (reg : horizon_reg) (attributes : Z) (path : horizon_reg_path) : Prop :=
  exists k, rg_keys reg !! path_key path = Some k /\ has_flag k HORIZON_REG_FLAG_DELETED = false /\
    match path_last path with
    | None => Z.land attributes HORIZON_REG_OBJ_OPENLINK = 0 -> has_flag k HORIZON_REG_FLAG_SYMLINK = false
    | Some last => good_name last /\ exists i, found_at (map (key_name (rg_keys reg)) (k_subkeys k)) last (false, i)
    end.

Definition result_ok (reg : horizon_reg) (attributes : Z) (r : Z * option horizon_reg_path) : Prop :=
  (fst r = HORIZON_REG_SUCCESS /\ exists path, snd r = Some path /\ path_ok reg attributes path) \/
  (fst r <> HORIZON_REG_SUCCESS /\ fst r <> HORIZON_REG_NAME_EXISTS /\ snd r = None).

Lemma result_error reg attributes status : status <> HORIZON_REG_SUCCESS -> status <> HORIZON_REG_NAME_EXISTS -> result_ok reg attributes (status, None).
Proof. by right. Qed.
#[local] Hint Resolve result_error : nx.

Definition steps_left (k : horizon_reg_key) (name : reg_name) : nat :=
  (2 * length name + if has_flag k HORIZON_REG_FLAG_SYMLINK then 2 else 1)%nat.

Lemma lookup_loop_ok fuel follow reg held key k name attributes links :
  reg_wf reg held -> reg_fits reg -> rg_keys reg !! key = Some k ->
  (forall target, links < HORIZON_REG_MAX_LINKS -> exists r, follow target = Some r /\ result_ok reg 0 r) ->
  (steps_left k name <= fuel)%nat ->
  exists r, lookup_loop fuel follow reg key name attributes links = Some r /\ result_ok reg attributes r.
Proof.
  intros W F Hk Hfol. revert key k name Hk. induction fuel as [|fuel IH]; intros key k name Hk Hf.
  { unfold steps_left in Hf. destruct (has_flag k _); lia. }
  cbn [lookup_loop]. rewrite Hk. cbn [mbind option_bind].
  destruct (has_flag k HORIZON_REG_FLAG_DELETED) eqn:Hd; [eexists; split; [done|by apply result_error]|].
  pose proof (skip_le name) as Hsk. pose proof (skip_head name) as Hsh. revert Hsk Hsh. generalize (skip_backslashes name).
  intros name' Hsk Hsh.
  destruct (has_flag k HORIZON_REG_FLAG_SYMLINK && _) eqn:Hlink.
  - apply andb_true_iff in Hlink as [Hlink _]. destruct (find_value_wf reg held key k horizon_reg_symlink_value W F Hk) as (v & i & -> & Hv).
    cbn [mbind option_bind]. destruct v as [v|]; [|eexists; split; [done|by apply result_error]].
    destruct (_ || _) eqn:Hc; [eexists; split; [done|by apply result_error]|]. btrue.
    destruct (Hfol (bytes_units (v_data v))) as ([status target] & -> & Ht); [done|]. cbn [mbind option_bind].
    destruct Ht as [(E & path & E' & k' & Hk' & Hd' & Hl')|(E & Ex & E')]; simpl in E, E'; subst.
    + change (nonzero HORIZON_REG_SUCCESS) with false. cbn [mbind option_bind]. case_bool_decide as Hlast; [eexists; split; [done|by apply result_error]|].
      destruct (path_last path) eqn:Hpl; [by destruct Hlast; eauto|].
      apply (IH (path_key path) k' name' Hk'). unfold steps_left in *. rewrite Hl' by done. rewrite Hlink in Hf. lia.
    + assert (Hn : nonzero status = true) by (unfold nonzero; apply negb_true_iff, Z.eqb_neq; done). rewrite Hn.
      eexists; split; [done|by apply result_error].
  - case_bool_decide as He.
    + eexists. split; [done|]. left. split; [done|]. eexists. split; [done|]. exists k. split_and!; [done..|].
      intros Ha. simpl. apply andb_false_iff in Hlink as [?|Hlink]; [done|]. rewrite Ha in Hlink. by rewrite orb_true_r in Hlink.
    + destruct name' as [|c name']; [done|]. specialize (Hsh c name' eq_refl).
      assert (Hel : exists e, horizon_reg_element (c :: name') = c :: e).
      { simpl. destruct (c =? BACKSLASH) eqn:E; btrue; [done|]. eauto. } destruct Hel as [e He']. rewrite He'.
      destruct (HORIZON_REG_MAX_NAME <? _) eqn:Hmax; btrue; [eexists; split; [done|by apply result_error]|].
      destruct (find_subkey_wf reg held key k (c :: e) W F Hk) as (sub & i & -> & Hsub). cbn [mbind option_bind].
      pose proof (skip_le (drop (length (c :: e)) (c :: name'))) as Hr. rewrite length_drop in Hr. simpl length in Hr, Hsk.
      destruct sub as [sub|].
      * destruct Hsub as (_ & Hsub & _). apply list_elem_of_lookup_2 in Hsub.
        destruct (kw_sub _ _ _ _ (wf_keys _ _ W _ _ Hk) _ Hsub) as (s & Hs & _). apply (IH sub s); [done|]. simpl.
        unfold steps_left in *. destruct (has_flag s _); simpl in *; destruct (has_flag k _); lia.
      * case_bool_decide; simpl negb; cbv iota; [|eexists; split; [done|by apply result_error]].
        eexists. split; [done|]. left. split; [done|]. eexists. split; [done|]. exists k. split_and!; [done..|]. simpl.
        split; [|by exists i]. split_and!; [done| |done]. rewrite <- He'. apply element_no_backslash.
Qed.

(** A lookup returns for every path and every tree of links: the limit on
    links ends a circle of them. *)
Lemma lookup_ok depth reg held base name attributes links :
  reg_wf reg held -> reg_fits reg -> parent_ok reg base -> 0 <= links -> HORIZON_REG_MAX_LINKS < links + Z.of_nat depth ->
  links <= HORIZON_REG_MAX_LINKS ->
  exists r, horizon_reg_lookup depth reg base name attributes links = Some r /\ result_ok reg attributes r.
Proof.
  intros W F. revert base name attributes links. induction depth as [|depth IH]; intros base name attributes links Hb H0 Hd Hm; [lia|].
  cbn [horizon_reg_lookup].
  assert (Hloop : forall key k name, rg_keys reg !! key = Some k -> exists r,
    lookup_loop (2 * length name + 2) (fun target => horizon_reg_lookup depth reg None target 0 (links + 1)) reg key name attributes links = Some r /\
    result_ok reg attributes r).
  { intros key k name' Hk. eapply lookup_loop_ok; [done..| |].
    - intros target Hl. apply IH; [done|lia..].
    - unfold steps_left. destruct (has_flag k _); lia. }
  destruct base as [base|].
  - destruct Hb as [k Hk]. case_bool_decide; [eexists; split; [done|by apply result_error]|]. by eapply Hloop.
  - destruct (negb _); [eexists; split; [done|by apply result_error]|].
    destruct (_ || _); [eexists; split; [done|by apply result_error]|].
    destruct (wf_root _ _ W) as (r & k & -> & Hk & _). cbn [mbind option_bind]. by eapply Hloop.
Qed.

Lemma lookup_top reg held base name attributes :
  reg_wf reg held -> reg_fits reg -> parent_ok reg base ->
  exists r, horizon_reg_lookup LOOKUP_DEPTH reg base name attributes 0 = Some r /\ result_ok reg attributes r.
Proof. intros W F Hb. apply (lookup_ok _ reg held); done. Qed.

(** ** Changes of one key *)

Lemma held_count_cons_eq held key : held_count (key :: held) key = S (held_count held key).
Proof. unfold held_count, countb. simpl. by rewrite bool_decide_eq_true_2. Qed.

Lemma held_count_cons_ne held key key' : key' <> key -> held_count (key :: held) key' = held_count held key'.
Proof. intros H. unfold held_count, countb. simpl. by rewrite bool_decide_eq_false_2. Qed.

Lemma held_count_zero held key : key ∉ held -> held_count held key = 0%nat.
Proof.
  induction held as [|h held IH]; [done|]. rewrite not_elem_of_cons. intros [H1 H2]. rewrite held_count_cons_ne by done. by apply IH.
Qed.

Lemma held_count_in held key : key ∈ held -> (0 < held_count held key)%nat.
Proof.
  induction held as [|h held IH]; [by intros ?%not_elem_of_nil|]. intros [E|H]%elem_of_cons; [subst h; rewrite held_count_cons_eq; lia|].
  destruct (decide (key = h)) as [<- |Hne]; [rewrite held_count_cons_eq; lia|]. rewrite held_count_cons_ne by done. by apply IH.
Qed.

#[export] Instance held_count_perm : Proper ((≡ₚ) ==> eq ==> eq) held_count.
Proof.
  intros h1 h2 H key ? <-. induction H as [|x l l' H IH|x y l|l1 l2 l3 H1 IH1 H2 IH2]; [done| |  |congruence].
  - destruct (decide (key = x)) as [<- |Hne]; [rewrite !held_count_cons_eq; congruence|by rewrite !held_count_cons_ne].
  - destruct (decide (key = x)) as [<- |Hx], (decide (key = y)) as [<- |Hy];
      rewrite ?held_count_cons_eq, ?held_count_cons_ne by done; rewrite ?held_count_cons_eq, ?held_count_cons_ne by done; done.
Qed.

Lemma wf_perm reg held held' : held ≡ₚ held' -> reg_wf reg held -> reg_wf reg held'.
Proof.
  intros P [W1 W2 W3 W4]. split; [done| | |done].
  - intros key k Hk. destruct (W2 key k Hk). split; try done. by rewrite <- P.
  - intros key Hin. apply W3. by rewrite P.
Qed.

(** A change of a key that keeps its place in the tree. *)
Lemma wf_put reg held held' key k k' :
  reg_wf reg held -> rg_keys reg !! key = Some k ->
  k_name k' = k_name k -> k_parent k' = k_parent k -> k_subkeys k' = k_subkeys k -> k_subkey_max k' = k_subkey_max k ->
  has_flag k' HORIZON_REG_FLAG_DELETED = has_flag k HORIZON_REG_FLAG_DELETED ->
  sorted_names (map v_name (k_values k')) -> good_room (Z.of_nat (length (k_values k'))) (k_value_max k') ->
  k_refs k' - Z.of_nat (held_count held' key) = k_refs k - Z.of_nat (held_count held key) -> 0 < k_refs k' ->
  (forall other, other <> key -> held_count held' other = held_count held other) -> (forall other, other ∈ held' -> other = key \/ other ∈ held) ->
  reg_wf (put_key reg key k') held'.
Proof.
  intros W Hk E1 E2 E3 E4 E5 Hv Hr He Hp Ho Hh.
  assert (Hname : forall other, key_name (<[key := k']> (rg_keys reg)) other = key_name (rg_keys reg) other).
  { intros other. unfold key_name. destruct (decide (other = key)) as [-> |Hne]; [|by rewrite lookup_insert_ne].
    rewrite lookup_insert_eq, Hk. simpl. congruence. }
  assert (Hex : forall other ko, rg_keys reg !! other = Some ko -> exists ko', rg_keys (put_key reg key k') !! other = Some ko' /\
     k_parent ko' = k_parent ko /\ k_subkeys ko' = k_subkeys ko).
  { intros other ko Hko. simpl. destruct (decide (other = key)) as [-> |Hne]; [|rewrite lookup_insert_ne; eauto].
    rewrite lookup_insert_eq. exists k'. assert (ko = k) as -> by congruence. done. }
  assert (Hgen : forall other ko ko', rg_keys reg !! other = Some ko -> k_name ko' = k_name ko -> k_parent ko' = k_parent ko ->
     k_subkeys ko' = k_subkeys ko -> k_subkey_max ko' = k_subkey_max ko ->
     has_flag ko' HORIZON_REG_FLAG_DELETED = has_flag ko HORIZON_REG_FLAG_DELETED ->
     sorted_names (map v_name (k_values ko')) -> good_room (Z.of_nat (length (k_values ko'))) (k_value_max ko') ->
     k_refs ko' - Z.of_nat (held_count held' other) = k_refs ko - Z.of_nat (held_count held other) -> 0 < k_refs ko' ->
     key_wf (put_key reg key k') held' other ko').
  { intros other ko ko' Hko A1 A2 A3 A4 A5 A6 A7 A8 A9. destruct (wf_keys _ _ W _ _ Hko) as [K1 K2 K3 K4 K5 K6 K7 K8 K9 [K10 K11]].
    assert (HL : linked (put_key reg key k') other ko' <-> linked reg other ko) by (unfold linked; rewrite A2; done).
    split; rewrite ?A1, ?A2, ?A3, ?A4, ?A5, ?HL; try done.
    - intros sub Hsub. destruct (K1 sub Hsub) as (s & Hs & Hps). destruct (Hex _ _ Hs) as (s' & ? & ? & ?). exists s'. split; [done|congruence].
    - intros p Hpp. destruct (K3 p Hpp) as (kp & Hkp & Hin). destruct (Hex _ _ Hkp) as (kp' & ? & ? & E). exists kp'. split; [done|]. by rewrite E.
    - simpl. by rewrite (map_ext _ (key_name (rg_keys reg))).
    - by destruct K9.
    - rewrite (decide_ext _ _ _ _ HL). split; [|done]. lia. }
  split.
  - destruct (wf_root _ _ W) as (r & kr & Hr0 & Hkr & Hp0 & Hn0). destruct (decide (r = key)) as [-> |Hne].
    + exists key, k'. simpl. rewrite lookup_insert_eq. assert (kr = k) as -> by congruence. split_and!; congruence.
    + exists r, kr. simpl. by rewrite lookup_insert_ne.
  - intros other ko Hko. simpl in Hko. destruct (decide (other = key)) as [-> |Hne].
    + rewrite lookup_insert_eq in Hko. injection Hko as <-. by apply (Hgen key k).
    + rewrite lookup_insert_ne in Hko by done. destruct (wf_keys _ _ W _ _ Hko) as [K1 K2 K3 K4 K5 K6 K7 K8 [K9 K9'] [K10 K11]].
      apply (Hgen other ko); try done. by rewrite Ho.
  - intros other Hin. destruct (Hh _ Hin) as [-> |Hin']; simpl; [rewrite lookup_insert_eq; eauto|].
    destruct (wf_held _ _ W other Hin') as [ko Hko]. destruct (Hex _ _ Hko) as (ko' & ? & _). by exists ko'.
  - destruct (wf_ranked _ _ W) as [rank Hrk]. exists rank. intros other ko p Hko Hpp. simpl in Hko.
    destruct (decide (other = key)) as [-> |Hne]; [|rewrite lookup_insert_ne in Hko by done; by eapply Hrk].
    rewrite lookup_insert_eq in Hko. injection Hko as <-. eapply Hrk; [done|congruence].
Qed.

(** A reference for the caller. *)
Lemma ref_key_wf reg held key k :
  reg_wf reg held -> k_refs k < UINT_MAX -> rg_keys reg !! key = Some k ->
  ref_key reg key = Some (put_key reg key (k_with_refs k (k_refs k + 1))) /\
  reg_wf (put_key reg key (k_with_refs k (k_refs k + 1))) (key :: held).
Proof.
  intros W Fr Hk. destruct (wf_keys _ _ W _ _ Hk). destruct kw_refs0 as [Hr Hr0].
  unfold ref_key. rewrite Hk. simpl. rewrite u32_small by (unfold is_u32; unfold UINT_MAX in Fr; lia). split; [done|].
  eapply wf_put; try done; simpl.
  - by destruct kw_room0.
  - rewrite held_count_cons_eq. lia.
  - lia.
  - intros other Hne. by apply held_count_cons_ne.
  - intros other [-> |?]%elem_of_cons; auto.
Qed.

(** A change of the values of a key. *)
Lemma values_wf reg held key k l max :
  reg_wf reg held -> rg_keys reg !! key = Some k -> sorted_names (map v_name l) -> good_room (Z.of_nat (length l)) max ->
  reg_wf (put_key reg key (k_with_values k l max)) held.
Proof. intros W Hk Hs Hr. destruct (wf_keys _ _ W _ _ Hk). eapply wf_put; try done; simpl; auto. by destruct kw_refs0. Qed.

Lemma land_lor_other a b n : 0 <= n -> Z.testbit b n = false -> Z.land (Z.lor a b) (2 ^ n) = Z.land a (2 ^ n).
Proof.
  intros Hn0 Hb. apply Z.bits_inj'. intros m Hm. rewrite !Z.land_spec, Z.lor_spec. destruct (decide (m = n)) as [-> |Hne].
  - by rewrite Hb, orb_false_r.
  - rewrite Z.pow2_bits_false by lia. by rewrite !andb_false_r.
Qed.

(** The flags for volatile keys and links leave the deleted flag alone. *)
Lemma flags_wf reg held key k flag :
  reg_wf reg held -> rg_keys reg !! key = Some k -> Z.testbit flag 1 = false ->
  reg_wf (put_key reg key (k_with_flags k (Z.lor (k_flags k) flag))) held.
Proof.
  intros W Hk Hb. destruct (wf_keys _ _ W _ _ Hk). eapply wf_put; try done; simpl; auto; [|by destruct kw_room0|by destruct kw_refs0].
  unfold has_flag, HORIZON_REG_FLAG_DELETED. simpl. by rewrite (land_lor_other _ _ 1).
Qed.

(** ** Changes of the tree *)

Lemma parent_irrefl reg held key k : reg_wf reg held -> rg_keys reg !! key = Some k -> k_parent k <> Some key.
Proof. intros W Hk Hp. destruct (wf_ranked _ _ W) as [rank Hr]. specialize (Hr _ _ _ Hk Hp). lia. Qed.

Lemma parent_asym reg held a ka b kb :
  reg_wf reg held -> rg_keys reg !! a = Some ka -> rg_keys reg !! b = Some kb -> k_parent ka = Some b -> k_parent kb <> Some a.
Proof.
  intros W Ha Hb Hp Hq. destruct (wf_ranked _ _ W) as [rank Hr]. pose proof (Hr _ _ _ Ha Hp). pose proof (Hr _ _ _ Hb Hq). lia.
Qed.

(** A key that is put below [p], taken away from there, or moved among its
    subkeys: [l] are the new subkeys of [p], [k'] the key as it is then. *)
Record relinks (reg : horizon_reg) (held held' : list positive) (p : positive) (kp : horizon_reg_key) (l : list positive) (max : Z)
    (key : positive) (k' : horizon_reg_key) : Prop := {
  rl_p : rg_keys reg !! p = Some kp;
  rl_ne : key <> p;
  rl_old : match rg_keys reg !! key with
           | None => k_subkeys k' = [] /\ k_subkey_max k' = 0
           | Some k => k_parent k = Some p /\ k_subkeys k' = k_subkeys k /\ k_subkey_max k' = k_subkey_max k
           end;
  rl_parent : k_parent k' = Some p /\ has_flag kp HORIZON_REG_FLAG_DELETED = false \/ k_parent k' = None /\ k_subkeys k' = [];
  rl_nodup : NoDup l;
  rl_others : forall x, x <> key -> x ∈ l <-> x ∈ k_subkeys kp;
  rl_key : key ∈ l <-> k_parent k' = Some p;
  rl_sorted : sorted_names (map (key_name (<[key := k']> (rg_keys reg))) l);
  rl_room : good_room (Z.of_nat (length l)) max;
  rl_deleted : has_flag k' HORIZON_REG_FLAG_DELETED = false <-> is_Some (k_parent k');
  rl_values : sorted_names (map v_name (k_values k')) /\ good_room (Z.of_nat (length (k_values k'))) (k_value_max k');
  rl_name : is_Some (k_parent k') -> good_name (k_name k');
  rl_refs : k_refs k' = (if decide (is_Some (k_parent k')) then 1 else 0) + Z.of_nat (held_count held' key) /\ 0 < k_refs k';
  rl_counts : forall other, other <> key -> held_count held' other = held_count held other;
  rl_held : forall other, other ∈ held' -> other = key \/ other ∈ held;
}.

Lemma relink_wf reg held held' p kp l max key k' :
  reg_wf reg held -> relinks reg held held' p kp l max key k' ->
  reg_wf (put_key (put_key reg p (k_with_subkeys kp l max)) key k') held'.
Proof.
  intros W [Hp Hne Hold Hpar Hnd Hoth Hkey Hsort Hroom Hdel Hval Hnam Hrefs Hcnt Hh].
  set (reg' := put_key (put_key reg p (k_with_subkeys kp l max)) key k').
  assert (Lk : rg_keys reg' !! key = Some k') by apply lookup_insert_eq.
  assert (Lp : rg_keys reg' !! p = Some (k_with_subkeys kp l max)) by (simpl; rewrite lookup_insert_ne by done; apply lookup_insert_eq).
  assert (Lo : forall x, x <> key -> x <> p -> rg_keys reg' !! x = rg_keys reg !! x)
    by (intros x H1 H2; simpl; by rewrite !lookup_insert_ne by done).
  assert (Hname : forall x, x <> key -> key_name (rg_keys reg') x = key_name (rg_keys reg) x).
  { intros x Hx. unfold key_name. destruct (decide (x = p)) as [-> |Hxp]; [|by rewrite Lo]. by rewrite Lp, Hp. }
  assert (Hroot : rg_root reg <> Some key).
  { destruct (wf_root _ _ W) as (r & kr & -> & Hkr & Hpr & _). intros [= ->]. rewrite Hkr in Hold. destruct Hold. congruence. }
  assert (Hnosub : forall x kx, rg_keys reg !! x = Some kx -> key ∈ k_subkeys kx -> x = p).
  { intros x kx Hx Hin. destruct (kw_sub _ _ _ _ (wf_keys _ _ W _ _ Hx) _ Hin) as (s & Hs & Hps). rewrite Hs in Hold. destruct Hold. congruence. }
  assert (Hpk : k_parent kp <> Some key).
  { intros Hq. destruct (kw_parent _ _ _ _ (wf_keys _ _ W _ _ Hp) _ Hq) as (k & Hk & _). rewrite Hk in Hold. destruct Hold as [Hkp _].
    by eapply (parent_asym reg held p kp key k). }
  assert (Hpp : k_parent kp <> Some p) by (by eapply parent_irrefl).
  split.
  - destruct (wf_root _ _ W) as (r & kr & Hr0 & Hkr & Hp0 & Hn0). destruct (decide (r = p)) as [-> |Hrp].
    + exists p, (k_with_subkeys kp l max). assert (kr = kp) as -> by congruence. done.
    + exists r, kr. rewrite Lo; [done|congruence|done].
  - intros x kx Hx. destruct (decide (x = key)) as [-> |Hxk]; [|destruct (decide (x = p)) as [-> |Hxp]].
    + assert (kx = k') as -> by congruence.
      assert (HL : linked reg' key k' <-> is_Some (k_parent k')) by (unfold linked; split; [intros [?|?]; [done|done]|by left]).
      assert (Hs : forall sub, sub ∈ k_subkeys k' -> exists s, rg_keys reg !! sub = Some s /\ k_parent s = Some key).
      { intros sub Hsub. destruct (rg_keys reg !! key) as [k|] eqn:Hk; [destruct Hold as (Hkp & E & _)|destruct Hold as [E _]].
        - rewrite E in Hsub. by apply (kw_sub _ _ _ _ (wf_keys _ _ W _ _ Hk)).
        - rewrite E in Hsub. by apply not_elem_of_nil in Hsub. }
      assert (Hs' : forall sub, sub ∈ k_subkeys k' -> sub <> key /\ sub <> p).
      { intros sub Hsub. destruct (Hs sub Hsub) as (s & Hs1 & Hs2). split; [|congruence]. intros ->. by eapply (parent_irrefl reg held key s). }
      split; rewrite ?HL; try done.
      * intros sub Hsub. destruct (Hs sub Hsub) as (s & ? & ?). destruct (Hs' sub Hsub). exists s. by rewrite Lo.
      * destruct (rg_keys reg !! key) as [k|] eqn:Hk; [destruct Hold as (_ & E & _)|destruct Hold as [E _]]; rewrite E; [|constructor].
        apply (kw_nodup _ _ _ _ (wf_keys _ _ W _ _ Hk)).
      * intros q Hq. destruct Hpar as [[E _]|[E _]]; [|congruence]. assert (q = p) as -> by congruence. eexists. split; [done|]. simpl. by apply Hkey.
      * intros Hd. destruct Hpar as [[E _]|[_ E]]; [|done]. assert (Hf : has_flag k' HORIZON_REG_FLAG_DELETED = false) by (apply Hdel; eauto). congruence.
      * rewrite (map_ext_in _ (key_name (rg_keys reg))) by (intros sub Hsub%list_elem_of_In; apply Hname; by apply Hs').
        destruct (rg_keys reg !! key) as [k|] eqn:Hk; [destruct Hold as (_ & E & _)|destruct Hold as [E _]]; rewrite E; [|constructor].
        apply (kw_sorted _ _ _ _ (wf_keys _ _ W _ _ Hk)).
      * apply Hval.
      * split; [|apply Hval]. destruct (rg_keys reg !! key) as [k|] eqn:Hk; [destruct Hold as (_ & E & E')|destruct Hold as [E E']]; rewrite E, E'.
        -- apply (kw_room _ _ _ _ (wf_keys _ _ W _ _ Hk)).
        -- unfold good_room. simpl. lia.
      * by rewrite (decide_ext _ _ _ _ HL).
    + assert (kx = k_with_subkeys kp l max) as -> by congruence. destruct (wf_keys _ _ W _ _ Hp) as [K1 K2 K3 K4 K5 K6 K7 K8 K9 [K10 K11]].
      split; simpl; try done.
      * intros sub Hsub. destruct (decide (sub = key)) as [-> |Hsk]; [exists k'; split; [done|by apply Hkey]|].
        destruct (K1 sub) as (s & Hs & Hsp); [by apply Hoth|]. exists s. split; [|done]. rewrite lookup_insert_ne by done.
        rewrite lookup_insert_ne; [done|]. intros <-. congruence.
      * intros q Hq. destruct (K3 q Hq) as (kq & Hkq & Hin). exists kq. split; [|done]. rewrite !lookup_insert_ne by congruence. done.
      * intros Hd. destruct Hpar as [[_ E]|[E _]]; [unfold has_flag in *; simpl in *; congruence|].
        specialize (K5 Hd). destruct l as [|x l']; [done|]. exfalso. assert (Hx0 : x ∈ x :: l') by (by left).
        destruct (decide (x = key)) as [-> |Hxk']; [apply Hkey in Hx0; congruence|].
        apply Hoth in Hx0; [|done]. rewrite K5 in Hx0. by apply not_elem_of_nil in Hx0.
      * rewrite (map_ext_in _ (key_name (<[key := k']> (rg_keys reg)))); [done|]. intros sub Hsub. unfold key_name.
        destruct (decide (sub = key)) as [-> |Hsk]; [by rewrite !lookup_insert_eq|]. rewrite !(lookup_insert_ne _ key) by done.
        destruct (decide (sub = p)) as [-> |Hsp]; [by rewrite lookup_insert_eq, Hp|by rewrite lookup_insert_ne].
      * by destruct K9.
      * rewrite Hcnt by congruence. done.
    + rewrite Lo in Hx by done. destruct (wf_keys _ _ W _ _ Hx) as [K1 K2 K3 K4 K5 K6 K7 K8 K9 [K10 K11]]. split; try done.
      * intros sub Hsub. destruct (K1 sub Hsub) as (s & Hs & Hsp). destruct (decide (sub = key)) as [-> |Hsk].
        { destruct Hxp. by eapply Hnosub. }
        destruct (decide (sub = p)) as [-> |Hsp']; [|exists s; by rewrite Lo]. eexists. split; [done|]. simpl. congruence.
      * intros q Hq. destruct (K3 q Hq) as (kq & Hkq & Hin). destruct (decide (q = key)) as [-> |Hqk].
        { exists k'. split; [done|]. rewrite Hkq in Hold. destruct Hold as (_ & -> & _). done. }
        destruct (decide (q = p)) as [-> |Hqp]; [|exists kq; by rewrite Lo]. eexists. split; [done|]. simpl. apply Hoth; [done|]. congruence.
      * rewrite (map_ext_in _ (key_name (rg_keys reg))); [done|]. intros sub Hsub%list_elem_of_In. apply Hname. intros ->. by destruct Hxp; eapply Hnosub.
      * rewrite Hcnt by done. done.
  - intros x Hin. destruct (decide (x = key)) as [-> |Hxk]; [by exists k'|]. destruct (decide (x = p)) as [-> |Hxp]; [by eexists|].
    destruct (Hh x Hin) as [?|Hin']; [done|]. rewrite Lo by done. by apply (wf_held _ _ W).
  - destruct (wf_ranked _ _ W) as [rank Hrk].
    exists (fun x => if bool_decide (rg_keys reg !! key = None) && bool_decide (x = key) then S (rank p) else rank x).
    intros x kx q Hx Hq. destruct (decide (x = key)) as [-> |Hxk].
    + assert (kx = k') as -> by congruence. destruct Hpar as [[E _]|[E _]]; [|congruence]. assert (q = p) as -> by congruence.
      rewrite (bool_decide_eq_true_2 (key = key)) by done. rewrite (bool_decide_eq_false_2 (p = key)) by done. rewrite andb_false_r.
      case_bool_decide as Hf; simpl; [lia|]. destruct (rg_keys reg !! key) as [k|] eqn:Hk; [|done]. eapply Hrk; [done|]. by destruct Hold.
    + assert (Hx' : exists kx', rg_keys reg !! x = Some kx' /\ k_parent kx' = Some q).
      { destruct (decide (x = p)) as [-> |Hxp]; [|rewrite Lo in Hx by done; eauto]. exists kp. split; [done|].
        assert (kx = k_with_subkeys kp l max) as -> by congruence. done. }
      destruct Hx' as (kx' & Hx' & Hq'). specialize (Hrk _ _ _ Hx' Hq'). rewrite (bool_decide_eq_false_2 (x = key)) by done. rewrite andb_false_r.
      case_bool_decide as Hf; simpl; [|done]. rewrite bool_decide_eq_false_2; [done|]. intros ->.
      destruct (kw_parent _ _ _ _ (wf_keys _ _ W _ _ Hx') _ Hq') as (kq & ? & _). congruence.
Qed.

(** ** Releasing a reference *)

(** The registry after the last reference to a key without subkeys is gone. *)
Definition drop_key (reg : horizon_reg) (key : positive) (k : horizon_reg_key) : horizon_reg :=
  with_keys (signal reg (map n_event (k_notify k))) (delete key (rg_keys reg)).

Lemma release_eq fuel reg key k :
  rg_keys reg !! key = Some k -> 0 < k_refs k <= UINT_MAX -> (k_refs k = 1 -> k_subkeys k = []) ->
  horizon_reg_release (S fuel) reg key =
  Some (if k_refs k =? 1 then drop_key reg key k else put_key reg key (k_with_refs k (k_refs k - 1))).
Proof.
  intros Hk Hr Hl. cbn [horizon_reg_release]. rewrite Hk. cbn [mbind option_bind].
  rewrite u32_small by (unfold is_u32, UINT_MAX in *; lia). unfold nonzero. destruct (k_refs k =? 1) eqn:E; btrue.
  - rewrite (proj2 (Z.eqb_eq (k_refs k - 1) 0)) by lia. rewrite Hl by done. simpl. unfold drop_key, signal, with_keys, put_key. simpl.
    by rewrite delete_insert_eq.
  - by rewrite (proj2 (Z.eqb_neq (k_refs k - 1) 0)) by lia.
Qed.

(** Forgetting a key that is neither linked nor held. *)
Lemma drop_wf reg held key k :
  reg_wf reg (key :: held) -> rg_keys reg !! key = Some k -> ~ linked reg key k -> held_count held key = 0%nat ->
  reg_wf (drop_key reg key k) held.
Proof.
  intros W Hk Hnl Hc. destruct (wf_keys _ _ W _ _ Hk) as [_ _ _ K4 K5 _ _ _ _ _].
  assert (Hd : has_flag k HORIZON_REG_FLAG_DELETED = true) by (destruct (has_flag k _) eqn:E; [done|by destruct Hnl; apply K4]).
  assert (Hsub : forall x kx, rg_keys reg !! x = Some kx -> key ∉ k_subkeys kx).
  { intros x kx Hx Hin. destruct (kw_sub _ _ _ _ (wf_keys _ _ W _ _ Hx) _ Hin) as (s & Hs & Hps). destruct Hnl. left. replace k with s by congruence. by exists x. }
  assert (Hpar : forall x kx, rg_keys reg !! x = Some kx -> k_parent kx <> Some key).
  { intros x kx Hx Hp. destruct (kw_parent _ _ _ _ (wf_keys _ _ W _ _ Hx) _ Hp) as (k2 & Hk2 & Hin). assert (k2 = k) as -> by congruence.
    rewrite K5 in Hin by done. by apply not_elem_of_nil in Hin. }
  assert (Hname : forall x, x <> key -> key_name (delete key (rg_keys reg)) x = key_name (rg_keys reg) x)
    by (intros x Hx; unfold key_name; by rewrite lookup_delete_ne).
  split.
  - destruct (wf_root _ _ W) as (r & kr & Hr0 & Hkr & Hp0 & Hn0). exists r, kr. simpl. rewrite lookup_delete_ne; [done|].
    intros ->. destruct Hnl. by right.
  - intros x kx Hx. simpl in Hx. apply lookup_delete_Some in Hx as [Hne Hx]. destruct (wf_keys _ _ W _ _ Hx) as [J1 J2 J3 J4 J5 J6 J7 J8 J9 J10].
    split; try done; simpl.
    + intros sub Hs. destruct (J1 sub Hs) as (s & Hss & Hps). exists s. rewrite lookup_delete_ne; [done|]. intros ->. by apply (Hsub x kx Hx).
    + intros p Hp. destruct (J3 p Hp) as (kp & Hkp & Hin). exists kp. rewrite lookup_delete_ne; [done|]. intros ->. by apply (Hpar x kx Hx).
    + rewrite (map_ext_in _ (key_name (rg_keys reg))); [done|]. intros sub Hs%list_elem_of_In. apply Hname. intros ->. by apply (Hsub x kx Hx).
    + by rewrite held_count_cons_ne in J10.
  - intros x Hin. simpl. rewrite lookup_delete_ne; [apply (wf_held _ _ W); by right|]. intros <-. apply held_count_in in Hin. lia.
  - destruct (wf_ranked _ _ W) as [rank Hrk]. exists rank. intros x kx p Hx. simpl in Hx. apply lookup_delete_Some in Hx as [_ Hx]. by eapply Hrk.
Qed.

(** Giving back a reference: the key goes away with the last one. *)
Lemma release_wf reg held key k :
  reg_wf reg (key :: held) -> k_refs k <= UINT_MAX -> rg_keys reg !! key = Some k ->
  horizon_reg_release (walk_fuel reg) reg key =
    Some (if k_refs k =? 1 then drop_key reg key k else put_key reg key (k_with_refs k (k_refs k - 1))) /\
  reg_wf (if k_refs k =? 1 then drop_key reg key k else put_key reg key (k_with_refs k (k_refs k - 1))) held.
Proof.
  intros W Hm Hk. destruct (wf_keys _ _ W _ _ Hk) as [K1 K2 K3 K4 K5 K6 K7 K8 K9 [K10 K11]]. rewrite held_count_cons_eq in K10.
  assert (Hone : k_refs k = 1 -> ~ linked reg key k /\ held_count held key = 0%nat) by (intros ?; destruct (decide (linked reg key k)); split; try done; lia).
  split.
  - apply release_eq; [done|lia|]. intros H1. destruct (Hone H1) as [Hnl _]. apply K5. destruct (has_flag k _) eqn:E; [done|]. by destruct Hnl; apply K4.
  - assert (Hrest : forall k', key_like (k_with_refs k (k_refs k')) k' -> 0 < k_refs k' -> k_refs k' = k_refs k - 1 -> reg_wf (put_key reg key k') held).
    { intros k' (L1 & L2 & L3 & L4 & L5 & L6 & L7 & L8) H0 He. simpl in *. eapply wf_put; [exact W|done|..]; try done.
      - unfold has_flag. congruence.
      - by rewrite <- L5.
      - rewrite <- L5, <- L6. by destruct K9.
      - rewrite held_count_cons_eq. lia.
      - intros other Hne. by rewrite held_count_cons_ne.
      - intros other Hin. right. by right. }
    destruct (k_refs k =? 1) eqn:E; btrue; [|apply Hrest; simpl; [done|lia|done]].
    destruct (Hone E) as [Hnl Hc]. by apply drop_wf.
Qed.

(** ** Creating *)

(** States that differ in the streams of memory and of the clock only. *)
Definition quiet (reg reg' : horizon_reg) : Prop :=
  rg_root reg' = rg_root reg /\ rg_keys reg' = rg_keys reg /\ rg_signaled reg' = rg_signaled reg /\
  rg_changed reg' = rg_changed reg /\ rg_hives reg' = rg_hives reg /\ rg_generation reg' = rg_generation reg /\
  rg_memory reg' = rg_memory reg.

#[export] Instance quiet_preorder : PreOrder quiet.
Proof. unfold quiet. split; [done|]. intros ?; intros; splits_hyps; split_and!; congruence. Qed.

Lemma quiet_calm reg reg' : quiet reg reg' -> calm reg reg'.
Proof. intros (? & ? & ? & _). by apply calm_same. Qed.

Lemma quiet_keys reg reg' : quiet reg reg' -> rg_keys reg' = rg_keys reg.
Proof. by intros (_ & ? & _). Qed.

Lemma malloc_quiet reg : quiet reg (snd (malloc reg)).
Proof. done. Qed.

Lemma now_quiet reg : quiet reg (snd (now reg)).
Proof. done. Qed.

(** An allocation, or none when there is nothing to store. *)
Lemma malloc_if_quiet reg (b : bool) : quiet reg (snd (if b then (true, reg) else malloc reg)).
Proof. by destruct b. Qed.

Lemma quiet_wf reg reg' held : quiet reg reg' -> reg_wf reg held -> reg_wf reg' held.
Proof. intros H. apply reg_like_wf. by apply calm_like, quiet_calm. Qed.

Lemma quiet_fits reg reg' : quiet reg reg' -> reg_fits reg -> reg_fits reg'.
Proof. intros H. apply reg_like_fits. by apply calm_like, quiet_calm. Qed.

Lemma calm_wf reg reg' held : calm reg reg' -> reg_wf reg held -> reg_wf reg' held.
Proof. intros H. by apply reg_like_wf, calm_like. Qed.

Lemma alloc_key_spec reg name modif :
  exists reg0, quiet reg reg0 /\
    (horizon_reg_alloc_key reg name modif = (None, reg0) \/
     exists key, horizon_reg_alloc_key reg name modif = (Some key, put_key reg0 key (key_new name modif)) /\ rg_keys reg !! key = None).
Proof.
  unfold horizon_reg_alloc_key. destruct (malloc reg) as [ok r1] eqn:E1. assert (Q1 : quiet reg r1) by (rewrite <- (f_equal snd E1 : snd _ = r1); apply malloc_quiet).
  destruct ok; simpl; [|by exists r1; auto].
  destruct (if bool_decide (name = []) then (true, r1) else malloc r1) as [ok r2] eqn:E2.
  assert (Q2 : quiet r1 r2) by (rewrite <- (f_equal snd E2 : snd _ = r2); apply malloc_if_quiet).
  exists r2. split; [by transitivity r1|]. destruct ok; simpl; [right|by left].
  eexists. split; [done|]. rewrite <- (quiet_keys _ _ Q1), <- (quiet_keys _ _ Q2).
  apply not_elem_of_dom. apply is_fresh.
Qed.

(** Room for one more. *)
Lemma grown_room count max : good_room count max -> count = max -> 0 <= count < 2147483648 -> count < grown max /\ good_room (count + 1) (grown max).
Proof.
  intros [H1 H2] E H3. unfold grown, good_room. destruct (max =? 0) eqn:Em; btrue; [lia|].
  assert (Hu : u32 (max + max / 2) = max + max / 2) by (apply u32_small; unfold is_u32; Z.to_euclidean_division_equations; lia).
  rewrite Hu. Z.to_euclidean_division_equations. lia.
Qed.

Lemma room_left count max : good_room count max -> count <> max -> count < max /\ good_room (count + 1) max.
Proof. unfold good_room. lia. Qed.

(** The subkeys of a parent with a new key among them, where the search put it. *)
Definition insert_at {A} (l : list A) (i : Z) (x : A) : list A := take (Z.to_nat i) l ++ x :: drop (Z.to_nat i) l.

Lemma elem_of_insert_at {A} (l : list A) i x y : y ∈ insert_at l i x <-> y = x \/ y ∈ l.
Proof. unfold insert_at. rewrite <- (take_drop (Z.to_nat i) l) at 3. rewrite !elem_of_app, elem_of_cons. tauto. Qed.

Lemma length_insert_at {A} (l : list A) i x : Z.of_nat (length (insert_at l i x)) = Z.of_nat (length l) + 1.
Proof. unfold insert_at. rewrite length_app. simpl. rewrite length_take, length_drop. lia. Qed.

Lemma NoDup_insert_at {A} (l : list A) i x : NoDup l -> x ∉ l -> NoDup (insert_at l i x).
Proof.
  intros Hn Hx. assert (P : insert_at l i x ≡ₚ x :: l); [|rewrite P; by constructor].
  unfold insert_at. rewrite <- Permutation_middle. by rewrite take_drop.
Qed.

Lemma map_insert_at {A B} (f : A -> B) l i x : map f (insert_at l i x) = insert_at (map f l) i (f x).
Proof. unfold insert_at. by rewrite map_app, map_cons, firstn_map, skipn_map. Qed.

Lemma sorted_insert_at l name i : sorted_names l -> found_at l name (false, i) -> sorted_names (insert_at l i name).
Proof. intros Hs (_ & H1 & H2). by apply sorted_names_insert. Qed.

(** A registry that has no room gives the error, with nothing changed. *)
Lemma link_spec reg parent p key k index :
  rg_keys reg !! parent = Some p -> rg_keys reg !! key = Some k -> key <> parent ->
  good_room (Z.of_nat (length (k_subkeys p))) (k_subkey_max p) -> Z.of_nat (length (k_subkeys p)) < 2147483648 ->
  0 <= index <= Z.of_nat (length (k_subkeys p)) ->
  exists reg0, quiet reg reg0 /\
    (horizon_reg_link reg parent key index = Some (HORIZON_REG_NO_MEMORY, reg0) \/
     exists max, good_room (Z.of_nat (length (k_subkeys p)) + 1) max /\
       horizon_reg_link reg parent key index =
       Some (HORIZON_REG_SUCCESS, put_key (put_key reg0 parent (k_with_subkeys p (insert_at (k_subkeys p) index key) max)) key (k_with_parent k (Some parent)))).
Proof.
  intros Hp Hk Hne Hroom Hlen Hi. unfold horizon_reg_link. rewrite Hp. cbn [mbind option_bind].
  assert (Hdone : forall reg0 max, quiet reg reg0 -> Z.of_nat (length (k_subkeys p)) < max ->
    (if (Z.of_nat (length (k_subkeys p)) <? index) || (max <=? Z.of_nat (length (k_subkeys p))) then None else
     let l := take (Z.to_nat index) (k_subkeys p) ++ key :: drop (Z.to_nat index) (k_subkeys p) in
     let reg := put_key reg0 parent (k_with_subkeys p l max) in
     k ← rg_keys reg !! key; Some (HORIZON_REG_SUCCESS, put_key reg key (k_with_parent k (Some parent)))) =
    Some (HORIZON_REG_SUCCESS, put_key (put_key reg0 parent (k_with_subkeys p (insert_at (k_subkeys p) index key) max)) key (k_with_parent k (Some parent)))).
  { intros reg0 max Q Hmax. rewrite (proj2 (Z.ltb_ge _ index)) by lia. rewrite (proj2 (Z.leb_gt max _)) by lia. cbn [orb]. cbv zeta.
    cbn [rg_keys put_key with_keys]. rewrite lookup_insert_ne by done. rewrite (quiet_keys _ _ Q). by rewrite Hk. }
  destruct (Z.of_nat (length (k_subkeys p)) =? k_subkey_max p) eqn:E; btrue.
  - destruct (malloc reg) as [ok r1] eqn:E1. assert (Q1 : quiet reg r1) by (rewrite <- (f_equal snd E1 : snd _ = r1); apply malloc_quiet).
    exists r1. split; [done|]. destruct ok; [right|by left].
    destruct (grown_room _ _ Hroom E) as [H1 H2]; [lia|]. eexists. split; [exact H2|]. apply Hdone; done.
  - exists reg. split; [done|]. right. destruct (room_left _ _ Hroom E) as [H1 H2]. eexists. split; [exact H2|]. by apply Hdone.
Qed.

(** A key as [create_missing] makes it below [parent]. *)
Definition created_key (name : reg_name) (t : Z) (parent : positive) (options : Z) : horizon_reg_key :=
  k_with_flags (k_with_parent (key_new name t) (Some parent))
    (Z.lor (if nonzero (Z.land options HORIZON_REG_OPTION_VOLATILE) then HORIZON_REG_FLAG_VOLATILE else 0)
           (if nonzero (Z.land options HORIZON_REG_OPTION_CREATE_LINK) then HORIZON_REG_FLAG_SYMLINK else 0)).

(** The tree with a new key below [parent]. *)
Definition with_created (reg : horizon_reg) (parent : positive) (p : horizon_reg_key) (i max : Z) (key : positive) (k : horizon_reg_key) : horizon_reg :=
  put_key (put_key reg parent (k_with_subkeys p (insert_at (k_subkeys p) i key) max)) key k.

Lemma created_wf reg held parent p name i max key t options :
  reg_wf reg held -> rg_keys reg !! parent = Some p -> has_flag p HORIZON_REG_FLAG_DELETED = false -> good_name name ->
  found_at (map (key_name (rg_keys reg)) (k_subkeys p)) name (false, i) ->
  good_room (Z.of_nat (length (k_subkeys p)) + 1) max -> rg_keys reg !! key = None ->
  reg_wf (with_created reg parent p i max key (created_key name t parent options)) held.
Proof.
  intros W Hp Hd Hn Hf Hroom Hk. destruct (wf_keys _ _ W _ _ Hp) as [K1 K2 K3 K4 K5 K6 K7 K8 K9 K10].
  assert (Hns : key ∉ k_subkeys p) by (intros Hin; destruct (K1 key Hin) as (s & ? & _); congruence).
  assert (Hnh : key ∉ held) by (intros Hin; destruct (wf_held _ _ W key Hin); congruence).
  apply (relink_wf reg held); [done|]. split; try done.
  - congruence.
  - by rewrite Hk.
  - by left.
  - by apply NoDup_insert_at.
  - intros x Hx. rewrite elem_of_insert_at. tauto.
  - rewrite elem_of_insert_at. tauto.
  - rewrite map_insert_at. unfold key_name at 2. rewrite lookup_insert_eq. simpl. apply sorted_insert_at.
    + rewrite (map_ext_in _ (key_name (rg_keys reg))); [done|]. intros x Hx%list_elem_of_In. unfold key_name. rewrite lookup_insert_ne; [done|]. by intros ->.
    + rewrite (map_ext_in _ (key_name (rg_keys reg))); [done|]. intros x Hx%list_elem_of_In. unfold key_name. rewrite lookup_insert_ne; [done|]. by intros ->.
  - by rewrite length_insert_at.
  - split; [intros _; by eexists|intros _]. unfold has_flag, created_key. simpl.
    destruct (nonzero (Z.land options HORIZON_REG_OPTION_VOLATILE)), (nonzero (Z.land options HORIZON_REG_OPTION_CREATE_LINK)); done.
  - split; [constructor|]. unfold good_room. simpl. lia.
  - simpl. rewrite (held_count_zero held key) by done. split; lia.
  - auto.
Qed.

Lemma events_put_new reg key k : rg_keys reg !! key = None -> k_notify k = [] -> all_events (put_key reg key k) ≡ₚ all_events reg.
Proof.
  intros Hk Hn. unfold all_events, pending_events. simpl. rewrite pending_insert_new by done. unfold key_events at 1. by rewrite Hn.
Qed.

Lemma created_events reg parent p i max key name t options :
  rg_keys reg !! parent = Some p -> rg_keys reg !! key = None ->
  all_events (with_created reg parent p i max key (created_key name t parent options)) ≡ₚ all_events reg.
Proof.
  intros Hp Hk. unfold with_created. rewrite events_put_new; [by apply (events_put_same _ _ p)| |done]. simpl. rewrite lookup_insert_ne; [done|congruence].
Qed.

Lemma create_missing_spec reg held parent p name options :
  reg_wf reg held -> reg_fits reg -> rg_keys reg !! parent = Some p -> has_flag p HORIZON_REG_FLAG_DELETED = false -> good_name name ->
  (exists i, found_at (map (key_name (rg_keys reg)) (k_subkeys p)) name (false, i)) ->
  exists r reg', create_missing reg parent name options = Some (r, reg') /\
    match r with
    | None => quiet reg reg'
    | Some key => exists reg0 i max t, quiet reg reg0 /\ rg_keys reg !! key = None /\
        found_at (map (key_name (rg_keys reg)) (k_subkeys p)) name (false, i) /\ good_room (Z.of_nat (length (k_subkeys p)) + 1) max /\
        horizon_reg_touch (with_created reg0 parent p i max key (created_key name t parent options)) parent HORIZON_REG_CHANGE_NAME = Some reg'
    end.
Proof.
  intros W F Hp Hd Hn [i0 Hf0]. destruct (wf_keys _ _ W _ _ Hp) as [K1 K2 K3 K4 K5 K6 K7 K8 [K9 _] K10].
  unfold create_missing. destruct (now reg) as [t r1] eqn:E1.
  assert (Q1 : quiet reg r1) by (rewrite <- (f_equal snd E1 : snd _ = r1); apply now_quiet).
  destruct (alloc_key_spec r1 name t) as (r2 & Q2 & [->|(key & -> & Hk)]).
  { exists None, r2. split; [done|]. by transitivity r1. }
  assert (Q : quiet reg r2) by (by transitivity r1). pose proof (quiet_keys _ _ Q) as EK. rewrite (quiet_keys _ _ Q1) in Hk.
  assert (Hne : key <> parent) by congruence.
  assert (Hns : key ∉ k_subkeys p) by (intros Hin; destruct (K1 key Hin) as (s & ? & _); congruence).
  cbn [rg_keys put_key with_keys]. rewrite lookup_insert_ne by done. rewrite EK, Hp. cbn [mbind option_bind].
  assert (EN : map (key_name (<[key := key_new name t]> (rg_keys reg))) (k_subkeys p) = map (key_name (rg_keys reg)) (k_subkeys p)).
  { apply map_ext_in. intros x Hx%list_elem_of_In. unfold key_name. rewrite lookup_insert_ne; [done|]. by intros ->. }
  fold (put_key r2 key (key_new name t)). destruct (find_subkey_spec (put_key r2 key (key_new name t)) p name) as (r & i & -> & Hf).
  { intros sub Hsub. destruct (K1 sub Hsub) as (s & Hs & _). simpl. rewrite EK, lookup_insert_ne; [by eexists|]. by intros ->. }
  { simpl. by rewrite EK, EN. } { by eapply subkeys_fit. }
  cbn [mbind option_bind]. simpl in Hf. rewrite EK in Hf.
  assert (Hfi : found_at (map (key_name (rg_keys reg)) (k_subkeys p)) name (false, i)).
  { destruct r as [sub|]; [|by rewrite EN in Hf]. exfalso. destruct Hf as (_ & Hsub & He).
    pose proof (found_at_iff _ _ _ _ K6 Hf0) as [_ Hff]. discriminate Hff. exists (key_name (rg_keys reg) sub).
    apply list_elem_of_lookup_2 in Hsub. split; [by apply list_elem_of_fmap_2|]. unfold key_name in *. rewrite lookup_insert_ne in He; [done|]. by intros ->. }
  destruct (link_spec (put_key r2 key (key_new name t)) parent p key (key_new name t) i) as (r3 & Q3 & [->|(max & Hmax & ->)]);
    [simpl; rewrite lookup_insert_ne by done; congruence|apply lookup_insert_eq|done|done|by eapply subkeys_fit| | |].
  - destruct Hfi as [Hfi _]. rewrite length_map in Hfi. lia.
  - cbn [mbind option_bind]. change (nonzero HORIZON_REG_NO_MEMORY) with true. cbv iota.
    unfold walk_fuel. rewrite (release_eq _ r3 key (key_new name t)); [|rewrite (quiet_keys _ _ Q3); apply lookup_insert_eq|done|done].
    cbn [mbind option_bind]. eexists None, _. split; [done|]. simpl. unfold drop_key, quiet in *. simpl in *. splits_hyps.
    split_and!; try congruence; [|rewrite app_nil_r; congruence].
    etransitivity; [|exact EK]. etransitivity; [|apply delete_insert_id; rewrite EK; exact Hk]. f_equal. by simpl.
  - cbn [mbind option_bind]. change (nonzero HORIZON_REG_SUCCESS) with false. cbv iota.
    cbn [rg_keys put_key with_keys]. rewrite lookup_insert_eq. cbn [mbind option_bind]. pose proof (quiet_keys _ _ Q3) as E3. simpl in E3. rewrite EK in E3.
    assert (Q4 : quiet reg (with_keys r3 (rg_keys reg))) by (unfold quiet in *; simpl in *; splits_hyps; split_and!; congruence).
    assert (W4 : reg_wf (with_keys r3 (rg_keys reg)) held) by (by eapply quiet_wf).
    destruct (touch_calm (with_created (with_keys r3 (rg_keys reg)) parent p i max key (created_key name t parent options)) held parent
      (k_with_subkeys p (insert_at (k_subkeys p) i key) max) HORIZON_REG_CHANGE_NAME) as (r5 & Hr5 & _).
    { by apply created_wf. }
    { simpl. rewrite lookup_insert_ne by done. apply lookup_insert_eq. }
    exists (Some key), r5. split; [|by exists (with_keys r3 (rg_keys reg)), i, max, t].
    match goal with |- (reg ← horizon_reg_touch ?x _ _; _) = _ =>
      assert (Ex : x = with_created (with_keys r3 (rg_keys reg)) parent p i max key (created_key name t parent options)) end;
      [|by rewrite Ex, Hr5].
    unfold with_created, put_key, with_keys. cbn [rg_keys rg_root rg_memory rg_allocs rg_clock rg_reads rg_signaled rg_changed rg_hives rg_generation].
    f_equal. rewrite E3. rewrite !insert_insert_eq. rewrite (insert_insert_ne _ key parent) by done. rewrite insert_insert_eq.
    rewrite (insert_insert_ne _ parent key) by done. f_equal. unfold created_key. simpl.
    by destruct (nonzero (Z.land options HORIZON_REG_OPTION_VOLATILE)), (nonzero (Z.land options HORIZON_REG_OPTION_CREATE_LINK)).
Qed.

(** The class a create request gives, and the reference for the caller. *)
Definition handed_key (k : horizon_reg_key) (class : list Z) : horizon_reg_key :=
  k_with_refs (if bool_decide (class = []) then k else k_with_class k (Some class)) (k_refs k + 1).

Definition handed_out (reg : horizon_reg) (key : positive) (class : list Z) (reg' : horizon_reg) : Prop :=
  exists k, rg_keys reg !! key = Some k /\ k_refs k < UINT_MAX /\ reg' = put_key reg key (handed_key k class).

Lemma hand_out reg held key k class :
  reg_wf reg held -> rg_keys reg !! key = Some k -> k_refs k < UINT_MAX ->
  exists reg', (k ← rg_keys reg !! key;
                let reg := if bool_decide (class = []) then reg else put_key reg key (k_with_class k (Some class)) in
                ref_key reg key) = Some reg' /\ handed_out reg key class reg' /\ reg_wf reg' (key :: held) /\ all_events reg' ≡ₚ all_events reg.
Proof.
  intros W Hk Hr. rewrite Hk. cbn [mbind option_bind]. cbv zeta.
  set (k1 := if bool_decide (class = []) then k else k_with_class k (Some class)).
  assert (E1 : (if bool_decide (class = []) then reg else put_key reg key (k_with_class k (Some class))) = put_key reg key k1).
  { subst k1. case_bool_decide; [|done]. unfold put_key. rewrite insert_id by done. by destruct reg. }
  assert (L1 : key_like k k1 /\ k_notify k1 = k_notify k) by (subst k1; by case_bool_decide). destruct L1 as [L1 N1].
  assert (Er : k_refs k1 = k_refs k) by (unfold key_like in L1; splits_hyps; congruence).
  assert (C : calm reg (put_key reg key k1)) by (by eapply calm_put). rewrite E1.
  destruct (ref_key_wf (put_key reg key k1) held key k1) as [-> W2]; [by eapply calm_wf|lia|apply lookup_insert_eq|].
  eexists. split; [done|]. split_and!; [|done|destruct C as [_ <-]; apply (events_put_same _ _ k1); [apply lookup_insert_eq|done]].
  exists k. split_and!; [done|done|]. unfold handed_key. fold k1. rewrite Er. unfold put_key, with_keys. simpl. by rewrite insert_insert_eq.
Qed.

Lemma open_spec reg held base name attributes :
  reg_wf reg held -> reg_fits reg -> parent_ok reg base ->
  exists status r reg', horizon_reg_open reg base name attributes = Some (status, r, reg') /\
    match r with
    | None => status <> HORIZON_REG_SUCCESS /\ reg' = reg
    | Some key => status = HORIZON_REG_SUCCESS /\ reg_wf reg' (key :: held) /\ all_events reg' ≡ₚ all_events reg /\
        horizon_reg_lookup LOOKUP_DEPTH reg base name attributes 0 = Some (HORIZON_REG_SUCCESS, Some (mk_path key None)) /\
        exists k, rg_keys reg !! key = Some k /\ reg' = put_key reg key (k_with_refs k (k_refs k + 1))
    end.
Proof.
  intros W F Hb. unfold horizon_reg_open.
  destruct (lookup_top reg held base name attributes W F Hb) as ([status path] & -> & [(E & [key last] & E' & k & Hk & Hd & Hl)|(E & Ex & E')]); simpl in E, E'; subst; cbn [mbind option_bind].
  - change (nonzero HORIZON_REG_SUCCESS) with false. cbv iota. simpl in *. destruct last as [last|]; simpl.
    + eexists _, None, reg. split; [done|]. done.
    + destruct F as [_ F]. destruct (F key k Hk) as [_ Fr]. destruct (ref_key_wf reg held key k W Fr Hk) as [-> W'].
      eexists _, (Some key), _. split; [done|]. split_and!; [done|done| |done|by exists k]. by apply (events_put_same _ _ k).
  - assert (Hn : nonzero status = true) by (unfold nonzero; apply negb_true_iff, Z.eqb_neq; done). rewrite Hn. by eexists _, None, reg.
Qed.

Lemma create_spec reg held base name attributes options class :
  reg_wf reg held -> reg_fits reg -> parent_ok reg base ->
  exists status r reg', horizon_reg_create reg base name attributes options class = Some (status, r, reg') /\
    match r with
    | None => status <> HORIZON_REG_SUCCESS /\ status <> HORIZON_REG_NAME_EXISTS /\ quiet reg reg'
    | Some key => reg_wf reg' (key :: held) /\ all_events reg' ≡ₚ all_events reg /\ exists path reg1,
        horizon_reg_lookup LOOKUP_DEPTH reg base name
          (if nonzero (Z.land options HORIZON_REG_OPTION_CREATE_LINK) then Z.lor attributes HORIZON_REG_OBJ_OPENLINK else attributes) 0 =
          Some (HORIZON_REG_SUCCESS, Some path) /\ handed_out reg1 key class reg' /\
        match path_last path with
        | None => status = HORIZON_REG_NAME_EXISTS /\ key = path_key path /\ quiet reg reg1
        | Some last => status = HORIZON_REG_SUCCESS /\ exists p reg0 i max t, rg_keys reg !! path_key path = Some p /\ good_name last /\
            quiet reg reg0 /\ rg_keys reg !! key = None /\
            found_at (map (key_name (rg_keys reg)) (k_subkeys p)) last (false, i) /\ good_room (Z.of_nat (length (k_subkeys p)) + 1) max /\
            horizon_reg_touch (with_created reg0 (path_key path) p i max key (created_key last t (path_key path) options)) (path_key path)
              HORIZON_REG_CHANGE_NAME = Some reg1
        end
    end.
Proof.
  intros W F Hb. unfold horizon_reg_create.
  set (attrs := if nonzero (Z.land options HORIZON_REG_OPTION_CREATE_LINK) then Z.lor attributes HORIZON_REG_OBJ_OPENLINK else attributes).
  destruct (lookup_top reg held base name attrs W F Hb) as ([status path] & -> & [(E & path' & E' & k & Hk & Hd & Hl)|(E & Ex & E')]); simpl in E, E'; subst; cbn [mbind option_bind];
    [|assert (Hn : nonzero status = true) by (unfold nonzero; apply negb_true_iff, Z.eqb_neq; done); rewrite Hn;
      eexists _, None, reg; done].
  change (nonzero HORIZON_REG_SUCCESS) with false. cbv iota. cbn [mbind option_bind].
  destruct (_ && _); [by eexists _, None, reg|]. rewrite Hk. cbn [mbind option_bind]. destruct (_ && _); [by eexists _, None, reg|].
  destruct (if bool_decide (class = []) then (true, reg) else malloc reg) as [ok r1] eqn:E1.
  assert (Q1 : quiet reg r1) by (rewrite <- (f_equal snd E1 : snd _ = r1); apply malloc_if_quiet).
  destruct ok; cbn [negb]; cbv iota; [|by eexists _, None, r1].
  assert (W1 : reg_wf r1 held) by (by eapply quiet_wf). assert (F1 : reg_fits r1) by (by eapply quiet_fits).
  rewrite <- (quiet_keys _ _ Q1) in Hk, Hl. destruct (path_last path') as [last|] eqn:Hlast.
  - destruct Hl as [Hgood Hfound].
    destruct (create_missing_spec r1 held (path_key path') k last options) as (r & r2 & -> & Hr); [done..|].
    cbn [mbind option_bind]. destruct r as [key|]; [|eexists _, None, r2; split; [done|]; split_and!; [done|done|by transitivity r1]].
    destruct Hr as (r3 & i & max & t & Q3 & Hkey & Hf & Hmax & Ht).
    assert (W3 : reg_wf (with_created r3 (path_key path') k i max key (created_key last t (path_key path') options)) held).
    { apply created_wf; rewrite ?(quiet_keys _ _ Q3); try done. by eapply quiet_wf. }
    assert (Hne : key <> path_key path') by congruence.
    destruct (touch_calm _ held (path_key path') (k_with_subkeys k (insert_at (k_subkeys k) i key) max) HORIZON_REG_CHANGE_NAME W3) as (r2' & Ht' & C2).
    { simpl. rewrite lookup_insert_ne by done. apply lookup_insert_eq. }
    rewrite Ht in Ht'. injection Ht' as <-.
    destruct (reg_like_Some _ _ key (created_key last t (path_key path') options) (calm_like _ _ C2)) as (k2 & Hk2 & L2); [apply lookup_insert_eq|].
    destruct (hand_out r2 held key k2 class) as (r4 & Hr4 & HO & W4 & E4); [by eapply calm_wf|done| |].
    { destruct L2 as (_ & _ & _ & _ & _ & _ & _ & <-). done. }
    rewrite Hk2 in Hr4 |- *. cbn [mbind option_bind] in Hr4 |- *. cbv zeta in Hr4. rewrite Hr4. cbn [mbind option_bind].
    eexists _, (Some key), r4. split; [done|]. split_and!; [done| |].
    + rewrite E4. destruct C2 as [_ ->]. rewrite created_events; [|by rewrite (quiet_keys _ _ Q3)..].
      destruct (quiet_calm _ _ Q3) as [_ ->]. by destruct (quiet_calm _ _ Q1) as [_ ->].
    + exists path', r2. split_and!; [done|done|]. rewrite Hlast. split; [done|]. exists k, r3, i, max, t. rewrite <- (quiet_keys _ _ Q1).
      split_and!; try done. by transitivity r1.
  - cbn [mbind option_bind]. destruct F1 as [_ F1]. destruct (F1 _ _ Hk) as [_ Fr].
    destruct (hand_out r1 held (path_key path') k class W1 Hk Fr) as (r4 & Hr4 & HO & W4 & E4). rewrite Hk in Hr4 |- *. cbn [mbind option_bind] in Hr4 |- *.
    cbv zeta in Hr4. rewrite Hr4. cbn [mbind option_bind]. eexists _, (Some (path_key path')), r4. split; [done|]. split_and!; [done| |].
    + rewrite E4. by destruct (quiet_calm _ _ Q1) as [_ ->].
    + exists path', r1. rewrite Hlast. done.
Qed.

(** ** Deleting *)

Lemma first_index_key (l : list positive) key : key ∈ l -> exists i, first_index (fun sub => bool_decide (sub = key)) l = Some i /\ l !! i = Some key.
Proof.
  intros Hin. destruct (first_index (fun sub => bool_decide (sub = key)) l) as [i|] eqn:E.
  - exists i. split; [done|]. apply first_index_Some in E as (x & Hx & He & _). apply bool_decide_eq_true in He. congruence.
  - apply first_index_None in E. rewrite list.Forall_forall in E. specialize (E _ Hin). by rewrite bool_decide_eq_true_2 in E.
Qed.

Lemma elem_of_delete_NoDup {A} (l : list A) i x y : NoDup l -> l !! i = Some x -> y ∈ delete i l <-> y ∈ l /\ y <> x.
Proof.
  intros Hn Hi. rewrite <- (take_drop_middle l i x Hi) at 2. rewrite <- (take_drop_middle l i x Hi) in Hn. rewrite delete_take_drop.
  apply list.NoDup_app in Hn as (_ & H2 & H3). inversion H3; subst. rewrite !elem_of_app, elem_of_cons. split.
  - intros [Hy|Hy]; (split; [tauto|]); intros ->; [by apply (H2 x Hy); left|done].
  - intros [[?|[?|?]] ?]; [by left|done|by right].
Qed.

Lemma map_delete {A B} (f : A -> B) l i : map f (delete i l) = delete i (map f l).
Proof. rewrite !delete_take_drop, map_app. by rewrite firstn_map, skipn_map. Qed.

(** A key that is taken out of its parent's subkeys; the reference of the tree
    is then held by the code that deletes it. *)
Definition deleted_key (k : horizon_reg_key) : horizon_reg_key :=
  k_with_flags (k_with_parent k None) (Z.lor (k_flags k) HORIZON_REG_FLAG_DELETED).

Definition without_key (reg : horizon_reg) (parent : positive) (p : horizon_reg_key) (i : nat) (key : positive) (k : horizon_reg_key) : horizon_reg :=
  put_key (put_key reg parent (k_with_subkeys p (delete i (k_subkeys p)) (k_subkey_max p))) key (deleted_key k).

Lemma deleted_flag k : has_flag (deleted_key k) HORIZON_REG_FLAG_DELETED = true.
Proof.
  unfold has_flag, nonzero, deleted_key, HORIZON_REG_FLAG_DELETED. simpl. apply negb_true_iff, Z.eqb_neq. intros H.
  apply (f_equal (fun z => Z.testbit z 1)) in H. rewrite Z.land_spec, Z.lor_spec in H. simpl in H. by rewrite orb_true_r in H.
Qed.

Lemma without_wf reg held parent p i key k :
  reg_wf reg held -> rg_keys reg !! key = Some k -> k_parent k = Some parent -> k_subkeys k = [] ->
  rg_keys reg !! parent = Some p -> k_subkeys p !! i = Some key ->
  reg_wf (without_key reg parent p i key k) (key :: held).
Proof.
  intros W Hk Hkp Hleaf Hp Hi. destruct (wf_keys _ _ W _ _ Hp) as [P1 P2 P3 P4 P5 P6 P7 P8 [P9 _] P10].
  destruct (wf_keys _ _ W _ _ Hk) as [K1 K2 K3 K4 K5 K6 K7 K8 [K9 K9'] [K10 K11]].
  apply (relink_wf reg held); [done|]. split; try done.
  - intros ->. by eapply (parent_irrefl reg held parent k).
  - by rewrite Hk.
  - right. done.
  - by apply NoDup_delete.
  - intros x Hx. rewrite (elem_of_delete_NoDup _ _ key) by done. tauto.
  - rewrite (elem_of_delete_NoDup _ _ key) by done. split; [tauto|done].
  - rewrite (map_ext_in _ (key_name (rg_keys reg))); [rewrite map_delete; by apply sorted_names_delete|].
    intros x Hx%list_elem_of_In%(elem_of_delete_NoDup _ _ key); [|done..]. unfold key_name. rewrite lookup_insert_ne; [done|]. by destruct Hx.
  - unfold good_room in *. rewrite length_delete by eauto. lia.
  - split; [by rewrite deleted_flag|]. by intros [? ?].
  - by intros [? ?].
  - simpl. rewrite held_count_cons_eq. rewrite decide_True in K10 by (left; eauto). split; lia.
  - intros other Hne. by rewrite held_count_cons_ne.
  - intros other [-> |?]%elem_of_cons; auto.
Qed.

Lemma without_events reg parent p i key k :
  rg_keys reg !! parent = Some p -> rg_keys reg !! key = Some k -> parent <> key ->
  all_events (without_key reg parent p i key k) ≡ₚ all_events reg.
Proof.
  intros Hp Hk Hne. unfold without_key. rewrite (events_put_same _ _ k); [by apply (events_put_same _ _ p)| |done].
  simpl. by rewrite lookup_insert_ne.
Qed.

Lemma drop_events reg key k : rg_keys reg !! key = Some k -> all_events (drop_key reg key k) ≡ₚ all_events reg.
Proof.
  intros Hk. unfold all_events. rewrite (pending_delete reg key k) by done. unfold drop_key, pending_events, key_events. simpl.
  by rewrite <- (assoc_L (++)).
Qed.

(** What giving back a reference leaves. *)
Definition released (reg : horizon_reg) (key : positive) (k : horizon_reg_key) : horizon_reg :=
  if k_refs k =? 1 then drop_key reg key k else put_key reg key (k_with_refs k (k_refs k - 1)).

Lemma released_events reg key k : rg_keys reg !! key = Some k -> all_events (released reg key k) ≡ₚ all_events reg.
Proof. intros Hk. unfold released. destruct (k_refs k =? 1); [by apply drop_events|by apply (events_put_same _ _ k)]. Qed.

Lemma delete_spec reg held key k :
  reg_wf reg held -> reg_fits reg -> rg_keys reg !! key = Some k ->
  exists status reg', horizon_reg_delete reg key = Some (status, reg') /\ reg_wf reg' held /\ all_events reg' ≡ₚ all_events reg /\
    (reg' = reg /\ (status = HORIZON_REG_ACCESS_DENIED \/ has_flag k HORIZON_REG_FLAG_DELETED = true) \/
     status = HORIZON_REG_SUCCESS /\ exists parent p i reg2 k2, k_parent k = Some parent /\ k_subkeys k = [] /\ rg_keys reg !! parent = Some p /\
       k_subkeys p !! i = Some key /\ horizon_reg_touch (without_key reg parent p i key k) parent HORIZON_REG_CHANGE_NAME = Some reg2 /\
       calm (without_key reg parent p i key k) reg2 /\ rg_keys reg2 !! key = Some k2 /\ key_like (deleted_key k) k2 /\ reg' = released reg2 key k2).
Proof.
  intros W [_ F] Hk. unfold horizon_reg_delete. rewrite Hk. cbn [mbind option_bind].
  destruct (has_flag k HORIZON_REG_FLAG_DELETED) eqn:Hd; [eexists _, reg; split_and!; [done..|]; left; auto|].
  destruct (k_parent k) as [parent|] eqn:Hkp; [|eexists _, reg; split_and!; [done..|]; left; auto].
  case_bool_decide as Hleaf; cbn [negb]; cbv iota; [|eexists _, reg; split_and!; [done..|]; left; auto].
  destruct (kw_parent _ _ _ _ (wf_keys _ _ W _ _ Hk) _ Hkp) as (p & Hp & Hin). rewrite Hp. cbn [mbind option_bind].
  destruct (first_index_key _ _ Hin) as (i & -> & Hi). cbn [mbind option_bind]. cbv zeta.
  assert (Hne : parent <> key) by (intros ->; by eapply (parent_irrefl reg held key k)).
  cbn [rg_keys put_key with_keys]. rewrite lookup_insert_ne by done. rewrite Hk. cbn [mbind option_bind].
  match goal with |- context [horizon_reg_touch ?x parent _] => change x with (without_key reg parent p i key k) end.
  pose proof (without_wf reg held parent p i key k W Hk Hkp Hleaf Hp Hi) as W1.
  destruct (touch_calm _ _ parent (k_with_subkeys p (delete i (k_subkeys p)) (k_subkey_max p)) HORIZON_REG_CHANGE_NAME W1) as (r2 & Ht & C2).
  { simpl. rewrite lookup_insert_ne by done. apply lookup_insert_eq. }
  rewrite Ht. cbn [mbind option_bind].
  destruct (reg_like_Some _ _ key (deleted_key k) (calm_like _ _ C2)) as (k2 & Hk2 & L2); [apply lookup_insert_eq|].
  assert (W2 : reg_wf r2 (key :: held)) by (by eapply calm_wf).
  destruct (release_wf r2 held key k2 W2) as [-> W3]; [|done|].
  { destruct L2 as (_ & _ & _ & _ & _ & _ & _ & <-). destruct (F key k Hk). simpl. lia. }
  cbn [mbind option_bind]. eexists _, (released r2 key k2). split_and!; [done|done| |].
  - rewrite released_events by done. destruct C2 as [_ ->]. by apply without_events.
  - right. split; [done|]. exists parent, p, i, r2, k2. done.
Qed.

(** ** Renaming *)

(** Where the entry goes once it is taken out. *)
Definition moved_index (current index : nat) : nat := if (current <? index)%nat then (index - 1)%nat else index.

Lemma insert_middle {A} (l1 l2 : list A) x y : <[length l1 := x]> (l1 ++ y :: l2) = l1 ++ x :: l2.
Proof. rewrite insert_app_r_alt by lia. by rewrite Nat.sub_diag. Qed.

Lemma move_subkey_eq l current index key :
  l !! current = Some key -> (index <= length l)%nat ->
  move_subkey l current index key = insert_at (delete current l) (Z.of_nat (moved_index current index)) key.
Proof.
  intros Hc Hi. unfold move_subkey, moved_index, insert_at. rewrite Nat2Z.id. pose proof (lookup_lt_Some _ _ _ Hc) as Hlt.
  destruct (current <? index)%nat eqn:E1; [apply Nat.ltb_lt in E1|apply Nat.ltb_ge in E1; destruct (index <? current)%nat eqn:E2; [apply Nat.ltb_lt in E2|apply Nat.ltb_ge in E2]].
  - rewrite <- (take_drop_middle l current key Hc). set (A := take current l).
    rewrite <- (take_drop (index - 1 - current) (drop (S current) l)).
    set (B := take (index - 1 - current) (drop (S current) l)). set (C := drop (index - 1 - current) (drop (S current) l)).
    assert (HA : length A = current) by (subst A; rewrite length_take; lia).
    assert (HB : length B = (index - 1 - current)%nat) by (subst B; rewrite length_take, length_drop; lia). clearbody A B C.
    rewrite <- HA in *. clear HA. assert (index - 1 = length A + length B)%nat as -> by lia.
    replace (length A + length B - length A)%nat with (length B) by lia.
    rewrite (drop_app_add' A) by done. simpl. rewrite drop_0, take_app_length. unfold splice. rewrite take_app_length, (drop_app_add' A) by done.
    assert (Hd : exists y, drop (length B) (key :: B ++ C) = y :: C).
    { destruct (list_eq_nil_dec B) as [-> |Hb]; [by exists key|]. destruct (exists_last Hb) as (B' & y & ->). rewrite length_app. simpl.
      exists y. rewrite Nat.add_1_r. simpl. rewrite <- (assoc_L (++)). apply drop_app_length. }
    destruct Hd as [y ->]. rewrite (assoc_L (++)), <- length_app. rewrite insert_middle, delete_middle.
    rewrite (assoc_L (++)). by rewrite take_app_length, drop_app_length.
  - rewrite <- (take_drop_middle l current key Hc). rewrite <- (take_drop index (take current l)). rewrite take_take, Nat.min_l by lia.
    set (A := take index l). set (B := drop index (take current l)). set (C := drop (S current) l).
    assert (HA : length A = index) by (subst A; rewrite length_take; lia).
    assert (HB : length B = (current - index)%nat) by (subst B; rewrite length_drop, length_take; lia). clearbody A B C.
    rewrite <- HA in *. clear HA. assert (current = length A + length B)%nat as -> by lia.
    replace (length A + length B - length A)%nat with (length B) by lia. rewrite <- !(assoc_L (++)).
    rewrite drop_app_length, take_app_length. unfold splice.
    assert (Hdel : delete (length A + length B)%nat (A ++ B ++ key :: C) = A ++ B ++ C)
      by (by rewrite (assoc_L (++) A), <- length_app, delete_middle, <- (assoc_L (++))).
    rewrite Hdel, take_app_length, drop_app_length.
    rewrite (take_app_add' A) by done. replace (length A + 1 + length B)%nat with (length A + S (length B))%nat by lia.
    rewrite (drop_app_add' A) by done. replace (S (length B)) with (length B + 1)%nat by lia. rewrite (drop_app_add' B) by done. simpl. rewrite drop_0.
    assert (Hd : exists y, take 1 (B ++ key :: C) = [y]) by (destruct B; simpl; rewrite take_0; eauto).
    destruct Hd as [y ->]. rewrite <- (assoc_L (++)). simpl. by rewrite insert_middle.
  - assert (index = current) as -> by lia. rewrite list_insert_id by done. rewrite delete_take_drop.
    rewrite <- (take_drop_middle l current key Hc) at 1. rewrite take_app_length', drop_app_length' by (rewrite length_take; lia). done.
Qed.

Lemma sorted_moved l current index name old :
  sorted_names l -> l !! current = Some old -> found_at l name (false, index) ->
  sorted_names (insert_at (delete current l) (Z.of_nat (moved_index current (Z.to_nat index))) name).
Proof.
  intros Hs Hc (Hi & Hlo & Hhi). unfold insert_at. rewrite Nat2Z.id. apply sorted_names_insert; [by apply sorted_names_delete|..];
    unfold moved_index; intros j a Ha Hj; destruct (current <? Z.to_nat index)%nat eqn:E; rewrite ?Nat.ltb_lt, ?Nat.ltb_ge in E;
    (destruct (decide (j < current)%nat); [rewrite list_lookup_delete_lt in Ha by done|rewrite list_lookup_delete_ge in Ha by lia]);
    first [eapply Hlo; [done|lia]|eapply Hhi; [done|lia]].
Qed.

(** A key with another name, moved to its place among its parent's subkeys. *)
Definition renamed (reg : horizon_reg) (parent : positive) (p : horizon_reg_key) (l : list positive) (key : positive) (k : horizon_reg_key) (name : reg_name) : horizon_reg :=
  put_key (put_key reg parent (k_with_subkeys p l (k_subkey_max p))) key (k_with_name k name).

Lemma renamed_wf reg held parent p current index key k name :
  reg_wf reg held -> rg_keys reg !! key = Some k -> k_parent k = Some parent -> rg_keys reg !! parent = Some p ->
  k_subkeys p !! current = Some key -> found_at (map (key_name (rg_keys reg)) (k_subkeys p)) name (false, index) -> good_name name ->
  reg_wf (renamed reg parent p (move_subkey (k_subkeys p) current (Z.to_nat index) key) key k name) held.
Proof.
  intros W Hk Hkp Hp Hc Hf Hn. destruct (wf_keys _ _ W _ _ Hp) as [P1 P2 P3 P4 P5 P6 P7 P8 [P9 _] P10].
  destruct (wf_keys _ _ W _ _ Hk) as [K1 K2 K3 K4 K5 K6 K7 K8 [K9 K9'] [K10 K11]].
  assert (Hne : key <> parent) by (intros ->; by eapply (parent_irrefl reg held parent k)).
  rewrite move_subkey_eq; [|done|destruct Hf as [Hf _]; rewrite length_map in Hf; lia].
  assert (Hel : forall x, x ∈ insert_at (delete current (k_subkeys p)) (Z.of_nat (moved_index current (Z.to_nat index))) key <-> x ∈ k_subkeys p).
  { intros x. rewrite elem_of_insert_at, (elem_of_delete_NoDup _ _ key) by done. destruct (decide (x = key)) as [-> |]; [|tauto].
    split; [|tauto]. intros _. by eapply list_elem_of_lookup_2. }
  apply (relink_wf reg held); [done|]. split; try done.
  - by rewrite Hk.
  - left. split; [done|]. destruct (has_flag p HORIZON_REG_FLAG_DELETED); [|done]. by rewrite P5 in Hc.
  - apply NoDup_insert_at; [by apply NoDup_delete|]. rewrite (elem_of_delete_NoDup _ _ key) by done. tauto.
  - rewrite Hel. split; [done|]. intros _. by eapply list_elem_of_lookup_2.
  - rewrite map_insert_at. unfold key_name at 2. rewrite lookup_insert_eq. simpl.
    rewrite (map_ext_in _ (key_name (rg_keys reg))) by (intros x Hx%list_elem_of_In%(elem_of_delete_NoDup _ _ key); [|done..]; destruct Hx; unfold key_name; by rewrite lookup_insert_ne).
    rewrite map_delete. eapply sorted_moved; [done| |done]. rewrite list_lookup_fmap, Hc. done.
  - unfold good_room in *. rewrite length_insert_at, length_delete by eauto. apply lookup_lt_Some in Hc. lia.
  - rewrite K4. unfold linked. simpl. rewrite Hkp. split; [by eauto|by left].
  - simpl. rewrite Hkp. rewrite decide_True in K10 by (left; eauto). rewrite decide_True by eauto. done.
  - auto.
Qed.

Lemma rename_spec reg held key k name :
  reg_wf reg held -> reg_fits reg -> rg_keys reg !! key = Some k ->
  exists status reg', horizon_reg_rename reg key name = Some (status, reg') /\ reg_wf reg' held /\ all_events reg' ≡ₚ all_events reg /\
    (status <> HORIZON_REG_SUCCESS /\ quiet reg reg' \/
     status = HORIZON_REG_SUCCESS /\ good_name name /\ exists reg0 parent p l, quiet reg reg0 /\ k_parent k = Some parent /\ rg_keys reg !! parent = Some p /\
       (forall x, x ∈ l <-> x ∈ k_subkeys p) /\ (forall x, x ∈ k_subkeys p -> ~ name_eq (key_name (rg_keys reg) x) name) /\
       horizon_reg_touch (renamed reg0 parent p l key k name) key HORIZON_REG_CHANGE_NAME = Some reg' /\
       calm (renamed reg0 parent p l key k name) reg').
Proof.
  intros W F Hk. unfold horizon_reg_rename.
  destruct (_ || _ || _) eqn:Hb; [eexists _, reg; split_and!; [done..|]; left; by split|].
  apply orb_false_iff in Hb as [[B1 B2]%orb_false_iff B3]. btrue.
  assert (Hn : good_name name) by (split_and!; [done| |done]; rewrite <- B2; apply element_no_backslash).
  rewrite Hk. cbn [mbind option_bind]. destruct (k_parent k) as [parent|] eqn:Hkp; [|eexists _, reg; split_and!; [done..|]; left; by split].
  destruct (kw_parent _ _ _ _ (wf_keys _ _ W _ _ Hk) _ Hkp) as (p & Hp & Hin). rewrite Hp. cbn [mbind option_bind].
  destruct (find_subkey_wf reg held parent p name W F Hp) as (r & index & -> & Hf). cbn [mbind option_bind].
  destruct r as [sub|]; [eexists _, reg; split_and!; [done..|]; left; by split|]. rewrite bool_decide_eq_false_2 by (by intros [? ?]). cbv iota.
  destruct (malloc reg) as [ok r1] eqn:E1. assert (Q1 : quiet reg r1) by (rewrite <- (f_equal snd E1 : snd _ = r1); apply malloc_quiet).
  assert (W1 : reg_wf r1 held) by (by eapply quiet_wf).
  destruct ok; cbn [negb]; cbv iota; [|eexists _, r1; split_and!; [done|done|by apply quiet_calm|by left]].
  destruct (first_index_key _ _ Hin) as (current & -> & Hc). cbn [mbind option_bind]. cbv zeta.
  assert (Hne : parent <> key) by (intros ->; by eapply (parent_irrefl reg held key k)).
  cbn [rg_keys put_key with_keys]. rewrite lookup_insert_ne by done. rewrite (quiet_keys _ _ Q1), Hk. cbn [mbind option_bind].
  set (l := move_subkey (k_subkeys p) current (Z.to_nat index) key).
  match goal with |- context [horizon_reg_touch ?x key _] => replace x with (renamed r1 parent p l key k name)
    by (unfold renamed, put_key, with_keys; simpl; by rewrite (quiet_keys _ _ Q1)) end.
  assert (W2 : reg_wf (renamed r1 parent p l key k name) held) by (apply renamed_wf; rewrite ?(quiet_keys _ _ Q1); done).
  destruct (touch_calm _ _ key (k_with_name k name) HORIZON_REG_CHANGE_NAME W2) as (r2 & Ht & C2); [apply lookup_insert_eq|].
  rewrite Ht. cbn [mbind option_bind]. eexists _, r2. split_and!; [done|by eapply calm_wf| |].
  - destruct C2 as [_ ->]. unfold renamed. rewrite (events_put_same _ _ k); [|simpl; rewrite lookup_insert_ne by done; by rewrite (quiet_keys _ _ Q1)|done].
    rewrite (events_put_same _ _ p); [|by rewrite (quiet_keys _ _ Q1)|done]. by apply quiet_calm.
  - right. split_and!; [done|done|]. exists r1, parent, p, l. split_and!; try done.
    + intros x. subst l. rewrite move_subkey_eq; [|done|destruct Hf as [Hf _]; rewrite length_map in Hf; lia].
      pose proof (kw_nodup _ _ _ _ (wf_keys _ _ W _ _ Hp)) as P2.
      rewrite elem_of_insert_at, (elem_of_delete_NoDup _ _ key) by done. destruct (decide (x = key)) as [-> |]; [|tauto]. tauto.
    + intros x Hx He. pose proof (found_at_iff _ _ _ _ (kw_sorted _ _ _ _ (wf_keys _ _ W _ _ Hp)) Hf) as [_ Hff]. discriminate Hff.
      exists (key_name (rg_keys reg) x). split; [by apply list_elem_of_fmap_2|done].
Qed.

(** ** Values *)

Lemma lookup_insert_at {A} (l : list A) i x : 0 <= i <= Z.of_nat (length l) -> insert_at l i x !! Z.to_nat i = Some x.
Proof. intros Hi. unfold insert_at. rewrite lookup_app_r by (rewrite length_take; lia). rewrite length_take, Nat.min_l by lia. by rewrite Nat.sub_diag. Qed.

Lemma update_insert_at {A} (l : list A) i x y : 0 <= i <= Z.of_nat (length l) -> <[Z.to_nat i := y]> (insert_at l i x) = insert_at l i y.
Proof.
  intros Hi. unfold insert_at. assert (E : Z.to_nat i = length (take (Z.to_nat i) l)) by (rewrite length_take; lia).
  rewrite E at 1. apply insert_middle.
Qed.

(** What is found is the value of that name. *)
Lemma find_value_iff reg held key k name :
  reg_wf reg held -> reg_fits reg -> rg_keys reg !! key = Some k ->
  exists r i, horizon_reg_find_value k name = Some (r, i) /\ forall v, r = Some v <-> v ∈ k_values k /\ name_eq (v_name v) name.
Proof.
  intros W F Hk. destruct (find_value_wf reg held key k name W F Hk) as (r & i & E & Hf). exists r, i. split; [done|]. intros v.
  pose proof (kw_values _ _ _ _ (wf_keys _ _ W _ _ Hk)) as Hs. destruct r as [v'|].
  - destruct Hf as (_ & Hi & He). split.
    + intros [= ->]. split; [by eapply list_elem_of_lookup_2|done].
    + intros [Hv Hn]. apply list_elem_of_lookup in Hv as [j Hj].
      assert (Hij : Z.to_nat i = j); [|congruence].
      eapply (sorted_names_inj _ _ _ (v_name v') (v_name v) Hs); [by rewrite list_lookup_fmap, Hi|by rewrite list_lookup_fmap, Hj|by rewrite He].
  - split; [done|]. intros [Hv Hn]. pose proof (found_at_iff _ _ _ _ Hs Hf) as [_ Hff]. discriminate Hff.
    exists (v_name v). split; [by apply list_elem_of_fmap_2|done].
Qed.

Lemma insert_value_spec reg held key k name i :
  reg_wf reg held -> reg_fits reg -> rg_keys reg !! key = Some k -> found_at (map v_name (k_values k)) name (false, i) ->
  exists status reg0 max, quiet reg reg0 /\ 
    (status <> HORIZON_REG_SUCCESS /\ good_room (Z.of_nat (length (k_values k))) max /\
       horizon_reg_insert_value reg key name i = Some (status, put_key reg0 key (k_with_values k (k_values k) max)) \/
     status = HORIZON_REG_SUCCESS /\ good_room (Z.of_nat (length (k_values k)) + 1) max /\
       horizon_reg_insert_value reg key name i =
         Some (status, put_key reg0 key (k_with_values k (insert_at (k_values k) i (mk_value name HORIZON_REG_NONE [])) max))).
Proof.
  intros W [_ F] Hk Hf. destruct (F key k Hk) as [Fv _]. destruct (kw_room _ _ _ _ (wf_keys _ _ W _ _ Hk)) as [_ Hroom].
  assert (Hi : 0 <= i <= Z.of_nat (length (k_values k))) by (destruct Hf as [Hf _]; by rewrite length_map in Hf).
  assert (Eid : k_with_values k (k_values k) (k_value_max k) = k) by (by destruct k).
  assert (Esame : forall r, quiet reg r -> put_key r key k = r).
  { intros r Q. unfold put_key. rewrite (quiet_keys _ _ Q), insert_id by done. destruct r; destruct Q as (_ & E & _); simpl in *; by subst. }
  unfold horizon_reg_insert_value. rewrite Hk. cbn [mbind option_bind]. destruct (HORIZON_REG_MAX_VALUE <? _).
  { exists HORIZON_REG_NAME_TOO_LONG, reg, (k_value_max k). split; [done|]. left. split_and!; [done|done|]. by rewrite Eid, Esame. }
  assert (Hrest : forall r1 max, quiet reg r1 -> Z.of_nat (length (k_values k)) < max -> good_room (Z.of_nat (length (k_values k)) + 1) max ->
    exists status reg0, quiet reg reg0 /\ forall k1, k1 = k_with_values k (k_values k) max ->
     ((let '(ok, reg2) := if bool_decide (name = []) then (true, put_key r1 key k1) else malloc (put_key r1 key k1) in
       if negb ok then Some (HORIZON_REG_NO_MEMORY, reg2) else
       if (Z.of_nat (length (k_values k)) <? i) || (k_value_max k1 <=? Z.of_nat (length (k_values k))) then None else
       Some (HORIZON_REG_SUCCESS, put_key reg2 key (k_with_values k1 (take (Z.to_nat i) (k_values k1) ++ mk_value name HORIZON_REG_NONE [] :: drop (Z.to_nat i) (k_values k1)) (k_value_max k1)))) =
       Some (status, put_key reg0 key (if status =? 0 then k_with_values k (insert_at (k_values k) i (mk_value name HORIZON_REG_NONE [])) max else k1)))
       /\ (status = HORIZON_REG_SUCCESS \/ status = HORIZON_REG_NO_MEMORY)).
  { intros r1 max Q1 Hmax Hr1.
    assert (Hm : exists ok r2, quiet r1 r2 /\ forall k1, (if bool_decide (name = []) then (true, put_key r1 key k1) else malloc (put_key r1 key k1)) = (ok, put_key r2 key k1)).
    { case_bool_decide; [by exists true, r1|]. exists (rg_memory r1 (rg_allocs r1)), (with_allocs r1 (S (rg_allocs r1))). done. }
    destruct Hm as (ok & r2 & Q2 & Hm).
    exists (if ok then HORIZON_REG_SUCCESS else HORIZON_REG_NO_MEMORY), r2. split; [by transitivity r1|]. intros k1 ->. rewrite Hm.
    destruct ok; cbn [negb]; cbv iota; [|by auto]. rewrite (proj2 (Z.ltb_ge _ i)) by lia. simpl. rewrite (proj2 (Z.leb_gt max _)) by lia. split; [|by left].
    unfold put_key, with_keys. simpl. by rewrite insert_insert_eq. }
  destruct (Z.of_nat (length (k_values k)) =? k_value_max k) eqn:E; btrue.
  - destruct (malloc reg) as [ok r1] eqn:E1. assert (Q1 : quiet reg r1) by (rewrite <- (f_equal snd E1 : snd _ = r1); apply malloc_quiet).
    destruct ok; cbn [negb]; cbv iota; [|exists HORIZON_REG_NO_MEMORY, r1, (k_value_max k); split; [done|]; left; split_and!; [done|done|by rewrite Eid]].
    destruct (grown_room _ _ Hroom E) as [G1 G2]; [lia|].
    destruct (Hrest r1 (grown (k_value_max k)) Q1 G1 G2) as (status & r2 & Q2 & H). destruct (H _ eq_refl) as [He Hs]. clear H.
    exists status, r2, (grown (k_value_max k)). split; [done|]. destruct Hs as [-> | ->]; [right|left]; (split_and!; [done|unfold good_room in *; lia|exact He]).
  - destruct (room_left _ _ Hroom E) as [G1 G2]. destruct (Hrest reg (k_value_max k) ltac:(done) G1 G2) as (status & r2 & Q2 & H).
    destruct (H k (eq_sym Eid)) as [He Hs]. clear H. cbn [negb]. cbv iota.
    exists status, r2, (k_value_max k). split; [done|]. destruct Hs as [-> | ->]; [right|left]; (split_and!; [done|unfold good_room in *; lia|rewrite ?Eid; exact He]).
Qed.

(** The values of a key once [name] has the given type and data. *)
Definition values_set (l l' : list horizon_reg_value) (name : reg_name) (type : Z) (data : list Z) : Prop :=
  (exists v, v ∈ l' /\ name_eq (v_name v) name /\ v_type v = type /\ v_data v = data) /\
  forall v, ~ name_eq (v_name v) name -> v ∈ l' <-> v ∈ l.

Lemma values_updated l i v name type data :
  sorted_names (map v_name l) -> l !! i = Some v -> name_eq (v_name v) name ->
  values_set l (<[i := mk_value (v_name v) type data]> l) name type data /\
  sorted_names (map v_name (<[i := mk_value (v_name v) type data]> l)).
Proof.
  intros Hs Hi He. pose proof (lookup_lt_Some _ _ _ Hi) as Hlt. split; [split|].
  - exists (mk_value (v_name v) type data). split; [|done]. eapply list_elem_of_lookup_2. by apply list_lookup_insert_eq.
  - intros w Hw. split; intros [j Hj]%list_elem_of_lookup.
    + apply list_lookup_insert_Some in Hj as [(_ & <- & _)|[_ Hj]]; [by destruct Hw|by eapply list_elem_of_lookup_2].
    + eapply list_elem_of_lookup_2. rewrite list_lookup_insert_ne; [exact Hj|]. intros <-. assert (w = v) as -> by congruence. done.
  - assert (E : map v_name (<[i := mk_value (v_name v) type data]> l) = map v_name l); [|by rewrite E].
    apply list_eq. intros j. rewrite !list_lookup_fmap. destruct (decide (j = i)) as [-> |Hne].
    + by rewrite list_lookup_insert_eq, Hi.
    + by rewrite list_lookup_insert_ne.
Qed.

Lemma values_inserted l i name type data :
  sorted_names (map v_name l) -> found_at (map v_name l) name (false, i) ->
  values_set l (insert_at l i (mk_value name type data)) name type data /\ sorted_names (map v_name (insert_at l i (mk_value name type data))).
Proof.
  intros Hs Hf. split; [split|].
  - exists (mk_value name type data). split; [|done]. apply elem_of_insert_at. by left.
  - intros w Hw. rewrite elem_of_insert_at. split; [|tauto]. intros [-> |?]; [by destruct Hw|done].
  - rewrite map_insert_at. by apply sorted_insert_at.
Qed.

Lemma set_value_spec reg held key k name type data :
  reg_wf reg held -> reg_fits reg -> rg_keys reg !! key = Some k ->
  exists status reg', horizon_reg_set_value reg key name type data = Some (status, reg') /\ reg_wf reg' held /\ all_events reg' ≡ₚ all_events reg /\
    (status <> HORIZON_REG_SUCCESS /\ (exists reg0 max, quiet reg reg0 /\ reg' = put_key reg0 key (k_with_values k (k_values k) max)) \/
     status = HORIZON_REG_SUCCESS /\ reg' = reg /\ values_set (k_values k) (k_values k) name type data \/
     status = HORIZON_REG_SUCCESS /\ exists reg0 l max, quiet reg reg0 /\ values_set (k_values k) l name type data /\
       sorted_names (map v_name l) /\ good_room (Z.of_nat (length l)) max /\
       horizon_reg_touch (put_key reg0 key (k_with_values k l max)) key HORIZON_REG_CHANGE_LAST_SET = Some reg' /\
       calm (put_key reg0 key (k_with_values k l max)) reg').
Proof.
  intros W F Hk. destruct (wf_keys _ _ W _ _ Hk) as [K1 K2 K3 K4 K5 K6 K7 K8 [K9 K9'] K10]. pose proof F as [_ F'].
  assert (Eid : forall r, quiet reg r -> r = put_key r key (k_with_values k (k_values k) (k_value_max k))).
  { intros r Q. assert (k_with_values k (k_values k) (k_value_max k) = k) as -> by (by destruct k). unfold put_key. rewrite (quiet_keys _ _ Q), insert_id by done.
    destruct r; destruct Q as (_ & E & _); simpl in *; by subst. }
  assert (Hfail : forall status r, status <> HORIZON_REG_SUCCESS -> quiet reg r -> exists st r', Some (status, r) = Some (st, r') /\ reg_wf r' held /\ all_events r' ≡ₚ all_events reg /\
     (st <> HORIZON_REG_SUCCESS /\ (exists reg0 max, quiet reg reg0 /\ r' = put_key reg0 key (k_with_values k (k_values k) max)))).
  { intros status r Hs Q. exists status, r. split_and!; [done|by eapply quiet_wf|by apply quiet_calm|done|]. exists r, (k_value_max k). split; [done|by apply Eid]. }
  unfold horizon_reg_set_value. rewrite Hk. cbn [mbind option_bind].
  destruct (find_value_wf reg held key k name W F Hk) as (r & i & -> & Hf). cbn [mbind option_bind].
  match goal with |- context [if ?b then Some (HORIZON_REG_SUCCESS, reg) else _] => destruct b eqn:Hsame end.
  { eexists _, reg. split_and!; [done..|]. right. left. split_and!; [done..|]. destruct r as [v|]; [|done]. destruct Hf as (_ & Hi & He). btrue.
    split; [|done]. exists v. split_and!; [by eapply list_elem_of_lookup_2|done..]. }
  match goal with |- context [if ?b then Some (HORIZON_REG_ACCESS_DENIED, reg) else _] => destruct b eqn:Hlink end.
  { destruct (Hfail HORIZON_REG_ACCESS_DENIED reg) as (st & r' & E & H1 & H2 & H3); [done..|]. exists st, r'. split_and!; [done..|]. by left. }
  destruct (if bool_decide (data = []) then (true, reg) else malloc reg) as [ok r1] eqn:E1.
  assert (Q1 : quiet reg r1) by (rewrite <- (f_equal snd E1 : snd _ = r1); apply malloc_if_quiet).
  destruct ok; cbn [negb]; cbv iota.
  2: { destruct (Hfail HORIZON_REG_NO_MEMORY r1) as (st & r' & E & H1 & H2 & H3); [done..|]. exists st, r'. split_and!; [done..|]. by left. }
  assert (Hk1 : rg_keys r1 !! key = Some k) by (by rewrite (quiet_keys _ _ Q1)).
  assert (W1 : reg_wf r1 held) by (by eapply quiet_wf). assert (F1 : reg_fits r1) by (by eapply quiet_fits).
  assert (Hgood : forall reg0 l max, quiet reg reg0 -> values_set (k_values k) l name type data -> sorted_names (map v_name l) ->
     good_room (Z.of_nat (length l)) max ->
     exists reg', (r ← horizon_reg_touch (put_key reg0 key (k_with_values k l max)) key HORIZON_REG_CHANGE_LAST_SET; Some (HORIZON_REG_SUCCESS, r)) =
       Some (HORIZON_REG_SUCCESS, reg') /\ reg_wf reg' held /\ all_events reg' ≡ₚ all_events reg /\
       horizon_reg_touch (put_key reg0 key (k_with_values k l max)) key HORIZON_REG_CHANGE_LAST_SET = Some reg' /\
       calm (put_key reg0 key (k_with_values k l max)) reg').
  { intros reg0 l max Q0 Hset Hsl Hr. assert (Hk0 : rg_keys reg0 !! key = Some k) by (by rewrite (quiet_keys _ _ Q0)).
    assert (W2 : reg_wf (put_key reg0 key (k_with_values k l max)) held) by (apply values_wf; [by eapply quiet_wf|done..]).
    destruct (touch_calm _ _ key (k_with_values k l max) HORIZON_REG_CHANGE_LAST_SET W2) as (r2 & Ht & C2); [apply lookup_insert_eq|].
    exists r2. rewrite Ht. split_and!; [done|by eapply calm_wf| |done|done]. destruct C2 as [_ ->]. rewrite (events_put_same _ _ k) by done. by apply quiet_calm. }
  destruct r as [v|].
  - rewrite bool_decide_eq_true_2 by eauto. cbn [mbind option_bind]. change (nonzero HORIZON_REG_SUCCESS) with false. cbv iota.
    destruct Hf as (H0 & Hi & He). unfold store_value. rewrite Hk1. cbn [mbind option_bind]. rewrite Hi. cbn [mbind option_bind].
    destruct (values_updated (k_values k) (Z.to_nat i) v name type data K7 Hi He) as [V1 V2].
    destruct (Hgood r1 (<[Z.to_nat i := mk_value (v_name v) type data]> (k_values k)) (k_value_max k)) as (r2 & -> & W2 & E2 & Ht & C2); [done..|by rewrite length_insert|].
    eexists _, r2. split_and!; [done..|]. right. right. split; [done|]. eexists r1, _, _. split_and!; [done| |exact V2| |exact Ht|done]; [done|by rewrite length_insert].
  - rewrite bool_decide_eq_false_2 by (by intros [? ?]). destruct (insert_value_spec r1 held key k name i) as (status & r2 & max & Q2 & [(Hs & Hr & ->)|(Hs & Hr & ->)]); [done..| |].
    + cbn [mbind option_bind]. assert (Hn : nonzero status = true) by (unfold nonzero; apply negb_true_iff, Z.eqb_neq; done). rewrite Hn.
      assert (Q : quiet reg r2) by (by transitivity r1). assert (Hk2 : rg_keys r2 !! key = Some k) by (by rewrite (quiet_keys _ _ Q)).
      eexists _, _. split; [done|]. split_and!.
      * apply values_wf; [by eapply quiet_wf|done..].
      * rewrite (events_put_same _ _ k) by done. by apply quiet_calm.
      * left. split; [done|]. by exists r2, max.
    + subst status. cbn [mbind option_bind]. change (nonzero HORIZON_REG_SUCCESS) with false. cbv iota.
      assert (Q : quiet reg r2) by (by transitivity r1).
      assert (Hi : 0 <= i <= Z.of_nat (length (k_values k))) by (destruct Hf as [Hf _]; by rewrite length_map in Hf).
      unfold store_value. cbn [rg_keys put_key with_keys]. rewrite lookup_insert_eq. cbn [mbind option_bind k_values k_with_values].
      rewrite lookup_insert_at by done. cbn [mbind option_bind v_name k_value_max k_with_values]. rewrite update_insert_at by done.
      match goal with |- context [horizon_reg_touch ?x key _] => replace x with (put_key r2 key (k_with_values k (insert_at (k_values k) i (mk_value name type data)) max))
        by (unfold put_key, with_keys; simpl; by rewrite insert_insert_eq) end.
      destruct (values_inserted (k_values k) i name type data K7 Hf) as [V1 V2].
      destruct (Hgood r2 (insert_at (k_values k) i (mk_value name type data)) max) as (r3 & -> & W2 & E2 & Ht & C2); [done..|by rewrite length_insert_at|].
      eexists _, r3. split_and!; [done..|]. right. right. split; [done|]. eexists r2, _, max. split_and!; [done|exact V1|exact V2|by rewrite length_insert_at|exact Ht|done].
Qed.

Lemma delete_value_spec reg held key k name :
  reg_wf reg held -> reg_fits reg -> rg_keys reg !! key = Some k ->
  exists status reg', horizon_reg_delete_value reg key name = Some (status, reg') /\ reg_wf reg' held /\ all_events reg' ≡ₚ all_events reg /\
    (status = HORIZON_REG_NAME_NOT_FOUND /\ reg' = reg /\ (forall v, v ∈ k_values k -> ~ name_eq (v_name v) name) \/
     status = HORIZON_REG_SUCCESS /\ exists l, (forall v, v ∈ l <-> v ∈ k_values k /\ ~ name_eq (v_name v) name) /\
       horizon_reg_touch (put_key reg key (k_with_values k l (k_value_max k))) key HORIZON_REG_CHANGE_LAST_SET = Some reg' /\
       calm (put_key reg key (k_with_values k l (k_value_max k))) reg').
Proof.
  intros W F Hk. destruct (wf_keys _ _ W _ _ Hk) as [K1 K2 K3 K4 K5 K6 K7 K8 [K9 K9'] K10].
  unfold horizon_reg_delete_value. rewrite Hk. cbn [mbind option_bind].
  destruct (find_value_wf reg held key k name W F Hk) as (r & i & -> & Hf). cbn [mbind option_bind]. destruct r as [v|].
  - destruct Hf as (H0 & Hi & He).
    assert (W1 : reg_wf (put_key reg key (k_with_values k (delete (Z.to_nat i) (k_values k)) (k_value_max k))) held).
    { apply values_wf; [done|done|rewrite map_delete; by apply sorted_names_delete|]. unfold good_room in *. rewrite length_delete by eauto. lia. }
    destruct (touch_calm _ _ key (k_with_values k (delete (Z.to_nat i) (k_values k)) (k_value_max k)) HORIZON_REG_CHANGE_LAST_SET W1) as (r2 & Ht & C2); [apply lookup_insert_eq|].
    cbv zeta. rewrite Ht. cbn [mbind option_bind]. eexists _, r2. split_and!; [done|by eapply calm_wf| |].
    + destruct C2 as [_ ->]. by rewrite (events_put_same _ _ k).
    + right. split; [done|]. eexists _. split_and!; [|exact Ht|done]. intros w. split.
      * intros [j Hj]%list_elem_of_lookup. assert (Hw : exists j', k_values k !! j' = Some w /\ j' <> Z.to_nat i).
        { destruct (decide (j < Z.to_nat i)%nat); [rewrite list_lookup_delete_lt in Hj by done; exists j|rewrite list_lookup_delete_ge in Hj by lia; exists (S j)]; (split; [done|lia]). }
        destruct Hw as (j' & Hj' & Hne). split; [by eapply list_elem_of_lookup_2|]. intros Hn. apply Hne.
        eapply (sorted_names_inj _ _ _ (v_name w) (v_name v) K7); [by rewrite list_lookup_fmap, Hj'|by rewrite list_lookup_fmap, Hi|by rewrite Hn, He].
      * intros [[j Hj]%list_elem_of_lookup Hn]. assert (Hne : j <> Z.to_nat i) by (intros ->; assert (w = v) as -> by congruence; done).
        destruct (decide (j < Z.to_nat i)%nat).
        -- eapply list_elem_of_lookup_2. rewrite list_lookup_delete_lt by (instantiate (1 := j); lia). done.
        -- apply (list_elem_of_lookup_2 _ (j - 1)%nat). rewrite list_lookup_delete_ge by lia. by replace (S (j - 1)) with j by lia.
  - eexists _, reg. split_and!; [done..|]. left. split_and!; [done..|]. intros v Hv Hn.
    pose proof (found_at_iff _ _ _ _ K7 Hf) as [_ Hff]. discriminate Hff. exists (v_name v). split; [by apply list_elem_of_fmap_2|done].
Qed.

Lemma notify_spec reg key k hkey event subtree filter :
  rg_keys reg !! key = Some k ->
  exists status reg', horizon_reg_notify reg key hkey event subtree filter = Some (status, reg') /\ reg_like reg reg' /\
    (status = HORIZON_REG_NO_MEMORY /\ quiet reg reg' \/ status = HORIZON_REG_PENDING /\ all_events reg' ≡ₚ event :: all_events reg).
Proof.
  intros Hk. unfold horizon_reg_notify. destruct (malloc reg) as [ok r1] eqn:E1.
  assert (Q1 : quiet reg r1) by (rewrite <- (f_equal snd E1 : snd _ = r1); apply malloc_quiet).
  destruct ok; cbn [negb]; cbv iota; [|by eexists _, r1; split_and!; [done|by apply calm_like, quiet_calm|left]].
  rewrite (quiet_keys _ _ Q1), Hk. cbn [mbind option_bind]. assert (Hk1 : rg_keys r1 !! key = Some k) by (by rewrite (quiet_keys _ _ Q1)).
  eexists _, _. split_and!; [done| |].
  - transitivity r1; [by apply calm_like, quiet_calm|]. eapply reg_like_put; [done|apply key_like_notify].
  - right. split; [done|]. destruct (quiet_calm _ _ Q1) as [_ <-]. unfold all_events. simpl.
    pose proof (pending_put r1 key k (k_with_notify k (mk_notify hkey event filter subtree :: k_notify k)) Hk1) as Hp.
    unfold key_events in Hp at 2. simpl in Hp. apply (Permutation_app_inv_r (key_events k)). rewrite <- (assoc_L (++)), Hp.
    change (map n_event (k_notify k)) with (key_events k). solve_Permutation.
Qed.

Lemma handle_closed_spec reg key k hkey :
  rg_keys reg !! key = Some k -> exists reg', horizon_reg_handle_closed reg key hkey = Some reg' /\ calm reg reg' /\
    exists k', rg_keys reg' !! key = Some k' /\ forall n, n ∈ k_notify k' -> n_hkey n <> hkey.
Proof.
  intros Hk. unfold horizon_reg_handle_closed. rewrite Hk. cbn [mbind option_bind]. rewrite notify_loop_filter. eexists. split; [done|]. split; [by apply calm_signal|].
  eexists. split; [apply lookup_insert_eq|]. simpl. intros n Hn%list_elem_of_In%filter_In. destruct Hn as [_ Hn]. by apply negb_true_iff, Z.eqb_neq in Hn.
Qed.
