(* ===== verification/RegistryTree.v ===== *)
(** * What the registry promises

    The registry as the server uses it: programs hold references to the keys
    they opened, and every request names a held key. A request on a well-formed
    tree returns and leaves one. Theorems: a key that was created is opened
    again and nothing else is lost; a value that was set is read back; a key
    that was deleted is not found again; every event asked for is signaled
    once or still waits. *)
From S2P Require Import Prelude RegistryNames Registry RegistryInv.
Local Open Scope Z_scope.

(** ** Requests *)

(** The registry, the keys the open handles refer to, and the events that
    were asked for, in any order. *)
Record reg_client := mk_client {
  cl_reg : horizon_reg;
  cl_held : list positive;
  cl_asked : list Z;
}.

Inductive reg_op :=
  | Op_open (base : option positive) (name : reg_name) (attributes : Z)
  | Op_create (base : option positive) (name : reg_name) (attributes options : Z) (class : list Z)
  | Op_delete (key : positive)
  | Op_rename (key : positive) (name : reg_name)
  | Op_set_value (key : positive) (name : reg_name) (type : Z) (data : list Z)
  | Op_delete_value (key : positive) (name : reg_name)
  | Op_enum_key (key : positive) (index info_class max : Z)
  | Op_get_value (key : positive) (name : reg_name) (max : Z)
  | Op_enum_value (key : positive) (index info_class max : Z)
  | Op_notify (key : positive) (hkey event : Z) (subtree : bool) (filter : Z)
  | Op_close_handle (key : positive) (hkey : Z)
  | Op_close_last_handle (key : positive) (hkey : Z).

(** [horizon_registry_key]: whether a handle refers to [key] and the key is
    not deleted. *)
Definition horizon_registry_key (st : reg_client) (key : positive) : option bool :=
  if bool_decide (key ∈ cl_held st) then
    k ← rg_keys (cl_reg st) !! key; Some (negb (has_flag k HORIZON_REG_FLAG_DELETED))
  else Some false.

(** The base of a request to open or create a key. *)
Definition base_key (st : reg_client) (base : option positive) : option bool :=
  match base with None => Some true | Some key => horizon_registry_key st key end.

(** One reference fewer to [key]. *)
Definition drop_held (key : positive) (held : list positive) : list positive :=
  match first_index (fun h => bool_decide (h = key)) held with Some i => delete i held | None => held end.

(** A request on a key, when its handle is good. *)
Definition on_key (st : reg_client) (key : positive) (f : horizon_reg -> option (Z * horizon_reg)) : option reg_client :=
  ok ← horizon_registry_key st key;
  if negb ok then Some st else '(_, reg) ← f (cl_reg st); Some (mk_client reg (cl_held st) (cl_asked st)).

(** A key that was opened gets an object and a handle, and loses the reference
    when there is no memory for them. *)
Definition opened (st : reg_client) (r : Z * option positive * horizon_reg) : option reg_client :=
  let '(_, key, reg) := r in
  match key with
  | None => Some (mk_client reg (cl_held st) (cl_asked st))
  | Some key =>
      let '(object, reg) := malloc reg in
      let '(entry, reg) := malloc reg in
      if object && entry then Some (mk_client reg (key :: cl_held st) (cl_asked st)) else
      reg ← horizon_reg_release (walk_fuel reg) reg key;
      Some (mk_client reg (cl_held st) (cl_asked st))
  end.

Definition reg_do (op : reg_op) (st : reg_client) : option reg_client :=
  match op with
  | Op_open base name attributes =>
      ok ← base_key st base;
      if negb ok then Some st else r ← horizon_reg_open (cl_reg st) base name attributes; opened st r
  | Op_create base name attributes options class =>
      ok ← base_key st base;
      if negb ok then Some st else r ← horizon_reg_create (cl_reg st) base name attributes options class; opened st r
  | Op_delete key => on_key st key (fun reg => horizon_reg_delete reg key)
  | Op_rename key name => on_key st key (fun reg => horizon_reg_rename reg key name)
  | Op_set_value key name type data => on_key st key (fun reg => horizon_reg_set_value reg key name type data)
  | Op_delete_value key name => on_key st key (fun reg => horizon_reg_delete_value reg key name)
  | Op_enum_key key index info_class max =>
      on_key st key (fun reg => '(status, _, _, reg) ← horizon_reg_enum_key reg key index info_class max; Some (status, reg))
  | Op_get_value key name max =>
      on_key st key (fun reg => '(status, _, _, _) ← horizon_reg_get_value reg key name max; Some (status, reg))
  | Op_enum_value key index info_class max =>
      on_key st key (fun reg => '(status, _, _, _, _) ← horizon_reg_enum_value reg key index info_class max; Some (status, reg))
  | Op_notify key hkey event subtree filter =>
      ok ← horizon_registry_key st key;
      if negb ok then Some st else
      '(status, reg) ← horizon_reg_notify (cl_reg st) key hkey event subtree filter;
      Some (mk_client reg (cl_held st) (if status =? HORIZON_REG_PENDING then event :: cl_asked st else cl_asked st))
  | Op_close_handle key hkey =>
      if negb (bool_decide (key ∈ cl_held st)) then Some st else
      reg ← horizon_reg_handle_closed (cl_reg st) key hkey;
      Some (mk_client reg (cl_held st) (cl_asked st))
  | Op_close_last_handle key hkey =>
      if negb (bool_decide (key ∈ cl_held st)) then Some st else
      reg ← horizon_reg_handle_closed (cl_reg st) key hkey;
      reg ← horizon_reg_release (walk_fuel reg) reg key;
      Some (mk_client reg (drop_held key (cl_held st)) (cl_asked st))
  end.

(** A request of a registry that memory holds. *)
Inductive reg_step : reg_client -> reg_client -> Prop :=
  | Reg_step op st st' : reg_fits (cl_reg st) -> reg_do op st = Some st' -> reg_step st st'.

(** A registry that was just made. *)
Definition reg_started (st : reg_client) : Prop :=
  exists memory clock, horizon_reg_init (reg_nothing memory clock) = (true, cl_reg st) /\ cl_held st = [] /\ cl_asked st = [].

Definition reg_reachable (st : reg_client) : Prop := exists st0, reg_started st0 /\ rtc reg_step st0 st.

(** ** The invariant of a reachable registry *)

Definition client_wf (st : reg_client) : Prop :=
  reg_wf (cl_reg st) (cl_held st) /\ all_events (cl_reg st) ≡ₚ cl_asked st.

Lemma init_wf memory clock reg : horizon_reg_init (reg_nothing memory clock) = (true, reg) -> reg_wf reg [] /\ all_events reg = [].
Proof.
  unfold horizon_reg_init. set (r0 := with_changed _ _ _ _). assert (E0 : rg_keys r0 = ∅ /\ rg_signaled r0 = []) by done. clearbody r0.
  unfold now. destruct (alloc_key_spec (with_reads r0 (S (rg_reads r0))) registry_name (rg_clock r0 (rg_reads r0))) as (r1 & Q & [->|(key & -> & _)]).
  { rewrite bool_decide_eq_false_2 by (by intros [? ?]). intros [=]. }
  intros [= <-]. destruct E0 as [E0 E1]. pose proof (quiet_keys _ _ Q) as EK. simpl in EK. rewrite E0 in EK. destruct Q as (_ & _ & ES & _). simpl in ES.
  set (k := key_new registry_name (rg_clock r0 (rg_reads r0))).
  assert (Hk : forall x kx, <[key := k]> (rg_keys r1) !! x = Some kx -> x = key /\ kx = k).
  { intros x kx. rewrite EK, lookup_insert_Some, lookup_empty. intros [[-> ->]|[_ [=]]]. done. }
  split; [split|].
  - exists key, k. simpl. by rewrite lookup_insert_eq.
  - intros x kx Hx. apply Hk in Hx as [-> ->].
    assert (HL : linked (with_root (put_key r1 key k) (Some key)) key k) by (by right).
    split; try done.
    + intros sub Hs. by apply not_elem_of_nil in Hs.
    + constructor.
    + constructor.
    + constructor.
    + by intros [? ?].
    + unfold good_room. simpl. lia.
    + by rewrite decide_True by done.
  - intros x Hx. by apply not_elem_of_nil in Hx.
  - exists (fun _ => 0%nat). intros x kx p Hx Hp. apply Hk in Hx as [-> ->]. done.
  - unfold all_events, pending_events. simpl. rewrite ES, E1, EK, insert_empty, map_to_list_singleton. done.
Qed.

Lemma drop_held_perm key held : key ∈ held -> held ≡ₚ key :: drop_held key held.
Proof.
  intros Hin. unfold drop_held. destruct (first_index_key _ _ Hin) as (i & -> & Hi). by rewrite <- (delete_Permutation _ _ _ Hi).
Qed.

Lemma registry_key_ok st key :
  client_wf st -> exists ok, horizon_registry_key st key = Some ok /\
    (ok = true -> key ∈ cl_held st /\ exists k, rg_keys (cl_reg st) !! key = Some k /\ has_flag k HORIZON_REG_FLAG_DELETED = false).
Proof.
  intros [W _]. unfold horizon_registry_key. case_bool_decide as Hin; [|by exists false]. destruct (wf_held _ _ W _ Hin) as [k Hk]. rewrite Hk.
  cbn [mbind option_bind]. eexists. split; [done|]. intros H%negb_true_iff. split; [done|]. by exists k.
Qed.

Lemma base_key_ok st base :
  client_wf st -> exists ok, base_key st base = Some ok /\ (ok = true -> parent_ok (cl_reg st) base).
Proof.
  intros W. destruct base as [key|]; [|by exists true]. destruct (registry_key_ok st key W) as (ok & E & H). exists ok. split; [done|].
  intros Hok. destruct (H Hok) as (_ & k & Hk & _). by exists k.
Qed.

(** ** Full names *)

(** The names from below the root down to [key]. *)
Inductive path_names (reg : horizon_reg) : positive -> list reg_name -> Prop :=
  | Names_root r k : rg_root reg = Some r -> rg_keys reg !! r = Some k -> path_names reg r []
  | Names_child key k p l : rg_keys reg !! key = Some k -> k_parent k = Some p -> path_names reg p l -> path_names reg key (l ++ [k_name k]).

(** Names with a backslash before each. *)
Definition path_text (l : list reg_name) : reg_name := concat (map (cons BACKSLASH) l).
Definition full_name_text (l : list reg_name) : reg_name := registry_prefix ++ path_text l.

Lemma path_text_app l1 l2 : path_text (l1 ++ l2) = path_text l1 ++ path_text l2.
Proof. unfold path_text. by rewrite map_app, concat_app. Qed.

Lemma full_name_snoc l n : full_name_text (l ++ [n]) = full_name_text l ++ BACKSLASH :: n.
Proof. unfold full_name_text. rewrite path_text_app, (assoc_L (++)). f_equal. unfold path_text. simpl. by rewrite app_nil_r. Qed.

Lemma bytes_len_app a b : bytes_len (a ++ b) = bytes_len a + bytes_len b.
Proof. unfold bytes_len. rewrite length_app. lia. Qed.

Lemma path_names_depth reg depth key l : depth_of reg depth -> path_names reg key l -> (length l <= depth key)%nat.
Proof.
  intros D. induction 1 as [r k Hr Hk|key k p l Hk Hp _ IH]; simpl; [lia|]. rewrite length_app. simpl. destruct (D key k Hk) as [_ D2]. specialize (D2 p Hp). lia.
Qed.

Lemma path_names_live reg key l : path_names reg key l -> is_Some (rg_keys reg !! key).
Proof. destruct 1; eauto. Qed.

Section full_name.
Context (reg : horizon_reg) (held : list positive) (W : reg_wf reg held).

Lemma full_name_size_eq key l fuel size :
  path_names reg key l -> (length l + 2 <= fuel)%nat -> 0 <= size -> size + bytes_len (full_name_text l) <= UINT_MAX ->
  full_name_size fuel reg (Some key) size = Some (size + bytes_len (full_name_text l)).
Proof using W.
  intros Hp. revert fuel size. induction Hp as [r k Hr Hk|key k p l Hk Hp _ IH]; intros fuel size Hf H0 Hm.
  - destruct (wf_root _ _ W) as (r' & k' & Hr' & Hk' & Hpp & Hn). assert (r' = r) as -> by congruence. assert (k' = k) as -> by congruence.
    do 2 (destruct fuel as [|fuel]; [simpl in Hf; lia|]). cbn [full_name_size]. rewrite Hk. cbn [mbind option_bind]. rewrite Hpp, Hn. cbn [full_name_size].
    f_equal. change (bytes_len registry_name) with 16. change (bytes_len (full_name_text [])) with 18 in *. unfold UINT_MAX in Hm.
    rewrite (u32_small (2 + 16)) by (unfold is_u32; lia). apply u32_small. unfold is_u32. lia.
  - rewrite length_app in Hf. simpl in Hf. destruct fuel as [|fuel]; [lia|]. cbn [full_name_size]. rewrite Hk. cbn [mbind option_bind]. rewrite Hp.
    rewrite full_name_snoc, bytes_len_app in *. assert (E : bytes_len (BACKSLASH :: k_name k) = 2 + bytes_len (k_name k)) by (unfold bytes_len; simpl length; lia).
    rewrite E in *. assert (0 <= bytes_len (k_name k)) by (unfold bytes_len; lia). assert (0 <= bytes_len (full_name_text l)) by (unfold bytes_len; lia).
    unfold UINT_MAX in Hm. rewrite (u32_small (2 + bytes_len (k_name k))) by (unfold is_u32; lia). rewrite u32_small by (unfold is_u32; lia).
    rewrite IH by (unfold UINT_MAX; lia). f_equal. lia.
Qed.

Lemma bytes_len_half n : Z.to_nat (2 * Z.of_nat n / 2) = n.
Proof. rewrite Z.mul_comm, Z.div_mul by lia. lia. Qed.

(** One turn of the copy: a name and a backslash before what is there. *)
Lemma copy_turn n name suffix :
  (<[n := BACKSLASH]> (splice (replicate (n + 1 + length name) 0 ++ suffix) (n + 1) name)) = replicate n 0 ++ (BACKSLASH :: name) ++ suffix.
Proof.
  unfold splice. rewrite drop_app_length' by (rewrite length_replicate; lia).
  assert (E : take (n + 1) (replicate (n + 1 + length name) 0 ++ suffix) = replicate n 0 ++ [0]).
  { rewrite take_app_le by (rewrite length_replicate; lia). rewrite take_replicate, Nat.min_l by lia. by rewrite replicate_add. }
  rewrite E, <- (assoc_L (++)). simpl. rewrite <- (length_replicate n 0) at 1. apply insert_middle.
Qed.

Lemma full_name_copy_eq key l fuel suffix :
  path_names reg key l -> (length l + 2 <= fuel)%nat -> bytes_len (full_name_text l) <= UINT_MAX ->
  full_name_copy fuel reg (Some key) (replicate (length (full_name_text l)) 0 ++ suffix) (bytes_len (full_name_text l)) = Some (full_name_text l ++ suffix).
Proof using W.
  assert (Hturn : forall fuel key k n suffix, rg_keys reg !! key = Some k -> 2 * Z.of_nat (n + 1 + length (k_name k)) <= UINT_MAX ->
    full_name_copy (S fuel) reg (Some key) (replicate (n + 1 + length (k_name k)) 0 ++ suffix) (2 * Z.of_nat (n + 1 + length (k_name k))) =
    full_name_copy fuel reg (k_parent k) (replicate n 0 ++ (BACKSLASH :: k_name k) ++ suffix) (2 * Z.of_nat n)).
  { intros fuel0 key0 k n suffix0 Hk Hm. unfold UINT_MAX in Hm. cbn [full_name_copy]. rewrite Hk. cbn [mbind option_bind].
    assert (E1 : 2 * Z.of_nat (n + 1 + length (k_name k)) - bytes_len (k_name k) = 2 * Z.of_nat (n + 1)) by (unfold bytes_len; lia).
    rewrite E1. rewrite (u32_small (2 * Z.of_nat (n + 1))) by (unfold is_u32; lia). rewrite bytes_len_half.
    assert (E2 : 2 * Z.of_nat (n + 1) - 2 = 2 * Z.of_nat n) by lia. rewrite E2. rewrite (u32_small (2 * Z.of_nat n)) by (unfold is_u32; lia). rewrite bytes_len_half.
    rewrite (proj2 (Z.ltb_ge _ _)) by (unfold bytes_len; rewrite length_app, length_replicate; lia).
    rewrite (proj2 (Z.ltb_ge _ _)); [by rewrite copy_turn|]. unfold bytes_len. rewrite length_splice; rewrite length_app, length_replicate; lia. }
  intros Hp. revert fuel suffix. induction Hp as [r k Hr Hk|key k p l Hk Hp _ IH]; intros fuel suffix Hf Hm.
  - destruct (wf_root _ _ W) as (r' & k' & Hr' & Hk' & Hpp & Hn). assert (r' = r) as -> by congruence. assert (k' = k) as -> by congruence.
    do 2 (destruct fuel as [|fuel]; [simpl in Hf; lia|]). pose proof (Hturn (S fuel) r k 0%nat suffix Hk) as T. rewrite Hn, Hpp in T. apply T. exact Hm.
  - rewrite length_app in Hf. simpl in Hf. destruct fuel as [|fuel]; [lia|]. rewrite full_name_snoc in *.
    pose proof (Hturn fuel key k (length (full_name_text l)) suffix Hk) as T. rewrite Hp in T.
    assert (EL : length (full_name_text l ++ BACKSLASH :: k_name k) = (length (full_name_text l) + 1 + length (k_name k))%nat) by (rewrite length_app; simpl; lia).
    unfold bytes_len in *. rewrite EL in *. rewrite T by done. rewrite IH; [by rewrite <- (assoc_L (++))|lia|unfold UINT_MAX in *; lia].
Qed.

Lemma full_name_eq key l :
  path_names reg key l -> bytes_len (full_name_text l) <= UINT_MAX ->
  exists r reg', horizon_reg_full_name reg key = Some (r, reg') /\ quiet reg reg' /\ (r = None \/ r = Some (full_name_text l)).
Proof using W.
  intros Hp Hm. destruct (wf_depth _ _ W) as [depth D]. destruct (path_names_live _ _ _ Hp) as [k Hk].
  assert (Hf : (length l + 2 <= walk_fuel reg)%nat).
  { pose proof (path_names_depth _ _ _ _ D Hp). destruct (D _ _ Hk) as [? _]. unfold walk_fuel. lia. }
  unfold horizon_reg_full_name. rewrite (full_name_size_eq key l) by (done || lia). cbn [mbind option_bind]. rewrite Z.add_0_l.
  destruct (malloc reg) as [ok r1] eqn:E1. assert (Q1 : quiet reg r1) by (rewrite <- (f_equal snd E1 : snd _ = r1); apply malloc_quiet).
  destruct ok; cbn [negb]; cbv iota; [|by exists None, r1; auto].
  pose proof (full_name_copy_eq key l (walk_fuel reg) [] Hp Hf Hm) as Hc. rewrite !app_nil_r in Hc.
  unfold bytes_len at 1. rewrite bytes_len_half.
  assert (EC : forall fuel k b pos, full_name_copy fuel r1 k b pos = full_name_copy fuel reg k b pos).
  { induction fuel as [|fuel IH]; [done|]. intros [x|] b pos; [|done]. cbn [full_name_copy]. rewrite (quiet_keys _ _ Q1).
    destruct (rg_keys reg !! x); [|done]. cbn [mbind option_bind]. destruct (_ <? _); [done|]. destruct (_ <? _); [done|]. apply IH. }
  rewrite EC. assert (walk_fuel r1 = walk_fuel reg) as -> by (unfold walk_fuel; by rewrite (quiet_keys _ _ Q1)). rewrite Hc. cbn [mbind option_bind].
  exists (Some (full_name_text l)), r1. auto.
Qed.
End full_name.

(** Memory holds the full name of a key: every name of the registry together
    is less than 2^32 bytes. *)
Definition names_fit (reg : horizon_reg) : Prop := 18 + 514 * Z.of_nat (size (rg_keys reg)) <= UINT_MAX.

#[export] Instance names_fit_dec reg : Decision (names_fit reg).
Proof. unfold names_fit. apply _. Defined.

(** A live key has a path from the root, whose text is not too long. *)
Lemma live_path reg held key k :
  reg_wf reg held -> names_fit reg -> rg_keys reg !! key = Some k -> has_flag k HORIZON_REG_FLAG_DELETED = false ->
  exists l, path_names reg key l /\ bytes_len (full_name_text l) <= UINT_MAX.
Proof.
  intros W F. destruct (wf_depth _ _ W) as [depth D].
  assert (H : forall n key k, (depth key < n)%nat -> rg_keys reg !! key = Some k -> has_flag k HORIZON_REG_FLAG_DELETED = false ->
    exists l, path_names reg key l /\ bytes_len (full_name_text l) <= 18 + 514 * Z.of_nat (depth key)).
  { induction n as [|n IH]; intros key0 k0 Hn Hk Hd; [lia|]. pose proof (wf_keys _ _ W _ _ Hk) as KW. destruct (k_parent k0) as [p|] eqn:Hp.
    - destruct (kw_parent _ _ _ _ KW p Hp) as (kp & Hkp & Hin). destruct (D _ _ Hk) as [_ D2]. specialize (D2 p Hp).
      destruct (IH p kp) as (l & Hl & Hb); [lia|done| |].
      + destruct (has_flag kp HORIZON_REG_FLAG_DELETED) eqn:E; [|done]. rewrite (kw_leaf _ _ _ _ (wf_keys _ _ W _ _ Hkp) E) in Hin. by apply not_elem_of_nil in Hin.
      + exists (l ++ [k_name k0]). split; [by eapply Names_child|]. destruct (kw_name _ _ _ _ KW ltac:(by rewrite Hp)) as (_ & _ & Hg). unfold HORIZON_REG_MAX_NAME in Hg.
        rewrite full_name_snoc, bytes_len_app. assert (bytes_len (BACKSLASH :: k_name k0) = 2 + bytes_len (k_name k0)) by (unfold bytes_len; simpl length; lia). lia.
    - exists []. split; [|unfold bytes_len; simpl; lia]. destruct (proj1 (kw_deleted _ _ _ _ KW) Hd) as [[? H]|Hr]; [congruence|]. by eapply Names_root. }
  intros Hk Hd. destruct (H (S (depth key)) key k) as (l & Hl & Hb); [lia|done|done|]. exists l. split; [done|]. destruct (D _ _ Hk) as [Hlt _]. unfold names_fit in F. lia.
Qed.

(** ** Reading *)

Lemma enum_key_quiet reg key index info_class max status info data reg' :
  horizon_reg_enum_key reg key index info_class max = Some (status, info, data, reg') -> quiet reg reg'.
Proof.
  unfold horizon_reg_enum_key. destruct (rg_keys reg !! key) as [k|]; [|done]. cbn [mbind option_bind]. destruct (_ && _); [by intros [= <- <- <- <-]|].
  destruct (if index =? -1 then _ else _) as [key1|]; [|done]. cbn [mbind option_bind]. destruct (rg_keys reg !! key1) as [k1|]; [|done]. cbn [mbind option_bind].
  destruct (enum_class reg key1 k1 info_class) as [[[r status1] reg1]|] eqn:E; [|done]. cbn [mbind option_bind].
  assert (Q : quiet reg reg1).
  { unfold enum_class in E. destruct (info_class =? HORIZON_REG_KEY_NAME).
    - unfold horizon_reg_full_name in E. destruct (full_name_size _ _ _ _); [|done]. cbn [mbind option_bind] in E. destruct (malloc reg) as [ok r1] eqn:E1.
      assert (Q1 : quiet reg r1) by (rewrite <- (f_equal snd E1 : snd _ = r1); apply malloc_quiet). destruct ok; cbn [negb] in E; cbv iota in E; [|by injection E as _ _ <-].
      destruct (full_name_copy _ _ _ _ _); [|done]. cbn [mbind option_bind] in E. by injection E as _ _ <-.
    - destruct (info_class =? HORIZON_REG_KEY_BASIC); [by injection E as _ _ <-|]. destruct (info_class =? HORIZON_REG_KEY_NODE); [by injection E as _ _ <-|].
      destruct (_ || _); [|by injection E as _ _ <-]. destruct (mapM _ _); [|done]. cbn [mbind option_bind] in E. by injection E as _ _ <-. }
  destruct r as [[[[namelen classlen] info1] fullname]|]; [|by intros [= _ _ _ <-]].
  destruct (if namelen <? _ then _ else _) as [replied data1]. by intros [= _ _ _ <-].
Qed.

Lemma enum_key_total reg held key k index info_class max :
  reg_wf reg held -> names_fit reg -> rg_keys reg !! key = Some k -> has_flag k HORIZON_REG_FLAG_DELETED = false ->
  is_Some (horizon_reg_enum_key reg key index info_class max).
Proof.
  intros W F Hk Hd. unfold horizon_reg_enum_key. rewrite Hk. cbn [mbind option_bind]. destruct (_ && _) eqn:Ei; [by eexists|].
  assert (H1 : exists key1 k1, (if index =? -1 then Some key else k_subkeys k !! Z.to_nat index) = Some key1 /\ rg_keys reg !! key1 = Some k1 /\ has_flag k1 HORIZON_REG_FLAG_DELETED = false).
  { destruct (Z.eqb_spec index (-1)); [by exists key, k|]. simpl in Ei. apply orb_false_iff in Ei as [E1 E2]. btrue.
    destruct (lookup_lt_is_Some_2 (k_subkeys k) (Z.to_nat index) ltac:(lia)) as [sub Hs]. destruct (kw_sub _ _ _ _ (wf_keys _ _ W _ _ Hk) sub) as (s1 & Hs1 & Hp); [by eapply list_elem_of_lookup_2|].
    exists sub, s1. split_and!; [done..|]. apply (kw_deleted _ _ _ _ (wf_keys _ _ W _ _ Hs1)). left. by exists key. }
  destruct H1 as (key1 & k1 & -> & Hk1 & Hd1). cbn [mbind option_bind]. rewrite Hk1. cbn [mbind option_bind].
  assert (H2 : is_Some (enum_class reg key1 k1 info_class)).
  { unfold enum_class. destruct (info_class =? HORIZON_REG_KEY_NAME).
    - destruct (live_path reg held key1 k1 W F Hk1 Hd1) as (l & Hl & Hb). destruct (full_name_eq reg held W key1 l Hl Hb) as (r & reg1 & -> & _). cbn [mbind option_bind]. by destruct r.
    - destruct (info_class =? HORIZON_REG_KEY_BASIC); [by eexists|]. destruct (info_class =? HORIZON_REG_KEY_NODE); [by eexists|]. destruct ((info_class =? HORIZON_REG_KEY_FULL) || (info_class =? HORIZON_REG_KEY_CACHED)); [|by eexists].
      assert (Hm : is_Some (mapM (fun sub => rg_keys reg !! sub) (k_subkeys k1))).
      { apply mapM_is_Some_2, list.Forall_forall. intros sub Hs. destruct (kw_sub _ _ _ _ (wf_keys _ _ W _ _ Hk1) sub Hs) as (s1 & Hs1 & _). by exists s1. }
      destruct Hm as [subs ->]. by eexists. }
  destruct H2 as [[[r status] reg1] ->]. cbn [mbind option_bind]. destruct r as [[[[namelen classlen] info] fullname]|]; [|by eexists].
  destruct (if namelen <? _ then _ else _) as [replied data]. by eexists.
Qed.

Lemma get_value_total reg held key k name max : reg_wf reg held -> reg_fits reg -> rg_keys reg !! key = Some k -> is_Some (horizon_reg_get_value reg key name max).
Proof.
  intros W F Hk. unfold horizon_reg_get_value. rewrite Hk. cbn [mbind option_bind]. destruct (find_value_wf reg held key k name W F Hk) as (r & i & -> & _). cbn [mbind option_bind]. destruct r; by eexists.
Qed.

Lemma enum_value_total reg key k index info_class max : rg_keys reg !! key = Some k -> is_Some (horizon_reg_enum_value reg key index info_class max).
Proof.
  intros Hk. unfold horizon_reg_enum_value. rewrite Hk. cbn [mbind option_bind]. destruct (_ || _) eqn:Ei; [by eexists|]. apply orb_false_iff in Ei as [E1 E2]. btrue.
  destruct (lookup_lt_is_Some_2 (k_values k) (Z.to_nat index) ltac:(lia)) as [v ->]. cbn [mbind option_bind]. repeat case_match; by eexists.
Qed.

(** A request on a key whose operation keeps the invariant. *)
Lemma on_key_ok st key f :
  client_wf st ->
  (forall k, rg_keys (cl_reg st) !! key = Some k -> exists status reg', f (cl_reg st) = Some (status, reg') /\ reg_wf reg' (cl_held st) /\ all_events reg' ≡ₚ all_events (cl_reg st)) ->
  exists st', on_key st key f = Some st' /\ client_wf st'.
Proof.
  intros W Hf. unfold on_key. destruct (registry_key_ok st key W) as (ok & -> & Hok). cbn [mbind option_bind].
  destruct ok; cbn [negb]; cbv iota; [|by exists st]. destruct (Hok eq_refl) as (_ & k & Hk & _). destruct (Hf k Hk) as (status & reg' & -> & W' & E').
  cbn [mbind option_bind]. eexists. split; [done|]. split; [done|]. simpl. rewrite E'. apply W.
Qed.

(** A key that comes with a reference gets its handle or loses it. *)
Lemma opened_ok st status key k reg :
  all_events (cl_reg st) ≡ₚ cl_asked st -> reg_wf reg (key :: cl_held st) -> rg_keys reg !! key = Some k -> k_refs k <= UINT_MAX ->
  all_events reg ≡ₚ all_events (cl_reg st) -> exists st', opened st (status, Some key, reg) = Some st' /\ client_wf st'.
Proof.
  intros WE W Hk Hr E. unfold opened. unfold malloc. cbn [rg_memory rg_allocs with_allocs]. set (reg2 := with_allocs (with_allocs _ _) _).
  assert (Q : quiet reg reg2) by (subst reg2; etransitivity; [apply (malloc_quiet reg)|]; apply (malloc_quiet (with_allocs reg (S (rg_allocs reg))))).
  assert (W2 : reg_wf reg2 (key :: cl_held st)) by (by eapply quiet_wf). destruct (quiet_calm _ _ Q) as [_ E2]. clearbody reg2. destruct (_ && _).
  - eexists. split; [done|]. split; simpl; [done|]. by rewrite E2, E.
  - destruct (release_wf reg2 (cl_held st) key k W2) as [-> W3]; [done|by rewrite (quiet_keys _ _ Q)|]. cbn [mbind option_bind].
    eexists. split; [done|]. split; simpl; [done|]. fold (released reg2 key k). rewrite released_events by (by rewrite (quiet_keys _ _ Q)). by rewrite E2, E.
Qed.

(** The requests that copy a full name need that it fits. *)
Definition op_fits (reg : horizon_reg) (op : reg_op) : Prop :=
  match op with Op_enum_key _ _ _ _ => names_fit reg | _ => True end.

Lemma reg_do_ok op st : client_wf st -> reg_fits (cl_reg st) -> op_fits (cl_reg st) op -> exists st', reg_do op st = Some st' /\ client_wf st'.
Proof.
  intros W F FN. pose proof W as [WR WE]. destruct op as [base name attributes|base name attributes options class|key|key name|key name type data|key name|key index info_class max|key name max|key index info_class max|key hkey event subtree filter|key hkey|key hkey];
    cbn [reg_do].
  - destruct (base_key_ok st base W) as (ok & -> & Hok). cbn [mbind option_bind]. destruct ok; cbn [negb]; cbv iota; [|by exists st].
    destruct (open_spec (cl_reg st) (cl_held st) base name attributes WR F (Hok eq_refl)) as (status & r & reg' & -> & H). cbn [mbind option_bind].
    destruct r as [key|]; [|eexists; split; [done|]; by destruct H as [_ ->]]. destruct H as (_ & W' & E' & _ & k & Hk & ->).
    destruct (proj2 F _ _ Hk) as [_ Fr]. eapply opened_ok; [done|done|apply lookup_insert_eq|simpl; lia|done].
  - destruct (base_key_ok st base W) as (ok & -> & Hok). cbn [mbind option_bind]. destruct ok; cbn [negb]; cbv iota; [|by exists st].
    destruct (create_spec (cl_reg st) (cl_held st) base name attributes options class WR F (Hok eq_refl)) as (status & r & reg' & -> & H). cbn [mbind option_bind].
    destruct r as [key|].
    + destruct H as (W' & E' & path & r1 & _ & (k & Hk & Hr & ->) & _). eapply opened_ok; [done|done|apply lookup_insert_eq|simpl; lia|done].
    + destruct H as (_ & _ & Q). eexists. split; [done|]. split; simpl; [by eapply quiet_wf|]. destruct (quiet_calm _ _ Q) as [_ ->]. done.
  - apply on_key_ok; [done|]. intros k Hk. destruct (delete_spec _ _ _ _ WR F Hk) as (status & reg' & E & W' & E' & _). eauto.
  - apply on_key_ok; [done|]. intros k Hk. destruct (rename_spec _ _ _ _ name WR F Hk) as (status & reg' & E & W' & E' & _). eauto.
  - apply on_key_ok; [done|]. intros k Hk. destruct (set_value_spec _ _ _ _ name type data WR F Hk) as (status & reg' & E & W' & E' & _). eauto.
  - apply on_key_ok; [done|]. intros k Hk. destruct (delete_value_spec _ _ _ _ name WR F Hk) as (status & reg' & E & W' & E' & _). eauto.
  - destruct (registry_key_ok st key W) as (ok & Ek & Hok). unfold on_key. rewrite Ek. cbn [mbind option_bind]. destruct ok; cbn [negb]; cbv iota; [|by exists st].
    destruct (Hok eq_refl) as (_ & k & Hk & Hd). destruct (enum_key_total _ _ _ _ index info_class max WR FN Hk Hd) as [[[[status info] data] reg'] E]. rewrite E. cbn [mbind option_bind].
    apply enum_key_quiet in E. eexists. split; [done|]. split; simpl; [by eapply quiet_wf|]. destruct (quiet_calm _ _ E) as [_ ->]. done.
  - apply on_key_ok; [done|]. intros k Hk. destruct (get_value_total _ _ _ _ name max WR F Hk) as [[[[status type] len] data] ->]. cbn [mbind option_bind]. eauto.
  - apply on_key_ok; [done|]. intros k Hk. destruct (enum_value_total _ _ _ index info_class max Hk) as [[[[[status type] len] namelen] data] ->]. cbn [mbind option_bind]. eauto.
  - destruct (registry_key_ok st key W) as (ok & -> & Hok). cbn [mbind option_bind]. destruct ok; cbn [negb]; cbv iota; [|by exists st].
    destruct (Hok eq_refl) as (_ & k & Hk & _). destruct (notify_spec _ _ _ hkey event subtree filter Hk) as (status & reg' & -> & L & [[-> Q]|[-> E]]);
      cbn [mbind option_bind]; (eexists; split; [done|]); (split; [by eapply reg_like_wf|]); simpl.
    + destruct (quiet_calm _ _ Q) as [_ ->]. done.
    + by rewrite E, WE.
  - case_bool_decide as Hin; cbn [negb]; cbv iota; [|by exists st]. destruct (wf_held _ _ WR _ Hin) as [k Hk].
    destruct (handle_closed_spec _ _ _ hkey Hk) as (reg' & -> & C & _). cbn [mbind option_bind]. eexists. split; [done|]. split; simpl; [by eapply calm_wf|].
    destruct C as [_ ->]. done.
  - case_bool_decide as Hin; cbn [negb]; cbv iota; [|by exists st]. destruct (wf_held _ _ WR _ Hin) as [k Hk].
    destruct (handle_closed_spec _ _ _ hkey Hk) as (reg1 & -> & C & k1 & Hk1 & _). cbn [mbind option_bind].
    assert (W1 : reg_wf reg1 (key :: drop_held key (cl_held st))) by (eapply wf_perm; [by apply drop_held_perm|]; by eapply calm_wf).
    destruct (reg_like_fits _ _ (calm_like _ _ C) F) as [_ F1]. destruct (F1 _ _ Hk1) as [_ Fr].
    destruct (release_wf reg1 (drop_held key (cl_held st)) key k1 W1) as [-> W2]; [lia|done|]. cbn [mbind option_bind].
    eexists. split; [done|]. split; simpl; [exact W2|]. fold (released reg1 key k1). rewrite released_events by done. destruct C as [_ ->]. done.
Qed.

Lemma reg_do_wf op st st' : client_wf st -> reg_fits (cl_reg st) -> reg_do op st = Some st' -> client_wf st'.
Proof.
  intros W F E.
  assert (Hop : (exists key index info_class max, op = Op_enum_key key index info_class max) \/ op_fits (cl_reg st) op) by (destruct op; simpl; eauto 6).
  destruct Hop as [(key & index & info_class & max & ->)|Hop]; [|destruct (reg_do_ok op st W F Hop) as (s2 & E2 & W2); congruence].
  cbn [reg_do] in E. unfold on_key in E. destruct (horizon_registry_key st key) as [[]|]; [|injection E as <-; done|done]. cbn [mbind option_bind negb] in E. cbv iota in E.
  destruct (horizon_reg_enum_key _ _ _ _ _) as [[[[status info] data] reg']|] eqn:Ee; [|done]. cbn [mbind option_bind] in E. injection E as <-. apply enum_key_quiet in Ee. destruct W as [W WE].
  split; simpl; [by eapply quiet_wf|]. destruct (quiet_calm _ _ Ee) as [_ ->]. done.
Qed.

Lemma reachable_wf st : reg_reachable st -> client_wf st.
Proof.
  intros (st0 & (memory & clock & Hi & Hh & Ha) & Hr). apply init_wf in Hi as [W E]. apply (rtc_keeps reg_step client_wf st0 st); [|done|].
  - intros x y [op s s' F Hd] W'. by eapply reg_do_wf.
  - split; [by rewrite Hh|]. by rewrite E, Ha.
Qed.

(** ** What can be opened stays *)

(** [reg'] has every key of [reg] where it was, with the same values. *)
Definition extends (reg reg' : horizon_reg) : Prop :=
  rg_root reg' = rg_root reg /\ forall key k, rg_keys reg !! key = Some k -> exists k', rg_keys reg' !! key = Some k' /\
    k_name k' = k_name k /\ k_flags k' = k_flags k /\ k_values k' = k_values k /\ forall sub, sub ∈ k_subkeys k -> sub ∈ k_subkeys k'.

#[export] Instance extends_preorder : PreOrder extends.
Proof.
  split.
  - intros reg. split; [done|]. intros key k Hk. by exists k.
  - intros r1 r2 r3 [R1 H1] [R2 H2]. split; [congruence|]. intros key k Hk. destruct (H1 _ _ Hk) as (k2 & Hk2 & A1 & A2 & A3 & A4).
    destruct (H2 _ _ Hk2) as (k3 & Hk3 & B1 & B2 & B3 & B4). exists k3. split_and!; try congruence. auto.
Qed.

Lemma like_extends reg reg' : reg_like reg reg' -> extends reg reg'.
Proof.
  intros L. split; [symmetry; apply L|]. intros key k Hk. destruct (reg_like_Some _ _ _ _ L Hk) as (k' & Hk' & Lk). exists k'.
  destruct Lk as (? & ? & E & ? & ? & ? & ? & ?). split_and!; congruence.
Qed.

Lemma refs_extends reg key k r : rg_keys reg !! key = Some k -> extends reg (put_key reg key (k_with_refs k r)).
Proof.
  intros Hk. split; [done|]. intros x kx Hx. simpl. destruct (decide (x = key)) as [-> |Hne]; [|rewrite lookup_insert_ne by done; by exists kx].
  rewrite lookup_insert_eq. eexists. split; [done|]. by assert (kx = k) as -> by congruence.
Qed.

Lemma created_extends reg parent p i max key k :
  rg_keys reg !! parent = Some p -> rg_keys reg !! key = None -> extends reg (with_created reg parent p i max key k).
Proof.
  intros Hp Hk. split; [done|]. intros x kx Hx. simpl. assert (x <> key) by congruence. rewrite lookup_insert_ne by done.
  destruct (decide (x = parent)) as [-> |Hne]; [|rewrite lookup_insert_ne by done; by exists kx].
  rewrite lookup_insert_eq. eexists. split; [done|]. assert (kx = p) as -> by congruence. split_and!; try done.
  intros sub Hs. simpl. apply elem_of_insert_at. by right.
Qed.

(** The subkey found is the one of that name. *)
Lemma find_subkey_iff reg held key k name :
  reg_wf reg held -> reg_fits reg -> rg_keys reg !! key = Some k ->
  exists r i, horizon_reg_find_subkey reg k name = Some (r, i) /\ forall sub, r = Some sub <-> sub ∈ k_subkeys k /\ name_eq (key_name (rg_keys reg) sub) name.
Proof.
  intros W F Hk. destruct (find_subkey_wf reg held key k name W F Hk) as (r & i & E & Hf). exists r, i. split; [done|]. intros sub.
  pose proof (kw_sorted _ _ _ _ (wf_keys _ _ W _ _ Hk)) as Hs. destruct r as [sub'|].
  - destruct Hf as (_ & Hi & He). split.
    + intros [= ->]. split; [by eapply list_elem_of_lookup_2|done].
    + intros [Hv Hn]. apply list_elem_of_lookup in Hv as [j Hj]. assert (Hij : Z.to_nat i = j); [|congruence].
      eapply (sorted_names_inj _ _ _ (key_name (rg_keys reg) sub') (key_name (rg_keys reg) sub) Hs);
        [by rewrite list_lookup_fmap, Hi|by rewrite list_lookup_fmap, Hj|by rewrite He].
  - split; [done|]. intros [Hv Hn]. pose proof (found_at_iff _ _ _ _ Hs Hf) as [_ Hff]. discriminate Hff.
    exists (key_name (rg_keys reg) sub). split; [by apply list_elem_of_fmap_2|done].
Qed.

Lemma extends_name reg reg' key k : extends reg reg' -> rg_keys reg !! key = Some k -> key_name (rg_keys reg') key = key_name (rg_keys reg) key.
Proof. intros [_ H] Hk. destruct (H _ _ Hk) as (k' & Hk' & E & _). unfold key_name. by rewrite Hk, Hk'. Qed.

(** The subkey found before is found after. *)
Lemma find_subkey_extends reg held reg' held' key k k' name sub i :
  reg_wf reg held -> reg_fits reg -> reg_wf reg' held' -> reg_fits reg' -> extends reg reg' ->
  rg_keys reg !! key = Some k -> rg_keys reg' !! key = Some k' ->
  horizon_reg_find_subkey reg k name = Some (Some sub, i) -> exists i', horizon_reg_find_subkey reg' k' name = Some (Some sub, i').
Proof.
  intros W F W' F' X Hk Hk' Hf. destruct (find_subkey_iff reg held key k name W F Hk) as (r & j & E & H).
  rewrite E in Hf. injection Hf as -> ->. destruct (proj1 (H sub) eq_refl) as [Hin Hn].
  destruct (find_subkey_iff reg' held' key k' name W' F' Hk') as (r' & j' & E' & H'). exists j'. rewrite E'. do 2 f_equal. apply H'.
  destruct X as [XR X]. destruct (X _ _ Hk) as (k2 & Hk2 & _ & _ & _ & Hsub). assert (k2 = k') as -> by congruence. split; [by apply Hsub|].
  destruct (kw_sub _ _ _ _ (wf_keys _ _ W _ _ Hk) _ Hin) as (s & Hs & _). by rewrite (extends_name reg reg' sub s).
Qed.

Lemma find_value_same k k' name : k_values k' = k_values k -> horizon_reg_find_value k' name = horizon_reg_find_value k name.
Proof. intros E. unfold horizon_reg_find_value. by rewrite E. Qed.

Section extension.
Context (reg reg' : horizon_reg) (held held' : list positive).
Context (W : reg_wf reg held) (F : reg_fits reg) (W' : reg_wf reg' held') (F' : reg_fits reg') (X : extends reg reg').

(** Where a lookup that ended at [path] ends now: at the same key, or at the
    subkey that was added for a missing last element. *)
Definition ends (attributes : Z) (path path' : horizon_reg_path) : Prop :=
  match path_last path with
  | None => path' = path
  | Some last => exists sub k' s, rg_keys reg' !! path_key path = Some k' /\ sub ∈ k_subkeys k' /\ rg_keys reg' !! sub = Some s /\ k_name s = last /\
      nonzero (Z.land attributes HORIZON_REG_OBJ_OPENLINK) || negb (has_flag s HORIZON_REG_FLAG_SYMLINK) = true /\ path' = mk_path sub None
  end.

Lemma lookup_loop_extends fuel follow follow' key name attributes links path path' :
  (forall target p, links < HORIZON_REG_MAX_LINKS -> path_last p = None -> follow target = Some (HORIZON_REG_SUCCESS, Some p) -> follow' target = Some (HORIZON_REG_SUCCESS, Some p)) ->
  lookup_loop fuel follow reg key name attributes links = Some (HORIZON_REG_SUCCESS, Some path) -> ends attributes path path' ->
  lookup_loop (S fuel) follow' reg' key name attributes links = Some (HORIZON_REG_SUCCESS, Some path').
Proof using W F W' F' X.
  intros Hfol. revert key name. induction fuel as [|fuel IH]; intros key name Hl Hlast; [done|].
  cbn [lookup_loop] in Hl. destruct (rg_keys reg !! key) as [k|] eqn:Hk; [|done]. cbn [mbind option_bind] in Hl.
  destruct X as [XR XK]. destruct (XK _ _ Hk) as (k' & Hk' & En & Ef & Ev & Es).
  assert (HF : forall f, has_flag k' f = has_flag k f) by (intros f; unfold has_flag; by rewrite Ef).
  remember (S fuel) as fuel' eqn:Ef'. cbn [lookup_loop]. rewrite Hk'. cbn [mbind option_bind]. rewrite !HF.
  destruct (has_flag k HORIZON_REG_FLAG_DELETED); [done|].
  match goal with |- context [if ?b then ('(value, _) ← horizon_reg_find_value k' _; _) else _] => destruct b eqn:Hb end.
  - rewrite (find_value_same k k') by done. destruct (horizon_reg_find_value k horizon_reg_symlink_value) as [[value i]|]; [|done]. cbn [mbind option_bind] in *.
    destruct value as [v|]; [|done].
    match type of Hl with context [if ?b then _ else _] => destruct b eqn:Hc; [done|] end.
    destruct (follow (bytes_units (v_data v))) as [[status target]|] eqn:Hfo; [|done]. cbn [mbind option_bind] in Hl.
    destruct (nonzero status) eqn:Hst; [injection Hl as -> _; done|]. assert (status = HORIZON_REG_SUCCESS) as -> by (unfold nonzero in Hst; by btrue).
    destruct target as [target|]; [|done]. cbn [mbind option_bind] in Hl. case_bool_decide as Hpl; [done|].
    assert (Hpl' : path_last target = None) by (destruct (path_last target); [by destruct Hpl; eauto|done]).
    assert (Hlinks : links < HORIZON_REG_MAX_LINKS) by (apply orb_false_iff in Hc as [[_ Hc]%orb_false_iff _]; by btrue).
    rewrite (Hfol _ _ Hlinks Hpl' Hfo). cbn [mbind option_bind]. rewrite Hst. cbn [mbind option_bind]. rewrite bool_decide_eq_false_2 by done. subst fuel'. by apply IH.
  - case_bool_decide as He.
    + injection Hl as <-. unfold ends in Hlast. simpl in Hlast. by subst path'.
    + destruct (HORIZON_REG_MAX_NAME <? _); [done|].
      destruct (horizon_reg_find_subkey reg k (horizon_reg_element (skip_backslashes name))) as [[found i]|] eqn:Hfind; [|done]. cbn [mbind option_bind] in Hl.
      destruct found as [sub|].
      * destruct (find_subkey_extends reg held reg' held' key k k' (horizon_reg_element (skip_backslashes name)) sub i W F W' F' (conj XR XK)) as (i' & ->); [done..|]. cbn [mbind option_bind]. subst fuel'. by apply IH.
      * case_bool_decide as Hr; [|done]. cbn [negb] in Hl. injection Hl as <-. unfold ends in Hlast. simpl in Hlast.
        destruct Hlast as (sub & k2 & s & Hk2 & Hsub & Hs & Hn & Hopen & ->). assert (k2 = k') as -> by congruence.
        destruct (find_subkey_iff reg' held' key k' (k_name s) W' F' Hk') as (r & i' & Hf & Hiff).
        assert (r = Some sub) as -> by (apply Hiff; split; [done|]; unfold key_name; by rewrite Hs). rewrite <- Hn, Hf. cbn [mbind option_bind].
        assert (Hd : has_flag s HORIZON_REG_FLAG_DELETED = false).
        { destruct (kw_sub _ _ _ _ (wf_keys _ _ W' _ _ Hk') _ Hsub) as (s2 & Hs2 & Hp). assert (s2 = s) as -> by congruence.
          apply (kw_deleted _ _ _ _ (wf_keys _ _ W' _ _ Hs)). left. by exists key. }
        subst fuel'. cbn [lookup_loop]. rewrite Hs. cbn [mbind option_bind]. rewrite Hd, Hn, Hr. cbn [skip_backslashes]. rewrite bool_decide_eq_true_2 by done. cbn [negb orb].
        assert (Hlk : has_flag s HORIZON_REG_FLAG_SYMLINK && (Z.land attributes HORIZON_REG_OBJ_OPENLINK =? 0) = false).
        { unfold nonzero in Hopen. destruct (has_flag s _), (Z.land attributes _ =? 0); done. }
        by rewrite Hlk.
Qed.

Lemma lookup_loop_fuel fuel fuel' follow r key name attributes links res :
  lookup_loop fuel follow r key name attributes links = Some res -> (fuel <= fuel')%nat -> lookup_loop fuel' follow r key name attributes links = Some res.
Proof using.
  revert fuel' key name. induction fuel as [|fuel IH]; intros fuel' key name H Hle; [done|]. destruct fuel' as [|fuel']; [lia|].
  cbn [lookup_loop] in *. destruct (rg_keys r !! key) as [k|]; [|done]. cbn [mbind option_bind] in *.
  destruct (has_flag k HORIZON_REG_FLAG_DELETED); [done|].
  match goal with |- context [if ?b then ('(value, _) ← horizon_reg_find_value _ _; _) else _] => destruct b end.
  - destruct (horizon_reg_find_value k horizon_reg_symlink_value) as [[[v|] i]|]; [|done..]. cbn [mbind option_bind] in *.
    match goal with |- context [if ?b then _ else _] => destruct b; [done|] end.
    destruct (follow (bytes_units (v_data v))) as [[status target]|]; [|done]. cbn [mbind option_bind] in *. destruct (nonzero status); [done|].
    destruct target as [target|]; [|done]. cbn [mbind option_bind] in *. case_bool_decide; [done|]. apply IH; [done|lia].
  - case_bool_decide; [done|]. destruct (HORIZON_REG_MAX_NAME <? _); [done|].
    destruct (horizon_reg_find_subkey r k _) as [[found i]|]; [|done]. cbn [mbind option_bind] in *. destruct found as [sub|]; [|done]. apply IH; [done|lia].
Qed.

Lemma lookup_extends depth base name attributes links path path' :
  0 <= links -> HORIZON_REG_MAX_LINKS < links + Z.of_nat depth -> links <= HORIZON_REG_MAX_LINKS -> parent_ok reg base ->
  horizon_reg_lookup depth reg base name attributes links = Some (HORIZON_REG_SUCCESS, Some path) -> ends attributes path path' ->
  horizon_reg_lookup depth reg' base name attributes links = Some (HORIZON_REG_SUCCESS, Some path').
Proof using W F W' F' X.
  revert base name attributes links path path'. induction depth as [|depth IH]; intros base name attributes links path path' H0 Hd Hm Hb Hl He; [done|].
  assert (Hb' : parent_ok reg' base) by (destruct base as [key|]; [|done]; destruct Hb as [k Hk]; destruct (proj2 X _ _ Hk) as (k' & ? & _); by exists k').
  destruct (lookup_ok (S depth) reg' held' base name attributes links W' F' Hb') as (r & Hr & _); [lia..|]. rewrite Hr. f_equal.
  cbn [horizon_reg_lookup] in Hl, Hr.
  assert (Hloop : forall key name, lookup_loop (2 * length name + 2) (fun target => horizon_reg_lookup depth reg None target 0 (links + 1)) reg key name attributes links =
       Some (HORIZON_REG_SUCCESS, Some path) ->
     lookup_loop (2 * length name + 2) (fun target => horizon_reg_lookup depth reg' None target 0 (links + 1)) reg' key name attributes links = Some r ->
     r = (HORIZON_REG_SUCCESS, Some path')).
  { intros key name' H1 H2. eapply lookup_loop_extends in H1; [|intros target p Hlt Hp Ht|exact He].
    - eapply lookup_loop_fuel in H2; [|apply Nat.le_succ_diag_r]. rewrite H1 in H2. congruence.
    - eapply IH; [lia..|done|exact Ht|]. unfold ends. by rewrite Hp. }
  destruct base as [base|].
  - case_bool_decide; [done|]. by eapply Hloop.
  - destruct (negb _); [done|]. destruct (_ || _); [done|]. rewrite (proj1 X) in Hr. destruct (rg_root reg) as [root|]; [|done]. cbn [mbind option_bind] in *. by eapply Hloop.
Qed.
End extension.

(** ** The theorems *)

(** C25: Events are neither lost nor signaled twice: the events signaled and
    those that still wait are together the events that were asked for. *)
Theorem registry_events_kept st :
  reg_reachable st -> rg_signaled (cl_reg st) ++ pending_events (cl_reg st) ≡ₚ cl_asked st.
Proof. intros R. apply (reachable_wf _ R). Qed.

Lemma handed_extends reg key class reg' : handed_out reg key class reg' -> extends reg reg'.
Proof.
  intros (k & Hk & _ & ->). transitivity (put_key reg key (k_with_refs k (k_refs k + 1))); [by apply refs_extends|]. apply like_extends.
  etransitivity; [eapply (reg_like_put _ key (k_with_refs k (k_refs k + 1)) (handed_key k class)); [apply lookup_insert_eq|unfold handed_key; by case_bool_decide]|].
  unfold put_key, with_keys. simpl. by rewrite insert_insert_eq.
Qed.

Lemma quiet_extends reg reg' : quiet reg reg' -> extends reg reg'.
Proof. intros Q. by apply like_extends, calm_like, quiet_calm. Qed.

Lemma open_at reg held base name attributes key :
  reg_wf reg held -> reg_fits reg -> parent_ok reg base ->
  horizon_reg_lookup LOOKUP_DEPTH reg base name attributes 0 = Some (HORIZON_REG_SUCCESS, Some (mk_path key None)) ->
  exists reg', horizon_reg_open reg base name attributes = Some (HORIZON_REG_SUCCESS, Some key, reg').
Proof.
  intros W F Hb Hl. destruct (open_spec reg held base name attributes W F Hb) as (status & r & reg' & E & H). exists reg'. rewrite E.
  destruct r as [key'|]; [destruct H as (-> & _ & _ & Hl' & _); congruence|]. exfalso. destruct H as [Hs _]. apply Hs. unfold horizon_reg_open in E. rewrite Hl in E. cbn [mbind option_bind] in E.
  change (nonzero HORIZON_REG_SUCCESS) with false in E. cbn [mbind option_bind path_last path_key] in E. rewrite bool_decide_eq_false_2 in E by (by intros [? ?]).
  destruct (ref_key reg key); [|done]. cbn [mbind option_bind] in E. congruence.
Qed.

Lemma created_keys_extend reg path p reg0 i max key last t options reg1 class reg' :
  rg_keys reg !! path_key path = Some p -> quiet reg reg0 -> rg_keys reg !! key = None ->
  calm (with_created reg0 (path_key path) p i max key (created_key last t (path_key path) options)) reg1 -> handed_out reg1 key class reg' ->
  extends reg reg' /\ extends (with_created reg0 (path_key path) p i max key (created_key last t (path_key path) options)) reg'.
Proof.
  intros Hp Q Hk C HO.
  assert (X : extends (with_created reg0 (path_key path) p i max key (created_key last t (path_key path) options)) reg').
  { transitivity reg1; [by apply like_extends, calm_like|]. by eapply handed_extends. }
  split; [|done]. transitivity reg0; [by apply quiet_extends|]. etransitivity; [|exact X]. apply created_extends; by rewrite (quiet_keys _ _ Q).
Qed.

(** C26: A key that was created is found: opening the same name from the same
    base gives the new key, and every path that could be opened before, through
    whatever links, still opens the same key. *)
Theorem registry_create_open st base name attributes options class key reg' :
  reg_reachable st -> reg_fits (cl_reg st) -> base_key st base = Some true ->
  horizon_reg_create (cl_reg st) base name attributes options class = Some (HORIZON_REG_SUCCESS, Some key, reg') -> reg_fits reg' ->
  (exists reg'', horizon_reg_open reg' base name
     (if nonzero (Z.land options HORIZON_REG_OPTION_CREATE_LINK) then Z.lor attributes HORIZON_REG_OBJ_OPENLINK else attributes) =
     Some (HORIZON_REG_SUCCESS, Some key, reg'')) /\
  forall base2 name2 attributes2 key2 reg2, base_key st base2 = Some true ->
    horizon_reg_open (cl_reg st) base2 name2 attributes2 = Some (HORIZON_REG_SUCCESS, Some key2, reg2) ->
    exists reg2', horizon_reg_open reg' base2 name2 attributes2 = Some (HORIZON_REG_SUCCESS, Some key2, reg2').
Proof.
  intros R F Hb Hc F'. pose proof (reachable_wf _ R) as WC. pose proof WC as [W _].
  assert (Hbase : forall b, base_key st b = Some true -> parent_ok (cl_reg st) b).
  { intros b E. destruct (base_key_ok st b WC) as (ok & E' & H). apply H. congruence. }
  destruct (create_spec (cl_reg st) (cl_held st) base name attributes options class W F (Hbase _ Hb)) as (status & r & reg1 & E & H).
  rewrite Hc in E. injection E as <- <- <-. destruct H as (W' & _ & path & r1 & Hl & HO & H).
  set (attrs := if nonzero (Z.land options HORIZON_REG_OPTION_CREATE_LINK) then Z.lor attributes HORIZON_REG_OBJ_OPENLINK else attributes) in *.
  destruct (path_last path) as [last|] eqn:Hlast; [|by destruct H].
  destruct H as (_ & p & r0 & i & max & t & Hp & Hgood & Q & Hkey & Hf & Hmax & Ht).
  assert (Hd : has_flag p HORIZON_REG_FLAG_DELETED = false).
  { destruct (lookup_top (cl_reg st) (cl_held st) base name attrs W F (Hbase _ Hb)) as (r & E & [(_ & path' & E' & k & Hk & Hd & _)|(E1 & _)]);
      rewrite Hl in E; injection E as <-; [|done]. simpl in E'. congruence. }
  assert (W0 : reg_wf (with_created r0 (path_key path) p i max key (created_key last t (path_key path) options)) (cl_held st)).
  { apply created_wf; rewrite ?(quiet_keys _ _ Q); try done. by eapply quiet_wf. }
  assert (Hne : path_key path <> key) by congruence.
  destruct (touch_calm _ _ (path_key path) (k_with_subkeys p (insert_at (k_subkeys p) i key) max) HORIZON_REG_CHANGE_NAME W0) as (r1' & Ht' & C).
  { simpl. rewrite lookup_insert_ne by done. apply lookup_insert_eq. }
  rewrite Ht in Ht'. injection Ht' as <-. destruct (created_keys_extend (cl_reg st) path p r0 i max key last t options r1 class reg') as [X X0]; [done..|].
  assert (Hb' : forall b, parent_ok (cl_reg st) b -> parent_ok reg' b).
  { intros b Hp'. destruct b as [x|]; [|done]. destruct Hp' as [k Hk]. destruct (proj2 X _ _ Hk) as (k' & ? & _). by exists k'. }
  split.
  - eapply open_at; [exact W'|done|by apply Hb', Hbase|]. eapply (lookup_extends (cl_reg st) reg' (cl_held st) (key :: cl_held st)); try done; [by apply Hbase|].
    unfold ends. rewrite Hlast.
    destruct (proj2 X0 (path_key path) (k_with_subkeys p (insert_at (k_subkeys p) i key) max)) as (p' & Hp' & _ & _ & _ & Hsub);
      [simpl; rewrite lookup_insert_ne by done; apply lookup_insert_eq|].
    destruct (proj2 X0 key (created_key last t (path_key path) options)) as (k' & Hk' & Hn & Hfl & _); [apply lookup_insert_eq|].
    exists key, p', k'. split_and!; [done| |done|done| |done].
    + apply Hsub. apply elem_of_insert_at. by left.
    + unfold has_flag. rewrite Hfl. subst attrs. unfold created_key. simpl. destruct (nonzero (Z.land options HORIZON_REG_OPTION_CREATE_LINK)).
      * apply orb_true_iff. left. unfold nonzero, HORIZON_REG_OBJ_OPENLINK. apply negb_true_iff, Z.eqb_neq. intros Hz.
        apply (f_equal (fun z => Z.testbit z 8)) in Hz. rewrite Z.land_spec, Z.lor_spec in Hz. simpl in Hz. by rewrite orb_true_r in Hz.
      * destruct (nonzero (Z.land options HORIZON_REG_OPTION_VOLATILE)); simpl; by rewrite orb_true_r.
  - intros base2 name2 attributes2 key2 reg2 Hb2 Ho. destruct (open_spec (cl_reg st) (cl_held st) base2 name2 attributes2 W F (Hbase _ Hb2)) as (s2 & r2 & reg3 & E2 & H2).
    rewrite Ho in E2. injection E2 as <- <- <-. destruct H2 as (_ & _ & _ & Hl2 & _).
    eapply open_at; [exact W'|done|by apply Hb', Hbase|]. eapply (lookup_extends (cl_reg st) reg' (cl_held st) (key :: cl_held st)); try done. by apply Hbase.
Qed.

(** ** Values are kept *)

(** A value is read by its name, whatever the order of the array. *)
Lemma get_value_iff reg held key k name max :
  reg_wf reg held -> reg_fits reg -> rg_keys reg !! key = Some k ->
  (forall v, v ∈ k_values k -> name_eq (v_name v) name ->
     horizon_reg_get_value reg key name max = Some (HORIZON_REG_SUCCESS, v_type v, Z.of_nat (length (v_data v)),
       take (Z.to_nat (Z.min max (Z.of_nat (length (v_data v))))) (v_data v))) /\
  ((forall v, v ∈ k_values k -> ~ name_eq (v_name v) name) -> horizon_reg_get_value reg key name max = Some (HORIZON_REG_NAME_NOT_FOUND, -1, 0, [])).
Proof.
  intros W F Hk. unfold horizon_reg_get_value. rewrite Hk. cbn [mbind option_bind].
  destruct (find_value_iff reg held key k name W F Hk) as (r & i & -> & H). cbn [mbind option_bind]. split.
  - intros v Hv Hn. assert (r = Some v) as -> by (by apply H). do 2 f_equal. destruct (_ <? max) eqn:E; btrue; f_equal; f_equal; lia.
  - intros Hno. destruct r as [v|]; [|done]. destruct (proj1 (H v) eq_refl) as [Hv Hn]. by destruct (Hno v Hv).
Qed.

(** Keys with the same values of a name give the same answer. *)
Lemma get_value_same reg held reg' held' key k k' name max :
  reg_wf reg held -> reg_fits reg -> reg_wf reg' held' -> reg_fits reg' -> rg_keys reg !! key = Some k -> rg_keys reg' !! key = Some k' ->
  (forall v, name_eq (v_name v) name -> v ∈ k_values k' <-> v ∈ k_values k) ->
  horizon_reg_get_value reg' key name max = horizon_reg_get_value reg key name max.
Proof.
  intros W F W' F' Hk Hk' He. destruct (get_value_iff reg held key k name max W F Hk) as [G1 G2]. destruct (get_value_iff reg' held' key k' name max W' F' Hk') as [G1' G2'].
  destruct (find_value_iff reg held key k name W F Hk) as (r & i & _ & H). destruct r as [v|].
  - destruct (proj1 (H v) eq_refl) as [Hv Hn]. rewrite (G1 v Hv Hn). apply G1'; [by apply He|done].
  - rewrite G2, G2'; [done| |]; intros v Hv Hn; assert (Hc : None = Some v) by (apply H; split; [first [done|by apply He]|done]); done.
Qed.

Lemma calm_lookup reg reg' key k : calm reg reg' -> rg_keys reg !! key = Some k -> exists k', rg_keys reg' !! key = Some k' /\ key_like k k'.
Proof. intros C. apply reg_like_Some. by apply calm_like. Qed.

(** C27: A value that was set is read back: by any spelling of its name, whole
    or cut to the caller's buffer. Every other value of the key and every
    value of every other key reads as before, and a request that fails changes
    no value at all. *)
Theorem registry_set_get st key name type data status reg' :
  reg_reachable st -> reg_fits (cl_reg st) -> key ∈ cl_held st ->
  horizon_reg_set_value (cl_reg st) key name type data = Some (status, reg') -> reg_fits reg' ->
  (status = HORIZON_REG_SUCCESS -> forall name' max, name_eq name' name ->
     horizon_reg_get_value reg' key name' max =
     Some (HORIZON_REG_SUCCESS, type, Z.of_nat (length data), take (Z.to_nat (Z.min max (Z.of_nat (length data)))) data)) /\
  (forall key' name' max, status <> HORIZON_REG_SUCCESS \/ key' <> key \/ ~ name_eq name' name ->
     horizon_reg_get_value reg' key' name' max = horizon_reg_get_value (cl_reg st) key' name' max).
Proof.
  intros R F Hin Hs F'. destruct (reachable_wf _ R) as [W _]. destruct (wf_held _ _ W _ Hin) as [k Hk].
  destruct (set_value_spec (cl_reg st) (cl_held st) key k name type data W F Hk) as (s & r & E & W' & _ & H). rewrite Hs in E. injection E as <- <-.
  assert (Hval : exists l k', rg_keys reg' !! key = Some k' /\ k_values k' = l /\
     (status = HORIZON_REG_SUCCESS -> values_set (k_values k) l name type data) /\ (status <> HORIZON_REG_SUCCESS -> l = k_values k) /\
     (forall key', key' <> key -> option_Forall2 (fun k1 k2 => k_values k2 = k_values k1) (rg_keys (cl_reg st) !! key') (rg_keys reg' !! key'))).
  { destruct H as [(Hne & r0 & max & Q & ->)|[(-> & -> & V)|(-> & r0 & l & max & Q & V & _ & _ & _ & C)]].
    - exists (k_values k). eexists. split; [apply lookup_insert_eq|]. split_and!; [done|done|done|]. intros key' Hk'. simpl. rewrite lookup_insert_ne by done.
      rewrite (quiet_keys _ _ Q). destruct (rg_keys (cl_reg st) !! key'); by constructor.
    - exists (k_values k), k. split_and!; try done. intros key' _. destruct (rg_keys (cl_reg st) !! key'); by constructor.
    - destruct (calm_lookup _ _ key (k_with_values k l max) C) as (k' & Hk' & L); [apply lookup_insert_eq|]. exists l, k'. split_and!; try done.
      + by destruct L as (_ & _ & _ & _ & <- & _).
      + intros key' Hne. pose proof (reg_like_lookup _ _ key' (calm_like _ _ C)) as Hf. simpl in Hf. rewrite lookup_insert_ne in Hf by done.
        rewrite (quiet_keys _ _ Q) in Hf. destruct Hf as [k1 k2 Hkk|]; constructor. by destruct Hkk as (_ & _ & _ & _ & -> & _). }
  destruct Hval as (l & k' & Hk' & El & V & V' & Ho). split.
  - intros Hst name' max Hn. destruct (V Hst) as [(v & Hv & Hvn & <- & <-) _]. apply (get_value_iff reg' (cl_held st) key k' name' max W' F' Hk'); [by rewrite El|].
    by rewrite Hvn.
  - intros key' name' max Hd. destruct (decide (key' = key)) as [-> |Hne].
    + apply (get_value_same _ (cl_held st) _ (cl_held st) key k k'); try done. intros v Hvn. rewrite El.
      destruct (decide (status = HORIZON_REG_SUCCESS)) as [Hst|Hst]; [|by rewrite V'].
      destruct (V Hst) as [_ V2]. apply V2. intros Hv. destruct Hd as [?|[?|Hd]]; [done|done|]. apply Hd. by rewrite <- Hvn.
    + specialize (Ho key' Hne). destruct (rg_keys (cl_reg st) !! key') as [k1|] eqn:Hk1; inversion Ho as [? k2 Hv E1 E2|E1 E2].
      * apply (get_value_same _ (cl_held st) _ (cl_held st) key' k1 k2); try done. intros v _. by rewrite Hv.
      * unfold horizon_reg_get_value. by rewrite Hk1, <- E2.
Qed.

(** A key that is deleted is gone: it had no subkeys; it leaves the list of
    its parent's subkeys, and nothing opens it again. Handles that still refer
    to it see a deleted key; without one its memory is freed. Every other key
    keeps its name, its values and its subkeys. *)
Theorem registry_delete_exact st key k reg' :
  reg_reachable st -> reg_fits (cl_reg st) -> rg_keys (cl_reg st) !! key = Some k -> has_flag k HORIZON_REG_FLAG_DELETED = false ->
  horizon_reg_delete (cl_reg st) key = Some (HORIZON_REG_SUCCESS, reg') -> reg_fits reg' ->
  k_subkeys k = [] /\
  (key ∈ cl_held st -> exists k', rg_keys reg' !! key = Some k' /\ has_flag k' HORIZON_REG_FLAG_DELETED = true) /\
  (key ∉ cl_held st -> rg_keys reg' !! key = None) /\
  (forall base name attributes status found reg'', parent_ok reg' base -> horizon_reg_open reg' base name attributes = Some (status, found, reg'') -> found <> Some key) /\
  (forall x kx, x <> key -> rg_keys (cl_reg st) !! x = Some kx -> exists kx', rg_keys reg' !! x = Some kx' /\ k_name kx' = k_name kx /\ k_values kx' = k_values kx /\
     forall sub, sub ∈ k_subkeys kx' <-> sub ∈ k_subkeys kx /\ sub <> key).
Proof.
  intros R F Hk Hd Hdel F'. destruct (reachable_wf _ R) as [W _].
  destruct (delete_spec (cl_reg st) (cl_held st) key k W F Hk) as (s & r & E & W' & _ & H). rewrite Hdel in E. injection E as <- <-.
  destruct H as [(_ & [[=]|?])|(_ & parent & p & i & r2 & k2 & Hkp & Hleaf & Hp & Hi & _ & C & Hk2 & L2 & Hr)]; [congruence|].
  destruct (wf_keys _ _ W _ _ Hk) as [_ _ _ _ _ _ _ _ _ [K10 _]]. rewrite decide_True in K10 by (left; by exists parent).
  assert (E2 : k_refs k2 = k_refs k) by (by destruct L2 as (_ & _ & _ & _ & _ & _ & _ & <-)).
  assert (Hflag : has_flag k2 HORIZON_REG_FLAG_DELETED = true).
  { unfold has_flag. destruct L2 as (_ & _ & _ & _ & _ & _ & <- & _). apply deleted_flag. }
  assert (Hx : forall x kx, x <> key -> rg_keys r2 !! x = Some kx -> rg_keys reg' !! x = Some kx).
  { intros x kx Hne Hx. rewrite Hr. unfold released. destruct (k_refs k2 =? 1); simpl; [by rewrite lookup_delete_ne|by rewrite lookup_insert_ne]. }
  split_and!; [done| | | |].
  - intros Hin. rewrite Hr. unfold released. apply held_count_in in Hin. rewrite (proj2 (Z.eqb_neq _ _)) by lia. eexists. split; [apply lookup_insert_eq|]. exact Hflag.
  - intros Hin. rewrite Hr. unfold released. apply held_count_zero in Hin. rewrite (proj2 (Z.eqb_eq _ _)) by lia. apply lookup_delete_eq.
  - intros base name attributes status found reg'' Hb Ho ->.
    destruct (open_spec reg' (cl_held st) base name attributes W' F' Hb) as (s2 & r3 & reg3 & E3 & H3). rewrite Ho in E3. injection E3 as <- <- <-.
    destruct H3 as (_ & _ & _ & Hl & _). destruct (lookup_top reg' (cl_held st) base name attributes W' F' Hb) as (r4 & E4 & [(_ & path & E5 & k4 & Hk4 & Hd4 & _)|(E5 & _)]);
      rewrite Hl in E4; injection E4 as <-; simpl in E5; [|done]. injection E5 as <-. simpl in Hk4. rewrite Hr in Hk4. unfold released in Hk4.
    destruct (k_refs k2 =? 1); simpl in Hk4; [by rewrite lookup_delete_eq in Hk4|]. rewrite lookup_insert_eq in Hk4. injection Hk4 as <-.
    unfold has_flag in Hd4, Hflag. simpl in Hd4. congruence.
  - intros x kx Hne Hkx. assert (H2 : exists kx2, rg_keys (without_key (cl_reg st) parent p i key k) !! x = Some kx2 /\ k_name kx2 = k_name kx /\ k_values kx2 = k_values kx /\
       forall sub, sub ∈ k_subkeys kx2 <-> sub ∈ k_subkeys kx /\ sub <> key).
    { simpl. rewrite lookup_insert_ne by done. destruct (decide (x = parent)) as [-> |Hnp].
      - rewrite lookup_insert_eq. assert (kx = p) as -> by congruence. eexists. split_and!; [done..|]. intros sub. simpl.
        apply elem_of_delete_NoDup; [|done]. apply (kw_nodup _ _ _ _ (wf_keys _ _ W _ _ Hp)).
      - rewrite lookup_insert_ne by done. exists kx. split_and!; [done..|]. intros sub. split; [|tauto]. intros Hs. split; [done|]. intros ->.
        destruct (kw_sub _ _ _ _ (wf_keys _ _ W _ _ Hkx) _ Hs) as (s & Hs' & Hps). congruence. }
    destruct H2 as (kx2 & Hx2 & N2 & V2 & S2). destruct (calm_lookup _ _ _ _ C Hx2) as (kx3 & Hx3 & L3). exists kx3. split; [by apply Hx|].
    destruct L3 as (L31 & _ & L33 & _ & L35 & _). rewrite <- L31, <- L33, <- L35. done.
Qed.

(** ** Full names open their keys *)

(** The names from below the root down to [key], none of the keys a link. *)
Inductive plain_path (reg : horizon_reg) : positive -> list reg_name -> Prop :=
  | Path_root r k : rg_root reg = Some r -> rg_keys reg !! r = Some k -> has_flag k HORIZON_REG_FLAG_SYMLINK = false -> plain_path reg r []
  | Path_child key k p l : rg_keys reg !! key = Some k -> k_parent k = Some p -> has_flag k HORIZON_REG_FLAG_SYMLINK = false ->
      plain_path reg p l -> plain_path reg key (l ++ [k_name k]).

Lemma plain_path_names reg key l : plain_path reg key l -> path_names reg key l.
Proof. induction 1; [by eapply Names_root|by eapply Names_child]. Qed.

Lemma plain_path_live reg key l : plain_path reg key l -> is_Some (rg_keys reg !! key).
Proof. destruct 1; eauto. Qed.

(** Going down from [key] along the names of subkeys, no link on the way. *)
Inductive walk (reg : horizon_reg) : positive -> list reg_name -> positive -> Prop :=
  | Walk_end key k : rg_keys reg !! key = Some k -> has_flag k HORIZON_REG_FLAG_SYMLINK = false -> walk reg key [] key
  | Walk_down key k sub s l target : rg_keys reg !! key = Some k -> has_flag k HORIZON_REG_FLAG_SYMLINK = false -> sub ∈ k_subkeys k ->
      rg_keys reg !! sub = Some s -> walk reg sub l target -> walk reg key (k_name s :: l) target.

Lemma walk_snoc reg key l p kp sub s :
  walk reg key l p -> rg_keys reg !! p = Some kp -> sub ∈ k_subkeys kp -> rg_keys reg !! sub = Some s -> has_flag s HORIZON_REG_FLAG_SYMLINK = false ->
  walk reg key (l ++ [k_name s]) sub.
Proof.
  induction 1 as [key k Hk Hl|key k sub' s' l target Hk Hl Hin Hs' _ IH]; intros Hp Hsub Hs Hsl.
  - assert (k = kp) as -> by congruence. simpl. eapply Walk_down; [done..|]. by econstructor.
  - simpl. eapply Walk_down; [done..|]. by apply IH.
Qed.

Lemma plain_path_walk reg held key l root : reg_wf reg held -> rg_root reg = Some root -> plain_path reg key l -> walk reg root l key.
Proof.
  intros W Hroot. induction 1 as [r k Hr Hk Hl|key k p l Hk Hp Hl _ IH].
  - assert (r = root) as -> by congruence. by econstructor.
  - destruct (kw_parent _ _ _ _ (wf_keys _ _ W _ _ Hk) p Hp) as (kp & Hkp & Hin). by eapply walk_snoc.
Qed.

Lemma skip_skip name : skip_backslashes (skip_backslashes name) = skip_backslashes name.
Proof. destruct (skip_backslashes name) as [|c rest] eqn:E; [done|]. pose proof (skip_head _ _ _ E). apply skip_id. simpl. congruence. Qed.

Lemma skip_path n l : good_name n -> skip_backslashes (path_text (n :: l)) = n ++ path_text l.
Proof.
  intros (Hn & Hb & _). unfold path_text. simpl. rewrite skip_id; [done|]. destruct n as [|c n]; [done|]. simpl. rewrite not_elem_of_cons in Hb. intros [= ->]. tauto.
Qed.

Lemma element_path n l : BACKSLASH ∉ n -> horizon_reg_element (n ++ path_text l) = n.
Proof. intros Hb. destruct l as [|m l]; [rewrite app_nil_r; by apply element_id|]. by apply element_app. Qed.

Lemma lookup_walk fuel follow reg held key l target name attributes links :
  reg_wf reg held -> reg_fits reg -> rg_root reg <> None -> walk reg key l target -> (forall k, rg_keys reg !! key = Some k -> has_flag k HORIZON_REG_FLAG_DELETED = false) ->
  (length l < fuel)%nat -> skip_backslashes name = skip_backslashes (path_text l) ->
  lookup_loop fuel follow reg key name attributes links = Some (HORIZON_REG_SUCCESS, Some (mk_path target None)).
Proof.
  intros W F Hroot Hw. revert fuel name. induction Hw as [key k Hk Hl|key k sub s l target Hk Hl Hin Hs _ IH]; intros fuel name Hd Hf Hn;
    (destruct fuel as [|fuel]; [simpl in Hf; lia|]); cbn [lookup_loop]; rewrite Hk; cbn [mbind option_bind]; rewrite (Hd _ Hk), Hl; cbn [andb]; rewrite Hn.
  - done.
  - destruct (kw_sub _ _ _ _ (wf_keys _ _ W _ _ Hk) _ Hin) as (s' & Hs' & Hsp). assert (s' = s) as -> by congruence.
    pose proof (kw_name _ _ _ _ (wf_keys _ _ W _ _ Hs) ltac:(by exists key)) as Hg. rewrite skip_path by done. pose proof Hg as (Hne & Hb & Hmax).
    rewrite bool_decide_eq_false_2 by (destruct (k_name s); done). rewrite element_path by done. rewrite (proj2 (Z.ltb_ge _ _)) by done.
    destruct (find_subkey_iff reg held key k (k_name s) W F Hk) as (r & i & -> & Hiff). cbn [mbind option_bind].
    assert (r = Some sub) as -> by (apply Hiff; split; [done|]; unfold key_name; by rewrite Hs). rewrite drop_app_length. apply IH.
    + intros k' Hk'. assert (k' = s) as -> by congruence. apply (kw_deleted _ _ _ _ (wf_keys _ _ W _ _ Hs)). left. by exists key.
    + simpl in Hf. lia.
    + by rewrite skip_skip.
Qed.

(** The full name of a key opens it: the name a query returns for a live
    key without links on its path is the path from \Registry, and opening it
    gives that key. *)
Theorem registry_full_name_opens st key names :
  reg_reachable st -> reg_fits (cl_reg st) -> plain_path (cl_reg st) key names -> bytes_len (full_name_text names) <= UINT_MAX ->
  (exists r reg1, horizon_reg_full_name (cl_reg st) key = Some (r, reg1) /\ (r = None \/ r = Some (full_name_text names))) /\
  exists reg2, horizon_reg_open (cl_reg st) None (full_name_text names) 0 = Some (HORIZON_REG_SUCCESS, Some key, reg2).
Proof.
  intros R F Hp Hm. destruct (reachable_wf _ R) as [W _]. split.
  { destruct (full_name_eq _ _ W key names (plain_path_names _ _ _ Hp) Hm) as (r & reg1 & E & _ & H). eauto. }
  destruct (wf_root _ _ W) as (root & kr & Hr & Hkr & Hpr & _). apply (open_at _ (cl_held st)); [done..|].
  unfold LOOKUP_DEPTH. cbn [horizon_reg_lookup]. unfold full_name_text at 1. cbn [app registry_prefix head]. rewrite bool_decide_eq_true_2 by done. cbn [negb]. cbv iota.
  assert (Hpre : (bytes_len (full_name_text names) <? bytes_len registry_prefix) || nonzero (horizon_reg_compare (take (length registry_prefix) (full_name_text names)) registry_prefix) ||
     ((bytes_len registry_prefix <? bytes_len (full_name_text names)) && negb (bool_decide (full_name_text names !! length registry_prefix = Some BACKSLASH))) = false).
  { unfold full_name_text. rewrite take_app_length. rewrite bytes_len_app. rewrite (proj2 (Z.ltb_ge _ _)) by (unfold bytes_len; lia).
    destruct names as [|n names]; [done|]. rewrite (bool_decide_eq_true_2 (_ = Some BACKSLASH)) by done. by rewrite andb_false_r. }
  rewrite Hpre. rewrite Hr. cbn [mbind option_bind]. unfold full_name_text. rewrite drop_app_length.
  apply (lookup_walk _ _ _ (cl_held st) _ names); try done; [congruence|by eapply plain_path_walk| |].
  - intros k Hk. apply (kw_deleted _ _ _ _ (wf_keys _ _ W _ _ Hk)). by right.
  - assert (length names <= length (path_text names))%nat; [|lia]. clear. induction names as [|n names IH]; [done|]. unfold path_text in *. simpl. rewrite length_app. lia.
Qed.

(** ** Examples *)

(** Requests one after the other, while memory holds the registry. *)
Fixpoint reg_run (ops : list reg_op) (st : reg_client) : option reg_client :=
  match ops with
  | [] => Some st
  | op :: ops => if bool_decide (reg_fits (cl_reg st)) then st ← reg_do op st; reg_run ops st else None
  end.

Lemma reg_run_rtc ops st st' : reg_run ops st = Some st' -> rtc reg_step st st'.
Proof.
  revert st. induction ops as [|op ops IH]; intros st; simpl; [intros [= ->]; constructor|]. case_bool_decide as F; [|done].
  destruct (reg_do op st) as [st1|] eqn:E; [|done]. intros H. eapply rtc_l; [by econstructor|]. by apply IH.
Qed.

Definition sample_start : reg_client :=
  mk_client (snd (horizon_reg_init (reg_nothing (fun _ => true) (fun n => Z.of_nat n)))) [] [].

Lemma sample_reachable ops st : reg_run ops sample_start = Some st -> reg_reachable st.
Proof.
  intros H. exists sample_start. split; [|by eapply reg_run_rtc]. exists (fun _ => true), (fun n => Z.of_nat n). split; [vm_compute; reflexivity|done].
Qed.

Definition after (ops : list reg_op) : reg_client := default sample_start (reg_run ops sample_start).

(** "\Registry\A", "B" and "V" *)
Definition name_A : reg_name := registry_prefix ++ [92; 65].
Definition name_B : reg_name := [66].
Definition name_V : reg_name := [86].

(** \Registry\A with a watched subkey B that has a value, and a second handle to A. *)
Definition sample_ops : list reg_op :=
  [Op_create None name_A 0 0 []; Op_create (Some 2%positive) name_B 0 0 []; Op_notify 2 7 77 true 5;
   Op_set_value 3 name_V 3 [1; 2; 3]; Op_open None name_A 0].

Example sample_signaled : rg_signaled (cl_reg (after sample_ops)) = [77] /\ cl_held (after sample_ops) = [2; 3; 2]%positive.
Proof. vm_compute. done. Qed.

Lemma registry_events_kept_witness :
  rg_signaled (cl_reg (after sample_ops)) ++ pending_events (cl_reg (after sample_ops)) ≡ₚ [77].
Proof. apply (registry_events_kept (after sample_ops)). apply (sample_reachable sample_ops). vm_compute. reflexivity. Defined.

Definition sample_created : option (Z * option positive * horizon_reg) := horizon_reg_create (cl_reg (after sample_ops)) (Some 2%positive) name_V 0 0 [].

Lemma registry_create_open_witness :
  exists reg'', horizon_reg_open (snd (default (0, None, cl_reg sample_start) sample_created)) (Some 2%positive) name_V 0 = Some (HORIZON_REG_SUCCESS, Some 4%positive, reg'').
Proof.
  apply (registry_create_open (after sample_ops) (Some 2%positive) name_V 0 0 [] 4 (snd (default (0, None, cl_reg sample_start) sample_created)));
    [apply (sample_reachable sample_ops); vm_compute; reflexivity|decide_true|vm_compute; reflexivity|vm_compute; reflexivity|decide_true].
Defined.

Definition sample_set : Z * horizon_reg := default (1, cl_reg sample_start) (horizon_reg_set_value (cl_reg (after sample_ops)) 3 [118] 3 [9]).

Lemma registry_set_get_witness :
  horizon_reg_get_value (snd sample_set) 3 name_V 10 = Some (HORIZON_REG_SUCCESS, 3, 1, [9]).
Proof.
  refine (proj1 (registry_set_get (after sample_ops) 3 [118] 3 [9] (fst sample_set) (snd sample_set) _ _ _ _ _) _ name_V 10 _).
  - apply (sample_reachable sample_ops). vm_compute. reflexivity.
  - decide_true.
  - decide_true.
  - vm_compute. reflexivity.
  - decide_true.
  - vm_compute. reflexivity.
  - reflexivity.
Defined.

Definition sample_deleted : Z * horizon_reg := default (1, cl_reg sample_start) (horizon_reg_delete (cl_reg (after sample_ops)) 3).

Lemma registry_delete_exact_witness :
  exists k', rg_keys (snd sample_deleted) !! 3%positive = Some k' /\ has_flag k' HORIZON_REG_FLAG_DELETED = true.
Proof.
  refine (proj1 (proj2 (registry_delete_exact (after sample_ops) 3
    (default (key_new [] 0) (rg_keys (cl_reg (after sample_ops)) !! 3%positive)) (snd sample_deleted) _ _ _ _ _ _)) _).
  - apply (sample_reachable sample_ops). vm_compute. reflexivity.
  - decide_true.
  - vm_compute. reflexivity.
  - vm_compute. reflexivity.
  - vm_compute. reflexivity.
  - decide_true.
  - decide_true.
Defined.

Lemma path_child reg key k p l l' :
  rg_keys reg !! key = Some k -> k_parent k = Some p -> has_flag k HORIZON_REG_FLAG_SYMLINK = false -> l' = l ++ [k_name k] -> plain_path reg p l -> plain_path reg key l'.
Proof. intros H1 H2 H3 ->. by econstructor. Qed.

Lemma registry_full_name_opens_witness :
  exists reg2, horizon_reg_open (cl_reg (after sample_ops)) None (full_name_text [[65]; [66]]) 0 = Some (HORIZON_REG_SUCCESS, Some 3%positive, reg2).
Proof.
  refine (proj2 (registry_full_name_opens (after sample_ops) 3 [[65]; [66]] _ _ _ _)).
  - apply (sample_reachable sample_ops). vm_compute. reflexivity.
  - decide_true.
  - apply (path_child _ 3 (default (key_new [] 0) (rg_keys (cl_reg (after sample_ops)) !! 3%positive)) 2 [[65]]);
      [vm_compute; reflexivity..|].
    apply (path_child _ 2 (default (key_new [] 0) (rg_keys (cl_reg (after sample_ops)) !! 2%positive)) 1 []); [vm_compute; reflexivity..|].
    apply (Path_root _ 1 (default (key_new [] 0) (rg_keys (cl_reg (after sample_ops)) !! 1%positive))); vm_compute; reflexivity.
  - vm_compute. discriminate.
Defined.
