(* ===== verification/RegistryText.v ===== *)
(** * Strings of registry files

    The escaped strings of "WINE REGISTRY Version 2" files: how
    [horizon_registry_save_str] writes a string of 16-bit units and how
    [horizon_reg_parse_str] reads one, with the theorem that reading gives
    back what was written, and numbers in hexadecimal and octal.

    A C string is the list of the bytes before its null: reading at the end
    of the list reads the null. Memory behind a list is the caller's. *)
From S2P Require Import Prelude RegistryNames.
From stdpp Require Import strings.
Local Open Scope Z_scope.

(** ** Characters *)

(** The bytes of a string of the source. *)
Fixpoint text (s : string) : list Z :=
  match s with EmptyString => [] | String c s => Z.of_nat (Ascii.nat_of_ascii c) :: text s end.

Definition QUOTE : Z := 34.

Definition isdigit (c : Z) : bool := (48 <=? c) && (c <=? 57).
Definition isxdigit (c : Z) : bool := isdigit c || ((97 <=? c) && (c <=? 102)) || ((65 <=? c) && (c <=? 70)).
Definition isspace (c : Z) : bool := (c =? 32) || ((9 <=? c) && (c <=? 13)).
Definition tolower (c : Z) : Z := if (65 <=? c) && (c <=? 90) then c + 32 else c.
Definition is_octal (c : Z) : bool := (48 <=? c) && (c <=? 55).

(** The value of a hexadecimal digit. *)
Definition xdigit (c : Z) : Z := if isdigit c then c - 48 else tolower c - 97 + 10.

(** ** Reading *)

(** Up to [count] hexadecimal digits: their value, and what follows. *)
Fixpoint read_hex (count : nat) (p : list Z) (res : Z) : Z * list Z :=
  match count, p with
  | S count, c :: rest => if isxdigit c then read_hex count rest (u32 (res * 16 + xdigit c)) else (res, p)
  | _, _ => (res, p)
  end.

Fixpoint read_octal (count : nat) (p : list Z) (res : Z) : Z * list Z :=
  match count, p with
  | S count, c :: rest => if is_octal c then read_octal count rest (u32 (res * 8 + (c - 48))) else (res, p)
  | _, _ => (res, p)
  end.

(** The bytes that continue a UTF-8 sequence: how many are missing, the
    value, and what follows. *)
Fixpoint read_utf8 (count : nat) (p : list Z) (res : Z) : nat * Z * list Z :=
  match count, p with
  | S count', c :: rest =>
      if Z.land c 0xc0 =? 0x80 then read_utf8 count' rest (Z.lor (u32 (Z.shiftl res 6)) (Z.land c 0x3f)) else (count, res, p)
  | _, _ => (count, res, p)
  end.

(** A byte that is not part of an escape, or a UTF-8 sequence: the units it
    stores, [room] of them at most, and what follows. *)
Definition parse_plain (room : Z) (p : list Z) : list Z * list Z :=
  match p with
  | [] => ([], [])
  | c :: rest =>
      if c <? 0x80 then ([c], rest) else
      let seq := if (0xf0 <=? c) && (c <=? 0xf4) then Some (Z.land c 7, 3%nat)
                 else if 0xe0 <=? c then Some (Z.land c 15, 2%nat)
                 else if 0xc2 <=? c then Some (Z.land c 31, 1%nat)
                 else None in
      match seq with
      | None => ([], rest)
      | Some (res, count) =>
          let '(missing, res, rest) := read_utf8 count rest res in
          if negb (missing =? 0)%nat || (0x10ffff <? res) then ([], rest)
          else if res <=? 0xffff then ([res], rest)
          else
            let res := res - 0x10000 in
            let high := Z.lor 0xd800 (Z.shiftr res 10) in
            if 1 <? room then ([high; Z.lor 0xdc00 (Z.land res 0x3ff)], rest) else ([high], rest)
      end
  end.

(** The unit of an escape letter. *)
Definition escape_unit (c : Z) : option Z :=
  if c =? 97 then Some 7 else if c =? 98 then Some 8 else if c =? 101 then Some 27 else if c =? 102 then Some 12
  else if c =? 110 then Some 10 else if c =? 114 then Some 13 else if c =? 116 then Some 9 else if c =? 118 then Some 11 else None.

(** One turn of the loop at [p], not at the end: the units stored and what
    follows. *)
Definition parse_turn (room : Z) (p : list Z) : list Z * list Z :=
  match p with
  | 92 :: [] => ([], [])
  | 92 :: c :: rest =>
      match escape_unit c with
      | Some u => ([u], rest)
      | None =>
          if c =? 120 then
            match rest with
            | d :: _ => if isxdigit d then let '(res, rest) := read_hex 4 rest 0 in ([u16 res], rest) else ([120], rest)
            | [] => ([120], rest)
            end
          else if is_octal c then let '(res, rest) := read_octal 3 (c :: rest) 0 in ([u16 res], rest)
          else parse_plain room (c :: rest)
      end
  | _ => parse_plain room p
  end.

(** The loop: [room] units of space are left. Every turn takes a byte. *)
Fixpoint parse_loop (fuel : nat) (room : Z) (p : list Z) (endchar : Z) : option (list Z * list Z * Z) :=
  match fuel with
  | O => None
  | S fuel =>
      match p with
      | [] => Some ([], p, room)
      | c :: _ =>
          if (c =? endchar) || (room <=? 0) then Some ([], p, room)
          else
            let '(units, rest) := parse_turn room p in
            '(more, rest, room) ← parse_loop fuel (room - Z.of_nat (length units)) rest endchar;
            Some (units ++ more, rest, room)
      end
  end.

(** The characters read with the end character, and the units with the null
    that ends them; [None] for -1. [len] is the room in bytes. *)
Definition horizon_reg_parse_str (len : Z) (src : list Z) (endchar : Z) : option (nat * list Z) :=
  '(units, rest, room) ← parse_loop (S (length src)) (len / 2) src endchar;
  if room <=? 0 then None else
  match rest with
  | [] => None
  | _ :: _ => Some ((length src - length rest + 1)%nat, units ++ [0])
  end.

(** ** Writing *)

(** The digits of a number, at least [width] of them. *)
Definition digit_char (d : Z) : Z := if d <? 10 then 48 + d else 87 + d.

Fixpoint digits (fuel : nat) (base n : Z) : list Z :=
  match fuel with
  | O => []
  | S fuel => if n <? base then [digit_char n] else digits fuel base (n / base) ++ [digit_char (n mod base)]
  end.

Definition padded (width : nat) (l : list Z) : list Z := replicate (width - length l) 48 ++ l.

(** printf's %x, %04x, %08x and %o of numbers of up to 32 bits. *)
Definition print_hex (width : nat) (n : Z) : list Z := padded width (digits 8 16 n).
Definition print_octal (width : nat) (n : Z) : list Z := padded width (digits 11 8 n).

Definition escapes : list Z := text ".......abtnvfr.............e....".

(** What [horizon_registry_save_str] writes for a unit before [next]. *)
Definition save_unit (c : Z) (next : option Z) (e0 e1 : Z) : list Z :=
  if 127 <? c then
    [92; 120] ++ print_hex (if match next with Some d => (d <? 128) && isxdigit d | None => false end then 4 else 1) c
  else if c <? 32 then
    let e := default 46 (escapes !! Z.to_nat c) in
    if negb (e =? 46) then [92; e]
    else [92] ++ print_octal (if match next with Some d => is_octal d | None => false end then 3 else 1) c
  else (if (c =? 92) || (c =? e0) || (c =? e1) then [92] else []) ++ [c].

(** The text of a string; its length is the count the function returns. *)
Fixpoint horizon_registry_save_str (str : list Z) (e0 e1 : Z) : list Z :=
  match str with
  | [] => []
  | c :: str => save_unit c (head str) e0 e1 ++ horizon_registry_save_str str e0 e1
  end.

(** ** Numbers read as they were written *)

(** The number digits stand for. *)
Definition digit_value (base : Z) (l : list Z) (start : Z) : Z := fold_left (fun v c => v * base + xdigit c) l start.

Definition digit_of (base : Z) (c : Z) : Prop := isxdigit c = true /\ 0 <= xdigit c < base.

Lemma digit_char_ok base d : 0 <= d < base -> base <= 16 -> digit_of base (digit_char d) /\ xdigit (digit_char d) = d.
Proof.
  intros Hd Hb. assert (Hx : xdigit (digit_char d) = d /\ isxdigit (digit_char d) = true).
  { unfold digit_char, xdigit, isxdigit, isdigit, tolower. destruct (d <? 10) eqn:E; btrue.
    - rewrite (proj2 (Z.leb_le 48 (48 + d))), (proj2 (Z.leb_le (48 + d) 57)) by lia. cbn [andb orb]. split; [lia|done].
    - rewrite (proj2 (Z.leb_gt (87 + d) 57)) by lia. rewrite andb_false_r. rewrite (proj2 (Z.leb_gt (87 + d) 90)) by lia. rewrite andb_false_r.
      rewrite (proj2 (Z.leb_le 97 (87 + d))), (proj2 (Z.leb_le (87 + d) 102)) by lia. split; [lia|done]. }
  destruct Hx as [Hx Hi]. split; [|done]. split; [done|]. by rewrite Hx.
Qed.

Lemma digit_value_app base l1 l2 start : digit_value base (l1 ++ l2) start = digit_value base l2 (digit_value base l1 start).
Proof. apply fold_left_app. Qed.

Lemma digits_ok fuel base n :
  2 <= base <= 16 -> 0 <= n < base ^ Z.of_nat fuel -> (0 < fuel)%nat ->
  Forall (digit_of base) (digits fuel base n) /\ digit_value base (digits fuel base n) 0 = n /\ (0 < length (digits fuel base n))%nat /\
  forall k, (0 < k)%nat -> n < base ^ Z.of_nat k -> (length (digits fuel base n) <= k)%nat.
Proof.
  intros Hb. revert n. induction fuel as [|fuel IH]; intros n Hn Hf; [lia|]. cbn [digits]. destruct (n <? base) eqn:E; btrue.
  - destruct (digit_char_ok base n) as [D1 D2]; [lia..|]. split_and!; [by constructor| |simpl; lia|simpl; lia]. unfold digit_value. simpl. lia.
  - destruct (decide (fuel = 0%nat)) as [-> |Hf0]; [simpl in Hn; lia|].
    assert (Hdiv : 0 <= n / base < base ^ Z.of_nat fuel).
    { split; [apply Z.div_pos; lia|]. apply Z.div_lt_upper_bound; [lia|]. rewrite Nat2Z.inj_succ, Z.pow_succ_r in Hn by lia. lia. }
    destruct (IH (n / base) Hdiv ltac:(lia)) as (I1 & I2 & I3 & I4). destruct (digit_char_ok base (n mod base)) as [D1 D2]; [apply Z.mod_pos_bound; lia|lia|].
    split_and!.
    + apply Forall_app. split; [done|]. by constructor.
    + rewrite digit_value_app, I2. unfold digit_value. simpl. rewrite D2. pose proof (Z.div_mod n base). lia.
    + rewrite length_app. simpl. lia.
    + intros [|[|k]] Hk Hlt; [lia|simpl in Hlt; lia|]. rewrite length_app. simpl length.
      assert (length (digits fuel base (n / base)) <= S k)%nat; [|lia]. apply I4; [lia|]. apply Z.div_lt_upper_bound; [lia|].
      rewrite (Nat2Z.inj_succ (S k)), Z.pow_succ_r in Hlt by lia. lia.
Qed.

Lemma zeros_value base n start : digit_value base (replicate n 48) start = start * base ^ Z.of_nat n.
Proof.
  revert start. induction n as [|n IH]; intros start; [simpl; lia|]. unfold digit_value in *. simpl fold_left. rewrite IH. change (xdigit 48) with 0.
  rewrite Nat2Z.inj_succ, Z.pow_succ_r by lia. lia.
Qed.

Lemma digits_pos_length fuel base n : (0 < fuel)%nat -> (0 < length (digits fuel base n))%nat.
Proof. destruct fuel as [|fuel]; [lia|]. simpl. destruct (n <? base); simpl; [lia|]. rewrite length_app. simpl. lia. Qed.

(** A number written with at least [width] digits. *)
Lemma padded_ok fuel base n width k :
  2 <= base <= 16 -> 0 <= n < base ^ Z.of_nat k -> (0 < k <= fuel)%nat -> (width <= k)%nat ->
  Forall (digit_of base) (padded width (digits fuel base n)) /\ digit_value base (padded width (digits fuel base n)) 0 = n /\
  (0 < length (padded width (digits fuel base n)) <= k)%nat /\ (width <= length (padded width (digits fuel base n)))%nat.
Proof.
  intros Hb Hn Hk Hw. destruct (digits_ok fuel base n Hb) as (D1 & D2 & D3 & D4); [|lia|].
  { split; [lia|]. eapply Z.lt_le_trans; [apply Hn|]. apply Z.pow_le_mono_r; lia. }
  specialize (D4 k ltac:(lia) ltac:(lia)). unfold padded. split_and!.
  - apply Forall_app. split; [|done]. apply Forall_replicate. split; [done|]. change (xdigit 48) with 0. lia.
  - rewrite digit_value_app, zeros_value, Z.mul_0_l. done.
  - rewrite length_app. lia.
  - rewrite length_app, length_replicate. lia.
  - rewrite length_app, length_replicate. lia.
Qed.

Lemma digit_value_bound base l start : 2 <= base -> 0 <= start -> Forall (digit_of base) l ->
  0 <= digit_value base l start /\ start * base ^ Z.of_nat (length l) <= digit_value base l start.
Proof.
  intros Hb. revert start. induction l as [|c l IH]; intros start Hs Hl; [simpl; lia|]. apply Forall_cons in Hl as [[_ Hc] Hl].
  destruct (IH (start * base + xdigit c)) as [I1 I2]; [nia|done|]. unfold digit_value in *. simpl fold_left. split; [done|].
  simpl length. rewrite Nat2Z.inj_succ, Z.pow_succ_r by lia. etransitivity; [|exact I2].
  assert (0 <= base ^ Z.of_nat (length l)) by (apply Z.pow_nonneg; lia). nia.
Qed.

Lemma digit_value_step base c l start : 2 <= base -> 0 <= start -> digit_of base c -> Forall (digit_of base) l -> start * base + xdigit c <= digit_value base (c :: l) start.
Proof.
  intros Hb Hs [_ Hc] Hl. destruct (digit_value_bound base l (start * base + xdigit c)) as [_ H]; [lia|nia|done|].
  unfold digit_value in *. simpl. etransitivity; [|exact H]. assert (1 <= base ^ Z.of_nat (length l)) by (apply (Z.pow_le_mono_r base 0); lia). nia.
Qed.

(** Whether digits end where [rest] starts. *)
Definition stops (is_digit : Z -> bool) (rest : list Z) : Prop := match rest with c :: _ => is_digit c = false | [] => True end.

Lemma read_hex_ok l count rest start :
  Forall (digit_of 16) l -> (length l <= count)%nat -> (length l = count \/ stops isxdigit rest) -> 0 <= start ->
  digit_value 16 l start < 4294967296 -> read_hex count (l ++ rest) start = (digit_value 16 l start, rest).
Proof.
  revert count start. induction l as [|c l IH]; intros count start Hl Hc Hs H0 Hv; simpl app.
  - destruct count as [|count]; [by destruct rest|]. destruct Hs as [Hs|Hs]; [done|]. destruct rest as [|c rest]; [done|]. simpl in *. by rewrite Hs.
  - apply Forall_cons in Hl as [Hd Hl]. destruct count as [|count]; [simpl in Hc; lia|]. cbn [read_hex]. rewrite (proj1 Hd).
    pose proof (digit_value_step 16 c l start ltac:(lia) H0 Hd Hl) as Hb. destruct Hd as [_ Hd].
    rewrite u32_small by (unfold is_u32; nia). apply IH; [done|simpl in Hc; lia|simpl in Hs; destruct Hs; [left; lia|by right]|nia|done].
Qed.

Lemma octal_digit c : digit_of 8 c -> is_octal c = true /\ c - 48 = xdigit c.
Proof.
  unfold digit_of, isxdigit, xdigit, isdigit, is_octal, tolower. intros [H1 H2]. destruct ((48 <=? c) && (c <=? 57)) eqn:E; btrue.
  - split; [apply andb_true_iff; split; apply Z.leb_le; lia|done].
  - exfalso. apply andb_false_iff in E. rewrite !orb_true_iff, !andb_true_iff, !Z.leb_le in H1. destruct ((65 <=? c) && (c <=? 90)) eqn:E2; btrue; [lia|].
    apply andb_false_iff in E2. rewrite !Z.leb_gt in E, E2. lia.
Qed.

Lemma read_octal_ok l count rest start :
  Forall (digit_of 8) l -> (length l <= count)%nat -> (length l = count \/ stops is_octal rest) -> 0 <= start ->
  digit_value 8 l start < 4294967296 -> read_octal count (l ++ rest) start = (digit_value 8 l start, rest).
Proof.
  revert count start. induction l as [|c l IH]; intros count start Hl Hc Hs H0 Hv; simpl app.
  - destruct count as [|count]; [by destruct rest|]. destruct Hs as [Hs|Hs]; [done|]. destruct rest as [|c rest]; [done|]. simpl in *. by rewrite Hs.
  - apply Forall_cons in Hl as [Hd Hl]. destruct count as [|count]; [simpl in Hc; lia|]. cbn [read_octal].
    pose proof (digit_value_step 8 c l start ltac:(lia) H0 Hd Hl) as Hb. destruct (octal_digit c Hd) as [-> Ec]. destruct Hd as [_ Hd].
    rewrite Ec, u32_small by (unfold is_u32; nia). apply IH; [done|simpl in Hc; lia|simpl in Hs; destruct Hs; [left; lia|by right]|nia|done].
Qed.

(** ** Strings read as they were written *)

(** A character that a backslash makes an ordinary one. *)
Definition good_escape (e : Z) : Prop :=
  32 <= e <= 127 /\ escape_unit e = None /\ e <> 120 /\ is_octal e = false /\ isxdigit e = false /\ e <> 92.

#[export] Instance good_escape_dec e : Decision (good_escape e).
Proof. unfold good_escape. apply _. Defined.

Definition is_unit (c : Z) : Prop := 0 <= c < 65536.

Definition next_is_hex (next : option Z) : bool := match next with Some d => (d <? 128) && isxdigit d | None => false end.
Definition next_is_octal (next : option Z) : bool := match next with Some d => is_octal d | None => false end.

(** The text after a unit starts as the writer saw it. *)
Definition follows (next : option Z) (rest : list Z) : Prop :=
  (next_is_hex next = false -> stops isxdigit rest) /\ (next_is_octal next = false -> stops is_octal rest).

(** Control characters are written with a letter that reads back, or as a
    number. *)
Definition control_ok (c : Z) : bool :=
  let e := default 46 (escapes !! Z.to_nat c) in (e =? 46) || bool_decide (escape_unit e = Some c).

Lemma controls_ok c : 0 <= c < 32 -> control_ok c = true.
Proof.
  intros Hc. assert (H : Forall (fun n => control_ok (Z.of_nat n) = true) (seq 0 32)) by (apply (bool_decide_eq_true_1 _); vm_compute; reflexivity).
  rewrite list.Forall_forall in H. replace c with (Z.of_nat (Z.to_nat c)) by lia. apply H. apply elem_of_seq. lia.
Qed.

Lemma escape_none_backslash : escape_unit 92 = None /\ is_octal 92 = false.
Proof. done. Qed.

Lemma parse_plain_ascii room c rest : 0 <= c < 128 -> parse_plain room (c :: rest) = ([c], rest).
Proof. intros Hc. unfold parse_plain. by rewrite (proj2 (Z.ltb_lt _ _)) by lia. Qed.

Lemma parse_turn_plain room c rest : c <> 92 -> parse_turn room (c :: rest) = parse_plain room (c :: rest).
Proof.
  intros Hc. unfold parse_turn. destruct c as [|c|c]; [done| |done]. repeat (destruct c as [c|c|]; try done).
Qed.

(** A unit, whatever follows it, is read back. *)
Lemma parse_turn_unit room c next e0 e1 rest :
  is_unit c -> good_escape e0 -> good_escape e1 -> follows next rest ->
  parse_turn room (save_unit c next e0 e1 ++ rest) = ([c], rest).
Proof.
  intros Hc G0 G1 [Fh Fo]. unfold is_unit in Hc. unfold save_unit. fold (next_is_hex next) (next_is_octal next). destruct (127 <? c) eqn:E1; btrue.
  - set (w := if next_is_hex next then 4%nat else 1%nat). change (([92; 120] ++ print_hex w c) ++ rest) with (92 :: 120 :: (print_hex w c ++ rest)).
    destruct (padded_ok 8 16 c w 4) as (P1 & P2 & P3 & P4); [lia..|subst w; destruct (next_is_hex next); lia|]. fold (print_hex w c) in *.
    destruct (print_hex w c) as [|d l] eqn:El; [simpl in P3; lia|]. assert (Hd : isxdigit d = true) by (by apply Forall_cons in P1 as [[? _] _]).
    unfold parse_turn. change (escape_unit 120) with (@None Z). cbv iota. rewrite Z.eqb_refl. cbn [app]. rewrite Hd. change (d :: l ++ rest) with ((d :: l) ++ rest).
    rewrite read_hex_ok; [|done|lia| |lia|lia].
    + rewrite P2, u16_small by lia. done.
    + subst w. destruct (next_is_hex next); [left; lia|right; by apply Fh].
  - destruct (c <? 32) eqn:E2; btrue.
    + pose proof (controls_ok c ltac:(lia)) as Hk. unfold control_ok in Hk. destruct (default 46 (escapes !! Z.to_nat c) =? 46) eqn:E3; cbn [negb orb] in *.
      * set (w := if next_is_octal next then 3%nat else 1%nat). change (([92] ++ print_octal w c) ++ rest) with (92 :: (print_octal w c ++ rest)).
        destruct (padded_ok 11 8 c w 3) as (P1 & P2 & P3 & P4); [lia..|subst w; destruct (next_is_octal next); lia|]. fold (print_octal w c) in *.
        destruct (print_octal w c) as [|d l] eqn:El; [simpl in P3; lia|]. assert (Hd : digit_of 8 d) by (by apply Forall_cons in P1 as [? _]).
        destruct (octal_digit d Hd) as [Ho _]. cbn [app]. unfold parse_turn.
        assert (Hn : escape_unit d = None /\ (d =? 120) = false).
        { unfold is_octal in Ho. btrue. unfold escape_unit. split; [|apply Z.eqb_neq; lia].
          repeat (rewrite (proj2 (Z.eqb_neq _ _)) by lia). done. }
        destruct Hn as [-> ->]. rewrite Ho. change (d :: l ++ rest) with ((d :: l) ++ rest). rewrite read_octal_ok; [|done|lia| |lia|lia].
        -- rewrite P2, u16_small by lia. done.
        -- subst w. destruct (next_is_octal next); [left; lia|right; by apply Fo].
      * btrue. cbn [app]. unfold parse_turn. rewrite Hk. done.
    + destruct ((c =? 92) || (c =? e0) || (c =? e1)) eqn:E3; cbn [app].
      * assert (Hn : escape_unit c = None /\ (c =? 120) = false /\ is_octal c = false).
        { unfold good_escape in *. splits_hyps. rewrite !orb_true_iff, !Z.eqb_eq in E3. destruct E3 as [[-> | ->]| ->]; [done|..]; (split_and!; [done|by apply Z.eqb_neq|done]). }
        destruct Hn as (H1 & H2 & H3). unfold parse_turn. rewrite H1, H2, H3. apply parse_plain_ascii. lia.
      * btrue. rewrite parse_turn_plain by done. apply parse_plain_ascii. lia.
Qed.

Lemma save_unit_head c next e0 e1 : exists d l, save_unit c next e0 e1 = d :: l /\ (d = 92 \/ d = c /\ 32 <= c <= 127 /\ c <> e0 /\ c <> e1).
Proof.
  unfold save_unit. destruct (127 <? c) eqn:E1; [eexists _, _; split; [done|by left]|]. destruct (c <? 32) eqn:E2.
  - destruct (negb _); (eexists _, _; split; [done|by left]).
  - destruct ((c =? 92) || (c =? e0) || (c =? e1)) eqn:E3; (eexists _, _; split; [done|]); [by left|]. right. btrue. done.
Qed.

(** What follows a unit of a string starts as the writer saw it. *)
Lemma follows_saved str e0 e1 endchar rest : good_escape endchar -> follows (head str) (horizon_registry_save_str str e0 e1 ++ endchar :: rest).
Proof.
  intros (_ & _ & _ & G1 & G2 & _). destruct str as [|c str]; [by split; intros _|]. simpl.
  destruct (save_unit_head c (head str) e0 e1) as (d & l & -> & Hd). unfold follows, stops. simpl. destruct Hd as [-> |(-> & Hc & _)]; [done|].
  split; [|done]. rewrite (proj2 (Z.ltb_lt _ _)) by lia. done.
Qed.

Lemma parse_loop_saved str fuel room e0 e1 endchar rest :
  Forall is_unit str -> good_escape e0 -> good_escape e1 -> endchar = e0 \/ endchar = e1 -> (length str < fuel)%nat -> Z.of_nat (length str) < room ->
  parse_loop fuel room (horizon_registry_save_str str e0 e1 ++ endchar :: rest) endchar = Some (str, endchar :: rest, room - Z.of_nat (length str)).
Proof.
  intros Hs G0 G1 He. assert (Ge : good_escape endchar) by (by destruct He as [-> | ->]). revert fuel room. induction Hs as [|c str Hc Hs IH]; intros fuel room Hf Hr;
    (destruct fuel as [|fuel]; [simpl in Hf; lia|]).
  - simpl. rewrite Z.eqb_refl. simpl. by rewrite Z.sub_0_r.
  - cbn [horizon_registry_save_str]. rewrite <- (assoc_L (++)). destruct (save_unit_head c (head str) e0 e1) as (d & l & El & Hd).
    pose proof (parse_turn_unit room c (head str) e0 e1 (horizon_registry_save_str str e0 e1 ++ endchar :: rest) Hc G0 G1 (follows_saved str e0 e1 endchar rest Ge)) as Ht.
    rewrite El in Ht |- *. cbn [app parse_loop]. cbn [app] in Ht. rewrite Ht. simpl length in *.
    assert (Hne : (d =? endchar) = false).
    { apply Z.eqb_neq. destruct Ge as (_ & _ & _ & _ & _ & Ge). destruct Hd as [-> |(-> & _ & ? & ?)]; [congruence|]. destruct He as [-> | ->]; done. }
    rewrite Hne. rewrite (proj2 (Z.leb_gt _ _)) by lia. cbn [orb]. rewrite IH by lia. cbn [mbind option_bind app length]. do 2 f_equal. lia.
Qed.

Lemma save_str_length str e0 e1 : (length str <= length (horizon_registry_save_str str e0 e1))%nat.
Proof.
  induction str as [|c str IH]; simpl; [done|]. rewrite length_app. destruct (save_unit_head c (head str) e0 e1) as (d & l & -> & _). simpl. lia.
Qed.

Lemma parse_saved len str e0 e1 endchar rest :
  Forall is_unit str -> good_escape e0 -> good_escape e1 -> endchar = e0 \/ endchar = e1 -> bytes_len str + 2 <= len ->
  horizon_reg_parse_str len (horizon_registry_save_str str e0 e1 ++ endchar :: rest) endchar =
  Some ((length (horizon_registry_save_str str e0 e1) + 1)%nat, str ++ [0]).
Proof.
  intros Hs G0 G1 He Hl. unfold horizon_reg_parse_str. assert (Hroom : Z.of_nat (length str) < len / 2).
  { unfold bytes_len in Hl. Z.to_euclidean_division_equations. lia. }
  rewrite parse_loop_saved; [|done..| |done].
  - cbn [mbind option_bind]. rewrite (proj2 (Z.leb_gt _ _)) by lia. do 2 f_equal. rewrite length_app. simpl. lia.
  - rewrite length_app. pose proof (save_str_length str e0 e1). lia.
Qed.
