(* ===== verification/RegistryLoad.v ===== *)
(** * Registry files

    Writing the values of a key and the keys of a hive as text
    ([horizon_registry_server.h]) and loading such text below a key
    ([horizon_registry.h]), with the theorem that a value that was written is
    loaded as it was.

    The loader carries the text that is left, the current line up to its
    first null, and the sizes of its two buffers; memory comes from the
    stream of the registry. *)
From S2P Require Import Prelude RegistryNames Registry RegistryInv RegistryText.
From stdpp Require Import strings.
Local Open Scope Z_scope.

Definition HORIZON_REG_NOT_REGISTRY_FILE : Z := 0xc000015c.
Definition HORIZON_REG_SZ : Z := 1.
Definition HORIZON_REG_EXPAND_SZ : Z := 2.
Definition HORIZON_REG_BINARY : Z := 3.
Definition HORIZON_REG_DWORD : Z := 4.
Definition HORIZON_REG_MULTI_SZ : Z := 7.
Definition HORIZON_REG_TICKS_1601_TO_1970 : Z := 116444736000000000.

(** ** Numbers of the C library *)

Fixpoint skip_spaces (p : list Z) : list Z :=
  match p with c :: rest => if isspace c then skip_spaces rest else p | [] => [] end.

Definition ULONG_MAX : Z := UINT64_MAX.

(** The digits of a number in [base]: its value, at most [ULONG_MAX] + 1, and
    what follows. *)
Fixpoint number_run (is_digit : Z -> bool) (base : Z) (p : list Z) (v : Z) : Z * list Z :=
  match p with
  | c :: rest => if is_digit c then number_run is_digit base rest (Z.min (v * base + xdigit c) (ULONG_MAX + 1)) else (v, p)
  | [] => (v, p)
  end.

(** A sign and the digits: [None] without a digit. *)
Definition number (is_digit : Z -> bool) (base : Z) (prefix : bool) (p : list Z) : option (Z * list Z) :=
  let q := skip_spaces p in
  let '(neg, q) := match q with
                   | c :: rest => if c =? 45 then (true, rest) else if c =? 43 then (false, rest) else (false, q)
                   | [] => (false, q)
                   end in
  let q := match q with
           | z :: x :: ((d :: _) as rest) => if prefix && (z =? 48) && ((x =? 120) || (x =? 88)) && isxdigit d then rest else q
           | _ => q
           end in
  let '(v, rest) := number_run is_digit base q 0 in
  if (length rest =? length q)%nat then None
  else Some (if ULONG_MAX <? v then ULONG_MAX else if neg : bool then u64 (- v) else v, rest).

(** [strtoul( p, &end, 16 )]: the value and [end]. *)
Definition strtoul16 (p : list Z) : Z * list Z := default (0, p) (number isxdigit 16 true p).

(** [sscanf( p, " %u", &value )] when it gives 1. *)
Definition scan_unsigned (p : list Z) : option Z := '(v, _) ← number isdigit 10 false p; Some (u32 v).

(** ** The loader *)

Record horizon_reg_loader := mk_loader {
  ld_text : list Z;
  ld_line : list Z;
  ld_line_size : Z;
  ld_tmp_size : Z;
}.

(** The bytes of a line up to its end, and the text after the line. *)
Fixpoint split_line (t : list Z) : list Z * list Z :=
  match t with
  | [] => ([], [])
  | c :: t => if c =? 10 then ([], t) else let '(line, rest) := split_line t in (c :: line, rest)
  end.

Definition strip_cr (line : list Z) : list Z :=
  match last line with Some 13 => take (length line - 1) line | _ => line end.

(** The C string at the start of an array. *)
Fixpoint c_string (l : list Z) : list Z :=
  match l with [] => [] | c :: l => if c =? 0 then [] else c :: c_string l end.

(** 1 with the next line, 0 at the end, -1 without memory. *)
Definition horizon_reg_next_line (reg : horizon_reg) (loader : horizon_reg_loader) : Z * horizon_reg_loader * horizon_reg :=
  if bool_decide (ld_text loader = []) then (0, loader, reg) else
  let '(raw, rest) := split_line (ld_text loader) in
  let line := strip_cr raw in
  let need := Z.of_nat (length line) + 1 in
  let '(ok, size, reg) := if ld_line_size loader <? need
                          then let '(ok, reg) := malloc reg in (ok, need, reg)
                          else (true, ld_line_size loader, reg) in
  if negb ok then (-1, loader, reg)
  else (1, mk_loader rest (c_string line) size (ld_tmp_size loader), reg).

Definition horizon_reg_tmp_space (reg : horizon_reg) (loader : horizon_reg_loader) (bytes : Z) : bool * horizon_reg_loader * horizon_reg :=
  let bytes := 2 * ((bytes + 1) / 2) in
  if bytes <=? ld_tmp_size loader then (true, loader, reg) else
  if 0x7fffffff <? bytes then (false, loader, reg) else
  let '(ok, reg) := malloc reg in
  if negb ok then (false, loader, reg)
  else (true, mk_loader (ld_text loader) (ld_line loader) (ld_line_size loader) bytes, reg).

(** The loop of [horizon_reg_load_key] over the elements of a path. *)
Fixpoint load_key_loop (fuel : nat) (reg : horizon_reg) (key : positive) (name : reg_name) (modif : Z) : option (option positive * horizon_reg) :=
  match fuel with
  | O => None
  | S fuel =>
      if bool_decide (name = []) then Some (Some key, reg) else
      let elem := horizon_reg_element name in
      let rest := skip_backslashes (drop (length elem) name) in
      if HORIZON_REG_MAX_NAME <? bytes_len elem then Some (None, reg) else
      if bool_decide (elem = []) then load_key_loop fuel reg key rest modif else
      k ← rg_keys reg !! key;
      '(found, index) ← horizon_reg_find_subkey reg k elem;
      match found with
      | Some sub => load_key_loop fuel reg sub rest modif
      | None =>
          let '(sub, reg) := horizon_reg_alloc_key reg elem modif in
          match sub with
          | None => Some (None, reg)
          | Some sub =>
              '(status, reg) ← horizon_reg_link reg key sub index;
              if nonzero status then
                reg ← horizon_reg_release (walk_fuel reg) reg sub;
                Some (None, reg)
              else load_key_loop fuel reg sub rest modif
          end
      end
  end.

Definition horizon_reg_load_key (reg : horizon_reg) (key : positive) (loader : horizon_reg_loader) (buffer : list Z)
    : option (option positive * horizon_reg_loader * horizon_reg) :=
  let '(ok, loader, reg) := horizon_reg_tmp_space reg loader (2 * (Z.of_nat (length buffer) + 1)) in
  if negb ok then Some (None, loader, reg) else
  match horizon_reg_parse_str (ld_tmp_size loader) buffer 93 with
  | None => Some (None, loader, reg)
  | Some (res, units) =>
      let '(modif, reg) := match scan_unsigned (drop res buffer) with
                           | Some mod_ => (mod_ * 10000000 + HORIZON_REG_TICKS_1601_TO_1970, reg)
                           | None => now reg
                           end in
      let name := take (length units - 1) units in
      '(key, reg) ← load_key_loop (S (length name)) reg key name modif;
      Some (key, loader, reg)
  end.

(** Whether [p] starts with [tag]. *)
Fixpoint starts_with (tag p : list Z) : bool :=
  match tag, p with
  | [], _ => true
  | t :: tag, c :: p => (t =? c) && starts_with tag p
  | _ :: _, [] => false
  end.

(** The tags of [horizon_reg_data_type]: text, type, and how the data is read. *)
Definition types : list (list Z * Z * Z) :=
  [([QUOTE], HORIZON_REG_SZ, HORIZON_REG_SZ);
   (text "str:" ++ [QUOTE], HORIZON_REG_SZ, HORIZON_REG_SZ);
   (text "str(2):" ++ [QUOTE], HORIZON_REG_EXPAND_SZ, HORIZON_REG_SZ);
   (text "str(7):" ++ [QUOTE], HORIZON_REG_MULTI_SZ, HORIZON_REG_SZ);
   (text "hex:", HORIZON_REG_BINARY, HORIZON_REG_BINARY);
   (text "dword:", HORIZON_REG_DWORD, HORIZON_REG_DWORD);
   (text "hex(", -1, HORIZON_REG_BINARY)].

(** The type, how the data is read, and the text of the data; [None] for 0. *)
Fixpoint data_type_loop (l : list (list Z * Z * Z)) (buffer : list Z) : option (Z * Z * list Z) :=
  match l with
  | [] => None
  | (tag, type, parse_type) :: l =>
      if negb (starts_with tag buffer) then data_type_loop l buffer
      else if negb (type =? -1) then Some (type, parse_type, drop (length tag) buffer)
      else
        let '(v, rest) := strtoul16 (drop 4 buffer) in
        if (length (drop 4 buffer) <=? length rest)%nat || negb (starts_with (text "):") rest) then None
        else Some (u32 v, parse_type, drop 2 rest)
  end.

Definition horizon_reg_data_type (buffer : list Z) : option (Z * Z * list Z) := data_type_loop types buffer.

Definition skip_comma (p : list Z) : list Z := match p with 44 :: rest => rest | _ => p end.

(** The bytes read, [len] at most, and what follows; [None] for -1. Every turn
    reads a digit. *)
Fixpoint parse_hex_loop (fuel : nat) (len : Z) (p : list Z) : option (list Z * list Z) :=
  match fuel with
  | O => None
  | S fuel =>
      match p with
      | c :: _ =>
          if negb (isxdigit c) then Some ([], p) else
          let '(v, rest) := strtoul16 p in
          if (length rest =? length p)%nat || (0xff <? v) || (len <=? 0) then None else
          '(bytes, rest) ← parse_hex_loop fuel (len - 1) (skip_spaces (skip_comma (skip_spaces rest)));
          Some (v :: bytes, rest)
      | [] => Some ([], p)
      end
  end.

Definition horizon_reg_parse_hex (len : Z) (buffer : list Z) : option (list Z * list Z) := parse_hex_loop (S (length buffer)) len buffer.

(** The loop over the lines of a value in hexadecimal: the bytes, or [None]
    for an error. Every turn but the last takes a line. *)
Fixpoint hex_lines (fuel : nat) (reg : horizon_reg) (loader : horizon_reg_loader) (p : list Z) (data : list Z)
    : option (option (list Z) * horizon_reg_loader * horizon_reg) :=
  match fuel with
  | O => None
  | S fuel =>
      let room := 1 + Z.of_nat (length p) / 2 in
      let '(ok, loader, reg) := horizon_reg_tmp_space reg loader (Z.of_nat (length data) + room) in
      if negb ok then Some (None, loader, reg) else
      match horizon_reg_parse_hex room p with
      | None => Some (None, loader, reg)
      | Some (bytes, rest) =>
          match skip_spaces rest with
          | [] => Some (Some (data ++ bytes), loader, reg)
          | c :: _ =>
              if negb (c =? 92) then Some (None, loader, reg) else
              let '(got, loader, reg) := horizon_reg_next_line reg loader in
              if negb (got =? 1) then Some (None, loader, reg)
              else hex_lines fuel reg loader (skip_spaces (ld_line loader)) (data ++ bytes)
          end
      end
  end.

(** The four bytes of a number in memory. *)
Definition dword_bytes (n : Z) : list Z := [n mod 256; n / 256 mod 256; n / 65536 mod 256; n / 16777216 mod 256].

(** The name of a value and the text after it; [None] for an error. *)
Definition value_name (loader : horizon_reg_loader) (buffer : list Z) : option (reg_name * list Z) :=
  match buffer with
  | [] => None
  | c :: rest =>
      if c =? 64 then Some ([], rest)
      else '(res, units) ← horizon_reg_parse_str (ld_tmp_size loader) rest QUOTE; Some (take (length units - 1) units, drop res rest)
  end.

(** The type and the data of a value at [p]; [None] for an error. *)
Definition value_data (reg : horizon_reg) (loader : horizon_reg_loader) (p : list Z)
    : option (option (Z * list Z) * horizon_reg_loader * horizon_reg) :=
  match horizon_reg_data_type p with
  | None => Some (None, loader, reg)
  | Some (type, parse_type, p) =>
      if parse_type =? HORIZON_REG_SZ then
        match horizon_reg_parse_str (ld_tmp_size loader) p QUOTE with
        | None => Some (None, loader, reg)
        | Some (_, units) => Some (Some (type, units_bytes units), loader, reg)
        end
      else if parse_type =? HORIZON_REG_DWORD then
        Some (Some (type, dword_bytes (u32 (fst (strtoul16 p)))), loader, reg)
      else
        '(data, loader, reg) ← hex_lines (S (length (ld_text loader))) reg loader p [];
        Some (match data with Some data => Some (type, data) | None => None end, loader, reg)
  end.

Definition horizon_reg_load_value (reg : horizon_reg) (loader : horizon_reg_loader) (key : positive) (buffer : list Z)
    : option (bool * horizon_reg_loader * horizon_reg) :=
  let '(ok, loader, reg) := horizon_reg_tmp_space reg loader (2 * (Z.of_nat (length buffer) + 1)) in
  if negb ok then Some (false, loader, reg) else
  match value_name loader buffer with
  | None => Some (false, loader, reg)
  | Some (name, p) =>
      match skip_spaces p with
      | 61 :: p =>
          k ← rg_keys reg !! key;
          '(value, index) ← horizon_reg_find_value k name;
          '(status, reg) ← (if bool_decide (is_Some value) then Some (HORIZON_REG_SUCCESS, reg)
                            else horizon_reg_insert_value reg key name index);
          if nonzero status then Some (false, loader, reg) else
          '(r, loader, reg) ← value_data reg loader (skip_spaces p);
          let '(r, reg) := match r with
                           | Some (type, (_ :: _) as data) => let '(ok, reg) := malloc reg in (if ok then r else None, reg)
                           | _ => (r, reg)
                           end in
          match r with
          | Some (type, data) => reg ← store_value reg key index type data; Some (true, loader, reg)
          | None => reg ← store_value reg key index HORIZON_REG_NONE []; Some (false, loader, reg)
          end
      | _ => Some (false, loader, reg)
      end
  end.

(** The hexadecimal digits of a time. *)
Fixpoint time_loop (p : list Z) (modif : Z) : Z :=
  match p with
  | c :: p => if isxdigit c then time_loop p (Z.lor (u64 (Z.shiftl modif 4)) (xdigit c)) else modif
  | [] => modif
  end.

(** C's conversion of an [unsigned long long] to [long long]. *)
Definition to_longlong (x : Z) : Z := if x <? 9223372036854775808 then x else x - 18446744073709551616.

Definition horizon_reg_load_option (reg : horizon_reg) (loader : horizon_reg_loader) (key : positive) (buffer : list Z)
    : option (horizon_reg_loader * horizon_reg) :=
  k ← rg_keys reg !! key;
  if starts_with (text "#time=") buffer then
    Some (loader, put_key reg key (k_with_modif k (to_longlong (time_loop (drop 6 buffer) 0))))
  else if starts_with (text "#class=" ++ [QUOTE]) buffer then
    let '(ok, loader, reg) := horizon_reg_tmp_space reg loader (2 * (Z.of_nat (length buffer) + 1)) in
    if negb ok then Some (loader, reg) else
    match horizon_reg_parse_str (ld_tmp_size loader) (drop 8 buffer) QUOTE with
    | None => Some (loader, reg)
    | Some (_, units) =>
        let '(ok, reg) := malloc reg in
        if negb ok then Some (loader, reg) else Some (loader, put_key reg key (k_with_class k (Some units)))
    end
  else if starts_with (text "#link") buffer then
    Some (loader, put_key reg key (k_with_flags k (Z.lor (k_flags k) HORIZON_REG_FLAG_SYMLINK)))
  else Some (loader, reg).

(** The loop over the lines: the status, the errors, the registry. *)
Fixpoint load_loop (fuel : nat) (reg : horizon_reg) (base : positive) (loader : horizon_reg_loader) (key : option positive) (errors : Z)
    : option (Z * Z * horizon_reg) :=
  match fuel with
  | O => None
  | S fuel =>
      let '(got, loader, reg) := horizon_reg_next_line reg loader in
      if got =? -1 then Some (HORIZON_REG_NO_MEMORY, errors, reg)
      else if got =? 0 then Some (HORIZON_REG_SUCCESS, errors, reg)
      else
        let p := skip_spaces (ld_line loader) in
        match p with
        | [] => load_loop fuel reg base loader key errors
        | c :: rest =>
            if c =? 91 then
              '(key, loader, reg) ← horizon_reg_load_key reg base loader rest;
              load_loop fuel reg base loader key (if bool_decide (is_Some key) then errors else u32 (errors + 1))
            else if (c =? 64) || (c =? QUOTE) then
              match key with
              | None => load_loop fuel reg base loader key (u32 (errors + 1))
              | Some k =>
                  '(ok, loader, reg) ← horizon_reg_load_value reg loader k p;
                  load_loop fuel reg base loader key (if ok : bool then errors else u32 (errors + 1))
              end
            else if c =? 35 then
              match key with
              | None => load_loop fuel reg base loader key errors
              | Some k =>
                  '(loader, reg) ← horizon_reg_load_option reg loader k p;
                  load_loop fuel reg base loader key errors
              end
            else if c =? 59 then load_loop fuel reg base loader key errors
            else load_loop fuel reg base loader key (u32 (errors + 1))
        end
  end.

(** The status, the lines that could not be read, the registry. *)
Definition horizon_reg_load (reg : horizon_reg) (base : positive) (t : list Z) : option (Z * Z * horizon_reg) :=
  let '(got, loader, reg) := horizon_reg_next_line reg (mk_loader t [] 0 0) in
  if negb (got =? 1) || negb (bool_decide (ld_line loader = text "WINE REGISTRY Version 2"))
  then Some (HORIZON_REG_NOT_REGISTRY_FILE, 0, reg)
  else load_loop (S (length (ld_text loader))) reg base loader None 0.

(** ** Writing *)

(** The bytes of a value in hexadecimal, [count] characters into the line. *)
Fixpoint save_bytes (data : list Z) (count : Z) : list Z :=
  match data with
  | [] => []
  | b :: data =>
      let count := count + 2 in
      print_hex 2 b ++
      match data with
      | [] => []
      | _ :: _ =>
          let count := count + 1 in
          44 :: (if 76 <? count then [92; 10; 32; 32] ++ save_bytes data 2 else save_bytes data count)
      end
  end.

(** The type of a string value is written only when it is not REG_SZ. *)
Definition string_tag (type : Z) : list Z := if negb (type =? HORIZON_REG_SZ) then text "str(" ++ print_hex 1 type ++ text "):" else [].

(** A value of a string type that ends with a null. *)
Definition is_string_value (v : horizon_reg_value) : bool :=
  ((v_type v =? HORIZON_REG_SZ) || (v_type v =? HORIZON_REG_EXPAND_SZ) || (v_type v =? HORIZON_REG_MULTI_SZ)) &&
  negb (Z.of_nat (length (v_data v)) <? 2) && (Z.of_nat (length (v_data v)) mod 2 =? 0) &&
  bool_decide (last (bytes_units (v_data v)) = Some 0).

(** The four bytes of a DWORD as a number. *)
Definition bytes_dword (data : list Z) : Z :=
  default 0 (data !! 0%nat) + 256 * default 0 (data !! 1%nat) + 65536 * default 0 (data !! 2%nat) + 16777216 * default 0 (data !! 3%nat).

Definition horizon_registry_save_value (v : horizon_reg_value) : list Z :=
  let name := match v_name v with
              | [] => text "@="
              | _ :: _ => [QUOTE] ++ horizon_registry_save_str (v_name v) QUOTE QUOTE ++ [QUOTE; 61]
              end in
  name ++
  (if is_string_value v then
     let units := bytes_units (v_data v) in
     string_tag (v_type v) ++ [QUOTE] ++ horizon_registry_save_str (take (length units - 1) units) QUOTE QUOTE ++ [QUOTE; 10]
   else if (v_type v =? HORIZON_REG_DWORD) && (length (v_data v) =? 4)%nat then
     text "dword:" ++ print_hex 8 (bytes_dword (v_data v)) ++ [10]
   else
     let tag := if v_type v =? HORIZON_REG_BINARY then text "hex:" else text "hex(" ++ print_hex 1 (v_type v) ++ text "):" in
     tag ++ save_bytes (v_data v) (Z.of_nat (length name + length tag)) ++ [10]).

(** The path of a key below its hive: the names from the top down. *)
Fixpoint horizon_registry_save_path (path : list reg_name) : list Z :=
  match path with
  | [] => []
  | [name] => horizon_registry_save_str name 91 93
  | name :: path => horizon_registry_save_str name 91 93 ++ [92; 92] ++ horizon_registry_save_path path
  end.

(** printf's %u *)
Definition print_unsigned (n : Z) : list Z := digits 10 10 n.

(** The lines of a key that is written. *)
Definition save_key (k : horizon_reg_key) (path : list reg_name) : list Z :=
  [10; 91] ++ horizon_registry_save_path path ++ text "] " ++
  print_unsigned (u32 (Z.quot (k_modif k - HORIZON_REG_TICKS_1601_TO_1970) 10000000)) ++ [10] ++
  text "#time=" ++ print_hex 1 (Z.shiftr (u64 (k_modif k)) 32) ++ print_hex 8 (u32 (k_modif k)) ++ [10] ++
  match k_class k with
  | Some class => text "#class=" ++ [QUOTE] ++ horizon_registry_save_str class QUOTE QUOTE ++ [QUOTE; 10]
  | None => []
  end ++
  (if has_flag k HORIZON_REG_FLAG_SYMLINK then text "#link" ++ [10] else []) ++
  concat (map horizon_registry_save_value (k_values k)).

(** The text of a key and the keys below it that are not volatile. *)
Fixpoint horizon_registry_save_subkeys (fuel : nat) (reg : horizon_reg) (key : positive) (path : list reg_name) : option (list Z) :=
  match fuel with
  | O => None
  | S fuel =>
      k ← rg_keys reg !! key;
      if has_flag k HORIZON_REG_FLAG_VOLATILE then Some [] else
      let own := if negb (bool_decide (k_values k = [])) || bool_decide (k_subkeys k = []) || bool_decide (is_Some (k_class k)) ||
                    has_flag k HORIZON_REG_FLAG_SYMLINK
                 then save_key k path else [] in
      for_each (fun out sub =>
        s ← rg_keys reg !! sub;
        t ← horizon_registry_save_subkeys fuel reg sub (path ++ [k_name s]);
        Some (out ++ t)) (k_subkeys k) own
  end.
