(* ===== verification/RegistryRoundtrip.v ===== *)
(** * Registry values survive a file

    A value that [horizon_registry_save_value] writes is loaded by
    [horizon_reg_load_value] with its name, its type and its data, whatever
    its type and however many lines its bytes take. *)
From S2P Require Import Prelude RegistryNames Registry RegistryInv RegistryTree RegistryText RegistryLoad.
From stdpp Require Import strings.
Local Open Scope Z_scope.

(** ** Lines *)

(** Characters a line keeps: no null, no end of line. *)
Definition line_char (c : Z) : Prop := 32 <= c <= 127.

#[export] Instance line_char_dec c : Decision (line_char c).
Proof. unfold line_char. apply _. Defined.

Lemma split_line_app l rest : Forall line_char l -> split_line (l ++ 10 :: rest) = (l, rest).
Proof.
  induction 1 as [|c l Hc _ IH]; simpl; [done|]. unfold line_char in Hc. rewrite (proj2 (Z.eqb_neq _ _)) by lia. by rewrite IH.
Qed.

Lemma strip_cr_id l : Forall line_char l -> strip_cr l = l.
Proof.
  intros H. unfold strip_cr. destruct (last l) as [c|] eqn:E; [|done]. apply last_Some_elem_of in E. rewrite list.Forall_forall in H. specialize (H _ E).
  unfold line_char in H. destruct c as [|c|c]; [done| |done]. do 4 (destruct c as [c|c|]; try done). lia.
Qed.

Lemma c_string_id l : Forall line_char l -> c_string l = l.
Proof. induction 1 as [|c l Hc _ IH]; simpl; [done|]. unfold line_char in Hc. rewrite (proj2 (Z.eqb_neq _ _)) by lia. by rewrite IH. Qed.

Lemma digit_line_char base c : digit_of base c -> line_char c.
Proof.
  unfold digit_of, isxdigit, isdigit, line_char. intros [H _]. rewrite !orb_true_iff, !andb_true_iff, !Z.leb_le in H. lia.
Qed.

Lemma digits_line_char base l : Forall (digit_of base) l -> Forall line_char l.
Proof. intros H. eapply Forall_impl; [exact H|]. intros c. apply digit_line_char. Qed.

Lemma escapes_chars n : line_char (default 46 (escapes !! n)).
Proof.
  assert (H : Forall line_char escapes) by (apply (bool_decide_eq_true_1 _); vm_compute; reflexivity). destruct (escapes !! n) as [c|] eqn:E; simpl; [|unfold line_char; lia].
  rewrite list.Forall_forall in H. apply H. by eapply list_elem_of_lookup_2.
Qed.

Lemma save_unit_chars c next e0 e1 : is_unit c -> Forall line_char (save_unit c next e0 e1).
Proof.
  unfold is_unit. intros Hc. unfold save_unit. fold (next_is_hex next) (next_is_octal next). destruct (127 <? c) eqn:E1; btrue.
  - destruct (padded_ok 8 16 c (if next_is_hex next then 4%nat else 1%nat) 4) as (P & _); [lia..|destruct (next_is_hex next); lia|].
    apply digits_line_char in P. apply Forall_app. split; [|exact P]. repeat constructor; unfold line_char; lia.
  - destruct (c <? 32) eqn:E2; btrue.
    + destruct (negb _) eqn:E3.
      * apply Forall_cons. split; [unfold line_char; lia|]. apply Forall_singleton, escapes_chars.
      * destruct (padded_ok 11 8 c (if next_is_octal next then 3%nat else 1%nat) 3) as (P & _); [lia..|destruct (next_is_octal next); lia|].
        apply digits_line_char in P. apply Forall_app. split; [|exact P]. repeat constructor; unfold line_char; lia.
    + apply Forall_app. split; [destruct (_ || _); repeat constructor; unfold line_char; lia|]. repeat constructor; unfold line_char; lia.
Qed.

Lemma save_str_chars str e0 e1 : Forall is_unit str -> Forall line_char (horizon_registry_save_str str e0 e1).
Proof. induction 1 as [|c str Hc _ IH]; simpl; [constructor|]. apply Forall_app. split; [by apply save_unit_chars|done]. Qed.

(** ** Memory that does not run out *)

Definition memory_ok (reg : horizon_reg) : Prop := forall n, rg_memory reg n = true.

Lemma quiet_memory reg reg' : quiet reg reg' -> memory_ok reg -> memory_ok reg'.
Proof. intros (_ & _ & _ & _ & _ & _ & E) H n. by rewrite E. Qed.

Lemma malloc_ok reg : memory_ok reg -> malloc reg = (true, with_allocs reg (S (rg_allocs reg))).
Proof. intros H. unfold malloc. by rewrite H. Qed.

(** The next line of a text whose first line is [l]. *)
Lemma next_line_ok reg loader l rest :
  memory_ok reg -> ld_text loader = l ++ 10 :: rest -> Forall line_char l ->
  exists size reg', horizon_reg_next_line reg loader = (1, mk_loader rest l size (ld_tmp_size loader), reg') /\ quiet reg reg'.
Proof.
  intros M Ht Hl. unfold horizon_reg_next_line. rewrite Ht, bool_decide_eq_false_2 by (by destruct l). rewrite split_line_app by done.
  rewrite strip_cr_id, c_string_id by done. cbv zeta. destruct (_ <? _).
  - rewrite malloc_ok by done. eexists _, _. split; [done|]. apply (malloc_quiet reg).
  - eexists _, _. split; [done|]. done.
Qed.

Lemma tmp_space_ok reg loader bytes :
  memory_ok reg -> 0 <= bytes < 0x7fffffff ->
  exists size reg', horizon_reg_tmp_space reg loader bytes = (true, mk_loader (ld_text loader) (ld_line loader) (ld_line_size loader) size, reg') /\
    quiet reg reg' /\ bytes <= size.
Proof.
  intros M Hb. unfold horizon_reg_tmp_space. cbv zeta. assert (H2 : bytes <= 2 * ((bytes + 1) / 2) <= bytes + 1) by (Z.to_euclidean_division_equations; lia).
  destruct (_ <=? ld_tmp_size loader) eqn:E; btrue.
  - exists (ld_tmp_size loader), reg. split_and!; [by destruct loader|done|lia].
  - rewrite (proj2 (Z.ltb_ge _ _)) by lia. rewrite malloc_ok by done. eexists _, _. split_and!; [done|apply (malloc_quiet reg)|lia].
Qed.

(** ** Numbers *)

Lemma isspace_digit base c : digit_of base c -> isspace c = false /\ c <> 45 /\ c <> 43 /\ c <> 120 /\ c <> 88.
Proof.
  unfold digit_of, isxdigit, isdigit, isspace. intros [H _]. rewrite !orb_true_iff, !andb_true_iff, !Z.leb_le in H. split; [|lia].
  apply orb_false_iff. split; [apply Z.eqb_neq; lia|]. apply andb_false_iff. rewrite !Z.leb_gt. lia.
Qed.

Lemma number_run_ok l rest start :
  Forall (digit_of 16) l -> stops isxdigit rest -> 0 <= start -> digit_value 16 l start <= ULONG_MAX ->
  number_run isxdigit 16 (l ++ rest) start = (digit_value 16 l start, rest).
Proof.
  intros Hl Hs. revert start. induction Hl as [|c l Hc Hl IH]; intros start H0 Hm; simpl app.
  - destruct rest as [|c rest]; [done|]. simpl in *. by rewrite Hs.
  - simpl number_run. rewrite (proj1 Hc). pose proof (digit_value_step 16 c l start ltac:(lia) H0 Hc Hl). rewrite Z.min_l by lia.
    destruct Hc as [_ Hc]. rewrite IH; [done|nia|exact Hm].
Qed.

(** Digits that end where something else starts are a number. *)
Lemma strtoul16_ok l rest :
  Forall (digit_of 16) l -> l <> [] -> stops isxdigit rest -> head rest <> Some 120 -> head rest <> Some 88 -> digit_value 16 l 0 <= ULONG_MAX ->
  strtoul16 (l ++ rest) = (digit_value 16 l 0, rest).
Proof.
  intros Hl Hne Hs Hx HX Hm. destruct l as [|c l]; [done|]. pose proof Hl as Hl'. apply Forall_cons in Hl as [Hc Hl].
  destruct (isspace_digit 16 c Hc) as (H1 & H2 & H3 & H4 & H5). unfold strtoul16, number. cbn [app]. cbn [skip_spaces]. rewrite H1.
  rewrite (proj2 (Z.eqb_neq c 45)), (proj2 (Z.eqb_neq c 43)) by done.
  assert (Hq : match l ++ rest with x :: ((d :: _) as r) => if true && (c =? 48) && ((x =? 120) || (x =? 88)) && isxdigit d then r else c :: l ++ rest | _ => c :: l ++ rest end = c :: l ++ rest).
  { destruct l as [|d l]; simpl app.
    - destruct rest as [|x [|d rest]]; [done|done|]. simpl in Hx, HX. rewrite (proj2 (Z.eqb_neq x 120)), (proj2 (Z.eqb_neq x 88)) by congruence. by rewrite andb_false_r.
    - apply Forall_cons in Hl as [Hd _]. destruct (isspace_digit 16 d Hd) as (_ & _ & _ & D1 & D2).
      rewrite (proj2 (Z.eqb_neq d 120)), (proj2 (Z.eqb_neq d 88)) by done. rewrite andb_false_r. by destruct (l ++ rest). }
  match goal with |- context [number_run isxdigit 16 ?q 0] => replace q with ((c :: l) ++ rest) end.
  rewrite number_run_ok by (done || lia). assert (HL : (length rest =? length ((c :: l) ++ rest))%nat = false) by (apply Nat.eqb_neq; rewrite length_app; simpl; lia).
  rewrite HL. rewrite (proj2 (Z.ltb_ge _ _)) by done. done.
Qed.

(** ** Bytes in hexadecimal *)

Definition is_byte (b : Z) : Prop := 0 <= b < 256.

(** The first line of the bytes, and the bytes after it. *)
Fixpoint first_line (data : list Z) (count : Z) : list Z * list Z :=
  match data with
  | [] => ([], [])
  | b :: [] => (print_hex 2 b, [])
  | b :: (_ :: _) as rest =>
      if 76 <? count + 2 + 1 then (print_hex 2 b ++ [44; 92], rest)
      else let '(l, rest) := first_line rest (count + 2 + 1) in (print_hex 2 b ++ 44 :: l, rest)
  end.

Lemma first_line_cons b b' data count :
  first_line (b :: b' :: data) count =
  if 76 <? count + 2 + 1 then (print_hex 2 b ++ [44; 92], b' :: data)
  else let '(l, rest) := first_line (b' :: data) (count + 2 + 1) in (print_hex 2 b ++ 44 :: l, rest).
Proof. done. Qed.

Lemma save_bytes_first data count :
  save_bytes data count = fst (first_line data count) ++ match snd (first_line data count) with [] => [] | rest => [10; 32; 32] ++ save_bytes rest 2 end.
Proof.
  revert count. induction data as [|b data IH]; intros count; [done|]. destruct data as [|b' data]; [done|].
  change (save_bytes (b :: b' :: data) count) with (print_hex 2 b ++ 44 :: (if 76 <? count + 2 + 1 then [92; 10; 32; 32] ++ save_bytes (b' :: data) 2 else save_bytes (b' :: data) (count + 2 + 1))).
  rewrite first_line_cons. destruct (76 <? count + 2 + 1).
  - cbn [fst snd]. by rewrite <- (assoc_L (++)).
  - rewrite IH. destruct (first_line (b' :: data) (count + 2 + 1)) as [l rest]. cbn [fst snd]. by rewrite <- (assoc_L (++)).
Qed.

Lemma byte_hex b : is_byte b -> Forall (digit_of 16) (print_hex 2 b) /\ digit_value 16 (print_hex 2 b) 0 = b /\ length (print_hex 2 b) = 2%nat.
Proof. intros Hb. destruct (padded_ok 8 16 b 2 2) as (P1 & P2 & P3 & P4); [lia|unfold is_byte in Hb; lia|lia|lia|]. split_and!; [done..|]. unfold print_hex. lia. Qed.

(** Reading a byte and the comma after it. *)
Lemma parse_hex_byte fuel len b rest :
  is_byte b -> 0 < len -> stops isxdigit rest -> head rest <> Some 120 -> head rest <> Some 88 ->
  parse_hex_loop (S fuel) len (print_hex 2 b ++ rest) =
  ('(bytes, r) ← parse_hex_loop fuel (len - 1) (skip_spaces (skip_comma (skip_spaces rest))); Some (b :: bytes, r)).
Proof.
  intros Hb Hl Hs Hx HX. destruct (byte_hex b Hb) as (P1 & P2 & P3).
  assert (Hne : print_hex 2 b <> []) by (intros E; by rewrite E in P3).
  assert (Hm : digit_value 16 (print_hex 2 b) 0 <= ULONG_MAX) by (rewrite P2; unfold is_byte in Hb; unfold ULONG_MAX, UINT64_MAX; lia).
  pose proof (strtoul16_ok (print_hex 2 b) rest P1 Hne Hs Hx HX Hm) as Hu. rewrite P2 in Hu. clear Hm.
  assert (HL : (length rest =? length (print_hex 2 b ++ rest))%nat = false) by (apply Nat.eqb_neq; rewrite length_app; lia).
  clear P2 P3. destruct (print_hex 2 b) as [|c l] eqn:E; [done|]. cbn [app parse_hex_loop] in *. apply Forall_cons in P1 as [[Hc _] _]. rewrite Hc. cbn [negb].
  rewrite Hu, HL. unfold is_byte in Hb. rewrite (proj2 (Z.ltb_ge 255 b)), (proj2 (Z.leb_gt len 0)) by lia. cbn [orb]. done.
Qed.

Lemma first_line_head data count : Forall is_byte data -> data <> [] -> exists c l, fst (first_line data count) = c :: l /\ digit_of 16 c.
Proof.
  intros Hd Hne. destruct data as [|b data]; [done|]. apply Forall_cons in Hd as [Hb _]. destruct (byte_hex b Hb) as (P1 & _ & P3).
  destruct (print_hex 2 b) as [|c l] eqn:E; [done|]. apply Forall_cons in P1 as [Hc _].
  assert (H : exists l', fst (first_line (b :: data) count) = print_hex 2 b ++ l').
  { destruct data as [|b' data]; [exists []; by rewrite app_nil_r|]. rewrite first_line_cons. destruct (76 <? _); [by eexists|]. destruct (first_line (b' :: data) _). by eexists. }
  destruct H as [l' ->]. rewrite E. by eexists _, _.
Qed.

(** The bytes of the first line are read up to the backslash of the next. *)
Lemma first_line_snd data count : (length (snd (first_line data count)) <= pred (length data))%nat.
Proof.
  revert count. induction data as [|b data IH]; intros count; [done|]. destruct data as [|b' data]; [simpl; lia|]. rewrite first_line_cons. destruct (76 <? _); [simpl; lia|].
  specialize (IH (count + 2 + 1)). destruct (first_line (b' :: data) (count + 2 + 1)). simpl in *. lia.
Qed.

Lemma first_line_parse data count fuel len :
  Forall is_byte data -> (length data < fuel + length (snd (first_line data count)))%nat -> Z.of_nat (length data) - Z.of_nat (length (snd (first_line data count))) <= len ->
  exists taken, data = taken ++ snd (first_line data count) /\ (data <> [] -> taken <> []) /\
    parse_hex_loop fuel len (fst (first_line data count)) = Some (taken, match snd (first_line data count) with [] => [] | _ :: _ => [92] end).
Proof.
  revert count fuel len. induction data as [|b data IH]; intros count fuel len Hd Hf Hl.
  - destruct fuel; [simpl in Hf; lia|]. by exists [].
  - apply Forall_cons in Hd as [Hb Hd]. destruct data as [|b' data].
    + destruct fuel as [|fuel]; [simpl in Hf; lia|]. exists [b]. split_and!; [done|done|]. cbn [first_line fst snd] in *. simpl in Hl. rewrite <- (app_nil_r (print_hex 2 b)), parse_hex_byte by (done || lia).
      destruct fuel; [simpl in Hf; lia|]. done.
    + rewrite first_line_cons in *. destruct (76 <? count + 2 + 1).
      * cbn [fst snd] in *. simpl length in Hl, Hf. destruct fuel as [|fuel]; [lia|]. exists [b]. split_and!; [done|done|]. rewrite parse_hex_byte by (done || lia).
        destruct fuel; [simpl in Hf; lia|]. done.
      * pose proof (first_line_head (b' :: data) (count + 2 + 1) Hd ltac:(done)) as (c & l & Eh & Hc).
        destruct (first_line (b' :: data) (count + 2 + 1)) as [line rest] eqn:E. cbn [fst snd] in *.
        pose proof (IH (count + 2 + 1) (pred fuel) (len - 1) Hd) as IH'. rewrite E in IH'. cbn [fst snd] in IH'. simpl length in *.
        assert (Hrest : (length rest <= length (b' :: data))%nat) by (pose proof (first_line_snd (b' :: data) (count + 2 + 1)) as H; rewrite E in H; simpl in *; lia).
        simpl length in Hrest. destruct fuel as [|fuel]; [lia|]. destruct IH' as (taken & E1 & E2 & E3); [simpl in *; lia|simpl length in *; lia|]. exists (b :: taken). split_and!; [by rewrite E1|done|].
        assert (Hlen : 0 < len) by lia.
        rewrite parse_hex_byte by done. change (skip_comma (skip_spaces (44 :: line))) with line. rewrite Eh in *. cbn [skip_spaces]. destruct (isspace_digit 16 c Hc) as [-> _].
        cbn [pred] in E3. rewrite E3. done.
Qed.

Lemma first_line_length data count :
  Forall is_byte data ->
  2 * (Z.of_nat (length data) - Z.of_nat (length (snd (first_line data count)))) <= Z.of_nat (length (fst (first_line data count))) <= 4 * Z.of_nat (length data).
Proof.
  revert count. induction data as [|b data IH]; intros count Hd; [done|]. apply Forall_cons in Hd as [Hb Hd]. destruct (byte_hex b Hb) as (_ & _ & HL).
  destruct data as [|b' data]; [cbn [first_line fst snd length]; rewrite HL; lia|]. rewrite first_line_cons. destruct (76 <? _).
  - cbn [fst snd]. rewrite length_app, HL. simpl length. lia.
  - specialize (IH (count + 2 + 1) Hd). destruct (first_line (b' :: data) (count + 2 + 1)). cbn [fst snd] in *. rewrite length_app, HL. simpl length in *. lia.
Qed.

Lemma first_line_chars data count : Forall is_byte data -> Forall line_char (fst (first_line data count)).
Proof.
  revert count. induction data as [|b data IH]; intros count Hd; [constructor|]. apply Forall_cons in Hd as [Hb Hd]. destruct (byte_hex b Hb) as (HP & _).
  apply digits_line_char in HP. destruct data as [|b' data]; [exact HP|]. rewrite first_line_cons. destruct (76 <? _).
  - cbn [fst]. apply Forall_app. split; [done|]. repeat constructor; unfold line_char; lia.
  - specialize (IH (count + 2 + 1) Hd). destruct (first_line (b' :: data) (count + 2 + 1)). cbn [fst] in *. apply Forall_app. split; [done|].
    constructor; [unfold line_char; lia|done].
Qed.

(** The text after the first line of the bytes. *)
Definition after_line (rest_data rest : list Z) : list Z :=
  match rest_data with [] => rest | _ :: _ => [32; 32] ++ save_bytes rest_data 2 ++ 10 :: rest end.

Lemma save_bytes_line data count rest :
  save_bytes data count ++ 10 :: rest = fst (first_line data count) ++ 10 :: after_line (snd (first_line data count)) rest.
Proof. rewrite save_bytes_first. destruct (snd (first_line data count)); [by rewrite app_nil_r|]. rewrite <- (assoc_L (++)). done. Qed.

Lemma save_bytes_length data count : (length data <= length (save_bytes data count))%nat.
Proof.
  revert count. induction data as [|b data IH]; intros count; [done|]. cbn [save_bytes]. rewrite length_app.
  assert (2 <= length (print_hex 2 b))%nat by (unfold print_hex, padded; rewrite length_app, length_replicate; lia).
  destruct data as [|b' data]; [simpl; lia|]. cbn [length] in *. destruct (76 <? _); [rewrite length_app; specialize (IH 2)|specialize (IH (count + 2 + 1))]; simpl length in *; lia.
Qed.

Lemma hex_lines_ok fuel data count acc reg loader rest :
  memory_ok reg -> Forall is_byte data -> ld_text loader = after_line (snd (first_line data count)) rest -> (length (snd (first_line data count)) < fuel)%nat ->
  Z.of_nat (length acc) + 4 * Z.of_nat (length data) < 0x70000000 ->
  exists loader' reg', hex_lines fuel reg loader (fst (first_line data count)) acc = Some (Some (acc ++ data), loader', reg') /\ ld_text loader' = rest /\ quiet reg reg'.
Proof.
  revert data count acc reg loader. induction fuel as [|fuel IH]; intros data count acc reg loader M Hd Ht Hf Hb; [lia|].
  pose proof (first_line_length data count Hd) as HL. cbn [hex_lines]. cbv zeta.
  set (room := 1 + Z.of_nat (length (fst (first_line data count))) / 2).
  assert (Hroom : Z.of_nat (length data) - Z.of_nat (length (snd (first_line data count))) <= room /\ 0 <= room <= 1 + 2 * Z.of_nat (length data)).
  { subst room. Z.to_euclidean_division_equations. lia. }
  destruct (tmp_space_ok reg loader (Z.of_nat (length acc) + room) M ltac:(lia)) as (size & r1 & -> & Q1 & _). cbn [negb]. cbv iota.
  destruct (first_line_parse data count (S (length (fst (first_line data count)))) room Hd) as (taken & E1 & E2 & E3); [lia|lia|].
  unfold horizon_reg_parse_hex. rewrite E3. destruct (snd (first_line data count)) as [|b rest_data] eqn:Es.
  - rewrite app_nil_r in E1. subst taken. cbn [skip_spaces]. eexists _, _. split; [done|]. simpl. done.
  - change (skip_spaces [92]) with [92]. cbv iota. change (negb (92 =? 92)) with false. cbv iota.
    assert (Hrd : Forall is_byte (b :: rest_data)) by (rewrite E1 in Hd; by apply Forall_app in Hd as [_ ?]).
    assert (Hlen : length data = (length taken + S (length rest_data))%nat) by (rewrite E1, length_app; done).
    assert (Htk : (0 < length taken)%nat) by (destruct taken; [|simpl; lia]; destruct data; [done|]; by destruct E2).
    destruct (next_line_ok r1 (mk_loader (ld_text loader) (ld_line loader) (ld_line_size loader) size) ([32; 32] ++ fst (first_line (b :: rest_data) 2))
      (after_line (snd (first_line (b :: rest_data) 2)) rest)) as (size2 & r2 & -> & Q2).
    { by eapply quiet_memory. } { simpl ld_text. rewrite Ht. unfold after_line at 1. rewrite save_bytes_line. by rewrite <- (assoc_L (++)). }
    { apply Forall_app. split; [repeat constructor; unfold line_char; lia|by apply first_line_chars]. }
    change (negb (1 =? 1)) with false. cbv iota. cbn [ld_line ld_tmp_size].
    destruct (first_line_head (b :: rest_data) 2 Hrd ltac:(done)) as (c & l & Eh & Hc).
    assert (Esk : skip_spaces ([32; 32] ++ fst (first_line (b :: rest_data) 2)) = fst (first_line (b :: rest_data) 2)).
    { rewrite Eh. simpl. by destruct (isspace_digit 16 c Hc) as [-> _]. }
    rewrite Esk. destruct (IH (b :: rest_data) 2 (acc ++ taken) r2 (mk_loader (after_line (snd (first_line (b :: rest_data) 2)) rest) ([32; 32] ++ fst (first_line (b :: rest_data) 2)) size2 size))
      as (l' & r' & -> & Hl' & Q'); [apply (quiet_memory r1); [done|by apply (quiet_memory reg)]|done|done|pose proof (first_line_snd (b :: rest_data) 2); simpl in *; lia|rewrite length_app; simpl length; lia|].
    eexists _, _. split; [by rewrite <- (assoc_L (++)), <- E1|]. split; [done|]. transitivity r2; [|done]. by transitivity r1.
Qed.

(** ** Bytes of strings and numbers *)

Lemma units_of_bytes n data :
  Forall is_byte data -> (length data = 2 * n)%nat -> units_bytes (bytes_units data) = data /\ Forall is_unit (bytes_units data) /\ length (bytes_units data) = n.
Proof.
  revert data. induction n as [|n IH]; intros data Hd Hl.
  - destruct data; [|simpl in Hl; lia]. done.
  - destruct data as [|a [|b data]]; [simpl in Hl; lia|simpl in Hl; lia|]. apply Forall_cons in Hd as [Ha Hd]. apply Forall_cons in Hd as [Hb Hd].
    destruct (IH data Hd) as (I1 & I2 & I3); [simpl in Hl; lia|]. unfold is_byte in Ha, Hb. cbn [bytes_units units_bytes length]. split_and!.
    + rewrite I1. f_equal; [|f_equal]; Z.to_euclidean_division_equations; lia.
    + constructor; [unfold is_unit; lia|done].
    + by rewrite I3.
Qed.

Lemma dword_roundtrip data : Forall is_byte data -> length data = 4%nat -> dword_bytes (bytes_dword data) = data /\ 0 <= bytes_dword data < 4294967296.
Proof.
  intros Hd Hl. destruct data as [|a [|b [|c [|d [|e data]]]]]; try done. repeat (apply Forall_cons in Hd as [? Hd]). unfold is_byte in *.
  unfold bytes_dword, dword_bytes. cbn [lookup list_lookup default from_option id]. cbn. split; [|lia]. repeat (f_equal; [Z.to_euclidean_division_equations; lia|]).
  f_equal; Z.to_euclidean_division_equations; lia.
Qed.

(** ** Types *)

Lemma data_type_hex l rest :
  Forall (digit_of 16) l -> l <> [] -> digit_value 16 l 0 < 4294967296 ->
  horizon_reg_data_type (text "hex(" ++ l ++ text "):" ++ rest) = Some (digit_value 16 l 0, HORIZON_REG_BINARY, rest).
Proof.
  intros Hl Hne Hm. change (text "hex(") with [104; 101; 120; 40]. change (text "):") with [41; 58]. unfold horizon_reg_data_type, types.
  cbn [data_type_loop app]. change (starts_with [QUOTE] _) with false. cbn [negb]. cbv iota.
  change (starts_with (text "str:" ++ [QUOTE]) _) with false. cbn [negb]. cbv iota. change (starts_with (text "str(2):" ++ [QUOTE]) _) with false. cbn [negb]. cbv iota.
  change (starts_with (text "str(7):" ++ [QUOTE]) _) with false. cbn [negb]. cbv iota. change (starts_with (text "hex:") _) with false. cbn [negb]. cbv iota.
  change (starts_with (text "dword:") _) with false. cbn [negb]. cbv iota. change (starts_with (text "hex(") _) with true. cbn [negb Z.eqb]. cbv iota.
  change (negb (1 =? 1)%positive) with false. cbv iota. cbn [drop]. rewrite drop_0. destruct (digit_value_bound 16 l 0) as [Hv _]; [lia|lia|done|].
  rewrite strtoul16_ok; [|done|done|done|done|done|unfold ULONG_MAX, UINT64_MAX; lia].
  rewrite (proj2 (Nat.leb_gt _ _)) by (rewrite length_app; destruct l; [done|]; simpl; lia). cbn [orb].
  change (starts_with (text "):") (41 :: 58 :: rest)) with true. cbn [negb]. cbv iota. by rewrite u32_small by (unfold is_u32; lia).
Qed.

(** A value whose parts are in range. *)
Record value_ok (v : horizon_reg_value) : Prop := {
  vo_name : Forall is_unit (v_name v);
  vo_short : bytes_len (v_name v) <= HORIZON_REG_MAX_VALUE;
  vo_type : 0 <= v_type v < 4294967296;
  vo_data : Forall is_byte (v_data v);
  vo_size : Z.of_nat (length (v_data v)) < 0x10000000;
}.

(** The text of a value's type and data, [n] characters into the line: the
    first line, and what follows its end. *)
Definition data_lines (v : horizon_reg_value) (n : nat) (rest : list Z) : list Z * list Z :=
  if is_string_value v then
    let units := bytes_units (v_data v) in
    (string_tag (v_type v) ++ [QUOTE] ++ horizon_registry_save_str (take (length units - 1) units) QUOTE QUOTE ++ [QUOTE], rest)
  else if (v_type v =? HORIZON_REG_DWORD) && (length (v_data v) =? 4)%nat then (text "dword:" ++ print_hex 8 (bytes_dword (v_data v)), rest)
  else
    let tag := if v_type v =? HORIZON_REG_BINARY then text "hex:" else text "hex(" ++ print_hex 1 (v_type v) ++ text "):" in
    (tag ++ fst (first_line (v_data v) (Z.of_nat (n + length tag))), after_line (snd (first_line (v_data v) (Z.of_nat (n + length tag)))) rest).

Definition name_text (v : horizon_reg_value) : list Z :=
  match v_name v with [] => text "@=" | _ :: _ => [QUOTE] ++ horizon_registry_save_str (v_name v) QUOTE QUOTE ++ [QUOTE; 61] end.

Lemma save_value_lines v rest :
  horizon_registry_save_value v ++ rest = (name_text v ++ fst (data_lines v (length (name_text v)) rest)) ++ 10 :: snd (data_lines v (length (name_text v)) rest).
Proof.
  unfold horizon_registry_save_value. fold (name_text v). cbv zeta. unfold data_lines. rewrite <- !(assoc_L (++)). f_equal. destruct (is_string_value v).
  - cbn [fst snd]. rewrite <- !(assoc_L (++)). done.
  - destruct (_ && _); cbn [fst snd]; [by rewrite <- !(assoc_L (++))|].
    rewrite <- !(assoc_L (++)). f_equal. change ([10] ++ rest) with (10 :: rest). apply save_bytes_line.
Qed.

Lemma good_quote : good_escape QUOTE.
Proof. apply (bool_decide_eq_true_1 _). vm_compute. reflexivity. Qed.

Lemma type_hex t : 0 <= t < 4294967296 -> Forall (digit_of 16) (print_hex 1 t) /\ print_hex 1 t <> [] /\ digit_value 16 (print_hex 1 t) 0 = t.
Proof.
  intros Ht. destruct (padded_ok 8 16 t 1 8) as (P1 & P2 & P3 & _); [lia..|]. fold (print_hex 1 t) in *. split_and!; [done| |done]. intros E. rewrite E in P3. simpl in P3. lia.
Qed.

Lemma data_line_starts v n rest : value_ok v -> exists c l, fst (data_lines v n rest) = c :: l /\ isspace c = false.
Proof.
  intros [_ _ Ht _ _]. unfold data_lines. destruct (is_string_value v).
  - unfold string_tag. destruct (negb _); eexists _, _; (split; [done|done]).
  - destruct (_ && _); [by eexists _, _|]. cbv zeta. destruct (v_type v =? HORIZON_REG_BINARY); by eexists _, _.
Qed.

Lemma data_line_chars v n rest : value_ok v -> Forall line_char (fst (data_lines v n rest)).
Proof.
  intros [_ _ Ht Hd _]. unfold data_lines. destruct (is_string_value v) eqn:Es.
  - cbv zeta. cbn [fst]. unfold is_string_value in Es. btrue. assert (Hu : Forall is_unit (bytes_units (v_data v))).
    { apply (units_of_bytes (Z.to_nat (Z.of_nat (length (v_data v)) / 2)) (v_data v) Hd). Z.to_euclidean_division_equations. lia. }
    apply Forall_app. split; [|apply Forall_app; split; [repeat constructor; unfold line_char, QUOTE; lia|]].
    + unfold string_tag. destruct (negb _); [|constructor]. destruct (type_hex (v_type v) Ht) as (P & _). apply digits_line_char in P.
      apply Forall_app; split; [decide_true|]. apply Forall_app; split; [done|decide_true].
    + apply Forall_app. split; [apply save_str_chars; by apply Forall_take|repeat constructor; unfold line_char, QUOTE; lia].
  - destruct (_ && _) eqn:E; cbn [fst].
    + btrue. destruct (dword_roundtrip (v_data v) Hd) as [_ Hb]; [by apply Nat.eqb_eq|]. destruct (padded_ok 8 16 (bytes_dword (v_data v)) 8 8) as (P & _); [lia..|].
      apply digits_line_char in P. apply Forall_app. split; [decide_true|exact P].
    + apply Forall_app. split; [|by apply first_line_chars]. destruct (v_type v =? HORIZON_REG_BINARY); [decide_true|]. destruct (type_hex (v_type v) Ht) as (P & _). apply digits_line_char in P.
      apply Forall_app; split; [decide_true|]. apply Forall_app; split; [done|decide_true].
Qed.

Lemma last_split {A} (l : list A) x : last l = Some x -> l = take (length l - 1) l ++ [x].
Proof.
  intros H. apply last_Some in H as [l' ->]. rewrite length_app. simpl. rewrite Nat.add_sub. by rewrite take_app_length.
Qed.

Lemma data_type_string t rest :
  t = HORIZON_REG_SZ \/ t = HORIZON_REG_EXPAND_SZ \/ t = HORIZON_REG_MULTI_SZ ->
  horizon_reg_data_type (string_tag t ++ QUOTE :: rest) = Some (t, HORIZON_REG_SZ, rest).
Proof. by intros [-> |[-> | ->]]. Qed.

Lemma value_data_ok v n rest reg loader :
  memory_ok reg -> value_ok v -> ld_text loader = snd (data_lines v n rest) -> 2 * (Z.of_nat (length (fst (data_lines v n rest))) + 1) <= ld_tmp_size loader ->
  exists loader' reg', value_data reg loader (fst (data_lines v n rest)) = Some (Some (v_type v, v_data v), loader', reg') /\ ld_text loader' = rest /\ quiet reg reg'.
Proof.
  intros M [_ _ Ht Hd Hsz] Htext Htmp. unfold value_data. revert Htext Htmp. unfold data_lines. destruct (is_string_value v) eqn:Es.
  - cbv zeta. cbn [fst snd]. intros Htext Htmp. unfold is_string_value in Es. apply andb_true_iff in Es as [[[Et El]%andb_true_iff Em]%andb_true_iff Ez]. btrue.
    destruct (units_of_bytes (Z.to_nat (Z.of_nat (length (v_data v)) / 2)) (v_data v) Hd) as (U1 & U2 & _); [Z.to_euclidean_division_equations; lia|].
    apply last_split in Ez. set (units := take (length (bytes_units (v_data v)) - 1) (bytes_units (v_data v))) in *.
    assert (Hu : Forall is_unit units) by (by apply Forall_take). clearbody units. cbn [app]. rewrite data_type_string; [|rewrite !orb_true_iff, !Z.eqb_eq in Et; tauto].
    change (HORIZON_REG_SZ =? HORIZON_REG_SZ) with true. cbv iota. rewrite parse_saved; [|done|apply good_quote|apply good_quote|by left|].
    + rewrite <- Ez, U1. by exists loader, reg.
    + pose proof (save_str_length units QUOTE QUOTE). unfold bytes_len. rewrite !length_app in Htmp. lia.
  - destruct (_ && _) eqn:Ed; cbn [fst snd].
    + intros Htext _. btrue. apply Nat.eqb_eq in H0. destruct (dword_roundtrip (v_data v) Hd H0) as [D1 D2].
      destruct (padded_ok 8 16 (bytes_dword (v_data v)) 8 8) as (P1 & P2 & P3 & _); [lia..|]. fold (print_hex 8 (bytes_dword (v_data v))) in *.
      set (l := print_hex 8 (bytes_dword (v_data v))) in *. change (horizon_reg_data_type (text "dword:" ++ l)) with (Some (HORIZON_REG_DWORD, HORIZON_REG_DWORD, l)).
      cbv iota. change (HORIZON_REG_DWORD =? HORIZON_REG_SZ) with false. change (HORIZON_REG_DWORD =? HORIZON_REG_DWORD) with true. cbv iota.
      pose proof (strtoul16_ok l [] P1) as Hs. rewrite app_nil_r in Hs. rewrite Hs; [|intros E; rewrite E in P3; simpl in P3; lia|done|done|done|unfold ULONG_MAX, UINT64_MAX; lia].
      cbn [fst]. rewrite P2, u32_small by done. rewrite D1, <- H. by exists loader, reg.
    + clear Ed. intros Htext Htmp. set (tag := if v_type v =? HORIZON_REG_BINARY then text "hex:" else text "hex(" ++ print_hex 1 (v_type v) ++ text "):") in *.
      assert (Htag : forall r, horizon_reg_data_type (tag ++ r) = Some (v_type v, HORIZON_REG_BINARY, r)).
      { intros r. subst tag. destruct (v_type v =? HORIZON_REG_BINARY) eqn:E; btrue; [by rewrite E|]. destruct (type_hex (v_type v) Ht) as (T1 & T2 & T3).
        rewrite <- !(assoc_L (++)). rewrite data_type_hex by (done || lia). by rewrite T3. }
      rewrite Htag. change (HORIZON_REG_BINARY =? HORIZON_REG_SZ) with false. change (HORIZON_REG_BINARY =? HORIZON_REG_DWORD) with false. cbv iota.
      destruct (hex_lines_ok (S (length (ld_text loader))) (v_data v) (Z.of_nat (n + length tag)) [] reg loader rest) as (l' & r' & -> & Hl & Q);
        [done|done|done| |simpl length; lia|].
      * rewrite Htext. unfold after_line. destruct (snd _) as [|b d]; [simpl; lia|]. rewrite !length_app. pose proof (save_bytes_length (b :: d) 2). simpl length in *. lia.
      * cbn [mbind option_bind app]. eauto.
Qed.

(** ** A value through a file *)

Lemma insert_value_status reg key name i status reg' :
  memory_ok reg -> bytes_len name <= HORIZON_REG_MAX_VALUE -> horizon_reg_insert_value reg key name i = Some (status, reg') -> status = HORIZON_REG_SUCCESS.
Proof.
  intros M Hn. unfold horizon_reg_insert_value. destruct (rg_keys reg !! key) as [k|]; [|done]. cbn [mbind option_bind]. rewrite (proj2 (Z.ltb_ge _ _)) by done.
  unfold malloc. cbv zeta. destruct (_ =? k_value_max k); case_bool_decide; cbn; rewrite ?(M _); cbn; (destruct (_ || _); [done|]); by intros [= <- _].
Qed.

(** The place of a value in the array of a key, made when it is not there. *)
Lemma value_place reg held key k name :
  reg_wf reg held -> reg_fits reg -> memory_ok reg -> rg_keys reg !! key = Some k -> bytes_len name <= HORIZON_REG_MAX_VALUE ->
  exists value index reg1 k1 v1, horizon_reg_find_value k name = Some (value, index) /\
    (if bool_decide (is_Some value) then Some (HORIZON_REG_SUCCESS, reg) else horizon_reg_insert_value reg key name index) = Some (HORIZON_REG_SUCCESS, reg1) /\
    memory_ok reg1 /\ rg_keys reg1 !! key = Some k1 /\ k_values k1 !! Z.to_nat index = Some v1 /\
    (forall key', key' <> key -> rg_keys reg1 !! key' = rg_keys reg !! key') /\
    forall reg2 type data, quiet reg1 reg2 -> exists l max, store_value reg2 key index type data = Some (put_key reg2 key (k_with_values k l max)) /\
      reg_wf (put_key reg2 key (k_with_values k l max)) held /\ values_set (k_values k) l name type data /\
      ((forall v, v ∈ k_values k -> ~ name_eq (v_name v) name) -> mk_value name type data ∈ l).
Proof.
  intros W F M Hk Hn. destruct (wf_keys _ _ W _ _ Hk) as [K1 K2 K3 K4 K5 K6 K7 K8 [K9 K9'] K10].
  destruct (find_value_wf reg held key k name W F Hk) as (r & i & E & Hf). destruct r as [v|].
  - destruct Hf as (H0 & Hi & He). exists (Some v), i, reg, k, v. rewrite bool_decide_eq_true_2 by eauto. split_and!; try done.
    intros reg2 type data Q. destruct (values_updated (k_values k) (Z.to_nat i) v name type data K7 Hi He) as [V1 V2].
    exists (<[Z.to_nat i := mk_value (v_name v) type data]> (k_values k)), (k_value_max k).
    unfold store_value. rewrite (quiet_keys _ _ Q), Hk. cbn [mbind option_bind]. rewrite Hi. split_and!; [done| |done|].
    + apply values_wf; [by eapply quiet_wf|by rewrite (quiet_keys _ _ Q)|done|by rewrite length_insert].
    + intros Hno. destruct (Hno v); [by eapply list_elem_of_lookup_2|done].
  - assert (Hi : 0 <= i <= Z.of_nat (length (k_values k))) by (destruct Hf as [Hf _]; by rewrite length_map in Hf).
    destruct (insert_value_spec reg held key k name i W F Hk Hf) as (status & r0 & max & Q0 & [(Hs & _ & E2)|(-> & Hr & E2)]).
    { destruct Hs. by eapply insert_value_status. }
    exists None, i, (put_key r0 key (k_with_values k (insert_at (k_values k) i (mk_value name HORIZON_REG_NONE [])) max)). rewrite bool_decide_eq_false_2 by (by intros [? ?]).
    eexists _, (mk_value name HORIZON_REG_NONE []). split; [done|]. split; [done|]. split; [apply (quiet_memory _ _ Q0 M)|]. split; [apply lookup_insert_eq|]. split; [by apply lookup_insert_at|].
    split; [intros key' Hne; simpl; rewrite lookup_insert_ne by done; by rewrite (quiet_keys _ _ Q0)|]. intros reg2 type data Q2.
    destruct (values_inserted (k_values k) i name type data K7 Hf) as [V1 V2]. exists (insert_at (k_values k) i (mk_value name type data)), max.
    unfold store_value. rewrite (quiet_keys _ _ Q2). cbn [rg_keys put_key with_keys]. rewrite lookup_insert_eq. cbn [mbind option_bind k_values k_with_values].
    rewrite lookup_insert_at by done. cbn [mbind option_bind v_name k_value_max k_with_values]. rewrite update_insert_at by done. split_and!; [done| |done|].
    + set (l := insert_at (k_values k) i (mk_value name type data)) in *.
      apply (reg_like_wf (put_key r0 key (k_with_values k l max))).
      * apply reg_like_intro; [simpl; symmetry; apply Q2|]. intros key'. simpl. rewrite (quiet_keys _ _ Q2). simpl. rewrite insert_insert_eq. reflexivity.
      * apply values_wf; [by eapply quiet_wf|by rewrite (quiet_keys _ _ Q0)|done|subst l; by rewrite length_insert_at].
    + intros _. apply elem_of_insert_at. by left.
Qed.

Lemma data_lines_fst v n rest rest' : fst (data_lines v n rest) = fst (data_lines v n rest').
Proof. unfold data_lines. destruct (is_string_value v); [done|]. by destruct (_ && _). Qed.

(** The first line of a value, as the writer makes it. *)
Definition value_line (v : horizon_reg_value) (rest : list Z) : list Z := name_text v ++ fst (data_lines v (length (name_text v)) rest).

Lemma value_line_length v rest : (length (value_line v rest) <= length (horizon_registry_save_value v))%nat.
Proof.
  pose proof (save_value_lines v []) as E. rewrite app_nil_r in E. rewrite E, length_app. unfold value_line. rewrite (data_lines_fst _ _ rest []). lia.
Qed.

Lemma value_line_chars v rest : value_ok v -> Forall line_char (value_line v rest).
Proof.
  intros V. pose proof V as [Vn _ _ _ _]. apply Forall_app. split; [|by apply data_line_chars].
  unfold name_text. destruct (v_name v) as [|c name]; [decide_true|]. apply Forall_app. split; [decide_true|]. apply Forall_app. split; [by apply save_str_chars|decide_true].
Qed.

Lemma value_line_starts v rest : skip_spaces (value_line v rest) = value_line v rest.
Proof. unfold value_line, name_text. by destruct (v_name v). Qed.

Lemma value_name_ok v rest loader :
  value_ok v -> 2 * (Z.of_nat (length (value_line v rest)) + 1) <= ld_tmp_size loader ->
  value_name loader (value_line v rest) = Some (v_name v, 61 :: fst (data_lines v (length (name_text v)) rest)).
Proof.
  intros [Vn _ _ _ _]. unfold value_line. set (d := fst (data_lines v (length (name_text v)) rest)). clearbody d. rewrite length_app. unfold value_name, name_text.
  destruct (v_name v) as [|c name]; [done|]. intros Hsz. cbn [app]. change (QUOTE =? 64) with false. cbv iota. rewrite <- !(assoc_L (++)). cbn [app].
  rewrite parse_saved; [|done|apply good_quote|apply good_quote|by left|].
  - cbn [mbind option_bind]. rewrite length_app, Nat.add_sub, take_app_length. by rewrite drop_app_add.
  - pose proof (save_str_length (c :: name) QUOTE QUOTE). unfold bytes_len. rewrite !length_app in Hsz. lia.
Qed.

(** What the reader does to a registry when it reads a value. *)
Definition value_loaded (reg reg' : horizon_reg) (held : list positive) (key : positive) (v : horizon_reg_value) : Prop :=
  exists k l max r, quiet reg r /\ rg_keys reg !! key = Some k /\ (forall key', key' <> key -> rg_keys reg' !! key' = rg_keys reg !! key') /\
    rg_keys reg' !! key = Some (k_with_values k l max) /\ values_set (k_values k) l (v_name v) (v_type v) (v_data v) /\
    ((forall v', v' ∈ k_values k -> ~ name_eq (v_name v') (v_name v)) -> v ∈ l) /\ reg_wf reg' held /\ memory_ok reg'.

Lemma load_value_ok reg held key k v loader rest :
  reg_wf reg held -> reg_fits reg -> memory_ok reg -> rg_keys reg !! key = Some k -> value_ok v ->
  ld_text loader = snd (data_lines v (length (name_text v)) rest) -> Z.of_nat (length (value_line v rest)) < 0x10000000 ->
  exists loader' reg', horizon_reg_load_value reg loader key (value_line v rest) = Some (true, loader', reg') /\ ld_text loader' = rest /\
    value_loaded reg reg' held key v.
Proof.
  intros W F M Hk V Ht Hlen. pose proof V as [Vn Vs Vt Vd Vz]. unfold horizon_reg_load_value.
  destruct (tmp_space_ok reg loader (2 * (Z.of_nat (length (value_line v rest)) + 1))) as (tmp & r2 & -> & Q2 & Hsz); [done|lia|].
  cbn [negb]. cbv iota. rewrite (value_name_ok v rest) by done. set (d := data_lines v (length (name_text v)) rest) in *.
  change (skip_spaces (61 :: fst d)) with (61 :: fst d). cbv iota.
  assert (M2 : memory_ok r2) by (by eapply quiet_memory). rewrite (quiet_keys _ _ Q2), Hk. cbn [mbind option_bind].
  destruct (value_place r2 held key k (v_name v)) as (value & index & r3 & k3 & v3 & -> & HI & M3 & Hk3 & Hv3 & Ho & Hst);
    [by eapply quiet_wf|by eapply quiet_fits|done|by rewrite (quiet_keys _ _ Q2)|done|]. cbn [mbind option_bind]. rewrite HI. cbn [mbind option_bind].
  change (nonzero HORIZON_REG_SUCCESS) with false. cbv iota.
  assert (Hsp : skip_spaces (fst d) = fst d). { destruct (data_line_starts v (length (name_text v)) rest V) as (c & l & E & Hc). fold d in E. rewrite E. simpl. by rewrite Hc. }
  rewrite Hsp. match goal with |- context [value_data r3 ?l _] => destruct (value_data_ok v (length (name_text v)) rest r3 l) as (l' & r4 & E4 & Hl' & Q4); [done|done|done| |] end.
  { unfold value_line in Hsz. rewrite length_app in Hsz. fold d in Hsz |- *. cbn [ld_tmp_size]. lia. }
  fold d in E4. rewrite E4. clear E4. cbn [mbind option_bind].
  assert (Hend : forall r5, quiet r3 r5 -> exists reg', (reg ← store_value r5 key index (v_type v) (v_data v); Some (true, l', reg)) = Some (true, l', reg') /\ value_loaded reg reg' held key v).
  { intros r5 Q5. destruct (Hst r5 (v_type v) (v_data v) Q5) as (l & max & -> & W5 & V5 & N5). eexists. split; [done|].
    exists k, l, max, r2. split_and!; [done|done| |apply lookup_insert_eq|done|by destruct v|done|exact (quiet_memory _ _ Q5 M3)].
    intros key' Hne. simpl. rewrite lookup_insert_ne by done. rewrite (quiet_keys _ _ Q5), Ho by done. by rewrite (quiet_keys _ _ Q2). }
  destruct (v_data v) as [|b data] eqn:Ed.
  - destruct (Hend r4 Q4) as (reg' & E & L). exists l', reg'. done.
  - rewrite malloc_ok by (by eapply quiet_memory). destruct (Hend (with_allocs r4 (S (rg_allocs r4)))) as (reg' & E & L); [etransitivity; [exact Q4|apply (malloc_quiet r4)]|].
    exists l', reg'. done.
Qed.


(** A value of forty bytes, whose text takes two lines, with a quote and a
    character beyond ASCII in its name. *)
Definition sample_value : horizon_reg_value := mk_value [97; 34; 8364] 3 (replicate 40 200).

Definition sample_loader : horizon_reg_loader := mk_loader (horizon_registry_save_value sample_value ++ [120]) [] 0 0.

