(* ===== verification/RegistryLoadSafe.v ===== *)
(** * Loading any text is safe

    [horizon_reg_load] on arbitrary bytes: it returns, whatever the text and
    whichever allocations fail, and the tree it loads into stays well formed.
    The loops of the reader end because every turn takes a character or a line
    of the text. *)
From S2P Require Import Prelude RegistryNames Registry RegistryInv RegistryTree RegistryText RegistryLoad.
From stdpp Require Import strings.
Local Open Scope Z_scope.

(** ** Strings take no more room than their text *)

Lemma read_hex_rest count p res : (length (snd (read_hex count p res)) <= length p)%nat.
Proof.
  revert p res. induction count as [|count IH]; intros [|c p] res; simpl; try lia. destruct (isxdigit c); simpl; [|lia].
  specialize (IH p (u32 (res * 16 + xdigit c))). lia.
Qed.

Lemma read_octal_rest count p res : (length (snd (read_octal count p res)) <= length p)%nat.
Proof.
  revert p res. induction count as [|count IH]; intros [|c p] res; simpl; try lia. destruct (is_octal c); simpl; [|lia].
  specialize (IH p (u32 (res * 8 + (c - 48)))). lia.
Qed.

Lemma read_utf8_rest count p res :
  let '(missing, _, rest) := read_utf8 count p res in (missing <= count)%nat /\ (length rest + count = length p + missing)%nat.
Proof.
  revert p res. induction count as [|count IH]; intros [|c p] res; cbn [read_utf8]; try lia. destruct (Z.land c 192 =? 128); [|lia].
  specialize (IH p (Z.lor (u32 (Z.shiftl res 6)) (Z.land c 63))). destruct (read_utf8 _ _ _) as [[missing r] rest]. simpl. lia.
Qed.

Lemma parse_plain_rest room c p :
  let '(units, rest) := parse_plain room (c :: p) in (length units + length rest <= S (length p))%nat /\ (length rest <= length p)%nat.
Proof.
  cbn [parse_plain]. destruct (c <? 128); [simpl; lia|]. cbv zeta.
  assert (H : forall res n, (1 <= n)%nat -> let '(units, rest) :=
      (let '(missing, res, rest) := read_utf8 n p res in
       if negb (missing =? 0)%nat || (0x10ffff <? res) then ([], rest) else if res <=? 0xffff then ([res], rest)
       else if 1 <? room then ([Z.lor 0xd800 (Z.shiftr (res - 0x10000) 10); Z.lor 0xdc00 (Z.land (res - 0x10000) 0x3ff)], rest)
       else ([Z.lor 0xd800 (Z.shiftr (res - 0x10000) 10)], rest)) in (length units + length rest <= S (length p))%nat /\ (length rest <= length p)%nat).
  { intros res n Hn. pose proof (read_utf8_rest n p res) as H. destruct (read_utf8 n p res) as [[missing r] rest]. destruct H as [H1 H2].
    destruct (missing =? 0)%nat eqn:E; cbn [negb orb]; [|simpl; lia]. apply Nat.eqb_eq in E. destruct (1114111 <? r); [simpl; lia|]. destruct (r <=? 65535); [simpl; lia|]. destruct (1 <? room); simpl; lia. }
  destruct ((240 <=? c) && (c <=? 244)); [apply (H _ 3%nat); lia|]. destruct (224 <=? c); [apply (H _ 2%nat); lia|].
  destruct (194 <=? c); [apply (H _ 1%nat); lia|]. simpl. lia.
Qed.

Lemma parse_turn_rest room c p :
  let '(units, rest) := parse_turn room (c :: p) in (length units + length rest <= S (length p))%nat /\ (length rest <= length p)%nat.
Proof.
  assert (Hp := parse_plain_rest room c p). destruct (decide (c = 92)) as [-> |Hne].
  2: { assert (E : parse_turn room (c :: p) = parse_plain room (c :: p)) by (unfold parse_turn; repeat case_match; congruence). by rewrite E. }
  destruct p as [|d p]; [simpl; lia|]. clear Hp. cbn [parse_turn]. destruct (escape_unit d); [simpl; lia|]. destruct (d =? 120).
  { destruct p as [|x p]; [simpl; lia|]. destruct (isxdigit x); [|simpl; lia]. pose proof (read_hex_rest 4 (x :: p) 0) as H.
    destruct (read_hex _ _ _) as [res rest]. cbn [fst snd length] in *. lia. }
  destruct (is_octal d) eqn:Eo.
  { change (read_octal 3 (d :: p) 0) with (if is_octal d then read_octal 2 p (u32 (0 * 8 + (d - 48))) else (0, d :: p)). rewrite Eo. match goal with |- context [read_octal ?n ?q ?r] => pose proof (read_octal_rest n q r) as H; destruct (read_octal n q r) as [res rest] end. cbn [fst snd length] in *. lia. }
  pose proof (parse_plain_rest room d p) as H. destruct (parse_plain _ _) as [units rest]. cbn [length]. lia.
Qed.

(** The loop ends within its fuel, and stores no more units than it reads
    characters. *)
Lemma parse_loop_ends fuel room p endchar :
  (length p < fuel)%nat -> exists units rest left, parse_loop fuel room p endchar = Some (units, rest, left) /\ (length units + length rest <= length p)%nat.
Proof.
  revert room p. induction fuel as [|fuel IH]; intros room p Hf; [lia|]. cbn [parse_loop]. destruct p as [|c p]; [eexists _, _, _; split; [done|simpl; lia]|].
  destruct (_ || _); [eexists _, _, _; split; [done|simpl; lia]|]. pose proof (parse_turn_rest room c p) as H.
  destruct (parse_turn room (c :: p)) as [units rest]. destruct H as [H1 H2]. simpl in Hf.
  destruct (IH (room - Z.of_nat (length units)) rest) as (more & rest' & left & -> & H3); [lia|]. cbn [mbind option_bind].
  eexists _, _, _. split; [done|]. rewrite length_app. simpl. lia.
Qed.

Lemma parse_str_length len src endchar res units :
  horizon_reg_parse_str len src endchar = Some (res, units) -> (1 <= length units)%nat /\ (length units <= length src)%nat.
Proof.
  unfold horizon_reg_parse_str. destruct (parse_loop_ends (S (length src)) (len / 2) src endchar) as (us & rest & left & -> & H); [lia|].
  cbn [mbind option_bind]. destruct (left <=? 0); [done|]. destruct rest as [|c rest]; [done|]. intros [= _ <-]. rewrite length_app. simpl in *. lia.
Qed.

(** ** The reader's buffers *)

Lemma next_line_any reg loader :
  exists got loader' reg', horizon_reg_next_line reg loader = (got, loader', reg') /\ quiet reg reg' /\
    (got = 1 /\ (length (ld_line loader') + length (ld_text loader') <= length (ld_text loader))%nat /\
       (length (ld_text loader') < length (ld_text loader))%nat \/
     (got = 0 \/ got = -1) /\ loader' = loader).
Proof.
  unfold horizon_reg_next_line. destruct loader as [t line size tmp]. cbn [ld_text ld_line ld_line_size ld_tmp_size].
  case_bool_decide as E; [eexists _, _, _; split; [done|]; split; [done|]; auto|].
  assert (Hs : forall t, let '(raw, rest) := split_line t in (length raw + length rest <= length t)%nat /\ (t <> [] -> (length rest < length t)%nat)).
  { clear. induction t as [|c t IH]; simpl; [done|]. destruct (c =? 10); simpl; [split; [lia|lia]|]. destruct (split_line t) as [raw rest]. simpl in *.
    destruct IH as [IH _]. split; [lia|]. lia. }
  specialize (Hs t). destruct (split_line t) as [raw rest]. destruct Hs as [H1 H2]. specialize (H2 E). cbv zeta.
  assert (Hc : forall l, (length (c_string l) <= length l)%nat) by (clear; induction l as [|c l IH]; simpl; [done|]; destruct (c =? 0); simpl; lia).
  assert (Hcr : (length (strip_cr raw) <= length raw)%nat) by (unfold strip_cr; repeat case_match; rewrite ?length_take; lia). specialize (Hc (strip_cr raw)).
  destruct (size <? _).
  - destruct (malloc reg) as [ok r1] eqn:Em. assert (Q : quiet reg r1) by (rewrite <- (f_equal snd Em : snd _ = r1); apply malloc_quiet).
    destruct ok; cbn [negb]; cbv iota; eexists _, _, _; (split; [done|]); (split; [done|]); [left|by right; auto]. simpl. split_and!; [done|lia|lia].
  - cbn [negb]. cbv iota. eexists _, _, _. split; [done|]. split; [done|]. left. simpl. split_and!; [done|lia|lia].
Qed.

Lemma tmp_space_any reg loader bytes :
  exists ok loader' reg', horizon_reg_tmp_space reg loader bytes = (ok, loader', reg') /\ quiet reg reg' /\ ld_text loader' = ld_text loader /\ ld_line loader' = ld_line loader.
Proof.
  unfold horizon_reg_tmp_space. cbv zeta. destruct (_ <=? _); [by eexists _, _, _|]. destruct (_ <? _); [by eexists _, _, _|].
  destruct (malloc reg) as [ok r1] eqn:Em. assert (Q : quiet reg r1) by (rewrite <- (f_equal snd Em : snd _ = r1); apply malloc_quiet).
  destruct ok; by eexists _, _, _.
Qed.

(** ** What a load keeps *)

(** Room for [n] more keys, and for [n] more values in every key. *)
Definition budget (reg : horizon_reg) (n : Z) : Prop :=
  Z.of_nat (size (rg_keys reg)) + n < 2147483648 /\
  map_Forall (fun _ k => Z.of_nat (length (k_values k)) + n < 2147483648 /\ k_refs k < UINT_MAX) (rg_keys reg).

#[export] Instance budget_dec reg n : Decision (budget reg n).
Proof. unfold budget. apply _. Defined.

Lemma budget_fits reg n : 0 <= n -> budget reg n -> reg_fits reg.
Proof. intros Hn [B1 B2]. split; [lia|]. intros key k Hk. destruct (B2 key k Hk). split; [lia|done]. Qed.

Lemma budget_weaken reg n m : m <= n -> budget reg n -> budget reg m.
Proof. intros Hn [B1 B2]. split; [lia|]. intros key k Hk. destruct (B2 key k Hk). split; [lia|done]. Qed.

Definition alive (reg : horizon_reg) (key : positive) : Prop :=
  exists k, rg_keys reg !! key = Some k /\ has_flag k HORIZON_REG_FLAG_DELETED = false.

(** From [reg] a load came to [reg'], with room for [n] left. *)
Record loaded (held : list positive) (n : Z) (reg reg' : horizon_reg) : Prop := {
  lo_wf : reg_wf reg' held;
  lo_budget : budget reg' n;
  lo_alive : forall key, alive reg key -> alive reg' key;
  lo_events : all_events reg' ≡ₚ all_events reg;
  lo_kept : forall key k, rg_keys reg !! key = Some k -> exists k', rg_keys reg' !! key = Some k' /\ k_parent k' = k_parent k /\ k_name k' = k_name k;
  lo_env : rg_root reg' = rg_root reg /\ rg_changed reg' = rg_changed reg /\ rg_hives reg' = rg_hives reg /\ rg_generation reg' = rg_generation reg;
}.

Lemma loaded_quiet held n m reg reg' : reg_wf reg held -> budget reg n -> m <= n -> quiet reg reg' -> loaded held m reg reg'.
Proof.
  intros W B Hm Q. destruct (quiet_calm _ _ Q) as [_ E]. split; [by eapply quiet_wf| | |done| |by unfold quiet in Q; splits_hyps].
  - apply (budget_weaken _ n); [done|]. unfold budget. by rewrite (quiet_keys _ _ Q).
  - unfold alive. by rewrite (quiet_keys _ _ Q).
  - rewrite (quiet_keys _ _ Q). intros key k Hk. by exists k.
Qed.

Lemma loaded_trans held n m r1 r2 r3 : loaded held n r1 r2 -> loaded held m r2 r3 -> loaded held m r1 r3.
Proof.
  intros [_ _ A1 E1 N1 (? & ? & ? & ?)] [W B A2 E2 N2 (? & ? & ? & ?)]. split; try done; [auto|by rewrite E2| |split_and!; congruence].
  intros key k Hk. destruct (N1 key k Hk) as (k2 & Hk2 & P2 & M2). destruct (N2 key k2 Hk2) as (k3 & Hk3 & P3 & M3). exists k3. split_and!; congruence.
Qed.

(** A key that is not there yet, made below [key] as the loaders make it. *)
Lemma link_new_ok reg held key k name t index n :
  reg_wf reg held -> 0 <= n -> budget reg (n + 1) -> rg_keys reg !! key = Some k -> has_flag k HORIZON_REG_FLAG_DELETED = false -> good_name name ->
  found_at (map (key_name (rg_keys reg)) (k_subkeys k)) name (false, index) ->
  match horizon_reg_alloc_key reg name t with
  | (None, reg1) => loaded held n reg reg1
  | (Some sub, reg1) => exists status reg2, horizon_reg_link reg1 key sub index = Some (status, reg2) /\
      if nonzero status then exists reg3, horizon_reg_release (walk_fuel reg2) reg2 sub = Some reg3 /\ loaded held n reg reg3
      else loaded held n reg reg2 /\ alive reg2 sub
  end.
Proof.
  intros W H0 B Hk Hd Hn Hf. assert (F : reg_fits reg) by (eapply budget_fits; [|exact B]; lia).
  destruct (wf_keys _ _ W _ _ Hk) as [K1 K2 K3 K4 K5 K6 K7 K8 [K9 _] K10].
  destruct (alloc_key_spec reg name t) as (r2 & Q & [->|(sub & -> & Hs)]); [eapply loaded_quiet; [done|exact B|lia|done]|].
  pose proof (quiet_keys _ _ Q) as EK. assert (Hne : sub <> key) by congruence.
  destruct (link_spec (put_key r2 sub (key_new name t)) key k sub (key_new name t) index) as (r3 & Q3 & [->|(max & Hmax & ->)]);
    [simpl; rewrite lookup_insert_ne by done; congruence|apply lookup_insert_eq|done|done|by eapply subkeys_fit| | |].
  - destruct Hf as [Hf _]. rewrite length_map in Hf. lia.
  - eexists _, _. split; [done|]. change (nonzero HORIZON_REG_NO_MEMORY) with true. cbv iota.
    unfold walk_fuel. rewrite (release_eq _ r3 sub (key_new name t)); [|rewrite (quiet_keys _ _ Q3); apply lookup_insert_eq|done|done].
    eexists. split; [done|]. eapply loaded_quiet; [done|exact B|lia|]. unfold drop_key, quiet in *. simpl in *. splits_hyps.
    split_and!; try congruence; [|rewrite app_nil_r; congruence].
    etransitivity; [|exact EK]. etransitivity; [|apply delete_insert_id; rewrite EK; exact Hs]. f_equal. by simpl.
  - eexists _, _. split; [done|]. change (nonzero HORIZON_REG_SUCCESS) with false. cbv iota. pose proof (quiet_keys _ _ Q3) as E3. simpl in E3. rewrite EK in E3.
    assert (Q4 : quiet reg (with_keys r3 (rg_keys reg))) by (unfold quiet in *; simpl in *; splits_hyps; split_and!; congruence).
    match goal with |- loaded _ _ _ ?x /\ _ => assert (Ex : x = with_created (with_keys r3 (rg_keys reg)) key k index max sub (created_key name t key 0)) end.
    { unfold with_created, put_key, with_keys. cbn [rg_keys rg_root rg_memory rg_allocs rg_clock rg_reads rg_signaled rg_changed rg_hives rg_generation].
      f_equal. rewrite E3. rewrite (insert_insert_ne _ key sub) by done. by rewrite insert_insert_eq. }
    rewrite Ex. set (k' := created_key name t key 0). assert (Hsub : has_flag k' HORIZON_REG_FLAG_DELETED = false) by done.
    split; [|exists k'; split; [apply lookup_insert_eq|done]]. split.
    + apply created_wf; try done. by eapply quiet_wf.
    + destruct B as [B1 B2]. split; simpl.
      * rewrite map_size_insert_None by (rewrite lookup_insert_ne by done; exact Hs). rewrite map_size_insert_Some by (by eexists). lia.
      * destruct (B2 _ _ Hk) as [Bv Br]. intros x kx Hx. apply lookup_insert_Some in Hx as [[<- <-]|[_ Hx]]; [simpl; unfold UINT_MAX; lia|].
        apply lookup_insert_Some in Hx as [[<- <-]|[_ Hx]]; [simpl; lia|]. destruct (B2 _ _ Hx). lia.
    + intros x (kx & Hx & Hdx). unfold alive. simpl. rewrite lookup_insert_ne by congruence. destruct (decide (x = key)) as [-> |Hxk];
        [rewrite lookup_insert_eq|rewrite lookup_insert_ne by done; eauto]. eexists. split; [done|]. exact Hd.
    + subst k'. rewrite created_events by done. destruct (quiet_calm _ _ Q4) as [_ ->]. done.
    + intros x kx Hx. simpl. rewrite lookup_insert_ne by congruence. destruct (decide (x = key)) as [-> |Hxk]; [rewrite lookup_insert_eq|rewrite lookup_insert_ne by done; by exists kx].
      eexists. split; [done|]. by assert (kx = k) as -> by congruence.
    + unfold quiet in Q4. simpl in *. splits_hyps. done.
Qed.

(** The key that was made has its name and its parent. *)
Lemma link_new_key reg key name t index sub reg1 :
  horizon_reg_alloc_key reg name t = (Some sub, reg1) -> forall status reg2, horizon_reg_link reg1 key sub index = Some (status, reg2) -> nonzero status = false ->
  exists s, rg_keys reg2 !! sub = Some s /\ k_parent s = Some key /\ k_name s = name.
Proof.
  intros Ha status reg2. destruct (alloc_key_spec reg name t) as (r0 & _ & [E|(sub' & E & Hn)]); rewrite E in Ha; [done|]. injection Ha as <- <-.
  unfold horizon_reg_link. destruct (_ !! key) as [p|] eqn:Hp; [|done]. cbn [mbind option_bind]. cbv zeta.
  assert (Hend : forall r max, rg_keys r = rg_keys (put_key r0 sub' (key_new name t)) ->
    (if (Z.of_nat (length (k_subkeys p)) <? index) || (max <=? Z.of_nat (length (k_subkeys p))) then None else
     k ← rg_keys (put_key r key (k_with_subkeys p (take (Z.to_nat index) (k_subkeys p) ++ sub' :: drop (Z.to_nat index) (k_subkeys p)) max)) !! sub';
     Some (HORIZON_REG_SUCCESS, put_key (put_key r key (k_with_subkeys p (take (Z.to_nat index) (k_subkeys p) ++ sub' :: drop (Z.to_nat index) (k_subkeys p)) max)) sub' (k_with_parent k (Some key)))) =
    Some (status, reg2) -> exists s, rg_keys reg2 !! sub' = Some s /\ k_parent s = Some key /\ k_name s = name).
  { intros r max Er. destruct (_ || _); [done|]. simpl. destruct (<[key := _]> (rg_keys r) !! sub') as [s|] eqn:Hs; [|done]. cbn [mbind option_bind]. intros [= _ <-].
    simpl. rewrite lookup_insert_eq. eexists. split; [done|]. split; [done|]. simpl. rewrite Er in Hs. simpl in Hs.
    destruct (decide (sub' = key)) as [-> |Hne].
    - rewrite lookup_insert_eq in Hs. simpl in Hp. rewrite lookup_insert_eq in Hp. injection Hp as <-. by injection Hs as <-.
    - rewrite lookup_insert_ne, lookup_insert_eq in Hs by done. by injection Hs as <-. }
  destruct (_ =? k_subkey_max p).
  - destruct (malloc _) as [ok r1] eqn:Em. assert (Er : rg_keys r1 = rg_keys (put_key r0 sub' (key_new name t))) by (unfold malloc in Em; by injection Em as _ <-).
    destruct ok; cbn [negb]; cbv iota; [intros H _; by eapply Hend|by intros [= <- _]].
  - cbn [negb]. cbv iota. intros H _. by eapply Hend.
Qed.

Lemma element_parts name :
  name <> [] -> let elem := horizon_reg_element name in let rest := skip_backslashes (drop (length elem) name) in
  (length rest < length name)%nat /\ BACKSLASH ∉ elem.
Proof.
  intros Hn. simpl. assert (Hs : forall l, (length (skip_backslashes l) <= length l)%nat) by (induction l as [|c l IH]; simpl; [done|]; destruct (_ =? _); simpl; lia).
  destruct name as [|c name]; [done|]. cbn [horizon_reg_element]. destruct (c =? BACKSLASH) eqn:E.
  - simpl. rewrite E. specialize (Hs name). split; [lia|]. apply not_elem_of_nil.
  - simpl. specialize (Hs (drop (length (horizon_reg_element name)) name)). rewrite length_drop in Hs. split; [lia|].
    clear Hs Hn. btrue. rewrite not_elem_of_cons. split; [done|]. induction name as [|d name IH]; simpl; [apply not_elem_of_nil|].
    destruct (d =? BACKSLASH) eqn:Ed; btrue; [apply not_elem_of_nil|]. by apply not_elem_of_cons.
Qed.

Lemma load_key_loop_ok fuel reg held key name modif n :
  reg_wf reg held -> 0 <= n -> budget reg (n + Z.of_nat (length name)) -> alive reg key -> (length name < fuel)%nat ->
  exists r reg', load_key_loop fuel reg key name modif = Some (r, reg') /\ loaded held n reg reg' /\ forall key', r = Some key' -> alive reg' key'.
Proof.
  revert reg key name. induction fuel as [|fuel IH]; intros reg key name W H0 B (k & Hk & Hd) Hf; [lia|]. cbn [load_key_loop].
  assert (L0 : loaded held n reg reg) by (eapply loaded_quiet; [done|exact B|lia|done]).
  case_bool_decide as En; [exists (Some key), reg; split_and!; [done..|]; intros ? [= <-]; by exists k|].
  pose proof (element_parts name En) as [Hr Hb]. set (elem := horizon_reg_element name) in *. set (rest := skip_backslashes (drop (length elem) name)) in *. cbv zeta.
  assert (Hnext : forall reg1 key1, loaded held (n + Z.of_nat (length rest)) reg reg1 -> alive reg1 key1 ->
    exists r reg', load_key_loop fuel reg1 key1 rest modif = Some (r, reg') /\ loaded held n reg reg' /\ forall key', r = Some key' -> alive reg' key').
  { intros reg1 key1 L1 A1. destruct (IH reg1 key1 rest) as (r & reg' & E & L & A); [apply L1|done|apply L1|done|lia|]. exists r, reg'. split_and!; try done. by eapply loaded_trans. }
  destruct (HORIZON_REG_MAX_NAME <? _) eqn:El; [by exists None, reg|]. btrue. case_bool_decide as Ee.
  { apply Hnext; [|by exists k]. eapply loaded_quiet; [done|exact B|lia|done]. }
  rewrite Hk. cbn [mbind option_bind]. assert (F : reg_fits reg) by (eapply budget_fits; [|exact B]; lia).
  destruct (find_subkey_wf reg held key k elem W F Hk) as (found & index & -> & Hfound). cbn [mbind option_bind]. destruct found as [sub|].
  - destruct Hfound as (_ & Hi & _). apply Hnext; [eapply loaded_quiet; [done|exact B|lia|done]|]. apply list_elem_of_lookup_2 in Hi.
    destruct (kw_sub _ _ _ _ (wf_keys _ _ W _ _ Hk) sub Hi) as (s & Hs & Hp). exists s. split; [done|]. apply (kw_deleted _ _ _ _ (wf_keys _ _ W _ _ Hs)). left. by exists key.
  - pose proof (link_new_ok reg held key k elem modif index (n + Z.of_nat (length rest)) W) as HL. destruct (horizon_reg_alloc_key reg elem modif) as [[sub|] r1].
    + destruct HL as (status & r2 & -> & HL); [lia|eapply budget_weaken; [|exact B]; lia|done|done|done|done|]. cbn [mbind option_bind]. destruct (nonzero status).
      * destruct HL as (r3 & -> & L3). cbn [mbind option_bind]. exists None, r3. split_and!; [done| |done]. destruct L3. split; try done. eapply budget_weaken; [|done]. lia.
      * destruct HL as [L2 A2]. by apply Hnext.
    + exists None, r1. split_and!; [done| |done]. destruct HL; [lia|eapply budget_weaken; [|exact B]; lia|done|done|done|done|]. split; try done. eapply budget_weaken; [|done]. lia.
Qed.

(** ** Values *)

Lemma values_put_loaded reg held key k r l max n :
  reg_wf reg held -> 0 <= n -> budget reg (n + 1) -> rg_keys reg !! key = Some k -> quiet reg r -> sorted_names (map v_name l) ->
  good_room (Z.of_nat (length l)) max -> Z.of_nat (length l) <= Z.of_nat (length (k_values k)) + 1 ->
  loaded held n reg (put_key r key (k_with_values k l max)).
Proof.
  intros W H0 [B1 B2] Hk Q Hs Hr Hl. pose proof (quiet_keys _ _ Q) as EK. destruct (B2 _ _ Hk) as [Bv Br]. split.
  - apply values_wf; [by eapply quiet_wf|by rewrite EK|done|done].
  - split; simpl; rewrite EK; [rewrite map_size_insert_Some by (by eexists); lia|]. intros x kx Hx.
    apply lookup_insert_Some in Hx as [[<- <-]|[_ Hx]]; [simpl; lia|]. destruct (B2 _ _ Hx). lia.
  - intros x (kx & Hx & Hdx). unfold alive. simpl. rewrite EK. destruct (decide (x = key)) as [-> |Hne]; [rewrite lookup_insert_eq|rewrite lookup_insert_ne by done; eauto].
    eexists. split; [done|]. assert (kx = k) as -> by congruence. done.
  - rewrite (events_put_same _ _ k) by (done || by rewrite EK). destruct (quiet_calm _ _ Q) as [_ ->]. done.
  - intros x kx Hx. simpl. rewrite EK. destruct (decide (x = key)) as [-> |Hne]; [rewrite lookup_insert_eq|rewrite lookup_insert_ne by done; by exists kx].
    eexists. split; [done|]. by assert (kx = k) as -> by congruence.
  - unfold quiet in Q. simpl. splits_hyps. done.
Qed.

(** The place of a value: not made, or ready to be stored into. *)
Lemma place_any reg held key k name n :
  reg_wf reg held -> 0 <= n -> budget reg (n + 1) -> rg_keys reg !! key = Some k ->
  exists value index status reg1, horizon_reg_find_value k name = Some (value, index) /\
    (if bool_decide (is_Some value) then Some (HORIZON_REG_SUCCESS, reg) else horizon_reg_insert_value reg key name index) = Some (status, reg1) /\
    (status <> HORIZON_REG_SUCCESS /\ loaded held n reg reg1 \/
     status = HORIZON_REG_SUCCESS /\ forall reg2 type data, quiet reg1 reg2 -> exists reg3, store_value reg2 key index type data = Some reg3 /\ loaded held n reg reg3).
Proof.
  intros W H0 B Hk. assert (F : reg_fits reg) by (eapply budget_fits; [|exact B]; lia).
  destruct (wf_keys _ _ W _ _ Hk) as [K1 K2 K3 K4 K5 K6 K7 K8 [K9 K9'] K10]. destruct (find_value_wf reg held key k name W F Hk) as (r & i & E & Hf). destruct r as [v|].
  - destruct Hf as (Hi0 & Hi & He). exists (Some v), i, HORIZON_REG_SUCCESS, reg. rewrite bool_decide_eq_true_2 by eauto. split_and!; [done..|]. right. split; [done|].
    intros reg2 type data Q. destruct (values_updated (k_values k) (Z.to_nat i) v name type data K7 Hi He) as [V1 V2].
    unfold store_value. rewrite (quiet_keys _ _ Q), Hk. cbn [mbind option_bind]. rewrite Hi. cbn [mbind option_bind]. eexists. split; [done|].
    eapply values_put_loaded; try done; rewrite ?length_insert; [done|lia].
  - assert (Hi : 0 <= i <= Z.of_nat (length (k_values k))) by (destruct Hf as [Hf _]; by rewrite length_map in Hf).
    destruct (insert_value_spec reg held key k name i W F Hk Hf) as (status & r0 & max & Q0 & [(Hs & Hr & E2)|(-> & Hr & E2)]);
      exists None, i; rewrite bool_decide_eq_false_2 by (by intros [? ?]); eexists _, _; (split; [done|]); (split; [exact E2|]).
    + left. split; [done|]. eapply values_put_loaded; try done. lia.
    + right. split; [done|]. intros reg2 type data Q2. destruct (values_inserted (k_values k) i name type data K7 Hf) as [V1 V2].
      unfold store_value. rewrite (quiet_keys _ _ Q2). cbn [rg_keys put_key with_keys]. rewrite lookup_insert_eq. cbn [mbind option_bind k_values k_with_values].
      rewrite lookup_insert_at by done. cbn [mbind option_bind v_name k_value_max k_with_values]. rewrite update_insert_at by done. eexists. split; [done|].
      set (l := insert_at (k_values k) i (mk_value name type data)) in *. assert (Hl : Z.of_nat (length l) = Z.of_nat (length (k_values k)) + 1) by apply length_insert_at.
      assert (Q3 : quiet reg (with_keys reg2 (rg_keys reg))) by (unfold quiet in *; simpl in *; splits_hyps; split_and!; congruence).
      match goal with |- loaded _ _ _ ?x => assert (Ex : x = put_key (with_keys reg2 (rg_keys reg)) key (k_with_values k l max)) end.
      { unfold put_key, with_keys. simpl. f_equal. rewrite (quiet_keys _ _ Q2). simpl. by rewrite insert_insert_eq, (quiet_keys _ _ Q0). }
      rewrite Ex. eapply values_put_loaded; try done; [by rewrite Hl|lia].
Qed.

(** The bytes of a value in hexadecimal end within the text. *)
Lemma hex_lines_any fuel reg loader p data :
  (length (ld_text loader) < fuel)%nat ->
  exists r loader' reg', hex_lines fuel reg loader p data = Some (r, loader', reg') /\ quiet reg reg' /\ (length (ld_text loader') <= length (ld_text loader))%nat.
Proof.
  revert reg loader p data. induction fuel as [|fuel IH]; intros reg loader p data Hf; [lia|]. cbn [hex_lines]. cbv zeta.
  destruct (tmp_space_any reg loader (Z.of_nat (length data) + (1 + Z.of_nat (length p) / 2))) as (ok & l1 & r1 & -> & Q1 & T1 & _).
  rewrite <- T1 in Hf |- *. destruct ok; cbn [negb]; cbv iota; [|eexists _, _, _; split_and!; [done..|lia]].
  destruct (horizon_reg_parse_hex _ p) as [[bytes rest]|]; [|eexists _, _, _; split_and!; [done..|lia]].
  destruct (skip_spaces rest) as [|c rest']; [eexists _, _, _; split_and!; [done..|lia]|]. destruct (c =? 92); cbn [negb]; cbv iota; [|eexists _, _, _; split_and!; [done..|lia]].
  destruct (next_line_any r1 l1) as (got & l2 & r2 & -> & Q2 & [(-> & H1 & H2)|([-> | ->] & ->)]); cbn [Z.eqb negb Pos.eqb]; cbv iota;
    [|eexists _, _, _; split_and!; [done|by transitivity r1|lia]..].
  destruct (IH r2 l2 (skip_spaces (ld_line l2)) (data ++ bytes)) as (r & l3 & r3 & -> & Q3 & H3); [lia|].
  eexists _, _, _. split_and!; [done|transitivity r1; [done|]; by transitivity r2|lia].
Qed.

Lemma value_data_any reg loader p :
  exists r loader' reg', value_data reg loader p = Some (r, loader', reg') /\ quiet reg reg' /\ (length (ld_text loader') <= length (ld_text loader))%nat.
Proof.
  unfold value_data. destruct (horizon_reg_data_type p) as [[[type parse_type] q]|]; [|by eexists _, _, _].
  destruct (parse_type =? HORIZON_REG_SZ); [destruct (horizon_reg_parse_str _ q QUOTE) as [[? ?]|]; by eexists _, _, _|].
  destruct (parse_type =? HORIZON_REG_DWORD); [by eexists _, _, _|].
  destruct (hex_lines_any (S (length (ld_text loader))) reg loader q []) as (r & l & r1 & -> & Q & H); [lia|]. cbn [mbind option_bind]. by eexists _, _, _.
Qed.

Lemma load_value_any reg held loader key k buffer n :
  reg_wf reg held -> 0 <= n -> budget reg (n + 1) -> rg_keys reg !! key = Some k ->
  exists ok loader' reg', horizon_reg_load_value reg loader key buffer = Some (ok, loader', reg') /\ loaded held n reg reg' /\
    (length (ld_text loader') <= length (ld_text loader))%nat.
Proof.
  intros W H0 B Hk. unfold horizon_reg_load_value.
  destruct (tmp_space_any reg loader (2 * (Z.of_nat (length buffer) + 1))) as (ok & l1 & r1 & -> & Q1 & T1 & _).
  assert (L1 : loaded held n reg r1) by (eapply loaded_quiet; [done|exact B|lia|done]).
  assert (W1 : reg_wf r1 held) by apply L1. assert (B1 : budget r1 (n + 1)) by (unfold budget; by rewrite (quiet_keys _ _ Q1)).
  destruct ok; cbn [negb]; cbv iota; [|eexists _, _, _; split_and!; [done..|by rewrite T1]]. rewrite <- T1.
  destruct (value_name l1 buffer) as [[name p]|]; [|by eexists _, _, _]. destruct (skip_spaces p) as [|c q]; [by eexists _, _, _|].
  destruct (decide (c = 61)) as [-> |Hc]; [|repeat case_match; try congruence; by eexists _, _, _].
  rewrite (quiet_keys _ _ Q1), Hk. cbn [mbind option_bind].
  destruct (place_any r1 held key k name n) as (value & index & status & r2 & -> & E2 & H2); [done|done|done|by rewrite (quiet_keys _ _ Q1)|].
  cbn [mbind option_bind]. rewrite E2. cbn [mbind option_bind]. destruct H2 as [[Hs L2]|[-> H2]].
  { assert (Hn : nonzero status = true) by (unfold nonzero; apply negb_true_iff, Z.eqb_neq; done). rewrite Hn. eexists _, _, _. split_and!; [done|by eapply loaded_trans|done]. }
  change (nonzero HORIZON_REG_SUCCESS) with false. cbv iota. destruct (value_data_any r2 l1 (skip_spaces q)) as (r & l3 & r3 & -> & Q3 & T3). cbn [mbind option_bind].
  assert (Hend : forall (r : option (Z * list Z)) reg4, quiet r2 reg4 -> exists ok reg', (match r with
      | Some (type, data) => reg ← store_value reg4 key index type data; Some (true, l3, reg)
      | None => reg ← store_value reg4 key index HORIZON_REG_NONE []; Some (false, l3, reg) end) = Some (ok, l3, reg') /\ loaded held n reg reg').
  { intros r' reg4 Q4. destruct r' as [[type data]|]; [destruct (H2 reg4 type data Q4) as (r5 & -> & L5)|destruct (H2 reg4 HORIZON_REG_NONE [] Q4) as (r5 & -> & L5)];
      cbn [mbind option_bind]; eexists _, _; (split; [done|by eapply loaded_trans]). }
  destruct r as [[type [|b data]]|].
  - destruct (Hend (Some (type, [])) r3 Q3) as (ok & r' & E & L). eexists _, _, _. split_and!; [exact E|done|done].
  - destruct (malloc r3) as [ok' r4] eqn:Em. assert (Q4 : quiet r3 r4) by (rewrite <- (f_equal snd Em : snd _ = r4); apply malloc_quiet).
    destruct (Hend (if ok' then Some (type, b :: data) else None) r4) as (ok & r' & E & L); [by transitivity r3|]. eexists _, _, _. split_and!; [exact E|done|done].
  - destruct (Hend None r3 Q3) as (ok & r' & E & L). eexists _, _, _. split_and!; [exact E|done|done].
Qed.

(** ** Keys, options and the whole text *)

(** A change of a key that the invariant does not see. *)
Lemma put_loaded reg held key k k' r n :
  reg_wf reg held -> 0 <= n -> budget reg n -> rg_keys reg !! key = Some k -> quiet reg r -> reg_wf (put_key r key k') held ->
  length (k_values k') = length (k_values k) -> k_refs k' = k_refs k -> k_notify k' = k_notify k -> k_parent k' = k_parent k -> k_name k' = k_name k ->
  (has_flag k HORIZON_REG_FLAG_DELETED = false -> has_flag k' HORIZON_REG_FLAG_DELETED = false) -> loaded held n reg (put_key r key k').
Proof.
  intros W H0 [B1 B2] Hk Q W' Hv Hr Hn Hp Hm Hd. pose proof (quiet_keys _ _ Q) as EK. destruct (B2 _ _ Hk) as [Bv Br]. split; [done| | | | |by unfold quiet in Q; simpl; splits_hyps].
  - split; simpl; rewrite EK; [rewrite map_size_insert_Some by (by eexists); lia|]. intros x kx Hx.
    apply lookup_insert_Some in Hx as [[<- <-]|[_ Hx]]; [rewrite Hv, Hr; lia|]. destruct (B2 _ _ Hx). lia.
  - intros x (kx & Hx & Hdx). unfold alive. simpl. rewrite EK. destruct (decide (x = key)) as [-> |Hne]; [rewrite lookup_insert_eq|rewrite lookup_insert_ne by done; eauto].
    eexists. split; [done|]. apply Hd. congruence.
  - rewrite (events_put_same _ _ k) by (done || by rewrite EK). destruct (quiet_calm _ _ Q) as [_ ->]. done.
  - intros x kx Hx. simpl. rewrite EK. destruct (decide (x = key)) as [-> |Hne]; [rewrite lookup_insert_eq|rewrite lookup_insert_ne by done; by exists kx].
    eexists. split; [done|]. by assert (kx = k) as -> by congruence.
Qed.

Lemma load_option_any reg held loader key k buffer n :
  reg_wf reg held -> 0 <= n -> budget reg n -> rg_keys reg !! key = Some k ->
  exists loader' reg', horizon_reg_load_option reg loader key buffer = Some (loader', reg') /\ loaded held n reg reg' /\ ld_text loader' = ld_text loader.
Proof.
  intros W H0 B Hk. unfold horizon_reg_load_option. rewrite Hk. cbn [mbind option_bind].
  assert (HQ : forall r, quiet reg r -> loaded held n reg r) by (intros r Q; eapply loaded_quiet; [done|exact B|lia|done]).
  assert (HL : forall r k', quiet reg r -> key_like k k' -> k_notify k' = k_notify k -> loaded held n reg (put_key r key k')).
  { intros r k' Q L Hn. pose proof L as (Ln & Lp & _ & _ & Lv & _ & Lf & Lr). eapply (put_loaded reg held key k); try done; [|by rewrite Lv|].
    - eapply reg_like_wf; [|exact W]. transitivity r; [by apply calm_like, quiet_calm|]. apply (reg_like_put r key k); [by rewrite (quiet_keys _ _ Q)|done].
    - unfold has_flag. by rewrite Lf. }
  destruct (starts_with _ buffer); [eexists _, _; split_and!; [done|by apply HL|done]|]. destruct (starts_with _ buffer).
  { destruct (tmp_space_any reg loader (2 * (Z.of_nat (length buffer) + 1))) as (ok & l1 & r1 & -> & Q1 & T1 & _).
    destruct ok; cbn [negb]; cbv iota; [|eexists _, _; split_and!; [done|by apply HQ|done]].
    destruct (horizon_reg_parse_str _ _ _) as [[res units]|]; [|eexists _, _; split_and!; [done|by apply HQ|done]].
    destruct (malloc r1) as [ok r2] eqn:Em. assert (Q2 : quiet reg r2) by (transitivity r1; [done|]; rewrite <- (f_equal snd Em : snd _ = r2); apply malloc_quiet).
    destruct ok; cbn [negb]; cbv iota; eexists _, _; (split_and!; [done| |done]); [by apply HL|by apply HQ]. }
  destruct (starts_with _ buffer); [|eexists _, _; split_and!; [done|by apply HQ|done]]. eexists _, _. split_and!; [done| |done].
  eapply (put_loaded reg held key k); try done.
  - apply flags_wf; [done|done|done].
  - unfold has_flag, HORIZON_REG_FLAG_DELETED. cbn [k_flags k_with_flags]. by rewrite (land_lor_other _ _ 1).
Qed.

Lemma load_key_any reg held base loader buffer n :
  reg_wf reg held -> 0 <= n -> budget reg (n + Z.of_nat (length buffer)) -> alive reg base ->
  exists r loader' reg', horizon_reg_load_key reg base loader buffer = Some (r, loader', reg') /\ loaded held n reg reg' /\
    (forall key, r = Some key -> alive reg' key) /\ ld_text loader' = ld_text loader.
Proof.
  intros W H0 B A. unfold horizon_reg_load_key.
  destruct (tmp_space_any reg loader (2 * (Z.of_nat (length buffer) + 1))) as (ok & l1 & r1 & -> & Q1 & T1 & _).
  assert (L1 : loaded held n reg r1) by (eapply loaded_quiet; [done|exact B|lia|done]).
  destruct ok; cbn [negb]; cbv iota; [|by eexists None, _, _]. destruct (horizon_reg_parse_str _ buffer 93) as [[res units]|] eqn:Ep; [|by eexists None, _, _].
  apply parse_str_length in Ep as [Hu1 Hu2].
  assert (Hm : exists modif r2, match scan_unsigned (drop res buffer) with Some mod_ => (mod_ * 10000000 + HORIZON_REG_TICKS_1601_TO_1970, r1) | None => now r1 end = (modif, r2) /\ quiet r1 r2).
  { destruct (scan_unsigned _); eexists _, _; (split; [done|]); [done|apply (now_quiet r1)]. }
  destruct Hm as (modif & r2 & -> & Q2). set (name := take (length units - 1) units). assert (Q : quiet reg r2) by (by transitivity r1).
  destruct (load_key_loop_ok (S (length name)) r2 held base name modif n) as (r & r3 & -> & L3 & A3).
  - by eapply quiet_wf.
  - done.
  - subst name. rewrite length_take. eapply budget_weaken; [|unfold budget; rewrite (quiet_keys _ _ Q); exact B]. lia.
  - unfold alive. by rewrite (quiet_keys _ _ Q).
  - lia.
  - cbn [mbind option_bind]. eexists r, _, _. split_and!; [done| |done|done]. eapply loaded_trans; [|exact L3]. eapply loaded_quiet; [done|exact B|reflexivity|done].
Qed.

Lemma load_loop_any fuel reg held base loader key errors n :
  reg_wf reg held -> 0 <= n -> budget reg (n + Z.of_nat (length (ld_text loader))) -> alive reg base -> (forall k, key = Some k -> alive reg k) -> (length (ld_text loader) < fuel)%nat ->
  exists status errors' reg', load_loop fuel reg base loader key errors = Some (status, errors', reg') /\ loaded held n reg reg' /\
    (status = HORIZON_REG_SUCCESS \/ status = HORIZON_REG_NO_MEMORY).
Proof.
  revert reg loader key errors. induction fuel as [|fuel IH]; intros reg loader key errors W H0 B A Ak Hf; [lia|]. cbn [load_loop].
  destruct (next_line_any reg loader) as (got & l1 & r1 & -> & Q1 & H1).
  destruct H1 as [(-> & H1 & H2)|([-> | ->] & ->)]; cbn [Z.eqb Pos.eqb]; cbv iota; cycle 1.
  { eexists _, _, _. split_and!; [done|eapply loaded_quiet; [done|exact B|lia|done]|by left]. }
  { eexists _, _, _. split_and!; [done|eapply loaded_quiet; [done|exact B|lia|done]|by right]. }
  assert (B1 : budget r1 (n + Z.of_nat (length (ld_text loader)))) by (unfold budget; by rewrite (quiet_keys _ _ Q1)).
  assert (W1 : reg_wf r1 held) by (by eapply quiet_wf). assert (Hal : forall x, alive reg x -> alive r1 x) by (intros x; unfold alive; by rewrite (quiet_keys _ _ Q1)).
  assert (Hnext : forall r2 l2 key2 errors2, loaded held (n + Z.of_nat (length (ld_text l1))) r1 r2 -> (length (ld_text l2) <= length (ld_text l1))%nat -> (forall k, key2 = Some k -> alive r2 k) ->
    exists status errors' reg', load_loop fuel r2 base l2 key2 errors2 = Some (status, errors', reg') /\ loaded held n reg reg' /\ (status = HORIZON_REG_SUCCESS \/ status = HORIZON_REG_NO_MEMORY)).
  { intros r2 l2 key2 errors2 L2 T2 A2. destruct (IH r2 l2 key2 errors2) as (status & e & r3 & E & L3 & S3).
    - apply L2.
    - done.
    - eapply budget_weaken; [|apply L2]. lia.
    - by apply L2, Hal.
    - done.
    - lia.
    - eexists _, _, _. split_and!; [exact E| |done]. eapply loaded_trans; [|exact L3]. eapply loaded_trans; [|exact L2]. eapply loaded_quiet; [done|exact B|reflexivity|done]. }
  assert (Hsame : loaded held (n + Z.of_nat (length (ld_text l1))) r1 r1) by (eapply loaded_quiet; [done|exact B1|lia|done]).
  assert (Ak1 : forall k, key = Some k -> alive r1 k) by (intros k Hk; by apply Hal, Ak).
  assert (Hsp : forall p, (length (skip_spaces p) <= length p)%nat) by (induction p as [|c p IHp]; simpl; [done|]; destruct (isspace c); simpl; lia). specialize (Hsp (ld_line l1)).
  destruct (skip_spaces (ld_line l1)) as [|c rest]; [by apply Hnext|]. cbn [length] in Hsp. destruct (c =? 91).
  { destruct (load_key_any r1 held base l1 rest (n + Z.of_nat (length (ld_text l1)))) as (r & l2 & r2 & -> & L2 & A2 & T2); [done|lia|eapply budget_weaken; [|exact B1]; lia|by apply Hal|].
    cbn [mbind option_bind]. apply Hnext; [done|by rewrite T2|done]. }
  destruct (_ || _).
  { destruct key as [key|]; [|by apply Hnext]. destruct (Ak1 key eq_refl) as (k & Hk & _).
    destruct (load_value_any r1 held l1 key k (c :: rest) (n + Z.of_nat (length (ld_text l1)))) as (ok & l2 & r2 & -> & L2 & T2); [done|lia|eapply budget_weaken; [|exact B1]; lia|done|].
    cbn [mbind option_bind]. apply Hnext; [done|done|]. intros x [= <-]. by apply L2, Ak1. }
  destruct (c =? 35).
  { destruct key as [key|]; [|by apply Hnext]. destruct (Ak1 key eq_refl) as (k & Hk & _).
    destruct (load_option_any r1 held l1 key k (c :: rest) (n + Z.of_nat (length (ld_text l1)))) as (l2 & r2 & -> & L2 & T2); [done|lia|eapply budget_weaken; [|exact B1]; lia|done|].
    cbn [mbind option_bind]. apply Hnext; [done|by rewrite T2|]. intros x [= <-]. by apply L2, Ak1. }
  destruct (c =? 59); by apply Hnext.
Qed.

(** Loading text below a key of a well-formed tree. *)
Lemma load_any reg held base t n :
  reg_wf reg held -> 0 <= n -> budget reg (n + Z.of_nat (length t)) -> alive reg base ->
  exists status errors reg', horizon_reg_load reg base t = Some (status, errors, reg') /\ loaded held n reg reg' /\
    (status = HORIZON_REG_SUCCESS \/ status = HORIZON_REG_NO_MEMORY \/ status = HORIZON_REG_NOT_REGISTRY_FILE /\ rg_keys reg' = rg_keys reg).
Proof.
  intros W H0 B A. unfold horizon_reg_load. destruct (next_line_any reg (mk_loader t [] 0 0)) as (got & l1 & r1 & -> & Q1 & H1).
  assert (L1 : loaded held n reg r1) by (eapply loaded_quiet; [done|exact B|lia|done]).
  destruct (_ || _) eqn:E. { eexists _, _, _. split_and!; [done|done|]. right. right. split; [done|]. apply (quiet_keys _ _ Q1). }
  destruct H1 as [(-> & H1 & H2)|([-> | ->] & ->)]; [|done..]. cbn [ld_text] in H1, H2.
  destruct (load_loop_any (S (length (ld_text l1))) r1 held base l1 None 0 n) as (status & e & r2 & -> & L2 & S2).
  - by eapply quiet_wf.
  - done.
  - eapply budget_weaken; [|unfold budget; rewrite (quiet_keys _ _ Q1); exact B]. lia.
  - unfold alive. by rewrite (quiet_keys _ _ Q1).
  - done.
  - lia.
  - eexists _, _, _. split_and!; [done|by eapply loaded_trans|tauto].
Qed.

(** C24: Loading is safe for any bytes: below any key that is not deleted, with
    any failed allocations, the reader of registry files returns one of its
    three statuses, no key in use is lost, the tree stays well formed with
    every reference counted, no event is lost, and a text that is not a
    registry file changes nothing. *)
Theorem registry_load_safe st base t :
  reg_reachable st -> budget (cl_reg st) (Z.of_nat (length t)) -> alive (cl_reg st) base ->
  exists status errors reg', horizon_reg_load (cl_reg st) base t = Some (status, errors, reg') /\
    (status = HORIZON_REG_SUCCESS \/ status = HORIZON_REG_NO_MEMORY \/ status = HORIZON_REG_NOT_REGISTRY_FILE /\ rg_keys reg' = rg_keys (cl_reg st)) /\
    reg_wf reg' (cl_held st) /\ reg_fits reg' /\ (forall key, alive (cl_reg st) key -> alive reg' key) /\ all_events reg' ≡ₚ cl_asked st.
Proof.
  intros R B A. destruct (reachable_wf _ R) as [W WE]. destruct (load_any (cl_reg st) (cl_held st) base t 0 W) as (status & e & reg' & E & [LW LB LA LE _ _] & S); [done|done|done|].
  exists status, e, reg'. split_and!; try done; [|by rewrite LE]. by eapply budget_fits; [|exact LB].
Qed.

(** A text with a key, a broken value, a good one and a line that is none. *)
Definition sample_text : list Z :=
  text "WINE REGISTRY Version 2" ++ [10] ++ text "[A\\\\B] 5" ++ [10; 34; 120] ++ text "=hex:zz" ++ [10] ++ text "@=dword:7" ++ [13; 10] ++ text "what".

Lemma registry_load_safe_witness :
  exists status errors reg', horizon_reg_load (cl_reg (after sample_ops)) 2 sample_text = Some (status, errors, reg') /\ reg_wf reg' (cl_held (after sample_ops)).
Proof.
  destruct (registry_load_safe (after sample_ops) 2 sample_text) as (status & e & reg' & E & _ & W & _).
  - apply (sample_reachable sample_ops). vm_compute. reflexivity.
  - decide_true.
  - eexists. split; [vm_compute; reflexivity|reflexivity].
  - exists status, e, reg'. split; [exact E|exact W].
Defined.

Example sample_text_loaded :
  (fun r => (fst r, size (rg_keys (snd r)))) <$> horizon_reg_load (cl_reg (after sample_ops)) 2 sample_text = Some (HORIZON_REG_SUCCESS, 2, 5%nat).
Proof. vm_compute. reflexivity. Qed.
