(* ===== verification/RegistryDirty.v ===== *)
(** * Changes of a hive are counted

    [horizon_registry_changed] counts the changes of a hive, and the flush
    writes a hive only when its count moved. This file shows that the count is
    right: a request that leaves it alone leaves the text of the hive alone. *)
From S2P Require Import Prelude RegistryNames Registry RegistryInv RegistryTree RegistryText RegistryLoad.
Local Open Scope Z_scope.

#[local] Arguments horizon_reg_touch : simpl never.
#[local] Arguments walk_fuel : simpl never.

(** ** The keys below a hive *)

Definition parent_of (reg : horizon_reg) (x p : positive) : Prop := exists k, rg_keys reg !! x = Some k /\ k_parent k = Some p.

(** [x] is [h] or a key below it. *)
Definition below (reg : horizon_reg) (h x : positive) : Prop := rtc (parent_of reg) x h.

(** What the file says of a key, and its parent. *)
Definition saved_like (k k' : horizon_reg_key) : Prop :=
  k_name k = k_name k' /\ k_class k = k_class k' /\ k_subkeys k = k_subkeys k' /\ k_values k = k_values k' /\ k_flags k = k_flags k' /\ k_modif k = k_modif k' /\ k_parent k = k_parent k'.

#[export] Instance saved_like_equivalence : Equivalence saved_like.
Proof. unfold saved_like. split; intros ?; intros; splits_hyps; split_and!; congruence. Qed.

Definition same_hive (reg reg' : horizon_reg) (h : positive) : Prop :=
  forall x k, below reg h x -> rg_keys reg !! x = Some k -> exists k', rg_keys reg' !! x = Some k' /\ saved_like k k'.

(** The text [horizon_registry_flush] writes for the keys of a hive. *)
Definition hive_text (reg : horizon_reg) (h : positive) : option (list Z) := horizon_registry_save_subkeys (walk_fuel reg) reg h [].

Lemma for_each_ext {A S} (f g : S -> A -> option S) l s : (forall s x, x ∈ l -> f s x = g s x) -> for_each f l s = for_each g l s.
Proof.
  revert s. induction l as [|x l IH]; intros s H; [done|]. cbn [for_each]. rewrite (H s x) by (by left). destruct (g s x); [|done]. cbn [mbind option_bind].
  apply IH. intros s' y Hy. apply H. by right.
Qed.

Lemma save_same fuel reg held reg' h x path :
  reg_wf reg held -> same_hive reg reg' h -> below reg h x -> is_Some (rg_keys reg !! x) ->
  horizon_registry_save_subkeys fuel reg' x path = horizon_registry_save_subkeys fuel reg x path.
Proof.
  intros W S. revert x path. induction fuel as [|fuel IH]; intros x path Hb [k Hk]; [done|]. cbn [horizon_registry_save_subkeys].
  destruct (S x k Hb Hk) as (k' & Hk' & L1 & L2 & L3 & L4 & L5 & L6 & _). rewrite Hk, Hk'. cbn [mbind option_bind]. unfold has_flag. rewrite <- L5. destruct (nonzero _); [done|].
  cbv zeta. assert (Es : save_key k' path = save_key k path) by (unfold save_key, has_flag; by rewrite L2, L4, L5, L6). rewrite Es, <- L2, <- L3, <- L4.
  apply for_each_ext. intros out sub Hsub. destruct (kw_sub _ _ _ _ (wf_keys _ _ W _ _ Hk) sub Hsub) as (s & Hs & Hp).
  assert (Hbs : below reg h sub) by (eapply rtc_l; [by exists s|done]). destruct (S sub s Hbs Hs) as (s' & Hs' & Ls & _). rewrite Hs, Hs'. cbn [mbind option_bind].
  rewrite <- Ls. rewrite IH by eauto. done.
Qed.

Lemma for_each_total {A S} (f : S -> A -> option S) l s : (forall s x, x ∈ l -> is_Some (f s x)) -> is_Some (for_each f l s).
Proof.
  revert s. induction l as [|x l IH]; intros s H; [by eexists|]. cbn [for_each]. destruct (H s x) as [s' ->]; [by left|]. cbn [mbind option_bind].
  apply IH. intros s2 y Hy. apply H. by right.
Qed.

(** The walk over a hive ends, and more fuel does not change it. *)
Lemma save_total reg held depth fuel x k path :
  reg_wf reg held -> depth_of reg depth -> rg_keys reg !! x = Some k -> (size (rg_keys reg) <= fuel + depth x)%nat ->
  is_Some (horizon_registry_save_subkeys fuel reg x path) /\ horizon_registry_save_subkeys (S fuel) reg x path = horizon_registry_save_subkeys fuel reg x path.
Proof.
  intros W D. revert x k path. induction fuel as [|fuel IH]; intros x k path Hk Hf; [destruct (D x k Hk); lia|].
  assert (Hsub : forall sub, sub ∈ k_subkeys k -> forall path, is_Some (horizon_registry_save_subkeys fuel reg sub path) /\
    horizon_registry_save_subkeys (S fuel) reg sub path = horizon_registry_save_subkeys fuel reg sub path).
  { intros sub Hs p. destruct (kw_sub _ _ _ _ (wf_keys _ _ W _ _ Hk) sub Hs) as (s & Hsk & Hp). destruct (D sub s Hsk) as [_ Hd]. specialize (Hd x Hp).
    apply (IH sub s); [done|]. lia. }
  set (g := S fuel) in Hsub |- * at 2. cbn [horizon_registry_save_subkeys]. subst g. rewrite Hk. cbn [mbind option_bind]. destruct (has_flag k _); [done|]. cbv zeta. split.
  - apply for_each_total. intros out sub Hs. destruct (kw_sub _ _ _ _ (wf_keys _ _ W _ _ Hk) sub Hs) as (s & -> & _). cbn [mbind option_bind].
    destruct (proj1 (Hsub sub Hs (path ++ [k_name s]))) as [t ->]. by eexists.
  - apply for_each_ext. intros out sub Hs. destruct (kw_sub _ _ _ _ (wf_keys _ _ W _ _ Hk) sub Hs) as (s & -> & _). cbn [mbind option_bind].
    by rewrite (proj2 (Hsub sub Hs (path ++ [k_name s]))).
Qed.

Lemma save_enough reg held x k path fuel :
  reg_wf reg held -> rg_keys reg !! x = Some k -> (size (rg_keys reg) <= fuel)%nat ->
  horizon_registry_save_subkeys fuel reg x path = horizon_registry_save_subkeys (size (rg_keys reg)) reg x path /\
  is_Some (horizon_registry_save_subkeys fuel reg x path).
Proof.
  intros W Hk Hf. destruct (wf_depth _ _ W) as [depth D]. split; [|apply (save_total reg held depth fuel x k path W D Hk); lia].
  induction Hf as [|fuel Hf IH]; [done|]. rewrite <- IH. apply (save_total reg held depth fuel x k path W D Hk). lia.
Qed.

Lemma hive_text_same reg held reg' held' h :
  reg_wf reg held -> reg_wf reg' held' -> is_Some (rg_keys reg !! h) -> same_hive reg reg' h -> hive_text reg' h = hive_text reg h.
Proof.
  intros W W' [k Hk] HS. destruct (HS h k (rtc_refl _ _) Hk) as (k' & Hk' & _). set (f := S (size (rg_keys reg) + size (rg_keys reg'))%nat).
  destruct (save_enough reg held h k [] (walk_fuel reg) W Hk) as [E1 _]; [unfold walk_fuel; lia|]. destruct (save_enough reg held h k [] f W Hk) as [E2 _]; [lia|].
  destruct (save_enough reg' held' h k' [] (walk_fuel reg') W' Hk') as [E3 _]; [unfold walk_fuel; lia|]. destruct (save_enough reg' held' h k' [] f W' Hk') as [E4 _]; [lia|].
  unfold hive_text. rewrite E1, E3, <- E2, <- E4. eapply save_same; [done|exact HS|apply rtc_refl|by eexists].
Qed.

(** ** What a touch changes *)

(** The registries differ in notifications, signaled events and streams only. *)
Definition told (reg reg' : horizon_reg) : Prop :=
  rg_root reg' = rg_root reg /\ rg_changed reg' = rg_changed reg /\ rg_hives reg' = rg_hives reg /\ rg_generation reg' = rg_generation reg /\
  (fun k => k_with_notify k []) <$> rg_keys reg' = (fun k => k_with_notify k []) <$> rg_keys reg.

#[export] Instance told_equivalence : Equivalence told.
Proof. unfold told. split; intros ?; intros; splits_hyps; split_and!; congruence. Qed.

Lemma told_key reg reg' x k : told reg reg' -> rg_keys reg !! x = Some k -> exists k', rg_keys reg' !! x = Some k' /\ k_with_notify k' [] = k_with_notify k [].
Proof.
  intros (_ & _ & _ & _ & E) Hk. apply (f_equal (.!! x)) in E. rewrite !lookup_fmap, Hk in E. destruct (rg_keys reg' !! x) as [k'|]; [|done].
  apply (inj Some) in E. exists k'. split; [done|exact E].
Qed.

Lemma notify_fields k k' : k_with_notify k' [] = k_with_notify k [] -> saved_like k k' /\ k_parent k' = k_parent k /\ k_refs k' = k_refs k.
Proof. destruct k, k'. unfold k_with_notify, saved_like. simpl. intros [=]. subst. done. Qed.

Lemma told_put reg key k n : rg_keys reg !! key = Some k -> told reg (put_key reg key (k_with_notify k n)).
Proof.
  intros Hk. split_and!; try done. simpl. rewrite fmap_insert. apply insert_id. by rewrite lookup_fmap, Hk.
Qed.

Lemma told_quiet reg reg' : quiet reg reg' -> told reg reg'.
Proof. intros Q. unfold quiet in Q. splits_hyps. split_and!; try done. by f_equal. Qed.

Lemma told_signal reg events : told reg (signal reg events).
Proof. done. Qed.

Lemma check_notify_told reg key change not_subtree reg' : horizon_reg_check_notify reg key change not_subtree = Some reg' -> told reg reg'.
Proof.
  unfold horizon_reg_check_notify. destruct (rg_keys reg !! key) as [k|] eqn:Hk; [|done]. cbn [mbind option_bind]. cbv zeta.
  destruct (notify_loop _ _) as [kept events]. intros [= <-]. etransitivity; [by apply told_put|apply told_signal].
Qed.

Lemma touch_parents_told fuel reg key change reg' : touch_parents fuel reg key change = Some reg' -> told reg reg'.
Proof.
  revert reg key. induction fuel as [|fuel IH]; intros reg key; [done|]. cbn [touch_parents]. destruct key as [key|]; [|by intros [= ->]].
  destruct (horizon_reg_check_notify reg key change false) as [r1|] eqn:E1; [|done]. cbn [mbind option_bind]. destruct (rg_keys r1 !! key) as [k|]; [|done].
  cbn [mbind option_bind]. intros H%IH. transitivity r1; [by eapply check_notify_told|done].
Qed.

(** The hives and their counts. *)
Definition hive_of (reg : horizon_reg) (i : bool) : option positive := if i then snd (rg_hives reg) else fst (rg_hives reg).
Definition generation_of (reg : horizon_reg) (i : bool) : Z := if i then snd (rg_generation reg) else fst (rg_generation reg).

(** The hives are in the tree, and none is below the other. *)
Definition hives_ok (reg : horizon_reg) : Prop :=
  forall i h, hive_of reg i = Some h -> (exists k, rg_keys reg !! h = Some k /\ linked reg h k) /\
    forall h', hive_of reg (negb i) = Some h' -> ~ below reg h h'.

(** The counts after a change at [key]: those of the hives it is below. *)
Definition counts (reg : horizon_reg) (key : option positive) (reg' : horizon_reg) : Prop :=
  (forall i h x, hive_of reg i = Some h -> key = Some x -> below reg h x -> generation_of reg' i = u64 (generation_of reg i + 1)) /\
  (forall i, (forall h x, hive_of reg i = Some h -> key = Some x -> ~ below reg h x) -> generation_of reg' i = generation_of reg i) /\
  (forall i, generation_of reg' i = generation_of reg i \/ generation_of reg' i = u64 (generation_of reg i + 1)).

Lemma below_parent reg h x k : rg_keys reg !! x = Some k -> x <> h -> below reg h x -> exists p, k_parent k = Some p /\ below reg h p.
Proof.
  intros Hk Hne Hb. apply rtc_inv in Hb as [-> |(p & (k' & Hk' & Hp) & Hb)]; [done|]. assert (k' = k) as -> by congruence. by exists p.
Qed.

Lemma changed_counts fuel reg key reg' :
  hives_ok reg -> horizon_registry_changed fuel reg key = Some reg' ->
  counts reg key reg' /\ exists g, reg' = with_changed reg (rg_changed reg) (rg_hives reg) g.
Proof.
  intros HO. revert key. induction fuel as [|fuel IH]; intros key; [done|]. cbn [horizon_registry_changed]. destruct key as [x|].
  2: { intros [= <-]. split; [|exists (rg_generation reg); by destruct reg]. split_and!; [done|done|]. by left. }
  destruct (rg_generation reg) as [g0 g1] eqn:Eg. assert (EG : generation_of reg false = g0 /\ generation_of reg true = g1) by (unfold generation_of; by rewrite Eg). destruct EG as [G0 G1].
  case_bool_decide as E0.
  { intros [= <-]. split; [|by eexists]. assert (Hx : hive_of reg false = Some x) by done. destruct (HO false x Hx) as [_ Ha]. split_and!.
    - intros [] h y Hh [= <-] Hb; [|by rewrite G0]. destruct (HO true h Hh) as [_ Ha']. by destruct (Ha' x Hx).
    - intros [] Hn; [by rewrite G1|]. destruct (Hn x x Hx eq_refl). apply rtc_refl.
    - intros []; [left; by rewrite G1|right; by rewrite G0]. }
  case_bool_decide as E1.
  { intros [= <-]. split; [|by eexists]. assert (Hx : hive_of reg true = Some x) by done. destruct (HO true x Hx) as [_ Ha]. split_and!.
    - intros [] h y Hh [= <-] Hb; [by rewrite G1|]. destruct (HO false h Hh) as [_ Ha']. by destruct (Ha' x Hx).
    - intros [] Hn; [|by rewrite G0]. destruct (Hn x x Hx eq_refl). apply rtc_refl.
    - intros []; [right; by rewrite G1|left; by rewrite G0]. }
  destruct (rg_keys reg !! x) as [k|] eqn:Hk; [|done]. cbn [mbind option_bind]. intros H%IH. destruct H as [(C1 & C2 & C3) E]. split; [|done].
  assert (Hxh : forall i h, hive_of reg i = Some h -> x <> h) by (intros [] h Hh ->; [by apply E1|by apply E0]). split_and!; [| |done].
  - intros i h y Hh [= <-] Hb. destruct (below_parent reg h x k Hk (Hxh i h Hh) Hb) as (p & Hp & Hb'). by eapply C1.
  - intros i Hn. apply C2. intros h p Hh Hp Hb. apply (Hn h x Hh eq_refl). eapply rtc_l; [by exists k|done].
Qed.

Definition same_parents (reg reg' : horizon_reg) : Prop := forall x, k_parent <$> rg_keys reg' !! x = k_parent <$> rg_keys reg !! x.

Lemma parents_below reg reg' h x : same_parents reg reg' -> below reg h x -> below reg' h x.
Proof.
  intros E. apply rtc_subrel. intros a b (k & Hk & Hp). specialize (E a). rewrite Hk in E. destruct (rg_keys reg' !! a) as [k'|] eqn:Hk'; [|done].
  injection E as E. exists k'. split; [done|]. congruence.
Qed.

Lemma parents_below_iff reg reg' h x : same_parents reg reg' -> below reg h x <-> below reg' h x.
Proof. intros E. split; apply parents_below; [done|]. intros y. by rewrite E. Qed.

Lemma parents_hives_ok reg reg' : same_parents reg reg' -> rg_root reg' = rg_root reg -> rg_hives reg' = rg_hives reg -> hives_ok reg -> hives_ok reg'.
Proof.
  intros E Er Eh HO i h Hh. unfold hive_of in Hh. rewrite Eh in Hh. destruct (HO i h Hh) as [(k & Hk & Hl) Ha]. split.
  - specialize (E h). rewrite Hk in E. destruct (rg_keys reg' !! h) as [k'|] eqn:Hk'; [|done]. injection E as E. exists k'. split; [done|]. unfold linked. by rewrite E, Er.
  - intros h' Hh'. unfold hive_of in Hh'. rewrite Eh in Hh'. rewrite <- (parents_below_iff reg reg') by done. by apply Ha.
Qed.

Lemma told_parents reg reg' : told reg reg' -> same_parents reg reg'.
Proof.
  intros (_ & _ & _ & _ & E) x. apply (f_equal (.!! x)) in E. rewrite !lookup_fmap in E. destruct (rg_keys reg' !! x), (rg_keys reg !! x); simpl in *; try done.
  apply (inj Some), notify_fields in E as (_ & E & _). by rewrite E.
Qed.

Lemma put_parents reg key k k' : rg_keys reg !! key = Some k -> k_parent k' = k_parent k -> same_parents reg (put_key reg key k').
Proof.
  intros Hk E x. simpl. destruct (decide (x = key)) as [-> |Hne]; [by rewrite lookup_insert_eq, Hk; simpl; rewrite E|by rewrite lookup_insert_ne].
Qed.

(** A touch stamps the key, counts the change and tells the watchers. *)
Lemma touch_frame reg key k change reg' :
  rg_changed reg = true -> hives_ok reg -> rg_keys reg !! key = Some k -> horizon_reg_touch reg key change = Some reg' ->
  counts reg (Some key) reg' /\ rg_hives reg' = rg_hives reg /\ rg_changed reg' = true /\ rg_root reg' = rg_root reg /\
  exists t, (fun k => k_with_notify k []) <$> rg_keys reg' = (fun k => k_with_notify k []) <$> <[key := k_with_modif k t]> (rg_keys reg).
Proof.
  intros Hc HO Hk. unfold horizon_reg_touch, now. cbv beta iota zeta. change (rg_keys (with_reads reg (S (rg_reads reg)))) with (rg_keys reg). rewrite Hk. cbn [mbind option_bind].
  set (r0 := put_key (with_reads reg (S (rg_reads reg))) key (k_with_modif k (rg_clock reg (rg_reads reg)))). replace (rg_changed r0) with true by done. cbv iota.
  assert (SP : same_parents reg r0) by (by apply (put_parents (with_reads reg (S (rg_reads reg))) key k)).
  destruct (horizon_registry_changed (walk_fuel r0) r0 (Some key)) as [r1|] eqn:E1; [|done]. cbn [mbind option_bind].
  apply changed_counts in E1 as [(C1 & C2 & C3) [g Eg]]; [|by eapply (parents_hives_ok reg)].
  destruct (horizon_reg_check_notify r1 key change true) as [r2|] eqn:E2; [|done]. cbn [mbind option_bind]. destruct (rg_keys r2 !! key) as [k2|]; [|done]. cbn [mbind option_bind].
  intros E3%touch_parents_told. apply check_notify_told in E2. assert (T : told r1 reg') by (by transitivity r2). destruct T as (T1 & T2 & T3 & T4 & T5).
  assert (EG : forall i, generation_of reg' i = generation_of r1 i) by (intros i; unfold generation_of; by rewrite T4).
  split; [|split_and!].
  - split_and!.
    + intros i h x Hh Hx Hb. rewrite EG. apply (C1 i h x); [done|done|]. by rewrite <- (parents_below_iff reg r0).
    + intros i Hn. rewrite EG. apply (C2 i). intros h x Hh Hx. rewrite <- (parents_below_iff reg r0) by done. by apply Hn.
    + intros i. rewrite EG. apply C3.
  - rewrite T3, Eg. done.
  - rewrite T2, Eg. done.
  - rewrite T1, Eg. done.
  - eexists. rewrite T5, Eg. done.
Qed.

(** When the count of a hive stays, the touched key is not below it, and the
    text of the hive is that of the registry before the touch. *)
Lemma touch_keeps reg key k change reg' i h :
  rg_changed reg = true -> hives_ok reg -> rg_keys reg !! key = Some k -> horizon_reg_touch reg key change = Some reg' ->
  hive_of reg i = Some h -> (0 <= generation_of reg i < 18446744073709551616) -> generation_of reg' i = generation_of reg i -> ~ below reg h key /\ same_hive reg reg' h.
Proof.
  intros Hc HO Hk Ht Hh Hg Eg. destruct (touch_frame reg key k change reg' Hc HO Hk Ht) as ((C1 & _) & _ & _ & _ & t & Ek).
  assert (Hn : ~ below reg h key).
  { intros Hb. specialize (C1 i h key Hh eq_refl Hb). rewrite Eg in C1. unfold u64 in C1.
    destruct (decide (generation_of reg i = 18446744073709551615)) as [E|]; [rewrite E in C1; done|]. rewrite Z.mod_small in C1 by lia. lia. }
  split; [done|]. intros x kx Hb Hx. assert (x <> key) by (by intros ->). apply (f_equal (.!! x)) in Ek. rewrite !lookup_fmap, lookup_insert_ne, Hx in Ek by done.
  destruct (rg_keys reg' !! x) as [kx'|]; [|done]. apply (inj Some), notify_fields in Ek as (L & _). by exists kx'.
Qed.

(** ** A request, and what it leaves *)

Lemma same_hive_refl reg h : same_hive reg reg h.
Proof. intros x k _ Hk. by exists k. Qed.

Lemma same_hive_below reg reg' h x : same_hive reg reg' h -> below reg h x -> below reg' h x.
Proof.
  intros HS Hb. assert (H : forall y, below reg h y -> (forall a b, parent_of reg a b -> below reg h b -> parent_of reg' a b) -> below reg' h y).
  { intros y Hy Hp. induction Hy as [y|y z w Hyz Hzw IH]; [apply rtc_refl|]. eapply rtc_l; [apply Hp; done|]. by apply IH. }
  apply H; [done|]. intros a b (k & Hk & Hp) Hb'. destruct (HS a k) as (k' & Hk' & _ & _ & _ & _ & _ & _ & Ep); [eapply rtc_l; [by exists k|done]|done|].
  exists k'. split; [done|congruence].
Qed.

Lemma same_hive_trans r1 r2 r3 h : same_hive r1 r2 h -> same_hive r2 r3 h -> same_hive r1 r3 h.
Proof.
  intros H1 H2 x k Hb Hk. destruct (H1 x k Hb Hk) as (k2 & Hk2 & L2). destruct (H2 x k2) as (k3 & Hk3 & L3); [by eapply same_hive_below|done|].
  exists k3. split; [done|]. by transitivity k2.
Qed.

(** A request that may count changes. *)
Record stepped (reg reg' : horizon_reg) : Prop := {
  sp_changed : rg_changed reg' = true;
  sp_hives : rg_hives reg' = rg_hives reg;
  sp_ok : hives_ok reg';
  sp_generation : forall i, generation_of reg' i = generation_of reg i \/ generation_of reg' i = u64 (generation_of reg i + 1);
  sp_same : forall i h, hive_of reg i = Some h -> generation_of reg' i = generation_of reg i -> same_hive reg reg' h;
}.

(** A part of a request that counts none. *)
Record still (reg reg' : horizon_reg) : Prop := {
  sl_env : rg_changed reg' = rg_changed reg /\ rg_hives reg' = rg_hives reg /\ rg_generation reg' = rg_generation reg;
  sl_ok : hives_ok reg -> hives_ok reg';
  sl_same : forall i h, hives_ok reg -> hive_of reg i = Some h -> same_hive reg reg' h;
}.

Lemma still_stepped reg reg' : rg_changed reg = true -> hives_ok reg -> still reg reg' -> stepped reg reg'.
Proof.
  intros Hc HO [(E1 & E2 & E3) S2 S3]. split; [congruence|done|by apply S2| |].
  - intros i. left. unfold generation_of. by rewrite E3.
  - intros i h Hh _. by apply (S3 i).
Qed.

Lemma stepped_still reg r1 r2 : stepped reg r1 -> still r1 r2 -> stepped reg r2.
Proof.
  intros [P1 P2 P3 P4 P5] [(E1 & E2 & E3) S2 S3]. assert (EG : forall i, generation_of r2 i = generation_of r1 i) by (intros i; unfold generation_of; by rewrite E3).
  split; [congruence|congruence|by apply S2|intros i; rewrite EG; apply P4|].
  intros i h Hh Hg. rewrite EG in Hg. apply (same_hive_trans _ r1); [by apply (P5 i)|]. apply (S3 i); [done|]. unfold hive_of in *. by rewrite P2.
Qed.

Lemma still_refl reg : still reg reg.
Proof. split; [done|done|]. intros. apply same_hive_refl. Qed.

Lemma still_trans r1 r2 r3 : still r1 r2 -> still r2 r3 -> still r1 r3.
Proof.
  intros [(E1 & E2 & E3) S2 S3] [(F1 & F2 & F3) T2 T3]. split; [split_and!; congruence|auto|]. intros i h HO Hh. eapply same_hive_trans; [by eapply (S3 i)|].
  apply (T3 i); [by apply S2|]. unfold hive_of in *. by rewrite E2.
Qed.

Lemma told_still reg reg' : told reg reg' -> still reg reg'.
Proof.
  intros T. pose proof T as (T1 & T2 & T3 & T4 & T5). split; [done|intros HO; eapply parents_hives_ok; [by apply told_parents|done..]|].
  intros i h _ _ x k _ Hk. destruct (told_key _ _ _ _ T Hk) as (k' & Hk' & E). exists k'. split; [done|]. by apply notify_fields.
Qed.

(** A change of fields that the file does not show. *)
Lemma put_still reg key k k' : rg_keys reg !! key = Some k -> saved_like k k' -> still reg (put_key reg key k').
Proof.
  intros Hk L. assert (Hp : k_parent k' = k_parent k) by (unfold saved_like in L; splits_hyps; congruence). split; [done| |].
  - eapply parents_hives_ok; [by eapply put_parents|done|done].
  - intros i h _ _ x kx _ Hx. simpl. destruct (decide (x = key)) as [-> |Hne]; [rewrite lookup_insert_eq|rewrite lookup_insert_ne by done; by exists kx].
    assert (kx = k) as -> by congruence. by eexists.
Qed.

Definition counts_fit (reg : horizon_reg) : Prop := forall i, 0 <= generation_of reg i < 18446744073709551616.

(** The end of a request that changed the tree from [reg] to [mid] and
    touches [key]. *)
Lemma touched_stepped reg mid key k change reg' :
  counts_fit reg -> rg_changed mid = true -> rg_hives mid = rg_hives reg -> rg_generation mid = rg_generation reg -> hives_ok mid ->
  rg_keys mid !! key = Some k -> horizon_reg_touch mid key change = Some reg' ->
  (forall i h, hive_of reg i = Some h -> ~ below mid h key -> same_hive reg mid h) -> stepped reg reg'.
Proof.
  intros Hf Hc Eh Eg HO Hk Ht Hs. destruct (touch_frame mid key k change reg' Hc HO Hk Ht) as ((_ & _ & C3) & T1 & T2 & T3 & t & Ek).
  assert (EG : forall i, generation_of mid i = generation_of reg i) by (intros i; unfold generation_of; by rewrite Eg).
  assert (SP : same_parents mid reg').
  { intros x. apply (f_equal (.!! x)) in Ek. rewrite !lookup_fmap in Ek. destruct (decide (x = key)) as [-> |Hne].
    - rewrite lookup_insert_eq in Ek. rewrite Hk. destruct (rg_keys reg' !! key); [|done]. apply (inj Some), notify_fields in Ek as (_ & Ek & _). simpl in *. by rewrite Ek.
    - rewrite lookup_insert_ne in Ek by done. destruct (rg_keys reg' !! x), (rg_keys mid !! x); simpl in *; try done. apply (inj Some), notify_fields in Ek as (_ & Ek & _). by rewrite Ek. }
  split; [done|congruence|by eapply parents_hives_ok|intros i; rewrite <- EG; apply C3|].
  intros i h Hh Hg. rewrite <- EG in Hg. assert (Hh' : hive_of mid i = Some h) by (unfold hive_of in *; by rewrite Eh).
  destruct (touch_keeps mid key k change reg' i h Hc HO Hk Ht Hh') as [Hn Hk']; [rewrite EG; apply Hf|done|]. eapply same_hive_trans; [by apply (Hs i)|done].
Qed.

Lemma quiet_still reg reg' : quiet reg reg' -> still reg reg'.
Proof. intros Q. by apply told_still, told_quiet. Qed.

Lemma quiet_parents reg reg' : quiet reg reg' -> same_parents reg reg'.
Proof. intros Q. by apply told_parents, told_quiet. Qed.

Lemma parents_trans r1 r2 r3 : same_parents r1 r2 -> same_parents r2 r3 -> same_parents r1 r3.
Proof. intros H1 H2 x. by rewrite H2, H1. Qed.

Lemma notify_told reg key hkey event subtree filter status reg' :
  horizon_reg_notify reg key hkey event subtree filter = Some (status, reg') -> told reg reg'.
Proof.
  unfold horizon_reg_notify. destruct (malloc reg) as [ok r1] eqn:E1. assert (Q1 : quiet reg r1) by (rewrite <- (f_equal snd E1 : snd _ = r1); apply malloc_quiet).
  destruct ok; cbn [negb]; cbv iota; [|intros [= _ <-]; by apply told_quiet]. destruct (rg_keys r1 !! key) as [k|] eqn:Hk; [|done]. cbn [mbind option_bind].
  intros [= _ <-]. transitivity r1; [by apply told_quiet|by apply told_put].
Qed.

Lemma handle_closed_told reg key hkey reg' : horizon_reg_handle_closed reg key hkey = Some reg' -> told reg reg'.
Proof.
  unfold horizon_reg_handle_closed. destruct (rg_keys reg !! key) as [k|] eqn:Hk; [|done]. cbn [mbind option_bind]. destruct (notify_loop _ _) as [kept events].
  intros [= <-]. etransitivity; [by apply told_put|apply told_signal].
Qed.

(** Forgetting a key that is not in the tree. *)
Lemma released_still reg key k :
  rg_keys reg !! key = Some k -> (k_refs k = 1 -> k_parent k = None /\ rg_root reg <> Some key) -> still reg (released reg key k).
Proof.
  intros Hk Hu. unfold released. destruct (k_refs k =? 1) eqn:E; btrue; [|by eapply put_still]. destruct (Hu E) as [Hp Hr].
  assert (Hsub : forall a b, parent_of (drop_key reg key k) a b -> parent_of reg a b).
  { intros a b (ka & Ha & Hpa). simpl in Ha. apply lookup_delete_Some in Ha as [_ Ha]. by exists ka. }
  assert (Hne : hives_ok reg -> forall i h, hive_of reg i = Some h -> h <> key).
  { intros HO i h Hh ->. destruct (HO i key Hh) as [(k' & Hk' & Hl) _]. assert (k' = k) as -> by congruence. destruct Hl as [[? Hl]|Hl]; [congruence|done]. }
  split; [done| |].
  - intros HO i h Hh. destruct (HO i h Hh) as [(kh & Hkh & Hl) Ha]. split.
    + exists kh. split; [|done]. simpl. rewrite lookup_delete_ne; [done|]. intros ->. by destruct (Hne HO i h Hh).
    + intros h' Hh' Hb. apply (Ha h' Hh'). revert Hb. by apply rtc_subrel.
  - intros i h HO Hh x kx Hb Hx. exists kx. split; [|done]. simpl. rewrite lookup_delete_ne; [done|]. intros <-.
    destruct (below_parent reg h key k Hk) as (p & Hp' & _); [intros ->; by destruct (Hne HO i h Hh)|done|]. congruence.
Qed.

Section requests.
Context (reg : horizon_reg) (held : list positive).
Hypothesis W : reg_wf reg held.
Hypothesis F : reg_fits reg.
Hypothesis Hc : rg_changed reg = true.
Hypothesis HO : hives_ok reg.
Hypothesis HF : counts_fit reg.

(** A key changed in place and touched. *)
Lemma put_touched r0 key k k1 change reg' :
  quiet reg r0 -> rg_keys reg !! key = Some k -> k_parent k1 = k_parent k -> horizon_reg_touch (put_key r0 key k1) key change = Some reg' -> stepped reg reg'.
Proof using Hc HO HF.
  intros Q Hk Hp Ht. pose proof (quiet_keys _ _ Q) as EK. pose proof Q as (Q1 & _ & _ & Q4 & Q5 & Q6 & _).
  assert (SP : same_parents reg (put_key r0 key k1)) by (eapply parents_trans; [by apply quiet_parents|]; eapply put_parents; [by rewrite EK|done]).
  eapply (touched_stepped reg (put_key r0 key k1) key k1); try done; [by rewrite <- Hc|by eapply parents_hives_ok|apply lookup_insert_eq|].
  intros i h Hh Hn x kx Hb Hx. exists kx. split; [|done]. simpl. rewrite EK, lookup_insert_ne; [done|]. intros <-. apply Hn. by apply (parents_below reg).
Qed.

Lemma set_value_stepped key k name type data status reg' :
  rg_keys reg !! key = Some k -> horizon_reg_set_value reg key name type data = Some (status, reg') -> stepped reg reg'.
Proof using W F Hc HO HF.
  intros Hk E. destruct (set_value_spec reg held key k name type data W F Hk) as (s & r & E' & _ & _ & H). rewrite E in E'. injection E' as <- <-.
  destruct H as [(_ & r0 & max & Q & ->)|[(_ & -> & _)|(_ & r0 & l & max & Q & _ & _ & _ & Ht & _)]].
  - apply still_stepped; [done|done|]. eapply still_trans; [by apply quiet_still|]. eapply put_still; [by rewrite (quiet_keys _ _ Q)|done].
  - apply still_stepped; [done|done|apply still_refl].
  - eapply put_touched; [exact Q|exact Hk| |exact Ht]. done.
Qed.

Lemma delete_value_stepped key k name status reg' :
  rg_keys reg !! key = Some k -> horizon_reg_delete_value reg key name = Some (status, reg') -> stepped reg reg'.
Proof using W F Hc HO HF.
  intros Hk E. destruct (delete_value_spec reg held key k name W F Hk) as (s & r & E' & _ & _ & H). rewrite E in E'. injection E' as <- <-.
  destruct H as [(_ & -> & _)|(_ & l & _ & Ht & _)]; [apply still_stepped; [done|done|apply still_refl]|].
  by eapply (put_touched reg key k (k_with_values k l (k_value_max k))).
Qed.

Lemma rename_stepped key k name status reg' :
  rg_keys reg !! key = Some k -> horizon_reg_rename reg key name = Some (status, reg') -> stepped reg reg'.
Proof using W F Hc HO HF.
  intros Hk E. destruct (rename_spec reg held key k name W F Hk) as (s & r & E' & _ & _ & H). rewrite E in E'. injection E' as <- <-.
  destruct H as [(_ & Q)|(_ & _ & r0 & parent & p & l & Q & Hkp & Hp & _ & _ & Ht & _)]; [apply still_stepped; [done|done|by apply quiet_still]|].
  pose proof (quiet_keys _ _ Q) as EK. pose proof Q as (Q1 & _ & _ & Q4 & Q5 & Q6 & _). assert (Hne : key <> parent) by (intros ->; by eapply (parent_irrefl reg held parent k)).
  assert (SP : same_parents reg (renamed r0 parent p l key k name)).
  { eapply parents_trans; [by apply quiet_parents|]. eapply parents_trans; [eapply put_parents; [by rewrite EK|by instantiate (1 := k_with_subkeys p l (k_subkey_max p))]|].
    eapply put_parents; [simpl; rewrite lookup_insert_ne, EK by done; exact Hk|done]. }
  eapply (touched_stepped reg (renamed r0 parent p l key k name) key (k_with_name k name)); try done; [by rewrite <- Hc|by eapply parents_hives_ok|apply lookup_insert_eq|].
  intros i h Hh Hn x kx Hb Hx. exists kx. split; [|done]. simpl. rewrite EK, !lookup_insert_ne; [done| |].
  - intros <-. apply Hn. apply (parents_below reg); [done|]. eapply rtc_l; [by exists k|done].
  - intros <-. apply Hn. by apply (parents_below reg).
Qed.

(** Keys that were there keep their parents in [mid], and their parents were
    there. *)
Lemma chain_below mid h x :
  (forall a k, rg_keys reg !! a = Some k -> k_parent <$> rg_keys mid !! a = Some (k_parent k)) -> is_Some (rg_keys reg !! x) -> below mid h x -> below reg h x.
Proof using W.
  intros Hm Hx Hb. induction Hb as [x|x y z (k & Hk & Hp) Hyz IH]; [apply rtc_refl|]. destruct Hx as [k0 Hk0]. specialize (Hm x k0 Hk0) as Hmx. rewrite Hk in Hmx.
  injection Hmx as E. assert (Hp0 : k_parent k0 = Some y) by congruence. eapply rtc_l; [by exists k0|]. apply IH.
  destruct (kw_parent _ _ _ _ (wf_keys _ _ W _ _ Hk0) y Hp0) as (ky & Hky & _). by exists ky.
Qed.

Lemma created_stepped r0 parent p i max key k1 change reg1 :
  quiet reg r0 -> rg_keys reg !! parent = Some p -> rg_keys reg !! key = None ->
  horizon_reg_touch (with_created r0 parent p i max key k1) parent change = Some reg1 -> stepped reg reg1.
Proof using W Hc HO HF.
  intros Q Hp Hk Ht. pose proof (quiet_keys _ _ Q) as EK. pose proof Q as (Q1 & _ & _ & Q4 & Q5 & Q6 & _). assert (Hne : key <> parent) by congruence.
  set (mid := with_created r0 parent p i max key k1) in *.
  assert (Hm : forall a k, rg_keys reg !! a = Some k -> exists k', rg_keys mid !! a = Some k' /\ k_parent k' = k_parent k /\ (a <> parent -> k' = k)).
  { intros a k Ha. subst mid. simpl. rewrite EK, lookup_insert_ne by congruence. destruct (decide (a = parent)) as [-> |Hap];
      [rewrite lookup_insert_eq|rewrite lookup_insert_ne by done; by exists k]. eexists. split; [done|]. assert (p = k) as -> by congruence. by split. }
  assert (Hm' : forall a k, rg_keys reg !! a = Some k -> k_parent <$> rg_keys mid !! a = Some (k_parent k)) by (intros a k Ha; destruct (Hm a k Ha) as (k' & -> & E & _); simpl; by rewrite E).
  assert (Hup : forall h x, below reg h x -> below mid h x).
  { intros h x. apply rtc_subrel. intros a b (k & Ha & Hb). destruct (Hm a k Ha) as (k' & Hk' & E & _). exists k'. split; [done|congruence]. }
  destruct (Hm parent p Hp) as (p' & Hp' & _).
  eapply (touched_stepped reg mid parent p'); try done; [by rewrite <- Hc| |].
  - intros j h Hh. assert (Hh' : hive_of reg j = Some h) by (unfold hive_of in *; simpl in *; by rewrite <- Q5). destruct (HO j h Hh') as [(k & Hkh & Hl) Ha]. split.
    + destruct (Hm h k Hkh) as (k' & Hk' & E & _). exists k'. split; [done|]. unfold linked in *. rewrite E. simpl. by rewrite Q1.
    + intros h2 Hh2 Hb. assert (Hh2' : hive_of reg (negb j) = Some h2) by (unfold hive_of in *; simpl in *; by rewrite <- Q5).
      destruct (HO (negb j) h2 Hh2') as [(k2 & Hk2 & _) _]. apply (Ha h2 Hh2'). apply (chain_below mid); [done|by exists k2|done].
  - intros j h Hh Hn x kx Hb Hx. destruct (Hm x kx Hx) as (kx' & Hx' & _ & E). exists kx'. split; [done|]. rewrite E; [done|]. intros ->. by apply Hn, Hup.
Qed.

Lemma create_stepped base name attributes options class status r reg' :
  parent_ok reg base -> (class = [] \/ status <> HORIZON_REG_NAME_EXISTS) ->
  horizon_reg_create reg base name attributes options class = Some (status, r, reg') -> stepped reg reg'.
Proof using W F Hc HO HF.
  intros Hb Hcl E. destruct (create_spec reg held base name attributes options class W F Hb) as (s & r' & r1 & E' & H). rewrite E in E'. injection E' as <- <- <-.
  destruct r as [key|]; [|destruct H as (_ & _ & Q); apply still_stepped; [done|done|by apply quiet_still]].
  destruct H as (_ & _ & path & reg1 & _ & (k & Hk & _ & ->) & H). destruct (path_last path) as [last|].
  - destruct H as (_ & p & r0 & i & max & t & Hp & _ & Q & Hnew & _ & _ & Ht). destruct (created_stepped _ _ _ _ _ _ _ _ _ Q Hp Hnew Ht) as [P1 P2 P3 P4 P5].
    split; [done|done| |done|].
    + eapply parents_hives_ok; [eapply put_parents; [exact Hk|]|done|done|done]. unfold handed_key. by case_bool_decide.
    + intros j h Hh Hg x kx Hbx Hx. destruct (P5 j h Hh Hg x kx Hbx Hx) as (kx' & Hx' & L). exists kx'. split; [|done]. simpl. rewrite lookup_insert_ne; [done|]. congruence.
  - destruct H as (-> & -> & Q). destruct Hcl as [-> |Hcl]; [|done]. apply still_stepped; [done|done|]. eapply still_trans; [by apply quiet_still|]. by eapply put_still.
Qed.

Lemma delete_stepped key k status reg' :
  rg_keys reg !! key = Some k -> (forall i, hive_of reg i <> Some key) -> horizon_reg_delete reg key = Some (status, reg') -> stepped reg reg'.
Proof using W F Hc HO HF.
  intros Hk Hnh E. destruct (delete_spec reg held key k W F Hk) as (s & r & E' & _ & _ & H). rewrite E in E'. injection E' as <- <-.
  destruct H as [(-> & _)|(_ & parent & p & i & r2 & k2 & Hkp & Hleaf & Hp & Hi & Ht & C & Hk2 & L2 & ->)]; [apply still_stepped; [done|done|apply still_refl]|].
  assert (Hne : key <> parent) by (intros ->; by eapply (parent_irrefl reg held parent k)). set (mid := without_key reg parent p i key k) in *.
  assert (Hm : forall a, a <> key -> exists f, rg_keys mid !! a = f <$> rg_keys reg !! a /\ (forall ka, k_parent (f ka) = k_parent ka) /\ (a <> parent -> f = id)).
  { intros a Ha. subst mid. simpl. rewrite lookup_insert_ne by done. destruct (decide (a = parent)) as [-> |Hap].
    - rewrite lookup_insert_eq, Hp. exists (fun ka => k_with_subkeys ka (delete i (k_subkeys p)) (k_subkey_max p)). done.
    - rewrite lookup_insert_ne by done. exists id. split_and!; [by destruct (rg_keys reg !! a)|done|done]. }
  assert (Hmk : rg_keys mid !! key = Some (deleted_key k)) by apply lookup_insert_eq.
  assert (Hdown : forall a b, parent_of mid a b -> parent_of reg a b).
  { intros a b (ka & Ha & Hb). destruct (decide (a = key)) as [-> |Hak]; [rewrite Hmk in Ha; injection Ha as <-; done|].
    destruct (Hm a Hak) as (f & Ef & Hf & _). rewrite Ef in Ha. destruct (rg_keys reg !! a) as [k0|] eqn:Ha0; [|done]. injection Ha as <-. exists k0. split; [done|]. by rewrite <- Hf. }
  assert (Hup : forall h y, y <> key -> below reg h y -> below mid h y).
  { intros h y Hy Hb. induction Hb as [y|y z w (ky & Hky & Hpy) Hzw IH]; [apply rtc_refl|].
    assert (Hz : z <> key). { intros ->. destruct (kw_parent _ _ _ _ (wf_keys _ _ W _ _ Hky) key Hpy) as (k0 & Hk0 & Hin). assert (k0 = k) as -> by congruence. rewrite Hleaf in Hin. by apply not_elem_of_nil in Hin. }
    eapply rtc_l; [|by apply IH]. destruct (Hm y Hy) as (f & Ef & Hf & _). exists (f ky). rewrite Ef, Hky. split; [done|]. by rewrite Hf. }
  destruct (Hm parent (not_eq_sym Hne)) as (fp & Ep & _).
  assert (Hst : stepped reg r2).
  { eapply (touched_stepped reg mid parent (fp p)); try done; [|by rewrite Ep, Hp|].
    - intros j h Hh. destruct (HO j h Hh) as [(kh & Hkh & Hl) Ha]. assert (Hhk : h <> key) by (intros ->; by destruct (Hnh j)). destruct (Hm h Hhk) as (f & Ef & Hf & _). split.
      + exists (f kh). rewrite Ef, Hkh. split; [done|]. unfold linked. by rewrite Hf.
      + intros h2 Hh2 Hb. apply (Ha h2 Hh2). revert Hb. by apply rtc_subrel.
    - intros j h Hh Hn x kx Hb Hx. assert (Hxk : x <> key).
      { intros ->. apply Hn. destruct (below_parent reg h key k Hk) as (p' & Hp' & Hb'); [intros ->; by destruct (Hnh j)|done|]. assert (p' = parent) as -> by congruence. by apply Hup. }
      destruct (Hm x Hxk) as (f & Ef & _ & Hid). exists kx. rewrite Ef, Hx, Hid; [done|]. intros ->. apply Hn. by apply Hup. }
  eapply stepped_still; [exact Hst|]. apply released_still; [done|]. intros _. destruct L2 as (_ & Ep2 & _). split; [done|].
  destruct (wf_root _ _ W) as (root & kr & Hr & Hkr & Hpr & _). rewrite <- (proj1 (calm_like _ _ C)). simpl. rewrite Hr. intros [= ->]. congruence.
Qed.
End requests.

(** The requests whose changes are counted: a class given to a key that exists
    is not, and a hive must not be deleted. *)
Definition counted_op (reg : horizon_reg) (op : reg_op) : Prop :=
  match op with
  | Op_delete key => forall i, hive_of reg i <> Some key
  | Op_create base name attributes options class =>
      class = [] \/ forall status r reg', horizon_reg_create reg base name attributes options class = Some (status, r, reg') -> status <> HORIZON_REG_NAME_EXISTS
  | _ => True
  end.

Lemma opened_still st status key k reg st' :
  reg_wf reg (key :: cl_held st) -> rg_keys reg !! key = Some k -> k_refs k <= UINT_MAX -> opened st (status, Some key, reg) = Some st' -> still reg (cl_reg st').
Proof.
  intros W Hk Hr. unfold opened, malloc. cbn [rg_memory rg_allocs with_allocs]. set (reg2 := with_allocs (with_allocs _ _) _).
  assert (Q : quiet reg reg2) by (subst reg2; etransitivity; [apply (malloc_quiet reg)|]; apply (malloc_quiet (with_allocs reg (S (rg_allocs reg))))).
  assert (W2 : reg_wf reg2 (key :: cl_held st)) by (by eapply quiet_wf). clearbody reg2. destruct (_ && _); [intros [= <-]; by apply quiet_still|].
  assert (Hk2 : rg_keys reg2 !! key = Some k) by (by rewrite (quiet_keys _ _ Q)).
  destruct (release_wf reg2 (cl_held st) key k W2 Hr Hk2) as [-> _]. cbn [mbind option_bind]. intros [= <-]. eapply still_trans; [by apply quiet_still|].
  apply (released_still reg2 key k Hk2). intros E1. destruct (kw_refs _ _ _ _ (wf_keys _ _ W2 _ _ Hk2)) as [E2 _]. rewrite held_count_cons_eq in E2.
  destruct (decide (linked reg2 key k)) as [|Hl]; [lia|]. unfold linked in Hl. split; [|tauto]. destruct (k_parent k); [|done]. destruct Hl. left. by eexists.
Qed.

Lemma reg_do_stepped op st st' :
  client_wf st -> reg_fits (cl_reg st) -> rg_changed (cl_reg st) = true -> hives_ok (cl_reg st) -> counts_fit (cl_reg st) -> counted_op (cl_reg st) op ->
  reg_do op st = Some st' -> stepped (cl_reg st) (cl_reg st').
Proof.
  intros WC F Hc HO HF Hop. pose proof WC as [W _].
  assert (Hst : forall reg', still (cl_reg st) reg' -> stepped (cl_reg st) reg') by (intros reg'; by apply still_stepped).
  assert (Hon : forall key f, (forall k status reg', rg_keys (cl_reg st) !! key = Some k -> f (cl_reg st) = Some (status, reg') -> stepped (cl_reg st) reg') ->
    on_key st key f = Some st' -> stepped (cl_reg st) (cl_reg st')).
  { intros key f Hf. unfold on_key. destruct (registry_key_ok st key WC) as (ok & -> & Hok). cbn [mbind option_bind].
    destruct ok; cbn [negb]; cbv iota; [|intros [= <-]; apply Hst, still_refl]. destruct (Hok eq_refl) as (_ & k & Hk & _).
    destruct (f (cl_reg st)) as [[status reg']|] eqn:E; [|done]. cbn [mbind option_bind]. intros [= <-]. by eapply Hf. }
  destruct op as [base name attributes|base name attributes options class|key|key name|key name type data|key name|key index info_class max|key name max|key index info_class max|key hkey event subtree filter|key hkey|key hkey]; cbn [reg_do].
  - destruct (base_key_ok st base WC) as (ok & -> & Hok). cbn [mbind option_bind]. destruct ok; cbn [negb]; cbv iota; [|intros [= <-]; apply Hst, still_refl].
    destruct (open_spec (cl_reg st) (cl_held st) base name attributes W F (Hok eq_refl)) as (status & r & reg' & -> & H). cbn [mbind option_bind].
    destruct r as [key|]; [|destruct H as [_ ->]; intros [= <-]; apply Hst, still_refl]. destruct H as (_ & W' & _ & _ & k & Hk & ->). destruct (proj2 F _ _ Hk) as [_ Fr].
    intros E. apply Hst. eapply still_trans; [by apply (put_still (cl_reg st) key k (k_with_refs k (k_refs k + 1)))|]. eapply opened_still; [exact W'|apply lookup_insert_eq|simpl; lia|exact E].
  - destruct (base_key_ok st base WC) as (ok & -> & Hok). cbn [mbind option_bind]. destruct ok; cbn [negb]; cbv iota; [|intros [= <-]; apply Hst, still_refl].
    destruct (create_spec (cl_reg st) (cl_held st) base name attributes options class W F (Hok eq_refl)) as (status & r & reg' & Ec & H). rewrite Ec. cbn [mbind option_bind].
    assert (Hs : stepped (cl_reg st) reg'). { eapply create_stepped; [done..|exact (Hok eq_refl)| |exact Ec]. destruct Hop as [Hop|Hop]; [by left|right]. by eapply Hop. }
    destruct r as [key|]; [|intros [= <-]; done]. destruct H as (W' & _ & path & r1 & _ & (k & Hk & Hr & ->) & _).
    intros E. eapply stepped_still; [exact Hs|]. eapply opened_still; [exact W'|apply lookup_insert_eq|unfold handed_key; simpl; lia|exact E].
  - apply Hon. intros k status reg' Hk E. by eapply delete_stepped.
  - apply Hon. intros k status reg' Hk E. by eapply rename_stepped.
  - apply Hon. intros k status reg' Hk E. by eapply set_value_stepped.
  - apply Hon. intros k status reg' Hk E. by eapply delete_value_stepped.
  - apply Hon. intros k status reg' Hk E. destruct (horizon_reg_enum_key _ _ _ _ _) as [[[[s0 info] data] reg1]|] eqn:Ee; [|done]. cbn [mbind option_bind] in E. injection E as _ <-.
    by apply Hst, quiet_still, (enum_key_quiet _ _ _ _ _ _ _ _ _ Ee).
  - apply Hon. intros k status reg' Hk E. destruct (horizon_reg_get_value _ _ _ _) as [[[[s0 ty] len] data]|]; [|done]. cbn [mbind option_bind] in E. injection E as _ <-. apply Hst, still_refl.
  - apply Hon. intros k status reg' Hk E. destruct (horizon_reg_enum_value _ _ _ _ _) as [[[[[s0 ty] len] nl] data]|]; [|done]. cbn [mbind option_bind] in E. injection E as _ <-. apply Hst, still_refl.
  - destruct (registry_key_ok st key WC) as (ok & -> & Hok). cbn [mbind option_bind]. destruct ok; cbn [negb]; cbv iota; [|intros [= <-]; apply Hst, still_refl].
    destruct (horizon_reg_notify _ _ _ _ _ _) as [[status reg']|] eqn:E; [|done]. cbn [mbind option_bind]. intros [= <-]. apply Hst, told_still. by eapply notify_told.
  - case_bool_decide; cbn [negb]; cbv iota; [|intros [= <-]; apply Hst, still_refl]. destruct (horizon_reg_handle_closed _ _ _) as [reg'|] eqn:E; [|done]. cbn [mbind option_bind].
    intros [= <-]. apply Hst, told_still. by eapply handle_closed_told.
  - case_bool_decide as Hin; cbn [negb]; cbv iota; [|intros [= <-]; apply Hst, still_refl]. destruct (wf_held _ _ W _ Hin) as [k Hk].
    destruct (handle_closed_spec _ _ _ hkey Hk) as (r1 & E & C & k1 & Hk1 & _). rewrite E. cbn [mbind option_bind].
    assert (W1 : reg_wf r1 (key :: drop_held key (cl_held st))) by (eapply wf_perm; [by apply drop_held_perm|]; by eapply calm_wf).
    destruct (reg_like_fits _ _ (calm_like _ _ C) F) as [_ F1]. destruct (F1 _ _ Hk1) as [_ Fr].
    destruct (release_wf r1 (drop_held key (cl_held st)) key k1 W1) as [-> _]; [lia|done|]. cbn [mbind option_bind]. intros [= <-]. apply Hst.
    eapply still_trans; [apply told_still; by eapply handle_closed_told|]. apply (released_still r1 key k1 Hk1). intros E1.
    destruct (kw_refs _ _ _ _ (wf_keys _ _ W1 _ _ Hk1)) as [E2 _]. rewrite held_count_cons_eq in E2.
    destruct (decide (linked r1 key k1)) as [|Hl]; [lia|]. unfold linked in Hl. split; [|tauto]. destruct (k_parent k1); [|done]. destruct Hl. left. by eexists.
Qed.
