(* ===== verification/RegistryFiles.v ===== *)
(** * The files of the hives on the SD card

    How [horizon_registry_server.h] replaces the file of a hive
    ([horizon_registry_write_snapshot]) and how [horizon_registry_paths.h] moves
    the files of an older version ([horizon_registry_move_hives]).

    The card is a map from paths to contents. Any call may fail, with the error
    a stream of answers gives; a write may stop short. [sd_seen] keeps every
    content the card had, the newest first: what is left when the power goes.
    Horizon's [rename] does not replace a file. *)
From S2P Require Import Prelude RegistryText.
From stdpp Require Import strings.
Local Open Scope Z_scope.

Definition ENOENT : Z := 2.
Definition EEXIST : Z := 17.

Abbreviation card_files := (gmap (list Z) (list Z)).

Record sd_card := mk_card {
  sd_files : card_files;
  sd_calls : nat;
  sd_fail : nat -> option Z;
  sd_seen : list card_files;
}.

(** ** Calls *)

(** Whether the next call fails, and how. *)
Definition sd_call (card : sd_card) : option Z * sd_card :=
  (sd_fail card (sd_calls card), mk_card (sd_files card) (S (sd_calls card)) (sd_fail card) (sd_seen card)).

Definition sd_change (card : sd_card) (files : card_files) : sd_card :=
  mk_card files (sd_calls card) (sd_fail card) (files :: sd_seen card).

(** [access( path, F_OK )]: 0, or the error. *)
Definition sd_access (path : list Z) (card : sd_card) : Z * sd_card :=
  let '(fail, card) := sd_call card in
  match fail with
  | Some e => (e, card)
  | None => (if bool_decide (is_Some (sd_files card !! path)) then 0 else ENOENT, card)
  end.

(** [rename( from, to )]: 0, or the error. *)
Definition sd_rename (from to : list Z) (card : sd_card) : Z * sd_card :=
  let '(fail, card) := sd_call card in
  match fail with
  | Some e => (e, card)
  | None =>
      match sd_files card !! from with
      | None => (ENOENT, card)
      | Some data =>
          if bool_decide (is_Some (sd_files card !! to)) then (EEXIST, card)
          else (0, sd_change card (<[to := data]> (delete from (sd_files card))))
      end
  end.

(** [unlink( path )]: 0, or the error. *)
Definition sd_unlink (path : list Z) (card : sd_card) : Z * sd_card :=
  let '(fail, card) := sd_call card in
  match fail with
  | Some e => (e, card)
  | None => if bool_decide (is_Some (sd_files card !! path)) then (0, sd_change card (delete path (sd_files card))) else (ENOENT, card)
  end.

(** [fopen( path, "wb" )]: the file is empty. *)
Definition sd_create (path : list Z) (card : sd_card) : bool * sd_card :=
  let '(fail, card) := sd_call card in
  match fail with Some _ => (false, card) | None => (true, sd_change card (<[path := []]> (sd_files card))) end.

(** [fwrite] of [data] to the empty file: the file grows byte by byte. *)
Fixpoint sd_grow (path : list Z) (data : list Z) (n : nat) (card : sd_card) : sd_card :=
  match n with
  | O => card
  | S n => let card := sd_grow path data n card in sd_change card (<[path := take (S n) data]> (sd_files card))
  end.

(** A failed write stores some of the bytes. *)
Definition sd_write (path data : list Z) (card : sd_card) : bool * sd_card :=
  let '(fail, card) := sd_call card in
  match fail with
  | Some n => (false, sd_grow path data (Nat.min (Z.to_nat (n - 1)) (length data)) card)
  | None => (true, sd_grow path data (length data) card)
  end.

(** [fclose]: a failure loses the bytes that were not stored yet. *)
Definition sd_close (path : list Z) (card : sd_card) : bool * sd_card :=
  let '(fail, card) := sd_call card in
  match fail with
  | Some n => (false, match sd_files card !! path with Some data => sd_change card (<[path := take (Z.to_nat (n - 1)) data]> (sd_files card)) | None => card end)
  | None => (true, card)
  end.

(** ** Replacing a hive *)

(** [HORIZON_REGISTRY_DIR] *)
Definition HORIZON_REGISTRY_DIR : list Z := text "sdmc:/switch/wine/".
Definition HORIZON_REGISTRY_SUBDIR : list Z := text "registry/".

Definition hive_path (name : list Z) : list Z := HORIZON_REGISTRY_DIR ++ name.
Definition hive_tmp (name : list Z) : list Z := hive_path name ++ text ".tmp".

(** The first test of the snapshot: a .tmp without its hive becomes the hive.
    Whether to go on. *)
Definition recover_tmp (path tmp : list Z) (card : sd_card) : bool * sd_card :=
  let '(e, card) := sd_access tmp card in
  if nonzero e then (true, card) else
  let '(e, card) := sd_access path card in
  if negb (nonzero e) then (true, card) else
  if negb (e =? ENOENT) then (false, card) else
  let '(e, card) := sd_rename tmp path card in
  (negb (nonzero e), card).

(** The .tmp takes the place of the hive. *)
Definition replace_hive (path tmp : list Z) (card : sd_card) : bool * sd_card :=
  let '(e, card) := sd_rename tmp path card in
  if negb (nonzero e) then (true, card) else
  if negb (e =? EEXIST) then (false, card) else
  let '(e, card) := sd_unlink path card in
  if nonzero e then (false, card) else
  let '(e, card) := sd_rename tmp path card in
  (negb (nonzero e), card).

Definition horizon_registry_write_snapshot (name data : list Z) (card : sd_card) : bool * sd_card :=
  let path := hive_path name in
  let tmp := hive_tmp name in
  let '(ok, card) := recover_tmp path tmp card in
  if negb ok then (false, card) else
  let '(ok, card) := sd_create tmp card in
  if negb ok then (false, card) else
  let '(wrote, card) := sd_write tmp data card in
  let '(closed, card) := sd_close tmp card in
  if negb (wrote && closed) then let '(_, card) := sd_unlink tmp card in (false, card) else
  replace_hive path tmp card.

(** ** Moving the hives of an older version *)

Definition hive_names : list (list Z) := [text "system.reg"; text "user.reg"].

(** One file of a hive goes to the new folder, if it is there. *)
Definition move_file (name suffix : list Z) (card : sd_card) : sd_card :=
  let from := HORIZON_REGISTRY_DIR ++ name ++ suffix in
  let to := HORIZON_REGISTRY_DIR ++ HORIZON_REGISTRY_SUBDIR ++ name ++ suffix in
  let '(e, card) := sd_access from card in
  if nonzero e then card else snd (sd_rename from to card).

Definition move_hive (card : sd_card) (name : list Z) : sd_card :=
  let to := HORIZON_REGISTRY_DIR ++ HORIZON_REGISTRY_SUBDIR ++ name in
  let '(e, card) := sd_access to card in
  if negb (nonzero e) then card else
  let '(e, card) := sd_access (to ++ text ".tmp") card in
  if negb (nonzero e) then card else
  move_file name (text ".tmp") (move_file name [] card).

(** The folder itself, which [mkdir] makes, is not part of the card. *)
Definition horizon_registry_move_hives (card : sd_card) : sd_card := foldl move_hive card hive_names.

(** ** What the power leaves *)

(** An error number is not 0. *)
Definition sd_sound (card : sd_card) : Prop := forall n e, sd_fail card n = Some e -> 0 < e.

(** The card came from [card] to [card'] through contents that satisfy [P]. *)
Definition passes (P : card_files -> Prop) (card card' : sd_card) : Prop :=
  sd_fail card' = sd_fail card /\ exists l, sd_seen card' = l ++ sd_seen card /\ Forall P l.

Lemma passes_refl P card card' : sd_fail card' = sd_fail card -> sd_seen card' = sd_seen card -> passes P card card'.
Proof. intros Hf Hs. split; [done|]. by exists []. Qed.

Lemma passes_trans P c1 c2 c3 : passes P c1 c2 -> passes P c2 c3 -> passes P c1 c3.
Proof.
  intros [F1 (l1 & S1 & P1)] [F2 (l2 & S2 & P2)]. split; [congruence|]. exists (l2 ++ l1). rewrite S2, S1, (assoc_L (++)). split; [done|]. by apply Forall_app.
Qed.

Lemma passes_change P card files : P files -> passes P card (sd_change card files).
Proof. intros H. split; [done|]. exists [files]. split; [done|]. by constructor. Qed.

Lemma passes_sound P card card' : passes P card card' -> sd_sound card -> sd_sound card'.
Proof. intros [F _] S n e. rewrite F. apply S. Qed.

Section calls.
Context (P : card_files -> Prop) (card : sd_card).
Hypothesis S : sd_sound card.

Lemma sd_call_passes fail card' : sd_call card = (fail, card') -> passes P card card' /\ sd_files card' = sd_files card.
Proof using. intros [= _ <-]. split; [by apply passes_refl|done]. Qed.

Lemma access_spec path e card' :
  sd_access path card = (e, card') -> passes P card card' /\ sd_files card' = sd_files card /\
  (e = 0 -> is_Some (sd_files card !! path)) /\ (sd_fail card (sd_calls card) = None -> is_Some (sd_files card !! path) -> e = 0).
Proof using S.
  unfold sd_access, sd_call. destruct (sd_fail card (sd_calls card)) as [e'|] eqn:E; intros [= <- <-]; (split; [by apply passes_refl|]); (split; [done|]).
  - split; [|done]. intros ->. apply S in E. lia.
  - simpl. case_bool_decide; split; try done.
Qed.

Lemma rename_file_spec from to e card' :
  sd_rename from to card = (e, card') -> (forall data, sd_files card !! from = Some data -> sd_files card !! to = None -> P (<[to := data]> (delete from (sd_files card)))) ->
  passes P card card' /\
  (e <> 0 /\ sd_files card' = sd_files card \/
   e = 0 /\ exists data, sd_files card !! from = Some data /\ sd_files card !! to = None /\ sd_files card' = <[to := data]> (delete from (sd_files card))).
Proof using S.
  unfold sd_rename, sd_call. intros H HP. destruct (sd_fail card (sd_calls card)) as [e'|] eqn:E.
  { injection H as <- <-. split; [by apply passes_refl|]. left. split; [|done]. apply S in E. lia. }
  simpl in H. destruct (sd_files card !! from) as [data|] eqn:Hfrom; [|injection H as <- <-; split; [by apply passes_refl|by left]].
  case_bool_decide as Ht; injection H as <- <-; [split; [by apply passes_refl|by left]|]. apply eq_None_not_Some in Ht.
  split; [|right; split; [done|]; by exists data]. eapply passes_trans; [|apply passes_change; by apply HP]. by apply passes_refl.
Qed.

Lemma unlink_spec path e card' :
  sd_unlink path card = (e, card') -> P (delete path (sd_files card)) -> passes P card card' /\
  (e <> 0 /\ sd_files card' = sd_files card \/ e = 0 /\ sd_files card' = delete path (sd_files card)).
Proof using S.
  unfold sd_unlink, sd_call. intros H HP. destruct (sd_fail card (sd_calls card)) as [e'|] eqn:E.
  { injection H as <- <-. split; [by apply passes_refl|]. left. split; [|done]. apply S in E. lia. }
  simpl in H. case_bool_decide; injection H as <- <-; [|split; [by apply passes_refl|by left]]. split; [|by right].
  eapply passes_trans; [|by apply passes_change]. by apply passes_refl.
Qed.

Lemma create_file_spec path ok card' :
  sd_create path card = (ok, card') -> P (<[path := []]> (sd_files card)) -> passes P card card' /\
  (ok = false /\ sd_files card' = sd_files card \/ ok = true /\ sd_files card' = <[path := []]> (sd_files card)).
Proof using.
  unfold sd_create, sd_call. intros H HP. destruct (sd_fail card (sd_calls card)) as [e'|]; injection H as <- <-; (split; [|auto]); [by apply passes_refl|].
  eapply passes_trans; [|by apply passes_change]. by apply passes_refl.
Qed.
End calls.

(** The file of a path may hold any part of [data], the others stay. *)
Lemma grow_spec P path data n card :
  (forall k, P (<[path := take k data]> (sd_files card))) -> sd_files card !! path = Some [] -> (n <= length data)%nat ->
  passes P card (sd_grow path data n card) /\ sd_files (sd_grow path data n card) = <[path := take n data]> (sd_files card).
Proof.
  intros HP H0 Hn. induction n as [|n IH]; [split; [by apply passes_refl|]; simpl; by rewrite insert_id|]. destruct IH as [IH1 IH2]; [lia|]. cbn [sd_grow]. cbv zeta.
  assert (E : <[path := take (S n) data]> (sd_files (sd_grow path data n card)) = <[path := take (S n) data]> (sd_files card)) by (rewrite IH2; apply insert_insert_eq).
  split; [|exact E]. eapply passes_trans; [exact IH1|]. apply passes_change. rewrite E. apply HP.
Qed.

Lemma write_spec P path data card ok card' :
  sd_write path data card = (ok, card') -> (forall k, P (<[path := take k data]> (sd_files card))) -> sd_files card !! path = Some [] ->
  passes P card card' /\ exists k, sd_files card' = <[path := take k data]> (sd_files card) /\ (ok = true -> take k data = data).
Proof.
  unfold sd_write, sd_call. intros H HP H0. set (card1 := mk_card _ _ _ _) in H. assert (P1 : passes P card card1) by (by apply passes_refl).
  assert (HP1 : forall k, P (<[path := take k data]> (sd_files card1))) by done. assert (H1 : sd_files card1 !! path = Some []) by done.
  destruct (sd_fail card (sd_calls card)) as [n|]; injection H as <- <-.
  - destruct (grow_spec P path data (Nat.min (Z.to_nat (n - 1)) (length data)) card1 HP1 H1) as [G1 G2]; [lia|]. split; [eapply passes_trans; [exact P1|exact G1]|]. eexists. split; [exact G2|done].
  - destruct (grow_spec P path data (length data) card1 HP1 H1) as [G1 G2]; [lia|]. split; [eapply passes_trans; [exact P1|exact G1]|]. eexists. split; [exact G2|]. intros _. by apply take_ge.
Qed.

Lemma close_spec P path data card ok card' :
  sd_close path card = (ok, card') -> sd_files card !! path = Some data -> (forall k, P (<[path := take k data]> (sd_files card))) ->
  passes P card card' /\ exists k, sd_files card' = <[path := take k data]> (sd_files card) /\ (ok = true -> take k data = data).
Proof.
  unfold sd_close, sd_call. intros H H0 HP. destruct (sd_fail card (sd_calls card)) as [n|]; injection H as <- <-.
  - simpl. rewrite H0. split; [|by eexists]. eapply passes_trans; [|apply passes_change, HP]. by apply passes_refl.
  - split; [by apply passes_refl|]. exists (length data). rewrite take_ge by lia. split; [|done]. symmetry. by apply insert_id.
Qed.

(** The hive [name] is kept with the content [data]: in its file, or in the
    .tmp when there is no file. *)
Definition hive_saved (files : card_files) (name data : list Z) : Prop :=
  files !! hive_path name = Some data \/ files !! hive_path name = None /\ files !! hive_tmp name = Some data.

(** The files of other names. *)
Definition others_same (name : list Z) (files files' : card_files) : Prop :=
  forall x, x <> hive_path name -> x <> hive_tmp name -> files' !! x = files !! x.

Lemma hive_path_tmp name : hive_path name <> hive_tmp name.
Proof.
  unfold hive_tmp. intros E. apply (f_equal length) in E. rewrite length_app in E. change (length (text ".tmp")) with 4%nat in E. lia.
Qed.

Section snapshot.
Context (name old data : list Z) (files0 : card_files).
Abbreviation path := (hive_path name).
Abbreviation tmp := (hive_tmp name).

Definition kept (files : card_files) : Prop := (hive_saved files name old \/ hive_saved files name data) /\ others_same name files0 files.

Lemma kept_path files : files !! path = Some old -> others_same name files0 files -> kept files.
Proof using. intros H O. split; [|done]. left. by left. Qed.

Lemma others_insert x d files : x = path \/ x = tmp -> others_same name files0 files -> others_same name files0 (<[x := d]> files).
Proof using. intros Hx O y H1 H2. rewrite lookup_insert_ne; [by apply O|]. destruct Hx as [-> | ->]; congruence. Qed.

Lemma others_delete x files : x = path \/ x = tmp -> others_same name files0 files -> others_same name files0 (delete x files).
Proof using. intros Hx O y H1 H2. rewrite lookup_delete_ne; [by apply O|]. destruct Hx as [-> | ->]; congruence. Qed.

Lemma recover_tmp_spec card ok card' :
  sd_sound card -> hive_saved (sd_files card) name old -> (sd_files card !! path = None -> sd_fail card (sd_calls card) = None) -> others_same name files0 (sd_files card) ->
  recover_tmp path tmp card = (ok, card') ->
  passes kept card card' /\ others_same name files0 (sd_files card') /\ hive_saved (sd_files card') name old /\ (ok = true -> sd_files card' !! path = Some old).
Proof using.
  intros S H0 Hc O. unfold recover_tmp. destruct (sd_access tmp card) as [e1 c1] eqn:E1. apply (access_spec kept) in E1 as (P1 & F1 & _ & A1); [|done].
  destruct (nonzero e1) eqn:N1; btrue.
  { intros [= <- <-]. rewrite F1. split_and!; try done. intros _. destruct H0 as [H0|[H0 H1]]; [done|]. destruct N1. apply A1; [by apply Hc|by eexists]. }
  destruct (sd_access path c1) as [e2 c2] eqn:E2. assert (S1 : sd_sound c1) by (by eapply passes_sound). apply (access_spec kept) in E2 as (P2 & F2 & A2 & _); [|done].
  assert (P12 : passes kept card c2) by (by eapply passes_trans). rewrite F1 in F2, A2. destruct (nonzero e2) eqn:N2; cbn [negb]; cbv iota; btrue; cycle 1.
  { intros [= <- <-]. rewrite F2. split_and!; try done. intros _. destruct (A2 N2) as [d Hd]. destruct H0 as [H0|[H0 _]]; [done|congruence]. }
  destruct (e2 =? ENOENT); cbn [negb]; cbv iota; [|intros [= <- <-]; rewrite F2; by split_and!].
  destruct (sd_rename tmp path c2) as [e3 c3] eqn:E3. intros [= <- <-]. assert (S2 : sd_sound c2) by (by eapply passes_sound).
  apply (rename_file_spec kept) in E3 as (P3 & H3); [|done|].
  - split; [by eapply passes_trans|]. rewrite F2 in H3. destruct H3 as [[Hne F3]|(-> & d & Hd & Hp & F3)].
    + rewrite F3. split_and!; [done|done|]. destruct (nonzero e3) eqn:N3; btrue; [done|]. done.
    + rewrite F3. assert (d = old) as -> by (destruct H0 as [H0|[_ H0]]; congruence).
      split_and!; [apply others_insert; [by left|]; by apply others_delete; [right|]|left; apply lookup_insert_eq|intros _; apply lookup_insert_eq].
  - rewrite F2. intros d Hd Hp. assert (d = old) as -> by (destruct H0 as [H0|[_ H0]]; congruence).
    apply kept_path; [apply lookup_insert_eq|]. apply others_insert; [by left|]. by apply others_delete; [right|].
Qed.

Lemma replace_hive_spec card ok card' :
  sd_sound card -> sd_files card !! path = Some old -> sd_files card !! tmp = Some data -> others_same name files0 (sd_files card) ->
  replace_hive path tmp card = (ok, card') -> passes kept card card' /\ kept (sd_files card') /\ (ok = true -> hive_saved (sd_files card') name data).
Proof using.
  intros S Hp Ht O. assert (HK : kept (sd_files card)) by (by apply kept_path). unfold replace_hive. destruct (sd_rename tmp path card) as [e1 c1] eqn:E1.
  apply (rename_file_spec kept) in E1 as (P1 & H1); [|done|intros; congruence]. destruct H1 as [[N1 F1]|(_ & d & _ & Hn & _)]; [|congruence].
  assert (Hn1 : nonzero e1 = true) by (unfold nonzero; by apply negb_true_iff, Z.eqb_neq). rewrite Hn1. cbn [negb]. cbv iota.
  destruct (e1 =? EEXIST); cbn [negb]; cbv iota; [|intros [= <- <-]; by rewrite F1]. assert (S1 : sd_sound c1) by (by eapply passes_sound).
  assert (Hgone : kept (delete path (sd_files card))).
  { split; [|by apply others_delete; [left|]]. right. right. split; [apply lookup_delete_eq|]. rewrite lookup_delete_ne; [done|]. apply hive_path_tmp. }
  destruct (sd_unlink path c1) as [e2 c2] eqn:E2. apply (unlink_spec kept) in E2 as (P2 & H2); [|done|by rewrite F1]. rewrite F1 in H2.
  assert (P12 : passes kept card c2) by (by eapply passes_trans). destruct H2 as [[N2 F2]|[-> F2]].
  { assert (Hn2 : nonzero e2 = true) by (unfold nonzero; by apply negb_true_iff, Z.eqb_neq). rewrite Hn2. intros [= <- <-]. by rewrite F2. }
  change (nonzero 0) with false. cbv iota. destruct (sd_rename tmp path c2) as [e3 c3] eqn:E3. intros [= <- <-]. assert (S2 : sd_sound c2) by (by eapply passes_sound).
  assert (Ht2 : delete path (sd_files card) !! tmp = Some data) by (rewrite lookup_delete_ne; [done|apply hive_path_tmp]).
  assert (Hnew : kept (<[path := data]> (delete tmp (delete path (sd_files card))))).
  { split; [|apply others_insert; [by left|]; apply others_delete; [by right|]; by apply others_delete; [left|]]. right. left. apply lookup_insert_eq. }
  apply (rename_file_spec kept) in E3 as (P3 & H3); [|done|rewrite F2; intros d Hd _; by assert (d = data) as -> by congruence].
  split; [by eapply passes_trans|]. rewrite F2 in H3. destruct H3 as [[N3 ->]|(-> & d & Hd & _ & ->)]; [|assert (d = data) as -> by congruence; split; [done|]; intros _; left; apply lookup_insert_eq].
  split; [done|]. unfold nonzero. intros H. btrue. done.
Qed.
End snapshot.

(** C21: A hive is not lost to a power cut: with the old content in its file,
    or only in the .tmp of an interrupted save, every content the card has
    while a new snapshot is written, through failures and short writes, keeps
    the old content or the whole new one where the next start finds it; a
    snapshot that reports success left the new one; no other file is touched.
    One failure is left out, and the hive is lost to it
    ([snapshot_tmp_unseen]): where the hive is in the .tmp only, the first
    call, access of the .tmp (horizon_registry_server.h:179), must not fail. *)
Theorem snapshot_crash_safe name old data card ok card' :
  sd_sound card -> hive_saved (sd_files card) name old -> (sd_files card !! hive_path name = None -> sd_fail card (sd_calls card) = None) ->
  horizon_registry_write_snapshot name data card = (ok, card') ->
  (exists l, sd_seen card' = l ++ sd_seen card /\
    Forall (fun files => (hive_saved files name old \/ hive_saved files name data) /\ others_same name (sd_files card) files) (sd_files card' :: l)) /\
  (ok = true -> hive_saved (sd_files card') name data).
Proof.
  intros S H0 Hc H. set (K := kept name old data (sd_files card)).
  assert (Hgoal : passes K card card' /\ K (sd_files card') /\ (ok = true -> hive_saved (sd_files card') name data)).
  2: { destruct Hgoal as ([_ (l & Hl & Hall)] & HK & Hok). split; [|done]. exists l. split; [done|]. by constructor. }
  revert H. unfold horizon_registry_write_snapshot. cbv zeta. destruct (recover_tmp _ _ card) as [ok1 c1] eqn:E1.
  destruct (recover_tmp_spec name old data (sd_files card) card ok1 c1) as (P1 & O1 & H1 & F1); [done..|].
  assert (S1 : sd_sound c1) by (by eapply passes_sound). destruct ok1; cbn [negb]; cbv iota; cycle 1.
  { intros [= <- <-]. split_and!; [done|split; [by left|done]|done]. }
  specialize (F1 eq_refl). assert (HK : forall d files, files !! hive_path name = Some old -> others_same name (sd_files card) files -> K (<[hive_tmp name := d]> files)).
  { intros d files Hp O. apply kept_path; [rewrite lookup_insert_ne; [done|]; apply not_eq_sym, hive_path_tmp|]. by apply others_insert; [right|]. }
  assert (K1 : K (sd_files c1)) by (by apply kept_path).
  destruct (sd_create _ c1) as [ok2 c2] eqn:E2. apply (create_file_spec K) in E2 as (P2 & H2); [|by apply HK]. assert (P12 : passes K card c2) by (by eapply passes_trans).
  destruct H2 as [[-> F2]|[-> F2]]; cbn [negb]; cbv iota; [intros [= <- <-]; by rewrite F2|].
  destruct (sd_write _ data c2) as [wrote c3] eqn:E3. apply (write_spec K) in E3 as (P3 & n & F3 & W3).
  2: { intros k. rewrite F2, insert_insert_eq. by apply HK. } 2: { rewrite F2. apply lookup_insert_eq. }
  rewrite F2, insert_insert_eq in F3. assert (P13 : passes K card c3) by (by eapply passes_trans).
  destruct (sd_close _ c3) as [closed c4] eqn:E4. apply (close_spec K _ (take n data)) in E4 as (P4 & m & F4 & W4).
  2: { rewrite F3. apply lookup_insert_eq. } 2: { intros k. rewrite F3, insert_insert_eq. by apply HK. }
  rewrite F3, insert_insert_eq in F4. assert (P14 : passes K card c4) by (by eapply passes_trans). assert (S4 : sd_sound c4) by (by eapply passes_sound).
  assert (Hp4 : sd_files c4 !! hive_path name = Some old) by (rewrite F4, lookup_insert_ne; [done|apply not_eq_sym, hive_path_tmp]).
  assert (O4 : others_same name (sd_files card) (sd_files c4)) by (rewrite F4; by apply others_insert; [right|]). destruct (wrote && closed) eqn:Ewc; cbn [negb]; cbv iota; cycle 1.
  { destruct (sd_unlink _ c4) as [e5 c5] eqn:E5. intros [= <- <-].
    assert (K5 : K (delete (hive_tmp name) (sd_files c4))).
    { apply kept_path; [rewrite lookup_delete_ne; [done|]; apply not_eq_sym, hive_path_tmp|by apply others_delete; [right|]]. }
    apply (unlink_spec K) in E5 as (P5 & H5); [|done|done]. split; [by eapply passes_trans|]. split; [|done].
    destruct H5 as [[_ ->]|[_ ->]]; [|done]. by apply kept_path. }
  apply andb_true_iff in Ewc as [-> ->]. intros H5.
  destruct (replace_hive_spec name old data (sd_files card) c4 ok card') as (P5 & K5 & R5); [done|done| |done|done|].
  { rewrite F4, lookup_insert_eq. f_equal. rewrite W4 by done. by apply W3. }
  split_and!; [by eapply passes_trans|done|done].
Qed.

(** ** What a snapshot leaves, whatever was there *)

(** The new folder's files of a name that is not the one written stay. *)
Lemma snapshot_others name data card ok card' :
  sd_sound card -> horizon_registry_write_snapshot name data card = (ok, card') -> others_same name (sd_files card) (sd_files card') /\ sd_sound card'.
Proof.
  intros S. set (O := others_same name (sd_files card)). assert (HO : O (sd_files card)) by done. unfold horizon_registry_write_snapshot. cbv zeta.
  assert (Hren : forall c e c', sd_sound c -> O (sd_files c) -> sd_rename (hive_tmp name) (hive_path name) c = (e, c') -> O (sd_files c') /\ sd_sound c').
  { intros c e c' Sc Oc E. assert (Hp : forall d, O (<[hive_path name := d]> (delete (hive_tmp name) (sd_files c)))).
    { intros d. apply others_insert; [by left|]. by apply others_delete; [right|]. }
    apply (rename_file_spec O) in E as (P & H); [|done|by intros]. split; [|by eapply passes_sound]. destruct H as [[_ ->]|(_ & d & _ & _ & ->)]; [done|apply Hp]. }
  assert (Hun : forall c x e c', x = hive_path name \/ x = hive_tmp name -> sd_sound c -> O (sd_files c) -> sd_unlink x c = (e, c') -> O (sd_files c') /\ sd_sound c').
  { intros c x e c' Hx Sc Oc E. assert (Hp : O (delete x (sd_files c))) by (by apply others_delete). apply (unlink_spec O) in E as (P & H); [|done|done].
    split; [|by eapply passes_sound]. by destruct H as [[_ ->]|[_ ->]]. }
  destruct (recover_tmp _ _ card) as [ok1 c1] eqn:E1. assert (H1 : O (sd_files c1) /\ sd_sound c1).
  { revert E1. unfold recover_tmp. destruct (sd_access _ card) as [e a1] eqn:A1. apply (access_spec O) in A1 as (P1 & F1 & _); [|done]. assert (S1 : sd_sound a1) by (by eapply passes_sound).
    destruct (nonzero e); [intros [= _ <-]; by rewrite F1|]. destruct (sd_access _ a1) as [e2 a2] eqn:A2. apply (access_spec O) in A2 as (P2 & F2 & _); [|done].
    assert (S2 : sd_sound a2) by (by eapply passes_sound). assert (O2 : O (sd_files a2)) by (by rewrite F2, F1). destruct (negb (nonzero e2)); [by intros [= _ <-]|].
    destruct (negb (e2 =? ENOENT)); [by intros [= _ <-]|]. destruct (sd_rename _ _ a2) as [e3 a3] eqn:A3. intros [= _ <-]. by eapply Hren. }
  destruct H1 as [O1 S1]. destruct (negb ok1); [by intros [= _ <-]|]. assert (Hins : forall d f, O f -> O (<[hive_tmp name := d]> f)) by (intros d f; by apply others_insert; right).
  destruct (sd_create _ c1) as [ok2 c2] eqn:E2. apply (create_file_spec O) in E2 as (P2 & H2); [|by apply Hins].
  assert (S2 : sd_sound c2) by (by eapply passes_sound). assert (O2 : O (sd_files c2)) by (destruct H2 as [[_ ->]|[_ ->]]; [done|by apply Hins]).
  destruct ok2; cbn [negb]; cbv iota; [|by intros [= _ <-]]. destruct H2 as [[? _]|[_ F2]]; [done|].
  destruct (sd_write _ data c2) as [wrote c3] eqn:E3. apply (write_spec O) in E3 as (P3 & n & F3 & _); [|intros k; by apply Hins|rewrite F2; apply lookup_insert_eq].
  assert (S3 : sd_sound c3) by (by eapply passes_sound). assert (O3 : O (sd_files c3)) by (rewrite F3; by apply Hins).
  destruct (sd_close _ c3) as [closed c4] eqn:E4. apply (close_spec O _ (take n data)) in E4 as (P4 & m & F4 & _); [|rewrite F3; apply lookup_insert_eq|intros k; by apply Hins].
  assert (S4 : sd_sound c4) by (by eapply passes_sound). assert (O4 : O (sd_files c4)) by (rewrite F4; by apply Hins).
  destruct (negb (wrote && closed)). { destruct (sd_unlink _ c4) as [e5 c5] eqn:E5. intros [= _ <-]. eapply Hun; [by right|exact S4|done|exact E5]. }
  unfold replace_hive. destruct (sd_rename _ _ c4) as [e5 c5] eqn:E5. destruct (Hren _ _ _ S4 O4 E5) as [O5 S5]. destruct (negb (nonzero e5)); [by intros [= _ <-]|].
  destruct (negb (e5 =? EEXIST)); [by intros [= _ <-]|]. destruct (sd_unlink _ c5) as [e6 c6] eqn:E6. destruct (Hun _ _ _ _ (or_introl eq_refl) S5 O5 E6) as [O6 S6].
  destruct (nonzero e6); [by intros [= _ <-]|]. destruct (sd_rename _ _ c6) as [e7 c7] eqn:E7. intros [= _ <-]. by eapply Hren.
Qed.

(** A snapshot that reports success is the hive. *)
Lemma snapshot_saves name data card card' :
  sd_sound card -> horizon_registry_write_snapshot name data card = (true, card') -> sd_files card' !! hive_path name = Some data.
Proof.
  intros S. set (T := fun _ : card_files => True). unfold horizon_registry_write_snapshot. cbv zeta.
  assert (Hren : forall c e c', sd_sound c -> sd_files c !! hive_tmp name = Some data -> sd_rename (hive_tmp name) (hive_path name) c = (e, c') ->
    sd_sound c' /\ (e = 0 /\ sd_files c' !! hive_path name = Some data \/ e <> 0 /\ sd_files c' = sd_files c)).
  { intros c e c' Sc Hd E. apply (rename_file_spec T) in E as (P & H); [|done|done]. split; [by eapply passes_sound|].
    destruct H as [[? ?]|(-> & d & Hd' & _ & ->)]; [by right|left]. split; [done|]. rewrite lookup_insert_eq. congruence. }
  destruct (recover_tmp _ _ card) as [ok1 c1] eqn:E1. assert (S1 : sd_sound c1).
  { revert E1. unfold recover_tmp. destruct (sd_access _ card) as [e a1] eqn:A1. apply (access_spec T) in A1 as (P1 & _); [|done]. assert (S1 : sd_sound a1) by (by eapply passes_sound).
    destruct (nonzero e); [by intros [= _ <-]|]. destruct (sd_access _ a1) as [e2 a2] eqn:A2. apply (access_spec T) in A2 as (P2 & _); [|done].
    assert (S2 : sd_sound a2) by (by eapply passes_sound). destruct (negb (nonzero e2)); [by intros [= _ <-]|].
    destruct (negb (e2 =? ENOENT)); [by intros [= _ <-]|]. destruct (sd_rename _ _ a2) as [e3 a3] eqn:A3. intros [= _ <-].
    apply (rename_file_spec T) in A3 as (P3 & _); [by eapply passes_sound|done|done]. }
  destruct (negb ok1); [done|]. destruct (sd_create _ c1) as [ok2 c2] eqn:E2. apply (create_file_spec T) in E2 as (P2 & H2); [|done]. assert (S2 : sd_sound c2) by (by eapply passes_sound).
  destruct ok2; cbn [negb]; cbv iota; [|done]. destruct H2 as [[? _]|[_ F2]]; [done|].
  destruct (sd_write _ data c2) as [wrote c3] eqn:E3. apply (write_spec T) in E3 as (P3 & n & F3 & W3); [|done|rewrite F2; apply lookup_insert_eq].
  destruct (sd_close _ c3) as [closed c4] eqn:E4. apply (close_spec T _ (take n data)) in E4 as (P4 & m & F4 & W4); [|rewrite F3; apply lookup_insert_eq|done].
  assert (S4 : sd_sound c4) by (eapply passes_sound; [exact P4|]; by eapply passes_sound). destruct (wrote && closed) eqn:Ewc; cbn [negb]; cbv iota; [|by destruct (sd_unlink _ c4)].
  apply andb_true_iff in Ewc as [-> ->]. assert (Ht4 : sd_files c4 !! hive_tmp name = Some data) by (rewrite F4, lookup_insert_eq; f_equal; rewrite W4 by done; by apply W3).
  unfold replace_hive. destruct (sd_rename _ _ c4) as [e5 c5] eqn:E5. destruct (Hren _ _ _ S4 Ht4 E5) as [S5 [[-> H5]|[N5 F5]]]; [by intros [= <-]|].
  assert (Hn5 : nonzero e5 = true) by (unfold nonzero; by apply negb_true_iff, Z.eqb_neq). rewrite Hn5. cbn [negb]. cbv iota. destruct (negb (e5 =? EEXIST)); [done|].
  destruct (sd_unlink _ c5) as [e6 c6] eqn:E6. apply (unlink_spec T) in E6 as (P6 & H6); [|done|done]. assert (S6 : sd_sound c6) by (by eapply passes_sound).
  destruct (nonzero e6) eqn:N6; [done|]. destruct H6 as [[H6 _]|[_ F6]]; [btrue; done|]. destruct (sd_rename _ _ c6) as [e7 c7] eqn:E7. intros [= Hok <-].
  destruct (Hren c6 e7 c7 S6) as [_ [[_ H7]|[N7 _]]]; [rewrite F6, lookup_delete_ne by apply hive_path_tmp; by rewrite F5|done|done|]. unfold nonzero in Hok. btrue. done.
Qed.

(** ** Examples *)

Definition sample_name : list Z := HORIZON_REGISTRY_SUBDIR ++ text "system.reg".

(** A card whose hive is only in the .tmp; the write stops after one byte. *)
Definition sample_card : sd_card := mk_card {[hive_tmp sample_name := [1; 2]]} 0 (fun n => if (n =? 4)%nat then Some 2 else None) [].

Lemma snapshot_crash_safe_witness :
  Forall (fun files => (hive_saved files sample_name [1; 2] \/ hive_saved files sample_name [3; 4; 5]) /\ others_same sample_name (sd_files sample_card) files)
    (sd_seen (snd (horizon_registry_write_snapshot sample_name [3; 4; 5] sample_card))).
Proof.
  destruct (snapshot_crash_safe sample_name [1; 2] [3; 4; 5] sample_card (fst (horizon_registry_write_snapshot sample_name [3; 4; 5] sample_card))
    (snd (horizon_registry_write_snapshot sample_name [3; 4; 5] sample_card))) as [(l & E & H) _].
  - intros n e. simpl. destruct (n =? 4)%nat; [intros [= <-]; reflexivity|discriminate].
  - right. split; vm_compute; reflexivity.
  - intros _. vm_compute. reflexivity.
  - apply surjective_pairing.
  - rewrite E. simpl. rewrite app_nil_r. exact (Forall_inv_tail H).
Defined.

(** When the first test fails with another error than that the .tmp is missing,
    the .tmp that holds the only copy is emptied. *)
Example snapshot_tmp_unseen :
  let card := mk_card {[hive_tmp sample_name := [1; 2]]} 0 (fun n => if (n =? 0)%nat then Some EIO else None) [] in
  (fun files => (files !! hive_path sample_name, files !! hive_tmp sample_name)) <$> last (sd_seen (snd (horizon_registry_write_snapshot sample_name [3; 4; 5] card))) =
  Some (None, Some []).
Proof. vm_compute. reflexivity. Qed.

(** When the move of a hive fails, the move of its .tmp is still tried: the
    next start finds a .tmp in the new folder and leaves the hive behind. *)
Example move_hive_apart :
  let card := mk_card {[HORIZON_REGISTRY_DIR ++ text "system.reg" := [1; 2]; HORIZON_REGISTRY_DIR ++ text "system.reg.tmp" := [3]]} 0
                (fun n => if (n =? 3)%nat then Some EIO else None) [] in
  let files := sd_files (move_hive (move_hive card (text "system.reg")) (text "system.reg")) in
  (files !! (HORIZON_REGISTRY_DIR ++ text "system.reg"), files !! hive_path sample_name, files !! hive_tmp sample_name) = (Some [1; 2], None, Some [3]).
Proof. vm_compute. reflexivity. Qed.
