(* ===== verification/RegistryServer.v ===== *)
(** * The registry of the server

    [horizon_registry_server.h] around the tree: the first request makes the
    root keys, loads the seeds and the files of the hives
    ([horizon_registry_init]), requests change the tree, and a maintenance
    thread writes the hives that changed ([horizon_registry_flush]).

    A flush holds the lock of the objects while it makes the text of a hive and
    while it stores the generation it saved; between these, and while it
    writes, the server answers requests. The requests that come in at those two
    points are arguments of the flush. *)
From S2P Require Import Prelude RegistryNames Registry RegistryInv RegistryTree RegistryText RegistryLoad RegistryLoadSafe RegistryDirty RegistryFiles.
From stdpp Require Import strings.
Local Open Scope Z_scope.

#[local] Arguments walk_fuel : simpl never.

(** ** Loading *)

Definition HIVE_LIMIT : Z := 16 * 1024 * 1024.

(** Whether [path] held a registry file. *)
Definition horizon_registry_load_file (base : positive) (path : list Z) (card : sd_card) (reg : horizon_reg) : option (bool * sd_card * horizon_reg) :=
  let '(fail, card) := sd_call card in
  match fail, sd_files card !! path with
  | None, Some data =>
      let '(fail, card) := sd_call card in
      let '(ok, reg) := if bool_decide (is_Some fail) || (HIVE_LIMIT <? Z.of_nat (length data)) then (false, reg) else malloc reg in
      if negb ok then Some (false, card, reg) else
      let '(fail, card) := sd_call card in
      match fail with
      | Some _ => Some (false, card, reg)
      | None => '(status, _, reg) ← horizon_reg_load reg base data; Some (negb (status =? HORIZON_REG_NOT_REGISTRY_FILE), card, reg)
      end
  | _, _ => Some (false, card, reg)
  end.

Definition horizon_registry_load_hive (base : positive) (name : list Z) (card : sd_card) (reg : horizon_reg) : option (sd_card * horizon_reg) :=
  '(loaded, card, reg) ← horizon_registry_load_file base (hive_path name) card reg;
  if loaded : bool then Some (card, reg) else
  '(_, card, reg) ← horizon_registry_load_file base (hive_tmp name) card reg;
  Some (card, reg).

(** ** The seeds *)

Definition quoted (s : string) : list Z := [QUOTE] ++ text s ++ [QUOTE].
Definition line (s : string) : list Z := text s ++ [10].
Definition string_line (name value : string) : list Z := quoted name ++ text "=" ++ quoted value ++ [10].

Definition machine_seed : list Z :=
  line "WINE REGISTRY Version 2" ++
  line "[System\\CurrentControlSet\\Control\\ComputerName\\ComputerName]" ++
  string_line "ComputerName" "WINE-NX" ++
  line "[System\\CurrentControlSet\\Control\\ComputerName\\ActiveComputerName]" ++
  string_line "ComputerName" "WINE-NX" ++
  line "[System\\CurrentControlSet\\Services\\Tcpip\\Parameters]" ++
  string_line "Hostname" "wine-nx" ++
  string_line "Domain" "" ++
  line "[Software\\Classes\\CLSID\\{BCDE0395-E52F-467C-8E3D-C4579291692E}\\InprocServer32]" ++
  text "@=" ++ quoted "mmdevapi.dll" ++ [10] ++
  string_line "ThreadingModel" "Both" ++
  line "[Software\\NVIDIA Corporation\\PhysX\\Runtimes]" ++
  string_line "PhysXCore Path" "C:\\physx\\Engine" ++
  line "[System\\CurrentControlSet\\Control\\Session Manager\\Memory Management]" ++
  string_line "PagingFiles" "C:\\pagefile.sys 27 77".

Definition user_seed : list Z := line "WINE REGISTRY Version 2" ++ line "[Software\\Wine\\Drivers]" ++ string_line "Audio" "nxaudio".

(** ** The first request *)

Definition user_path : string := "User\S-1-5-21-0-0-0-1000".

Definition create_ascii (reg : horizon_reg) (key : positive) (path : string) : option (option positive * horizon_reg) :=
  horizon_reg_create_ascii (S (length (text path))) reg key (text path).

(** The keys below [key] that must be there. *)
Fixpoint create_all (reg : horizon_reg) (l : list (positive * string)) : option (bool * horizon_reg) :=
  match l with
  | [] => Some (true, reg)
  | (key, path) :: l =>
      '(sub, reg) ← create_ascii reg key path;
      if bool_decide (is_Some sub) then create_all reg l else Some (false, reg)
  end.

(** No registry is left: the whole tree is released. *)
Definition init_failed (reg : horizon_reg) (root : positive) (card : sd_card) : option (Z * sd_card * horizon_reg) :=
  reg ← horizon_reg_release (walk_fuel reg) reg root;
  Some (HORIZON_REG_NO_MEMORY, card, with_root reg None).

Definition system_name : list Z := HORIZON_REGISTRY_SUBDIR ++ text "system.reg".
Definition user_name : list Z := HORIZON_REGISTRY_SUBDIR ++ text "user.reg".
Definition classes_name : list Z := text "horizon-dlls/classes.reg".

Definition horizon_registry_init (card : sd_card) (reg : horizon_reg) : option (Z * sd_card * horizon_reg) :=
  if bool_decide (is_Some (rg_root reg)) then Some (0, card, reg) else
  let '(ok, reg) := horizon_reg_init reg in
  if negb ok then Some (HORIZON_REG_NO_MEMORY, card, reg) else
  root ← rg_root reg;
  '(machine, reg) ← create_ascii reg root "Machine";
  '(user, reg) ← create_ascii reg root user_path;
  match machine, user with
  | Some machine, Some user =>
      '(ok, reg) ← create_all reg [(machine, "Software\Classes"); (machine, "System\CurrentControlSet"); (user, "Software"); (root, "User\.Default")];
      if negb ok then init_failed reg root card else
      '(status, _, reg) ← horizon_reg_load reg machine machine_seed;
      if nonzero status then init_failed reg root card else
      '(status, errors, reg) ← horizon_reg_load reg user user_seed;
      if nonzero status || nonzero errors then init_failed reg root card else
      '(card, reg) ← horizon_registry_load_hive machine classes_name card reg;
      let card := horizon_registry_move_hives card in
      '(card, reg) ← horizon_registry_load_hive machine system_name card reg;
      '(card, reg) ← horizon_registry_load_hive user user_name card reg;
      Some (0, card, with_changed reg true (Some machine, Some user) (0, 0))
  | _, _ => init_failed reg root card
  end.

(** ** The flush *)

(** The registry with the handles of its keys, the card, and the generations
    that were saved. *)
Record reg_server := mk_server {
  sv_client : reg_client;
  sv_card : sd_card;
  sv_saved : Z * Z;
}.

Definition sv_reg (sv : reg_server) : horizon_reg := cl_reg (sv_client sv).
Definition saved_of (sv : reg_server) (i : bool) : Z := if i then snd (sv_saved sv) else fst (sv_saved sv).
Definition set_saved (saved : Z * Z) (i : bool) (g : Z) : Z * Z := if i then (fst saved, g) else (g, snd saved).

Definition flush_name (i : bool) : list Z := if i then user_name else system_name.
Definition flush_root (i : bool) : string := if i then "\\User\\S-1-5-21-0-0-0-1000" else "\\Machine".

Definition hive_header (i : bool) : list Z := line "WINE REGISTRY Version 2" ++ text ";; All keys relative to " ++ line (flush_root i).

(** The text of a hive, and whether memory held it. *)
Definition make_text (i : bool) (hive : positive) (reg : horizon_reg) : option (option (list Z) * horizon_reg) :=
  let '(ok, reg) := malloc reg in
  if negb ok then Some (None, reg) else t ← hive_text reg hive; Some (Some (hive_header i ++ t), reg).

(** The requests that are answered while the lock is free. *)
Definition serve (ops : list reg_op) (sv : reg_server) : option reg_server :=
  client ← for_each (fun st op => reg_do op st) ops (sv_client sv);
  Some (mk_server client (sv_card sv) (sv_saved sv)).

(** The part of a turn that holds the lock: the text of a hive that changed.
    [None]: nothing to write; [Some None]: no memory. *)
Definition flush_take (i : bool) (sv : reg_server) : option (option (option (list Z)) * reg_server) :=
  match hive_of (sv_reg sv) i with
  | Some hive =>
      if generation_of (sv_reg sv) i =? saved_of sv i then Some (None, sv) else
      '(data, reg) ← make_text i hive (sv_reg sv);
      Some (Some data, mk_server (mk_client reg (cl_held (sv_client sv)) (cl_asked (sv_client sv))) (sv_card sv) (sv_saved sv))
  | None => Some (None, sv)
  end.

(** The turn of the loop for one hive. *)
Definition flush_hive (i : bool) (during after_write : list reg_op) (sv : reg_server) : option (bool * reg_server) :=
  let generation := generation_of (sv_reg sv) i in
  '(taken, sv) ← flush_take i sv;
  sv ← serve during sv;
  match taken with
  | None => Some (true, sv)
  | Some None => Some (false, sv)
  | Some (Some data) =>
      let '(ok, card) := horizon_registry_write_snapshot (flush_name i) data (sv_card sv) in
      sv ← serve after_write (mk_server (sv_client sv) card (sv_saved sv));
      Some (ok, if ok then mk_server (sv_client sv) (sv_card sv) (set_saved (sv_saved sv) i generation) else sv)
  end.

(** [d1 .. d4] are the requests at the points without the lock. *)
Definition horizon_registry_flush (d1 d2 d3 d4 : list reg_op) (sv : reg_server) : option (bool * reg_server) :=
  '(ok1, sv) ← flush_hive false d1 d2 sv;
  '(ok2, sv) ← flush_hive true d3 d4 sv;
  Some (ok1 && ok2, sv).

(** RegFlushKey: the status of the handle, or of the flush. [key] is the key of
    the handle. *)
Definition horizon_registry_flush_key (key : positive) (d1 d2 d3 d4 : list reg_op) (sv : reg_server) : option (Z * reg_server) :=
  ok ← horizon_registry_key (sv_client sv) key;
  if negb ok then Some (if bool_decide (key ∈ cl_held (sv_client sv)) then HORIZON_REG_KEY_DELETED else 0xc0000008, sv) else
  '(ok, sv) ← horizon_registry_flush d1 d2 d3 d4 sv;
  Some (if ok : bool then 0 else 0xc0000001, sv).
