(* ===== verification/RegistryFlush.v ===== *)
(** * What is saved is what the registry holds

    The registry of the server as it runs: it starts with
    [horizon_registry_init], answers requests and flushes, with requests
    answered during a flush. No request faults, and a hive that was saved and
    whose count of changes is the saved one is on the card as it is in memory,
    but for the two requests whose change the code does not count. *)
From S2P Require Import Prelude RegistryNames Registry RegistryInv RegistryTree RegistryText RegistryLoad RegistryLoadSafe RegistryDirty RegistryFiles RegistryServer.
From stdpp Require Import strings.
Local Open Scope Z_scope.

#[local] Arguments walk_fuel : simpl never.
#[local] Arguments horizon_reg_load : simpl never.

(** ** The root keys *)

(** [r] is reached from [key] by the names [es]. *)
Inductive at_path (reg : horizon_reg) : positive -> list reg_name -> positive -> Prop :=
  | At_nil key : at_path reg key [] key
  | At_cons key c s e es r : rg_keys reg !! c = Some s -> k_parent s = Some key -> name_eq (k_name s) e -> at_path reg c es r -> at_path reg key (e :: es) r.

(** The elements of a path as [horizon_reg_create_ascii] takes them. *)
Fixpoint ascii_elements (fuel : nat) (path : list Z) : list reg_name :=
  match fuel with
  | O => []
  | S fuel =>
      if bool_decide (path = []) then [] else
      let name := ascii_element path in
      let rest := drop (length name) path in
      name :: ascii_elements fuel (if bool_decide (head rest = Some BACKSLASH) then tail rest else rest)
  end.

Lemma at_path_kept held n reg reg' key es r : loaded held n reg reg' -> at_path reg key es r -> at_path reg' key es r.
Proof.
  intros L. induction 1 as [|key c s e es r Hc Hp Hn H IH]; [constructor|]. destruct (lo_kept _ _ _ _ L c s Hc) as (s' & Hs' & Ep & En).
  eapply At_cons; [exact Hs'|congruence|by rewrite En|done].
Qed.

Lemma at_path_same reg reg' key es r : rg_keys reg' = rg_keys reg -> at_path reg key es r -> at_path reg' key es r.
Proof. intros E. induction 1 as [|key c s e es r Hc Hp Hn H IH]; [constructor|]. eapply At_cons; [by rewrite E|done..]. Qed.

Lemma ascii_element_good path : ascii_element path <> [] -> good_name (ascii_element path).
Proof.
  intros H. split_and!; [done| |].
  - unfold ascii_element. intros Hin. apply elem_of_take in Hin as (i & Hi & _). apply list_elem_of_lookup_2 in Hi.
    destruct path as [|c path]; [by apply not_elem_of_nil in Hi|]. by apply (element_parts (c :: path)) in Hi.
  - unfold ascii_element, bytes_len. rewrite length_take. unfold HORIZON_REG_MAX_NAME. lia.
Qed.

Lemma create_ascii_ok fuel reg held key path n :
  reg_wf reg held -> 0 <= n -> budget reg (n + Z.of_nat (length path)) -> alive reg key -> (length path < fuel)%nat -> Forall (fun e => e <> []) (ascii_elements fuel path) ->
  exists r reg', horizon_reg_create_ascii fuel reg key path = Some (r, reg') /\ loaded held n reg reg' /\
    forall sub, r = Some sub -> alive reg' sub /\ at_path reg' key (ascii_elements fuel path) sub.
Proof.
  revert reg key path. induction fuel as [|fuel IH]; intros reg key path W H0 B (k & Hk & Hd) Hf Hgood; [lia|]. cbn [horizon_reg_create_ascii]. cbn [ascii_elements] in Hgood |- *.
  case_bool_decide as Ep.
  { exists (Some key), reg. split_and!; [done|eapply loaded_quiet; [done|exact B|lia|done]|]. intros sub [= <-]. split; [by exists k|constructor]. }
  cbv zeta. set (name := ascii_element path) in *. set (rest := if bool_decide (head (drop (length name) path) = Some BACKSLASH) then tail (drop (length name) path) else drop (length name) path) in *.
  inversion Hgood as [|? ? Hn Hgood']; subst.
  assert (Hlen : (length rest < length path)%nat).
  { assert (Hname : (1 <= length name)%nat) by (destruct name; [done|simpl; lia]). assert (Hd' : (length (drop (length name) path) < length path)%nat) by (rewrite length_drop; destruct path; [done|simpl in *; lia]).
    subst rest. case_bool_decide; [|done]. destruct (drop (length name) path); simpl in *; lia. }
  rewrite Hk. cbn [mbind option_bind]. assert (F : reg_fits reg) by (eapply budget_fits; [|exact B]; lia).
  assert (Hnext : forall reg1 sub s, loaded held (n + Z.of_nat (length rest)) reg reg1 -> rg_keys reg1 !! sub = Some s -> has_flag s HORIZON_REG_FLAG_DELETED = false -> k_parent s = Some key -> name_eq (k_name s) name ->
    exists r reg', horizon_reg_create_ascii fuel reg1 sub rest = Some (r, reg') /\ loaded held n reg reg' /\ forall sub, r = Some sub -> alive reg' sub /\ at_path reg' key (name :: ascii_elements fuel rest) sub).
  { intros reg1 sub s L1 Hs Hds Hps Hns. destruct (IH reg1 sub rest) as (r & reg' & E & L & A); [apply L1|done|apply L1|by exists s|lia|done|].
    exists r, reg'. split_and!; [done|by eapply loaded_trans|]. intros sub' ->. destruct (A sub' eq_refl) as [A1 A2]. split; [done|].
    destruct (lo_kept _ _ _ _ L sub s Hs) as (s' & Hs' & Ep' & En'). eapply At_cons; [exact Hs'|congruence|by rewrite En'|done]. }
  destruct (find_subkey_wf reg held key k name W F Hk) as (found & index & -> & Hfound). cbn [mbind option_bind]. destruct found as [sub|].
  - destruct Hfound as (_ & Hi & He). apply list_elem_of_lookup_2 in Hi. destruct (kw_sub _ _ _ _ (wf_keys _ _ W _ _ Hk) sub Hi) as (s & Hs & Hp).
    eapply (Hnext reg sub s); [eapply loaded_quiet; [done|exact B|lia|done]|done| |done|].
    + apply (kw_deleted _ _ _ _ (wf_keys _ _ W _ _ Hs)). left. by exists key.
    + unfold key_name in He. by rewrite Hs in He.
  - destruct (now reg) as [t r0] eqn:E0. assert (Q0 : quiet reg r0) by (rewrite <- (f_equal snd E0 : snd _ = r0); apply now_quiet).
    pose proof (link_new_ok r0 held key k name t index (n + Z.of_nat (length rest))) as HL. pose proof (link_new_key r0 key name t index) as HK.
    assert (HL' : match horizon_reg_alloc_key r0 name t with
      | (None, reg1) => loaded held (n + Z.of_nat (length rest)) r0 reg1
      | (Some sub, reg1) => exists status reg2, horizon_reg_link reg1 key sub index = Some (status, reg2) /\
          if nonzero status then exists reg3, horizon_reg_release (walk_fuel reg2) reg2 sub = Some reg3 /\ loaded held (n + Z.of_nat (length rest)) r0 reg3
          else loaded held (n + Z.of_nat (length rest)) r0 reg2 /\ alive reg2 sub end).
    { apply HL; [by eapply quiet_wf|lia|unfold budget; rewrite (quiet_keys _ _ Q0); eapply budget_weaken; [|exact B]; lia|by rewrite (quiet_keys _ _ Q0)|done|by apply ascii_element_good|by rewrite (quiet_keys _ _ Q0)]. }
    clear HL. assert (L0 : loaded held (n + Z.of_nat (length rest)) reg r0) by (eapply loaded_quiet; [done|exact B|lia|done]).
    assert (Hw : forall r, loaded held (n + Z.of_nat (length rest)) r0 r -> loaded held n reg r).
    { intros r L. pose proof (loaded_trans _ _ _ _ _ _ L0 L) as [? ? ? ? ? ?]. split; try done. eapply budget_weaken; [|done]. lia. }
    destruct (horizon_reg_alloc_key r0 name t) as [[sub|] r1]; [|exists None, r1; split_and!; [done|by apply Hw|done]].
    destruct HL' as (status & r2 & E2 & HL). rewrite E2. cbn [mbind option_bind]. destruct (nonzero status) eqn:Hst.
    + destruct HL as (r3 & -> & L3). cbn [mbind option_bind]. exists None, r3. split_and!; [done|by apply Hw|done].
    + destruct HL as [L2 A2]. destruct (HK sub r1 eq_refl status r2 E2 Hst) as (s & Hs & Hps & Hns). destruct A2 as (s' & Hs' & Hds). assert (s' = s) as -> by congruence.
      eapply (Hnext r2 sub s); [by eapply loaded_trans|done|done|done|]. by rewrite Hns.
Qed.

(** The same, with the room as a number. *)
Lemma create_ascii_any reg held key path n m :
  reg_wf reg held -> 0 <= n -> budget reg m -> n + Z.of_nat (length (text path)) <= m -> alive reg key ->
  bool_decide (Forall (fun e => e <> []) (ascii_elements (S (length (text path))) (text path))) ->
  exists r reg', create_ascii reg key path = Some (r, reg') /\ loaded held n reg reg' /\ forall sub, r = Some sub -> alive reg' sub /\ at_path reg' key (ascii_elements (S (length (text path))) (text path)) sub.
Proof.
  intros W H0 B Hm A Hg. apply bool_decide_unpack in Hg. apply create_ascii_ok; try done; [by eapply budget_weaken|lia].
Qed.

Lemma create_all_ok l reg held n m :
  reg_wf reg held -> 0 <= n -> budget reg m -> n + Z.of_nat (sum_list_with (fun '(_, path) => length (text path)) l) <= m ->
  Forall (fun '(key, path) => alive reg key /\ bool_decide (Forall (fun e => e <> []) (ascii_elements (S (length (text path))) (text path)))) l ->
  exists ok reg', create_all reg l = Some (ok, reg') /\ loaded held n reg reg'.
Proof.
  revert reg m. induction l as [|[key path] l IH]; intros reg m W H0 B Hm Hl; cbn [create_all]; [exists true, reg; split; [done|]; eapply loaded_quiet; [done|exact B|simpl in Hm; lia|done]|].
  apply Forall_cons in Hl as [[Ha Hg] Hl]. cbn [sum_list_with] in Hm. rewrite Nat2Z.inj_add in Hm. set (m' := n + Z.of_nat (sum_list_with (fun '(_, path) => length (text path)) l)) in *.
  destruct (create_ascii_any reg held key path m' m W) as (r & r1 & -> & L & _); [lia|done|lia|done|done|]. cbn [mbind option_bind].
  assert (Hw : loaded held n reg r1) by (destruct L; split; try done; eapply budget_weaken; [|done]; lia).
  destruct (bool_decide (is_Some r)); [|by exists false, r1]. destruct (IH r1 m') as (ok & r2 & E2 & L2); [apply L|done|apply L|lia| |].
  - eapply Forall_impl; [exact Hl|]. intros [key' path'] [? ?]. split; [by apply (lo_alive _ _ _ _ L)|done].
  - exists ok, r2. split; [exact E2|by eapply loaded_trans].
Qed.

(** ** Files *)

Lemma load_file_ok base path card reg held n :
  reg_wf reg held -> 0 <= n -> budget reg (n + HIVE_LIMIT) -> alive reg base ->
  exists ok card' reg', horizon_registry_load_file base path card reg = Some (ok, card', reg') /\ loaded held n reg reg' /\ sd_fail card' = sd_fail card.
Proof.
  intros W H0 B A. assert (Hh : 0 <= HIVE_LIMIT) by done. assert (L0 : loaded held n reg reg) by (eapply loaded_quiet; [done|exact B|lia|done]).
  unfold horizon_registry_load_file, sd_call. cbn [sd_fail sd_calls sd_files sd_seen]. destruct (sd_fail card _); [by eexists _, _, _|]. destruct (_ !! path) as [data|]; [|by eexists _, _, _].
  destruct (_ || _) eqn:El; cbn [negb]; cbv iota; [by eexists _, _, _|]. apply orb_false_iff in El as [_ El]. btrue.
  destruct (malloc reg) as [ok r1] eqn:Em. assert (Q1 : quiet reg r1) by (rewrite <- (f_equal snd Em : snd _ = r1); apply malloc_quiet).
  assert (L1 : loaded held (n + HIVE_LIMIT) reg r1) by (eapply loaded_quiet; [done|exact B|lia|done]).
  assert (L1' : loaded held n reg r1) by (eapply loaded_quiet; [done|exact B|lia|done]). destruct ok; cbn [negb]; cbv iota; [|by eexists _, _, _].
  destruct (sd_fail card _); [by eexists _, _, _|].
  destruct (load_any r1 held base data n) as (status & errors & r2 & -> & L2 & _); [apply L1|done|eapply budget_weaken; [|apply L1]; lia|by apply L1|]. cbn [mbind option_bind].
  eexists _, _, _. split_and!; [done|by eapply loaded_trans|done].
Qed.

Lemma load_hive_ok base name card reg held n :
  reg_wf reg held -> 0 <= n -> budget reg (n + 2 * HIVE_LIMIT) -> alive reg base ->
  exists card' reg', horizon_registry_load_hive base name card reg = Some (card', reg') /\ loaded held n reg reg' /\ sd_fail card' = sd_fail card.
Proof.
  intros W H0 B A. assert (Hh : 0 <= HIVE_LIMIT) by done. unfold horizon_registry_load_hive.
  destruct (load_file_ok base (hive_path name) card reg held (n + HIVE_LIMIT) W) as (ok & c1 & r1 & -> & L1 & F1); [lia|eapply budget_weaken; [|exact B]; lia|done|]. cbn [mbind option_bind].
  destruct ok; [exists c1, r1; split_and!; [done| |done]; destruct L1; split; try done; eapply budget_weaken; [|done]; lia|].
  destruct (load_file_ok base (hive_tmp name) c1 r1 held n) as (ok & c2 & r2 & -> & L2 & F2); [apply L1|done|apply L1|by apply L1|]. cbn [mbind option_bind].
  exists c2, r2. split_and!; [done|by eapply loaded_trans|congruence].
Qed.

Lemma move_hives_fail card : sd_fail (horizon_registry_move_hives card) = sd_fail card.
Proof.
  assert (Hc : forall c : sd_card, sd_fail (snd (sd_call c)) = sd_fail c) by done.
  assert (Ha : forall p c, sd_fail (snd (sd_access p c)) = sd_fail c) by (intros p c; unfold sd_access, sd_call; destruct (sd_fail c _); done).
  assert (Hr : forall p q c, sd_fail (snd (sd_rename p q c)) = sd_fail c).
  { intros p q c. unfold sd_rename, sd_call. cbn [sd_fail sd_files]. destruct (sd_fail c _); [done|]. destruct (_ !! p); [|done]. by case_bool_decide. }
  assert (Hf : forall name suffix c, sd_fail (move_file name suffix c) = sd_fail c).
  { intros name suffix c. unfold move_file. specialize (Ha (HORIZON_REGISTRY_DIR ++ name ++ suffix) c). destruct (sd_access _ c) as [e c1]. simpl in Ha. destruct (nonzero e); [done|]. by rewrite Hr. }
  assert (Hm : forall name c, sd_fail (move_hive c name) = sd_fail c).
  { intros name c. unfold move_hive. pose proof (Ha (HORIZON_REGISTRY_DIR ++ HORIZON_REGISTRY_SUBDIR ++ name) c) as H1. destruct (sd_access _ c) as [e c1]. simpl in H1.
    destruct (negb (nonzero e)); [done|]. pose proof (Ha ((HORIZON_REGISTRY_DIR ++ HORIZON_REGISTRY_SUBDIR ++ name) ++ text ".tmp") c1) as H2. destruct (sd_access _ c1) as [e2 c2]. simpl in H2.
    destruct (negb (nonzero e2)); [congruence|]. by rewrite !Hf, H2. }
  unfold horizon_registry_move_hives, hive_names. cbn [foldl]. by rewrite !Hm.
Qed.

(** ** The start *)

Definition START_ROOM : Z := 200000000.

Lemma init_room memory clock reg : horizon_reg_init (reg_nothing memory clock) = (true, reg) -> budget reg START_ROOM.
Proof.
  unfold horizon_reg_init. set (r0 := with_changed _ _ _ _). assert (E0 : rg_keys r0 = ∅) by done. clearbody r0.
  unfold now. destruct (alloc_key_spec (with_reads r0 (S (rg_reads r0))) registry_name (rg_clock r0 (rg_reads r0))) as (r1 & Q & [->|(key & -> & _)]).
  { rewrite bool_decide_eq_false_2 by (by intros [? ?]). intros [=]. }
  intros [= <-]. pose proof (quiet_keys _ _ Q) as EK. simpl in EK. rewrite E0 in EK. split; simpl; rewrite EK.
  - rewrite map_size_insert_None by apply lookup_empty. by rewrite map_size_empty.
  - intros x kx. rewrite lookup_insert_Some, lookup_empty. intros [[_ <-]|[_ [=]]]. done.
Qed.

Lemma root_alive reg held root : reg_wf reg held -> rg_root reg = Some root -> alive reg root.
Proof.
  intros W Hr. destruct (wf_root _ _ W) as (r & k & Hr' & Hk & _). assert (r = root) as -> by congruence. exists k. split; [done|].
  apply (kw_deleted _ _ _ _ (wf_keys _ _ W _ _ Hk)). by right.
Qed.

(** The two hives are apart. *)
Lemma hives_start reg held root machine user :
  reg_wf reg held -> rg_root reg = Some root -> at_path reg root [text "Machine"] machine -> at_path reg root [text "User"; text "S-1-5-21-0-0-0-1000"] user ->
  rg_hives reg = (Some machine, Some user) -> hives_ok reg.
Proof.
  intros W Hr Hm Hu Hh. destruct (wf_root _ _ W) as (r & kr & Hr' & Hkr & Hpr & _). assert (r = root) as -> by congruence. clear Hr'.
  inversion Hm as [|? ? km ? ? ? Hkm Hpm Hnm Hm']; subst. inversion Hm'; subst. clear Hm Hm'.
  inversion Hu as [|? u ku ? ? ? Hku Hpu Hnu Hu']; subst. inversion Hu' as [|? ? ks ? ? ? Hks Hps Hns Hu2]; subst. inversion Hu2; subst. clear Hu Hu' Hu2.
  assert (Hmu : machine <> u). { intros ->. assert (ku = km) as -> by congruence. assert (name_eq (text "Machine") (text "User")) as E by (by etransitivity; [symmetry|]). vm_compute in E. done. }
  assert (Hur : u <> root) by congruence. assert (Hmu' : machine <> user) by congruence. assert (Hmr : machine <> root) by congruence. assert (Hsr : user <> root) by congruence.
  assert (Hroot : forall h, below reg h root -> h = root).
  { intros h Hb. apply rtc_inv in Hb as [-> |(y & (k & Hk & Hp) & _)]; [done|congruence]. }
  assert (Hstep : forall h x k p, rg_keys reg !! x = Some k -> k_parent k = Some p -> below reg h x -> h = x \/ below reg h p).
  { intros h x k p Hk Hp Hb. apply rtc_inv in Hb as [-> |(y & (k' & Hk' & Hp') & Hb)]; [by left|right]. by assert (y = p) as -> by congruence. }
  assert (B1 : ~ below reg machine user).
  { intros Hb. destruct (Hstep _ _ _ _ Hks Hps Hb) as [? |Hb1]; [done|]. destruct (Hstep _ _ _ _ Hku Hpu Hb1) as [? |Hb2]; [done|]. by apply Hroot in Hb2. }
  assert (B2 : ~ below reg user machine).
  { intros Hb. destruct (Hstep _ _ _ _ Hkm Hpm Hb) as [? |Hb1]; [done|]. by apply Hroot in Hb1. }
  intros i h Hi. unfold hive_of in *. rewrite Hh in *. destruct i; injection Hi as <-; (split; [eexists; split; [eassumption|]; left; by eexists|]); intros h' [= <-]; done.
Qed.

Lemma init_ok memory clock card card' reg :
  horizon_registry_init card (reg_nothing memory clock) = Some (0, card', reg) ->
  reg_wf reg [] /\ all_events reg = [] /\ reg_fits reg /\ rg_changed reg = true /\ hives_ok reg /\ (forall i, is_Some (hive_of reg i)) /\ rg_generation reg = (0, 0) /\ sd_fail card' = sd_fail card.
Proof.
  unfold horizon_registry_init. rewrite bool_decide_eq_false_2 by (by intros [? ?]). destruct (horizon_reg_init _) as [ok r0] eqn:E0.
  destruct ok; cbn [negb]; cbv iota; [|done]. destruct (init_wf _ _ _ E0) as [W0 V0]. pose proof (init_room _ _ _ E0) as B0. destruct (wf_root _ _ W0) as (root & kr & Hr & _). rewrite Hr.
  cbn [mbind option_bind]. pose proof (root_alive _ _ _ W0 Hr) as A0.
  assert (Hfail : forall r, init_failed r root card <> Some (0, card', reg)) by (intros r; unfold init_failed; destruct (horizon_reg_release _ _ _); by intros [=]).
  destruct (create_ascii_any r0 [] root "Machine" 199000000 START_ROOM) as (machine & r1 & -> & L1 & P1); [done..|vm_compute; done|]. cbn [mbind option_bind].
  destruct (create_ascii_any r1 [] root user_path 198000000 199000000) as (user & r2 & -> & L2 & P2); [apply L1|done|apply L1|done|by apply L1|vm_compute; done|]. cbn [mbind option_bind].
  destruct machine as [machine|]; [|by intros H%Hfail]. destruct user as [user|]; [|by intros H%Hfail].
  destruct (P1 machine eq_refl) as [AM PM]. destruct (P2 user eq_refl) as [AU PU]. clear P1 P2. apply (lo_alive _ _ _ _ L2) in AM. apply (at_path_kept _ _ _ _ _ _ _ L2) in PM.
  pose proof (loaded_trans _ _ _ _ _ _ L1 L2) as L02. clear L1 L2. pose proof (lo_alive _ _ _ _ L02 root A0) as A2.
  destruct (create_all_ok [(machine, "Software\Classes"); (machine, "System\CurrentControlSet"); (user, "Software"); (root, "User\.Default")] r2 [] 197000000 198000000) as (ok & r3 & -> & L3);
    [apply L02|done|apply L02|done|repeat (constructor; [split; [done|vm_compute; done]|]); constructor|]. cbn [mbind option_bind].
  destruct ok; cbn [negb]; cbv iota; [|by intros H%Hfail].
  destruct (load_any r3 [] machine machine_seed 196000000) as (status & e & r4 & -> & L4 & _); [apply L3|done|eapply budget_weaken; [|apply L3]; done|by apply L3|]. cbn [mbind option_bind].
  destruct (nonzero status); [by intros H%Hfail|]. pose proof (loaded_trans _ _ _ _ _ _ L3 L4) as L24. clear L3 L4.
  destruct (load_any r4 [] user user_seed 195000000) as (status2 & e2 & r5 & -> & L5 & _); [apply L24|done|eapply budget_weaken; [|apply L24]; done|by apply L24|]. cbn [mbind option_bind].
  destruct (_ || _); [by intros H%Hfail|]. pose proof (loaded_trans _ _ _ _ _ _ L24 L5) as L25. clear L24 L5.
  destruct (load_hive_ok machine classes_name card r5 [] 150000000) as (c6 & r6 & -> & L6 & F6); [apply L25|done|eapply budget_weaken; [|apply L25]; done|by apply L25|]. cbn [mbind option_bind].
  pose proof (loaded_trans _ _ _ _ _ _ L25 L6) as L26. clear L25 L6. cbv zeta.
  destruct (load_hive_ok machine system_name (horizon_registry_move_hives c6) r6 [] 100000000) as (c7 & r7 & -> & L7 & F7);
    [apply L26|done|eapply budget_weaken; [|apply L26]; done|by apply L26|]. cbn [mbind option_bind]. rewrite move_hives_fail in F7.
  pose proof (loaded_trans _ _ _ _ _ _ L26 L7) as L27. clear L26 L7.
  destruct (load_hive_ok user user_name c7 r7 [] 50000000) as (c8 & r8 & -> & L8 & F8); [apply L27|done|eapply budget_weaken; [|apply L27]; done|by apply L27|]. cbn [mbind option_bind].
  pose proof (loaded_trans _ _ _ _ _ _ L27 L8) as L28. clear L27 L8. intros [= <- <-].
  pose proof (loaded_trans _ _ _ _ _ _ L02 L28) as L. destruct (lo_env _ _ _ _ L) as (E1 & _).
  apply (at_path_kept _ _ _ _ _ _ _ L28) in PM. apply (at_path_kept _ _ _ _ _ _ _ L28) in PU.
  set (reg' := with_changed r8 true (Some machine, Some user) (0, 0)). assert (HL : reg_like r8 reg') by (exact (reflexivity (R := reg_like) r8)).
  assert (W' : reg_wf reg' []) by (eapply reg_like_wf; [exact HL|apply L]).
  split_and!; [done| | |done| |by intros []; eexists|done|congruence].
  - change (all_events r8 = []). apply Permutation_nil. by rewrite (lo_events _ _ _ _ L), V0.
  - eapply reg_like_fits; [exact HL|]. eapply budget_fits; [|apply L]. done.
  - eapply (hives_start reg' [] root machine user); [done|by rewrite <- Hr|by apply (at_path_same r8)|by apply (at_path_same r8)|done].
Qed.

(** ** Requests and the saved counts *)

(** A request may be answered: memory holds the registry, the counts do not
    wrap, and its changes are counted. *)
Definition op_fine (reg : horizon_reg) (op : reg_op) : Prop :=
  reg_fits reg /\ op_fits reg op /\ (forall i, generation_of reg i + 1 < 18446744073709551616) /\ counted_op reg op.

Fixpoint serve_fine (ops : list reg_op) (st : reg_client) : Prop :=
  match ops with
  | [] => True
  | op :: ops => op_fine (cl_reg st) op /\ forall st', reg_do op st = Some st' -> serve_fine ops st'
  end.

(** The requests at the two points of a turn without the lock. *)
Definition flush_fine (i : bool) (during after_write : list reg_op) (sv : reg_server) : Prop :=
  forall taken sv1, flush_take i sv = Some (taken, sv1) ->
    serve_fine during (sv_client sv1) /\ forall sv2, serve during sv1 = Some sv2 -> serve_fine after_write (sv_client sv2).

(** The registry of a server that runs. *)
Definition running (st : reg_client) : Prop :=
  client_wf st /\ rg_changed (cl_reg st) = true /\ hives_ok (cl_reg st) /\ (forall i, is_Some (hive_of (cl_reg st) i)) /\ forall i, 0 <= generation_of (cl_reg st) i.

Definition text_of (reg : horizon_reg) (i : bool) : option (list Z) := h ← hive_of reg i; t ← hive_text reg h; Some (hive_header i ++ t).

(** Changes since are counted. *)
Definition counted_since (reg reg' : horizon_reg) : Prop :=
  forall i, generation_of reg i <= generation_of reg' i /\ (generation_of reg' i = generation_of reg i -> text_of reg' i = text_of reg i).

Lemma counted_trans r1 r2 r3 : counted_since r1 r2 -> counted_since r2 r3 -> counted_since r1 r3.
Proof.
  intros C1 C2 i. destruct (C1 i) as [L1 T1]. destruct (C2 i) as [L2 T2]. split; [lia|]. intros E. rewrite T2 by lia. apply T1. lia.
Qed.

Lemma stepped_counted reg held reg' held' :
  reg_wf reg held -> reg_wf reg' held' -> hives_ok reg -> (forall i, 0 <= generation_of reg i /\ generation_of reg i + 1 < 18446744073709551616) -> stepped reg reg' -> counted_since reg reg'.
Proof.
  intros W W' HO HG ST i. destruct (HG i) as [G0 G1]. split.
  - destruct (sp_generation _ _ ST i) as [-> | ->]; [done|]. unfold u64. rewrite Z.mod_small by lia. lia.
  - intros E. unfold text_of. assert (Eh : hive_of reg' i = hive_of reg i) by (unfold hive_of; by rewrite (sp_hives _ _ ST)). rewrite Eh.
    destruct (hive_of reg i) as [h|] eqn:Hh; [|done]. cbn [mbind option_bind]. destruct (HO i h Hh) as [(k & Hk & _) _].
    rewrite (hive_text_same reg held reg' held' h W W'); [done|by eexists|]. by apply (sp_same _ _ ST i).
Qed.

Lemma request_running op st : running st -> op_fine (cl_reg st) op -> exists st', reg_do op st = Some st' /\ running st' /\ counted_since (cl_reg st) (cl_reg st').
Proof.
  intros (WC & Hc & HO & HS & HG) (F & FN & HF & Hop). destruct (reg_do_ok op st WC F FN) as (st' & E & WC'). exists st'. split; [done|].
  assert (HF' : counts_fit (cl_reg st)) by (intros i; specialize (HF i); specialize (HG i); lia). pose proof (reg_do_stepped op st st' WC F Hc HO HF' Hop E) as ST.
  assert (C : counted_since (cl_reg st) (cl_reg st')) by (eapply stepped_counted; [apply WC|apply WC'|done|by intros i|done]). split; [|done].
  split_and!; [done|apply ST|apply ST| |].
  - intros i. specialize (HS i). unfold hive_of in *. by rewrite (sp_hives _ _ ST).
  - intros i. destruct (C i) as [? _]. specialize (HG i). lia.
Qed.

Lemma serve_running ops st : running st -> serve_fine ops st -> exists st', for_each (fun st op => reg_do op st) ops st = Some st' /\ running st' /\ counted_since (cl_reg st) (cl_reg st').
Proof.
  revert st. induction ops as [|op ops IH]; intros st R; cbn [serve_fine for_each]; [intros _; exists st; split_and!; [done..|by intros i]|].
  intros [Hop Hops]. destruct (request_running op st R Hop) as (st1 & E1 & R1 & C1). rewrite E1. cbn [mbind option_bind].
  destruct (IH st1 R1 (Hops st1 E1)) as (st2 & E2 & R2 & C2). exists st2. split_and!; [done..|]. by eapply counted_trans.
Qed.

Lemma serve_server ops sv : running (sv_client sv) -> serve_fine ops (sv_client sv) ->
  exists client, serve ops sv = Some (mk_server client (sv_card sv) (sv_saved sv)) /\ running client /\ counted_since (sv_reg sv) (cl_reg client).
Proof. intros R Hf. unfold serve. destruct (serve_running ops _ R Hf) as (st' & -> & R' & C). by exists st'. Qed.

(** ** The saved hives *)

(** Whether the count says that hive [i] was saved and did not change since. *)
Definition clean (sv : reg_server) (i : bool) : bool := (generation_of (sv_reg sv) i =? saved_of sv i) && (0 <? saved_of sv i).

Definition on_card (sv : reg_server) (i : bool) : Prop := exists t, text_of (sv_reg sv) i = Some t /\ hive_saved (sd_files (sv_card sv)) (flush_name i) t.

Record server_ok (sv : reg_server) : Prop := {
  so_running : running (sv_client sv);
  so_card : sd_sound (sv_card sv);
  so_saved : forall i, 0 <= saved_of sv i <= generation_of (sv_reg sv) i;
  so_clean : forall i, clean sv i = true -> on_card sv i;
}.

(** Requests keep it: a hive that is clean after them did not change. *)
Lemma served_ok sv client :
  server_ok sv -> running client -> counted_since (sv_reg sv) (cl_reg client) -> server_ok (mk_server client (sv_card sv) (sv_saved sv)).
Proof.
  intros [R S B C] R' CS. split; [done|done| |].
  - intros i. destruct (CS i) as [L _]. specialize (B i). unfold saved_of, sv_reg in *. simpl in *. lia.
  - intros i Hc. unfold clean in Hc. apply andb_true_iff in Hc as [H1 H2]. btrue. destruct (CS i) as [L T]. specialize (B i).
    unfold on_card, saved_of, sv_reg in *. cbn [sv_client sv_card sv_saved] in *. rewrite T by lia. apply (C i). unfold clean, saved_of, sv_reg. apply andb_true_iff. split; lia.
Qed.

Lemma text_total st i : running st -> is_Some (text_of (cl_reg st) i).
Proof.
  intros ((W & _) & _ & HO & HS & _). destruct (HS i) as [h Hh]. unfold text_of. rewrite Hh. cbn [mbind option_bind]. destruct (HO i h Hh) as [(k & Hk & _) _].
  destruct (save_enough (cl_reg st) (cl_held st) h k [] (walk_fuel (cl_reg st)) W Hk) as [_ [t Ht]]; [unfold walk_fuel; lia|]. unfold hive_text. rewrite Ht. by eexists.
Qed.

Lemma quiet_running st reg : running st -> quiet (cl_reg st) reg -> running (mk_client reg (cl_held st) (cl_asked st)) /\ counted_since (cl_reg st) reg.
Proof.
  intros (WC & Hc & HO & HS & HG) Q. pose proof (quiet_still _ _ Q) as [(E1 & E2 & E3) S2 S3]. destruct WC as [W WE].
  assert (W' : reg_wf reg (cl_held st)) by (by eapply quiet_wf).
  assert (EG : forall i, generation_of reg i = generation_of (cl_reg st) i) by (intros i; unfold generation_of; by rewrite E3).
  assert (EH : forall i, hive_of reg i = hive_of (cl_reg st) i) by (intros i; unfold hive_of; by rewrite E2). split; [split_and!|].
  - split; [done|]. simpl. destruct (quiet_calm _ _ Q) as [_ ->]. done.
  - simpl. congruence.
  - by apply S2.
  - intros i. simpl. by rewrite EH.
  - intros i. simpl. by rewrite EG.
  - intros i. rewrite EG. split; [done|]. intros _. unfold text_of. rewrite EH. destruct (hive_of (cl_reg st) i) as [h|] eqn:Hh; [|done]. cbn [mbind option_bind].
    destruct (HO i h Hh) as [(k & Hk & _) _]. rewrite (hive_text_same (cl_reg st) (cl_held st) reg (cl_held st) h W W'); [done|by eexists|]. by apply (S3 i).
Qed.

Lemma flush_take_ok i sv : server_ok sv -> exists taken client,
  flush_take i sv = Some (taken, mk_server client (sv_card sv) (sv_saved sv)) /\ running client /\ counted_since (sv_reg sv) (cl_reg client) /\
  (taken = None -> generation_of (sv_reg sv) i = saved_of sv i) /\
  (forall data, taken = Some (Some data) -> text_of (sv_reg sv) i = Some data /\ saved_of sv i < generation_of (sv_reg sv) i).
Proof.
  intros [R S B C]. pose proof R as (_ & _ & HO & HS & _). destruct (HS i) as [h Hh]. unfold flush_take. change (cl_reg (sv_client sv)) with (sv_reg sv) in Hh. rewrite Hh.
  destruct (_ =? _) eqn:Eg; btrue; [exists None, (sv_client sv); destruct sv; split_and!; [done..|by intros j|done]|].
  unfold make_text. destruct (malloc (sv_reg sv)) as [ok r1] eqn:Em. assert (Q1 : quiet (sv_reg sv) r1) by (rewrite <- (f_equal snd Em : snd _ = r1); apply malloc_quiet).
  destruct (quiet_running (sv_client sv) r1 R Q1) as [R1 C1]. destruct ok; cbn [negb]; cbv iota; [|cbn [mbind option_bind]; eexists _, _; split_and!; [done..|]; intros data [=]].
  destruct (text_total _ i R1) as [t Ht]. assert (Ht' : text_of (sv_reg sv) i = Some t).
  { destruct (C1 i) as [_ T]. unfold sv_reg. rewrite <- T; [exact Ht|]. destruct Q1 as (_ & _ & _ & _ & _ & Q1 & _). unfold sv_reg in Q1. unfold generation_of. by rewrite Q1. }
  assert (Eh : hive_of r1 i = Some h) by (destruct Q1 as (_ & _ & _ & _ & Q1 & _); unfold hive_of in *; by rewrite Q1).
  unfold text_of in Ht. cbn [cl_reg] in Ht. rewrite Eh in Ht. cbn [mbind option_bind] in Ht. destruct (hive_text r1 h) as [t0|]; [|done]. cbn [mbind option_bind] in Ht |- *.
  eexists _, _. split_and!; [done..|]. intros data E. apply (inj Some), (inj Some) in E. split; [by rewrite Ht', <- E, Ht|]. specialize (B i). lia.
Qed.

Lemma names_apart i x : x = hive_path (flush_name (negb i)) \/ x = hive_tmp (flush_name (negb i)) -> x <> hive_path (flush_name i) /\ x <> hive_tmp (flush_name i).
Proof. destruct i; intros [-> | ->]; vm_compute; done. Qed.

(** A snapshot of the other hive leaves what is saved. *)
Lemma saved_others i t files files' : others_same (flush_name i) files files' -> hive_saved files (flush_name (negb i)) t -> hive_saved files' (flush_name (negb i)) t.
Proof.
  intros O H. destruct (names_apart i _ (or_introl eq_refl)) as [A1 A2]. destruct (names_apart i _ (or_intror eq_refl)) as [B1 B2].
  unfold hive_saved. by rewrite (O _ A1 A2), (O _ B1 B2).
Qed.

(** What a turn does when it writes. *)
Lemma wrote_ok i data card c2 c3 saved g :
  server_ok (mk_server c2 card saved) -> running c3 -> counted_since (cl_reg c2) (cl_reg c3) ->
  (generation_of (cl_reg c2) i = g -> text_of (cl_reg c2) i = Some data) -> saved_of (mk_server c2 card saved) i < g <= generation_of (cl_reg c2) i ->
  forall ok card', horizon_registry_write_snapshot (flush_name i) data card = (ok, card') ->
  server_ok (mk_server c3 card' (if ok then set_saved saved i g else saved)).
Proof.
  intros [R2 S2 B2 H2] R3 C3 Ht Hg ok card' Ew. destruct (snapshot_others _ _ _ _ _ S2 Ew) as [HO S']. split; [done|done| |].
  - intros j. destruct (C3 j) as [L _]. pose proof (B2 j) as Bj. pose proof (B2 i) as Bi. unfold saved_of, sv_reg in *. cbn [sv_client sv_saved] in *.
    destruct ok; [|lia]. destruct i, j; cbn [set_saved fst snd] in *; lia.
  - intros j Hc. unfold clean in Hc. apply andb_true_iff in Hc as [Hc1 Hc2]. btrue. destruct (C3 j) as [L T]. pose proof (B2 j) as Bj.
    destruct (decide (j = i)) as [-> |Hji].
    + destruct ok; unfold on_card in *; unfold saved_of, sv_reg in *; cbn [sv_client sv_saved sv_card] in *; [|lia].
      assert (Es : (if i then snd (set_saved saved i g) else fst (set_saved saved i g)) = g) by (by destruct i). rewrite Es in Hc1.
      exists data. split; [rewrite T by lia; apply Ht; lia|]. left. by apply (snapshot_saves (flush_name i) data card card' S2).
    + assert (Hj : j = negb i) by (by destruct i, j). subst j. destruct (H2 (negb i)) as (t & Htj & Hsj).
      * unfold clean, saved_of, sv_reg in *. cbn [sv_client sv_saved] in *. assert (Es : (if negb i then snd (if ok then set_saved saved i g else saved) else fst (if ok then set_saved saved i g else saved)) =
          (if negb i then snd saved else fst saved)) by (by destruct i, ok). rewrite Es in Hc1, Hc2. apply andb_true_iff. split; lia.
      * exists t. unfold on_card, sv_reg in *. cbn [sv_client sv_card] in *. split; [|by eapply saved_others]. rewrite T; [done|].
        unfold saved_of, sv_reg in Bj, Hc1. cbn [sv_client sv_saved] in Bj, Hc1. destruct i, ok; cbn [negb set_saved fst snd] in *; lia.
Qed.

Lemma flush_hive_ok i during after_write sv :
  server_ok sv -> flush_fine i during after_write sv ->
  exists ok sv', flush_hive i during after_write sv = Some (ok, sv') /\ server_ok sv' /\ counted_since (sv_reg sv) (sv_reg sv') /\
    saved_of sv' (negb i) = saved_of sv (negb i) /\ (ok = true -> generation_of (sv_reg sv) i <= saved_of sv' i).
Proof.
  intros O HF. destruct (flush_take_ok i sv O) as (taken & c1 & E1 & R1 & C1 & Hn & Hd). destruct (HF _ _ E1) as [F1 F2].
  assert (O1 : server_ok (mk_server c1 (sv_card sv) (sv_saved sv))) by (by apply served_ok).
  destruct (serve_server during (mk_server c1 (sv_card sv) (sv_saved sv)) R1 F1) as (c2 & E2 & R2 & C2). specialize (F2 _ E2). cbn [sv_card sv_saved sv_client] in E2, F2.
  assert (O2 : server_ok (mk_server c2 (sv_card sv) (sv_saved sv))) by (by apply (served_ok _ c2 O1)). unfold flush_hive. rewrite E1. cbn [mbind option_bind]. rewrite E2. cbn [mbind option_bind].
  assert (C02 : counted_since (sv_reg sv) (cl_reg c2)) by (by eapply counted_trans).
  destruct taken as [[data|]|]; [|by eexists _, _|eexists _, _; split_and!; [done..|]; intros _; by rewrite (Hn eq_refl)]. destruct (Hd data eq_refl) as [Ht Hs]. cbn [sv_card sv_client sv_saved].
  destruct (horizon_registry_write_snapshot _ _ _) as [ok card'] eqn:Ew. destruct (serve_server after_write (mk_server c2 card' (sv_saved sv)) R2 F2) as (c3 & -> & R3 & C3).
  cbn [mbind option_bind sv_card sv_client sv_saved]. eexists _, _. split; [done|].
  pose proof (wrote_ok i data (sv_card sv) c2 c3 (sv_saved sv) (generation_of (sv_reg sv) i) O2 R3 C3) as HW. destruct (C02 i) as [L T].
  assert (HW' := HW (fun E => eq_trans (T E) Ht) (conj Hs L) ok card' Ew). assert (C03 : counted_since (sv_reg sv) (cl_reg c3)) by (by eapply counted_trans).
  destruct ok; split_and!; try done; [by destruct i|]. intros _. unfold saved_of. by destruct i.
Qed.

Lemma flush_ok d1 d2 d3 d4 sv :
  server_ok sv -> flush_fine false d1 d2 sv -> (forall ok sv1, flush_hive false d1 d2 sv = Some (ok, sv1) -> flush_fine true d3 d4 sv1) ->
  exists ok sv', horizon_registry_flush d1 d2 d3 d4 sv = Some (ok, sv') /\ server_ok sv' /\ counted_since (sv_reg sv) (sv_reg sv') /\
    (ok = true -> forall i, generation_of (sv_reg sv) i <= saved_of sv' i).
Proof.
  intros O F1 F2. unfold horizon_registry_flush. destruct (flush_hive_ok false d1 d2 sv O F1) as (ok1 & sv1 & E1 & O1 & C1 & N1 & S1). rewrite E1. cbn [mbind option_bind].
  destruct (flush_hive_ok true d3 d4 sv1 O1 (F2 _ _ E1)) as (ok2 & sv2 & -> & O2 & C2 & N2 & S2). cbn [mbind option_bind]. eexists _, _.
  split_and!; [done..|by eapply counted_trans|]. intros [-> ->]%andb_true_iff i. change (negb true) with false in N2. destruct i; [|by rewrite N2; apply S1]. specialize (S2 eq_refl). destruct (C1 true). lia.
Qed.

(** ** The server as it runs *)

(** The requests of a flush. *)
Definition flush_requests (d1 d2 d3 d4 : list reg_op) (sv : reg_server) : Prop :=
  flush_fine false d1 d2 sv /\ forall ok sv1, flush_hive false d1 d2 sv = Some (ok, sv1) -> flush_fine true d3 d4 sv1.

Inductive server_step : reg_server -> reg_server -> Prop :=
  | Step_request op sv sv' : op_fine (sv_reg sv) op -> serve [op] sv = Some sv' -> server_step sv sv'
  | Step_flush d1 d2 d3 d4 sv ok sv' : flush_requests d1 d2 d3 d4 sv -> horizon_registry_flush d1 d2 d3 d4 sv = Some (ok, sv') -> server_step sv sv'.

(** The server after the first request, on any card. *)
Definition server_started (sv : reg_server) : Prop :=
  exists card memory clock card' reg, sd_sound card /\ horizon_registry_init card (reg_nothing memory clock) = Some (0, card', reg) /\
    sv = mk_server (mk_client reg [] []) card' (0, 0).

Definition server_reachable (sv : reg_server) : Prop := exists sv0, server_started sv0 /\ rtc server_step sv0 sv.

Lemma started_ok sv : server_started sv -> server_ok sv.
Proof.
  intros (card & memory & clock & card' & reg & S & E & ->). destruct (init_ok _ _ _ _ _ E) as (W & V & F & Hc & HO & HS & HG & HF).
  assert (Hg : forall i, generation_of reg i = 0) by (intros []; unfold generation_of; by rewrite HG). split.
  - split_and!; [split; [done|]; simpl; by rewrite V|done|done|done|]. intros i. simpl. by rewrite Hg.
  - intros n e. simpl. rewrite HF. apply S.
  - intros i. unfold sv_reg. simpl. rewrite Hg. by destruct i.
  - intros i. unfold clean, saved_of. simpl. by destruct i; rewrite andb_false_r.
Qed.

Lemma reachable_ok sv : server_reachable sv -> server_ok sv.
Proof.
  intros (sv0 & H0 & HR). apply started_ok in H0. induction HR as [|x y z Hxy _ IH]; [done|]. apply IH. clear IH.
  destruct Hxy as [op s s' F E|d1 d2 d3 d4 s ok s' [F1 F2] E].
  - destruct (serve_server [op] s (so_running _ H0)) as (c & E' & R & C); [by split|]. rewrite E in E'. injection E' as ->. by apply served_ok.
  - destruct (flush_ok d1 d2 d3 d4 s H0 F1 F2) as (ok' & s2 & E' & O' & _). rewrite E in E'. injection E' as <- ->. done.
Qed.

(** C23: A hive that was saved at least once and whose count of changes is the
    saved one is on the card as it is in memory: the next start finds the text
    of the hive in its file, or in the .tmp when there is no file. It holds
    through requests and flushes, with requests answered during a flush and any
    failures of the card and of memory. Two requests are left out, whose change
    the code does not count: a class given to a key that exists
    (horizon_registry.h:452) and the deletion of the key of a hive itself
    (horizon_registry_server.h:158). The registry is one that memory holds, and
    the 64-bit counts do not wrap. *)
Theorem registry_saved_current sv i :
  server_reachable sv -> generation_of (sv_reg sv) i = saved_of sv i -> 0 < saved_of sv i ->
  exists h t, hive_of (sv_reg sv) i = Some h /\ hive_text (sv_reg sv) h = Some t /\ hive_saved (sd_files (sv_card sv)) (flush_name i) (hive_header i ++ t).
Proof.
  intros R E H0. destruct (so_clean _ (reachable_ok _ R) i) as (t & Ht & Hs); [unfold clean; apply andb_true_iff; split; lia|]. unfold text_of in Ht.
  destruct (hive_of (sv_reg sv) i) as [h|]; [|done]. cbn [mbind option_bind] in Ht. destruct (hive_text _ h) as [t0|] eqn:E0; [|done]. cbn [mbind option_bind] in Ht.
  apply (inj Some) in Ht. exists h, t0. split_and!; [done..|]. by rewrite Ht.
Qed.

(** C22: A flush of a running registry returns, with requests answered while it
    runs; when it reports success, every hive that was changed at least once
    since the start and that no request changed during the flush is on the card
    as it is in memory. The requests, before the flush and during it, are those
    of memory that holds the registry, without the two whose change the code
    does not count: a class given to a key that exists (horizon_registry.h:452)
    and the deletion of the key of a hive itself
    (horizon_registry_server.h:158). *)
Theorem registry_flush_saves sv d1 d2 d3 d4 :
  server_reachable sv -> flush_requests d1 d2 d3 d4 sv ->
  exists ok sv', horizon_registry_flush d1 d2 d3 d4 sv = Some (ok, sv') /\
    (ok = true -> forall i, generation_of (sv_reg sv') i = generation_of (sv_reg sv) i -> 0 < generation_of (sv_reg sv) i ->
     exists t, text_of (sv_reg sv') i = Some t /\ hive_saved (sd_files (sv_card sv')) (flush_name i) t).
Proof.
  intros R [F1 F2]. destruct (flush_ok d1 d2 d3 d4 sv (reachable_ok _ R) F1 F2) as (ok & sv' & E & O & C & HS). exists ok, sv'. split; [done|]. intros Hok i Hg H0.
  specialize (HS Hok i). pose proof (so_saved _ O i) as B. apply (so_clean _ O i). unfold clean. apply andb_true_iff. split; lia.
Qed.

(** No change of a hive escapes its count: a request of a reachable
    registry never lowers the count of a hive, and when it leaves the count
    alone, the text of the hive, with every key, class, value and time below
    it, is what it was. *)
Theorem registry_changes_counted sv op sv' i :
  server_reachable sv -> op_fine (sv_reg sv) op -> serve [op] sv = Some sv' ->
  generation_of (sv_reg sv) i <= generation_of (sv_reg sv') i /\
  (generation_of (sv_reg sv') i = generation_of (sv_reg sv) i -> text_of (sv_reg sv') i = text_of (sv_reg sv) i).
Proof.
  intros R F E. destruct (serve_server [op] sv (so_running _ (reachable_ok _ R))) as (c & E' & _ & C); [by split|]. rewrite E in E'. injection E' as ->. apply (C i).
Qed.

(** A registry the server has started: the hives of the card are loaded, the
    defaults are made and every change is counted. *)
Definition served_start (st : reg_client) : Prop :=
  exists card memory clock card' reg, horizon_registry_init card (reg_nothing memory clock) = Some (0, card', reg) /\ st = mk_client reg [] [].

(** It after any requests, whatever they answered. *)
Definition served (st : reg_client) : Prop := exists st0, served_start st0 /\ rtc reg_step st0 st.

Lemma served_wf st : served st -> client_wf st.
Proof.
  intros (st0 & (card & memory & clock & card' & reg & E & ->) & HR). destruct (init_ok _ _ _ _ _ E) as (W & V & _).
  apply (rtc_keeps reg_step client_wf (mk_client reg [] []) st); [|done|split; [done|]; simpl; by rewrite V]. intros x y [op s s' F Hd] W'. by eapply reg_do_wf.
Qed.

Lemma started_serves sv : server_started sv -> served_start (sv_client sv).
Proof. intros (card & memory & clock & card' & reg & _ & E & ->). by exists card, memory, clock, card', reg. Qed.

(** C19: No request faults or runs on. The registry is the one the server
    starts with: hives loaded from any card, with any failures of the card and
    of memory, and every later change walks the parents to count it in its
    hive. After any requests, each of the ten requests (open, create, delete,
    rename, set, delete, get and enumerate of values, enumerate of keys,
    notify) and each close of a handle returns and leaves the registry well
    formed, with links in circles and keys deleted while they are open: the
    subkeys and values of every key sorted with unique names, a key and its
    parent linked both ways, every object in the tree or held by a handle, its
    reference count exact. The registry is one that memory holds: it has fewer
    than 2^31 keys, a key fewer than 2^31 values and 2^32 - 1 references, and
    where keys are enumerated there are fewer than 8 million, so that a full
    name takes less than 2^32 bytes. *)
Theorem registry_no_fault st op :
  served st -> reg_fits (cl_reg st) -> op_fits (cl_reg st) op -> exists st', reg_do op st = Some st' /\ reg_wf (cl_reg st') (cl_held st').
Proof. intros R F N. destruct (reg_do_ok op st (served_wf _ R) F N) as (st' & E & W & _). eauto. Qed.

Lemma serve_one op sv sv' : serve [op] sv = Some sv' -> reg_do op (sv_client sv) = Some (sv_client sv').
Proof. unfold serve. cbn [for_each]. destruct (reg_do op (sv_client sv)) as [c|]; [|done]. cbn [mbind option_bind]. by intros [= <-]. Qed.

(** ** Examples *)

Definition empty_card : sd_card := mk_card ∅ 0 (fun _ => None) [].

Definition started : option (Z * sd_card * horizon_reg) := horizon_registry_init empty_card (reg_nothing (fun _ => true) (fun n => Z.of_nat n)).

Definition sample_server : reg_server :=
  match started with
  | Some (_, card, reg) => mk_server (mk_client reg [] []) card (0, 0)
  | None => mk_server (mk_client (reg_nothing (fun _ => true) (fun n => Z.of_nat n)) [] []) empty_card (0, 0)
  end.

(** A key is made below Machine. *)
Definition sample_request : reg_op := Op_create None (text "\Registry\Machine\A") 0 0 [].

Definition sample_served : reg_server := default sample_server (serve [sample_request] sample_server).
Definition sample_flushed : reg_server := default sample_server (snd <$> horizon_registry_flush [] [] [] [] sample_served).

Lemma sample_started : server_started sample_server.
Proof.
  assert (E : (fst ∘ fst) <$> started = Some 0) by (vm_compute; reflexivity). unfold sample_server. destruct started as [[[st card] reg]|] eqn:Es; [|done]. injection E as ->.
  exists empty_card, (fun _ => true), (fun n => Z.of_nat n), card, reg. split_and!; [by intros n e|exact Es|done].
Qed.

Lemma fine_nil sv : flush_requests [] [] [] [] sv.
Proof. split; intros; intros taken sv2 _; split; done. Qed.

Lemma sample_fine : op_fine (sv_reg sample_server) sample_request.
Proof.
  split_and!; [apply (bool_decide_eq_true_1 (reg_fits (sv_reg sample_server))); vm_compute; reflexivity|done|intros []; vm_compute; reflexivity|by left].
Qed.

Lemma sample_served_eq : serve [sample_request] sample_server = Some sample_served.
Proof.
  unfold sample_served. assert (E : bool_decide (is_Some (serve [sample_request] sample_server)) = true) by (vm_compute; reflexivity).
  apply bool_decide_eq_true_1 in E. by destruct E as [sv ->].
Qed.

(** The full name of a key of a started registry. *)
Lemma registry_no_fault_witness :
  exists st', reg_do (Op_enum_key 2 (-1) HORIZON_REG_KEY_NAME 100) (sv_client sample_served) = Some st' /\ reg_wf (cl_reg st') (cl_held st').
Proof.
  apply (registry_no_fault (sv_client sample_served)).
  - exists (sv_client sample_server). split; [|eapply rtc_once, (Reg_step sample_request); [exact (proj1 sample_fine)|exact (serve_one _ _ _ sample_served_eq)]].
    exact (started_serves _ sample_started).
  - apply (bool_decide_eq_true_1 (reg_fits (cl_reg (sv_client sample_served)))). vm_compute. reflexivity.
  - cbn [op_fits]. apply (bool_decide_eq_true_1 (names_fit (cl_reg (sv_client sample_served)))). vm_compute. reflexivity.
Defined.

Lemma sample_served_reachable : server_reachable sample_served.
Proof. exists sample_server. split; [apply sample_started|]. eapply rtc_once, (Step_request sample_request); [exact sample_fine|exact sample_served_eq]. Qed.

Lemma sample_flushed_reachable : server_reachable sample_flushed.
Proof.
  destruct sample_served_reachable as (sv0 & H0 & H). exists sv0. split; [done|]. eapply rtc_r; [exact H|]. unfold sample_flushed.
  assert (E : bool_decide (is_Some (horizon_registry_flush [] [] [] [] sample_served)) = true) by (vm_compute; reflexivity).
  apply bool_decide_eq_true_1 in E. destruct E as [[ok sv] E]. rewrite E. simpl. eapply Step_flush; [apply fine_nil|exact E].
Qed.

(** The user's hive does not change with a key below Machine. *)
Lemma registry_changes_counted_witness :
  generation_of (sv_reg sample_server) true <= generation_of (sv_reg sample_served) true /\
  (generation_of (sv_reg sample_served) true = generation_of (sv_reg sample_server) true -> text_of (sv_reg sample_served) true = text_of (sv_reg sample_server) true).
Proof.
  apply (registry_changes_counted sample_server sample_request sample_served true).
  - exact (ex_intro _ sample_server (conj sample_started (rtc_refl _ _))).
  - exact sample_fine.
  - exact sample_served_eq.
Defined.

Lemma registry_saved_current_witness :
  exists h t, hive_of (sv_reg sample_flushed) false = Some h /\ hive_text (sv_reg sample_flushed) h = Some t /\
    hive_saved (sd_files (sv_card sample_flushed)) (flush_name false) (hive_header false ++ t).
Proof. apply (registry_saved_current sample_flushed false sample_flushed_reachable); vm_compute; reflexivity. Defined.

Lemma registry_flush_saves_witness :
  exists ok sv', horizon_registry_flush [] [] [] [] sample_served = Some (ok, sv') /\
    (ok = true -> forall i, generation_of (sv_reg sv') i = generation_of (sv_reg sample_served) i -> 0 < generation_of (sv_reg sample_served) i ->
     exists t, text_of (sv_reg sv') i = Some t /\ hive_saved (sd_files (sv_card sv')) (flush_name i) t).
Proof. apply (registry_flush_saves sample_served [] [] [] [] sample_served_reachable (fine_nil _)). Defined.

(** The count is 1 after the request, and the flush of the example succeeds. *)
Example sample_flush : generation_of (sv_reg sample_served) false = 1 /\ fst <$> horizon_registry_flush [] [] [] [] sample_served = Some true /\ sv_saved sample_flushed = (1, 0).
Proof. vm_compute. done. Qed.
